(* ===== verification/_CoqProject ===== *)
-Q . S2P
Prelude.v
Checked.v
Memory.v
Printf.v
Frames.v
Pmm.v
Kmalloc.v
Heap.v
Vm.v
AddrSpace.v
KernMem.v
Ramfs.v
RamfsPipe.v
RamfsData.v
RamfsFiles.v
RamfsTree.v
RamfsPaths.v
Proc.v
File.v
FsSyscall.v
FsInv.v
FsCalls.v
FsTheorems.v
Inflate.v
InflateBits.v
InflateHuff.v
InflateSafe.v
InflateTokens.v
InflateDynamic.v
InflateRoundtrip.v
Gzip.v
Kfdt.v
KfdtTree.v
Cpio.v
CpioLoad.v
UserMem.v
Elf.v
ElfLoad.v
Kern.v
Mmap.v
MmapCalls.v
ProcOps.v
ProcInv.v
Calm.v
ProcSteps.v
Exec.v
ExecStack.v
Syscall.v
SyscallInv.v
ProcCtx.v
ExecCommit.v
ForkMem.v
Boot.v
RtosSched.v
RtosSync.v
RtosInv.v
RtosMsgq.v
RtosSlab.v
RtosHeap.v
RtosNet.v
SimEvents.v
SimBus.v
NorFlash.v
SimBoard.v
SimLink.v
SimChip.v
RtosFlash.v
RtosFs.v
RtosFsSpec.v
RtosFsBoard.v
BootFdt.v
BootFdtTree.v
BootCmd.v
BootFat.v
BootFatSpec.v
BootMain.v
BootHandoff.v
BootTheorems.v
