(* ===== verification/Prelude.v ===== *)
(** Verification of the ARM kernel ([src/kernel]) and of the bootloader that
    starts it ([src/bootloader]), of the RTOS ([src/rtos]) and of the simulated
    board its flash driver runs on ([src/sim]).

    * The program

    The kernel boots on a Cortex-A7, reads a device tree, unpacks a gzipped cpio
    archive into an in-memory file system, starts [/init] from it and then
    serves Linux system calls to user processes.  Its parts, and the files that
    model them:

    - [mm/pmm.c], the bitmap allocator of page frames: [Pmm], behind the
      interface [Frames.FrameAlloc] through which everybody else uses it;
    - [mm/kmalloc.c], the heap: [Kmalloc] (code), [Heap] (theorems), behind the
      interface [KernMem.KMem];
    - [arch/arm/mmu.c] and [arch/arm/vm.c], the MMU and address spaces: [Vm]
      (code and invariant), [AddrSpace] (theorems), [UserMem] (an address space
      as a partial map from addresses to bytes);
    - [fs/ramfs.c], files, directories, links and pipes: [Ramfs] (code),
      [RamfsPipe], [RamfsData], [RamfsFiles], [RamfsTree], [RamfsPaths];
    - [fs/file.c] and [fs/fs_syscall.c], [fs/vfs.c], open files and the calls on
      them: [File], [FsSyscall] (code), [FsInv], [FsCalls], [FsTheorems];
    - [lib/inflate.c], the gzip decompressor: [Inflate] (code), [InflateBits],
      [InflateHuff], [InflateSafe], [InflateTokens], [InflateDynamic],
      [InflateRoundtrip], [Gzip];
    - [drivers/of/kfdt.c], the device tree reader: [Kfdt], [KfdtTree];
    - [fs/cpio.c], the archive unpacker: [Cpio], [CpioLoad];
    - [fs/binfmt_elf.c], the ELF loader: [Elf], [ElfLoad];
    - [mm/mmap.c], [brk] and [mmap]: [Mmap], [MmapCalls];
    - [kernel/proc.c], processes: [Proc] (table, scheduler), [ProcOps] (switch,
      fork, sleep, exit, wait, faults), [Exec] (program start), and the
      theorems in [ProcInv], [Calm], [ProcSteps], [ProcCtx], [ExecStack],
      [ExecCommit], [ForkMem];
    - [arch/arm/syscall.c], the dispatcher, and the timer interrupt of
      [kernel/main.c]: [Syscall], with [SyscallInv];
    - the boot sequence of [kernel/main.c]: [Boot];
    - [lib/libk.c]: [Memory]; [lib/printf.c], the formatter: [Printf].

    The bootloader loads the kernel, the device tree and the archive from an SD
    card or from SPI flash, writes the kernel's command line into the tree and
    branches to the kernel:

    - [fdt.c], the device-tree editor: [BootFdt] (code), [BootFdtTree] (as an
      update of the tree);
    - [fat.c] and the block loop of [sdcard.c], the FAT reader: [BootFat] (code),
      [BootFatSpec];
    - [main.c], the command line: [BootCmd], with what the kernel reads out of
      it; the boot sequence, with the flash reader of [spinor.c]: [BootMain]
      (code), [BootHandoff], [BootTheorems] (theorems, a small card and flash).

    The RTOS runs tasks with fixed priorities on a microcontroller:

    - [kernel/sched.c] and the context switch of [arch/arm]: [RtosSched];
    - [kernel/sync.c], [kernel/syscall.c], semaphores, mutexes and the
      supervisor calls: [RtosSync], with the invariant of the whole in [RtosInv];
    - [kernel/msgq.c]: [RtosMsgq]; [lib/memslab.c]: [RtosSlab]; [lib/heap.c]:
      [RtosHeap];
    - [net/udp.c], ARP, IPv4 and UDP: [RtosNet];
    - [drivers/spi/spi_stm32.c], [drivers/flash/flash_w25q.c],
      [drivers/clock/clock_stm32.c]: [RtosFlash], behind the interface of
      [include/drivers/flash.h], [NorFlash];
    - [fs/fs.c] and [fs/tinyfs.c], the file system on the flash: [RtosFs] (code),
      [RtosFsSpec] (over any flash), [RtosFsBoard] (on the board).

    The simulator runs that firmware on a model of the board:

    - [core/event_queue.c], the timed events: [SimEvents];
    - [core/membus.c], the memory bus with its caches: [SimBus];
    - [devices/w25q128.c], [core/spi_bus.c], [hw/stm32/stm32_spi.c],
      [hw/stm32/stm32_gpio.c], the clock registers and the main loop of
      [soc/stm32f411.c], the wiring of [machine/gameboy_v2.c]: [SimBoard] (code),
      [SimLink] (the invariant between driver and chip), [SimChip] (what each
      command does to the chip).

    [Prelude] holds notation, automation and the state monad, [Memory] byte
    memories, [Checked] the monad of code that may fault, [Kern] the state of
    the whole kernel.

    * How the code is modelled

    A [uint32_t] is a [Z] in [0, 2^32) and every operation that can wrap is
    written as wrapping ([+w], [-w], [*w]); an [int] that can overflow wraps to
    the signed range ([s32]); bit operations are those of [Z].
    Physical memory is a map from addresses to bytes, and the page tables, the
    heap's block headers and the file pages are laid out in it as the C code
    lays them out.  What the page table walker sees is a second memory, which a
    store reaches only when its cache line is cleaned; writes to system
    registers are a log.  Heap objects of the file system are records keyed by
    the pointers [kmalloc] returned, so sharing is sharing of a pointer.  A
    function that changes state is a computation of [M S R], a function from
    the state to a result and a state; code that reads untrusted bytes, or user
    memory, is a computation of [C S R], which can also be a [Fault] (an access
    outside the buffer, or through an unmapped address) or [NoFuel].  C
    functions keep their names; their loops are [forM], [forR], [iterC] or
    Fixpoints on the data.

    The components meet at interfaces: [FrameAlloc]/[FrameAllocSpec] (frames,
    instance in [Pmm]), [KMem]/[KMemSpec] (pages and heap together, instance in
    [KernMem]), [FlashDriver]/[FlashDriverSpec] (a NOR flash, instance in
    [RtosFlash]), [EventOwner]/[EventOwnerSpec] (a machine with timed callbacks,
    instance in [SimLink]).  The theorems of a client are proved against the
    interface and hold for the program by the instance.

    What the bootloader's hardware answers is a parameter: the size of the DRAM,
    the blocks of the card, the bytes a transfer on the flash bus clocks in; the
    theorems about them assume a card with a well-formed volume, or a flash that
    answers the read command.  Bootloader and kernel share the type of
    memories, so that the state in which the one ends is read by the other.

    The processor of the simulated board is not interpreted: the driver is the
    sequence of loads and stores its C code makes, each one instruction of the
    main loop, with any number of other instructions between them.

    * Loops with fuel

    Where a loop is not structural its fuel is a bound the theorems show to be
    enough: the first-fit search [2^28 + 1] rounds (a heap of [2^32] bytes has
    no more blocks), path lookup 9 levels of links (the code stops at 8), a
    transfer of [n] bytes [n/4096 + 2] pages, a directory list as many steps as
    there are heap objects, [inflate] one round for each bit left, the device
    tree one round for each word before the strings, cpio one for each word of
    the archive, the RTOS heap one round for each 12 bytes, a directory of the
    card [2^36] sectors, a file on it [2^23 + 1] clusters, a read of the flash
    [2^27] bursts, the bootloader's memory test 4096 words.  The driver's loops
    poll hardware: 4096 rounds for a byte on the SPI bus (2048 cycles at the
    slowest rate), 720001 for an erasure (720000 cycles).  The cycle counter is
    unbounded.  Where the code itself can run for ever the model says so:
    [NoFuel], and [CpioLoad.cpio_load_hangs].

    * What is proved

    - Memory: frames handed out are zeroed, disjoint and never a reserved one;
      the heap refines a finite map from pointers to contents, its areas are
      disjoint, freed memory can be used again, and it fails only when no free
      block and no run of frames is large enough (for sizes below
      [2^32 - 4 * PAGE_SIZE]; [kmalloc_size_wraps] is what happens beyond);
      [memmove] is right for every overlap.
    - Address spaces: mapping, unmapping, copying and destroying do to the
      hardware's view exactly what they promise, leave every other address
      space alone, and leak nothing.
    - Files: reads return the slice asked for, writes at or before the end of a
      file and below 0xFFFFF000 replace it, a pipe is a bounded queue, lookup
      follows the declarative meaning of paths, creation adds exactly one name;
      every sequence of file calls keeps the invariant of the whole layer
      (reference counts, pipe ends, trees), as long as F_SETFL does not change
      the access mode and writes stay below 0xFFFFF000.
    - Boot data: the decompressor is memory safe on any input, decodes every
      well-formed stream, and inverts gzip, refusing a wrong checksum or
      length; the device tree reader refines lookup in the tree; unpacking an
      archive creates exactly its entries; the ELF loader is safe on any image
      and loads the segments, byte for byte where they do not overlap.
    - Memory calls: [brk] and [munmap] change the process's memory as
      documented, [brk] over pages where nothing is mapped; [mmap2] is proved
      for anonymous mappings, not for files, and a failing MAP_FIXED call may
      lose pages of its range.
    - Processes: the scheduler starves nobody; under any sequence of system
      calls, interrupts and faults one process runs and no slot is half made,
      and until the process numbers reach the largest [int] the process table
      is sound as a whole (distinct numbers, no dangling parent, no lost
      wakeup); a preempted process resumes with the very registers, floating
      point state and page table it had; the initial stack of a program
      decodes to its arguments, environment and auxiliary vector; a forked
      child has the parent's registers and memory; the end of [execve]
      replaces the image or leaves it, and leaks neither, for an image that
      does not reach into the stack.
    - Boot: the memory the kernel starts with is laid out around the device
      tree and the archive, which stay as they were; a boot that reaches user
      mode runs process 1, alone.
    - Bootloader: the editor sets the command line in the tree, unless the old
      value is too short for it but takes as many words (then it is cut,
      [fdt_set_bootargs_cuts]), and never leaves its buffer; the FAT reader finds
      files by short and long names and loads them byte for byte, on FAT16 and
      FAT32; from a card or from flash, the kernel is entered with its image
      and the archive in memory and a tree in which the kernel's own reader
      finds the archive and the memory.
    - RTOS: a switch is to a ready task of the highest priority, and it changes
      nothing else; on one core, under any interleaving of the calls, no task
      is lost and none sleeps on a semaphore that is free (started on both
      cores, the scheduler runs one task on both: [smp_start_shares_task]); a queue is a bounded FIFO; block allocator and
      heap hand out disjoint memory and get it all back, the heap for sizes up
      to [2^32 - 16] ([heap_alloc_then_hangs] is what happens beyond); the
      network stack stays inside its buffers on any frame, sends the frames
      the protocols prescribe and delivers a datagram to the handler of its
      port.
    - Flash: no event of the simulator is missed or early; the caches of its bus
      are invisible; driver, SPI controller, select line and chip together are
      an ideal NOR flash under any sequence of calls; TinyFS over such a flash
      is a map from names of up to 15 characters to contents, and what was
      written is still there after a restart.

    Theorems that show a defect say so in their comment: the device tree
    reader's unbounded name, the archive loop that never ends, the lost end of
    file after F_SETFL, the user access to kernel sections, process numbers that
    wrap, heap sizes that wrap, a command line that is cut; in the RTOS, tasks
    of equal priority that never take turns, supervisor calls that block with
    interrupts off, a task on both cores, a heap that never answers, TinyFS
    names that are cut and bytes that are written over.

    * Not modelled

    The messages the kernel and the bootloader print (the formatter is modelled,
    the calls of it are left out); of the bootloader, DRAM training, the SD
    controller and the register set-up of the flash bus; the drivers of the interrupt controller, the
    timer and the UART (an interrupt is its number, the console a stream of
    characters); the assembly of [start.S], [vfp.S] and [mmu_asm.S], which is
    present as its effect; the user programs.  Of the RTOS, the other device
    drivers, the log, the shell, power management and the loader of images; of
    the simulator, the instruction interpreter, the interrupt controller, UART,
    timers and DMA, the FPGA and the display.  The other programs of the
    repository (toolchain, debugger, game engine, init, coreutils)
    are separate. *)
From stdpp Require Import gmap list fin_maps.
From Stdlib Require Import ZArith Lia.

#[global] Open Scope Z_scope.

(** * Machine integers

    A [w]-bit unsigned C integer is a [Z]; every C operation that can leave the
    range is written with its wrap-around: [+w], [-w], [*w], [.<<] and [.~] of
    [u32_scope] are the wrapping [uint32_t] operators (unsigned [/] and [mod]
    cannot wrap and are those of [Z]). *)

Definition u8 (x : Z) : Z := x mod 2 ^ 8.
Definition u16 (x : Z) : Z := x mod 2 ^ 16.
Definition u32 (x : Z) : Z := x mod 2 ^ 32.

(** Two's-complement reading of a 32-bit pattern ([(int32_t)x]). *)
Definition s32 (x : Z) : Z := let y := u32 x in if y <? 2 ^ 31 then y else y - 2 ^ 32.

Declare Scope u32_scope.
Delimit Scope u32_scope with u32.
Notation "a +w b" := (u32 (a + b)) (at level 50, left associativity) : u32_scope.
Notation "a -w b" := (u32 (a - b)) (at level 50, left associativity) : u32_scope.
Notation "a *w b" := (u32 (a * b)) (at level 40, left associativity) : u32_scope.
Notation "a .& b" := (Z.land a b) (at level 40, left associativity) : u32_scope.
Notation "a .| b" := (Z.lor a b) (at level 50, left associativity) : u32_scope.
Notation "a .^ b" := (Z.lxor a b) (at level 50, left associativity) : u32_scope.
Notation "a .<< b" := (u32 (Z.shiftl a b)) (at level 40, left associativity) : u32_scope.
Notation "a .>> b" := (Z.shiftr a b) (at level 40, left associativity) : u32_scope.
Notation ".~ a" := (u32 (Z.lnot a)) (at level 30, right associativity) : u32_scope.
#[global] Open Scope u32_scope.

(** [PAGE_SIZE] of [include/pmm.h]. *)
Definition PAGE_SIZE : Z := 4096.

Create HintDb kdb.
Create Rewrite HintDb kdb.

Lemma u32_small x : 0 <= x < 2 ^ 32 -> u32 x = x.
Proof. apply Z.mod_small. Qed.

Lemma u32_range x : 0 <= u32 x < 2 ^ 32.
Proof. apply Z.mod_pos_bound; lia. Qed.

Lemma u8_range x : 0 <= u8 x < 256.
Proof. apply (Z.mod_pos_bound x (2 ^ 8)); lia. Qed.

Lemma u8_small x : 0 <= x < 256 -> u8 x = x.
Proof. apply (Z.mod_small x (2 ^ 8)). Qed.

Lemma u8_u8 x : u8 (u8 x) = u8 x.
Proof. apply u8_small, u8_range. Qed.

Lemma u8_0 : u8 0 = 0.
Proof. reflexivity. Qed.

Lemma u32_u32 x : u32 (u32 x) = u32 x.
Proof. apply u32_small, u32_range. Qed.

Lemma u32_add_wrap x : 2 ^ 32 <= x < 2 ^ 33 -> u32 x = x - 2 ^ 32.
Proof. intros. unfold u32. symmetry. apply (Z.mod_unique_pos _ _ 1); lia. Qed.

Lemma s32_small x : 0 <= x < 2 ^ 31 -> s32 x = x.
Proof. intros H. unfold s32. rewrite u32_small by lia. by rewrite (proj2 (Z.ltb_lt _ _)) by lia. Qed.

#[export] Hint Rewrite u8_u8 u32_u32 u8_0 : kdb.
#[export] Hint Resolve u8_range u32_range : kdb.

(** Removes every wrap-around whose argument is in range. *)
Ltac u32_simpl :=
  repeat match goal with
  | |- context [u32 ?x] => rewrite (u32_small x) by lia
  | H : context [u32 ?x] |- _ => rewrite (u32_small x) in H by lia
  end.

(** Splits on the boolean comparisons that guard the goal. *)
Ltac case_bool :=
  match goal with
  | |- context [?a =? ?b] => destruct (Z.eqb_spec a b)
  | |- context [?a <? ?b] => destruct (Z.ltb_spec a b)
  | |- context [?a <=? ?b] => destruct (Z.leb_spec a b)
  end; cbn [negb andb orb] in *.

(** ** Alignment *)

Definition aligned (n x : Z) : Prop := x mod n = 0.

#[export] Instance aligned_dec n x : Decision (aligned n x).
Proof. unfold aligned. apply _. Defined.

(** [x & ~(2^k - 1)] rounds down to a multiple of [2^k]. *)
Lemma land_lnot_ones x k :
  0 <= k <= 32 -> 0 <= x < 2 ^ 32 ->
  Z.land x (u32 (Z.lnot (2 ^ k - 1))) = x - x mod 2 ^ k.
Proof.
  intros Hk Hx.
  replace (2 ^ k - 1) with (Z.ones k) by (rewrite Z.ones_equiv; lia).
  unfold u32. rewrite <- Z.land_ones by lia.
  rewrite (Z.land_comm (Z.lnot _)), Z.land_assoc, (Z.land_ones x) by lia.
  rewrite (Z.mod_small x) by lia.
  rewrite <- Z.ldiff_land, Z.ldiff_ones_r by lia.
  rewrite Z.shiftl_mul_pow2, Z.shiftr_div_pow2 by lia.
  pose proof (Z.div_mod x (2 ^ k)). lia.
Qed.

(** [(x + (2^k - 1)) & ~(2^k - 1)] rounds up. *)
Lemma align_up x k : 0 <= k <= 32 -> 0 <= x -> x + (2 ^ k - 1) < 2 ^ 32 ->
  Z.land (u32 (x + (2 ^ k - 1))) (u32 (Z.lnot (2 ^ k - 1))) = (x + (2 ^ k - 1)) / 2 ^ k * 2 ^ k.
Proof.
  intros Hk Hx Hlt. assert (0 < 2 ^ k) by (apply Z.pow_pos_nonneg; lia).
  rewrite u32_small, land_lnot_ones by lia. pose proof (Z.div_mod (x + (2 ^ k - 1)) (2 ^ k)). lia.
Qed.

(** [x & (2^k - 1)] is the remainder. *)
Lemma land_ones_mod x k : 0 <= k -> Z.land x (2 ^ k - 1) = x mod 2 ^ k.
Proof.
  intros. replace (2 ^ k - 1) with (Z.ones k) by (rewrite Z.ones_equiv; lia).
  by apply Z.land_ones.
Qed.

(** Disjoint bits add up. *)
Lemma lor_shiftl x y k : 0 <= k -> 0 <= x < 2 ^ k -> x .| Z.shiftl y k = x + y * 2 ^ k.
Proof.
  intros Hk Hx. rewrite <- (Z.shiftl_mul_pow2 y k) by done. rewrite <- Z.add_lor_land.
  enough (x .& Z.shiftl y k = 0) by lia. apply Z.bits_inj'. intros i Hi. rewrite Z.land_spec, Z.bits_0.
  destruct (decide (i < k)).
  - rewrite Z.shiftl_spec_low by lia. apply andb_false_r.
  - rewrite <- (Z.mod_small x (2 ^ k)) by lia. rewrite Z.mod_pow2_bits_high by lia. done.
Qed.

Lemma aligned_add n x y : aligned n x -> aligned n y -> aligned n (x + y).
Proof. unfold aligned. intros Hx Hy. rewrite Zplus_mod, Hx, Hy. apply Zmod_0_l. Qed.

Lemma aligned_mul n k : aligned n (n * k).
Proof. unfold aligned. rewrite Z.mul_comm. apply Z_mod_mult. Qed.

Lemma aligned_divide n x : n <> 0 -> aligned n x <-> (n | x).
Proof. intros. unfold aligned. by rewrite Z.mod_divide. Qed.

(** * A state monad

    Stateful C code over a state [S] is [M S R]: it consumes the state and
    returns its result with the new state.  The [do]-notation is stdpp's. *)

Definition M (S R : Type) : Type := S -> R * S.

#[export] Instance M_ret S : MRet (M S) := fun R r s => (r, s).
#[export] Instance M_bind S : MBind (M S) :=
  fun R R' k c s => let '(r, s') := c s in k r s'.

Section monad.
Context {S : Type}.

Definition gets {R} (f : S -> R) : M S R := fun s => (f s, s).
Definition modify (f : S -> S) : M S unit := fun s => (tt, f s).

(** Runs [c] on a component of a larger state. *)
Definition zoom {T R} (get : T -> S) (set : S -> T -> T) (c : M S R) : M T R :=
  fun t => let '(r, s) := c (get t) in (r, set s t).

(** [for (i = lo; n iterations; i += step) body]. *)
Fixpoint forM (n : nat) (i step : Z) (body : Z -> M S unit) : M S unit :=
  match n with
  | O => mret tt
  | Datatypes.S n' => body i ≫= fun _ => forM n' (i + step) step body
  end.

(** The same loop with an early [return]: [Some r] leaves it. *)
Fixpoint forR {R} (n : nat) (i step : Z) (body : Z -> M S (option R)) : M S (option R) :=
  match n with
  | O => mret None
  | Datatypes.S n' =>
      body i ≫= fun o =>
      match o with
      | Some r => mret (Some r)
      | None => forR n' (i + step) step body
      end
  end.

(** ** Weakest preconditions

    [wp c s Q]: from state [s], [c] ends with a result and a state in [Q].
    Every [M] computation is total, so this is total correctness. *)
Definition wp {R} (c : M S R) (s : S) (Q : R -> S -> Prop) : Prop :=
  Q (c s).1 (c s).2.

Lemma wp_ret {R} (r : R) s (Q : R -> S -> Prop) : Q r s -> wp (mret r) s Q.
Proof. done. Qed.

Lemma wp_bind {R R'} (c : M S R) (k : R -> M S R') s Q :
  wp c s (fun r s' => wp (k r) s' Q) -> wp (c ≫= k) s Q.
Proof. unfold wp, mbind, M_bind. by destruct (c s). Qed.

Lemma wp_assoc {R R' R''} (c : M S R) (k : R -> M S R') (k' : R' -> M S R'') s Q :
  wp ((c ≫= k) ≫= k') s Q -> wp (c ≫= fun r => k r ≫= k') s Q.
Proof. unfold wp, mbind, M_bind. by destruct (c s). Qed.

Lemma wp_mono {R} (c : M S R) s (P Q : R -> S -> Prop) :
  wp c s P -> (forall r s', P r s' -> Q r s') -> wp c s Q.
Proof. unfold wp. eauto. Qed.

Lemma wp_gets {R} (f : S -> R) s (Q : R -> S -> Prop) : Q (f s) s -> wp (gets f) s Q.
Proof. done. Qed.

Lemma wp_modify f s (Q : unit -> S -> Prop) : Q tt (f s) -> wp (modify f) s Q.
Proof. done. Qed.

Lemma wp_eq {R} (c : M S R) s r s' Q : c s = (r, s') -> wp c s Q -> Q r s'.
Proof. unfold wp. by intros ->. Qed.

Lemma wp_self {R} (c : M S R) s Q : (forall r s', c s = (r, s') -> Q r s') -> wp c s Q.
Proof. unfold wp. intros H. apply H. by destruct (c s). Qed.

(** Invariant rule of a loop that runs to its end. *)
Lemma wp_forM n i step body s (I : Z -> S -> Prop) :
  I i s ->
  (forall k s, 0 <= k < Z.of_nat n -> I (i + k * step) s ->
     wp (body (i + k * step)) s (fun _ s' => I (i + (k + 1) * step) s')) ->
  wp (forM n i step body) s (fun _ s' => I (i + Z.of_nat n * step) s').
Proof.
  revert i s. induction n as [|n IH]; intros i s Hi Hstep.
  - cbn. apply wp_ret. by rewrite Z.add_0_r.
  - cbn. apply wp_bind. eapply wp_mono.
    + specialize (Hstep 0 s). rewrite Z.mul_0_l, Z.add_0_r in Hstep. apply Hstep; [lia|done].
    + intros [] s' Hs'. rewrite Z.mul_1_l in Hs'.
      eapply wp_mono; [apply IH; [exact Hs'|]|].
      * intros k t Hk Ht.
        specialize (Hstep (k + 1) t).
        replace (i + (k + 1) * step) with (i + step + k * step) in Hstep by lia.
        replace (i + (k + 1 + 1) * step) with (i + step + (k + 1) * step) in Hstep by lia.
        apply Hstep; [lia|done].
      * cbn beta. intros _ t Ht. by replace (i + _) with (i + step + Z.of_nat n * step) by lia.
Qed.

(** Invariant rule of a loop with an early return. *)
Lemma wp_forR {R} n i step (body : Z -> M S (option R)) s
    (I : Z -> S -> Prop) (Q : option R -> S -> Prop) :
  I i s ->
  (forall k s, 0 <= k < Z.of_nat n -> I (i + k * step) s ->
     wp (body (i + k * step)) s (fun o s' =>
       match o with Some r => Q (Some r) s' | None => I (i + (k + 1) * step) s' end)) ->
  (forall s, I (i + Z.of_nat n * step) s -> Q None s) ->
  wp (forR n i step body) s Q.
Proof.
  revert i s. induction n as [|n IH]; intros i s Hi Hstep Hend.
  - cbn. apply wp_ret, Hend. by rewrite Z.add_0_r.
  - cbn. apply wp_bind. eapply wp_mono.
    + specialize (Hstep 0 s). rewrite Z.mul_0_l, Z.add_0_r in Hstep. apply Hstep; [lia|done].
    + intros [r|] s' Hs'; [by apply wp_ret|]. rewrite Z.mul_1_l in Hs'.
      apply IH; [exact Hs'| |].
      * intros k t Hk Ht.
        specialize (Hstep (k + 1) t).
        replace (i + (k + 1) * step) with (i + step + k * step) in Hstep by lia.
        replace (i + (k + 1 + 1) * step) with (i + step + (k + 1) * step) in Hstep by lia.
        apply Hstep; [lia|done].
      * intros t Ht. apply Hend. by replace (i + _) with (i + step + Z.of_nat n * step) by lia.
Qed.
End monad.

Lemma wp_zoom {S T R} (get : T -> S) (set : S -> T -> T) (c : M S R) t (Q : R -> T -> Prop) :
  wp c (get t) (fun r s => Q r (set s t)) -> wp (zoom get set c) t Q.
Proof. unfold wp, zoom. by destruct (c (get t)). Qed.

(** Steps through a monadic program: one construct of the monad at a time. *)
Ltac wp_step :=
  lazymatch goal with
  | |- wp (mbind _ _) _ _ => apply wp_bind
  | |- wp (mret _) _ _ => apply wp_ret
  | |- wp (gets _) _ _ => apply wp_gets
  | |- wp (modify _) _ _ => apply wp_modify
  | |- wp (zoom _ _ _) _ _ => apply wp_zoom
  end; cbn beta.
Ltac wp_steps := repeat wp_step.

(** * Pure loops *)

(** [for (i = lo; n iterations; i++) s = body(i, s)]. *)
Fixpoint for_loop {S} (n : nat) (i : Z) (body : Z -> S -> S) (s : S) : S :=
  match n with
  | O => s
  | Datatypes.S n' => for_loop n' (i + 1) body (body i s)
  end.

Lemma for_loop_ind {S} (I : Z -> S -> Prop) n i body s :
  I i s ->
  (forall k s, i <= k < i + Z.of_nat n -> I k s -> I (k + 1) (body k s)) ->
  I (i + Z.of_nat n) (for_loop n i body s).
Proof.
  revert i s. induction n as [|n IH]; intros i s Hi Hstep.
  - cbn. by rewrite Z.add_0_r.
  - cbn. replace (i + _) with (i + 1 + Z.of_nat n) by lia.
    apply IH; [apply Hstep; [lia|done]|]. intros k t Hk. apply Hstep. lia.
Qed.

(** [for (i = lo; n iterations; i++) if (p(i)) return i;]: the first index with [p]. *)
Fixpoint find_from (p : Z -> bool) (n : nat) (i : Z) : option Z :=
  match n with
  | O => None
  | Datatypes.S n' => if p i then Some i else find_from p n' (i + 1)
  end.

Lemma find_from_Some p n i j :
  find_from p n i = Some j <->
  i <= j < i + Z.of_nat n /\ p j = true /\ forall k, i <= k < j -> p k = false.
Proof.
  revert i. induction n as [|n IH]; intros i; cbn.
  - split; [done|lia].
  - destruct (p i) eqn:Hp.
    + split.
      * intros [= <-]. split; [lia|]. split; [done|lia].
      * intros (H1 & H2 & H3). destruct (decide (i = j)) as [->|]; [done|].
        rewrite (H3 i) in Hp by lia. done.
    + rewrite IH. split.
      * intros (H1 & H2 & H3). split; [lia|]. split; [done|].
        intros k Hk. destruct (decide (k = i)) as [->|]; [done|]. apply H3. lia.
      * intros (H1 & H2 & H3). assert (i <> j) by congruence.
        split; [lia|]. split; [done|]. intros k Hk. apply H3. lia.
Qed.

Lemma find_from_None p n i :
  find_from p n i = None <-> forall k, i <= k < i + Z.of_nat n -> p k = false.
Proof.
  revert i. induction n as [|n IH]; intros i; cbn.
  - split; [lia|done].
  - destruct (p i) eqn:Hp.
    + split; [done|]. intros H. rewrite (H i) in Hp by lia. done.
    + rewrite IH. split; intros H k Hk; [|apply H; lia].
      destruct (decide (k = i)) as [->|]; [done|]. apply H. lia.
Qed.

(** The number of indices below [n] that satisfy [p]. *)
Fixpoint count_below (p : Z -> bool) (n : nat) : Z :=
  match n with
  | O => 0
  | S n' => count_below p n' + (if p (Z.of_nat n') then 1 else 0)
  end.

Lemma count_below_range p n : 0 <= count_below p n <= Z.of_nat n.
Proof. induction n; cbn [count_below]; [lia|]. destruct (p _); lia. Qed.

Lemma count_below_ext p q n :
  (forall i, 0 <= i < Z.of_nat n -> p i = q i) -> count_below p n = count_below q n.
Proof.
  induction n as [|n IH]; intros H; [done|]. cbn [count_below].
  rewrite H, IH by (try intros; try apply H; lia). done.
Qed.

(** Setting one more index adds one. *)
Lemma count_below_set p q n j :
  0 <= j < Z.of_nat n -> p j = false -> q j = true ->
  (forall i, i <> j -> 0 <= i -> q i = p i) ->
  count_below q n = count_below p n + 1.
Proof.
  induction n as [|n IH]; intros Hj Hp Hq Hr; [lia|]. cbn [count_below].
  destruct (decide (j = Z.of_nat n)) as [->|].
  - rewrite Hp, Hq, (count_below_ext q p); [lia|]. intros. apply Hr; lia.
  - rewrite IH by (done || lia). rewrite Hr by lia. lia.
Qed.

Lemma count_below_full p n :
  count_below p n = Z.of_nat n -> forall i, 0 <= i < Z.of_nat n -> p i = true.
Proof.
  induction n as [|n IH]; intros Hc i Hi; [lia|]. cbn [count_below] in Hc.
  pose proof (count_below_range p n). destruct (p (Z.of_nat n)) eqn:Hp; [|lia].
  destruct (decide (i = Z.of_nat n)) as [->|]; [done|]. apply IH; lia.
Qed.

Lemma count_below_all p n :
  (forall i, 0 <= i < Z.of_nat n -> p i = true) -> count_below p n = Z.of_nat n.
Proof.
  induction n as [|n IH]; intros H; [done|]. cbn [count_below].
  rewrite IH, H by (intros; try apply H; lia). lia.
Qed.

Lemma count_below_none p n :
  (forall i, 0 <= i < Z.of_nat n -> p i = false) -> count_below p n = 0.
Proof.
  induction n as [|n IH]; intros H; [done|]. cbn [count_below].
  rewrite IH, H by (intros; try apply H; lia). lia.
Qed.

(** [x & ~(PAGE_SIZE-1)] and [(x + PAGE_SIZE-1) & ~(PAGE_SIZE-1)]. *)
Definition page_down (x : Z) : Z := x - x mod PAGE_SIZE.
Definition page_up (x : Z) : Z := page_down (x + (PAGE_SIZE - 1)).

Lemma land_page_mask x :
  0 <= x < 2 ^ 32 -> x .& .~ (PAGE_SIZE -w 1) = page_down x.
Proof. apply (land_lnot_ones x 12). lia. Qed.

Lemma page_down_spec x : aligned PAGE_SIZE (page_down x) /\ page_down x <= x < page_down x + PAGE_SIZE.
Proof. unfold aligned, page_down, PAGE_SIZE. Z.div_mod_to_equations. lia. Qed.

Lemma page_up_spec x : aligned PAGE_SIZE (page_up x) /\ x <= page_up x < x + PAGE_SIZE.
Proof.
  unfold page_up. destruct (page_down_spec (x + (PAGE_SIZE - 1))) as [H1 H2].
  split; [done|]. unfold PAGE_SIZE in *. lia.
Qed.

Lemma count_below_filter p n :
  count_below p n = Z.of_nat (length (filter (fun i => p i = true) (seqZ 0 (Z.of_nat n)))).
Proof.
  induction n as [|n IH]; [done|]. cbn [count_below].
  rewrite Nat2Z.inj_succ, <- Z.add_1_r, seqZ_app by lia. rewrite filter_app, length_app, IH.
  rewrite Z.add_0_l, (seqZ_cons (Z.of_nat n) 1) by lia. rewrite (seqZ_nil _ (Z.pred 1)) by lia.
  rewrite filter_cons. destruct (p (Z.of_nat n)) eqn:Hp; case_decide; try done; cbn; lia.
Qed.

(** Distinct indices that satisfy [p] are no more than [count_below] counts. *)
Lemma count_below_NoDup p n l :
  NoDup l -> (forall i, i ∈ l -> 0 <= i < Z.of_nat n /\ p i = true) ->
  Z.of_nat (length l) <= count_below p n.
Proof.
  intros Hd Hl. rewrite count_below_filter. apply inj_le, submseteq_length.
  apply NoDup_submseteq; [done|]. intros i Hi. apply list_elem_of_filter.
  destruct (Hl i Hi). rewrite elem_of_seqZ. split; [done|lia].
Qed.

(** * Counting *)

(** occurrences of [p] in [l] *)
Definition occ (p : Z) (l : list Z) : Z := Z.of_nat (length (filter (fun x => x = p) l)).

Lemma occ_cons p x l : occ p (x :: l) = (if decide (x = p) then 1 else 0) + occ p l.
Proof. unfold occ. rewrite filter_cons. destruct (decide (x = p)); cbn [length]; lia. Qed.

Lemma occ_app p l l' : occ p (l ++ l') = occ p l + occ p l'.
Proof. unfold occ. rewrite filter_app, length_app. lia. Qed.

Lemma occ_perm p l l' : l ≡ₚ l' -> occ p l = occ p l'.
Proof. intros H. unfold occ. by rewrite H. Qed.

Lemma occ_nonneg p l : 0 <= occ p l.
Proof. unfold occ. lia. Qed.

Lemma occ_pos p l : 0 < occ p l <-> p ∈ l.
Proof.
  induction l as [|x l IH]; [cbn; rewrite elem_of_nil; unfold occ; cbn; lia|].
  rewrite occ_cons, elem_of_cons, <- IH. pose proof (occ_nonneg p l). case_decide; split; intros; try lia; auto.
Qed.

(** * Loops without a static bound

    [while_nat n body s] iterates [body] at most [n] times: [inl] continues with
    a new loop state, [inr] leaves.  [while_pos] is the same loop with a binary
    bound, so that bounds like 2^28 cost nothing to write down. *)
Section while.
Context {S R : Type}.

Fixpoint while_nat (n : nat) (body : S -> S + R) (s : S) : S + R :=
  match n with
  | O => inl s
  | Datatypes.S n' =>
      match body s with
      | inl s' => while_nat n' body s'
      | inr r => inr r
      end
  end.

Fixpoint while_pos (p : positive) (body : S -> S + R) (s : S) : S + R :=
  match p with
  | xH => body s
  | xO q =>
      match while_pos q body s with
      | inl s' => while_pos q body s'
      | inr r => inr r
      end
  | xI q =>
      match body s with
      | inl s0 =>
          match while_pos q body s0 with
          | inl s' => while_pos q body s'
          | inr r => inr r
          end
      | inr r => inr r
      end
  end.

Lemma while_nat_add n k body s :
  while_nat (n + k) body s =
  match while_nat n body s with inl s' => while_nat k body s' | inr r => inr r end.
Proof.
  revert s. induction n as [|n IH]; intros s; cbn; [done|]. destruct (body s); [apply IH|done].
Qed.

Lemma while_pos_nat p body s : while_pos p body s = while_nat (Pos.to_nat p) body s.
Proof.
  revert s. induction p as [p IH|p IH|]; intros s.
  - rewrite Pos2Nat.inj_xI. cbn. destruct (body s); [|done]. rewrite Nat.add_0_r, while_nat_add, IH.
    destruct (while_nat _ _ _); [apply IH|done].
  - rewrite Pos2Nat.inj_xO. cbn. rewrite Nat.add_0_r, while_nat_add, IH.
    destruct (while_nat _ _ _); [apply IH|done].
  - change (Pos.to_nat 1) with 1%nat. cbn. by destruct (body s).
Qed.

(** More fuel never changes a result. *)
Lemma while_nat_mono n k body s r :
  while_nat n body s = inr r -> (n <= k)%nat -> while_nat k body s = inr r.
Proof.
  intros H Hk. replace k with (n + (k - n))%nat by lia. rewrite while_nat_add. by rewrite H.
Qed.

Lemma while_pos_enough n p body s r :
  while_nat n body s = inr r -> Z.of_nat n <= Z.pos p -> while_pos p body s = inr r.
Proof. intros H Hn. rewrite while_pos_nat. eapply while_nat_mono; [exact H|]. lia. Qed.
End while.
