(* ===== verification/Checked.v ===== *)
(** Code that walks byte buffers with explicit lengths.

    An [outcome] is a value, an access outside an array (or of an element that
    was never written), or the exhaustion of a loop's fuel.  The parsers of the
    kernel are written in this monad, so that memory safety and termination are
    statements about them: they are always [Ok]. *)

From stdpp Require Import list.
From Stdlib Require Import ZArith Lia.
From S2P Require Import Prelude.

Inductive outcome (A : Type) : Type := Ok (a : A) | Fault | NoFuel.
Arguments Ok {A} a.
Arguments Fault {A}.
Arguments NoFuel {A}.

#[export] Instance outcome_ret : MRet outcome := fun A a => Ok a.
#[export] Instance outcome_bind : MBind outcome := fun A B k c =>
  match c with Ok a => k a | Fault => Fault | NoFuel => NoFuel end.

(** With a state: the computations of [C S]. *)
Definition C (S A : Type) : Type := S -> outcome (A * S).

#[export] Instance C_ret S : MRet (C S) := fun A a s => Ok (a, s).
#[export] Instance C_bind S : MBind (C S) := fun A B k c s =>
  match c s with Ok (a, s') => k a s' | Fault => Fault | NoFuel => NoFuel end.

Definition lift {S A} (c : outcome A) : C S A := fun s => a ← c; Ok (a, s).
Definition look {S A} (f : S -> A) : C S A := fun s => Ok (f s, s).
Definition change {S} (f : S -> S) : C S unit := fun s => Ok (tt, f s).

(** ** Arrays *)

Section arrays.
Context {A : Type}.

Definition aref (l : list A) (i : Z) : outcome A :=
  if i <? 0 then Fault else match l !! Z.to_nat i with Some a => Ok a | None => Fault end.

Definition aset (l : list A) (i : Z) (a : A) : outcome (list A) :=
  if (i <? 0) || (Z.of_nat (length l) <=? i) then Fault else Ok (<[Z.to_nat i := a]> l).

Lemma aref_ok l i a : 0 <= i -> l !! Z.to_nat i = Some a -> aref l i = Ok a.
Proof. intros Hi Ha. unfold aref. rewrite (proj2 (Z.ltb_ge _ _)) by done. by rewrite Ha. Qed.

Lemma aref_in l i : 0 <= i < Z.of_nat (length l) -> exists a, l !! Z.to_nat i = Some a /\ aref l i = Ok a.
Proof.
  intros Hi. destruct (lookup_lt_is_Some_2 l (Z.to_nat i)) as [a Ha]; [lia|]. exists a. split; [done|]. apply aref_ok; [lia|done].
Qed.

Lemma aset_ok l i a : 0 <= i < Z.of_nat (length l) -> aset l i a = Ok (<[Z.to_nat i := a]> l).
Proof.
  intros Hi. unfold aset. rewrite (proj2 (Z.ltb_ge _ _)), (proj2 (Z.leb_gt _ _)) by lia. done.
Qed.
End arrays.

(** the bytes of a buffer before its first NUL *)
Fixpoint until_nul (l : list Z) : list Z := match l with [] => [] | c :: l' => if c =? 0 then [] else c :: until_nul l' end.

(** [n] bytes from [p] *)
Definition slice (b : list Z) (p n : Z) : outcome (list Z) :=
  if (p <? 0) || (Z.of_nat (length b) <? p + n) then Fault else Ok (take (Z.to_nat n) (drop (Z.to_nat p) b)).

(** a total computation inside the checked monad *)
Definition run {T R} (c : M T R) : C T R := fun s => Ok (c s).

(** [for (i = lo; n iterations; i++) body] with an early [return]: [Some r] leaves it. *)
Fixpoint iterC {S R} (n : nat) (i : Z) (body : Z -> C S (option R)) : C S (option R) :=
  match n with
  | O => mret None
  | Datatypes.S n' => o ← body i; match o with Some r => mret (Some r) | None => iterC n' (i + 1) body end
  end.

(** [for (i = lo; n iterations; i++) a = body(i, a);] *)
Fixpoint iter {A} (n : nat) (i : Z) (body : Z -> A -> outcome A) (a : A) : outcome A :=
  match n with
  | O => Ok a
  | S n' => body i a ≫= iter n' (i + 1) body
  end.

(** ** Total correctness *)

(** [ok c Q]: [c] has a value, in [Q]. *)
Definition ok {A} (c : outcome A) (Q : A -> Prop) : Prop := match c with Ok a => Q a | _ => False end.

Lemma ok_ret {A} (a : A) (Q : A -> Prop) : Q a -> ok (Ok a) Q.
Proof. done. Qed.

Lemma ok_bind {A B} (c : outcome A) (k : A -> outcome B) Q : ok c (fun a => ok (k a) Q) -> ok (c ≫= k) Q.
Proof. by destruct c. Qed.

Lemma ok_mono {A} (c : outcome A) (P Q : A -> Prop) : ok c P -> (forall a, P a -> Q a) -> ok c Q.
Proof. destruct c; cbn; [|done..]. auto. Qed.

Lemma ok_iff {A} (c : outcome A) Q : ok c Q <-> exists a, c = Ok a /\ Q a.
Proof. split; [destruct c; [eauto|done..]|]. by intros (a & -> & H). Qed.

Lemma ok_eq {A} (c : outcome A) a (Q : A -> Prop) : c = Ok a -> ok c Q -> Q a.
Proof. by intros ->. Qed.

Lemma ok_self {A} (c : outcome A) a (Q : A -> Prop) : c = Ok a -> Q a -> ok c Q.
Proof. by intros ->. Qed.

Lemma ok_aref {A} (l : list A) i (Q : A -> Prop) : 0 <= i < Z.of_nat (length l) ->
  (forall a, l !! Z.to_nat i = Some a -> Q a) -> ok (aref l i) Q.
Proof. intros Hi Hq. destruct (aref_in l i Hi) as (a & Ha & ->). by apply Hq. Qed.

Lemma ok_aset {A} (l : list A) i a (Q : list A -> Prop) : 0 <= i < Z.of_nat (length l) ->
  Q (<[Z.to_nat i := a]> l) -> ok (aset l i a) Q.
Proof. intros Hi Hq. by rewrite aset_ok. Qed.

Lemma ok_iter {A} (I : Z -> A -> Prop) n i body a : I i a ->
  (forall k x, i <= k < i + Z.of_nat n -> I k x -> ok (body k x) (I (k + 1))) ->
  ok (iter n i body a) (I (i + Z.of_nat n)).
Proof.
  revert i a. induction n as [|n IH]; intros i a Hi Hstep; cbn [iter].
  - by rewrite Z.add_0_r.
  - apply ok_bind. eapply ok_mono; [apply Hstep; [lia|exact Hi]|]. intros x Hx.
    replace (i + Z.of_nat (S n)) with (i + 1 + Z.of_nat n) by lia. apply IH; [done|].
    intros k y Hk. apply Hstep. lia.
Qed.

(** [cok c s Q]: from [s], [c] has a value and a final state, in [Q]. *)
Definition cok {S A} (c : C S A) (s : S) (Q : A -> S -> Prop) : Prop := ok (c s) (fun x => Q x.1 x.2).

Section cok.
Context {S : Type}.

Lemma cok_ret {A} (a : A) (s : S) (Q : A -> S -> Prop) : Q a s -> cok (mret a) s Q.
Proof. done. Qed.

Lemma cok_bind {A B} (c : C S A) (k : A -> C S B) s Q : cok c s (fun a s' => cok (k a) s' Q) -> cok (c ≫= k) s Q.
Proof. unfold cok, mbind, C_bind. by destruct (c s) as [[a s']| |]. Qed.

Lemma cok_mono {A} (c : C S A) s (P Q : A -> S -> Prop) : cok c s P -> (forall a s', P a s' -> Q a s') -> cok c s Q.
Proof. unfold cok. intros H Hpq. eapply ok_mono; [exact H|]. intros [a s']. apply Hpq. Qed.

Lemma cok_lift {A} (c : outcome A) (s : S) (Q : A -> S -> Prop) : ok c (fun a => Q a s) -> cok (lift c) s Q.
Proof. unfold cok, lift. by destruct c. Qed.

Lemma cok_look {A} (f : S -> A) s (Q : A -> S -> Prop) : Q (f s) s -> cok (look f) s Q.
Proof. done. Qed.

Lemma cok_change f (s : S) (Q : unit -> S -> Prop) : Q tt (f s) -> cok (change f) s Q.
Proof. done. Qed.

Lemma cok_self {A} (c : C S A) s a s' (Q : A -> S -> Prop) : c s = Ok (a, s') -> Q a s' -> cok c s Q.
Proof. unfold cok. by intros ->. Qed.

Lemma cok_ex {A} (c : C S A) s Q : cok c s Q -> exists a s', c s = Ok (a, s') /\ Q a s'.
Proof. unfold cok. destruct (c s) as [[a s']| |]; [eauto|done..]. Qed.

Lemma cok_run {A} (c : M S A) s (Q : A -> S -> Prop) : wp c s Q -> cok (run c) s Q.
Proof. unfold cok, run, wp. done. Qed.

(** Invariant rule of a checked loop with an early return. *)
Lemma cok_iterC {R} n i (body : Z -> C S (option R)) s (I : Z -> S -> Prop) (Q : option R -> S -> Prop) :
  I i s ->
  (forall k s, i <= k < i + Z.of_nat n -> I k s ->
     cok (body k) s (fun o s' => match o with Some r => Q (Some r) s' | None => I (k + 1) s' end)) ->
  (forall s, I (i + Z.of_nat n) s -> Q None s) -> cok (iterC n i body) s Q.
Proof.
  revert i s. induction n as [|n IH]; intros i s Hi Hstep Hend; cbn [iterC].
  - apply cok_ret, Hend. by rewrite Z.add_0_r.
  - apply cok_bind. eapply cok_mono; [apply Hstep; [lia|exact Hi]|]. intros [r|] t Ht; cbn beta in Ht; [by apply cok_ret|].
    apply IH; [exact Ht| |].
    + intros k u Hk. apply Hstep. lia.
    + intros u Hu. apply Hend. by replace (i + _) with (i + 1 + Z.of_nat n) by lia.
Qed.
End cok.
