(* ===== verification/Memory.v ===== *)
(** Byte-addressed physical memory and the C library primitives of
    [kernel/lib/libk.c].

    The kernel runs on an identity map, so a pointer is a physical address.
    Memory is a finite map from addresses to bytes, an address that was never
    written reading as 0; 32-bit words are little-endian.  Theorems hold for
    every initial contents.  C strings are byte lists without the final NUL. *)

From stdpp Require Import gmap list fin_maps.
From Stdlib Require Import ZArith Lia.
From S2P Require Import Prelude.

Abbreviation mem := (gmap Z Z).

(** * Loads and stores *)

Definition ldb (m : mem) (a : Z) : Z := u8 (default 0 (m !! a)).
Definition stb (m : mem) (a v : Z) : mem := <[a := u8 v]> m.

Definition ld32 (m : mem) (a : Z) : Z :=
  ldb m a + 2 ^ 8 * ldb m (a + 1) + 2 ^ 16 * ldb m (a + 2) + 2 ^ 24 * ldb m (a + 3).

Definition st32 (m : mem) (a v : Z) : mem :=
  stb (stb (stb (stb m a v) (a + 1) (Z.shiftr v 8)) (a + 2) (Z.shiftr v 16))
      (a + 3) (Z.shiftr v 24).

(** [n] consecutive bytes from [a]. *)
Definition bytes_at (m : mem) (a : Z) (n : nat) : list Z :=
  (fun i => ldb m (a + i)) <$> seqZ 0 (Z.of_nat n).

(** * [libk.c] *)

(** [while (n--) *d++ = *s++;] *)
Fixpoint memcpy (n : nat) (d s : Z) (m : mem) : mem :=
  match n with
  | O => m
  | S n' => memcpy n' (d + 1) (s + 1) (stb m d (ldb m s))
  end.

(** [while (n--) *d++ = (unsigned char)c;] *)
Fixpoint memset (n : nat) (d c : Z) (m : mem) : mem :=
  match n with
  | O => m
  | S n' => memset n' (d + 1) c (stb m d c)
  end.

(** The descending loop of [memmove]: [while (n--) *--d = *--s;] *)
Fixpoint memmove_down (n : nat) (d s : Z) (m : mem) : mem :=
  match n with
  | O => m
  | S n' => memmove_down n' (d - 1) (s - 1) (stb m (d - 1) (ldb m (s - 1)))
  end.

Definition memmove (n : nat) (d s : Z) (m : mem) : mem :=
  if d <? s then memcpy n d s m
  else memmove_down n (d + Z.of_nat n) (s + Z.of_nat n) m.

(** [memcpy(dst, l, |l|)] *)
Fixpoint poke (m : mem) (a : Z) (l : list Z) : mem :=
  match l with [] => m | b :: l' => poke (stb m a b) (a + 1) l' end.

(** [while (n--) { if ( *p != *q) return *p - *q; p++; q++; } return 0;] *)
Fixpoint memcmp (n : nat) (p q : Z) (m : mem) : Z :=
  match n with
  | O => 0
  | S n' => if ldb m p =? ldb m q then memcmp n' (p + 1) (q + 1) m
            else ldb m p - ldb m q
  end.

(** [while (( *d++ = *src++)) ;], if it ends within [fuel] rounds *)
Fixpoint strcpy (fuel : nat) (d s : Z) (m : mem) : option mem :=
  match fuel with
  | O => None
  | S n => let c := ldb m s in let m := stb m d c in if c =? 0 then Some m else strcpy n (d + 1) (s + 1) m
  end.

(** Strings: the byte at the end of the list is the terminating NUL. *)
Abbreviation cstr := (list Z).

Definition strlen (s : cstr) : Z := Z.of_nat (length s).

Fixpoint strcmp (a b : cstr) : Z :=
  match a with
  | [] => 0 - default 0 (head b)
  | x :: a' =>
      if x =? default 0 (head b) then strcmp a' (tail b) else x - default 0 (head b)
  end.

Fixpoint strncmp (a b : cstr) (n : nat) : Z :=
  match n with
  | O => 0
  | S n' =>
      match a with
      | [] => 0 - default 0 (head b)
      | x :: a' =>
          if x =? default 0 (head b) then strncmp a' (tail b) n' else x - default 0 (head b)
      end
  end.

(** [for (; i < cap-1 && src[i]; i++) dst[i] = src[i];] with [room = cap-1]. *)
Fixpoint strlcpy_copy (room : nat) (src : cstr) : cstr :=
  match room, src with
  | S room', c :: src' => c :: strlcpy_copy room' src'
  | _, _ => []
  end.

(** The string held by [dst] after [strlcpy_(dst, src, cap)]. *)
Definition strlcpy_ (dst src : cstr) (cap : nat) : cstr :=
  match cap with
  | O => dst
  | S room => strlcpy_copy room src
  end.

(** A C string has no NUL inside. *)
Definition cstr_ok (s : cstr) : Prop := Forall (fun c => 0 < c < 256) s.

#[export] Instance cstr_ok_dec s : Decision (cstr_ok s).
Proof. unfold cstr_ok. apply _. Defined.

(** * Memories up to their contents *)

Definition mem_eq (m1 m2 : mem) : Prop := forall a, ldb m1 a = ldb m2 a.
Infix "≡ₘ" := mem_eq (at level 70).

#[export] Instance mem_eq_equivalence : Equivalence mem_eq.
Proof. split; unfold mem_eq; [done|by intros ?? H a|]. intros x y z H1 H2 a. by rewrite H1. Qed.

(** [mem_frame P m m']: [m'] differs from [m] at most on [P]. *)
Definition mem_frame (P : Z -> Prop) (m m' : mem) : Prop :=
  forall a, ~ P a -> ldb m' a = ldb m a.

Definition in_range (lo n a : Z) : Prop := lo <= a < lo + n.

Definition zeroed (m : mem) (lo n : Z) : Prop := forall a, in_range lo n a -> ldb m a = 0.

Lemma ldb_range m a : 0 <= ldb m a < 256.
Proof. apply u8_range. Qed.
#[export] Hint Resolve ldb_range : kdb.

Lemma ldb_stb m a v b : ldb (stb m a v) b = if decide (a = b) then u8 v else ldb m b.
Proof.
  unfold ldb, stb. rewrite lookup_insert. case_decide; [|done]. cbn. apply u8_u8.
Qed.

Lemma ldb_stb_eq m a v : ldb (stb m a v) a = u8 v.
Proof. rewrite ldb_stb. by case_decide. Qed.

Lemma ldb_stb_ne m a v b : a <> b -> ldb (stb m a v) b = ldb m b.
Proof. rewrite ldb_stb. by case_decide. Qed.

#[export] Instance ldb_proper : Proper (mem_eq ==> eq ==> eq) ldb.
Proof. intros m1 m2 H a ? <-. apply H. Qed.

#[export] Instance stb_proper : Proper (mem_eq ==> eq ==> eq ==> mem_eq) stb.
Proof. intros m1 m2 H a ? <- v ? <- b. rewrite !ldb_stb. case_decide; [done|apply H]. Qed.

#[export] Instance ld32_proper : Proper (mem_eq ==> eq ==> eq) ld32.
Proof. intros m1 m2 H a ? <-. unfold ld32. by rewrite !H. Qed.

#[export] Instance st32_proper : Proper (mem_eq ==> eq ==> eq ==> mem_eq) st32.
Proof. intros m1 m2 H a ? <- v ? <-. unfold st32. by rewrite H. Qed.

#[export] Instance memcpy_proper n d s : Proper (mem_eq ==> mem_eq) (memcpy n d s).
Proof.
  revert d s. induction n as [|n IH]; intros d s m1 m2 H; [done|].
  cbn. apply IH. by rewrite H.
Qed.

(** ** Frames *)

Lemma mem_frame_refl P m : mem_frame P m m.
Proof. done. Qed.

Lemma mem_frame_trans P m1 m2 m3 :
  mem_frame P m1 m2 -> mem_frame P m2 m3 -> mem_frame P m1 m3.
Proof. intros H1 H2 a Ha. rewrite (H2 a Ha). by apply H1. Qed.

Lemma mem_frame_mono (P Q : Z -> Prop) m m' :
  mem_frame P m m' -> (forall a, P a -> Q a) -> mem_frame Q m m'.
Proof. intros H HPQ a Ha. apply H. naive_solver. Qed.

Lemma mem_frame_stb m a v : mem_frame (eq a) m (stb m a v).
Proof. intros b Hb. by apply ldb_stb_ne. Qed.

Lemma mem_frame_st32 m a v : mem_frame (in_range a 4) m (st32 m a v).
Proof.
  intros b Hb. unfold in_range in Hb. unfold st32. rewrite !ldb_stb_ne by lia. done.
Qed.

Lemma ld32_frame P m m' a :
  mem_frame P m m' -> (forall b, in_range a 4 b -> ~ P b) -> ld32 m' a = ld32 m a.
Proof.
  intros H HP. unfold ld32, in_range in *. rewrite !H; [done|apply HP; lia..].
Qed.

#[export] Hint Resolve mem_frame_refl mem_frame_stb mem_frame_st32 : kdb.

(** ** Words *)

Lemma ld32_range m a : 0 <= ld32 m a < 2 ^ 32.
Proof.
  unfold ld32.
  pose proof (ldb_range m a). pose proof (ldb_range m (a + 1)).
  pose proof (ldb_range m (a + 2)). pose proof (ldb_range m (a + 3)). lia.
Qed.
#[export] Hint Resolve ld32_range : kdb.

Lemma ld32_st32_eq m a v : ld32 (st32 m a v) a = u32 v.
Proof.
  unfold ld32, st32.
  rewrite ldb_stb_eq, !(ldb_stb_ne _ (a + 3)), ldb_stb_eq,
    !(ldb_stb_ne _ (a + 2)), ldb_stb_eq, (ldb_stb_ne _ (a + 1)), ldb_stb_eq by lia.
  rewrite !Z.shiftr_div_pow2 by lia. unfold u8, u32.
  Z.div_mod_to_equations. lia.
Qed.

Lemma ld32_st32_ne m a v b : b + 4 <= a \/ a + 4 <= b -> ld32 (st32 m a v) b = ld32 m b.
Proof.
  intros. eapply ld32_frame; [apply mem_frame_st32|]. unfold in_range. lia.
Qed.

Lemma ldb_st32_0 m a b :
  ldb (st32 m a 0) b = if decide (in_range a 4 b) then 0 else ldb m b.
Proof.
  unfold st32, in_range. rewrite !ldb_stb.
  repeat case_decide; (done || lia).
Qed.

Lemma zeroed_ld32 m lo n a :
  zeroed m lo n -> lo <= a -> a + 4 <= lo + n -> ld32 m a = 0.
Proof.
  intros H H1 H2. unfold ld32, zeroed, in_range in *. rewrite !H by lia. done.
Qed.

(** ** [libk.c] correctness *)

(** A forward copy is right unless it overwrites source bytes it has not read. *)
Lemma memcpy_lookup n d s m a :
  d <= s \/ s + Z.of_nat n <= d ->
  ldb (memcpy n d s m) a =
  if decide (in_range d (Z.of_nat n) a) then ldb m (s + (a - d)) else ldb m a.
Proof.
  revert d s m. induction n as [|n IH]; intros d s m Hd; cbn.
  { case_decide as Hr; [unfold in_range in Hr; lia|done]. }
  rewrite IH by lia. unfold in_range in *.
  destruct (decide (a = d)) as [->|Hne].
  - rewrite decide_False by lia. rewrite decide_True by lia.
    rewrite ldb_stb_eq, Z.sub_diag, Z.add_0_r. apply u8_small, ldb_range.
  - repeat case_decide; try lia; rewrite ldb_stb_ne by lia; [|done]. f_equal. lia.
Qed.

(** The descending copy is right unless the destination lies below the source. *)
Lemma memmove_down_lookup n d s m a :
  s <= d ->
  ldb (memmove_down n (d + Z.of_nat n) (s + Z.of_nat n) m) a =
  if decide (in_range d (Z.of_nat n) a) then ldb m (s + (a - d)) else ldb m a.
Proof.
  revert m. induction n as [|n IH]; intros m Hd.
  { cbn. case_decide as Hr; [unfold in_range in Hr; lia|done]. }
  cbn [memmove_down].
  replace (d + Z.of_nat (S n) - 1) with (d + Z.of_nat n) by lia.
  replace (s + Z.of_nat (S n) - 1) with (s + Z.of_nat n) by lia.
  rewrite IH by lia. unfold in_range in *.
  destruct (decide (a = d + Z.of_nat n)) as [->|Hne].
  - rewrite decide_False by lia. rewrite decide_True by lia. rewrite ldb_stb_eq.
    rewrite u8_small by apply ldb_range. f_equal. lia.
  - repeat case_decide; try lia; by rewrite ldb_stb_ne by lia.
Qed.

Lemma memset_lookup n d c m a :
  ldb (memset n d c m) a = if decide (in_range d (Z.of_nat n) a) then u8 c else ldb m a.
Proof.
  revert d m. induction n as [|n IH]; intros d m; cbn.
  { case_decide as Hr; [unfold in_range in Hr; lia|done]. }
  rewrite IH. unfold in_range.
  destruct (decide (a = d)) as [->|].
  - rewrite decide_False by lia. rewrite decide_True by lia. apply ldb_stb_eq.
  - repeat case_decide; try lia. by rewrite ldb_stb_ne by lia.
Qed.

Lemma poke_lookup m a l x :
  ldb (poke m a l) x = if decide (in_range a (Z.of_nat (length l)) x) then u8 (default 0 (l !! Z.to_nat (x - a))) else ldb m x.
Proof.
  revert m a. induction l as [|b l IH]; intros m a; cbn [poke length].
  - rewrite decide_False; [done|]. unfold in_range. lia.
  - rewrite IH. unfold in_range. destruct (decide (x = a)) as [->|Hne].
    + rewrite decide_False, ldb_stb_eq, decide_True by lia. by rewrite Z.sub_diag.
    + rewrite ldb_stb_ne by done. repeat case_decide; try lia; try done.
      replace (Z.to_nat (x - a)) with (S (Z.to_nat (x - (a + 1)))) by lia. done.
Qed.

Lemma mem_frame_memset n d c m : mem_frame (in_range d (Z.of_nat n)) m (memset n d c m).
Proof. intros a Ha. rewrite memset_lookup. by case_decide. Qed.

Lemma mem_frame_memcpy n d s m : mem_frame (in_range d (Z.of_nat n)) m (memcpy n d s m).
Proof.
  revert d s m. induction n as [|n IH]; intros d s m; [done|].
  cbn [memcpy]. apply (mem_frame_trans _ _ (stb m d (ldb m s))).
  - eapply mem_frame_mono; [apply mem_frame_stb|]. unfold in_range. intros ? <-. lia.
  - eapply mem_frame_mono; [apply IH|]. unfold in_range. lia.
Qed.

#[export] Hint Resolve mem_frame_memset mem_frame_memcpy : kdb.

Lemma length_bytes_at m a n : length (bytes_at m a n) = n.
Proof. unfold bytes_at. rewrite length_fmap, length_seqZ. lia. Qed.

Lemma bytes_at_app m a n k : bytes_at m a (n + k) = bytes_at m a n ++ bytes_at m (a + Z.of_nat n) k.
Proof.
  unfold bytes_at. rewrite Nat2Z.inj_add, seqZ_app, fmap_app by lia. f_equal.
  rewrite Z.add_0_l, <- (Z.add_0_r (Z.of_nat n)) at 1. rewrite <- fmap_add_seqZ, <- list_fmap_compose.
  apply list_fmap_ext. intros i x _. cbn. f_equal. lia.
Qed.

Lemma bytes_at_ext m1 m2 a1 a2 n :
  (forall i, 0 <= i < Z.of_nat n -> ldb m1 (a1 + i) = ldb m2 (a2 + i)) ->
  bytes_at m1 a1 n = bytes_at m2 a2 n.
Proof.
  intros H. unfold bytes_at. apply list_fmap_ext. intros i x Hx.
  apply list_elem_of_lookup_2, elem_of_seqZ in Hx. apply H. lia.
Qed.

(** ** Strings *)

(** [strcpy] copies a string that does not overlap its target, terminator and
    all, and nothing else. *)
Lemma strcpy_copies (l : list Z) n d s m : Forall (fun c => 0 < c < 256) l -> (length l < n)%nat -> d + strlen l < s \/ s + strlen l < d ->
  (forall i c, (l ++ [0]) !! i = Some c -> ldb m (s + Z.of_nat i) = c) ->
  exists m', strcpy n d s m = Some m' /\ mem_frame (in_range d (strlen l + 1)) m m' /\ forall i c, (l ++ [0]) !! i = Some c -> ldb m' (d + Z.of_nat i) = c.
Proof.
  revert n d s m. induction l as [|x l IH]; intros [|n] d s m Hl Hn Hd Hs; [cbn in Hn; lia| |cbn in Hn; lia|]; cbn [strcpy]; pose proof (Hs O _ eq_refl) as H0; rewrite Z.add_0_r in H0; rewrite H0.
  - exists (stb m d 0). split; [done|]. split; [eapply mem_frame_mono; [apply mem_frame_stb|]; intros y ->; unfold in_range, strlen; cbn; lia|].
    intros [|i] c Hi; [|done]. injection Hi as <-. by rewrite Z.add_0_r, ldb_stb_eq.
  - apply Forall_cons in Hl as [Hx Hl]. rewrite (proj2 (Z.eqb_neq x 0)) by lia. unfold strlen in *. cbn [length] in *.
    destruct (IH n (d + 1) (s + 1) (stb m d x)) as (m' & E & F & C); [done|lia|lia| |].
    { intros i c Hi. rewrite ldb_stb_ne; [|apply lookup_lt_Some in Hi; rewrite length_app in Hi; cbn in Hi; lia]. rewrite <- (Hs (S i) c Hi). f_equal. lia. }
    exists m'. split; [done|]. split.
    + eapply mem_frame_trans; [eapply mem_frame_mono; [apply mem_frame_stb|]; intros y ->; unfold in_range; lia|]. eapply mem_frame_mono; [exact F|]. intros y. unfold in_range. lia.
    + intros [|i] c Hi; [|rewrite <- (C i c Hi); f_equal; lia]. injection Hi as <-. rewrite F by (unfold in_range; lia). rewrite Z.add_0_r, ldb_stb_eq. apply u8_small. lia.
Qed.

Lemma strcmp_eq_0 a b : cstr_ok a -> cstr_ok b -> strcmp a b = 0 <-> a = b.
Proof.
  revert b. induction a as [|x a IH]; intros [|y b] Ha Hb;
    inversion_clear Ha; inversion_clear Hb; cbn; try (split; (done || lia)).
  - case_bool; split; (done || lia).
  - case_bool; [|split; [lia|congruence]]. subst. rewrite IH by done. split; congruence.
Qed.

Lemma strlcpy_copy_take room src : strlcpy_copy room src = take room src.
Proof.
  revert src. induction room as [|r IH]; intros [|c src]; cbn; [done..|]. by rewrite IH.
Qed.

(** Evaluates a load over a sequence of stores at syntactically related addresses. *)
Ltac ld_simpl :=
  repeat first [ rewrite ld32_st32_eq | rewrite ld32_st32_ne by lia ].

(** A sequence of word stores inside a range. *)
Lemma mem_frame_st32_in m m' lo n a v :
  mem_frame (in_range lo n) m m' -> lo <= a -> a + 4 <= lo + n ->
  mem_frame (in_range lo n) m (st32 m' a v).
Proof.
  intros H H1 H2. eapply mem_frame_trans; [exact H|].
  eapply mem_frame_mono; [apply mem_frame_st32|]. unfold in_range. lia.
Qed.
#[export] Hint Resolve mem_frame_st32_in : kdb.

(** [memmove] copies correctly for every overlap of the two areas, in
    either direction: each destination byte becomes the source byte as it was
    before the call, and nothing else changes. *)
Theorem memmove_correct n d s m a :
  ldb (memmove n d s m) a =
  if decide (in_range d (Z.of_nat n) a) then ldb m (s + (a - d)) else ldb m a.
Proof.
  unfold memmove. destruct (Z.ltb_spec d s).
  - apply memcpy_lookup. lia.
  - by apply memmove_down_lookup.
Qed.
