(* ===== verification/Printf.v ===== *)
(** The console formatter, [kernel/lib/printf.c], and [uart0_puts] of
    [kernel/drivers/tty/uart.c].

    The output is the list of characters sent to the UART.  A format that asks
    for more arguments than there are, or that ends in a lone percent sign (its
    terminator is then taken for a directive and skipped), is a [Fault]. *)

From stdpp Require Import list.
From Stdlib Require Import ZArith Lia.
From S2P Require Import Prelude Memory Checked.

(** a variable argument *)
Inductive vararg := VInt (v : Z) | VStr (s : option cstr).

(** [while (v) { buf[i++] = '0' + (v % 10); v /= 10; }] *)
Fixpoint udec_loop (fuel : nat) (buf : list Z) (i v : Z) : outcome (list Z * Z) :=
  match fuel with
  | O => NoFuel
  | S n => if v =? 0 then Ok (buf, i) else buf ← aset buf i (48 + v mod 10); udec_loop n buf (i + 1) (v / 10)
  end.

(** [while (i--) uart0_putc(buf[i]);] *)
Fixpoint emit_down (i : nat) (buf : list Z) : outcome (list Z) :=
  match i with
  | O => Ok []
  | S i' => c ← aref buf (Z.of_nat i'); l ← emit_down i' buf; Ok (c :: l)
  end.

Definition put_udec (v : Z) : outcome (list Z) :=
  if v =? 0 then Ok [48]
  else r ← udec_loop 11 (replicate 10 0) 0 v; emit_down (Z.to_nat r.2) r.1.

Definition hex_chars : list Z := [48; 49; 50; 51; 52; 53; 54; 55; 56; 57; 97; 98; 99; 100; 101; 102].

Definition put_hex (v : Z) : outcome (list Z) :=
  foldr (fun i r => c ← aref hex_chars ((v .>> i) .& 0xf); l ← r; Ok (c :: l)) (Ok []) [28; 24; 20; 16; 12; 8; 4; 0].

Definition uart0_puts (s : cstr) : list Z := s ≫= fun c => if c =? 10 then [13; 10] else [c].

(** "(null)" *)
Definition s_null : cstr := [40; 110; 117; 108; 108; 41].

(** one directive: what is printed and the arguments left *)
Definition directive (d : Z) (args : list vararg) : outcome (list Z * list vararg) :=
  if d =? 100 then
    match args with
    | VInt v :: args => let v := s32 v in if v <? 0 then l ← put_udec (u32 (- v)); Ok (45 :: l, args) else l ← put_udec v; Ok (l, args)
    | _ => Fault
    end
  else if d =? 117 then match args with VInt v :: args => l ← put_udec (u32 v); Ok (l, args) | _ => Fault end
  else if d =? 120 then match args with VInt v :: args => l ← put_hex (u32 v); Ok (l, args) | _ => Fault end
  else if d =? 115 then match args with VStr s :: args => Ok (uart0_puts (default s_null s), args) | _ => Fault end
  else if d =? 99 then match args with VInt v :: args => Ok ([u8 v], args) | _ => Fault end
  else if d =? 37 then Ok ([37], args)
  else Ok ([37; d], args).

Fixpoint printf (fmt : cstr) (args : list vararg) : outcome (list Z) :=
  match fmt with
  | [] => Ok []
  | c :: fmt' =>
      if negb (c =? 37) then l ← printf fmt' args; Ok ((if c =? 10 then [13; 10] else [c]) ++ l)
      else
        match fmt' with
        | [] => Fault
        | d :: fmt'' => r ← directive d args; l ← printf fmt'' r.2; Ok (r.1 ++ l)
        end
  end.

(** * Numbers *)

(** the number a list of decimal digits stands for *)
Definition dec_value (l : list Z) : Z := fold_left (fun v c => 10 * v + (c - 48)) l 0.

(** the digits of [v] from the lowest, at most [n] of them *)
Fixpoint low_digits (n : nat) (v : Z) : list Z :=
  match n with O => [] | S n => if v =? 0 then [] else 48 + v mod 10 :: low_digits n (v / 10) end.

Lemma low_digits_value n v : 0 <= v < 10 ^ Z.of_nat n -> foldr (fun c v => 10 * v + (c - 48)) 0 (low_digits n v) = v.
Proof.
  revert v. induction n as [|n IH]; intros v Hv; cbn [low_digits]; [cbn in *; lia|]. destruct (Z.eqb_spec v 0) as [->|Hn]; [done|]. cbn [foldr].
  rewrite Nat2Z.inj_succ, Z.pow_succ_r in Hv by lia. rewrite IH by (Z.div_mod_to_equations; lia). Z.div_mod_to_equations. lia.
Qed.

Lemma low_digits_length n v : (length (low_digits n v) <= n)%nat.
Proof. revert v. induction n as [|n IH]; intros v; cbn [low_digits]; [done|]. destruct (v =? 0); cbn [length]; [lia|]. specialize (IH (v / 10)). lia. Qed.

(** The buffer takes all digits of a 32-bit number. *)
Lemma udec_loop_digits n v pre room : 0 <= v < 10 ^ Z.of_nat n -> forall fuel, (n < fuel)%nat ->
  exists rest, udec_loop fuel (pre ++ replicate (n + room) 0) (Z.of_nat (length pre)) v = Ok (pre ++ low_digits n v ++ rest, Z.of_nat (length pre + length (low_digits n v))).
Proof.
  revert v pre room. induction n as [|n IH]; intros v pre room Hv [|fuel] Hf; [lia| |lia|]; cbn [udec_loop low_digits].
  - assert (v = 0) as -> by (cbn in Hv; lia). exists (replicate (0 + room) 0). cbn [length app]. by rewrite Nat.add_0_r.
  - destruct (Z.eqb_spec v 0) as [->|Hn]. { exists (replicate (S n + room) 0). cbn [length app]. by rewrite Nat.add_0_r. }
    rewrite Nat2Z.inj_succ, Z.pow_succ_r in Hv by lia. destruct (IH (v / 10) (pre ++ [48 + v mod 10]) room ltac:(Z.div_mod_to_equations; lia) fuel ltac:(lia)) as (rest & E).
    exists rest. rewrite aset_ok by (rewrite ?length_app, ?length_replicate; lia). cbn [mbind outcome_bind].
    rewrite Nat2Z.id, <- (Nat.add_0_r (length pre)) at 1. rewrite insert_app_r. cbn [replicate Nat.add]. change (<[0%nat := 48 + v mod 10]> (0 :: replicate (n + room) 0)) with (48 + v mod 10 :: replicate (n + room) 0).
    rewrite <- !app_assoc, !length_app in E. cbn [length app] in E.
    replace (Z.of_nat (length pre) + 1) with (Z.of_nat (length pre + 1)) by lia. rewrite E. cbn [length app]. do 3 f_equal. lia.
Qed.

Lemma emit_down_rev l rest : emit_down (length l) (l ++ rest) = Ok (rev l).
Proof.
  assert (H : forall n, (n <= length l)%nat -> emit_down n (l ++ rest) = Ok (rev (take n l))).
  { induction n as [|n IH]; intros Hn; [done|]. cbn [emit_down]. destruct (lookup_lt_is_Some_2 l n) as [c Hc]; [lia|].
    rewrite (aref_ok _ _ c); [|lia|rewrite Nat2Z.id; by apply lookup_app_l_Some]. cbn [mbind outcome_bind]. rewrite IH by lia. cbn [mbind outcome_bind].
    rewrite (take_S_r l n c Hc), rev_app_distr. done. }
  rewrite H by done. by rewrite take_ge.
Qed.

(** Printing a number in decimal never leaves the buffer of ten characters, and
    what is printed is the number. *)
Theorem put_udec_correct v : 0 <= v < 2 ^ 32 -> exists l, put_udec v = Ok l /\ dec_value l = v /\ (length l <= 10)%nat.
Proof.
  intros Hv. unfold put_udec. destruct (Z.eqb_spec v 0) as [->|Hn]; [exists [48]; split; [done|]; split; [done|cbn; lia]|].
  destruct (udec_loop_digits 10 v [] 0 ltac:(lia) 11 ltac:(lia)) as (rest & E). cbn [app length Nat.add] in E. change (Z.of_nat 0) with 0 in E. rewrite E. cbn [mbind outcome_bind fst snd].
  rewrite Nat2Z.id, emit_down_rev. exists (rev (low_digits 10 v)). split; [done|]. split; [|rewrite length_rev; apply low_digits_length].
  unfold dec_value. rewrite <- fold_left_rev_right, rev_involutive. apply (low_digits_value 10 v). lia.
Qed.

(** A format with its arguments. *)
Fixpoint fits (fmt : cstr) (args : list vararg) : bool :=
  match fmt with
  | [] => true
  | c :: fmt' =>
      if negb (c =? 37) then fits fmt' args
      else
        match fmt' with
        | [] => false
        | d :: fmt'' =>
            if (d =? 100) || (d =? 117) || (d =? 120) || (d =? 99) then match args with VInt _ :: args => fits fmt'' args | _ => false end
            else if d =? 115 then match args with VStr _ :: args => fits fmt'' args | _ => false end
            else fits fmt'' args
        end
  end.

Lemma put_hex_ok v : exists l, put_hex v = Ok l /\ length l = 8%nat.
Proof.
  assert (H : forall is_, exists l, foldr (fun i r => c ← aref hex_chars ((v .>> i) .& 0xf); l ← r; Ok (c :: l)) (Ok []) is_ = Ok l /\ length l = length is_).
  { induction is_ as [|i is_ (l & E & Hl)]; [by exists []|]. cbn [foldr]. rewrite E. destruct (aref_in hex_chars ((v .>> i) .& 0xf)) as (c & _ & ->).
    - change 0xf with (2 ^ 4 - 1). rewrite land_ones_mod by lia. change (Z.of_nat (length hex_chars)) with (2 ^ 4). by apply Z.mod_pos_bound.
    - exists (c :: l). cbn. by rewrite Hl. }
  apply (H [28; 24; 20; 16; 12; 8; 4; 0]).
Qed.

Lemma put_udec_ok v : 0 <= v < 2 ^ 32 -> exists l, put_udec v = Ok l.
Proof. intros Hv. destruct (put_udec_correct v Hv) as (l & E & _). by exists l. Qed.

Lemma s32_bounds v : - 2 ^ 31 <= s32 v < 2 ^ 31.
Proof. unfold s32. pose proof (u32_range v). case_match; [apply Z.ltb_lt in H0|apply Z.ltb_ge in H0]; lia. Qed.

(** A directive that fits prints something. *)
Lemma directive_ok d args : fits [37; d] args = true -> exists l, directive d args = Ok (l, if (d =? 100) || (d =? 117) || (d =? 120) || (d =? 99) || (d =? 115) then tail args else args).
Proof.
  unfold directive. cbn [fits]. change (negb (37 =? 37)) with false. cbv iota.
  destruct (d =? 100); cbn [orb].
  { destruct args as [|[v|] args]; [done| |done]. intros _. cbn [tail]. pose proof (s32_bounds v). destruct (Z.ltb_spec (s32 v) 0).
    - destruct (put_udec_ok (u32 (- s32 v)) (u32_range _)) as [l ->]. by eexists.
    - destruct (put_udec_ok (s32 v) ltac:(lia)) as [l ->]. by eexists. }
  destruct (d =? 117); cbn [orb]. { destruct args as [|[v|] args]; [done| |done]. intros _. destruct (put_udec_ok (u32 v) (u32_range _)) as [l ->]. by eexists. }
  destruct (d =? 120); cbn [orb]. { destruct args as [|[v|] args]; [done| |done]. intros _. destruct (put_hex_ok (u32 v)) as (l & -> & _). by eexists. }
  destruct (d =? 99) eqn:E99; cbn [orb]. { apply Z.eqb_eq in E99 as ->. destruct args as [|[v|] args]; [done| |done]. by eexists. }
  destruct (d =? 115); cbn [orb]. { destruct args as [|[v|] args]; [done|done|]. by eexists. }
  intros _. destruct (d =? 37); by eexists.
Qed.

(** [printf] is safe on every format that fits its arguments. *)
Theorem printf_safe fmt args : fits fmt args = true -> exists out, printf fmt args = Ok out.
Proof.
  remember (length fmt) as n eqn:Hn. revert fmt args Hn. induction n as [n IH] using lt_wf_ind. intros [|c fmt] args Hn Hf; [by exists []|]. cbn [fits printf length] in *.
  destruct (negb (c =? 37)).
  - destruct (IH (length fmt) ltac:(lia) fmt args eq_refl Hf) as [out ->]. by eexists.
  - destruct fmt as [|d fmt]; [done|]. cbn [length] in Hn. destruct (directive_ok d args) as [l ->].
    { cbn [fits]. change (negb (37 =? 37)) with false. cbv iota. repeat case_match; done. }
    cbn [mbind outcome_bind fst snd].
    assert (Ht : fits fmt (if (d =? 100) || (d =? 117) || (d =? 120) || (d =? 99) || (d =? 115) then tail args else args) = true).
    { destruct ((d =? 100) || (d =? 117) || (d =? 120) || (d =? 99)); cbn [orb]; [by destruct args as [|[] args]|]. destruct (d =? 115); [by destruct args as [|[] args]|done]. }
    destruct (IH (length fmt) ltac:(lia) fmt _ eq_refl Ht) as [out ->]. by eexists.
Qed.
