(* ===== verification/Frames.v ===== *)
(** The contract between the physical page allocator ([kernel/mm/pmm.c]) and the
    code that lives on its frames ([vm.c], [mmap.c], [ramfs.c],
    [binfmt_elf.c]).

    [FrameAlloc] lists the operations [include/pmm.h] exports to those clients,
    [FrameAllocSpec] what they promise.  The clients are written and verified
    against these two classes; [Pmm.v] provides the instances. *)

From stdpp Require Import gmap list fin_maps.
From Stdlib Require Import ZArith Lia.
From S2P Require Import Prelude Memory.

(** Allocator state together with the memory it hands out. *)
Record phys (A : Type) := Phys { fa : A; pm : mem }.
Arguments Phys {A} _ _.
Arguments fa {A} _.
Arguments pm {A} _.

Definition set_pm {A} (m : mem) (s : phys A) : phys A := Phys (fa s) m.
Definition upd_pm {A} (f : mem -> mem) : M (phys A) unit := modify (fun s => set_pm (f (pm s)) s).

(** [*(uint32_t* )pa] and [*(uint32_t* )pa = v] on the identity map. *)
Definition load32 {A} (a : Z) : M (phys A) Z := gets (fun s => ld32 (pm s) a).
Definition store32 {A} (a v : Z) : M (phys A) unit := upd_pm (fun m => st32 m a v).

Class FrameAlloc (A : Type) := {
  fa_alloc_page : M (phys A) Z;
  fa_alloc_aligned : Z -> Z -> M (phys A) Z;
  fa_free_page : Z -> M (phys A) unit;
}.

(** The [i]-th frame of a run that starts at [pa]. *)
Definition frame_of (pa i : Z) : Z := pa + i * PAGE_SIZE.

(** [lia] with page arithmetic made visible. *)
Ltac plia := unfold frame_of, in_range, PAGE_SIZE in *; lia.

Class FrameAllocSpec (A : Type) `{FrameAlloc A} := {
  fa_ok : A -> Prop;
  (** frames under management; never changes *)
  fa_window : A -> Z -> Prop;
  (** frames handed out and not freed *)
  fa_owned : A -> Z -> Prop;

  fa_window_frame a f : fa_ok a -> fa_window a f ->
    aligned PAGE_SIZE f /\ 0 < f /\ f + PAGE_SIZE <= 2 ^ 32;
  fa_owned_window a f : fa_owned a f -> fa_window a f;

  (** outcome of an allocation of [n] contiguous frames: failure changes
      nothing; success returns fresh zeroed frames and touches no other byte *)
  fa_alloc_post (n : Z) (s : phys A) (pa : Z) (s' : phys A) : Prop :=
    fa_ok (fa s') /\
    (forall f, fa_window (fa s') f <-> fa_window (fa s) f) /\
    ((pa = 0 /\ s' = s) \/
     (0 < pa /\
      (forall i, 0 <= i < n ->
         fa_window (fa s) (frame_of pa i) /\ ~ fa_owned (fa s) (frame_of pa i)) /\
      (forall f, fa_owned (fa s') f <->
         fa_owned (fa s) f \/ exists i, 0 <= i < n /\ f = frame_of pa i) /\
      zeroed (pm s') pa (n * PAGE_SIZE) /\
      mem_frame (in_range pa (n * PAGE_SIZE)) (pm s) (pm s')));

  fa_alloc_page_spec s :
    fa_ok (fa s) -> wp fa_alloc_page s (fa_alloc_post 1 s);
  fa_alloc_aligned_spec n k s :
    fa_ok (fa s) -> 0 < n < 2 ^ 20 -> 0 <= k < 32 ->
    wp (fa_alloc_aligned n (2 ^ k)) s (fun pa s' =>
      fa_alloc_post n s pa s' /\ aligned (2 ^ k) pa);
  fa_free_page_spec f s :
    fa_ok (fa s) -> fa_owned (fa s) f ->
    wp (fa_free_page f) s (fun _ s' =>
      pm s' = pm s /\ fa_ok (fa s') /\
      (forall g, fa_window (fa s') g <-> fa_window (fa s) g) /\
      (forall g, fa_owned (fa s') g <-> fa_owned (fa s) g /\ g <> f));
  (** a run of frames that are free is found *)
  fa_alloc_aligned_complete n k s b :
    fa_ok (fa s) -> 0 < n < 2 ^ 20 -> 0 <= k < 32 -> aligned (2 ^ k) b ->
    (forall i, 0 <= i < n -> fa_window (fa s) (frame_of b i) /\ ~ fa_owned (fa s) (frame_of b i)) ->
    (fa_alloc_aligned n (2 ^ k) s).1 <> 0;
}.

(** [n] frames from [b] on that are managed and not handed out. *)
Definition free_run {A} `{FrameAllocSpec A} (a : A) (n b : Z) : Prop :=
  forall i, 0 <= i < n -> fa_window a (frame_of b i) /\ ~ fa_owned a (frame_of b i).
