(* ===== verification/Pmm.v ===== *)
(** The physical page allocator, [kernel/mm/pmm.c].

    A bitmap with one bit per 4 KB frame over a window of DRAM.  The invariant
    [pmm_ok] ties [used_pages] to the bitmap; the theorems say what every
    operation does to the set of frames in use, and that the allocator meets
    the contract of [Frames.v]. *)

From stdpp Require Import gmap list fin_maps.
From Stdlib Require Import ZArith Lia.
From S2P Require Import Prelude Memory Frames.

(** * Model *)

Definition MAX_PAGES : Z := 128 * 1024 * 1024 / PAGE_SIZE.

(** The file's static variables; [bitmap] is the byte array. *)
Record pmm := mk_pmm {
  bitmap : mem;
  base_pa : Z;
  num_pages : Z;
  used_pages : Z;
}.

Definition bit_set (i : Z) (b : mem) : mem :=
  stb b (i .>> 3) (ldb b (i .>> 3) .| u8 (1 .<< (i .& 7))).

Definition bit_clr (i : Z) (b : mem) : mem :=
  stb b (i .>> 3) (ldb b (i .>> 3) .& u8 (.~ (1 .<< (i .& 7)))).

Definition bit_get (b : mem) (i : Z) : Z :=
  (ldb b (i .>> 3) .>> (i .& 7)) .& 1.

(** [bit_get(i)] as a condition. *)
Definition bit_used (b : mem) (i : Z) : bool := negb (bit_get b i =? 0).

Definition pmm_init (start end_ : Z) (p : pmm) : pmm :=
  let start := (start +w PAGE_SIZE -w 1) .& .~ (PAGE_SIZE -w 1) in
  let end_ := end_ .& .~ (PAGE_SIZE -w 1) in
  let np := if start <? end_ then (end_ -w start) / PAGE_SIZE else 0 in
  let np := if MAX_PAGES <? np then MAX_PAGES else np in
  {| bitmap := for_loop (Z.to_nat np) 0 bit_clr (bitmap p);
     base_pa := start; num_pages := np; used_pages := 0 |}.

Definition zero_page (pa : Z) (m : mem) : mem :=
  for_loop (Z.to_nat (PAGE_SIZE / 4)) 0 (fun i m => st32 m (pa +w i *w 4) 0) m.

Definition pmm_alloc_page : M (phys pmm) Z := fun s =>
  let p := fa s in
  match find_from (fun i => negb (bit_used (bitmap p) i)) (Z.to_nat (num_pages p)) 0 with
  | Some i =>
      let pa := base_pa p +w i *w PAGE_SIZE in
      (pa, Phys {| bitmap := bit_set i (bitmap p); base_pa := base_pa p;
                   num_pages := num_pages p; used_pages := used_pages p +w 1 |}
                (zero_page pa (pm s)))
  | None => (0, s)
  end.

(** The tests of one round of the scan: [pa] is aligned and the [n] bits from
    [i] are clear (the inner loop ran to [j == n]). *)
Definition run_fits (p : pmm) (n align i : Z) : bool :=
  (((base_pa p +w i *w PAGE_SIZE) .& (align -w 1)) =? 0) &&
  match find_from (fun j => bit_used (bitmap p) (i +w j)) (Z.to_nat n) 0 with
  | Some _ => false
  | None => true
  end.

(** The body of the second inner loop. *)
Definition take_frame (base : Z) (i j : Z) (bm : mem * mem) : mem * mem :=
  (bit_set (i +w j) bm.1, zero_page (base +w (i +w j) *w PAGE_SIZE) bm.2).

(** The scan [for (i = 0; i + n <= num_pages; i++)] makes [num_pages - n + 1]
    rounds, none when [n > num_pages]. *)
Definition pmm_alloc_aligned (n align : Z) : M (phys pmm) Z := fun s =>
  let p := fa s in
  match find_from (run_fits p n align) (Z.to_nat (num_pages p - n + 1)) 0 with
  | Some i =>
      let pa := base_pa p +w i *w PAGE_SIZE in
      let '(b, m) :=
        for_loop (Z.to_nat n) 0 (take_frame (base_pa p) i) (bitmap p, pm s) in
      (pa, Phys {| bitmap := b; base_pa := base_pa p; num_pages := num_pages p;
                   used_pages := used_pages p +w n |} m)
  | None => (0, s)
  end.

Definition pmm_free_page (pa : Z) : M (phys pmm) unit := fun s =>
  let p := fa s in
  if pa <? base_pa p then (tt, s)
  else
    let i := (pa -w base_pa p) / PAGE_SIZE in
    if (i <? num_pages p) && bit_used (bitmap p) i then
      (tt, Phys {| bitmap := bit_clr i (bitmap p); base_pa := base_pa p;
                   num_pages := num_pages p; used_pages := used_pages p -w 1 |} (pm s))
    else (tt, s).

(** One round of the loop of [pmm_reserve]. *)
Definition reserve_bit (i : Z) (p : pmm) : pmm :=
  if bit_used (bitmap p) i then p
  else {| bitmap := bit_set i (bitmap p); base_pa := base_pa p; num_pages := num_pages p;
          used_pages := used_pages p +w 1 |}.

Definition pmm_reserve (start end_ : Z) (p : pmm) : pmm :=
  if end_ <=? base_pa p then p
  else
    let start := if start <? base_pa p then base_pa p else start in
    let s := (start -w base_pa p) / PAGE_SIZE in
    let e := (end_ -w base_pa p +w PAGE_SIZE -w 1) / PAGE_SIZE in
    let e := if num_pages p <? e then num_pages p else e in
    for_loop (Z.to_nat (e - s)) s reserve_bit p.

Definition pmm_free_pages (p : pmm) : Z := num_pages p -w used_pages p.
Definition pmm_total_pages (p : pmm) : Z := num_pages p.

#[export] Instance pmm_FrameAlloc : FrameAlloc pmm := {|
  fa_alloc_page := pmm_alloc_page;
  fa_alloc_aligned := pmm_alloc_aligned;
  fa_free_page := pmm_free_page;
|}.

(** * Invariant *)

Definition page_used (p : pmm) (i : Z) : bool := bit_used (bitmap p) i.

Record pmm_ok (p : pmm) : Prop := {
  ok_base : 0 < base_pa p /\ aligned PAGE_SIZE (base_pa p);
  ok_num : 0 <= num_pages p <= MAX_PAGES;
  ok_top : base_pa p + num_pages p * PAGE_SIZE <= 2 ^ 32;
  ok_used : used_pages p = count_below (page_used p) (Z.to_nat (num_pages p));
}.

(** ** The bitmap *)

Lemma bit_get_testbit b i :
  0 <= i -> bit_get b i = Z.b2z (Z.testbit (ldb b (i / 8)) (i mod 8)).
Proof.
  intros Hi. unfold bit_get.
  assert (0 <= i mod 8 < 8) by (apply Z.mod_pos_bound; lia).
  change 7 with (2 ^ 3 - 1). rewrite land_ones_mod by lia. change (2 ^ 3) with 8.
  change 1 with (2 ^ 1 - 1) at 1. rewrite land_ones_mod by lia.
  rewrite Z.testbit_spec', !Z.shiftr_div_pow2 by lia. done.
Qed.

Lemma bit_used_testbit b i :
  0 <= i -> bit_used b i = Z.testbit (ldb b (i / 8)) (i mod 8).
Proof. intros. unfold bit_used. rewrite bit_get_testbit by done. by destruct (Z.testbit _ _). Qed.

Lemma pow2_mod8_u8 i : u8 (u32 (Z.shiftl 1 (i mod 8))) = 2 ^ (i mod 8).
Proof.
  assert (0 <= i mod 8 < 8) by (apply Z.mod_pos_bound; lia).
  assert (0 < 2 ^ (i mod 8) <= 2 ^ 7) by (split; [apply Z.pow_pos_nonneg|apply Z.pow_le_mono_r]; lia).
  rewrite Z.shiftl_1_l, u32_small, u8_small; lia.
Qed.

Lemma testbit_u8 x k : 0 <= k < 8 -> Z.testbit (u8 x) k = Z.testbit x k.
Proof. intros. unfold u8. by rewrite Z.mod_pow2_bits_low by lia. Qed.

Lemma bit_index_ne i j : 0 <= i -> 0 <= j -> i <> j -> i / 8 = j / 8 -> i mod 8 <> j mod 8.
Proof. intros. Z.div_mod_to_equations. lia. Qed.

Lemma bit_used_set b i j :
  0 <= i -> 0 <= j -> bit_used (bit_set i b) j = if decide (i = j) then true else bit_used b j.
Proof.
  intros Hi Hj. rewrite !bit_used_testbit by done. unfold bit_set.
  change 7 with (2 ^ 3 - 1). rewrite land_ones_mod by lia. change (2 ^ 3) with 8.
  rewrite pow2_mod8_u8, Z.shiftr_div_pow2 by lia. change (2 ^ 3) with 8.
  rewrite ldb_stb. assert (0 <= j mod 8 < 8) by (apply Z.mod_pos_bound; lia).
  assert (0 <= i mod 8 < 8) by (apply Z.mod_pos_bound; lia).
  case_decide as Hd.
  - rewrite testbit_u8, Z.lor_spec, Z.pow2_bits_eqb by lia.
    case_decide as He.
    + subst. rewrite Z.eqb_refl. by rewrite orb_true_r.
    + rewrite (proj2 (Z.eqb_neq _ _)); [by rewrite orb_false_r, Hd|]. by apply bit_index_ne.
  - case_decide; [congruence|done].
Qed.

Lemma bit_used_clr b i j :
  0 <= i -> 0 <= j -> bit_used (bit_clr i b) j = if decide (i = j) then false else bit_used b j.
Proof.
  intros Hi Hj. rewrite !bit_used_testbit by done. unfold bit_clr.
  change 7 with (2 ^ 3 - 1). rewrite land_ones_mod by lia. change (2 ^ 3) with 8.
  rewrite Z.shiftr_div_pow2 by lia. change (2 ^ 3) with 8.
  rewrite ldb_stb. assert (0 <= j mod 8 < 8) by (apply Z.mod_pos_bound; lia).
  assert (0 <= i mod 8 < 8) by (apply Z.mod_pos_bound; lia).
  assert (0 < 2 ^ (i mod 8) <= 2 ^ 7) by (split; [apply Z.pow_pos_nonneg|apply Z.pow_le_mono_r]; lia).
  case_decide as Hd.
  - rewrite testbit_u8, Z.land_spec, testbit_u8 by lia.
    unfold u32 at 1. rewrite Z.mod_pow2_bits_low, Z.lnot_spec by lia.
    rewrite Z.shiftl_1_l, u32_small, Z.pow2_bits_eqb by lia.
    case_decide as He.
    + subst. rewrite Z.eqb_refl. by rewrite andb_false_r.
    + rewrite (proj2 (Z.eqb_neq _ _)); [by rewrite andb_true_r, Hd|]. by apply bit_index_ne.
  - case_decide; [congruence|done].
Qed.

(** ** Zeroing *)

Lemma zero_page_spec pa m :
  0 <= pa -> pa + PAGE_SIZE <= 2 ^ 32 ->
  zeroed (zero_page pa m) pa PAGE_SIZE /\ mem_frame (in_range pa PAGE_SIZE) m (zero_page pa m).
Proof.
  intros H0 H1. unfold zero_page.
  pose proof (for_loop_ind (fun k m' => (zeroed m' pa (4 * k)) /\
    mem_frame (in_range pa PAGE_SIZE) m m')
    (Z.to_nat (PAGE_SIZE / 4)) 0 (fun i m => st32 m (pa +w i *w 4) 0) m) as H.
  apply H; clear H.
  - split; [|done]. intros a Ha. plia.
  - change (Z.of_nat (Z.to_nat (PAGE_SIZE / 4))) with 1024. intros k m' Hk [Hz Hf].
    rewrite (u32_small (k * 4)), (u32_small (pa + _)) by plia. split.
    + intros a Ha. rewrite ldb_st32_0. case_decide; [done|]. apply Hz. plia.
    + eapply mem_frame_trans; [exact Hf|].
      eapply mem_frame_mono; [apply mem_frame_st32|]. plia.
Qed.

(** ** Marking frames *)

Lemma bits_set_count b i n :
  0 <= i < Z.of_nat n -> bit_used b i = false ->
  count_below (bit_used (bit_set i b)) n = count_below (bit_used b) n + 1.
Proof.
  intros Hi Hb. apply (count_below_set _ _ _ i); [done..| |].
  - rewrite bit_used_set by lia. by rewrite decide_True.
  - intros j Hj Hj0. rewrite bit_used_set by lia. by rewrite decide_False.
Qed.

Lemma bits_clr_count b i n :
  0 <= i < Z.of_nat n -> bit_used b i = true ->
  count_below (bit_used (bit_clr i b)) n = count_below (bit_used b) n - 1.
Proof.
  intros Hi Hb.
  rewrite (count_below_set (bit_used (bit_clr i b)) (bit_used b) n i); [lia|done|..|done|].
  - rewrite bit_used_clr by lia. by rewrite decide_True.
  - intros j Hj Hj0. rewrite bit_used_clr by lia. by rewrite decide_False.
Qed.

(** The effect of the marking loop of [pmm_alloc_aligned]. *)
Lemma take_frames_spec base i n b m N :
  0 < base -> 0 <= i -> 0 <= n -> i + n <= Z.of_nat N ->
  base + Z.of_nat N * PAGE_SIZE <= 2 ^ 32 -> Z.of_nat N <= MAX_PAGES ->
  (forall j, i <= j < i + n -> bit_used b j = false) ->
  let bm := for_loop (Z.to_nat n) 0 (take_frame base i) (b, m) in
  let pa := base + i * PAGE_SIZE in
  (forall j, 0 <= j -> bit_used bm.1 j = bit_used b j || bool_decide (i <= j < i + n)) /\
  count_below (bit_used bm.1) N = count_below (bit_used b) N + n /\
  zeroed bm.2 pa (n * PAGE_SIZE) /\
  mem_frame (in_range pa (n * PAGE_SIZE)) m bm.2.
Proof.
  intros Hb Hi Hn HiN Htop HN Hfree bm pa. unfold MAX_PAGES in HN.
  change (128 * 1024 * 1024 / PAGE_SIZE) with 32768 in HN.
  pose proof (for_loop_ind (fun k bm =>
    (forall j, 0 <= j -> bit_used bm.1 j = bit_used b j || bool_decide (i <= j < i + k)) /\
    count_below (bit_used bm.1) N = count_below (bit_used b) N + k /\
    zeroed bm.2 pa (k * PAGE_SIZE) /\
    mem_frame (in_range pa (n * PAGE_SIZE)) m bm.2)
    (Z.to_nat n) 0 (take_frame base i) (b, m)) as H.
  rewrite Z.add_0_l, Z2Nat.id in H by lia. apply H; clear H.
  - cbn. split; [|split; [lia|split; [|done]]].
    + intros j Hj. rewrite bool_decide_eq_false_2 by lia. by rewrite orb_false_r.
    + intros a Ha. plia.
  - intros k [b' m'] Hk (Hbits & Hcnt & Hz & Hf). cbn in *. unfold pa in *.
    rewrite !(u32_small (i + k)) by lia.
    rewrite (u32_small (_ * PAGE_SIZE)), (u32_small (base + _)) by plia.
    destruct (zero_page_spec (base + (i + k) * PAGE_SIZE) m') as [Hz' Hf']; [plia..|].
    split; [|split; [|split]].
    + intros j Hj. rewrite bit_used_set, Hbits by lia. case_decide.
      * subst. rewrite (bool_decide_eq_true_2 (_ <= _ < _ + (k + 1))) by lia. by rewrite orb_true_r.
      * f_equal. apply bool_decide_ext. lia.
    + rewrite bits_set_count; [lia|lia|]. rewrite Hbits by lia.
      rewrite Hfree, bool_decide_eq_false_2 by lia. done.
    + intros a Ha. destruct (decide (in_range (base + (i + k) * PAGE_SIZE) PAGE_SIZE a)) as [Hin|Hin].
      * by apply Hz'.
      * rewrite (Hf' a Hin). apply Hz. plia.
    + eapply mem_frame_trans; [exact Hf|]. eapply mem_frame_mono; [exact Hf'|]. plia.
Qed.

(** * Frames in use *)

Definition pmm_window (p : pmm) (f : Z) : Prop :=
  exists i, 0 <= i < num_pages p /\ f = frame_of (base_pa p) i.

Definition pmm_owned (p : pmm) (f : Z) : Prop :=
  exists i, 0 <= i < num_pages p /\ f = frame_of (base_pa p) i /\ page_used p i = true.

Lemma frame_of_inj b i j : frame_of b i = frame_of b j -> i = j.
Proof. plia. Qed.

Lemma pmm_owned_frame p i :
  0 <= i < num_pages p -> pmm_owned p (frame_of (base_pa p) i) <-> page_used p i = true.
Proof.
  intros Hi. split; [|by exists i].
  intros (j & _ & Hf & Hu). apply frame_of_inj in Hf. by subst.
Qed.

Lemma pmm_ok_bounds p : pmm_ok p -> 0 < base_pa p /\ 0 <= num_pages p <= 32768.
Proof. intros [[? ?] ? _ _]. by unfold MAX_PAGES in *. Qed.

Lemma pmm_ok_used_range p : pmm_ok p -> 0 <= used_pages p <= num_pages p.
Proof.
  intros Hp. rewrite (ok_used p Hp).
  pose proof (count_below_range (page_used p) (Z.to_nat (num_pages p))).
  destruct (pmm_ok_bounds p Hp). lia.
Qed.

(** A new bitmap that marks exactly the run [i, i+n) in addition keeps the
    invariant and extends the owned frames by that run. *)
Lemma pmm_ok_mark p b i n :
  pmm_ok p -> 0 <= i -> 0 <= n -> i + n <= num_pages p ->
  (forall j, i <= j < i + n -> page_used p j = false) ->
  (forall j, 0 <= j -> bit_used b j = page_used p j || bool_decide (i <= j < i + n)) ->
  count_below (bit_used b) (Z.to_nat (num_pages p)) = used_pages p + n ->
  let p' := {| bitmap := b; base_pa := base_pa p; num_pages := num_pages p;
               used_pages := used_pages p +w n |} in
  pmm_ok p' /\
  forall f, pmm_owned p' f <->
    pmm_owned p f \/ exists j, 0 <= j < n /\ f = frame_of (frame_of (base_pa p) i) j.
Proof.
  intros Hp Hi Hn Hin Hfree Hbits Hcnt p'.
  destruct (pmm_ok_bounds p Hp) as [Hb Hnum]. pose proof (pmm_ok_used_range p Hp) as Hu.
  pose proof (count_below_range (bit_used b) (Z.to_nat (num_pages p))) as Hc.
  split.
  - split; cbn; [apply Hp..|]. rewrite u32_small by lia. by rewrite <- Hcnt.
  - intros f. split.
    + intros (j & Hj & -> & Hju). unfold page_used in Hju. cbn in Hju, Hj.
      rewrite Hbits in Hju by lia. apply orb_true_iff in Hju as [Hju|Hju].
      * left. by exists j.
      * apply bool_decide_eq_true in Hju. right. exists (j - i). cbn. plia.
    + intros [(j & Hj & -> & Hju)|(j & Hj & ->)].
      * exists j. split; [done|split; [done|]]. unfold page_used. cbn. rewrite Hbits by lia.
        by rewrite Hju.
      * exists (i + j). split; [cbn; lia|]. split; [cbn; plia|]. unfold page_used. cbn.
        rewrite Hbits, bool_decide_eq_true_2 by lia. apply orb_true_r.
Qed.

(** ** Allocation *)

Lemma alloc_page_index p :
  find_from (fun i => negb (bit_used (bitmap p) i)) (Z.to_nat (num_pages p)) 0 = None ->
  0 <= num_pages p -> pmm_ok p -> used_pages p = num_pages p.
Proof.
  rewrite find_from_None. intros H Hn Hp. rewrite (ok_used p Hp).
  rewrite count_below_all; [lia|]. intros i Hi. specialize (H i). unfold page_used.
  destruct (bit_used _ _); [done|]. cbn in H. discriminate H. lia.
Qed.

(** The complete behaviour of [pmm_alloc_page]. *)
Lemma alloc_page_cases s :
  pmm_ok (fa s) ->
  let '(pa, s') := pmm_alloc_page s in
  (pa = 0 /\ s' = s /\ pmm_free_pages (fa s) = 0) \/
  exists i, 0 <= i < num_pages (fa s) /\ pa = frame_of (base_pa (fa s)) i /\ 0 < pa /\
    page_used (fa s) i = false /\ (forall j, 0 <= j < i -> page_used (fa s) j = true) /\
    pmm_ok (fa s') /\ base_pa (fa s') = base_pa (fa s) /\ num_pages (fa s') = num_pages (fa s) /\
    pmm_free_pages (fa s') = pmm_free_pages (fa s) - 1 /\
    (forall f, pmm_owned (fa s') f <-> pmm_owned (fa s) f \/ f = pa) /\
    zeroed (pm s') pa PAGE_SIZE /\ mem_frame (in_range pa PAGE_SIZE) (pm s) (pm s').
Proof.
  intros Hp. destruct (pmm_ok_bounds _ Hp) as [Hb Hn]. pose proof (pmm_ok_used_range _ Hp) as Hu.
  pose proof (ok_top _ Hp) as Ht. unfold pmm_alloc_page.
  destruct (find_from _ _ _) as [i|] eqn:Hf.
  - right. apply find_from_Some in Hf as (Hi & Hfree & Hmin). exists i.
    apply negb_true_iff in Hfree.
    rewrite (u32_small (_ * PAGE_SIZE)), (u32_small (base_pa _ + _)) by plia.
    destruct (zero_page_spec (base_pa (fa s) + i * PAGE_SIZE) (pm s)) as [Hz Hfr]; [plia..|].
    destruct (pmm_ok_mark (fa s) (bit_set i (bitmap (fa s))) i 1) as [Hok Hown]; [done|lia..| | | |].
    { intros j Hj. by replace j with i by lia. }
    { intros j Hj. rewrite bit_used_set by lia. unfold page_used. case_decide.
      - rewrite bool_decide_eq_true_2 by lia. by rewrite orb_true_r.
      - rewrite bool_decide_eq_false_2 by lia. by rewrite orb_false_r. }
    { rewrite bits_set_count, (ok_used _ Hp); [done|lia|done]. }
    cbn [fa pm base_pa num_pages]. split; [lia|]. split; [done|]. split; [plia|].
    split; [done|]. split.
    { intros j Hj. specialize (Hmin j ltac:(lia)). by apply negb_false_iff in Hmin. }
    split; [exact Hok|]. do 2 (split; [done|]). split.
    { pose proof (pmm_ok_used_range _ Hok) as Hu'. cbn in Hu'. unfold pmm_free_pages. cbn.
      rewrite (u32_small (used_pages _ + 1)) in * by lia. rewrite !u32_small by lia. lia. }
    split; [|done]. intros f. rewrite (Hown f). split; intros [?|Hx]; auto; right.
    + destruct Hx as (j & Hj & ->). plia.
    + exists 0. subst f. plia.
  - left. split; [done|split; [done|]]. pose proof (alloc_page_index _ Hf ltac:(lia) Hp).
    unfold pmm_free_pages. rewrite u32_small by lia. lia.
Qed.

Lemma run_fits_spec p n align i :
  pmm_ok p -> 0 <= i -> 0 < n -> i + n <= num_pages p ->
  (exists k, 0 <= k < 32 /\ align = 2 ^ k) ->
  run_fits p n align i = true <->
  aligned align (frame_of (base_pa p) i) /\ forall j, i <= j < i + n -> page_used p j = false.
Proof.
  intros Hp Hi Hn Hin (k & Hk & ->). destruct (pmm_ok_bounds _ Hp) as [Hb Hnum].
  pose proof (ok_top _ Hp) as Ht. unfold run_fits.
  rewrite (u32_small (_ * PAGE_SIZE)), (u32_small (base_pa p + _)) by plia.
  assert (0 < 2 ^ k) by (apply Z.pow_pos_nonneg; lia).
  assert (2 ^ k < 2 ^ 32) by (apply Z.pow_lt_mono_r; lia).
  rewrite (u32_small (2 ^ k - 1)), land_ones_mod, andb_true_iff, Z.eqb_eq by lia.
  unfold aligned, frame_of. apply and_iff_compat_l.
  destruct (find_from _ _ _) as [j|] eqn:Hf.
  - split; [done|]. intros H1. apply find_from_Some in Hf as (Hj & Hu & _).
    unfold page_used in H1. rewrite (u32_small (i + j)), H1 in Hu by lia. done.
  - split; [|done]. intros _ j Hj. rewrite find_from_None in Hf.
    specialize (Hf (j - i) ltac:(lia)). replace (i + (j - i)) with j in Hf by lia.
    by rewrite u32_small in Hf by lia.
Qed.

Lemma alloc_aligned_cases n align s :
  pmm_ok (fa s) -> 0 < n -> (exists k, 0 <= k < 32 /\ align = 2 ^ k) ->
  let '(pa, s') := pmm_alloc_aligned n align s in
  (pa = 0 /\ s' = s /\
   forall i, 0 <= i -> i + n <= num_pages (fa s) -> aligned align (frame_of (base_pa (fa s)) i) ->
     exists j, i <= j < i + n /\ page_used (fa s) j = true) \/
  exists i, 0 <= i /\ i + n <= num_pages (fa s) /\ pa = frame_of (base_pa (fa s)) i /\ 0 < pa /\
    aligned align pa /\ (forall j, i <= j < i + n -> page_used (fa s) j = false) /\
    pmm_ok (fa s') /\ base_pa (fa s') = base_pa (fa s) /\ num_pages (fa s') = num_pages (fa s) /\
    (forall f, pmm_owned (fa s') f <->
       pmm_owned (fa s) f \/ exists j, 0 <= j < n /\ f = frame_of pa j) /\
    zeroed (pm s') pa (n * PAGE_SIZE) /\
    mem_frame (in_range pa (n * PAGE_SIZE)) (pm s) (pm s').
Proof.
  intros Hp Hn Hal. destruct (pmm_ok_bounds _ Hp) as [Hb Hnum].
  pose proof (ok_top _ Hp) as Ht. unfold pmm_alloc_aligned.
  destruct (find_from _ _ _) as [i|] eqn:Hf.
  - apply find_from_Some in Hf as (Hi & Hfit & _).
    apply run_fits_spec in Hfit as [Ha Hfree]; [|done|lia..|done].
    pose proof (take_frames_spec (base_pa (fa s)) i n (bitmap (fa s)) (pm s)
      (Z.to_nat (num_pages (fa s)))) as H.
    rewrite Z2Nat.id in H by lia.
    destruct H as (Hbits & Hcnt & Hz & Hfr); [lia..|done|apply (ok_num _ Hp)|done|].
    destruct (for_loop _ _ _ _) as [b m] eqn:Hloop. cbn in Hbits, Hcnt, Hz, Hfr. right. exists i.
    rewrite (u32_small (_ * PAGE_SIZE)), (u32_small (base_pa _ + _)) by plia.
    destruct (pmm_ok_mark (fa s) b i n) as [Hok Hown]; [done|lia..|done|done| |].
    { by rewrite Hcnt, (ok_used _ Hp). }
    cbn [fa pm base_pa num_pages]. repeat (split; [done || plia|]). done.
  - left. split; [done|split; [done|]]. intros i Hi Hin Ha.
    rewrite find_from_None in Hf. specialize (Hf i ltac:(lia)).
    destruct (find_from (page_used (fa s)) (Z.to_nat n) i) as [j|] eqn:Hj.
    + apply find_from_Some in Hj as (Hj & Hu & _). exists j. split; [lia|done].
    + rewrite find_from_None in Hj. rewrite Z2Nat.id in Hj by lia.
      apply not_true_iff_false in Hf. destruct Hf. by apply run_fits_spec.
Qed.

(** ** Freeing *)

Lemma free_page_cases f s :
  pmm_ok (fa s) -> 0 <= f < 2 ^ 32 ->
  let s' := (pmm_free_page f s).2 in
  pm s' = pm s /\ pmm_ok (fa s') /\
  base_pa (fa s') = base_pa (fa s) /\ num_pages (fa s') = num_pages (fa s) /\
  (forall g, pmm_owned (fa s') g <-> pmm_owned (fa s) g /\ ~ in_range g PAGE_SIZE f).
Proof.
  intros Hp Hf. destruct (pmm_ok_bounds _ Hp) as [Hb Hnum]. pose proof (pmm_ok_used_range _ Hp) as Hu.
  pose proof (ok_top _ Hp) as Ht. unfold pmm_free_page.
  assert (Hnop : (forall i, 0 <= i < num_pages (fa s) -> page_used (fa s) i = true ->
            ~ in_range (frame_of (base_pa (fa s)) i) PAGE_SIZE f) ->
          forall g, pmm_owned (fa s) g <-> pmm_owned (fa s) g /\ ~ in_range g PAGE_SIZE f).
  { intros H g. split; [|tauto]. intros Hg. split; [done|].
    destruct Hg as (i & Hi & -> & Hiu). by apply H. }
  case_bool.
  { repeat (split; [done|]). apply Hnop. intros. plia. }
  rewrite u32_small by lia. set (i := (f - base_pa (fa s)) / PAGE_SIZE).
  assert (Hfi : 0 <= i /\ in_range (frame_of (base_pa (fa s)) i) PAGE_SIZE f).
  { unfold i. unfold in_range, frame_of, PAGE_SIZE in *. Z.div_mod_to_equations. lia. }
  destruct (Z.ltb_spec i (num_pages (fa s))) as [Hi|Hi]; cbn [andb].
  2: { repeat (split; [done|]). apply Hnop. intros j Hj _. plia. }
  destruct (bit_used (bitmap (fa s)) i) eqn:Hiu.
  2: { repeat (split; [done|]). apply Hnop. intros j Hj Hju Hr.
       assert (i = j) as -> by plia. unfold page_used in Hju. congruence. }
  split; [done|]. cbn [fa snd].
  assert (Hbits : forall j, 0 <= j -> bit_used (bit_clr i (bitmap (fa s))) j =
            if decide (i = j) then false else page_used (fa s) j)
    by (intros; apply bit_used_clr; lia).
  split; [split; cbn; [apply Hp..|]|].
  { pose proof (bits_clr_count (bitmap (fa s)) i (Z.to_nat (num_pages (fa s))) ltac:(lia) Hiu) as Hc.
    pose proof (count_below_range (bit_used (bit_clr i (bitmap (fa s)))) (Z.to_nat (num_pages (fa s)))).
    pose proof (ok_used _ Hp : used_pages (fa s) = count_below (bit_used (bitmap (fa s))) _) as He.
    rewrite u32_small by lia. rewrite He, <- Hc. done. }
  do 2 (split; [done|]). intros g. split.
  - intros (j & Hj & -> & Hju). unfold page_used in Hju. cbn in *. rewrite Hbits in Hju by lia.
    case_decide; [done|]. split; [by exists j|]. plia.
  - intros [(j & Hj & -> & Hju) Hr]. exists j. split; [done|]. split; [done|].
    unfold page_used. cbn. rewrite Hbits by lia. case_decide; [|done]. subst. tauto.
Qed.

(** ** Initialisation and reservation *)

Lemma clear_bits_spec n b j :
  0 <= j < Z.of_nat n -> bit_used (for_loop n 0 bit_clr b) j = false.
Proof.
  intros Hj.
  apply (for_loop_ind (fun k b => forall j, 0 <= j < k -> bit_used b j = false) n 0);
    [lia| |lia].
  intros k b' Hk IH i Hi. rewrite bit_used_clr by lia. case_decide; [done|]. apply IH. lia.
Qed.

Lemma init_bounds start end_ p :
  0 < start -> start + PAGE_SIZE <= 2 ^ 32 -> 0 <= end_ < 2 ^ 32 ->
  let p' := pmm_init start end_ p in
  base_pa p' = page_up start /\
  num_pages p' = Z.max 0 (Z.min MAX_PAGES ((page_down end_ - page_up start) / PAGE_SIZE)) /\
  pmm_ok p' /\ forall i, 0 <= i < num_pages p' -> page_used p' i = false.
Proof.
  intros Hs Hs' He p'. unfold p', pmm_init.
  destruct (page_up_spec start) as [Hua Hu]. destruct (page_down_spec end_) as [Hda Hd].
  replace (start +w PAGE_SIZE -w 1) with (start + (PAGE_SIZE - 1)).
  2: { unfold PAGE_SIZE in *. destruct (Z_lt_dec (start + 4096) (2 ^ 32)).
       - rewrite (u32_small (start + 4096)), u32_small; lia.
       - by replace start with (2 ^ 32 - 4096) by lia. }
  rewrite !land_page_mask by plia. change (page_down (start + _)) with (page_up start).
  set (np := if MAX_PAGES <? _ then _ else _).
  assert (Hnp : np = Z.max 0 (Z.min MAX_PAGES ((page_down end_ - page_up start) / PAGE_SIZE))).
  { unfold np, MAX_PAGES. change (128 * 1024 * 1024 / PAGE_SIZE) with 32768.
    unfold PAGE_SIZE in *.
    destruct (Z.ltb_spec (page_up start) (page_down end_));
      [rewrite u32_small by lia|]; case_bool; Z.div_mod_to_equations; lia. }
  clearbody np. split; [done|]. split; [done|].
  assert (Hclr : forall i, 0 <= i < np ->
    bit_used (for_loop (Z.to_nat np) 0 bit_clr (bitmap p)) i = false)
    by (intros; apply clear_bits_spec; lia).
  split; [|done].
  split; cbn [base_pa num_pages used_pages]; [split; [plia|done]| | |].
  - assert (0 < MAX_PAGES) by done. rewrite Hnp. lia.
  - rewrite Hnp. unfold MAX_PAGES. change (128 * 1024 * 1024 / PAGE_SIZE) with 32768.
    unfold PAGE_SIZE in *. Z.div_mod_to_equations. lia.
  - symmetry. apply count_below_none. intros i Hi. unfold page_used. cbn. apply Hclr. lia.
Qed.

Lemma reserve_bit_spec p i :
  pmm_ok p -> 0 <= i < num_pages p ->
  let p' := reserve_bit i p in
  pmm_ok p' /\ base_pa p' = base_pa p /\ num_pages p' = num_pages p /\
  forall j, 0 <= j -> page_used p' j = page_used p j || bool_decide (j = i).
Proof.
  intros Hp Hi. unfold reserve_bit. destruct (bit_used (bitmap p) i) eqn:Hu.
  - repeat (split; [done|]). intros j Hj. case_bool_decide; [|by rewrite orb_false_r].
    subst. unfold page_used. by rewrite Hu.
  - assert (Hbits : forall j, 0 <= j -> bit_used (bit_set i (bitmap p)) j =
              page_used p j || bool_decide (j = i)).
    { intros j Hj. rewrite bit_used_set by lia. case_decide.
      - rewrite bool_decide_eq_true_2 by done. by rewrite orb_true_r.
      - rewrite bool_decide_eq_false_2 by done. by rewrite orb_false_r. }
    split; [|repeat (split; [done|]); exact Hbits].
    apply (pmm_ok_mark p (bit_set i (bitmap p)) i 1); [done|lia..| | |].
    + intros j Hj. by replace j with i by lia.
    + intros j Hj. rewrite Hbits by done. f_equal. apply bool_decide_ext. lia.
    + rewrite bits_set_count, (ok_used _ Hp); [done|lia|done].
Qed.

Lemma reserve_spec start end_ p :
  pmm_ok p -> 0 <= start < 2 ^ 32 -> 0 <= end_ < 2 ^ 32 ->
  let p' := pmm_reserve start end_ p in
  pmm_ok p' /\ base_pa p' = base_pa p /\ num_pages p' = num_pages p /\
  forall i, 0 <= i < num_pages p ->
    page_used p' i = page_used p i ||
      bool_decide (frame_of (base_pa p) i < end_ /\ start < frame_of (base_pa p) i + PAGE_SIZE).
Proof.
  intros Hp Hs He p'. destruct (pmm_ok_bounds _ Hp) as [Hb Hn]. pose proof (ok_base _ Hp) as [_ Ha].
  unfold aligned, PAGE_SIZE in Ha. unfold p', pmm_reserve. destruct (Z.leb_spec end_ (base_pa p)).
  { repeat (split; [done|]). intros i Hi. rewrite bool_decide_eq_false_2 by plia. by rewrite orb_false_r. }
  set (st := if start <? base_pa p then _ else _).
  assert (Hst : st = Z.max start (base_pa p)) by (unfold st; case_bool; lia).
  assert (Hb4 : 4096 <= base_pa p) by (Z.div_mod_to_equations; lia).
  rewrite (u32_small (st - _)) by lia.
  replace (end_ -w base_pa p +w PAGE_SIZE -w 1) with (end_ - base_pa p + (PAGE_SIZE - 1)).
  2: { unfold PAGE_SIZE. rewrite (u32_small (end_ - _)) by lia.
       rewrite (u32_small (_ + 4096)), u32_small; lia. }
  set (s := (st - base_pa p) / PAGE_SIZE). set (e := if _ <? _ then _ else _).
  assert (Hse : 0 <= s /\ 0 <= e <= num_pages p /\ forall i, 0 <= i < num_pages p ->
    (s <= i < e <-> frame_of (base_pa p) i < end_ /\ start < frame_of (base_pa p) i + PAGE_SIZE)).
  { unfold s, e, frame_of, PAGE_SIZE in *. rewrite Hst.
    split; [|split; [|intros i Hi]]; try case_bool; Z.div_mod_to_equations; lia. }
  destruct Hse as (Hs0 & He0 & Hiff). clearbody s e st.
  destruct (Z_le_dec s e) as [Hle|].
  2: { replace (Z.to_nat (e - s)) with 0%nat by lia. repeat (split; [done|]). intros i Hi.
       rewrite <- (bool_decide_ext _ _ (Hiff i Hi)), bool_decide_eq_false_2 by lia.
       by rewrite orb_false_r. }
  pose proof (for_loop_ind (fun k q => pmm_ok q /\ base_pa q = base_pa p /\
    num_pages q = num_pages p /\
    forall j, 0 <= j -> page_used q j = page_used p j || bool_decide (s <= j < k))
    (Z.to_nat (e - s)) s reserve_bit p) as Hl.
  replace (s + Z.of_nat (Z.to_nat (e - s))) with e in Hl by lia.
  destruct Hl as (H1 & H2 & H3 & H4).
  - repeat (split; [done|]). intros j Hj. rewrite bool_decide_eq_false_2 by lia. by rewrite orb_false_r.
  - intros k q Hk (Hq & Hqb & Hqn & Hqu).
    destruct (reserve_bit_spec q k) as (G1 & G2 & G3 & G4); [done|lia|].
    split; [done|]. split; [congruence|]. split; [congruence|]. intros j Hj.
    rewrite G4, Hqu, <- orb_assoc by lia. f_equal. rewrite <- bool_decide_or.
    apply bool_decide_ext. lia.
  - repeat (split; [done|]). intros i Hi. rewrite H4 by lia. f_equal. apply bool_decide_ext.
    by apply Hiff.
Qed.

(** * The contract of [Frames.v] *)

#[export] Program Instance pmm_FrameAllocSpec : FrameAllocSpec pmm := {|
  fa_ok := pmm_ok;
  fa_window := pmm_window;
  fa_owned := pmm_owned;
|}.
Next Obligation.
  cbn. intros p f Hp (i & Hi & ->). destruct (ok_base _ Hp) as [Hb Ha]. pose proof (ok_top _ Hp).
  split; [|plia]. unfold frame_of. apply aligned_add; [done|].
  rewrite Z.mul_comm. apply aligned_mul.
Qed.
Next Obligation. cbn. intros p f (i & Hi & -> & _). by exists i. Qed.
Next Obligation.
  cbn. intros s Hp. unfold wp. pose proof (alloc_page_cases s Hp) as H.
  destruct (pmm_alloc_page s) as [pa s']. cbn.
  destruct H as [(-> & -> & _)|(i & Hi & -> & Hpos & Hfree & _ & Hok & Hb & Hn & _ & Hown & Hz & Hf)].
  - split; [done|]. split; [done|]. by left.
  - split; [done|]. split; [by unfold pmm_window; rewrite Hb, Hn|]. right. split; [done|].
    split; [|split; [|by rewrite Z.mul_1_l]].
    + intros j Hj. replace j with 0 by lia.
      replace (frame_of (frame_of _ i) 0) with (frame_of (base_pa (fa s)) i) by plia.
      split; [by exists i|]. rewrite pmm_owned_frame by done. congruence.
    + intros f. rewrite Hown. apply or_iff_compat_l. split.
      * intros ->. exists 0. plia.
      * intros (j & Hj & ->). plia.
Qed.
Next Obligation.
  cbn. intros n k s Hp Hn Hk. unfold wp.
  pose proof (alloc_aligned_cases n (2 ^ k) s Hp ltac:(lia) ltac:(by exists k)) as H.
  destruct (pmm_alloc_aligned n (2 ^ k) s) as [pa s']. cbn.
  destruct H as [(-> & -> & _)|(i & Hi & Hin & -> & Hpos & Hal & Hfree & Hok & Hb & Hnum & Hown & Hz & Hf)].
  - split; [|apply Zmod_0_l]. split; [done|]. split; [done|]. by left.
  - split; [|done]. split; [done|]. split; [by unfold pmm_window; rewrite Hb, Hnum|].
    right. split; [done|]. split; [|done].
    intros j Hj.
    replace (frame_of (frame_of _ i) j) with (frame_of (base_pa (fa s)) (i + j)) by plia.
    split; [exists (i + j); split; [lia|done]|].
    rewrite pmm_owned_frame, Hfree by lia. done.
Qed.
Next Obligation.
  cbn. intros f s Hp Hf. pose proof Hf as (i & Hi & -> & Hu).
  pose proof (ok_top _ Hp) as Ht. destruct (pmm_ok_bounds _ Hp) as [Hb Hn].
  destruct (free_page_cases (frame_of (base_pa (fa s)) i) s Hp)
    as (Hm & Hok & Hb' & Hn' & Hown); [plia|].
  unfold wp. split; [done|]. split; [done|]. split; [by unfold pmm_window; rewrite Hb', Hn'|].
  intros g. rewrite Hown. split; intros [Hg Hr]; (split; [done|]);
    destruct Hg as (j & Hj & -> & _); plia.
Qed.
Next Obligation.
  cbn. intros n k s b Hp Hn Hk Hal Hrun.
  pose proof (alloc_aligned_cases n (2 ^ k) s Hp ltac:(lia) ltac:(by exists k)) as H.
  destruct (pmm_alloc_aligned n (2 ^ k) s) as [pa s']. cbn.
  destruct H as [(-> & _ & Hno)|(i & _ & _ & _ & Hpos & _)]; [|lia]. exfalso.
  destruct (Hrun 0 ltac:(lia)) as [(i & Hi & Hb) _]. destruct (Hrun (n - 1) ltac:(lia)) as [(l & Hl & Hb') _].
  assert (b = frame_of (base_pa (fa s)) i) as Hbi by plia. assert (l = i + n - 1) as -> by plia.
  destruct (Hno i) as (j & Hj & Hu); [lia|lia|by rewrite <- Hbi|].
  destruct (Hrun (j - i) ltac:(lia)) as [_ Hfree]. apply Hfree. exists j. split; [lia|]. split; [plia|done].
Qed.

(** * Properties *)

(** A 3-frame window at the bottom of DRAM, for the examples. *)
Definition demo_pmm : pmm := pmm_init 0x40000000 0x40003000 (mk_pmm ∅ 0 0 0).
Definition demo_phys : phys pmm := Phys demo_pmm ∅.

Lemma demo_pmm_ok : pmm_ok demo_pmm.
Proof. apply init_bounds; unfold PAGE_SIZE; lia. Qed.

(** [pmm_alloc_page] fails exactly when no frame is free and then changes
    nothing; otherwise it hands out the lowest free frame, zeroed, marks only
    that frame, counts it, and touches no byte outside it. *)
Theorem pmm_alloc_page_correct s pa s' :
  pmm_ok (fa s) -> pmm_alloc_page s = (pa, s') ->
  pmm_ok (fa s') /\
  (pa = 0 <-> pmm_free_pages (fa s) = 0) /\
  (pa = 0 -> s' = s) /\
  (pa <> 0 ->
     pmm_window (fa s) pa /\ ~ pmm_owned (fa s) pa /\
     (forall f, pmm_window (fa s) f -> ~ pmm_owned (fa s) f -> pa <= f) /\
     (forall f, pmm_owned (fa s') f <-> pmm_owned (fa s) f \/ f = pa) /\
     pmm_free_pages (fa s') = pmm_free_pages (fa s) - 1 /\
     zeroed (pm s') pa PAGE_SIZE /\ mem_frame (in_range pa PAGE_SIZE) (pm s) (pm s')).
Proof.
  intros Hp Heq. pose proof (alloc_page_cases s Hp) as H. rewrite Heq in H.
  destruct H as [(-> & -> & H)|(i & Hi & -> & Hpos & Hfree & Hmin & Hok & _ & _ & Hc & Hown & Hz & Hf)].
  - split; [done|]. split; [done|]. split; [done|]. done.
  - split; [done|]. split; [split; [lia|]|].
    { intros H0. pose proof (u32_range (num_pages (fa s') - used_pages (fa s'))).
      unfold pmm_free_pages in *. lia. }
    split; [lia|]. intros _. split; [by exists i|]. split; [rewrite pmm_owned_frame by done; congruence|].
    split; [|done]. intros f (j & Hj & ->) Hn. rewrite pmm_owned_frame in Hn by done.
    destruct (Z_lt_dec j i); [|plia]. rewrite Hmin in Hn by lia. done.
Qed.

Lemma pmm_alloc_page_correct_witness :
  pmm_free_pages demo_pmm = 3 /\ (pmm_alloc_page demo_phys).1 <> 0 /\
  pmm_ok (fa (pmm_alloc_page demo_phys).2).
Proof.
  split; [vm_compute; reflexivity|].
  destruct (pmm_alloc_page_correct demo_phys (pmm_alloc_page demo_phys).1
    (pmm_alloc_page demo_phys).2 demo_pmm_ok (surjective_pairing _)) as (H1 & H2 & _).
  split; [|exact H1]. intros H. apply H2 in H. vm_compute in H. discriminate H.
Defined.

(** [pmm_alloc_aligned] returns a run of [n] contiguous, free, zeroed frames
    at a multiple of [align], marking exactly that run; it fails, changing
    nothing, only when every aligned run of [n] managed frames has one in use. *)
Theorem pmm_alloc_aligned_correct n k s pa s' :
  pmm_ok (fa s) -> 0 < n -> 0 <= k < 32 -> pmm_alloc_aligned n (2 ^ k) s = (pa, s') ->
  pmm_ok (fa s') /\
  (pa = 0 -> s' = s /\
     forall f, aligned (2 ^ k) f -> (forall i, 0 <= i < n -> pmm_window (fa s) (frame_of f i)) ->
       exists i, 0 <= i < n /\ pmm_owned (fa s) (frame_of f i)) /\
  (pa <> 0 -> aligned (2 ^ k) pa /\
     (forall i, 0 <= i < n ->
        pmm_window (fa s) (frame_of pa i) /\ ~ pmm_owned (fa s) (frame_of pa i)) /\
     (forall f, pmm_owned (fa s') f <->
        pmm_owned (fa s) f \/ exists i, 0 <= i < n /\ f = frame_of pa i) /\
     zeroed (pm s') pa (n * PAGE_SIZE) /\
     mem_frame (in_range pa (n * PAGE_SIZE)) (pm s) (pm s')).
Proof.
  intros Hp Hn Hk Heq.
  pose proof (alloc_aligned_cases n (2 ^ k) s Hp Hn ltac:(by exists k)) as H. rewrite Heq in H.
  destruct H as [(-> & -> & H)|(i & Hi & Hin & -> & Hpos & Hal & Hfree & Hok & _ & _ & Hown & Hz & Hf)].
  - split; [done|]. split; [|done]. intros _. split; [done|]. intros f Ha Hw.
    destruct (Hw 0 ltac:(lia)) as (i & Hi & Hfi). replace (frame_of f 0) with f in Hfi by plia.
    destruct (Hw (n - 1) ltac:(lia)) as (l & Hl & Hfl). subst f.
    destruct (H i) as (j & Hj & Hu); [lia|plia|done|].
    exists (j - i). split; [lia|]. exists j. split; [plia|]. split; [plia|done].
  - split; [done|]. split; [lia|]. intros _. split; [done|]. split; [|done]. intros j Hj.
    replace (frame_of (frame_of _ i) j) with (frame_of (base_pa (fa s)) (i + j)) by plia.
    split; [exists (i + j); split; [lia|done]|]. rewrite pmm_owned_frame, Hfree by lia. done.
Qed.

Lemma pmm_alloc_aligned_correct_witness : pmm_ok (fa (pmm_alloc_aligned 2 (2 ^ 12) demo_phys).2).
Proof.
  apply (pmm_alloc_aligned_correct 2 12 demo_phys (pmm_alloc_aligned 2 (2 ^ 12) demo_phys).1
    (pmm_alloc_aligned 2 (2 ^ 12) demo_phys).2 demo_pmm_ok); [lia..|apply surjective_pairing].
Defined.

(** The allocator under any client: [live] lists the frames handed out and not
    yet returned, one entry per successful allocation of a frame.  Clients may
    write anywhere in memory. *)
Inductive pmm_run : phys pmm -> list Z -> Prop :=
  | run_init start end_ p m :
      0 < start -> start + PAGE_SIZE <= 2 ^ 32 -> 0 <= end_ < 2 ^ 32 ->
      pmm_run (Phys (pmm_init start end_ p) m) []
  | run_reserve s live start end_ :
      pmm_run s live -> 0 <= start < 2 ^ 32 -> 0 <= end_ < 2 ^ 32 ->
      pmm_run (Phys (pmm_reserve start end_ (fa s)) (pm s)) live
  | run_alloc s live pa s' :
      pmm_run s live -> pmm_alloc_page s = (pa, s') -> pa <> 0 -> pmm_run s' (pa :: live)
  | run_alloc_aligned s live n k pa s' :
      pmm_run s live -> 0 < n -> 0 <= k < 32 -> pmm_alloc_aligned n (2 ^ k) s = (pa, s') ->
      pa <> 0 -> pmm_run s' ((frame_of pa <$> seqZ 0 n) ++ live)
  | run_free s live1 f live2 :
      pmm_run s (live1 ++ f :: live2) -> pmm_run (pmm_free_page f s).2 (live1 ++ live2)
  | run_write s live m : pmm_run s live -> pmm_run (Phys (fa s) m) live.

Lemma run_inv s live :
  pmm_run s live -> pmm_ok (fa s) /\ NoDup live /\ forall f, f ∈ live -> pmm_owned (fa s) f.
Proof.
  induction 1 as [start end_ p m Hs He1 He2|s live start end_ _ (Hp & Hd & Ho) Hs He
    |s live pa s' _ (Hp & Hd & Ho) Heq Hne|s live n k pa s' _ (Hp & Hd & Ho) Hn Hk Heq Hne
    |s live1 f live2 _ (Hp & Hd & Ho)|s live m _ IH]; [..|exact IH].
  - split; [by apply init_bounds|]. split; [constructor|]. intros f. by rewrite elem_of_nil.
  - destruct (reserve_spec start end_ (fa s)) as (Hok & Hb & Hnum & Hu); [done..|].
    split; [done|]. split; [done|]. intros f Hf. destruct (Ho f Hf) as (i & Hi & -> & Hui).
    exists i. cbn. rewrite Hnum, Hb. split; [done|]. split; [done|]. rewrite Hu, Hui by done. done.
  - pose proof (alloc_page_cases s Hp) as H. rewrite Heq in H.
    destruct H as [(-> & _)|(i & Hi & -> & _ & Hfree & _ & Hok & _ & _ & _ & Hown & _)]; [done|].
    split; [done|]. split.
    + constructor; [|done]. intros Hin. apply Ho, pmm_owned_frame in Hin; [congruence|done].
    + intros f. rewrite elem_of_cons, Hown. naive_solver.
  - pose proof (alloc_aligned_cases n (2 ^ k) s Hp Hn ltac:(by exists k)) as H. rewrite Heq in H.
    destruct H as [(-> & _)|(i & Hi & Hin & -> & _ & _ & Hfree & Hok & _ & _ & Hown & _)]; [done|].
    split; [done|]. split.
    + apply NoDup_app. split; [|split; [|done]].
      * apply NoDup_fmap; [|apply NoDup_seqZ]. intros x y. apply frame_of_inj.
      * intros f Hf Hl. apply list_elem_of_fmap in Hf as (j & -> & Hj). apply elem_of_seqZ in Hj.
        apply Ho in Hl.
        replace (frame_of (frame_of _ i) j) with (frame_of (base_pa (fa s)) (i + j)) in Hl by plia.
        rewrite pmm_owned_frame, Hfree in Hl by lia. done.
    + intros f. rewrite elem_of_app, Hown. intros [Hf|Hf]; [|left; by apply Ho].
      apply list_elem_of_fmap in Hf as (j & -> & Hj). apply elem_of_seqZ in Hj.
      right. exists j. split; [lia|done].
  - assert (Hf : pmm_owned (fa s) f) by (apply Ho; set_solver).
    destruct (ok_base _ Hp) as [Hb _]. pose proof (ok_top _ Hp) as Ht.
    destruct Hf as (i & Hi & -> & Hu).
    destruct (free_page_cases (frame_of (base_pa (fa s)) i) s Hp) as (_ & Hok & _ & _ & Hown); [plia|].
    apply NoDup_app in Hd as (Hd1 & Hdisj & Hd2). apply NoDup_cons in Hd2 as [Hnin Hd2].
    split; [done|]. split.
    + apply NoDup_app. split; [done|]. split; [|done]. set_solver.
    + intros g Hg. rewrite Hown. split; [apply Ho; set_solver|].
      assert (g <> frame_of (base_pa (fa s)) i) by set_solver.
      assert (pmm_owned (fa s) g) as (j & Hj & -> & _) by (apply Ho; set_solver). plia.
Qed.

(** C29. Over every sequence of allocator calls, frames handed out and not freed
    are pairwise disjoint 4 KB ranges inside the managed window, each marked in
    the bitmap: no frame is ever given to two owners. *)
Theorem pmm_live_frames_disjoint s live :
  pmm_run s live ->
  pmm_ok (fa s) /\ NoDup live /\
  (forall f, f ∈ live -> pmm_owned (fa s) f) /\
  (forall f g a, f ∈ live -> g ∈ live -> in_range f PAGE_SIZE a -> in_range g PAGE_SIZE a -> f = g) /\
  Z.of_nat (length live) <= used_pages (fa s).
Proof.
  intros Hr. destruct (run_inv s live Hr) as (Hp & Hd & Ho). split; [done|]. split; [done|].
  split; [done|]. split.
  - intros f g a Hf Hg Hfa Hga. apply Ho in Hf as (i & _ & -> & _), Hg as (j & _ & -> & _). plia.
  - destruct (pmm_ok_bounds _ Hp). rewrite (ok_used _ Hp).
    rewrite <- (length_fmap (fun f => (f - base_pa (fa s)) / PAGE_SIZE)).
    assert (Hidx : forall i, (frame_of (base_pa (fa s)) i - base_pa (fa s)) / PAGE_SIZE = i).
    { intros i. unfold frame_of. replace (_ - _) with (i * PAGE_SIZE) by lia. by apply Z.div_mul. }
    apply count_below_NoDup.
    + apply NoDup_fmap_2_strong; [|done]. intros f g Hf Hg.
      apply Ho in Hf as (i & _ & -> & _), Hg as (j & _ & -> & _). rewrite !Hidx. congruence.
    + intros i Hi. apply list_elem_of_fmap in Hi as (f & -> & Hf).
      apply Ho in Hf as (j & Hj & -> & Hu). rewrite Hidx. split; [lia|done].
Qed.

Lemma pmm_live_frames_disjoint_witness :
  exists live : list Z, NoDup live /\ length live = 1%nat /\
    Z.of_nat (length live) <= used_pages (fa (pmm_alloc_page demo_phys).2).
Proof.
  exists [(pmm_alloc_page demo_phys).1].
  destruct (pmm_live_frames_disjoint (pmm_alloc_page demo_phys).2 [(pmm_alloc_page demo_phys).1])
    as (_ & Hd & _ & _ & Hu).
  - apply (run_alloc demo_phys [] _ _); [|apply surjective_pairing|].
    + apply run_init; unfold PAGE_SIZE; lia.
    + vm_compute. discriminate.
  - split; [exact Hd|]. split; [reflexivity|exact Hu].
Defined.

(** A region protected with [pmm_reserve] (the initramfs and the device tree,
    until they are consumed) is never handed out: every frame allocated
    afterwards, by either allocator, is disjoint from it, and frames outside
    the region keep their state. *)
Theorem pmm_reserve_protects start end_ p m :
  pmm_ok p -> 0 <= start < 2 ^ 32 -> 0 <= end_ < 2 ^ 32 ->
  let s := Phys (pmm_reserve start end_ p) m in
  pmm_ok (fa s) /\
  (forall f, pmm_window p f -> f + PAGE_SIZE <= start \/ end_ <= f ->
     pmm_owned (fa s) f <-> pmm_owned p f) /\
  (forall pa s', pmm_alloc_page s = (pa, s') -> pa <> 0 ->
     forall a, start <= a < end_ -> ~ in_range pa PAGE_SIZE a) /\
  (forall n k pa s', 0 < n -> 0 <= k < 32 -> pmm_alloc_aligned n (2 ^ k) s = (pa, s') -> pa <> 0 ->
     forall a, start <= a < end_ -> ~ in_range pa (n * PAGE_SIZE) a).
Proof.
  intros Hp Hs He s. destruct (reserve_spec start end_ p Hp Hs He) as (Hok & Hb & Hn & Hu).
  split; [done|]. split; [|split].
  - intros f (i & Hi & ->) Hd. cbn [s fa]. rewrite <- Hb at 1.
    rewrite !pmm_owned_frame by (rewrite ?Hn; done).
    rewrite Hu, bool_decide_eq_false_2 by (done || plia). by rewrite orb_false_r.
  - intros pa s' Heq Hne a Ha Hin. pose proof (alloc_page_cases s Hok) as H. rewrite Heq in H.
    destruct H as [(-> & _)|(i & Hi & -> & _ & Hfree & _)]; [done|]. cbn [s fa] in *.
    rewrite Hn, Hb in *. rewrite Hu, bool_decide_eq_true_2 in Hfree by (done || plia).
    by rewrite orb_true_r in Hfree.
  - intros n k pa s' Hn0 Hk Heq Hne a Ha Hin.
    pose proof (alloc_aligned_cases n (2 ^ k) s Hok Hn0 ltac:(by exists k)) as H. rewrite Heq in H.
    destruct H as [(-> & _)|(i & Hi & Hi' & -> & _ & _ & Hfree & _)]; [done|]. cbn [s fa] in *.
    rewrite Hn, Hb in *.
    assert (exists j, i <= j < i + n /\ in_range (frame_of (base_pa p) j) PAGE_SIZE a) as (j & Hj & Hja).
    { exists ((a - base_pa p) / PAGE_SIZE). unfold in_range, frame_of, PAGE_SIZE in *.
      Z.div_mod_to_equations. lia. }
    specialize (Hfree j Hj). rewrite Hu, bool_decide_eq_true_2 in Hfree by plia.
    by rewrite orb_true_r in Hfree.
Qed.

Lemma pmm_reserve_protects_witness :
  page_used (pmm_reserve 0x40000000 0x40001001 demo_pmm) 1 = true /\
  pmm_ok (pmm_reserve 0x40000000 0x40001001 demo_pmm).
Proof.
  split; [vm_compute; reflexivity|].
  apply (pmm_reserve_protects 0x40000000 0x40001001 demo_pmm ∅ demo_pmm_ok); lia.
Defined.
