(* ===== verification/Kmalloc.v ===== *)
(** The kernel heap, [kernel/mm/kmalloc.c]: a first-fit list of blocks carved
    out of page runs of the frame allocator.

    Block headers live in memory, in the layout of [struct blk] (size at 0, free
    at 4, next at 8, 16 bytes reserved); [heap_ok] describes them by a list of
    blocks.  The theorems say that the headers survive every operation, that a
    block handed out is zeroed, aligned and disjoint from all others, and that
    the contents of live blocks change only through their owner. *)

From stdpp Require Import gmap list fin_maps.
From Stdlib Require Import ZArith Lia.
From S2P Require Import Prelude Memory Frames.

(** * Model *)

Section model.
Context {A : Type} {FA : FrameAlloc A}.

(** The file's static variables, over the allocator and the memory. *)
Record kmem := mk_kmem { head : Z; tail : Z; used_bytes : Z; kphys : phys A }.

Definition set_head (v : Z) (s : kmem) : kmem := mk_kmem v (tail s) (used_bytes s) (kphys s).
Definition set_tail (v : Z) (s : kmem) : kmem := mk_kmem (head s) v (used_bytes s) (kphys s).
Definition set_used (v : Z) (s : kmem) : kmem := mk_kmem (head s) (tail s) v (kphys s).
Definition set_kphys (p : phys A) (s : kmem) : kmem := mk_kmem (head s) (tail s) (used_bytes s) p.
Definition kpm (s : kmem) : mem := pm (kphys s).
Definition upd_kpm (f : mem -> mem) (s : kmem) : kmem := set_kphys (set_pm (f (kpm s)) (kphys s)) s.

Definition HDR : Z := 12.
Definition ALIGN8 (x : Z) : Z := (x +w 7) .& .~ 7.
Definition MIN_SPLIT : Z := 16.

(** Fields of a [struct blk]. *)
Definition ld (a : Z) : M kmem Z := gets (fun s => ld32 (kpm s) a).
Definition st (a v : Z) : M kmem unit := modify (upd_kpm (fun m => st32 m a v)).
Definition f_size (b : Z) : Z := b.
Definition f_free (b : Z) : Z := b + 4.
Definition f_next (b : Z) : Z := b + 8.

Definition grow (need : Z) : M kmem Z :=
  let want := ALIGN8 need +w ALIGN8 HDR in
  let npages := (want +w PAGE_SIZE -w 1) / PAGE_SIZE in
  pa ← zoom kphys set_kphys (fa_alloc_aligned npages PAGE_SIZE);
  if pa =? 0 then mret 0
  else
    st (f_size pa) (npages *w PAGE_SIZE -w ALIGN8 HDR) ≫= fun _ =>
    st (f_free pa) 1 ≫= fun _ =>
    st (f_next pa) 0 ≫= fun _ =>
    h ← gets head;
    (if h =? 0 then modify (fun s => set_tail pa (set_head pa s))
     else t ← gets tail;
          st (f_next t) pa ≫= fun _ => modify (set_tail pa)) ≫= fun _ =>
    mret pa.

Definition split (b size : Z) : M kmem unit :=
  sz ← ld (f_size b);
  let rem := sz -w size in
  if rem <? ALIGN8 HDR +w MIN_SPLIT then mret tt
  else
    let n := b +w ALIGN8 HDR +w size in
    st (f_size n) (rem -w ALIGN8 HDR) ≫= fun _ =>
    st (f_free n) 1 ≫= fun _ =>
    nx ← ld (f_next b);
    st (f_next n) nx ≫= fun _ =>
    st (f_size b) size ≫= fun _ =>
    st (f_next b) n ≫= fun _ =>
    t ← gets tail;
    if t =? b then modify (set_tail n) else mret tt.

(** One round of [for (b = head; b; b = b->next)]: does [b] fit? *)
Definition fit_step (m : mem) (size : Z) (b : Z) : Z + option Z :=
  if b =? 0 then inr None
  else if negb (ld32 m (f_free b) =? 0) && (size <=? ld32 m (f_size b)) then inr (Some b)
  else inl (ld32 m (f_next b)).

(** The scan of [kmalloc].  A block takes at least 16 of the 2^32 addresses, so
    2^28 + 1 rounds reach the end of any well-formed list. *)
Definition first_fit (size : Z) (s : kmem) : option Z :=
  match while_pos (2 ^ 28 + 1) (fit_step (kpm s) size) (head s) with
  | inr r => r
  | inl _ => None
  end.

(** The statements that follow a successful search or a [grow] in [kmalloc]. *)
Definition take_block (b size : Z) : M kmem Z :=
  split b size ≫= fun _ =>
  st (f_free b) 0 ≫= fun _ =>
  sz ← ld (f_size b);
  modify (fun s => set_used (used_bytes s +w sz) s) ≫= fun _ =>
  let p := b +w ALIGN8 HDR in
  modify (upd_kpm (memset (Z.to_nat sz) p 0)) ≫= fun _ =>
  mret p.

Definition kmalloc (size : Z) : M kmem Z :=
  let size := if size =? 0 then 8 else size in
  let size := ALIGN8 size in
  o ← gets (first_fit size);
  match o with
  | Some b => take_block b size
  | None =>
      b ← grow size;
      if b =? 0 then mret 0 else take_block b size
  end.

Definition kzalloc (size : Z) : M kmem Z := kmalloc size.

(** The forward coalescing at the end of [kfree]: [n && n->free && n == b + ...]. *)
Definition coalesce (b : Z) : M kmem unit :=
  n ← ld (f_next b);
  if n =? 0 then mret tt
  else
    nfree ← ld (f_free n);
    sz ← ld (f_size b);
    if negb (nfree =? 0) && (n =? b +w ALIGN8 HDR +w sz) then
      nsz ← ld (f_size n);
      st (f_size b) (sz +w (ALIGN8 HDR +w nsz)) ≫= fun _ =>
      nn ← ld (f_next n);
      st (f_next b) nn ≫= fun _ =>
      t ← gets tail;
      if t =? n then modify (set_tail b) else mret tt
    else mret tt.

Definition kfree (ptr : Z) : M kmem unit :=
  if ptr =? 0 then mret tt
  else
    let b := ptr -w ALIGN8 HDR in
    st (f_free b) 1 ≫= fun _ =>
    sz ← ld (f_size b);
    modify (fun s => if sz <=? used_bytes s then set_used (used_bytes s -w sz) s else s) ≫= fun _ =>
    coalesce b.

Definition krealloc (ptr newsize : Z) : M kmem Z :=
  if ptr =? 0 then kmalloc newsize
  else
    let b := ptr -w ALIGN8 HDR in
    old ← ld (f_size b);
    if ALIGN8 newsize <=? old then mret ptr
    else
      n ← kmalloc newsize;
      if n =? 0 then mret 0
      else
        modify (upd_kpm (memcpy (Z.to_nat old) n ptr)) ≫= fun _ =>
        kfree ptr ≫= fun _ =>
        mret n.

Definition kmalloc_used : M kmem Z := gets used_bytes.
End model.

Arguments kmem A : clear implicits.

(** * Heap shape *)

Record blk := Blk { b_addr : Z; b_size : Z; b_free : bool }.

Definition b_data (b : blk) : Z := b_addr b + 16.
Definition b_end (b : blk) : Z := b_addr b + 16 + b_size b.
(** every byte of the block, header included / the payload *)
Definition b_foot (b : blk) (x : Z) : Prop := b_addr b <= x < b_end b.
Definition b_payload (b : blk) (x : Z) : Prop := b_data b <= x < b_end b.

Definition blk_ok (b : blk) : Prop :=
  0 < b_addr b /\ aligned 8 (b_addr b) /\ 0 < b_size b /\ aligned 8 (b_size b) /\ b_end b <= 2 ^ 32.

Definition hdr_at (m : mem) (b : blk) : Prop :=
  ld32 m (f_size (b_addr b)) = b_size b /\ ld32 m (f_free (b_addr b)) = Z.b2z (b_free b).

(** the list from [p] holds the blocks [bs] and goes on at [q] *)
Fixpoint heap_seg (m : mem) (p : Z) (bs : list blk) (q : Z) : Prop :=
  match bs with
  | [] => p = q
  | b :: bs' => p = b_addr b /\ hdr_at m b /\ heap_seg m (ld32 m (f_next (b_addr b))) bs' q
  end.

Definition blk_sep (b c : blk) : Prop := b_end b <= b_addr c \/ b_end c <= b_addr b.

(** [c] lies within [b] *)
Definition inside (b c : blk) : Prop := b_addr b <= b_addr c /\ b_end c <= b_end b.

Fixpoint blks_sep (bs : list blk) : Prop :=
  match bs with
  | [] => True
  | b :: bs' => Forall (blk_sep b) bs' /\ blks_sep bs'
  end.

Definition blk_used (b : blk) : Z := if b_free b then 0 else b_size b.
Definition used_sum (bs : list blk) : Z := foldr Z.add 0 (blk_used <$> bs).
(** bytes of address space the blocks take *)
Definition blk_total (bs : list blk) : Z := foldr Z.add 0 ((fun b => 16 + b_size b) <$> bs).

(** Interval arithmetic on blocks. *)
Ltac blia :=
  unfold blk_sep, inside, blk_ok, b_foot, b_payload, b_data, b_end, in_range in *;
  cbn [b_addr b_size b_free] in *; lia.

Section heap.
Context {A : Type} {FA : FrameAlloc A} {FS : FrameAllocSpec A}.
Implicit Types (s : kmem A) (m : mem) (b c : blk) (bs l : list blk).

Record heap_ok s bs : Prop := {
  hk_seg : heap_seg (kpm s) (head s) bs 0;
  hk_tail : forall b, last bs = Some b -> tail s = b_addr b;
  hk_blks : Forall blk_ok bs;
  hk_sep : blks_sep bs;
  hk_owned : forall b x, b ∈ bs -> b_foot b x -> fa_owned (fa (kphys s)) (page_down x);
  hk_fa : fa_ok (fa (kphys s));
  hk_used : used_bytes s = used_sum bs;
}.

(** ** Lists of blocks *)

Lemma blks_sep_app l1 l2 :
  blks_sep (l1 ++ l2) <->
  blks_sep l1 /\ blks_sep l2 /\ forall b c, b ∈ l1 -> c ∈ l2 -> blk_sep b c.
Proof.
  induction l1 as [|b l1 IH]; cbn.
  - split; [|naive_solver]. intros H. split; [done|]. split; [done|]. intros b c Hb. set_solver.
  - rewrite Forall_app, IH. rewrite !Forall_forall. split.
    + intros ((H1 & H2) & H3 & H4 & H5). repeat (split; [done|]). intros c d Hc Hd.
      apply elem_of_cons in Hc as [->|Hc]; auto.
    + intros ((H1 & H2) & H3 & H4). repeat split; try done.
      * intros c Hc. apply H4; set_solver.
      * intros c d Hc Hd. apply H4; set_solver.
Qed.

Lemma heap_seg_app m p l1 l2 q :
  heap_seg m p (l1 ++ l2) q <-> exists r, heap_seg m p l1 r /\ heap_seg m r l2 q.
Proof.
  revert p. induction l1 as [|b l1 IH]; intros p; cbn.
  - naive_solver.
  - rewrite IH. naive_solver.
Qed.

(** A change outside the 12 header bytes of every block keeps the list. *)
Lemma heap_seg_frame (P : Z -> Prop) m m' p bs q :
  mem_frame P m m' ->
  (forall b x, b ∈ bs -> in_range (b_addr b) 12 x -> ~ P x) ->
  heap_seg m p bs q -> heap_seg m' p bs q.
Proof.
  intros Hf. revert p. induction bs as [|b bs IH]; intros p HP; cbn; [done|].
  intros (-> & [H1 H2] & H3).
  assert (Hld : forall a, b_addr b <= a -> a + 4 <= b_addr b + 12 -> ld32 m' a = ld32 m a).
  { intros a Ha1 Ha2. apply (ld32_frame P); [done|]. intros x Hx. apply (HP b); [set_solver|].
    unfold in_range in *. lia. }
  unfold hdr_at, f_size, f_free, f_next in *. rewrite !Hld by lia.
  split; [done|]. split; [done|]. apply IH; [|done]. intros c x Hc. apply (HP c). set_solver.
Qed.

Lemma used_sum_app l1 l2 : used_sum (l1 ++ l2) = used_sum l1 + used_sum l2.
Proof. unfold used_sum. induction l1; cbn in *; lia. Qed.

Lemma used_sum_cons b l : used_sum (b :: l) = blk_used b + used_sum l.
Proof. done. Qed.

(** Disjoint blocks fit in the address space. *)
Lemma blks_total bs : Forall blk_ok bs -> blks_sep bs -> blk_total bs <= 2 ^ 32.
Proof.
  intros Hok Hsep.
  set (cells := bs ≫= fun b => seqZ (b_addr b) (16 + b_size b)).
  assert (Hlen : Z.of_nat (length cells) = blk_total bs).
  { subst cells. clear Hsep. induction Hok as [|b bs Hb Hbs IH]; [done|]. cbn.
    rewrite length_app, length_seqZ, Nat2Z.inj_add, IH. destruct Hb as (_ & _ & H & _).
    unfold blk_total. lia. }
  rewrite <- Hlen.
  assert (Hcells : cells ⊆+ seqZ 0 (2 ^ 32)).
  { apply NoDup_submseteq.
    - subst cells. clear Hlen. induction bs as [|b bs IH]; [constructor|]. cbn.
      apply Forall_cons in Hok as [Hb Hok]. destruct Hsep as [Hs1 Hs2].
      apply NoDup_app. split; [apply NoDup_seqZ|]. split; [|by apply IH].
      intros x Hx Hx2. apply elem_of_seqZ in Hx. apply list_elem_of_bind in Hx2 as (c & Hx2 & Hc).
      apply elem_of_seqZ in Hx2. rewrite Forall_forall in Hs1. specialize (Hs1 c Hc). blia.
    - intros x Hx. subst cells. apply list_elem_of_bind in Hx as (c & Hx & Hc).
      apply elem_of_seqZ in Hx. rewrite Forall_forall in Hok. specialize (Hok c Hc).
      apply elem_of_seqZ. blia. }
  apply submseteq_length in Hcells. rewrite length_seqZ in Hcells. lia.
Qed.

Lemma blk_total_app l1 l2 : blk_total (l1 ++ l2) = blk_total l1 + blk_total l2.
Proof. unfold blk_total. induction l1; cbn in *; lia. Qed.

Lemma used_sum_total bs :
  Forall blk_ok bs -> 0 <= used_sum bs /\ used_sum bs + 16 * Z.of_nat (length bs) <= blk_total bs.
Proof.
  unfold used_sum, blk_total. induction 1 as [|b bs Hb Hbs IH]; [done|].
  cbn [length fmap list_fmap foldr]. destruct Hb as (_ & _ & H & _).
  unfold blk_used at 1 3. destruct (b_free b); lia.
Qed.

Lemma blks_length bs : Forall blk_ok bs -> blks_sep bs -> Z.of_nat (length bs) <= 2 ^ 28.
Proof.
  intros Hok Hsep. pose proof (blks_total bs Hok Hsep). pose proof (used_sum_total bs Hok). lia.
Qed.

(** There is room in [used_bytes] for any free block. *)
Lemma used_room s l1 b l2 :
  heap_ok s (l1 ++ b :: l2) -> b_free b = true -> 0 <= used_bytes s /\ used_bytes s + b_size b + 16 <= 2 ^ 32.
Proof.
  intros Hk Hb. pose proof (blks_total _ (hk_blks _ _ Hk) (hk_sep _ _ Hk)) as Ht.
  rewrite (hk_used _ _ Hk). pose proof (hk_blks _ _ Hk) as Hok.
  rewrite Forall_app, Forall_cons in Hok. destruct Hok as (Hok1 & Hokb & Hok2).
  rewrite used_sum_app, used_sum_cons in *. rewrite blk_total_app in Ht.
  change (blk_total (b :: l2)) with (16 + b_size b + blk_total l2) in Ht.
  assert (Hb0 : blk_used b = 0) by (unfold blk_used; by rewrite Hb).
  rewrite Hb0. destruct (used_sum_total l1 Hok1), (used_sum_total l2 Hok2).
  lia.
Qed.

Lemma ALIGN8_spec x :
  0 <= x < 2 ^ 32 - 8 -> aligned 8 (ALIGN8 x) /\ x <= ALIGN8 x < x + 8.
Proof.
  intros Hx. unfold ALIGN8. rewrite u32_small by lia.
  change (.~ 7) with (.~ (2 ^ 3 - 1)). rewrite land_lnot_ones by lia. unfold aligned.
  change (2 ^ 3) with 8. Z.div_mod_to_equations. lia.
Qed.

Lemma ALIGN8_id x : 0 <= x < 2 ^ 32 - 8 -> aligned 8 x -> ALIGN8 x = x.
Proof.
  intros Hx Ha. destruct (ALIGN8_spec x Hx) as [H1 H2]. unfold aligned in *.
  Z.div_mod_to_equations. lia.
Qed.

(** ** The first fit *)

Definition fits (size : Z) (b : blk) : bool := b_free b && (size <=? b_size b).

Lemma fit_step_blk m size b :
  blk_ok b -> hdr_at m b ->
  fit_step m size (b_addr b) =
  if fits size b then inr (Some (b_addr b)) else inl (ld32 m (f_next (b_addr b))).
Proof.
  intros (Ha & _) [H1 H2]. unfold fit_step, fits. rewrite H1, H2.
  rewrite (proj2 (Z.eqb_neq _ _)) by lia. by destruct (b_free b).
Qed.

Lemma first_fit_loop m size p bs :
  Forall blk_ok bs -> heap_seg m p bs 0 ->
  while_nat (length bs + 1) (fit_step m size) p =
  inr (b_addr <$> find (fits size) bs).
Proof.
  intros Hok. revert p. induction Hok as [|b bs Hb Hbs IH]; intros p; cbn [heap_seg length].
  - intros ->. done.
  - intros (-> & Hh & Hseg). cbn [while_nat Nat.add]. rewrite fit_step_blk by done.
    cbn [find]. destruct (fits size b); [done|]. by apply IH.
Qed.

Lemma first_fit_eq s bs size :
  heap_ok s bs -> first_fit size s = b_addr <$> find (fits size) bs.
Proof.
  intros Hk. unfold first_fit.
  rewrite (while_pos_enough (length bs + 1) _ _ _ (b_addr <$> find (fits size) bs)); [done| |].
  - apply first_fit_loop; apply Hk.
  - pose proof (blks_length bs (hk_blks _ _ Hk) (hk_sep _ _ Hk)). lia.
Qed.

Lemma find_first (f : blk -> bool) bs b :
  find f bs = Some b -> exists l1 l2, bs = l1 ++ b :: l2 /\ f b = true /\ Forall (fun c => f c = false) l1.
Proof.
  induction bs as [|c bs IH]; cbn; [done|]. destruct (f c) eqn:Hf.
  - intros [= ->]. exists [], bs. naive_solver.
  - intros H. destruct (IH H) as (l1 & l2 & -> & Hb & Hl). exists (c :: l1), l2. naive_solver.
Qed.

(** ** Replacing one block by blocks inside it *)

Lemma heap_seg_replace m m' p l1 b l2 mid :
  heap_seg m p (l1 ++ b :: l2) 0 -> blks_sep (l1 ++ b :: l2) -> Forall blk_ok (l1 ++ b :: l2) ->
  mem_frame (b_foot b) m m' ->
  heap_seg m' (b_addr b) mid (ld32 m (f_next (b_addr b))) ->
  heap_seg m' p (l1 ++ mid ++ l2) 0.
Proof.
  intros Hseg Hsep Hok Hf Hmid.
  apply heap_seg_app in Hseg as (r & Hs1 & Hr & Hh & Hs2). subst r.
  apply blks_sep_app in Hsep as (_ & [Hb2 _] & H1b).
  rewrite Forall_app, Forall_cons in Hok. destruct Hok as (Hok1 & Hokb & Hok2).
  rewrite Forall_forall in Hb2, Hok1, Hok2.
  apply heap_seg_app. exists (b_addr b). split; [|apply heap_seg_app; eexists; split; [exact Hmid|]].
  - eapply heap_seg_frame; [exact Hf| |done]. intros c x Hc Hx Hfx.
    specialize (H1b c b Hc ltac:(set_solver)). specialize (Hok1 c Hc).
    blia.
  - eapply heap_seg_frame; [exact Hf| |done]. intros c x Hc Hx Hfx.
    specialize (Hb2 c Hc). specialize (Hok2 c Hc).
    blia.
Qed.

Lemma heap_ok_replace s s' l1 b l2 mid :
  heap_ok s (l1 ++ b :: l2) ->
  head s' = head s -> fa (kphys s') = fa (kphys s) ->
  mem_frame (b_foot b) (kpm s) (kpm s') ->
  heap_seg (kpm s') (b_addr b) mid (ld32 (kpm s) (f_next (b_addr b))) ->
  Forall blk_ok mid -> Forall (inside b) mid -> blks_sep mid -> mid <> [] ->
  (forall c, last mid = Some c -> tail s' = if tail s =? b_addr b then b_addr c else tail s) ->
  used_bytes s' = used_bytes s - blk_used b + used_sum mid ->
  heap_ok s' (l1 ++ mid ++ l2).
Proof.
  intros Hk Hhd Hfa Hf Hseg Hok Hin Hsep Hne Htl Hu.
  pose proof (hk_blks _ _ Hk) as Hbl. pose proof (hk_sep _ _ Hk) as Hsp.
  rewrite Forall_app, Forall_cons in Hbl. destruct Hbl as (Hok1 & Hokb & Hok2).
  apply blks_sep_app in Hsp as (Hsp1 & [Hspb Hsp2] & Hsp1b).
  rewrite Forall_forall in Hin, Hspb. split.
  - rewrite Hhd. eapply heap_seg_replace; try done; apply Hk.
  - intros c. rewrite app_assoc, last_app. destruct (last l2) as [d|] eqn:Hl2.
    + intros [= <-]. pose proof (hk_tail _ _ Hk d) as Ht.
      rewrite last_app, last_cons, Hl2 in Ht. specialize (Ht eq_refl).
      destruct mid as [|c0 mid0] using rev_ind; [done|]. clear IHmid0.
      rewrite (Htl c0) by by rewrite last_snoc. case_bool; [|done].
      apply last_Some_elem_of in Hl2. specialize (Hspb d Hl2).
      rewrite Forall_forall in Hok2. specialize (Hok2 d Hl2).
      blia.
    + rewrite last_app. destruct (last mid) as [d|] eqn:Hm.
      2: { apply last_None in Hm. done. }
      intros [= <-]. rewrite (Htl d eq_refl). apply last_None in Hl2. subst.
      rewrite (hk_tail _ _ Hk b) by by rewrite last_snoc. by rewrite Z.eqb_refl.
  - rewrite !Forall_app. done.
  - apply blks_sep_app. split; [done|]. split.
    + apply blks_sep_app. split; [done|]. split; [done|]. intros c d Hc Hd.
      specialize (Hin c Hc). specialize (Hspb d Hd). blia.
    + intros c d Hc Hd. apply elem_of_app in Hd as [Hd|Hd].
      * specialize (Hin d Hd). specialize (Hsp1b c b Hc ltac:(set_solver)). blia.
      * apply Hsp1b; set_solver.
  - rewrite Hfa. intros c x Hc Hx. rewrite !elem_of_app in Hc. destruct Hc as [Hc|[Hc|Hc]].
    + apply (hk_owned _ _ Hk c); [set_solver|done].
    + apply (hk_owned _ _ Hk b); [set_solver|]. specialize (Hin c Hc). blia.
    + apply (hk_owned _ _ Hk c); [set_solver|done].
  - rewrite Hfa. apply Hk.
  - rewrite Hu, (hk_used _ _ Hk), !used_sum_app, used_sum_cons. lia.
Qed.

(** ** [split], [take_block] and [grow] *)

Lemma split_spec a sz size s :
  ld32 (kpm s) (f_size a) = sz -> 0 < a -> a + 16 + sz <= 2 ^ 32 -> 0 <= size <= sz ->
  wp (split a size) s (fun _ s' =>
    head s' = head s /\ used_bytes s' = used_bytes s /\ fa (kphys s') = fa (kphys s) /\
    (sz - size < 32 /\ s' = s \/
     32 <= sz - size /\
     let n := a + 16 + size in
     mem_frame (in_range a (16 + sz)) (kpm s) (kpm s') /\
     ld32 (kpm s') (f_size a) = size /\ ld32 (kpm s') (f_free a) = ld32 (kpm s) (f_free a) /\
     ld32 (kpm s') (f_next a) = n /\
     ld32 (kpm s') (f_size n) = sz - size - 16 /\ ld32 (kpm s') (f_free n) = 1 /\
     ld32 (kpm s') (f_next n) = ld32 (kpm s) (f_next a) /\
     tail s' = if tail s =? a then n else tail s)).
Proof.
  intros Hsz Ha Hend Hsize. pose proof (ld32_range (kpm s) (f_next a)).
  unfold split, ld, st. wp_steps. rewrite Hsz.
  change (ALIGN8 HDR) with 16. change (16 +w MIN_SPLIT) with 32.
  rewrite (u32_small (sz - size)) by lia.
  destruct (Z.ltb_spec (sz - size) 32); [by wp_steps; auto 10|].
  rewrite (u32_small (a + 16)), (u32_small (a + 16 + size)), (u32_small (sz - size - 16)) by lia.
  wp_steps. unfold f_size, f_free, f_next in *.
  match goal with |- wp (if ?c then _ else _) _ _ => change c with (tail s =? a) end.
  destruct (Z.eqb_spec (tail s) a) as [Ht|Ht]; wp_steps; cbn.
  all: repeat (split; [done|]); right; split; [lia|]; unfold kpm in *; cbn; ld_simpl.
  all: rewrite !u32_small by lia; split; [|done].
  all: repeat (apply mem_frame_st32_in; [|lia..]); done.
Qed.

(** What [take_block] leaves in memory, with [small] when the rest is not split off. *)
Lemma take_block_raw a sz size sz' s :
  ld32 (kpm s) (f_size a) = sz -> 0 < a -> a + 16 + sz <= 2 ^ 32 -> 0 < size <= sz ->
  sz' = (if decide (sz - size < 32) then sz else size) ->
  let n := a + 16 + size in
  wp (take_block a size) s (fun p s' =>
    p = a + 16 /\ head s' = head s /\ fa (kphys s') = fa (kphys s) /\
    used_bytes s' = used_bytes s +w sz' /\
    tail s' = (if decide (sz - size < 32) then tail s else if tail s =? a then n else tail s) /\
    mem_frame (in_range a (16 + sz)) (kpm s) (kpm s') /\ zeroed (kpm s') (a + 16) sz' /\
    ld32 (kpm s') (f_size a) = sz' /\ ld32 (kpm s') (f_free a) = 0 /\
    ld32 (kpm s') (f_next a) = (if decide (sz - size < 32) then ld32 (kpm s) (f_next a) else n) /\
    (~ sz - size < 32 ->
       ld32 (kpm s') (f_size n) = sz - size - 16 /\ ld32 (kpm s') (f_free n) = 1 /\
       ld32 (kpm s') (f_next n) = ld32 (kpm s) (f_next a))).
Proof.
  intros Hsz Ha Hend Hsize Hsz' n. unfold take_block. wp_step.
  eapply wp_mono; [apply (split_spec a sz); (done || lia)|].
  intros [] t (Hhd & Hus & Hfa & Hcase). cbn beta. unfold st, ld. wp_steps.
  change (ALIGN8 HDR) with 16. rewrite (u32_small (a + 16)) by lia.
  set (m1 := st32 (kpm t) (f_free a) 0).
  assert (Hsz1 : ld32 m1 (f_size a) = sz').
  { unfold m1, f_size, f_free. ld_simpl. unfold f_size in *.
    destruct Hcase as [[Hc ->]|[Hc (_ & Hl & _)]]; case_decide; subst; (done || lia). }
  change (ld32 (kpm (upd_kpm _ t)) (f_size a)) with (ld32 m1 (f_size a)). rewrite Hsz1.
  set (m2 := memset (Z.to_nat sz') (a + 16) 0 m1).
  assert (Hsz'0 : size <= sz' <= sz) by (case_decide; lia).
  assert (Hm2 : mem_frame (in_range (a + 16) sz') m1 m2).
  { eapply mem_frame_mono; [apply mem_frame_memset|]. unfold in_range. lia. }
  assert (Hz2 : zeroed m2 (a + 16) sz').
  { intros x Hx. unfold m2. rewrite memset_lookup, decide_True; [done|]. unfold in_range in *. lia. }
  assert (Hld : forall x, x + 4 <= a + 16 \/ a + 16 + sz' <= x -> ld32 m2 x = ld32 m1 x).
  { intros x Hx. apply (ld32_frame _ _ _ _ Hm2). unfold in_range. lia. }
  assert (Hfr : mem_frame (in_range a (16 + sz)) (kpm t) m2).
  { eapply mem_frame_trans; [|eapply mem_frame_mono; [exact Hm2|unfold in_range; lia]].
    apply mem_frame_st32_in; [done|unfold f_free; lia..]. }
  change (kpm (upd_kpm (memset _ _ _) _)) with m2.
  cbn [head tail used_bytes kphys fa set_used upd_kpm set_kphys]. rewrite Hus.
  repeat (split; [done|]).
  unfold n, f_size, f_free, f_next in *.
  destruct Hcase as [[Hc ->]|[Hc (Hf & H1 & H2 & H3 & H4 & H5 & H6 & Ht)]];
    case_decide; try lia; subst sz'.
  - do 3 (split; [done|]). rewrite !Hld by lia. unfold m1. ld_simpl. done.
  - split; [done|]. split; [by eapply mem_frame_trans|]. split; [done|].
    rewrite !Hld by lia. unfold m1. ld_simpl; done.
Qed.

Lemma take_block_spec s l1 a sz l2 size :
  heap_ok s (l1 ++ Blk a sz true :: l2) -> 0 < size <= sz -> aligned 8 size ->
  wp (take_block a size) s (fun p s' => p = a + 16 /\
    exists sz' rest, heap_ok s' (l1 ++ (Blk a sz' false :: rest) ++ l2) /\
      size <= sz' <= sz /\ Forall (fun c => inside (Blk a sz true) c /\ b_free c = true) rest /\
      fa (kphys s') = fa (kphys s) /\ mem_frame (b_foot (Blk a sz true)) (kpm s) (kpm s') /\
      zeroed (kpm s') (a + 16) sz').
Proof.
  intros Hk Hsize Hal. pose proof (used_room _ _ _ _ Hk eq_refl) as [Hu0 Hu1]. cbn in Hu1.
  pose proof (hk_blks _ _ Hk) as Hok. rewrite Forall_app, Forall_cons in Hok.
  destruct Hok as (_ & Hokb & _). pose proof Hokb as (Ha & Haa & Hsz0 & Hsza & Hend).
  unfold b_end in Hend. cbn in Ha, Haa, Hsz0, Hsza, Hend.
  pose proof (hk_seg _ _ Hk) as Hseg. apply heap_seg_app in Hseg as (r & _ & _ & [Hh1 _] & _).
  eapply wp_mono; [by eapply (take_block_raw a sz)|].
  intros p s' (-> & Hhd & Hfa & Hu & Htl & Hf & Hz & H1 & H2 & H3 & H4). split; [done|].
  assert (Hf' : mem_frame (b_foot (Blk a sz true)) (kpm s) (kpm s')).
  { eapply mem_frame_mono; [exact Hf|]. intros x. blia. }
  case_decide as Hc.
  - exists sz, []. split; [|split; [lia|done]].
    eapply heap_ok_replace; try done.
    + constructor; [|done]. by apply Hokb.
    + constructor; [|done]. split; blia.
    + intros c [= <-]. cbn. case_bool; congruence.
    + rewrite Hu, u32_small by lia. unfold used_sum, blk_used. cbn. lia.
  - destruct (H4 Hc) as (H5 & H6 & H7).
    exists size, [Blk (a + 16 + size) (sz - size - 16) true].
    assert (Hal' : aligned 8 (a + 16 + size) /\ aligned 8 (sz - size - 16)).
    { unfold aligned in *. split; Z.div_mod_to_equations; lia. }
    split; [|split; [lia|split; [|done]]].
    2: { constructor; [|done]. split; [|done]. blia. }
    eapply heap_ok_replace; try done.
    + repeat constructor; cbn; try (done || lia || apply Hal'); blia.
    + repeat constructor; blia.
    + cbn. repeat constructor. blia.
    + intros c [= <-]. done.
    + rewrite Hu, u32_small by lia. unfold used_sum, blk_used. cbn. lia.
Qed.

(** Bytes of a fresh run are in frames that were not owned. *)
Lemma run_frame pa n x :
  aligned PAGE_SIZE pa -> in_range pa (n * PAGE_SIZE) x ->
  exists i, 0 <= i < n /\ page_down x = frame_of pa i.
Proof.
  intros Ha Hx. exists ((x - pa) / PAGE_SIZE). unfold page_down, aligned, frame_of, in_range, PAGE_SIZE in *.
  Z.div_mod_to_equations. lia.
Qed.

Lemma heap_seg_snoc m p bs q b :
  heap_seg m p (bs ++ [b]) q <->
  heap_seg m p bs (b_addr b) /\ hdr_at m b /\ ld32 m (f_next (b_addr b)) = q.
Proof. rewrite heap_seg_app. cbn. naive_solver. Qed.

(** Relinking the last block: nothing else changes in the headers. *)
Lemma heap_seg_link (P : Z -> Prop) m m' p bs c0 q :
  heap_seg m p (bs ++ [c0]) 0 -> blks_sep (bs ++ [c0]) -> Forall blk_ok (bs ++ [c0]) ->
  mem_frame P m m' ->
  (forall b x, b ∈ bs ++ [c0] -> in_range (b_addr b) 12 x -> P x -> in_range (f_next (b_addr c0)) 4 x) ->
  ld32 m' (f_next (b_addr c0)) = q ->
  heap_seg m' p (bs ++ [c0]) q.
Proof.
  intros Hseg Hsep Hok Hf HP Hq. apply heap_seg_snoc in Hseg as (Hs1 & [Hh1 Hh2] & _).
  apply heap_seg_snoc. split; [|split; [|done]].
  - eapply heap_seg_frame; [exact Hf| |done]. intros c x Hc Hx Hin.
    specialize (HP c x ltac:(set_solver) Hx Hin).
    apply blks_sep_app in Hsep as (_ & _ & Hd). specialize (Hd c c0 Hc ltac:(set_solver)).
    rewrite Forall_app, Forall_cons, !Forall_forall in Hok. destruct Hok as (Hok & Hokl & _).
    specialize (Hok c Hc). unfold f_next in *. blia.
  - assert (Hld : forall x, b_addr c0 <= x -> x + 4 <= b_addr c0 + 8 -> ld32 m' x = ld32 m x).
    { intros x H1 H2. apply (ld32_frame _ _ _ _ Hf). intros y Hy HPy.
      specialize (HP c0 y ltac:(set_solver) ltac:(unfold in_range in *; lia) HPy).
      unfold in_range, f_next in *. lia. }
    unfold hdr_at, f_size, f_free in *. rewrite !Hld by lia. done.
Qed.

(** Blocks in owned frames are disjoint from a block in fresh ones. *)
Lemma blk_sep_fresh (own : Z -> Prop) b c :
  blk_ok b -> blk_ok c -> (forall x, b_foot b x -> own (page_down x)) ->
  (forall x, b_foot c x -> ~ own (page_down x)) -> blk_sep b c.
Proof.
  intros Hb Hc Ho Hn. destruct (decide (blk_sep b c)) as [|H]; [done|]. exfalso.
  apply (Hn (Z.max (b_addr b) (b_addr c))); [blia|]. apply Ho. blia.
Qed.

Lemma heap_head_nil s bs : heap_ok s bs -> head s = 0 <-> bs = [].
Proof.
  intros Hk. pose proof (hk_seg _ _ Hk) as Hseg. pose proof (hk_blks _ _ Hk) as Hok.
  destruct bs as [|b bs]; cbn in Hseg; [done|]. destruct Hseg as (-> & _).
  apply Forall_cons in Hok as [(Hb & _) _]. split; [lia|done].
Qed.

(** The memory a [grow] may change: the new block and the old tail's link. *)
Definition grow_area bs (nb : blk) (x : Z) : Prop :=
  b_foot nb x \/ exists b, last bs = Some b /\ in_range (f_next (b_addr b)) 4 x.

Lemma heap_ok_append s s' bs nb :
  heap_ok s bs -> blk_ok nb -> b_free nb = true ->
  (forall x, b_foot nb x -> ~ fa_owned (fa (kphys s)) (page_down x)) ->
  (forall x, b_foot nb x -> fa_owned (fa (kphys s')) (page_down x)) ->
  (forall f, fa_owned (fa (kphys s)) f -> fa_owned (fa (kphys s')) f) ->
  fa_ok (fa (kphys s')) ->
  mem_frame (grow_area bs nb) (kpm s) (kpm s') ->
  hdr_at (kpm s') nb -> ld32 (kpm s') (f_next (b_addr nb)) = 0 ->
  (forall b, last bs = Some b -> ld32 (kpm s') (f_next (b_addr b)) = b_addr nb) ->
  head s' = (if head s =? 0 then b_addr nb else head s) -> tail s' = b_addr nb ->
  used_bytes s' = used_bytes s ->
  heap_ok s' (bs ++ [nb]).
Proof.
  intros Hk Hnb Hfr Hnew Hown Hmono Hfa Hf Hh Hnx Hlast Hhd Htl Hu.
  pose proof (hk_blks _ _ Hk) as Hok. pose proof (hk_sep _ _ Hk) as Hsep.
  assert (Hd : forall b, b ∈ bs -> blk_sep b nb).
  { intros b Hb. apply (blk_sep_fresh (fa_owned (fa (kphys s)))); [|done| |done].
    - rewrite Forall_forall in Hok. by apply Hok.
    - intros x. by apply (hk_owned _ _ Hk). }
  split.
  - apply heap_seg_snoc. split; [|done]. pose proof (hk_seg _ _ Hk) as Hseg.
    destruct bs as [|l bs _] using rev_ind.
    + cbn in *. by rewrite Hhd, Hseg.
    + rewrite (proj2 (Z.eqb_neq _ _)) in Hhd.
      2: { rewrite (heap_head_nil _ _ Hk). by destruct bs. }
      rewrite Hhd. eapply heap_seg_link; try done.
      * intros b x Hb Hx [Hx'|(b' & Hl & Hx')].
        -- specialize (Hd b Hb). rewrite Forall_forall in Hok. specialize (Hok b Hb). blia.
        -- rewrite last_snoc in Hl. by injection Hl as <-.
      * apply Hlast. by rewrite last_snoc.
  - intros b. rewrite last_snoc. by intros [= <-].
  - rewrite Forall_app. auto.
  - apply blks_sep_app. split; [done|]. split; [by repeat constructor|].
    intros b c Hb Hc. apply list_elem_of_singleton in Hc as ->. auto.
  - intros b x Hb Hx. apply elem_of_app in Hb as [Hb|Hb].
    + apply Hmono. by apply (hk_owned _ _ Hk b).
    + apply list_elem_of_singleton in Hb as ->. auto.
  - done.
  - rewrite Hu, (hk_used _ _ Hk), used_sum_app, used_sum_cons. unfold blk_used. rewrite Hfr. cbn. lia.
Qed.

(** No run of frames that holds [need] bytes and a header is free. *)
Definition no_frames s (need : Z) : Prop :=
  forall k f, aligned PAGE_SIZE f -> need + 16 <= k * PAGE_SIZE -> ~ free_run (fa (kphys s)) k f.

Lemma grow_spec s bs need :
  heap_ok s bs -> 0 <= need < 2 ^ 32 - 3 * PAGE_SIZE -> aligned 8 need ->
  wp (grow need) s (fun pa s' =>
    (pa = 0 /\ s' = s /\ no_frames s need) \/
    (0 < pa /\ exists sz, need <= sz /\ heap_ok s' (bs ++ [Blk pa sz true]) /\
     (forall f, fa_owned (fa (kphys s)) f -> fa_owned (fa (kphys s')) f) /\
     (forall x, b_foot (Blk pa sz true) x -> ~ fa_owned (fa (kphys s)) (page_down x)) /\
     mem_frame (grow_area bs (Blk pa sz true)) (kpm s) (kpm s'))).
Proof.
  intros Hk Hneed Hal. pose proof (hk_fa _ _ Hk) as Hfa.
  unfold grow. rewrite ALIGN8_id by (done || plia). change (ALIGN8 HDR) with 16.
  rewrite (u32_small (need + 16)), (u32_small (need + 16 + PAGE_SIZE)),
    (u32_small (need + 16 + PAGE_SIZE - 1)) by plia.
  set (np := (need + 16 + PAGE_SIZE - 1) / PAGE_SIZE).
  assert (Hnp : (0 < np < 2 ^ 20 /\ need + 16 <= np * PAGE_SIZE) /\ forall k, need + 16 <= k * PAGE_SIZE -> np <= k).
  { unfold np, PAGE_SIZE in *. split; [|intros k Hk'; clear -Hneed Hk']; Z.div_mod_to_equations; lia. }
  destruct Hnp as [Hnp Hleast].
  clearbody np. wp_steps. unfold PAGE_SIZE at 1. change 4096 with (2 ^ 12).
  assert (Hfail : (fa_alloc_aligned np (2 ^ 12) (kphys s)).1 = 0 -> no_frames s need).
  { intros H0 k b Hb Hfit Hrun. apply (fa_alloc_aligned_complete np 12 (kphys s) b Hfa); [lia|lia|exact Hb| |exact H0].
    intros i Hi. apply Hrun. specialize (Hleast k Hfit). lia. }
  pose proof (fa_alloc_aligned_spec np 12 (kphys s) Hfa ltac:(lia) ltac:(lia)) as Hspec. unfold wp in Hspec.
  unfold wp at 1. destruct (fa_alloc_aligned np (2 ^ 12) (kphys s)) as [pa ph]. cbn [fst snd] in *.
  destruct Hspec as ((Hok & Hwin & Hcase) & Hpal).
  destruct Hcase as [[-> ->]|(Hpos & Hfresh & Hown & Hz & Hf)].
  { rewrite Z.eqb_refl. wp_steps. left. split; [done|]. split; [by destruct s|by apply Hfail]. }
  clear Hfail.
  rewrite (proj2 (Z.eqb_neq _ _)) by lia.
  assert (Htop : pa + np * PAGE_SIZE <= 2 ^ 32).
  { destruct (Hfresh (np - 1) ltac:(lia)) as [Hw _].
    apply fa_window_frame in Hw as (_ & _ & Hw); [|done]. plia. }
  rewrite (u32_small (np * PAGE_SIZE)), (u32_small (np * PAGE_SIZE - 16)) by plia.
  set (sz := np * PAGE_SIZE - 16). set (nb := Blk pa sz true).
  assert (Hnew : forall x, b_foot nb x -> exists i, 0 <= i < np /\ page_down x = frame_of pa i).
  { intros x Hx. apply run_frame; [apply (fa_window_frame (fa (kphys s))); [done|]|].
    - destruct (Hfresh 0 ltac:(lia)) as [Hw _]. by replace (frame_of pa 0) with pa in Hw by plia.
    - subst nb sz. blia. }
  assert (Hnok : blk_ok nb).
  { subst nb sz. unfold blk_ok, b_end, aligned, PAGE_SIZE in *. cbn. change (2 ^ 12) with 4096 in *.
    repeat split; try lia; Z.div_mod_to_equations; lia. }
  assert (Hsz : need <= sz) by (subst sz; lia). 
  assert (Hfr' : mem_frame (b_foot nb) (kpm s) (pm ph)).
  { eapply mem_frame_mono; [exact Hf|]. subst nb sz. intros x. blia. }
  clearbody sz. unfold st. wp_steps.
  match goal with |- wp (if ?c then _ else _) _ _ => change c with (head s =? 0) end.
  set (m3 := st32 (st32 (st32 (pm ph) (f_size pa) sz) (f_free pa) 1) (f_next pa) 0).
  assert (Hm3 : mem_frame (b_foot nb) (kpm s) m3 /\ hdr_at m3 nb /\ ld32 m3 (f_next pa) = 0).
  { subst nb. destruct Hnok as (Hpa & _ & Hsz0 & _ & Hend). unfold b_end in Hend. cbn in Hpa, Hsz0, Hend.
    unfold m3, hdr_at, f_size, f_free, f_next. cbn [b_addr b_size b_free]. ld_simpl.
    rewrite !u32_small by lia. split; [|done]. eapply mem_frame_mono.
    - do 3 (apply (mem_frame_st32_in _ _ pa (16 + sz)); [|lia..]).
      eapply mem_frame_mono; [exact Hfr'|]. intros x. blia.
    - intros x. blia. }
  destruct Hm3 as (Hm3 & Hh3 & Hn3).
  assert (Hnew' : forall x, b_foot nb x -> ~ fa_owned (fa (kphys s)) (page_down x) /\
                                          fa_owned (fa ph) (page_down x)).
  { intros x Hx. destruct (Hnew x Hx) as (i & Hi & ->). split; [by apply Hfresh|].
    apply Hown. eauto. }
  destruct (Z.eqb_spec (head s) 0) as [Hh0|Hh0]; wp_steps.
  - right; split; [done|]; exists sz; split; [done|]. apply (heap_head_nil _ _ Hk) in Hh0 as ->.
    assert (Hf' : mem_frame (grow_area [] nb) (kpm s) m3)
      by (eapply mem_frame_mono; [exact Hm3|]; by left).
    split; [|split; [intros f; rewrite Hown; auto|split; [naive_solver|exact Hf']]].
    apply (heap_ok_append s); cbn; try done; [naive_solver..|].
    rewrite (proj2 (heap_head_nil _ _ Hk)) by done. done.
  - destruct (last bs) as [c0|] eqn:Hl; [|apply last_None in Hl; by apply (heap_head_nil _ _ Hk) in Hl].
    pose proof (last_Some_elem_of _ _ Hl) as Hin.
    pose proof (proj1 (Forall_forall _ _) (hk_blks _ _ Hk) c0 Hin) as Hok0.
    assert (Hd : blk_sep c0 nb).
    { apply (blk_sep_fresh (fa_owned (fa (kphys s)))); try done; [|naive_solver].
      intros x. by apply (hk_owned _ _ Hk). }
    match goal with |- context [f_next (tail ?x)] => change (tail x) with (tail s) end.
    rewrite (hk_tail _ _ Hk c0 Hl). set (m4 := st32 m3 (f_next (b_addr c0)) pa).
    match goal with |- context [kpm ?x] => lazymatch x with set_tail _ _ => set (s4 := x) end end.
    assert (Hm4 : kpm s4 = m4) by done. assert (Hfa4 : fa (kphys s4) = fa ph) by done.
    assert (Hst4 : head s4 = head s /\ tail s4 = pa /\ used_bytes s4 = used_bytes s) by done.
    destruct Hst4 as (Hh4 & Ht4 & Hu4). clearbody s4. rewrite Hfa4.
    right; split; [done|]; exists sz; split; [done|].
    assert (Hf' : mem_frame (grow_area bs nb) (kpm s) (kpm s4)).
    { rewrite Hm4. eapply mem_frame_trans; [eapply mem_frame_mono; [exact Hm3|]; by left|].
      eapply mem_frame_mono; [apply mem_frame_st32|]. intros x Hx. right. by exists c0. }
    assert (Hld : forall x, pa <= x -> x + 4 <= pa + 12 -> ld32 m4 x = ld32 m3 x).
    { intros x H1 H2. unfold m4. apply ld32_st32_ne. unfold f_next. subst nb. blia. }
    split; [|split; [intros f; rewrite Hown; auto|split; [naive_solver|exact Hf']]].
    apply (heap_ok_append s); rewrite ?Hfa4; try done; [naive_solver..| | | |]; rewrite ?Hm4.
    + unfold hdr_at, f_size, f_free in *. subst nb. cbn [b_addr b_size b_free] in *.
      rewrite !Hld by lia. done.
    + unfold f_next in *. rewrite Hld by (cbn; lia). done.
    + intros b. rewrite Hl. intros [= <-]. unfold m4. ld_simpl. apply u32_small. subst nb. blia.
    + by rewrite (proj2 (Z.eqb_neq _ _)).
Qed.

(** ** The heap as its live blocks *)

Definition live bs : list blk := filter (fun b => b_free b = false) bs.

Lemma live_app l1 l2 : live (l1 ++ l2) = live l1 ++ live l2.
Proof. apply filter_app. Qed.

Lemma live_free l : Forall (fun b => b_free b = true) l -> live l = [].
Proof.
  induction 1 as [|b l Hb _ IH]; [done|]. unfold live. rewrite filter_cons, decide_False; [done|congruence].
Qed.

Lemma live_cons_free b l : b_free b = true -> live (b :: l) = live l.
Proof. intros Hb. unfold live. rewrite filter_cons, decide_False; [done|congruence]. Qed.

Lemma live_cons_used b l : b_free b = false -> live (b :: l) = b :: live l.
Proof. intros Hb. unfold live. by rewrite filter_cons, decide_True. Qed.

Lemma elem_of_live b bs : b ∈ live bs <-> b ∈ bs /\ b_free b = false.
Proof. unfold live. rewrite list_elem_of_filter. tauto. Qed.

(** [same_data l m m']: the payloads of the blocks [l] are untouched. *)
Definition same_data l m m' : Prop := forall b x, b ∈ l -> b_payload b x -> ldb m' x = ldb m x.

Lemma same_data_frame (P : Z -> Prop) l m m' :
  mem_frame P m m' -> (forall b x, b ∈ l -> b_payload b x -> ~ P x) -> same_data l m m'.
Proof. intros Hf HP b x Hb Hx. apply Hf. by eapply HP. Qed.

Lemma blks_sep_elem l1 b l2 c :
  blks_sep (l1 ++ b :: l2) -> c ∈ l1 ++ l2 -> blk_sep b c.
Proof.
  intros Hs Hc. apply blks_sep_app in Hs as (_ & [Hb _] & H1). rewrite Forall_forall in Hb.
  apply elem_of_app in Hc as [Hc|Hc]; [|by apply Hb].
  specialize (H1 c b Hc ltac:(set_solver)). unfold blk_sep in *. tauto.
Qed.

Lemma blks_sep_two bs b c : blks_sep bs -> b ∈ bs -> c ∈ bs -> b = c \/ blk_sep b c.
Proof.
  intros Hs Hb Hc. apply list_elem_of_split in Hb as (l1 & l2 & ->).
  apply elem_of_app in Hc as [Hc|Hc]; [right; eapply blks_sep_elem; set_solver|].
  apply elem_of_cons in Hc as [->|Hc]; [by left|right; eapply blks_sep_elem; set_solver].
Qed.

(** Bytes an allocation may change: those of the heap's own blocks and frames
    nobody owned. *)
Definition heap_area s bs (x : Z) : Prop :=
  (exists c, c ∈ bs /\ b_foot c x) \/ ~ fa_owned (fa (kphys s)) (page_down x).

(** the blocks lie within [Q] *)
Definition foot_in bs (Q : Z -> Prop) : Prop := forall b x, b ∈ bs -> b_foot b x -> Q x.
Definition in_blocks bs (x : Z) : Prop := exists b, b ∈ bs /\ b_foot b x.

(** Outcome of a successful allocation of [n] bytes at [p]. *)
Definition alloc_ok s bs n p s' : Prop :=
  exists bs' b, heap_ok s' bs' /\ p = b_data b /\ live bs' ≡ₚ b :: live bs /\ n <= b_size b /\
    zeroed (kpm s') p (b_size b) /\ same_data (live bs) (kpm s) (kpm s') /\
    (forall f, fa_owned (fa (kphys s)) f -> fa_owned (fa (kphys s')) f) /\
    mem_frame (heap_area s bs) (kpm s) (kpm s') /\ foot_in bs' (heap_area s bs).

Lemma take_block_alloc s l1 a sz l2 size n :
  heap_ok s (l1 ++ Blk a sz true :: l2) -> 0 < size <= sz -> aligned 8 size -> n <= size ->
  wp (take_block a size) s (fun p s' =>
    p <> 0 /\ alloc_ok s (l1 ++ Blk a sz true :: l2) n p s' /\ fa (kphys s') = fa (kphys s)).
Proof.
  intros Hk Hsize Hal Hn. eapply wp_mono; [by apply take_block_spec|].
  intros p s' (-> & sz' & rest & Hk' & Hsz' & Hrest & Hfa & Hf & Hz).
  pose proof (hk_blks _ _ Hk) as Hok. rewrite Forall_app, Forall_cons in Hok.
  destruct Hok as (_ & (Ha & _) & _). cbn in Ha. split; [lia|]. split; [|done].
  exists (l1 ++ (Blk a sz' false :: rest) ++ l2), (Blk a sz' false).
  split; [done|]. split; [done|]. split; [|split; [cbn; lia|split; [done|split; [|split; [|split]]]]].
  - rewrite !live_app, live_cons_used, (live_cons_free (Blk a sz true)), (live_free rest); [|..|done|done].
    + cbn. by rewrite Permutation_middle.
    + eapply Forall_impl; [exact Hrest|]. naive_solver.
  - eapply same_data_frame; [exact Hf|]. intros c x Hc Hx Hx'.
    apply elem_of_live in Hc as [Hc Hcf].
    assert (c ∈ l1 ++ l2).
    { rewrite elem_of_app, elem_of_cons in Hc. destruct Hc as [?|[->|?]]; [set_solver|done|set_solver]. }
    pose proof (blks_sep_elem _ _ _ _ (hk_sep _ _ Hk) H). blia.
  - rewrite Hfa. done.
  - eapply mem_frame_mono; [exact Hf|]. intros x Hx. left. exists (Blk a sz true). split; [set_solver|done].
  - intros c x Hc Hx. left. rewrite Forall_forall in Hrest.
    rewrite !elem_of_app, elem_of_cons in Hc. destruct Hc as [Hc|[[->|Hc]|Hc]].
    + exists c. split; [set_solver|done].
    + exists (Blk a sz true). split; [set_solver|blia].
    + destruct (Hrest c Hc) as [Hin _]. exists (Blk a sz true). split; [set_solver|blia].
    + exists c. split; [set_solver|done].
Qed.

Lemma kmalloc_spec s bs n :
  heap_ok s bs -> 0 <= n < 2 ^ 32 - 4 * PAGE_SIZE ->
  wp (kmalloc n) s (fun p s' =>
    (p = 0 /\ s' = s /\ (forall b, b ∈ bs -> b_free b = true -> b_size b < Z.max 8 (ALIGN8 n)) /\ no_frames s (Z.max 8 (ALIGN8 n))) \/
    (p <> 0 /\ alloc_ok s bs n p s' /\
     ((exists c, c ∈ bs /\ fits (Z.max 8 (ALIGN8 n)) c = true) -> fa (kphys s') = fa (kphys s)))).
Proof.
  intros Hk Hn. unfold kmalloc.
  set (size := ALIGN8 (if n =? 0 then 8 else n)).
  assert (Hsize : aligned 8 size /\ 8 <= size < 2 ^ 32 - 3 * PAGE_SIZE /\ n <= size /\ size = Z.max 8 (ALIGN8 n)).
  { unfold size. case_bool.
    - subst. change (ALIGN8 8) with 8. change (ALIGN8 0) with 0. unfold PAGE_SIZE. repeat split; lia.
    - destruct (ALIGN8_spec n) as [H1 H2]; [plia|]. unfold aligned, PAGE_SIZE in *.
      split; [done|]. Z.div_mod_to_equations. lia. }
  destruct Hsize as (Hal & Hsz & Hnsz & <-). clearbody size. wp_steps.
  rewrite (first_fit_eq _ _ _ Hk). destruct (find (fits size) bs) as [b|] eqn:Hfind; cbn.
  - apply find_first in Hfind as (l1 & l2 & -> & Hfit & _). apply andb_true_iff in Hfit as [Hfr Hle].
    apply Z.leb_le in Hle. destruct b as [a sz fr]. cbn in *. subst fr.
    eapply wp_mono; [by apply (take_block_alloc _ l1 a sz l2 size n); (done || lia)|]. naive_solver.
  - assert (Hnone : forall b, b ∈ bs -> b_free b = true -> b_size b < size).
    { intros b Hb Hfr. pose proof (find_none _ _ Hfind b) as H. unfold fits in H.
      rewrite Hfr in H. cbn in H. apply list_elem_of_In in Hb. specialize (H Hb). lia. }
    wp_steps. eapply wp_mono; [apply grow_spec; (done || lia)|].
    intros pa t [(-> & -> & Hnf)|(Hpa & sz & Hsz' & Hk' & Hmono & Hnew & Hf)]; cbn beta.
    { rewrite Z.eqb_refl. wp_steps. by left. }
    rewrite (proj2 (Z.eqb_neq _ _)) by lia.
    eapply wp_mono; [apply (take_block_alloc _ bs pa sz [] size n); (done || lia)|].
    intros p s' (Hp & (bs' & b & Hk2 & -> & Hl & Hb & Hz & Hd & Hmono2 & Hf2 & Hft) & Hfa). right. split; [done|].
    rewrite live_app, (live_cons_free (Blk pa sz true)), app_nil_r in * by done.
    split; [|intros (c & Hc & Hfit); apply andb_true_iff in Hfit as [Hc1 Hc2%Z.leb_le]; specialize (Hnone c Hc Hc1); lia].
    assert (Harea : forall x, heap_area t (bs ++ [Blk pa sz true]) x -> heap_area s bs x).
    { intros x [(c & Hc & Hx)|Hx]; [|right; naive_solver].
      apply elem_of_app in Hc as [Hc|Hc]; [left; by exists c|].
      apply list_elem_of_singleton in Hc as ->. right. by apply Hnew. }
    exists bs', b. repeat (split; [done|]). split; [|split; [|split]].
    + intros c x Hc Hx. rewrite (Hd c x) by done. apply Hf.
      apply elem_of_live in Hc as [Hc _].
      pose proof (proj1 (Forall_forall _ _) (hk_blks _ _ Hk) c Hc) as Hokc.
      intros [Hx'|(c0 & Hl0 & Hx')].
      * apply (Hnew x Hx'). apply (hk_owned _ _ Hk c); [done|]. blia.
      * apply last_Some_elem_of in Hl0.
        pose proof (proj1 (Forall_forall _ _) (hk_blks _ _ Hk) c0 Hl0) as Hok0. unfold f_next in *.
        destruct (blks_sep_two _ c c0 (hk_sep _ _ Hk) Hc Hl0) as [->|Hd0]; blia.
    + intros f Hown. apply Hmono2. rewrite Hfa in *. by apply Hmono.
    + eapply mem_frame_trans.
      * eapply mem_frame_mono; [exact Hf|]. intros x [Hx|(c0 & Hl0 & Hx)]; [right; by apply Hnew|].
        apply last_Some_elem_of in Hl0. left. exists c0. split; [done|].
        pose proof (proj1 (Forall_forall _ _) (hk_blks _ _ Hk) c0 Hl0). unfold f_next in *. blia.
      * by eapply mem_frame_mono; [exact Hf2|].
    + intros c x Hc Hx. by apply Harea, (Hft c).
Qed.

(** ** Freeing *)

Lemma heap_seg_sub m p l1 b l2 :
  heap_seg m p (l1 ++ b :: l2) 0 -> hdr_at m b /\ heap_seg m (ld32 m (f_next (b_addr b))) l2 0.
Proof. intros H. apply heap_seg_app in H as (r & _ & _ & H). done. Qed.

Definition merged b c : blk := Blk (b_addr b) (b_size b + 16 + b_size c) true.

Lemma heap_ok_merge s s' l1 b c l2 :
  heap_ok s (l1 ++ b :: c :: l2) -> b_free b = true -> b_free c = true -> b_addr c = b_end b ->
  kpm s' = st32 (st32 (kpm s) (f_size (b_addr b)) (b_size b + 16 + b_size c))
                (f_next (b_addr b)) (ld32 (kpm s) (f_next (b_addr c))) ->
  head s' = head s -> fa (kphys s') = fa (kphys s) -> used_bytes s' = used_bytes s ->
  tail s' = (if tail s =? b_addr c then b_addr b else tail s) ->
  heap_ok s' (l1 ++ merged b c :: l2).
Proof.
  intros Hk Hb Hc Hadj Hm Hhd Hfa Hu Ht.
  pose proof (hk_blks _ _ Hk) as Hok. pose proof (hk_sep _ _ Hk) as Hsep.
  rewrite Forall_app, !Forall_cons in Hok. destruct Hok as (Hok1 & Hokb & Hokc & Hok2).
  apply blks_sep_app in Hsep as (Hs1 & (Hsb & Hsc & Hs2) & H1).
  rewrite Forall_cons, !Forall_forall in *. destruct Hsb as [Hbc Hsb].
  assert (Hf : mem_frame (in_range (b_addr b) 12) (kpm s) (kpm s')).
  { rewrite Hm. unfold f_size, f_next. do 2 (apply mem_frame_st32_in; [|lia..]). done. }
  pose proof (ld32_range (kpm s) (f_next (b_addr c))) as Hr.
  split.
  - rewrite Hhd. pose proof (hk_seg _ _ Hk) as Hseg.
    apply heap_seg_app in Hseg as (r & Hl & -> & [_ Hbf] & _ & _ & Hl2).
    apply heap_seg_app. exists (b_addr b). split; [|split; [done|split]].
    + eapply heap_seg_frame; [exact Hf| |done]. intros d x Hd Hx Hx'.
      specialize (H1 d b Hd ltac:(set_solver)). specialize (Hok1 d Hd). blia.
    + rewrite Hm. unfold hdr_at, f_size, f_free, f_next in *. cbn. ld_simpl. rewrite Hbf, Hb.
      split; [apply u32_small; blia|done].
    + replace (ld32 (kpm s') (f_next (b_addr (merged b c)))) with (ld32 (kpm s) (f_next (b_addr c))).
      2: { rewrite Hm. cbn [b_addr merged]. ld_simpl. by rewrite u32_small. }
      eapply heap_seg_frame; [exact Hf| |done]. intros d x Hd Hx Hx'.
      specialize (Hsb d Hd). specialize (Hok2 d Hd). blia.
  - intros d. rewrite Ht, last_app, last_cons. pose proof (hk_tail _ _ Hk) as Htl.
    rewrite last_app, !last_cons in Htl. destruct (last l2) as [e|] eqn:He; cbn [from_option] in *.
    + intros [= <-]. rewrite (Htl e eq_refl). apply last_Some_elem_of in He.
      specialize (Hsc e He). specialize (Hok2 e He). case_bool; [blia|done].
    + intros [= <-]. rewrite (Htl c eq_refl), Z.eqb_refl. done.
  - rewrite Forall_app, Forall_cons, !Forall_forall. split; [done|]. split; [|done].
    unfold blk_ok, b_end, aligned in *. cbn. repeat split; try lia. Z.div_mod_to_equations. lia.
  - apply blks_sep_app. split; [done|]. split.
    + split; [|done]. rewrite Forall_forall. intros d Hd. specialize (Hsb d Hd). specialize (Hsc d Hd).
      specialize (Hok2 d Hd). unfold merged. blia.
    + intros d e Hd He. apply elem_of_cons in He as [->|He]; [|apply H1; set_solver].
      pose proof (H1 d b Hd ltac:(set_solver)). pose proof (H1 d c Hd ltac:(set_solver)).
      specialize (Hok1 d Hd). unfold merged. blia.
  - rewrite Hfa. intros d x Hd Hx. rewrite elem_of_app, elem_of_cons in Hd. destruct Hd as [Hd|[->|Hd]].
    + apply (hk_owned _ _ Hk d); [set_solver|done].
    + destruct (decide (b_foot b x)).
      * apply (hk_owned _ _ Hk b); [set_solver|done].
      * apply (hk_owned _ _ Hk c); [set_solver|]. unfold merged in Hx. blia.
    + apply (hk_owned _ _ Hk d); [set_solver|done].
  - rewrite Hfa. apply Hk.
  - rewrite Hu, (hk_used _ _ Hk), !used_sum_app, !used_sum_cons. unfold blk_used. rewrite Hb, Hc. cbn. lia.
Qed.

Lemma used_sum_ge bs b : Forall blk_ok bs -> b ∈ bs -> blk_used b <= used_sum bs.
Proof.
  intros Hok Hb. apply list_elem_of_split in Hb as (l1 & l2 & ->).
  rewrite Forall_app, Forall_cons in Hok. destruct Hok as (H1 & _ & H2).
  rewrite used_sum_app, used_sum_cons. destruct (used_sum_total l1 H1), (used_sum_total l2 H2). lia.
Qed.

(** Marking a live block free. *)
Lemma heap_ok_release s s' l1 b l2 :
  heap_ok s (l1 ++ b :: l2) -> b_free b = false ->
  kpm s' = st32 (kpm s) (f_free (b_addr b)) 1 ->
  head s' = head s -> tail s' = tail s -> fa (kphys s') = fa (kphys s) ->
  used_bytes s' = used_bytes s - b_size b ->
  heap_ok s' (l1 ++ Blk (b_addr b) (b_size b) true :: l2).
Proof.
  intros Hk Hb Hm Hhd Htl Hfa Hu.
  pose proof (hk_blks _ _ Hk) as Hok. rewrite Forall_app, Forall_cons in Hok. destruct Hok as (_ & Hokb & _).
  destruct (heap_seg_sub _ _ _ _ _ (hk_seg _ _ Hk)) as [[Hh1 _] _].
  apply (heap_ok_replace s s' l1 b l2 [Blk (b_addr b) (b_size b) true]); try done.
  - rewrite Hm. eapply mem_frame_mono; [apply mem_frame_st32|]. intros x. unfold f_free. blia.
  - rewrite Hm. unfold heap_seg, hdr_at, f_size, f_free, f_next in *. cbn. ld_simpl. done.
  - constructor; [exact Hokb|constructor].
  - repeat constructor; blia.
  - intros c [= <-]. cbn. case_bool; congruence.
  - rewrite Hu. unfold used_sum, blk_used. rewrite Hb. cbn. lia.
Qed.

Lemma coalesce_spec s l1 a sz l2 :
  heap_ok s (l1 ++ Blk a sz true :: l2) ->
  wp (coalesce a) s (fun _ s' => exists bs', heap_ok s' bs' /\ live bs' = live (l1 ++ l2) /\
    (exists c, c ∈ bs' /\ fits sz c = true) /\ foot_in bs' (in_blocks (l1 ++ Blk a sz true :: l2)) /\
    fa (kphys s') = fa (kphys s) /\ mem_frame (in_range a 12) (kpm s) (kpm s')).
Proof.
  intros Hk. set (b := Blk a sz true) in Hk.
  assert (Hnop : exists bs', heap_ok s bs' /\ live bs' = live (l1 ++ l2) /\
    (exists c, c ∈ bs' /\ fits sz c = true) /\ foot_in bs' (in_blocks (l1 ++ b :: l2)) /\
    fa (kphys s) = fa (kphys s) /\ mem_frame (in_range a 12) (kpm s) (kpm s)).
  { exists (l1 ++ b :: l2). rewrite !live_app, live_cons_free by done. split; [done|]. split; [done|].
    split; [|split; [|done]].
    - exists b. split; [set_solver|]. unfold fits. cbn. apply Z.leb_refl.
    - intros c x Hc Hx. by exists c. }
  pose proof (hk_blks _ _ Hk) as Hok. rewrite Forall_app, Forall_cons in Hok. destruct Hok as (_ & Hokb & Hok2).
  destruct (heap_seg_sub _ _ _ _ _ (hk_seg _ _ Hk)) as [[Hsz _] Hl2]. cbn [b b_addr b_size] in Hsz, Hl2.
  unfold coalesce, ld, st. change (ALIGN8 HDR) with 16. wp_steps.
  destruct l2 as [|c l2]; cbn [heap_seg] in Hl2.
  { rewrite Hl2, Z.eqb_refl. by wp_steps. }
  destruct Hl2 as (-> & [Hc1 Hc2] & _).
  pose proof (Forall_cons_1 _ _ _ Hok2) as [Hokc _].
  rewrite (proj2 (Z.eqb_neq _ _)) by blia. wp_steps. rewrite Hsz, Hc2.
  assert (Hb : 0 < a /\ 0 < sz /\ a + 16 + sz <= 2 ^ 32) by (subst b; blia).
  assert (Hc : 0 < b_addr c /\ 0 < b_size c /\ b_end c <= 2 ^ 32) by blia.
  rewrite (u32_small (a + 16)) by lia.
  replace (b_addr c =? u32 (a + 16 + sz)) with (b_addr c =? a + 16 + sz).
  2: { destruct (decide (a + 16 + sz = 2 ^ 32)) as [E|]; [|by rewrite u32_small by lia].
       rewrite E. change (u32 (2 ^ 32)) with 0. unfold b_end in Hc.
       rewrite !(proj2 (Z.eqb_neq _ _)) by lia. done. }
  destruct (b_free c) eqn:Hcf; cbn [negb andb Z.b2z Z.eqb]; [|by wp_steps].
  destruct (Z.eqb_spec (b_addr c) (a + 16 + sz)) as [Hadj|]; [|by wp_steps].
  wp_steps. rewrite Hc1. unfold b_end in Hc.
  rewrite (u32_small (16 + b_size c)), (u32_small (sz + (16 + b_size c))) by lia.
  set (m1 := st32 (kpm s) (f_size a) (sz + (16 + b_size c))).
  match goal with |- context [ld32 (kpm (upd_kpm ?f s)) (f_next (b_addr c))] =>
    change (kpm (upd_kpm f s)) with m1 end.
  assert (Hnx : ld32 m1 (f_next (b_addr c)) = ld32 (kpm s) (f_next (b_addr c))).
  { unfold m1, f_size, f_next. by ld_simpl. }
  rewrite Hnx.
  match goal with |- wp (if tail ?t =? _ then _ else _) _ _ => set (s1 := t) end.
  assert (Hs1 : kpm s1 = st32 m1 (f_next a) (ld32 (kpm s) (f_next (b_addr c))) /\
    head s1 = head s /\ tail s1 = tail s /\ used_bytes s1 = used_bytes s /\
    fa (kphys s1) = fa (kphys s)) by done.
  destruct Hs1 as (Hk1 & Hh1 & Ht1 & Hu1 & Hf1). clearbody s1. rewrite Ht1.
  assert (Hfin : forall s', kpm s' = kpm s1 -> head s' = head s1 -> used_bytes s' = used_bytes s1 ->
    fa (kphys s') = fa (kphys s1) -> tail s' = (if tail s =? b_addr c then a else tail s) ->
    exists bs', heap_ok s' bs' /\ live bs' = live (l1 ++ c :: l2) /\
      (exists c0, c0 ∈ bs' /\ fits sz c0 = true) /\ foot_in bs' (in_blocks (l1 ++ b :: c :: l2)) /\
      fa (kphys s') = fa (kphys s) /\ mem_frame (in_range a 12) (kpm s) (kpm s')).
  { intros s' E1 E2 E3 E4 E5. exists (l1 ++ merged b c :: l2). split; [|split; [|split; [|split; [|split; [congruence|]]]]].
    - apply (heap_ok_merge s); try done; [..|congruence|congruence|congruence].
      rewrite E1, Hk1. unfold m1. cbn [b b_addr b_size]. by rewrite Z.add_assoc.
    - by rewrite !live_app, !live_cons_free.
    - exists (merged b c). split; [set_solver|]. unfold fits. cbn. apply Z.leb_le. lia.
    - intros d x Hd Hx. rewrite elem_of_app, elem_of_cons in Hd. destruct Hd as [Hd|[->|Hd]];
        [exists d; split; [set_solver|done]| |exists d; split; [set_solver|done]].
      destruct (decide (b_foot b x)); [exists b; split; [set_solver|done]|].
      exists c. split; [set_solver|]. unfold merged, b in *. blia.
    - rewrite E1, Hk1. unfold m1, f_size, f_next. do 2 (apply mem_frame_st32_in; [|lia..]). done. }
  case_bool; wp_steps; by apply Hfin.
Qed.

(** Outcome of releasing the live block [b]. *)
Definition free_ok s bs b s' : Prop :=
  exists bs', heap_ok s' bs' /\ live bs ≡ₚ b :: live bs' /\
    same_data (live bs') (kpm s) (kpm s') /\ (exists c, c ∈ bs' /\ fits (b_size b) c = true) /\
    fa (kphys s') = fa (kphys s) /\
    mem_frame (in_blocks bs) (kpm s) (kpm s') /\ foot_in bs' (in_blocks bs).

Lemma kfree_spec s bs b :
  heap_ok s bs -> b ∈ live bs -> wp (kfree (b_data b)) s (fun _ s' => free_ok s bs b s').
Proof.
  intros Hk Hb. apply elem_of_live in Hb as [Hin Hb].
  pose proof (used_sum_ge bs b (hk_blks _ _ Hk) Hin) as Hge. unfold blk_used in Hge. rewrite Hb in Hge.
  apply list_elem_of_split in Hin as (l1 & l2 & ->).
  pose proof (hk_blks _ _ Hk) as Hok. rewrite Forall_app, Forall_cons in Hok. destruct Hok as (Hok1 & Hokb & Hok2).
  assert (Hrange : 0 < b_addr b /\ 0 < b_size b /\ b_end b <= 2 ^ 32) by blia.
  pose proof (blks_total _ (hk_blks _ _ Hk) (hk_sep _ _ Hk)) as Htot.
  pose proof (used_sum_total _ (hk_blks _ _ Hk)) as Hus. rewrite <- (hk_used _ _ Hk) in Hus, Hge.
  destruct (heap_seg_sub _ _ _ _ _ (hk_seg _ _ Hk)) as [[Hsz _] _].
  unfold kfree. change (ALIGN8 HDR) with 16.
  rewrite (proj2 (Z.eqb_neq _ _)) by blia.
  rewrite (u32_small (b_data b - 16)) by blia. replace (b_data b - 16) with (b_addr b) by blia.
  unfold st, ld. wp_steps.
  set (m1 := st32 (kpm s) (f_free (b_addr b)) 1).
  match goal with |- context [ld32 (kpm (upd_kpm _ s)) (f_size (b_addr b))] =>
    change (kpm (upd_kpm (fun m => st32 m (f_free (b_addr b)) 1) s)) with m1 end.
  assert (Hsz1 : ld32 m1 (f_size (b_addr b)) = b_size b).
  { unfold m1, f_size, f_free in *. by ld_simpl. }
  rewrite Hsz1.
  match goal with |- context [if b_size b <=? ?u then _ else _] => change u with (used_bytes s) end.
  rewrite (proj2 (Z.leb_le _ _)) by lia.
  match goal with |- context [set_used ?v ?t] => set (s1 := set_used v t) end.
  assert (Hk1 : heap_ok s1 (l1 ++ Blk (b_addr b) (b_size b) true :: l2)).
  { apply (heap_ok_release s s1); try done. cbn. rewrite u32_small by lia. done. }
  assert (Hkpm1 : kpm s1 = m1) by done. assert (Hfa1 : fa (kphys s1) = fa (kphys s)) by done.
  clearbody s1. eapply wp_mono; [apply (coalesce_spec s1 l1 (b_addr b) (b_size b) l2 Hk1)|].
  intros [] s' (bs' & Hk' & Hlive & Hfit & Hft & Hfa' & Hf).
  assert (Hfs : mem_frame (in_range (b_addr b) 12) (kpm s) (kpm s')).
  { eapply mem_frame_trans; [|exact Hf]. rewrite Hkpm1.
    eapply mem_frame_mono; [apply mem_frame_st32|]. unfold f_free, in_range. lia. }
  exists bs'. split; [done|]. split; [|split; [|split; [done|split; [congruence|split]]]].
  - rewrite Hlive, !live_app, live_cons_used by done. by rewrite Permutation_middle.
  - rewrite Hlive. eapply same_data_frame; [exact Hfs|]. intros c x Hc Hx Hx'.
    apply elem_of_live in Hc as [Hc _]. pose proof (blks_sep_elem _ _ _ _ (hk_sep _ _ Hk) Hc). 
    assert (blk_ok c) by (rewrite !Forall_forall in *; set_solver). blia.
  - eapply mem_frame_mono; [exact Hfs|]. intros x Hx. exists b. split; [set_solver|]. blia.
  - intros c x Hc Hx. destruct (Hft c x Hc Hx) as (d & Hd & Hxd).
    rewrite elem_of_app, elem_of_cons in Hd. destruct Hd as [Hd|[->|Hd]]; [|exists b; split; [set_solver|blia]|];
      (exists d; split; [set_solver|done]).
Qed.

(** ** Writes by the owners, and reallocation *)

Lemma heap_ok_write s s' bs b :
  heap_ok s bs -> b ∈ bs -> mem_frame (b_payload b) (kpm s) (kpm s') ->
  head s' = head s -> tail s' = tail s -> used_bytes s' = used_bytes s ->
  fa (kphys s') = fa (kphys s) -> heap_ok s' bs.
Proof.
  intros Hk Hb Hf Hhd Htl Hu Hfa. destruct Hk as [H1 H2 H3 H4 H5 H6 H7].
  split; rewrite ?Hhd, ?Htl, ?Hu, ?Hfa; try done.
  eapply heap_seg_frame; [exact Hf| |done]. intros c x Hc Hx Hx'.
  rewrite Forall_forall in H3. pose proof (H3 b Hb). pose proof (H3 c Hc).
  destruct (blks_sep_two bs b c H4 Hb Hc) as [->|Hd]; blia.
Qed.

(** The block [nb] at [p] has taken over the contents of [b]; [rest] is untouched. *)
Definition realloc_ok s bs b n p s' : Prop :=
  exists bs' nb rest, heap_ok s' bs' /\ live bs ≡ₚ b :: rest /\ live bs' ≡ₚ nb :: rest /\
    p = b_data nb /\ n <= b_size nb /\ b_size b <= b_size nb /\ blk_sep nb b /\
    (forall i, 0 <= i < b_size b -> ldb (kpm s') (p + i) = ldb (kpm s) (b_data b + i)) /\
    zeroed (kpm s') (p + b_size b) (b_size nb - b_size b) /\
    same_data rest (kpm s) (kpm s') /\
    (forall f, fa_owned (fa (kphys s)) f -> fa_owned (fa (kphys s')) f) /\
    mem_frame (heap_area s bs) (kpm s) (kpm s') /\ foot_in bs' (heap_area s bs).

Lemma live_sep bs b rest c :
  blks_sep bs -> live bs ≡ₚ b :: rest -> c ∈ rest -> b = c \/ blk_sep b c.
Proof.
  intros Hs Hl Hc. apply (blks_sep_two bs); [done|..].
  - apply (elem_of_live b bs). rewrite Hl. set_solver.
  - apply (elem_of_live c bs). rewrite Hl. set_solver.
Qed.

Lemma live_NoDup bs : Forall blk_ok bs -> blks_sep bs -> NoDup (live bs).
Proof.
  intros Hok Hs. apply NoDup_filter. induction bs as [|b bs IH]; [constructor|].
  apply Forall_cons in Hok as [Hb Hok]. destruct Hs as [Hs1 Hs2]. constructor; [|by apply IH].
  intros Hin. rewrite Forall_forall in Hs1. specialize (Hs1 b Hin). blia.
Qed.

(** The second half of [krealloc]: copy to the new block, free the old one. *)
Lemma krealloc_move t bs nb b rest :
  heap_ok t bs -> live bs ≡ₚ nb :: b :: rest -> b_size b <= b_size nb ->
  zeroed (kpm t) (b_data nb) (b_size nb) ->
  wp (modify (upd_kpm (memcpy (Z.to_nat (b_size b)) (b_data nb) (b_data b))) ≫= fun _ =>
      kfree (b_data b) ≫= fun _ => mret (b_data nb)) t (fun p t' =>
    p = b_data nb /\ blk_sep nb b /\ exists bs', heap_ok t' bs' /\ live bs' ≡ₚ nb :: rest /\
    (forall i, 0 <= i < b_size b -> ldb (kpm t') (p + i) = ldb (kpm t) (b_data b + i)) /\
    zeroed (kpm t') (p + b_size b) (b_size nb - b_size b) /\
    same_data rest (kpm t) (kpm t') /\ fa (kphys t') = fa (kphys t) /\
    mem_frame (in_blocks bs) (kpm t) (kpm t') /\ foot_in bs' (in_blocks bs)).
Proof.
  intros Hk Hl Hsz Hz.
  pose proof (live_NoDup _ (hk_blks _ _ Hk) (hk_sep _ _ Hk)) as Hnd. rewrite Hl in Hnd.
  assert (Hin : forall c, c ∈ nb :: b :: rest -> c ∈ bs) by (intros c Hc; apply (elem_of_live c bs); by rewrite Hl).
  assert (Hok : forall c, c ∈ nb :: b :: rest -> blk_ok c).
  { intros c Hc. apply (proj1 (Forall_forall _ _) (hk_blks _ _ Hk) c). by apply Hin. }
  assert (Hnew : forall c, c ∈ b :: rest -> blk_sep nb c).
  { intros c Hc. destruct (blks_sep_two bs nb c (hk_sep _ _ Hk)) as [->|]; [apply Hin; set_solver..| |done].
    rewrite NoDup_cons in Hnd. by destruct Hnd. }
  pose proof (Hok nb ltac:(set_solver)) as Hoknb. pose proof (Hok b ltac:(set_solver)) as Hokb.
  pose proof (Hnew b ltac:(set_solver)) as Hsep.
  wp_steps. set (t1 := upd_kpm _ t).
  assert (Hcp : forall x, ldb (kpm t1) x =
    if decide (in_range (b_data nb) (b_size b) x) then ldb (kpm t) (b_data b + (x - b_data nb)) else ldb (kpm t) x).
  { intros x. change (kpm t1) with (memcpy (Z.to_nat (b_size b)) (b_data nb) (b_data b) (kpm t)).
    rewrite memcpy_lookup; rewrite Z2Nat.id by blia; [done|]. blia. }
  assert (Hf1 : mem_frame (in_range (b_data nb) (b_size b)) (kpm t) (kpm t1)).
  { intros x Hx. rewrite Hcp. by case_decide. }
  assert (Hk1 : heap_ok t1 bs).
  { apply (heap_ok_write t t1 bs nb); try done; [apply Hin; set_solver|].
    eapply mem_frame_mono; [exact Hf1|]. blia. }
  assert (Hfa1 : fa (kphys t1) = fa (kphys t)) by done. clearbody t1.
  eapply wp_mono; [apply (kfree_spec t1 bs b Hk1); rewrite Hl; set_solver|].
  intros [] t' (bs' & Hk' & Hl' & Hd & _ & Hfa & Hmf & Hft). wp_steps. split; [done|]. split; [done|]. exists bs'.
  assert (Hlive : live bs' ≡ₚ nb :: rest).
  { apply (Permutation_cons_inv (a := b)). rewrite <- Hl', Hl. apply perm_swap. }
  assert (Hnbl : forall x, b_payload nb x -> ldb (kpm t') x = ldb (kpm t1) x).
  { intros x Hx. apply (Hd nb x); [rewrite Hlive; set_solver|done]. }
  split; [done|]. split; [done|]. split; [|split; [|split; [|split; [congruence|split; [|done]]]]].
  - intros i Hi. rewrite Hnbl by blia. rewrite Hcp, decide_True by blia. f_equal. lia.
  - intros x Hx. rewrite Hnbl by blia. rewrite Hcp, decide_False by blia. apply Hz. blia.
  - intros c x Hc Hx. rewrite (Hd c x); [|rewrite Hlive; set_solver|done].
    pose proof (Hnew c ltac:(set_solver)). rewrite Hcp, decide_False by blia. done.
  - eapply mem_frame_trans; [|exact Hmf]. eapply mem_frame_mono; [exact Hf1|]. intros x Hx.
    exists nb. split; [apply Hin; set_solver|blia].
Qed.

Lemma krealloc_spec s bs b n :
  heap_ok s bs -> b ∈ live bs -> 0 <= n < 2 ^ 32 - 4 * PAGE_SIZE ->
  wp (krealloc (b_data b) n) s (fun p s' =>
    (p = b_data b /\ s' = s /\ n <= b_size b) \/
    (p = 0 /\ s' = s /\ (forall b, b ∈ bs -> b_free b = true -> b_size b < Z.max 8 (ALIGN8 n)) /\ no_frames s (Z.max 8 (ALIGN8 n))) \/
    (p <> 0 /\ realloc_ok s bs b n p s')).
Proof.
  intros Hk Hb Hn. pose proof Hb as [Hin Hbf]%elem_of_live.
  pose proof (proj1 (Forall_forall _ _) (hk_blks _ _ Hk) b Hin) as Hokb.
  pose proof Hin as Hin'. apply list_elem_of_split in Hin' as (l1 & l2 & Hbs).
  destruct (heap_seg_sub (kpm s) (head s) l1 b l2) as [[Hsz _] _]; [rewrite <- Hbs; apply Hk|].
  destruct (ALIGN8_spec n) as [Haln Hal]; [plia|].
  unfold krealloc. change (ALIGN8 HDR) with 16. rewrite (proj2 (Z.eqb_neq _ _)) by blia.
  rewrite (u32_small (b_data b - 16)) by blia. replace (b_data b - 16) with (b_addr b) by blia.
  unfold ld. wp_steps. rewrite Hsz. destruct (Z.leb_spec (ALIGN8 n) (b_size b)) as [Hle|Hgt].
  { wp_steps. left. split; [done|]. split; [done|]. lia. }
  wp_steps. eapply wp_mono; [by apply kmalloc_spec|].
  intros p t [(-> & -> & Hno)|(Hp & (bs1 & nb & Hk1 & -> & Hl1 & Hnb & Hz & Hd & Hown & Hm1 & Hft1) & _)]; cbn beta.
  { rewrite Z.eqb_refl. wp_steps. right. by left. }
  rewrite (proj2 (Z.eqb_neq _ _)) by done.
  destruct (elem_of_Permutation (live bs) b) as [[rest Hrest] _]; [done|].
  assert (Hbsz : b_size b <= b_size nb).
  { pose proof (proj1 (Forall_forall _ _) (hk_blks _ _ Hk1) nb) as Hoknb.
    destruct Hoknb as (_ & _ & _ & Hnal & _); [apply (elem_of_live nb bs1); rewrite Hl1; set_solver|].
    destruct Hokb as (_ & _ & _ & Hbal & _). unfold aligned in *. Z.div_mod_to_equations. lia. }
  eapply wp_mono; [apply (krealloc_move t bs1 nb b rest); try done; by rewrite Hl1, Hrest|].
  intros p t' (-> & Hsep & bs' & Hk' & Hl' & Hcopy & Hz' & Hd' & Hfa & Hm2 & Hft2). right. right. split; [done|].
  assert (Hbd : forall c, c ∈ b :: rest -> c ∈ live bs) by (intros c; by rewrite Hrest).
  exists bs', nb, rest. repeat (split; [done|]). split; [|split; [done|split; [|split; [|split]]]].
  - intros i Hi. rewrite Hcopy by done. apply (Hd b); [done|blia].
  - intros c x Hc Hx. rewrite (Hd' c x) by done. apply (Hd c x); [apply Hbd; set_solver|done].
  - intros f. rewrite Hfa. apply Hown.
  - eapply mem_frame_trans; [exact Hm1|]. eapply mem_frame_mono; [exact Hm2|].
    intros x (c & Hc & Hx). by apply (Hft1 c).
  - intros c x Hc Hx. destruct (Hft2 c x Hc Hx) as (d & Hd2 & Hx2). by apply (Hft1 d).
Qed.
End heap.
