(* ===== verification/Heap.v ===== *)
(** What the kernel heap promises its clients: a finite map from the pointers in
    use to their contents.  [heap_refines] is the simulation between the map
    and the block list of [kmalloc.c]; the theorems after it are the properties
    the rest of the kernel relies on. *)

From stdpp Require Import gmap list fin_maps.
From Stdlib Require Import ZArith Lia.
From S2P Require Import Prelude Memory Frames Pmm Kmalloc.

(** ** The abstract heap *)

Abbreviation aheap := (gmap Z (list Z)).

Inductive hop :=
  | Alloc (n : Z)               (* kmalloc, kzalloc *)
  | Free (p : Z)                (* kfree *)
  | Realloc (p n : Z)           (* krealloc *)
  | Write (p i v : Z).          (* the client stores v at p[i] *)

(** What a client may call: sizes stay four pages below [2^32], since beyond it
    the rounding of [kmalloc.c] wraps around. *)
Definition hop_pre (H : aheap) (o : hop) : Prop :=
  match o with
  | Alloc n => 0 <= n < 2 ^ 32 - 4 * PAGE_SIZE
  | Free p => is_Some (H !! p)
  | Realloc p n => is_Some (H !! p) /\ 0 <= n < 2 ^ 32 - 4 * PAGE_SIZE
  | Write p i v => exists d, H !! p = Some d /\ 0 <= i < Z.of_nat (length d)
  end.

(** [full n] says that a request of [n] bytes cannot be met. *)
Inductive hstep (full : Z -> Prop) (H : aheap) : hop -> Z -> aheap -> Prop :=
  | h_alloc n p k :
      p <> 0 -> H !! p = None -> n <= Z.of_nat k ->
      hstep full H (Alloc n) p (<[p := replicate k 0]> H)
  | h_alloc_fail n : full n -> hstep full H (Alloc n) 0 H
  | h_free p : hstep full H (Free p) 0 (delete p H)
  | h_realloc_stay p n d : H !! p = Some d -> n <= Z.of_nat (length d) -> hstep full H (Realloc p n) p H
  | h_realloc_move p n d q k :
      H !! p = Some d -> q <> 0 -> H !! q = None -> n <= Z.of_nat (length d + k) ->
      hstep full H (Realloc p n) q (<[q := d ++ replicate k 0]> (delete p H))
  | h_realloc_fail p n : full n -> hstep full H (Realloc p n) 0 H
  | h_write p i v d :
      H !! p = Some d -> hstep full H (Write p i v) 0 (<[p := <[Z.to_nat i := u8 v]> d]> H).

Section client.
Context {A : Type} {FA : FrameAlloc A} {FS : FrameAllocSpec A}.
Implicit Types (s : kmem A) (H : aheap) (b c : blk) (bs l : list blk).

Definition do_hop (o : hop) : M (kmem A) Z :=
  match o with
  | Alloc n => kmalloc n
  | Free p => kfree p ≫= fun _ => mret 0
  | Realloc p n => krealloc p n
  | Write p i v => modify (upd_kpm (fun m => stb m (p + i) v)) ≫= fun _ => mret 0
  end.

#[local] Strategy expand [do_hop].

(** ** The relation *)

Definition blk_bytes m b : list Z := bytes_at m (b_data b) (Z.to_nat (b_size b)).

(** [l] is what [H] holds, in memory [m]. *)
Definition view (m : mem) l : aheap := list_to_map ((fun b => (b_data b, blk_bytes m b)) <$> l).

Definition heap_rep s H : Prop := exists bs, heap_ok s bs /\ H = view (kpm s) (live bs).

(** When an allocation may fail: no free block has room for [n] bytes rounded up
    to eight, and no run of free frames holds them with the header of a block. *)
Definition starved s (n : Z) : Prop :=
  (forall bs b, heap_ok s bs -> b ∈ bs -> b_free b = true -> b_size b < n + 8) /\
  (forall k f, aligned PAGE_SIZE f -> n + 24 <= k * PAGE_SIZE -> ~ free_run (fa (kphys s)) k f).

(** The headers in memory determine the blocks. *)
Lemma heap_ok_fun s bs bs' : heap_ok s bs -> heap_ok s bs' -> bs = bs'.
Proof.
  intros [H1 _ Ho1 _ _ _ _] [H2 _ Ho2 _ _ _ _]. revert H1 H2. generalize (head s). revert bs' Ho2.
  induction Ho1 as [|b bs Hb Hbs IH]; intros bs' Ho2 p; destruct Ho2 as [|b' bs' Hb' Hbs']; cbn [heap_seg].
  - done.
  - intros -> [Hp _]. exfalso. blia.
  - intros [Hp _] ->. exfalso. blia.
  - intros (-> & Hh & Hl) (Ha & Hh' & Hl'). destruct b as [a sz f], b' as [a' sz' f']. cbn in Ha. subst a'.
    assert (sz = sz' /\ f = f') as [-> ->] by (destruct Hh as [E1 E2], Hh' as [E1' E2']; cbn in *; split; [congruence|]; rewrite E2 in E2'; destruct f, f'; done).
    f_equal. by eapply IH.
Qed.

(** What [kmalloc_spec] says of a failure, for every list of the blocks. *)
Lemma starved_intro s n : 0 <= n < 2 ^ 32 - 4 * PAGE_SIZE ->
  (forall bs, heap_ok s bs -> forall b, b ∈ bs -> b_free b = true -> b_size b < Z.max 8 (ALIGN8 n)) ->
  no_frames s (Z.max 8 (ALIGN8 n)) -> starved s n.
Proof.
  intros Hn Hno Hnf. destruct (ALIGN8_spec n) as [_ Hal]; [unfold PAGE_SIZE in *; lia|]. split.
  - intros bs b Hk Hb Hf. specialize (Hno bs Hk b Hb Hf). lia.
  - intros k f Hf Hk. apply (Hnf k f Hf). lia.
Qed.

Lemma view_cons m b l : view m (b :: l) = <[b_data b := blk_bytes m b]> (view m l).
Proof. done. Qed.

Lemma view_perm m l1 l2 : NoDup (b_data <$> l1) -> l1 ≡ₚ l2 -> view m l1 = view m l2.
Proof.
  intros Hd Hp. apply list_to_map_proper; [|by rewrite Hp].
  by rewrite <- list_fmap_compose.
Qed.

Lemma view_ext m m' l : same_data l m m' -> view m' l = view m l.
Proof.
  intros Hd. unfold view. f_equal. apply list_fmap_ext. intros i b Hb. f_equal.
  apply bytes_at_ext. intros j Hj. apply (Hd b); [by eapply list_elem_of_lookup_2|].
  destruct (Z_lt_dec (b_size b) 0); [lia|blia].
Qed.

Lemma view_Some m l p d :
  view m l !! p = Some d -> exists b, b ∈ l /\ p = b_data b /\ d = blk_bytes m b.
Proof.
  intros Hp. apply elem_of_list_to_map_2, list_elem_of_fmap in Hp as (b & [= -> ->] & Hb). eauto.
Qed.

Lemma view_None m l p : view m l !! p = None <-> p ∉ b_data <$> l.
Proof. unfold view. rewrite <- not_elem_of_list_to_map, <- list_fmap_compose. done. Qed.

Lemma view_lookup m l b : NoDup (b_data <$> l) -> b ∈ l -> view m l !! b_data b = Some (blk_bytes m b).
Proof.
  intros Hd Hb. apply elem_of_list_to_map_1.
  - by rewrite <- list_fmap_compose.
  - apply list_elem_of_fmap. eauto.
Qed.

Lemma live_blk_ok s bs b : heap_ok s bs -> b ∈ live bs -> blk_ok b.
Proof. intros Hk [Hb _]%elem_of_live. by apply (proj1 (Forall_forall _ _) (hk_blks _ _ Hk)). Qed.

Lemma live_data_NoDup s bs : heap_ok s bs -> NoDup (b_data <$> live bs).
Proof.
  intros Hk. apply NoDup_fmap_2_strong; [|apply live_NoDup; apply Hk].
  intros b c [Hb _]%elem_of_live [Hc _]%elem_of_live Heq.
  pose proof (proj1 (Forall_forall _ _) (hk_blks _ _ Hk)) as Hok.
  pose proof (Hok b Hb). pose proof (Hok c Hc).
  destruct (blks_sep_two bs b c (hk_sep _ _ Hk) Hb Hc) as [->|Hs]; [done|]. blia.
Qed.

Lemma bytes_at_stb m a n i v :
  0 <= i < Z.of_nat n -> bytes_at (stb m (a + i) v) a n = <[Z.to_nat i := u8 v]> (bytes_at m a n).
Proof.
  intros Hi. apply list_eq. intros j. destruct (decide (j < n)%nat) as [Hj|Hj].
  - unfold bytes_at at 1. rewrite list_lookup_fmap, lookup_seqZ_lt by lia. cbn. rewrite ldb_stb.
    destruct (decide (j = Z.to_nat i)) as [->|].
    + rewrite list_lookup_insert_eq by (rewrite length_bytes_at; lia). by rewrite decide_True by lia.
    + rewrite list_lookup_insert_ne, decide_False by lia.
      unfold bytes_at. by rewrite list_lookup_fmap, lookup_seqZ_lt by lia.
  - rewrite !lookup_ge_None_2; [done|..]; rewrite ?length_insert, length_bytes_at; lia.
Qed.

Lemma bytes_at_zero m a n : zeroed m a (Z.of_nat n) -> bytes_at m a n = replicate n 0.
Proof.
  intros Hz. apply list_eq_same_length with n; [by rewrite length_replicate|apply length_bytes_at|].
  intros i x y Hi. unfold bytes_at. rewrite list_lookup_fmap, lookup_replicate_2 by lia.
  rewrite lookup_seqZ_lt by lia. intros [= <-] [= <-]. apply Hz. unfold in_range. lia.
Qed.

Lemma blk_bytes_zero m b :
  0 < b_size b -> zeroed m (b_data b) (b_size b) -> blk_bytes m b = replicate (Z.to_nat (b_size b)) 0.
Proof. intros Hb Hz. apply bytes_at_zero. by rewrite Z2Nat.id by lia. Qed.

(** The contents [krealloc] leaves in the new block. *)
Lemma blk_bytes_extend m m' b nb :
  0 < b_size b <= b_size nb ->
  (forall i, 0 <= i < b_size b -> ldb m' (b_data nb + i) = ldb m (b_data b + i)) ->
  zeroed m' (b_data nb + b_size b) (b_size nb - b_size b) ->
  blk_bytes m' nb = blk_bytes m b ++ replicate (Z.to_nat (b_size nb - b_size b)) 0.
Proof.
  intros Hsz Hcp Hz. unfold blk_bytes.
  replace (Z.to_nat (b_size nb)) with (Z.to_nat (b_size b) + Z.to_nat (b_size nb - b_size b))%nat by lia.
  rewrite bytes_at_app. f_equal.
  - apply bytes_at_ext. intros i Hi. apply Hcp. lia.
  - apply bytes_at_zero. by rewrite !Z2Nat.id by lia.
Qed.

(** ** Simulation *)

Lemma sim_alloc s H n p s' :
  heap_rep s H -> 0 <= n < 2 ^ 32 - 4 * PAGE_SIZE -> kmalloc n s = (p, s') ->
  exists H', hstep (starved s) H (Alloc n) p H' /\ heap_rep s' H'.
Proof.
  intros (bs & Hk & ->) Hn Heq. pose proof (wp_eq _ _ _ _ _ Heq (kmalloc_spec s bs n Hk Hn)) as Hs.
  destruct Hs as [(-> & -> & _ & Hnf)|(Hp & (bs' & b & Hk' & -> & Hl & Hb & Hz & Hd & _) & _)].
  { eexists. split; [apply h_alloc_fail, starved_intro; [done| |done]|by exists bs]. intros bs2 Hk2.
    by destruct (wp_eq _ _ _ _ _ Heq (kmalloc_spec s bs2 n Hk2 Hn)) as [(_ & _ & Hno & _)|[? _]]. }
  pose proof (live_data_NoDup _ _ Hk') as Hnd.
  assert (Hokb : blk_ok b) by (apply (live_blk_ok s' bs'); [done|]; rewrite Hl; set_solver).
  exists (view (kpm s') (live bs')). split; [|by exists bs'].
  rewrite (view_perm _ _ _ Hnd Hl). rewrite Hl in Hnd. cbn in Hnd. apply NoDup_cons in Hnd as [Hni _].
  rewrite view_cons, blk_bytes_zero, (view_ext _ _ _ Hd) by (done || blia).
  apply h_alloc; [done|by apply view_None|lia].
Qed.

Lemma sim_free s H p s' r :
  heap_rep s H -> is_Some (H !! p) -> kfree p s = (r, s') -> heap_rep s' (delete p H).
Proof.
  intros (bs & Hk & ->) [d Hp] Heq. apply view_Some in Hp as (b & Hb & -> & _).
  pose proof (wp_eq _ _ _ _ _ Heq (kfree_spec s bs b Hk Hb)) as (bs' & Hk' & Hl & Hd & _).
  exists bs'. split; [done|]. pose proof (live_data_NoDup _ _ Hk) as Hnd.
  rewrite (view_perm _ _ _ Hnd Hl), (view_ext _ _ _ Hd), view_cons. rewrite Hl in Hnd. cbn in Hnd.
  apply NoDup_cons in Hnd as [Hni _]. apply delete_insert_id. by apply view_None.
Qed.

Lemma sim_realloc s H p n q s' :
  heap_rep s H -> is_Some (H !! p) -> 0 <= n < 2 ^ 32 - 4 * PAGE_SIZE -> krealloc p n s = (q, s') ->
  exists H', hstep (starved s) H (Realloc p n) q H' /\ heap_rep s' H'.
Proof.
  intros (bs & Hk & ->) [d Hp] Hn Heq. pose proof Hp as Hp'. apply view_Some in Hp as (b & Hb & -> & ->).
  pose proof (live_blk_ok _ _ _ Hk Hb) as Hokb.
  pose proof (live_data_NoDup _ _ Hk) as Hnd.
  pose proof (wp_eq _ _ _ _ _ Heq (krealloc_spec s bs b n Hk Hb Hn)) as Hs.
  destruct Hs as [(-> & -> & Hle)|[(-> & -> & Hno & Hnf)|(Hq & bs' & nb & rest & Hk' & Hl & Hl' & -> & Hn' & Hsz & Hsep & Hcp & Hz & Hd & _)]].
  - eexists. split; [|by exists bs]. apply (h_realloc_stay _ _ _ _ (blk_bytes (kpm s) b)); [done|].
    unfold blk_bytes. rewrite length_bytes_at. lia.
  - eexists. split; [apply h_realloc_fail, starved_intro; [done| |done]|by exists bs]. intros bs2 Hk2. by rewrite (heap_ok_fun s bs2 bs).
  - pose proof (live_data_NoDup _ _ Hk') as Hnd'.
    exists (view (kpm s') (live bs')). split; [|by exists bs'].
    rewrite (view_perm _ _ _ Hnd' Hl'), view_cons, (view_ext _ _ _ Hd).
    rewrite Hl' in Hnd'. cbn in Hnd'. apply NoDup_cons in Hnd' as [Hni' _].
    assert (Hrest : view (kpm s) rest = delete (b_data b) (view (kpm s) (live bs))).
    { rewrite (view_perm _ _ _ Hnd Hl), view_cons, delete_insert_id; [done|].
      rewrite Hl in Hnd. cbn in Hnd. apply NoDup_cons in Hnd as [Hni _]. by apply view_None. }
    rewrite Hrest, (blk_bytes_extend _ (kpm s') b nb) by (done || blia).
    apply h_realloc_move; [done..| |].
    + apply view_None. rewrite Hl. cbn. rewrite not_elem_of_cons. split; [|done]. 
      assert (blk_ok nb) by (apply (live_blk_ok s' bs'); [done|]; rewrite Hl'; set_solver). blia.
    + unfold blk_bytes. rewrite length_bytes_at. destruct Hokb. lia.
Qed.

Lemma sim_write s H p i v d :
  heap_rep s H -> H !! p = Some d -> 0 <= i < Z.of_nat (length d) ->
  heap_rep (upd_kpm (fun m => stb m (p + i) v) s) (<[p := <[Z.to_nat i := u8 v]> d]> H).
Proof.
  intros (bs & Hk & ->) Hp Hi. apply view_Some in Hp as (b & Hb & -> & ->).
  unfold blk_bytes in Hi. rewrite length_bytes_at in Hi.
  pose proof (live_blk_ok _ _ _ Hk Hb) as Hokb. pose proof (live_data_NoDup _ _ Hk) as Hnd.
  set (s' := upd_kpm _ s). exists bs.
  assert (Hkpm : kpm s' = stb (kpm s) (b_data b + i) v) by done.
  split.
  - apply (heap_ok_write s s' bs b); try done; [by apply elem_of_live in Hb as [? _]|].
    rewrite Hkpm. eapply mem_frame_mono; [apply mem_frame_stb|]. intros x <-. blia.
  - destruct (elem_of_Permutation (live bs) b) as [[rest Hrest] _]; [done|].
    rewrite !(view_perm _ _ _ Hnd Hrest), !view_cons, insert_insert_eq.
    rewrite (view_ext (kpm s) (kpm s')).
    + f_equal. rewrite Hkpm. symmetry. apply (bytes_at_stb (kpm s) (b_data b)). lia.
    + intros c x Hc Hx. rewrite Hkpm. apply ldb_stb_ne.
      pose proof (live_NoDup _ (hk_blks _ _ Hk) (hk_sep _ _ Hk)) as Hnd'. rewrite Hrest in Hnd'.
      apply NoDup_cons in Hnd' as [Hni _].
      destruct (live_sep bs b rest c (hk_sep _ _ Hk) Hrest Hc) as [->|Hs]; [done|]. blia.
Qed.

Lemma heap_refines s H o r s' :
  heap_rep s H -> hop_pre H o -> do_hop o s = (r, s') -> exists H', hstep (starved s) H o r H' /\ heap_rep s' H'.
Proof.
  intros Hr Hpre Heq. destruct o as [n|p|p n|p i v]; cbn [hop_pre] in Hpre; unfold do_hop in Heq.
  - by eapply sim_alloc.
  - unfold mbind, M_bind in Heq. destruct (kfree p s) as [[] s1] eqn:E.
    injection Heq as <- <-. eexists. split; [apply h_free|]. by eapply sim_free.
  - destruct Hpre. by eapply sim_realloc.
  - unfold mbind, M_bind, modify in Heq. injection Heq as <- <-. destruct Hpre as (d & Hd & Hi).
    eexists. split; [by apply h_write|]. by apply sim_write.
Qed.

(** The state at boot: no block yet. *)
Lemma heap_rep_boot (a : A) m : fa_ok a -> heap_rep (mk_kmem 0 0 0 (Phys a m)) ∅.
Proof.
  intros Ha. exists []. split; [|done]. split; cbn; try done. intros b x Hb. by apply elem_of_nil in Hb.
Qed.

(** Bytes in use, as [kmalloc_used] counts them. *)
Definition heap_bytes H : Z := map_fold (fun _ d n => Z.of_nat (length d) + n) 0 H.

Lemma heap_bytes_view m l :
  NoDup (b_data <$> l) -> Forall blk_ok l -> heap_bytes (view m l) = foldr Z.add 0 (b_size <$> l).
Proof.
  unfold heap_bytes. induction l as [|b l IH]; intros Hnd Hok; [apply map_fold_empty|].
  cbn in Hnd. apply NoDup_cons in Hnd as [Hni Hnd]. apply Forall_cons in Hok as [Hb Hok].
  rewrite view_cons, map_fold_insert_L; [|intros; lia|by apply view_None].
  rewrite (IH Hnd Hok). unfold blk_bytes. rewrite length_bytes_at. cbn. destruct Hb as (_ & _ & Hb & _). lia.
Qed.

Lemma used_sum_live bs : used_sum bs = foldr Z.add 0 (b_size <$> live bs).
Proof.
  induction bs as [|b bs IH]; [done|]. rewrite used_sum_cons, IH. unfold blk_used.
  destruct (b_free b) eqn:Hb; [rewrite live_cons_free by done; lia|].
  by rewrite live_cons_used.
Qed.

Lemma heap_rep_lookup s H p d :
  heap_rep s H -> H !! p = Some d ->
  exists bs b, heap_ok s bs /\ H = view (kpm s) (live bs) /\ b ∈ live bs /\ p = b_data b /\
    d = blk_bytes (kpm s) b /\ Z.of_nat (length d) = b_size b.
Proof.
  intros (bs & Hk & ->) Hp. apply view_Some in Hp as (b & Hb & -> & ->).
  exists bs, b. repeat (split; [done|]). unfold blk_bytes. rewrite length_bytes_at.
  destruct (live_blk_ok _ _ _ Hk Hb) as (_ & _ & Hsz & _). lia.
Qed.

(** ** Theorems *)

(** C5. The heap of [kmalloc.c] refines the abstract heap: every [kmalloc] and
    [krealloc] of up to [2^32] less four pages, every [kfree] of a pointer in use
    and every in-bounds store of a client is a step of the map.  [kmalloc]
    returns a fresh zeroed area of at least the size asked for, [kfree] removes
    exactly its pointer, [krealloc] keeps the contents and zeroes the extension,
    and no call changes the contents of any other area.  A call fails, and then
    without effect, only when no free block of the heap has room for the request
    and the page allocator has no run of free frames that would hold it.
    Larger requests wrap around in [kmalloc.c], see [kmalloc_size_wraps]. *)
Theorem kheap_refines s H o r s' :
  heap_rep s H -> hop_pre H o -> do_hop o s = (r, s') ->
  exists H', hstep (starved s) H o r H' /\ heap_rep s' H'.
Proof. apply heap_refines. Qed.

(** Pointers in use are 8-byte aligned and not NULL, their areas lie in
    frames the page allocator has handed out, do not wrap, keep clear of each
    other and of each other's 16-byte headers, and [kmalloc_used] is the sum of
    their sizes. *)
Theorem kheap_areas_disjoint s H :
  heap_rep s H ->
  (kmalloc_used s).1 = heap_bytes H /\
  (forall p d, H !! p = Some d -> 16 < p /\ aligned 8 p /\ p + Z.of_nat (length d) <= 2 ^ 32 /\
     (forall x, p - 16 <= x < p + Z.of_nat (length d) -> fa_owned (fa (kphys s)) (page_down x)) /\
     (forall q e, H !! q = Some e -> p <> q ->
        p + Z.of_nat (length d) <= q - 16 \/ q + Z.of_nat (length e) <= p - 16)).
Proof.
  intros Hr. split.
  { destruct Hr as (bs & Hk & ->). cbn. rewrite (hk_used _ _ Hk), used_sum_live, heap_bytes_view; [done|..].
    - by apply (live_data_NoDup s).
    - rewrite Forall_forall. intros b. by apply (live_blk_ok s). }
  intros p d Hp. destruct (heap_rep_lookup s H p d Hr Hp) as (bs & b & Hk & -> & Hb & -> & -> & ->).
  pose proof (live_blk_ok _ _ _ Hk Hb) as (Ha & Hal & Hsz & Hals & Hend).
  split; [blia|]. split; [by apply (aligned_add 8 _ 16)|]. split; [blia|]. split.
  - intros x Hx. apply (hk_owned _ _ Hk b); [by apply elem_of_live in Hb as [? _]|blia].
  - intros q e Hq Hne. apply view_Some in Hq as (c & Hc & -> & ->).
    pose proof (live_blk_ok _ _ _ Hk Hc) as (_ & _ & Hszc & _). unfold blk_bytes.
    rewrite length_bytes_at, Z2Nat.id by lia. apply elem_of_live in Hb as [Hb _], Hc as [Hc _].
    destruct (blks_sep_two _ b c (hk_sep _ _ Hk) Hb Hc) as [->|Hs]; [done|blia].
Qed.

(** Freed memory is reusable: after [kfree(p)], a [kmalloc] of any size that
    fitted in the freed area succeeds, without taking frames from the page
    allocator. *)
Theorem kfree_then_kmalloc_succeeds s H p d n :
  heap_rep s H -> H !! p = Some d -> 0 <= n -> ALIGN8 n <= Z.of_nat (length d) -> n < 2 ^ 32 - 4 * PAGE_SIZE ->
  let s1 := (kfree p s).2 in
  (kmalloc n s1).1 <> 0 /\ fa (kphys (kmalloc n s1).2) = fa (kphys s).
Proof.
  intros Hr Hp Hn Hfit Hn2. destruct (heap_rep_lookup s H p d Hr Hp) as (bs & b & Hk & _ & Hb & -> & _ & Hlen).
  rewrite Hlen in Hfit. destruct (kfree_spec s bs b Hk Hb) as (bs' & Hk' & _ & _ & (c & Hc & Hfc) & Hfa & _).
  set (s1 := (kfree (b_data b) s).2) in *. cbv zeta.
  destruct (live_blk_ok _ _ _ Hk Hb) as (_ & _ & Hsz & Hal & _).
  assert (Hfit' : fits (Z.max 8 (ALIGN8 n)) c = true).
  { unfold fits, aligned in *. apply andb_true_iff in Hfc as [-> Hle%Z.leb_le]. cbn. apply Z.leb_le.
    Z.div_mod_to_equations. lia. }
  destruct (kmalloc_spec s1 bs' n Hk' (conj Hn Hn2)) as [(_ & _ & Hno & _)|(Hne & _ & Hsame)].
  - exfalso. apply andb_true_iff in Hfit' as [Hcf Hle%Z.leb_le]. specialize (Hno c Hc Hcf). lia.
  - split; [done|]. rewrite Hsame; [done|eauto].
Qed.
End client.

(** ** Examples over the page allocator *)

Definition demo_heap : kmem pmm := mk_kmem 0 0 0 demo_phys.

Lemma demo_heap_rep : heap_rep demo_heap ∅.
Proof. apply heap_rep_boot, demo_pmm_ok. Qed.

Lemma do_hop_eq (o : hop) (s : kmem pmm) r : (do_hop o s).1 = r -> do_hop o s = (r, (do_hop o s).2).
Proof. intros <-. apply surjective_pairing. Qed.

(** after [kmalloc(24)] *)
Definition demo_heap1 : kmem pmm := (kmalloc 24 demo_heap).2.

Lemma demo_heap1_rep :
  exists k, heap_rep demo_heap1 {[0x40000010 := replicate k 0]} /\ 24 <= Z.of_nat k.
Proof.
  destruct (heap_refines demo_heap ∅ (Alloc 24) 0x40000010 demo_heap1 demo_heap_rep) as (H & Hs & Hr).
  - unfold hop_pre, PAGE_SIZE. lia.
  - by apply do_hop_eq; vm_compute.
  - inversion Hs; subst. by exists k.
Qed.

Lemma kheap_refines_witness :
  exists H', hstep (starved demo_heap) ∅ (Alloc 24) 0x40000010 H' /\ heap_rep demo_heap1 H'.
Proof.
  apply (kheap_refines demo_heap ∅ (Alloc 24) 0x40000010 demo_heap1 demo_heap_rep).
  - unfold hop_pre, PAGE_SIZE. lia.
  - by apply do_hop_eq; vm_compute.
Defined.

(** Beyond the limit: a request of [2^32 - 4] bytes wraps to none, and the heap
    grants it as a block without room. *)
Theorem kmalloc_size_wraps :
  let '(p, s') := kmalloc 0xFFFFFFFC demo_heap1 in (p =? 0, ld32 (kpm s') (f_size (p - 16))) = (false, 0).
Proof. vm_compute. reflexivity. Qed.

Lemma kheap_areas_disjoint_witness :
  exists H, H !! 0x40000010 <> None /\ (kmalloc_used demo_heap1).1 = heap_bytes H.
Proof.
  destruct demo_heap1_rep as (k & Hr & _). exists {[0x40000010 := replicate k 0]}.
  split; [by rewrite lookup_singleton_eq|]. by destruct (kheap_areas_disjoint _ _ Hr).
Defined.

Lemma kfree_then_kmalloc_succeeds_witness :
  (kmalloc 20 (kfree 0x40000010 demo_heap1).2).1 <> 0.
Proof.
  destruct demo_heap1_rep as (k & Hr & Hk).
  destruct (kfree_then_kmalloc_succeeds demo_heap1 _ 0x40000010 (replicate k 0) 20 Hr) as [H _].
  - apply lookup_singleton_eq.
  - lia.
  - rewrite length_replicate. change (ALIGN8 20) with 24. exact Hk.
  - unfold PAGE_SIZE. lia.
  - exact H.
Defined.
