(* ===== verification/Vm.v ===== *)
(** Address spaces: [kernel/arch/arm/mmu.c] (the kernel's identity map) and
    [kernel/arch/arm/vm.c] (one L1 table per process, 4 KB user pages).

    The page-table walker of the MMU does not look into the data cache: it reads
    [wm], the memory behind it, which changes only when the kernel cleans a
    line.  TLB maintenance and the writes to the translation registers are
    recorded in [hwlog], in program order. *)

From stdpp Require Import gmap list fin_maps.
From Stdlib Require Import ZArith Lia.
From S2P Require Import Prelude Memory Frames.

(** * Model *)

Inductive hwop :=
  | TlbiMva (va : Z) | TlbiAll | SetTtbr0 (v : Z) | SetTtbcr (v : Z) | SetDacr (v : Z)
  | EnableSctlr | EnableCaches | SyncIcache.

Inductive mem_type := MEM_NORMAL | MEM_DEVICE.

Definition L1_ENTRIES : Z := 4096.
Definition L1_SIZE : Z := 16384.
Definition L1_ALIGN : Z := 16384.
Definition L2_ENTRIES : Z := 256.
Definition L2_SIZE : Z := 1024.
Definition L2_ALIGN : Z := 1024.

Definition L1_TYPE_MASK : Z := 0x3.
Definition L1_TYPE_COARSE : Z := 0x1.
Definition L1_COARSE (l2 : Z) : Z := (l2 .& 0xFFFFFC00) .| 0x01.
Definition L1_COARSE_L2BASE (d : Z) : Z := d .& 0xFFFFFC00.
Definition L2_SMALL_USER : Z := 0x7E.
Definition L2_SMALL_BASE (d : Z) : Z := d .& 0xFFFFF000.
Definition L2_IS_VALID (d : Z) : bool := negb (d .& 0x3 =? 0).

Definition USER_VA_MIN : Z := 0x00001000.
Definition USER_VA_MAX : Z := 0x40000000.

Definition SECT_NORMAL_ATTR : Z := 0x1C0E.
Definition SECT_DEVICE_ATTR : Z := 0x0C16.
Definition SECT_MASK : Z := 0xFFF00000.
Definition DRAM_BASE : Z := 0x40000000.
Definition DRAM_END : Z := 0x48000000.

Definition sect_attr (t : mem_type) : Z :=
  match t with MEM_NORMAL => SECT_NORMAL_ATTR | MEM_DEVICE => SECT_DEVICE_ATTR end.

Definition l1_index (va : Z) : Z := va .>> 20.
Definition l2_index (va : Z) : Z := (va .>> 12) .& 0xFF.

(** One cache line reaches memory.  The code cleans in steps of 32 bytes, the
    smallest line it allows for. *)
Fixpoint copy_bytes (n : nat) (a : Z) (src dst : mem) : mem :=
  match n with
  | O => dst
  | S n' => copy_bytes n' (a + 1) src (stb dst a (ldb src a))
  end.

Definition line_of (a : Z) : Z := a .& .~ 31.

Section model.
Context {A : Type} {FA : FrameAlloc A}.

(** [l1_pa] is the static of [mmu.c]: the base of the kernel's own table. *)
Record vms := Vms { vphys : phys A; wm : mem; hwlog : list hwop; l1_pa : Z }.

Definition set_vphys (p : phys A) (s : vms) : vms := Vms p (wm s) (hwlog s) (l1_pa s).
Definition set_wm (m : mem) (s : vms) : vms := Vms (vphys s) m (hwlog s) (l1_pa s).
Definition set_l1_pa (v : Z) (s : vms) : vms := Vms (vphys s) (wm s) (hwlog s) v.
Definition vm_pm (s : vms) : mem := pm (vphys s).

Definition in_phys {R} : M (phys A) R -> M vms R := zoom vphys set_vphys.
Definition hw (o : hwop) : M vms unit := modify (fun s => Vms (vphys s) (wm s) (hwlog s ++ [o]) (l1_pa s)).

(** [p[i]] and [p[i] = v] for a table of words at [p]. *)
Definition get (p i : Z) : M vms Z := gets (fun s => ld32 (vm_pm s) (p + 4 * i)).
Definition put (p i v : Z) : M vms unit := in_phys (store32 (p + 4 * i) v).

Definition mmu_clean_dcache_line (a : Z) : M vms unit :=
  modify (fun s => set_wm (copy_bytes 32 (line_of a) (vm_pm s) (wm s)) s).
Definition mmu_clean_dcache_all : M vms unit := modify (fun s => set_wm (vm_pm s) s).

(** ** [mmu.c] *)

Definition mmu_map_section (va pa : Z) (type : mem_type) : M vms unit :=
  l1 ← gets l1_pa;
  let idx := va .>> 20 in
  put l1 idx ((pa .& SECT_MASK) .| sect_attr type) ≫= fun _ =>
  mmu_clean_dcache_line (l1 + 4 * idx) ≫= fun _ =>
  hw (TlbiMva (va .& SECT_MASK)).

Definition region_type (pa : Z) : mem_type :=
  if (DRAM_BASE <=? pa) && (pa <? DRAM_END) then MEM_NORMAL else MEM_DEVICE.

Definition mmu_init : M vms unit :=
  pa ← in_phys (fa_alloc_aligned (L1_SIZE / PAGE_SIZE) L1_ALIGN);
  modify (set_l1_pa pa) ≫= fun _ =>
  if pa =? 0 then mret tt
  else
    forM (Z.to_nat L1_ENTRIES) 0 1 (fun i =>
      let sec := i .<< 20 in
      put pa i ((sec .& SECT_MASK) .| sect_attr (region_type sec))) ≫= fun _ =>
    hw TlbiAll ≫= fun _ =>
    hw (SetDacr 0x55555555) ≫= fun _ =>
    hw (SetTtbcr 0) ≫= fun _ =>
    hw (SetTtbr0 pa) ≫= fun _ =>
    hw EnableSctlr ≫= fun _ =>
    mmu_clean_dcache_all ≫= fun _ =>
    hw EnableCaches.

Definition mmu_l1_base : M vms Z := gets l1_pa.

(** ** [vm.c] *)

Definition clean_table (base bytes : Z) : M vms unit :=
  forM (Z.to_nat (bytes / 32)) 0 32 (fun off => mmu_clean_dcache_line (base +w off)).

Definition vm_create : M vms Z :=
  l1 ← in_phys (fa_alloc_aligned (L1_SIZE / PAGE_SIZE) L1_ALIGN);
  if l1 =? 0 then mret 0
  else
    ker ← mmu_l1_base;
    forM (Z.to_nat L1_ENTRIES) 0 1 (fun i => d ← get ker i; put l1 i d) ≫= fun _ =>
    clean_table l1 L1_SIZE ≫= fun _ =>
    mret l1.

Definition l2_for (l1 va : Z) (create : bool) : M vms Z :=
  let i := l1_index va in
  d ← get l1 i;
  if d .& L1_TYPE_MASK =? L1_TYPE_COARSE then mret (L1_COARSE_L2BASE d)
  else if negb create then mret 0
  else
    l2 ← in_phys (fa_alloc_aligned 1 L2_ALIGN);
    if l2 =? 0 then mret 0
    else
      forM (Z.to_nat L2_ENTRIES) 0 1 (fun k => put l2 k 0) ≫= fun _ =>
      clean_table l2 L2_SIZE ≫= fun _ =>
      put l1 i (L1_COARSE l2) ≫= fun _ =>
      mmu_clean_dcache_line (l1 + 4 * i) ≫= fun _ =>
      hw (TlbiMva (va .& 0xFFF00000)) ≫= fun _ =>
      mret l2.

Definition vm_map_page (l1 va pa : Z) : M vms Z :=
  if (va <? USER_VA_MIN) || (USER_VA_MAX <=? va) then mret (-1)
  else
    l2 ← l2_for l1 va true;
    if l2 =? 0 then mret (-2)
    else
      put l2 (l2_index va) (L2_SMALL_BASE pa .| L2_SMALL_USER) ≫= fun _ =>
      mmu_clean_dcache_line (l2 + 4 * l2_index va) ≫= fun _ =>
      mret 0.

Definition vm_walk (l1 va : Z) : M vms Z :=
  l2 ← l2_for l1 va false;
  if l2 =? 0 then mret 0
  else
    d ← get l2 (l2_index va);
    if negb (L2_IS_VALID d) then mret 0
    else mret (L2_SMALL_BASE d .| (va .& 0xFFF)).

Definition vm_unmap_page (l1 va : Z) : M vms Z :=
  l2 ← l2_for l1 va false;
  if l2 =? 0 then mret (-1)
  else
    d ← get l2 (l2_index va);
    if negb (L2_IS_VALID d) then mret (-1)
    else
      put l2 (l2_index va) 0 ≫= fun _ =>
      mmu_clean_dcache_line (l2 + 4 * l2_index va) ≫= fun _ =>
      hw (TlbiMva (va .& .~ 0xFFF)) ≫= fun _ =>
      mret 0.

(** the 1 MB steps of the user range *)
Definition user_sections : nat := Z.to_nat (USER_VA_MAX / 0x100000).

(** the pages of one L2 table, then the table, in [vm_destroy] *)
Definition destroy_l2 (l2 : Z) : M vms unit :=
  forM (Z.to_nat L2_ENTRIES) 0 1 (fun k =>
    d ← get l2 k;
    if L2_IS_VALID d then in_phys (fa_free_page (L2_SMALL_BASE d)) else mret tt) ≫= fun _ =>
  in_phys (fa_free_page l2).

Definition vm_destroy (l1 : Z) : M vms unit :=
  forM user_sections (USER_VA_MIN .& .~ 0xFFFFF) 0x100000 (fun va =>
    let i := l1_index va in
    d ← get l1 i;
    if negb (d .& L1_TYPE_MASK =? L1_TYPE_COARSE) then mret tt
    else destroy_l2 (L1_COARSE_L2BASE d) ≫= fun _ => put l1 i 0) ≫= fun _ =>
  forM (Z.to_nat (L1_SIZE / PAGE_SIZE)) 0 1 (fun f =>
    in_phys (fa_free_page (l1 +w f *w PAGE_SIZE))).

(** the word loop of [vm_copy] *)
Definition copy_page (np src_pa : Z) : M vms unit :=
  forM (Z.to_nat (PAGE_SIZE / 4)) 0 1 (fun w => v ← get src_pa w; put np w v).

Definition vm_copy (dst_l1 src_l1 : Z) : M vms Z :=
  r ← forR user_sections (USER_VA_MIN .& .~ 0xFFFFF) 0x100000 (fun va =>
    d ← get src_l1 (l1_index va);
    if negb (d .& L1_TYPE_MASK =? L1_TYPE_COARSE) then mret None
    else
      let st := L1_COARSE_L2BASE d in
      forR (Z.to_nat L2_ENTRIES) 0 1 (fun k =>
        e ← get st k;
        if negb (L2_IS_VALID e) then mret None
        else
          let src_pa := L2_SMALL_BASE e in
          let page_va := (va .& 0xFFF00000) .| (k .<< 12) in
          np ← in_phys fa_alloc_page;
          if np =? 0 then mret (Some (-1))
          else
            copy_page np src_pa ≫= fun _ =>
            rc ← vm_map_page dst_l1 page_va np;
            if negb (rc =? 0) then mret (Some (-2)) else mret None));
  mret (default 0 r).

Definition vm_switch (l1 : Z) : M vms unit :=
  hw (SetTtbr0 l1) ≫= fun _ => hw TlbiAll.
End model.

Arguments vms A : clear implicits.

(** * Descriptors as arithmetic *)

Lemma lor_add x c k : 0 <= k -> aligned (2 ^ k) x -> 0 <= c < 2 ^ k -> x .| c = x + c.
Proof.
  intros Hk Hx Hc. rewrite <- Z.add_lor_land. enough (Z.land x c = 0) by lia.
  rewrite <- (Z.mod_small c (2 ^ k)), <- Z.land_ones, (Z.land_comm c), Z.land_assoc by lia.
  unfold aligned in Hx. rewrite Z.land_ones, Hx by lia. apply Z.land_0_l.
Qed.

Lemma land_1k x : 0 <= x < 2 ^ 32 -> x .& 0xFFFFFC00 = x - x mod 1024.
Proof. apply (land_lnot_ones x 10). lia. Qed.

Lemma land_4k x : 0 <= x < 2 ^ 32 -> x .& 0xFFFFF000 = x - x mod 4096.
Proof. apply (land_lnot_ones x 12). lia. Qed.

Lemma land_1m x : 0 <= x < 2 ^ 32 -> x .& 0xFFF00000 = x - x mod 2 ^ 20.
Proof. apply (land_lnot_ones x 20). lia. Qed.

Lemma land_type x : x .& 0x3 = x mod 4.
Proof. apply (land_ones_mod x 2). lia. Qed.

(** Page number of an address; the two table indices split it. *)
Definition vpn (va : Z) : Z := va / 4096.

Lemma l1_index_eq va : l1_index va = vpn va / 256.
Proof. unfold l1_index, vpn. rewrite Z.shiftr_div_pow2, Z.div_div by lia. done. Qed.

Lemma l2_index_eq va : l2_index va = vpn va mod 256.
Proof.
  unfold l2_index, vpn. rewrite Z.shiftr_div_pow2 by lia. apply (land_ones_mod _ 8). lia.
Qed.

Lemma coarse_desc l2 :
  0 <= l2 < 2 ^ 32 -> aligned 1024 l2 ->
  L1_COARSE l2 = l2 + 1 /\ L1_COARSE_L2BASE (l2 + 1) = l2 /\ (l2 + 1) .& L1_TYPE_MASK = L1_TYPE_COARSE.
Proof.
  intros Hr Ha. unfold L1_COARSE, L1_COARSE_L2BASE, L1_TYPE_MASK, L1_TYPE_COARSE, aligned in *.
  rewrite land_type, !land_1k by (Z.div_mod_to_equations; lia). rewrite Ha, Z.sub_0_r.
  rewrite (lor_add _ _ 10) by (done || lia). repeat split; Z.div_mod_to_equations; lia.
Qed.

Lemma small_desc pa :
  0 <= pa < 2 ^ 32 -> aligned PAGE_SIZE pa ->
  L2_SMALL_BASE pa .| L2_SMALL_USER = pa + 0x7E /\ L2_SMALL_BASE (pa + 0x7E) = pa /\
  L2_IS_VALID (pa + 0x7E) = true.
Proof.
  intros Hr Ha. unfold L2_SMALL_BASE, L2_SMALL_USER, L2_IS_VALID, aligned, PAGE_SIZE in *.
  rewrite land_type, !land_4k by (Z.div_mod_to_equations; lia). rewrite Ha, Z.sub_0_r.
  rewrite (lor_add _ _ 12) by (done || lia). split; [done|].
  split; [Z.div_mod_to_equations; lia|].
  rewrite (proj2 (Z.eqb_neq _ _)); [done|]. Z.div_mod_to_equations. lia.
Qed.

(** * The cache *)

Lemma copy_bytes_lookup n a src dst x :
  ldb (copy_bytes n a src dst) x = if decide (in_range a (Z.of_nat n) x) then ldb src x else ldb dst x.
Proof.
  revert a dst. induction n as [|n IH]; intros a dst; cbn [copy_bytes].
  - rewrite decide_False; [done|]. unfold in_range. lia.
  - rewrite IH, ldb_stb. unfold in_range.
    repeat case_decide; subst; try done; try lia. apply u8_small, ldb_range.
Qed.

Lemma line_of_eq a : 0 <= a < 2 ^ 32 -> line_of a = a - a mod 32.
Proof. apply (land_lnot_ones a 5). lia. Qed.

(** A cleaned store is seen by the walker, and hides nothing else from it. *)
Lemma clean_coh (m w : mem) a v x :
  0 <= a < 2 ^ 32 -> aligned 4 a -> ldb w x = ldb m x ->
  ldb (copy_bytes 32 (line_of a) (st32 m a v) w) x = ldb (st32 m a v) x.
Proof.
  intros Hr Ha Hx. rewrite copy_bytes_lookup. case_decide as Hl; [done|]. rewrite Hx.
  symmetry. apply (mem_frame_st32 m a v x). rewrite line_of_eq in Hl by done.
  unfold in_range, aligned in *. Z.div_mod_to_equations. lia.
Qed.

(** * Well-formed address spaces *)

(** [tabs]: the L2 table of each 1 MB of the user range that has one;
    [pages]: the frame behind each mapped page number. *)
Record aspace := AS { tabs : gmap Z Z; pages : gmap Z Z }.

(** What a frame of an address space is used for. *)
Inductive role := RL1 (j : Z) | RL2 (i : Z) | RPage (v : Z).

#[export] Instance role_eq_dec : EqDecision role.
Proof. solve_decision. Defined.

Definition frame_at (l1 : Z) (a : aspace) (r : role) : option Z :=
  match r with
  | RL1 j => if decide (0 <= j < 4) then Some (frame_of l1 j) else None
  | RL2 i => tabs a !! i
  | RPage v => pages a !! v
  end.

(** bytes of the translation tables *)
Definition tbl_byte (l1 : Z) (a : aspace) (x : Z) : Prop :=
  in_range l1 L1_SIZE x \/ exists i l2, tabs a !! i = Some l2 /\ in_range l2 L2_SIZE x.

Section spec.
Context {A : Type} {FA : FrameAlloc A} {FS : FrameAllocSpec A}.
(** The kernel's own table: sections only. *)
Context (K : Z -> Z) (HK : forall i, (K i) mod 4 <> 1).
Implicit Types (s : vms A) (m : mem) (a : aspace).

Definition owned s : Z -> Prop := fa_owned (fa (vphys s)).

Record as_ok s l1 a : Prop := {
  as_fa : fa_ok (fa (vphys s));
  as_al : aligned L1_ALIGN l1;
  as_own : forall r f, frame_at l1 a r = Some f -> owned s f;
  as_inj : forall r r' f, frame_at l1 a r = Some f -> frame_at l1 a r' = Some f -> r = r';
  as_tabs : forall i l2, tabs a !! i = Some l2 -> 0 <= i < 1024;
  as_pages : forall v f, pages a !! v = Some f -> 1 <= v < 2 ^ 18 /\ is_Some (tabs a !! (v / 256));
  as_l1 : forall i, 0 <= i < L1_ENTRIES ->
    ld32 (vm_pm s) (l1 + 4 * i) = match tabs a !! i with Some l2 => l2 + 1 | None => K i end;
  as_l2 : forall i l2 k, tabs a !! i = Some l2 -> 0 <= k < L2_ENTRIES ->
    ld32 (vm_pm s) (l2 + 4 * k) =
    match pages a !! (256 * i + k) with Some f => f + 0x7E | None => 0 end;
  as_coh : forall x, tbl_byte l1 a x -> ldb (wm s) x = ldb (vm_pm s) x;
}.

Record kern_ok s : Prop := {
  ko_fa : fa_ok (fa (vphys s));
  ko_own : forall j, 0 <= j < 4 -> owned s (frame_of (l1_pa s) j);
  ko_l1 : forall i, 0 <= i < L1_ENTRIES -> ld32 (vm_pm s) (l1_pa s + 4 * i) = K i;
}.

(** An owned frame: page aligned, inside the address space. *)
Lemma owned_frame s f :
  fa_ok (fa (vphys s)) -> owned s f -> aligned PAGE_SIZE f /\ 0 < f /\ f + PAGE_SIZE <= 2 ^ 32.
Proof. intros Hok Hf. eapply fa_window_frame; [done|]. by apply fa_owned_window. Qed.

Lemma as_frame s l1 a r f :
  as_ok s l1 a -> frame_at l1 a r = Some f -> aligned PAGE_SIZE f /\ 0 < f /\ f + PAGE_SIZE <= 2 ^ 32.
Proof. intros Ha Hf. eapply owned_frame; [apply Ha|]. by eapply as_own. Qed.

Lemma as_l1_range s l1 a : as_ok s l1 a -> 0 < l1 /\ l1 + L1_SIZE <= 2 ^ 32.
Proof.
  intros Ha. destruct (as_frame s l1 a (RL1 0) l1 Ha) as (_ & H1 & _); [cbn; f_equal; plia|].
  destruct (as_frame s l1 a (RL1 3) (frame_of l1 3) Ha) as (_ & _ & H3); [done|].
  unfold L1_SIZE. plia.
Qed.

(** Pages have no byte in common. *)
Lemma pages_apart f g x :
  aligned PAGE_SIZE f -> aligned PAGE_SIZE g -> in_range f PAGE_SIZE x -> in_range g PAGE_SIZE x -> f = g.
Proof. unfold aligned, in_range, PAGE_SIZE. intros. Z.div_mod_to_equations. lia. Qed.

Lemma roles_apart s l1 a r r' f g x :
  as_ok s l1 a -> frame_at l1 a r = Some f -> frame_at l1 a r' = Some g ->
  in_range f PAGE_SIZE x -> in_range g PAGE_SIZE x -> r = r'.
Proof.
  intros Ha Hf Hg Hx Hx'. destruct (as_frame _ _ _ _ _ Ha Hf), (as_frame _ _ _ _ _ Ha Hg).
  assert (f = g) as <- by by eapply pages_apart. by eapply as_inj.
Qed.

(** The frame a byte of the L1 table lies in. *)
Lemma l1_byte_frame l1 a x :
  in_range l1 L1_SIZE x -> exists j, frame_at l1 a (RL1 j) = Some (frame_of l1 j) /\ in_range (frame_of l1 j) PAGE_SIZE x.
Proof.
  intros Hx. exists ((x - l1) / PAGE_SIZE). cbn. unfold L1_SIZE, PAGE_SIZE in *. unfold in_range in Hx.
  rewrite decide_True by (Z.div_mod_to_equations; lia). split; [done|].
  unfold in_range, frame_of, PAGE_SIZE. Z.div_mod_to_equations. lia.
Qed.

(** Every byte of the tables lies in a frame that holds no user page. *)
Lemma tbl_byte_frame l1 a x :
  tbl_byte l1 a x -> exists r f, frame_at l1 a r = Some f /\ in_range f PAGE_SIZE x /\ forall v, r <> RPage v.
Proof.
  intros [Hx|(i & l2 & Hi & Hx)].
  - destruct (l1_byte_frame l1 a x Hx) as (j & Hj & Hxj). by exists (RL1 j), (frame_of l1 j).
  - exists (RL2 i), l2. split; [done|]. split; [|done]. unfold in_range, L2_SIZE, PAGE_SIZE in *. lia.
Qed.

Lemma page_down_frame f x : aligned PAGE_SIZE f -> in_range f PAGE_SIZE x -> page_down x = f.
Proof. unfold aligned, in_range, page_down, PAGE_SIZE. intros. Z.div_mod_to_equations. lia. Qed.

Lemma tbl_byte_owned s l1 a x : as_ok s l1 a -> tbl_byte l1 a x -> owned s (page_down x).
Proof.
  intros Ha Hx. destruct (tbl_byte_frame l1 a x Hx) as (r & f & Hf & Hxf & _).
  destruct (as_frame _ _ _ _ _ Ha Hf) as (Hal & _). rewrite (page_down_frame f x Hal Hxf).
  by eapply as_own.
Qed.

(** A change that stays off the tables keeps the address space. *)
Lemma as_ok_frame (Q : Z -> Prop) s s' l1 a :
  as_ok s l1 a -> fa_ok (fa (vphys s')) ->
  (forall r f, frame_at l1 a r = Some f -> owned s' f) ->
  mem_frame Q (vm_pm s) (vm_pm s') -> mem_frame Q (wm s) (wm s') ->
  (forall x, tbl_byte l1 a x -> ~ Q x) -> as_ok s' l1 a.
Proof.
  intros [H1 H2 H3 H4 H5 H6 H7 H8 H9] Hfa Hown Hpm Hwm HQ. split; try done.
  - intros i Hi. rewrite <- H7 by done. eapply ld32_frame; [exact Hpm|]. intros x Hx.
    apply HQ. left. unfold in_range, L1_ENTRIES, L1_SIZE in *. lia.
  - intros i l2 k Hl2 Hk. rewrite <- (H8 i l2 k) by done. eapply ld32_frame; [exact Hpm|]. intros x Hx.
    apply HQ. right. exists i, l2. split; [done|]. unfold in_range, L2_ENTRIES, L2_SIZE in *. lia.
  - intros x Hx. rewrite (Hwm x), (Hpm x) by auto. by apply H9.
Qed.

(** ** Changing one page entry *)

Definition set_page a (v : Z) (o : option Z) : aspace := AS (tabs a) (partial_alter (fun _ => o) v (pages a)).
Definition page_desc (o : option Z) : Z := match o with Some f => f + 0x7E | None => 0 end.

Lemma lookup_set_page a v o w :
  pages (set_page a v o) !! w = if decide (v = w) then o else pages a !! w.
Proof.
  cbn. case_decide; [subst; apply lookup_partial_alter_eq|by apply lookup_partial_alter_ne].
Qed.

Lemma ld32_st32 m p v q :
  aligned 4 p -> aligned 4 q -> ld32 (st32 m p v) q = if decide (p = q) then u32 v else ld32 m q.
Proof.
  unfold aligned. intros. case_decide; [subst; apply ld32_st32_eq|].
  apply ld32_st32_ne. Z.div_mod_to_equations. lia.
Qed.

Lemma word_aligned f k : aligned PAGE_SIZE f -> aligned 4 (f + 4 * k).
Proof. unfold aligned, PAGE_SIZE. intros. Z.div_mod_to_equations. lia. Qed.

(** The words of the tables are where the map says; two of them are never in
    the same place. *)
Lemma l2_word_ne_l1 s l1 a i l2 k j :
  as_ok s l1 a -> tabs a !! i = Some l2 -> 0 <= k < L2_ENTRIES -> 0 <= j < L1_ENTRIES ->
  l2 + 4 * k <> l1 + 4 * j.
Proof.
  unfold L2_ENTRIES, L1_ENTRIES. intros Ha Hi Hk Hj Heq.
  destruct (l1_byte_frame l1 a (l1 + 4 * j)) as (p & Hp & Hx); [unfold in_range, L1_SIZE; lia|].
  assert (RL1 p = RL2 i); [|done]. eapply (roles_apart _ _ _ _ _ _ l2 _ Ha Hp); [done..|]. plia.
Qed.

Lemma l2_word_inj s l1 a i l2 k i' l2' k' :
  as_ok s l1 a -> tabs a !! i = Some l2 -> tabs a !! i' = Some l2' ->
  0 <= k < L2_ENTRIES -> 0 <= k' < L2_ENTRIES -> l2 + 4 * k = l2' + 4 * k' -> i = i' /\ k = k'.
Proof.
  unfold L2_ENTRIES. intros Ha Hi Hi' Hk Hk' Heq.
  assert (RL2 i = RL2 i') as [= <-].
  { eapply (roles_apart _ _ _ _ _ _ l2' (l2 + 4 * k) Ha); [cbn; exact Hi|done|plia..]. }
  split; [done|]. rewrite Hi in Hi'. injection Hi' as <-. lia.
Qed.

Lemma as_ok_page s s' l1 a v l2 o :
  as_ok s l1 a -> 1 <= v < 2 ^ 18 -> tabs a !! (v / 256) = Some l2 ->
  (forall f, o = Some f -> owned s f /\ forall r, frame_at l1 a r = Some f -> r = RPage v) ->
  fa (vphys s') = fa (vphys s) ->
  vm_pm s' = st32 (vm_pm s) (l2 + 4 * (v mod 256)) (page_desc o) ->
  wm s' = copy_bytes 32 (line_of (l2 + 4 * (v mod 256))) (vm_pm s') (wm s) ->
  as_ok s' l1 (set_page a v o).
Proof.
  intros Ha Hv Hl2 Ho Hfa Hpm Hwm.
  pose proof (Z.mod_pos_bound v 256 ltac:(lia)) as Hk. pose proof (Z_div_mod_eq_full v 256) as Hveq.
  destruct (as_frame s l1 a (RL2 (v / 256)) l2 Ha Hl2) as (Hal & Hpos & Htop).
  pose proof (word_aligned l2 (v mod 256) Hal) as Hwa.
  assert (Hown : forall f, owned s' f <-> owned s f) by (unfold owned; by rewrite Hfa).
  assert (Hrole : forall r f, frame_at l1 (set_page a v o) r = Some f ->
    (r = RPage v /\ o = Some f) \/ (frame_at l1 a r = Some f /\ r <> RPage v)).
  { intros [j|i|w] f; cbn [frame_at tabs set_page]; [auto..|].
    intros Hw. rewrite (lookup_set_page a v o w) in Hw.
    destruct (decide (v = w)) as [->|Hne]; [auto|]. right. split; [done|]. congruence. }
  split.
  - rewrite Hfa. apply Ha.
  - apply Ha.
  - intros r f Hf. apply Hown. destruct (Hrole r f Hf) as [[-> ->]|[Hr _]]; [by apply Ho|by eapply as_own].
  - intros r r' f Hf Hf'.
    destruct (Hrole r f Hf) as [[-> Hof]|[Hr Hn]], (Hrole r' f Hf') as [[-> Hof']|[Hr' Hn']].
    + done.
    + destruct (Ho f Hof) as [_ Hq]. symmetry. by apply Hq.
    + destruct (Ho f Hof') as [_ Hq]. by apply Hq.
    + by eapply as_inj.
  - apply Ha.
  - intros w f. rewrite lookup_set_page. case_decide; [subst w|by apply Ha].
    intros _. split; [done|]. eauto.
  - intros j Hj. rewrite Hpm. rewrite ld32_st32_ne; [by apply Ha|].
    pose proof (l2_word_ne_l1 s l1 a (v / 256) l2 (v mod 256) j Ha Hl2 Hk Hj).
    pose proof (as_al _ _ _ Ha). unfold aligned, L1_ALIGN in *. Z.div_mod_to_equations. lia.
  - intros j t k Hj Hk'. cbn in Hj. rewrite Hpm, lookup_set_page.
    destruct (as_frame s l1 a (RL2 j) t Ha Hj) as (Halt & _).
    rewrite ld32_st32; [|done|by apply word_aligned]. case_decide as Heq.
    + destruct (l2_word_inj s l1 a (v / 256) l2 (v mod 256) j t k Ha Hl2 Hj Hk Hk' Heq) as [<- <-].
      rewrite decide_True by lia. apply u32_small. destruct o as [f|]; cbn; [|lia].
      destruct (Ho f eq_refl) as [Hf _]. destruct (owned_frame s f (as_fa _ _ _ Ha) Hf) as (_ & ? & ?). plia.
    + rewrite decide_False; [by apply Ha|]. intros ->. apply Heq.
      assert ((256 * j + k) / 256 = j /\ (256 * j + k) mod 256 = k) as [E1 E2].
      { unfold L2_ENTRIES in Hk'. split; Z.div_mod_to_equations; lia. }
      rewrite E1 in Hl2. rewrite E2. rewrite Hl2 in Hj. by injection Hj as <-.
  - intros x Hx. rewrite Hwm, Hpm. apply clean_coh; [plia|done|]. by apply (as_coh _ _ _ Ha).
Qed.

(** ** Loops over the words of a table *)

(** only memory in [Q] changed *)
Definition only_pm (Q : Z -> Prop) s s' : Prop :=
  fa (vphys s') = fa (vphys s) /\ wm s' = wm s /\ l1_pa s' = l1_pa s /\ hwlog s' = hwlog s /\
  mem_frame Q (vm_pm s) (vm_pm s').

Lemma only_pm_refl Q s : only_pm Q s s.
Proof. done. Qed.

Lemma wp_put p i v s (Q : unit -> vms A -> Prop) :
  Q tt (set_vphys (set_pm (st32 (vm_pm s) (p + 4 * i) v) (vphys s)) s) -> wp (put p i v) s Q.
Proof. done. Qed.

Lemma wp_get p i s (Q : Z -> vms A -> Prop) : Q (ld32 (vm_pm s) (p + 4 * i)) s -> wp (get p i) s Q.
Proof. done. Qed.

(** [for (i = 0; i < n; i++) dst[i] = f(i)], where [f] reads outside [dst]. *)
Lemma store_words n dst (f : Z -> M (vms A) Z) (g : Z -> Z) s :
  (forall i t, 0 <= i < Z.of_nat n -> only_pm (in_range dst (4 * Z.of_nat n)) s t ->
     f i t = (g i, t)) ->
  wp (forM n 0 1 (fun i => d ← f i; put dst i d)) s (fun _ s' =>
    only_pm (in_range dst (4 * Z.of_nat n)) s s' /\
    forall i, 0 <= i < Z.of_nat n -> ld32 (vm_pm s') (dst + 4 * i) = u32 (g i)).
Proof.
  intros Hf. eapply wp_mono.
  - apply (wp_forM n 0 1 _ s (fun k t => only_pm (in_range dst (4 * Z.of_nat n)) s t /\
      forall i, 0 <= i < k -> ld32 (vm_pm t) (dst + 4 * i) = u32 (g i))).
    + split; [apply only_pm_refl|lia].
    + intros k t Hk [Ht Hw]. rewrite Z.add_0_l, Z.mul_1_r in *. wp_steps.
      unfold wp. rewrite (Hf k t Hk Ht). split.
      * destruct Ht as (H1 & H2 & H3 & H4 & H5). repeat (split; [done|]).
        eapply mem_frame_st32_in; [exact H5|lia..].
      * intros i Hi. cbn. destruct (decide (i = k)) as [->|].
        -- apply ld32_st32_eq.
        -- rewrite ld32_st32_ne by lia. apply Hw. lia.
  - cbn beta. intros [] t [Ht Hw]. split; [done|]. intros i Hi. apply Hw. lia.
Qed.

Lemma fill_words n dst (g : Z -> Z) s :
  wp (forM n 0 1 (fun i => put dst i (g i))) s (fun _ s' =>
    only_pm (in_range dst (4 * Z.of_nat n)) s s' /\
    forall i, 0 <= i < Z.of_nat n -> ld32 (vm_pm s') (dst + 4 * i) = u32 (g i)).
Proof. pose proof (store_words n dst (fun i => mret (g i)) g s) as H. exact (H (fun i t _ _ => eq_refl)). Qed.

(** ** Cleaning *)

Lemma clean_table_spec base n s :
  0 <= n -> 0 <= base -> base + 32 * n <= 2 ^ 32 -> aligned 32 base ->
  wp (clean_table base (32 * n)) s (fun _ s' =>
    vphys s' = vphys s /\ l1_pa s' = l1_pa s /\ hwlog s' = hwlog s /\
    forall x, ldb (wm s') x = if decide (in_range base (32 * n) x) then ldb (vm_pm s) x else ldb (wm s) x).
Proof.
  intros Hn Hb Ht Ha. unfold clean_table. rewrite (Z.mul_comm 32 n), Z.div_mul by lia.
  eapply wp_mono.
  - apply (wp_forM _ 0 32 _ s (fun off t => vphys t = vphys s /\ l1_pa t = l1_pa s /\ hwlog t = hwlog s /\
      forall x, ldb (wm t) x = if decide (in_range base off x) then ldb (vm_pm s) x else ldb (wm s) x)).
    + repeat (split; [done|]). intros x. rewrite decide_False; [done|]. unfold in_range. lia.
    + intros k t Hk (H1 & H2 & H3 & H4). rewrite Z.add_0_l. unfold mmu_clean_dcache_line. wp_steps.
      rewrite (u32_small (base + k * 32)) by lia. rewrite line_of_eq by lia.
      assert (E : (base + k * 32) mod 32 = 0) by (unfold aligned in Ha; Z.div_mod_to_equations; lia).
      rewrite E, Z.sub_0_r. repeat (split; [done|]). intros x. cbn [wm set_wm].
      rewrite copy_bytes_lookup. unfold vm_pm. rewrite H1. unfold in_range. rewrite H4. unfold in_range.
      repeat case_decide; try done; exfalso; lia.
  - intros [] t (H1 & H2 & H3 & H4). repeat (split; [done|]). intros x. rewrite H4.
    by replace (0 + Z.of_nat (Z.to_nat n) * 32) with (n * 32) by lia.
Qed.

(** ** Operations that add to an address space *)

(** Bytes an operation on the address space may touch. *)
Definition tbl_change s l1 a (x : Z) : Prop := tbl_byte l1 a x \/ ~ owned s (page_down x).

(** [s'], [a'] come from [s], [a] by adding L2 tables and editing entries: the
    only frames taken are those of the new tables. *)
Record grown s l1 a s' a' : Prop := {
  gr_ok : as_ok s' l1 a';
  gr_tabs : tabs a ⊆ tabs a';
  gr_own : forall f, owned s' f <-> owned s f \/ exists i, tabs a !! i = None /\ tabs a' !! i = Some f;
  gr_fresh : forall i f, tabs a !! i = None -> tabs a' !! i = Some f -> ~ owned s f;
  gr_pm : mem_frame (tbl_change s l1 a) (vm_pm s) (vm_pm s');
  gr_wm : mem_frame (tbl_change s l1 a) (wm s) (wm s');
  gr_base : l1_pa s' = l1_pa s;
}.

Lemma set_vphys_id s : set_vphys (vphys s) s = s.
Proof. by destruct s. Qed.

Lemma grown_refl s l1 a : as_ok s l1 a -> grown s l1 a s a.
Proof. intros Ha. split; try done; [|congruence]. intros f. split; [auto|]. intros [?|(i & H1 & H2)]; congruence. Qed.

Definition add_tab a (i l2 : Z) : aspace := AS (<[i := l2]> (tabs a)) (pages a).

Lemma as_ok_table s s' l1 a i l2 :
  as_ok s l1 a -> 0 <= i < 1024 -> tabs a !! i = None -> ~ owned s l2 ->
  fa_ok (fa (vphys s')) -> (forall f, owned s' f <-> owned s f \/ f = l2) ->
  mem_frame (fun x => in_range l2 PAGE_SIZE x \/ in_range (l1 + 4 * i) 4 x) (vm_pm s) (vm_pm s') ->
  ld32 (vm_pm s') (l1 + 4 * i) = l2 + 1 ->
  (forall k, 0 <= k < L2_ENTRIES -> ld32 (vm_pm s') (l2 + 4 * k) = 0) ->
  (forall x, tbl_byte l1 (add_tab a i l2) x -> ldb (wm s') x = ldb (vm_pm s') x) ->
  as_ok s' l1 (add_tab a i l2).
Proof.
  intros Ha Hi Hnone Hfresh Hfa Hown Hpm Hl1 Hl2 Hcoh.
  destruct (owned_frame s' l2 Hfa) as (Hal2 & Hpos2 & _); [apply Hown; auto|].
  assert (Hrole : forall r f, frame_at l1 (add_tab a i l2) r = Some f ->
    (r = RL2 i /\ f = l2) \/ frame_at l1 a r = Some f).
  { intros [j|j|w] f; cbn; [auto| |auto]. rewrite lookup_insert_Some. intros [[<- <-]|[_ ?]]; auto. }
  assert (Hoff : forall r f x, frame_at l1 a r = Some f -> in_range f PAGE_SIZE x -> ~ in_range l2 PAGE_SIZE x).
  { intros r f x Hf Hx Hx'. destruct (as_frame _ _ _ _ _ Ha Hf) as (Half & _). apply Hfresh.
    rewrite <- (pages_apart f l2 x) by done. by eapply as_own. }
  split; try done.
  - apply Ha.
  - intros r f Hf. apply Hown. destruct (Hrole r f Hf) as [[_ ->]|Hr]; [auto|left; by eapply as_own].
  - intros r r' f Hf Hf'.
    destruct (Hrole r f Hf) as [[-> ->]|Hr], (Hrole r' _ Hf') as [[-> ?]|Hr']; subst; try done.
    + exfalso. apply Hfresh. by eapply as_own.
    + exfalso. apply Hfresh. by eapply as_own.
    + by eapply as_inj.
  - intros j t. cbn. rewrite lookup_insert_Some. intros [[<- _]|[_ ?]]; [done|by eapply as_tabs].
  - intros w f Hw. destruct (as_pages _ _ _ Ha w f Hw) as [H1 H2]. split; [done|]. cbn.
    apply lookup_insert_is_Some. destruct (decide (i = w / 256)); auto.
  - intros j Hj. cbn. destruct (decide (i = j)) as [<-|Hne]; [by rewrite lookup_insert_eq|].
    rewrite lookup_insert_ne by done. rewrite <- (as_l1 _ _ _ Ha j Hj). eapply ld32_frame; [exact Hpm|].
    intros x Hx [Hx'|Hx']; [|unfold in_range in *; lia].
    destruct (l1_byte_frame l1 a x) as (p & Hp & Hxp); [unfold in_range, L1_SIZE, L1_ENTRIES in *; lia|].
    by eapply Hoff.
  - intros j t k. cbn. rewrite lookup_insert_Some. intros [[<- <-]|[Hne Hj]] Hk.
    + rewrite Hl2 by done. destruct (pages a !! (256 * i + k)) as [f|] eqn:Hf; [|done]. exfalso.
      apply (as_pages _ _ _ Ha) in Hf as [_ [t Ht]]. unfold L2_ENTRIES in Hk.
      replace ((256 * i + k) / 256) with i in Ht by (Z.div_mod_to_equations; lia). congruence.
    + rewrite <- (as_l2 _ _ _ Ha j t k Hj Hk). unfold L2_ENTRIES in Hk. eapply ld32_frame; [exact Hpm|].
      intros x Hx [Hx'|Hx'].
      * eapply (Hoff (RL2 j) t x); [done|plia|done].
      * destruct (l1_byte_frame l1 a x) as (p & Hp & Hxp); [unfold in_range, L1_SIZE in *; lia|].
        assert (RL2 j = RL1 p); [|done]. eapply (roles_apart _ _ _ _ _ t _ x Ha); [done..| |done]. plia.
Qed.

Lemma l2_for_hit s l1 a va create l2 :
  as_ok s l1 a -> tabs a !! (vpn va / 256) = Some l2 -> l2_for l1 va create s = (l2, s).
Proof.
  intros Ha Hl2. pose proof (as_tabs _ _ _ Ha _ _ Hl2) as Hi.
  destruct (as_frame s l1 a (RL2 _) l2 Ha Hl2) as (Hal & Hp & Ht).
  destruct (coarse_desc l2) as (_ & Hb & Hty); [plia|unfold aligned, PAGE_SIZE in *; Z.div_mod_to_equations; lia|].
  unfold l2_for, get, gets, mbind, M_bind. rewrite l1_index_eq.
  rewrite (as_l1 _ _ _ Ha) by (unfold L1_ENTRIES; lia). rewrite Hl2, Hty, Hb. done.
Qed.

Lemma l2_for_miss s l1 a va :
  as_ok s l1 a -> 0 <= va < 2 ^ 32 -> tabs a !! (vpn va / 256) = None -> l2_for l1 va false s = (0, s).
Proof.
  intros Ha Hva Hn. unfold l2_for, get, gets, mbind, M_bind. rewrite l1_index_eq.
  rewrite (as_l1 _ _ _ Ha) by (unfold vpn, L1_ENTRIES; Z.div_mod_to_equations; lia).
  rewrite Hn. unfold L1_TYPE_MASK, L1_TYPE_COARSE. rewrite land_type.
  rewrite (proj2 (Z.eqb_neq _ _)) by apply HK. done.
Qed.

(** Installing the fresh frame [l2] in slot [i]: [m2], [w3] are the two views of
    memory after the table was cleared and cleaned, before the slot is written. *)
Lemma grown_table s s' l1 a i l2 m2 w3 :
  as_ok s l1 a -> 0 <= i < 1024 -> tabs a !! i = None -> ~ owned s l2 ->
  fa_ok (fa (vphys s')) -> (forall f, owned s' f <-> owned s f \/ f = l2) -> l1_pa s' = l1_pa s ->
  mem_frame (in_range l2 PAGE_SIZE) (vm_pm s) m2 ->
  (forall k, 0 <= k < L2_ENTRIES -> ld32 m2 (l2 + 4 * k) = 0) ->
  (forall x, ldb w3 x = if decide (in_range l2 L2_SIZE x) then ldb m2 x else ldb (wm s) x) ->
  vm_pm s' = st32 m2 (l1 + 4 * i) (l2 + 1) ->
  wm s' = copy_bytes 32 (line_of (l1 + 4 * i)) (vm_pm s') w3 ->
  grown s l1 a s' (add_tab a i l2).
Proof.
  intros Ha Hi Hn Hfresh Hfa Hown Hb Hm2 Hz Hw3 Hpm Hwm.
  destruct (as_l1_range s l1 a Ha) as [Hl1p Hl1t]. unfold L1_SIZE in Hl1t.
  pose proof (as_al _ _ _ Ha) as Hal.
  destruct (owned_frame s' l2 Hfa) as (Hal2 & Hp2 & Ht2); [apply Hown; auto|].
  assert (Hoff : forall x, owned s (page_down x) -> ~ in_range l2 PAGE_SIZE x).
  { intros x Hx Hx'. apply Hfresh. by rewrite <- (page_down_frame l2 x). }
  assert (Hl1off : forall x, in_range l1 16384 x -> ~ in_range l2 PAGE_SIZE x).
  { intros x Hx. apply Hoff, (tbl_byte_owned s l1 a); [done|by left]. }
  assert (Hword : forall x, in_range (l1 + 4 * i) 4 x -> in_range l1 16384 x) by (unfold in_range; lia).
  assert (Hpmf : mem_frame (fun x => in_range l2 PAGE_SIZE x \/ in_range (l1 + 4 * i) 4 x) (vm_pm s) (vm_pm s')).
  { intros x Hx. rewrite Hpm. rewrite (mem_frame_st32 m2) by tauto. apply Hm2. tauto. }
  assert (Hline : forall x, in_range (line_of (l1 + 4 * i)) 32 x -> in_range l1 16384 x).
  { intros x. rewrite line_of_eq by lia. unfold aligned, L1_ALIGN, in_range in *. Z.div_mod_to_equations. lia. }
  split.
  - apply (as_ok_table s); try done.
    + rewrite Hpm, ld32_st32_eq. apply u32_small. plia.
    + intros k Hk. rewrite Hpm, ld32_st32_ne; [by apply Hz|]. unfold L2_ENTRIES in Hk.
      pose proof (Hl1off (l1 + 4 * i)). unfold in_range, aligned, PAGE_SIZE, L1_ALIGN in *.
      Z.div_mod_to_equations. lia.
    + intros x Hx. rewrite Hwm, Hpm. apply clean_coh; [lia| |].
      { unfold aligned, L1_ALIGN in *. Z.div_mod_to_equations. lia. }
      rewrite Hw3. case_decide as Hr; [done|].
      assert (Hx' : tbl_byte l1 a x).
      { destruct Hx as [Hx|(j & t & Hj & Hx)]; [by left|right]. cbn in Hj.
        apply lookup_insert_Some in Hj as [[<- <-]|[_ Hj]]; [done|]. eauto. }
      rewrite Hm2 by (by apply Hoff, (tbl_byte_owned s l1 a)). by apply (as_coh _ _ _ Ha).
  - cbn. by apply insert_subseteq.
  - intros f. rewrite Hown. split; (intros [Hf|Hf]; [by left|]).
    + subst f. right. exists i. split; [done|]. cbn. by rewrite lookup_insert_eq.
    + destruct Hf as (j & Hj & Hj'). cbn in Hj'. apply lookup_insert_Some in Hj' as [[_ <-]|[_ ?]]; [auto|congruence].
  - intros j f Hj Hj'. cbn in Hj'. apply lookup_insert_Some in Hj' as [[_ <-]|[_ ?]]; [done|congruence].
  - eapply mem_frame_mono; [exact Hpmf|]. intros x [Hx|Hx].
    + right. intros Ho. by apply (Hoff x Ho).
    + left. left. by apply Hword.
  - intros x Hx. unfold tbl_change in Hx. rewrite Hwm, copy_bytes_lookup, decide_False.
    + rewrite Hw3, decide_False; [done|]. intros Hx'. apply Hx. right. intros Ho.
      apply (Hoff x Ho). unfold in_range, L2_SIZE, PAGE_SIZE in *. lia.
    + intros Hx'. apply Hx. left. left. by apply Hline.
  - done.
Qed.

(** [l2_for] when the slot has no table yet: a fresh one, all entries invalid. *)
Lemma l2_for_new s l1 a va :
  as_ok s l1 a -> 0 <= va < USER_VA_MAX -> tabs a !! (vpn va / 256) = None ->
  wp (l2_for l1 va true) s (fun l2 s' =>
    (l2 = 0 /\ s' = s) \/
    (l2 <> 0 /\ grown s l1 a s' (add_tab a (vpn va / 256) l2))).
Proof.
  intros Ha Hva Hn. set (i := vpn va / 256) in *.
  assert (Hi : 0 <= i < 1024) by (unfold i, vpn, USER_VA_MAX in *; Z.div_mod_to_equations; lia).
  destruct (as_l1_range s l1 a Ha) as [Hl1p Hl1t]. unfold L1_SIZE in Hl1t.
  unfold l2_for. rewrite l1_index_eq. fold i. unfold get. wp_steps.
  rewrite (as_l1 _ _ _ Ha i) by (unfold L1_ENTRIES; lia). rewrite Hn.
  unfold L1_TYPE_MASK, L1_TYPE_COARSE. rewrite land_type, (proj2 (Z.eqb_neq _ _)) by apply HK. cbn [negb].
  wp_steps. apply wp_zoom. eapply wp_mono.
  { apply (fa_alloc_aligned_spec 1 10); [apply Ha|lia..]. }
  intros l2 ph [(Hfa & Hwin & [[-> ->]|(Hl2 & Hfr & Hown & Hz & Hf)]) Hal]; cbn beta.
  { rewrite Z.eqb_refl, set_vphys_id. wp_steps. auto. }
  rewrite (proj2 (Z.eqb_neq _ _)) by lia.
  specialize (Hfr 0 ltac:(lia)) as [_ Hfresh]. replace (frame_of l2 0) with l2 in Hfresh by plia.
  rewrite Z.mul_1_l in Hf. set (s1 := set_vphys ph s).
  assert (Hown1 : forall f, owned s1 f <-> owned s f \/ f = l2).
  { intros f. unfold owned at 1. cbn. rewrite Hown. split.
    - intros [?|(j & Hj & ->)]; [auto|right; plia].
    - intros [?| ->]; [auto|right]. exists 0. split; [lia|plia]. }
  destruct (owned_frame s1 l2 Hfa) as (Hal2 & _ & Ht2); [apply Hown1; auto|].
  assert (Hwm1 : wm s1 = wm s) by done. assert (Hb1 : l1_pa s1 = l1_pa s) by done.
  assert (Hpm1 : vm_pm s1 = pm ph) by done. assert (Hf1 : fa (vphys s1) = fa ph) by done. clearbody s1.
  apply wp_bind. eapply wp_mono.
  { apply (fill_words _ l2 (fun _ => 0)). }
  intros [] s2 [(Hfa2 & Hwm2 & Hb2 & _ & Hpm2) Hz2].
  apply wp_bind. eapply wp_mono.
  { apply (clean_table_spec l2 32 s2); try plia. unfold aligned, PAGE_SIZE in *. Z.div_mod_to_equations. lia. }
  intros [] s3 (Hph3 & Hb3 & _ & Hwm3). unfold mmu_clean_dcache_line, hw. wp_steps. apply wp_put. wp_steps.
  right. split; [lia|].
  destruct (coarse_desc l2) as (-> & _ & _); [plia|unfold aligned, PAGE_SIZE in *; Z.div_mod_to_equations; lia|].
  match goal with |- grown _ _ _ ?t _ => set (s4 := t) end.
  assert (Hpm4 : vm_pm s4 = st32 (vm_pm s2) (l1 + 4 * i) (l2 + 1)).
  { cbn. unfold vm_pm. by rewrite Hph3. }
  assert (Hwm4 : wm s4 = copy_bytes 32 (line_of (l1 + 4 * i)) (vm_pm s4) (wm s3)) by done.
  assert (Hfa4 : fa (vphys s4) = fa (vphys s1)).
  { cbn. by rewrite Hph3. }
  assert (Hb4 : l1_pa s4 = l1_pa s) by (cbn; congruence).
  clearbody s4.
  apply (grown_table s s4 l1 a i l2 (vm_pm s2) (wm s3)); try done.
  - by rewrite Hfa4, Hf1.
  - intros f. unfold owned at 1. rewrite Hfa4. apply Hown1.
  - eapply mem_frame_trans; [exact Hf|]. rewrite <- Hpm1. eapply mem_frame_mono; [exact Hpm2|].
    unfold L2_ENTRIES. plia.
  - intros x. rewrite Hwm3, Hwm2, Hwm1. done.
Qed.

Lemma l2_for_spec s l1 a va :
  as_ok s l1 a -> 0 <= va < USER_VA_MAX ->
  wp (l2_for l1 va true) s (fun l2 s' =>
    (l2 = 0 /\ s' = s) \/
    (l2 <> 0 /\ exists a', grown s l1 a s' a' /\ pages a' = pages a /\ tabs a' !! (vpn va / 256) = Some l2)).
Proof.
  intros Ha Hva. destruct (tabs a !! (vpn va / 256)) as [l2|] eqn:Hl2.
  - unfold wp. rewrite (l2_for_hit s l1 a) with (l2 := l2) by done. right.
    destruct (as_frame s l1 a (RL2 _) l2 Ha Hl2) as (_ & Hp & _). split; [cbn; lia|].
    exists a. split; [by apply grown_refl|]. done.
  - eapply wp_mono; [by apply l2_for_new|]. intros l2 s' [?|[Hne Hg]]; [by left|right].
    split; [done|]. eexists. split; [exact Hg|]. split; [done|]. cbn. apply lookup_insert_eq.
Qed.

Lemma grown_change s l1 a s1 a1 x : grown s l1 a s1 a1 -> tbl_change s1 l1 a1 x -> tbl_change s l1 a x.
Proof.
  intros Hg [[Hx|(i & l2 & Hi & Hx)]|Hx].
  - left. by left.
  - destruct (tabs a !! i) as [t|] eqn:Ht.
    + left. right. exists i, t. split; [done|].
      pose proof (lookup_weaken _ _ _ _ Ht (gr_tabs _ _ _ _ _ Hg)). congruence.
    + destruct (as_frame _ _ _ (RL2 i) l2 (gr_ok _ _ _ _ _ Hg) Hi) as (Hal & _).
      right. rewrite (page_down_frame l2 x Hal) by (unfold in_range, L2_SIZE, PAGE_SIZE in *; lia).
      by apply (gr_fresh _ _ _ _ _ Hg i).
  - right. intros Ho. apply Hx. apply (gr_own _ _ _ _ _ Hg). by left.
Qed.

Lemma grown_trans s l1 a s1 a1 s2 a2 :
  grown s l1 a s1 a1 -> grown s1 l1 a1 s2 a2 -> grown s l1 a s2 a2.
Proof.
  intros H1 H2. pose proof (gr_tabs _ _ _ _ _ H1) as Ht1. pose proof (gr_tabs _ _ _ _ _ H2) as Ht2.
  assert (Hnew : forall i f, tabs a !! i = None -> tabs a2 !! i = Some f ->
    tabs a1 !! i = Some f \/ (tabs a1 !! i = None /\ ~ owned s1 f)).
  { intros i f Hi Hf. destruct (tabs a1 !! i) as [g|] eqn:Hg.
    - left. pose proof (lookup_weaken _ _ _ _ Hg Ht2). congruence.
    - right. split; [done|]. by apply (gr_fresh _ _ _ _ _ H2 i). }
  split.
  - apply H2.
  - by transitivity (tabs a1).
  - intros f. rewrite (gr_own _ _ _ _ _ H2), (gr_own _ _ _ _ _ H1). split.
    + intros [[Hf|(i & Hi & Hf)]|(i & Hi & Hf)]; [by left|right..].
      * exists i. split; [done|]. by apply (lookup_weaken _ _ _ _ Hf Ht2).
      * exists i. split; [|done]. destruct (tabs a !! i) as [g|] eqn:Hg; [|done].
        pose proof (lookup_weaken _ _ _ _ Hg Ht1). congruence.
    + intros [Hf|(i & Hi & Hf)]; [auto|]. destruct (Hnew i f Hi Hf) as [?|[? _]]; [left; right|right]; eauto.
  - intros i f Hi Hf Ho. destruct (Hnew i f Hi Hf) as [Hf1|[_ Hn]].
    + by apply (gr_fresh _ _ _ _ _ H1 i f).
    + apply Hn, (gr_own _ _ _ _ _ H1). by left.
  - eapply mem_frame_trans; [apply H1|]. eapply mem_frame_mono; [apply H2|]. intros x. by apply grown_change.
  - eapply mem_frame_trans; [apply H1|]. eapply mem_frame_mono; [apply H2|]. intros x. by apply grown_change.
  - etransitivity; [apply H2|apply H1].
Qed.

(** Writing one entry of an existing L2 table. *)
Lemma grown_page s s' l1 a v l2 o :
  as_ok s l1 a -> 1 <= v < 2 ^ 18 -> tabs a !! (v / 256) = Some l2 ->
  (forall f, o = Some f -> owned s f /\ forall r, frame_at l1 a r = Some f -> r = RPage v) ->
  fa (vphys s') = fa (vphys s) -> l1_pa s' = l1_pa s ->
  vm_pm s' = st32 (vm_pm s) (l2 + 4 * (v mod 256)) (page_desc o) ->
  wm s' = copy_bytes 32 (line_of (l2 + 4 * (v mod 256))) (vm_pm s') (wm s) ->
  grown s l1 a s' (set_page a v o).
Proof.
  intros Ha Hv Hl2 Ho Hfa Hb Hpm Hwm.
  destruct (as_frame s l1 a (RL2 (v / 256)) l2 Ha Hl2) as (Hal & Hp & Ht).
  pose proof (Z.mod_pos_bound v 256 ltac:(lia)) as Hk.
  assert (Htbl : forall x, in_range l2 L2_SIZE x -> tbl_change s l1 a x).
  { intros x Hx. left. right. eauto. }
  split; try done.
  - by apply (as_ok_page s s' l1 a v l2 o).
  - intros f. unfold owned at 1. rewrite Hfa. split; [auto|]. intros [?|(i & H1 & H2)]; [done|]. cbn in H2. congruence.
  - cbn. congruence.
  - rewrite Hpm. eapply mem_frame_mono; [apply mem_frame_st32|]. intros x Hx. apply Htbl.
    unfold in_range, L2_SIZE in *. lia.
  - intros x Hx. rewrite Hwm, copy_bytes_lookup, decide_False; [done|]. intros Hx'. apply Hx, Htbl.
    rewrite line_of_eq in Hx' by plia. unfold in_range, L2_SIZE, aligned, PAGE_SIZE in *.
    Z.div_mod_to_equations. lia.
Qed.

Lemma user_vpn va : USER_VA_MIN <= va < USER_VA_MAX -> 1 <= vpn va < 2 ^ 18.
Proof. unfold USER_VA_MIN, USER_VA_MAX, vpn. intros. Z.div_mod_to_equations. lia. Qed.

(** [pa] is a frame the caller owns and has not put into this address space
    (except at the page it is about to map). *)
Definition mappable s l1 a (v pa : Z) : Prop :=
  owned s pa /\ forall r, frame_at l1 a r = Some pa -> r = RPage v.

Lemma grown_mappable s l1 a s1 a1 v pa :
  grown s l1 a s1 a1 -> pages a1 = pages a -> mappable s l1 a v pa -> mappable s1 l1 a1 v pa.
Proof.
  intros Hg Hp [Ho Hr]. split; [apply (gr_own _ _ _ _ _ Hg); by left|].
  intros [j|i|w] Hf; cbn in Hf.
  - apply (Hr (RL1 j) Hf).
  - destruct (tabs a !! i) as [g|] eqn:Hi.
    + apply (Hr (RL2 i)). cbn. pose proof (lookup_weaken _ _ _ _ Hi (gr_tabs _ _ _ _ _ Hg)). congruence.
    + exfalso. by apply (gr_fresh _ _ _ _ _ Hg i pa).
  - rewrite Hp in Hf. apply (Hr (RPage w) Hf).
Qed.

Lemma vm_map_page_spec s l1 a va pa :
  as_ok s l1 a -> USER_VA_MIN <= va < USER_VA_MAX -> mappable s l1 a (vpn va) pa ->
  wp (vm_map_page l1 va pa) s (fun r s' =>
    (r = -2 /\ s' = s) \/
    (r = 0 /\ exists a', grown s l1 a s' a' /\ pages a' = <[vpn va := pa]> (pages a))).
Proof.
  intros Ha Hva Hm. unfold vm_map_page.
  destruct (Z.ltb_spec va USER_VA_MIN), (Z.leb_spec USER_VA_MAX va); try lia. cbn [orb].
  wp_steps. eapply wp_mono; [apply (l2_for_spec s l1 a va Ha); unfold USER_VA_MIN in *; lia|].
  intros l2 s1 [[-> ->]|(Hne & a1 & Hg & Hp1 & Hl2)]; cbn beta.
  { rewrite Z.eqb_refl. wp_steps. auto. }
  rewrite (proj2 (Z.eqb_neq _ _)) by done. unfold mmu_clean_dcache_line. wp_steps. apply wp_put. wp_steps.
  rewrite l2_index_eq. right. split; [done|].
  pose proof (grown_mappable _ _ _ _ _ _ _ Hg Hp1 Hm) as [Ho Hr].
  destruct (owned_frame s1 pa (as_fa _ _ _ (gr_ok _ _ _ _ _ Hg)) Ho) as (Hal & Hpos & Htop).
  destruct (small_desc pa) as (-> & _); [plia|done|].
  exists (set_page a1 (vpn va) (Some pa)). split; [|by rewrite <- Hp1].
  eapply grown_trans; [exact Hg|]. eapply (grown_page s1 _ l1 a1 (vpn va) l2); try done.
  - apply Hg.
  - by apply user_vpn.
  - intros f [= <-]. done.
Qed.

Lemma vm_walk_eq s l1 a va :
  as_ok s l1 a -> 0 <= va < 2 ^ 32 ->
  vm_walk l1 va s = (match pages a !! vpn va with Some f => f + va mod 4096 | None => 0 end, s).
Proof.
  intros Ha Hva. unfold vm_walk, mbind, M_bind. pose proof (Z_div_mod_eq_full (vpn va) 256) as Hv.
  destruct (tabs a !! (vpn va / 256)) as [l2|] eqn:Hl2.
  - rewrite (l2_for_hit s l1 a va false l2) by done.
    destruct (as_frame s l1 a (RL2 _) l2 Ha Hl2) as (_ & Hp2 & _).
    rewrite (proj2 (Z.eqb_neq _ _)) by lia. unfold get, gets. rewrite l2_index_eq.
    rewrite (as_l2 _ _ _ Ha _ _ _ Hl2) by (unfold L2_ENTRIES; apply Z.mod_pos_bound; lia).
    rewrite <- Hv. destruct (pages a !! vpn va) as [f|] eqn:Hf; [|done].
    destruct (as_frame s l1 a (RPage _) f Ha Hf) as (Hal & Hp & Ht).
    destruct (small_desc f) as (_ & -> & ->); [plia|done|]. cbn [negb]. unfold mret, M_ret.
    change 0xFFF with (2 ^ 12 - 1). rewrite land_ones_mod by lia. rewrite (lor_add _ _ 12); [done|lia|done|].
    apply Z.mod_pos_bound. lia.
  - rewrite (l2_for_miss s l1 a va) by done. cbn.
    destruct (pages a !! vpn va) as [f|] eqn:Hf; [|done].
    apply (as_pages _ _ _ Ha) in Hf as [_ [t Ht]]. congruence.
Qed.

Lemma vm_unmap_page_spec s l1 a va :
  as_ok s l1 a -> 0 <= va < 2 ^ 32 ->
  wp (vm_unmap_page l1 va) s (fun r s' =>
    (r = -1 /\ s' = s /\ pages a !! vpn va = None) \/
    (r = 0 /\ is_Some (pages a !! vpn va) /\ grown s l1 a s' (set_page a (vpn va) None) /\
     fa (vphys s') = fa (vphys s) /\ hwlog s' = hwlog s ++ [TlbiMva (page_down va)])).
Proof.
  intros Ha Hva. unfold vm_unmap_page. wp_steps. unfold wp at 1. pose proof (Z_div_mod_eq_full (vpn va) 256) as Hv.
  destruct (tabs a !! (vpn va / 256)) as [l2|] eqn:Hl2.
  2: { rewrite (l2_for_miss s l1 a va) by done. cbn. left. split; [done|]. split; [done|].
       destruct (pages a !! vpn va) as [f|] eqn:Hf; [|done].
       apply (as_pages _ _ _ Ha) in Hf as [_ [t Ht]]. congruence. }
  rewrite (l2_for_hit s l1 a va false l2) by done. cbn [fst snd].
  destruct (as_frame s l1 a (RL2 _) l2 Ha Hl2) as (_ & Hp2 & _).
  rewrite (proj2 (Z.eqb_neq _ _)) by lia. unfold get, hw, mmu_clean_dcache_line. rewrite l2_index_eq. wp_steps.
  rewrite (as_l2 _ _ _ Ha _ _ _ Hl2) by (unfold L2_ENTRIES; apply Z.mod_pos_bound; lia).
  rewrite <- Hv. destruct (pages a !! vpn va) as [f|] eqn:Hf; cbn [negb L2_IS_VALID].
  - destruct (as_frame s l1 a (RPage _) f Ha Hf) as (Hal & Hp & Ht).
    destruct (small_desc f) as (_ & _ & ->); [plia|done|]. cbn [negb]. wp_steps. apply wp_put. wp_steps.
    right. split; [done|]. split; [by eexists|]. split; [|split; [done|]].
    + apply (grown_page s _ l1 a (vpn va) l2); try done. by apply (as_pages _ _ _ Ha) in Hf as [? _].
    + cbn. do 3 f_equal. by apply (land_lnot_ones va 12).
  - wp_steps. left. done.
Qed.

(** ** Teardown *)

(** [t] is [s] with the frames of the roles in [D] returned. *)
Definition freed l1 a (D : role -> Prop) s t : Prop :=
  fa_ok (fa (vphys t)) /\
  (forall g, owned t g <-> owned s g /\ ~ exists r, D r /\ frame_at l1 a r = Some g) /\
  wm t = wm s /\ l1_pa t = l1_pa s /\ hwlog t = hwlog s.

Lemma freed_iff l1 a (D D' : role -> Prop) s t :
  (forall r, is_Some (frame_at l1 a r) -> D r <-> D' r) -> freed l1 a D s t -> freed l1 a D' s t.
Proof.
  intros HD (Hok & Hown & Hr). split; [done|]. split; [|done]. intros g. rewrite Hown.
  split; intros [Ho Hn]; (split; [done|]); intros (r & Hdr & Hr'); apply Hn; exists r;
    (split; [by apply HD|done]).
Qed.

(** Returning one more frame. *)
Lemma free_role l1 a (D : role -> Prop) s t r f :
  as_ok s l1 a -> freed l1 a D s t -> frame_at l1 a r = Some f -> ~ D r ->
  wp (in_phys (fa_free_page f)) t (fun _ t' =>
    freed l1 a (fun q => D q \/ q = r) s t' /\ vm_pm t' = vm_pm t).
Proof.
  intros Ha (Hok & Hown & Hwm & Hb & Hhw) Hf HD. apply wp_zoom. eapply wp_mono.
  { apply fa_free_page_spec; [exact Hok|]. apply (Hown f). split; [by eapply as_own|].
    intros (q & Hq & Hqf). apply HD. by rewrite (as_inj _ _ _ Ha r q f). }
  intros [] ph (Hpm & Hok' & _ & Hown'). split; [|done]. split; [done|]. split; [|done].
  intros g. unfold owned at 1. cbn. rewrite Hown'. change (fa_owned (fa (vphys t)) g) with (owned t g).
  rewrite Hown. split.
  - intros [[Ho Hn] Hne]. split; [done|]. intros (q & [Hq|<-] & Hqg); [apply Hn; eauto|congruence].
  - intros [Ho Hn]. split; [split; [done|]|].
    + intros (q & Hq & Hqg). apply Hn. eauto.
    + intros <-. apply Hn. eauto.
Qed.

(** the roles [vm_destroy] has released before it looks at slot [i] *)
Definition below (i : Z) (r : role) : Prop :=
  match r with RL1 _ => False | RL2 j => j < i | RPage v => v / 256 < i end.

Lemma page_role i k : 0 <= k < 256 -> (256 * i + k) / 256 = i.
Proof. intros. Z.div_mod_to_equations. lia. Qed.

(** [m] shows the L2 tables as [s] had them. *)
Lemma l2_word_stable s l1 a m i l2 k :
  as_ok s l1 a -> mem_frame (in_range l1 L1_SIZE) (vm_pm s) m ->
  tabs a !! i = Some l2 -> 0 <= k < L2_ENTRIES ->
  ld32 m (l2 + 4 * k) = page_desc (pages a !! (256 * i + k)).
Proof.
  intros Ha Hm Hi Hk. unfold page_desc. rewrite <- (as_l2 _ _ _ Ha i l2 k Hi Hk). eapply ld32_frame; [exact Hm|].
  intros x Hx Hx'. destruct (l1_byte_frame l1 a x Hx') as (j & Hj & Hxj).
  assert (RL2 i = RL1 j); [|done]. eapply (roles_apart _ _ _ _ _ l2 _ x Ha); [done..| |done].
  unfold L2_ENTRIES in Hk. plia.
Qed.

Lemma destroy_l2_spec s l1 a t i l2 :
  as_ok s l1 a -> freed l1 a (below i) s t -> mem_frame (in_range l1 L1_SIZE) (vm_pm s) (vm_pm t) ->
  tabs a !! i = Some l2 ->
  wp (destroy_l2 l2) t (fun _ t' => freed l1 a (below (i + 1)) s t' /\ vm_pm t' = vm_pm t).
Proof.
  intros Ha Hfr Hm Hi. unfold destroy_l2. apply wp_bind. eapply wp_mono.
  - apply (wp_forM _ 0 1 _ t (fun k u => freed l1 a (fun r => below i r \/ exists j, 0 <= j < k /\ r = RPage (256 * i + j)) s u
      /\ vm_pm u = vm_pm t)).
    { split; [|done]. revert Hfr. apply freed_iff. intros r _. split; [auto|]. intros [?|(j & ? & _)]; [done|lia]. }
    intros k u Hk [Hu Hmu]. rewrite Z.add_0_l, Z.mul_1_r in *.
    assert (Hk' : 0 <= k < L2_ENTRIES) by (unfold L2_ENTRIES in *; lia).
    unfold get. wp_steps. rewrite Hmu, (l2_word_stable s l1 a _ i l2 k Ha Hm Hi Hk').
    destruct (pages a !! (256 * i + k)) as [f|] eqn:Hf; cbn [page_desc].
    + destruct (as_frame s l1 a (RPage _) f Ha Hf) as (Hal & Hp & Ht).
      destruct (small_desc f) as (_ & -> & ->); [plia|done|].
      eapply wp_mono; [apply (free_role l1 a _ s u (RPage (256 * i + k)) f Ha Hu Hf)|].
      { intros [Hb|(j & Hj & [= Heq])]; [|lia]. cbn in Hb. rewrite page_role in Hb by done. lia. }
      intros [] u' [Hu' Hmu']. split; [|congruence]. revert Hu'. apply freed_iff. intros r _. split.
      * intros [[?|(j & Hj & ->)]| ->]; [auto|right; exists j; split; [lia|done]|right; exists k; split; [lia|done]].
      * intros [?|(j & Hj & ->)]; [auto|]. destruct (decide (j = k)) as [->|]; [auto|].
        left. right. exists j. split; [lia|done].
    + wp_steps. split; [|done]. revert Hu. apply freed_iff. intros r [g Hr]. split.
      * intros [?|(j & Hj & ->)]; [auto|right; exists j; split; [lia|done]].
      * intros [?|(j & Hj & ->)]; [auto|]. destruct (decide (j = k)) as [->|]; [cbn in Hr; congruence|].
        right. exists j. split; [lia|done].
  - cbn beta. intros [] u [Hu Hmu].
    eapply wp_mono; [apply (free_role l1 a _ s u (RL2 i) l2 Ha Hu Hi)|].
    { intros [Hb|(j & _ & [=])]. cbn in Hb. lia. }
    intros [] u' [Hu' Hmu']. split; [|congruence]. revert Hu'. apply freed_iff. intros r [g Hr]. split.
    + intros [[Hb|(j & Hj & ->)]| ->]; [|unfold below; rewrite page_role by (unfold L2_ENTRIES in *; lia); lia|cbn; lia].
      destruct r; cbn in *; [done|lia..].
    + destruct r as [j|j|v]; cbn; [done|..]; intros Hlt.
      * destruct (decide (j = i)) as [->|]; [auto|left; left; lia].
      * destruct (decide (v / 256 = i)) as [Hv|]; [|left; left; lia]. left. right.
        exists (v mod 256). pose proof (Z_div_mod_eq_full v 256). pose proof (Z.mod_pos_bound v 256).
        split; [unfold L2_ENTRIES; lia|]. f_equal. lia.
Qed.

Lemma section_index k : 0 <= k < 1024 -> l1_index (0 + k * 0x100000) = k.
Proof. intros. unfold l1_index. rewrite Z.shiftr_div_pow2 by lia. Z.div_mod_to_equations. lia. Qed.

Lemma vm_destroy_spec s l1 a :
  as_ok s l1 a ->
  wp (vm_destroy l1) s (fun _ s' =>
    freed l1 a (fun _ => True) s s' /\ mem_frame (in_range l1 L1_SIZE) (vm_pm s) (vm_pm s')).
Proof.
  intros Ha. unfold vm_destroy. change (USER_VA_MIN .& .~ 0xFFFFF) with 0. apply wp_bind.
  pose proof (as_l1_range s l1 a Ha) as [Hl1p Hl1t]. eapply wp_mono.
  - apply (wp_forM _ 0 0x100000 _ s (fun va t =>
      freed l1 a (below (va / 0x100000)) s t /\ mem_frame (in_range l1 (4 * (va / 0x100000))) (vm_pm s) (vm_pm t))).
    { split; [|done]. change (0 / 0x100000) with 0. split; [apply Ha|]. split; [|done]. intros g. split; [|naive_solver].
      intros Ho. split; [done|]. intros ([j|j|v] & Hb & Hf); cbn in Hb, Hf; [done|..].
      - apply (as_tabs _ _ _ Ha) in Hf. lia.
      - apply (as_pages _ _ _ Ha) in Hf as [? _]. Z.div_mod_to_equations. lia. }
    intros k t Hk [Ht Hm]. change (Z.of_nat user_sections) with 1024 in Hk.
    rewrite section_index by done. rewrite !Z.add_0_l, !Z.div_mul in * by lia. unfold get. wp_steps.
    assert (Hd : ld32 (vm_pm t) (l1 + 4 * k) = match tabs a !! k with Some l2 => l2 + 1 | None => K k end).
    { rewrite <- (as_l1 _ _ _ Ha k) by (unfold L1_ENTRIES; lia). eapply ld32_frame; [exact Hm|]. unfold in_range. intros. lia. }
    rewrite Hd. destruct (tabs a !! k) as [l2|] eqn:Hl2.
    + destruct (as_frame s l1 a (RL2 k) l2 Ha Hl2) as (Hal & Hp & Htop).
      destruct (coarse_desc l2) as (_ & -> & ->); [plia|unfold aligned, PAGE_SIZE in *; Z.div_mod_to_equations; lia|].
      cbn [negb Z.eqb L1_TYPE_COARSE Pos.eqb]. apply wp_bind. eapply wp_mono.
      { apply (destroy_l2_spec s l1 a t k l2); try done. eapply mem_frame_mono; [exact Hm|].
        unfold in_range, L1_SIZE. lia. }
      intros [] u [Hu Hmu]. apply wp_put. split; [exact Hu|]. cbn. rewrite Hmu.
      apply mem_frame_st32_in; [|lia..]. eapply mem_frame_mono; [exact Hm|]. unfold in_range. lia.
    + unfold L1_TYPE_MASK, L1_TYPE_COARSE. rewrite land_type, (proj2 (Z.eqb_neq _ _)) by apply HK. cbn [negb].
      wp_steps. split; [|eapply mem_frame_mono; [exact Hm|]; unfold in_range; lia].
      revert Ht. apply freed_iff. intros [j|j|v] [g Hr]; cbn in *; [done|..].
      * assert (j <> k) by congruence. lia.
      * apply (as_pages _ _ _ Ha) in Hr as [_ [t' Ht']]. assert (v / 256 <> k) by congruence. lia.
  - cbn beta. intros [] t [Ht Hm].
    change ((0 + Z.of_nat user_sections * 0x100000) / 0x100000) with 1024 in *.
    eapply wp_mono.
    + apply (wp_forM _ 0 1 _ t (fun f u => freed l1 a (fun r => below 1024 r \/ exists j, 0 <= j < f /\ r = RL1 j) s u
        /\ vm_pm u = vm_pm t)).
      { split; [|done]. revert Ht. apply freed_iff. intros r _. split; [auto|]. intros [?|(j & ? & _)]; [done|lia]. }
      intros f u Hf [Hu Hmu]. rewrite Z.add_0_l, Z.mul_1_r in *.
      change (Z.of_nat (Z.to_nat (L1_SIZE / PAGE_SIZE))) with 4 in Hf.
      replace (l1 +w f *w PAGE_SIZE) with (frame_of l1 f).
      2: { unfold frame_of, PAGE_SIZE, L1_SIZE in *. rewrite (u32_small (f * 4096)), u32_small; [done|lia..]. }
      eapply wp_mono; [apply (free_role l1 a _ s u (RL1 f) (frame_of l1 f) Ha Hu)|].
      { cbn. by rewrite decide_True. }
      { intros [[]|(j & Hj & [= ->])]. lia. }
      intros [] u' [Hu' Hmu']. split; [|congruence]. revert Hu'. apply freed_iff. intros r _. split.
      * intros [[?|(j & Hj & ->)]| ->]; [auto|right; exists j; split; [lia|done]|right; exists f; split; [lia|done]].
      * intros [?|(j & Hj & ->)]; [auto|]. destruct (decide (j = f)) as [->|]; [auto|].
        left. right. exists j. split; [lia|done].
    + cbn beta. intros [] u [Hu Hmu]. rewrite Hmu. split.
      * revert Hu. apply freed_iff. intros [j|j|v] [g Hr]; cbn in Hr |- *; (split; [done|]); intros _.
        -- case_decide; [|done]. right. exists j. split; [done|done].
        -- left. apply (as_tabs _ _ _ Ha) in Hr. lia.
        -- left. apply (as_pages _ _ _ Ha) in Hr as [? _]. Z.div_mod_to_equations. lia.
      * eapply mem_frame_mono; [exact Hm|]. unfold in_range, L1_SIZE. lia.
Qed.

(** ** Several address spaces *)

(** No frame serves both. *)
Definition disjoint_as l1 a l1' b : Prop :=
  forall r r' f, frame_at l1 a r = Some f -> frame_at l1' b r' = Some f -> False.

(** [a] has grown into [a'], by fresh frames only: for tables or for pages. *)
Record ext s l1 a s' a' : Prop := {
  ex_ok : as_ok s' l1 a';
  ex_mono : forall f, owned s f -> owned s' f;
  ex_own : forall f, owned s' f -> owned s f \/ exists r, frame_at l1 a' r = Some f;
  ex_new : forall r f, frame_at l1 a' r = Some f -> frame_at l1 a r = Some f \/ ~ owned s f;
  ex_tabs : tabs a ⊆ tabs a';
  ex_pm : mem_frame (tbl_change s l1 a) (vm_pm s) (vm_pm s');
  ex_wm : mem_frame (tbl_change s l1 a) (wm s) (wm s');
  ex_base : l1_pa s' = l1_pa s;
}.

Lemma ext_refl s l1 a : as_ok s l1 a -> ext s l1 a s a.
Proof. intros Ha. split; try done; auto. Qed.

Lemma ext_change s l1 a s1 a1 x : ext s l1 a s1 a1 -> tbl_change s1 l1 a1 x -> tbl_change s l1 a x.
Proof.
  intros He [Hx|Hx]; [|right; intros Ho; apply Hx; by apply (ex_mono _ _ _ _ _ He)].
  destruct (tbl_byte_frame l1 a1 x Hx) as (r & f & Hf & Hxf & Hr).
  destruct (ex_new _ _ _ _ _ He r f Hf) as [Hfa|Hn].
  - left. destruct Hx as [Hx|(i & l2 & Hi & Hx)]; [by left|]. right. exists i, l2. split; [|done].
    assert (f = l2) as <-.
    { destruct (as_frame _ _ _ (RL2 i) l2 (ex_ok _ _ _ _ _ He) Hi).
      destruct (as_frame _ _ _ _ f (ex_ok _ _ _ _ _ He) Hf).
      eapply pages_apart; try done. unfold in_range, L2_SIZE, PAGE_SIZE in *. lia. }
    assert (r = RL2 i) as -> by (by eapply (as_inj _ _ _ (ex_ok _ _ _ _ _ He))). done.
  - right. destruct (as_frame _ _ _ _ f (ex_ok _ _ _ _ _ He) Hf) as (Hal & _).
    by rewrite (page_down_frame f x Hal Hxf).
Qed.

Lemma ext_trans s l1 a s1 a1 s2 a2 : ext s l1 a s1 a1 -> ext s1 l1 a1 s2 a2 -> 
  (forall r f, frame_at l1 a1 r = Some f -> owned s f \/ exists r', frame_at l1 a2 r' = Some f) ->
  ext s l1 a s2 a2.
Proof.
  intros H1 H2 Hkeep. split.
  - apply H2.
  - intros f Hf. by apply (ex_mono _ _ _ _ _ H2), (ex_mono _ _ _ _ _ H1).
  - intros f Hf. destruct (ex_own _ _ _ _ _ H2 f Hf) as [Hf1|]; [|auto].
    destruct (ex_own _ _ _ _ _ H1 f Hf1) as [|[r Hr]]; [auto|]. by eapply Hkeep.
  - intros r f Hf. destruct (ex_new _ _ _ _ _ H2 r f Hf) as [Hf1|Hn].
    + by apply (ex_new _ _ _ _ _ H1).
    + right. intros Ho. by apply Hn, (ex_mono _ _ _ _ _ H1).
  - etransitivity; [apply H1|apply H2].
  - eapply mem_frame_trans; [apply H1|]. eapply mem_frame_mono; [apply H2|]. intros x. by apply ext_change.
  - eapply mem_frame_trans; [apply H1|]. eapply mem_frame_mono; [apply H2|]. intros x. by apply ext_change.
  - etransitivity; [apply H2|apply H1].
Qed.

Lemma grown_role s l1 a s' a' r f :
  grown s l1 a s' a' -> frame_at l1 a' r = Some f -> (forall v, r <> RPage v) ->
  frame_at l1 a r = Some f \/ ~ owned s f.
Proof.
  intros Hg Hf Hr. destruct r as [j|i|v]; [by left| |by destruct (Hr v)].
  cbn in Hf |- *. destruct (tabs a !! i) as [g|] eqn:Hi.
  - left. pose proof (lookup_weaken _ _ _ _ Hi (gr_tabs _ _ _ _ _ Hg)). congruence.
  - right. by apply (gr_fresh _ _ _ _ _ Hg i).
Qed.

(** Bytes in frames of another address space are not touched. *)
Lemma other_untouched s l1 a l1' b r f x :
  as_ok s l1 a -> as_ok s l1' b -> disjoint_as l1 a l1' b ->
  frame_at l1' b r = Some f -> in_range f PAGE_SIZE x -> ~ tbl_change s l1 a x.
Proof.
  intros Ha Hb Hd Hf Hx [Hx'|Hx'].
  - destruct (tbl_byte_frame l1 a x Hx') as (q & g & Hg & Hxg & _). apply (Hd q r f); [|done].
    destruct (as_frame _ _ _ _ _ Ha Hg) as (Halg & _), (as_frame _ _ _ _ _ Hb Hf) as (Half & _).
    by rewrite (pages_apart f g x).
  - apply Hx'. destruct (as_frame _ _ _ _ _ Hb Hf) as (Half & _).
    rewrite (page_down_frame f x Half Hx). by eapply as_own.
Qed.

Lemma other_ok s s' l1 a l1' b :
  as_ok s l1 a -> as_ok s l1' b -> disjoint_as l1 a l1' b ->
  fa_ok (fa (vphys s')) -> (forall f, owned s f -> owned s' f) ->
  mem_frame (tbl_change s l1 a) (vm_pm s) (vm_pm s') -> mem_frame (tbl_change s l1 a) (wm s) (wm s') ->
  as_ok s' l1' b.
Proof.
  intros Ha Hb Hd Hfa Hmono Hpm Hwm. apply (as_ok_frame (tbl_change s l1 a) s); try done.
  - intros r f Hf. apply Hmono. by eapply as_own.
  - intros x Hx. destruct (tbl_byte_frame l1' b x Hx) as (r & f & Hf & Hxf & _).
    by eapply other_untouched.
Qed.

Lemma ext_other s l1 a s' a' l1' b :
  as_ok s l1 a -> ext s l1 a s' a' -> as_ok s l1' b -> disjoint_as l1 a l1' b ->
  as_ok s' l1' b /\ disjoint_as l1 a' l1' b.
Proof.
  intros Ha He Hb Hd. split.
  - apply (other_ok s s' l1 a); try done; apply He.
  - intros r r' f Hf Hf'. destruct (ex_new _ _ _ _ _ He r f Hf) as [Hr|Hn].
    + by apply (Hd r r' f).
    + apply Hn. by eapply as_own.
Qed.

(** Contents of the pages of any address space in [s] survive. *)
Lemma ext_page_data s l1 a s' a' v f x :
  ext s l1 a s' a' -> as_ok s l1 a -> pages a !! v = Some f -> in_range f PAGE_SIZE x ->
  ldb (vm_pm s') x = ldb (vm_pm s) x.
Proof.
  intros He Ha Hf Hx. apply (ex_pm _ _ _ _ _ He). intros [Hx'|Hx'].
  - destruct (tbl_byte_frame l1 a x Hx') as (q & g & Hg & Hxg & Hq). apply (Hq v).
    symmetry. by eapply (roles_apart s l1 a (RPage v) q f g x).
  - apply Hx'. destruct (as_frame _ _ _ (RPage v) _ Ha Hf) as (Half & _).
    rewrite (page_down_frame f x Half Hx). by apply (as_own _ _ _ Ha (RPage v)).
Qed.

(** ** Creation *)

Lemma ld32_bytes m p m' q j :
  ld32 m p = ld32 m' q -> 0 <= j < 4 -> ldb m (p + j) = ldb m' (q + j).
Proof.
  unfold ld32. intros Heq Hj.
  pose proof (ldb_range m p). pose proof (ldb_range m (p + 1)). pose proof (ldb_range m (p + 2)).
  pose proof (ldb_range m (p + 3)). pose proof (ldb_range m' q). pose proof (ldb_range m' (q + 1)).
  pose proof (ldb_range m' (q + 2)). pose proof (ldb_range m' (q + 3)).
  assert (j = 0 \/ j = 1 \/ j = 2 \/ j = 3) as [->|[->|[->| ->]]] by lia; rewrite ?Z.add_0_r; lia.
Qed.

(** [for (i = 0; i < n; i++) dst[i] = src[i]] *)
Lemma copy_words n dst src s :
  (forall x, in_range src (4 * Z.of_nat n) x -> ~ in_range dst (4 * Z.of_nat n) x) ->
  wp (forM n 0 1 (fun i => d ← get src i; put dst i d)) s (fun _ s' =>
    only_pm (in_range dst (4 * Z.of_nat n)) s s' /\
    forall i, 0 <= i < Z.of_nat n -> ld32 (vm_pm s') (dst + 4 * i) = ld32 (vm_pm s) (src + 4 * i)).
Proof.
  intros Hd. eapply wp_mono.
  - apply (store_words n dst (get src) (fun i => ld32 (vm_pm s) (src + 4 * i))).
    intros i t Hi (_ & _ & _ & _ & Ht). unfold get, gets. f_equal.
    eapply ld32_frame; [exact Ht|]. intros x Hx. apply Hd. unfold in_range in *. lia.
  - intros [] s' [Ho Hw]. split; [done|]. intros i Hi. rewrite Hw by done. apply u32_small, ld32_range.
Qed.

(** frames [l1 .. l1+3] *)
Definition l1_frames l1 (f : Z) : Prop := exists j, 0 <= j < 4 /\ f = frame_of l1 j.

Lemma as_ok_empty s l1 :
  fa_ok (fa (vphys s)) -> aligned L1_ALIGN l1 -> (forall f, l1_frames l1 f -> owned s f) ->
  (forall i, 0 <= i < L1_ENTRIES -> ld32 (vm_pm s) (l1 + 4 * i) = K i) ->
  (forall x, in_range l1 L1_SIZE x -> ldb (wm s) x = ldb (vm_pm s) x) ->
  as_ok s l1 (AS ∅ ∅).
Proof.
  intros Hfa Hal Hown Hw Hcoh.
  assert (Hrole : forall r f, frame_at l1 (AS ∅ ∅) r = Some f -> exists j, r = RL1 j /\ 0 <= j < 4 /\ f = frame_of l1 j).
  { intros [j|j|j] f; cbn; [|rewrite lookup_empty; done..]. case_decide; [|done]. intros [= <-]. eauto. }
  split; try done.
  - intros r f Hf. apply Hown. destruct (Hrole r f Hf) as (j & _ & ?). by exists j.
  - intros r r' f Hf Hf'. destruct (Hrole r f Hf) as (j & -> & _ & ->), (Hrole r' _ Hf') as (j' & -> & _ & ?). f_equal. plia.
  - intros x [Hx|(i & l2 & Hi & _)]; [by apply Hcoh|]. cbn in Hi. by rewrite lookup_empty in Hi.
Qed.

(** Outcome of [vm_create]: an address space without user pages, on fresh frames. *)
Definition created s l1 s' : Prop :=
  0 < l1 /\ as_ok s' l1 (AS ∅ ∅) /\
  (forall f, owned s' f <-> owned s f \/ l1_frames l1 f) /\ (forall f, l1_frames l1 f -> ~ owned s f) /\
  mem_frame (in_range l1 L1_SIZE) (vm_pm s) (vm_pm s') /\
  mem_frame (in_range l1 L1_SIZE) (wm s) (wm s') /\ l1_pa s' = l1_pa s.

Lemma vm_create_spec s :
  kern_ok s -> wp vm_create s (fun l1 s' => (l1 = 0 /\ s' = s) \/ created s l1 s').
Proof.
  intros Hk. unfold vm_create, in_phys. wp_steps. eapply wp_mono.
  { apply (fa_alloc_aligned_spec 4 14); [apply Hk|lia..]. }
  intros l1 ph [(Hfa & _ & [[-> ->]|(Hl1 & Hfr & Hown & _ & Hf)]) Hal]; cbn beta.
  { rewrite Z.eqb_refl, set_vphys_id. wp_steps. auto. }
  rewrite (proj2 (Z.eqb_neq _ _)) by lia. unfold mmu_l1_base. wp_steps.
  set (s1 := set_vphys ph s).
  assert (Hpm1 : vm_pm s1 = pm ph) by done. assert (Hs1 : wm s1 = wm s /\ l1_pa s1 = l1_pa s /\ fa (vphys s1) = fa ph) by done.
  destruct Hs1 as (Hwm1 & Hb1 & Hfa1). clearbody s1. rewrite Hb1.
  change (4 * PAGE_SIZE) with L1_SIZE in Hf.
  assert (Hfresh : forall f, l1_frames l1 f -> ~ owned s f) by (intros f (j & Hj & ->); apply (Hfr j Hj)).
  destruct (owned_frame s1 (frame_of l1 3)) as (_ & _ & Htop); [by rewrite Hfa1|unfold owned; rewrite Hfa1, Hown; right; by exists 3|].
  assert (Hapart : forall x, in_range (l1_pa s) L1_SIZE x -> ~ in_range l1 L1_SIZE x).
  { intros x Hx Hx'. destruct (l1_byte_frame (l1_pa s) (AS ∅ ∅) x Hx) as (j & Hj & Hxj).
    destruct (l1_byte_frame l1 (AS ∅ ∅) x Hx') as (i & Hi & Hxi). cbn in Hi, Hj.
    case_decide; [|done]. case_decide; [|done].
    destruct (owned_frame s _ (ko_fa _ Hk) (ko_own _ Hk j ltac:(done))) as (Halj & _).
    destruct (Hfr i ltac:(done)) as [Hwi _]. destruct (fa_window_frame _ _ (ko_fa _ Hk) Hwi) as (Hali & _).
    apply (Hfresh (frame_of l1 i)); [by exists i|]. rewrite <- (pages_apart _ _ _ Halj Hali Hxj Hxi).
    by apply (ko_own _ Hk). }
  eapply wp_mono.
  { apply (copy_words (Z.to_nat L1_ENTRIES) l1 (l1_pa s)). exact Hapart. }
  intros [] s2 [(Hfa2 & Hwm2 & Hb2 & _ & Hf2) Hw2]. change (4 * Z.of_nat (Z.to_nat L1_ENTRIES)) with L1_SIZE in Hf2.
  wp_steps. eapply wp_mono.
  { apply (clean_table_spec l1 512 s2); try plia. unfold aligned in *. Z.div_mod_to_equations. lia. }
  intros [] s3 (Hph3 & Hb3 & _ & Hwm3). change (32 * 512) with L1_SIZE in Hwm3. wp_steps. right.
  assert (Hpm3 : vm_pm s3 = vm_pm s2) by (unfold vm_pm; by rewrite Hph3).
  assert (Hown3 : forall f, owned s3 f <-> owned s f \/ l1_frames l1 f).
  { intros f. unfold owned at 1. rewrite Hph3, Hfa2, Hfa1. apply Hown. }
  assert (Hf3 : mem_frame (in_range l1 L1_SIZE) (vm_pm s) (vm_pm s3)).
  { rewrite Hpm3. eapply mem_frame_trans; [exact Hf|]. by rewrite <- Hpm1. }
  split; [done|]. split.
  - apply as_ok_empty.
    + by rewrite Hph3, Hfa2, Hfa1.
    + done.
    + intros f Hff. apply Hown3. by right.
    + intros i Hi. rewrite Hpm3, Hw2 by (unfold L1_ENTRIES in *; lia). rewrite <- (ko_l1 _ Hk i Hi).
      eapply ld32_frame; [rewrite Hpm1; exact Hf|]. intros x Hx. apply Hapart.
      unfold in_range, L1_ENTRIES, L1_SIZE in *. lia.
    + intros x Hx. rewrite Hwm3, decide_True, Hpm3 by done. done.
  - split; [done|]. split; [done|]. split; [done|]. split; [|congruence].
    intros x Hx. rewrite Hwm3, decide_False by done. by rewrite Hwm2, Hwm1.
Qed.

(** ** Mapping a fresh frame *)

(** [t] is [s] with frame [pa] taken and possibly written. *)
Definition fresh_page s (pa : Z) t : Prop :=
  ~ owned s pa /\ fa_ok (fa (vphys t)) /\ (forall f, owned t f <-> owned s f \/ f = pa) /\
  mem_frame (in_range pa PAGE_SIZE) (vm_pm s) (vm_pm t) /\
  wm t = wm s /\ l1_pa t = l1_pa s /\ hwlog t = hwlog s.

Lemma vm_alloc_page_spec s :
  fa_ok (fa (vphys s)) ->
  wp (in_phys fa_alloc_page) s (fun pa t =>
    (pa = 0 /\ t = s) \/ (0 < pa /\ fresh_page s pa t /\ zeroed (vm_pm t) pa PAGE_SIZE)).
Proof.
  intros Hok. apply wp_zoom. eapply wp_mono; [by apply fa_alloc_page_spec|].
  intros pa ph (Hfa & _ & [[-> ->]|(Hpa & Hfr & Hown & Hz & Hf)]).
  { left. by rewrite set_vphys_id. }
  right. split; [done|]. rewrite Z.mul_1_l in *. split; [|done].
  specialize (Hfr 0 ltac:(lia)) as [_ Hn]. replace (frame_of pa 0) with pa in Hn by plia.
  split; [done|]. split; [done|]. split; [|done]. intros f. unfold owned at 1. cbn. rewrite Hown. split.
  - intros [?|(i & Hi & ->)]; [auto|right; plia].
  - intros [?| ->]; [auto|right]. exists 0. split; [lia|plia].
Qed.

Lemma fresh_page_write s pa t t' :
  fresh_page s pa t -> only_pm (in_range pa PAGE_SIZE) t t' -> fresh_page s pa t'.
Proof.
  intros (H1 & H2 & H3 & H4 & H5 & H6 & H7) (E1 & E2 & E3 & E4 & E5).
  split; [done|]. split; [by rewrite E1|]. split; [intros f; unfold owned at 1; rewrite E1; apply H3|].
  split; [by eapply mem_frame_trans|]. split; [congruence|]. split; congruence.
Qed.

Lemma fresh_page_frame s pa t : fresh_page s pa t -> aligned PAGE_SIZE pa /\ 0 < pa /\ pa + PAGE_SIZE <= 2 ^ 32.
Proof. intros (_ & Hfa & Hown & _). apply (owned_frame t); [done|]. apply Hown. by right. Qed.

(** Owned bytes are not in the fresh frame. *)
Lemma fresh_page_apart s pa t x : fresh_page s pa t -> owned s (page_down x) -> ~ in_range pa PAGE_SIZE x.
Proof.
  intros Hf Hx Hx'. pose proof (fresh_page_frame _ _ _ Hf) as (Hal & _). destruct Hf as (Hn & _).
  apply Hn. by rewrite <- (page_down_frame pa x).
Qed.

Lemma as_ok_fresh s l1 a pa t : as_ok s l1 a -> fresh_page s pa t -> as_ok t l1 a.
Proof.
  intros Ha Hf. pose proof Hf as (Hn & Hfa & Hown & Hpm & Hwm & _).
  apply (as_ok_frame (in_range pa PAGE_SIZE) s); try done.
  - intros r f Hr. apply Hown. left. by eapply as_own.
  - by rewrite Hwm.
  - intros x Hx. eapply fresh_page_apart; [done|]. by eapply tbl_byte_owned.
Qed.

Lemma mappable_fresh s l1 a pa t v : as_ok s l1 a -> fresh_page s pa t -> mappable t l1 a v pa.
Proof.
  intros Ha (Hn & _ & Hown & _). split; [apply Hown; by right|]. intros r Hr. exfalso. apply Hn. by eapply as_own.
Qed.

Lemma ext_map_fresh s l1 a pa t t' a' v :
  as_ok s l1 a -> fresh_page s pa t -> grown t l1 a t' a' -> pages a' = <[v := pa]> (pages a) ->
  ext s l1 a t' a' /\ (forall x, in_range pa PAGE_SIZE x -> ldb (vm_pm t') x = ldb (vm_pm t) x).
Proof.
  intros Ha Hf Hg Hp. pose proof (as_ok_fresh _ _ _ _ _ Ha Hf) as Hat.
  pose proof Hf as (Hn & Hfa & Hown & Hpm & Hwm & Hb & _).
  pose proof (fresh_page_frame _ _ _ Hf) as (Hal & _).
  assert (Hmono : forall f, owned s f -> owned t f) by (intros f Ho; apply Hown; by left).
  assert (Hch : forall x, tbl_change t l1 a x -> tbl_change s l1 a x).
  { intros x [Hx|Hx]; [by left|right]. intros Ho. by apply Hx, Hmono. }
  split.
  - split.
    + apply Hg.
    + intros f Ho. apply (gr_own _ _ _ _ _ Hg). left. by apply Hmono.
    + intros f Ho. apply (gr_own _ _ _ _ _ Hg) in Ho as [Ho|(i & _ & Hi)]; [|right; by exists (RL2 i)].
      apply Hown in Ho as [?| ->]; [by left|right]. exists (RPage v). cbn. rewrite Hp. apply lookup_insert_eq.
    + intros r f Hr. destruct r as [j|i|w].
      * by left.
      * destruct (grown_role _ _ _ _ _ _ _ Hg Hr) as [?|Hno]; [done|by left|]. right. intros Ho. by apply Hno, Hmono.
      * cbn in Hr |- *. rewrite Hp in Hr. apply lookup_insert_Some in Hr as [[<- <-]|[_ ?]]; [by right|by left].
    + apply Hg.
    + eapply mem_frame_trans.
      * eapply mem_frame_mono; [exact Hpm|]. intros x Hx. right. intros Ho. by apply (fresh_page_apart _ _ _ _ Hf Ho).
      * eapply mem_frame_mono; [apply Hg|exact Hch].
    + rewrite <- Hwm. eapply mem_frame_mono; [apply Hg|exact Hch].
    + rewrite <- Hb. apply Hg.
  - intros x Hx. apply (gr_pm _ _ _ _ _ Hg). intros [Hx'|Hx'].
    + apply (fresh_page_apart _ _ _ x Hf); [|done]. by eapply tbl_byte_owned.
    + apply Hx'. rewrite (page_down_frame pa x Hal Hx). apply Hown. by right.
Qed.

(** ** Copying *)

Lemma copy_page_spec s np src t :
  fresh_page s np t -> aligned PAGE_SIZE src -> owned s src ->
  wp (copy_page np src) t (fun _ t' =>
    fresh_page s np t' /\ forall x, 0 <= x < PAGE_SIZE -> ldb (vm_pm t') (np + x) = ldb (vm_pm s) (src + x)).
Proof.
  intros Hf Hal Ho. unfold copy_page.
  assert (Hap : forall x, in_range src PAGE_SIZE x -> ~ in_range np PAGE_SIZE x).
  { intros x Hx. apply (fresh_page_apart _ _ _ _ Hf). by rewrite (page_down_frame src x). }
  eapply wp_mono; [by apply copy_words|]. cbn beta. intros [] t' [Hpm Hw].
  change (4 * Z.of_nat (Z.to_nat (PAGE_SIZE / 4))) with PAGE_SIZE in Hpm.
  change (Z.of_nat (Z.to_nat (PAGE_SIZE / 4))) with 1024 in Hw.
  split; [by eapply fresh_page_write|]. intros x Hx. unfold PAGE_SIZE in Hx.
  replace (np + x) with (np + 4 * (x / 4) + x mod 4) by (Z.div_mod_to_equations; lia).
  replace (src + x) with (src + 4 * (x / 4) + x mod 4) by (Z.div_mod_to_equations; lia).
  assert (Hi : 0 <= x / 4 < 1024) by (Z.div_mod_to_equations; lia).
  apply ld32_bytes; [|apply Z.mod_pos_bound; lia]. rewrite Hw by done.
  destruct Hf as (_ & _ & _ & Hfm & _). eapply ld32_frame; [exact Hfm|]. intros y Hy. apply Hap. plia.
Qed.

Section copy.
Context (s0 : vms A) (dst : Z) (d : aspace) (src : Z) (sa : aspace).
Context (Hdst : as_ok s0 dst d) (Hsrc : as_ok s0 src sa) (Hdis : disjoint_as dst d src sa).
Implicit Types (t : vms A).

(** [g] holds, in [t], what [f] held before the copy. *)
Definition same_page t (g f : Z) : Prop :=
  forall x, 0 <= x < PAGE_SIZE -> ldb (vm_pm t) (g + x) = ldb (vm_pm s0) (f + x).

(** Pages below [V] have been copied. *)
Definition copied (V : Z) t (d' : aspace) : Prop :=
  ext s0 dst d t d' /\
  (forall v f, v < V -> pages sa !! v = Some f -> exists g, pages d' !! v = Some g /\ same_page t g f) /\
  (forall v, V <= v \/ pages sa !! v = None -> pages d' !! v = pages d !! v).

Definition copy_inv (V : Z) t : Prop := exists d', copied V t d'.

(** Where a failed copy leaves things: both address spaces can still be used
    and torn down. *)
Definition copy_failed t : Prop :=
  exists d', as_ok t dst d' /\ as_ok t src sa /\ disjoint_as dst d' src sa /\
    mem_frame (tbl_change s0 dst d) (vm_pm s0) (vm_pm t) /\ (forall f, owned s0 f -> owned t f).

Lemma copied_src V t d' : copied V t d' -> as_ok t src sa /\ disjoint_as dst d' src sa.
Proof. intros (He & _). by eapply ext_other. Qed.

Lemma copied_failed V t d' : copied V t d' -> copy_failed t.
Proof.
  intros Hc. destruct (copied_src _ _ _ Hc). destruct Hc as (He & _). exists d'.
  split; [apply He|]. split; [done|]. split; [done|]. split; apply He.
Qed.

Lemma copied_skip V t d' : copied V t d' -> pages sa !! V = None -> copied (V + 1) t d'.
Proof.
  intros (He & H1 & H2) Hn. split; [done|]. split.
  - intros v f Hv Hf. assert (v <> V) by congruence. apply H1; [lia|done].
  - intros v [Hv|Hv]; apply H2; [left; lia|by right].
Qed.

(** One page copied. *)
Lemma copied_step V t d' np t2 t3 d3 f :
  copied V t d' -> pages sa !! V = Some f -> fresh_page t np t2 ->
  (forall x, 0 <= x < PAGE_SIZE -> ldb (vm_pm t2) (np + x) = ldb (vm_pm t) (f + x)) ->
  grown t2 dst d' t3 d3 -> pages d3 = <[V := np]> (pages d') -> copied (V + 1) t3 d3.
Proof.
  intros (He & H1 & H2) Hf Hfr Hdata Hg Hp.
  pose proof (ex_ok _ _ _ _ _ He) as Hok'.
  destruct (ext_map_fresh _ _ _ _ _ _ _ _ Hok' Hfr Hg Hp) as [He3 Hkeep].
  assert (Hsrcdata : forall v g x, pages sa !! v = Some g -> in_range g PAGE_SIZE x ->
    ldb (vm_pm t) x = ldb (vm_pm s0) x).
  { intros v g x Hv Hx. apply (ex_pm _ _ _ _ _ He). by eapply (other_untouched s0 dst d src sa (RPage v)). }
  split; [|split].
  - eapply ext_trans; [exact He|exact He3|]. intros r g Hr.
    destruct (decide (r = RPage V)) as [->|Hne].
    + left. apply (as_own _ _ _ Hdst (RPage V)). cbn in Hr |- *. rewrite <- H2; [done|left; lia].
    + right. exists r. destruct r as [j|i|w]; [done|..]; cbn in Hr |- *.
      * by apply (lookup_weaken _ _ _ _ Hr (gr_tabs _ _ _ _ _ Hg)).
      * rewrite Hp, lookup_insert_ne; [done|congruence].
  - intros v g Hv Hg'. rewrite Hp. destruct (decide (v = V)) as [->|Hne].
    + exists np. rewrite lookup_insert_eq. split; [done|]. intros x Hx.
      rewrite Hkeep by plia. rewrite Hdata by done. assert (f = g) as -> by congruence.
      eapply Hsrcdata; [done|plia].
    + rewrite lookup_insert_ne by done. destruct (H1 v g) as (h & Hh & Hs); [lia|done|].
      exists h. split; [done|]. intros x Hx. rewrite <- Hs by done.
      apply (ext_page_data _ _ _ _ _ v h _ He3 Hok' Hh). plia.
  - intros v Hv. rewrite Hp, lookup_insert_ne.
    + apply H2. destruct Hv; [left; lia|by right].
    + intros <-. destruct Hv; [lia|congruence].
Qed.

Lemma page_va_eq i k :
  0 <= i < 1024 -> 0 <= k < 256 ->
  ((0 + i * 0x100000) .& 0xFFF00000) .| (k .<< 12) = 4096 * (256 * i + k).
Proof.
  intros Hi Hk. rewrite land_1m by lia. unfold u32. rewrite Z.shiftl_mul_pow2, (Z.mod_small (k * 2 ^ 12)) by lia.
  replace ((0 + i * 0x100000) - (0 + i * 0x100000) mod 2 ^ 20) with (i * 2 ^ 20).
  2: { rewrite Z.add_0_l. change 0x100000 with (2 ^ 20). rewrite Z_mod_mult. lia. }
  rewrite (lor_add _ _ 20); [lia|lia| |lia]. unfold aligned. apply Z_mod_mult.
Qed.

(** The body of the inner loop, at slot [k] of section [i]. *)
Lemma copy_slot_spec i k st t d' :
  copied (256 * i + k) t d' -> tabs sa !! i = Some st -> 0 <= k < 256 ->
  wp (e ← get st k;
      if negb (L2_IS_VALID e) then mret None
      else
        np ← in_phys fa_alloc_page;
        if np =? 0 then mret (Some (-1))
        else
          copy_page np (L2_SMALL_BASE e) ≫= fun _ =>
          rc ← vm_map_page dst (((0 + i * 0x100000) .& 0xFFF00000) .| (k .<< 12)) np;
          if negb (rc =? 0) then mret (Some (-2)) else mret None) t
    (fun o t' => match o with
                 | Some r => r <> 0 /\ copy_failed t'
                 | None => copy_inv (256 * i + (k + 1)) t'
                 end).
Proof.
  intros Hc Hst Hk. destruct (copied_src _ _ _ Hc) as [Hsrc' Hdis']. pose proof (as_tabs _ _ _ Hsrc' _ _ Hst) as Hi.
  pose proof Hc as (He & _). pose proof (ex_ok _ _ _ _ _ He) as Hok'.
  unfold get. wp_steps. rewrite (as_l2 _ _ _ Hsrc' i st k Hst Hk).
  replace (256 * i + (k + 1)) with (256 * i + k + 1) by lia.
  destruct (pages sa !! (256 * i + k)) as [f|] eqn:Hf.
  2: { cbn [negb L2_IS_VALID]. wp_steps. exists d'. by apply copied_skip. }
  destruct (as_frame _ _ _ (RPage _) f Hsrc' Hf) as (Hal & Hp & Ht).
  destruct (small_desc f) as (_ & -> & ->); [plia|done|]. cbn [negb]. apply wp_bind.
  eapply wp_mono; [apply vm_alloc_page_spec, Hok'|].
  intros np t1 [[-> ->]|(Hnp & Hfr & _)]; cbn beta.
  { rewrite Z.eqb_refl. wp_steps. split; [lia|]. by eapply copied_failed. }
  rewrite (proj2 (Z.eqb_neq _ _)) by lia. apply wp_bind.
  eapply wp_mono; [apply (copy_page_spec t np f t1 Hfr Hal); by apply (as_own _ _ _ Hsrc' (RPage (256 * i + k)))|].
  intros [] t2 [Hfr2 Hdata]. rewrite page_va_eq by done. apply wp_bind.
  assert (Hvpn : vpn (4096 * (256 * i + k)) = 256 * i + k).
  { unfold vpn. rewrite Z.mul_comm, Z.div_mul by lia. done. }
  pose proof (as_pages _ _ _ Hsrc' _ _ Hf) as [Hvr _].
  eapply wp_mono.
  { apply (vm_map_page_spec t2 dst d').
    - by eapply as_ok_fresh.
    - unfold USER_VA_MIN, USER_VA_MAX. lia.
    - rewrite Hvpn. by eapply mappable_fresh. }
  rewrite Hvpn. intros r t3 [[-> ->]|(-> & d3 & Hg & Hp3)]; cbn beta.
  - cbn [negb Z.eqb]. wp_steps. split; [lia|]. exists d'.
    split; [by eapply as_ok_fresh|]. split; [by eapply as_ok_fresh|]. split; [done|].
    destruct Hfr2 as (_ & _ & Hown & Hpm & _). split.
    + eapply mem_frame_trans; [apply He|]. eapply mem_frame_mono; [exact Hpm|]. intros x Hx. right. intros Ho.
      apply (fresh_page_apart _ _ _ x Hfr); [by apply (ex_mono _ _ _ _ _ He)|done].
    + intros g Hg. apply Hown. left. by apply (ex_mono _ _ _ _ _ He).
  - cbn [negb Z.eqb]. wp_steps. exists d3. by eapply copied_step.
Qed.

Lemma vm_copy_spec :
  wp (vm_copy dst src) s0 (fun r t =>
    (r = 0 /\ copy_inv (2 ^ 18) t) \/ (r <> 0 /\ copy_failed t)).
Proof.
  unfold vm_copy. change (USER_VA_MIN .& .~ 0xFFFFF) with 0. apply wp_bind.
  eapply wp_mono; [apply (wp_forR _ 0 0x100000 _ s0 (fun va t => copy_inv (256 * (va / 0x100000)) t)
    (fun o t => match o with Some r => r <> 0 /\ copy_failed t | None => copy_inv (2 ^ 18) t end))|].
  - exists d. split; [by apply ext_refl|]. split; [|done]. change (256 * (0 / 0x100000)) with 0. intros v f Hv Hf.
    apply (as_pages _ _ _ Hsrc) in Hf as [? _]. lia.
  - intros i t Hi (d' & Hc). change (Z.of_nat user_sections) with 1024 in Hi.
    rewrite section_index by done. rewrite Z.add_0_l, Z.div_mul in Hc by lia.
    eapply (wp_mono _ _ (fun o u => match o with
      | Some r => r <> 0 /\ copy_failed u | None => copy_inv (256 * (i + 1)) u end)).
    2: { intros [r|] u Hu; [done|]. by rewrite Z.add_0_l, Z.div_mul by lia. }
    apply wp_bind, wp_get. destruct (copied_src _ _ _ Hc) as [Hsrc' _].
    rewrite (as_l1 _ _ _ Hsrc' i) by (unfold L1_ENTRIES; lia).
    destruct (tabs sa !! i) as [st|] eqn:Hst.
    + destruct (as_frame _ _ _ (RL2 i) st Hsrc' Hst) as (Hal & Hp & Htop).
      destruct (coarse_desc st) as (_ & -> & ->); [plia|unfold aligned, PAGE_SIZE in *; Z.div_mod_to_equations; lia|].
      cbn [negb Z.eqb L1_TYPE_COARSE Pos.eqb].
      apply (wp_forR _ 0 1 _ t (fun k u => copy_inv (256 * i + k) u)).
      * exists d'. by rewrite Z.add_0_r.
      * intros k u Hk (du & Hcu). rewrite !Z.add_0_l, !Z.mul_1_r in *.
        rewrite <- (Z.add_0_l (i * 0x100000)). apply (copy_slot_spec i k st u du); try done.
      * intros u. rewrite Z.add_0_l, Z.mul_1_r. change (Z.of_nat (Z.to_nat L2_ENTRIES)) with 256.
        by replace (256 * i + 256) with (256 * (i + 1)) by lia.
    + unfold L1_TYPE_MASK, L1_TYPE_COARSE. rewrite land_type, (proj2 (Z.eqb_neq _ _)) by apply HK. cbn [negb].
      wp_steps. exists d'. destruct Hc as (He & H1 & H2).
      assert (Hnone : forall v f, pages sa !! v = Some f -> v / 256 <> i).
      { intros v f Hv Heq. apply (as_pages _ _ _ Hsrc') in Hv as [_ [x Hx]]. congruence. }
      split; [done|]. split.
      * intros v f Hv Hf. apply H1; [|done]. pose proof (Hnone v f Hf). Z.div_mod_to_equations. lia.
      * intros v [Hv|Hv]; apply H2; [left; lia|by right].
  - intros t Ht. done.
  - intros [r|] t Ht; cbn beta; wp_steps; cbn; [by right|by left].
Qed.
End copy.

(** * The hardware's view *)

(** A translation of the ARMv7 short-descriptor walker: [user] says whether
    unprivileged code may read and write (AP[2:0] = 0b011). *)
Inductive xlat := HFault | HSection (pa : Z) (user : bool) | HPage (pa : Z) (user : bool).

Definition sect_user (d : Z) : bool := (((d .>> 10) .& 3) =? 3) && negb (Z.testbit d 15).
Definition page_user (e : Z) : bool := (((e .>> 4) .& 3) =? 3) && negb (Z.testbit e 9).

(** Tables are read from [w], the memory behind the cache. *)
Definition hw_walk (w : mem) (ttbr0 va : Z) : xlat :=
  let d := ld32 w (ttbr0 + 4 * (va / 2 ^ 20)) in
  if d mod 4 =? 1 then
    let e := ld32 w (d - d mod 1024 + 4 * ((va / 4096) mod 256)) in
    if Z.testbit e 1 then HPage (e - e mod 4096 + va mod 4096) (page_user e) else HFault
  else if d mod 4 =? 2 then HSection (d - d mod 2 ^ 20 + va mod 2 ^ 20) (sect_user d)
  else HFault.

Lemma ld32_ext m m' p : (forall x, in_range p 4 x -> ldb m x = ldb m' x) -> ld32 m p = ld32 m' p.
Proof. intros H. unfold ld32. rewrite !H; [done|unfold in_range; lia..]. Qed.

Lemma page_desc_user f :
  0 <= f -> aligned PAGE_SIZE f ->
  Z.testbit (f + 0x7E) 1 = true /\ page_user (f + 0x7E) = true /\ (f + 0x7E) - (f + 0x7E) mod 4096 = f.
Proof.
  intros H0 Ha. rewrite <- (lor_add f 0x7E 12) by (done || lia).
  assert (Hb : forall n, 0 <= n < 12 -> Z.testbit f n = false).
  { intros n Hn. rewrite <- (Z.mod_pow2_bits_low f 12 n) by lia. unfold aligned in Ha.
    change (2 ^ 12) with PAGE_SIZE. rewrite Ha. apply Z.bits_0. }
  split; [by rewrite Z.lor_spec, (Hb 1) by lia|]. split.
  - unfold page_user. rewrite Z.lor_spec, (Hb 9) by lia. cbn [orb negb].
    rewrite andb_true_r. apply Z.eqb_eq, Z.bits_inj'. intros n Hn.
    rewrite Z.land_spec, Z.shiftr_spec, Z.lor_spec by lia.
    destruct (decide (n < 2)) as [Hn2|Hn2].
    + rewrite Hb by lia. by assert (n = 0 \/ n = 1) as [->| ->] by lia.
    + rewrite (Z.bits_above_log2 3 n) by (cbn; lia). apply andb_false_r.
  - rewrite (lor_add f 0x7E 12) by (done || lia). unfold aligned, PAGE_SIZE in Ha. Z.div_mod_to_equations. lia.
Qed.

(** The walker sees the address space: user pages as mapped, user-accessible;
    no page elsewhere. *)
Lemma hw_walk_eq s l1 a va :
  as_ok s l1 a -> 0 <= va < 2 ^ 32 ->
  hw_walk (wm s) l1 va =
  match pages a !! vpn va with
  | Some f => HPage (f + va mod 4096) true
  | None =>
      match tabs a !! (vpn va / 256) with
      | Some _ => HFault
      | None => hw_walk (wm s) l1 va
      end
  end.
Proof.
  intros Ha Hva. pose proof (Z_div_mod_eq_full (vpn va) 256) as Hv.
  destruct (tabs a !! (vpn va / 256)) as [l2|] eqn:Hl2.
  2: { destruct (pages a !! vpn va) as [f|] eqn:Hf; [|done].
       apply (as_pages _ _ _ Ha) in Hf as [_ [t Ht]]. congruence. }
  pose proof (as_tabs _ _ _ Ha _ _ Hl2) as Hi. pose proof (Z.mod_pos_bound (vpn va) 256 ltac:(lia)) as Hk.
  destruct (as_frame s l1 a (RL2 _) l2 Ha Hl2) as (Hal & Hp & Ht).
  assert (Hd : ld32 (wm s) (l1 + 4 * (va / 2 ^ 20)) = l2 + 1).
  { replace (va / 2 ^ 20) with (vpn va / 256) by (unfold vpn; by rewrite Z.div_div by lia).
    rewrite (ld32_ext _ (vm_pm s)).
    - rewrite (as_l1 _ _ _ Ha) by (unfold L1_ENTRIES; lia). by rewrite Hl2.
    - intros x Hx. apply (as_coh _ _ _ Ha). left. unfold in_range, L1_SIZE in *. lia. }
  assert (He : ld32 (wm s) (l2 + 4 * (vpn va mod 256)) = page_desc (pages a !! vpn va)).
  { rewrite (ld32_ext _ (vm_pm s)).
    - rewrite (as_l2 _ _ _ Ha _ _ _ Hl2 Hk). by rewrite <- Hv.
    - intros x Hx. apply (as_coh _ _ _ Ha). right. eexists _, l2. split; [done|]. unfold in_range, L2_SIZE in *. lia. }
  unfold hw_walk. rewrite Hd. change (va / 4096) with (vpn va).
  assert ((l2 + 1) mod 4 = 1 /\ l2 + 1 - (l2 + 1) mod 1024 = l2) as [-> ->]
    by (unfold aligned, PAGE_SIZE in Hal; Z.div_mod_to_equations; lia).
  rewrite He. destruct (pages a !! vpn va) as [f|] eqn:Hf; cbn [page_desc]; [|done].
  destruct (as_frame s l1 a (RPage _) f Ha Hf) as (Half & Hpf & _).
  destruct (page_desc_user f) as (-> & -> & ->); [lia|done|]. done.
Qed.
End spec.

(** ** The kernel's identity map *)

Definition kmap (i : Z) : Z := ((i .<< 20) .& SECT_MASK) .| sect_attr (region_type (i .<< 20)).

Lemma kmap_section i : kmap i mod 4 = 2.
Proof.
  rewrite <- (land_type (kmap i)). unfold kmap. rewrite Z.land_lor_distr_l, <- Z.land_assoc.
  change (SECT_MASK .& 3) with 0. rewrite Z.land_0_r. by destruct (region_type _).
Qed.

Lemma kmap_not_coarse i : kmap i mod 4 <> 1.
Proof. rewrite kmap_section. lia. Qed.

Lemma kmap_eq i : 0 <= i < 4096 -> kmap i = i * 2 ^ 20 + sect_attr (region_type (i * 2 ^ 20)).
Proof.
  intros Hi. unfold kmap. rewrite Z.shiftl_mul_pow2, u32_small by lia. unfold SECT_MASK. rewrite land_1m by lia.
  rewrite Z_mod_mult, Z.sub_0_r. apply (lor_add _ _ 20); [lia| |by destruct (region_type _)].
  unfold aligned. apply Z_mod_mult.
Qed.

Section boot.
Context {A : Type} {FA : FrameAlloc A} {FS : FrameAllocSpec A}.
Implicit Types (s : vms A).

Lemma mmu_init_spec s :
  fa_ok (fa (vphys s)) ->
  wp mmu_init s (fun _ s' =>
    (l1_pa s' = 0 /\ vphys s' = vphys s) \/
    (l1_pa s' <> 0 /\ kern_ok kmap s' /\ wm s' = vm_pm s' /\ aligned L1_ALIGN (l1_pa s') /\
     (forall f, owned s' f <-> owned s f \/ l1_frames (l1_pa s') f) /\
     hwlog s' = hwlog s ++ [TlbiAll; SetDacr 0x55555555; SetTtbcr 0; SetTtbr0 (l1_pa s'); EnableSctlr; EnableCaches] /\
     (forall f, l1_frames (l1_pa s') f -> fa_window (fa (vphys s)) f /\ ~ owned s f) /\
     (forall f, fa_window (fa (vphys s')) f <-> fa_window (fa (vphys s)) f) /\
     mem_frame (in_range (l1_pa s') L1_SIZE) (vm_pm s) (vm_pm s'))).
Proof.
  intros Hok. unfold mmu_init, in_phys. wp_steps. eapply wp_mono.
  { apply (fa_alloc_aligned_spec 4 14); [exact Hok|lia..]. }
  intros pa ph [(Hfa & Hwin & [[-> ->]|(Hpa & Hfr & Hown & _ & Hf)]) Hal]; wp_steps.
  { rewrite Z.eqb_refl. wp_steps. left. done. }
  rewrite (proj2 (Z.eqb_neq _ _)) by lia. set (s1 := set_l1_pa pa _).
  assert (Hs1 : l1_pa s1 = pa /\ vphys s1 = ph /\ hwlog s1 = hwlog s) by done.
  destruct Hs1 as (Hb1 & Hp1 & Hl1). clearbody s1. apply wp_bind. eapply wp_mono.
  { apply (fill_words _ pa kmap). }
  intros [] s2 [(Hfa2 & _ & Hb2 & Hh2 & Hm2) Hw2]. unfold hw, mmu_clean_dcache_all. wp_steps. right.
  match goal with |- l1_pa ?t <> 0 /\ _ => set (s3 := t) end.
  assert (Hs3 : l1_pa s3 = l1_pa s2 /\ vphys s3 = vphys s2 /\ wm s3 = vm_pm s2 /\
    hwlog s3 = (((((hwlog s2 ++ [TlbiAll]) ++ [SetDacr 0x55555555]) ++ [SetTtbcr 0]) ++ [SetTtbr0 pa]) ++ [EnableSctlr])
      ++ [EnableCaches]) by done.
  destruct Hs3 as (Hb3 & Hp3 & Hw3 & Hh3). clearbody s3.
  assert (Hb : l1_pa s3 = pa) by congruence. assert (Hpm3 : vm_pm s3 = vm_pm s2) by (unfold vm_pm; by rewrite Hp3).
  assert (Hown3 : forall f, owned s3 f <-> owned s f \/ l1_frames pa f).
  { intros f. unfold owned at 1. rewrite Hp3, Hfa2, Hp1. apply Hown. }
  rewrite Hb. split; [lia|]. split; [|split; [congruence|split; [done|split; [done|]]]].
  - split.
    + by rewrite Hp3, Hfa2, Hp1.
    + intros j Hj. rewrite Hb. apply Hown3. right. by exists j.
    + intros i Hi. rewrite Hb, Hpm3, Hw2 by (unfold L1_ENTRIES in *; lia). apply u32_small.
      rewrite kmap_eq by done. unfold L1_ENTRIES in Hi. unfold sect_attr, SECT_NORMAL_ATTR, SECT_DEVICE_ATTR. destruct (region_type _); lia.
  - split; [rewrite Hh3, Hh2, Hl1; by rewrite <- !app_assoc|]. split; [by intros f (j & Hj & ->); apply Hfr|].
    split; [intros f; rewrite Hp3, Hfa2, Hp1; apply Hwin|]. rewrite Hpm3. eapply mem_frame_trans; [exact Hf|]. unfold vm_pm in Hm2 at 1. rewrite Hp1 in Hm2. exact Hm2.
Qed.

(** The table is found when there is room for it. *)
Lemma mmu_init_room s b : fa_ok (fa (vphys s)) -> aligned L1_ALIGN b -> free_run (fa (vphys s)) 4 b -> l1_pa (mmu_init s).2 <> 0.
Proof.
  intros Hok Hal Hfree. enough (W : wp mmu_init s (fun _ s' => l1_pa s' <> 0)) by exact W.
  unfold mmu_init, in_phys. apply wp_bind, wp_zoom, wp_self. intros pa ph E. assert (Hpa : pa <> 0).
  { pose proof (fa_alloc_aligned_complete 4 14 (vphys s) b Hok ltac:(lia) ltac:(lia) Hal Hfree) as H. change (L1_SIZE / PAGE_SIZE) with 4 in E. change L1_ALIGN with (2 ^ 14) in E. by rewrite E in H. }
  wp_steps. rewrite (proj2 (Z.eqb_neq _ _)) by done. apply wp_bind. eapply wp_mono; [apply (fill_words _ pa kmap)|].
  intros [] s2 [(_ & _ & Hb2 & _) _]. unfold hw, mmu_clean_dcache_all. wp_steps. cbn. by rewrite Hb2.
Qed.
End boot.
