(* ===== verification/AddrSpace.v ===== *)
(** What [vm.c] guarantees the rest of the kernel: translations as the hardware
    sees them, isolation between address spaces, teardown that returns exactly
    the frames in use, and a fork that copies. *)

From stdpp Require Import gmap list fin_maps.
From Stdlib Require Import ZArith Lia.
From S2P Require Import Prelude Memory Frames Pmm Vm.

(** [x] is an address of the 32-bit space. *)
Definition va_ok (x : Z) : Prop := 0 <= x < 2 ^ 32.

Lemma va_index x : va_ok x -> 0 <= vpn x / 256 < L1_ENTRIES /\ vpn x / 256 = x / 2 ^ 20.
Proof.
  unfold va_ok, vpn, L1_ENTRIES. rewrite Z.div_div by lia. change (4096 * 256) with (2 ^ 20).
  intros. split; [Z.div_mod_to_equations; lia|done].
Qed.

Section theorems.
Context {A : Type} {FA : FrameAlloc A} {FS : FrameAllocSpec A}.
Context (K : Z -> Z).
Implicit Types (s : vms A) (a b : aspace).

(** Translations depend on the bytes of the tables only. *)
Lemma hw_walk_frame s l1 a w x :
  (forall i, K i mod 4 <> 1) -> as_ok K s l1 a -> va_ok x ->
  (forall y, tbl_byte l1 a y -> ldb w y = ldb (wm s) y) -> hw_walk w l1 x = hw_walk (wm s) l1 x.
Proof.
  intros HK Ha Hx Hw. destruct (va_index x Hx) as [Hi Hieq].
  assert (Hl1 : forall m, (forall y, tbl_byte l1 a y -> ldb m y = ldb (wm s) y) ->
    ld32 m (l1 + 4 * (x / 2 ^ 20)) = match tabs a !! (vpn x / 256) with Some l2 => l2 + 1 | None => K (vpn x / 256) end).
  { intros m Hm. rewrite <- Hieq, <- (as_l1 _ _ _ _ Ha) by done. apply ld32_ext. intros y Hy.
    assert (Ht : tbl_byte l1 a y) by (left; unfold in_range, L1_SIZE, L1_ENTRIES in *; lia).
    rewrite Hm by done. by apply (as_coh _ _ _ _ Ha). }
  unfold hw_walk. rewrite !Hl1 by done.
  destruct (tabs a !! (vpn x / 256)) as [l2|] eqn:Hl2.
  - destruct (as_frame K s l1 a (RL2 _) l2 Ha Hl2) as (Hal & _).
    assert (l2 + 1 - (l2 + 1) mod 1024 = l2) as -> by (unfold aligned, PAGE_SIZE in Hal; Z.div_mod_to_equations; lia).
    pose proof (Z.mod_pos_bound (x / 4096) 256 ltac:(lia)) as Hk.
    rewrite (ld32_ext w (wm s) (l2 + 4 * ((x / 4096) mod 256))); [done|]. intros y Hy. apply Hw.
    right. exists (vpn x / 256), l2. split; [done|]. unfold in_range, L2_SIZE in *. lia.
  - by rewrite (proj2 (Z.eqb_neq _ 1)) by apply HK.
Qed.

(** A mapped page, as the kernel and as the hardware translate it. *)
Lemma mapped_walk s l1 a v f x :
  (forall i, K i mod 4 <> 1) -> as_ok K s l1 a -> pages a !! v = Some f -> va_ok x -> vpn x = v ->
  vm_walk l1 x s = (f + x mod 4096, s) /\ hw_walk (wm s) l1 x = HPage (f + x mod 4096) true.
Proof.
  intros HK Ha Hf Hx <-. split.
  - rewrite (vm_walk_eq K HK s l1 a) by done. by rewrite Hf.
  - rewrite (hw_walk_eq K s l1 a) by done. by rewrite Hf.
Qed.

(** [vm_map_page] fails with -2, changing nothing, only for lack of a frame
    for a new table; otherwise every address of the page translates to the
    given frame, for the kernel's own walk and for the hardware walker (which
    does not look into the cache), user code may access it, and every page
    mapped before keeps its translation. *)
Theorem vm_map_page_correct s l1 a va pa r s' :
  (forall i, K i mod 4 <> 1) -> as_ok K s l1 a -> USER_VA_MIN <= va < USER_VA_MAX ->
  mappable s l1 a (vpn va) pa -> vm_map_page l1 va pa s = (r, s') ->
  (r = -2 /\ s' = s) \/
  (r = 0 /\ exists a', as_ok K s' l1 a' /\ pages a' = <[vpn va := pa]> (pages a) /\
   (forall x, va_ok x -> vpn x = vpn va ->
      vm_walk l1 x s' = (pa + x mod 4096, s') /\ hw_walk (wm s') l1 x = HPage (pa + x mod 4096) true) /\
   (forall x, va_ok x -> vpn x <> vpn va ->
      (vm_walk l1 x s').1 = (vm_walk l1 x s).1 /\
      ((vm_walk l1 x s).1 <> 0 -> hw_walk (wm s') l1 x = hw_walk (wm s) l1 x))).
Proof.
  intros HK Ha Hva Hm Heq.
  destruct (wp_eq _ _ _ _ _ Heq (vm_map_page_spec K HK s l1 a va pa Ha Hva Hm)) as [?|(-> & a' & Hg & Hp)]; [by left|].
  right. split; [done|]. exists a'. pose proof (gr_ok _ _ _ _ _ _ Hg) as Ha'. split; [done|]. split; [done|]. split.
  - intros x Hx Hv. apply (mapped_walk s' l1 a' (vpn va)); try done. rewrite Hp. apply lookup_insert_eq.
  - intros x Hx Hv. rewrite (vm_walk_eq K HK s' l1 a'), (vm_walk_eq K HK s l1 a) by done.
    rewrite Hp, lookup_insert_ne by done. cbn. split; [done|]. destruct (pages a !! vpn x) as [f|] eqn:Hf; [|done].
    intros _. destruct (mapped_walk s l1 a (vpn x) f x) as [_ ->]; try done.
    apply (mapped_walk s' l1 a' (vpn x) f x); try done. rewrite Hp. by rewrite lookup_insert_ne.
Qed.

(** [vm_unmap_page] returns -1 exactly for an unmapped page, changing
    nothing; otherwise the hardware faults on the page from then on, the TLB
    entry of the page is dropped after the table was cleaned, and all other
    pages keep their frames. *)
Theorem vm_unmap_page_correct s l1 a va r s' :
  (forall i, K i mod 4 <> 1) -> as_ok K s l1 a -> va_ok va -> vm_unmap_page l1 va s = (r, s') ->
  (r = -1 /\ s' = s /\ (vm_walk l1 va s).1 = 0) \/
  (r = 0 /\ (vm_walk l1 va s).1 <> 0 /\ as_ok K s' l1 (set_page a (vpn va) None) /\
   hwlog s' = hwlog s ++ [TlbiMva (page_down va)] /\ fa (vphys s') = fa (vphys s) /\
   (forall x, va_ok x -> vpn x = vpn va -> (vm_walk l1 x s').1 = 0 /\ hw_walk (wm s') l1 x = HFault) /\
   (forall x, va_ok x -> vpn x <> vpn va -> (vm_walk l1 x s').1 = (vm_walk l1 x s).1)).
Proof.
  intros HK Ha Hva Heq.
  destruct (wp_eq _ _ _ _ _ Heq (vm_unmap_page_spec K HK s l1 a va Ha Hva)) as [(-> & -> & Hn)|(-> & [f Hf] & Hg & Hfa & Hlog)].
  { left. rewrite (vm_walk_eq K HK s l1 a) by done. by rewrite Hn. }
  right. pose proof (gr_ok _ _ _ _ _ _ Hg) as Ha'. destruct (as_frame K s l1 a (RPage _) f Ha Hf) as (_ & Hpos & _).
  assert (Hw : forall x, va_ok x -> (vm_walk l1 x s').1 =
    match (if decide (vpn va = vpn x) then None else pages a !! vpn x) with Some f => f + x mod 4096 | None => 0 end).
  { intros x Hx. rewrite (vm_walk_eq K HK s' l1 _ x Ha') by done. by rewrite lookup_set_page. }
  split; [done|]. split.
  { rewrite (vm_walk_eq K HK s l1 a) by done. rewrite Hf. cbn. pose proof (Z.mod_pos_bound va 4096). lia. }
  split; [done|]. split; [done|]. split; [done|]. split; intros x Hx Hv; rewrite Hw by done.
  - rewrite decide_True by done. split; [done|]. rewrite (hw_walk_eq K s' l1 _ x Ha') by done.
    rewrite lookup_set_page, decide_True, Hv by done. cbn.
    by destruct (as_pages _ _ _ _ Ha _ _ Hf) as [_ [t ->]].
  - rewrite decide_False by done. by rewrite (vm_walk_eq K HK s l1 a) by done.
Qed.

(** [vm_destroy] returns exactly the frames of the address space (its L1
    table, its L2 tables and its pages), each once, and no other frame; it
    changes no byte outside its own L1 table. *)
Theorem vm_destroy_exact s l1 a r s' :
  (forall i, K i mod 4 <> 1) -> as_ok K s l1 a -> vm_destroy l1 s = (r, s') ->
  fa_ok (fa (vphys s')) /\
  (forall f, owned s' f <-> owned s f /\ forall q, frame_at l1 a q <> Some f) /\
  mem_frame (in_range l1 L1_SIZE) (vm_pm s) (vm_pm s') /\ wm s' = wm s.
Proof.
  intros HK Ha Heq. destruct (wp_eq _ _ _ _ _ Heq (vm_destroy_spec K HK s l1 a Ha)) as [(Hok & Hown & Hwm & _) Hm].
  split; [done|]. split; [|done]. intros f. rewrite Hown. naive_solver.
Qed.

(** What a copy leaves, for the theorem below and for its callers. *)
Lemma vm_copy_both s dst d src sa r s' :
  (forall i, K i mod 4 <> 1) -> as_ok K s dst d -> as_ok K s src sa -> disjoint_as dst d src sa ->
  vm_copy dst src s = (r, s') ->
  exists d', as_ok K s' dst d' /\ as_ok K s' src sa /\ disjoint_as dst d' src sa /\
  (forall v f x, pages sa !! v = Some f -> in_range f PAGE_SIZE x -> ldb (vm_pm s') x = ldb (vm_pm s) x) /\
  (r = 0 ->
   (forall v f, pages sa !! v = Some f -> exists g, pages d' !! v = Some g /\ g <> f /\
      forall x, 0 <= x < PAGE_SIZE -> ldb (vm_pm s') (g + x) = ldb (vm_pm s) (f + x)) /\
   (forall v, pages sa !! v = None -> pages d' !! v = pages d !! v) /\
   (forall f, owned s' f -> owned s f \/ exists q, frame_at dst d' q = Some f)).
Proof.
  intros HK Hd Hs Hdis Heq.
  assert (Hkeep : mem_frame (tbl_change s dst d) (vm_pm s) (vm_pm s') ->
    forall v f x, pages sa !! v = Some f -> in_range f PAGE_SIZE x -> ldb (vm_pm s') x = ldb (vm_pm s) x).
  { intros Hm v f x Hf Hx. apply Hm. by eapply (other_untouched K s dst d src sa (RPage v)). }
  destruct (wp_eq _ _ _ _ _ Heq (vm_copy_spec K HK s dst d src sa Hd Hs Hdis))
    as [(-> & d' & Hc)|(Hne & d' & Hd' & Hs' & Hdis' & Hm & _)].
  - destruct (copied_src K s dst d src sa Hd Hs Hdis _ _ _ Hc) as [Hs' Hdis'].
    destruct Hc as (He & H1 & H2). pose proof (ex_ok _ _ _ _ _ _ He) as Hd'.
    exists d'. split; [done|]. split; [done|]. split; [done|]. split; [apply Hkeep, He|]. intros _.
    split; [|split; [|apply He]].
    + intros v f Hf. destruct (as_pages _ _ _ _ Hs v f Hf) as [Hv _]. destruct (H1 v f) as (g & Hg & Hdata); [lia|done|].
      exists g. split; [done|]. split; [|done]. intros ->. by apply (Hdis' (RPage v) (RPage v) f).
    + intros v Hv. apply H2. by right.
  - exists d'. split; [done|]. split; [done|]. split; [done|]. split; [by apply Hkeep|]. done.
Qed.

(** A successful [vm_copy] gives the destination, at every page the source
    maps, a frame of its own with the same contents, leaves the source and all
    its contents as they were, keeps the two disjoint, and takes no frame it
    does not map; when it fails, both can still be used and torn down. *)
Theorem vm_copy_correct s dst d src sa r s' :
  (forall i, K i mod 4 <> 1) -> as_ok K s dst d -> as_ok K s src sa -> disjoint_as dst d src sa ->
  vm_copy dst src s = (r, s') ->
  exists d', as_ok K s' dst d' /\ as_ok K s' src sa /\ disjoint_as dst d' src sa /\
  (forall v f x, pages sa !! v = Some f -> in_range f PAGE_SIZE x -> ldb (vm_pm s') x = ldb (vm_pm s) x) /\
  (r = 0 ->
   (forall v f, pages sa !! v = Some f -> exists g, pages d' !! v = Some g /\ g <> f /\
      forall x, 0 <= x < PAGE_SIZE -> ldb (vm_pm s') (g + x) = ldb (vm_pm s) (f + x)) /\
   (forall v, pages sa !! v = None -> pages d' !! v = pages d !! v) /\
   (forall f, owned s' f -> owned s f \/ exists q, frame_at dst d' q = Some f)).
Proof. apply vm_copy_both. Qed.

(** [l1'] is as it was: usable, same translations, same page contents. *)
Definition untouched s s' l1' b : Prop :=
  as_ok K s' l1' b /\ (forall x, va_ok x -> hw_walk (wm s') l1' x = hw_walk (wm s) l1' x) /\
  (forall v f x, pages b !! v = Some f -> in_range f PAGE_SIZE x -> ldb (vm_pm s') x = ldb (vm_pm s) x).

Lemma untouched_by_change s s' l1 a l1' b :
  (forall i, K i mod 4 <> 1) -> as_ok K s l1 a -> as_ok K s l1' b -> disjoint_as l1 a l1' b ->
  fa_ok (fa (vphys s')) -> (forall q f, frame_at l1' b q = Some f -> owned s' f) ->
  mem_frame (tbl_change s l1 a) (vm_pm s) (vm_pm s') -> mem_frame (tbl_change s l1 a) (wm s) (wm s') ->
  untouched s s' l1' b.
Proof.
  intros HK Ha Hb Hd Hfa Hown Hpm Hwm.
  assert (Hoff : forall y, tbl_byte l1' b y -> ~ tbl_change s l1 a y).
  { intros y Hy. destruct (tbl_byte_frame l1' b y Hy) as (q & f & Hf & Hyf & _). by eapply (other_untouched K). }
  split; [|split].
  - by apply (as_ok_frame K (tbl_change s l1 a) s).
  - intros x Hx. apply (hw_walk_frame s l1' b); try done. intros y Hy. by apply Hwm, Hoff.
  - intros v f x Hf Hx. apply Hpm. by eapply (other_untouched K s l1 a l1' b (RPage v)).
Qed.

(** C22. Isolation: mapping, unmapping and tearing down in one address space
    leaves every other one untouched, as the hardware sees it and in the
    contents of its pages. *)
Theorem vm_isolation s l1 a l1' b :
  (forall i, K i mod 4 <> 1) -> as_ok K s l1 a -> as_ok K s l1' b -> disjoint_as l1 a l1' b ->
  (forall va pa, USER_VA_MIN <= va < USER_VA_MAX -> mappable s l1 a (vpn va) pa ->
     untouched s (vm_map_page l1 va pa s).2 l1' b) /\
  (forall va, va_ok va -> untouched s (vm_unmap_page l1 va s).2 l1' b) /\
  untouched s (vm_destroy l1 s).2 l1' b.
Proof.
  intros HK Ha Hb Hd.
  assert (Hsame : untouched s s l1' b) by (split; [done|]; split; done).
  assert (Hgrown : forall s' a', grown K s l1 a s' a' -> untouched s s' l1' b).
  { intros s' a' Hg. apply (untouched_by_change s s' l1 a); try done; try apply Hg.
    intros q f Hf. apply (gr_own _ _ _ _ _ _ Hg). left. by eapply as_own. }
  split; [|split].
  - intros va pa Hva Hm. destruct (vm_map_page_spec K HK s l1 a va pa Ha Hva Hm) as [[_ ->]|(_ & a' & Hg & _)]; [done|eauto].
  - intros va Hva. destruct (vm_unmap_page_spec K HK s l1 a va Ha Hva) as [(_ & -> & _)|(_ & _ & Hg & _)]; [done|eauto].
  - destruct (vm_destroy_spec K HK s l1 a Ha) as [(Hok & Hown & Hwm & _) Hm].
    apply (untouched_by_change s _ l1 a); try done.
    + intros q f Hf. apply Hown. split; [by eapply as_own|]. intros (q' & _ & Hf'). by apply (Hd q' q f).
    + eapply mem_frame_mono; [exact Hm|]. intros x Hx. left. by left.
    + by rewrite Hwm.
Qed.
End theorems.

Lemma kmap_walk w l1 va :
  va_ok va -> ld32 w (l1 + 4 * (va / 2 ^ 20)) = kmap (va / 2 ^ 20) -> hw_walk w l1 va = HSection va true.
Proof.
  unfold va_ok. intros Hva Hd. unfold hw_walk. rewrite Hd.
  assert (Hi : 0 <= va / 2 ^ 20 < 4096) by (Z.div_mod_to_equations; lia).
  rewrite kmap_section. cbn [Z.eqb Pos.eqb]. rewrite kmap_eq by done. set (i := va / 2 ^ 20) in *.
  assert (Hat : 0 <= sect_attr (region_type (i * 2 ^ 20)) < 2 ^ 20 /\
    sect_user (sect_attr (region_type (i * 2 ^ 20))) = true) by (by destruct (region_type _)).
  destruct Hat as [Hat Hu]. set (t := sect_attr _) in *. f_equal.
  - rewrite (Z.add_comm (i * 2 ^ 20) t), Z_mod_plus_full, (Z.mod_small t) by done.
    pose proof (Z_div_mod_eq_full va (2 ^ 20)). lia.
  - rewrite <- Hu. unfold sect_user. rewrite <- (lor_add _ t 20); [|lia|apply Z_mod_mult|done].
    assert (Hb : forall n, 0 <= n < 20 -> Z.testbit (i * 2 ^ 20) n = false).
    { intros n Hn. rewrite Z.mul_pow2_bits by lia. apply Z.testbit_neg_r. lia. }
    f_equal; [|by rewrite Z.lor_spec, Hb by lia]. f_equal. apply Z.bits_inj'. intros n Hn.
    rewrite !Z.land_spec, !Z.shiftr_spec, Z.lor_spec by lia. destruct (decide (n < 2)).
    + by rewrite Hb by lia.
    + rewrite (Z.bits_above_log2 3 n) by (cbn; lia). by rewrite !andb_false_r.
Qed.

(** Every address from [USER_VA_MAX] up, and every user megabyte without
    pages, is the identity in each address space: the kernel stays reachable
    after a switch.  The sections grant access to unprivileged code too. *)
Theorem kernel_identity_user_accessible {A : Type} {FA : FrameAlloc A} {FS : FrameAllocSpec A}
    (s : vms A) l1 a va :
  as_ok kmap s l1 a -> va_ok va -> USER_VA_MAX <= va \/ tabs a !! (vpn va / 256) = None ->
  hw_walk (wm s) l1 va = HSection va true.
Proof.
  intros Ha Hva Hn. destruct (va_index va Hva) as [Hi Hieq]. apply kmap_walk; [done|].
  rewrite <- Hieq, (ld32_ext _ (vm_pm s)).
  - rewrite (as_l1 _ _ _ _ Ha) by done. destruct (tabs a !! (vpn va / 256)) as [l2|] eqn:Hl2; [|done].
    destruct Hn as [Hn|]; [|done]. apply (as_tabs _ _ _ _ Ha) in Hl2. unfold USER_VA_MAX in Hn. exfalso.
    rewrite Hieq in Hl2. Z.div_mod_to_equations. lia.
  - intros y Hy. apply (as_coh _ _ _ _ Ha). left. unfold in_range, L1_SIZE, L1_ENTRIES in *. lia.
Qed.

(** ** Examples over the page allocator *)

(** 64 frames of DRAM; [mmu_init], then two address spaces. *)
Definition demo_boot : vms pmm := Vms (Phys (pmm_init 0x40000000 0x40040000 (mk_pmm ∅ 0 0 0)) ∅) ∅ [] 0.
Definition demo_mmu : vms pmm := (mmu_init demo_boot).2.
Definition demo_vm1 : vms pmm := (vm_create demo_mmu).2.
Definition demo_vm2 : vms pmm := (vm_create demo_vm1).2.
Definition demo_l1 : Z := 0x40004000.
Definition demo_l1' : Z := 0x40008000.

Lemma demo_l1_eq : (vm_create demo_mmu).1 = demo_l1.
Proof. vm_compute. reflexivity. Qed.

Lemma demo_l1'_eq : (vm_create demo_vm1).1 = demo_l1'.
Proof. vm_compute. reflexivity. Qed.

Lemma demo_mmu_ok : kern_ok kmap demo_mmu.
Proof.
  destruct (mmu_init_spec demo_boot) as [[H _]|(_ & H & _)]; [|exfalso; revert H; vm_compute; discriminate|exact H].
  apply init_bounds; unfold PAGE_SIZE; lia.
Qed.

Lemma demo_created : created kmap demo_mmu demo_l1 demo_vm1.
Proof.
  pose proof (vm_create_spec kmap demo_mmu demo_mmu_ok) as H. unfold wp in H. rewrite demo_l1_eq in H.
  destruct H as [[H _]|H]; [discriminate H|exact H].
Qed.

(** [vm_create] keeps what was there. *)
Lemma created_keeps {A : Type} {FA : FrameAlloc A} {FS : FrameAllocSpec A} (K : Z -> Z) (s : vms A) l1 s' :
  created K s l1 s' -> kern_ok K s -> kern_ok K s' /\
  (forall l1' b, as_ok K s l1' b -> as_ok K s' l1' b /\ disjoint_as l1 (AS ∅ ∅) l1' b).
Proof.
  intros (Hp & Ha & Hown & Hfr & Hpm & Hwm & Hb) Hk.
  assert (Hmono : forall f, owned s f -> owned s' f) by (intros f Hf; apply Hown; by left).
  assert (Hoff : forall x f, owned s f -> in_range f PAGE_SIZE x -> ~ in_range l1 L1_SIZE x).
  { intros x f Hf Hx Hx'. destruct (l1_byte_frame l1 (AS ∅ ∅) x Hx') as (j & Hj & Hxj).
    destruct (as_frame K s' l1 _ (RL1 j) _ Ha Hj) as (Halj & _).
    destruct (owned_frame s' f (as_fa _ _ _ _ Ha) (Hmono f Hf)) as (Half & _).
    cbn in Hj. case_decide; [|done]. apply (Hfr (frame_of l1 j)); [by exists j|].
    by rewrite <- (pages_apart f (frame_of l1 j) x). }
  split.
  - split; rewrite ?Hb.
    + apply Ha.
    + intros j Hj. by apply Hmono, (ko_own _ _ Hk).
    + intros i Hi. rewrite <- (ko_l1 _ _ Hk i Hi). eapply ld32_frame; [exact Hpm|]. intros x Hx.
      destruct (l1_byte_frame (l1_pa s) (AS ∅ ∅) x) as (j & Hj & Hxj).
      { unfold in_range, L1_SIZE, L1_ENTRIES in *. lia. }
      cbn in Hj. case_decide; [|done]. eapply Hoff; [by apply (ko_own _ _ Hk j)|done].
  - intros l1' b Hb'. split.
    + apply (as_ok_frame K (in_range l1 L1_SIZE) s); try done; [apply Ha| |].
      * intros q f Hf. apply Hmono. by eapply as_own.
      * intros x Hx. destruct (tbl_byte_frame l1' b x Hx) as (q & f & Hf & Hxf & _).
        eapply Hoff; [by eapply as_own|done].
    + intros [j|i|v] q f Hf Hf'; cbn in Hf; [|by rewrite lookup_empty in Hf..].
      case_decide; [|done]. injection Hf as <-. apply (Hfr (frame_of l1 j)); [by exists j|]. by eapply as_own.
Qed.

Lemma demo_as1 : as_ok kmap demo_vm1 demo_l1 (AS ∅ ∅).
Proof. destruct demo_created as (_ & H & _). exact H. Qed.

Lemma demo_as2 :
  as_ok kmap demo_vm2 demo_l1 (AS ∅ ∅) /\ as_ok kmap demo_vm2 demo_l1' (AS ∅ ∅) /\
  disjoint_as demo_l1' (AS ∅ ∅) demo_l1 (AS ∅ ∅).
Proof.
  destruct (created_keeps kmap _ _ _ demo_created demo_mmu_ok) as [Hk _].
  pose proof (vm_create_spec kmap demo_vm1 Hk) as H. unfold wp in H. rewrite demo_l1'_eq in H.
  destruct H as [[H _]|H]; [discriminate H|].
  destruct (created_keeps kmap _ _ _ H Hk) as [_ Hb]. destruct (Hb demo_l1 _ demo_as1) as [H1 H2].
  split; [exact H1|]. split; [|exact H2]. destruct H as (_ & H & _). exact H.
Qed.

(** A frame for a page: the next one the allocator gives out. *)
Definition demo_vm3 : vms pmm := (in_phys fa_alloc_page demo_vm1).2.
Definition demo_pa : Z := 0x40008000.

Lemma demo_pa_fresh : fresh_page demo_vm1 demo_pa demo_vm3.
Proof.
  assert (Hpa : (in_phys fa_alloc_page demo_vm1).1 = demo_pa) by (vm_compute; reflexivity).
  pose proof (vm_alloc_page_spec demo_vm1 (as_fa _ _ _ _ demo_as1)) as H. unfold wp in H. rewrite Hpa in H.
  destruct H as [[H _]|(_ & H & _)]; [discriminate H|exact H].
Qed.

Lemma vm_map_page_correct_witness :
  exists r s', vm_map_page demo_l1 0x10000 demo_pa demo_vm3 = (r, s') /\
    (r = -2 \/ hw_walk (wm s') demo_l1 0x10123 = HPage (demo_pa + 0x123) true).
Proof.
  exists (vm_map_page demo_l1 0x10000 demo_pa demo_vm3).1, (vm_map_page demo_l1 0x10000 demo_pa demo_vm3).2.
  split; [apply surjective_pairing|].
  destruct (vm_map_page_correct kmap demo_vm3 demo_l1 (AS ∅ ∅) 0x10000 demo_pa
    (vm_map_page demo_l1 0x10000 demo_pa demo_vm3).1 (vm_map_page demo_l1 0x10000 demo_pa demo_vm3).2)
    as [[H _]|(_ & a' & _ & _ & H & _)].
  - exact kmap_not_coarse.
  - exact (as_ok_fresh kmap _ _ _ _ _ demo_as1 demo_pa_fresh).
  - unfold USER_VA_MIN, USER_VA_MAX. lia.
  - exact (mappable_fresh kmap _ _ _ _ _ _ demo_as1 demo_pa_fresh).
  - apply surjective_pairing.
  - left. exact H.
  - right. apply (H 0x10123); [unfold va_ok; lia|reflexivity].
Defined.

Lemma vm_unmap_page_correct_witness :
  exists r s', vm_unmap_page demo_l1 0x10000 demo_vm1 = (r, s') /\ (r = -1 \/ r = 0).
Proof.
  exists (vm_unmap_page demo_l1 0x10000 demo_vm1).1, (vm_unmap_page demo_l1 0x10000 demo_vm1).2.
  split; [apply surjective_pairing|].
  destruct (vm_unmap_page_correct kmap demo_vm1 demo_l1 (AS ∅ ∅) 0x10000
    (vm_unmap_page demo_l1 0x10000 demo_vm1).1 (vm_unmap_page demo_l1 0x10000 demo_vm1).2
    kmap_not_coarse demo_as1) as [[H _]|[H _]].
  - unfold va_ok. lia.
  - apply surjective_pairing.
  - left. exact H.
  - right. exact H.
Defined.

Lemma vm_destroy_exact_witness :
  owned demo_vm1 demo_l1 /\ ~ owned (vm_destroy demo_l1 demo_vm1).2 demo_l1.
Proof.
  split; [apply (as_own _ _ _ _ demo_as1 (RL1 0)); reflexivity|].
  destruct (vm_destroy_exact kmap demo_vm1 demo_l1 (AS ∅ ∅) (vm_destroy demo_l1 demo_vm1).1
    (vm_destroy demo_l1 demo_vm1).2 kmap_not_coarse demo_as1 (surjective_pairing _)) as (_ & H & _).
  intros Ho. apply H in Ho as [_ Hn]. apply (Hn (RL1 0)). reflexivity.
Defined.

Lemma vm_copy_correct_witness :
  exists d', as_ok kmap (vm_copy demo_l1' demo_l1 demo_vm2).2 demo_l1' d'.
Proof.
  destruct demo_as2 as (H1 & H2 & H3).
  destruct (vm_copy_correct kmap demo_vm2 demo_l1' (AS ∅ ∅) demo_l1 (AS ∅ ∅)
    (vm_copy demo_l1' demo_l1 demo_vm2).1 (vm_copy demo_l1' demo_l1 demo_vm2).2
    kmap_not_coarse H2 H1 H3 (surjective_pairing _)) as (d' & H & _).
  exists d'. exact H.
Defined.

Lemma vm_isolation_witness :
  untouched kmap demo_vm2 (vm_destroy demo_l1' demo_vm2).2 demo_l1 (AS ∅ ∅).
Proof.
  destruct demo_as2 as (H1 & H2 & H3).
  apply (vm_isolation kmap demo_vm2 demo_l1' (AS ∅ ∅) demo_l1 (AS ∅ ∅) kmap_not_coarse H2 H1 H3).
Defined.

Lemma kernel_identity_user_accessible_witness :
  hw_walk (wm demo_vm1) demo_l1 0x41000000 = HSection 0x41000000 true.
Proof.
  apply (kernel_identity_user_accessible demo_vm1 demo_l1 (AS ∅ ∅) 0x41000000 demo_as1).
  - unfold va_ok. lia.
  - left. unfold USER_VA_MAX. lia.
Defined.
