(* ===== verification/KernMem.v ===== *)
(** The memory services the file system is built on: frames of the page
    allocator and objects of the kernel heap, over one physical memory.

    [KMem] lists the calls ([pmm_alloc_page], [pmm_free_page], [kmalloc],
    [kfree], [krealloc]); [KMemSpec] what they promise a client that owns the
    frames [F] and the heap pointers [P].  The instance at the end discharges
    the promises for [kmalloc.c] over any page allocator. *)

From stdpp Require Import gmap list fin_maps.
From Stdlib Require Import ZArith Lia.
From S2P Require Import Prelude Memory Frames Kmalloc.

Class KMem (S : Type) := {
  km_mem : S -> mem;
  km_set_mem : mem -> S -> S;
  km_alloc_page : M S Z;
  km_free_page : Z -> M S unit;
  km_alloc : Z -> M S Z;
  km_free : Z -> M S unit;
  km_realloc : Z -> Z -> M S Z;
}.

(** A store by the kernel into a frame. *)
Definition km_store {S} `{KMem S} (f : mem -> mem) : M S unit :=
  modify (fun s => km_set_mem (f (km_mem s)) s).

(** [s'] has the same bytes in the frames [F]. *)
Definition same_frames {S} `{KMem S} (F : gset Z) (s s' : S) : Prop :=
  forall f x, f ∈ F -> in_range f PAGE_SIZE x -> ldb (km_mem s') x = ldb (km_mem s) x.

Definition in_frames (F : gset Z) (x : Z) : Prop := exists f, f ∈ F /\ in_range f PAGE_SIZE x.

(** largest size the heap is asked for *)
Definition KM_MAX : Z := 2 ^ 32 - 4 * PAGE_SIZE.

Class KMemSpec (S : Type) `{KMem S} := {
  (** the client owns the frames [F] and the heap objects [P] *)
  km_ok : S -> gset Z -> gset Z -> Prop;

  km_frame s F P f : km_ok s F P -> f ∈ F ->
    aligned PAGE_SIZE f /\ 0 < f /\ f + PAGE_SIZE <= 2 ^ 32;
  km_mem_set s m : km_mem (km_set_mem m s) = m;
  (** the client may write its frames *)
  km_set_ok s F P m : km_ok s F P -> mem_frame (in_frames F) (km_mem s) m -> km_ok (km_set_mem m s) F P;

  km_alloc_page_spec s F P : km_ok s F P ->
    wp km_alloc_page s (fun pa s' =>
      (pa = 0 /\ s' = s) \/
      (pa <> 0 /\ (pa ∉ F) /\ km_ok s' ({[pa]} ∪ F) P /\ same_frames F s s' /\
       zeroed (km_mem s') pa PAGE_SIZE));
  km_free_page_spec s F P f : km_ok s F P -> f ∈ F ->
    wp (km_free_page f) s (fun _ s' => km_ok s' (F ∖ {[f]}) P /\ same_frames F s s');
  km_alloc_spec s F P n : km_ok s F P -> 0 <= n < KM_MAX ->
    wp (km_alloc n) s (fun p s' =>
      (p = 0 /\ s' = s) \/ (p <> 0 /\ (p ∉ P) /\ km_ok s' F ({[p]} ∪ P) /\ same_frames F s s'));
  km_free_spec s F P p : km_ok s F P -> p ∈ P ->
    wp (km_free p) s (fun _ s' => km_ok s' F (P ∖ {[p]}) /\ same_frames F s s');
  km_realloc_spec s F P p n : km_ok s F P -> p = 0 \/ p ∈ P -> 0 <= n < KM_MAX ->
    wp (km_realloc p n) s (fun q s' =>
      (q = 0 /\ s' = s) \/
      (q <> 0 /\ (q = p \/ q ∉ P) /\ km_ok s' F ({[q]} ∪ P ∖ {[p]}) /\ same_frames F s s'));
  km_ptr s F P p : km_ok s F P -> p ∈ P -> p <> 0;
}.

Section generic.
Context {S : Type} {KM : KMem S} {KS : KMemSpec S}.

Lemma same_frames_refl (F : gset Z) (s : S) : same_frames F s s.
Proof. done. Qed.

Lemma same_frames_trans (F G : gset Z) (s t u : S) :
  same_frames F s t -> same_frames G t u -> F ⊆ G -> same_frames F s u.
Proof. intros H1 H2 HFG f x Hf Hx. rewrite (H2 f x); [by apply (H1 f x)|by apply HFG|done]. Qed.
End generic.

(** * [kmalloc.c] provides it *)

Section instance.
Context {A : Type} {FA : FrameAlloc A} {FS : FrameAllocSpec A}.

#[export] Instance kmem_KMem : KMem (kmem A) := {|
  km_mem := kpm;
  km_set_mem m := upd_kpm (fun _ => m);
  km_alloc_page := zoom kphys set_kphys fa_alloc_page;
  km_free_page f := zoom kphys set_kphys (fa_free_page f);
  km_alloc := kmalloc;
  km_free := kfree;
  km_realloc := krealloc;
|}.

(** The heap is well formed, [P] are its live pointers, and the client's frames
    keep clear of its blocks. *)
Definition kmem_ok (s : kmem A) (F P : gset Z) : Prop :=
  exists bs, heap_ok s bs /\ (forall p, p ∈ P <-> p ∈ b_data <$> live bs) /\
    forall f, f ∈ F -> fa_owned (fa (kphys s)) f /\ forall x, in_range f PAGE_SIZE x -> ~ in_blocks bs x.

Lemma owned_page_frame (s : kmem A) f :
  fa_ok (fa (kphys s)) -> fa_owned (fa (kphys s)) f ->
  aligned PAGE_SIZE f /\ 0 < f /\ f + PAGE_SIZE <= 2 ^ 32.
Proof. intros Hok Hf. eapply fa_window_frame; [done|]. by apply fa_owned_window. Qed.

Lemma frame_page_down (s : kmem A) f x :
  fa_ok (fa (kphys s)) -> fa_owned (fa (kphys s)) f -> in_range f PAGE_SIZE x -> page_down x = f.
Proof.
  intros Hok Hf Hx. destruct (owned_page_frame s f Hok Hf) as (Hal & _).
  unfold aligned, in_range, page_down, PAGE_SIZE in *. Z.div_mod_to_equations. lia.
Qed.

(** A client frame is outside anything an allocation may touch. *)
Lemma client_frame_safe s bs f x :
  heap_ok s bs -> fa_owned (fa (kphys s)) f -> (forall y, in_range f PAGE_SIZE y -> ~ in_blocks bs y) ->
  in_range f PAGE_SIZE x -> ~ heap_area s bs x.
Proof.
  intros Hk Hf Hd Hx [Hb|Hn]; [by apply (Hd x Hx)|]. apply Hn.
  by rewrite (frame_page_down s f x (hk_fa _ _ Hk)).
Qed.

(** The heap changed within its own area: client frames keep their bytes and
    stay clear. *)
Lemma client_frames_keep s s' bs bs' (F : gset Z) :
  heap_ok s bs -> mem_frame (heap_area s bs) (kpm s) (kpm s') -> foot_in bs' (heap_area s bs) ->
  (forall f, fa_owned (fa (kphys s)) f -> fa_owned (fa (kphys s')) f) ->
  (forall f, f ∈ F -> fa_owned (fa (kphys s)) f /\ forall x, in_range f PAGE_SIZE x -> ~ in_blocks bs x) ->
  same_frames F s s' /\
  (forall f, f ∈ F -> fa_owned (fa (kphys s')) f /\ forall x, in_range f PAGE_SIZE x -> ~ in_blocks bs' x).
Proof.
  intros Hk Hm Hft Hown HF. split.
  - intros f x Hf Hx. destruct (HF f Hf) as [Ho Hd]. apply Hm. by eapply client_frame_safe.
  - intros f Hf. destruct (HF f Hf) as [Ho Hd]. split; [by apply Hown|].
    intros x Hx (c & Hc & Hxc). apply (client_frame_safe s bs f x Hk Ho Hd Hx). by apply (Hft c).
Qed.

Lemma live_data_inj s bs b c :
  heap_ok s bs -> b ∈ live bs -> c ∈ live bs -> b_data b = b_data c -> b = c.
Proof.
  intros Hk [Hb _]%elem_of_live [Hc _]%elem_of_live Heq.
  pose proof (proj1 (Forall_forall _ _) (hk_blks _ _ Hk)) as Hok.
  pose proof (Hok b Hb). pose proof (Hok c Hc).
  destruct (blks_sep_two bs b c (hk_sep _ _ Hk) Hb Hc) as [->|Hs]; [done|]. blia.
Qed.

Lemma live_ptr_fresh s bs b l :
  heap_ok s bs -> live bs ≡ₚ b :: l -> b_data b ∉ b_data <$> l.
Proof.
  intros Hk Hl Hin. apply list_elem_of_fmap in Hin as (c & Heq & Hc).
  assert (Hcl : forall d, d ∈ b :: l -> d ∈ live bs) by (intros d; by rewrite Hl).
  pose proof (live_NoDup _ (hk_blks _ _ Hk) (hk_sep _ _ Hk)) as Hnd. rewrite Hl in Hnd.
  apply NoDup_cons in Hnd as [Hni _]. apply Hni.
  rewrite (live_data_inj s bs b c Hk); [done|apply Hcl; set_solver..|done].
Qed.

Lemma kmem_alloc_page_spec s F P :
  kmem_ok s F P ->
  wp km_alloc_page s (fun pa s' =>
    (pa = 0 /\ s' = s) \/
    (pa <> 0 /\ (pa ∉ F) /\ kmem_ok s' ({[pa]} ∪ F) P /\ same_frames F s s' /\
     zeroed (km_mem s') pa PAGE_SIZE)).
Proof.
  intros (bs & Hk & HP & HF). cbn. apply wp_zoom.
  eapply wp_mono; [apply fa_alloc_page_spec, Hk|].
  intros pa ph (Hfa & _ & [[-> ->]|(Hpa & Hfr & Hown & Hz & Hf)]); [left; split; [done|by destruct s]|].
  right. rewrite Z.mul_1_l in *. set (s' := set_kphys ph s).
  specialize (Hfr 0 ltac:(lia)) as [_ Hn]. replace (frame_of pa 0) with pa in Hn by plia.
  assert (Hmono : forall f, fa_owned (fa (kphys s)) f -> fa_owned (fa (kphys s')) f).
  { intros f Hff. cbn. apply Hown. by left. }
  assert (Hpao : fa_owned (fa (kphys s')) pa) by (cbn; apply Hown; right; exists 0; split; [lia|plia]).
  assert (Hoff : forall x, fa_owned (fa (kphys s)) (page_down x) -> ~ in_range pa PAGE_SIZE x).
  { intros x Hx Hx'. apply Hn. by rewrite <- (frame_page_down s' pa x). }
  split; [lia|]. split; [intros Hin; by apply Hn, HF|]. split; [|split; [|done]].
  - exists bs. split; [|split; [done|]].
    + destruct Hk as [H1 H2 H3 H4 H5 H6 H7]. split; try done.
      * eapply heap_seg_frame; [exact Hf| |done]. intros b x Hb Hx. apply Hoff, (H5 b); [done|].
        rewrite Forall_forall in H3. specialize (H3 b Hb). blia.
      * intros b x Hb Hx. apply Hmono. by eapply H5.
    + intros f Hf'. apply elem_of_union in Hf' as [Heq%elem_of_singleton|Hf'].
      * subst f. split; [done|]. intros x Hx (b & Hb & Hxb). apply (Hoff x); [|done]. by eapply hk_owned.
      * destruct (HF f Hf') as [Ho Hd]. auto.
  - intros f x Hf' Hx. apply Hf. apply Hoff. destruct (HF f Hf') as [Ho _].
    by rewrite (frame_page_down s f x (hk_fa _ _ Hk)).
Qed.

Lemma kmem_free_page_spec s F P f :
  kmem_ok s F P -> f ∈ F -> wp (km_free_page f) s (fun _ s' => kmem_ok s' (F ∖ {[f]}) P /\ same_frames F s s').
Proof.
  intros (bs & Hk & HP & HF) Hin. destruct (HF f Hin) as [Ho Hd]. cbn. apply wp_zoom.
  eapply wp_mono; [by apply fa_free_page_spec; [apply Hk|]|].
  intros [] ph (Hpm & Hfa & _ & Hown). split.
  2: { intros g x _ _. cbn. unfold kpm. cbn. by rewrite Hpm. }
  exists bs. split; [|split; [done|]].
  - destruct Hk as [H1 H2 H3 H4 H5 H6 H7]. split; try done.
    + unfold kpm in *. cbn. by rewrite Hpm.
    + intros b x Hb Hx. cbn. apply Hown. split; [by eapply H5|]. intros Heq.
      apply (Hd x); [|by exists b]. rewrite <- Heq. pose proof (page_down_spec x) as [_ ?]. unfold in_range. lia.
  - intros g [Hg Hne]%elem_of_difference. rewrite elem_of_singleton in Hne. destruct (HF g Hg) as [Hog Hdg].
    split; [|done]. cbn. apply Hown. done.
Qed.

Lemma kmem_alloc_spec s F P n :
  kmem_ok s F P -> 0 <= n < KM_MAX ->
  wp (km_alloc n) s (fun p s' =>
    (p = 0 /\ s' = s) \/ (p <> 0 /\ (p ∉ P) /\ kmem_ok s' F ({[p]} ∪ P) /\ same_frames F s s')).
Proof.
  intros (bs & Hk & HP & HF) Hn. cbn. eapply wp_mono; [by apply (kmalloc_spec s bs n Hk Hn)|].
  intros p s' [(-> & -> & _)|(Hp & (bs' & b & Hk' & -> & Hl & _ & _ & _ & Hown & Hm & Hft) & _)]; [by left|right].
  destruct (client_frames_keep s s' bs bs' F Hk Hm Hft Hown HF) as [Hsame HF'].
  pose proof (live_ptr_fresh _ _ _ _ Hk' Hl) as Hfresh.
  split; [done|]. split; [by rewrite HP|]. split; [|done]. exists bs'. split; [done|]. split; [|done].
  intros q. rewrite elem_of_union, elem_of_singleton, HP, Hl. cbn. by rewrite elem_of_cons.
Qed.

Lemma kmem_free_spec s F P p :
  kmem_ok s F P -> p ∈ P -> wp (km_free p) s (fun _ s' => kmem_ok s' F (P ∖ {[p]}) /\ same_frames F s s').
Proof.
  intros (bs & Hk & HP & HF) Hp. apply HP, list_elem_of_fmap in Hp as (b & -> & Hb). cbn.
  eapply wp_mono; [by apply (kfree_spec s bs b Hk Hb)|].
  intros [] s' (bs' & Hk' & Hl & _ & _ & Hfa & Hm & Hft).
  destruct (client_frames_keep s s' bs bs' F Hk) as [Hsame HF']; try done.
  - eapply mem_frame_mono; [exact Hm|]. intros x Hx. by left.
  - intros c x Hc Hx. left. by apply (Hft c).
  - intros f. by rewrite Hfa.
  - pose proof (live_ptr_fresh _ _ _ _ Hk Hl) as Hfresh. split; [|done]. exists bs'. split; [done|]. split; [|done].
    intros q. rewrite elem_of_difference, elem_of_singleton, HP, Hl. cbn. rewrite elem_of_cons. split.
    + intros [[->|Hq] Hne]; [done|done].
    + intros Hq. split; [by right|]. by intros ->.
Qed.

Lemma krealloc_null (s : kmem A) n : krealloc 0 n s = kmalloc n s.
Proof. unfold krealloc. rewrite Z.eqb_refl. reflexivity. Qed.

Lemma km_realloc_null (s : kmem A) n : km_realloc 0 n s = km_alloc n s.
Proof. exact (krealloc_null s n). Qed.

Lemma kmem_realloc_spec s F P p n :
  kmem_ok s F P -> p = 0 \/ p ∈ P -> 0 <= n < KM_MAX ->
  wp (km_realloc p n) s (fun q s' =>
    (q = 0 /\ s' = s) \/
    (q <> 0 /\ (q = p \/ q ∉ P) /\ kmem_ok s' F ({[q]} ∪ P ∖ {[p]}) /\ same_frames F s s')).
Proof.
  intros Hok Hp Hn. pose proof Hok as (bs & Hk & HP & HF).
  assert (H0 : 0 ∉ P).
  { rewrite HP. intros (b & Hb0 & Hb)%list_elem_of_fmap. apply elem_of_live in Hb as [Hb _].
    pose proof (proj1 (Forall_forall _ _) (hk_blks _ _ Hk) b Hb). blia. }
  destruct (decide (p = 0)) as [->|Hp0].
  { unfold wp. rewrite km_realloc_null.
    pose proof (kmem_alloc_spec s F P n Hok Hn) as Ha. unfold wp in Ha.
    destruct (km_alloc n s) as [q s']. revert Ha. cbn [fst snd].
    intros [?|(Hq & Hf & Hok' & Hs)]; [by left|right]. split; [done|]. split; [by right|]. split; [|done].
    by replace (P ∖ {[0]}) with P by set_solver. }
  destruct Hp as [|Hp]; [done|]. pose proof Hp as Hp'. apply HP, list_elem_of_fmap in Hp' as (b & -> & Hb). cbn.
  eapply wp_mono; [by apply (krealloc_spec s bs b n Hk Hb Hn)|].
  intros q s' [(-> & -> & _)|[(-> & -> & _)|(Hq & bs' & nb & rest & Hk' & Hl & Hl' & -> & _ & _ & Hsep & _ & _ & _ & Hown & Hm & Hft)]].
  - right. split; [done|]. split; [by left|]. split; [|done].
    replace ({[b_data b]} ∪ P ∖ {[b_data b]}) with P; [done|]. apply set_eq. intros q.
    rewrite elem_of_union, elem_of_difference, elem_of_singleton. destruct (decide (q = b_data b)); naive_solver.
  - by left.
  - right. destruct (client_frames_keep s s' bs bs' F Hk Hm Hft Hown HF) as [Hsame HF'].
    pose proof (live_ptr_fresh _ _ _ _ Hk Hl) as Hf1. pose proof (live_ptr_fresh _ _ _ _ Hk' Hl') as Hf2.
    assert (nb ∈ live bs') as [Hnb _]%elem_of_live by (rewrite Hl'; set_solver).
    pose proof (proj1 (Forall_forall _ _) (hk_blks _ _ Hk') nb Hnb).
    pose proof (proj1 (Forall_forall _ _) (hk_blks _ _ Hk) b (proj1 (proj1 (elem_of_live b bs) Hb))).
    assert (Hne : b_data nb <> b_data b) by blia.
    split; [done|]. split; [right|].
    + rewrite HP, Hl. cbn. rewrite elem_of_cons. tauto.
    + split; [|done]. exists bs'. split; [done|]. split; [|done]. intros q.
      rewrite elem_of_union, elem_of_difference, !elem_of_singleton, HP, Hl, Hl'. cbn. rewrite !elem_of_cons.
      split; [tauto|]. intros [->|Hr]; [by left|right]. split; [by right|]. by intros ->.
Qed.

#[export] Instance kmem_KMemSpec : KMemSpec (kmem A).
Proof.
  refine {| km_ok := kmem_ok;
            km_alloc_page_spec := kmem_alloc_page_spec; km_free_page_spec := kmem_free_page_spec;
            km_alloc_spec := kmem_alloc_spec; km_free_spec := kmem_free_spec;
            km_realloc_spec := kmem_realloc_spec |}.
  - intros s F P f (bs & Hk & _ & HF) Hf. eapply owned_page_frame; [apply Hk|]. by apply HF.
  - done.
  - intros s F P m (bs & Hk & HP & HF) Hm. exists bs. split; [|done].
    destruct Hk as [H1 H2 H3 H4 H5 H6 H7]. split; try done.
    eapply heap_seg_frame; [exact Hm| |exact H1]. intros b x Hb Hx (f & Hf & Hx'). destruct (HF f Hf) as [_ Hd].
    apply (Hd x Hx'). exists b. split; [done|]. rewrite Forall_forall in H3. specialize (H3 b Hb). blia.
  - intros s F P p (bs & Hk & HP & _) Hp. apply HP, list_elem_of_fmap in Hp as (b & -> & Hb).
    apply elem_of_live in Hb as [Hb _]. pose proof (proj1 (Forall_forall _ _) (hk_blks _ _ Hk) b Hb). blia.
Defined.
End instance.
