(* ===== verification/Ramfs.v ===== *)
(** The in-memory file system, [kernel/fs/ramfs.c].

    Inodes, directory entries, symlink targets, page vectors, pipe rings and
    open files are heap objects: [objs] maps the pointer [kmalloc] returned to
    the object, so that sharing and freeing are visible.  File data is bytes in
    frames of physical memory. *)

From stdpp Require Import gmap list fin_maps.
From Stdlib Require Import ZArith Lia.
From S2P Require Import Prelude Memory Frames KernMem.

(** * Data *)

Inductive rf_type := RF_FREE | RF_REG | RF_DIR | RF_LNK | RF_CHR | RF_PIPE.

#[export] Instance rf_type_eq_dec : EqDecision rf_type.
Proof. solve_decision. Defined.

Record rf_dirent := Dirent { d_name : cstr; d_inode : Z; d_next : Z }.

Record rf_inode := Inode {
  i_type : rf_type; i_ino : Z; i_mode : Z; i_size : Z; i_nlink : Z;
  i_children : Z; i_parent : Z;
  i_pages : Z; i_npages : Z; i_cap : Z;
  i_target : Z;
  i_rdev_major : Z; i_rdev_minor : Z;
  i_pbuf : Z; i_phead : Z; i_ptail : Z; i_wr_open : Z; i_rd_open : Z;
}.

(** what [kzalloc(sizeof(struct rf_inode))] holds *)
Definition inode_zero : rf_inode := Inode RF_FREE 0 0 0 0 0 0 0 0 0 0 0 0 0 0 0 0 0.

Definition set_type t n := Inode t (i_ino n) (i_mode n) (i_size n) (i_nlink n) (i_children n) (i_parent n)
  (i_pages n) (i_npages n) (i_cap n) (i_target n) (i_rdev_major n) (i_rdev_minor n) (i_pbuf n) (i_phead n)
  (i_ptail n) (i_wr_open n) (i_rd_open n).
Definition set_head3 ino mode nlink n := Inode (i_type n) ino mode (i_size n) nlink (i_children n) (i_parent n)
  (i_pages n) (i_npages n) (i_cap n) (i_target n) (i_rdev_major n) (i_rdev_minor n) (i_pbuf n) (i_phead n)
  (i_ptail n) (i_wr_open n) (i_rd_open n).
Definition set_size v n := Inode (i_type n) (i_ino n) (i_mode n) v (i_nlink n) (i_children n) (i_parent n)
  (i_pages n) (i_npages n) (i_cap n) (i_target n) (i_rdev_major n) (i_rdev_minor n) (i_pbuf n) (i_phead n)
  (i_ptail n) (i_wr_open n) (i_rd_open n).
Definition set_children v n := Inode (i_type n) (i_ino n) (i_mode n) (i_size n) (i_nlink n) v (i_parent n)
  (i_pages n) (i_npages n) (i_cap n) (i_target n) (i_rdev_major n) (i_rdev_minor n) (i_pbuf n) (i_phead n)
  (i_ptail n) (i_wr_open n) (i_rd_open n).
Definition set_parent v n := Inode (i_type n) (i_ino n) (i_mode n) (i_size n) (i_nlink n) (i_children n) v
  (i_pages n) (i_npages n) (i_cap n) (i_target n) (i_rdev_major n) (i_rdev_minor n) (i_pbuf n) (i_phead n)
  (i_ptail n) (i_wr_open n) (i_rd_open n).
Definition set_vec pages npages cap n := Inode (i_type n) (i_ino n) (i_mode n) (i_size n) (i_nlink n) (i_children n)
  (i_parent n) pages npages cap (i_target n) (i_rdev_major n) (i_rdev_minor n) (i_pbuf n) (i_phead n)
  (i_ptail n) (i_wr_open n) (i_rd_open n).
Definition set_target v n := Inode (i_type n) (i_ino n) (i_mode n) (i_size n) (i_nlink n) (i_children n) (i_parent n)
  (i_pages n) (i_npages n) (i_cap n) v (i_rdev_major n) (i_rdev_minor n) (i_pbuf n) (i_phead n)
  (i_ptail n) (i_wr_open n) (i_rd_open n).
Definition set_rdev maj min n := Inode (i_type n) (i_ino n) (i_mode n) (i_size n) (i_nlink n) (i_children n) (i_parent n)
  (i_pages n) (i_npages n) (i_cap n) (i_target n) maj min (i_pbuf n) (i_phead n)
  (i_ptail n) (i_wr_open n) (i_rd_open n).
(** ring buffer, read and write position, bytes held *)
Definition set_ring pbuf phead ptail size n := Inode (i_type n) (i_ino n) (i_mode n) size (i_nlink n) (i_children n)
  (i_parent n) (i_pages n) (i_npages n) (i_cap n) (i_target n) (i_rdev_major n) (i_rdev_minor n) pbuf phead
  ptail (i_wr_open n) (i_rd_open n).
Definition set_open wr rd n := Inode (i_type n) (i_ino n) (i_mode n) (i_size n) (i_nlink n) (i_children n) (i_parent n)
  (i_pages n) (i_npages n) (i_cap n) (i_target n) (i_rdev_major n) (i_rdev_minor n) (i_pbuf n) (i_phead n)
  (i_ptail n) wr rd.

(** an open file description ([struct file], [include/file.h]) *)
Record file := File { f_inode : Z; f_off : Z; f_flags : Z; f_refcnt : Z; f_dir_pos : Z }.

(** An object in the kernel heap, by what it was allocated for. *)
Inductive obj :=
  | OInode (n : rf_inode)
  | ODirent (d : rf_dirent)
  | OVec (l : list Z)          (* the pages[] vector of a file *)
  | OStr (c : cstr)            (* a symlink target *)
  | ORing (l : list Z)         (* the buffer of a pipe *)
  | OFile (f : file).

Definition INODE_SIZE : Z := 72.
Definition DIRENT_SIZE : Z := 72.
Definition NAME_CAP : nat := 64.
Definition SYMLINK_MAX : Z := 8.
Definition PIPE_CAP : Z := 4096.

Definition SLASH : Z := 47.
Definition dot : cstr := [46].
Definition dotdot : cstr := [46; 46].

(** * Model *)

Section model.
Context {S : Type} {KM : KMem S}.

Record fs := Fs { fmem : S; objs : gmap Z obj; root : Z; next_ino : Z }.

Definition set_fmem m s := Fs m (objs s) (root s) (next_ino s).
Definition set_objs m s := Fs (fmem s) m (root s) (next_ino s).
Definition set_root v s := Fs (fmem s) (objs s) v (next_ino s).
Definition set_next_ino v s := Fs (fmem s) (objs s) (root s) v.

Definition in_mem {R} : M S R -> M fs R := zoom fmem set_fmem.

(** [*p] *)
Definition inode_at (s : fs) (p : Z) : rf_inode :=
  match objs s !! p with Some (OInode n) => n | _ => inode_zero end.
Definition dirent_at (s : fs) (p : Z) : rf_dirent :=
  match objs s !! p with Some (ODirent d) => d | _ => Dirent [] 0 0 end.
Definition vec_at (s : fs) (p : Z) : list Z := match objs s !! p with Some (OVec l) => l | _ => [] end.
Definition str_at (s : fs) (p : Z) : cstr := match objs s !! p with Some (OStr l) => l | _ => [] end.
Definition ring_at (s : fs) (p : Z) : list Z := match objs s !! p with Some (ORing l) => l | _ => [] end.

Definition get_inode (p : Z) : M fs rf_inode := gets (fun s => inode_at s p).
Definition put_obj (p : Z) (o : obj) : M fs unit := modify (fun s => set_objs (<[p := o]> (objs s)) s).
Definition upd_inode (p : Z) (f : rf_inode -> rf_inode) : M fs unit :=
  modify (fun s => set_objs (<[p := OInode (f (inode_at s p))]> (objs s)) s).

(** [kfree] of an object *)
Definition free_obj (p : Z) : M fs unit :=
  in_mem (km_free p) ≫= fun _ => modify (fun s => set_objs (delete p (objs s)) s).

Definition ramfs_root : M fs Z := gets root.

Definition inode_new (t : rf_type) (mode : Z) : M fs Z :=
  n ← in_mem (km_alloc INODE_SIZE);
  if n =? 0 then mret 0
  else
    ino ← gets next_ino;
    modify (fun s => set_next_ino (ino +w 1) s) ≫= fun _ =>
    put_obj n (OInode (set_head3 ino mode 1 (set_type t inode_zero))) ≫= fun _ =>
    mret n.

Definition ramfs_init : M fs unit :=
  r ← inode_new RF_DIR 16877;                       (* 040755 *)
  modify (set_root r) ≫= fun _ =>
  upd_inode r (set_parent r) ≫= fun _ =>
  modify (set_next_ino 2).

Definition dir_link (dir : Z) (name : cstr) (child : Z) : M fs Z :=
  d ← in_mem (km_alloc DIRENT_SIZE);
  if d =? 0 then mret (-1)
  else
    n ← get_inode dir;
    put_obj d (ODirent (Dirent (strlcpy_ [] name NAME_CAP) child (i_children n))) ≫= fun _ =>
    upd_inode dir (set_children d) ≫= fun _ =>
    mret 0.

(** The sibling list, [for (d = dir->children; d; d = d->next)]; a list of [n]
    entries ends within [n + 1] rounds. *)
Fixpoint find_entry (fuel : nat) (s : fs) (name : cstr) (d : Z) : Z :=
  match fuel with
  | O => 0
  | Datatypes.S fuel' =>
      if d =? 0 then 0
      else if strcmp (d_name (dirent_at s d)) name =? 0 then d_inode (dirent_at s d)
      else find_entry fuel' s name (d_next (dirent_at s d))
  end.

Definition ramfs_child (s : fs) (dir : Z) (name : cstr) : Z :=
  if (dir =? 0) || negb (bool_decide (i_type (inode_at s dir) = RF_DIR)) then 0
  else if strcmp name dot =? 0 then dir
  else if strcmp name dotdot =? 0 then i_parent (inode_at s dir)
  else find_entry (Datatypes.S (size (objs s))) s name (i_children (inode_at s dir)).

(** [mode & 07777] *)
Definition perm_bits (mode : Z) : Z := mode .& 4095.

Definition ramfs_mkreg (dir : Z) (name : cstr) (mode : Z) : M fs Z :=
  n ← inode_new RF_REG (perm_bits mode .| 32768);   (* 0100000 *)
  if n =? 0 then mret 0
  else
    rc ← dir_link dir name n;
    if negb (rc =? 0) then free_obj n ≫= fun _ => mret 0 else mret n.

Definition ramfs_mkdir (dir : Z) (name : cstr) (mode : Z) : M fs Z :=
  n ← inode_new RF_DIR (perm_bits mode .| 16384);   (* 040000 *)
  if n =? 0 then mret 0
  else
    upd_inode n (set_parent dir) ≫= fun _ =>
    rc ← dir_link dir name n;
    if negb (rc =? 0) then free_obj n ≫= fun _ => mret 0 else mret n.

Definition ramfs_mklnk (dir : Z) (name target : cstr) : M fs Z :=
  n ← inode_new RF_LNK 41471;                       (* 0120777 *)
  if n =? 0 then mret 0
  else
    let len := strlen target in
    t ← in_mem (km_alloc (len +w 1));
    upd_inode n (set_target t) ≫= fun _ =>
    if t =? 0 then free_obj n ≫= fun _ => mret 0
    else
      put_obj t (OStr target) ≫= fun _ =>
      upd_inode n (set_size len) ≫= fun _ =>
      rc ← dir_link dir name n;
      if negb (rc =? 0) then free_obj t ≫= fun _ => free_obj n ≫= fun _ => mret 0 else mret n.

Definition ramfs_mknod (dir : Z) (name : cstr) (mode maj min : Z) : M fs Z :=
  n ← inode_new RF_CHR mode;
  if n =? 0 then mret 0
  else
    upd_inode n (set_rdev maj min) ≫= fun _ =>
    rc ← dir_link dir name n;
    if negb (rc =? 0) then free_obj n ≫= fun _ => mret 0 else mret n.

(** ** Path resolution *)

Fixpoint skip_slashes (p : cstr) : cstr :=
  match p with
  | c :: p' => if c =? SLASH then skip_slashes p' else p
  | [] => []
  end.

(** [while (p[i] && p[i] != '/' && i < sizeof(comp) - 1) i++] *)
Fixpoint comp_len (room : nat) (p : cstr) : nat :=
  match room, p with
  | Datatypes.S room', c :: p' => if c =? SLASH then O else Datatypes.S (comp_len room' p')
  | _, _ => O
  end.

Definition starts_slash (p : cstr) : bool := match p with c :: _ => c =? SLASH | [] => false end.
Definition is_nil {T} (l : list T) : bool := match l with [] => true | _ => false end.

(** The main loop of [lookup_b]: the result and what is left of the
    symlink budget.  Every round consumes a character of the path.  [rec] is
    the recursive call on a symlink target. *)
Fixpoint walk (rec : Z -> cstr -> Z -> Z * Z) (s : fs) (follow : bool) (fuel : nat)
    (cur : Z) (p : cstr) (budget : Z) : Z * Z :=
  match fuel with
  | O => (0, budget)
  | Datatypes.S fuel' =>
      if is_nil p then (cur, budget)
      else
        let i := comp_len (pred NAME_CAP) p in
        let comp := take i p in
        let nextp := drop i p in
        if negb (is_nil nextp) && negb (starts_slash nextp) then (0, budget)
        else
          let last := is_nil (skip_slashes nextp) in
          if (cur =? 0) || negb (bool_decide (i_type (inode_at s cur) = RF_DIR)) then (0, budget)
          else
            let child := ramfs_child s cur comp in
            if child =? 0 then (0, budget)
            else if bool_decide (i_type (inode_at s child) = RF_LNK) && (negb last || follow) then
              let budget := budget - 1 in
              if budget <? 0 then (0, budget)
              else
                let target := str_at s (i_target (inode_at s child)) in
                let base := if starts_slash target then root s else cur in
                let '(c, budget) := rec base target budget in
                if c =? 0 then (0, budget) else walk rec s follow fuel' c (skip_slashes nextp) budget
            else walk rec s follow fuel' child (skip_slashes nextp) budget
  end.

(** [depth] bounds the recursion into symlink targets: every such call has used
    one unit of the budget, so a depth as large as the budget is enough. *)
Fixpoint lookup_b (depth : nat) (s : fs) (start : Z) (path : cstr) (follow : bool) (budget : Z) : Z * Z :=
  let cur := if starts_slash path then root s else if start =? 0 then root s else start in
  let rec := match depth with
    | O => fun _ _ budget => (0, budget)
    | Datatypes.S depth' => fun base target budget => lookup_b depth' s base target true budget
    end in
  walk rec s follow (Datatypes.S (length path)) cur (skip_slashes path) budget.

Definition ramfs_lookup (s : fs) (start : Z) (path : cstr) (follow : bool) : Z :=
  (lookup_b (Z.to_nat (SYMLINK_MAX + 1)) s start path follow SYMLINK_MAX).1.

(** ** Regular-file data *)

(** [ino->pages[i]] and [ino->pages[i] = v] *)
Definition page_slot (s : fs) (n : rf_inode) (i : Z) : Z := default 0 (vec_at s (i_pages n) !! Z.to_nat i).
Definition set_slot (v : Z) (i : Z) (x : Z) : M fs unit :=
  modify (fun s => set_objs (<[v := OVec (<[Z.to_nat i := x]> (vec_at s v))]> (objs s)) s).

(** The growth of the page vector in [ensure_pages]. *)
Definition grow_vec (ino pages : Z) : M fs Z :=
  n ← get_inode ino;
  let newcap := if i_cap n =? 0 then 4 else i_cap n *w 2 in
  let newcap := if newcap <? pages then pages else newcap in
  np ← in_mem (km_realloc (i_pages n) (newcap *w 4));
  if np =? 0 then mret (-1)
  else
    modify (fun s =>
      let old := vec_at s (i_pages n) in
      set_objs (<[np := OVec (take (Z.to_nat (i_cap n)) old ++ replicate (Z.to_nat (newcap - i_cap n)) 0)]>
                (delete (i_pages n) (objs s))) s) ≫= fun _ =>
    upd_inode ino (fun n => set_vec np (i_npages n) newcap n) ≫= fun _ =>
    mret 0.

Definition ensure_pages (ino pages : Z) : M fs Z :=
  n ← get_inode ino;
  rc ← (if i_cap n <? pages then grow_vec ino pages else mret 0);
  if negb (rc =? 0) then mret (-1)
  else
    r ← forR (Z.to_nat (pages - i_npages n)) (i_npages n) 1 (fun i =>
      pa ← in_mem km_alloc_page;
      if pa =? 0 then mret (Some (-1))
      else
        n ← get_inode ino;
        set_slot (i_pages n) i pa ≫= fun _ => mret None);
    match r with
    | Some e => mret e
    | None =>
        upd_inode ino (fun n => if i_npages n <? pages then set_vec (i_pages n) pages (i_cap n) n else n) ≫= fun _ =>
        mret 0
    end.

(** The bytes [memcpy] moves into [dst]: one page's share per round. *)
Fixpoint read_loop (fuel : nat) (m : mem) (slot : Z -> Z) (off n done : Z) : list Z :=
  match fuel with
  | O => []
  | Datatypes.S fuel' =>
      if done <? n then
        let pos := off +w done in
        let pg := pos / PAGE_SIZE in
        let poff := pos mod PAGE_SIZE in
        let chunk := PAGE_SIZE - poff in
        let chunk := if n - done <? chunk then n - done else chunk in
        bytes_at m (slot pg + poff) (Z.to_nat chunk) ++ read_loop fuel' m slot off n (done + chunk)
      else []
  end.

(** rounds enough for [n] bytes *)
Definition chunks (n : Z) : nat := Z.to_nat (n / PAGE_SIZE + 2).

(** The result, and the bytes stored at [dst]. *)
Definition ramfs_read (s : fs) (ino off n : Z) : Z * list Z :=
  let nd := inode_at s ino in
  if negb (bool_decide (i_type nd = RF_REG)) then (-21, [])
  else if i_size nd <=? off then (0, [])
  else
    let n := if i_size nd - off <? n then i_size nd - off else n in
    let l := read_loop (chunks n) (km_mem (fmem s)) (page_slot s nd) off n 0 in
    (Z.of_nat (length l), l).

Fixpoint write_loop (fuel : nat) (m : mem) (slot : Z -> Z) (off : Z) (src : list Z) (n done : Z) : mem :=
  match fuel with
  | O => m
  | Datatypes.S fuel' =>
      if done <? n then
        let pos := off +w done in
        let pg := pos / PAGE_SIZE in
        let poff := pos mod PAGE_SIZE in
        let chunk := PAGE_SIZE - poff in
        let chunk := if n - done <? chunk then n - done else chunk in
        let m := poke m (slot pg + poff) (take (Z.to_nat chunk) (drop (Z.to_nat done) src)) in
        write_loop fuel' m slot off src n (done + chunk)
      else m
  end.

(** [src] holds the [n] bytes. *)
Definition ramfs_write (ino off : Z) (src : list Z) : M fs Z :=
  let n := Z.of_nat (length src) in
  nd ← get_inode ino;
  if negb (bool_decide (i_type nd = RF_REG)) then mret (-21)
  else if 0xFFFFFFFF - off <? n then mret (-22)
  else
    let end_ := off + n in
    let need_pages := (end_ +w PAGE_SIZE -w 1) / PAGE_SIZE in
    rc ← ensure_pages ino need_pages;
    if negb (rc =? 0) then mret (-12)
    else
      nd ← get_inode ino;
      slot ← gets (fun s => page_slot s nd);
      in_mem (km_store (fun m => write_loop (chunks n) m slot off src n 0)) ≫= fun _ =>
      upd_inode ino (fun nd => if i_size nd <? end_ then set_size end_ nd else nd) ≫= fun _ =>
      mret n.

Definition ramfs_truncate (ino newsize : Z) : M fs Z :=
  nd ← get_inode ino;
  if negb (bool_decide (i_type nd = RF_REG)) then mret (-21)
  else
    let need_pages := (newsize +w PAGE_SIZE -w 1) / PAGE_SIZE in
    rc ← (if i_size nd <? newsize then ensure_pages ino need_pages
          else
            forM (Z.to_nat (i_npages nd - need_pages)) need_pages 1 (fun i =>
              pa ← gets (fun s => page_slot s nd i);
              if pa =? 0 then mret tt
              else in_mem (km_free_page pa) ≫= fun _ => set_slot (i_pages nd) i 0) ≫= fun _ =>
            upd_inode ino (fun n => if need_pages <? i_npages n then set_vec (i_pages n) need_pages (i_cap n) n else n) ≫= fun _ =>
            mret 0);
    if negb (rc =? 0) then mret (-12)
    else upd_inode ino (set_size newsize) ≫= fun _ => mret 0.

(** The address of the byte at [off], and the bytes left in its page. *)
Definition ramfs_page_at (s : fs) (ino off : Z) : Z * Z :=
  let nd := inode_at s ino in
  if negb (bool_decide (i_type nd = RF_REG)) || (i_size nd <=? off) then (0, 0)
  else
    let pg := off / PAGE_SIZE in
    let poff := off mod PAGE_SIZE in
    let a := PAGE_SIZE - poff in
    let a := if i_size nd - off <? a then i_size nd - off else a in
    (page_slot s nd pg + poff, a).

(** ** Pipes *)

Definition ramfs_pipe : M fs Z :=
  p ← inode_new RF_PIPE 4480;                       (* 0010600 *)
  if p =? 0 then mret 0
  else
    b ← in_mem (km_alloc PIPE_CAP);
    if b =? 0 then free_obj p ≫= fun _ => mret 0
    else
      put_obj b (ORing (replicate (Z.to_nat PIPE_CAP) 0)) ≫= fun _ =>
      upd_inode p (fun n => set_open 0 0 (set_ring b 0 0 0 n)) ≫= fun _ =>
      mret p.

(** [while (got < n && p->size > 0)]: ring, tail and size after it, and the
    bytes moved out. *)
Fixpoint pipe_take (n : nat) (ring : list Z) (ptail size : Z) : list Z * Z * Z :=
  match n with
  | O => ([], ptail, size)
  | Datatypes.S n' =>
      if 0 <? size then
        let b := default 0 (ring !! Z.to_nat ptail) in
        let '(l, t, z) := pipe_take n' ring ((ptail + 1) mod PIPE_CAP) (size - 1) in
        (b :: l, t, z)
      else ([], ptail, size)
  end.

Definition ramfs_pipe_read (p n : Z) : M fs (Z * list Z) :=
  nd ← get_inode p;
  if negb (bool_decide (i_type nd = RF_PIPE)) then mret (-22, [])
  else
    ring ← gets (fun s => ring_at s (i_pbuf nd));
    let '(l, t, z) := pipe_take (Z.to_nat n) ring (i_ptail nd) (i_size nd) in
    upd_inode p (fun nd => set_ring (i_pbuf nd) (i_phead nd) t z nd) ≫= fun _ =>
    mret (Z.of_nat (length l), l).

(** [while (put < n && p->size < PIPE_CAP)] *)
Fixpoint pipe_put (src : list Z) (ring : list Z) (phead size : Z) : list Z * Z * Z * Z :=
  match src with
  | [] => (ring, phead, size, 0)
  | b :: src' =>
      if size <? PIPE_CAP then
        let '(r, h, z, k) := pipe_put src' (<[Z.to_nat phead := b]> ring) ((phead + 1) mod PIPE_CAP) (size + 1) in
        (r, h, z, k + 1)
      else (ring, phead, size, 0)
  end.

Definition ramfs_pipe_write (p : Z) (src : list Z) : M fs Z :=
  nd ← get_inode p;
  if negb (bool_decide (i_type nd = RF_PIPE)) then mret (-22)
  else if i_rd_open nd =? 0 then mret (-32)
  else
    ring ← gets (fun s => ring_at s (i_pbuf nd));
    let '(r, h, z, k) := pipe_put src ring (i_phead nd) (i_size nd) in
    put_obj (i_pbuf nd) (ORing r) ≫= fun _ =>
    upd_inode p (fun nd => set_ring (i_pbuf nd) h (i_ptail nd) z nd) ≫= fun _ =>
    mret k.
End model.

Arguments fs S : clear implicits.
