(* ===== verification/RamfsPipe.v ===== *)
(** Pipes of [ramfs.c]: the ring buffer is a bounded queue. *)

From stdpp Require Import gmap list fin_maps.
From Stdlib Require Import ZArith Lia.
From S2P Require Import Prelude Memory Frames KernMem Kmalloc Pmm Heap Ramfs.

(** The [size] bytes of the ring from [ptail] on, oldest first. *)
Definition queue (ring : list Z) (ptail size : Z) : list Z :=
  (fun i => default 0 (ring !! Z.to_nat ((ptail + i) mod PIPE_CAP))) <$> seqZ 0 size.

Definition ring_ok (ring : list Z) (phead ptail size : Z) : Prop :=
  length ring = Z.to_nat PIPE_CAP /\ 0 <= ptail < PIPE_CAP /\ 0 <= size <= PIPE_CAP /\
  phead = (ptail + size) mod PIPE_CAP.

Lemma length_queue ring t z : length (queue ring t z) = Z.to_nat z.
Proof. unfold queue. by rewrite length_fmap, length_seqZ. Qed.

Lemma queue_cons ring t z :
  0 <= t < PIPE_CAP -> 0 < z ->
  queue ring t z = default 0 (ring !! Z.to_nat t) :: queue ring ((t + 1) mod PIPE_CAP) (z - 1).
Proof.
  intros Ht Hz. unfold queue. rewrite seqZ_cons by lia. rewrite fmap_cons. f_equal.
  - by rewrite Z.add_0_r, Z.mod_small.
  - replace (Z.succ 0) with (1 + 0) by lia. rewrite <- fmap_add_seqZ, <- list_fmap_compose.
    replace (Z.pred z) with (z - 1) by lia. apply list_fmap_ext. intros i x _. cbn. do 3 f_equal.
    rewrite Zplus_mod_idemp_l. f_equal. lia.
Qed.

(** Storing at [phead] appends. *)
Lemma queue_snoc ring h t z b :
  ring_ok ring h t z -> z < PIPE_CAP ->
  queue (<[Z.to_nat h := b]> ring) t (z + 1) = queue ring t z ++ [b].
Proof.
  intros (Hlen & Ht & Hz & Hh) Hlt. unfold queue. rewrite seqZ_app, fmap_app by lia. f_equal.
  - apply list_fmap_ext. intros i x Hx. apply lookup_seqZ in Hx as [-> Hi].
    rewrite list_lookup_insert_ne; [done|]. intros Heq. subst h. unfold PIPE_CAP in *.
    apply Z2Nat.inj in Heq; [|apply Z.mod_pos_bound; lia..]. Z.div_mod_to_equations. lia.
  - rewrite (seqZ_cons (0 + z) 1), (seqZ_nil _ (Z.pred 1)) by lia. cbn [fmap list_fmap]. f_equal.
    rewrite Z.add_0_l, <- Hh.
    rewrite list_lookup_insert_eq; [done|]. rewrite Hlen. unfold PIPE_CAP in *.
    subst h. pose proof (Z.mod_pos_bound (t + z) 4096). lia.
Qed.

Lemma pipe_put_spec src ring h t z :
  ring_ok ring h t z ->
  let '(r, h', z', k) := pipe_put src ring h z in
  k = Z.min (Z.of_nat (length src)) (PIPE_CAP - z) /\ ring_ok r h' t z' /\
  queue r t z' = queue ring t z ++ take (Z.to_nat k) src.
Proof.
  revert ring h z. induction src as [|b src IH]; intros ring h z Hok; cbn [pipe_put].
  - destruct Hok as (H1 & H2 & H3 & H4). split; [cbn; lia|]. split; [done|]. by rewrite take_nil, app_nil_r.
  - destruct (Z.ltb_spec z PIPE_CAP) as [Hlt|Hge].
    + assert (Hok' : ring_ok (<[Z.to_nat h := b]> ring) ((h + 1) mod PIPE_CAP) t (z + 1)).
      { destruct Hok as (H1 & H2 & H3 & H4). split; [by rewrite length_insert|]. split; [done|]. split; [lia|].
        subst h. rewrite Zplus_mod_idemp_l. f_equal. lia. }
      specialize (IH _ _ _ Hok'). destruct (pipe_put src _ _ (z + 1)) as [[[r h'] z'] k].
      destruct IH as (-> & Hr & Hq). split; [cbn [length]; lia|]. split; [done|].
      rewrite Hq, (queue_snoc _ _ _ _ _ Hok Hlt), <- app_assoc. f_equal.
      destruct Hok as (_ & _ & Hz & _). 
      replace (Z.to_nat (_ + 1)) with (S (Z.to_nat (Z.min (Z.of_nat (length src)) (PIPE_CAP - (z + 1))))) by lia.
      done.
    + destruct Hok as (H1 & H2 & H3 & H4). split; [cbn [length]; lia|]. split; [done|]. by rewrite app_nil_r.
Qed.

Lemma pipe_take_spec n ring h t z :
  ring_ok ring h t z ->
  let '(l, t', z') := pipe_take n ring t z in
  l = take n (queue ring t z) /\ ring_ok ring h t' z' /\ queue ring t' z' = drop n (queue ring t z).
Proof.
  revert t z. induction n as [|n IH]; intros t z Hok; cbn [pipe_take].
  - by rewrite take_0, drop_0.
  - destruct (Z.ltb_spec 0 z) as [Hlt|Hge].
    + assert (Hok' : ring_ok ring h ((t + 1) mod PIPE_CAP) (z - 1)).
      { destruct Hok as (H1 & H2 & H3 & H4). split; [done|]. split; [apply Z.mod_pos_bound; done|]. split; [lia|].
        subst h. rewrite Zplus_mod_idemp_l. f_equal. lia. }
      specialize (IH _ _ Hok'). destruct (pipe_take n ring _ (z - 1)) as [[l t'] z'].
      destruct IH as (-> & Hr & Hq). destruct Hok as (_ & Ht & _ & _). rewrite (queue_cons ring t z) by done.
      split; [done|]. split; [done|]. exact Hq.
    + assert (z = 0) as -> by (destruct Hok as (_ & _ & Hz & _); lia). done.
Qed.

Section pipes.
Context {S : Type} {KM : KMem S} {KS : KMemSpec S}.
Implicit Types (s : fs S).

(** [p] is a pipe that holds the bytes [q]. *)
Definition pipe_rep s (p : Z) (q : list Z) : Prop :=
  exists nd ring, objs s !! p = Some (OInode nd) /\ i_type nd = RF_PIPE /\
    objs s !! i_pbuf nd = Some (ORing ring) /\ ring_ok ring (i_phead nd) (i_ptail nd) (i_size nd) /\
    q = queue ring (i_ptail nd) (i_size nd).

Lemma inode_at_Some s p nd : objs s !! p = Some (OInode nd) -> inode_at s p = nd.
Proof. unfold inode_at. by intros ->. Qed.

Lemma pipe_write_spec s p q src :
  pipe_rep s p q -> i_rd_open (inode_at s p) <> 0 ->
  wp (ramfs_pipe_write p src) s (fun k s' =>
    k = Z.min (Z.of_nat (length src)) (PIPE_CAP - Z.of_nat (length q)) /\
    pipe_rep s' p (q ++ take (Z.to_nat k) src) /\ i_rd_open (inode_at s' p) = i_rd_open (inode_at s p)).
Proof.
  intros (nd & ring & Hp & Hty & Hr & Hok & ->) Hrd. rewrite (inode_at_Some _ _ _ Hp) in *.
  unfold ramfs_pipe_write, get_inode, put_obj, upd_inode. wp_steps. rewrite (inode_at_Some _ _ _ Hp).
  rewrite bool_decide_eq_true_2 by done. cbn [negb]. rewrite (proj2 (Z.eqb_neq _ _)) by done. wp_steps.
  assert (Hra : ring_at s (i_pbuf nd) = ring) by (unfold ring_at; by rewrite Hr). rewrite Hra.
  pose proof (pipe_put_spec src ring _ _ _ Hok) as Hput.
  destruct (pipe_put src ring (i_phead nd) (i_size nd)) as [[[r h] z] k]. destruct Hput as (Hk & Hok' & Hq).
  assert (Hne : i_pbuf nd <> p) by congruence. wp_steps.
  assert (Hin : inode_at (set_objs (<[i_pbuf nd := ORing r]> (objs s)) s) p = nd).
  { apply inode_at_Some. cbn. by rewrite lookup_insert_ne. }
  rewrite !Hin, length_queue. destruct Hok as (_ & _ & Hz & _).
  split; [rewrite Z2Nat.id by lia; done|]. split.
  - exists (set_ring (i_pbuf nd) h (i_ptail nd) z nd), r. cbn. rewrite lookup_insert_eq.
    rewrite lookup_insert_ne, lookup_insert_eq by done. done.
  - erewrite inode_at_Some by (cbn; apply lookup_insert_eq). done.
Qed.

Lemma pipe_read_spec s p q n :
  pipe_rep s p q ->
  wp (ramfs_pipe_read p n) s (fun '(k, l) s' =>
    l = take (Z.to_nat n) q /\ k = Z.of_nat (length l) /\ pipe_rep s' p (drop (Z.to_nat n) q)).
Proof.
  intros (nd & ring & Hp & Hty & Hr & Hok & ->).
  unfold ramfs_pipe_read, get_inode, upd_inode. wp_steps. rewrite (inode_at_Some _ _ _ Hp).
  rewrite bool_decide_eq_true_2 by done. cbn [negb]. wp_steps.
  assert (Hra : ring_at s (i_pbuf nd) = ring) by (unfold ring_at; by rewrite Hr). rewrite Hra.
  pose proof (pipe_take_spec (Z.to_nat n) ring _ _ _ Hok) as Htake.
  destruct (pipe_take (Z.to_nat n) ring (i_ptail nd) (i_size nd)) as [[l t] z]. destruct Htake as (-> & Hok' & Hq).
  wp_steps. split; [done|]. split; [done|]. assert (Hne : i_pbuf nd <> p) by congruence.
  exists (set_ring (i_pbuf nd) (i_phead nd) t z nd), ring. cbn. rewrite lookup_insert_eq, (inode_at_Some _ _ _ Hp).
  rewrite lookup_insert_ne by done. done.
Qed.

(** C26. A pipe is a queue of at most 4096 bytes: a write appends as many of its
    bytes as fit and reports their number, a read takes the oldest bytes, and
    a pipe without reader refuses the write; no byte is lost, duplicated or
    reordered, however the ring wraps. *)
Theorem pipe_refines_queue s p q :
  pipe_rep s p q ->
  Z.of_nat (length q) <= PIPE_CAP /\
  (forall src k s', ramfs_pipe_write p src s = (k, s') ->
     if i_rd_open (inode_at s p) =? 0 then k = -32 /\ s' = s
     else k = Z.min (Z.of_nat (length src)) (PIPE_CAP - Z.of_nat (length q)) /\
          pipe_rep s' p (q ++ take (Z.to_nat k) src)) /\
  (forall n k l s', ramfs_pipe_read p n s = ((k, l), s') ->
     l = take (Z.to_nat n) q /\ k = Z.of_nat (length l) /\ pipe_rep s' p (drop (Z.to_nat n) q)).
Proof.
  intros Hp. split; [|split].
  - destruct Hp as (nd & ring & _ & _ & _ & (_ & _ & Hz & _) & ->). rewrite length_queue. lia.
  - intros src k s' Heq. destruct (Z.eqb_spec (i_rd_open (inode_at s p)) 0) as [H0|H0].
    + destruct Hp as (nd & ring & Hp & Hty & _). rewrite (inode_at_Some _ _ _ Hp) in H0.
      unfold ramfs_pipe_write, get_inode, gets, mbind, M_bind in Heq.
      rewrite (inode_at_Some _ _ _ Hp), bool_decide_eq_true_2, H0 in Heq by done. cbn in Heq. by injection Heq as <- <-.
    + destruct (wp_eq _ _ _ _ _ Heq (pipe_write_spec s p q src Hp H0)) as (H1 & H2 & _). done.
  - intros n k l s' Heq. exact (wp_eq _ _ _ _ _ Heq (pipe_read_spec s p q n Hp)).
Qed.
End pipes.

(** A pipe with readers at the end of its ring. *)
Definition demo_pipe : fs (kmem pmm) :=
  Fs demo_heap {[ 64 := OInode (set_open 1 1 (set_ring 4200 4094 4094 0 (set_type RF_PIPE inode_zero)));
                  4200 := ORing (replicate 4096 0) ]} 0 1.

Lemma demo_pipe_rep : pipe_rep demo_pipe 64 [].
Proof.
  exists (set_open 1 1 (set_ring 4200 4094 4094 0 (set_type RF_PIPE inode_zero))), (replicate 4096 0).
  split; [reflexivity|]. split; [reflexivity|]. split; [reflexivity|]. split; [|reflexivity].
  split; [apply length_replicate|]. unfold PIPE_CAP. cbn [i_phead i_ptail i_size set_open set_ring set_type].
  repeat split; lia.
Qed.

(** the ring wraps: [1;2;3;4] written at position 4094 and read back *)
Lemma pipe_refines_queue_witness :
  pipe_rep (ramfs_pipe_write 64 [1; 2; 3; 4] demo_pipe).2 64 [1; 2; 3; 4] /\
  (ramfs_pipe_read 64 3 (ramfs_pipe_write 64 [1; 2; 3; 4] demo_pipe).2).1 = (3, [1; 2; 3]).
Proof.
  split; [|vm_compute; reflexivity].
  destruct (pipe_refines_queue demo_pipe 64 [] demo_pipe_rep) as (_ & Hw & _).
  destruct (Hw [1; 2; 3; 4] (ramfs_pipe_write 64 [1; 2; 3; 4] demo_pipe).1
    (ramfs_pipe_write 64 [1; 2; 3; 4] demo_pipe).2 (surjective_pairing _)) as [Hk Hr].
  rewrite Hk in Hr. exact Hr.
Defined.
