(* ===== verification/RamfsData.v ===== *)
(** File contents in [ramfs.c]: reading, writing, growing and truncating files
    that live in page frames. *)

From stdpp Require Import gmap list fin_maps.
From Stdlib Require Import ZArith Lia.
From S2P Require Import Prelude Memory Frames KernMem Kmalloc Pmm Heap Ramfs.

(** * The copy loops *)

Section loops.
Context (slot : Z -> Z) (off n : Z).

(** address of byte [pos] of the file *)
Definition addr (pos : Z) : Z := slot (pos / PAGE_SIZE) + pos mod PAGE_SIZE.

Lemma addr_step pos i :
  0 <= i < PAGE_SIZE - pos mod PAGE_SIZE -> addr (pos + i) = addr pos + i.
Proof.
  unfold addr, PAGE_SIZE. intros Hi.
  assert ((pos + i) / 4096 = pos / 4096 /\ (pos + i) mod 4096 = pos mod 4096 + i) as [-> ->];
    [split; Z.div_mod_to_equations; lia|lia].
Qed.

(** what one round of a loop moves *)
Definition chunk_at (done : Z) : Z :=
  if n - done <? PAGE_SIZE - (off + done) mod PAGE_SIZE then n - done else PAGE_SIZE - (off + done) mod PAGE_SIZE.

Lemma chunk_range done : done < n -> 0 < chunk_at done <= n - done /\ chunk_at done <= PAGE_SIZE - (off + done) mod PAGE_SIZE.
Proof.
  intros H. unfold chunk_at. pose proof (Z.mod_pos_bound (off + done) PAGE_SIZE ltac:(done)). case_bool; lia.
Qed.

(** rounds left *)
Definition rounds (done : Z) : Z := if n <=? done then 0 else ((off + done) mod PAGE_SIZE + (n - done) + PAGE_SIZE - 1) / PAGE_SIZE.

Lemma rounds_step done : 0 <= off -> 0 <= done < n -> rounds (done + chunk_at done) < rounds done /\ 0 < rounds done.
Proof.
  intros Hoff Hd. unfold rounds, chunk_at, PAGE_SIZE. rewrite (proj2 (Z.leb_gt n done)) by lia.
  destruct (Z.ltb_spec (n - done) (4096 - (off + done) mod 4096)).
  - rewrite (proj2 (Z.leb_le n _)) by lia. Z.div_mod_to_equations. lia.
  - destruct (Z.leb_spec n (done + (4096 - (off + done) mod 4096))); [Z.div_mod_to_equations; lia|].
    assert ((off + (done + (4096 - (off + done) mod 4096))) mod 4096 = 0) as -> by (Z.div_mod_to_equations; lia).
    Z.div_mod_to_equations. lia.
Qed.

Lemma rounds_chunks done : 0 <= off -> 0 <= done <= n -> rounds done <= Z.of_nat (chunks n).
Proof. intros. unfold rounds, chunks, PAGE_SIZE. case_bool; Z.div_mod_to_equations; lia. Qed.

Lemma rounds_end done : 0 <= off -> 0 <= done <= n -> rounds done <= 0 -> done = n.
Proof. unfold rounds, PAGE_SIZE. intros. revert H1. case_bool; Z.div_mod_to_equations; lia. Qed.

Lemma read_loop_eq fuel m done :
  0 <= off -> off + n <= 2 ^ 32 -> 0 <= done <= n -> rounds done <= Z.of_nat fuel ->
  read_loop fuel m slot off n done = (fun k => ldb m (addr (off + k))) <$> seqZ done (n - done).
Proof.
  intros Hoff Hend. revert done. induction fuel as [|fuel IH]; intros done Hd Hr.
  - rewrite (rounds_end done) by lia. by rewrite Z.sub_diag.
  - cbn [read_loop]. destruct (Z.ltb_spec done n) as [Hlt|Hge].
    2: { replace (n - done) with 0 by lia. done. }
    rewrite (u32_small (off + done)) by lia. change (if n - done <? _ then _ else _) with (chunk_at done).
    destruct (chunk_range done Hlt) as [Hc1 Hc2]. destruct (rounds_step done) as [Hr1 Hr2]; [lia..|].
    rewrite IH by lia. replace (n - done) with (chunk_at done + (n - (done + chunk_at done))) by lia.
    rewrite seqZ_app, fmap_app by lia. f_equal. unfold bytes_at. rewrite Z2Nat.id by lia.
    assert (seqZ done (chunk_at done) = Z.add done <$> seqZ 0 (chunk_at done)) as ->
      by (rewrite fmap_add_seqZ; f_equal; lia).
    rewrite <- list_fmap_compose. apply list_fmap_ext. intros i x Hx. apply lookup_seqZ in Hx as [-> Hi]. cbn beta.
    rewrite Z.add_0_l. unfold compose. replace (off + (done + Z.of_nat i)) with (off + done + Z.of_nat i) by lia.
    rewrite addr_step by lia. done.
Qed.

(** The bytes of the file the loop covers, and nothing else. *)
Lemma write_loop_spec fuel m src done :
  0 <= off -> off + n <= 2 ^ 32 -> 0 <= done <= n -> n = Z.of_nat (length src) -> rounds done <= Z.of_nat fuel ->
  (forall i j, 0 <= i < n -> 0 <= j < n -> addr (off + i) = addr (off + j) -> i = j) ->
  let m' := write_loop fuel m slot off src n done in
  (forall k, done <= k < n -> ldb m' (addr (off + k)) = u8 (default 0 (src !! Z.to_nat k))) /\
  (forall x, (forall k, done <= k < n -> x <> addr (off + k)) -> ldb m' x = ldb m x).
Proof.
  intros Hoff Hend Hd Hn Hr Hinj. revert m done Hd Hr. induction fuel as [|fuel IH]; intros m done Hd Hr.
  - rewrite (rounds_end done) by lia. cbn. split; [lia|done].
  - cbn [write_loop]. destruct (Z.ltb_spec done n) as [Hlt|Hge]; [|cbn; split; [lia|done]].
    rewrite (u32_small (off + done)) by lia. change (if n - done <? _ then _ else _) with (chunk_at done).
    destruct (chunk_range done Hlt) as [Hc1 Hc2]. destruct (rounds_step done) as [Hr1 Hr2]; [lia..|].
    set (c := chunk_at done) in *. clearbody c.
    change (slot ((off + done) / PAGE_SIZE) + (off + done) mod PAGE_SIZE) with (addr (off + done)).
    set (l := take (Z.to_nat c) (drop (Z.to_nat done) src)).
    assert (Hl : Z.of_nat (length l) = c) by (unfold l; rewrite length_take, length_drop; lia).
    destruct (IH (poke m (addr (off + done)) l) (done + c)) as [H1 H2]; [lia..|].
    assert (Hcov : forall k, done <= k < done + c -> addr (off + k) = addr (off + done) + (k - done)).
    { intros k Hk. replace (off + k) with (off + done + (k - done)) by lia. apply addr_step. lia. }
    split.
    + intros k Hk. destruct (Z_lt_dec k (done + c)) as [Hkc|Hkc]; [|apply H1; lia].
      rewrite H2, poke_lookup, Hl.
      * rewrite (Hcov k), decide_True by (unfold in_range; lia). f_equal.
        replace (addr (off + done) + (k - done) - addr (off + done)) with (k - done) by lia.
        unfold l. rewrite lookup_take_lt, lookup_drop by lia. do 2 f_equal. lia.
      * intros j Hj Heq. apply Hinj in Heq; lia.
    + intros x Hx. rewrite H2, poke_lookup, Hl by (intros k Hk; apply Hx; lia).
      rewrite decide_False; [done|]. intros Hin. unfold in_range in Hin.
      apply (Hx (done + (x - addr (off + done)))); [lia|]. rewrite (Hcov (done + _)) by lia. lia.
Qed.
End loops.

(** * Well-formed file data *)

Section data.
Context {S : Type} {KM : KMem S} {KS : KMemSpec S}.
Implicit Types (s t : fs S) (F : gset Z) (nd : rf_inode).

(** [p] is a regular file. *)
Definition reg s (p : Z) nd : Prop := objs s !! p = Some (OInode nd) /\ i_type nd = RF_REG.

(** The page vector of [nd] is a heap object with [cap] slots. *)
Definition vec_ok s nd : Prop :=
  0 <= i_npages nd <= i_cap nd /\ i_cap nd <= 2 ^ 21 /\
  ((i_cap nd = 0 /\ i_pages nd = 0) \/
   (i_pages nd <> 0 /\ exists l, objs s !! i_pages nd = Some (OVec l) /\ length l = Z.to_nat (i_cap nd))).

(** [F] are the frames the file system owns: each page of each file is one of
    them, and no two pages share one. *)
Record data_ok s F : Prop := {
  dk_km : km_ok (fmem s) F (dom (objs s));
  dk_vec : forall p nd, reg s p nd -> vec_ok s nd;
  dk_size : forall p nd, reg s p nd -> 0 <= i_size nd <= i_npages nd * PAGE_SIZE /\ i_npages nd <= 2 ^ 20;
  dk_page : forall p nd i, reg s p nd -> 0 <= i < i_npages nd -> page_slot s nd i ∈ F;
  dk_inj : forall p q nd nd' i j, reg s p nd -> reg s q nd' -> 0 <= i < i_npages nd -> 0 <= j < i_npages nd' ->
    page_slot s nd i = page_slot s nd' j -> p = q /\ i = j;
  dk_vinj : forall p q nd nd', reg s p nd -> reg s q nd' -> i_pages nd = i_pages nd' -> i_pages nd <> 0 -> p = q;
}.

(** Byte [k] of the pages of a file, whether before or after its size. *)
Definition fbyte s nd (k : Z) : Z := ldb (km_mem (fmem s)) (addr (page_slot s nd) k).

(** The contents of a file. *)
Definition contents s nd : list Z := fbyte s nd <$> seqZ 0 (i_size nd).

Lemma reg_fun s p nd nd' : reg s p nd -> reg s p nd' -> nd = nd'.
Proof. intros [H1 _] [H2 _]. congruence. Qed.

Lemma reg_inode_at s p nd : reg s p nd -> inode_at s p = nd.
Proof. intros [H _]. unfold inode_at. by rewrite H. Qed.

Lemma slot_ext s s' nd nd' i :
  i_pages nd' = i_pages nd -> objs s' !! i_pages nd = objs s !! i_pages nd ->
  page_slot s' nd' i = page_slot s nd i.
Proof. intros H1 H2. unfold page_slot, vec_at. by rewrite H1, H2. Qed.

(** Changing one file [p], from [nd] to [nd']. *)
Lemma data_ok_change s s' F F' p nd nd' :
  data_ok s F -> reg s p nd -> reg s' p nd' -> km_ok (fmem s') F' (dom (objs s')) ->
  (forall q nq i, q <> p -> reg s q nq -> 0 <= i < i_npages nq -> page_slot s nq i ∈ F') ->
  (forall q nq, q <> p -> reg s' q nq <-> reg s q nq) ->
  (forall q nq, q <> p -> reg s q nq -> i_pages nq <> 0 -> objs s' !! i_pages nq = objs s !! i_pages nq) ->
  (forall q nq, q <> p -> reg s q nq -> i_pages nq <> 0 -> i_pages nq <> i_pages nd') ->
  vec_ok s' nd' -> 0 <= i_size nd' <= i_npages nd' * PAGE_SIZE -> i_npages nd' <= 2 ^ 20 ->
  (forall i, 0 <= i < i_npages nd' -> page_slot s' nd' i ∈ F' /\
     forall q nq j, q <> p -> reg s q nq -> 0 <= j < i_npages nq -> page_slot s' nd' i <> page_slot s nq j) ->
  (forall i j, 0 <= i < i_npages nd' -> 0 <= j < i_npages nd' -> page_slot s' nd' i = page_slot s' nd' j -> i = j) ->
  data_ok s' F'.
Proof.
  intros Hd Hp Hp' Hkm HF Hreg Hvec Hne Hv Hsz Hnp Hslot Hinj.
  assert (Hcase : forall q nq, reg s' q nq -> (q = p /\ nq = nd') \/ (q <> p /\ reg s q nq)).
  { intros q nq Hq. destruct (decide (q = p)) as [->|]; [left|right; split; [done|by apply Hreg]].
    split; [done|]. by eapply reg_fun. }
  assert (Hsame : forall q nq i, q <> p -> reg s q nq -> 0 <= i < i_npages nq -> page_slot s' nq i = page_slot s nq i).
  { intros q nq i Hqp Hq Hi. apply slot_ext; [done|]. apply (Hvec q); try done.
    destruct (dk_vec _ _ Hd q nq Hq) as (Hr & _ & [[Hc _]|[Hz _]]); [lia|done]. }
  split.
  - done.
  - intros q nq Hq. destruct (Hcase q nq Hq) as [[-> ->]|[Hqp Hq']]; [done|].
    destruct (dk_vec _ _ Hd q nq Hq') as (Hr & Hc & Hl). split; [done|]. split; [done|].
    destruct Hl as [?|[Hz (l & Hl & Hlen)]]; [by left|right]. split; [done|]. exists l.
    rewrite (Hvec q nq) by done. done.
  - intros q nq Hq. destruct (Hcase q nq Hq) as [[-> ->]|[Hqp Hq']]; [done|]. by apply (dk_size _ _ Hd q).
  - intros q nq i Hq Hi. destruct (Hcase q nq Hq) as [[-> ->]|[Hqp Hq']]; [by apply Hslot|].
    rewrite (Hsame q) by done. by apply (HF q).
  - intros q r nq nr i j Hq Hr Hi Hj.
    destruct (Hcase q nq Hq) as [[-> ->]|[Hqp Hq']], (Hcase r nr Hr) as [[-> ->]|[Hrp Hr']].
    + intros Heq. split; [done|]. by apply Hinj.
    + rewrite (Hsame r nr j) by done. intros Heq. exfalso. by apply (proj2 (Hslot i Hi) r nr j).
    + rewrite (Hsame q nq i) by done. intros Heq. exfalso. by apply (proj2 (Hslot j Hj) q nq i).
    + rewrite (Hsame q nq i), (Hsame r nr j) by done. by apply (dk_inj _ _ Hd).
  - intros q r nq nr Hq Hr Heq Hz.
    destruct (Hcase q nq Hq) as [[-> ->]|[Hqp Hq']], (Hcase r nr Hr) as [[-> ->]|[Hrp Hr']].
    + done.
    + exfalso. apply (Hne r nr Hrp Hr'); congruence.
    + exfalso. by apply (Hne q nq Hqp Hq').
    + by apply (dk_vinj _ _ Hd q r nq nr).
Qed.

Lemma data_ok_update s s' F F' p nd nd' :
  data_ok s F -> reg s p nd -> reg s' p nd' -> km_ok (fmem s') F' (dom (objs s')) -> F ⊆ F' ->
  (forall q nq, q <> p -> reg s' q nq <-> reg s q nq) ->
  (forall q nq, q <> p -> reg s q nq -> i_pages nq <> 0 -> objs s' !! i_pages nq = objs s !! i_pages nq) ->
  (forall q nq, q <> p -> reg s q nq -> i_pages nq <> 0 -> i_pages nq <> i_pages nd') ->
  vec_ok s' nd' -> 0 <= i_size nd' <= i_npages nd' * PAGE_SIZE -> i_npages nd' <= 2 ^ 20 ->
  (forall i, 0 <= i < i_npages nd' -> page_slot s' nd' i ∈ F' /\
     forall q nq j, q <> p -> reg s q nq -> 0 <= j < i_npages nq -> page_slot s' nd' i <> page_slot s nq j) ->
  (forall i j, 0 <= i < i_npages nd' -> 0 <= j < i_npages nd' -> page_slot s' nd' i = page_slot s' nd' j -> i = j) ->
  data_ok s' F'.
Proof.
  intros Hd Hp Hp' Hkm HF H1 H2 H3 H4 H5 H6 H7 H8. apply (data_ok_change s s' F F' p nd nd'); try done.
  intros q nq i Hq Hrq Hi. apply HF. by apply (dk_page _ _ Hd q).
Qed.

(** A slot that [p] had before, or one outside [F], is no page of another file. *)
Lemma slot_fresh s F p nd f :
  data_ok s F -> reg s p nd -> (exists i, 0 <= i < i_npages nd /\ f = page_slot s nd i) \/ f ∉ F ->
  forall q nq j, q <> p -> reg s q nq -> 0 <= j < i_npages nq -> f <> page_slot s nq j.
Proof.
  intros Hd Hp Hf q nq j Hq Hrq Hj ->. destruct Hf as [(i & Hi & Heq)|Hn].
  - apply Hq. by apply (dk_inj _ _ Hd q p nq nd j i).
  - apply Hn. by apply (dk_page _ _ Hd q).
Qed.

(** Everything but the file [p] and page vectors is as before. *)
Definition rest_same s s' (p : Z) : Prop :=
  root s' = root s /\ next_ino s' = next_ino s /\
  (forall q o, q <> p -> (forall l, o <> OVec l) -> objs s' !! q = Some o <-> objs s !! q = Some o).

(** All other files keep their frames. *)
Definition slots_same s s' (p : Z) : Prop :=
  forall q nq i, reg s q nq -> q <> p -> 0 <= i < i_npages nq -> page_slot s' nq i = page_slot s nq i.

Lemma rest_same_refl s p : rest_same s s p.
Proof. done. Qed.

Lemma rest_same_trans s t u p : rest_same s t p -> rest_same t u p -> rest_same s u p.
Proof.
  intros (H1 & H2 & H3) (G1 & G2 & G3). split; [congruence|]. split; [congruence|].
  intros q o Hq Ho. rewrite G3, H3 by done. done.
Qed.

Lemma rest_same_reg s s' p q nq : rest_same s s' p -> q <> p -> reg s' q nq <-> reg s q nq.
Proof. intros (_ & _ & H) Hq. unfold reg. rewrite (H q (OInode nq)) by done. done. Qed.

Lemma wp_get_inode p s (Q : rf_inode -> fs S -> Prop) : Q (inode_at s p) s -> wp (get_inode p) s Q.
Proof. done. Qed.

Lemma set_fmem_id s : set_fmem (fmem s) s = s.
Proof. by destruct s. Qed.

Lemma page_addr_range k n : 0 <= k < n * PAGE_SIZE -> 0 <= k / PAGE_SIZE < n.
Proof. unfold PAGE_SIZE. intros. Z.div_mod_to_equations. lia. Qed.

(** Equal slots and equal frames: equal bytes. *)
Lemma fbyte_ext s s' nd nd' F k :
  data_ok s F -> same_frames F (fmem s) (fmem s') -> page_slot s nd (k / PAGE_SIZE) ∈ F ->
  page_slot s' nd' (k / PAGE_SIZE) = page_slot s nd (k / PAGE_SIZE) -> fbyte s' nd' k = fbyte s nd k.
Proof.
  intros Hd Hsf Hin Heq. unfold fbyte, addr. rewrite Heq. apply (Hsf _ _ Hin).
  pose proof (Z.mod_pos_bound k PAGE_SIZE ltac:(done)). unfold in_range. lia.
Qed.

Lemma grow_vec_spec s F p nd pages :
  data_ok s F -> reg s p nd -> i_cap nd < pages <= 2 ^ 20 ->
  wp (grow_vec p pages) s (fun r s' =>
    (r = -1 /\ s' = s) \/
    (r = 0 /\ exists v cap, let nd' := set_vec v (i_npages nd) cap nd in
       pages <= cap /\ reg s' p nd' /\ data_ok s' F /\ rest_same s s' p /\ slots_same s s' p /\
       same_frames F (fmem s) (fmem s') /\
       (forall i, 0 <= i < i_cap nd -> page_slot s' nd' i = page_slot s nd i))).
Proof.
  intros Hd Hp Hpg. unfold grow_vec, get_inode, upd_inode. wp_steps. rewrite (reg_inode_at _ _ _ Hp).
  destruct (dk_vec _ _ Hd p nd Hp) as (Hnp & Hcap & Hv).
  set (c1 := if i_cap nd =? 0 then 4 else i_cap nd *w 2).
  set (newcap := if c1 <? pages then pages else c1).
  assert (Hc : pages <= newcap <= 2 ^ 21).
  { unfold newcap, c1. destruct (Z.eqb_spec (i_cap nd) 0); [case_bool; lia|].
    rewrite u32_small by lia. case_bool; lia. }
  clearbody newcap. rewrite (u32_small (newcap * 4)) by lia. wp_steps. apply wp_zoom.
  assert (Hvp : i_pages nd = 0 \/ i_pages nd ∈ dom (objs s)).
  { destruct Hv as [[_ ?]|[_ (l & Hl & _)]]; [by left|right]. by apply elem_of_dom_2 in Hl. }
  eapply wp_mono; [apply (km_realloc_spec _ F (dom (objs s))); [apply Hd|done|unfold KM_MAX, PAGE_SIZE; lia]|].
  intros v m [[-> ->]|(Hv0 & Hvf & Hkm & Hsf)]; cbn beta.
  { rewrite Z.eqb_refl, set_fmem_id. wp_steps. by left. }
  rewrite (proj2 (Z.eqb_neq _ _)) by done. wp_steps. right. split; [done|]. exists v, newcap.
  set (nd' := set_vec v (i_npages nd) newcap nd). cbv zeta.
  set (L := take (Z.to_nat (i_cap nd)) (vec_at s (i_pages nd)) ++ replicate (Z.to_nat (newcap - i_cap nd)) 0).
  match goal with |- context [reg ?t p nd'] => set (s' := t) end.
  assert (Hpv : p <> i_pages nd) by (destruct Hp as [Hp _]; destruct Hv as [[_ ->]|[_ (l & Hl & _)]];
    [intros ->; apply (km_ptr _ _ _ 0 (dk_km _ _ Hd)); [by apply elem_of_dom_2 in Hp|done]|congruence]).
  assert (Hpv' : p <> v).
  { destruct Hvf as [->|Hvf]; [done|]. intros <-. apply Hvf. destruct Hp as [Hp _]. by apply elem_of_dom_2 in Hp. }
  assert (Hobjs : objs s' = <[p := OInode nd']> (<[v := OVec L]> (delete (i_pages nd) (objs s)))).
  { cbn. unfold inode_at. cbn. rewrite lookup_insert_ne, lookup_delete_ne by done. destruct Hp as [-> _]. done. }
  assert (Hfm : fmem s' = m /\ root s' = root s /\ next_ino s' = next_ino s) by done.
  destruct Hfm as (Hfm & Hrt & Hni). clearbody s'.
  assert (Hother : forall q, q <> p -> q <> v -> q <> i_pages nd -> objs s' !! q = objs s !! q).
  { intros q H1 H2 H3. by rewrite Hobjs, !lookup_insert_ne, lookup_delete_ne. }
  assert (Hp' : reg s' p nd') by (split; [by rewrite Hobjs, lookup_insert_eq|apply Hp]).
  assert (HL : objs s' !! v = Some (OVec L)) by (by rewrite Hobjs, lookup_insert_ne, lookup_insert_eq).
  assert (Hlen : length L = Z.to_nat newcap).
  { unfold L. rewrite length_app, length_take, length_replicate. unfold vec_at.
    destruct Hv as [[-> ->]|[_ (l & -> & ->)]]; [|lia]. rewrite Z.sub_0_r. cbn. lia. }
  assert (Hslots : forall i, 0 <= i < i_cap nd -> page_slot s' nd' i = page_slot s nd i).
  { intros i Hi. unfold page_slot, vec_at at 1. cbn. rewrite HL. unfold L, vec_at.
    destruct Hv as [[? _]|[_ (l & -> & Hll)]]; [lia|].
    rewrite lookup_app_l, lookup_take_lt by (rewrite ?length_take; lia). done. }
  assert (Hrest : rest_same s s' p).
  { split; [done|]. split; [done|]. intros q o Hq Ho.
    destruct (decide (q = v)) as [->|Hqv].
    { rewrite HL. split; [intros [= <-]; by destruct (Ho L)|]. intros Hoq. exfalso.
      destruct Hvf as [->|Hvf]; [|apply Hvf; by apply elem_of_dom_2 in Hoq].
      destruct Hv as [[_ ?]|[_ (l & Hl & _)]]; [done|]. rewrite Hl in Hoq. injection Hoq as <-. by destruct (Ho l). }
    destruct (decide (q = i_pages nd)) as [->|Hqp]; [|by rewrite Hother].
    rewrite Hobjs, !lookup_insert_ne, lookup_delete_eq by done. split; [done|]. intros Hoq.
    destruct Hv as [[_ Hz]|[_ (l & Hl & _)]].
    - exfalso. apply (km_ptr _ _ _ _ (dk_km _ _ Hd) (elem_of_dom_2 _ _ _ Hoq)). done.
    - rewrite Hl in Hoq. injection Hoq as <-. by destruct (Ho l). }
  assert (Hvec_other : forall q nq, q <> p -> reg s q nq -> i_pages nq <> 0 ->
    objs s' !! i_pages nq = objs s !! i_pages nq /\ i_pages nq <> v).
  { intros q nq Hq Hrq Hz. destruct (dk_vec _ _ Hd q nq Hrq) as (_ & _ & [[_ ?]|[_ (l & Hl & _)]]); [done|].
    assert (H1 : i_pages nq <> i_pages nd).
    { intros Heq. apply Hq. by apply (dk_vinj _ _ Hd q p nq nd). }
    assert (H2 : i_pages nq <> v).
    { destruct Hvf as [->|Hvf]; [done|]. intros <-. apply Hvf. by apply elem_of_dom_2 in Hl. }
    split; [|done]. apply Hother; [|done|done]. intros <-. destruct Hp as [Hp _]. congruence. }
  assert (Hd' : data_ok s' F).
  { apply (data_ok_update s s' F F p nd nd'); try done.
    - rewrite Hfm, Hobjs. rewrite !dom_insert_L, dom_delete_L.
      replace ({[p]} ∪ _) with ({[v]} ∪ dom (objs s) ∖ {[i_pages nd]}); [done|].
      destruct Hp as [Hp _]. apply elem_of_dom_2 in Hp. set_solver.
    - intros q nq Hq. by apply (rest_same_reg s s' p).
    - intros q nq Hq Hrq Hz. by apply (Hvec_other q).
    - intros q nq Hq Hrq Hz. by apply (Hvec_other q).
    - split; [cbn; lia|]. split; [cbn; lia|]. right. split; [done|]. exists L. done.
    - apply (dk_size _ _ Hd p nd Hp).
    - apply (dk_size _ _ Hd p nd Hp).
    - intros i Hi. cbn in Hi. rewrite Hslots by lia. split; [by apply (dk_page _ _ Hd p)|].
      apply (slot_fresh s F p nd); [done..|]. left. by exists i.
    - intros i j Hi Hj. cbn in Hi, Hj. rewrite !Hslots by lia. intros Heq. by apply (dk_inj _ _ Hd p p nd nd). }
  split; [lia|]. split; [done|]. split; [done|]. split; [done|]. split; [|split; [by rewrite Hfm|done]].
  intros q nq i Hrq Hq Hi. apply slot_ext; [done|]. apply (Hvec_other q); try done.
  destruct (dk_vec _ _ Hd q nq Hrq) as (? & _ & [[? _]|[? _]]); [lia|done].
Qed.

(** ** [ensure_pages] *)

Section ensure.
Context (s1 : fs S) (F : gset Z) (p : Z) (nd : rf_inode) (Hd1 : data_ok s1 F) (Hp1 : reg s1 p nd).

(** The slots from [npages] up to [i] have been filled with fresh zeroed frames. *)
Definition filled (i : Z) t F' : Prop :=
  F ⊆ F' /\ data_ok t F' /\ reg t p nd /\ rest_same s1 t p /\ slots_same s1 t p /\
  same_frames F (fmem s1) (fmem t) /\
  (forall j, 0 <= j < i_npages nd -> page_slot t nd j = page_slot s1 nd j) /\
  (forall j, i_npages nd <= j < i -> page_slot t nd j ∈ F' /\ (page_slot t nd j ∉ F) /\
     zeroed (km_mem (fmem t)) (page_slot t nd j) PAGE_SIZE) /\
  (forall j j', i_npages nd <= j < i -> i_npages nd <= j' < i -> page_slot t nd j = page_slot t nd j' -> j = j').

Lemma filled_start : filled (i_npages nd) s1 F.
Proof. repeat (split; [done|]). split; [lia|]. lia. Qed.

Lemma fill_step t F' i :
  filled i t F' -> i_npages nd <= i < i_cap nd ->
  wp (pa ← in_mem km_alloc_page;
      if pa =? 0 then mret (Some (-1))
      else n ← get_inode p; set_slot (i_pages n) i pa ≫= fun _ => mret None) t
    (fun o t' => match o with Some r => r = -1 /\ filled i t' F' | None => exists F'', filled (i + 1) t' F'' end).
Proof.
  intros (HF & Hd & Hp & Hrest & Hbytes & Hsf & Hold & Hnew & Hinj) Hi.
  destruct (dk_vec _ _ Hd p nd Hp) as (Hnp & Hcap & [[? _]|[Hv0 (l & Hl & Hlen)]]); [lia|].
  wp_steps. apply wp_zoom. eapply wp_mono; [apply (km_alloc_page_spec _ F' (dom (objs t))), Hd|].
  intros pa m [[-> ->]|(Hpa & Hpf & Hkm & Hsf' & Hz)]; cbn beta.
  { rewrite Z.eqb_refl, set_fmem_id. wp_steps. split; [done|]. repeat (split; [done|]). done. }
  rewrite (proj2 (Z.eqb_neq _ _)) by done. unfold get_inode, set_slot. wp_steps.
  set (t1 := set_fmem m t). assert (Hn1 : inode_at t1 p = nd) by (by apply (reg_inode_at t)). rewrite Hn1.
  set (L := <[Z.to_nat i := pa]> (vec_at t1 (i_pages nd))).
  match goal with |- context [exists F'', filled _ ?u F''] => set (t' := u) end.
  assert (Hobjs : objs t' = <[i_pages nd := OVec L]> (objs t)) by done.
  assert (Hm : fmem t' = m /\ root t' = root t /\ next_ino t' = next_ino t) by done. destruct Hm as (Hm & Hrt & Hni).
  assert (HLl : L = <[Z.to_nat i := pa]> l) by (unfold L, vec_at; cbn; by rewrite Hl).
  clearbody t' L. subst L. assert (Hpv : p <> i_pages nd) by (destruct Hp as [Hp0 _]; congruence).
  assert (Hslot : forall j, 0 <= j -> page_slot t' nd j = if decide (j = i) then pa else page_slot t nd j).
  { intros j Hj. unfold page_slot, vec_at. rewrite Hobjs, lookup_insert_eq, Hl. case_decide.
    - subst j. rewrite list_lookup_insert_eq by lia. done.
    - rewrite list_lookup_insert_ne by lia. done. }
  assert (Hrest' : rest_same t t' p).
  { split; [done|]. split; [done|]. intros q o Hq Ho. rewrite Hobjs.
    destruct (decide (q = i_pages nd)) as [->|]; [|by rewrite lookup_insert_ne].
    rewrite lookup_insert_eq, Hl. split; intros [= <-]; by edestruct Ho. }
  assert (Hvother : forall q nq, q <> p -> reg t q nq -> i_pages nq <> 0 -> i_pages nq <> i_pages nd).
  { intros q nq Hq Hrq Hz0 Heq. apply Hq. by apply (dk_vinj _ _ Hd q p nq nd). }
  assert (Hp' : reg t' p nd) by (split; [rewrite Hobjs, lookup_insert_ne by done|]; apply Hp).
  assert (Hd' : data_ok t' ({[pa]} ∪ F')).
  { apply (data_ok_update t t' F' _ p nd nd); try done.
    - rewrite Hm, Hobjs, dom_insert_L. replace ({[i_pages nd]} ∪ dom (objs t)) with (dom (objs t)); [done|].
      apply elem_of_dom_2 in Hl. set_solver.
    - set_solver.
    - intros q nq Hq. by apply (rest_same_reg t t' p).
    - intros q nq Hq Hrq Hz0. rewrite Hobjs, lookup_insert_ne; [done|]. intros Heq. by apply (Hvother q nq).
    - split; [done|]. split; [done|]. right. split; [done|]. eexists. rewrite Hobjs, lookup_insert_eq. split; [done|].
      by rewrite length_insert.
    - apply (dk_size _ _ Hd p nd Hp).
    - apply (dk_size _ _ Hd p nd Hp).
    - intros j Hj. rewrite Hslot, decide_False by lia. split; [apply elem_of_union_r; by apply (dk_page _ _ Hd p)|].
      apply (slot_fresh t F' p nd); [done..|]. left. by exists j.
    - intros j j' Hj Hj'. rewrite !Hslot, !decide_False by lia. intros Heq. by apply (dk_inj _ _ Hd p p nd nd). }
  exists ({[pa]} ∪ F'). split; [set_solver|]. split; [done|]. split; [done|]. split; [by eapply rest_same_trans|].
  split; [|split; [|split; [|split]]].
  - intros q nq j Hrq Hq Hj. rewrite <- (Hbytes q nq j) by done.
    assert (Hrq' : reg t q nq) by (by apply (rest_same_reg s1 t p)).
    apply slot_ext; [done|]. rewrite Hobjs, lookup_insert_ne; [done|]. intros Heq. apply (Hvother q nq); try done.
    by rewrite <- Heq.
  - eapply same_frames_trans; [exact Hsf|rewrite Hm; exact Hsf'|done].
  - intros j Hj. rewrite Hslot, decide_False by lia. by apply Hold.
  - intros j Hj. rewrite Hslot by lia. case_decide; [subst j|].
    + split; [set_solver|]. split; [set_solver|]. by rewrite Hm.
    + destruct (Hnew j) as (H1 & H2 & H3); [lia|]. split; [set_solver|]. split; [done|].
      intros x Hx. rewrite Hm, (Hsf' _ x H1 Hx). by apply H3.
  - intros j j' Hj Hj'. rewrite !Hslot by lia. repeat case_decide; subst; try done.
    + intros ->. exfalso. apply Hpf. apply Hnew. lia.
    + intros Heq. exfalso. apply Hpf. rewrite <- Heq. apply Hnew. lia.
    + intros Heq. apply Hinj; [lia|lia|done].
Qed.
End ensure.

(** Where [ensure_pages] can lead: the file keeps its size and the bytes of its
    old pages, everything else is untouched; on success there are enough pages
    and the new ones are zero. *)
Definition ensured s F p nd pages (r : Z) s' : Prop :=
  exists F' nd', F ⊆ F' /\ data_ok s' F' /\ rest_same s s' p /\ slots_same s s' p /\
    same_frames F (fmem s) (fmem s') /\ reg s' p nd' /\
    nd' = set_vec (i_pages nd') (i_npages nd') (i_cap nd') nd /\
    (forall k, 0 <= k < i_npages nd * PAGE_SIZE -> fbyte s' nd' k = fbyte s nd k) /\
    ((r = -1 /\ i_npages nd' = i_npages nd) \/
     (r = 0 /\ i_npages nd' = Z.max (i_npages nd) pages /\
      forall k, i_npages nd * PAGE_SIZE <= k < i_npages nd' * PAGE_SIZE -> fbyte s' nd' k = 0)).

Lemma slots_same_trans s t u p : slots_same s t p -> rest_same s t p -> slots_same t u p -> slots_same s u p.
Proof.
  intros H1 Hr H2 q nq k Hq Hqp Hk. rewrite (H2 q nq k); [by apply (H1 q)| |done..].
  by apply (rest_same_reg s t p).
Qed.

Lemma set_vec_id nd : set_vec (i_pages nd) (i_npages nd) (i_cap nd) nd = nd.
Proof. by destruct nd. Qed.

(** The statement after the loop: the new page count. *)
Lemma ensure_finish s1 F p nd pages t F' :
  data_ok s1 F -> reg s1 p nd -> pages <= i_cap nd -> pages <= 2 ^ 20 ->
  filled s1 F p nd (Z.max (i_npages nd) pages) t F' ->
  wp (upd_inode p (fun n => if i_npages n <? pages then set_vec (i_pages n) pages (i_cap n) n else n)) t
    (fun _ u => ensured s1 F p nd pages 0 u).
Proof.
  intros Hd1 Hp1 Hcap Hpg (HF & Hd & Hp & Hrest & Hbytes & Hsf & Hold & Hnew & Hinj).
  unfold upd_inode. wp_steps. rewrite (reg_inode_at _ _ _ Hp).
  destruct (dk_vec _ _ Hd p nd Hp) as (Hnp & Hcap2 & Hv). destruct (dk_size _ _ Hd p nd Hp) as [Hsz Hnp2].
  set (nd' := if i_npages nd <? pages then set_vec (i_pages nd) pages (i_cap nd) nd else nd).
  assert (Hnd' : nd' = set_vec (i_pages nd) (Z.max (i_npages nd) pages) (i_cap nd) nd).
  { unfold nd'. case_bool; [by rewrite Z.max_r by lia|]. rewrite Z.max_l by lia. by rewrite set_vec_id. }
  rewrite Hnd'. clear Hnd' nd'. set (nd' := set_vec _ _ _ nd).
  set (u := set_objs _ t). assert (Hobjs : objs u = <[p := OInode nd']> (objs t)) by done.
  assert (Hm : fmem u = fmem t /\ root u = root t /\ next_ino u = next_ino t) by done. destruct Hm as (Hm & Hrt & Hni). clearbody u.
  assert (Hrest' : rest_same t u p).
  { split; [done|]. split; [done|]. intros q o Hq Ho. by rewrite Hobjs, lookup_insert_ne. }
  assert (Hvo : forall q nq, reg t q nq -> i_pages nq <> 0 -> objs u !! i_pages nq = objs t !! i_pages nq).
  { intros q nq Hq Hz. rewrite Hobjs, lookup_insert_ne; [done|]. intros Heq.
    destruct (dk_vec _ _ Hd q nq Hq) as (_ & _ & [[_ ?]|[_ (l & Hl & _)]]); [done|].
    destruct Hp as [Hp _]. congruence. }
  assert (Hslot : forall j, i_pages nd <> 0 -> page_slot u nd' j = page_slot t nd j).
  { intros j Hz. apply slot_ext; [done|]. by apply (Hvo p). }
  assert (Hz : 0 < Z.max (i_npages nd) pages -> i_pages nd <> 0) by (destruct Hv as [[? ?]|[? _]]; [lia|done]).
  assert (Hp' : reg u p nd') by (split; [by rewrite Hobjs, lookup_insert_eq|apply Hp]).
  assert (Hdu : data_ok u F').
  { apply (data_ok_update t u F' F' p nd nd'); try done.
    - rewrite Hm, Hobjs, dom_insert_L. replace ({[p]} ∪ dom (objs t)) with (dom (objs t)); [apply Hd|].
      destruct Hp as [Hp _]. apply elem_of_dom_2 in Hp. set_solver.
    - intros q nq Hq. by apply (rest_same_reg t u p).
    - intros q nq Hq Hrq Hz0. by apply (Hvo q).
    - intros q nq Hq Hrq Hz0 Heq. apply Hq. by apply (dk_vinj _ _ Hd q p nq nd).
    - split; [cbn; lia|]. split; [done|]. destruct Hv as [?|[? (l & Hl & Hlen)]]; [left; done|right].
      split; [done|]. exists l. split; [|done]. cbn. by rewrite (Hvo p nd).
    - cbn. unfold PAGE_SIZE in *. lia.
    - cbn. lia.
    - intros i Hi. cbn in Hi. rewrite Hslot by (apply Hz; lia). destruct (decide (i < i_npages nd)).
      + split; [apply (dk_page _ _ Hd p); [done|lia]|]. apply (slot_fresh t F' p nd); [done..|]. left. exists i. split; [lia|done].
      + destruct (Hnew i) as (H1 & H2 & _); [lia|]. split; [done|]. intros q nq j Hq Hrq Hj Heq. apply H2. rewrite Heq.
        assert (Hrq1 : reg s1 q nq) by (by apply (rest_same_reg s1 t p)).
        rewrite (Hbytes q nq j) by done. by apply (dk_page _ _ Hd1 q).
    - intros i j Hi Hj. cbn in Hi, Hj. rewrite !Hslot by (apply Hz; lia). intros Heq.
      destruct (decide (i < i_npages nd)), (decide (j < i_npages nd)).
      + apply (dk_inj _ _ Hd p p nd nd); (done || lia).
      + exfalso. apply (Hnew j); [lia|]. rewrite <- Heq, Hold by lia. apply (dk_page _ _ Hd1 p); [done|lia].
      + exfalso. apply (Hnew i); [lia|]. rewrite Heq, Hold by lia. apply (dk_page _ _ Hd1 p); [done|lia].
      + apply Hinj; (done || lia). }
  exists F', nd'. split; [done|]. split; [done|]. split; [by eapply rest_same_trans|]. split; [|split; [by rewrite Hm|]].
  { intros q nq i Hrq Hq Hi. rewrite <- (Hbytes q nq i) by done. apply slot_ext; [done|]. apply (Hvo q).
    - by apply (rest_same_reg s1 t p).
    - destruct (dk_vec _ _ Hd1 q nq Hrq) as (? & _ & [[? _]|[? _]]); [lia|done]. }
  split; [done|]. split; [done|]. split.
  - intros k Hk. apply page_addr_range in Hk. apply (fbyte_ext s1 u nd nd' F); [done|by rewrite Hm| |].
    + by apply (dk_page _ _ Hd1 p).
    + rewrite Hslot by (apply Hz; lia). by apply Hold.
  - right. split; [done|]. split; [done|]. cbn. intros k Hk. unfold fbyte, addr. rewrite Hm.
    assert (Hki : i_npages nd <= k / PAGE_SIZE < Z.max (i_npages nd) pages)
      by (unfold PAGE_SIZE in *; Z.div_mod_to_equations; lia).
    rewrite Hslot by (apply Hz; lia). destruct (Hnew _ Hki) as (_ & _ & Hzero). apply Hzero.
    pose proof (Z.mod_pos_bound k PAGE_SIZE ltac:(done)). unfold in_range. lia.
Qed.

Lemma filled_ensured s F p nd i t F' pages :
  data_ok s F -> reg s p nd -> filled s F p nd i t F' -> ensured s F p nd pages (-1) t.
Proof.
  intros Hds Hps (HF & Hd & Hp & Hrest & Hslots & Hsf & Hold & _). exists F', nd.
  repeat (split; [done|]). split; [by rewrite set_vec_id|]. split; [|by left].
  intros k Hk. apply page_addr_range in Hk. apply (fbyte_ext s t nd nd F); [done|done| |by apply Hold].
  by apply (dk_page _ _ Hds p).
Qed.

(** The rest of [ensure_pages], once the vector is long enough. *)
Lemma ensure_fill_spec s F p nd pages :
  data_ok s F -> reg s p nd -> pages <= i_cap nd -> pages <= 2 ^ 20 ->
  wp (r ← forR (Z.to_nat (pages - i_npages nd)) (i_npages nd) 1 (fun i =>
        pa ← in_mem km_alloc_page;
        if pa =? 0 then mret (Some (-1))
        else n ← get_inode p; set_slot (i_pages n) i pa ≫= fun _ => mret None);
      match r with
      | Some e => mret e
      | None =>
          upd_inode p (fun n => if i_npages n <? pages then set_vec (i_pages n) pages (i_cap n) n else n) ≫= fun _ =>
          mret 0
      end) s (ensured s F p nd pages).
Proof.
  intros Hd Hp Hcap Hpg. destruct (dk_vec _ _ Hd p nd Hp) as (Hnp & _). apply wp_bind.
  eapply wp_mono; [apply (wp_forR _ _ 1 _ s (fun i t => exists F', filled s F p nd i t F')
    (fun o t => match o with
     | Some r => r = -1 /\ exists i F', filled s F p nd i t F'
     | None => exists F', filled s F p nd (Z.max (i_npages nd) pages) t F' end))|].
  - exists F. by apply filled_start.
  - intros k t Hk (F' & Hf). rewrite Z.mul_1_r in *.
    eapply wp_mono; [apply (fill_step s F p nd Hd Hp t F' (i_npages nd + k) Hf); lia|].
    intros [r|] u; [intros [-> Hu]; split; [done|]; by eexists _, _|].
    intros (F'' & Hu). exists F''. by replace (i_npages nd + (k + 1) * 1) with (i_npages nd + k + 1) by lia.
  - intros t (F' & Hf). exists F'. by replace (Z.max _ _) with (i_npages nd + Z.of_nat (Z.to_nat (pages - i_npages nd)) * 1) by lia.
  - intros [r|] t; cbn beta.
    + intros [-> (i & F' & Hf)]. wp_steps. by eapply filled_ensured.
    + intros (F' & Hf). apply wp_bind. eapply wp_mono; [by eapply ensure_finish|]. intros [] u Hu. by wp_steps.
Qed.

Lemma ensured_trans s s1 F p nd nd1 pages r s' :
  data_ok s F -> reg s p nd -> rest_same s s1 p -> slots_same s s1 p -> same_frames F (fmem s) (fmem s1) ->
  nd1 = set_vec (i_pages nd1) (i_npages nd) (i_cap nd1) nd ->
  (forall i, 0 <= i < i_npages nd -> page_slot s1 nd1 i = page_slot s nd i) ->
  ensured s1 F p nd1 pages r s' -> ensured s F p nd pages r s'.
Proof.
  intros Hd Hp Hrest Hslots Hsf Hnd1 Hold (F' & nd' & HF & Hd' & Hrest' & Hslots' & Hsf' & Hp' & Hnd' & Hb & Hres).
  assert (Hn : i_npages nd1 = i_npages nd) by (by rewrite Hnd1).
  exists F', nd'. split; [done|]. split; [done|]. split; [by eapply rest_same_trans|].
  split; [by eapply slots_same_trans|]. split; [by eapply same_frames_trans|]. split; [done|].
  split; [rewrite Hnd'; rewrite Hnd1; done|]. rewrite Hn in *. split; [|done].
  intros k Hk. rewrite Hb by done. apply page_addr_range in Hk.
  apply (fbyte_ext s s1 nd nd1 F); [done|done|by apply (dk_page _ _ Hd p)|by apply Hold].
Qed.

Lemma ensure_pages_spec s F p nd pages :
  data_ok s F -> reg s p nd -> 0 <= pages <= 2 ^ 20 ->
  wp (ensure_pages p pages) s (ensured s F p nd pages).
Proof.
  intros Hd Hp Hpg. unfold ensure_pages. apply wp_bind, wp_get_inode. rewrite (reg_inode_at _ _ _ Hp). apply wp_bind.
  destruct (Z.ltb_spec (i_cap nd) pages) as [Hlt|Hge].
  - eapply wp_mono; [apply (grow_vec_spec s F p nd pages); (done || lia)|].
    intros r s1 [[-> ->]|(-> & v & cap & Hcap & Hp1 & Hd1 & Hrest & Hslots & Hsf & Hold)]; cbn beta.
    + cbn [negb Z.eqb]. wp_steps. apply (filled_ensured s F p nd (i_npages nd) s F); try done. by apply filled_start.
    + cbn [negb Z.eqb]. set (nd1 := set_vec v (i_npages nd) cap nd) in *. cbv zeta in *.
      destruct (dk_vec _ _ Hd p nd Hp) as (Hnp & _).
      eapply wp_mono; [apply (ensure_fill_spec s1 F p nd1 pages); (done || lia)|].
      intros r t Ht. apply (ensured_trans s s1 F p nd nd1); try done. intros i Hi. apply Hold. lia.
  - wp_steps. cbn [negb Z.eqb]. apply ensure_fill_spec; (done || lia).
Qed.

(** ** Reading *)

Lemma ramfs_read_eq s F p nd off n :
  data_ok s F -> reg s p nd -> 0 <= off -> 0 <= n ->
  ramfs_read s p off n =
  (let l := take (Z.to_nat n) (drop (Z.to_nat off) (contents s nd)) in (Z.of_nat (length l), l)).
Proof.
  intros Hd Hp Hoff Hn. destruct (dk_size _ _ Hd p nd Hp) as [Hsz Hnp].
  assert (Hlen : length (contents s nd) = Z.to_nat (i_size nd)) by (unfold contents; by rewrite length_fmap, length_seqZ).
  unfold ramfs_read. rewrite (reg_inode_at _ _ _ Hp), bool_decide_eq_true_2 by apply Hp. cbn [negb].
  destruct (Z.leb_spec (i_size nd) off) as [Hle|Hlt].
  { rewrite drop_ge by lia. by rewrite take_nil. }
  set (n' := if i_size nd - off <? n then i_size nd - off else n).
  assert (Hn' : 0 <= n' <= i_size nd - off /\ n' = Z.min n (i_size nd - off)) by (unfold n'; case_bool; lia).
  rewrite (read_loop_eq (page_slot s nd) off n').
  - assert (take (Z.to_nat n) (drop (Z.to_nat off) (contents s nd)) =
      (fun k => ldb (km_mem (fmem s)) (addr (page_slot s nd) (off + k))) <$> seqZ 0 (n' - 0)) as ->; [|done].
    unfold contents. rewrite <- fmap_drop, <- fmap_take. destruct Hn' as [H1 H2].
    replace (i_size nd) with (off + (i_size nd - off)) by lia. rewrite seqZ_app by lia.
    rewrite drop_app_length' by (rewrite length_seqZ; done). rewrite Z.add_0_l.
    replace (i_size nd - off) with (n' + (i_size nd - off - n')) at 1 by lia. rewrite seqZ_app by lia.
    assert (seqZ off n' = Z.add off <$> seqZ 0 n') as -> by (rewrite fmap_add_seqZ; f_equal; lia).
    destruct (decide (n <= i_size nd - off)).
    + replace n' with n in * by lia. rewrite take_app_length' by (rewrite length_fmap, length_seqZ; done).
      rewrite <- list_fmap_compose, Z.sub_0_r. done.
    + replace (i_size nd - off - n') with 0 by lia. rewrite app_nil_r, take_ge by (rewrite length_fmap, length_seqZ; lia).
      rewrite <- list_fmap_compose, Z.sub_0_r. done.
  - done.
  - unfold PAGE_SIZE in Hsz. lia.
  - lia.
  - apply (rounds_chunks (page_slot s nd)); lia.
Qed.

(** ** Writing *)

(** Every other file has the same contents. *)
Definition others_same s s' (p : Z) : Prop :=
  forall q nq, q <> p -> reg s q nq -> reg s' q nq /\ contents s' nq = contents s nq.

Lemma contents_ext s s' nd nd' :
  i_size nd' = i_size nd -> (forall k, 0 <= k < i_size nd -> fbyte s' nd' k = fbyte s nd k) ->
  contents s' nd' = contents s nd.
Proof.
  intros Hsz Hb. unfold contents. rewrite Hsz. apply list_fmap_ext. intros i k Hk.
  apply lookup_seqZ in Hk as [-> Hi]. apply Hb. lia.
Qed.

(** Distinct bytes of a file are at distinct addresses, and so are bytes of
    distinct files. *)
Lemma addr_inj s F p q nd nd' k k' :
  data_ok s F -> reg s p nd -> reg s q nd' -> 0 <= k < i_npages nd * PAGE_SIZE -> 0 <= k' < i_npages nd' * PAGE_SIZE ->
  addr (page_slot s nd) k = addr (page_slot s nd') k' -> p = q /\ k = k'.
Proof.
  intros Hd Hp Hq Hk Hk' Heq. apply page_addr_range in Hk as Hi, Hk' as Hj.
  destruct (km_frame _ _ _ _ (dk_km _ _ Hd) (dk_page _ _ Hd p nd _ Hp Hi)) as (Hal & _).
  destruct (km_frame _ _ _ _ (dk_km _ _ Hd) (dk_page _ _ Hd q nd' _ Hq Hj)) as (Hal' & _).
  unfold addr in Heq.
  assert (page_slot s nd (k / PAGE_SIZE) = page_slot s nd' (k' / PAGE_SIZE) /\ k mod PAGE_SIZE = k' mod PAGE_SIZE) as [Hf Ho].
  { unfold aligned, PAGE_SIZE in *. Z.div_mod_to_equations. lia. }
  destruct (dk_inj _ _ Hd p q nd nd' _ _ Hp Hq Hi Hj Hf) as [-> Hdiv]. split; [done|].
  unfold PAGE_SIZE in *. Z.div_mod_to_equations. lia.
Qed.

(** The copy of [ramfs_write] into pages that exist. *)
Lemma write_data s F p nd off src :
  data_ok s F -> reg s p nd -> 0 <= off -> off + Z.of_nat (length src) <= i_npages nd * PAGE_SIZE ->
  off + Z.of_nat (length src) <= 2 ^ 32 ->
  let n := Z.of_nat (length src) in
  let s' := set_fmem (km_set_mem (write_loop (chunks n) (km_mem (fmem s)) (page_slot s nd) off src n 0) (fmem s)) s in
  data_ok s' F /\
  (forall k, 0 <= k < i_npages nd * PAGE_SIZE ->
     fbyte s' nd k = if decide (off <= k < off + n) then u8 (default 0 (src !! Z.to_nat (k - off))) else fbyte s nd k) /\
  (forall q nq k, q <> p -> reg s q nq -> 0 <= k < i_npages nq * PAGE_SIZE -> fbyte s' nq k = fbyte s nq k).
Proof.
  intros Hd Hp Hoff Hfit Hend n s'. set (m' := write_loop _ _ _ _ _ _ _) in s'.
  destruct (write_loop_spec (page_slot s nd) off n (chunks n) (km_mem (fmem s)) src 0) as [Hin Hout]; try lia.
  { apply (rounds_chunks (page_slot s nd)); lia. }
  { intros i j Hi Hj Heq. destruct (addr_inj s F p p nd nd (off + i) (off + j)); try done; lia. }
  fold m' in Hin, Hout. assert (Hm : km_mem (fmem s') = m') by (cbn; apply km_mem_set).
  assert (Hslot : forall q nq k, reg s q nq -> page_slot s' nq k = page_slot s nq k) by done.
  split; [|split].
  - split; try apply Hd. cbn. apply km_set_ok; [apply Hd|]. intros x Hx. apply Hout. intros k Hk ->. apply Hx.
    exists (page_slot s nd ((off + k) / PAGE_SIZE)). split.
    + apply (dk_page _ _ Hd p); [done|]. apply page_addr_range. lia.
    + pose proof (Z.mod_pos_bound (off + k) PAGE_SIZE ltac:(done)). unfold addr, in_range. lia.
  - intros k Hk. unfold fbyte. rewrite Hm. case_decide as Hr.
    + replace k with (off + (k - off)) at 1 by lia. apply Hin. lia.
    + apply Hout. intros j Hj Heq. apply Hr.
      destruct (addr_inj s F p p nd nd k (off + j)); try done; lia.
  - intros q nq k Hq Hrq Hk. unfold fbyte. rewrite Hm. apply Hout. intros j Hj Heq. apply Hq.
    destruct (addr_inj s F q p nq nd k (off + j)); try done; lia.
Qed.

(** Replacing the inode of [p] by one with the same page vector. *)
Lemma data_ok_inode s F p nd nd' :
  data_ok s F -> reg s p nd -> i_type nd' = RF_REG -> i_pages nd' = i_pages nd -> i_npages nd' = i_npages nd ->
  i_cap nd' = i_cap nd -> 0 <= i_size nd' <= i_npages nd * PAGE_SIZE ->
  let s' := set_objs (<[p := OInode nd']> (objs s)) s in
  data_ok s' F /\ rest_same s s' p /\ reg s' p nd' /\ (forall k, fbyte s' nd' k = fbyte s nd k) /\
  (forall q nq k, q <> p -> reg s q nq -> fbyte s' nq k = fbyte s nq k).
Proof.
  intros Hd Hp Hty Hpg Hnp Hcap Hsz s'. destruct (dk_vec _ _ Hd p nd Hp) as (Hr & Hc & Hv).
  assert (Hobjs : objs s' = <[p := OInode nd']> (objs s)) by done.
  assert (Hm : fmem s' = fmem s /\ root s' = root s /\ next_ino s' = next_ino s) by done. destruct Hm as (Hm & Hrt & Hni).
  clearbody s'.
  assert (Hvec : forall q nq, reg s q nq -> vec_at s' (i_pages nq) = vec_at s (i_pages nq)).
  { intros q nq Hq. unfold vec_at. rewrite Hobjs. destruct (decide (p = i_pages nq)) as [Heq|]; [|by rewrite lookup_insert_ne].
    rewrite <- Heq, lookup_insert_eq. destruct Hp as [-> _]. done. }
  assert (Hslot : forall q nq k, reg s q nq -> page_slot s' nq k = page_slot s nq k).
  { intros q nq k Hq. unfold page_slot. by rewrite (Hvec q). }
  assert (Hslot' : forall k, page_slot s' nd' k = page_slot s nd k).
  { intros k. unfold page_slot. by rewrite Hpg, (Hvec p). }
  assert (Hvo : forall q nq, reg s q nq -> i_pages nq <> 0 -> objs s' !! i_pages nq = objs s !! i_pages nq).
  { intros q nq Hq Hz. rewrite Hobjs, lookup_insert_ne; [done|]. intros Heq.
    destruct (dk_vec _ _ Hd q nq Hq) as (_ & _ & [[_ ?]|[_ (l & Hl & _)]]); [done|].
    destruct Hp as [Hp _]. congruence. }
  assert (Hrest : rest_same s s' p).
  { split; [done|]. split; [done|]. intros q o Hq Ho. by rewrite Hobjs, lookup_insert_ne. }
  assert (Hp' : reg s' p nd') by (split; [by rewrite Hobjs, lookup_insert_eq|done]).
  split; [|split; [done|split; [done|split]]].
  - apply (data_ok_update s s' F F p nd nd'); try done.
    + rewrite Hm, Hobjs, dom_insert_L. replace ({[p]} ∪ dom (objs s)) with (dom (objs s)); [apply Hd|].
      destruct Hp as [Hp _]. apply elem_of_dom_2 in Hp. set_solver.
    + intros q nq Hq. by apply (rest_same_reg s s' p).
    + intros q nq Hq Hrq Hz. by apply (Hvo q).
    + intros q nq Hq Hrq Hz Heq. apply Hq. apply (dk_vinj _ _ Hd q p nq nd); congruence.
    + unfold vec_ok. rewrite Hnp, Hcap, Hpg. split; [done|]. split; [done|].
      destruct Hv as [?|[Hz (l & Hl & Hlen)]]; [by left|right]. split; [done|]. exists l. by rewrite (Hvo p nd).
    + rewrite Hnp. done.
    + rewrite Hnp. apply (dk_size _ _ Hd p nd Hp).
    + intros i. rewrite Hnp, Hslot'. intros Hi. split; [by apply (dk_page _ _ Hd p)|].
      apply (slot_fresh s F p nd); [done..|]. left. by exists i.
    + intros i j. rewrite Hnp, !Hslot'. intros Hi Hj Heq. by apply (dk_inj _ _ Hd p p nd nd).
  - intros k. unfold fbyte, addr. by rewrite Hm, Hslot'.
  - intros q nq k Hq Hrq. unfold fbyte, addr. by rewrite Hm, (Hslot q).
Qed.

(** bytes of the file after a write of [src] at [off] *)
Definition written s nd (off : Z) (src : list Z) (k : Z) : Z :=
  if decide (off <= k < off + Z.of_nat (length src)) then u8 (default 0 (src !! Z.to_nat (k - off)))
  else if decide (k < i_npages nd * PAGE_SIZE) then fbyte s nd k else 0.

(** [(end + PAGE_SIZE - 1) / PAGE_SIZE], when it does not overflow *)
Lemma pages_needed e :
  0 <= e <= 0xFFFFF000 -> (e +w PAGE_SIZE -w 1) / PAGE_SIZE = (e + PAGE_SIZE - 1) / PAGE_SIZE.
Proof.
  intros He. unfold u32. rewrite Zminus_mod_idemp_l, Z.mod_small; [done|]. unfold PAGE_SIZE. lia.
Qed.

Lemma ensured_others s F p nd pages r s' :
  data_ok s F -> ensured s F p nd pages r s' ->
  forall q nq, q <> p -> reg s q nq -> reg s' q nq /\
    forall k, 0 <= k < i_npages nq * PAGE_SIZE -> fbyte s' nq k = fbyte s nq k.
Proof.
  intros Hd (F' & nd' & HF & Hd' & Hrest & Hslots & Hsf & _) q nq Hq Hrq.
  split; [by apply (rest_same_reg s s' p)|]. intros k Hk. apply page_addr_range in Hk.
  apply (fbyte_ext s s' nq nq F); [done|done|by apply (dk_page _ _ Hd q)|by apply (Hslots q)].
Qed.

Lemma same_bytes_others s s' p F :
  data_ok s F ->
  (forall q nq, q <> p -> reg s q nq -> reg s' q nq /\
     forall k, 0 <= k < i_npages nq * PAGE_SIZE -> fbyte s' nq k = fbyte s nq k) -> others_same s s' p.
Proof.
  intros Hd H q nq Hq Hrq. destruct (H q nq Hq Hrq) as [H1 H2]. split; [done|]. apply contents_ext; [done|].
  intros k Hk. apply H2. destruct (dk_size _ _ Hd q nq Hrq). lia.
Qed.

Lemma ramfs_write_spec s F p nd off src :
  data_ok s F -> reg s p nd -> 0 <= off -> off + Z.of_nat (length src) <= 0xFFFFF000 ->
  wp (ramfs_write p off src) s (fun r s' => exists F' nd',
    data_ok s' F' /\ reg s' p nd' /\ rest_same s s' p /\ others_same s s' p /\
    ((r = -12 /\ contents s' nd' = contents s nd) \/
     (r = Z.of_nat (length src) /\ i_size nd' = Z.max (i_size nd) (off + r) /\
      forall k, 0 <= k < i_size nd' -> fbyte s' nd' k = written s nd off src k))).
Proof.
  intros Hd Hp Hoff Hend. set (n := Z.of_nat (length src)) in *. destruct (dk_size _ _ Hd p nd Hp) as [Hsz Hnp].
  unfold ramfs_write. fold n. apply wp_bind, wp_get_inode. rewrite (reg_inode_at _ _ _ Hp).
  rewrite bool_decide_eq_true_2 by apply Hp. cbn [negb]. rewrite (proj2 (Z.ltb_ge _ _)) by lia.
  rewrite pages_needed by lia. set (need := (off + n + PAGE_SIZE - 1) / PAGE_SIZE).
  assert (Hneed : 0 <= need <= 2 ^ 20 /\ off + n <= need * PAGE_SIZE) by (unfold need, PAGE_SIZE; Z.div_mod_to_equations; lia).
  apply wp_bind. eapply wp_mono; [apply (ensure_pages_spec s F p nd need); (done || lia)|].
  intros r1 s1 Hens. pose proof (ensured_others _ _ _ _ _ _ _ Hd Hens) as Hoth.
  destruct Hens as (F1 & nd1 & HF & Hd1 & Hrest & _ & _ & Hp1 & Hnd1 & Hb & Hres).
  assert (Hsz1 : i_size nd1 = i_size nd) by (by rewrite Hnd1).
  destruct Hres as [[-> Hn1]|(-> & Hn1 & Hzero)]; cbn [negb Z.eqb].
  { wp_steps. exists F1, nd1. split; [done|]. split; [done|]. split; [done|].
    split; [by eapply same_bytes_others|]. left. split; [done|]. apply contents_ext; [done|]. intros k Hk. apply Hb. lia. }
  apply wp_bind, wp_get_inode. rewrite (reg_inode_at _ _ _ Hp1). unfold in_mem, km_store, upd_inode. wp_steps.
  destruct (write_data s1 F1 p nd1 off src) as (Hd2 & Hb2 & Hoth2); [done|done|lia| |lia|].
  { rewrite Hn1. fold n. unfold PAGE_SIZE in *. lia. }
  fold n in Hd2, Hb2, Hoth2. set (s2 := set_fmem _ s1) in *.
  assert (Hp2 : reg s2 p nd1) by done. rewrite (reg_inode_at s2 p nd1 Hp2).
  set (nd2 := if i_size nd1 <? off + n then set_size (off + n) nd1 else nd1).
  assert (Hnd2 : i_size nd2 = Z.max (i_size nd) (off + n) /\ i_pages nd2 = i_pages nd1 /\ i_npages nd2 = i_npages nd1 /\
    i_cap nd2 = i_cap nd1 /\ i_type nd2 = RF_REG).
  { unfold nd2. case_bool; cbn; (split; [lia|]); (repeat (split; [done|])); apply Hp1. }
  destruct Hnd2 as (E1 & E2 & E3 & E4 & E5). clearbody nd2.
  destruct (data_ok_inode s2 F1 p nd1 nd2) as (Hd3 & Hrest3 & Hp3 & Hb3 & Hoth3); try done.
  { rewrite E1, Hn1. unfold PAGE_SIZE in *. lia. }
  exists F1, nd2. split; [exact Hd3|]. split; [exact Hp3|].
  split; [eapply rest_same_trans; [exact Hrest|exact Hrest3]|]. split.
  - apply (same_bytes_others _ _ _ F Hd). intros q nq Hq Hrq. destruct (Hoth q nq Hq Hrq) as [Hrq1 Hbq].
    split; [apply (rest_same_reg s2 _ p _ _ Hrest3 Hq); exact Hrq1|]. intros k Hk.
    rewrite (Hoth3 q nq k Hq Hrq1), (Hoth2 q nq k Hq Hrq1 Hk). by apply Hbq.
  - right. split; [done|]. split; [exact E1|]. intros k Hk.
    assert (Hk1 : 0 <= k < i_npages nd1 * PAGE_SIZE) by (rewrite E1 in Hk; rewrite Hn1; unfold PAGE_SIZE in *; lia).
    rewrite Hb3, Hb2 by done. unfold written. fold n. case_decide; [done|]. case_decide; [apply Hb; lia|apply Hzero; lia].
Qed.

(** ** Truncation *)

Definition with_inode s (p : Z) nd : fs S := set_objs (<[p := OInode nd]> (objs s)) s.

Section shrink.
Context (s : fs S) (F : gset Z) (p : Z) (nd : rf_inode) (newsize need : Z).
Context (Hd : data_ok s F) (Hp : reg s p nd) (Hneed : 0 <= newsize <= need * PAGE_SIZE) (Hle : newsize <= i_size nd).
Context (Hmin : need <= i_npages nd).

(** the inode the shrinking branch ends with *)
Definition shrunk : rf_inode := set_size newsize (set_vec (i_pages nd) need (i_cap nd) nd).

(** Slots [need .. i) are released. *)
Definition released (i : Z) t : Prop :=
  exists F', data_ok (with_inode t p shrunk) F' /\ objs t !! p = Some (OInode nd) /\
    rest_same s t p /\ slots_same s t p /\
    (forall j, 0 <= j < i_npages nd -> page_slot t nd j = if decide (need <= j < i) then 0 else page_slot s nd j) /\
    (forall j, i <= j < i_npages nd -> page_slot s nd j ∈ F') /\ F' ⊆ F /\ same_frames F' (fmem s) (fmem t).

Lemma need_pos : 0 <= need.
Proof. unfold PAGE_SIZE in *. lia. Qed.

Lemma released_start : released need s.
Proof.
  pose proof need_pos. destruct (dk_vec _ _ Hd p nd Hp) as (Hr & Hc & Hv). exists F. split.
  - apply (data_ok_update s _ F F p nd shrunk); try done.
    + split; [apply lookup_insert_eq|apply Hp].
    + cbn. rewrite dom_insert_L. replace ({[p]} ∪ dom (objs s)) with (dom (objs s)); [apply Hd|].
      destruct Hp as [Hp0 _]. apply elem_of_dom_2 in Hp0. set_solver.
    + intros q nq Hq. unfold reg. cbn. by rewrite lookup_insert_ne.
    + intros q nq Hq Hrq Hz. cbn. apply lookup_insert_ne. intros Heq.
      destruct (dk_vec _ _ Hd q nq Hrq) as (_ & _ & [[_ ?]|[_ (l & Hl & _)]]); [done|]. destruct Hp. congruence.
    + intros q nq Hq Hrq Hz Heq. apply Hq. by apply (dk_vinj _ _ Hd q p nq nd).
    + split; [cbn; lia|]. split; [done|]. destruct Hv as [?|[Hz (l & Hl & Hlen)]]; [by left|right].
      split; [done|]. exists l. split; [|done]. cbn. rewrite lookup_insert_ne; [done|]. destruct Hp. congruence.
    + cbn. destruct (dk_size _ _ Hd p nd Hp). lia.
    + intros i Hi. cbn in Hi. assert (page_slot (with_inode s p shrunk) shrunk i = page_slot s nd i) as ->.
      { apply slot_ext; [done|]. cbn. apply lookup_insert_ne. destruct Hp, Hv as [[? ?]|[_ (l & Hl & _)]]; [lia|congruence]. }
      split; [apply (dk_page _ _ Hd p); [done|lia]|]. apply (slot_fresh s F p nd); [done..|]. left. exists i. split; [lia|done].
    + intros i j Hi Hj. cbn in Hi, Hj.
      assert (Hs : forall k, page_slot (with_inode s p shrunk) shrunk k = page_slot s nd k).
      { intros k. apply slot_ext; [done|]. cbn. apply lookup_insert_ne. destruct Hp, Hv as [[? ?]|[_ (l & Hl & _)]]; [lia|congruence]. }
      rewrite !Hs. intros Heq. apply (dk_inj _ _ Hd p p nd nd); (done || lia).
  - split; [apply Hp|]. split; [done|]. split; [done|]. split; [|split; [|done]].
    + intros j Hj. rewrite decide_False by lia. done.
    + intros j Hj. apply (dk_page _ _ Hd p); [done|lia].
Qed.

Lemma release_step t i :
  released i t -> need <= i < i_npages nd ->
  wp (pa ← gets (fun s => page_slot s nd i);
      if pa =? 0 then mret tt
      else in_mem (km_free_page pa) ≫= fun _ => set_slot (i_pages nd) i 0) t (fun _ t' => released (i + 1) t').
Proof.
  intros (F' & Hv & Hpt & Hrest & Hslots & Hsl & Hin & HF & Hsf) Hi. pose proof need_pos as Hn0. wp_steps.
  rewrite Hsl, decide_False by lia. set (f := page_slot s nd i).
  assert (Hf : f ∈ F') by (apply Hin; lia).
  destruct (km_frame _ _ _ _ (dk_km _ _ Hv) Hf) as (_ & Hf0 & _).
  rewrite (proj2 (Z.eqb_neq _ _)) by lia. unfold set_slot, in_mem. wp_steps.
  eapply wp_mono; [apply (km_free_page_spec _ F' (dom (objs (with_inode t p shrunk))) f); [apply Hv|done]|].
  intros [] m [Hkm Hsm]. wp_steps. cbn [fmem with_inode set_objs] in Hsm.
  destruct (dk_vec _ _ Hd p nd Hp) as (Hr & Hc & [[? _]|[Hz0 _]]); [lia|].
  destruct (dk_vec _ _ Hv p shrunk) as (_ & _ & [[? _]|[_ (l & Hl & Hlen)]]); [split; [apply lookup_insert_eq|apply Hp]|cbn in *; lia|].
  cbn [i_pages shrunk set_size set_vec] in Hl, Hlen. assert (Hpv : p <> i_pages nd).
  { intros Heq. cbn in Hl. rewrite <- Heq, lookup_insert_eq in Hl. done. }
  cbn in Hl. rewrite lookup_insert_ne in Hl by done.
  match goal with |- released _ ?u => set (t' := u) end.
  assert (Hobjs : objs t' = <[i_pages nd := OVec (<[Z.to_nat i := 0]> l)]> (objs t)).
  { cbn. unfold vec_at. cbn. by rewrite Hl. }
  assert (Hm : fmem t' = m /\ root t' = root t /\ next_ino t' = next_ino t) by done. destruct Hm as (Hm & Hrt & Hni). clearbody t'.
  assert (Hslot : forall n j, i_pages n = i_pages nd -> 0 <= j -> page_slot t' n j = if decide (j = i) then 0 else page_slot t nd j).
  { intros n j Hn Hj. unfold page_slot, vec_at. rewrite Hn, Hobjs, lookup_insert_eq, Hl. case_decide.
    - subst j. destruct (decide (Z.to_nat i < length l)%nat); [by rewrite list_lookup_insert_eq|].
      rewrite lookup_ge_None_2; [done|]. rewrite length_insert. lia.
    - rewrite list_lookup_insert_ne by lia. done. }
  assert (Hrest' : rest_same t t' p).
  { split; [done|]. split; [done|]. intros q o Hq Ho. rewrite Hobjs.
    destruct (decide (q = i_pages nd)) as [->|]; [|by rewrite lookup_insert_ne].
    rewrite lookup_insert_eq, Hl. split; intros [= <-]; by edestruct Ho. }
  assert (Hvo : forall q nq, q <> p -> reg s q nq -> i_pages nq <> 0 -> objs t' !! i_pages nq = objs t !! i_pages nq).
  { intros q nq Hq Hrq Hz. rewrite Hobjs. apply lookup_insert_ne. intros Heq. apply Hq. by apply (dk_vinj _ _ Hd q p nq nd). }
  assert (Hregs : forall q nq, q <> p -> reg (with_inode t p shrunk) q nq <-> reg s q nq).
  { intros q nq Hq. rewrite <- (rest_same_reg s t p q nq Hrest Hq). unfold reg. cbn. by rewrite lookup_insert_ne. }
  assert (Hw : forall q nq j, q <> p -> reg s q nq -> 0 <= j < i_npages nq ->
    page_slot (with_inode t p shrunk) nq j = page_slot s nq j).
  { intros q nq j Hq Hrq Hj. rewrite <- (Hslots q nq j) by done. apply slot_ext; [done|]. cbn. apply lookup_insert_ne.
    intros Heq. destruct (dk_vec _ _ Hd q nq Hrq) as (? & _ & [[? _]|[_ (l' & Hl' & _)]]); [lia|].
    destruct Hp as [Hp0 _]. congruence. }
  exists (F' ∖ {[f]}). split; [|split; [|split; [|split; [|split; [|split; [|split]]]]]].
  - apply (data_ok_change (with_inode t p shrunk) _ F' _ p shrunk shrunk); try done.
    + split; [apply lookup_insert_eq|apply Hp].
    + split; [apply lookup_insert_eq|apply Hp].
    + cbn. rewrite Hm, Hobjs. rewrite !dom_insert_L. cbn in Hkm. rewrite dom_insert_L in Hkm.
      replace ({[p]} ∪ ({[i_pages nd]} ∪ dom (objs t))) with ({[p]} ∪ dom (objs t)); [done|].
      apply elem_of_dom_2 in Hl. set_solver.
    + intros q nq j Hq Hrq Hj. apply (Hregs q nq Hq) in Hrq. rewrite (Hw q) by done.
      apply elem_of_difference. split.
      * rewrite <- (Hw q) by done. apply (dk_page _ _ Hv q); [by apply Hregs|done].
      * rewrite elem_of_singleton. intros Heq. apply Hq. apply (dk_inj _ _ Hd q p nq nd j i); (done || lia).
    + intros q nq Hq. rewrite Hregs by done. rewrite <- (rest_same_reg s t p q nq Hrest Hq), <- (rest_same_reg t t' p q nq Hrest' Hq).
      unfold reg. cbn. by rewrite lookup_insert_ne.
    + intros q nq Hq Hrq Hz. apply (Hregs q nq Hq) in Hrq. cbn. rewrite !lookup_insert_ne; [by apply (Hvo q)|..];
        intros Heq; destruct (dk_vec _ _ Hd q nq Hrq) as (_ & _ & [[_ ?]|[_ (l' & Hl' & _)]]); try done;
        destruct Hp as [Hp0 _]; congruence.
    + intros q nq Hq Hrq Hz Heq. apply (Hregs q nq Hq) in Hrq. apply Hq. by apply (dk_vinj _ _ Hd q p nq nd).
    + split; [cbn; lia|]. split; [done|]. right. split; [done|]. eexists. cbn. rewrite lookup_insert_ne, Hobjs, lookup_insert_eq by done.
      split; [done|]. by rewrite length_insert.
    + cbn. destruct (dk_size _ _ Hd p nd Hp). lia.
    + intros j Hj. cbn in Hj.
      assert (page_slot (with_inode t' p shrunk) shrunk j = page_slot s nd j) as ->.
      { etransitivity; [apply (slot_ext t' _ shrunk shrunk); [done|]; cbn; by apply lookup_insert_ne|].
        rewrite (Hslot shrunk), decide_False by (done || lia). rewrite Hsl, decide_False by lia. done. }
      assert (Hwj : page_slot (with_inode t p shrunk) shrunk j = page_slot s nd j).
      { etransitivity; [apply (slot_ext t _ nd shrunk); [done|]; cbn; by apply lookup_insert_ne|].
        rewrite Hsl, decide_False by lia. done. }
      split.
      * apply elem_of_difference. split.
        -- rewrite <- Hwj. apply (dk_page _ _ Hv p); [split; [apply lookup_insert_eq|apply Hp]|cbn; lia].
        -- rewrite elem_of_singleton. intros Heq. destruct (dk_inj _ _ Hd p p nd nd j i) as [_ ?]; (done || lia).
      * intros q nq j' Hq Hrq Hj'. apply (Hregs q nq Hq) in Hrq. rewrite (Hw q) by done. intros Heq. apply Hq.
        apply (dk_inj _ _ Hd q p nq nd j' j); (done || lia).
    + intros j j' Hj Hj'. cbn in Hj, Hj'.
      assert (Hs : forall k, 0 <= k < need -> page_slot (with_inode t' p shrunk) shrunk k = page_slot s nd k).
      { intros k Hk. etransitivity; [apply (slot_ext t' _ shrunk shrunk); [done|]; cbn; by apply lookup_insert_ne|].
        rewrite (Hslot shrunk), decide_False by (done || lia). rewrite Hsl, decide_False by lia. done. }
      rewrite !Hs by lia. intros Heq. apply (dk_inj _ _ Hd p p nd nd); (done || lia).
  - rewrite Hobjs, lookup_insert_ne by done. done.
  - by eapply rest_same_trans.
  - intros q nq j Hrq Hq Hj. rewrite <- (Hslots q nq j) by done. apply slot_ext; [done|]. apply (Hvo q); try done.
    destruct (dk_vec _ _ Hd q nq Hrq) as (? & _ & [[? _]|[? _]]); [lia|done].
  - intros j Hj. rewrite (Hslot nd) by (done || lia). rewrite Hsl by lia. repeat case_decide; try lia; done.
  - intros j Hj. apply elem_of_difference. split; [apply Hin; lia|]. rewrite elem_of_singleton. intros Heq.
    destruct (dk_inj _ _ Hd p p nd nd j i) as [_ ?]; (done || lia).
  - set_solver.
  - rewrite Hm. eapply same_frames_trans; [|exact Hsm|set_solver]. intros g x Hg. apply Hsf. set_solver.
Qed.
End shrink.

(** bytes of the file after it was cut or extended *)
Definition resized s nd (k : Z) : Z := if decide (k < i_npages nd * PAGE_SIZE) then fbyte s nd k else 0.

Definition truncated s p nd newsize (r : Z) s' : Prop :=
  exists F' nd', data_ok s' F' /\ reg s' p nd' /\ rest_same s s' p /\ others_same s s' p /\
    ((r = -12 /\ i_size nd < newsize /\ contents s' nd' = contents s nd) \/
     (r = 0 /\ i_size nd' = newsize /\ forall k, 0 <= k < newsize -> fbyte s' nd' k = resized s nd k)).

(** The shrinking branch ends in the inode [shrunk]. *)
Lemma shrink_finish s F p nd newsize need t :
  data_ok s F -> reg s p nd -> 0 <= newsize <= need * PAGE_SIZE -> newsize <= i_size nd -> need <= i_npages nd ->
  released s F p nd newsize need (i_npages nd) t -> truncated s p nd newsize 0 (with_inode t p (shrunk nd newsize need)).
Proof.
  intros Hd Hp Hneed Hle Hmin (F' & Hv & Hpt & Hrest & Hslots & Hsl & Hin & HF & Hsf).
  set (nd' := shrunk nd newsize need) in *. set (u := with_inode t p nd') in *.
  assert (Hu : forall q, q <> p -> objs u !! q = objs t !! q) by (intros q Hq; cbn; by rewrite lookup_insert_ne).
  assert (Hrest' : rest_same s u p).
  { eapply rest_same_trans; [exact Hrest|]. split; [done|]. split; [done|]. intros q o Hq Ho. by rewrite Hu. }
  assert (Hp' : reg u p nd') by (split; [apply lookup_insert_eq|apply Hp]).
  assert (Hvp : forall n, i_pages n <> 0 -> vec_ok s n -> objs u !! i_pages n = objs t !! i_pages n).
  { intros n Hz (_ & _ & [[_ ?]|[_ (l & Hl & _)]]); [done|]. apply Hu. destruct Hp as [Hp0 _]. congruence. }
  exists F', nd'. split; [done|]. split; [done|]. split; [done|]. split.
  - apply (same_bytes_others s u p F Hd). intros q nq Hq Hrq. split; [by apply (rest_same_reg s u p)|].
    intros k Hk. apply page_addr_range in Hk.
    assert (Hsq : page_slot u nq (k / PAGE_SIZE) = page_slot s nq (k / PAGE_SIZE)).
    { rewrite <- (Hslots q nq) by done. apply slot_ext; [done|].
      pose proof (dk_vec _ _ Hd q nq Hrq) as Hvq. apply Hvp; [|done]. destruct Hvq as (? & _ & [[? _]|[? _]]); [lia|done]. }
    unfold fbyte, addr. rewrite Hsq. apply (Hsf (page_slot s nq (k / PAGE_SIZE))).
    + rewrite <- Hsq. apply (dk_page _ _ Hv q); [by apply (rest_same_reg s u p)|done].
    + pose proof (Z.mod_pos_bound k PAGE_SIZE ltac:(done)). unfold in_range. lia.
  - right. split; [done|]. split; [done|]. intros k Hk. destruct (dk_size _ _ Hd p nd Hp) as [Hsz _].
    unfold resized. rewrite decide_True by lia.
    assert (Hki : 0 <= k / PAGE_SIZE < need) by (apply page_addr_range; lia).
    assert (Hsp : page_slot u nd' (k / PAGE_SIZE) = page_slot s nd (k / PAGE_SIZE)).
    { etransitivity; [apply (slot_ext t u nd nd'); [done|]|].
      - apply Hvp; [|by apply (dk_vec _ _ Hd p)]. destruct (dk_vec _ _ Hd p nd Hp) as (? & _ & [[? _]|[? _]]); [lia|done].
      - rewrite Hsl, decide_False by lia. done. }
    unfold fbyte, addr. rewrite Hsp. apply (Hsf (page_slot s nd (k / PAGE_SIZE))).
    + rewrite <- Hsp. by apply (dk_page _ _ Hv p).
    + pose proof (Z.mod_pos_bound k PAGE_SIZE ltac:(done)). unfold in_range. lia.
Qed.

Lemma ramfs_truncate_spec s F p nd newsize :
  data_ok s F -> reg s p nd -> 0 <= newsize <= 0xFFFFF000 ->
  wp (ramfs_truncate p newsize) s (truncated s p nd newsize).
Proof.
  intros Hd Hp Hns. destruct (dk_size _ _ Hd p nd Hp) as [Hsz Hnp]. destruct (dk_vec _ _ Hd p nd Hp) as (Hr & _).
  unfold ramfs_truncate. apply wp_bind, wp_get_inode. rewrite (reg_inode_at _ _ _ Hp).
  rewrite bool_decide_eq_true_2 by apply Hp. cbn [negb]. rewrite pages_needed by lia.
  set (need := (newsize + PAGE_SIZE - 1) / PAGE_SIZE).
  assert (Hneed : 0 <= need <= 2 ^ 20 /\ newsize <= need * PAGE_SIZE < newsize + PAGE_SIZE)
    by (unfold need, PAGE_SIZE; Z.div_mod_to_equations; lia).
  clearbody need. apply wp_bind. destruct (Z.ltb_spec (i_size nd) newsize) as [Hgt|Hle].
  - eapply wp_mono; [apply (ensure_pages_spec s F p nd need); (done || lia)|].
    intros r1 s1 Hens. pose proof (ensured_others _ _ _ _ _ _ _ Hd Hens) as Hoth.
    destruct Hens as (F1 & nd1 & HF & Hd1 & Hrest & _ & _ & Hp1 & Hnd1 & Hb & Hres).
    assert (Hsz1 : i_size nd1 = i_size nd) by (by rewrite Hnd1).
    destruct Hres as [[-> Hn1]|(-> & Hn1 & Hzero)]; cbn [negb Z.eqb].
    { wp_steps. exists F1, nd1. split; [done|]. split; [done|]. split; [done|].
      split; [by eapply same_bytes_others|]. left. split; [done|]. split; [done|].
      apply contents_ext; [done|]. intros k Hk. apply Hb. lia. }
    unfold upd_inode. wp_steps. rewrite (reg_inode_at _ _ _ Hp1).
    destruct (data_ok_inode s1 F1 p nd1 (set_size newsize nd1)) as (Hd3 & Hrest3 & Hp3 & Hb3 & Hoth3); try done.
    { apply Hp1. }
    { cbn. rewrite Hn1. unfold PAGE_SIZE in *. lia. }
    exists F1, (set_size newsize nd1). split; [exact Hd3|]. split; [exact Hp3|].
    split; [eapply rest_same_trans; [exact Hrest|exact Hrest3]|]. split.
    + apply (same_bytes_others _ _ _ F Hd). intros q nq Hq Hrq. destruct (Hoth q nq Hq Hrq) as [Hrq1 Hbq].
      split; [apply (rest_same_reg s1 _ p _ _ Hrest3 Hq); exact Hrq1|]. intros k Hk.
      rewrite (Hoth3 q nq k Hq Hrq1). by apply Hbq.
    + right. split; [done|]. split; [done|]. intros k Hk. rewrite Hb3. unfold resized.
      case_decide; [apply Hb; lia|apply Hzero]. rewrite Hn1. unfold PAGE_SIZE in *. lia.
  - assert (Hmin : need <= i_npages nd) by (unfold PAGE_SIZE in *; lia).
    apply wp_bind. eapply wp_mono.
    { apply (wp_forM _ need 1 _ s (fun i t => released s F p nd newsize need i t)).
      - apply released_start; (done || lia).
      - intros k t Hk Ht. rewrite Z.mul_1_r in *. replace (need + (k + 1) * 1) with (need + k + 1) by lia.
        apply release_step; (done || lia). }
    cbn beta. intros [] t Ht. replace (need + Z.of_nat _ * 1) with (i_npages nd) in Ht by lia.
    pose proof Ht as (_ & _ & Hpt & _). unfold upd_inode. wp_steps. cbn [negb Z.eqb]. wp_steps.
    rewrite (reg_inode_at t p nd) by (split; [done|apply Hp]).
    set (nd1 := if need <? i_npages nd then _ else nd).
    assert (Hnd1 : nd1 = set_vec (i_pages nd) need (i_cap nd) nd).
    { unfold nd1. case_bool; [done|]. replace need with (i_npages nd) by lia. by rewrite set_vec_id. }
    rewrite Hnd1. rewrite (reg_inode_at _ p (set_vec (i_pages nd) need (i_cap nd) nd))
      by (split; [cbn; apply lookup_insert_eq|apply Hp]).
    cbn [set_objs objs fmem root next_ino]. rewrite insert_insert_eq.
    pose proof (shrink_finish s F p nd newsize need t Hd Hp ltac:(lia) ltac:(lia) Hmin Ht) as Hfin. exact Hfin.
Qed.
End data.
