(* ===== verification/RamfsFiles.v ===== *)
(** Theorems on file contents in [ramfs.c]. *)

From stdpp Require Import gmap list fin_maps.
From Stdlib Require Import ZArith Lia.
From S2P Require Import Prelude Memory Frames Pmm Kmalloc Heap KernMem Ramfs RamfsData.

Section theorems.
Context {S : Type} {KM : KMem S} {KS : KMemSpec S}.
Implicit Types (s : fs S) (F : gset Z) (nd : rf_inode).

Lemma length_contents s nd : length (contents s nd) = Z.to_nat (i_size nd).
Proof. unfold contents. by rewrite length_fmap, length_seqZ. Qed.

Lemma lookup_contents s nd (i : nat) :
  Z.of_nat i < i_size nd -> contents s nd !! i = Some (fbyte s nd (Z.of_nat i)).
Proof. intros Hi. unfold contents. rewrite list_lookup_fmap, lookup_seqZ_lt by lia. done. Qed.

(** Two lists of the same length that agree position by position. *)
Lemma contents_eq s nd (l : list Z) :
  length l = Z.to_nat (i_size nd) ->
  (forall i : nat, Z.of_nat i < i_size nd -> l !! i = Some (fbyte s nd (Z.of_nat i))) -> contents s nd = l.
Proof.
  intros Hlen Hl. apply list_eq. intros i. destruct (decide (Z.of_nat i < i_size nd)).
  - by rewrite lookup_contents, Hl.
  - rewrite !lookup_ge_None_2; [done|lia|rewrite length_contents; lia].
Qed.

(** A write that starts inside the file or at its end. *)
Lemma written_contents s s' nd nd' off src :
  0 <= i_size nd <= i_npages nd * PAGE_SIZE -> 0 <= off <= i_size nd ->
  i_size nd' = Z.max (i_size nd) (off + Z.of_nat (length src)) ->
  (forall k, 0 <= k < i_size nd' -> fbyte s' nd' k = written s nd off src k) ->
  contents s' nd' =
  take (Z.to_nat off) (contents s nd) ++ (u8 <$> src) ++ drop (Z.to_nat off + length src) (contents s nd).
Proof.
  intros Hsz Hoff Hsz' Hb. pose proof (length_contents s nd) as Hlen. apply contents_eq.
  - rewrite !length_app, length_take, length_drop, length_fmap. lia.
  - intros i Hi. rewrite Hb by lia. unfold written.
    destruct (decide (Z.of_nat i < off)) as [H1|H1].
    { rewrite lookup_app_l by (rewrite length_take; lia). rewrite lookup_take_lt, lookup_contents by lia.
      rewrite decide_False, decide_True by lia. done. }
    rewrite lookup_app_r by (rewrite length_take; lia). rewrite length_take, Hlen.
    replace (Z.to_nat off `min` Z.to_nat (i_size nd))%nat with (Z.to_nat off) by lia.
    destruct (decide (Z.of_nat i < off + Z.of_nat (length src))) as [H2|H2].
    + rewrite lookup_app_l by (rewrite length_fmap; lia). rewrite list_lookup_fmap, decide_True by lia.
      replace (Z.to_nat (Z.of_nat i - off)) with (i - Z.to_nat off)%nat by lia.
      destruct (lookup_lt_is_Some_2 src (i - Z.to_nat off)) as [x ->]; [lia|]. done.
    + rewrite lookup_app_r by (rewrite length_fmap; lia). rewrite length_fmap, lookup_drop.
      replace (Z.to_nat off + length src + (i - Z.to_nat off - length src))%nat with i by lia.
      rewrite lookup_contents, decide_False, decide_True by lia. done.
Qed.

(** Reading a regular file returns exactly the bytes of its contents from
    [off] on, as many as were asked for and exist, and their number; it fails
    with -21 on anything else. *)
Theorem ramfs_read_correct s F p nd off n :
  data_ok s F -> objs s !! p = Some (OInode nd) -> 0 <= off -> 0 <= n ->
  ramfs_read s p off n =
  if bool_decide (i_type nd = RF_REG)
  then (let l := take (Z.to_nat n) (drop (Z.to_nat off) (contents s nd)) in (Z.of_nat (length l), l))
  else (-21, []).
Proof.
  intros Hd Hp Hoff Hn. case_bool_decide as Hty.
  - by apply (ramfs_read_eq s F).
  - unfold ramfs_read, inode_at. rewrite Hp, bool_decide_eq_false_2 by done. done.
Qed.

(** C27. Writing at or before the end of a file, up to offset 0xFFFFF000 (past
    it the page count of the code wraps), replaces exactly the bytes written,
    growing the file as needed, and a read of the same range returns them; out of memory is reported with -12 and leaves the contents as they
    were; no other file changes and the file system stays well formed. *)
Theorem ramfs_write_correct s F p nd off src r s' :
  data_ok s F -> reg s p nd -> 0 <= off <= i_size nd -> off + Z.of_nat (length src) <= 0xFFFFF000 ->
  ramfs_write p off src s = (r, s') ->
  exists F' nd', data_ok s' F' /\ reg s' p nd' /\
    (forall q nq, q <> p -> reg s q nq -> reg s' q nq /\ contents s' nq = contents s nq) /\
    ((r = -12 /\ contents s' nd' = contents s nd) \/
     (r = Z.of_nat (length src) /\
      contents s' nd' =
        take (Z.to_nat off) (contents s nd) ++ (u8 <$> src) ++ drop (Z.to_nat off + length src) (contents s nd) /\
      ramfs_read s' p off r = (r, u8 <$> src))).
Proof.
  intros Hd Hp Hoff Hend Heq. destruct (dk_size _ _ Hd p nd Hp) as [Hsz _].
  destruct (wp_eq _ _ _ _ _ Heq (ramfs_write_spec s F p nd off src Hd Hp ltac:(lia) Hend))
    as (F' & nd' & Hd' & Hp' & _ & Hoth & Hres).
  exists F', nd'. split; [done|]. split; [done|]. split; [done|].
  destruct Hres as [?|(-> & Hsz' & Hb)]; [by left|right]. split; [done|].
  pose proof (written_contents s s' nd nd' off src Hsz Hoff Hsz' Hb) as Hc. split; [done|].
  rewrite (ramfs_read_eq s' F' p nd') by (done || lia). rewrite Hc. cbv zeta.
  rewrite drop_app_length' by (rewrite length_take, length_contents; lia).
  rewrite take_app_length' by (rewrite length_fmap; lia). by rewrite length_fmap.
Qed.

(** Truncating to a smaller size keeps exactly the prefix; extending keeps
    all the contents, or fails with -12 and changes nothing; no other file
    changes and the file system stays well formed. *)
Theorem ramfs_truncate_correct s F p nd newsize r s' :
  data_ok s F -> reg s p nd -> 0 <= newsize <= 0xFFFFF000 -> ramfs_truncate p newsize s = (r, s') ->
  exists F' nd', data_ok s' F' /\ reg s' p nd' /\
    (forall q nq, q <> p -> reg s q nq -> reg s' q nq /\ contents s' nq = contents s nq) /\
    ((r = -12 /\ i_size nd < newsize /\ contents s' nd' = contents s nd) \/
     (r = 0 /\ i_size nd' = newsize /\
      take (Z.to_nat (i_size nd)) (contents s' nd') = take (Z.to_nat newsize) (contents s nd))).
Proof.
  intros Hd Hp Hns Heq. destruct (dk_size _ _ Hd p nd Hp) as [Hsz _].
  destruct (wp_eq _ _ _ _ _ Heq (ramfs_truncate_spec s F p nd newsize Hd Hp Hns))
    as (F' & nd' & Hd' & Hp' & _ & Hoth & Hres).
  exists F', nd'. split; [done|]. split; [done|]. split; [done|].
  destruct Hres as [?|(-> & Hsz' & Hb)]; [by left|right]. split; [done|]. split; [done|].
  apply list_eq. intros i. destruct (decide (Z.of_nat i < Z.min newsize (i_size nd))) as [Hi|Hi].
  - rewrite !lookup_take_lt, !lookup_contents by lia. rewrite Hb by lia. unfold resized. by rewrite decide_True by lia.
  - rewrite !lookup_ge_None_2; [done|..]; rewrite length_take, length_contents; lia.
Qed.
End theorems.

(** ** Examples *)

Lemma demo_heap_km : km_ok demo_heap ∅ ∅.
Proof.
  exists []. split; [|split].
  - split; cbn; try done; try apply demo_pmm_ok. intros b x Hb. by apply elem_of_nil in Hb.
  - intros p. cbn. rewrite elem_of_nil. set_solver.
  - intros f Hf. set_solver.
Qed.

(** One empty regular file, in the block [kmalloc(72)] returns. *)
Definition demo_p : Z := 0x40000010.
Definition demo_nd : rf_inode := set_head3 1 33188 1 (set_type RF_REG inode_zero).
Definition demo_fs : fs (kmem pmm) := Fs (kmalloc 72 demo_heap).2 {[demo_p := OInode demo_nd]} 0 2.

Lemma demo_fs_reg : reg demo_fs demo_p demo_nd.
Proof. split; [apply lookup_singleton_eq|done]. Qed.

Lemma demo_fs_reg_eq p nd : reg demo_fs p nd -> p = demo_p /\ nd = demo_nd.
Proof. intros [H _]. cbn in H. apply lookup_singleton_Some in H as [<- [= <-]]. done. Qed.

Lemma demo_fs_km : km_ok (fmem demo_fs) ∅ (dom (objs demo_fs)).
Proof.
  assert (Hp : (km_alloc 72 demo_heap).1 = demo_p) by (vm_compute; reflexivity).
  pose proof (km_alloc_spec demo_heap ∅ ∅ 72 demo_heap_km) as H. unfold KM_MAX, PAGE_SIZE in H.
  specialize (H ltac:(lia)). unfold wp in H. rewrite Hp in H. destruct H as [[H _]|(_ & _ & Hkm & _)]; [discriminate H|].
  replace (dom (objs demo_fs)) with ({[demo_p]} ∪ (∅ : gset Z)); [exact Hkm|].
  change (objs demo_fs) with ({[demo_p := OInode demo_nd]} : gmap Z obj). rewrite dom_singleton_L. set_solver.
Qed.

Lemma demo_fs_ok : data_ok demo_fs ∅.
Proof.
  split.
  - exact demo_fs_km.
  - intros p nd Hp. apply demo_fs_reg_eq in Hp as [-> ->]. unfold vec_ok. cbn [demo_nd i_npages i_cap i_pages set_head3 set_type inode_zero].
    split; [lia|]. split; [lia|]. left. lia.
  - intros p nd Hp. apply demo_fs_reg_eq in Hp as [-> ->]. cbn. lia.
  - intros p nd i Hp Hi. apply demo_fs_reg_eq in Hp as [-> ->]. cbn in Hi. lia.
  - intros p q nd nd' i j Hp _ Hi. apply demo_fs_reg_eq in Hp as [-> ->]. cbn in Hi. lia.
  - intros p q nd nd' Hp Hq _ _. apply demo_fs_reg_eq in Hp as [-> _], Hq as [-> _]. reflexivity.
Qed.

(** after writing the three bytes 65 66 67 *)
Definition demo_fs1 : fs (kmem pmm) := (ramfs_write demo_p 0 [65; 66; 67] demo_fs).2.

Lemma ramfs_write_correct_witness :
  (ramfs_write demo_p 0 [65; 66; 67] demo_fs).1 = 3 /\ ramfs_read demo_fs1 demo_p 0 3 = (3, [65; 66; 67]).
Proof.
  assert (Hr : (ramfs_write demo_p 0 [65; 66; 67] demo_fs).1 = 3) by (vm_compute; reflexivity).
  split; [exact Hr|].
  destruct (ramfs_write_correct demo_fs ∅ demo_p demo_nd 0 [65; 66; 67] 3 demo_fs1 demo_fs_ok demo_fs_reg)
    as (F' & nd' & _ & _ & _ & [[H _]|(_ & _ & H)]).
  - cbn. lia.
  - cbn. lia.
  - unfold demo_fs1. rewrite <- Hr. apply surjective_pairing.
  - discriminate H.
  - exact H.
Defined.

Lemma ramfs_read_correct_witness : ramfs_read demo_fs demo_p 0 10 = (0, []).
Proof.
  rewrite (ramfs_read_correct demo_fs ∅ demo_p demo_nd 0 10 demo_fs_ok);
    [reflexivity|apply lookup_singleton_eq|lia|lia].
Defined.

Lemma ramfs_truncate_correct_witness :
  exists F' nd', data_ok (ramfs_truncate demo_p 5000 demo_fs).2 F' /\
    reg (ramfs_truncate demo_p 5000 demo_fs).2 demo_p nd'.
Proof.
  destruct (ramfs_truncate_correct demo_fs ∅ demo_p demo_nd 5000 (ramfs_truncate demo_p 5000 demo_fs).1
    (ramfs_truncate demo_p 5000 demo_fs).2 demo_fs_ok demo_fs_reg) as (F' & nd' & H1 & H2 & _).
  - lia.
  - apply surjective_pairing.
  - exists F', nd'. split; [exact H1|exact H2].
Defined.

(** The bytes cut off by a truncation are not cleared: extending the file again
    brings them back instead of zeros. *)
Theorem truncate_exposes_stale_bytes :
  let s1 := (ramfs_truncate demo_p 1 demo_fs1).2 in
  let s2 := (ramfs_truncate demo_p 3 s1).2 in
  ramfs_read s1 demo_p 0 3 = (1, [65]) /\ ramfs_read s2 demo_p 0 3 = (3, [65; 66; 67]).
Proof. vm_compute. done. Qed.

(** For an end offset above 0xFFFFF000 the page count wraps to 0: no page is
    allocated, the write reports success, and the vector is indexed far beyond
    its capacity. *)
Theorem write_page_count_wraps :
  (0xFFFFF804 +w PAGE_SIZE -w 1) / PAGE_SIZE = 0 /\
  (ramfs_write demo_p 0xFFFFF800 [65; 66; 67; 68] demo_fs).1 = 4 /\
  i_npages (inode_at (ramfs_write demo_p 0xFFFFF800 [65; 66; 67; 68] demo_fs).2 demo_p) = 0.
Proof. vm_compute. done. Qed.
