(* ===== verification/RamfsTree.v ===== *)
(** Directories and path resolution of [ramfs.c]. *)

From stdpp Require Import gmap list fin_maps.
From Stdlib Require Import ZArith Lia.
From S2P Require Import Prelude Memory Frames KernMem Ramfs RamfsData.

Section tree.
Context {S : Type} {KM : KMem S} {KS : KMemSpec S}.
Implicit Types (s t : fs S) (F : gset Z) (nd : rf_inode).

(** ** Directory lists *)

(** an entry: the object it lives in, its name and the inode it names *)
Record entry := Entry { e_ptr : Z; e_name : cstr; e_inode : Z }.

(** The sibling list from [d] holds the entries [l]. *)
Fixpoint dlist s (d : Z) (l : list entry) : Prop :=
  match l with
  | [] => d = 0
  | e :: l' => d = e_ptr e /\ d <> 0 /\
      exists nx, objs s !! d = Some (ODirent (Dirent (e_name e) (e_inode e) nx)) /\ dlist s nx l'
  end.

Definition dlookup (l : list entry) (name : cstr) : option Z :=
  e_inode <$> list_find (fun e => e_name e = name) l ≫= fun x => Some x.2.

Lemma dlist_fun s d l l' : dlist s d l -> dlist s d l' -> l = l'.
Proof.
  revert d l'. induction l as [|e l IH]; intros d [|e' l']; cbn.
  - done.
  - intros -> (_ & ? & _). done.
  - intros (_ & Hd & _) ->. done.
  - intros (-> & _ & nx & Ho & Hl) (He & _ & nx' & Ho' & Hl'). rewrite Ho in Ho'. injection Ho' as H1 H2 <-.
    f_equal; [|by eapply IH]. destruct e, e'. cbn in *. congruence.
Qed.

Lemma dlist_suffix s d l1 e l2 : dlist s d (l1 ++ e :: l2) -> dlist s (e_ptr e) (e :: l2).
Proof.
  revert d. induction l1 as [|e' l1 IH]; intros d; cbn.
  - intros (-> & H). done.
  - intros (_ & _ & nx & _ & H). by apply (IH nx).
Qed.

Lemma dlist_NoDup s d l : dlist s d l -> NoDup (e_ptr <$> l).
Proof.
  revert d. induction l as [|e l IH]; intros d Hl; [constructor|]. cbn. constructor.
  - intros Hin. apply list_elem_of_fmap in Hin as (e' & Heq & Hin).
    apply list_elem_of_split in Hin as (l1 & l2 & ->).
    pose proof (dlist_suffix s d [] e _ Hl) as H1. pose proof (dlist_suffix s d (e :: l1) e' l2 Hl) as H2.
    rewrite <- Heq in H2. pose proof (dlist_fun _ _ _ _ H1 H2) as H3. apply (f_equal length) in H3.
    cbn in H3. rewrite length_app in H3. cbn in H3. lia.
  - destruct Hl as (_ & _ & nx & _ & Hl). by apply (IH nx).
Qed.

Lemma dlist_dom s d l e : dlist s d l -> e ∈ l -> e_ptr e ∈ dom (objs s).
Proof.
  intros Hl He. apply list_elem_of_split in He as (l1 & l2 & ->). apply dlist_suffix in Hl as (_ & _ & nx & Ho & _).
  by apply elem_of_dom_2 in Ho.
Qed.

(** A directory list is no longer than the heap has objects. *)
Lemma dlist_length s d l : dlist s d l -> (length l <= size (objs s))%nat.
Proof.
  intros Hl. rewrite <- size_dom, <- (length_fmap e_ptr l).
  rewrite <- (size_list_to_set (C := gset Z)) by (by eapply dlist_NoDup).
  apply subseteq_size. intros p Hp. rewrite elem_of_list_to_set in Hp.
  apply list_elem_of_fmap in Hp as (e & -> & He). by eapply dlist_dom.
Qed.

Lemma dlist_ext s s' d l :
  dlist s d l -> (forall e o, e ∈ l -> objs s !! e_ptr e = Some o -> objs s' !! e_ptr e = Some o) -> dlist s' d l.
Proof.
  revert d. induction l as [|e l IH]; intros d; cbn; [done|].
  intros (-> & Hd & nx & Ho & Hl) Hsame. split; [done|]. split; [done|]. exists nx. split; [apply Hsame; [set_solver|done]|].
  apply IH; [done|]. intros e' o He'. apply Hsame. set_solver.
Qed.

Lemma find_entry_eq fuel s name d l :
  dlist s d l -> (length l < fuel)%nat -> cstr_ok name -> Forall (fun e => cstr_ok (e_name e)) l ->
  find_entry fuel s name d = default 0 (dlookup l name).
Proof.
  revert d l. induction fuel as [|fuel IH]; intros d [|e l] Hl Hlen Hn Hok; cbn in Hlen; try lia; cbn [find_entry].
  - cbn in Hl. subst d. done.
  - destruct Hl as (-> & Hd & nx & Ho & Hl). apply Forall_cons in Hok as [Hoke Hok].
    rewrite (proj2 (Z.eqb_neq _ _)) by done. unfold dirent_at. rewrite Ho. cbn [d_name d_inode d_next].
    unfold dlookup. cbn [list_find]. destruct (decide (e_name e = name)) as [Heq|Hne].
    + rewrite (proj2 (Z.eqb_eq _ _)); [done|]. by apply strcmp_eq_0.
    + rewrite (proj2 (Z.eqb_neq _ _)) by (intros H; by apply strcmp_eq_0 in H).
      rewrite (IH nx l) by (done || lia). unfold dlookup. destruct (list_find _ l) as [[i e']|]; done.
Qed.

(** ** Well-formed trees *)

Definition is_dir s (p : Z) nd : Prop := objs s !! p = Some (OInode nd) /\ i_type nd = RF_DIR.

Definition tree_ok s : Prop :=
  forall p nd, is_dir s p nd -> exists l, dlist s (i_children nd) l /\
    Forall (fun e => cstr_ok (e_name e)) l /\ Forall (fun e => exists n, objs s !! e_inode e = Some (OInode n)) l.

(** names that fit an entry, and those that do not stand for a directory itself *)
Definition name_fits (name : cstr) : Prop := cstr_ok name /\ (length name < NAME_CAP)%nat.
Definition name_ok (name : cstr) : Prop := name_fits name /\ name <> dot /\ name <> dotdot.

Lemma child_eq s p nd l name :
  is_dir s p nd -> p <> 0 -> dlist s (i_children nd) l -> Forall (fun e => cstr_ok (e_name e)) l ->
  cstr_ok name -> name <> dot -> name <> dotdot -> ramfs_child s p name = default 0 (dlookup l name).
Proof.
  intros [Hp Hty] Hp0 Hl Hok Hn H1 H2. unfold ramfs_child. rewrite (proj2 (Z.eqb_neq _ _)) by done.
  unfold inode_at. rewrite Hp, bool_decide_eq_true_2 by done. cbn [orb negb].
  assert (Hd : cstr_ok dot /\ cstr_ok dotdot).
  { split; repeat constructor; lia. }
  destruct Hd as [Hd1 Hd2].
  rewrite (proj2 (Z.eqb_neq (strcmp name dot) 0)) by (intros H; by apply strcmp_eq_0 in H).
  rewrite (proj2 (Z.eqb_neq (strcmp name dotdot) 0)) by (intros H; by apply strcmp_eq_0 in H).
  apply find_entry_eq; try done. pose proof (dlist_length _ _ _ Hl). lia.
Qed.

(** ** Creating objects *)

(** the heap backs exactly the objects of the file system *)
Definition mem_ok s F : Prop := km_ok (fmem s) F (dom (objs s)).

Definition new_inode (t : rf_type) (ino mode : Z) : rf_inode := set_head3 ino mode 1 (set_type t inode_zero).

Lemma inode_new_spec s F ty mode :
  mem_ok s F ->
  wp (inode_new ty mode) s (fun n s' =>
    (n = 0 /\ s' = s) \/
    (n <> 0 /\ objs s !! n = None /\ objs s' = <[n := OInode (new_inode ty (next_ino s) mode)]> (objs s) /\
     mem_ok s' F /\ same_frames F (fmem s) (fmem s') /\ root s' = root s)).
Proof.
  intros Hm. unfold inode_new, in_mem, put_obj. wp_steps.
  eapply wp_mono; [apply (km_alloc_spec _ F (dom (objs s))); [exact Hm|unfold INODE_SIZE, KM_MAX, PAGE_SIZE; lia]|].
  intros n m [[-> ->]|(Hn & Hf & Hkm & Hsf)]; cbn beta.
  { rewrite Z.eqb_refl, set_fmem_id. wp_steps. by left. }
  rewrite (proj2 (Z.eqb_neq _ _)) by done. wp_steps. right. split; [done|].
  split; [by apply not_elem_of_dom|]. split; [done|]. split; [|done]. unfold mem_ok. cbn. by rewrite dom_insert_L.
Qed.

Lemma free_obj_spec s F p o :
  mem_ok s F -> objs s !! p = Some o ->
  wp (free_obj p) s (fun _ s' => objs s' = delete p (objs s) /\ mem_ok s' F /\
    same_frames F (fmem s) (fmem s') /\ root s' = root s).
Proof.
  intros Hm Hp. unfold free_obj, in_mem. wp_steps.
  eapply wp_mono; [apply (km_free_spec _ F (dom (objs s)) p); [exact Hm|by apply elem_of_dom_2 in Hp]|].
  intros [] m [Hkm Hsf]. wp_steps. split; [done|]. split; [|done]. unfold mem_ok. cbn. by rewrite dom_delete_L.
Qed.

(** A new entry in front of the list of [dir]. *)
Definition link_objs s (dir : Z) nd (name : cstr) (child d : Z) : gmap Z obj :=
  <[dir := OInode (set_children d nd)]>
    (<[d := ODirent (Dirent (take (pred NAME_CAP) name) child (i_children nd))]> (objs s)).

Lemma dir_link_spec s F dir nd name child :
  mem_ok s F -> objs s !! dir = Some (OInode nd) ->
  wp (dir_link dir name child) s (fun r s' =>
    (r = -1 /\ s' = s) \/
    (r = 0 /\ exists d, d <> 0 /\ objs s !! d = None /\ objs s' = link_objs s dir nd name child d /\
     mem_ok s' F /\ same_frames F (fmem s) (fmem s') /\ root s' = root s)).
Proof.
  intros Hm Hdir. unfold dir_link, in_mem, put_obj, get_inode, upd_inode. wp_steps.
  eapply wp_mono; [apply (km_alloc_spec _ F (dom (objs s))); [exact Hm|unfold DIRENT_SIZE, KM_MAX, PAGE_SIZE; lia]|].
  intros d m [[-> ->]|(Hn & Hf & Hkm & Hsf)]; cbn beta.
  { rewrite Z.eqb_refl, set_fmem_id. wp_steps. by left. }
  rewrite (proj2 (Z.eqb_neq _ _)) by done. wp_steps. right. split; [done|]. exists d. split; [done|].
  apply not_elem_of_dom in Hf. split; [done|].
  match goal with |- objs ?t = _ /\ _ => set (s' := t) end.
  assert (Hobjs : objs s' = link_objs s dir nd name child d).
  { assert (d <> dir) by congruence. unfold s', link_objs, inode_at. cbn [objs set_objs set_fmem].
    rewrite lookup_insert_ne, !Hdir by done. unfold strlcpy_, NAME_CAP. by rewrite strlcpy_copy_take. }
  split; [done|]. split; [|done]. unfold mem_ok. rewrite Hobjs. unfold link_objs. rewrite !dom_insert_L.
  change (fmem s') with m. replace ({[dir]} ∪ ({[d]} ∪ dom (objs s))) with ({[d]} ∪ dom (objs s)); [done|].
  apply elem_of_dom_2 in Hdir. set_solver.
Qed.

(** What a successful [ramfs_mk*] did: [n] is the new inode [o], named [name] in
    [dir]; every object that was there before is unchanged, [dir] apart. *)
Record entry_added s dir nd name n o s' : Prop := {
  ea_fresh : objs s !! n = None;
  ea_node : objs s' !! n = Some (OInode o);
  ea_dir : exists d, d <> 0 /\ objs s !! d = None /\ d <> n /\
    objs s' !! d = Some (ODirent (Dirent (take (pred NAME_CAP) name) n (i_children nd))) /\
    objs s' !! dir = Some (OInode (set_children d nd));
  ea_old : forall q x, objs s !! q = Some x -> q <> dir -> objs s' !! q = Some x;
  ea_only : forall q nq, objs s' !! q = Some (OInode nq) -> q = n \/ q = dir \/ objs s !! q = Some (OInode nq);
  ea_new : forall q x, objs s' !! q = Some x -> (exists nq, x = OInode nq) \/ objs s !! q = Some x \/
    (exists e, x = ODirent e) \/ (exists c, x = OStr c);
  ea_root : root s' = root s;
}.

(** The common tail of the [ramfs_mk*] functions. *)
Lemma mk_tail_spec s s1 F dir nd name n o (undo : M (fs S) Z) :
  mem_ok s1 F -> objs s !! dir = Some (OInode nd) -> n <> 0 -> objs s !! n = None ->
  (forall q x, objs s !! q = Some x -> objs s1 !! q = Some x) ->
  (forall q nq, objs s1 !! q = Some (OInode nq) -> q = n \/ objs s !! q = Some (OInode nq)) ->
  (forall q x, objs s1 !! q = Some x -> (exists nq, x = OInode nq) \/ objs s !! q = Some x \/ (exists c, x = OStr c)) ->
  objs s1 !! n = Some (OInode o) -> root s1 = root s ->
  wp undo s1 (fun r s' => r = 0 /\ objs s' = objs s /\ mem_ok s' F /\ same_frames F (fmem s1) (fmem s') /\ root s' = root s1) ->
  wp (rc ← dir_link dir name n; if negb (rc =? 0) then undo else mret n) s1 (fun r s' =>
    mem_ok s' F /\ same_frames F (fmem s1) (fmem s') /\
    ((r = 0 /\ objs s' = objs s /\ root s' = root s) \/
     (r = n /\ entry_added s dir nd name n o s' /\
      forall q x, objs s1 !! q = Some x -> q <> dir -> objs s' !! q = Some x))).
Proof.
  intros Hm Hdir Hn Hfresh Hold Honly Hnew Hnode Hroot Hundo. apply wp_bind.
  eapply wp_mono; [apply (dir_link_spec s1 F dir nd name n Hm); by apply Hold|].
  intros r s2 [[-> ->]|(-> & d & Hd & Hdf & Hobjs & Hm2 & Hsf & Hr2)]; cbn [negb Z.eqb].
  - eapply wp_mono; [exact Hundo|]. intros r s3 (-> & H1 & H2 & H3 & H4).
    split; [done|]. split; [done|]. left. split; [done|]. split; [done|congruence].
  - wp_steps. split; [done|]. split; [done|]. right. split; [done|].
    assert (Hdn : d <> n) by congruence. assert (Hnd : n <> dir) by congruence.
    assert (Hdd : d <> dir) by (apply Hold in Hdir; congruence). unfold link_objs in Hobjs.
    assert (Hkeep : forall q x, objs s1 !! q = Some x -> q <> dir -> objs s2 !! q = Some x).
    { intros q x Hq Hqd. rewrite Hobjs, !lookup_insert_ne; congruence. }
    split; [|done]. split.
    + done.
    + rewrite Hobjs, !lookup_insert_ne by done. done.
    + exists d. split; [done|]. split; [destruct (objs s !! d) as [x|] eqn:E; [apply Hold in E; congruence|done]|].
      split; [done|]. rewrite Hobjs. split; [|apply lookup_insert_eq]. rewrite lookup_insert_ne by done. apply lookup_insert_eq.
    + intros q x Hq Hqd. by apply Hkeep; [apply Hold|].
    + intros q nq. rewrite Hobjs. rewrite lookup_insert_Some. intros [[<- _]|[Hqd Hq]]; [auto|].
      rewrite lookup_insert_Some in Hq. destruct Hq as [[_ ?]|[_ Hq]]; [done|]. apply Honly in Hq. tauto.
    + intros q x. rewrite Hobjs, !lookup_insert_Some. intros [[_ <-]|[_ [[_ <-]|[_ Hq]]]]; [eauto|eauto|].
      apply Hnew in Hq. tauto.
    + congruence.
Qed.

(** Outcome of creating [name] in [dir]: NULL and no visible change, or a new
    inode of the given kind. *)
Definition mk_post s F dir nd name (kind : rf_inode -> Prop) (r : Z) s' : Prop :=
  mem_ok s' F /\ same_frames F (fmem s) (fmem s') /\
  ((r = 0 /\ objs s' = objs s /\ root s' = root s) \/
   (r <> 0 /\ exists o, kind o /\ entry_added s dir nd name r o s')).

Lemma mk_done s F dir nd name kind n o s1 r s' :
  n <> 0 -> ((forall q x, objs s1 !! q = Some x -> q <> dir -> objs s' !! q = Some x) -> kind o) ->
  same_frames F (fmem s) (fmem s1) ->
  mem_ok s' F /\ same_frames F (fmem s1) (fmem s') /\
    ((r = 0 /\ objs s' = objs s /\ root s' = root s) \/
     (r = n /\ entry_added s dir nd name n o s' /\
      forall q x, objs s1 !! q = Some x -> q <> dir -> objs s' !! q = Some x)) ->
  mk_post s F dir nd name kind r s'.
Proof.
  intros Hn Ho Hsf (H1 & H2 & H3). split; [done|]. split; [by eapply same_frames_trans|].
  destruct H3 as [?|(-> & H3 & H4)]; [by left|right]. split; [done|]. exists o. split; [|done]. by eapply Ho.
Qed.

(** Freeing the inode just created restores the objects. *)
Lemma undo_new s s1 F n o :
  mem_ok s1 F -> objs s !! n = None -> objs s1 = <[n := OInode o]> (objs s) ->
  wp (free_obj n ≫= fun _ => mret 0) s1 (fun r s' =>
    r = 0 /\ objs s' = objs s /\ mem_ok s' F /\ same_frames F (fmem s1) (fmem s') /\ root s' = root s1).
Proof.
  intros Hm Hn Hobjs. apply wp_bind. eapply wp_mono; [apply (free_obj_spec s1 F n (OInode o) Hm); by rewrite Hobjs, lookup_insert_eq|].
  intros [] s' (H1 & H2). apply wp_ret. rewrite H1, Hobjs, delete_insert_id by done. done.
Qed.

Lemma new_objs_facts s s1 n o :
  objs s !! n = None -> objs s1 = <[n := OInode o]> (objs s) ->
  (forall q x, objs s !! q = Some x -> objs s1 !! q = Some x) /\
  (forall q nq, objs s1 !! q = Some (OInode nq) -> q = n \/ objs s !! q = Some (OInode nq)) /\
  (forall q x, objs s1 !! q = Some x -> (exists nq, x = OInode nq) \/ objs s !! q = Some x \/ (exists c, x = OStr c)) /\
  objs s1 !! n = Some (OInode o).
Proof.
  intros Hn Hobjs. rewrite Hobjs. split; [|split; [|split; [|apply lookup_insert_eq]]].
  - intros q x Hq. rewrite lookup_insert_ne; [done|congruence].
  - intros q nq. rewrite lookup_insert_Some. intros [[<- _]|[_ ?]]; auto.
  - intros q x. rewrite lookup_insert_Some. intros [[_ <-]|[_ ?]]; eauto.
Qed.

Lemma mkreg_spec s F dir nd name mode :
  mem_ok s F -> objs s !! dir = Some (OInode nd) ->
  wp (ramfs_mkreg dir name mode) s (mk_post s F dir nd name (fun o => o = new_inode RF_REG (next_ino s) (perm_bits mode .| 32768))).
Proof.
  intros Hm Hdir. unfold ramfs_mkreg. apply wp_bind. eapply wp_mono; [by apply inode_new_spec|].
  intros n s1 [[-> ->]|(Hn & Hf & Hobjs & Hm1 & Hsf & Hr)]; cbn beta.
  { rewrite Z.eqb_refl. wp_steps. split; [done|]. split; [done|]. by left. }
  rewrite (proj2 (Z.eqb_neq _ _)) by done. destruct (new_objs_facts _ _ _ _ Hf Hobjs) as (H1 & H2 & H2' & H3).
  eapply wp_mono; [eapply (mk_tail_spec s s1 F dir nd name n); try done; by eapply undo_new|].
  intros r s' H. by eapply mk_done.
Qed.

(** Changing a field of the new inode. *)
Lemma upd_new s s1 F n o (f : rf_inode -> rf_inode) :
  mem_ok s1 F -> objs s !! n = None -> objs s1 = <[n := OInode o]> (objs s) ->
  wp (upd_inode n f) s1 (fun _ s2 => objs s2 = <[n := OInode (f o)]> (objs s) /\ mem_ok s2 F /\
    fmem s2 = fmem s1 /\ root s2 = root s1 /\ next_ino s2 = next_ino s1).
Proof.
  intros Hm Hn Hobjs. unfold upd_inode. wp_steps. unfold inode_at. rewrite Hobjs, lookup_insert_eq.
  set (s2 := set_objs _ s1). assert (Ho2 : objs s2 = <[n := OInode (f o)]> (objs s)) by (cbn; by rewrite insert_insert_eq).
  split; [done|]. split; [|done]. unfold mem_ok in *. rewrite Ho2. rewrite Hobjs in Hm.
  rewrite dom_insert_L in *. exact Hm.
Qed.

Lemma mkdir_spec s F dir nd name mode :
  mem_ok s F -> objs s !! dir = Some (OInode nd) ->
  wp (ramfs_mkdir dir name mode) s
    (mk_post s F dir nd name (fun o => o = set_parent dir (new_inode RF_DIR (next_ino s) (perm_bits mode .| 16384)))).
Proof.
  intros Hm Hdir. unfold ramfs_mkdir. apply wp_bind. eapply wp_mono; [by apply inode_new_spec|].
  intros n s1 [[-> ->]|(Hn & Hf & Hobjs & Hm1 & Hsf & Hr)]; cbn beta.
  { rewrite Z.eqb_refl. wp_steps. split; [done|]. split; [done|]. by left. }
  rewrite (proj2 (Z.eqb_neq _ _)) by done. apply wp_bind. eapply wp_mono; [by eapply upd_new|].
  intros [] s2 (Hobjs2 & Hm2 & Hf2 & Hr2 & _). destruct (new_objs_facts _ _ _ _ Hf Hobjs2) as (H1 & H2 & H2' & H3).
  rewrite <- Hf2 in Hsf. rewrite <- Hr2 in Hr.
  eapply wp_mono; [eapply (mk_tail_spec s s2 F dir nd name n); try done; by eapply undo_new|].
  intros r s' H. by eapply mk_done.
Qed.

Lemma mknod_spec s F dir nd name mode maj min :
  mem_ok s F -> objs s !! dir = Some (OInode nd) ->
  wp (ramfs_mknod dir name mode maj min) s
    (mk_post s F dir nd name (fun o => o = set_rdev maj min (new_inode RF_CHR (next_ino s) mode))).
Proof.
  intros Hm Hdir. unfold ramfs_mknod. apply wp_bind. eapply wp_mono; [by apply inode_new_spec|].
  intros n s1 [[-> ->]|(Hn & Hf & Hobjs & Hm1 & Hsf & Hr)]; cbn beta.
  { rewrite Z.eqb_refl. wp_steps. split; [done|]. split; [done|]. by left. }
  rewrite (proj2 (Z.eqb_neq _ _)) by done. apply wp_bind. eapply wp_mono; [by eapply upd_new|].
  intros [] s2 (Hobjs2 & Hm2 & Hf2 & Hr2 & _). destruct (new_objs_facts _ _ _ _ Hf Hobjs2) as (H1 & H2 & H2' & H3).
  rewrite <- Hf2 in Hsf. rewrite <- Hr2 in Hr.
  eapply wp_mono; [eapply (mk_tail_spec s s2 F dir nd name n); try done; by eapply undo_new|].
  intros r s' H. by eapply mk_done.
Qed.

Lemma wp_upd_inode s p f (Q : unit -> fs S -> Prop) :
  Q tt (set_objs (<[p := OInode (f (inode_at s p))]> (objs s)) s) -> wp (upd_inode p f) s Q.
Proof. done. Qed.

Lemma wp_put_obj s p o (Q : unit -> fs S -> Prop) : Q tt (set_objs (<[p := o]> (objs s)) s) -> wp (put_obj p o) s Q.
Proof. done. Qed.

(** The target string of a new symlink. *)
Lemma mklnk_spec s F dir nd name target :
  mem_ok s F -> objs s !! dir = Some (OInode nd) -> strlen target + 1 < KM_MAX ->
  wp (ramfs_mklnk dir name target) s (fun r s' =>
    mk_post s F dir nd name (fun o => i_nlink o = 1 /\ i_type o = RF_LNK /\ i_size o = strlen target /\ str_at s' (i_target o) = target) r s').
Proof.
  intros Hm Hdir Hlen. unfold ramfs_mklnk. apply wp_bind. eapply wp_mono; [by apply inode_new_spec|].
  intros n s1 [[-> ->]|(Hn & Hf & Hobjs & Hm1 & Hsf & Hr)]; cbn beta.
  { rewrite Z.eqb_refl. wp_steps. split; [done|]. split; [done|]. by left. }
  rewrite (proj2 (Z.eqb_neq _ _)) by done.
  assert (Hl0 : 0 <= strlen target) by (unfold strlen; lia).
  rewrite (u32_small (strlen target + 1)) by (unfold KM_MAX, PAGE_SIZE in *; lia).
  apply wp_bind. unfold in_mem at 1. apply wp_zoom.
  eapply wp_mono; [apply (km_alloc_spec _ F (dom (objs s1))); [exact Hm1|lia]|].
  intros t m Ht. cbn beta. apply wp_bind.
  assert (Hmt : t <> 0 -> km_ok m F ({[t]} ∪ dom (objs s1)) /\ same_frames F (fmem s1) m /\ objs s1 !! t = None).
  { intros Ht0. destruct Ht as [[? _]|(_ & Htf & Hkm & Hsm)]; [done|]. by rewrite <- not_elem_of_dom. }
  destruct (decide (t = 0)) as [->|Ht0].
  { destruct Ht as [[_ ->]|[? _]]; [|done]. rewrite set_fmem_id. eapply wp_mono; [by eapply upd_new|].
    intros [] s2 (Hobjs2 & Hm2 & Hf2 & Hr2 & _). rewrite Z.eqb_refl.
    eapply wp_mono; [by eapply undo_new|]. intros r s3 (-> & H1 & H2 & H3 & H4).
    split; [done|]. split; [eapply same_frames_trans; [exact Hsf|rewrite <- Hf2; exact H3|done]|].
    left. split; [done|]. split; [done|]. congruence. }
  destruct (Hmt Ht0) as (Hkm & Hsm & Htn). clear Ht Hmt.
  apply wp_upd_inode. rewrite (proj2 (Z.eqb_neq _ _)) by done. apply wp_bind, wp_put_obj, wp_bind, wp_upd_inode.
  match goal with |- wp _ ?u _ => set (s3 := u) end.
  set (o := set_size (strlen target) (set_target t (new_inode RF_LNK (next_ino s) 41471))).
  assert (Htn' : t <> n) by (intros ->; rewrite Hobjs, lookup_insert_eq in Htn; done).
  assert (Hts : objs s !! t = None) by (rewrite Hobjs, lookup_insert_ne in Htn by done; done).
  assert (Hobjs3 : objs s3 = <[n := OInode o]> (<[t := OStr target]> (objs s))).
  { unfold s3. cbn [objs set_objs set_fmem]. unfold inode_at. cbn [objs set_objs set_fmem].
    rewrite Hobjs. apply map_eq. intros q. destruct (decide (q = n)) as [->|Hqn].
    - rewrite !lookup_insert_eq, (lookup_insert_ne _ t n), !lookup_insert_eq by done. done.
    - rewrite !(lookup_insert_ne _ n q) by done. destruct (decide (q = t)) as [->|Hqt].
      + by rewrite !lookup_insert_eq.
      + by rewrite !lookup_insert_ne. }
  assert (Hm3 : mem_ok s3 F /\ fmem s3 = m /\ root s3 = root s1).
  { split; [|done]. unfold mem_ok. rewrite Hobjs3. change (fmem s3) with m. rewrite !dom_insert_L.
    rewrite Hobjs, dom_insert_L in Hkm. replace ({[n]} ∪ ({[t]} ∪ dom (objs s))) with ({[t]} ∪ ({[n]} ∪ dom (objs s))) by set_solver.
    done. }
  destruct Hm3 as (Hm3 & Hf3 & Hr3). clearbody s3.
  assert (Hstr3 : objs s3 !! t = Some (OStr target)) by (by rewrite Hobjs3, lookup_insert_ne, lookup_insert_eq).
  eapply wp_mono; [apply (mk_tail_spec s s3 F dir nd name n o); try done|].
  - intros q x Hq. rewrite Hobjs3, !lookup_insert_ne; [done|congruence|congruence].
  - intros q nq. rewrite Hobjs3, lookup_insert_Some. intros [[<- _]|[_ Hq]]; [auto|].
    apply lookup_insert_Some in Hq as [[_ ?]|[_ ?]]; [done|auto].
  - intros q x. rewrite Hobjs3, !lookup_insert_Some. intros [[_ <-]|[_ [[_ <-]|[_ ?]]]]; eauto.
  - by rewrite Hobjs3, lookup_insert_eq.
  - congruence.
  - apply wp_bind. eapply wp_mono; [by apply (free_obj_spec s3 F t (OStr target))|].
    intros [] s4 (H1 & H2 & H3 & H4).
    assert (Ho4 : objs s4 = <[n := OInode o]> (objs s)).
    { rewrite H1, Hobjs3, delete_insert_ne, delete_insert_id by done. done. }
    eapply wp_mono; [by apply (undo_new s s4 F n o)|]. intros r s5 (-> & H5 & H6 & H7 & H8).
    split; [done|]. split; [done|]. split; [done|]. split; [by eapply same_frames_trans|congruence].
  - intros r s' H. apply (mk_done _ _ _ _ _ _ n o s3); [done| | |exact H].
    + intros Hkeep. split; [done|]. split; [done|]. split; [done|]. unfold str_at. cbn [i_target o set_size set_target].
      rewrite (Hkeep t (OStr target)); [done|done|congruence].
    + rewrite Hf3. by eapply same_frames_trans.
Qed.

(** ** The tree after a creation *)

Lemma dlookup_cons e l x : dlookup (e :: l) x = if decide (e_name e = x) then Some (e_inode e) else dlookup l x.
Proof.
  unfold dlookup. cbn [list_find]. destruct (decide (e_name e = x)); [done|]. by destruct (list_find _ l) as [[]|].
Qed.

Lemma take_name name : name_fits name -> take (pred NAME_CAP) name = name.
Proof. intros (_ & Hlen). apply take_ge. unfold NAME_CAP in *. cbn. lia. Qed.

Section added.
Context s s' F dir nd name n o (Htree : tree_ok s) (Hdir : is_dir s dir nd) (Hname : name_fits name)
  (Hea : entry_added s dir nd name n o s').

Lemma dir_neq_new : dir <> n.
Proof. destruct Hdir as [H _]. pose proof (ea_fresh _ _ _ _ _ _ _ Hea). congruence. Qed.

(** Lists of before are lists of after. *)
Lemma added_dlist p l : dlist s p l -> dlist s' p l.
Proof.
  revert p. induction l as [|e l IH]; intros p; cbn; [done|]. intros (-> & Hp & nx & Ho & Hl).
  split; [done|]. split; [done|]. exists nx. split; [|by apply IH]. apply (ea_old _ _ _ _ _ _ _ Hea); [done|].
  intros Heq. rewrite Heq in Ho. destruct Hdir. congruence.
Qed.

Lemma added_inode q nq : objs s !! q = Some (OInode nq) -> exists nq', objs s' !! q = Some (OInode nq').
Proof.
  intros Hq. destruct (decide (q = dir)) as [->|]; [|exists nq; by apply (ea_old _ _ _ _ _ _ _ Hea)].
  destruct (ea_dir _ _ _ _ _ _ _ Hea) as (d & _ & _ & _ & _ & H). eauto.
Qed.

Definition new_list (d : Z) (l : list entry) : list entry := Entry d name n :: l.

Lemma added_dir_list l : dlist s (i_children nd) l ->
  exists d, objs s' !! dir = Some (OInode (set_children d nd)) /\ dlist s' d (new_list d l).
Proof.
  intros Hl. destruct (ea_dir _ _ _ _ _ _ _ Hea) as (d & Hd & _ & _ & Ho & Hdir'). exists d. split; [done|].
  cbn. split; [done|]. split; [done|]. rewrite take_name in Ho by done. exists (i_children nd). split; [done|].
  by apply added_dlist.
Qed.

Lemma added_tree_ok : (i_type o = RF_DIR -> i_children o = 0) -> tree_ok s'.
Proof.
  intros Hempty.
  assert (Hent : forall l, Forall (fun e => exists n, objs s !! e_inode e = Some (OInode n)) l ->
    Forall (fun e => exists n, objs s' !! e_inode e = Some (OInode n)) l).
  { intros l Hl. eapply Forall_impl; [exact Hl|]. intros e (ne & He). by eapply added_inode. }
  intros p np [Hp Hty]. destruct (ea_only _ _ _ _ _ _ _ Hea p np Hp) as [->|[->|Hold]].
  + rewrite (ea_node _ _ _ _ _ _ _ Hea) in Hp. injection Hp as <-. exists []. split; [by apply Hempty|]. by split.
  + destruct (Htree dir nd Hdir) as (l & Hl & Hok & Hin).
    destruct (added_dir_list l Hl) as (d & Hd & Hl'). rewrite Hd in Hp. injection Hp as <-.
    exists (new_list d l). split; [done|]. split; (apply Forall_cons; split; [|by auto]).
    * apply Hname.
    * exists o. apply (ea_node _ _ _ _ _ _ _ Hea).
  + destruct (Htree p np (conj Hold Hty)) as (l & Hl & Hok & Hin). exists l.
    split; [by apply added_dlist|]. by auto.
Qed.

(** What [ramfs_child] sees of a directory. *)
Lemma dir_view t p np l : is_dir t p np -> p <> 0 -> dlist t (i_children np) l ->
  Forall (fun e => cstr_ok (e_name e)) l -> forall x, cstr_ok x ->
  ramfs_child t p x =
    if decide (x = dot) then p else if decide (x = dotdot) then i_parent np else default 0 (dlookup l x).
Proof.
  intros Hp Hp0 Hl Hok x Hx. destruct (decide (x = dot)) as [->|H1].
  { unfold ramfs_child, inode_at. destruct Hp as [-> Hty]. rewrite (proj2 (Z.eqb_neq _ _)), bool_decide_eq_true_2 by done. done. }
  destruct (decide (x = dotdot)) as [->|H2]; [|by eapply child_eq].
  unfold ramfs_child, inode_at. destruct Hp as [-> Hty]. rewrite (proj2 (Z.eqb_neq _ _)), bool_decide_eq_true_2 by done. done.
Qed.

(** A lookup in the directory that got the new entry. *)
Lemma added_child_dir x : name <> dot -> name <> dotdot -> dir <> 0 -> cstr_ok x ->
  ramfs_child s' dir x = if decide (x = name) then n else ramfs_child s dir x.
Proof.
  intros Hn1 Hn2 Hd0 Hx. destruct (Htree dir nd Hdir) as (l & Hl & Hok & _).
  destruct (added_dir_list l Hl) as (d & Hd & Hl').
  rewrite (dir_view s dir nd l) by done.
  rewrite (dir_view s' dir (set_children d nd) (new_list d l)); [|by split; [|apply Hdir]|done|done| |done].
  2: { apply Forall_cons. split; [apply Hname|done]. }
  destruct (decide (x = name)) as [->|Hxn].
  - rewrite !decide_False by done. unfold new_list. rewrite dlookup_cons, decide_True by done. done.
  - unfold new_list. rewrite dlookup_cons. cbn [e_name]. rewrite (decide_False (P := name = x)) by done. done.
Qed.

Lemma added_child_other q nq x : is_dir s q nq -> q <> 0 -> q <> dir -> cstr_ok x -> ramfs_child s' q x = ramfs_child s q x.
Proof.
  intros Hq Hq0 Hqd Hx. destruct (Htree q nq Hq) as (l & Hl & Hok & _).
  rewrite (dir_view s q nq l) by done. rewrite (dir_view s' q nq l); [done|..]; try done.
  - split; [|apply Hq]. apply (ea_old _ _ _ _ _ _ _ Hea); [apply Hq|done].
  - by apply added_dlist.
Qed.

(** Files of before are files of after, and the only new one is [n]. *)
Lemma added_reg q nq : reg s' q nq <-> reg s q nq \/ (q = n /\ nq = o /\ i_type o = RF_REG).
Proof.
  split.
  - intros [Hq Hty]. destruct (ea_only _ _ _ _ _ _ _ Hea q nq Hq) as [->|[->|?]].
    + rewrite (ea_node _ _ _ _ _ _ _ Hea) in Hq. injection Hq as <-. by right.
    + destruct (ea_dir _ _ _ _ _ _ _ Hea) as (d & _ & _ & _ & _ & H). rewrite H in Hq. injection Hq as <-.
      destruct Hdir as [_ ?]. cbn in Hty. congruence.
    + left. by split.
  - intros [[Hq Hty]|(-> & -> & Hty)]; [|split; [apply (ea_node _ _ _ _ _ _ _ Hea)|done]].
    split; [|done]. apply (ea_old _ _ _ _ _ _ _ Hea); [done|]. intros ->. destruct Hdir. congruence.
Qed.

Lemma added_vec q nq : data_ok s F -> reg s q nq -> i_pages nq <> 0 -> objs s' !! i_pages nq = objs s !! i_pages nq.
Proof.
  intros Hd Hq Hz. destruct (dk_vec _ _ Hd q nq Hq) as (_ & _ & [[_ ?]|(_ & l & Hl & _)]); [done|].
  rewrite Hl. apply (ea_old _ _ _ _ _ _ _ Hea); [done|]. intros Heq. rewrite Heq in Hl. destruct Hdir. congruence.
Qed.
End added.

(** An empty file holds nothing. *)
Definition empty_file nd : Prop := i_size nd = 0 /\ i_npages nd = 0 /\ i_cap nd = 0 /\ i_pages nd = 0.

Lemma data_ok_extend s s' F :
  data_ok s F -> mem_ok s' F ->
  (forall q nq, reg s' q nq -> reg s q nq \/ empty_file nq) ->
  (forall q nq, reg s q nq -> i_pages nq <> 0 -> objs s' !! i_pages nq = objs s !! i_pages nq) ->
  data_ok s' F.
Proof.
  intros Hd Hm Hreg Hvec.
  assert (Hslot : forall q nq i, reg s q nq -> 0 <= i < i_npages nq -> page_slot s' nq i = page_slot s nq i).
  { intros q nq i Hq Hi. apply slot_ext; [done|]. apply (Hvec q); [done|].
    destruct (dk_vec _ _ Hd q nq Hq) as (Hr & _ & [[Hc _]|[Hz _]]); [lia|done]. }
  split.
  - exact Hm.
  - intros q nq Hq. destruct (Hreg q nq Hq) as [Hq'|(_ & E2 & E3 & E4)].
    + destruct (dk_vec _ _ Hd q nq Hq') as (Hr & Hc & Hl). split; [done|]. split; [done|].
      destruct Hl as [?|[Hz (l & Hl & Hlen)]]; [by left|right]. split; [done|]. exists l. by rewrite (Hvec q nq).
    + unfold vec_ok. rewrite E2, E3. split; [lia|]. split; [lia|]. by left.
  - intros q nq Hq. destruct (Hreg q nq Hq) as [Hq'|(E1 & E2 & _)]; [by apply (dk_size _ _ Hd q)|lia].
  - intros q nq i Hq Hi. destruct (Hreg q nq Hq) as [Hq'|(_ & E2 & _)]; [|lia].
    rewrite (Hslot q) by done. by apply (dk_page _ _ Hd q).
  - intros q r nq nr i j Hq Hr Hi Hj.
    destruct (Hreg q nq Hq) as [Hq'|(_ & E2 & _)]; [|lia]. destruct (Hreg r nr Hr) as [Hr'|(_ & E2 & _)]; [|lia].
    rewrite (Hslot q), (Hslot r) by done. by apply (dk_inj _ _ Hd).
  - intros q r nq nr Hq Hr Heq Hz.
    destruct (Hreg q nq Hq) as [Hq'|(_ & _ & _ & E)]; [|done]. destruct (Hreg r nr Hr) as [Hr'|(_ & _ & _ & E)]; [|congruence].
    by apply (dk_vinj _ _ Hd q r nq nr).
Qed.

(** Files whose pages are untouched keep their contents. *)
Lemma contents_extend s s' F q nq :
  data_ok s F -> same_frames F (fmem s) (fmem s') -> reg s q nq ->
  (i_pages nq <> 0 -> objs s' !! i_pages nq = objs s !! i_pages nq) -> contents s' nq = contents s nq.
Proof.
  intros Hd Hsf Hq Hvec. apply contents_ext; [done|]. intros k Hk.
  destruct (dk_size _ _ Hd q nq Hq) as [Hsz _].
  assert (Hpg : 0 <= k / PAGE_SIZE < i_npages nq) by (apply page_addr_range; lia).
  apply (fbyte_ext s s' nq nq F); [done|done|by apply (dk_page _ _ Hd q)|].
  apply slot_ext; [done|]. apply Hvec. destruct (dk_vec _ _ Hd q nq Hq) as (Hr & _ & [[Hc _]|[Hz _]]); [lia|done].
Qed.

End tree.
