(* ===== verification/RamfsPaths.v ===== *)
(** Theorems on the directory tree of [ramfs.c]: creation and path lookup. *)

From stdpp Require Import gmap list fin_maps.
From Stdlib Require Import ZArith Lia.
From S2P Require Import Prelude Memory Frames Pmm Kmalloc Heap KernMem Ramfs RamfsData RamfsTree RamfsFiles.

(** * Creation *)

Inductive mkop :=
  | MkReg (mode : Z)
  | MkDir (mode : Z)
  | MkLnk (target : cstr)
  | MkNod (mode maj min : Z).

Section create.
Context {S : Type} {KM : KMem S} {KS : KMemSpec S}.
Implicit Types (s : fs S) (F : gset Z) (nd : rf_inode).

Definition do_mk (op : mkop) (dir : Z) (name : cstr) : M (fs S) Z :=
  match op with
  | MkReg mode => ramfs_mkreg dir name mode
  | MkDir mode => ramfs_mkdir dir name mode
  | MkLnk target => ramfs_mklnk dir name target
  | MkNod mode maj min => ramfs_mknod dir name mode maj min
  end.

Definition mkop_ok (op : mkop) : Prop :=
  match op with MkLnk target => strlen target + 1 < KM_MAX | _ => True end.

(** What the new inode is. *)
Definition made (op : mkop) (dir : Z) s (o : rf_inode) : Prop :=
  i_nlink o = 1 /\
  match op with
  | MkReg mode => i_type o = RF_REG /\ i_mode o = perm_bits mode .| 32768 /\ empty_file o
  | MkDir mode => i_type o = RF_DIR /\ i_mode o = perm_bits mode .| 16384 /\ i_children o = 0 /\ i_parent o = dir
  | MkLnk target => i_type o = RF_LNK /\ i_size o = strlen target /\ str_at s (i_target o) = target
  | MkNod mode maj min => i_type o = RF_CHR /\ i_mode o = mode /\ i_rdev_major o = maj /\ i_rdev_minor o = min
  end.

Lemma mk_post_mono s F dir nd name (K K' : rf_inode -> Prop) r s' :
  (forall o, K o -> K' o) -> mk_post s F dir nd name K r s' -> mk_post s F dir nd name K' r s'.
Proof.
  intros HK (H1 & H2 & H3). split; [done|]. split; [done|].
  destruct H3 as [?|(Hr & o & Ho & He)]; [by left|right]. split; [done|]. exists o. auto.
Qed.

Lemma do_mk_spec s F dir nd op name :
  mem_ok s F -> is_dir s dir nd -> mkop_ok op ->
  wp (do_mk op dir name) s (fun r s' => mk_post s F dir nd name (made op dir s') r s').
Proof.
  intros Hm [Hdir _] Hop. destruct op as [mode|mode|target|mode maj min]; cbn [do_mk].
  - eapply wp_mono; [by apply mkreg_spec|]. intros r s'. apply mk_post_mono. intros o ->. done.
  - eapply wp_mono; [by apply mkdir_spec|]. intros r s'. apply mk_post_mono. intros o ->. done.
  - eapply wp_mono; [by apply mklnk_spec|]. intros r s'. apply mk_post_mono. intros o H. done.
  - eapply wp_mono; [by apply mknod_spec|]. intros r s'. apply mk_post_mono. intros o ->. done.
Qed.

Lemma made_reg op dir s o : made op dir s o -> i_type o = RF_REG -> empty_file o.
Proof. intros [_ H] Hty. destruct op; destruct H as (H & ? & ?); first [tauto|congruence]. Qed.

Lemma made_dir op dir s o : made op dir s o -> i_type o = RF_DIR -> i_children o = 0.
Proof. intros [_ H] Hty. destruct op; destruct H as (H & ? & ?); first [tauto|congruence]. Qed.

(** A file system that differs only in its memory. *)
Lemma same_objs_child s s' q x : objs s' = objs s -> ramfs_child s' q x = ramfs_child s q x.
Proof.
  intros Ho. unfold ramfs_child, inode_at. rewrite Ho.
  assert (Hf : forall fuel d, find_entry fuel s' x d = find_entry fuel s x d).
  { induction fuel as [|fuel IH]; intros d; [done|]. cbn. unfold dirent_at. rewrite Ho. by rewrite IH. }
  by rewrite Hf.
Qed.

Lemma same_objs_tree s s' : objs s' = objs s -> tree_ok s -> tree_ok s'.
Proof.
  intros Ho Ht p np Hp. unfold is_dir in Hp. rewrite Ho in Hp. destruct (Ht p np Hp) as (l & Hl & H1 & H2).
  exists l. rewrite Ho. split; [|done]. eapply dlist_ext; [exact Hl|]. intros e y _. by rewrite Ho.
Qed.

(** All files of [s] are there in [s'], with the same contents. *)
Definition files_kept s s' : Prop := forall q nq, reg s q nq -> reg s' q nq /\ contents s' nq = contents s nq.

(** Creating a file, directory, symlink or device node: it fails with NULL
    and no name or file changes, or it returns a new inode of the kind asked
    for (a file empty, a directory without entries whose parent is [dir], a
    symlink that holds its target), which looking up the name now gives; every
    other name in every directory resolves as before, every file keeps its
    contents, and the file system stays well formed. *)
Theorem ramfs_create_correct s F dir nd op name r s' :
  tree_ok s -> data_ok s F -> is_dir s dir nd -> name_ok name -> mkop_ok op ->
  do_mk op dir name s = (r, s') ->
  tree_ok s' /\ data_ok s' F /\ files_kept s s' /\
  ((r = 0 /\ forall q x, ramfs_child s' q x = ramfs_child s q x) \/
   (r <> 0 /\ objs s !! r = None /\ (exists o, objs s' !! r = Some (OInode o) /\ made op dir s' o) /\
    ramfs_child s' dir name = r /\
    forall q nq x, is_dir s q nq -> cstr_ok x -> (q <> dir \/ x <> name) -> ramfs_child s' q x = ramfs_child s q x)).
Proof.
  intros Ht Hd Hdir (Hname & Hn1 & Hn2) Hop Heq. pose proof (dk_km _ _ Hd) as Hm.
  destruct (wp_eq _ _ _ _ _ Heq (do_mk_spec s F dir nd op name Hm Hdir Hop)) as (Hm' & Hsf & Hres).
  assert (Hnz : forall q nq, is_dir s q nq -> q <> 0).
  { intros q nq [Hq _]. apply (km_ptr _ _ _ _ Hm). by apply elem_of_dom_2 in Hq. }
  destruct Hres as [(-> & Ho & Hr)|(Hr & o & Hmade & Hea)].
  - split; [by eapply same_objs_tree|]. split.
    { apply (data_ok_extend s); [done|done|..]; unfold reg; rewrite Ho; auto. }
    split; [|left; split; [done|]; intros q x; by apply same_objs_child].
    intros q nq Hq. split; [unfold reg; by rewrite Ho|]. apply (contents_extend s s' F q); try done. by rewrite Ho.
  - split; [apply (added_tree_ok s s' dir nd name r o Ht Hdir Hname Hea); by eapply made_dir|].
    split.
    { apply (data_ok_extend s); [done|done| |].
      - intros q nq Hq. apply (added_reg s s' dir nd name r o Hdir Hea) in Hq as [?|(-> & -> & Hty)]; [by left|right].
        by eapply made_reg.
      - intros q nq Hq Hz. by apply (added_vec s s' F dir nd name r o Hdir Hea q). }
    split.
    { intros q nq Hq. split; [apply (added_reg s s' dir nd name r o Hdir Hea); by left|].
      apply (contents_extend s s' F q); try done. intros Hz. by apply (added_vec s s' F dir nd name r o Hdir Hea q). }
    right. split; [done|]. split; [apply (ea_fresh _ _ _ _ _ _ _ Hea)|].
    split; [exists o; split; [apply (ea_node _ _ _ _ _ _ _ Hea)|done]|].
    pose proof (Hnz _ _ Hdir) as Hd0.
    pose proof (fun x => added_child_dir s s' dir nd name r o Ht Hdir Hname Hea x Hn1 Hn2) as Hcd. split.
    + rewrite (Hcd name Hd0 (proj1 Hname)). by rewrite decide_True.
    + intros q nq x Hq Hx Hne. destruct (decide (q = dir)) as [->|Hqd].
      * rewrite (Hcd x Hd0 Hx), decide_False; [done|tauto].
      * apply (added_child_other s s' dir nd name r o Ht Hdir Hea q nq); try done. by eapply Hnz.
Qed.
End create.

(** * Path lookup *)

(** The components of a path: what is between slashes, empty ones left out. *)
Fixpoint split_slash (p : cstr) : list cstr :=
  match p with
  | [] => [[]]
  | c :: p' =>
      if c =? SLASH then [] :: split_slash p'
      else match split_slash p' with w :: ws => (c :: w) :: ws | [] => [[c]] end
  end.

Definition components (p : cstr) : list cstr := filter (fun w => w <> []) (split_slash p).

Lemma components_skip p : components (skip_slashes p) = components p.
Proof.
  induction p as [|c p IH]; [done|]. cbn [skip_slashes]. destruct (Z.eqb_spec c SLASH) as [->|Hc]; [|done].
  rewrite IH. unfold components. cbn [split_slash]. rewrite Z.eqb_refl, filter_cons_False by auto. done.
Qed.

Lemma skip_slashes_length p : (length (skip_slashes p) <= length p)%nat.
Proof. induction p as [|c p IH]; cbn; [lia|]. destruct (c =? SLASH); cbn; lia. Qed.

Lemma skip_slashes_starts p : starts_slash (skip_slashes p) = false.
Proof. induction p as [|c p IH]; cbn; [done|]. destruct (c =? SLASH) eqn:E; [done|]. cbn. done. Qed.

(** A component, cut after [room] characters, and what follows it. *)
Lemma split_comp room p : exists w ws, split_slash p = (take (comp_len room p) p ++ w) :: ws /\
  ((w <> [] /\ length (take (comp_len room p) p) = room /\
    negb (is_nil (drop (comp_len room p) p)) && negb (starts_slash (drop (comp_len room p) p)) = true) \/
   (w = [] /\ negb (is_nil (drop (comp_len room p) p)) && negb (starts_slash (drop (comp_len room p) p)) = false /\
    (length (take (comp_len room p) p) <= room)%nat /\
    filter (fun w => w <> []) ws = components (drop (comp_len room p) p))).
Proof.
  revert p. induction room as [|room IH]; intros p.
  - cbn [comp_len]. rewrite drop_0, take_0. cbn [app length]. destruct p as [|c p].
    + exists [], []. split; [done|]. by right.
    + cbn [split_slash starts_slash is_nil negb andb]. destruct (Z.eqb_spec c SLASH) as [->|Hc]; cbn [negb].
      * exists [], (split_slash p). split; [done|]. right. unfold components. cbn [split_slash]. rewrite Z.eqb_refl.
        rewrite filter_cons_False by auto. done.
      * destruct (split_slash p) as [|w ws]; [exists [c], []|exists (c :: w), ws]; (split; [done|]; by left).
  - destruct p as [|c p].
    + exists [], []. split; [done|]. right. cbn. split; [done|]. split; [done|]. split; [lia|done].
    + cbn [comp_len]. destruct (Z.eqb_spec c SLASH) as [->|Hc].
      * rewrite drop_0, take_0. exists [], (split_slash p). cbn [split_slash starts_slash is_nil negb andb app length].
        rewrite Z.eqb_refl. split; [done|]. right. split; [done|]. split; [done|]. split; [lia|].
        unfold components. cbn [split_slash]. rewrite Z.eqb_refl, filter_cons_False by auto. done.
      * cbn [take drop split_slash]. rewrite (proj2 (Z.eqb_neq _ _)) by done.
        destruct (IH p) as (w & ws & -> & H). exists w, ws. split; [done|]. cbn [length].
        destruct H as [(H1 & H2 & H3)|(H1 & H2 & H3 & H4)]; [left|right].
        -- split; [done|]. split; [lia|done].
        -- split; [done|]. split; [done|]. split; [lia|done].
Qed.

Section lookup.
Context {S : Type} {KM : KMem S}.
Implicit Types (s : fs S).

Definition start_at s (start : Z) (path : cstr) : Z :=
  if starts_slash path then root s else if start =? 0 then root s else start.

(** What the loop of [ramfs_lookup] does with the components of a path. *)
Inductive steps_to s : Z -> list cstr -> bool -> nat -> Z -> Prop :=
  | steps_to_nil cur follow : steps_to s cur [] follow 0 cur
  | steps_to_step cur c cs follow k r child :
      cur <> 0 -> i_type (inode_at s cur) = RF_DIR -> (length c < NAME_CAP)%nat ->
      child = ramfs_child s cur c -> child <> 0 ->
      ~ (i_type (inode_at s child) = RF_LNK /\ (cs <> [] \/ follow = true)) ->
      steps_to s child cs follow k r -> steps_to s cur (c :: cs) follow k r
  | steps_to_link cur c cs follow k1 k2 r child target mid :
      cur <> 0 -> i_type (inode_at s cur) = RF_DIR -> (length c < NAME_CAP)%nat ->
      child = ramfs_child s cur c -> child <> 0 ->
      i_type (inode_at s child) = RF_LNK -> cs <> [] \/ follow = true ->
      target = str_at s (i_target (inode_at s child)) ->
      steps_to s (start_at s cur target) (components target) true k1 mid -> mid <> 0 ->
      steps_to s mid cs follow k2 r -> steps_to s cur (c :: cs) follow (Datatypes.S (k1 + k2)) r.

(** The head component of a non-empty path that starts with no slash. *)
Lemma components_head p : p <> [] -> starts_slash p = false ->
  let i := comp_len (pred NAME_CAP) p in
  (0 < i)%nat /\
  ((negb (is_nil (drop i p)) && negb (starts_slash (drop i p)) = true /\
    exists c cs, components p = c :: cs /\ (NAME_CAP <= length c)%nat) \/
   (negb (is_nil (drop i p)) && negb (starts_slash (drop i p)) = false /\
    (length (take i p) < NAME_CAP)%nat /\ components p = take i p :: components (skip_slashes (drop i p)))).
Proof.
  intros Hp Hs i.
  assert (Hi : (0 < i)%nat).
  { unfold i. destruct p as [|c p]; [done|]. cbn in Hs. cbn [comp_len NAME_CAP pred]. rewrite Hs. lia. }
  assert (Hne : take i p <> []).
  { destruct p as [|c p]; [done|]. by destruct i; [lia|]. }
  split; [done|]. destruct (split_comp (pred NAME_CAP) p) as (w & ws & Hsp & H). fold i in Hsp, H.
  assert (Hc : components p = (take i p ++ w) :: filter (fun w => w <> []) ws).
  { unfold components. rewrite Hsp, filter_cons_True; [done|]. intros H0. by apply app_eq_nil in H0 as [? _]. }
  destruct H as [(H1 & H2 & H3)|(-> & H2 & H3 & H4)]; [left|right]; (split; [done|]).
  - rewrite Hc. eexists _, _. split; [done|]. rewrite length_app, H2. unfold NAME_CAP. destruct w; [done|]. cbn [length]. lia.
  - split; [unfold NAME_CAP in *; lia|]. rewrite Hc, app_nil_r, H4, components_skip. done.
Qed.

Lemma components_nil p : starts_slash p = false -> components p = [] <-> p = [].
Proof.
  intros Hs. split; [|by intros ->]. intros Hc. destruct (decide (p = [])); [done|].
  destruct (components_head p n Hs) as [_ [(_ & c & cs & H & _)|(_ & _ & H)]]; rewrite H in Hc; done.
Qed.

(** One round of the loop, by cases on the head of the path. *)
Lemma walk_step rec s follow fuel cur p b :
  p <> [] -> starts_slash p = false ->
  let i := comp_len (pred NAME_CAP) p in
  let rest := skip_slashes (drop i p) in
  let child := ramfs_child s cur (take i p) in
  let target := str_at s (i_target (inode_at s child)) in
  walk rec s follow (Datatypes.S fuel) cur p b =
  if negb (is_nil (drop i p)) && negb (starts_slash (drop i p)) then (0, b)
  else if decide (cur = 0 \/ i_type (inode_at s cur) <> RF_DIR) then (0, b)
  else if decide (child = 0) then (0, b)
  else if decide (i_type (inode_at s child) = RF_LNK /\ (rest <> [] \/ follow = true)) then
    (if decide (b <= 0) then (0, b - 1)
     else let '(c, b') := rec (if starts_slash target then root s else cur) target (b - 1) in
          if decide (c = 0) then (0, b') else walk rec s follow fuel c rest b')
  else walk rec s follow fuel child rest b.
Proof.
  intros Hp Hs i rest child target. cbn [walk]. replace (is_nil p) with false by (by destruct p).
  fold i. fold rest. fold child. destruct (negb (is_nil (drop i p)) && negb (starts_slash (drop i p))); [done|].
  destruct (Z.eqb_spec cur 0) as [Hc|Hc]; cbn [orb].
  { by rewrite decide_True by auto. }
  case_bool_decide as Hty; cbn [negb]; [|by rewrite decide_True by auto].
  rewrite decide_False by tauto. destruct (Z.eqb_spec child 0) as [Hch|Hch]; [by rewrite decide_True|].
  rewrite decide_False by done. fold target.
  replace (bool_decide (i_type (inode_at s child) = RF_LNK) && (negb (is_nil rest) || follow))
    with (bool_decide (i_type (inode_at s child) = RF_LNK /\ (rest <> [] \/ follow = true))).
  2: { rewrite bool_decide_and. f_equal. destruct follow, rest; case_bool_decide; naive_solver. }
  case_bool_decide as Hl; [rewrite decide_True by done|by rewrite decide_False].
  destruct (Z.ltb_spec (b - 1) 0); [by rewrite decide_True by lia|]. rewrite decide_False by lia.
  destruct (rec _ _ _) as [c b']. destruct (Z.eqb_spec c 0); [by rewrite decide_True|by rewrite decide_False].
Qed.

Lemma start_at_base s cur target : cur <> 0 ->
  start_at s (if starts_slash target then root s else cur) target = start_at s cur target.
Proof. intros. unfold start_at. by destruct (starts_slash target). Qed.

Definition rec_sound s (rec : Z -> cstr -> Z -> Z * Z) : Prop :=
  forall base target b c b', 0 <= b -> rec base target b = (c, b') -> c <> 0 ->
  0 <= b' <= b /\ steps_to s (start_at s base target) (components target) true (Z.to_nat (b - b')) c.

Lemma walk_sound rec s follow : rec_sound s rec -> forall fuel cur p b r b',
  starts_slash p = false -> 0 <= b -> walk rec s follow fuel cur p b = (r, b') -> r <> 0 ->
  0 <= b' <= b /\ steps_to s cur (components p) follow (Z.to_nat (b - b')) r.
Proof.
  intros Hrec. induction fuel as [|fuel IH]; intros cur p b r b' Hs Hb Heq Hr; [cbn in Heq; congruence|].
  destruct (decide (p = [])) as [->|Hp].
  { cbn in Heq. injection Heq as -> ->. rewrite Z.sub_diag. split; [lia|]. constructor. }
  rewrite walk_step in Heq by done. cbv zeta in Heq.
  destruct (components_head p Hp Hs) as [_ [(Hlong & _)|(Hshort & Hlen & Hcs)]]; cbv zeta in *.
  { rewrite Hlong in Heq. congruence. }
  rewrite Hshort in Heq. set (i := comp_len (pred NAME_CAP) p) in *. set (rest := skip_slashes (drop i p)) in *.
  assert (Hrs : starts_slash rest = false) by apply skip_slashes_starts.
  pose proof (components_nil rest Hrs) as Hnil.
  case_decide as H1; [congruence|]. apply Decidable.not_or in H1 as [Hc0 Hty].
  destruct (decide (i_type (inode_at s cur) = RF_DIR)) as [Hd|]; [|done].
  case_decide as Hch; [congruence|]. rewrite Hcs. case_decide as Hl.
  - case_decide as Hb0; [congruence|]. destruct (rec _ _ _) as [c b1] eqn:Erec. case_decide as Hc; [congruence|].
    assert (Hb00 : 0 <= b - 1) by lia. destruct (Hrec _ _ _ _ _ Hb00 Erec Hc) as [Hb1 Hres1]. rewrite start_at_base in Hres1 by done.
    apply IH in Heq as [Hb' Hres2]; [|done || lia..]. split; [lia|].
    replace (Z.to_nat (b - b')) with (Datatypes.S (Z.to_nat (b - 1 - b1) + Z.to_nat (b1 - b'))) by lia.
    destruct Hl as [Hl1 Hl2]. eapply steps_to_link; try done. destruct Hl2; [left|by right]. by rewrite Hnil.
  - apply IH in Heq as [Hb' Hres]; [|done|done|done]. split; [done|]. eapply steps_to_step; try done.
    rewrite Hnil. done.
Qed.

Definition rec_complete s (rec : Z -> cstr -> Z -> Z * Z) (K : nat) : Prop :=
  forall base target b c k, steps_to s (start_at s base target) (components target) true k c -> c <> 0 ->
  (k < K)%nat -> Z.of_nat k <= b -> rec base target b = (c, b - Z.of_nat k).

Lemma walk_complete rec s K : rec_complete s rec K -> forall fuel follow cur p b r k,
  starts_slash p = false -> (length p < fuel)%nat -> steps_to s cur (components p) follow k r -> r <> 0 ->
  (k <= K)%nat -> Z.of_nat k <= b -> walk rec s follow fuel cur p b = (r, b - Z.of_nat k).
Proof.
  intros Hrec. induction fuel as [|fuel IH]; intros follow cur p b r k Hs Hfuel Hres Hr HK Hb; [lia|].
  destruct (decide (p = [])) as [->|Hp].
  { inversion Hres; subst. cbn. by rewrite Z.sub_0_r. }
  rewrite walk_step by done. cbv zeta.
  destruct (components_head p Hp Hs) as [Hi [(Hlong & c & cs & Hcs & Hc)|(Hshort & Hlen & Hcs)]]; cbv zeta in *.
  { rewrite Hcs in Hres. inversion Hres; subst; lia. }
  rewrite Hshort. set (i := comp_len (pred NAME_CAP) p) in *. set (rest := skip_slashes (drop i p)) in *.
  assert (Hrs : starts_slash rest = false) by apply skip_slashes_starts.
  assert (Hrl : (length rest < fuel)%nat).
  { pose proof (skip_slashes_length (drop i p)) as H. rewrite length_drop in H. fold rest in H.
    destruct p; [done|]. cbn [length] in *. lia. }
  pose proof (components_nil rest Hrs) as Hnil. rewrite Hcs in Hres.
  inversion Hres as [|? ? ? ? ? ? child Hc0 Hd Hlc Hch Hchn Hnl Hres'|? ? ? ? k1 k2 ? child target mid Hc0 Hd Hlc Hch Hchn Hl Hfol Htgt Hr1 Hmid Hr2]; subst.
  - rewrite decide_False by tauto. rewrite decide_False by done. rewrite Hnil in Hnl. rewrite decide_False by done.
    by apply IH.
  - rewrite decide_False by tauto. rewrite decide_False by done. rewrite Hnil in Hfol. rewrite decide_True by done.
    rewrite decide_False by lia. erewrite (Hrec _ _ _ mid k1); [|by rewrite start_at_base|done|lia|lia].
    rewrite decide_False by done. rewrite (IH follow mid rest _ r k2); [|done|done|done|done|lia|lia].
    f_equal. lia.
Qed.

Lemma lookup_b_sound depth s : rec_sound s (fun base target b => lookup_b depth s base target true b) /\
  forall start path follow b r b', 0 <= b -> lookup_b depth s start path follow b = (r, b') -> r <> 0 ->
  0 <= b' <= b /\ steps_to s (start_at s start path) (components path) follow (Z.to_nat (b - b')) r.
Proof.
  assert (H : forall start path follow b r b', 0 <= b -> lookup_b depth s start path follow b = (r, b') -> r <> 0 ->
    0 <= b' <= b /\ steps_to s (start_at s start path) (components path) follow (Z.to_nat (b - b')) r).
  { induction depth as [|depth IH]; intros start path follow b r b' Hb Heq Hr; rewrite <- components_skip;
      cbn [lookup_b] in Heq; (eapply walk_sound; [|apply skip_slashes_starts|done|exact Heq|done]).
    - intros base target b0 c b1 _ [= <- _]. done.
    - intros base target b0 c b1 Hb0 Heq0 Hc. by apply (IH base target true b0 c b1). }
  split; [|exact H]. intros base target b c b'. apply H.
Qed.

Lemma lookup_b_complete depth s start path follow b r k :
  steps_to s (start_at s start path) (components path) follow k r -> r <> 0 -> (k <= depth)%nat -> Z.of_nat k <= b ->
  lookup_b depth s start path follow b = (r, b - Z.of_nat k).
Proof.
  revert start path follow b r k. induction depth as [|depth IH]; intros start path follow b r k Hres Hr Hk Hb;
    rewrite <- components_skip in Hres; cbn [lookup_b];
    (eapply walk_complete; [|apply skip_slashes_starts| |exact Hres|done|exact Hk|done]).
  - intros base target b0 c k0 _ _ ?. lia.
  - pose proof (skip_slashes_length path). lia.
  - intros base target b0 c k0 Hres0 Hc Hk0 Hb0. by apply IH; [..|lia|].
  - pose proof (skip_slashes_length path). lia.
Qed.

(** The directory tree as a name space: [dir_child s dir name n] says that [name]
    stands for [n] in the directory [dir].  A dot is the directory itself, two
    dots are its parent, and any other name is looked for in the list of the
    directory's entries. *)
Inductive dir_child s (dir : Z) : cstr -> Z -> Prop :=
  | child_dot nd : is_dir s dir nd -> dir_child s dir dot dir
  | child_dotdot nd : is_dir s dir nd -> dir_child s dir dotdot (i_parent nd)
  | child_entry nd l name n :
      is_dir s dir nd -> name <> dot -> name <> dotdot ->
      dlist s (i_children nd) l -> dlookup l name = Some n -> dir_child s dir name n.

(** [resolves s cur cs follow k r]: from the directory [cur], the components [cs]
    lead to [r], through [k] symlinks.  A symlink is followed if more
    components come after it or if [follow] is set; its target is a path of its
    own, from the root if it begins with a slash and else from [cur]. *)
Inductive resolves s : Z -> list cstr -> bool -> nat -> Z -> Prop :=
  | resolves_nil cur follow : resolves s cur [] follow 0 cur
  | resolves_step cur c cs follow k r child :
      cur <> 0 -> (length c < NAME_CAP)%nat -> dir_child s cur c child -> child <> 0 ->
      ~ (i_type (inode_at s child) = RF_LNK /\ (cs <> [] \/ follow = true)) ->
      resolves s child cs follow k r -> resolves s cur (c :: cs) follow k r
  | resolves_link cur c cs follow k1 k2 r child target mid :
      cur <> 0 -> (length c < NAME_CAP)%nat -> dir_child s cur c child -> child <> 0 ->
      i_type (inode_at s child) = RF_LNK -> cs <> [] \/ follow = true ->
      target = str_at s (i_target (inode_at s child)) ->
      resolves s (start_at s cur target) (components target) true k1 mid -> mid <> 0 ->
      resolves s mid cs follow k2 r -> resolves s cur (c :: cs) follow (Datatypes.S (k1 + k2)) r.

(** The targets of the symlinks are C strings. *)
Definition targets_ok s : Prop :=
  forall p nd, objs s !! p = Some (OInode nd) -> i_type nd = RF_LNK -> cstr_ok (str_at s (i_target nd)).

Lemma dir_at s p : i_type (inode_at s p) = RF_DIR -> is_dir s p (inode_at s p).
Proof. unfold is_dir, inode_at. destruct (objs s !! p) as [[]|]; done. Qed.

Lemma split_slash_ok p : cstr_ok p -> Forall cstr_ok (split_slash p).
Proof.
  unfold cstr_ok. induction p as [|c p IH]; intros Hp; cbn [split_slash]; [by repeat constructor|].
  apply Forall_cons in Hp as [Hc Hp]. specialize (IH Hp). destruct (c =? SLASH); [by constructor|].
  destruct (split_slash p) as [|w ws]; [by do 2 constructor|]. apply Forall_cons in IH as [Hw Hws].
  constructor; [by constructor|done].
Qed.

Lemma components_ok p : cstr_ok p -> Forall cstr_ok (components p).
Proof.
  intros Hp. pose proof (split_slash_ok p Hp) as H. rewrite Forall_forall in H |- *.
  intros w Hw. unfold components in Hw. apply list_elem_of_filter in Hw as [_ Hw]. by apply H.
Qed.

(** [ramfs_child] returns what the name stands for. *)
Lemma ramfs_child_iff s dir name n : tree_ok s -> dir <> 0 -> cstr_ok name -> n <> 0 ->
  i_type (inode_at s dir) = RF_DIR /\ n = ramfs_child s dir name <-> dir_child s dir name n.
Proof.
  intros Ht Hd Hn Hn0. split.
  - intros [Hty ->]. pose proof (dir_at s dir Hty) as Hdir. destruct (Ht dir _ Hdir) as (l & Hl & Hok & _).
    revert Hn0. rewrite (dir_view s dir _ l Hdir Hd Hl Hok name Hn).
    destruct (decide (name = dot)) as [->|H1]; [intros _; by eapply child_dot|].
    destruct (decide (name = dotdot)) as [->|H2]; [intros _; by eapply child_dotdot|].
    destruct (dlookup l name) as [x|] eqn:E; [|done]. intros _. by eapply child_entry.
  - intros H.
    assert (Hdir : exists nd, is_dir s dir nd) by (destruct H; eauto). destruct Hdir as [nd Hdir].
    destruct (Ht dir nd Hdir) as (l & Hl & Hok & _).
    assert (Hsame : forall nd', is_dir s dir nd' -> nd' = nd) by (intros nd' [H' _]; destruct Hdir as [H'' _]; congruence).
    split; [unfold inode_at; destruct Hdir as [-> ?]; done|].
    rewrite (dir_view s dir nd l Hdir Hd Hl Hok name Hn).
    destruct H as [nd' Hdir'|nd' Hdir'|nd' l' name n Hdir' H1 H2 Hl' Hlook]; [done|by rewrite (Hsame nd' Hdir')|].
    rewrite (Hsame nd' Hdir') in Hl'. rewrite !decide_False by done. rewrite (dlist_fun _ _ _ _ Hl Hl'), Hlook. done.
Qed.

Lemma steps_to_iff s cur cs follow k r : tree_ok s -> targets_ok s -> Forall cstr_ok cs ->
  steps_to s cur cs follow k r <-> resolves s cur cs follow k r.
Proof.
  intros Ht Htg Hcs. split; intros H; revert Hcs.
  - induction H as [cur follow|cur c cs follow j r child Hc Hd Hlen Hch Hch0 Hn Hres IH
                   |cur c cs follow k1 k2 r child tgt mid Hc Hd Hlen Hch Hch0 Hlnk Hfol Htgt Hr1 IH1 Hmid Hr2 IH2];
      intros Hcs; [constructor| |]; apply Forall_cons in Hcs as [Hcok Hcs];
      (assert (Hco : dir_child s cur c child) by (by apply ramfs_child_iff)).
    + eapply resolves_step; [done|done|exact Hco|done|done|by apply IH].
    + eapply resolves_link; [done|done|exact Hco|done|done|done|exact Htgt| |done|by apply IH2].
      apply IH1, components_ok. rewrite Htgt. revert Hlnk Htg. unfold inode_at.
      destruct (objs s !! child) as [[nd| | | | |]|] eqn:E; [|done..]. intros Hlnk Htg. by apply (Htg child).
  - induction H as [cur follow|cur c cs follow j r child Hc Hlen Hch Hch0 Hn Hres IH
                   |cur c cs follow k1 k2 r child tgt mid Hc Hlen Hch Hch0 Hlnk Hfol Htgt Hr1 IH1 Hmid Hr2 IH2];
      intros Hcs; [constructor| |]; apply Forall_cons in Hcs as [Hcok Hcs];
      apply ramfs_child_iff in Hch as [Hd Hch]; try done.
    + eapply steps_to_step; [done|done|done|exact Hch|done|done|by apply IH].
    + eapply steps_to_link; [done|done|done|exact Hch|done|done|done|exact Htgt| |done|by apply IH2].
      apply IH1, components_ok. rewrite Htgt. revert Hlnk Htg. unfold inode_at.
      destruct (objs s !! child) as [[nd| | | | |]|] eqn:E; [|done..]. intros Hlnk Htg. by apply (Htg child).
Qed.

(** C30. In a well-formed tree whose symlink targets are C strings, [ramfs_lookup]
    returns an inode exactly when the components of the path, read in the
    directories' lists of entries with a dot for the directory and two dots for
    its parent, resolve to it through at most eight symlinks, each followed in
    the middle of the path, and at its end when asked to; and NULL in every
    other case, symlink cycles and names of 64 characters or more included. *)
Theorem ramfs_lookup_correct s start path follow r :
  tree_ok s -> targets_ok s -> cstr_ok path -> r <> 0 ->
  ramfs_lookup s start path follow = r <->
  exists k, Z.of_nat k <= SYMLINK_MAX /\ resolves s (start_at s start path) (components path) follow k r.
Proof.
  intros Ht Htg Hp Hr. pose proof (components_ok path Hp) as Hcs. unfold ramfs_lookup. split.
  - intros Heq. destruct (lookup_b _ _ _ _ _ _) as [c b'] eqn:E. cbn in Heq. subst c.
    apply lookup_b_sound in E as [Hb Hres]; [|unfold SYMLINK_MAX; lia|done].
    eexists. split; [|by apply steps_to_iff]. lia.
  - intros (k & Hk & Hres). apply steps_to_iff in Hres; [|done..]. erewrite lookup_b_complete; [done|exact Hres|done|unfold SYMLINK_MAX in *; lia|done].
Qed.
End lookup.

(** * The root *)

Section init.
Context {S : Type} {KM : KMem S} {KS : KMemSpec S}.
Implicit Types (s : fs S).

Definition root_inode (ino r : Z) : rf_inode := set_parent r (new_inode RF_DIR ino 16877).

Lemma ramfs_init_spec s : mem_ok s ∅ -> objs s = ∅ ->
  wp ramfs_init s (fun _ s' => root s' = 0 \/
    (root s' <> 0 /\ objs s' = {[root s' := OInode (root_inode (next_ino s) (root s'))]} /\ tree_ok s' /\ data_ok s' ∅)).
Proof.
  intros Hm Ho. unfold ramfs_init. apply wp_bind. eapply wp_mono; [by apply inode_new_spec|].
  intros r s1 [[-> ->]|(Hr & _ & Hobjs & Hm1 & _)]; apply wp_bind, wp_modify, wp_bind, wp_upd_inode, wp_modify; [by left|].
  right. match goal with |- root ?u <> 0 /\ _ => set (s2 := u) end.
  assert (H2 : root s2 = r) by done.
  assert (Ho2 : objs s2 = {[r := OInode (root_inode (next_ino s) r)]}).
  { unfold s2. cbn [objs set_next_ino set_objs set_root]. unfold inode_at. cbn [objs set_root]. rewrite Hobjs, Ho.
    rewrite lookup_insert_eq, insert_insert_eq, insert_empty. done. }
  rewrite H2. split; [done|]. split; [done|].
  assert (Hm2 : mem_ok s2 ∅).
  { unfold mem_ok in *. rewrite Ho2, dom_singleton_L. change (fmem s2) with (fmem s1). rewrite Hobjs, Ho, dom_insert_L, dom_empty_L in Hm1.
    by rewrite (right_id_L ∅ (∪)) in Hm1. }
  clearbody s2. split.
  - intros p np [Hp _]. rewrite Ho2 in Hp. apply lookup_singleton_Some in Hp as [_ [= <-]].
    exists []. by split.
  - assert (Hreg : forall p np, ~ reg s2 p np).
    { intros p np [Hp Hty]. rewrite Ho2 in Hp. by apply lookup_singleton_Some in Hp as [_ [= <-]]. }
    split; [exact Hm2|..]; intros; exfalso; by eapply Hreg.
Qed.
End init.

(** ** Examples *)

Definition demo_root : fs (kmem pmm) := (ramfs_init (Fs demo_heap ∅ 0 1)).2.

Lemma demo_root_eq : root demo_root = demo_p.
Proof. vm_compute. reflexivity. Qed.

Lemma demo_root_ok : tree_ok demo_root /\ data_ok demo_root ∅ /\ is_dir demo_root demo_p (root_inode 1 demo_p).
Proof.
  assert (Hm : mem_ok (Fs demo_heap ∅ 0 1) ∅).
  { unfold mem_ok. cbn [objs fmem]. rewrite dom_empty_L. exact demo_heap_km. }
  pose proof (ramfs_init_spec (Fs demo_heap ∅ 0 1) Hm eq_refl) as H. unfold wp in H. fold demo_root in H.
  rewrite demo_root_eq in H. destruct H as [H|(_ & Ho & Ht & Hd)]; [discriminate H|].
  split; [exact Ht|]. split; [exact Hd|]. split; [|reflexivity]. rewrite Ho. apply lookup_singleton_eq.
Qed.

Definition name_a : cstr := [97].
Definition name_b : cstr := [98].
Definition name_l : cstr := [108].

Lemma ramfs_create_correct_witness :
  name_ok name_a /\ ramfs_child (do_mk (MkDir 493) demo_p name_a demo_root).2 demo_p name_a =
    (do_mk (MkDir 493) demo_p name_a demo_root).1.
Proof.
  assert (Hn : name_ok name_a).
  { split; [split; [repeat constructor; lia|cbn; unfold NAME_CAP; lia]|split; discriminate]. }
  split; [exact Hn|]. destruct demo_root_ok as (Ht & Hd & Hdir).
  destruct (ramfs_create_correct demo_root ∅ demo_p (root_inode 1 demo_p) (MkDir 493) name_a
    (do_mk (MkDir 493) demo_p name_a demo_root).1 (do_mk (MkDir 493) demo_p name_a demo_root).2
    Ht Hd Hdir Hn I (surjective_pairing _)) as (_ & _ & _ & [[H _]|(_ & _ & _ & H & _)]).
  - assert (Hr : (do_mk (MkDir 493) demo_p name_a demo_root).1 <> 0) by (vm_compute; discriminate). destruct (Hr H).
  - exact H.
Defined.

(** the tree /a, /a/b, /l -> a *)
Definition demo_tree : fs (kmem pmm) :=
  let '(a, s1) := ramfs_mkdir demo_p name_a 493 demo_root in
  let '(_, s2) := ramfs_mkreg a name_b 420 s1 in
  (ramfs_mklnk demo_p name_l name_a s2).2.
(** the path /l/b and the inode of the file b *)
Definition demo_path : cstr := [47; 108; 47; 98].
Definition demo_file : Z := ramfs_lookup demo_tree 0 [97; 47; 98] true.

(** its objects: the root, /a, /a/b, /l, their entries and the target of /l *)
Definition demo_nodes : list (Z * obj) :=
  [ (1073742392, ODirent (Dirent name_l 1073742280 1073742016));
    (1073742104, OInode (set_head3 3 33188 1 (set_type RF_REG inode_zero)));
    (1073741928, OInode (set_parent demo_p (set_children 1073742192 (set_head3 2 16877 1 (set_type RF_DIR inode_zero)))));
    (1073742280, OInode (set_target 1073742368 (set_size 1 (set_head3 4 41471 1 (set_type RF_LNK inode_zero)))));
    (1073742192, ODirent (Dirent name_b 1073742104 0));
    (demo_p, OInode (set_parent demo_p (set_children 1073742392 (set_head3 1 16877 1 (set_type RF_DIR inode_zero)))));
    (1073742368, OStr name_a);
    (1073742016, ODirent (Dirent name_a 1073741928 0)) ].

Lemma demo_tree_objs p o : objs demo_tree !! p = Some o <-> (p, o) ∈ demo_nodes.
Proof. rewrite <- elem_of_map_to_list. replace (map_to_list (objs demo_tree)) with demo_nodes; [done|]. vm_compute. reflexivity. Qed.

Ltac demo_obj i := apply demo_tree_objs, (list_elem_of_lookup_2 _ i); reflexivity.

Lemma demo_nodes_ok : tree_ok demo_tree /\ targets_ok demo_tree.
Proof.
  assert (Hn : cstr_ok name_a /\ cstr_ok name_b /\ cstr_ok name_l) by (repeat split; repeat constructor; lia).
  destruct Hn as (Ha & Hb & Hl). split.
  - intros p nd [Hp Hty]. apply demo_tree_objs in Hp. unfold demo_nodes in Hp. rewrite !elem_of_cons in Hp.
    destruct Hp as [Hp|[Hp|[Hp|[Hp|[Hp|[Hp|[Hp|[Hp|Hp]]]]]]]]; try discriminate Hp; try (apply elem_of_nil in Hp; destruct Hp); injection Hp as -> ->; try discriminate Hty.
    + exists [Entry 1073742192 name_b 1073742104].
      split; [|split; apply Forall_cons; (split; [|apply Forall_nil_2]); [exact Hb|eexists; demo_obj 1%nat]].
      split; [done|]. split; [done|]. exists 0. split; [demo_obj 4%nat|done].
    + exists [Entry 1073742392 name_l 1073742280; Entry 1073742016 name_a 1073741928]. split; [|split].
      * split; [done|]. split; [done|]. exists 1073742016. split; [demo_obj 0%nat|].
        split; [done|]. split; [done|]. exists 0. split; [demo_obj 7%nat|done].
      * apply Forall_cons. split; [exact Hl|]. apply Forall_cons. split; [exact Ha|apply Forall_nil_2].
      * apply Forall_cons. split; [eexists; demo_obj 3%nat|]. apply Forall_cons. split; [eexists; demo_obj 2%nat|apply Forall_nil_2].
  - intros p nd Hp Hty. apply demo_tree_objs in Hp. unfold demo_nodes in Hp. rewrite !elem_of_cons in Hp.
    destruct Hp as [Hp|[Hp|[Hp|[Hp|[Hp|[Hp|[Hp|[Hp|Hp]]]]]]]]; try discriminate Hp; try (apply elem_of_nil in Hp; destruct Hp); injection Hp as -> ->; try discriminate Hty.
    unfold str_at. replace (objs demo_tree !! _) with (Some (OStr name_a)) by (symmetry; demo_obj 6%nat). exact Ha.
Qed.

Lemma ramfs_lookup_correct_witness :
  demo_file <> 0 /\
  exists k, Z.of_nat k <= SYMLINK_MAX /\
    resolves demo_tree (start_at demo_tree 0 demo_path) (components demo_path) true k demo_file.
Proof.
  assert (Hf : demo_file <> 0) by (vm_compute; discriminate). split; [exact Hf|].
  destruct demo_nodes_ok as [Ht Htg].
  assert (Hp : cstr_ok demo_path) by (repeat constructor; lia).
  apply (ramfs_lookup_correct demo_tree 0 demo_path true demo_file Ht Htg Hp Hf). vm_compute. reflexivity.
Defined.
