(* ===== verification/Proc.v ===== *)
(** The process table and the scheduler's choices, [kernel/kernel/proc.c] and
    [include/proc.h]: slots, allocation, round-robin selection and wakeups.

    A pointer to a PCB is the index of its slot.  A wait channel is a pointer to
    an inode or to a PCB. *)

From stdpp Require Import gmap list fin_maps.
From Stdlib Require Import ZArith Lia.
From S2P Require Import Prelude.

(** * Data *)

Record trapframe := Tf { sp_usr : Z; lr_usr : Z; tr : list Z; pc : Z; cpsr : Z }.

Definition set_tr v t := Tf (sp_usr t) (lr_usr t) v (pc t) (cpsr t).
Definition set_pc v t := Tf (sp_usr t) (lr_usr t) (tr t) v (cpsr t).
Definition set_sp v t := Tf v (lr_usr t) (tr t) (pc t) (cpsr t).
(** [tf.r[i]] and [tf.r[i] = v] *)
Definition reg_of (t : trapframe) (i : nat) : Z := default 0 (tr t !! i).
Definition set_reg (i : nat) (v : Z) (t : trapframe) : trapframe := set_tr (<[i := v]> (tr t)) t.

Inductive pstate := P_UNUSED | P_EMBRYO | P_RUNNABLE | P_RUNNING | P_BLOCKED | P_ZOMBIE.

#[export] Instance pstate_eq_dec : EqDecision pstate.
Proof. solve_decision. Defined.

Inductive chan := ChInode (p : Z) | ChProc (i : nat).

#[export] Instance chan_eq_dec : EqDecision chan.
Proof. solve_decision. Defined.

Record ksig := Ksig { handler : Z; sa_flags : Z; restorer : Z; mask_lo : Z; mask_hi : Z }.
Definition ksig0 : ksig := Ksig 0 0 0 0 0.
Definition NSIG : nat := 65.

Definition NOFILE : Z := 16.

Record proc := Proc {
  pid : Z; state : pstate; p_l1 : Z; parent : option nat; exit_code : Z; killed_sig : Z;
  tf : trapframe; brk_start : Z; brk : Z; brk_ceiling : Z; mmap_top : Z;
  fds : list Z; cwd : Z; wait_chan : option chan;
  sig_blocked : Z; sigact : list ksig; vfp : list Z; tls : Z;
}.

Definition NPROC : nat := 8.
Definition MMAP_TOP : Z := 0x38000000.

Definition set_state v p := Proc (pid p) v (p_l1 p) (parent p) (exit_code p) (killed_sig p) (tf p) (brk_start p) (brk p)
  (brk_ceiling p) (mmap_top p) (fds p) (cwd p) (wait_chan p) (sig_blocked p) (sigact p) (vfp p) (tls p).
Definition set_l1 v p := Proc (pid p) (state p) v (parent p) (exit_code p) (killed_sig p) (tf p) (brk_start p) (brk p)
  (brk_ceiling p) (mmap_top p) (fds p) (cwd p) (wait_chan p) (sig_blocked p) (sigact p) (vfp p) (tls p).
Definition set_parent_of v p := Proc (pid p) (state p) (p_l1 p) v (exit_code p) (killed_sig p) (tf p) (brk_start p) (brk p)
  (brk_ceiling p) (mmap_top p) (fds p) (cwd p) (wait_chan p) (sig_blocked p) (sigact p) (vfp p) (tls p).
Definition set_exit c s p := Proc (pid p) (state p) (p_l1 p) (parent p) c s (tf p) (brk_start p) (brk p)
  (brk_ceiling p) (mmap_top p) (fds p) (cwd p) (wait_chan p) (sig_blocked p) (sigact p) (vfp p) (tls p).
Definition set_tf v p := Proc (pid p) (state p) (p_l1 p) (parent p) (exit_code p) (killed_sig p) v (brk_start p) (brk p)
  (brk_ceiling p) (mmap_top p) (fds p) (cwd p) (wait_chan p) (sig_blocked p) (sigact p) (vfp p) (tls p).
(** [brk_start], [brk], [brk_ceiling], [mmap_top] *)
Definition set_layout bs b bc mt p := Proc (pid p) (state p) (p_l1 p) (parent p) (exit_code p) (killed_sig p) (tf p) bs b
  bc mt (fds p) (cwd p) (wait_chan p) (sig_blocked p) (sigact p) (vfp p) (tls p).
Definition set_fds v p := Proc (pid p) (state p) (p_l1 p) (parent p) (exit_code p) (killed_sig p) (tf p) (brk_start p) (brk p)
  (brk_ceiling p) (mmap_top p) v (cwd p) (wait_chan p) (sig_blocked p) (sigact p) (vfp p) (tls p).
Definition set_cwd v p := Proc (pid p) (state p) (p_l1 p) (parent p) (exit_code p) (killed_sig p) (tf p) (brk_start p) (brk p)
  (brk_ceiling p) (mmap_top p) (fds p) v (wait_chan p) (sig_blocked p) (sigact p) (vfp p) (tls p).
Definition set_chan v p := Proc (pid p) (state p) (p_l1 p) (parent p) (exit_code p) (killed_sig p) (tf p) (brk_start p) (brk p)
  (brk_ceiling p) (mmap_top p) (fds p) (cwd p) v (sig_blocked p) (sigact p) (vfp p) (tls p).
Definition set_sigs b a p := Proc (pid p) (state p) (p_l1 p) (parent p) (exit_code p) (killed_sig p) (tf p) (brk_start p) (brk p)
  (brk_ceiling p) (mmap_top p) (fds p) (cwd p) (wait_chan p) b a (vfp p) (tls p).
(** VFP registers and thread pointer *)
Definition set_fpu v t p := Proc (pid p) (state p) (p_l1 p) (parent p) (exit_code p) (killed_sig p) (tf p) (brk_start p) (brk p)
  (brk_ceiling p) (mmap_top p) (fds p) (cwd p) (wait_chan p) (sig_blocked p) (sigact p) v t.

(** a slot of the zeroed table *)
Definition tf0 : trapframe := Tf 0 0 (replicate 13 0) 0 0.
Definition proc0 : proc := Proc 0 P_UNUSED 0 None 0 0 tf0 0 0 0 0 (replicate (Z.to_nat NOFILE) 0) 0 None 0
  (replicate NSIG ksig0) (replicate 33 0) 0.

(** * Model *)

(** The file's statics. *)
Record sched := Sched { proctab : list proc; cur : option nat; next_pid : Z }.

Definition set_proctab v s := Sched v (cur s) (next_pid s).
Definition set_cur v s := Sched (proctab s) v (next_pid s).
Definition set_next_pid v s := Sched (proctab s) (cur s) v.

Definition proc_at (s : sched) (i : nat) : proc := default proc0 (proctab s !! i).
Definition upd_proc (i : nat) (f : proc -> proc) : M sched unit :=
  modify (fun s => set_proctab (alter f i (proctab s)) s).

Definition has_state (st : pstate) (p : proc) : bool := bool_decide (state p = st).

Definition proc_init : M sched unit :=
  modify (fun s => set_cur None (set_proctab (set_state P_UNUSED <$> proctab s) s)).

(** What [alloc_proc] writes into the slot it claimed. *)
Definition fresh_proc (newpid : Z) (p : proc) : proc :=
  set_sigs 0 (replicate NSIG ksig0) (set_fpu (replicate 33 0) 0
    (set_layout (brk_start p) 0 MMAP_TOP (mmap_top p)
      (set_chan None (set_exit 0 0 (set_parent_of None
        (Proc newpid (state p) (p_l1 p) (parent p) (exit_code p) (killed_sig p) (tf p) (brk_start p) (brk p)
          (brk_ceiling p) (mmap_top p) (fds p) (cwd p) (wait_chan p) (sig_blocked p) (sigact p) (vfp p) (tls p))))))).

Definition alloc_proc : M sched (option nat) :=
  r ← gets (fun s => find_from (fun i => has_state P_UNUSED (proc_at s (Z.to_nat i))) NPROC 0);
  match r with
  | None => mret None
  | Some i =>
      let i := Z.to_nat i in
      upd_proc i (set_state P_EMBRYO) ≫= fun _ =>
      n ← gets next_pid;
      modify (set_next_pid (s32 (n + 1))) ≫= fun _ =>
      upd_proc i (fresh_proc n) ≫= fun _ =>
      mret (Some i)
  end.

(** [(start + k) % NPROC] *)
Definition slot_after (start : nat) (k : Z) : nat := Z.to_nat ((Z.of_nat start + k) mod Z.of_nat NPROC).

Definition pick_next (s : sched) : option nat :=
  match cur s with
  | None => None
  | Some c =>
      match find_from (fun k => has_state P_RUNNABLE (proc_at s (slot_after c k))) NPROC 1 with
      | Some k => Some (slot_after c k)
      | None =>
          if has_state P_RUNNABLE (proc_at s c) || has_state P_RUNNING (proc_at s c) then Some c else None
      end
  end.

Definition wake (ch : chan) (p : proc) : proc :=
  if has_state P_BLOCKED p && bool_decide (wait_chan p = Some ch) then set_state P_RUNNABLE (set_chan None p) else p.

Definition proc_wakeup (ch : chan) : M sched unit :=
  modify (fun s => set_proctab (wake ch <$> proctab s) s).

(** * Slots *)

Definition table_ok (s : sched) : Prop := length (proctab s) = NPROC.

Lemma lookup_proc s i : table_ok s -> (i < NPROC)%nat -> proctab s !! i = Some (proc_at s i).
Proof. intros Ht Hi. unfold proc_at. destruct (lookup_lt_is_Some_2 (proctab s) i) as [p ->]; [rewrite Ht; lia|done]. Qed.

Lemma proc_at_upd s i f j :
  table_ok s -> (i < NPROC)%nat ->
  proc_at (set_proctab (alter f i (proctab s)) s) j = if decide (j = i) then f (proc_at s i) else proc_at s j.
Proof.
  intros Ht Hi. unfold proc_at at 1. cbn [proctab set_proctab]. destruct (decide (j = i)) as [->|Hne].
  - rewrite list_lookup_alter_eq, lookup_proc by done. done.
  - by rewrite list_lookup_alter_ne by done.
Qed.

Lemma table_ok_upd s i f : table_ok s -> table_ok (set_proctab (alter f i (proctab s)) s).
Proof. unfold table_ok. cbn. by rewrite length_alter. Qed.

Lemma proc_at_wake s ch i : table_ok s -> (i < NPROC)%nat ->
  proc_at (set_proctab (wake ch <$> proctab s) s) i = wake ch (proc_at s i).
Proof. intros Ht Hi. unfold proc_at at 1. cbn [proctab set_proctab]. rewrite list_lookup_fmap, lookup_proc by done. done. Qed.

Lemma slot_after_lt c k : (slot_after c k < NPROC)%nat.
Proof. unfold slot_after, NPROC. pose proof (Z.mod_pos_bound (Z.of_nat c + k) 8). lia. Qed.

(** Every slot is reached within one round. *)
Lemma slot_after_onto c i : (c < NPROC)%nat -> (i < NPROC)%nat -> exists k, 1 <= k <= Z.of_nat NPROC /\ slot_after c k = i.
Proof.
  unfold slot_after, NPROC. intros Hc Hi. exists ((Z.of_nat i - Z.of_nat c - 1) mod 8 + 1).
  pose proof (Z.mod_pos_bound (Z.of_nat i - Z.of_nat c - 1) 8). split; [lia|].
  replace ((Z.of_nat c + _) mod Z.of_nat 8) with (Z.of_nat i); [lia|].
  symmetry. Z.div_mod_to_equations. lia.
Qed.

(** * Round-robin *)

Lemma has_state_true st p : has_state st p = true <-> state p = st.
Proof. unfold has_state. by rewrite bool_decide_eq_true. Qed.

(** The pick is the first runnable slot after the current one; the current
    process itself only when no slot is runnable and it is running. *)
Lemma pick_next_spec s c : cur s = Some c ->
  match pick_next s with
  | Some i =>
      (exists k, 1 <= k <= Z.of_nat NPROC /\ i = slot_after c k /\ state (proc_at s i) = P_RUNNABLE /\
         forall j, 1 <= j < k -> state (proc_at s (slot_after c j)) <> P_RUNNABLE) \/
      (i = c /\ (forall k, 1 <= k <= Z.of_nat NPROC -> state (proc_at s (slot_after c k)) <> P_RUNNABLE) /\
       (state (proc_at s c) = P_RUNNABLE \/ state (proc_at s c) = P_RUNNING))
  | None =>
      (forall k, 1 <= k <= Z.of_nat NPROC -> state (proc_at s (slot_after c k)) <> P_RUNNABLE) /\
      state (proc_at s c) <> P_RUNNABLE /\ state (proc_at s c) <> P_RUNNING
  end.
Proof.
  intros Hc. unfold pick_next. rewrite Hc. destruct (find_from _ _ _) as [k|] eqn:E.
  - apply find_from_Some in E as (Hk & Hr & Hn). left. exists k. split; [lia|]. split; [done|].
    split; [by apply has_state_true|]. intros j Hj. specialize (Hn j Hj). intros H. apply has_state_true in H. congruence.
  - pose proof (proj1 (find_from_None _ _ _) E) as Hn.
    assert (Hnone : forall k, 1 <= k <= Z.of_nat NPROC -> state (proc_at s (slot_after c k)) <> P_RUNNABLE).
    { intros k Hk H. apply has_state_true in H. rewrite Hn in H by lia. done. }
    destruct (has_state P_RUNNABLE (proc_at s c) || has_state P_RUNNING (proc_at s c)) eqn:Ec.
    + right. split; [done|]. split; [done|]. apply orb_true_iff in Ec. by rewrite !has_state_true in Ec.
    + split; [done|]. apply orb_false_iff in Ec as [E1 E2].
      split; intros H; apply has_state_true in H; congruence.
Qed.

(** How far slot [i] is from slot [c], going round. *)
Definition dist (c i : nat) : Z := (Z.of_nat i - Z.of_nat c - 1) mod Z.of_nat NPROC.

Lemma dist_range c i : 0 <= dist c i < Z.of_nat NPROC.
Proof. apply Z.mod_pos_bound. done. Qed.

Lemma dist_slot c k : 1 <= k <= Z.of_nat NPROC -> dist c (slot_after c k) = k - 1.
Proof.
  unfold dist, slot_after, NPROC. intros Hk. rewrite Z2Nat.id by (apply Z.mod_pos_bound; lia).
  Z.div_mod_to_equations. lia.
Qed.

Lemma dist_step c j i : (i < NPROC)%nat -> dist c j < dist c i -> dist j i < dist c i.
Proof. unfold dist, NPROC. intros Hi H. Z.div_mod_to_equations. lia. Qed.

(** A runnable process that is passed over gets closer. *)
Lemma pick_closer s c i j :
  table_ok s -> cur s = Some c -> (c < NPROC)%nat -> (i < NPROC)%nat -> state (proc_at s i) = P_RUNNABLE ->
  pick_next s = Some j -> j <> i -> (j < NPROC)%nat /\ dist j i < dist c i.
Proof.
  intros Ht Hc Hcn Hi Hr Hp Hne. pose proof (pick_next_spec s c Hc) as H. rewrite Hp in H.
  destruct (slot_after_onto c i Hcn Hi) as (ki & Hki & Hs).
  destruct H as [(k & Hk & -> & _ & Hn)|(_ & Hn & _)].
  - split; [apply slot_after_lt|]. apply dist_step; [done|]. rewrite dist_slot by done. rewrite <- Hs, dist_slot by done.
    destruct (Z.lt_trichotomy k ki) as [?|[->|Hlt]]; [lia|congruence|]. exfalso. apply (Hn ki); [lia|]. by rewrite Hs.
  - exfalso. apply (Hn ki Hki). by rewrite Hs.
Qed.

(** [passed_over i l]: [l] are the states at successive scheduling decisions,
    each made by the process the previous one picked, and in all of them [i] is
    runnable and another process is picked. *)
Fixpoint passed_over (i : nat) (l : list sched) : Prop :=
  match l with
  | [] => True
  | s :: l' =>
      table_ok s /\ (exists c, cur s = Some c /\ (c < NPROC)%nat) /\ state (proc_at s i) = P_RUNNABLE /\
      (exists j, pick_next s = Some j /\ j <> i /\ match l' with s' :: _ => cur s' = Some j | [] => True end) /\
      passed_over i l'
  end.

Lemma passed_over_dist i l s c :
  passed_over i (s :: l) -> (i < NPROC)%nat -> cur s = Some c -> Z.of_nat (length l) < dist c i.
Proof.
  revert s c. induction l as [|s' l IH]; intros s c (Ht & (c' & Hc' & Hcn) & Hr & (j & Hp & Hji & Hnext) & Hl) Hi Hc.
  - assert (c' = c) by congruence. subst c'. destruct (pick_closer s c i j) as [_ H]; try done.
    pose proof (dist_range j i). cbn. lia.
  - assert (c' = c) by congruence. subst c'. destruct (pick_closer s c i j) as [_ H]; try done.
    specialize (IH s' j Hl Hi Hnext). cbn [length]. lia.
Qed.

(** C31. No starvation: a runnable process is passed over by fewer than [NPROC]
    successive scheduling decisions, whatever else happens to the other
    processes between them. *)
Theorem round_robin_fair i l : (i < NPROC)%nat -> passed_over i l -> (length l < NPROC)%nat.
Proof.
  intros Hi Hl. destruct l as [|s l]; [cbn; unfold NPROC; lia|].
  pose proof Hl as (_ & (c & Hc & _) & _). pose proof (passed_over_dist i l s c Hl Hi Hc).
  pose proof (dist_range c i). cbn [length]. lia.
Qed.

(** slot 0 running, slots 1 and 2 runnable *)
Definition demo_sched : sched :=
  Sched (set_state P_RUNNING proc0 :: set_state P_RUNNABLE proc0 :: set_state P_RUNNABLE proc0 :: replicate 5 proc0) (Some 0%nat) 4.

Lemma round_robin_fair_witness : passed_over 2 [demo_sched] /\ (length [demo_sched] < NPROC)%nat.
Proof.
  assert (H : passed_over 2 [demo_sched]).
  { split; [reflexivity|]. split; [exists 0%nat; split; [reflexivity|unfold NPROC; lia]|]. split; [reflexivity|].
    split; [|exact I]. exists 1%nat. split; [reflexivity|]. split; [discriminate|exact I]. }
  split; [exact H|]. apply (round_robin_fair 2 [demo_sched]); [unfold NPROC; lia|exact H].
Defined.
