(* ===== verification/File.v ===== *)
(** Open files and descriptor tables, [kernel/fs/file.c] and [include/file.h].

    A [struct file] is a heap object of the file system; a descriptor table is
    the [fds] field of a slot of the process table, named by the slot. *)

From stdpp Require Import gmap list fin_maps.
From Stdlib Require Import ZArith Lia.
From S2P Require Import Prelude Memory Frames KernMem Ramfs RamfsData RamfsTree Proc.

(** * Model *)

Section model.
Context {S : Type} {KM : KMem S}.

(** The file system and the process table. *)
Record fp := Fp { fsys : fs S; psch : sched }.

Definition set_fsys v k := Fp v (psch k).
Definition set_psch v k := Fp (fsys k) v.
Definition in_fs {R} : M (fs S) R -> M fp R := zoom fsys set_fsys.
Definition in_sched {R} : M sched R -> M fp R := zoom psch set_psch.

Definition FILE_SIZE : Z := 20.
Definition file0 : file := File 0 0 0 0 0.
Definition file_at (s : fs S) (p : Z) : file := match objs s !! p with Some (OFile f) => f | _ => file0 end.
Definition get_file (p : Z) : M fp file := gets (fun k => file_at (fsys k) p).
Definition upd_file (p : Z) (g : file -> file) : M fp unit :=
  in_fs (modify (fun s => set_objs (<[p := OFile (g (file_at s p))]> (objs s)) s)).
Definition set_refcnt v f := File (f_inode f) (f_off f) (f_flags f) v (f_dir_pos f).

(** [t->fd[j]] and [t->fd[j] = v] for the table of slot [i] *)
Definition fd_slot (s : sched) (i : nat) (j : Z) : Z := default 0 (fds (proc_at s i) !! Z.to_nat j).
Definition set_fd (i : nat) (j v : Z) : M fp unit :=
  in_sched (upd_proc i (fun p => set_fds (<[Z.to_nat j := v]> (fds p)) p)).

(** bits 0 and 1 of the flags: 0 reads, 1 writes, otherwise both *)
Definition reads (fl : file) : bool := negb (f_flags fl .& 3 =? 1).
Definition writes (fl : file) : bool := negb (f_flags fl .& 3 =? 0).

Definition pipe_open_account (f delta : Z) : M fp unit :=
  fl ← get_file f;
  n ← in_fs (get_inode (f_inode fl));
  if (f_inode fl =? 0) || negb (bool_decide (i_type n = RF_PIPE)) then mret tt
  else
    in_fs (upd_inode (f_inode fl) (fun n =>
      set_open (if writes fl then i_wr_open n + delta else i_wr_open n)
               (if reads fl then i_rd_open n + delta else i_rd_open n) n)) ≫= fun _ =>
    n ← in_fs (get_inode (f_inode fl));
    if (delta <? 0) && ((i_wr_open n =? 0) || (i_rd_open n =? 0))
    then in_sched (proc_wakeup (ChInode (f_inode fl))) else mret tt.

Definition file_open_inode (ino flags : Z) : M fp Z :=
  f ← in_fs (in_mem (km_alloc FILE_SIZE));
  if f =? 0 then mret 0
  else
    in_fs (put_obj f (OFile (File ino 0 flags 1 0))) ≫= fun _ =>
    pipe_open_account f 1 ≫= fun _ =>
    mret f.

Definition file_dup (f : Z) : M fp Z :=
  (if f =? 0 then mret tt else upd_file f (fun fl => set_refcnt (f_refcnt fl + 1) fl)) ≫= fun _ => mret f.

Definition file_close (f : Z) : M fp unit :=
  if f =? 0 then mret tt
  else
    upd_file f (fun fl => set_refcnt (f_refcnt fl - 1) fl) ≫= fun _ =>
    fl ← get_file f;
    if f_refcnt fl <=? 0 then
      pipe_open_account f (-1) ≫= fun _ =>
      in_fs (free_obj f)
    else mret tt.

Definition fdtable_init (i : nat) : M fp unit :=
  forM (Z.to_nat NOFILE) 0 1 (fun j => set_fd i j 0).

Definition fd_alloc_from (i : nat) (f min : Z) : M fp Z :=
  let min := if min <? 0 then 0 else min in
  r ← gets (fun k => find_from (fun j => fd_slot (psch k) i j =? 0) (Z.to_nat (NOFILE - min)) min);
  match r with
  | Some j => set_fd i j f ≫= fun _ => mret j
  | None => mret (-1)
  end.

Definition fd_alloc (i : nat) (f : Z) : M fp Z := fd_alloc_from i f 0.

Definition fd_get (i : nat) (fd : Z) : M fp Z :=
  if (fd <? 0) || (NOFILE <=? fd) then mret 0 else gets (fun k => fd_slot (psch k) i fd).

Definition fd_install_at (i : nat) (fd f : Z) : M fp Z :=
  if (fd <? 0) || (NOFILE <=? fd) then mret (-1)
  else
    old ← gets (fun k => fd_slot (psch k) i fd);
    (if negb (old =? 0) then file_close old else mret tt) ≫= fun _ =>
    set_fd i fd f ≫= fun _ =>
    mret fd.

Definition fd_close (i : nat) (fd : Z) : M fp Z :=
  old ← gets (fun k => fd_slot (psch k) i fd);
  if (fd <? 0) || (NOFILE <=? fd) || (old =? 0) then mret (-9)
  else
    file_close old ≫= fun _ =>
    set_fd i fd 0 ≫= fun _ =>
    mret 0.

Definition fdtable_copy (dst src : nat) : M fp unit :=
  forM (Z.to_nat NOFILE) 0 1 (fun j =>
    f ← gets (fun k => fd_slot (psch k) src j);
    set_fd dst j f ≫= fun _ =>
    if negb (f =? 0) then upd_file f (fun fl => set_refcnt (f_refcnt fl + 1) fl) else mret tt).

Definition fdtable_closeall (i : nat) : M fp unit :=
  forM (Z.to_nat NOFILE) 0 1 (fun j =>
    f ← gets (fun k => fd_slot (psch k) i j);
    if negb (f =? 0) then file_close f ≫= fun _ => set_fd i j 0 else mret tt).
End model.

Arguments fp : clear implicits.

(** * Counting references *)

(** the slots of all descriptor tables *)
Definition all_fds (s : sched) : list Z := proctab s ≫= fds.

Lemma insert_perm {X} (l : list X) j x y : l !! j = Some x -> x :: <[j := y]> l ≡ₚ y :: l.
Proof.
  intros H. apply list_elem_of_split_length in H as (l1 & l2 & -> & ->).
  rewrite insert_app_r_alt, Nat.sub_diag by done. cbn. rewrite !Permutation_middle. cbn.
  rewrite <- !Permutation_middle. constructor.
Qed.

Definition fds_len (s : sched) : Prop := Forall (fun p => length (fds p) = Z.to_nat NOFILE) (proctab s).

(** Storing [v] in a slot exchanges the old value for it. *)
Lemma all_fds_set s i j v :
  table_ok s -> fds_len s -> (i < NPROC)%nat -> 0 <= j < NOFILE ->
  fd_slot s i j :: all_fds (set_proctab (alter (fun p => set_fds (<[Z.to_nat j := v]> (fds p)) p) i (proctab s)) s) ≡ₚ v :: all_fds s.
Proof.
  intros Ht Hl Hi Hj. pose proof (lookup_proc s i Ht Hi) as Hp. unfold fd_slot, all_fds. set (p := proc_at s i) in *.
  assert (Hlen : length (fds p) = Z.to_nat NOFILE) by (by eapply Forall_lookup_1 in Hl).
  destruct (lookup_lt_is_Some_2 (fds p) (Z.to_nat j)) as [x Hx]; [lia|]. rewrite Hx. cbn [default proctab set_proctab].
  apply list_elem_of_split_length in Hp as (l1 & l2 & Hpt & Hil). rewrite Hpt, Hil.
  rewrite alter_app_r_alt, Nat.sub_diag by lia. cbn [alter list_alter].
  rewrite !bind_app, !bind_cons. cbn [fds set_fds].
  etrans; [apply Permutation_middle|]. etrans; [|symmetry; apply Permutation_middle]. apply Permutation_app_head.
  rewrite !app_comm_cons. apply Permutation_app_tail. by apply insert_perm.
Qed.

Lemma set_fd_slot s i j v i' j' :
  table_ok s -> fds_len s -> (i < NPROC)%nat -> 0 <= j < NOFILE -> 0 <= j' ->
  fd_slot (set_proctab (alter (fun p => set_fds (<[Z.to_nat j := v]> (fds p)) p) i (proctab s)) s) i' j' =
  if decide (i' = i /\ j' = j) then v else fd_slot s i' j'.
Proof.
  intros Ht Hl Hi Hj Hj'. unfold fd_slot. rewrite proc_at_upd by done.
  pose proof (lookup_proc s i Ht Hi) as Hp.
  assert (Hlen : length (fds (proc_at s i)) = Z.to_nat NOFILE) by (eapply (Forall_lookup_1 _ _ _ _ Hl Hp)).
  destruct (decide (i' = i)) as [->|Hne]; [|rewrite decide_False by tauto; done]. cbn [fds set_fds].
  destruct (decide (j' = j)) as [->|Hne].
  - rewrite decide_True by done. rewrite list_lookup_insert_eq by lia. done.
  - rewrite decide_False by tauto. rewrite list_lookup_insert_ne by lia. done.
Qed.

Lemma fds_len_set s i j v : fds_len s ->
  fds_len (set_proctab (alter (fun p => set_fds (<[Z.to_nat j := v]> (fds p)) p) i (proctab s)) s).
Proof.
  intros Hl. unfold fds_len in *. cbn [proctab set_proctab]. apply Forall_alter; [done|].
  intros p _ Hp. cbn [fds set_fds]. by rewrite length_insert.
Qed.

(** Wakeups do not touch descriptor tables. *)
Lemma wake_fds ch p : fds (wake ch p) = fds p.
Proof. unfold wake. by destruct (_ && _). Qed.

Lemma all_fds_wake ch s : all_fds (set_proctab (wake ch <$> proctab s) s) = all_fds s.
Proof.
  unfold all_fds. cbn [proctab set_proctab]. induction (proctab s) as [|p l IH]; [done|]. cbn. rewrite wake_fds. by f_equal.
Qed.

Lemma all_fds_alter s i g : (forall p, fds (g p) = fds p) -> all_fds (set_proctab (alter g i (proctab s)) s) = all_fds s.
Proof.
  intros Hg. unfold all_fds. cbn [proctab set_proctab]. revert i. induction (proctab s) as [|p l IH]; intros [|i]; [done..| |].
  - cbn. by rewrite Hg.
  - cbn. by rewrite IH.
Qed.

Lemma fds_len_wake ch s : fds_len s -> fds_len (set_proctab (wake ch <$> proctab s) s).
Proof.
  unfold fds_len. cbn [proctab set_proctab]. rewrite Forall_fmap. intros Hl. eapply Forall_impl; [exact Hl|]. intros p. cbn. by rewrite wake_fds.
Qed.

(** ** Opens of a pipe *)

(** [o] is an open file on inode [q], for writing ([wr]) or for reading *)
Definition opens (wr : bool) (q : Z) (o : obj) : bool :=
  match o with OFile f => (f_inode f =? q) && (if wr then writes f else reads f) | _ => false end.

Definition b2z (b : bool) : Z := if b then 1 else 0.

Definition nopen (wr : bool) (q : Z) (m : gmap Z obj) : Z :=
  Z.of_nat (size (filter (fun x : Z * obj => opens wr q x.2 = true) m)).

Lemma nopen_insert_fresh wr q m p o : m !! p = None -> nopen wr q (<[p := o]> m) = nopen wr q m + b2z (opens wr q o).
Proof.
  intros Hp. unfold nopen. destruct (opens wr q o) eqn:E.
  - rewrite map_filter_insert_True by done. rewrite map_size_insert_None; [cbn; lia|].
    apply map_lookup_filter_None. by left.
  - rewrite map_filter_insert_not'; [cbn; lia|cbn; congruence|]. intros y Hy. congruence.
Qed.

Lemma nopen_insert wr q m p o0 o :
  m !! p = Some o0 -> nopen wr q (<[p := o]> m) + b2z (opens wr q o0) = nopen wr q m + b2z (opens wr q o).
Proof.
  intros Hp. rewrite <- (insert_delete_eq m p o). rewrite nopen_insert_fresh by apply lookup_delete_eq.
  rewrite <- (insert_delete_id m p o0 Hp) at 2. rewrite nopen_insert_fresh by apply lookup_delete_eq. lia.
Qed.

Lemma nopen_delete wr q m p o0 : m !! p = Some o0 -> nopen wr q (delete p m) + b2z (opens wr q o0) = nopen wr q m.
Proof.
  intros Hp. rewrite <- (insert_delete_id m p o0 Hp) at 2. rewrite nopen_insert_fresh by apply lookup_delete_eq. done.
Qed.

Lemma nopen_zero wr q m : (forall p f, m !! p = Some (OFile f) -> f_inode f <> q) -> nopen wr q m = 0.
Proof.
  intros H. unfold nopen.
  enough (filter (fun x : Z * obj => opens wr q x.2 = true) m = ∅) as -> by (by rewrite map_size_empty).
  apply map_empty. intros p. apply map_lookup_filter_None. right. intros o Hp. cbn. destruct o; cbn; try done.
  rewrite (proj2 (Z.eqb_neq _ _)); [done|]. by eapply H.
Qed.

(** * The invariant *)

Section spec.
Context {S : Type} {KM : KMem S} {KS : KMemSpec S}.
Implicit Types (k : fp S) (F : gset Z) (pend : Z -> Z).

Abbreviation kobjs k := (objs (fsys k)).

(** References to file [p]: the slots of descriptor tables, and [pend p]
    references the kernel holds in local variables, negative when a slot still
    names a file whose reference has been given up. *)
Definition refs k pend (p : Z) : Z := occ p (all_fds (psch k)) + pend p.
Definition none (p : Z) : Z := 0.
Definition add (x : Z) pend (p : Z) : Z := (if decide (x = p) then 1 else 0) + pend p.
Definition sub (x : Z) pend (p : Z) : Z := pend p - (if decide (x = p) then 1 else 0).

(** Every referenced file exists, its count is the number of references, and a
    pipe's end counts are the numbers of files open on it. *)
Record files_ok k F pend : Prop := {
  fo_mem : mem_ok (fsys k) F;
  fo_tab : table_ok (psch k) /\ fds_len (psch k);
  fo_pos : forall p, p <> 0 -> 0 <= refs k pend p;
  fo_ref : forall p, p <> 0 -> 0 < refs k pend p -> exists f, kobjs k !! p = Some (OFile f);
  fo_cnt : forall p f, kobjs k !! p = Some (OFile f) -> f_refcnt f = refs k pend p /\ 0 < f_refcnt f;
  fo_ino : forall p f, kobjs k !! p = Some (OFile f) -> exists n, kobjs k !! f_inode f = Some (OInode n);
  fo_pipe : forall q n, kobjs k !! q = Some (OInode n) -> i_type n = RF_PIPE ->
    i_wr_open n = nopen true q (kobjs k) /\ i_rd_open n = nopen false q (kobjs k);
}.

(** Apart from open files and the end counts of pipes, the objects are the same. *)
Definition pipe_node (o : obj) : bool := match o with OInode n => bool_decide (i_type n = RF_PIPE) | _ => false end.
Definition is_file (o : obj) : bool := match o with OFile _ => true | _ => false end.
Definition quiet k k' : Prop :=
  (forall q o, is_file o = false -> pipe_node o = false -> kobjs k' !! q = Some o <-> kobjs k !! q = Some o) /\
  (forall q n, kobjs k !! q = Some (OInode n) -> i_type n = RF_PIPE ->
     exists w r, kobjs k' !! q = Some (OInode (set_open w r n))) /\
  (forall q n, kobjs k' !! q = Some (OInode n) -> i_type n = RF_PIPE ->
     exists n0 w r, kobjs k !! q = Some (OInode n0) /\ n = set_open w r n0) /\
  root (fsys k') = root (fsys k).

Lemma quiet_refl k : quiet k k.
Proof.
  split; [done|]. split; [|split; [|done]].
  - intros q n H _. exists (i_wr_open n), (i_rd_open n). rewrite H. by destruct n.
  - intros q n H _. exists n, (i_wr_open n), (i_rd_open n). split; [done|]. by destruct n.
Qed.

Lemma quiet_trans k1 k2 k3 : quiet k1 k2 -> quiet k2 k3 -> quiet k1 k3.
Proof.
  intros (H1 & H2 & H2' & H3) (G1 & G2 & G2' & G3). split; [|split; [|split; [|congruence]]].
  - intros q o Ho Hp. by rewrite G1, H1.
  - intros q n Hq Hty. destruct (H2 q n Hq Hty) as (w & r & Hq'). destruct (G2 q _ Hq' Hty) as (w' & r' & Hq'').
    exists w', r'. rewrite Hq''. by destruct n.
  - intros q n Hq Hty. destruct (G2' q n Hq Hty) as (n1 & w & r & Hq' & ->).
    destruct (H2' q n1 Hq' Hty) as (n2 & w' & r' & Hq'' & ->). exists n2, w, r. split; [done|]. by destruct n2.
Qed.

(** Changing only what the references are. *)
Lemma files_ok_refs k k' F pend pend' :
  files_ok k F pend -> fsys k' = fsys k -> table_ok (psch k') -> fds_len (psch k') ->
  (forall p, p <> 0 -> refs k' pend' p = refs k pend p) -> files_ok k' F pend'.
Proof.
  intros [H1 H2 Hpos H3 H4 H5 H6] Hf Ht Hl Hr.
  assert (H0 : kobjs k !! 0 = None).
  { apply not_elem_of_dom. intros Hin. by apply (km_ptr _ _ _ _ H1) in Hin. }
  split; rewrite ?Hf; try done.
  - intros p Hp. rewrite Hr by done. by apply Hpos.
  - intros p Hp. rewrite Hr by done. by apply H3.
  - intros p f Hp. rewrite Hr by congruence. by apply H4.
Qed.

(** The effect of [pipe_open_account] on the objects. *)
Definition acct (delta : Z) (fl : file) (m : gmap Z obj) : gmap Z obj :=
  match m !! f_inode fl with
  | Some (OInode n) =>
      if bool_decide (i_type n = RF_PIPE) then
        <[f_inode fl := OInode (set_open (if writes fl then i_wr_open n + delta else i_wr_open n)
                                         (if reads fl then i_rd_open n + delta else i_rd_open n) n)]> m
      else m
  | _ => m
  end.

Lemma acct_dom delta fl m : dom (acct delta fl m) = dom m.
Proof.
  unfold acct. destruct (m !! f_inode fl) as [[n| | | | |]|] eqn:E; try done. case_bool_decide; [|done].
  rewrite dom_insert_L. apply elem_of_dom_2 in E. set_solver.
Qed.

Lemma acct_other delta fl m q : q <> f_inode fl -> acct delta fl m !! q = m !! q.
Proof.
  intros Hq. unfold acct. destruct (m !! f_inode fl) as [[n| | | | |]|]; try done. case_bool_decide; [|done].
  by rewrite lookup_insert_ne.
Qed.

(** The only object that changes is a pipe inode. *)
Lemma acct_keep delta fl m q o : pipe_node o = false -> acct delta fl m !! q = Some o <-> m !! q = Some o.
Proof.
  intros Hp. unfold acct. destruct (m !! f_inode fl) as [[n| | | | |]|] eqn:E; try done. case_bool_decide as Hty; [|done].
  destruct (decide (q = f_inode fl)) as [->|Hq]; [|by rewrite lookup_insert_ne].
  rewrite lookup_insert_eq, E. split; intros [= <-]; cbn in Hp; by rewrite bool_decide_eq_true_2 in Hp.
Qed.

Lemma acct_pipe delta fl m q n' : acct delta fl m !! q = Some (OInode n') -> i_type n' = RF_PIPE ->
  exists n, m !! q = Some (OInode n) /\ i_type n = RF_PIPE /\
    i_wr_open n' = i_wr_open n + delta * b2z (opens true q (OFile fl)) /\
    i_rd_open n' = i_rd_open n + delta * b2z (opens false q (OFile fl)).
Proof.
  intros Hq Hty. unfold opens. destruct (Z.eqb_spec (f_inode fl) q) as [<-|Hne]; cbn [andb].
  - unfold acct in Hq. destruct (m !! f_inode fl) as [[n| | | | |]|] eqn:E; try congruence.
    case_bool_decide as Hp; [|rewrite E in Hq; injection Hq as <-; congruence].
    rewrite lookup_insert_eq in Hq. injection Hq as <-. exists n. split; [done|]. split; [done|].
    cbn [i_wr_open i_rd_open set_open]. destruct (writes fl), (reads fl); cbn; lia.
  - rewrite acct_other in Hq by done. exists n'. split; [done|]. split; [done|]. cbn. lia.
Qed.

Lemma acct_nopen delta fl m wr q : nopen wr q (acct delta fl m) = nopen wr q m.
Proof.
  unfold acct. destruct (m !! f_inode fl) as [[n| | | | |]|] eqn:E; try done. case_bool_decide; [|done].
  pose proof (nopen_insert wr q m _ _ (OInode (set_open (if writes fl then i_wr_open n + delta else i_wr_open n)
    (if reads fl then i_rd_open n + delta else i_rd_open n) n)) E) as H1. cbn in H1. lia.
Qed.

Lemma acct_inode delta fl m q n : m !! q = Some (OInode n) -> exists w r, acct delta fl m !! q = Some (OInode (set_open w r n)).
Proof.
  intros Hq. destruct (decide (q = f_inode fl)) as [->|Hne].
  - unfold acct. rewrite Hq. case_bool_decide; [rewrite lookup_insert_eq; eauto|].
    exists (i_wr_open n), (i_rd_open n). rewrite Hq. by destruct n.
  - rewrite acct_other by done. exists (i_wr_open n), (i_rd_open n). rewrite Hq. by destruct n.
Qed.

Lemma acct_cases delta fl m :
  (exists n, m !! f_inode fl = Some (OInode n) /\ i_type n = RF_PIPE /\
     acct delta fl m = <[f_inode fl := OInode (set_open (if writes fl then i_wr_open n + delta else i_wr_open n)
                                         (if reads fl then i_rd_open n + delta else i_rd_open n) n)]> m) \/
  (acct delta fl m = m /\ forall n, m !! f_inode fl = Some (OInode n) -> i_type n <> RF_PIPE).
Proof.
  unfold acct. destruct (m !! f_inode fl) as [[n| | | | |]|] eqn:E; try (right; split; [done|]; intros; congruence).
  case_bool_decide; [left; eauto|right]. split; [done|]. congruence.
Qed.

(** [s'] is [s] after some wakeups on [ch]. *)
Definition maybe_woken (ch : chan) (s s' : sched) : Prop :=
  s' = s \/ s' = set_proctab (wake ch <$> proctab s) s.

Lemma account_spec k f fl delta :
  kobjs k !! f = Some (OFile fl) -> f_inode fl <> 0 ->
  wp (pipe_open_account f delta) k (fun _ k' =>
    fmem (fsys k') = fmem (fsys k) /\ root (fsys k') = root (fsys k) /\
    kobjs k' = acct delta fl (kobjs k) /\ maybe_woken (ChInode (f_inode fl)) (psch k) (psch k') /\
    (0 <= delta -> psch k' = psch k) /\
    (delta < 0 -> forall n, kobjs k' !! f_inode fl = Some (OInode n) -> i_type n = RF_PIPE ->
       i_wr_open n = 0 \/ i_rd_open n = 0 ->
       psch k' = set_proctab (wake (ChInode (f_inode fl)) <$> proctab (psch k)) (psch k))).
Proof.
  intros Hf Hn. unfold pipe_open_account, get_file, in_fs, get_inode. wp_steps. unfold file_at. rewrite Hf.
  rewrite (proj2 (Z.eqb_neq (f_inode fl) 0)) by done. cbn [orb].
  destruct (acct_cases delta fl (kobjs k)) as [(n & E & Hty & ->)|[-> Hno]].
  - rewrite bool_decide_eq_true_2 by (unfold inode_at; by rewrite E). cbn [negb].
    unfold upd_inode. wp_steps. unfold inode_at. cbn [fsys set_fsys objs set_objs]. rewrite E, lookup_insert_eq.
    destruct (_ && _) eqn:Eb.
    + unfold in_sched, proc_wakeup. wp_steps. split; [done|]. split; [done|]. split; [done|]. split; [by right|].
      apply andb_true_iff in Eb as [Eb _]. split; [lia|done].
    + wp_steps. split; [done|]. split; [done|]. split; [done|]. split; [by left|]. split; [done|].
      cbn [fsys set_fsys objs set_objs]. rewrite lookup_insert_eq.
      intros Hd n2 [= <-] _ Hz. apply andb_false_iff in Eb as [Eb|Eb]; [lia|]. apply orb_false_iff in Eb as [E1 E2]. lia.
  - rewrite bool_decide_eq_false_2.
    2: { unfold inode_at. destruct (kobjs k !! f_inode fl) as [[n| | | | |]|] eqn:E; try done. by apply Hno. }
    cbn [negb]. wp_steps. split; [done|]. split; [done|]. split; [done|]. split; [by left|]. split; [done|].
    intros _ n Hn' Hty. by destruct (Hno n Hn').
Qed.

Lemma refs_add k pend x p : refs k (add x pend) p = (if decide (x = p) then 1 else 0) + refs k pend p.
Proof. unfold refs, add. lia. Qed.

Lemma obj_nonzero k F pend p o : files_ok k F pend -> kobjs k !! p = Some o -> p <> 0.
Proof. intros Hk Hp. apply (km_ptr _ _ _ _ (fo_mem _ _ _ Hk)). by apply elem_of_dom_2 in Hp. Qed.

Lemma unreferenced k F pend p : files_ok k F pend -> p <> 0 -> kobjs k !! p = None -> refs k pend p = 0.
Proof.
  intros Hk Hp Hn. pose proof (fo_pos _ _ _ Hk p Hp).
  destruct (decide (0 < refs k pend p)) as [H1|H1]; [|lia].
  destruct (fo_ref _ _ _ Hk p Hp H1) as [f Hf]. congruence.
Qed.

(** One file changes its position, its flags outside the access mode or its
    count, and the references change to match. *)
Lemma files_ok_file k k' F pend pend' p f f' :
  files_ok k F pend -> kobjs k !! p = Some (OFile f) -> kobjs k' = <[p := OFile f']> (kobjs k) ->
  fmem (fsys k') = fmem (fsys k) -> root (fsys k') = root (fsys k) -> table_ok (psch k') -> fds_len (psch k') ->
  f_inode f' = f_inode f -> reads f' = reads f -> writes f' = writes f ->
  f_refcnt f' = refs k' pend' p -> 0 < f_refcnt f' ->
  (forall q, q <> 0 -> q <> p -> refs k' pend' q = refs k pend q) ->
  files_ok k' F pend' /\ quiet k k'.
Proof.
  intros Hk Hp Ho Hf Hroot Ht Hl Hino Hrd Hwr Hc Hc0 Hr.
  assert (Hopen : forall wr q, opens wr q (OFile f') = opens wr q (OFile f)).
  { intros wr q. cbn. rewrite Hino, Hrd, Hwr. done. }
  assert (Hnop : forall wr q, nopen wr q (kobjs k') = nopen wr q (kobjs k)).
  { intros wr q. rewrite Ho. pose proof (nopen_insert wr q (kobjs k) p _ (OFile f') Hp). rewrite Hopen in H. lia. }
  assert (Hkeep : forall q o, is_file o = false -> kobjs k' !! q = Some o <-> kobjs k !! q = Some o).
  { intros q o Hof. rewrite Ho. destruct (decide (q = p)) as [->|]; [|by rewrite lookup_insert_ne].
    rewrite lookup_insert_eq, Hp. split; intros [= <-]; done. }
  split.
  - split.
    + pose proof (fo_mem _ _ _ Hk) as Hm. unfold mem_ok in *. rewrite Hf, Ho, dom_insert_L.
      replace ({[p]} ∪ dom (kobjs k)) with (dom (kobjs k)); [done|]. apply elem_of_dom_2 in Hp. set_solver.
    + done.
    + intros q Hq. destruct (decide (q = p)) as [->|Hne]; [lia|]. rewrite Hr by done. by apply (fo_pos _ _ _ Hk).
    + intros q Hq Hrq. destruct (decide (q = p)) as [->|Hne]; [rewrite Ho, lookup_insert_eq; eauto|].
      rewrite Hr in Hrq by done. rewrite Ho, lookup_insert_ne by done. by apply (fo_ref _ _ _ Hk).
    + intros q g. rewrite Ho. destruct (decide (q = p)) as [->|Hne].
      * rewrite lookup_insert_eq. intros [= <-]. done.
      * rewrite lookup_insert_ne by done. intros Hq. rewrite Hr; [by apply (fo_cnt _ _ _ Hk)|by eapply obj_nonzero|done].
    + intros q g. rewrite Ho. destruct (decide (q = p)) as [->|Hne].
      * rewrite lookup_insert_eq. intros [= <-]. rewrite Hino. destruct (fo_ino _ _ _ Hk p f Hp) as [n Hn].
        exists n. rewrite <- Ho. by apply Hkeep.
      * rewrite lookup_insert_ne by done. intros Hq. destruct (fo_ino _ _ _ Hk q g Hq) as [n Hn].
        exists n. rewrite <- Ho. by apply Hkeep.
    + intros q n Hq Hty. rewrite !Hnop. apply Hkeep in Hq; [|done]. by apply (fo_pipe _ _ _ Hk).
  - split; [intros q o H1 _; by apply Hkeep|]. split; [|split; [|done]]; intros q n Hq Hty.
    + exists (i_wr_open n), (i_rd_open n). replace (set_open _ _ n) with n by (by destruct n). by apply Hkeep.
    + exists n, (i_wr_open n), (i_rd_open n). replace (set_open _ _ n) with n by (by destruct n). split; [by apply Hkeep|done].
Qed.

Lemma refs_sched k k' pend p : all_fds (psch k') = all_fds (psch k) -> refs k' pend p = refs k pend p.
Proof. unfold refs. by intros ->. Qed.

Lemma woken_facts ch s s' : maybe_woken ch s s' -> table_ok s -> fds_len s ->
  all_fds s' = all_fds s /\ table_ok s' /\ fds_len s'.
Proof.
  intros [->| ->] Ht Hl; [done|]. split; [apply all_fds_wake|]. split; [|by apply fds_len_wake].
  unfold table_ok in *. cbn. by rewrite length_fmap.
Qed.

Lemma acct_quiet delta fl (m m' : gmap Z obj) q :
  (forall q o, is_file o = false -> m' !! q = Some o <-> m !! q = Some o) ->
  (forall o, is_file o = false -> pipe_node o = false -> acct delta fl m' !! q = Some o <-> m !! q = Some o) /\
  (forall n, m !! q = Some (OInode n) -> i_type n = RF_PIPE ->
     exists w r, acct delta fl m' !! q = Some (OInode (set_open w r n))) /\
  (forall n, acct delta fl m' !! q = Some (OInode n) -> i_type n = RF_PIPE ->
     exists n0 w r, m !! q = Some (OInode n0) /\ n = set_open w r n0).
Proof.
  intros Hk. split; [|split].
  - intros o Hf Hp. rewrite acct_keep by done. by apply Hk.
  - intros n Hq _. apply acct_inode. by apply Hk.
  - intros n Hq Hty. destruct (acct_pipe _ _ _ _ _ Hq Hty) as (n0 & Hn0 & _).
    destruct (acct_inode delta fl m' q n0 Hn0) as (w & r & Hq'). exists n0, w, r. split; [by apply Hk|congruence].
Qed.

(** A file with one reference is added. *)
Lemma files_ok_add k k' F pend f fl n :
  files_ok k F pend -> f <> 0 -> kobjs k !! f = None -> f_refcnt fl = 1 -> kobjs k !! f_inode fl = Some (OInode n) ->
  kobjs k' = acct 1 fl (<[f := OFile fl]> (kobjs k)) -> mem_ok (fsys k') F ->
  psch k' = psch k -> root (fsys k') = root (fsys k) ->
  files_ok k' F (add f pend) /\ quiet k k' /\ kobjs k' !! f = Some (OFile fl).
Proof.
  intros Hk Hf0 Hf Hc Hn Ho Hm Hs Hr. pose proof (unreferenced k F pend f Hk Hf0 Hf) as Hun.
  assert (Hkeep : forall q o, is_file o = false -> <[f := OFile fl]> (kobjs k) !! q = Some o <-> kobjs k !! q = Some o).
  { intros q o Hof. destruct (decide (q = f)) as [->|]; [|by rewrite lookup_insert_ne].
    rewrite lookup_insert_eq, Hf. split; [intros [= <-]; done|done]. }
  assert (Hfile : forall p g, kobjs k' !! p = Some (OFile g) <-> <[f := OFile fl]> (kobjs k) !! p = Some (OFile g)).
  { intros p g. rewrite Ho. by apply acct_keep. }
  assert (Hrefs : forall p, refs k' (add f pend) p = (if decide (f = p) then 1 else 0) + refs k pend p).
  { intros p. rewrite refs_add. f_equal. apply refs_sched. by rewrite Hs. }
  split; [split|split; [split; [|split; [|split]]|]].
  - done.
  - rewrite Hs. apply (fo_tab _ _ _ Hk).
  - intros p Hp. rewrite Hrefs. pose proof (fo_pos _ _ _ Hk p Hp). case_decide; lia.
  - intros p Hp. rewrite Hrefs. intros Hlt. destruct (decide (f = p)) as [<-|Hne].
    + exists fl. apply Hfile. apply lookup_insert_eq.
    + destruct (fo_ref _ _ _ Hk p Hp ltac:(lia)) as [g Hg]. exists g. apply Hfile. by rewrite lookup_insert_ne.
  - intros p g Hg. apply Hfile in Hg. rewrite Hrefs. apply lookup_insert_Some in Hg as [[<- [= <-]]|[Hne Hg]].
    + rewrite decide_True by done. lia.
    + rewrite decide_False by done. by apply (fo_cnt _ _ _ Hk).
  - intros p g Hg. apply Hfile in Hg. enough (exists m, kobjs k !! f_inode g = Some (OInode m)) as [m Hm'].
    { rewrite Ho. destruct (acct_inode 1 fl (<[f := OFile fl]> (kobjs k)) (f_inode g) m) as (w & r & ->); [by apply Hkeep|eauto]. }
    apply lookup_insert_Some in Hg as [[_ [= <-]]|[_ Hg]]; [eauto|by apply (fo_ino _ _ _ Hk p)].
  - intros q n' Hq Hty. rewrite Ho in Hq. apply acct_pipe in Hq as (n0 & Hn0 & Hty0 & Hw & Hrd); [|done].
    apply Hkeep in Hn0; [|done]. destruct (fo_pipe _ _ _ Hk q n0 Hn0 Hty0) as [H1 H2].
    rewrite Ho, !acct_nopen, !nopen_insert_fresh by done. lia.
  - intros q o. rewrite Ho. apply acct_quiet. exact Hkeep.
  - intros q. rewrite Ho. apply acct_quiet. exact Hkeep.
  - intros q. rewrite Ho. apply acct_quiet. exact Hkeep.
  - done.
  - apply Hfile. apply lookup_insert_eq.
Qed.

(** A file loses its last reference. *)
Lemma files_ok_remove k k' F pend f fl :
  files_ok k F (add f pend) -> kobjs k !! f = Some (OFile fl) -> f_refcnt fl = 1 ->
  kobjs k' = acct (-1) fl (delete f (kobjs k)) -> mem_ok (fsys k') F ->
  all_fds (psch k') = all_fds (psch k) -> table_ok (psch k') -> fds_len (psch k') -> root (fsys k') = root (fsys k) ->
  files_ok k' F pend /\ quiet k k'.
Proof.
  intros Hk Hf Hc Ho Hm Hs Ht Hl Hr.
  assert (Hrefs : forall p, refs k (add f pend) p = (if decide (f = p) then 1 else 0) + refs k' pend p).
  { intros p. rewrite refs_add. f_equal. symmetry. by apply refs_sched. }
  assert (Hun : refs k' pend f = 0).
  { destruct (fo_cnt _ _ _ Hk f fl Hf) as [Hcnt _]. rewrite Hrefs, decide_True in Hcnt by done. lia. }
  assert (Hkeep : forall q o, is_file o = false -> delete f (kobjs k) !! q = Some o <-> kobjs k !! q = Some o).
  { intros q o Hof. rewrite lookup_delete_Some. split; [tauto|]. intros Hq. split; [|done]. intros <-. rewrite Hf in Hq. by injection Hq as <-. }
  assert (Hfile : forall p g, kobjs k' !! p = Some (OFile g) <-> f <> p /\ kobjs k !! p = Some (OFile g)).
  { intros p g. rewrite Ho, acct_keep by done. apply lookup_delete_Some. }
  split; [split|split; [|split; [|split]]].
  - done.
  - done.
  - intros p Hp. pose proof (fo_pos _ _ _ Hk p Hp) as H. rewrite Hrefs in H. destruct (decide (f = p)) as [<-|]; lia.
  - intros p Hp Hlt. assert (f <> p) by (intros ->; lia).
    destruct (fo_ref _ _ _ Hk p Hp) as [g Hg]; [rewrite Hrefs, decide_False by done; lia|]. exists g. by apply Hfile.
  - intros p g Hg. apply Hfile in Hg as [Hne Hg]. destruct (fo_cnt _ _ _ Hk p g Hg) as [H1 H2].
    rewrite Hrefs, decide_False in H1 by done. done.
  - intros p g Hg. apply Hfile in Hg as [Hne Hg]. destruct (fo_ino _ _ _ Hk p g Hg) as [m Hm'].
    rewrite Ho. destruct (acct_inode (-1) fl (delete f (kobjs k)) (f_inode g) m) as (w & r & ->); [by apply Hkeep|eauto].
  - intros q n' Hq Hty. rewrite Ho in Hq. apply acct_pipe in Hq as (n0 & Hn0 & Hty0 & Hw & Hrd); [|done].
    apply Hkeep in Hn0; [|done]. destruct (fo_pipe _ _ _ Hk q n0 Hn0 Hty0) as [H1 H2].
    pose proof (nopen_delete true q _ _ _ Hf). pose proof (nopen_delete false q _ _ _ Hf).
    rewrite Ho, !acct_nopen. lia.
  - intros q o. rewrite Ho. apply acct_quiet. exact Hkeep.
  - intros q. rewrite Ho. apply acct_quiet. exact Hkeep.
  - intros q. rewrite Ho. apply acct_quiet. exact Hkeep.
  - done.
Qed.

(** A new file on inode [ino]. *)
Lemma file_open_spec k F pend ino n flags :
  files_ok k F pend -> kobjs k !! ino = Some (OInode n) ->
  wp (file_open_inode ino flags) k (fun r k' =>
    (r = 0 /\ k' = k) \/
    (r <> 0 /\ kobjs k !! r = None /\ files_ok k' F (add r pend) /\ quiet k k' /\
     kobjs k' !! r = Some (OFile (File ino 0 flags 1 0)) /\
     psch k' = psch k /\ same_frames F (fmem (fsys k)) (fmem (fsys k')))).
Proof.
  intros Hk Hino. pose proof (fo_mem _ _ _ Hk) as Hm. pose proof (obj_nonzero _ _ _ _ _ Hk Hino) as Hino0.
  unfold file_open_inode, in_fs, in_mem. wp_steps.
  eapply wp_mono; [apply (km_alloc_spec _ F (dom (kobjs k))); [exact Hm|unfold FILE_SIZE, KM_MAX, PAGE_SIZE; lia]|].
  intros f m [[-> ->]|(Hf0 & Hfd & Hkm & Hsf)]; cbn beta.
  { rewrite Z.eqb_refl. wp_steps. left. split; [done|]. by destruct k as [[] ?]. }
  rewrite (proj2 (Z.eqb_neq f 0)) by done. apply not_elem_of_dom in Hfd. unfold put_obj. wp_steps.
  set (fl := File ino 0 flags 1 0). set (k1 := set_fsys _ _).
  assert (Ho1 : kobjs k1 = <[f := OFile fl]> (kobjs k)) by done.
  assert (Hk1 : fmem (fsys k1) = m /\ psch k1 = psch k /\ root (fsys k1) = root (fsys k)) by done. clearbody k1.
  destruct Hk1 as (Hf1 & Hs1 & Hr1).
  eapply wp_mono; [apply (account_spec k1 f fl 1); [by rewrite Ho1, lookup_insert_eq|done]|].
  intros [] k' (Hf' & Hr' & Ho' & _ & Hps & _). wp_steps. right. split; [done|]. split; [done|].
  assert (Hm' : mem_ok (fsys k') F).
  { unfold mem_ok. by rewrite Ho', acct_dom, Ho1, dom_insert_L, Hf', Hf1. }
  rewrite Ho1 in Ho'. destruct (files_ok_add k k' F pend f fl n Hk) as (H1 & H2 & H3); try done.
  - rewrite Hps; done.
  - congruence.
  - split; [done|]. split; [done|]. split; [done|]. split; [by rewrite Hps|]. by rewrite Hf', Hf1.
Qed.

Lemma file_at_eq k p f : kobjs k !! p = Some (OFile f) -> file_at (fsys k) p = f.
Proof. intros H. unfold file_at. by rewrite H. Qed.

(** Replacing one field of a file. *)
Lemma wp_upd_file k p f g (Q : unit -> fp S -> Prop) :
  kobjs k !! p = Some (OFile f) ->
  (forall k', kobjs k' = <[p := OFile (g f)]> (kobjs k) -> fmem (fsys k') = fmem (fsys k) ->
     root (fsys k') = root (fsys k) -> psch k' = psch k -> Q tt k') ->
  wp (upd_file p g) k Q.
Proof. intros Hp HQ. unfold upd_file, in_fs. wp_steps. apply HQ; try done. cbn. by rewrite (file_at_eq k p f). Qed.

(** One more reference to a file. *)
Lemma count_up_spec k F pend p f :
  files_ok k F pend -> kobjs k !! p = Some (OFile f) ->
  wp (upd_file p (fun fl => set_refcnt (f_refcnt fl + 1) fl)) k (fun _ k' =>
    files_ok k' F (add p pend) /\ quiet k k' /\ psch k' = psch k /\ same_frames F (fmem (fsys k)) (fmem (fsys k')) /\
    kobjs k' = <[p := OFile (set_refcnt (f_refcnt f + 1) f)]> (kobjs k)).
Proof.
  intros Hk Hp. apply (wp_upd_file k p f); [done|]. intros k' Ho Hf Hr Hs.
  destruct (fo_cnt _ _ _ Hk p f Hp) as [Hc Hc0]. destruct (fo_tab _ _ _ Hk) as [Ht Hl].
  assert (Hrefs : forall q, refs k' (add p pend) q = (if decide (p = q) then 1 else 0) + refs k pend q).
  { intros q. rewrite refs_add. f_equal. apply refs_sched. by rewrite Hs. }
  destruct (files_ok_file k k' F pend (add p pend) p f _ Hk Hp Ho) as [H1 H2]; try done.
  - by rewrite Hs.
  - by rewrite Hs.
  - rewrite Hrefs, decide_True by done. cbn. lia.
  - cbn. lia.
  - intros q Hq Hqp. rewrite Hrefs, decide_False by done. lia.
  - split; [done|]. split; [done|]. split; [done|]. by rewrite Hf.
Qed.

Lemma file_dup_spec k F pend p f :
  files_ok k F pend -> kobjs k !! p = Some (OFile f) ->
  wp (file_dup p) k (fun r k' => r = p /\ files_ok k' F (add p pend) /\ quiet k k' /\ psch k' = psch k).
Proof.
  intros Hk Hp. unfold file_dup. pose proof (obj_nonzero _ _ _ _ _ Hk Hp). rewrite (proj2 (Z.eqb_neq _ _)) by done.
  apply wp_bind. eapply wp_mono; [by eapply count_up_spec|]. intros [] k' (H1 & H2 & H3 & _). wp_steps. done.
Qed.

(** What a closed file leaves behind: sleepers of a pipe that lost its last
    writer or reader are awake. *)
Definition end_woken k k' (f : file) : Prop :=
  forall n, kobjs k' !! f_inode f = Some (OInode n) -> i_type n = RF_PIPE -> i_wr_open n = 0 \/ i_rd_open n = 0 ->
  f_refcnt f = 1 -> forall i, (i < NPROC)%nat -> ~ (state (proc_at (psch k') i) = P_BLOCKED /\
    wait_chan (proc_at (psch k') i) = Some (ChInode (f_inode f))).

Lemma woken_not_blocked ch s i : table_ok s -> (i < NPROC)%nat ->
  let p := proc_at (set_proctab (wake ch <$> proctab s) s) i in ~ (state p = P_BLOCKED /\ wait_chan p = Some ch).
Proof.
  intros Ht Hi p. unfold p. rewrite proc_at_wake by done. unfold wake, has_state.
  destruct (decide (state (proc_at s i) = P_BLOCKED)) as [E1|E1]; [rewrite (bool_decide_eq_true_2 _ E1)|rewrite (bool_decide_eq_false_2 _ E1)];
    cbn [andb]; [|tauto].
  destruct (decide (wait_chan (proc_at s i) = Some ch)) as [E2|E2];
    [rewrite (bool_decide_eq_true_2 _ E2); intros [H _]; discriminate H|rewrite (bool_decide_eq_false_2 _ E2); tauto].
Qed.

Lemma acct_close fl f (m : gmap Z obj) x : f_inode fl <> f ->
  delete f (acct (-1) (set_refcnt 0 fl) (<[f := x]> m)) = acct (-1) fl (delete f m).
Proof.
  intros Hne. unfold acct. cbn [f_inode set_refcnt]. rewrite lookup_insert_ne, lookup_delete_ne by done.
  destruct (m !! f_inode fl) as [[n| | | | |]|]; try by rewrite delete_insert_eq.
  case_bool_decide; [|by rewrite delete_insert_eq].
  rewrite delete_insert_ne, delete_insert_eq by done. done.
Qed.

Lemma file_close_spec k F pend p f :
  files_ok k F (add p pend) -> kobjs k !! p = Some (OFile f) ->
  wp (file_close p) k (fun _ k' =>
    files_ok k' F pend /\ quiet k k' /\ same_frames F (fmem (fsys k)) (fmem (fsys k')) /\
    maybe_woken (ChInode (f_inode f)) (psch k) (psch k') /\ end_woken k k' f).
Proof.
  intros Hk Hp. destruct (fo_cnt _ _ _ Hk p f Hp) as [Hc Hc0]. destruct (fo_tab _ _ _ Hk) as [Ht Hl].
  pose proof (obj_nonzero _ _ _ _ _ Hk Hp) as Hp0. destruct (fo_ino _ _ _ Hk p f Hp) as [n Hn].
  pose proof (obj_nonzero _ _ _ _ _ Hk Hn) as Hn0.
  assert (Hne : f_inode f <> p) by congruence.
  unfold file_close. rewrite (proj2 (Z.eqb_neq _ _)) by done. apply wp_bind.
  apply (wp_upd_file k p f); [done|]. intros k1 Ho1 Hf1 Hr1 Hs1. apply wp_bind, wp_gets.
  rewrite (file_at_eq k1 p (set_refcnt (f_refcnt f - 1) f)) by (by rewrite Ho1, lookup_insert_eq).
  cbn [f_refcnt set_refcnt]. destruct (Z.leb_spec (f_refcnt f - 1) 0) as [Hle|Hgt].
  - assert (Hc1 : f_refcnt f = 1) by lia. replace (f_refcnt f - 1) with 0 in Ho1 by lia. apply wp_bind.
    eapply wp_mono; [apply (account_spec k1 p (set_refcnt 0 f) (-1)); [by rewrite Ho1, lookup_insert_eq|done]|].
    intros [] k2 (Hf2 & Hr2 & Ho2 & Hw & _ & Hend). rewrite Hs1 in Hw.
    destruct (woken_facts _ _ _ Hw Ht Hl) as (Hall & Ht2 & Hl2). apply wp_zoom.
    assert (Hm2 : mem_ok (fsys k2) F).
    { pose proof (fo_mem _ _ _ Hk) as Hm. unfold mem_ok in *. rewrite Ho2, acct_dom, Ho1, dom_insert_L, Hf2, Hf1.
      replace ({[p]} ∪ dom (kobjs k)) with (dom (kobjs k)); [done|]. apply elem_of_dom_2 in Hp. set_solver. }
    eapply wp_mono; [apply (free_obj_spec (fsys k2) F p (OFile (set_refcnt 0 f)) Hm2)|].
    { rewrite Ho2. apply acct_keep; [done|]. by rewrite Ho1, lookup_insert_eq. }
    intros [] s3 (Ho3 & Hm3 & Hsf & Hr3). set (k3 := set_fsys s3 k2). rewrite Ho2, Ho1, acct_close in Ho3 by done.
    destruct (files_ok_remove k k3 F pend p f Hk Hp Hc1 Ho3 Hm3) as [H1 H2]; try done.
    { cbn. congruence. }
    split; [done|]. split; [done|]. split; [cbn; by rewrite <- Hf1, <- Hf2|]. split; [done|].
    intros n' Hn' Hty Hz _ i Hi. cbn [fsys k3 set_fsys psch] in *.
    rewrite (Hend ltac:(lia) n'); [by rewrite Hs1; apply woken_not_blocked| |done|done].
    rewrite Ho3 in Hn'. rewrite <- (acct_close f p (kobjs k) (OFile (set_refcnt 0 f))) in Hn' by done.
    rewrite Ho2, Ho1. cbn [f_inode set_refcnt]. apply lookup_delete_Some in Hn' as [_ ?]. done.
  - wp_steps.
    assert (Hrefs : forall q, refs k (add p pend) q = (if decide (p = q) then 1 else 0) + refs k1 pend q).
    { intros q. rewrite refs_add. f_equal. apply refs_sched. by rewrite Hs1. }
    destruct (files_ok_file k k1 F (add p pend) pend p f _ Hk Hp Ho1) as [H1 H2]; try done.
    + by rewrite Hs1.
    + by rewrite Hs1.
    + cbn. rewrite Hc, Hrefs, decide_True by done. lia.
    + intros q Hq Hqp. rewrite Hrefs, decide_False by done. lia.
    + split; [done|]. split; [done|]. split; [by rewrite Hf1|]. split; [left; done|].
      intros n' _ _ _ Hc1. lia.
Qed.

(** ** Descriptor tables *)

Lemma files_ok_ext k F pend pend' : files_ok k F pend -> (forall p, p <> 0 -> pend' p = pend p) -> files_ok k F pend'.
Proof.
  intros Hk He. destruct (fo_tab _ _ _ Hk). apply (files_ok_refs k k F pend pend'); try done.
  intros p Hp. unfold refs. by rewrite He.
Qed.

(** the table after [t->fd[j] = v] *)
Definition with_fd (s : sched) (i : nat) (j v : Z) : sched :=
  set_proctab (alter (fun p => set_fds (<[Z.to_nat j := v]> (fds p)) p) i (proctab s)) s.

(** Storing a descriptor moves a reference into the table, and out of it the one
    that was there. *)
Lemma set_fd_spec k F pend i j v :
  files_ok k F pend -> (i < NPROC)%nat -> 0 <= j < NOFILE ->
  wp (set_fd i j v) k (fun _ k' =>
    fsys k' = fsys k /\ psch k' = with_fd (psch k) i j v /\
    files_ok k' F (sub v (add (fd_slot (psch k) i j) pend))).
Proof.
  intros Hk Hi Hj. unfold set_fd, in_sched, upd_proc. wp_steps. split; [done|]. split; [done|].
  destruct (fo_tab _ _ _ Hk) as [Ht Hl]. eapply files_ok_refs; [exact Hk|done|..].
  - by apply table_ok_upd.
  - by apply fds_len_set.
  - intros p Hp. pose proof (occ_perm p _ _ (all_fds_set (psch k) i j v Ht Hl Hi Hj)) as H.
    rewrite !occ_cons in H. unfold refs, sub, add. cbn [psch set_psch]. case_decide; case_decide; lia.
Qed.

Lemma with_fd_slot k F pend i j v i' j' :
  files_ok k F pend -> (i < NPROC)%nat -> 0 <= j < NOFILE -> 0 <= j' ->
  fd_slot (with_fd (psch k) i j v) i' j' = if decide (i' = i /\ j' = j) then v else fd_slot (psch k) i' j'.
Proof. intros Hk. destruct (fo_tab _ _ _ Hk). by apply set_fd_slot. Qed.

(** A descriptor that is in use names a file. *)
Lemma slot_file k F pend i j : files_ok k F pend -> (forall p, 0 <= pend p) -> (i < NPROC)%nat -> 0 <= j < NOFILE ->
  fd_slot (psch k) i j <> 0 -> exists f, kobjs k !! fd_slot (psch k) i j = Some (OFile f).
Proof.
  intros Hk Hpos Hi Hj Hz. apply (fo_ref _ _ _ Hk); [done|]. unfold refs.
  destruct (fo_tab _ _ _ Hk) as [Ht Hl].
  assert (0 < occ (fd_slot (psch k) i j) (all_fds (psch k))); [|specialize (Hpos (fd_slot (psch k) i j)); lia].
  apply occ_pos. pose proof (lookup_proc (psch k) i Ht Hi) as Hp.
  assert (Hlen : length (fds (proc_at (psch k) i)) = Z.to_nat NOFILE) by (eapply (Forall_lookup_1 _ _ _ _ Hl Hp)).
  unfold all_fds. apply list_elem_of_bind. exists (proc_at (psch k) i). split.
  - unfold fd_slot. destruct (lookup_lt_is_Some_2 (fds (proc_at (psch k) i)) (Z.to_nat j)) as [x Hx]; [lia|].
    rewrite Hx. cbn. by apply list_elem_of_lookup_2 in Hx.
  - by apply list_elem_of_lookup_2 in Hp.
Qed.

(** [fd_alloc_from] installs the file at the lowest free descriptor from [min]
    on, or fails if there is none. *)
Lemma fd_alloc_from_spec k F pend i f min :
  files_ok k F (add f pend) -> (i < NPROC)%nat ->
  wp (fd_alloc_from i f min) k (fun r k' =>
    (r = -1 /\ k' = k /\ forall j, Z.max 0 min <= j < NOFILE -> fd_slot (psch k) i j <> 0) \/
    (Z.max 0 min <= r < NOFILE /\ fsys k' = fsys k /\ psch k' = with_fd (psch k) i r f /\ files_ok k' F pend /\
     fd_slot (psch k) i r = 0 /\ forall j, Z.max 0 min <= j < r -> fd_slot (psch k) i j <> 0)).
Proof.
  intros Hk Hi. unfold fd_alloc_from. apply wp_bind, wp_gets.
  replace (if min <? 0 then 0 else min) with (Z.max 0 min) by (destruct (Z.ltb_spec min 0); lia).
  destruct (find_from _ _ _) as [j|] eqn:E.
  - apply find_from_Some in E as (Hj & Hz & Hn). apply Z.eqb_eq in Hz. apply wp_bind.
    eapply wp_mono; [apply (set_fd_spec k F (add f pend) i j f Hk Hi); lia|].
    intros [] k' (H1 & H2 & H3). wp_steps. right. split; [lia|]. split; [done|]. split; [done|]. split.
    + eapply files_ok_ext; [exact H3|]. intros p Hp. unfold sub, add. rewrite Hz. rewrite (decide_False (P := 0 = p)) by done.
      case_decide; lia.
    + split; [done|]. intros j' Hj'. specialize (Hn j' Hj'). by apply Z.eqb_neq in Hn.
  - wp_steps. left. split; [done|]. split; [done|]. intros j Hj.
    pose proof (proj1 (find_from_None _ _ _) E j ltac:(lia)) as H. by apply Z.eqb_neq in H.
Qed.

(** Everything [file_close] may do to the process table. *)
Lemma woken_slot ch s s' i j : maybe_woken ch s s' -> table_ok s -> (i < NPROC)%nat -> fd_slot s' i j = fd_slot s i j.
Proof. intros [->| ->] Ht Hi; [done|]. unfold fd_slot. by rewrite proc_at_wake, wake_fds. Qed.

(** Giving up the file in a slot and storing [v] there instead. *)
Lemma replace_fd_spec k F pend i j v f :
  files_ok k F (add v pend) -> (forall p, 0 <= pend p) -> (i < NPROC)%nat -> 0 <= j < NOFILE ->
  kobjs k !! fd_slot (psch k) i j = Some (OFile f) ->
  wp (file_close (fd_slot (psch k) i j) ≫= fun _ => set_fd i j v) k (fun _ k' =>
    files_ok k' F pend /\ quiet k k' /\ same_frames F (fmem (fsys k)) (fmem (fsys k')) /\
    exists s, maybe_woken (ChInode (f_inode f)) (psch k) s /\ psch k' = with_fd s i j v).
Proof.
  intros Hk Hpos Hi Hj Hf. set (old := fd_slot (psch k) i j) in *. apply wp_bind.
  assert (Hk0 : files_ok k F (add old (sub old (add v pend)))).
  { eapply files_ok_ext; [exact Hk|]. intros p _. unfold add, sub. lia. }
  destruct (fo_tab _ _ _ Hk) as [Ht _].
  eapply wp_mono; [by apply (file_close_spec k F _ old f Hk0)|]. intros [] k1 (H1 & H2 & H3 & H4 & _).
  eapply wp_mono; [by apply (set_fd_spec k1 F _ i j v H1 Hi Hj)|]. intros [] k2 (G1 & G2 & G3).
  rewrite (woken_slot _ _ _ i j H4) in G3 by done. fold old in G3. split.
  - eapply files_ok_ext; [exact G3|]. intros p _. unfold add, sub. lia.
  - split; [|split; [by rewrite G1|eauto]]. unfold quiet in *. rewrite G1. done.
Qed.

Lemma fd_close_spec k F pend i fd :
  files_ok k F pend -> (forall p, 0 <= pend p) -> (i < NPROC)%nat ->
  wp (fd_close i fd) k (fun r k' =>
    (r = -9 /\ k' = k /\ ~ (0 <= fd < NOFILE /\ fd_slot (psch k) i fd <> 0)) \/
    (r = 0 /\ 0 <= fd < NOFILE /\ fd_slot (psch k) i fd <> 0 /\ files_ok k' F pend /\ quiet k k' /\
     cur (psch k') = cur (psch k) /\ fd_slot (psch k') i fd = 0 /\ forall i' j, (i' < NPROC)%nat -> 0 <= j -> (i', j) <> (i, fd) ->
       fd_slot (psch k') i' j = fd_slot (psch k) i' j)).
Proof.
  intros Hk Hpos Hi. unfold fd_close. apply wp_bind, wp_gets. destruct (fo_tab _ _ _ Hk) as [Ht _].
  destruct (Z.ltb_spec fd 0) as [|Hlo]; cbn [orb]; [wp_steps; left; split; [done|]; split; [done|lia]|].
  destruct (Z.leb_spec NOFILE fd) as [|Hhi]; cbn [orb]; [wp_steps; left; split; [done|]; split; [done|lia]|].
  destruct (Z.eqb_spec (fd_slot (psch k) i fd) 0) as [Hz|Hz]; [wp_steps; left; split; [done|]; split; [done|tauto]|].
  destruct (slot_file k F pend i fd Hk) as [f Hf]; [done|done|lia|done|].
  assert (Hk0 : files_ok k F (add 0 pend)).
  { eapply files_ok_ext; [exact Hk|]. intros p Hp. unfold add. by rewrite decide_False. }
  pose proof (replace_fd_spec k F pend i fd 0 f Hk0 Hpos Hi ltac:(lia) Hf) as Hr.
  apply wp_assoc, wp_bind. eapply wp_mono; [exact Hr|]. intros [] k2 (H1 & H2 & H3 & s & Hw & Hs). apply wp_ret.
  right. split; [done|]. split; [lia|]. split; [done|]. split; [done|]. split; [done|]. rewrite Hs.
  destruct (woken_facts _ _ _ Hw Ht (proj2 (fo_tab _ _ _ Hk))) as (_ & Ht' & Hl'). unfold with_fd.
  split; [by destruct Hw as [->| ->]|]. split.
  - rewrite set_fd_slot by (done || lia). by rewrite decide_True.
  - intros i' j Hi' Hj Hne. rewrite set_fd_slot by (done || lia). rewrite decide_False by naive_solver.
    by apply (woken_slot _ _ _ i' j Hw).
Qed.
End spec.
