(* ===== verification/FsSyscall.v ===== *)
(** The file system calls, [kernel/fs/fs_syscall.c] and [kernel/fs/vfs.c].

    Every function runs on behalf of the current process.  A user buffer the
    code fills is part of the result, one it reads is an argument: the
    dispatcher moves the bytes.  A null path is the empty string: where the code
    tests for one it tests for the other.  Characters that will arrive on the console are
    a stream. *)

From stdpp Require Import gmap list fin_maps.
From Stdlib Require Import ZArith Lia.
From S2P Require Import Prelude Memory Frames KernMem Ramfs RamfsData RamfsTree Proc File.

Definition K_ENOENT : Z := 2.
Definition K_EBADF : Z := 9.
Definition K_ENOMEM : Z := 12.
Definition K_EACCES : Z := 13.
Definition K_ENOTDIR : Z := 20.
Definition K_EISDIR : Z := 21.
Definition K_EINVAL : Z := 22.
Definition K_EMFILE : Z := 24.
Definition K_ERANGE : Z := 34.

Definition O_RDONLY : Z := 0.
Definition O_WRONLY : Z := 1.
Definition O_CREAT : Z := 64.
Definition O_TRUNC : Z := 512.
Definition O_APPEND : Z := 1024.
Definition O_NONBLOCK : Z := 2048.
Definition O_DIRECTORY : Z := 16384.
Definition O_NOFOLLOW : Z := 32768.
Definition AT_FDCWD : Z := -100.
Definition AT_SYMLINK_NOFOLLOW : Z := 0x100.
Definition AT_EMPTY_PATH : Z := 0x1000.
Definition SEEK_SET : Z := 0.
Definition SEEK_CUR : Z := 1.
Definition SEEK_END : Z := 2.
Definition F_DUPFD : Z := 0.
Definition F_GETFD : Z := 1.
Definition F_SETFD : Z := 2.
Definition F_GETFL : Z := 3.
Definition F_SETFL : Z := 4.
Definition F_DUPFD_CLOEXEC : Z := 1030.
Definition DT_UNKNOWN : Z := 0.
Definition DT_CHR : Z := 2.
Definition DT_DIR : Z := 4.
Definition DT_REG : Z := 8.
Definition DT_LNK : Z := 10.
Definition DIRENT64_NAMEOFF : Z := 19.
Definition DIRENT64_RECLEN (namelen : Z) : Z := (DIRENT64_NAMEOFF +w namelen +w 1 +w 7) .& .~ 7.

Definition TCGETS : Z := 0x5401.
Definition TCSETS : Z := 0x5402.
Definition TCSETSW : Z := 0x5403.
Definition TCSETSF : Z := 0x5404.
Definition TIOCGWINSZ : Z := 0x5413.
Definition TIOCSWINSZ : Z := 0x5414.
Definition TIOCGPGRP : Z := 0x540F.
Definition TIOCSPGRP : Z := 0x5410.
Definition TIOCSCTTY : Z := 0x540E.
Definition TIOCNOTTY : Z := 0x5422.
Definition FIONREAD : Z := 0x541B.

Record termios := Termios { c_iflag : Z; c_oflag : Z; c_cflag : Z; c_lflag : Z; c_line : Z; c_cc : list Z }.
Definition K_ISIG : Z := 1.
Definition K_ICANON : Z := 2.
Definition K_ECHO : Z := 8.
Definition K_ICRNL : Z := 256.
Definition K_OPOST : Z := 1.
Definition K_ONLCR : Z := 4.
Definition K_CS8 : Z := 48.
Definition K_CREAD : Z := 128.
Definition K_B115200 : Z := 4098.

Definition NL : Z := 10.
Definition CR : Z := 13.

Definition console_tios_default : termios :=
  Termios K_ICRNL (K_OPOST .| K_ONLCR) (K_B115200 .| K_CS8 .| K_CREAD) (K_ICANON .| K_ECHO .| K_ISIG) 0
    (<[4%nat := 4]> (<[2%nat := 127]> (<[0%nat := 3]> (replicate 19 0)))).

(** The console: its line discipline, the characters that will be received, how
    many have been, and what was sent. *)
Record console := Console { tios : option termios; rx : nat -> Z; rxpos : nat; tx : list Z }.

Definition set_off v f := File (f_inode f) v (f_flags f) (f_refcnt f) (f_dir_pos f).
Definition set_fflags v f := File (f_inode f) (f_off f) v (f_refcnt f) (f_dir_pos f).
Definition set_dir_pos v f := File (f_inode f) (f_off f) (f_flags f) (f_refcnt f) v.

(** little-endian words of a structure *)
Fixpoint le_bytes (n : nat) (v : Z) : list Z :=
  match n with O => [] | S n' => v mod 256 :: le_bytes n' (v / 256) end.

Section model.
Context {S : Type} {KM : KMem S}.

Record io := Io { iofp : fp S; con : console }.
Definition set_iofp v s := Io v (con s).
Definition set_con v s := Io (iofp s) v.
Definition in_fp {R} : M (fp S) R -> M io R := zoom iofp set_iofp.

(** [proc_fds()], [proc_cwd()] and [proc_set_cwd()] go through the current slot. *)
Definition me : M (fp S) nat := gets (fun k => default O (cur (psch k))).
Definition proc_cwd : M (fp S) Z := gets (fun k => cwd (proc_at (psch k) (default O (cur (psch k))))).
Definition proc_set_cwd (ino : Z) : M (fp S) unit := c ← me; in_sched (upd_proc c (set_cwd ino)).
Definition my_fd (fd : Z) : M (fp S) Z := c ← me; fd_get c fd.

Definition vfs_resolve (s : fs S) (cwd : Z) (path : cstr) (follow : bool) : Z := ramfs_lookup s cwd path follow.

Definition is_console (n : rf_inode) : bool :=
  bool_decide (i_type n = RF_CHR) && (i_rdev_major n =? 5) && (i_rdev_minor n =? 1).

Definition has_flag (flags f : Z) : bool := negb (flags .& f =? 0).

Definition resolve_at (dirfd : Z) (path : cstr) (follow : bool) : M (fp S) Z :=
  if starts_slash path then gets (fun k => vfs_resolve (fsys k) 0 path follow)
  else if dirfd =? AT_FDCWD then
    cwd ← proc_cwd;
    gets (fun k => vfs_resolve (fsys k) cwd path follow)
  else
    f ← my_fd dirfd;
    gets (fun k =>
      let ino := f_inode (file_at (fsys k) f) in
      if negb (f =? 0) && negb (ino =? 0) && bool_decide (i_type (inode_at (fsys k) ino) = RF_DIR)
      then vfs_resolve (fsys k) ino path follow else 0).

(** index of the last slash, counted from [i] *)
Fixpoint last_slash (path : cstr) (i : Z) : Z :=
  match path with
  | [] => -1
  | c :: p =>
      let r := last_slash p (i + 1) in
      if 0 <=? r then r else if c =? SLASH then i else -1
  end.

(** The parent directory and the leaf, as [parent_of] finds them. *)
Definition parent_of (s : fs S) (cwd : Z) (path : cstr) (cap : nat) : Z * cstr :=
  let ls := last_slash path 0 in
  if ls <? 0 then (if cwd =? 0 then root s else cwd, strlcpy_ [] path cap)
  else
    let n := if ls =? 0 then 1 else ls in
    let n := if 127 <? n then 127 else n in
    (vfs_resolve s cwd (take (Z.to_nat n) path) true, strlcpy_ [] (drop (Z.to_nat (ls + 1)) path) cap).

Definition mode_or_default (mode : Z) : Z := if mode =? 0 then 420 else mode .& 4095.

(** The inode to open, or the error. *)
Definition open_target (dirfd : Z) (path : cstr) (flags mode : Z) : M (fp S) (Z * Z) :=
  ino ← resolve_at dirfd path (negb (has_flag flags O_NOFOLLOW));
  if ino =? 0 then
    if negb (has_flag flags O_CREAT) then mret (0, - K_ENOENT)
    else
      cwd ← proc_cwd;
      dl ← gets (fun k => parent_of (fsys k) cwd path 64);
      d ← gets (fun k => inode_at (fsys k) dl.1);
      if (dl.1 =? 0) || negb (bool_decide (i_type d = RF_DIR)) then mret (0, - K_ENOENT)
      else
        n ← in_fs (ramfs_mkreg dl.1 dl.2 (mode_or_default mode));
        if n =? 0 then mret (0, - K_ENOMEM) else mret (n, 0)
  else
    n ← gets (fun k => inode_at (fsys k) ino);
    if has_flag flags O_DIRECTORY && negb (bool_decide (i_type n = RF_DIR)) then mret (0, - K_ENOTDIR)
    else
      (if has_flag flags O_TRUNC && bool_decide (i_type n = RF_REG)
       then in_fs (ramfs_truncate ino 0) ≫= fun _ => mret tt else mret tt) ≫= fun _ =>
      mret (ino, 0).

Definition sys_openat (dirfd : Z) (path : cstr) (flags mode : Z) : M (fp S) Z :=
  if is_nil path then mret (- K_ENOENT)
  else
    t ← open_target dirfd path flags mode;
    if t.1 =? 0 then mret t.2
    else
      f ← file_open_inode t.1 (u32 flags);
      if f =? 0 then mret (- K_ENOMEM)
      else
        n ← gets (fun k => inode_at (fsys k) t.1);
        (if has_flag flags O_APPEND && bool_decide (i_type n = RF_REG)
         then upd_file f (set_off (i_size n)) else mret tt) ≫= fun _ =>
        c ← me;
        fd ← fd_alloc c f;
        if fd <? 0 then file_close f ≫= fun _ => mret (- K_EMFILE) else mret fd.

Definition sys_close (fd : Z) : M (fp S) Z := c ← me; fd_close c fd.

(** the channel a read would block on *)
Definition read_block_chan (fd n : Z) : M (fp S) (option chan) :=
  if n =? 0 then mret None
  else
    f ← my_fd fd;
    gets (fun k =>
      let fl := file_at (fsys k) f in
      let nd := inode_at (fsys k) (f_inode fl) in
      if (f =? 0) || negb (bool_decide (i_type nd = RF_PIPE)) then None
      else if has_flag (f_flags fl) O_NONBLOCK then None
      else if (i_size nd =? 0) && (0 <? i_wr_open nd) then Some (ChInode (f_inode fl)) else None).

(** ** Console *)

Definition uart0_putc (c : Z) : M io unit :=
  modify (fun s => let k := con s in set_con (Console (tios k) (rx k) (rxpos k) (tx k ++ [c])) s).
Definition uart0_getc : M io Z :=
  s ← gets con;
  modify (fun st => let k := con st in set_con (Console (tios k) (rx k) (Datatypes.S (rxpos k)) (tx k)) st) ≫= fun _ =>
  mret (rx s (rxpos s) .& 0xff).

(** [console_tios()] initialises the line discipline on first use. *)
Definition console_tios : M io termios :=
  k ← gets con;
  match tios k with
  | Some t => mret t
  | None =>
      modify (fun s => let k := con s in set_con (Console (Some console_tios_default) (rx k) (rxpos k) (tx k)) s) ≫= fun _ =>
      mret console_tios_default
  end.

Definition console_echo : M io bool := t ← console_tios; mret (has_flag (c_lflag t) K_ECHO).

(** the loop of the console branch of [sys_read]: at most [n] characters *)
Fixpoint console_read (n : nat) (echo : bool) : M io (list Z) :=
  match n with
  | O => mret []
  | Datatypes.S n' =>
      c ← uart0_getc;
      if c <? 0 then mret []
      else
        let c := if c =? CR then NL else c in
        (if echo then uart0_putc (if c =? NL then CR else c) else mret tt) ≫= fun _ =>
        if c =? NL then (if echo then uart0_putc NL else mret tt) ≫= fun _ => mret [NL]
        else l ← console_read n' echo; mret (u8 c :: l)
  end.

Fixpoint console_write (l : list Z) : M io unit :=
  match l with
  | [] => mret tt
  | c :: l' => (if c =? NL then uart0_putc CR else mret tt) ≫= fun _ => uart0_putc c ≫= fun _ => console_write l'
  end.

(** the result and the bytes stored at [buf] *)
Definition sys_read (fd n : Z) : M io (Z * list Z) :=
  f ← in_fp (my_fd fd);
  if f =? 0 then mret (- K_EBADF, [])
  else
    fl ← in_fp (get_file f);
    nd ← in_fp (in_fs (get_inode (f_inode fl)));
    if is_console nd then
      echo ← console_echo;
      l ← console_read (Z.to_nat n) echo;
      mret (Z.of_nat (length l), l)
    else if bool_decide (i_type nd = RF_PIPE) then in_fp (in_fs (ramfs_pipe_read (f_inode fl) n))
    else if bool_decide (i_type nd = RF_DIR) then mret (- K_EISDIR, [])
    else
      r ← in_fp (gets (fun k => ramfs_read (fsys k) (f_inode fl) (f_off fl) n));
      (if 0 <? r.1 then in_fp (upd_file f (fun fl => set_off (f_off fl +w r.1) fl)) else mret tt) ≫= fun _ =>
      mret r.

Definition sys_write (fd : Z) (buf : list Z) : M io Z :=
  f ← in_fp (my_fd fd);
  if f =? 0 then mret (- K_EBADF)
  else
    fl ← in_fp (get_file f);
    nd ← in_fp (in_fs (get_inode (f_inode fl)));
    if is_console nd then console_write buf ≫= fun _ => mret (Z.of_nat (length buf))
    else if bool_decide (i_type nd = RF_PIPE) then
      r ← in_fp (in_fs (ramfs_pipe_write (f_inode fl) buf));
      (if 0 <? r then in_fp (in_sched (proc_wakeup (ChInode (f_inode fl)))) else mret tt) ≫= fun _ =>
      mret r
    else if negb (bool_decide (i_type nd = RF_REG)) then mret (- K_EBADF)
    else
      (if has_flag (f_flags fl) O_APPEND then in_fp (upd_file f (set_off (i_size nd))) else mret tt) ≫= fun _ =>
      fl ← in_fp (get_file f);
      r ← in_fp (in_fs (ramfs_write (f_inode fl) (f_off fl) buf));
      (if 0 <? r then in_fp (upd_file f (fun fl => set_off (f_off fl +w r) fl)) else mret tt) ≫= fun _ =>
      mret r.

(** [sys_writev] over the buffers of the vector *)
Fixpoint sys_writev (fd : Z) (iov : list (list Z)) (total : Z) : M io Z :=
  match iov with
  | [] => mret total
  | buf :: iov' =>
      if is_nil buf then sys_writev fd iov' total
      else
        r ← sys_write fd buf;
        if r <? 0 then mret (if total =? 0 then r else total)
        else if r <? Z.of_nat (length buf) then mret (total + r)
        else sys_writev fd iov' (total + r)
  end.

(** [sys_readv] over the lengths of the vector; the bytes of each buffer *)
Fixpoint sys_readv (fd : Z) (iov : list Z) (total : Z) : M io (Z * list (list Z)) :=
  match iov with
  | [] => mret (total, [])
  | len :: iov' =>
      if len =? 0 then r ← sys_readv fd iov' total; mret (r.1, [] :: r.2)
      else
        r ← sys_read fd len;
        if r.1 <? 0 then mret (if total =? 0 then r.1 else total, [r.2])
        else if r.1 <? len then mret (total + r.1, [r.2])
        else rest ← sys_readv fd iov' (total + r.1); mret (rest.1, r.2 :: rest.2)
  end.

(** ** Positions and descriptors *)

Definition seek_base (s : fs S) (fl : file) (whence : Z) : option Z :=
  if whence =? SEEK_SET then Some 0
  else if whence =? SEEK_CUR then Some (f_off fl)
  else if whence =? SEEK_END then Some (if f_inode fl =? 0 then 0 else i_size (inode_at s (f_inode fl)))
  else None.

(** the result, and the [loff_t] stored for the caller *)
Definition sys_llseek (fd off_hi off_lo result_uptr whence : Z) : M (fp S) (Z * list Z) :=
  f ← my_fd fd;
  if f =? 0 then mret (- K_EBADF, [])
  else if negb (off_hi =? 0) && negb (off_hi =? 0xFFFFFFFF) then mret (- K_EINVAL, [])
  else
    b ← gets (fun k => seek_base (fsys k) (file_at (fsys k) f) whence);
    match b with
    | None => mret (- K_EINVAL, [])
    | Some base =>
        let np := base + s32 off_lo in
        if np <? 0 then mret (- K_EINVAL, [])
        else upd_file f (set_off (u32 np)) ≫= fun _ => mret (0, if result_uptr =? 0 then [] else le_bytes 4 (u32 np) ++ le_bytes 4 0)
    end.

Definition sys_lseek (fd off whence : Z) : M (fp S) Z :=
  f ← my_fd fd;
  if f =? 0 then mret (- K_EBADF)
  else
    b ← gets (fun k => seek_base (fsys k) (file_at (fsys k) f) whence);
    match b with
    | None => mret (- K_EINVAL)
    | Some base =>
        let np := base + off in
        if np <? 0 then mret (- K_EINVAL)
        else upd_file f (set_off (u32 np)) ≫= fun _ => mret (s32 np)
    end.

Definition sys_dup (fd : Z) : M (fp S) Z :=
  f ← my_fd fd;
  if f =? 0 then mret (- K_EBADF)
  else
    c ← me;
    g ← file_dup f;
    nfd ← fd_alloc c g;
    if nfd <? 0 then file_close f ≫= fun _ => mret (- K_EMFILE) else mret nfd.

(** the result and the two descriptors stored at [fds] *)
Definition sys_pipe2 (fds_uptr : Z) : M (fp S) (Z * list Z) :=
  if fds_uptr =? 0 then mret (- K_EINVAL, []) else
  p ← in_fs ramfs_pipe;
  if p =? 0 then mret (- K_ENOMEM, [])
  else
    rf ← file_open_inode p O_RDONLY;
    wf ← file_open_inode p O_WRONLY;
    if (rf =? 0) || (wf =? 0) then
      (if negb (rf =? 0) then file_close rf else mret tt) ≫= fun _ =>
      (if negb (wf =? 0) then file_close wf else mret tt) ≫= fun _ =>
      mret (- K_ENOMEM, [])
    else
      c ← me;
      rfd ← fd_alloc c rf;
      wfd ← fd_alloc c wf;
      if (rfd <? 0) || (wfd <? 0) then
        (if 0 <=? rfd then fd_close c rfd ≫= fun _ => mret tt else file_close rf) ≫= fun _ =>
        (if 0 <=? wfd then fd_close c wfd ≫= fun _ => mret tt else file_close wf) ≫= fun _ =>
        mret (- K_EMFILE, [])
      else mret (0, le_bytes 4 rfd ++ le_bytes 4 wfd).

Definition sys_dup2 (oldfd newfd : Z) : M (fp S) Z :=
  f ← my_fd oldfd;
  if f =? 0 then mret (- K_EBADF)
  else if oldfd =? newfd then mret newfd
  else if (newfd <? 0) || (NOFILE <=? newfd) then mret (- K_EBADF)
  else
    c ← me;
    g ← file_dup f;
    fd_install_at c newfd g.

Definition sys_fcntl64 (fd cmd arg : Z) : M (fp S) Z :=
  f ← my_fd fd;
  if f =? 0 then mret (- K_EBADF)
  else if (cmd =? F_DUPFD) || (cmd =? F_DUPFD_CLOEXEC) then
    c ← me;
    g ← file_dup f;
    nfd ← fd_alloc_from c g (s32 arg);
    if nfd <? 0 then file_close f ≫= fun _ => mret (- K_EMFILE) else mret nfd
  else if cmd =? F_GETFD then mret 0
  else if cmd =? F_SETFD then mret 0
  else if cmd =? F_GETFL then gets (fun k => s32 (f_flags (file_at (fsys k) f)))
  else if cmd =? F_SETFL then upd_file f (set_fflags arg) ≫= fun _ => mret 0
  else mret (- K_EINVAL).

(** ** Directories *)

(** the [idx]-th entry of a sibling list *)
Fixpoint nth_entry (fuel : nat) (s : fs S) (d idx k : Z) : option rf_dirent :=
  match fuel with
  | O => None
  | Datatypes.S fuel' =>
      if d =? 0 then None
      else if k =? idx then Some (dirent_at s d)
      else nth_entry fuel' s (d_next (dirent_at s d)) idx (k +w 1)
  end.

(** name and target at directory position [pos] *)
Definition entry_at (s : fs S) (dir pos : Z) : option (cstr * Z) :=
  if pos =? 0 then Some (dot, dir)
  else if pos =? 1 then Some (dotdot, i_parent (inode_at s dir))
  else
    e ← nth_entry (Datatypes.S (size (objs s))) s (i_children (inode_at s dir)) (pos -w 2) 0;
    Some (d_name e, d_inode e).

Definition d_type_of (s : fs S) (tgt : Z) : Z :=
  if tgt =? 0 then DT_UNKNOWN
  else match i_type (inode_at s tgt) with
       | RF_DIR => DT_DIR | RF_LNK => DT_LNK | RF_CHR => DT_CHR | _ => DT_REG
       end.

(** one [struct linux_dirent64] with its padding *)
Definition dirent_bytes (s : fs S) (name : cstr) (tgt used reclen : Z) : list Z :=
  le_bytes 8 (if tgt =? 0 then 0 else i_ino (inode_at s tgt)) ++ le_bytes 8 (used +w reclen) ++ le_bytes 2 reclen ++
  [d_type_of s tgt] ++ name ++ [0] ++ replicate (Z.to_nat (reclen - (DIRENT64_NAMEOFF + strlen name + 1))) 0.

(** The record loop: what is stored, and the directory position reached.  Every
    round moves to the next entry. *)
Fixpoint getdents_loop (fuel : nat) (s : fs S) (dir pos used cap : Z) : option Z * list Z * Z :=
  match fuel with
  | O => (None, [], pos)
  | Datatypes.S fuel' =>
      match entry_at s dir pos with
      | None => (None, [], pos)
      | Some (name, tgt) =>
          let reclen := DIRENT64_RECLEN (strlen name) in
          if cap <? used +w reclen then (if used =? 0 then Some (- K_EINVAL) else None, [], pos)
          else
            let '(e, l, pos') := getdents_loop fuel' s dir (pos +w 1) (used +w reclen) cap in
            (e, dirent_bytes s name tgt used reclen ++ l, pos')
      end
  end.

Definition sys_getdents64 (fd cap : Z) : M (fp S) (Z * list Z) :=
  f ← my_fd fd;
  if f =? 0 then mret (- K_EBADF, [])
  else
    fl ← get_file f;
    nd ← in_fs (get_inode (f_inode fl));
    if (f_inode fl =? 0) || negb (bool_decide (i_type nd = RF_DIR)) then mret (- K_ENOTDIR, [])
    else
      r ← gets (fun k => getdents_loop (size (objs (fsys k)) + 3) (fsys k) (f_inode fl) (f_dir_pos fl) 0 cap);
      let '(e, l, pos) := r in
      upd_file f (set_dir_pos pos) ≫= fun _ =>
      match e with Some err => mret (err, []) | None => mret (u32 (Z.of_nat (length l)), l) end.

(** ** Status *)

(** the 104 bytes of [struct kstat64] *)
Definition fill_stat (nd : rf_inode) : list Z :=
  le_bytes 8 1 ++ le_bytes 4 0 ++ le_bytes 4 (i_ino nd) ++ le_bytes 4 (i_mode nd) ++ le_bytes 4 (i_nlink nd) ++
  le_bytes 4 0 ++ le_bytes 4 0 ++
  le_bytes 8 (if bool_decide (i_type nd = RF_CHR) then (i_rdev_major nd * 256) .| i_rdev_minor nd else 0) ++
  le_bytes 4 0 ++ le_bytes 4 0 ++ le_bytes 8 (i_size nd) ++ le_bytes 4 4096 ++ le_bytes 4 0 ++
  le_bytes 8 ((i_size nd +w 511) / 512) ++ replicate 24 0 ++ le_bytes 8 (i_ino nd).

Definition stat_of (ino : Z) : M (fp S) (Z * list Z) :=
  if ino =? 0 then mret (- K_ENOENT, []) else gets (fun k => (0, fill_stat (inode_at (fsys k) ino))).

Definition sys_fstat64 (fd : Z) : M (fp S) (Z * list Z) :=
  f ← my_fd fd;
  if f =? 0 then mret (- K_EBADF, [])
  else gets (fun k => (0, fill_stat (inode_at (fsys k) (f_inode (file_at (fsys k) f))))).

Definition sys_stat64 (path : cstr) (follow : bool) : M (fp S) (Z * list Z) :=
  cwd ← proc_cwd;
  ino ← gets (fun k => vfs_resolve (fsys k) cwd path follow);
  stat_of ino.

(** The inode the [*at] calls name; [None] for a bad descriptor. *)
Definition at_inode (dirfd : Z) (path : cstr) (flags : Z) : M (fp S) (option Z) :=
  if has_flag flags AT_EMPTY_PATH && is_nil path then
    f ← my_fd dirfd;
    if f =? 0 then mret None else gets (fun k => Some (f_inode (file_at (fsys k) f)))
  else ino ← resolve_at dirfd path (negb (has_flag flags AT_SYMLINK_NOFOLLOW)); mret (Some ino).

Definition sys_fstatat64 (dirfd : Z) (path : cstr) (flags : Z) : M (fp S) (Z * list Z) :=
  i ← at_inode dirfd path flags;
  match i with None => mret (- K_EBADF, []) | Some ino => stat_of ino end.

(** the 256 bytes of [struct statx] *)
Definition statx_bytes (nd : rf_inode) : list Z :=
  le_bytes 4 0x7ff ++ le_bytes 4 4096 ++ le_bytes 8 0 ++ le_bytes 4 (i_nlink nd) ++ le_bytes 4 0 ++ le_bytes 4 0 ++
  le_bytes 2 (i_mode nd) ++ le_bytes 2 0 ++ le_bytes 8 (i_ino nd) ++ le_bytes 8 (i_size nd) ++
  le_bytes 8 ((i_size nd +w 511) / 512) ++ replicate 200 0.

Definition sys_statx (dirfd : Z) (path : cstr) (flags buf : Z) : M (fp S) (Z * list Z) :=
  i ← at_inode dirfd path flags;
  match i with
  | None => mret (- K_EBADF, [])
  | Some ino =>
      if ino =? 0 then mret (- K_ENOENT, [])
      else if buf =? 0 then mret (- K_EINVAL, [])
      else gets (fun k => (0, statx_bytes (inode_at (fsys k) ino)))
  end.

Definition sys_faccessat (dirfd : Z) (path : cstr) : M (fp S) Z :=
  ino ← resolve_at dirfd path true;
  mret (if ino =? 0 then - K_ENOENT else 0).

Definition sys_readlinkat (dirfd : Z) (path : cstr) (bufsz : Z) : M (fp S) (Z * list Z) :=
  ino ← resolve_at dirfd path false;
  if ino =? 0 then mret (- K_ENOENT, [])
  else
    gets (fun k =>
      let nd := inode_at (fsys k) ino in
      if negb (bool_decide (i_type nd = RF_LNK)) then (- K_EINVAL, [])
      else
        let n := if i_size nd <? bufsz then i_size nd else bufsz in
        (n, take (Z.to_nat n) (str_at (fsys k) (i_target nd)))).

Definition sys_chdir (path : cstr) : M (fp S) Z :=
  cwd ← proc_cwd;
  ino ← gets (fun k => vfs_resolve (fsys k) cwd path true);
  if ino =? 0 then mret (- K_ENOENT)
  else
    nd ← in_fs (get_inode ino);
    if negb (bool_decide (i_type nd = RF_DIR)) then mret (- K_ENOTDIR)
    else proc_set_cwd ino ≫= fun _ => mret 0.

(** the name of [ino] in the sibling list from [d] *)
Fixpoint name_in (fuel : nat) (s : fs S) (ino d : Z) : cstr :=
  match fuel with
  | O => [63]
  | Datatypes.S fuel' =>
      if d =? 0 then [63]
      else if d_inode (dirent_at s d) =? ino then d_name (dirent_at s d)
      else name_in fuel' s ino (d_next (dirent_at s d))
  end.

(** The climb to the root: [acc] is what stands at the end of [tmp], before its
    NUL.  [guard] rounds are left. *)
Fixpoint climb (guard : nat) (s : fs S) (ino : Z) (acc : cstr) : Z + cstr :=
  if (ino =? 0) || (ino =? root s) then inr acc
  else
    match guard with
    | O => inl (- K_EINVAL)
    | Datatypes.S guard' =>
        let par := i_parent (inode_at s ino) in
        let name := name_in (Datatypes.S (size (objs s))) s ino (i_children (inode_at s par)) in
        if 127 - Z.of_nat (length acc) <? strlen name + 1 then inl (- K_ERANGE)
        else climb guard' s par (SLASH :: name ++ acc)
    end.

Definition sys_getcwd (sz : Z) : M (fp S) (Z * list Z) :=
  ino ← proc_cwd;
  gets (fun k =>
    match climb 64 (fsys k) ino (if ino =? root (fsys k) then [SLASH] else []) with
    | inl e => (e, [])
    | inr path =>
        let len := Z.of_nat (length path) + 1 in
        if sz <? len then (- K_ERANGE, []) else (len, path ++ [0])
    end).

(** ** Terminal control *)

Definition termios_bytes (t : termios) : list Z :=
  le_bytes 4 (c_iflag t) ++ le_bytes 4 (c_oflag t) ++ le_bytes 4 (c_cflag t) ++ le_bytes 4 (c_lflag t) ++ [c_line t] ++ c_cc t.

(** [new] is the structure at [arg]; the result and the bytes stored at [arg] *)
Definition sys_ioctl (fd req arg : Z) (new : termios) : M io (Z * list Z) :=
  f ← in_fp (my_fd fd);
  if f =? 0 then mret (- K_EBADF, [])
  else
    fl ← in_fp (get_file f);
    nd ← in_fp (in_fs (get_inode (f_inode fl)));
    let tty := is_console nd in
    if req =? TIOCGWINSZ then
      if negb tty then mret (-25, [])
      else mret (0, if arg =? 0 then [] else le_bytes 2 24 ++ le_bytes 2 80 ++ le_bytes 2 0 ++ le_bytes 2 0)
    else if req =? TCGETS then
      if negb tty then mret (-25, [])
      else if arg =? 0 then mret (0, [])
      else t ← console_tios; mret (0, termios_bytes t)
    else if (req =? TCSETS) || (req =? TCSETSW) || (req =? TCSETSF) then
      if negb tty then mret (-25, [])
      else if arg =? 0 then mret (0, [])
      else
        modify (fun s => let k := con s in set_con (Console (Some new) (rx k) (rxpos k) (tx k)) s) ≫= fun _ =>
        mret (0, [])
    else if (req =? TIOCSWINSZ) || (req =? TIOCSCTTY) || (req =? TIOCSPGRP) || (req =? TIOCNOTTY) then
      mret (if tty then 0 else -25, [])
    else if req =? TIOCGPGRP then
      if negb tty then mret (-25, []) else mret (0, if arg =? 0 then [] else le_bytes 4 1)
    else if req =? FIONREAD then mret (if tty then 0 else -25, if arg =? 0 then [] else le_bytes 4 0)
    else mret (-25, []).
End model.

Arguments io : clear implicits.
