(* ===== verification/FsInv.v ===== *)
(** The invariant of the file layer, and that the system calls keep it. *)

From stdpp Require Import gmap list fin_maps.
From Stdlib Require Import ZArith Lia.
From S2P Require Import Prelude Memory Frames KernMem Ramfs RamfsPipe RamfsData RamfsTree RamfsPaths Proc File FsSyscall.

Section inv.
Context {S : Type} {KM : KMem S} {KS : KMemSpec S}.
Implicit Types (s : fs S) (k : fp S) (F : gset Z) (nd : rf_inode).

Abbreviation kobjs k := (objs (fsys k)).

(** * Parts of the invariant *)

(** the root and the parents of directories are inodes *)
Definition links_ok s : Prop :=
  (exists n, objs s !! root s = Some (OInode n)) /\
  forall p nd, is_dir s p nd -> exists n, objs s !! i_parent nd = Some (OInode n).

(** every pipe has a ring of its own *)
Definition pipes_ok s : Prop :=
  (forall p nd, objs s !! p = Some (OInode nd) -> i_type nd = RF_PIPE -> exists q, pipe_rep s p q) /\
  (forall p p' nd nd', objs s !! p = Some (OInode nd) -> i_type nd = RF_PIPE ->
     objs s !! p' = Some (OInode nd') -> i_type nd' = RF_PIPE -> i_pbuf nd = i_pbuf nd' -> p = p').

(** What the directory tree depends on. *)
Record tree_kept s s' : Prop := {
  tk_dir : forall q nd, is_dir s' q nd <-> is_dir s q nd;
  tk_ent : forall q d, objs s !! q = Some (ODirent d) -> objs s' !! q = Some (ODirent d);
  tk_ino : forall q n, objs s !! q = Some (OInode n) -> exists n', objs s' !! q = Some (OInode n');
  tk_root : root s' = root s;
}.

Lemma dlist_dirent s d l e : dlist s d l -> e ∈ l -> exists x, objs s !! e_ptr e = Some (ODirent x).
Proof. intros Hl He. apply list_elem_of_split in He as (l1 & l2 & ->). apply dlist_suffix in Hl as (_ & _ & nx & Ho & _). eauto. Qed.

Lemma dlist_kept s s' d l : (forall q x, objs s !! q = Some (ODirent x) -> objs s' !! q = Some (ODirent x)) ->
  dlist s d l -> dlist s' d l.
Proof.
  intros He Hl. eapply dlist_ext; [exact Hl|]. intros e o Hin Ho.
  destruct (dlist_dirent _ _ _ _ Hl Hin) as [x Hx]. rewrite Hx in Ho. injection Ho as <-. by apply He.
Qed.

Lemma tree_kept_ok s s' : tree_kept s s' -> tree_ok s -> links_ok s -> tree_ok s' /\ links_ok s'.
Proof.
  intros [Hd He Hi Hr] Ht [Hroot Hpar]. split; [|split].
  - intros p nd Hp. apply Hd in Hp. destruct (Ht p nd Hp) as (l & Hl & H1 & H2). exists l.
    split; [by eapply dlist_kept|]. split; [done|]. eapply Forall_impl; [exact H2|]. intros e (n & Hn). by apply (Hi _ n).
  - rewrite Hr. destruct Hroot as [n Hn]. by apply (Hi _ n).
  - intros p nd Hp. apply Hd in Hp. destruct (Hpar p nd Hp) as [n Hn]. by apply (Hi _ n).
Qed.

(** What pipes depend on. *)
Definition same_ring nd nd' : Prop :=
  i_type nd' = i_type nd /\ i_pbuf nd' = i_pbuf nd /\ i_phead nd' = i_phead nd /\ i_ptail nd' = i_ptail nd /\ i_size nd' = i_size nd.

Lemma pipes_kept s s' :
  (forall p nd', objs s' !! p = Some (OInode nd') -> i_type nd' = RF_PIPE ->
     exists nd, objs s !! p = Some (OInode nd) /\ same_ring nd nd') ->
  (forall q r, objs s !! q = Some (ORing r) -> objs s' !! q = Some (ORing r)) ->
  pipes_ok s -> pipes_ok s'.
Proof.
  intros Hp Hr [H1 H2]. split.
  - intros p nd' Hp' Hty. destruct (Hp p nd' Hp' Hty) as (nd & Hn & E1 & E2 & E3 & E4 & E5).
    destruct (H1 p nd Hn ltac:(congruence)) as (q & nd0 & ring & Hn0 & _ & Hring & Hok & ->).
    assert (nd0 = nd) by congruence. subst nd0. eexists. exists nd', ring. split; [done|]. split; [done|].
    rewrite E2, E3, E4, E5. split; [by apply Hr|]. split; [done|reflexivity].
  - intros p p' nd nd' Hn Hty Hn' Hty' Heq.
    destruct (Hp p nd Hn Hty) as (x & Hx & X1 & X2 & _). destruct (Hp p' nd' Hn' Hty') as (y & Hy & Y1 & Y2 & _).
    apply (H2 p p' x y); try congruence.
Qed.

(** * The invariant *)

Record kinv k F : Prop := {
  ki_files : files_ok k F none;
  ki_data : data_ok (fsys k) F;
  ki_tree : tree_ok (fsys k);
  ki_links : links_ok (fsys k);
  ki_pipes : pipes_ok (fsys k);
  ki_cur : exists c, cur (psch k) = Some c /\ (c < NPROC)%nat;
}.

(** ** Steps that touch only open files *)

Lemma quiet_tree k k' : quiet k k' -> tree_kept (fsys k) (fsys k').
Proof.
  intros (H1 & H2 & _ & H3). split.
  - intros q nd. unfold is_dir. split; intros [Hq Hty]; (split; [|done]); (apply H1; [done| |done]); cbn; by rewrite Hty.
  - intros q d Hq. by apply H1.
  - intros q n Hq. destruct (decide (i_type n = RF_PIPE)) as [Hty|Hty].
    + destruct (H2 q n Hq Hty) as (w & r & ->). eauto.
    + exists n. apply H1; [done| |done]. cbn. by rewrite bool_decide_eq_false_2.
  - done.
Qed.

Lemma quiet_reg k k' q nq : quiet k k' -> reg (fsys k') q nq <-> reg (fsys k) q nq.
Proof.
  intros (H1 & _). unfold reg. split; intros [Hq Hty]; (split; [|done]); (apply H1; [done| |done]); cbn; by rewrite Hty.
Qed.

Lemma quiet_pipes k k' : quiet k k' -> pipes_ok (fsys k) -> pipes_ok (fsys k').
Proof.
  intros (H1 & _ & H2 & _). apply pipes_kept; [|intros q r Hq; by apply H1].
  intros p nd' Hp Hty. destruct (H2 p nd' Hp Hty) as (nd & w & r & Hn & ->). exists nd. split; [done|]. done.
Qed.

Lemma kinv_quiet k k' F : kinv k F -> quiet k k' -> files_ok k' F none ->
  cur (psch k') = cur (psch k) -> kinv k' F.
Proof.
  intros [Hf Hd Ht Hl Hp Hc] Hq Hf' Hcur. destruct (tree_kept_ok _ _ (quiet_tree _ _ Hq) Ht Hl) as [Ht' Hl'].
  split; try done.
  - apply (data_ok_extend (fsys k)); [done|apply Hf'| |].
    + intros q nq Hr. left. by apply (quiet_reg k k').
    + intros q nq Hr Hz. destruct (dk_vec _ _ Hd q nq Hr) as (_ & _ & [[_ ?]|(_ & l & Hv & _)]); [done|].
      rewrite Hv. by apply (proj1 Hq).
  - by eapply quiet_pipes.
  - by rewrite Hcur.
Qed.

(** ** Steps that leave open files alone *)

Lemma nopen_ext wr q (m m' : gmap Z obj) :
  (forall p f, m' !! p = Some (OFile f) <-> m !! p = Some (OFile f)) -> nopen wr q m' = nopen wr q m.
Proof.
  intros H. unfold nopen. do 2 f_equal. apply map_eq. intros p. apply option_eq. intros o.
  rewrite !map_lookup_filter_Some. cbn. split; intros [Hp Ho]; (split; [|done]); destruct o; try done; by apply H.
Qed.

Lemma files_kept k k' F F' pend :
  files_ok k F pend -> mem_ok (fsys k') F' -> psch k' = psch k ->
  (forall p f, kobjs k' !! p = Some (OFile f) <-> kobjs k !! p = Some (OFile f)) ->
  (forall q n, kobjs k !! q = Some (OInode n) -> exists n', kobjs k' !! q = Some (OInode n')) ->
  (forall q n', kobjs k' !! q = Some (OInode n') -> i_type n' = RF_PIPE ->
     (exists n, kobjs k !! q = Some (OInode n) /\ i_type n = RF_PIPE /\ i_wr_open n' = i_wr_open n /\ i_rd_open n' = i_rd_open n) \/
     (kobjs k !! q = None /\ i_wr_open n' = 0 /\ i_rd_open n' = 0)) ->
  files_ok k' F' pend.
Proof.
  intros Hk Hm Hs Hfile Hino Hpipe. assert (Hrefs : forall p, refs k' pend p = refs k pend p).
  { intros p. apply refs_sched. by rewrite Hs. }
  split.
  - done.
  - rewrite Hs. apply (fo_tab _ _ _ Hk).
  - intros p Hp. rewrite Hrefs. by apply (fo_pos _ _ _ Hk).
  - intros p Hp. rewrite Hrefs. intros Hr. destruct (fo_ref _ _ _ Hk p Hp Hr) as [f Hf]. exists f. by apply Hfile.
  - intros p f Hf. apply Hfile in Hf. rewrite Hrefs. by apply (fo_cnt _ _ _ Hk).
  - intros p f Hf. apply Hfile in Hf. destruct (fo_ino _ _ _ Hk p f Hf) as [n Hn]. by apply (Hino _ n).
  - intros q n' Hq Hty. rewrite !(nopen_ext _ _ (kobjs k) (kobjs k') Hfile).
    destruct (Hpipe q n' Hq Hty) as [(n & Hn & Hty' & -> & ->)|(Hn & -> & ->)]; [by apply (fo_pipe _ _ _ Hk)|].
    assert (H0 : forall wr, nopen wr q (kobjs k) = 0); [|by rewrite !H0].
    intros wr. apply nopen_zero. intros p f Hf Heq. destruct (fo_ino _ _ _ Hk p f Hf) as [n Hn']. congruence.
Qed.

(** Writing, truncating: one regular file [p] and its page vector. *)
Lemma kinv_reg k F s' F' p nd nd' :
  kinv k F -> reg (fsys k) p nd -> reg s' p nd' -> rest_same (fsys k) s' p -> data_ok s' F' -> kinv (set_fsys s' k) F'.
Proof.
  intros [Hf Hd Ht Hl Hp Hc] Hr Hr' (R1 & R2 & R3) Hd'.
  assert (Hino : forall q n, i_type n <> RF_REG -> objs s' !! q = Some (OInode n) <-> kobjs k !! q = Some (OInode n)).
  { intros q n Hty. destruct (decide (q = p)) as [->|Hne]; [|by apply R3].
    destruct Hr as [Hr E1], Hr' as [Hr' E2]. rewrite Hr, Hr'. split; intros [= <-]; congruence. }
  assert (Hoth : forall q o, (forall n, o <> OInode n) -> (forall l, o <> OVec l) -> objs s' !! q = Some o <-> kobjs k !! q = Some o).
  { intros q o H1 H2. destruct (decide (q = p)) as [->|Hne]; [|by apply R3].
    destruct Hr as [Hr _], Hr' as [Hr' _]. rewrite Hr, Hr'. split; intros [= <-]; naive_solver. }
  assert (Hsome : forall q n, kobjs k !! q = Some (OInode n) -> exists n', objs s' !! q = Some (OInode n')).
  { intros q n Hq. destruct (decide (q = p)) as [->|Hne]; [exists nd'; apply Hr'|]. exists n. by apply R3. }
  assert (Htk : tree_kept (fsys k) s').
  { split; [|intros q d Hq; by apply Hoth|done|done]. intros q n. unfold is_dir.
    split; intros [Hq Hty]; (split; [|done]); (apply Hino; [by rewrite Hty|done]). }
  destruct (tree_kept_ok _ _ Htk Ht Hl) as [Ht' Hl']. split; try done.
  - apply (files_kept k _ F F'); [done|apply Hd'|done| |done|].
    + intros q f. by apply Hoth.
    + intros q n Hq Hty. left. exists n. split; [|done]. apply Hino; [by rewrite Hty|done].
  - eapply pipes_kept; [| |exact Hp]; [|intros q r Hq; by apply Hoth].
    intros q n Hq Hty. exists n. split; [|done]. apply Hino; [by rewrite Hty|done].
Qed.

(** Creating a regular file. *)
Lemma kinv_create k F dir nd name r s' ino mode :
  kinv k F -> is_dir (fsys k) dir nd -> name_fits name ->
  mk_post (fsys k) F dir nd name (fun o => o = new_inode RF_REG ino mode) r s' ->
  kinv (set_fsys s' k) F /\ (r <> 0 -> exists n, objs s' !! r = Some (OInode n)).
Proof.
  intros [Hf Hd Ht Hl Hp Hc] Hdir Hname (Hm & Hsf & Hres). destruct Hres as [(-> & Ho & Hr)|(Hr & o & Ho & Hea)].
  - split; [|done]. split; try done; cbn [fsys set_fsys psch].
    + apply (files_kept k _ F F); try done; cbn [fsys set_fsys]; rewrite Ho; eauto. intros q n Hq Hty. left. eauto.
    + apply (data_ok_extend (fsys k)); [done|done|..]; unfold reg; rewrite Ho; auto.
    + by eapply same_objs_tree.
    + destruct Hl as [L1 L2]. unfold links_ok, is_dir. rewrite Ho, Hr. done.
    + eapply pipes_kept; [| |exact Hp]; rewrite Ho; [|done]. intros q n Hq _. by exists n.
  - split; [|intros _; exists o; apply (ea_node _ _ _ _ _ _ _ Hea)].
    assert (Hty : i_type o = RF_REG) by (by rewrite Ho).
    assert (Hfile : forall p f, objs s' !! p = Some (OFile f) <-> kobjs k !! p = Some (OFile f)).
    { intros p f. split.
      - intros Hp'. destruct (ea_new _ _ _ _ _ _ _ Hea p _ Hp') as [[? ?]|[?|[[? ?]|[? ?]]]]; done.
      - intros Hp'. apply (ea_old _ _ _ _ _ _ _ Hea); [done|]. intros ->. destruct Hdir. congruence. }
    assert (Hpipe : forall q n, objs s' !! q = Some (OInode n) -> i_type n = RF_PIPE -> kobjs k !! q = Some (OInode n)).
    { intros q n Hq Hpt. destruct (ea_only _ _ _ _ _ _ _ Hea q n Hq) as [->|[->|?]]; [| |done].
      - rewrite (ea_node _ _ _ _ _ _ _ Hea) in Hq. injection Hq as <-. congruence.
      - destruct (ea_dir _ _ _ _ _ _ _ Hea) as (d & _ & _ & _ & _ & E). rewrite E in Hq. injection Hq as <-.
        destruct Hdir. cbn in Hpt. congruence. }
    split; try done; cbn [fsys set_fsys psch].
    + apply (files_kept k _ F F); try done.
      * intros q n Hq. by eapply added_inode.
      * intros q n Hq Hpt. left. exists n. split; [by apply Hpipe|done].
    + apply (data_ok_extend (fsys k)); [done|done| |].
      * intros q nq Hq. apply (added_reg (fsys k) s' dir nd name r o Hdir Hea) in Hq as [?|(-> & -> & _)]; [by left|right].
        by rewrite Ho.
      * intros q nq Hq Hz. by apply (added_vec (fsys k) s' F dir nd name r o Hdir Hea q).
    + apply (added_tree_ok (fsys k) s' dir nd name r o Ht Hdir Hname Hea). congruence.
    + destruct Hl as [[n Hn] L2]. split.
      * rewrite (ea_root _ _ _ _ _ _ _ Hea). by eapply added_inode.
      * intros p np [Hp' Hpt].
        enough (exists n, kobjs k !! i_parent np = Some (OInode n)) as [n' Hn'] by (by eapply added_inode).
        destruct (ea_only _ _ _ _ _ _ _ Hea p np Hp') as [->|[->|?]].
        -- rewrite (ea_node _ _ _ _ _ _ _ Hea) in Hp'. injection Hp' as <-. congruence.
        -- destruct (ea_dir _ _ _ _ _ _ _ Hea) as (d & _ & _ & _ & _ & E). rewrite E in Hp'. injection Hp' as <-.
           cbn. by apply (L2 dir nd).
        -- by apply (L2 p np).
    + eapply pipes_kept; [| |exact Hp].
      * intros q n Hq Hpt. exists n. split; [by apply Hpipe|done].
      * intros q rg Hq. apply (ea_old _ _ _ _ _ _ _ Hea); [done|]. intros ->. destruct Hdir. congruence.
Qed.

(** Reading from or writing to the pipe [p]. *)
Lemma kinv_pipe k F s' p nd nd' r0 r q :
  kinv k F -> kobjs k !! p = Some (OInode nd) -> i_type nd = RF_PIPE -> kobjs k !! i_pbuf nd = Some (ORing r0) ->
  objs s' = <[p := OInode nd']> (<[i_pbuf nd := ORing r]> (kobjs k)) -> fmem s' = fmem (fsys k) -> root s' = root (fsys k) ->
  i_type nd' = RF_PIPE -> i_pbuf nd' = i_pbuf nd -> i_wr_open nd' = i_wr_open nd -> i_rd_open nd' = i_rd_open nd ->
  pipe_rep s' p q -> kinv (set_fsys s' k) F.
Proof.
  intros [Hf Hd Ht Hl Hp Hc] Hn Hty Hring Ho Hfm Hroot Hty' Hpb Hw Hrd Hrep.
  assert (Hne : i_pbuf nd <> p) by congruence.
  assert (Hdom : dom (objs s') = dom (kobjs k)).
  { rewrite Ho, !dom_insert_L. apply elem_of_dom_2 in Hn, Hring. set_solver. }
  assert (Hm : mem_ok s' F).
  { pose proof (fo_mem _ _ _ Hf) as Hm. unfold mem_ok in *. by rewrite Hdom, Hfm. }
  assert (Hkeep : forall x o, pipe_node o = false -> (forall l, o <> ORing l) -> objs s' !! x = Some o <-> kobjs k !! x = Some o).
  { intros x o H1 H2. rewrite Ho. destruct (decide (x = p)) as [->|Hx].
    - rewrite lookup_insert_eq, Hn. split; intros [= <-]; cbn in H1; by rewrite bool_decide_eq_true_2 in H1.
    - rewrite lookup_insert_ne by done. destruct (decide (x = i_pbuf nd)) as [->|Hx']; [|by rewrite lookup_insert_ne].
      rewrite lookup_insert_eq, Hring. split; intros [= <-]; naive_solver. }
  assert (Hpipe : forall x n, objs s' !! x = Some (OInode n) -> i_type n = RF_PIPE ->
    (x = p /\ n = nd') \/ (x <> p /\ kobjs k !! x = Some (OInode n))).
  { intros x n. rewrite Ho. destruct (decide (x = p)) as [->|Hx]; [rewrite lookup_insert_eq; intros [= <-]; by left|].
    rewrite lookup_insert_ne by done. intros Hx' _. right. split; [done|]. by apply lookup_insert_Some in Hx' as [[_ ?]|[_ ?]]. }
  assert (Hino : forall x n, kobjs k !! x = Some (OInode n) -> exists n', objs s' !! x = Some (OInode n')).
  { intros x n Hx. rewrite Ho. destruct (decide (x = p)) as [->|Hxp]; [rewrite lookup_insert_eq; eauto|].
    rewrite !lookup_insert_ne; [eauto|congruence|done]. }
  assert (Htk : tree_kept (fsys k) s').
  { split; [|intros x d Hx; by apply Hkeep|done|done]. intros x n. unfold is_dir.
    split; intros [Hx E]; (split; [|done]); (apply Hkeep; [cbn; by rewrite E|done|done]). }
  destruct (tree_kept_ok _ _ Htk Ht Hl) as [Ht' Hl']. split; try done; cbn [fsys set_fsys psch].
  - apply (files_kept k _ F F); try done.
    + intros x f. by apply Hkeep.
    + intros x n Hx Hxt. left. destruct (Hpipe x n Hx Hxt) as [[-> ->]|[_ ?]]; eauto.
  - apply (data_ok_extend (fsys k)); [done|done| |].
    + intros x n [Hx E]. left. split; [|done]. apply Hkeep; [cbn; by rewrite E|done|done].
    + intros x n Hx Hz. destruct (dk_vec _ _ Hd x n Hx) as (_ & _ & [[_ ?]|(_ & l & Hv & _)]); [done|].
      rewrite Hv. by apply Hkeep.
  - destruct Hp as [H1 H2]. split.
    + intros x n Hx Hxt. destruct (Hpipe x n Hx Hxt) as [[-> ->]|[Hxp Hx']]; [eauto|].
      destruct (H1 x n Hx' Hxt) as (qx & n0 & ring & Hn0 & _ & Hrx & Hok & ->). assert (n0 = n) by congruence. subst n0.
      eexists. exists n, ring. split; [done|]. split; [done|]. split; [|done].
      assert (i_pbuf n <> i_pbuf nd) by (intros Heq; apply Hxp; by apply (H2 x p n nd)).
      rewrite Ho, !lookup_insert_ne; [done|done|congruence].
    + intros x y n m Hx Hxt Hy Hyt Heq.
      destruct (Hpipe x n Hx Hxt) as [[-> ->]|[Hxp Hx']], (Hpipe y m Hy Hyt) as [[-> ->]|[Hyp Hy']].
      * done.
      * apply (H2 p y nd m); congruence.
      * apply (H2 x p n nd); congruence.
      * by apply (H2 x y n m).
Qed.

Lemma kinv_pipe_read k F p n : kinv k F ->
  wp (ramfs_pipe_read p n) (fsys k) (fun _ s' => kinv (set_fsys s' k) F).
Proof.
  intros Hk. destruct (decide (i_type (inode_at (fsys k) p) = RF_PIPE)) as [Hty|Hty].
  2: { unfold ramfs_pipe_read. apply wp_bind, wp_get_inode. rewrite bool_decide_eq_false_2 by done. cbn [negb]. apply wp_ret.
       by destruct k. }
  assert (exists nd, kobjs k !! p = Some (OInode nd)) as [nd Hn].
  { unfold inode_at in Hty. destruct (kobjs k !! p) as [[]|]; try done. eauto. }
  rewrite (inode_at_Some _ _ _ Hn) in Hty.
  destruct (proj1 (ki_pipes _ _ Hk) p nd Hn Hty) as (q & nd0 & ring & Hn0 & _ & Hring & Hok & Hq).
  assert (nd0 = nd) by congruence. subst nd0.
  unfold ramfs_pipe_read, upd_inode. apply wp_bind, wp_get_inode. rewrite (inode_at_Some _ _ _ Hn).
  rewrite bool_decide_eq_true_2 by done. cbn [negb]. apply wp_bind, wp_gets.
  assert (Hra : ring_at (fsys k) (i_pbuf nd) = ring) by (unfold ring_at; by rewrite Hring). rewrite Hra.
  pose proof (pipe_take_spec (Z.to_nat n) ring _ _ _ Hok) as Htake.
  destruct (pipe_take _ ring _ _) as [[l t] z]. destruct Htake as (_ & Hok' & _). wp_steps.
  rewrite (inode_at_Some _ _ _ Hn).
  set (nd2 := set_ring (i_pbuf nd) (i_phead nd) t z nd).
  assert (Hne : i_pbuf nd <> p) by congruence.
  eapply (kinv_pipe k F _ p nd nd2 ring ring (queue ring t z)); try done.
  - cbn. by rewrite (insert_id (kobjs k) (i_pbuf nd)) by done.
  - exists nd2, ring. cbn. rewrite lookup_insert_eq, lookup_insert_ne by done. done.
Qed.

Lemma kinv_pipe_write k F p src : kinv k F ->
  wp (ramfs_pipe_write p src) (fsys k) (fun _ s' => kinv (set_fsys s' k) F).
Proof.
  intros Hk. destruct (decide (i_type (inode_at (fsys k) p) = RF_PIPE)) as [Hty|Hty].
  2: { unfold ramfs_pipe_write. apply wp_bind, wp_get_inode. rewrite bool_decide_eq_false_2 by done. cbn [negb]. apply wp_ret.
       by destruct k. }
  assert (exists nd, kobjs k !! p = Some (OInode nd)) as [nd Hn].
  { unfold inode_at in Hty. destruct (kobjs k !! p) as [[]|]; try done. eauto. }
  rewrite (inode_at_Some _ _ _ Hn) in Hty.
  destruct (proj1 (ki_pipes _ _ Hk) p nd Hn Hty) as (q & nd0 & ring & Hn0 & _ & Hring & Hok & Hq).
  assert (nd0 = nd) by congruence. subst nd0.
  unfold ramfs_pipe_write, upd_inode, put_obj. apply wp_bind, wp_get_inode. rewrite (inode_at_Some _ _ _ Hn).
  rewrite bool_decide_eq_true_2 by done. cbn [negb]. destruct (i_rd_open nd =? 0); [apply wp_ret; by destruct k|].
  apply wp_bind, wp_gets.
  assert (Hra : ring_at (fsys k) (i_pbuf nd) = ring) by (unfold ring_at; by rewrite Hring). rewrite Hra.
  pose proof (pipe_put_spec src ring _ _ _ Hok) as Hput.
  destruct (pipe_put src ring _ _) as [[[r h] z] c]. destruct Hput as (_ & Hok' & _). wp_steps.
  assert (Hne : i_pbuf nd <> p) by congruence.
  rewrite (inode_at_Some _ p nd) by (cbn; by rewrite lookup_insert_ne).
  set (nd2 := set_ring (i_pbuf nd) h (i_ptail nd) z nd).
  eapply (kinv_pipe k F _ p nd nd2 ring r (queue r (i_ptail nd) z)); try done.
  exists nd2, r. cbn. rewrite lookup_insert_eq, lookup_insert_ne, lookup_insert_eq by done. done.
Qed.

(** The objects are the same: only the memory behind them moved. *)
Lemma kinv_same k F s' : kinv k F -> mem_ok s' F -> objs s' = kobjs k -> root s' = root (fsys k) -> kinv (set_fsys s' k) F.
Proof.
  intros [Hf Hd Ht Hl Hp Hc] Hm Ho Hr. split; try done; cbn [fsys set_fsys psch].
  - apply (files_kept k _ F F); try done; cbn [fsys set_fsys]; rewrite Ho; eauto. intros q n Hq Hty. left. eauto.
  - apply (data_ok_extend (fsys k)); [done|done|..]; unfold reg; rewrite Ho; auto.
  - by eapply same_objs_tree.
  - destruct Hl as [L1 L2]. unfold links_ok, is_dir. rewrite Ho, Hr. done.
  - eapply pipes_kept; [| |exact Hp]; rewrite Ho; [|done]. intros q n Hq _. by exists n.
Qed.

(** A new pipe [p] with ring [b]. *)
Lemma kinv_new_pipe k F s' p b nd ring0 :
  kinv k F -> mem_ok s' F -> root s' = root (fsys k) -> kobjs k !! p = None -> kobjs k !! b = None -> p <> b ->
  objs s' = <[p := OInode nd]> (<[b := ORing ring0]> (kobjs k)) ->
  length ring0 = Z.to_nat PIPE_CAP -> i_type nd = RF_PIPE -> i_pbuf nd = b -> i_phead nd = 0 -> i_ptail nd = 0 -> i_size nd = 0 ->
  i_wr_open nd = 0 -> i_rd_open nd = 0 -> kinv (set_fsys s' k) F.
Proof.
  intros [Hf Hd Ht Hl Hp Hc] Hm Hr Hpf Hbf Hpb Ho Hlen Hty Hbuf Hh Htl Hsz Hw Hrd.
  assert (Hold : forall x o, kobjs k !! x = Some o -> objs s' !! x = Some o).
  { intros x o Hx. rewrite Ho, !lookup_insert_ne; [done|congruence|congruence]. }
  assert (Hnew : forall x o, objs s' !! x = Some o -> (forall l, o <> ORing l) -> kobjs k !! x = Some o \/ (x = p /\ o = OInode nd)).
  { intros x o. rewrite Ho, !lookup_insert_Some. intros [[<- <-]|[_ [[_ <-]|[_ ?]]]] Hn; [by right|naive_solver|by left]. }
  assert (Htk : tree_kept (fsys k) s').
  { split; [|intros x d Hx; by apply Hold| |done].
    - intros x n. unfold is_dir. split; intros [Hx E]; (split; [|done]); [|by apply Hold].
      destruct (Hnew x _ Hx) as [?|[_ [= ->]]]; [done|done|congruence].
    - intros x n Hx. exists n. by apply Hold. }
  destruct (tree_kept_ok _ _ Htk Ht Hl) as [Ht' Hl']. split; try done; cbn [fsys set_fsys psch].
  - apply (files_kept k _ F F); try done.
    + intros x f. split; [|by apply Hold]. intros Hx. destruct (Hnew x _ Hx) as [?|[_ ?]]; done.
    + intros x n Hx. exists n. by apply Hold.
    + intros x n Hx Hxt. destruct (Hnew x _ Hx) as [?|[-> [= ->]]]; [done|left; eauto|by right].
  - apply (data_ok_extend (fsys k)); [done|done| |].
    + intros x n [Hx E]. destruct (Hnew x _ Hx) as [?|[_ [= ->]]]; [done|left; by split|congruence].
    + intros x n Hx Hz. destruct (dk_vec _ _ Hd x n Hx) as (_ & _ & [[_ ?]|(_ & l & Hv & _)]); [done|].
      rewrite Hv. by apply Hold.
  - destruct Hp as [H1 H2]. split.
    + intros x n Hx Hxt. destruct (Hnew x _ Hx) as [Hx'|[-> [= ->]]]; [done| |].
      * destruct (H1 x n Hx' Hxt) as (q & n0 & ring & Hn0 & _ & Hrx & Hok & ->). assert (n0 = n) by congruence. subst n0.
        eexists. exists n, ring. split; [done|]. split; [done|]. split; [by apply Hold|done].
      * eexists. exists nd, ring0. split; [done|]. split; [done|].
        split; [rewrite Ho, Hbuf, lookup_insert_ne by done; apply lookup_insert_eq|]. split; [|reflexivity].
        rewrite Hh, Htl, Hsz. unfold ring_ok. rewrite Hlen. unfold PIPE_CAP. split; [reflexivity|]. split; [lia|]. split; [lia|reflexivity].
    + assert (Hfresh : forall x n, kobjs k !! x = Some (OInode n) -> i_type n = RF_PIPE -> i_pbuf n <> b).
      { intros x n Hx Hxt Heq. destruct (H1 x n Hx Hxt) as (q & n0 & ring & Hn0 & _ & Hrx & _).
        assert (n0 = n) by congruence. subst n0. congruence. }
      intros x y n m Hx Hxt Hy Hyt Heq.
      destruct (Hnew x _ Hx) as [Hx'|[-> [= ->]]], (Hnew y _ Hy) as [Hy'|[-> [= ->]]]; try done.
      * by apply (H2 x y n m).
      * by destruct (Hfresh x n Hx' Hxt); congruence.
      * by destruct (Hfresh y m Hy' Hyt); congruence.
Qed.

Lemma kinv_ramfs_pipe k F : kinv k F ->
  wp ramfs_pipe (fsys k) (fun r s' => kinv (set_fsys s' k) F /\
    (r <> 0 -> exists n, objs s' !! r = Some (OInode n) /\ i_type n = RF_PIPE)).
Proof.
  intros Hk. unfold ramfs_pipe. pose proof (fo_mem _ _ _ (ki_files _ _ Hk)) as Hm.
  apply wp_bind. eapply wp_mono; [by apply inode_new_spec|].
  intros p s1 [[-> ->]|(Hp0 & Hpf & Ho1 & Hm1 & _ & Hr1)]; cbn beta.
  { rewrite Z.eqb_refl. apply wp_ret. split; [by destruct k|done]. }
  rewrite (proj2 (Z.eqb_neq _ _)) by done. apply wp_bind. unfold in_mem at 1. apply wp_zoom.
  eapply wp_mono; [apply (km_alloc_spec _ F (dom (objs s1))); [exact Hm1|unfold PIPE_CAP, KM_MAX, PAGE_SIZE; lia]|].
  intros b m [[-> ->]|(Hb0 & Hbf & Hkm & _)]; cbn beta.
  - rewrite Z.eqb_refl, set_fmem_id. eapply wp_mono; [by eapply undo_new|]. intros r s2 (-> & Ho2 & Hm2 & _ & Hr2).
    split; [|done]. apply kinv_same; try done. congruence.
  - rewrite (proj2 (Z.eqb_neq _ _)) by done. apply not_elem_of_dom in Hbf.
    assert (Hlen : length (replicate (Z.to_nat PIPE_CAP) 0) = Z.to_nat PIPE_CAP) by apply length_replicate.
    revert Hlen. generalize (replicate (Z.to_nat PIPE_CAP) 0). intros ring0 Hlen.
    apply wp_bind, wp_put_obj, wp_bind, wp_upd_inode, wp_ret.
    match goal with |- kinv (set_fsys ?u k) F /\ _ => set (s3 := u) end.
    assert (Hpb : p <> b) by (intros ->; rewrite Ho1, lookup_insert_eq in Hbf; done).
    assert (Hbk : kobjs k !! b = None) by (rewrite Ho1, lookup_insert_ne in Hbf; done).
    set (nd := set_open 0 0 (set_ring b 0 0 0 (new_inode RF_PIPE (next_ino (fsys k)) 4480))).
    assert (Ho3 : objs s3 = <[p := OInode nd]> (<[b := ORing ring0]> (kobjs k))).
    { unfold s3. cbn [objs set_objs set_fmem]. unfold inode_at. cbn [objs set_objs set_fmem].
      rewrite Ho1, (lookup_insert_ne _ b p), lookup_insert_eq by done. apply map_eq. intros x.
      destruct (decide (x = p)) as [->|Hx]; [by rewrite !lookup_insert_eq|]. rewrite !(lookup_insert_ne _ p x) by done.
      destruct (decide (x = b)) as [->|Hxb]; [by rewrite !lookup_insert_eq|]. by rewrite !lookup_insert_ne. }
    assert (Hm3 : mem_ok s3 F).
    { unfold mem_ok. rewrite Ho3, !dom_insert_L. change (fmem s3) with m. rewrite Ho1, dom_insert_L in Hkm.
      replace ({[p]} ∪ ({[b]} ∪ dom (kobjs k))) with ({[b]} ∪ ({[p]} ∪ dom (kobjs k))) by set_solver. done. }
    assert (Hr3 : root s3 = root (fsys k)) by done. clearbody s3. split.
    + by apply (kinv_new_pipe k F s3 p b nd ring0).
    + intros _. exists nd. rewrite Ho3, lookup_insert_eq. done.
Qed.

(** * Names lead to inodes *)

Definition valid s (p : Z) : Prop := exists n, objs s !! p = Some (OInode n).

Lemma find_entry_in fuel s name d l : dlist s d l ->
  find_entry fuel s name d = 0 \/ exists e, e ∈ l /\ find_entry fuel s name d = e_inode e.
Proof.
  revert d l. induction fuel as [|fuel IH]; intros d l Hl; [by left|]. cbn [find_entry].
  destruct (Z.eqb_spec d 0); [by left|]. destruct l as [|e l]; [done|]. destruct Hl as (-> & _ & nx & Ho & Hl).
  unfold dirent_at. rewrite Ho. cbn [d_name d_inode d_next].
  destruct (strcmp (e_name e) name =? 0); [right; exists e; split; [set_solver|done]|].
  destruct (IH nx l Hl) as [?|(e' & He' & Heq)]; [by left|right]. exists e'. split; [set_solver|done].
Qed.

Lemma child_valid s p c : tree_ok s -> links_ok s -> ramfs_child s p c <> 0 -> valid s (ramfs_child s p c).
Proof.
  intros Ht Hl. unfold ramfs_child. destruct (p =? 0); cbn [orb]; [done|].
  case_bool_decide as Hty; cbn [negb]; [|done]. pose proof (dir_at s p Hty) as Hd.
  destruct (strcmp c dot =? 0); [intros _; eexists; apply Hd|].
  destruct (strcmp c dotdot =? 0); [intros _; by apply (proj2 Hl p)|].
  destruct (Ht p _ Hd) as (l & Hdl & _ & Hin). intros Hz.
  destruct (find_entry_in (Datatypes.S (size (objs s))) s c _ l Hdl) as [?|(e & He & ->)]; [done|].
  rewrite Forall_forall in Hin. by apply Hin.
Qed.

Lemma resolves_valid s cur cs follow j r : tree_ok s -> links_ok s ->
  steps_to s cur cs follow j r -> (cs = [] -> valid s cur) -> valid s r.
Proof.
  intros Ht Hl Hres.
  induction Hres as [cur follow|cur c cs follow j r child Hc Hd Hlen Hch Hch0 Hn Hres IH
                    |cur c cs follow k1 k2 r child tgt mid Hc Hd Hlen Hch Hch0 Hlnk Hfol Htgt Hr1 IH1 Hmid Hr2 IH2]; intros Hv.
  - by apply Hv.
  - apply IH. intros _. rewrite Hch. apply child_valid; [done|done|congruence].
  - apply IH2. intros _. apply IH1. intros _. unfold start_at. destruct (starts_slash tgt); [apply Hl|].
    destruct (cur =? 0); [apply Hl|]. eexists. apply (dir_at s cur Hd).
Qed.

Lemma lookup_valid s start path follow : tree_ok s -> links_ok s -> path <> [] ->
  ramfs_lookup s start path follow <> 0 -> valid s (ramfs_lookup s start path follow).
Proof.
  intros Ht Hl Hp Hr. unfold ramfs_lookup in *.
  destruct (lookup_b _ _ _ _ _ _) as [r b'] eqn:E. cbn [fst] in *. apply lookup_b_sound in E as [_ Hres]; [|unfold SYMLINK_MAX; lia|done].
  eapply resolves_valid; [done|done|exact Hres|]. intros Hnil. unfold start_at.
  destruct (starts_slash path) eqn:Es; [apply Hl|]. by apply components_nil in Hnil.
Qed.

Lemma resolve_at_spec k F dirfd path follow : kinv k F -> path <> [] ->
  wp (resolve_at dirfd path follow) k (fun r k' => k' = k /\ (r <> 0 -> valid (fsys k) r)).
Proof.
  intros Hk Hp. pose proof (ki_tree _ _ Hk) as Ht. pose proof (ki_links _ _ Hk) as Hl. unfold resolve_at, vfs_resolve.
  destruct (starts_slash path); [apply wp_gets; split; [done|]; by apply lookup_valid|].
  destruct (dirfd =? AT_FDCWD); [unfold proc_cwd; wp_steps; split; [done|]; by apply lookup_valid|].
  unfold my_fd, me, fd_get. wp_steps. destruct (_ || _); wp_steps; (split; [done|]); destruct (_ && _); try done; by apply lookup_valid.
Qed.
End inv.
