(* ===== verification/FsCalls.v ===== *)
(** Theorems on the file system calls: the invariant of the file layer. *)

From stdpp Require Import gmap list fin_maps.
From Stdlib Require Import ZArith Lia.
From S2P Require Import Prelude Memory Frames Pmm Kmalloc Heap KernMem Ramfs RamfsPipe RamfsData RamfsTree RamfsFiles RamfsPaths Proc File FsSyscall FsInv.

Section calls.
Context {S : Type} {KM : KMem S} {KS : KMemSpec S}.
Implicit Types (s : fs S) (k : fp S) (F : gset Z).

Abbreviation kobjs k := (objs (fsys k)).

(** A stretch of code that only opens, shares and closes files. *)
Definition fstep k F pend k' : Prop := files_ok k' F pend /\ quiet k k' /\ cur (psch k') = cur (psch k).

Lemma fstep_refl k F pend : files_ok k F pend -> fstep k F pend k.
Proof. intros H. split; [done|]. split; [apply quiet_refl|done]. Qed.

Lemma fstep_trans k1 k2 k3 F pend pend' : fstep k1 F pend k2 -> fstep k2 F pend' k3 -> fstep k1 F pend' k3.
Proof. intros (H1 & H2 & H3) (G1 & G2 & G3). split; [done|]. split; [by eapply quiet_trans|congruence]. Qed.

Lemma fstep_kinv k F k' : kinv k F -> fstep k F none k' -> kinv k' F.
Proof. intros Hk (H1 & H2 & H3). by apply (kinv_quiet k). Qed.

Lemma woken_cur ch (s s' : sched) : maybe_woken ch s s' -> cur s' = cur s.
Proof. by intros [->| ->]. Qed.

Lemma quiet_fsys k k' : fsys k' = fsys k -> quiet k k'.
Proof. intros H. unfold quiet. rewrite H. apply quiet_refl. Qed.

(** ** The steps *)

Lemma step_open k F pend ino flags : files_ok k F pend -> valid (fsys k) ino ->
  wp (file_open_inode ino flags) k (fun r k' =>
    (r = 0 /\ fstep k F pend k') \/ (r <> 0 /\ fstep k F (add r pend) k' /\ exists f, kobjs k' !! r = Some (OFile f))).
Proof.
  intros Hk [n Hn]. eapply wp_mono; [by eapply file_open_spec|].
  intros r k' [[-> ->]|(Hr & _ & H1 & H2 & H3 & H4 & _)]; [left; split; [done|by apply fstep_refl]|right].
  split; [done|]. split; [|eauto]. split; [done|]. split; [done|]. by rewrite H4.
Qed.

Lemma step_dup k F pend p f : files_ok k F pend -> kobjs k !! p = Some (OFile f) ->
  wp (file_dup p) k (fun r k' => r = p /\ fstep k F (add p pend) k' /\ exists f', kobjs k' !! p = Some (OFile f')).
Proof.
  intros Hk Hp. eapply wp_mono; [by eapply file_dup_spec|]. intros r k' (-> & H1 & H2 & H3). split; [done|].
  split; [split; [done|]; split; [done|]; by rewrite H3|].
  apply (fo_ref _ _ _ H1); [exact (obj_nonzero _ _ _ _ _ Hk Hp)|]. rewrite refs_add, decide_True by done.
  pose proof (fo_cnt _ _ _ Hk p f Hp) as [Hc Hc0]. unfold refs in *. rewrite H3. lia.
Qed.

Lemma step_close k F pend p f : files_ok k F (add p pend) -> kobjs k !! p = Some (OFile f) ->
  wp (file_close p) k (fun _ k' => fstep k F pend k').
Proof.
  intros Hk Hp. eapply wp_mono; [by eapply file_close_spec|]. intros [] k' (H1 & H2 & _ & H4 & _).
  split; [done|]. split; [done|]. by eapply woken_cur.
Qed.

Lemma step_alloc k F pend i f min : files_ok k F (add f pend) -> (i < NPROC)%nat ->
  wp (fd_alloc_from i f min) k (fun r k' =>
    (r = -1 /\ k' = k) \/ (0 <= r < NOFILE /\ fstep k F pend k' /\ fsys k' = fsys k /\
      forall j, 0 <= j < NOFILE -> fd_slot (psch k') i j = if decide (j = r) then f else fd_slot (psch k) i j)).
Proof.
  intros Hk Hi. eapply wp_mono; [by apply fd_alloc_from_spec|].
  intros r k' [(-> & -> & _)|(Hr & H1 & H2 & H3 & _)]; [by left|right]. split; [lia|].
  split; [split; [done|]; split; [by apply quiet_fsys|by rewrite H2]|]. split; [done|].
  intros j Hj. rewrite H2, (with_fd_slot k F (add f pend)) by (done || lia).
  destruct (decide (j = r)) as [->|]; [by rewrite decide_True|]. rewrite decide_False by naive_solver. done.
Qed.

Lemma step_fd_close k F pend i fd : files_ok k F pend -> (forall p, 0 <= pend p) -> (i < NPROC)%nat ->
  wp (fd_close i fd) k (fun _ k' => fstep k F pend k').
Proof.
  intros Hk Hpos Hi. eapply wp_mono; [by apply (fd_close_spec k F pend)|].
  intros r k' [(_ & -> & _)|(_ & _ & _ & H1 & H2 & H3 & _)]; [by apply fstep_refl|]. done.
Qed.

(** A change of position, or of flags other than the access mode. *)
Lemma step_upd k F pend p f g : files_ok k F pend -> kobjs k !! p = Some (OFile f) ->
  f_inode (g f) = f_inode f -> f_flags (g f) .& 3 = f_flags f .& 3 -> f_refcnt (g f) = f_refcnt f ->
  wp (upd_file p g) k (fun _ k' => fstep k F pend k' /\ psch k' = psch k /\ kobjs k' !! p = Some (OFile (g f))).
Proof.
  intros Hk Hp H1 H2 H3. apply (wp_upd_file k p f); [done|]. intros k' Ho Hf Hr Hs.
  destruct (fo_tab _ _ _ Hk) as [Ht Hl]. destruct (fo_cnt _ _ _ Hk p f Hp) as [Hc Hc0].
  assert (Hrefs : forall q, refs k' pend q = refs k pend q) by (intros q; apply refs_sched; by rewrite Hs).
  destruct (files_ok_file k k' F pend pend p f (g f) Hk Hp Ho) as [G1 G2]; try done.
  - by rewrite Hs.
  - by rewrite Hs.
  - unfold reads. by rewrite H2.
  - unfold writes. by rewrite H2.
  - rewrite Hrefs. congruence.
  - congruence.
  - split; [split; [done|]; split; [done|by rewrite Hs]|]. split; [done|]. by rewrite Ho, lookup_insert_eq.
Qed.

(** The file behind a descriptor of the current process. *)
Lemma my_fd_spec k F fd : kinv k F ->
  wp (my_fd fd) k (fun f k' => k' = k /\ (f = 0 \/ (f <> 0 /\ exists fl, kobjs k !! f = Some (OFile fl)))).
Proof.
  intros Hk. destruct (ki_cur _ _ Hk) as (c & Hc & Hcn). unfold my_fd, me, fd_get. wp_steps. rewrite Hc. cbn [default].
  destruct (Z.ltb_spec fd 0); cbn [orb]; [wp_steps; auto|]. destruct (Z.leb_spec NOFILE fd); wp_steps; [auto|].
  split; [done|]. destruct (decide (fd_slot (psch k) c fd = 0)) as [|Hz]; [by left|right]. split; [done|].
  by apply (slot_file k F none c fd (ki_files _ _ Hk)).
Qed.

Lemma me_spec k F : kinv k F -> wp me k (fun c k' => k' = k /\ cur (psch k) = Some c /\ (c < NPROC)%nat).
Proof. intros Hk. destruct (ki_cur _ _ Hk) as (c & Hc & Hcn). unfold me. wp_steps. rewrite Hc. done. Qed.

(** ** Descriptors *)

(** Sharing a file under a new descriptor, as [dup] and [fcntl] do. *)
Lemma dup_to_spec k F f fl min : kinv k F -> kobjs k !! f = Some (OFile fl) ->
  wp (c ← me; g ← file_dup f; nfd ← fd_alloc_from c g min;
      if nfd <? 0 then file_close f ≫= fun _ => mret (- K_EMFILE) else mret nfd) k (fun _ k' => kinv k' F).
Proof.
  intros Hk Hf. apply wp_bind. eapply wp_mono; [by eapply me_spec|]. intros c ? (-> & Hc & Hcn).
  apply wp_bind. eapply wp_mono; [by apply (step_dup k F none f fl (ki_files _ _ Hk))|].
  intros g k1 (-> & S1 & f1 & Hf1). apply wp_bind.
  eapply wp_mono; [by apply (step_alloc k1 F none c f min (proj1 S1))|].
  intros r k2 [[-> ->]|(Hr & S2 & _)]; cbn [Z.ltb Z.compare].
  - apply wp_bind. eapply wp_mono; [by apply (step_close k1 F none f f1 (proj1 S1))|]. intros [] k3 S3. apply wp_ret.
    eapply fstep_kinv; [exact Hk|]. by eapply fstep_trans.
  - rewrite (proj2 (Z.ltb_ge _ _)) by lia. apply wp_ret. eapply fstep_kinv; [exact Hk|]. by eapply fstep_trans.
Qed.

Lemma sys_dup_spec k F fd : kinv k F -> wp (sys_dup fd) k (fun _ k' => kinv k' F).
Proof.
  intros Hk. unfold sys_dup. apply wp_bind. eapply wp_mono; [by eapply my_fd_spec|].
  intros f ? (-> & [->|(Hf & fl & Hfl)]); [by apply wp_ret|]. rewrite (proj2 (Z.eqb_neq _ _)) by done.
  by eapply dup_to_spec.
Qed.

Lemma sys_close_spec k F fd : kinv k F -> wp (sys_close fd) k (fun _ k' => kinv k' F).
Proof.
  intros Hk. unfold sys_close. apply wp_bind. eapply wp_mono; [by eapply me_spec|]. intros c ? (-> & Hc & Hcn).
  eapply wp_mono; [by apply (step_fd_close k F none c fd (ki_files _ _ Hk))|]. intros r k' S1. by eapply fstep_kinv.
Qed.

(** [dup2]: the file moves into the slot, what was there is closed. *)
Lemma sys_dup2_spec k F oldfd newfd : kinv k F -> wp (sys_dup2 oldfd newfd) k (fun _ k' => kinv k' F).
Proof.
  intros Hk. unfold sys_dup2. apply wp_bind. eapply wp_mono; [by eapply my_fd_spec|].
  intros f ? (-> & [->|(Hf & fl & Hfl)]); [by apply wp_ret|]. rewrite (proj2 (Z.eqb_neq f 0)) by done.
  destruct (oldfd =? newfd); [by apply wp_ret|].
  destruct (Z.ltb_spec newfd 0); cbn [orb]; [by apply wp_ret|]. destruct (Z.leb_spec NOFILE newfd) as [|Hhi]; [by apply wp_ret|].
  apply wp_bind. eapply wp_mono; [by eapply me_spec|]. intros c ? (-> & Hc & Hcn).
  apply wp_bind. eapply wp_mono; [by apply (step_dup k F none f fl (ki_files _ _ Hk))|].
  intros g k1 (-> & S1 & f1 & Hf1). unfold fd_install_at.
  rewrite (proj2 (Z.ltb_ge newfd 0)), (proj2 (Z.leb_gt NOFILE newfd)) by lia. cbn [orb]. apply wp_bind, wp_gets.
  destruct (Z.eqb_spec (fd_slot (psch k1) c newfd) 0) as [Hz|Hz]; cbn [negb].
  - apply wp_bind, wp_ret, wp_bind. eapply wp_mono; [apply (set_fd_spec k1 F _ c newfd f (proj1 S1) Hcn); lia|].
    intros [] k2 (H1 & H2 & H3). apply wp_ret. eapply fstep_kinv; [exact Hk|]. eapply fstep_trans; [exact S1|].
    split; [|split; [by apply quiet_fsys|by rewrite H2]]. eapply files_ok_ext; [exact H3|].
    intros p Hp. unfold sub, add. rewrite Hz, (decide_False (P := 0 = p)) by done. lia.
  - destruct (slot_file k1 F (add f none) c newfd (proj1 S1)) as [fo Hfo]; [|done|lia|done|].
    { intros p. unfold add, none. case_decide; lia. }
    apply wp_assoc, wp_bind.
    eapply wp_mono; [apply (replace_fd_spec k1 F none c newfd f fo (proj1 S1)); [done|done|lia|done]|].
    intros [] k2 (H1 & H2 & _ & s & Hw & Hs). apply wp_ret. eapply fstep_kinv; [exact Hk|]. eapply fstep_trans; [exact S1|].
    split; [done|]. split; [done|]. rewrite Hs. exact (woken_cur _ _ _ Hw).
Qed.

(** [fcntl]: setting flags must keep the access mode. *)
Lemma sys_fcntl64_spec k F fd cmd arg : kinv k F ->
  (cmd = F_SETFL -> forall f fl, kobjs k !! f = Some (OFile fl) -> (my_fd fd k).1 = f -> arg .& 3 = f_flags fl .& 3) ->
  wp (sys_fcntl64 fd cmd arg) k (fun _ k' => kinv k' F).
Proof.
  intros Hk Hset. unfold sys_fcntl64. apply wp_bind. apply wp_self. intros f k0 Heq.
  destruct (wp_eq _ _ _ _ _ Heq (my_fd_spec k F fd Hk)) as (-> & [->|(Hf & fl & Hfl)]); [by apply wp_ret|].
  rewrite (proj2 (Z.eqb_neq f 0)) by done. destruct (_ || _) eqn:Ed; [by eapply dup_to_spec|].
  destruct (cmd =? F_GETFD); [by apply wp_ret|]. destruct (cmd =? F_SETFD); [by apply wp_ret|].
  destruct (cmd =? F_GETFL); [by apply wp_gets|]. destruct (Z.eqb_spec cmd F_SETFL) as [Hc|]; [|by apply wp_ret].
  apply wp_bind. eapply wp_mono; [apply (step_upd k F none f fl (set_fflags arg) (ki_files _ _ Hk) Hfl); try done|].
  - cbn. apply (Hset Hc f fl Hfl). by rewrite Heq.
  - intros [] k' (S1 & _). apply wp_ret. by eapply fstep_kinv.
Qed.

(** ** Opening *)

Lemma cstr_ok_take n (c : cstr) : cstr_ok c -> cstr_ok (take n c).
Proof. apply Forall_take. Qed.
Lemma cstr_ok_drop n (c : cstr) : cstr_ok c -> cstr_ok (drop n c).
Proof. apply Forall_drop. Qed.

Lemma parent_of_fits s cwd path : cstr_ok path -> name_fits (parent_of s cwd path 64).2.
Proof.
  intros Hp. unfold parent_of. destruct (last_slash path 0 <? 0); cbn [snd]; unfold strlcpy_;
    rewrite strlcpy_copy_take; (split; [by repeat first [apply cstr_ok_take|apply cstr_ok_drop]|]);
    rewrite length_take; unfold NAME_CAP; lia.
Qed.

Lemma open_target_spec k F dirfd path flags mode : kinv k F -> path <> [] -> cstr_ok path ->
  wp (open_target dirfd path flags mode) k (fun t k' => exists F', kinv k' F' /\ (t.1 <> 0 -> valid (fsys k') t.1)).
Proof.
  intros Hk Hp Hok. unfold open_target. apply wp_bind. eapply wp_mono; [by eapply resolve_at_spec|].
  intros ino ? (-> & Hv). destruct (Z.eqb_spec ino 0) as [->|Hi].
  - destruct (negb (has_flag flags O_CREAT)); [apply wp_ret; exists F; split; [done|cbn; done]|].
    unfold proc_cwd. do 3 (apply wp_bind, wp_gets). set (dl := parent_of _ _ _ _).
    destruct (Z.eqb_spec dl.1 0) as [|Hd0]; cbn [orb]; [apply wp_ret; exists F; split; [done|cbn; done]|].
    case_bool_decide as Hty; cbn [negb]; [|apply wp_ret; exists F; split; [done|cbn; done]].
    apply wp_bind. unfold in_fs. apply wp_zoom. pose proof (dir_at _ _ Hty) as Hdir.
    eapply wp_mono; [eapply (mkreg_spec _ F dl.1 _ dl.2); [apply (ki_files _ _ Hk)|apply Hdir]|].
    intros r s' Hpost. cbn beta. destruct (kinv_create k F dl.1 _ dl.2 r s' _ _ Hk Hdir (parent_of_fits _ _ _ Hok) Hpost) as [Hk' Hv'].
    destruct (Z.eqb_spec r 0) as [->|Hr]; apply wp_ret; exists F; (split; [done|]); [cbn; done|]. intros _. by apply Hv'.
  - apply wp_bind, wp_gets. destruct (_ && _); [apply wp_ret; exists F; split; [done|cbn; done]|].
    destruct (Hv Hi) as [n Hn]. rewrite (inode_at_Some _ _ _ Hn).
    destruct (has_flag flags O_TRUNC && bool_decide (i_type n = RF_REG)) eqn:Et.
    + apply andb_true_iff in Et as [_ Hty]. apply bool_decide_eq_true in Hty. apply wp_bind, wp_bind. unfold in_fs. apply wp_zoom.
      eapply wp_mono; [apply (ramfs_truncate_spec _ F ino n 0 (ki_data _ _ Hk)); [done|lia]|].
      intros r s' (F' & nd' & Hd' & Hr' & Hrest & _). apply wp_ret, wp_ret. exists F'. split; [|intros _; exists nd'; apply Hr'].
      by apply (kinv_reg k F s' F' ino n nd').
    + apply wp_bind, wp_ret, wp_ret. exists F. split; [done|]. intros _. by exists n.
Qed.

Lemma sys_openat_spec k F dirfd path flags mode : kinv k F -> cstr_ok path ->
  wp (sys_openat dirfd path flags mode) k (fun _ k' => exists F', kinv k' F').
Proof.
  intros Hk Hok. unfold sys_openat. destruct path as [|x path]; [apply wp_ret; eauto|]. cbn [is_nil].
  apply wp_bind. eapply wp_mono; [by eapply open_target_spec|]. intros [ino e] k1 (F1 & Hk1 & Hv). cbn [fst snd] in *.
  destruct (Z.eqb_spec ino 0) as [|Hi]; [apply wp_ret; eauto|]. apply wp_bind.
  eapply wp_mono; [apply (step_open k1 F1 none ino _ (ki_files _ _ Hk1)); by apply Hv|].
  intros f k2 [(-> & S1)|(Hf & S1 & fl & Hfl)].
  { apply wp_ret. exists F1. by eapply fstep_kinv. }
  rewrite (proj2 (Z.eqb_neq f 0)) by done. apply wp_bind, wp_gets. apply wp_bind.
  eapply (wp_mono _ _ (fun _ k3 => fstep k1 F1 (add f none) k3 /\ exists fl, kobjs k3 !! f = Some (OFile fl))).
  { destruct (_ && _); [|apply wp_ret; eauto].
    eapply wp_mono; [by apply (step_upd k2 F1 (add f none) f fl (set_off _) (proj1 S1) Hfl)|].
    intros [] k3 (S2 & _ & H). split; [by eapply fstep_trans|eauto]. }
  intros [] k3 (S2 & fl3 & Hfl3). apply wp_bind. destruct (ki_cur _ _ Hk1) as (c & Hc & Hcn). unfold me. apply wp_gets.
  rewrite (proj2 (proj2 S2)), Hc. cbn [default]. apply wp_bind.
  eapply wp_mono; [by apply (step_alloc k3 F1 none c f 0 (proj1 S2))|].
  intros r k4 [[-> ->]|(Hr & S3 & _)]; cbn [Z.ltb Z.compare].
  - apply wp_bind. eapply wp_mono; [by apply (step_close k3 F1 none f fl3 (proj1 S2))|]. intros [] k5 S5. apply wp_ret.
    exists F1. eapply fstep_kinv; [exact Hk1|]. by eapply fstep_trans.
  - rewrite (proj2 (Z.ltb_ge _ _)) by lia. apply wp_ret. exists F1. eapply fstep_kinv; [exact Hk1|]. by eapply fstep_trans.
Qed.

(** ** Pipes *)

(** A file that is open stays so when other files are opened or closed. *)
Lemma still_open k F p pend : files_ok k F (add p pend) -> p <> 0 -> (forall q, 0 <= pend q) -> exists f, kobjs k !! p = Some (OFile f).
Proof.
  intros Hk Hp Hpos. apply (fo_ref _ _ _ Hk); [done|]. rewrite refs_add, decide_True by done.
  unfold refs. pose proof (occ_nonneg p (all_fds (psch k))). specialize (Hpos p). lia.
Qed.

Lemma add_pos p pend : (forall q, 0 <= pend q) -> forall q, 0 <= add p pend q.
Proof. intros H q. unfold add. specialize (H q). case_decide; lia. Qed.

Lemma none_pos q : 0 <= none q.
Proof. done. Qed.

Lemma step_close' k F pend p : files_ok k F (add p pend) -> p <> 0 -> (forall q, 0 <= pend q) ->
  wp (file_close p) k (fun _ k' => fstep k F pend k').
Proof. intros Hk Hp Hpos. destruct (still_open k F p pend Hk Hp Hpos) as [f Hf]. by eapply step_close. Qed.

Lemma add_comm k F p q pend : files_ok k F (add p (add q pend)) -> files_ok k F (add q (add p pend)).
Proof. intros H. eapply files_ok_ext; [exact H|]. intros x _. unfold add. lia. Qed.

(** Giving back a descriptor, or the file if there was none. *)
Lemma give_back_spec k F pend c fd f :
  (0 <= fd -> files_ok k F pend) -> (fd < 0 -> files_ok k F (add f pend)) -> f <> 0 -> (forall q, 0 <= pend q) -> (c < NPROC)%nat ->
  wp (if 0 <=? fd then fd_close c fd ≫= fun _ => mret tt else file_close f) k (fun _ k' => fstep k F pend k').
Proof.
  intros H1 H2 Hf Hpos Hc. destruct (Z.leb_spec 0 fd) as [Hfd|Hfd].
  - apply wp_bind. eapply wp_mono; [by apply (step_fd_close k F pend c fd (H1 Hfd))|]. intros r k' H. by apply wp_ret.
  - by apply (step_close' k F pend f (H2 Hfd)).
Qed.

Lemma step_alloc' k F pend i f : files_ok k F (add f pend) -> (i < NPROC)%nat ->
  wp (fd_alloc i f) k (fun r k' =>
    (r < 0 /\ fstep k F (add f pend) k') \/ (0 <= r /\ fstep k F pend k')).
Proof.
  intros Hk Hi. eapply wp_mono; [by apply (step_alloc k F pend i f 0)|].
  intros r k' [[-> ->]|(Hr & H & _)]; [left; split; [lia|by apply fstep_refl]|right; split; [lia|done]].
Qed.

(** The descriptors of a pipe: both, or neither. *)
Lemma pipe2_install_spec k F rf wf c :
  files_ok k F (add rf (add wf none)) -> rf <> 0 -> wf <> 0 -> (c < NPROC)%nat ->
  wp (rfd ← fd_alloc c rf; wfd ← fd_alloc c wf;
      if (rfd <? 0) || (wfd <? 0) then
        (if 0 <=? rfd then fd_close c rfd ≫= fun _ => mret tt else file_close rf) ≫= fun _ =>
        (if 0 <=? wfd then fd_close c wfd ≫= fun _ => mret tt else file_close wf) ≫= fun _ =>
        mret (- K_EMFILE, [])
      else mret (0, le_bytes 4 rfd ++ le_bytes 4 wfd)) k (fun _ k' => fstep k F none k').
Proof.
  intros Hk Hr Hw Hc. apply wp_bind. eapply wp_mono; [by apply (step_alloc' k F (add wf none) c rf)|]. intros rfd k1 H1.
  assert (exists pend, fstep k F (add wf pend) k1 /\ (rfd < 0 /\ pend = add rf none \/ 0 <= rfd /\ pend = none)) as (pend & S1 & Hp1).
  { destruct H1 as [[Hneg S1]|[Hpos S1]]; [|eauto]. exists (add rf none). split; [|by left].
    destruct S1 as [Hf Hq]. split; [by apply add_comm|done]. }
  assert (Hpos : forall q, 0 <= pend q) by (destruct Hp1 as [[_ ->]|[_ ->]]; [by apply add_pos|done]).
  apply wp_bind. eapply wp_mono; [by apply (step_alloc' k1 F pend c wf (proj1 S1))|]. intros wfd k2 H2.
  destruct ((rfd <? 0) || (wfd <? 0)) eqn:E.
  - assert (exists pend', fstep k F pend' k2 /\ (forall q, 0 <= pend' q) /\
      ((wfd < 0 /\ forall q, pend' q = add wf pend q) \/ (0 <= wfd /\ pend' = pend))) as (pend' & S2 & Hpos' & Hp2).
    { destruct H2 as [[Hneg S2]|[Hps S2]].
      - exists (add wf pend). split; [by eapply fstep_trans|]. split; [by apply add_pos|]. by left.
      - exists pend. split; [by eapply fstep_trans|]. split; [done|]. by right. }
    set (rest := if decide (wfd < 0) then add wf none else none).
    assert (Hrest : forall q, 0 <= rest q) by (unfold rest; case_decide; [by apply add_pos|done]).
    assert (Hok : files_ok k2 F (if decide (rfd < 0) then add rf rest else rest)).
    { eapply files_ok_ext; [apply S2|]. intros q _. unfold rest.
      destruct Hp1 as [[? ->]|[? ->]], Hp2 as [[? Hq]|[? ->]]; rewrite ?Hq; repeat case_decide; try lia; unfold add; lia. }
    apply wp_bind. eapply wp_mono; [apply (give_back_spec k2 F rest c rfd rf); try done|].
    + intros Hx. by rewrite decide_False in Hok by lia.
    + intros Hx. by rewrite decide_True in Hok by lia.
    + intros [] k3 S3. apply wp_bind. eapply wp_mono; [apply (give_back_spec k3 F none c wfd wf); try done|].
      * intros Hx. unfold rest in S3. rewrite decide_False in S3 by lia. apply S3.
      * intros Hx. unfold rest in S3. rewrite decide_True in S3 by lia. apply S3.
      * intros [] k4 S4. apply wp_ret. eapply fstep_trans; [exact S2|]. by eapply fstep_trans.
  - apply orb_false_iff in E as [E1 E2]. apply Z.ltb_ge in E1, E2. apply wp_ret.
    destruct Hp1 as [[? _]|[_ ->]]; [lia|]. destruct H2 as [[? _]|[_ S2]]; [lia|]. by eapply fstep_trans.
Qed.

Lemma sys_pipe2_spec k F u : kinv k F -> wp (sys_pipe2 u) k (fun _ k' => exists F', kinv k' F').
Proof.
  intros Hk. unfold sys_pipe2. destruct (u =? 0); [apply wp_ret; eauto|]. apply wp_bind. unfold in_fs at 1. apply wp_zoom.
  eapply wp_mono; [by apply (kinv_ramfs_pipe k F)|]. intros p s1 [Hk1 Hv]. cbn beta.
  destruct (Z.eqb_spec p 0) as [|Hp]; [apply wp_ret; eauto|]. destruct (Hv Hp) as (n & Hn & _).
  set (k1 := set_fsys s1 k) in *. assert (Hv1 : valid (fsys k1) p) by (by exists n). clearbody k1.
  enough (He : forall R (c : M (fp S) R), wp c k1 (fun _ k' => fstep k1 F none k') -> wp c k1 (fun _ k' => exists F', kinv k' F')).
  2: { intros R c H. eapply wp_mono; [exact H|]. intros r k' S1. exists F. by eapply fstep_kinv. }
  apply He. clear He. apply wp_bind.
  eapply wp_mono; [by apply (step_open k1 F none p O_RDONLY (ki_files _ _ Hk1))|]. intros rf k2 Hrf. apply wp_bind.
  assert (Hv2 : quiet k1 k2 -> valid (fsys k2) p).
  { intros Hq. destruct Hv1 as [n1 Hn1]. apply (tk_ino _ _ (quiet_tree _ _ Hq) p n1 Hn1). }
  destruct Hrf as [(-> & S2)|(Hr & S2 & _)].
  - eapply wp_mono; [apply (step_open k2 F none p O_WRONLY (proj1 S2)); apply Hv2, S2|]. intros wf k3 Hwf.
    cbn [orb negb Z.eqb]. apply wp_bind, wp_ret, wp_bind. destruct Hwf as [(-> & S3)|(Hw & S3 & _)].
    + cbn [negb Z.eqb]. apply wp_ret, wp_ret. by eapply fstep_trans.
    + rewrite (proj2 (Z.eqb_neq wf 0)) by done. cbn [negb].
      eapply wp_mono; [by apply (step_close' k3 F none wf (proj1 S3) Hw)|]. intros [] k4 S4. apply wp_ret.
      eapply fstep_trans; [exact S2|]. by eapply fstep_trans.
  - eapply wp_mono; [apply (step_open k2 F _ p O_WRONLY (proj1 S2)); apply Hv2, S2|]. intros wf k3 Hwf.
    rewrite (proj2 (Z.eqb_neq rf 0)) by done. destruct Hwf as [(-> & S3)|(Hw & S3 & _)]; cbn [orb negb Z.eqb].
    + apply wp_bind. eapply wp_mono; [by apply (step_close' k3 F none rf (proj1 S3) Hr)|]. intros [] k4 S4.
      apply wp_bind, wp_ret, wp_ret. eapply fstep_trans; [exact S2|]. by eapply fstep_trans.
    + rewrite (proj2 (Z.eqb_neq wf 0)) by done. apply wp_bind. destruct (ki_cur _ _ Hk1) as (c & Hc & Hcn). unfold me. apply wp_gets.
      assert (S13 : fstep k1 F (add wf (add rf none)) k3) by (by eapply fstep_trans).
      rewrite (proj2 (proj2 S13)), Hc. cbn [default].
      eapply wp_mono; [apply (pipe2_install_spec k3 F rf wf c); [by apply add_comm, S13|done..]|].
      intros r k4 S4. by eapply fstep_trans.
Qed.

(** ** Reading, writing, moving *)

(** Steps on a file's own fields keep the invariant. *)
Lemma upd_kinv k F p f g : kinv k F -> kobjs k !! p = Some (OFile f) ->
  f_inode (g f) = f_inode f -> f_flags (g f) .& 3 = f_flags f .& 3 -> f_refcnt (g f) = f_refcnt f ->
  wp (upd_file p g) k (fun _ k' => kinv k' F).
Proof.
  intros Hk Hp H1 H2 H3. eapply wp_mono; [by apply (step_upd k F none p f g (ki_files _ _ Hk))|].
  intros [] k' (S1 & _). by eapply fstep_kinv.
Qed.

Implicit Types (st : io S).

Lemma in_fp_wp {R} (c : M (fp S) R) st (Q : R -> io S -> Prop) :
  wp c (iofp st) (fun r k' => Q r (set_iofp k' st)) -> wp (in_fp c) st Q.
Proof. apply wp_zoom. Qed.

Lemma console_tios_wp st (Q : termios -> io S -> Prop) :
  (forall t st', iofp st' = iofp st -> Q t st') -> wp console_tios st Q.
Proof.
  intros H. unfold console_tios. apply wp_bind, wp_gets. destruct (tios (con st)); [by apply wp_ret, H|].
  apply wp_bind, wp_modify, wp_ret. by apply H.
Qed.

Lemma console_read_wp n echo st : wp (console_read n echo) st (fun _ st' => iofp st' = iofp st).
Proof.
  revert st. induction n as [|n IH]; intros st; [by apply wp_ret|]. cbn [console_read]. unfold uart0_getc, uart0_putc.
  apply wp_bind. wp_steps. destruct (_ <? 0); [by apply wp_ret|].
  destruct echo; wp_steps; (destruct (_ =? NL); wp_steps; [done|]); eapply wp_mono; (try apply IH); intros l st' Hst'; wp_steps; done.
Qed.

Lemma console_write_wp l st : wp (console_write l) st (fun _ st' => iofp st' = iofp st).
Proof.
  revert st. induction l as [|c l IH]; intros st; [by apply wp_ret|]. cbn [console_write]. unfold uart0_putc.
  destruct (c =? NL); wp_steps; (eapply wp_mono; [apply IH|]); intros [] st' ->; done.
Qed.

Lemma sys_read_spec st F fd n : kinv (iofp st) F -> wp (sys_read fd n) st (fun _ st' => kinv (iofp st') F).
Proof.
  intros Hk. unfold sys_read. apply wp_bind, in_fp_wp. eapply wp_mono; [by eapply my_fd_spec|].
  intros f ? (-> & [->|(Hf & fl & Hfl)]); [by apply wp_ret|]. rewrite (proj2 (Z.eqb_neq f 0)) by done.
  apply wp_bind, in_fp_wp, wp_gets, wp_bind, in_fp_wp. unfold in_fs. apply wp_zoom, wp_get_inode.
  cbn [iofp set_iofp fsys set_fsys]. rewrite (file_at_eq (iofp st) f fl Hfl).
  set (nd := inode_at _ _). set (st1 := set_iofp _ _). assert (Hst1 : iofp st1 = iofp st) by (cbn; by destruct (iofp st)).
  clearbody nd st1. rewrite <- Hst1 in *. clear Hst1 st. destruct (is_console nd).
  { apply wp_bind. unfold console_echo. apply wp_bind, console_tios_wp. intros t st2 H2. apply wp_ret, wp_bind.
    eapply wp_mono; [apply console_read_wp|]. intros l st3 H3. apply wp_ret. by rewrite H3, H2. }
  destruct (bool_decide (i_type nd = RF_PIPE)).
  { apply in_fp_wp, wp_zoom. by apply kinv_pipe_read. }
  destruct (bool_decide (i_type nd = RF_DIR)); [by apply wp_ret|].
  apply wp_bind, in_fp_wp, wp_gets. set (r := ramfs_read _ _ _ _). apply wp_bind.
  eapply (wp_mono _ _ (fun _ st' => kinv (iofp st') F)); [|intros [] st' H; by apply wp_ret].
  destruct (0 <? r.1); [|apply wp_ret; done]. apply in_fp_wp. by eapply upd_kinv.
Qed.

(** What a write to a regular file needs: the end stays below the last page. *)
Definition write_fits k (fd : Z) (buf : list Z) : Prop :=
  forall fl nd, kobjs k !! (my_fd fd k).1 = Some (OFile fl) -> reg (fsys k) (f_inode fl) nd ->
  let off := if has_flag (f_flags fl) O_APPEND then i_size nd else f_off fl in
  0 <= off /\ off + Z.of_nat (length buf) <= 0xFFFFF000.

Lemma sys_write_spec st F fd buf : kinv (iofp st) F -> write_fits (iofp st) fd buf ->
  wp (sys_write fd buf) st (fun _ st' => exists F', kinv (iofp st') F').
Proof.
  intros Hk Hfit. unfold sys_write. apply wp_bind, in_fp_wp. apply wp_self. intros f k0 Heq.
  destruct (wp_eq _ _ _ _ _ Heq (my_fd_spec (iofp st) F fd Hk)) as (-> & [->|(Hf & fl & Hfl)]); [apply wp_ret; eauto|].
  rewrite (proj2 (Z.eqb_neq f 0)) by done. specialize (Hfit fl). rewrite Heq in Hfit. cbn [fst] in Hfit.
  apply wp_bind, in_fp_wp, wp_gets, wp_bind, in_fp_wp. unfold in_fs at 1. apply wp_zoom, wp_get_inode.
  cbn [iofp set_iofp fsys set_fsys]. rewrite (file_at_eq (iofp st) f fl Hfl).
  remember (inode_at (fsys (iofp st)) (f_inode fl)) as nd eqn:End.
  set (st1 := set_iofp _ _). assert (Hst1 : iofp st1 = iofp st) by (cbn; by destruct (iofp st)).
  clearbody st1. rewrite <- Hst1 in *. clear Hst1 Heq st. destruct (is_console nd).
  { apply wp_bind. eapply wp_mono; [apply console_write_wp|]. intros [] st2 H2. apply wp_ret. rewrite H2. eauto. }
  case_bool_decide as Hpt.
  { apply wp_bind, in_fp_wp, wp_zoom. eapply wp_mono; [by apply (kinv_pipe_write (iofp st1) F)|]. intros r s2 Hk2. cbn beta.
    apply wp_bind. eapply (wp_mono _ _ (fun _ st' => kinv (iofp st') F)); [|intros [] st' H; apply wp_ret; eauto].
    destruct (0 <? r); [|by apply wp_ret]. apply in_fp_wp. unfold in_sched, proc_wakeup. apply wp_zoom, wp_modify.
    cbn [iofp set_iofp]. eapply kinv_quiet; [exact Hk2|by apply quiet_fsys| |done].
    destruct (fo_tab _ _ _ (ki_files _ _ Hk2)) as [Ht Hl]. eapply files_ok_refs; [apply Hk2|done|..].
    - unfold table_ok in *. cbn. by rewrite length_fmap.
    - by apply fds_len_wake.
    - intros p _. apply refs_sched. apply all_fds_wake. }
  case_bool_decide as Hrt; cbn [negb]; [|apply wp_ret; eauto].
  assert (Hreg : reg (fsys (iofp st1)) (f_inode fl) nd).
  { subst nd. unfold reg, inode_at in *. destruct (objs _ !! f_inode fl) as [[]|]; done. }
  specialize (Hfit nd Hfl Hreg). cbv zeta in Hfit. apply wp_bind.
  eapply (wp_mono _ _ (fun _ st2 => kinv (iofp st2) F /\ reg (fsys (iofp st2)) (f_inode fl) nd /\
    exists fl2, kobjs (iofp st2) !! f = Some (OFile fl2) /\ f_inode fl2 = f_inode fl /\
      f_off fl2 = if has_flag (f_flags fl) O_APPEND then i_size nd else f_off fl)).
  { destruct (has_flag (f_flags fl) O_APPEND).
    - apply in_fp_wp. eapply wp_mono; [by apply (step_upd (iofp st1) F none f fl (set_off (i_size nd)) (ki_files _ _ Hk) Hfl)|].
      intros [] k2 (S2 & _ & Hf2). cbn [iofp set_iofp]. split; [by eapply fstep_kinv|]. split; [|eauto].
      apply (quiet_reg (iofp st1) k2); [apply S2|done].
    - apply wp_ret. split; [done|]. split; [done|]. eauto. }
  intros [] st2 (Hk2 & Hreg2 & fl2 & Hfl2 & Hin & Hoff). apply wp_bind, in_fp_wp, wp_gets.
  rewrite (file_at_eq (iofp st2) f fl2 Hfl2), Hin, Hoff. apply wp_bind, in_fp_wp, wp_zoom.
  cbn [iofp set_iofp].
  eapply wp_mono; [apply (ramfs_write_spec _ F (f_inode fl) nd _ buf (ki_data _ _ Hk2) Hreg2); lia|].
  intros r s3 (F3 & nd3 & Hd3 & Hr3 & Hrest & _). pose proof (kinv_reg (iofp st2) F s3 F3 _ nd nd3 Hk2 Hreg2 Hr3 Hrest Hd3) as Hk3.
  apply wp_bind. eapply (wp_mono _ _ (fun _ st' => kinv (iofp st') F3)); [|intros [] st' H; apply wp_ret; eauto].
  destruct (0 <? r); [|by apply wp_ret]. apply in_fp_wp. cbn [iofp set_iofp].
  assert (Hf3 : objs s3 !! f = Some (OFile fl2)).
  { destruct Hrest as (_ & _ & R). apply R; [|done|done]. intros ->. destruct Hreg2. congruence. }
  by eapply (upd_kinv _ F3 f fl2).
Qed.

(** ** Seeking, listing, changing directory *)

Lemma seek_to_spec {R} k F f fl (b : fp S -> option Z) (e : R) (np : Z -> Z) (rs : Z -> R) :
  kinv k F -> kobjs k !! f = Some (OFile fl) ->
  wp (x ← gets b;
      match x with
      | None => mret e
      | Some base => if np base <? 0 then mret e else upd_file f (set_off (u32 (np base))) ≫= fun _ => mret (rs (np base))
      end) k (fun _ k' => kinv k' F).
Proof.
  intros Hk Hfl. apply wp_bind, wp_gets. destruct (b k) as [base|]; [|by apply wp_ret].
  destruct (_ <? 0); [by apply wp_ret|].
  apply wp_bind. eapply wp_mono; [by eapply upd_kinv|]. intros [] k' Hk'. by apply wp_ret.
Qed.

Lemma sys_lseek_spec k F fd off whence : kinv k F -> wp (sys_lseek fd off whence) k (fun _ k' => kinv k' F).
Proof.
  intros Hk. unfold sys_lseek. apply wp_bind. eapply wp_mono; [by eapply my_fd_spec|].
  intros f ? (-> & [->|(Hf & fl & Hfl)]); [by apply wp_ret|]. rewrite (proj2 (Z.eqb_neq f 0)) by done.
  by eapply (seek_to_spec k F f fl _ _ (fun b => b + off) s32).
Qed.

Lemma sys_llseek_spec k F fd hi lo res whence : kinv k F -> wp (sys_llseek fd hi lo res whence) k (fun _ k' => kinv k' F).
Proof.
  intros Hk. unfold sys_llseek. apply wp_bind. eapply wp_mono; [by eapply my_fd_spec|].
  intros f ? (-> & [->|(Hf & fl & Hfl)]); [by apply wp_ret|]. rewrite (proj2 (Z.eqb_neq f 0)) by done.
  destruct (_ && _); [by apply wp_ret|].
  by eapply (seek_to_spec k F f fl _ _ (fun b => b + s32 lo) (fun np => (0, if res =? 0 then [] else le_bytes 4 (u32 np) ++ le_bytes 4 0))).
Qed.

Lemma set_fsys_id k : set_fsys (fsys k) k = k.
Proof. by destruct k. Qed.

Lemma sys_getdents64_spec k F fd cap : kinv k F -> wp (sys_getdents64 fd cap) k (fun _ k' => kinv k' F).
Proof.
  intros Hk. unfold sys_getdents64. apply wp_bind. eapply wp_mono; [by eapply my_fd_spec|].
  intros f ? (-> & [->|(Hf & fl & Hfl)]); [by apply wp_ret|]. rewrite (proj2 (Z.eqb_neq f 0)) by done.
  unfold get_file, in_fs. apply wp_bind, wp_gets, wp_bind, wp_zoom, wp_get_inode. rewrite (set_fsys_id k).
  destruct (_ || _); [by apply wp_ret|]. apply wp_bind, wp_gets. destruct (getdents_loop _ _ _ _ _ _) as [[e l] pos].
  apply wp_bind. eapply wp_mono; [by eapply upd_kinv|]. intros [] k' Hk'. destruct e; by apply wp_ret.
Qed.

Lemma sys_chdir_spec k F path : kinv k F -> wp (sys_chdir path) k (fun _ k' => kinv k' F).
Proof.
  intros Hk. destruct (ki_cur _ _ Hk) as (c & Hc & Hcn). unfold sys_chdir, proc_cwd, in_fs.
  apply wp_bind, wp_gets, wp_bind, wp_gets. destruct (_ =? 0); [by apply wp_ret|].
  apply wp_bind, wp_zoom, wp_get_inode. rewrite (set_fsys_id k). destruct (negb _); [by apply wp_ret|].
  apply wp_bind. unfold proc_set_cwd, me, in_sched, upd_proc. apply wp_bind, wp_gets, wp_zoom, wp_modify, wp_ret.
  apply (kinv_quiet k); [done|by apply quiet_fsys| |done]. destruct (fo_tab _ _ _ (ki_files _ _ Hk)) as [Ht Hl].
  eapply files_ok_refs; [apply Hk|done|..].
  - unfold table_ok in *. cbn. by rewrite length_alter.
  - unfold fds_len in *. cbn. apply Forall_alter; [done|]. by intros p _ Hx.
  - intros p _. apply refs_sched. by apply all_fds_alter.
Qed.
End calls.
