(* ===== verification/FsTheorems.v ===== *)
(** What the file system calls guarantee: every sequence of calls keeps the
    invariant of the file layer, the examples that show it can hold, and what
    [fcntl] does to it. *)

From stdpp Require Import gmap list fin_maps.
From Stdlib Require Import ZArith Lia.
From S2P Require Import Prelude Memory Frames Pmm Kmalloc Heap KernMem Ramfs RamfsPipe RamfsData RamfsTree RamfsFiles RamfsPaths Proc File FsSyscall FsInv FsCalls.

(** ** Calls that only look *)

Definition readonly {S R} (c : M S R) : Prop := forall s, (c s).2 = s.

Lemma ro_ret {S R} (r : R) : readonly (S := S) (mret r).
Proof. done. Qed.
Lemma ro_gets {S R} (f : S -> R) : readonly (gets f).
Proof. done. Qed.
Lemma ro_bind {S R R'} (c : M S R) (g : R -> M S R') : readonly c -> (forall r, readonly (g r)) -> readonly (c ≫= g).
Proof. intros Hc Hg s. unfold mbind, M_bind. specialize (Hc s). destruct (c s) as [r s']. cbn in Hc. subst s'. apply Hg. Qed.
Lemma ro_if {S R} (b : bool) (c d : M S R) : readonly c -> readonly d -> readonly (if b then c else d).
Proof. by destruct b. Qed.
Lemma ro_wp {S R} (c : M S R) s (Q : R -> S -> Prop) : readonly c -> (forall r, Q r s) -> wp c s Q.
Proof. intros Hc Hq. unfold wp. specialize (Hc s). destruct (c s) as [r s']. cbn in Hc. by subst. Qed.

Create HintDb readonly.
#[export] Hint Resolve ro_ret ro_gets ro_bind ro_if : readonly.

Section theorems.
Context {S : Type} {KM : KMem S} {KS : KMemSpec S}.
Implicit Types (k : fp S) (st : io S) (F : gset Z).

Lemma ro_my_fd fd : readonly (S := fp S) (my_fd fd).
Proof. unfold my_fd, me, fd_get. auto with readonly. Qed.
#[local] Hint Resolve ro_my_fd : readonly.

Lemma ro_resolve_at d p fo : readonly (S := fp S) (resolve_at d p fo).
Proof. unfold resolve_at, proc_cwd. auto 8 with readonly. Qed.
#[local] Hint Resolve ro_resolve_at : readonly.

Lemma ro_stat_of i : readonly (S := fp S) (stat_of i).
Proof. unfold stat_of. auto with readonly. Qed.
Lemma ro_at_inode d p fl : readonly (S := fp S) (at_inode d p fl).
Proof. unfold at_inode. auto 8 with readonly. Qed.
#[local] Hint Resolve ro_stat_of ro_at_inode : readonly.

Lemma ro_stats fd path follow d flags :
  readonly (S := fp S) (sys_fstat64 fd) /\ readonly (S := fp S) (sys_stat64 path follow) /\
  readonly (S := fp S) (sys_fstatat64 d path flags).
Proof.
  unfold sys_fstat64, sys_stat64, proc_cwd, sys_fstatat64. split; [|split]; [auto with readonly..|].
  apply ro_bind; [auto with readonly|]. intros []; auto with readonly.
Qed.

Lemma ro_statx d path flags buf : readonly (S := fp S) (sys_statx d path flags buf).
Proof. unfold sys_statx. apply ro_bind; [auto with readonly|]. intros []; auto with readonly. Qed.
Lemma ro_access d path sz : readonly (S := fp S) (sys_faccessat d path) /\ readonly (S := fp S) (sys_readlinkat d path sz) /\
  readonly (S := fp S) (sys_getcwd sz).
Proof. unfold sys_faccessat, sys_readlinkat, sys_getcwd, proc_cwd. split; [|split]; auto with readonly. Qed.

(** ** The calls *)

Inductive fcall :=
| COpenat (dirfd : Z) (path : cstr) (flags mode : Z) | CClose (fd : Z)
| CRead (fd n : Z) | CWrite (fd : Z) (buf : list Z)
| CReadv (fd : Z) (iov : list Z) | CWritev (fd : Z) (iov : list (list Z))
| CLseek (fd off whence : Z) | CLlseek (fd hi lo res whence : Z)
| CDup (fd : Z) | CDup2 (old new : Z) | CPipe2 (fds : Z) | CFcntl (fd cmd arg : Z)
| CGetdents (fd cap : Z) | CChdir (path : cstr) | CGetcwd (sz : Z)
| CFstat (fd : Z) | CStat (path : cstr) (follow : bool) | CFstatat (dirfd : Z) (path : cstr) (flags : Z)
| CStatx (dirfd : Z) (path : cstr) (flags buf : Z) | CFaccessat (dirfd : Z) (path : cstr)
| CReadlinkat (dirfd : Z) (path : cstr) (sz : Z) | CIoctl (fd req arg : Z) (new : termios).

Definition void {T R} (c : M T R) : M T unit := c ≫= fun _ => mret tt.

Definition run_fcall (c : fcall) : M (io S) unit :=
  match c with
  | COpenat d p f m => void (in_fp (sys_openat d p f m))
  | CClose fd => void (in_fp (sys_close fd))
  | CRead fd n => void (sys_read fd n)
  | CWrite fd b => void (sys_write fd b)
  | CReadv fd v => void (sys_readv fd v 0)
  | CWritev fd v => void (sys_writev fd v 0)
  | CLseek fd o w => void (in_fp (sys_lseek fd o w))
  | CLlseek fd h l r w => void (in_fp (sys_llseek fd h l r w))
  | CDup fd => void (in_fp (sys_dup fd))
  | CDup2 o n => void (in_fp (sys_dup2 o n))
  | CPipe2 u => void (in_fp (sys_pipe2 u))
  | CFcntl fd c a => void (in_fp (sys_fcntl64 fd c a))
  | CGetdents fd cap => void (in_fp (sys_getdents64 fd cap))
  | CChdir p => void (in_fp (sys_chdir p))
  | CGetcwd sz => void (in_fp (sys_getcwd sz))
  | CFstat fd => void (in_fp (sys_fstat64 fd))
  | CStat p f => void (in_fp (sys_stat64 p f))
  | CFstatat d p f => void (in_fp (sys_fstatat64 d p f))
  | CStatx d p f b => void (in_fp (sys_statx d p f b))
  | CFaccessat d p => void (in_fp (sys_faccessat d p))
  | CReadlinkat d p sz => void (in_fp (sys_readlinkat d p sz))
  | CIoctl fd r a n => void (sys_ioctl fd r a n)
  end.

(** Each write of the vector fits where it goes. *)
Fixpoint writev_fits st fd (iov : list (list Z)) : Prop :=
  match iov with
  | [] => True
  | buf :: iov' => if is_nil buf then writev_fits st fd iov'
                   else write_fits (iofp st) fd buf /\ writev_fits (sys_write fd buf st).2 fd iov'
  end.

(** What the caller must respect: strings end, a regular file stays below the
    last page of the 32-bit range, and [F_SETFL] repeats the access mode. *)
Definition call_ok (c : fcall) st : Prop :=
  match c with
  | COpenat _ p _ _ => cstr_ok p
  | CWrite fd buf => write_fits (iofp st) fd buf
  | CWritev fd iov => writev_fits st fd iov
  | CFcntl fd cmd arg => cmd = F_SETFL -> forall f fl, objs (fsys (iofp st)) !! f = Some (OFile fl) ->
      (my_fd fd (iofp st)).1 = f -> arg .& 3 = f_flags fl .& 3
  | _ => True
  end.

Lemma wp_void {T R} (c : M T R) s (Q : T -> Prop) : wp c s (fun _ s' => Q s') -> wp (void c) s (fun _ s' => Q s').
Proof. intros H. apply wp_bind. eapply wp_mono; [exact H|]. intros r s' Hq. by apply wp_ret. Qed.

Lemma kept_wp {R} (c : M (fp S) R) st F : wp c (iofp st) (fun _ k' => kinv k' F) ->
  wp (in_fp c) st (fun _ st' => exists F', kinv (iofp st') F').
Proof. intros H. apply in_fp_wp. eapply wp_mono; [exact H|]. intros r k' Hk. by exists F. Qed.

Lemma looked_wp {R} (c : M (fp S) R) st F : readonly c -> kinv (iofp st) F ->
  wp (in_fp c) st (fun _ st' => exists F', kinv (iofp st') F').
Proof. intros Hc Hk. apply (kept_wp _ _ F). by apply ro_wp. Qed.

Lemma sys_readv_spec iov : forall fd total st F, kinv (iofp st) F ->
  wp (sys_readv fd iov total) st (fun _ st' => kinv (iofp st') F).
Proof.
  induction iov as [|len iov IH]; intros fd total st F Hk; [by apply wp_ret|]. cbn [sys_readv].
  destruct (len =? 0); [apply wp_bind; eapply wp_mono; [by apply IH|]; intros; by apply wp_ret|].
  apply wp_bind. eapply wp_mono; [by apply (sys_read_spec st F)|]. intros [r l] st1 Hk1. cbn [fst].
  destruct (r <? 0); [by apply wp_ret|]. destruct (r <? len); [by apply wp_ret|].
  apply wp_bind. eapply wp_mono; [by apply IH|]. intros; by apply wp_ret.
Qed.

Lemma sys_writev_spec iov : forall fd total st F, kinv (iofp st) F -> writev_fits st fd iov ->
  wp (sys_writev fd iov total) st (fun _ st' => exists F', kinv (iofp st') F').
Proof.
  induction iov as [|buf iov IH]; intros fd total st F Hk Hfit; [apply wp_ret; eauto|]. cbn [sys_writev writev_fits] in *.
  destruct (is_nil buf); [by apply (IH _ _ _ F)|]. destruct Hfit as [H1 H2].
  apply wp_bind, wp_self. intros r st1 Heq. rewrite Heq in H2.
  destruct (wp_eq _ _ _ _ _ Heq (sys_write_spec st F fd buf Hk H1)) as [F1 Hk1].
  destruct (r <? 0); [apply wp_ret; eauto|]. destruct (r <? _); [apply wp_ret; eauto|]. by apply (IH _ _ _ F1).
Qed.

Lemma sys_ioctl_spec st F fd req arg new : kinv (iofp st) F ->
  wp (sys_ioctl fd req arg new) st (fun _ st' => kinv (iofp st') F).
Proof.
  intros Hk. unfold sys_ioctl. apply wp_bind, in_fp_wp. eapply wp_mono; [by eapply my_fd_spec|]. intros f ? (-> & _).
  destruct (f =? 0); [by apply wp_ret|]. unfold in_fs, get_file.
  apply wp_bind, in_fp_wp, wp_gets, wp_bind, in_fp_wp, wp_zoom, wp_get_inode. cbv zeta.
  cbn [iofp set_iofp]. rewrite set_fsys_id. set (st1 := set_iofp _ _). assert (H1 : kinv (iofp st1) F) by done.
  clearbody st1. repeat case_match; try (by apply wp_ret).
  apply wp_bind, console_tios_wp. intros t st2 Hst2. apply wp_ret. by rewrite Hst2.
Qed.

Lemma run_fcall_kinv c st F : kinv (iofp st) F -> call_ok c st ->
  wp (run_fcall c) st (fun _ st' => exists F', kinv (iofp st') F').
Proof.
  intros Hk Hok. destruct c; cbn [run_fcall call_ok] in *; apply wp_void.
  - apply in_fp_wp. eapply wp_mono; [by apply (sys_openat_spec _ F)|]. done.
  - by apply (kept_wp _ _ F), sys_close_spec.
  - eapply wp_mono; [by apply (sys_read_spec st F)|]. by intros; exists F.
  - by apply (sys_write_spec st F).
  - eapply wp_mono; [by apply (sys_readv_spec _ _ _ st F)|]. by intros; exists F.
  - by apply (sys_writev_spec _ _ _ st F).
  - by apply (kept_wp _ _ F), sys_lseek_spec.
  - by apply (kept_wp _ _ F), sys_llseek_spec.
  - by apply (kept_wp _ _ F), sys_dup_spec.
  - by apply (kept_wp _ _ F), sys_dup2_spec.
  - apply in_fp_wp. eapply wp_mono; [by apply (sys_pipe2_spec _ F)|]. done.
  - by apply (kept_wp _ _ F), sys_fcntl64_spec.
  - by apply (kept_wp _ _ F), sys_getdents64_spec.
  - by apply (kept_wp _ _ F), sys_chdir_spec.
  - apply (looked_wp _ _ F); [apply (ro_access 0 [] sz)|done].
  - apply (looked_wp _ _ F); [apply (ro_stats fd [] true 0 0)|done].
  - apply (looked_wp _ _ F); [apply (ro_stats 0 path follow 0 0)|done].
  - apply (looked_wp _ _ F); [apply (ro_stats 0 path true dirfd flags)|done].
  - apply (looked_wp _ _ F); [apply ro_statx|done].
  - apply (looked_wp _ _ F); [apply (ro_access dirfd path 0)|done].
  - apply (looked_wp _ _ F); [apply (ro_access dirfd path sz)|done].
  - eapply wp_mono; [by apply (sys_ioctl_spec st F)|]. by intros; exists F.
Qed.

(** Sequences of calls whose conditions hold when they are made. *)
Inductive fs_run : io S -> list fcall -> io S -> Prop :=
| fs_run_nil st : fs_run st [] st
| fs_run_cons st c cs st' : call_ok c st -> fs_run (run_fcall c st).2 cs st' -> fs_run st (c :: cs) st'.

(** C9. Any sequence of file system calls made by the running process keeps the
    invariant of the file layer: every descriptor names a
    live open file, every open file's reference count is the number of
    descriptors that share it and is positive, a pipe's end counts are the
    numbers of open files that read and write it, every pipe has its own
    well-formed ring, directories are well-formed lists whose entries name
    inodes, and regular files own disjoint pages.  The conditions are
    those of [call_ok]: path strings end, a write to a regular file ends at or
    below 0xFFFFF000, and F_SETFL repeats the access mode the file was opened
    with (one that changes it breaks the counts of a pipe). *)
Theorem file_calls_preserve_invariant st cs st' F :
  kinv (iofp st) F -> fs_run st cs st' -> exists F', kinv (iofp st') F'.
Proof.
  intros Hk Hr. revert F Hk. induction Hr as [|st c cs st' Hok _ IH]; intros F Hk; [eauto|].
  destruct (run_fcall_kinv c st F Hk Hok) as [F' Hk']. by apply (IH F').
Qed.
End theorems.

(** ** Examples *)

(** A machine with an empty file system and one process, and its console. *)
Definition demo_sched : sched := Sched (replicate NPROC proc0) (Some O) 2.
Definition demo_fp : fp (kmem pmm) := Fp demo_root demo_sched.
Definition demo_io : io (kmem pmm) := Io demo_fp (Console None (fun _ => 13) 0 []).

Lemma demo_objs p o : objs demo_root !! p = Some o -> p = demo_p /\ o = OInode (root_inode 1 demo_p).
Proof.
  intros H. assert (E : objs demo_root = {[demo_p := OInode (root_inode 1 demo_p)]}) by (vm_compute; reflexivity).
  rewrite E in H. apply lookup_singleton_Some in H. destruct H as [H1 H2]. split; [symmetry; exact H1|].
  symmetry. exact H2.
Qed.

Lemma demo_refs p : p <> 0 -> refs demo_fp none p = 0.
Proof.
  intros Hp. assert (E : all_fds demo_sched = replicate 128 0) by (vm_compute; reflexivity).
  unfold refs, none. cbn [psch demo_fp]. rewrite E. clear E. generalize 128%nat. intros n; induction n as [|n IH]; [done|].
  cbn [replicate]. by rewrite occ_cons, decide_False.
Qed.

Lemma demo_kinv : kinv demo_fp ∅.
Proof.
  destruct demo_root_ok as (Ht & Hd & Hdir). constructor.
  - constructor; cbn [fsys demo_fp].
    + apply Hd.
    + split; [reflexivity|]. apply Forall_replicate. reflexivity.
    + intros p Hp. rewrite demo_refs by exact Hp. lia.
    + intros p Hp. rewrite demo_refs by exact Hp. lia.
    + intros p f Hp. destruct (demo_objs _ _ Hp) as [_ E]. discriminate E.
    + intros p f Hp. destruct (demo_objs _ _ Hp) as [_ E]. discriminate E.
    + intros p n Hp Hty. destruct (demo_objs _ _ Hp) as [_ E]. injection E as ->. discriminate Hty.
  - exact Hd.
  - exact Ht.
  - split; [exists (root_inode 1 demo_p); cbn [fsys demo_fp]; rewrite demo_root_eq; apply Hdir|].
    intros p nd [Hp _]. destruct (demo_objs _ _ Hp) as [_ E]. injection E as ->. eexists. apply Hdir.
  - split; [intros p nd Hp Hty|intros p p' nd nd' Hp Hty];
      destruct (demo_objs _ _ Hp) as [_ E]; injection E as ->; discriminate Hty.
  - exists O. split; [reflexivity|]. unfold NPROC. lia.
Qed.

Definition demo_calls : list fcall := [COpenat AT_FDCWD [47; 102] 66 420; CWrite 0 [104; 105]; CPipe2 0x1000; CClose 0].

Lemma file_calls_preserve_invariant_witness :
  exists st' F', fs_run demo_io demo_calls st' /\ kinv (iofp st') F'.
Proof.
  assert (Hrun : exists st', fs_run demo_io demo_calls st').
  { eexists. unfold demo_calls. apply fs_run_cons; [cbn; repeat constructor; lia|].
    apply fs_run_cons; [|apply fs_run_cons; [exact I|]; apply fs_run_cons; [exact I|]; apply fs_run_nil].
    intros fl nd Hfl [Hnd _]. vm_compute in Hfl. injection Hfl as <-. vm_compute in Hnd. injection Hnd as <-.
    vm_compute. split; discriminate. }
  destruct Hrun as [st' Hrun]. destruct (file_calls_preserve_invariant demo_io demo_calls st' ∅ demo_kinv Hrun) as [F' Hk].
  exists st', F'. split; assumption.
Defined.

(** ** [fcntl(F_SETFL)] and the ends of a pipe *)

(** [F_SETFL] overwrites the access mode of the open file: after
    [fcntl(wfd, F_SETFL, O_NONBLOCK)] on the write end of a fresh pipe, closing
    that descriptor decrements the readers' count instead of the writers'.  No
    descriptor can write the pipe any more, yet it still counts a writer, so a
    read of it blocks for good instead of returning end of file; without the
    [fcntl] the same read returns end of file. *)
Theorem setfl_loses_pipe_eof :
  let k1 := (sys_pipe2 0x1000 demo_fp).2 in
  let k2 := (sys_close 1 (sys_fcntl64 1 F_SETFL O_NONBLOCK k1).2).2 in
  let k2' := (sys_close 1 k1).2 in
  let pipe k := f_inode (file_at (fsys k) (my_fd 0 k).1) in
  let ends k := (i_rd_open (inode_at (fsys k) (pipe k)), i_wr_open (inode_at (fsys k) (pipe k))) in
  (sys_pipe2 0x1000 demo_fp).1.1 = 0 /\ ends k1 = (1, 1) /\ ends k2' = (1, 0) /\ (read_block_chan 0 1 k2').1 = None /\
  ends k2 = (0, 1) /\ (read_block_chan 0 1 k2).1 = Some (ChInode (pipe k2)).
Proof. vm_compute. repeat split. Qed.
