(* ===== verification/Inflate.v ===== *)
(** The decompressor, [kernel/lib/inflate.c].

    Everything is checked: reading the source beyond its length, a table outside
    its bounds or an element of [symbol] that was never stored, and writing the
    destination beyond its capacity are [Fault]s. *)

From stdpp Require Import list.
From Stdlib Require Import ZArith Lia.
From S2P Require Import Prelude Checked.

(** * Bit reader *)

Record bitr := Bitr { b_src : list Z; b_len : Z; b_pos : Z; bitbuf : Z; bitcnt : Z; b_err : bool }.

Definition set_err (b : bitr) : bitr := Bitr (b_src b) (b_len b) (b_pos b) (bitbuf b) (bitcnt b) true.
Definition set_buf (v n : Z) (b : bitr) : bitr := Bitr (b_src b) (b_len b) (b_pos b) v n (b_err b).
Definition set_pos (v : Z) (b : bitr) : bitr := Bitr (b_src b) (b_len b) v (bitbuf b) (bitcnt b) (b_err b).

(** The loop of [bits]: [true] when [n] bits are held, [false] at the end of the
    source.  Every round adds eight bits. *)
Fixpoint fill (fuel : nat) (n : Z) : C bitr bool := fun b =>
  if bitcnt b <? n then
    if b_len b <=? b_pos b then Ok (false, set_err b)
    else
      match fuel with
      | O => NoFuel
      | S fuel' =>
          c ← aref (b_src b) (b_pos b);
          fill fuel' n (set_buf (bitbuf b .| c .<< bitcnt b) (bitcnt b +w 8) (set_pos (b_pos b +w 1) b))
      end
  else Ok (true, b).

Definition bits (n : Z) : C bitr Z :=
  full ← fill (Z.to_nat n) n;
  if full : bool then
    v ← look (fun b => bitbuf b .& ((1 .<< n) -w 1));
    change (fun b => set_buf (bitbuf b .>> n) (bitcnt b -w n) b) ≫= fun _ =>
    mret v
  else mret 0.

(** * Huffman tables *)

Definition MAXBITS : Z := 15.

(** [None] marks an element of [symbol] that was never stored. *)
Record huff := Huff { h_count : list Z; h_symbol : list (option Z) }.

(** a table on the stack, before it is built *)
Definition huff_fresh : huff := Huff (replicate 16 0) (replicate 288 None).

(** The check for over-subscribed code sets, from length [l]: [None] when it is. *)
Fixpoint check_left (n : nat) (l left : Z) (count : list Z) : outcome (option Z) :=
  match n with
  | O => Ok (Some left)
  | S n' =>
      c ← aref count l;
      let left := 2 * left - c in
      if left <? 0 then Ok None else check_left n' (l + 1) left count
  end.

(** the count of code lengths *)
Definition count_lengths (length_ : list Z) (n : nat) : outcome (list Z) :=
  count ← iter 16 0 (fun l count => aset count l 0) (replicate 16 0);
  iter n 0 (fun s count => l ← aref length_ s; c ← aref count l; aset count l (c + 1)) count.

(** the first index of each length *)
Definition offsets (count : list Z) : outcome (list Z) :=
  iter 14 1 (fun l offs => o ← aref offs l; c ← aref count l; aset offs (l + 1) (o + c)) (replicate 16 0).

(** the symbols in order of length, then of value *)
Definition place_symbols (length_ : list Z) (n : nat) (offs : list Z) (symbol : list (option Z)) :
    outcome (list Z * list (option Z)) :=
  iter n 0 (fun s '(offs, symbol) =>
    l ← aref length_ s;
    if l =? 0 then Ok (offs, symbol)
    else
      o ← aref offs l;
      symbol ← aset symbol o (Some s);
      offs ← aset offs l (o + 1);
      Ok (offs, symbol)) (offs, symbol).

Definition huff_build (h : huff) (length_ : list Z) (n : Z) : outcome (Z * huff) :=
  count ← count_lengths length_ (Z.to_nat n);
  c0 ← aref count 0;
  if c0 =? n then Ok (0, Huff count (h_symbol h))
  else
    left ← check_left 15 1 1 count;
    match left with
    | None => Ok (-1, Huff count (h_symbol h))
    | Some rest =>
        offs ← offsets count;
        r ← place_symbols length_ (Z.to_nat n) offs (h_symbol h);
        Ok (rest, Huff count r.2)
    end.

(** reading a stored element *)
Definition sym_at (h : huff) (i : Z) : outcome Z :=
  o ← aref (h_symbol h) i;
  match o with Some s => Ok s | None => Fault end.

(** [n] lengths are left, from [len]. *)
Fixpoint decode_loop (n : nat) (h : huff) (len code first index : Z) : C bitr Z :=
  match n with
  | O => mret (-1)
  | S n' =>
      bit ← bits 1;
      let code := code .| bit in
      cnt ← lift (aref (h_count h) len);
      if code - first <? cnt then lift (sym_at h (index + (code - first)))
      else decode_loop n' h (len + 1) (code * 2) ((first + cnt) * 2) (index + cnt)
  end.

Definition huff_decode (h : huff) : C bitr Z := decode_loop 15 h 1 0 0 0.

(** * Blocks *)

Definition len_base : list Z :=
  [3;4;5;6;7;8;9;10;11;13;15;17;19;23;27;31;35;43;51;59;67;83;99;115;131;163;195;227;258].
Definition len_extra : list Z :=
  [0;0;0;0;0;0;0;0;1;1;1;1;2;2;2;2;3;3;3;3;4;4;4;4;5;5;5;5;0].
Definition dist_base : list Z :=
  [1;2;3;4;5;7;9;13;17;25;33;49;65;97;129;193;257;385;513;769;
   1025;1537;2049;3073;4097;6145;8193;12289;16385;24577].
Definition dist_extra : list Z :=
  [0;0;0;0;1;1;2;2;3;3;4;4;5;5;6;6;7;7;8;8;9;9;10;10;11;11;12;12;13;13].

(** the byte by byte copy inside the output *)
Definition copy_match (dst : list Z) (out from : Z) (length_ : Z) : outcome (list Z) :=
  iter (Z.to_nat length_) 0 (fun i dst => c ← aref dst (from +w i); aset dst (out +w i) c) dst.

(** The result and the output buffer.  Every round consumes a bit. *)
Fixpoint inflate_block (fuel : nat) (lh dh : huff) (dst : list Z) (dstcap out : Z) : C bitr (Z * list Z) :=
  match fuel with
  | O => fun _ => NoFuel
  | S fuel' =>
      sym ← huff_decode lh;
      err ← look b_err;
      if (err : bool) || (sym <? 0) then mret (-1, dst)
      else if sym =? 256 then mret (s32 out, dst)
      else if sym <? 256 then
        if dstcap <=? out then mret (-2, dst)
        else
          dst ← lift (aset dst out (u8 sym));
          inflate_block fuel' lh dh dst dstcap (out +w 1)
      else
        let sym := sym - 257 in
        if 29 <=? sym then mret (-3, dst)
        else
          lb ← lift (aref len_base sym);
          le ← lift (aref len_extra sym);
          lx ← bits le;
          let length_ := lb +w lx in
          dsym ← huff_decode dh;
          err ← look b_err;
          if (err : bool) || (dsym <? 0) || (30 <=? dsym) then mret (-4, dst)
          else
            db ← lift (aref dist_base dsym);
            de ← lift (aref dist_extra dsym);
            dx ← bits de;
            let dist := db +w dx in
            if out <? dist then mret (-5, dst)
            else if dstcap <? out +w length_ then mret (-6, dst)
            else
              dst ← lift (copy_match dst out (out -w dist) length_);
              inflate_block fuel' lh dh dst dstcap (out +w length_)
  end.

(** the code lengths of the fixed tables *)
Definition fixed_ll : list Z := replicate 144 8 ++ replicate 112 9 ++ replicate 24 7 ++ replicate 8 8.
Definition fixed_dl : list Z := replicate 30 5.

Definition build_fixed (lh dh : huff) : outcome (huff * huff) :=
  l ← huff_build lh fixed_ll 288;
  d ← huff_build dh fixed_dl 30;
  Ok (l.2, d.2).

Definition clc_order : list Z := [16;17;18;0;8;7;9;6;10;5;11;4;12;3;13;2;14;1;15].

(** the [hclen] lengths of the code length code, from the [i]-th *)
Fixpoint read_clc (n : nat) (i : Z) (clc_len : list Z) : C bitr (list Z) :=
  match n with
  | O => mret clc_len
  | S n' =>
      o ← lift (aref clc_order i);
      v ← bits 3;
      clc_len ← lift (aset clc_len o (u8 v));
      read_clc n' (i + 1) clc_len
  end.

(** [while (rep-- && n < total) lengths[n++] = v;] *)
Fixpoint repeat_length (rep : nat) (v : Z) (lengths : list Z) (n total : Z) : outcome (list Z * Z) :=
  match rep with
  | O => Ok (lengths, n)
  | S rep' =>
      if n <? total then
        lengths ← aset lengths n v;
        repeat_length rep' v lengths (n + 1) total
      else Ok (lengths, n)
  end.

(** The code lengths, [n] of them known: the error or the list.  Every round
    adds one at least. *)
Fixpoint read_lengths (fuel : nat) (clc : huff) (lengths : list Z) (n total : Z) : C bitr (Z + list Z) :=
  if n <? total then
    match fuel with
    | O => fun _ => NoFuel
    | S fuel' =>
        sym ← huff_decode clc;
        err ← look b_err;
        if (err : bool) || (sym <? 0) then mret (inl (-3))
        else if sym <? 16 then
          lengths ← lift (aset lengths n (u8 sym));
          read_lengths fuel' clc lengths (n + 1) total
        else if sym =? 16 then
          if n =? 0 then mret (inl (-4))
          else
            x ← bits 2;
            prev ← lift (aref lengths (n - 1));
            r ← lift (repeat_length (Z.to_nat (3 + x)) prev lengths n total);
            read_lengths fuel' clc r.1 r.2 total
        else if sym =? 17 then
          x ← bits 3;
          r ← lift (repeat_length (Z.to_nat (3 + x)) 0 lengths n total);
          read_lengths fuel' clc r.1 r.2 total
        else
          x ← bits 7;
          r ← lift (repeat_length (Z.to_nat (11 + x)) 0 lengths n total);
          read_lengths fuel' clc r.1 r.2 total
    end
  else mret (inr lengths).

Definition build_dynamic (lh dh : huff) : C bitr (Z * (huff * huff)) :=
  b5 ← bits 5;
  let hlit := b5 + 257 in
  b5 ← bits 5;
  let hdist := b5 + 1 in
  b4 ← bits 4;
  let hclen := b4 + 4 in
  if (286 <? hlit) || (30 <? hdist) then mret (-1, (lh, dh))
  else
    clc_len ← read_clc (Z.to_nat hclen) 0 (replicate 19 0);
    clc ← lift (huff_build huff_fresh clc_len 19);
    if clc.1 <? 0 then mret (-2, (lh, dh))
    else
      let total := hlit + hdist in
      r ← read_lengths (Z.to_nat total) clc.2 (replicate 318 0) 0 total;
      match r with
      | inl e => mret (e, (lh, dh))
      | inr lengths =>
          eob ← lift (aref lengths 256);
          if eob =? 0 then mret (-5, (lh, dh))
          else
            l ← lift (huff_build lh lengths hlit);
            if l.1 <? 0 then mret (-6, (l.2, dh))
            else
              d ← lift (huff_build dh (drop (Z.to_nat hlit) lengths) hdist);
              if d.1 <? 0 then mret (-7, (l.2, d.2)) else mret (0, (l.2, d.2))
      end.

(** two bytes of the source, low first *)
Definition src16 (b : bitr) (i : Z) : outcome Z :=
  x ← aref (b_src b) i;
  y ← aref (b_src b) (i + 1);
  Ok (x .| Z.shiftl y 8).

(** [len] bytes from the source to the output *)
Definition copy_stored (b : bitr) (dst : list Z) (out len : Z) : outcome (list Z) :=
  iter (Z.to_nat len) 0 (fun i dst => c ← aref (b_src b) (b_pos b +w i); aset dst (out +w i) c) dst.

(** A stored block: the error, or the new [out], with the output. *)
Definition stored_block (dst : list Z) (dstcap out : Z) : C bitr (Z * list Z) :=
  change (set_buf 0 0) ≫= fun _ =>
  b ← look id;
  if b_len b <? b_pos b +w 4 then mret (-11, dst)
  else
    len ← lift (src16 b (b_pos b));
    nlen ← lift (src16 b (b_pos b + 2));
    change (set_pos (b_pos b +w 4)) ≫= fun _ =>
    if negb (len .^ 0xFFFF =? nlen) then mret (-12, dst)
    else
      b ← look id;
      if b_len b <? b_pos b +w len then mret (-13, dst)
      else if dstcap <? out +w len then mret (-14, dst)
      else
        dst ← lift (copy_stored b dst out len);
        change (set_pos (b_pos b +w len)) ≫= fun _ =>
        mret (out +w len, dst).

(** bits left in the source *)
Definition bits_left (b : bitr) : Z := 8 * (b_len b - b_pos b) + bitcnt b.

(** The block loop: a round consumes three bits at least. *)
Fixpoint raw_loop (fuel : nat) (dst : list Z) (dstcap out : Z) : C bitr (Z * list Z) :=
  match fuel with
  | O => fun _ => NoFuel
  | S fuel' =>
      final ← bits 1;
      type ← bits 2;
      err ← look b_err;
      if (err : bool) then mret (-10, dst)
      else
        r ← (if type =? 0 then stored_block dst dstcap out
             else if (type =? 1) || (type =? 2) then
               t ← (if type =? 1 then t ← lift (build_fixed huff_fresh huff_fresh); mret (0, t)
                    else build_dynamic huff_fresh huff_fresh);
               if negb (t.1 =? 0) then mret (-15, dst)
               else
                 left ← look bits_left;
                 inflate_block (Z.to_nat (left + 1)) t.2.1 t.2.2 dst dstcap out
             else mret (-16, dst));
        if r.1 <? 0 then mret r
        else if final =? 0 then raw_loop fuel' r.2 dstcap (u32 r.1)
        else mret (s32 r.1, r.2)
  end.

Definition inflate_raw (src : list Z) (srclen : Z) (dst : list Z) (dstcap : Z) : outcome (Z * list Z) :=
  r ← raw_loop (Z.to_nat (8 * srclen + 1)) dst dstcap 0 (Bitr src srclen 0 0 0 false);
  Ok r.1.

(** * The gzip container *)

Definition crc_bit (crc : Z) : Z := (crc .>> 1) .^ (0xEDB88320 .& u32 (- (crc .& 1))).

Definition crc_byte (crc p : Z) : Z := Nat.iter 8 crc_bit (crc .^ p).

Definition crc32 (p : list Z) (n : Z) : outcome Z :=
  crc ← iter (Z.to_nat n) 0 (fun i crc => c ← aref p i; Ok (crc_byte crc c)) 0xFFFFFFFF;
  Ok (crc .^ 0xFFFFFFFF).

Definition is_gzip (src : list Z) (srclen : Z) : outcome bool :=
  if srclen <? 2 then Ok false
  else
    a ← aref src 0;
    if negb (a =? 0x1f) then Ok false else b ← aref src 1; Ok (b =? 0x8b).

(** four bytes, low first *)
Definition le32_at (src : list Z) (i : Z) : outcome Z :=
  a ← aref src i;
  b ← aref src (i + 1);
  c ← aref src (i + 2);
  d ← aref src (i + 3);
  Ok (a .| Z.shiftl b 8 .| Z.shiftl c 16 .| Z.shiftl d 24).

Definition gzip_isize (src : list Z) (srclen : Z) : outcome Z :=
  if srclen <? 4 then Ok 0 else le32_at src (srclen - 4).

(** [while (p < srclen && src[p++]) ;] *)
Fixpoint skip_string (fuel : nat) (src : list Z) (srclen p : Z) : outcome Z :=
  if p <? srclen then
    match fuel with
    | O => NoFuel
    | S fuel' => c ← aref src p; if c =? 0 then Ok (p +w 1) else skip_string fuel' src srclen (p +w 1)
    end
  else Ok p.

Definition gunzip (src : list Z) (srclen : Z) (dst : list Z) (dstcap : Z) : outcome (Z * list Z) :=
  gz ← is_gzip src srclen;
  if negb gz || (srclen <? 18) then Ok (-20, dst)
  else
    cm ← aref src 2;
    if negb (cm =? 8) then Ok (-21, dst)
    else
      flg ← aref src 3;
      let p := 10 in
      p ← (if negb (flg .& 4 =? 0) then
             if srclen <? p +w 2 then Ok None
             else x ← aref src p; y ← aref src (p + 1); Ok (Some (p +w (2 +w (x .| Z.shiftl y 8))))
           else Ok (Some p));
      match p with
      | None => Ok (-22, dst)
      | Some p =>
          p ← (if negb (flg .& 8 =? 0) then skip_string (Z.to_nat srclen) src srclen p else Ok p);
          p ← (if negb (flg .& 16 =? 0) then skip_string (Z.to_nat srclen) src srclen p else Ok p);
          let p := if negb (flg .& 2 =? 0) then p +w 2 else p in
          if srclen <? p +w 8 then Ok (-23, dst)
          else
            r ← inflate_raw (drop (Z.to_nat p) src) (srclen -w 8 -w p) dst dstcap;
            let '(n, dst) := r in
            if n <? 0 then Ok (n, dst)
            else
              isize ← gzip_isize src srclen;
              if negb (u32 n =? isize) then Ok (-24, dst)
              else
                stored_crc ← le32_at src (srclen - 8);
                crc ← crc32 dst (u32 n);
                if negb (crc =? stored_crc) then Ok (-25, dst) else Ok (n, dst)
      end.
