(* ===== verification/InflateBits.v ===== *)
(** The bit reader of [inflate.c] against the sequence of bits of its source. *)

From stdpp Require Import list.
From Stdlib Require Import ZArith Lia.
From S2P Require Import Prelude Checked Inflate.

(** * Bits of a number, lowest first *)

Definition zbits (n : nat) (v : Z) : list bool := (fun i => Z.testbit v (Z.of_nat i)) <$> seq 0 n.

Lemma length_zbits n v : length (zbits n v) = n.
Proof. unfold zbits. by rewrite length_fmap, length_seq. Qed.

Lemma zbits_lookup n v i : (i < n)%nat -> zbits n v !! i = Some (Z.testbit v (Z.of_nat i)).
Proof. intros Hi. unfold zbits. rewrite list_lookup_fmap, lookup_seq_lt by done. done. Qed.

Lemma zbits_0 v : zbits 0 v = [].
Proof. done. Qed.

Lemma zbits_ext n v w : (forall i, 0 <= i < Z.of_nat n -> Z.testbit v i = Z.testbit w i) -> zbits n v = zbits n w.
Proof.
  intros H. apply list_fmap_ext. intros i x Hx. apply lookup_seq in Hx as [-> Hi]. apply H. lia.
Qed.

Lemma zbits_split n m v : zbits (n + m) v = zbits n v ++ zbits m (v .>> Z.of_nat n).
Proof.
  unfold zbits. rewrite seq_app, fmap_app. f_equal. rewrite <- (Nat.add_0_r (0 + n)), <- fmap_add_seq, <- list_fmap_compose.
  apply list_fmap_ext. intros i x Hx. unfold compose. rewrite Z.shiftr_spec by lia. f_equal. lia.
Qed.

Lemma zbits_app k n v c : 0 <= v < 2 ^ Z.of_nat k ->
  zbits k v ++ zbits n c = zbits (k + n) (v .| Z.shiftl c (Z.of_nat k)).
Proof.
  intros Hv. rewrite zbits_split. f_equal.
  - apply zbits_ext. intros i Hi. rewrite Z.lor_spec, Z.shiftl_spec_low by lia. by rewrite orb_false_r.
  - f_equal. rewrite Z.shiftr_lor, Z.shiftr_shiftl_l, Z.sub_diag, Z.shiftl_0_r by lia.
    rewrite Z.shiftr_div_pow2, Z.div_small by lia. done.
Qed.

Lemma zbits_inj n v w : 0 <= v < 2 ^ Z.of_nat n -> 0 <= w < 2 ^ Z.of_nat n -> zbits n v = zbits n w -> v = w.
Proof.
  intros Hv Hw H. apply Z.bits_inj'. intros i Hi. destruct (decide (i < Z.of_nat n)) as [Hlt|Hge].
  - assert (E : zbits n v !! Z.to_nat i = zbits n w !! Z.to_nat i) by (by rewrite H).
    rewrite !zbits_lookup, !Z2Nat.id in E by lia. by injection E.
  - rewrite <- (Z.mod_small v (2 ^ Z.of_nat n)), <- (Z.mod_small w (2 ^ Z.of_nat n)) by done.
    rewrite !Z.mod_pow2_bits_high by lia. done.
Qed.

(** * The bits ahead *)

Definition byte (c : Z) : Prop := 0 <= c < 256.

Record binv (b : bitr) : Prop := {
  bi_src : Forall byte (b_src b);
  bi_len : 0 <= b_len b <= Z.of_nat (length (b_src b)) /\ b_len b < 2 ^ 32;
  bi_pos : 0 <= b_pos b <= b_len b;
  bi_cnt : 0 <= bitcnt b <= 24;
  bi_buf : 0 <= bitbuf b < 2 ^ bitcnt b;
}.

Definition rest (b : bitr) : list Z := drop (Z.to_nat (b_pos b)) (take (Z.to_nat (b_len b)) (b_src b)).
Definition bytes_bits (l : list Z) : list bool := l ≫= zbits 8.
Definition stream (b : bitr) : list bool := zbits (Z.to_nat (bitcnt b)) (bitbuf b) ++ bytes_bits (rest b).

Lemma length_bytes_bits l : length (bytes_bits l) = (8 * length l)%nat.
Proof. unfold bytes_bits. induction l as [|c l IH]; [done|]. cbn [mbind list_bind]. rewrite length_app, length_zbits, IH. cbn [length]. lia. Qed.

Lemma bytes_bits_app l l' : bytes_bits (l ++ l') = bytes_bits l ++ bytes_bits l'.
Proof. apply bind_app. Qed.

Lemma stream_length b : binv b -> Z.of_nat (length (stream b)) = bits_left b.
Proof.
  intros [_ Hl Hp Hc _]. unfold stream, rest, bits_left. rewrite length_app, length_zbits, length_bytes_bits, length_drop, length_take. lia.
Qed.

Lemma rest_cons b : binv b -> b_pos b < b_len b ->
  exists c, byte c /\ aref (b_src b) (b_pos b) = Ok c /\ rest b = c :: rest (set_pos (b_pos b + 1) b).
Proof.
  intros [Hs Hl Hp _ _] Hlt. destruct (aref_in (b_src b) (b_pos b)) as (c & Hc & Ha); [lia|].
  exists c. split; [by eapply Forall_lookup_1|]. split; [done|]. unfold rest. cbn.
  replace (Z.to_nat (b_pos b + 1)) with (S (Z.to_nat (b_pos b))) by lia. apply drop_S. rewrite lookup_take_lt; [done|lia].
Qed.

(** A round of the filling loop leaves the bits ahead as they are. *)
Lemma fill_round b c : binv b -> bitcnt b < 16 -> b_pos b < b_len b -> byte c ->
  rest b = c :: rest (set_pos (b_pos b + 1) b) ->
  let b' := set_buf (bitbuf b .| c .<< bitcnt b) (bitcnt b +w 8) (set_pos (b_pos b +w 1) b) in
  binv b' /\ stream b' = stream b /\ bitcnt b' = bitcnt b + 8 /\ b_err b' = b_err b /\ b_len b' = b_len b.
Proof.
  intros [Hs Hl Hp Hcn Hb] H16 Hlt Hc Hr. unfold byte in Hc. cbn zeta.
  assert (Hcl : Z.shiftl c (bitcnt b) < 2 ^ (bitcnt b + 8)).
  { rewrite Z.shiftl_mul_pow2, Z.pow_add_r, Z.mul_comm by lia. apply Z.mul_lt_mono_pos_l; lia. }
  assert (H24 : 2 ^ (bitcnt b + 8) <= 2 ^ 24) by (apply Z.pow_le_mono_r; lia).
  assert (Hc0 : 0 <= Z.shiftl c (bitcnt b)) by (apply Z.shiftl_nonneg; lia).
  assert (E : u32 (Z.shiftl c (bitcnt b)) = Z.shiftl c (bitcnt b)) by (apply u32_small; lia).
  rewrite E, !u32_small by lia. cbn [bitcnt set_buf b_err set_pos].
  split; [|split; [|done]].
  - split; cbn; try done; try lia. split; [apply Z.lor_nonneg; lia|].
    destruct (decide (bitbuf b .| Z.shiftl c (bitcnt b) = 0)) as [->|]; [lia|].
    apply Z.log2_lt_pow2; [pose proof (proj2 (Z.lor_nonneg (bitbuf b) (Z.shiftl c (bitcnt b)))); lia|].
    rewrite Z.log2_lor by lia. apply Z.max_lub_lt.
    + destruct (decide (bitbuf b = 0)) as [->|]; [cbn; lia|].
      apply Z.lt_le_trans with (bitcnt b); [apply Z.log2_lt_pow2|]; lia.
    + destruct (decide (Z.shiftl c (bitcnt b) = 0)) as [->|]; [cbn; lia|]. apply Z.log2_lt_pow2; lia.
  - unfold stream. cbn [bitbuf bitcnt set_buf set_pos]. rewrite Hr. unfold rest. cbn [set_buf set_pos b_pos b_len b_src].
    cbn [bytes_bits mbind list_bind]. rewrite app_assoc. f_equal.
    rewrite zbits_app by (rewrite Z2Nat.id by lia; lia). rewrite Z2Nat.id by lia. f_equal. lia.
Qed.

Lemma fill_spec fuel : forall n b, binv b -> 0 <= n <= 16 -> n <= 8 * Z.of_nat fuel + bitcnt b ->
  ok (fill fuel n b) (fun '(full, b') => binv b' /\ stream b' = stream b /\ b_len b' = b_len b /\
    if full : bool then n <= bitcnt b' /\ b_err b' = b_err b /\ bitcnt b' <= Z.max (bitcnt b) (n + 7)
    else b_err b' = true /\ bits_left b < n).
Proof.
  induction fuel as [|fuel IH]; intros n b Hb Hn Hf.
  - cbn. rewrite (proj2 (Z.ltb_ge _ _)) by lia. cbn. do 3 (split; [done|]). split; [lia|]. split; [done|lia].
  - cbn [fill]. destruct (Z.ltb_spec (bitcnt b) n) as [Hlt|Hge].
    2:{ cbn. do 3 (split; [done|]). split; [lia|]. split; [done|lia]. }
    destruct (Z.leb_spec (b_len b) (b_pos b)) as [Hend|Hmore].
    { cbn. split; [by destruct Hb; split|]. do 3 (split; [done|]). unfold bits_left. destruct Hb. lia. }
    destruct (rest_cons b Hb Hmore) as (c & Hc & -> & Hr). cbn [mbind outcome_bind].
    destruct (fill_round b c Hb ltac:(lia) Hmore Hc Hr) as (Hb' & Hst & Hcn & He & Hln).
    eapply ok_mono; [apply IH; [exact Hb'|lia|rewrite Hcn; lia]|].
    intros [full b'] (H1 & H2 & H0 & H3). split; [done|]. split; [congruence|]. split; [congruence|]. destruct full.
    + destruct H3 as (H3 & H4 & H5). split; [done|]. split; [congruence|]. rewrite Hcn in H5. lia.
    + destruct H3 as [H3 H4]. split; [done|]. rewrite <- stream_length, Hst, stream_length in H4 by done. done.
Qed.

(** [bits n] takes the next [n] bits as a number, lowest bit first; when fewer
    are left it flags the error and returns 0. *)
Lemma bits_spec n b : binv b -> 0 <= n <= 16 ->
  cok (bits n) b (fun v b' => binv b' /\ b_len b' = b_len b /\ 0 <= v < 2 ^ n /\
    ((stream b = zbits (Z.to_nat n) v ++ stream b' /\ b_err b' = b_err b /\ (bitcnt b <= 7 -> bitcnt b' <= 7)) \/
     (bits_left b < n /\ b_err b' = true /\ stream b' = stream b))).
Proof.
  intros Hb Hn. unfold bits. apply cok_bind. unfold cok at 1.
  eapply ok_mono; [apply (fill_spec (Z.to_nat n) n b Hb Hn); destruct Hb; lia|].
  intros [full b1] (Hb1 & Hst & Hln & H). destruct full.
  2:{ destruct H as [He Hl]. apply cok_ret. cbn [fst snd]. split; [done|]. split; [done|]. split; [lia|]. right. done. }
  destruct H as (Hcn & He & Hmax). apply cok_bind, cok_look, cok_bind, cok_change, cok_ret. cbn [fst snd].
  destruct Hb1 as [Hs Hl Hp Hc Hbuf].
  assert (E1 : 1 .<< n = 2 ^ n).
  { rewrite Z.shiftl_1_l, u32_small; [done|]. split; [lia|]. apply Z.pow_lt_mono_r; lia. }
  assert (Hpn : 0 < 2 ^ n <= 2 ^ 16) by (split; [|apply Z.pow_le_mono_r]; lia).
  rewrite E1, (u32_small (2 ^ n - 1)), land_ones_mod by lia. rewrite u32_small by lia.
  pose proof (Z.mod_pos_bound (bitbuf b1) (2 ^ n) ltac:(lia)) as Hm.
  split; [|split; [done|split; [done|left; split; [|split; [done|cbn; lia]]]]].
  - split; cbn; try done; try lia. rewrite Z.shiftr_div_pow2 by lia. split; [apply Z.div_pos; lia|].
    apply Z.div_lt_upper_bound; [lia|]. rewrite <- Z.pow_add_r by lia. replace (n + (bitcnt b1 - n)) with (bitcnt b1) by lia. lia.
  - rewrite <- Hst. unfold stream, rest. cbn [bitcnt bitbuf set_buf b_src b_pos b_len]. rewrite app_assoc. f_equal.
    replace (Z.to_nat (bitcnt b1)) with (Z.to_nat n + Z.to_nat (bitcnt b1 - n))%nat by lia.
    rewrite zbits_split, Z2Nat.id by lia. f_equal. apply zbits_ext. intros i Hi. rewrite Z.mod_pow2_bits_low by lia. done.
Qed.

(** The reader moved from [b] to [b'], which has the bits [t] ahead. *)
Record moved (b b' : bitr) (t : list bool) : Prop := {
  mv_inv : binv b';
  mv_stream : stream b' = t;
  mv_err : b_err b' = b_err b;
  mv_len : b_len b' = b_len b;
  mv_cnt : bitcnt b <= 7 -> bitcnt b' <= 7;
}.

Lemma moved_trans b b1 b2 s t : moved b b1 s -> moved b1 b2 t -> moved b b2 t.
Proof. intros [A1 A2 A3 A4 A5] [B1 B2 B3 B4 B5]. split; try done; try congruence; auto. Qed.

(** When the bits ahead start with [v], [bits] returns it. *)
Lemma bits_next n v s b : binv b -> 0 <= n <= 16 -> 0 <= v < 2 ^ n -> stream b = zbits (Z.to_nat n) v ++ s ->
  cok (bits n) b (fun w b' => w = v /\ moved b b' s).
Proof.
  intros Hb Hn Hv Hs. eapply cok_mono; [by apply bits_spec|]. intros w b' (Hb' & Hl & Hw & [(H1 & H2 & H3)|(H1 & _)]).
  - rewrite Hs in H1. apply app_inj_1 in H1 as [H1 H4]; [|by rewrite !length_zbits].
    apply zbits_inj in H1; [|by rewrite Z2Nat.id by lia..]. split; [done|]. by split.
  - rewrite <- (stream_length b Hb), Hs, length_app, length_zbits in H1. lia.
Qed.

(** ** Progress

    [adv m b b']: the reader moved from [b] to [b'], by [m] bits at least unless
    it ran past the end, which is never forgotten. *)
Record adv (m : Z) (b b' : bitr) : Prop := {
  ad_inv : binv b';
  ad_len : b_len b' = b_len b;
  ad_left : bits_left b' <= bits_left b;
  ad_err : b_err b = true -> b_err b' = true;
  ad_move : b_err b' = false -> bits_left b' + m <= bits_left b /\ (bitcnt b <= 7 -> bitcnt b' <= 7);
}.

Lemma adv_refl b : binv b -> adv 0 b b.
Proof. intros H. split; try done; lia. Qed.

Lemma adv_trans m m' b b1 b2 : adv m b b1 -> adv m' b1 b2 -> adv (m + m') b b2.
Proof.
  intros [A1 A0 A2 A3 A4] [B1 B0 B2 B3 B4]. split; [done|congruence|lia|auto|]. intros He.
  assert (He1 : b_err b1 = false) by (destruct (b_err b1); [by rewrite B3 in He|done]).
  destruct (A4 He1) as [A5 A6]. destruct (B4 He) as [B5 B6]. split; [lia|auto].
Qed.

Lemma adv_weaken m m' b b' : m' <= m -> adv m b b' -> adv m' b b'.
Proof. intros Hm [A1 A0 A2 A3 A4]. split; try done. intros He. destruct (A4 He). split; [lia|done]. Qed.

Lemma bits_adv n b : binv b -> 0 <= n <= 16 -> cok (bits n) b (fun v b' => adv n b b' /\ 0 <= v < 2 ^ n).
Proof.
  intros Hb Hn. eapply cok_mono; [by apply bits_spec|]. intros v b' (Hb' & Hln & Hv & H). split; [|done].
  assert (Hl : bits_left b' <= bits_left b /\ (b_err b' = true \/ b_err b' = b_err b)).
  { rewrite <- !stream_length by done. destruct H as [(H1 & H2 & _)|(_ & H2 & H3)].
    - rewrite H1, length_app. split; [lia|auto].
    - rewrite H3. split; [lia|auto]. }
  split; [done|done|lia|destruct Hl as [_ [->| ->]]; auto|]. intros He. destruct H as [(H1 & H2 & H3)|(_ & H2 & _)]; [|congruence].
  split; [|done]. rewrite <- !stream_length, H1, length_app, length_zbits by done. lia.
Qed.
