(* ===== verification/InflateHuff.v ===== *)
(** The Huffman tables of [inflate.c] decode the canonical code of RFC 1951. *)

From stdpp Require Import list.
From Stdlib Require Import ZArith Lia.
From S2P Require Import Prelude Checked Inflate InflateBits.

(** * The canonical code of a list of code lengths

    The codes of length [l] are consecutive numbers from [first_code l], given to
    the symbols of that length in order. *)

Definition cnt (ls : list Z) (l : nat) : Z := match l with O => 0 | _ => occ (Z.of_nat l) ls end.

Fixpoint first_code (ls : list Z) (l : nat) : Z :=
  match l with O => 0 | S l' => 2 * (first_code ls l' + cnt ls l') end.

Definition code (ls : list Z) (s : nat) (l : Z) : Z := first_code ls (Z.to_nat l) + occ l (take s ls).

(** No length has more codes than are left for it. *)
Definition kraft (ls : list Z) : Prop := forall l, (l <= 15)%nat -> first_code ls l + cnt ls l <= 2 ^ Z.of_nat l.

(** The code of symbol [s], most significant bit first. *)
Definition code_bits (ls : list Z) (s : nat) : list bool :=
  match ls !! s with Some l => reverse (zbits (Z.to_nat l) (code ls s l)) | None => [] end.

(** * Tables *)

(** symbols of a length less than [l] *)
Fixpoint idx (ls : list Z) (l : nat) : Z := match l with O => 0 | S l' => idx ls l' + cnt ls l' end.

Definition lens_ok (ls : list Z) : Prop := Forall (fun l => 0 <= l <= 15) ls /\ (length ls <= 288)%nat.

Record huff_ok (ls : list Z) (h : huff) : Prop := {
  ho_lens : lens_ok ls;
  ho_kraft : kraft ls;
  ho_count : length (h_count h) = 16%nat /\ forall l, 0 < l <= 15 -> h_count h !! Z.to_nat l = Some (occ l ls);
  ho_len : length (h_symbol h) = 288%nat;
  ho_sym : forall s l, ls !! s = Some l -> l <> 0 ->
    h_symbol h !! Z.to_nat (idx ls (Z.to_nat l) + occ l (take s ls)) = Some (Some (Z.of_nat s));
  ho_def : forall l i, 0 < l <= 15 -> 0 <= i < occ l ls ->
    exists s, h_symbol h !! Z.to_nat (idx ls (Z.to_nat l) + i) = Some (Some (Z.of_nat s)) /\ (s < length ls)%nat;
}.

Lemma cnt_nonneg ls l : 0 <= cnt ls l.
Proof. destruct l; cbn; [lia|apply occ_nonneg]. Qed.

Lemma cnt_pos ls l : 0 < l -> cnt ls (Z.to_nat l) = occ l ls.
Proof. intros Hl. destruct (Z.to_nat l) eqn:E; [lia|]. cbn [cnt]. f_equal. lia. Qed.

Lemma idx_nonneg ls l : 0 <= idx ls l.
Proof. induction l; cbn [idx]; [lia|]. pose proof (cnt_nonneg ls l). lia. Qed.

Lemma first_code_nonneg ls l : 0 <= first_code ls l.
Proof. induction l; cbn [first_code]; [lia|]. pose proof (cnt_nonneg ls l). lia. Qed.

Lemma idx_mono ls l l' : (l < l')%nat -> idx ls l + cnt ls l <= idx ls l'.
Proof. induction 1 as [|m H IH]; cbn [idx]; [lia|]. pose proof (cnt_nonneg ls m). lia. Qed.

(** Longer codes start above the shorter ones. *)
Lemma first_code_above ls l k : (first_code ls l + cnt ls l) * 2 ^ Z.of_nat (S k) <= first_code ls (S k + l).
Proof.
  induction k as [|k IH]; [cbn [first_code Nat.add]; change (2 ^ Z.of_nat 1) with 2; lia|].
  change (S (S k) + l)%nat with (S (S k + l)). cbn [first_code]. pose proof (cnt_nonneg ls (S k + l)).
  replace (Z.of_nat (S (S k))) with (Z.of_nat (S k) + 1) by lia. rewrite Z.pow_add_r, Z.pow_1_r by lia. lia.
Qed.

Lemma occ_take_lt ls s l : ls !! s = Some l -> occ l (take s ls) + 1 <= occ l ls.
Proof.
  intros Hs. rewrite <- (take_drop_middle ls s l Hs) at 2. rewrite occ_app, occ_cons, decide_True by done.
  pose proof (occ_nonneg l (drop (S s) ls)). lia.
Qed.

Lemma occ_take_take ls s s' l : ls !! s = Some l -> (s < s')%nat -> occ l (take s ls) + 1 <= occ l (take s' ls).
Proof.
  intros Hs Hlt. pose proof (occ_take_lt (take s' ls) s l) as H. rewrite lookup_take_lt, take_take, Nat.min_l in H by lia. auto.
Qed.

Lemma occ_take_S ls s l k : ls !! s = Some l -> occ k (take (S s) ls) = occ k (take s ls) + (if decide (l = k) then 1 else 0).
Proof. intros Hs. rewrite (take_S_r ls s l Hs), occ_app, occ_cons. change (occ k []) with 0. lia. Qed.

Lemma occ_take_full ls k : occ k (take (length ls) ls) = occ k ls.
Proof. by rewrite firstn_all. Qed.

Lemma code_range ls s l : kraft ls -> ls !! s = Some l -> 0 < l <= 15 -> 0 <= code ls s l < 2 ^ l.
Proof.
  intros Hk Hs Hl. unfold code. pose proof (first_code_nonneg ls (Z.to_nat l)). pose proof (occ_nonneg l (take s ls)).
  pose proof (occ_take_lt ls s l Hs). specialize (Hk (Z.to_nat l) ltac:(lia)). rewrite cnt_pos, Z2Nat.id in Hk by lia. lia.
Qed.

(** the number of symbols with a code fits the table *)
Lemma idx_cons x ls l : idx (x :: ls) l = idx ls l + (if decide (0 < x < Z.of_nat l) then 1 else 0).
Proof.
  induction l as [|l IH]; cbn [idx]; [case_decide; lia|]. rewrite IH. destruct l as [|l]; cbn [cnt].
  - repeat case_decide; lia.
  - rewrite occ_cons. repeat case_decide; lia.
Qed.

Lemma idx_nil l : idx [] l = 0.
Proof. induction l as [|l IH]; cbn [idx]; [done|]. rewrite IH. by destruct l. Qed.

Lemma idx_bound ls l : idx ls l <= Z.of_nat (length ls).
Proof.
  induction ls as [|x ls IH]; [rewrite idx_nil; cbn; lia|]. rewrite idx_cons. cbn [length]. case_decide; lia.
Qed.

(** * Building *)

Section build.
Context (length_ : list Z) (n : nat).
Context (Hn : (n <= length length_)%nat) (Hok : lens_ok (take n length_)).
Abbreviation ls := (take n length_).

Lemma ls_at s : (s < n)%nat -> exists l, length_ !! s = Some l /\ ls !! s = Some l /\ 0 <= l <= 15.
Proof.
  intros Hs. destruct (lookup_lt_is_Some_2 length_ s) as [l Hl]; [lia|]. exists l. split; [done|].
  assert (E : ls !! s = Some l) by (by rewrite lookup_take_lt). split; [done|]. by apply (Forall_lookup_1 _ _ _ _ (proj1 Hok) E).
Qed.

Lemma count_lengths_spec : ok (count_lengths length_ n) (fun c => length c = 16%nat /\
  forall l, 0 <= l <= 15 -> c !! Z.to_nat l = Some (occ l ls)).
Proof.
  unfold count_lengths. apply ok_bind.
  eapply ok_mono; [apply (ok_iter (fun _ c => length c = 16%nat /\ forall l, 0 <= l <= 15 -> c !! Z.to_nat l = Some 0))|].
  - split; [done|]. intros l Hl. apply lookup_replicate_2. lia.
  - intros k c Hk [Hc H0]. apply ok_aset; [lia|]. rewrite length_insert. split; [done|]. intros l Hl.
    destruct (decide (l = k)) as [->|]; [rewrite list_lookup_insert_eq by lia; done|]. rewrite list_lookup_insert_ne by lia. auto.
  - intros c [Hc H0].
    eapply ok_mono; [apply (ok_iter (fun s c => length c = 16%nat /\ forall l, 0 <= l <= 15 -> c !! Z.to_nat l = Some (occ l (take (Z.to_nat s) ls))))|].
    + split; [done|]. intros l Hl. rewrite H0 by done. done.
    + intros s c' Hs [Hc' Hl']. destruct (ls_at (Z.to_nat s)) as (l & Hl1 & Hl2 & Hl); [lia|].
      rewrite (aref_ok _ s l) by (done || lia). cbn [mbind outcome_bind]. rewrite (aref_ok _ l _ ltac:(lia) (Hl' l Hl)).
      cbn [mbind outcome_bind]. apply ok_aset; [lia|]. rewrite length_insert. split; [done|]. intros k Hk.
      replace (Z.to_nat (s + 1)) with (S (Z.to_nat s)) by lia. rewrite (occ_take_S _ _ _ _ Hl2).
      destruct (decide (l = k)) as [->|]; [rewrite list_lookup_insert_eq by lia; done|].
      rewrite list_lookup_insert_ne by lia. rewrite Hl' by done. f_equal. lia.
    + intros c' [H1 H2]. split; [done|]. intros l Hl. rewrite H2 by done. f_equal. rewrite firstn_all2; [done|]. rewrite length_take. lia.
Qed.

Definition counts (c : list Z) : Prop := length c = 16%nat /\ forall l, 0 <= l <= 15 -> c !! Z.to_nat l = Some (occ l ls).

Lemma offsets_spec c : counts c -> ok (offsets c) (fun o => length o = 16%nat /\
  forall l, 1 <= l <= 15 -> o !! Z.to_nat l = Some (idx ls (Z.to_nat l))).
Proof.
  intros [Hc Hcl]. unfold offsets.
  eapply ok_mono; [apply (ok_iter (fun l o => length o = 16%nat /\ forall k, 1 <= k <= l -> o !! Z.to_nat k = Some (idx ls (Z.to_nat k))))|].
  - split; [done|]. intros k Hk. replace k with 1 by lia. cbn. done.
  - intros l o Hl [Ho H]. rewrite (aref_ok _ l _ ltac:(lia) (H l ltac:(lia))). cbn [mbind outcome_bind].
    rewrite (aref_ok _ l _ ltac:(lia) (Hcl l ltac:(lia))). cbn [mbind outcome_bind].
    apply ok_aset; [lia|]. rewrite length_insert. split; [done|]. intros k Hk. destruct (decide (k = l + 1)) as [->|].
    + rewrite list_lookup_insert_eq by lia. f_equal. replace (Z.to_nat (l + 1)) with (S (Z.to_nat l)) by lia. cbn [idx].
      by rewrite cnt_pos by lia.
    + rewrite list_lookup_insert_ne by lia. apply H. lia.
  - intros o [Ho H]. split; [done|]. intros l Hl. apply H. lia.
Qed.

(** The loop that places the symbols, [s] of them done. *)
Definition placed (s : nat) (o : list Z) (sym : list (option Z)) : Prop :=
  length o = 16%nat /\ length sym = 288%nat /\
  (forall l, 1 <= l <= 15 -> o !! Z.to_nat l = Some (idx ls (Z.to_nat l) + occ l (take s ls))) /\
  (forall s' l, (s' < s)%nat -> ls !! s' = Some l -> l <> 0 ->
     sym !! Z.to_nat (idx ls (Z.to_nat l) + occ l (take s' ls)) = Some (Some (Z.of_nat s'))) /\
  (forall l i, 1 <= l <= 15 -> 0 <= i < occ l (take s ls) ->
     exists s', sym !! Z.to_nat (idx ls (Z.to_nat l) + i) = Some (Some (Z.of_nat s')) /\ (s' < n)%nat).

(** Slots of different symbols differ. *)
Lemma slot_order l l' i i' : 1 <= l -> 0 <= i < occ l ls -> 0 <= i' -> l < l' ->
  idx ls (Z.to_nat l) + i < idx ls (Z.to_nat l') + i'.
Proof.
  intros Hl Hi Hi' Hlt. pose proof (idx_mono ls (Z.to_nat l) (Z.to_nat l') ltac:(lia)) as H. rewrite cnt_pos in H by lia. lia.
Qed.

Lemma slot_ne l l' i i' : 1 <= l <= 15 -> 1 <= l' <= 15 -> 0 <= i < occ l ls -> 0 <= i' < occ l' ls ->
  (l, i) <> (l', i') -> Z.to_nat (idx ls (Z.to_nat l) + i) <> Z.to_nat (idx ls (Z.to_nat l') + i').
Proof.
  intros Hl Hl' Hi Hi' Hne. pose proof (idx_nonneg ls (Z.to_nat l)). pose proof (idx_nonneg ls (Z.to_nat l')).
  destruct (Z.lt_trichotomy l l') as [H1|[->|H1]].
  - pose proof (slot_order l l' i i'). lia.
  - assert (i <> i') by congruence. lia.
  - pose proof (slot_order l' l i' i). lia.
Qed.

Lemma occ_take_le s l : occ l (take s ls) <= occ l ls.
Proof. rewrite <- (take_drop s ls) at 2. rewrite occ_app. pose proof (occ_nonneg l (drop s ls)). lia. Qed.

Lemma slot_bound s l : ls !! s = Some l -> 1 <= l <= 15 ->
  0 <= idx ls (Z.to_nat l) + occ l (take s ls) < 288.
Proof.
  intros Hs Hl. pose proof (occ_take_lt _ _ _ Hs). pose proof (idx_bound ls (S (Z.to_nat l))) as Hb. cbn [idx] in Hb.
  rewrite cnt_pos in Hb by lia. pose proof (idx_nonneg ls (Z.to_nat l)). pose proof (occ_nonneg l (take s ls)). destruct Hok. lia.
Qed.

Lemma place_symbols_spec o sym : length sym = 288%nat -> length o = 16%nat ->
  (forall l, 1 <= l <= 15 -> o !! Z.to_nat l = Some (idx ls (Z.to_nat l))) ->
  ok (place_symbols length_ n o sym) (fun r => placed n r.1 r.2).
Proof.
  intros Hsym Ho Hol. unfold place_symbols.
  eapply ok_mono; [apply (ok_iter (fun s (r : list Z * list (option Z)) => placed (Z.to_nat s) r.1 r.2))|].
  - split; [done|]. split; [done|]. split; [|split].
    + intros l Hl. cbn [fst]. rewrite Hol by done. f_equal. change (occ l (take _ _)) with 0. lia.
    + intros s' l Hs'. lia.
    + intros l i Hl Hi. change (occ l (take _ _)) with 0 in Hi. lia.
  - intros s [o' sym'] Hs (P1 & P2 & P3 & P4 & P5). cbn [fst snd] in *.
    destruct (ls_at (Z.to_nat s)) as (l & Hl1 & Hl2 & Hl); [lia|].
    rewrite (aref_ok _ s l) by (done || lia). cbn [mbind outcome_bind].
    replace (Z.to_nat (s + 1)) with (S (Z.to_nat s)) by lia.
    assert (Hnew : forall k, occ k (take (S (Z.to_nat s)) ls) = occ k (take (Z.to_nat s) ls) + (if decide (l = k) then 1 else 0))
      by (intros; by apply occ_take_S).
    destruct (Z.eqb_spec l 0) as [->|Hl0].
    { cbn. split; [done|]. split; [done|]. split; [|split].
      - intros k Hk. rewrite P3, Hnew, decide_False by lia. f_equal. lia.
      - intros s' k Hs' Hk Hk0. apply P4; try done. assert (s' <> Z.to_nat s) by congruence. lia.
      - intros k i Hk Hi. rewrite Hnew, decide_False in Hi by lia. apply P5; lia. }
    rewrite (aref_ok _ l _ ltac:(lia) (P3 l ltac:(lia))). cbn [mbind outcome_bind].
    pose proof (slot_bound _ _ Hl2 ltac:(lia)) as Hsb. rewrite aset_ok by lia. cbn [mbind outcome_bind].
    rewrite aset_ok by lia. cbn [mbind outcome_bind ok fst snd].
    pose proof (occ_take_lt _ _ _ Hl2) as Hlt. pose proof (occ_nonneg l (take (Z.to_nat s) ls)) as H0.
    split; [by rewrite length_insert|]. split; [by rewrite length_insert|]. split; [|split].
    + intros k Hk. rewrite Hnew. case_decide as Hlk.
      * subst k. rewrite list_lookup_insert_eq by lia. f_equal. lia.
      * rewrite list_lookup_insert_ne, P3 by lia. f_equal. lia.
    + intros s' k Hs' Hk Hk0. destruct (decide (s' = Z.to_nat s)) as [->|Hne].
      * replace k with l by congruence. rewrite list_lookup_insert_eq by lia. do 2 f_equal. lia.
      * rewrite list_lookup_insert_ne; [by apply P4; [lia|..]|].
        pose proof (Forall_lookup_1 _ _ _ _ (proj1 Hok) Hk) as Hkr. cbn beta in Hkr.
        pose proof (occ_take_lt _ _ _ Hk). pose proof (occ_nonneg k (take s' ls)).
        apply slot_ne; [lia..|]. intros [= -> Heq].
        pose proof (occ_take_take ls s' (Z.to_nat s) k Hk). lia.
    + intros k i Hk Hi. pose proof (occ_take_le (S (Z.to_nat s)) k) as Hle. assert (Hi' : 0 <= i < occ k ls) by lia.
      rewrite Hnew in Hi. destruct (decide (k = l /\ i = occ l (take (Z.to_nat s) ls))) as [[-> ->]|Hne].
      * exists (Z.to_nat s). rewrite list_lookup_insert_eq by lia. split; [do 2 f_equal; lia|lia].
      * rewrite list_lookup_insert_ne.
        -- apply P5; [lia|]. case_decide; [|lia]. subst k. assert (i <> occ l (take (Z.to_nat s) ls)) by naive_solver. lia.
        -- apply slot_ne; [lia..|]. intros [= -> <-]. naive_solver.
  - intros [o' sym']. by rewrite Z.add_0_l, Nat2Z.id.
Qed.

(** the slack of each length *)
Lemma check_left_spec c : counts c -> forall k l, (l + k = 15)%nat ->
  (forall j, (j <= l)%nat -> first_code ls j + cnt ls j <= 2 ^ Z.of_nat j) ->
  ok (check_left k (Z.of_nat (S l)) (2 ^ Z.of_nat l - (first_code ls l + cnt ls l)) c) (fun r =>
    match r with Some lf => 0 <= lf /\ kraft ls | None => ~ kraft ls end).
Proof.
  intros [Hc Hcl]. induction k as [|k IH]; intros l Hlk Hle.
  - cbn. pose proof (Hle l (le_n _)). split; [lia|]. intros j Hj. apply Hle. lia.
  - cbn [check_left]. rewrite (aref_ok _ (Z.of_nat (S l)) _ ltac:(lia) (Hcl (Z.of_nat (S l)) ltac:(lia))). cbn [mbind outcome_bind].
    assert (E : 2 * (2 ^ Z.of_nat l - (first_code ls l + cnt ls l)) - occ (Z.of_nat (S l)) ls =
                2 ^ Z.of_nat (S l) - (first_code ls (S l) + cnt ls (S l))).
    { cbn [first_code cnt]. rewrite Nat2Z.inj_succ, Z.pow_succ_r by lia. lia. }
    rewrite E. destruct (Z.ltb_spec (2 ^ Z.of_nat (S l) - (first_code ls (S l) + cnt ls (S l))) 0) as [Hneg|Hpos].
    + cbn. intros Hk. specialize (Hk (S l) ltac:(lia)). lia.
    + replace (Z.of_nat (S l) + 1) with (Z.of_nat (S (S l))) by lia. apply IH; [lia|].
      intros j Hj. destruct (decide (j = S l)) as [->|]; [lia|]. apply Hle. lia.
Qed.

Lemma kraft_none : occ 0 ls = Z.of_nat n -> (forall l, 0 < l -> occ l ls = 0) /\ kraft ls.
Proof.
  intros H0. assert (Hz : Forall (fun x => x = 0) ls).
  { assert (Hl : length ls = n) by (rewrite length_take; lia). revert H0 Hl. generalize ls. clear.
    intros l. revert n. induction l as [|x l IH]; intros n H0 Hl; [constructor|]. rewrite occ_cons in H0. cbn [length] in Hl.
    assert (Hb : occ 0 l <= Z.of_nat (length l)) by (unfold occ; pose proof (length_filter (fun x => x = 0) l); lia).
    destruct (decide (x = 0)); [|lia]. constructor; [done|]. apply (IH (length l)); lia. }
  assert (Hno : forall l, 0 < l -> occ l ls = 0).
  { intros l Hl. pose proof (occ_nonneg l ls). destruct (decide (0 < occ l ls)) as [Hp|]; [|lia].
    apply occ_pos in Hp. rewrite Forall_forall in Hz. specialize (Hz l Hp). lia. }
  split; [done|]. assert (Hcn : forall l, cnt ls l = 0) by (intros [|l]; cbn [cnt]; [done|apply Hno; lia]).
  assert (Hf : forall l, first_code ls l = 0) by (intros l; induction l as [|l IH]; cbn [first_code]; [done|rewrite IH, Hcn; done]).
  intros l _. rewrite Hf, Hcn. lia.
Qed.

(** [huff_build] rejects exactly the over-subscribed lengths; otherwise its table
    decodes the canonical code. *)
Lemma huff_build_spec h : length (h_symbol h) = 288%nat ->
  ok (huff_build h length_ (Z.of_nat n)) (fun '(r, h') =>
    length (h_symbol h') = 288%nat /\ ((r < 0 /\ ~ kraft ls) \/ (0 <= r /\ huff_ok ls h'))).
Proof.
  intros Hh. unfold huff_build. rewrite Nat2Z.id. apply ok_bind. eapply ok_mono; [apply count_lengths_spec|].
  intros c Hc. pose proof Hc as [Hcl Hcc]. rewrite (aref_ok c 0 (occ 0 ls)) by (done || (apply Hcc; lia)). cbn [mbind outcome_bind].
  assert (Hcnt : forall l, 0 < l <= 15 -> c !! Z.to_nat l = Some (occ l ls)) by (intros; apply Hcc; lia).
  destruct (Z.eqb_spec (occ 0 ls) (Z.of_nat n)) as [Hz|Hnz].
  { cbn. split; [done|]. right. split; [lia|]. destruct (kraft_none Hz) as [Hno Hk]. split; try done.
    - intros s l Hs Hl. pose proof (Forall_lookup_1 _ _ _ _ (proj1 Hok) Hs). cbn beta in *.
      pose proof (occ_take_lt _ _ _ Hs). pose proof (occ_nonneg l (take s ls)). rewrite (Hno l) in * by lia. lia.
    - intros l i Hl Hi. rewrite Hno in Hi by lia. lia. }
  apply ok_bind. eapply ok_mono; [apply (check_left_spec c Hc 15 0); [done|]|].
  { intros j Hj. replace j with 0%nat by lia. cbn. lia. }
  intros [lf|]; [|intros Hk; cbn; split; [done|by left]].
  intros [Hl Hk]. apply ok_bind. eapply ok_mono; [by apply offsets_spec|]. intros o [Ho Hol].
  apply ok_bind. eapply ok_mono; [by apply place_symbols_spec|]. intros [o' sym'] (P1 & P2 & P3 & P4 & P5). cbn [fst snd] in *.
  cbn. split; [done|]. right. split; [done|]. split; try done.
  - intros s l Hs Hl0. cbn. apply P4; try done. apply lookup_lt_Some in Hs. rewrite length_take in Hs. lia.
  - intros l i Hl1 Hi. cbn. rewrite length_take, Nat.min_l by lia. apply P5; [lia|]. rewrite firstn_all2; [done|]. rewrite length_take. lia.
Qed.
End build.

(** * Decoding *)

Lemma lor_bit code v : code mod 2 = 0 -> 0 <= v < 2 -> code .| v = code + v.
Proof.
  intros Hc Hv. rewrite <- Z.add_lor_land. assert (E : code .& v = 0); [|lia].
  destruct (decide (v = 0)) as [->|]; [apply Z.land_0_r|]. assert (v = 1) as -> by lia. rewrite <- Hc. exact (Z.land_ones code 1 ltac:(lia)).
Qed.

Lemma reverse_zbits_S m c : reverse (zbits (S m) c) = zbits 1 (c .>> Z.of_nat m) ++ reverse (zbits m c).
Proof. rewrite <- Nat.add_1_r, zbits_split, reverse_app. done. Qed.

(** the next bit of a code, taken from its top *)
Lemma next_code_bit m c b t : 0 <= c -> binv b -> stream b = reverse (zbits (S m) c) ++ t ->
  cok (bits 1) b (fun v b' => 2 * (c .>> Z.of_nat (S m)) .| v = c .>> Z.of_nat m /\
    moved b b' (reverse (zbits m c) ++ t)).
Proof.
  intros Hc Hb Hst. rewrite reverse_zbits_S, <- app_assoc in Hst. set (x := c .>> Z.of_nat m) in *.
  assert (Hx : 0 <= x mod 2 < 2 ^ 1) by (apply Z.mod_pos_bound; lia).
  eapply cok_mono; [apply (bits_next 1 (x mod 2)); [done|lia|done|]|].
  - rewrite Hst. f_equal. apply zbits_ext. intros i Hi. by rewrite (Z.mod_pow2_bits_low x 1) by lia.
  - intros v b' (-> & H). split; [|exact H]. rewrite lor_bit; [|rewrite Z.mul_comm; apply Z_mod_mult|done].
    replace (Z.of_nat (S m)) with (Z.of_nat m + 1) by lia. rewrite <- Z.shiftr_shiftr by lia. fold x.
    rewrite (Z.shiftr_div_pow2 x 1) by lia. change (2 ^ 1) with 2. pose proof (Z.div_mod x 2). lia.
Qed.

Section decode.
Context (ls : list Z) (h : huff) (Hh : huff_ok ls h).

(** Whatever the input, a symbol of the table is returned, or -1. *)
Lemma decode_loop_safe k : forall l code b, (l + k = 15)%nat -> binv b -> code mod 2 = 0 -> first_code ls (S l) <= code ->
  cok (decode_loop k h (Z.of_nat (S l)) code (first_code ls (S l)) (idx ls (S l))) b (fun r b' =>
    adv (Z.min 1 (Z.of_nat k)) b b' /\ (r = -1 \/ 0 <= r < Z.of_nat (length ls))).
Proof.
  destruct Hh as [Hlens Hk [Hc1 Hc] Hs1 Hs Hd].
  induction k as [|k IH]; intros l code b Hlk Hb Hev Hge.
  - apply cok_ret. split; [by apply adv_refl|by left].
  - cbn [decode_loop]. apply cok_bind. eapply cok_mono; [apply bits_adv; [done|lia]|]. intros v b1 [A1 Hv].
    rewrite lor_bit by (done || lia). rewrite (aref_ok _ (Z.of_nat (S l)) _ ltac:(lia) (Hc (Z.of_nat (S l)) ltac:(lia))).
    apply cok_bind, cok_lift. cbn [ok]. rewrite <- (cnt_pos ls (Z.of_nat (S l))), Nat2Z.id by lia.
    destruct (Z.ltb_spec (code + v - first_code ls (S l)) (cnt ls (S l))) as [Hlt|Hnlt].
    + apply cok_lift. unfold sym_at.
      destruct (Hd (Z.of_nat (S l)) (code + v - first_code ls (S l))) as (s & Hsy & Hsl); [lia| |].
      { rewrite <- (cnt_pos ls (Z.of_nat (S l))), Nat2Z.id by lia. lia. }
      rewrite Nat2Z.id in Hsy. rewrite (aref_ok _ _ (Some (Z.of_nat s))); [|pose proof (idx_nonneg ls (S l)); lia|exact Hsy].
      cbn. split; [|right; lia]. eapply adv_weaken; [|exact A1]. lia.
    + eapply cok_mono.
      * specialize (IH (S l) ((code + v) * 2) b1 ltac:(lia) (ad_inv _ _ _ A1)).
        replace (Z.of_nat (S l) + 1) with (Z.of_nat (S (S l))) by lia.
        replace ((first_code ls (S l) + cnt ls (S l)) * 2) with (first_code ls (S (S l))) by (cbn [first_code]; lia).
        change (idx ls (S l) + cnt ls (S l)) with (idx ls (S (S l))). apply IH; [apply Z_mod_mult|].
        change (first_code ls (S (S l))) with (2 * (first_code ls (S l) + cnt ls (S l))). lia.
      * intros r b2 [A2 Hr]. split; [|done]. eapply adv_weaken; [|exact (adv_trans _ _ _ _ _ A1 A2)]. lia.
Qed.

Lemma huff_decode_safe b : binv b ->
  cok (huff_decode h) b (fun r b' => adv 1 b b' /\ (r = -1 \/ 0 <= r < Z.of_nat (length ls))).
Proof. intros Hb. by apply (decode_loop_safe 15 0 0 b). Qed.

(** The code of a symbol is recognised after its last bit, not before. *)
Lemma decode_loop_code s L c : ls !! s = Some L -> 0 < L -> c = code ls s L ->
  forall m l k b t, (S l + m = Z.to_nat L)%nat -> (l + k = 15)%nat -> binv b -> stream b = reverse (zbits (S m) c) ++ t ->
  cok (decode_loop k h (Z.of_nat (S l)) (2 * (c .>> Z.of_nat (S m))) (first_code ls (S l)) (idx ls (S l))) b (fun r b' =>
    r = Z.of_nat s /\ moved b b' t).
Proof.
  destruct Hh as [Hlens Hk [Hc1 Hc] Hs1 Hs Hd]. intros HL HL0 Ec.
  pose proof (Forall_lookup_1 _ _ _ _ (proj1 Hlens) HL) as HL15. cbn beta in HL15.
  pose proof (code_range ls s L Hk HL ltac:(lia)) as Hcr. rewrite <- Ec in Hcr.
  induction m as [|m IH]; intros l k b t Hlm Hlk Hb Hst; (destruct k as [|k]; [lia|]); cbn [decode_loop]; apply cok_bind;
    (eapply cok_mono; [eapply next_code_bit; [|done|exact Hst]; lia|]); intros v b1 (-> & Hmv);
    rewrite (aref_ok _ (Z.of_nat (S l)) _ ltac:(lia) (Hc (Z.of_nat (S l)) ltac:(lia)));
    apply cok_bind, cok_lift; cbn [ok].
  - rewrite Z.shiftr_0_r. assert (EL : Z.of_nat (S l) = L) by lia. rewrite EL.
    replace (S l) with (Z.to_nat L) by lia. pose proof (occ_take_lt _ _ _ HL) as Hrk.
    assert (Er : c - first_code ls (Z.to_nat L) = occ L (take s ls)) by (unfold code in Ec; lia).
    rewrite (proj2 (Z.ltb_lt _ _)) by lia. apply cok_lift. unfold sym_at. rewrite Er.
    rewrite (aref_ok _ _ (Some (Z.of_nat s))); [done| |by apply Hs; [|lia]].
    pose proof (idx_nonneg ls (Z.to_nat L)). pose proof (occ_nonneg L (take s ls)). lia.
  - rewrite <- (cnt_pos ls (Z.of_nat (S l))), Nat2Z.id by lia.
    assert (Habove : first_code ls (S l) + cnt ls (S l) <= c .>> Z.of_nat (S m)).
    { rewrite Z.shiftr_div_pow2 by lia. apply Z.div_le_lower_bound; [apply Z.pow_pos_nonneg; lia|].
      pose proof (first_code_above ls (S l) m) as Ha. replace (S m + S l)%nat with (Z.to_nat L) in Ha by lia.
      pose proof (occ_nonneg L (take s ls)). unfold code in Ec. lia. }
    rewrite (proj2 (Z.ltb_ge _ _)) by lia.
    replace ((first_code ls (S l) + cnt ls (S l)) * 2) with (first_code ls (S (S l))) by (cbn [first_code]; lia).
    change (idx ls (S l) + cnt ls (S l)) with (idx ls (S (S l))).
    replace (Z.of_nat (S l) + 1) with (Z.of_nat (S (S l))) by lia. rewrite (Z.mul_comm _ 2).
    eapply cok_mono; [apply (IH (S l) k b1 t); [lia|lia|apply Hmv|apply Hmv]|]. intros r b2 (-> & Hm2).
    split; [done|]. by eapply moved_trans.
Qed.

Lemma huff_decode_code s b t L : ls !! s = Some L -> L <> 0 -> binv b -> stream b = code_bits ls s ++ t ->
  cok (huff_decode h) b (fun r b' =>
    r = Z.of_nat s /\ moved b b' t).
Proof.
  intros HL HL0 Hb Hst. pose proof (Forall_lookup_1 _ _ _ _ (proj1 (ho_lens _ _ Hh)) HL) as HL15. cbn beta in HL15.
  unfold code_bits in Hst. rewrite HL in Hst. pose proof (code_range ls s L (ho_kraft _ _ Hh) HL ltac:(lia)) as Hcr.
  pose proof (decode_loop_code s L _ HL ltac:(lia) eq_refl (Z.to_nat L - 1) 0 15 b t) as H.
  replace (S (Z.to_nat L - 1)) with (Z.to_nat L) in H by lia.
  rewrite Z2Nat.id, Z.shiftr_div_pow2, Z.div_small in H by lia. apply H; [lia|lia|done|done].
Qed.
End decode.
