(* ===== verification/InflateSafe.v ===== *)
(** The decompressor is memory safe and terminates, on any input. *)

From stdpp Require Import list.
From Stdlib Require Import ZArith Lia.
From S2P Require Import Prelude Checked Inflate InflateBits InflateHuff.

(** what a decoding step leaves: progress, and the output buffer's size *)
Definition long (cap r : Z) : Prop := r < 0 \/ 0 <= r <= cap.

Lemma iter_length (body : Z -> list Z -> outcome (list Z)) n i dst :
  (forall k d, i <= k < i + Z.of_nat n -> length d = length dst -> ok (body k d) (fun d' => length d' = length d)) ->
  ok (iter n i body dst) (fun d => length d = length dst).
Proof.
  intros H. apply (ok_iter (fun _ d => length d = length dst)); [done|]. intros k d Hk Hd.
  eapply ok_mono; [by apply H|]. congruence.
Qed.

Lemma copy_match_safe dst out from n : 0 <= from <= out -> 0 <= n -> out + n <= Z.of_nat (length dst) ->
  Z.of_nat (length dst) < 2 ^ 31 -> ok (copy_match dst out from n) (fun d => length d = length dst).
Proof.
  intros Hf Hn Ho Hl. apply iter_length. intros k d Hk Hd. rewrite !u32_small by lia.
  apply ok_bind, ok_aref; [lia|]. intros c _. apply ok_aset; [lia|]. apply length_insert.
Qed.

(** ** Reading from the constant tables *)

Lemma table_at (l : list Z) i lo hi : Forall (fun x => lo <= x <= hi) l -> 0 <= i < Z.of_nat (length l) ->
  ok (aref l i) (fun x => lo <= x <= hi).
Proof. intros Hl Hi. apply ok_aref; [done|]. intros a Ha. exact (Forall_lookup_1 _ _ _ _ Hl Ha). Qed.

Lemma len_base_at i : 0 <= i < 29 -> ok (aref len_base i) (fun x => 3 <= x <= 258).
Proof. intros Hi. apply table_at; [repeat constructor; lia|done]. Qed.
Lemma len_extra_at i : 0 <= i < 29 -> ok (aref len_extra i) (fun x => 0 <= x <= 5).
Proof. intros Hi. apply table_at; [repeat constructor; lia|done]. Qed.
Lemma dist_base_at i : 0 <= i < 30 -> ok (aref dist_base i) (fun x => 1 <= x <= 24577).
Proof. intros Hi. apply table_at; [repeat constructor; lia|done]. Qed.
Lemma dist_extra_at i : 0 <= i < 30 -> ok (aref dist_extra i) (fun x => 0 <= x <= 13).
Proof. intros Hi. apply table_at; [repeat constructor; lia|done]. Qed.
Lemma clc_order_at i : 0 <= i < 19 -> ok (aref clc_order i) (fun x => 0 <= x <= 18).
Proof. intros Hi. apply table_at; [repeat constructor; lia|done]. Qed.

(** the value of [n] extra bits *)
Lemma extra_bits n b hi : binv b -> 0 <= n <= 16 -> 2 ^ n <= hi -> cok (bits n) b (fun v b' => adv 0 b b' /\ 0 <= v < hi).
Proof.
  intros Hb Hn Hhi. eapply cok_mono; [by apply bits_adv|]. intros v b' [A Hv].
  split; [eapply adv_weaken; [|exact A]; lia|lia].
Qed.

(** * Compressed blocks *)

Section block.
Context (lls dls : list Z) (lh dh : huff) (Hlh : huff_ok lls lh) (Hdh : huff_ok dls dh).
Context (dstcap : Z) (Hcap : 0 <= dstcap < 2 ^ 31).

(** what decoding from [b] into [dst] ends with *)
Definition block_post (b : bitr) (dst : list Z) (r : Z * list Z) (b' : bitr) : Prop :=
  adv 0 b b' /\ long dstcap r.1 /\ length r.2 = length dst /\ (0 <= r.1 -> b_err b' = false).

Lemma block_fail b b' dst e : adv 0 b b' -> e < 0 -> cok (mret (e, dst)) b' (block_post b dst).
Proof. intros A He. apply cok_ret. split; [done|]. split; [by left|]. split; [done|]. cbn. lia. Qed.

Lemma block_then b b1 b2 dst dst1 r : adv 0 b b1 -> length dst1 = length dst -> block_post b1 dst1 r b2 -> block_post b dst r b2.
Proof. intros A Hl (A2 & H1 & H2 & H3). split; [by apply (adv_trans 0 0 _ b1)|]. split; [done|]. split; [congruence|done]. Qed.

Lemma inflate_block_safe fuel : forall dst out b, binv b -> bits_left b < Z.of_nat fuel ->
  Z.of_nat (length dst) = dstcap -> 0 <= out <= dstcap ->
  cok (inflate_block fuel lh dh dst dstcap out) b (block_post b dst).
Proof.
  induction fuel as [|fuel IH]; intros dst out b Hb Hf Hd Ho; [unfold bits_left in Hf; destruct Hb; lia|].
  cbn [inflate_block]. apply cok_bind. eapply cok_mono; [by apply (huff_decode_safe lls)|]. intros sym b1 [A1 Hsym].
  pose proof (adv_weaken 1 0 _ _ ltac:(lia) A1) as A1'.
  apply cok_bind, cok_look. destruct (b_err b1) eqn:He1; cbn [orb]; [by apply block_fail|].
  destruct (ad_move _ _ _ A1 He1) as [Hm1 _]. destruct (Z.ltb_spec sym 0); [by apply block_fail|].
  destruct (Z.eqb_spec sym 256).
  { apply cok_ret. unfold block_post. cbn [fst snd]. rewrite s32_small by lia. split; [done|]. split; [by right|]. by split. }
  pose proof (proj2 (ho_lens _ _ Hlh)) as Hll. destruct (Z.ltb_spec sym 256).
  - destruct (Z.leb_spec dstcap out); [by apply block_fail|].
    apply cok_bind, cok_lift, ok_aset; [lia|]. rewrite u32_small by lia.
    eapply cok_mono; [apply (IH _ (out + 1) b1 (ad_inv _ _ _ A1)); [lia|by rewrite length_insert|lia]|].
    intros r b2. apply block_then; [done|apply length_insert].
  - destruct (Z.leb_spec 29 (sym - 257)); [by apply block_fail|].
    apply cok_bind, cok_lift. eapply ok_mono; [apply len_base_at; lia|cbn beta]. intros lb Hlb.
    apply cok_bind, cok_lift. eapply ok_mono; [apply len_extra_at; lia|cbn beta]. intros le Hle.
    apply cok_bind. eapply cok_mono; [apply (extra_bits le b1 32 (ad_inv _ _ _ A1)); [lia|]|].
    { change 32 with (2 ^ 5). apply Z.pow_le_mono_r; lia. }
    intros lx b2 [A2 Hlx]. pose proof (adv_trans _ _ _ _ _ A1 A2) as A12.
    apply cok_bind. eapply cok_mono; [by apply (huff_decode_safe dls), (ad_inv _ _ _ A2)|]. intros dsym b3 [A3 Hds].
    pose proof (adv_trans _ _ _ _ _ A12 A3) as A13. pose proof (adv_weaken (1 + 0 + 1) 0 _ _ ltac:(lia) A13) as A13'.
    apply cok_bind, cok_look. destruct (b_err b3) eqn:He3; cbn [orb]; [by apply block_fail|].
    destruct (Z.ltb_spec dsym 0); cbn [orb]; [by apply block_fail|].
    destruct (Z.leb_spec 30 dsym); [by apply block_fail|].
    apply cok_bind, cok_lift. eapply ok_mono; [apply dist_base_at; lia|cbn beta]. intros db Hdb.
    apply cok_bind, cok_lift. eapply ok_mono; [apply dist_extra_at; lia|cbn beta]. intros de Hde.
    apply cok_bind. eapply cok_mono; [apply (extra_bits de b3 8192 (ad_inv _ _ _ A3)); [lia|]|].
    { change 8192 with (2 ^ 13). apply Z.pow_le_mono_r; lia. }
    intros dx b4 [A4 Hdx]. pose proof (adv_trans _ _ _ _ _ A13' A4) as A14. u32_simpl.
    destruct (Z.ltb_spec out (db + dx)); [by apply block_fail|].
    destruct (Z.ltb_spec dstcap (out + (lb + lx))); [by apply block_fail|]. u32_simpl.
    apply cok_bind, cok_lift. eapply ok_mono; [apply copy_match_safe; lia|cbn beta]. intros dst' Hdst'.
    destruct (ad_move _ _ _ A13 He3) as [Hm3 _]. pose proof (ad_left _ _ _ A4).
    eapply cok_mono; [apply (IH dst' _ b4 (ad_inv _ _ _ A4)); lia|]. intros r b5. by apply block_then.
Qed.
End block.

(** * The tables of a dynamic block *)

Definition in15 (l : list Z) : Prop := Forall (fun x => 0 <= x <= 15) l.

Lemma read_clc_safe k : forall i clc b, binv b -> 0 <= i -> i + Z.of_nat k <= 19 -> length clc = 19%nat -> in15 clc ->
  cok (read_clc k i clc) b (fun l b' => adv 0 b b' /\ length l = 19%nat /\ in15 l).
Proof.
  induction k as [|k IH]; intros i clc b Hb Hi Hk Hl H15; cbn [read_clc]; [apply cok_ret; split; [by apply adv_refl|done]|].
  apply cok_bind, cok_lift. eapply ok_mono; [apply clc_order_at; lia|cbn beta]. intros o Ho.
  apply cok_bind. eapply cok_mono; [apply (extra_bits 3 b 8 Hb); lia|]. intros v b1 [A1 Hv].
  apply cok_bind, cok_lift, ok_aset; [lia|]. rewrite u8_small by lia.
  eapply cok_mono; [apply (IH (i + 1)); [apply A1|lia|lia|by rewrite length_insert|]|].
  - apply Forall_insert; [done|lia].
  - intros l b2 [A2 H]. split; [by apply (adv_trans 0 0 _ b1)|done].
Qed.

Lemma repeat_length_safe rep v total : 0 <= v <= 15 -> forall ls n, length ls = 318%nat -> in15 ls -> 0 <= n <= total -> total <= 318 ->
  ok (repeat_length rep v ls n total) (fun r => length r.1 = 318%nat /\ in15 r.1 /\ n <= r.2 <= total /\
    ((0 < rep)%nat -> n < total -> n < r.2)).
Proof.
  intros Hv. induction rep as [|rep IH]; intros ls n Hl H15 Hn Ht; cbn [repeat_length].
  - cbn. split; [done|]. split; [done|]. split; lia.
  - destruct (Z.ltb_spec n total); [|cbn; split; [done|]; split; [done|]; split; lia].
    apply ok_bind, ok_aset; [lia|]. eapply ok_mono; [apply IH; [by rewrite length_insert|by apply Forall_insert|lia|lia]|].
    intros r (H1 & H2 & H3 & _). split; [done|]. split; [done|]. split; lia.
Qed.

Section lengths.
Context (cls : list Z) (clc : huff) (Hclc : huff_ok cls clc) (Hc19 : length cls = 19%nat).

Lemma read_lengths_safe fuel total : total <= 318 -> forall ls n b, binv b -> length ls = 318%nat -> in15 ls -> 0 <= n <= total ->
  total <= n + Z.of_nat fuel ->
  cok (read_lengths fuel clc ls n total) b (fun r b' => adv 0 b b' /\
    match r with inl e => e < 0 | inr l => length l = 318%nat /\ in15 l end).
Proof.
  intros Ht. induction fuel as [|fuel IH]; intros ls n b Hb Hl H15 Hn Hf; cbn [read_lengths].
  { rewrite (proj2 (Z.ltb_ge _ _)) by lia. apply cok_ret. split; [by apply adv_refl|done]. }
  destruct (Z.ltb_spec n total); [|apply cok_ret; split; [by apply adv_refl|done]].
  apply cok_bind. eapply cok_mono; [by apply (huff_decode_safe cls)|]. intros sym b1 [A1 Hsym].
  pose proof (adv_weaken 1 0 _ _ ltac:(lia) A1) as A1'.
  apply cok_bind, cok_look. destruct (b_err b1); cbn [orb]; [by apply cok_ret|].
  destruct (Z.ltb_spec sym 0); [by apply cok_ret|]. rewrite Hc19 in Hsym.
  assert (Hrun : forall nb v m b2, adv 0 b b2 -> 0 <= nb <= 7 -> 0 <= v <= 15 -> 0 < m ->
    cok (x ← bits nb; r ← lift (repeat_length (Z.to_nat (m + x)) v ls n total); read_lengths fuel clc r.1 r.2 total) b2
      (fun r b' => adv 0 b b' /\ match r with inl e => e < 0 | inr l => length l = 318%nat /\ in15 l end)).
  { intros nb v m b2 A2 Hnb Hv Hm. apply cok_bind. eapply cok_mono; [apply (extra_bits nb b2 128 (ad_inv _ _ _ A2)); [lia|]|].
    { change 128 with (2 ^ 7). apply Z.pow_le_mono_r; lia. }
    intros x b3 [A3 Hx]. apply cok_bind, cok_lift. eapply ok_mono; [by apply repeat_length_safe|].
    intros r (R1 & R2 & R3 & R4). eapply cok_mono; [apply (IH _ _ b3 (ad_inv _ _ _ A3) R1 R2); lia|].
    intros r' b4 [A4 H4]. split; [|done]. by apply (adv_trans 0 0 _ b3); [apply (adv_trans 0 0 _ b2)|]. }
  destruct (Z.ltb_spec sym 16).
  - apply cok_bind, cok_lift, ok_aset; [lia|]. rewrite u8_small by lia.
    eapply cok_mono; [apply (IH _ _ b1 (ad_inv _ _ _ A1)); [by rewrite length_insert|apply Forall_insert; [done|lia]|lia|lia]|].
    intros r b2 [A2 H2]. split; [by apply (adv_trans 0 0 _ b1)|done].
  - destruct (Z.eqb_spec sym 16).
    + destruct (Z.eqb_spec n 0); [by apply cok_ret|].
      assert (Hprev : exists p, aref ls (n - 1) = Ok p /\ 0 <= p <= 15).
      { destruct (aref_in ls (n - 1)) as (p & Hp & Ha); [lia|]. exists p. split; [done|]. exact (Forall_lookup_1 _ _ _ _ H15 Hp). }
      destruct Hprev as (p & Hp & Hp15). pose proof (Hrun 2 p 3 b1 A1' ltac:(lia) Hp15 ltac:(lia)) as Hr.
      apply cok_bind. unfold cok in Hr |- *. unfold mbind, C_bind in Hr. destruct (bits 2 b1) as [[x b2]| |]; [|done..].
      cbn [ok fst snd]. rewrite Hp. exact Hr.
    + destruct (Z.eqb_spec sym 17); by apply Hrun.
Qed.
End lengths.

Lemma lens_ok_take ls n : in15 ls -> (n <= 288)%nat -> lens_ok (take n ls).
Proof. intros H Hn. split; [by apply Forall_take|]. rewrite length_take. lia. Qed.

Lemma fresh_len : length (h_symbol huff_fresh) = 288%nat.
Proof. done. Qed.

Lemma build_fixed_safe : ok (build_fixed huff_fresh huff_fresh) (fun t =>
  huff_ok fixed_ll t.1 /\ huff_ok fixed_dl t.2).
Proof.
  assert (K1 : kraft fixed_ll) by (intros l Hl; do 16 (destruct l as [|l]; [by vm_compute|]); lia).
  assert (K2 : kraft fixed_dl) by (intros l Hl; do 16 (destruct l as [|l]; [by vm_compute|]); lia).
  assert (L1 : lens_ok fixed_ll) by (split; [|by vm_compute]; apply Forall_app_2; [|apply Forall_app_2; [|apply Forall_app_2]]; apply Forall_replicate; lia).
  assert (L2 : lens_ok fixed_dl) by (split; [apply Forall_replicate; lia|vm_compute; lia]).
  unfold build_fixed. apply ok_bind.
  eapply ok_mono; [apply (huff_build_spec fixed_ll 288); [by vm_compute|done|apply fresh_len]|].
  change (take 288 fixed_ll) with fixed_ll. intros [r h] [_ [[_ H]|[_ Hl]]]; [destruct (H K1)|].
  apply ok_bind. eapply ok_mono; [apply (huff_build_spec fixed_dl 30); [by vm_compute|done|apply fresh_len]|].
  change (take 30 fixed_dl) with fixed_dl. intros [r' h'] [_ [[_ H]|[_ Hl']]]; [destruct (H K2)|]. by split.
Qed.

(** Tables that can be used, from two lists of lengths. *)
Definition tables (t : huff * huff) : Prop := exists lls dls, huff_ok lls t.1 /\ huff_ok dls t.2.

Lemma build_dynamic_safe b : binv b ->
  cok (build_dynamic huff_fresh huff_fresh) b (fun r b' => adv 0 b b' /\ (r.1 = 0 -> tables r.2)).
Proof.
  intros Hb. unfold build_dynamic.
  apply cok_bind. eapply cok_mono; [apply (extra_bits 5 b 32 Hb); lia|]. intros x b1 [A1 Hx].
  apply cok_bind. eapply cok_mono; [apply (extra_bits 5 b1 32 (ad_inv _ _ _ A1)); lia|]. intros y b2 [A2 Hy].
  apply cok_bind. eapply cok_mono; [apply (extra_bits 4 b2 16 (ad_inv _ _ _ A2)); lia|]. intros z b3 [A3 Hz].
  pose proof (adv_trans _ _ _ _ _ (adv_trans _ _ _ _ _ A1 A2) A3) as A. cbn [Z.add] in A.
  destruct (Z.ltb_spec 286 (x + 257)); cbn [orb]; [by apply cok_ret|]. destruct (Z.ltb_spec 30 (y + 1)); [by apply cok_ret|].
  apply cok_bind. eapply cok_mono; [apply (read_clc_safe _ 0 _ b3 (ad_inv _ _ _ A3)); [lia|lia|done|by apply Forall_replicate]|].
  intros cl b4 (A4 & Hcl & Hcl15). pose proof (adv_trans _ _ _ _ _ A A4) as A'. cbn [Z.add] in A'.
  apply cok_bind, cok_lift. eapply ok_mono; [apply (huff_build_spec cl 19); [lia|by apply lens_ok_take; [|lia]|apply fresh_len]|].
  rewrite firstn_all2 by lia. intros [rc clc] [_ Hclc]. cbn [fst snd].
  destruct (Z.ltb_spec rc 0); [by apply cok_ret|]. destruct Hclc as [[Hneg _]|[_ Hclc]]; [lia|].
  apply cok_bind. eapply cok_mono; [apply (read_lengths_safe cl clc Hclc Hcl _ (x + 257 + (y + 1)) ltac:(lia) _ 0 b4 (ad_inv _ _ _ A4));
    [done|by apply Forall_replicate|lia|lia]|].
  intros [e|ls] b5 [A5 Hr]; pose proof (adv_trans _ _ _ _ _ A' A5) as A''; cbn [Z.add] in A''.
  { apply cok_ret. split; [done|]. cbn. lia. }
  destruct Hr as [Hls H15]. apply cok_bind, cok_lift, ok_aref; [lia|]. intros eob _. destruct (eob =? 0); [by apply cok_ret|].
  apply cok_bind, cok_lift.
  eapply ok_mono; [rewrite <- (Z2Nat.id (x + 257)) by lia; apply (huff_build_spec ls); [lia|apply lens_ok_take; [done|lia]|apply fresh_len]|].
  intros [rl hl] [_ Hl]. cbn [fst snd]. destruct (Z.ltb_spec rl 0); [by apply cok_ret|]. destruct Hl as [[Hneg _]|[_ Hl]]; [lia|].
  apply cok_bind, cok_lift.
  eapply ok_mono; [rewrite <- (Z2Nat.id (y + 1)) by lia; apply (huff_build_spec (drop (Z.to_nat (x + 257)) ls));
    [rewrite length_drop; lia|apply lens_ok_take; [by apply Forall_drop|lia]|apply fresh_len]|].
  intros [rd hd] [_ Hd]. cbn [fst snd]. destruct (Z.ltb_spec rd 0); [by apply cok_ret|]. destruct Hd as [[Hneg _]|[_ Hd]]; [lia|].
  apply cok_ret. split; [done|]. intros _. by eexists _, _.
Qed.

(** * Stored blocks and the whole stream *)

Lemma two_bytes x y : byte x -> byte y -> 0 <= x .| Z.shiftl y 8 < 2 ^ 16.
Proof. unfold byte. intros Hx Hy. rewrite lor_shiftl by lia. lia. Qed.

Lemma src16_safe b i : binv b -> 0 <= i -> i + 2 <= b_len b -> ok (src16 b i) (fun v => 0 <= v < 2 ^ 16).
Proof.
  intros Hb Hi Hl. destruct Hb as [Hs [Hlen _] _ _ _]. unfold src16.
  apply ok_bind, ok_aref; [lia|]. intros x Hx. apply ok_bind, ok_aref; [lia|]. intros y Hy. cbn [ok].
  exact (two_bytes _ _ (Forall_lookup_1 _ _ _ _ Hs Hx) (Forall_lookup_1 _ _ _ _ Hs Hy)).
Qed.

Lemma set_pos_inv b p : binv b -> 0 <= p <= b_len b -> binv (set_pos p b).
Proof. intros [H1 H2 H3 H4 H5] Hp. by split. Qed.

Lemma stored_block_safe dst dstcap out b : binv b -> b_len b < 2 ^ 31 -> b_err b = false -> 0 <= dstcap < 2 ^ 31 ->
  Z.of_nat (length dst) = dstcap -> 0 <= out <= dstcap ->
  cok (stored_block dst dstcap out) b (block_post dstcap b dst).
Proof.
  intros Hb Hsh He Hcap Hd Ho. unfold stored_block. apply cok_bind, cok_change, cok_bind, cok_look. unfold id.
  set (b1 := set_buf 0 0 b). pose proof (bi_pos _ Hb) as Hp. pose proof (bi_cnt _ Hb) as Hcn.
  assert (Hb1 : binv b1) by (destruct Hb; split; cbn; try done; lia).
  assert (Hadv : forall p, b_pos b <= p <= b_len b -> adv 0 b (set_pos p b1)).
  { intros p Hpp. split; [apply set_pos_inv; [done|cbn; lia]|done|unfold bits_left; cbn; lia|by rewrite He|].
    intros _. unfold bits_left. cbn. lia. }
  assert (Hb10 : adv 0 b b1) by (replace b1 with (set_pos (b_pos b) b1) by done; apply Hadv; lia).
  change (b_len b1) with (b_len b). change (b_pos b1) with (b_pos b). rewrite !u32_small by lia.
  destruct (Z.ltb_spec (b_len b) (b_pos b + 4)); [by apply block_fail|].
  apply cok_bind, cok_lift. eapply ok_mono; [apply (src16_safe b1); [done|lia|cbn; lia]|cbn beta]. intros len Hlen.
  apply cok_bind, cok_lift. eapply ok_mono; [apply (src16_safe b1); [done|lia|cbn; lia]|cbn beta]. intros nlen _.
  apply cok_bind, cok_change. destruct (negb _); [by apply block_fail; [apply Hadv; lia|]|].
  apply cok_bind, cok_look. set (b2 := set_pos (b_pos b + 4) b1). change (b_len b2) with (b_len b). change (b_pos b2) with (b_pos b + 4).
  u32_simpl. destruct (Z.ltb_spec (b_len b) (b_pos b + 4 + len)); [by apply block_fail; [apply Hadv; lia|]|].
  destruct (Z.ltb_spec dstcap (out + len)); [by apply block_fail; [apply Hadv; lia|]|].
  apply cok_bind, cok_lift. eapply ok_mono.
  - apply iter_length. intros k d Hk Hdk. rewrite !u32_small by (cbn; lia).
    apply ok_bind, ok_aref; [cbn; destruct (bi_len _ Hb); lia|]. intros c _. apply ok_aset; [lia|]. apply length_insert.
  - intros d Hld. apply cok_bind, cok_change, cok_ret. split; [apply Hadv; lia|]. cbn [fst snd]. split; [right; lia|]. by split.
Qed.

Lemma raw_loop_safe dstcap fuel : 0 <= dstcap < 2 ^ 31 -> forall dst out b, binv b -> b_len b < 2 ^ 31 -> b_err b = false ->
  bits_left b < Z.of_nat fuel -> Z.of_nat (length dst) = dstcap -> 0 <= out <= dstcap ->
  cok (raw_loop fuel dst dstcap out) b (fun r _ => long dstcap r.1 /\ length r.2 = length dst).
Proof.
  intros Hcap. induction fuel as [|fuel IH]; intros dst out b Hb Hsh He Hf Hd Ho; [unfold bits_left in Hf; destruct Hb; lia|].
  cbn [raw_loop]. apply cok_bind. eapply cok_mono; [apply bits_adv; [done|lia]|]. intros final b1 [A1 _].
  apply cok_bind. eapply cok_mono; [apply bits_adv; [apply A1|lia]|]. intros type b2 [A2 Hty].
  apply cok_bind, cok_look. destruct (b_err b2) eqn:He2; [apply cok_ret; split; [by left|done]|].
  pose proof (adv_trans _ _ _ _ _ A1 A2) as A. destruct (ad_move _ _ _ A He2) as [Hm _].
  apply cok_bind. eapply (cok_mono _ _ (block_post dstcap b2 dst)).
  - destruct (Z.eqb_spec type 0); [apply stored_block_safe; [apply A2|by rewrite (ad_len _ _ _ A)|done..]|].
    destruct (_ || _); [|by apply block_fail; [apply adv_refl, A2|]].
    apply cok_bind. eapply (cok_mono _ _ (fun r b' => adv 0 b2 b' /\ (r.1 = 0 -> tables r.2))).
    + destruct (type =? 1); [|apply build_dynamic_safe, A2].
      apply cok_bind, cok_lift. eapply ok_mono; [apply build_fixed_safe|]. intros t [Ht1 Ht2]. apply cok_ret.
      split; [apply adv_refl, A2|]. intros _. by eexists _, _.
    + intros t b3 [A3 Ht]. destruct (Z.eqb_spec t.1 0) as [E|]; cbn [negb]; [|by apply block_fail].
      destruct (Ht E) as (lls & dls & Hl & Hd'). apply cok_bind, cok_look.
      eapply cok_mono; [apply (inflate_block_safe lls dls _ _ Hl Hd' dstcap Hcap); [apply A3| |done|done]|].
      * pose proof (bi_pos _ (ad_inv _ _ _ A3)). pose proof (bi_cnt _ (ad_inv _ _ _ A3)). unfold bits_left in *. lia.
      * intros r b4. by apply block_then.
  - intros r b3 (A3 & Hr & Hlr & Her). destruct (Z.ltb_spec r.1 0); [apply cok_ret; by split|].
    destruct Hr as [|Hr]; [lia|]. destruct (final =? 0).
    + rewrite u32_small by lia. pose proof (ad_left _ _ _ A3).
      eapply cok_mono; [apply (IH r.2 r.1 b3 (ad_inv _ _ _ A3)); [by rewrite (ad_len _ _ _ A3), (ad_len _ _ _ A)|by apply Her|lia|congruence|done]|].
      intros r' b4 [H1 H2]. split; [done|congruence].
    + apply cok_ret. cbn [fst snd]. rewrite s32_small by lia. split; [by right|done].
Qed.

Lemma inflate_raw_ok src srclen dst dstcap : Forall byte src -> 0 <= srclen <= Z.of_nat (length src) -> srclen < 2 ^ 31 ->
  Z.of_nat (length dst) = dstcap -> dstcap < 2 ^ 31 ->
  ok (inflate_raw src srclen dst dstcap) (fun r => long dstcap r.1 /\ length r.2 = length dst).
Proof.
  intros Hs Hl Hl31 Hd Hcap. unfold inflate_raw. apply ok_bind.
  set (b := Bitr src srclen 0 0 0 false).
  assert (Hb : binv b) by (split; cbn; try done; try lia).
  pose proof (raw_loop_safe dstcap (Z.to_nat (8 * srclen + 1)) ltac:(lia) dst 0 b Hb Hl31 eq_refl) as H.
  unfold cok in H. eapply ok_mono; [apply H; [unfold bits_left; cbn; lia|done|lia]|]. done.
Qed.

(** * The container *)

Lemma skip_string_safe src srclen : srclen <= Z.of_nat (length src) -> srclen < 2 ^ 31 -> forall fuel p, 0 <= p -> p < 2 ^ 31 + 2 ^ 17 ->
  srclen <= p + Z.of_nat fuel -> ok (skip_string fuel src srclen p) (fun q => p <= q <= Z.max p srclen).
Proof.
  intros Hl H31. induction fuel as [|fuel IH]; intros p Hp Hpb Hf; cbn [skip_string].
  - rewrite (proj2 (Z.ltb_ge _ _)) by lia. cbn. lia.
  - destruct (Z.ltb_spec p srclen); [|cbn; lia]. apply ok_bind, ok_aref; [lia|]. intros c _. rewrite u32_small by lia.
    destruct (c =? 0); [cbn; lia|]. eapply ok_mono; [apply IH; lia|]. cbn beta. lia.
Qed.

Lemma le32_at_safe src i : 0 <= i -> i + 4 <= Z.of_nat (length src) -> ok (le32_at src i) (fun _ => True).
Proof. intros Hi Hl. unfold le32_at. do 4 (apply ok_bind, ok_aref; [lia|]; intros ? _). done. Qed.

Lemma crc32_safe p n : 0 <= n <= Z.of_nat (length p) -> ok (crc32 p n) (fun _ => True).
Proof.
  intros Hn. unfold crc32. apply ok_bind. eapply ok_mono; [apply (ok_iter (fun _ _ => True)); [done|]|done].
  intros k c Hk _. by apply ok_bind, ok_aref; [lia|].
Qed.

(** C15. [gunzip] is memory safe and terminates, on any source bytes: it never
    reads the source beyond [srclen], never reads or writes the destination
    beyond [dstcap], never indexes a table out of bounds or reads an entry of a
    Huffman table that was not stored, and returns: a negative error, or a
    length of at most [dstcap]. *)
Theorem gunzip_memory_safe src srclen dst dstcap :
  Forall byte src -> 0 <= srclen <= Z.of_nat (length src) -> srclen < 2 ^ 31 ->
  Z.of_nat (length dst) = dstcap -> dstcap < 2 ^ 31 ->
  exists r dst', gunzip src srclen dst dstcap = Ok (r, dst') /\ (r < 0 \/ 0 <= r <= dstcap) /\ length dst' = length dst.
Proof.
  intros Hs Hl H31 Hd Hcap.
  enough (H : ok (gunzip src srclen dst dstcap) (fun r => long dstcap r.1 /\ length r.2 = length dst)).
  { apply ok_iff in H as ([r dst'] & -> & H). eauto. }
  unfold gunzip. apply ok_bind. eapply (ok_mono _ (fun _ => True)).
  { unfold is_gzip. destruct (Z.ltb_spec srclen 2); [done|]. apply ok_bind, ok_aref; [lia|]. intros a _.
    destruct (negb _); [done|]. by apply ok_bind, ok_aref; [lia|]. }
  intros gz _. destruct (negb gz); cbn [orb]; [split; [by left|done]|].
  destruct (Z.ltb_spec srclen 18); [split; [by left|done]|]. apply ok_bind, ok_aref; [lia|]. intros cm _.
  destruct (negb _); [split; [by left|done]|]. apply ok_bind, ok_aref; [lia|]. intros flg _. cbv zeta.
  apply ok_bind. eapply (ok_mono _ (fun p => forall x, p = Some x -> 10 <= x <= 2 ^ 17)).
  { destruct (negb _); [|intros x [= <-]; lia]. destruct (_ <? _); [done|].
    apply ok_bind, ok_aref; [lia|]. intros x Hx. apply ok_bind, ok_aref; [lia|]. intros y Hy. cbn [ok]. intros ? [= <-].
    pose proof (two_bytes _ _ (Forall_lookup_1 _ _ _ _ Hs Hx) (Forall_lookup_1 _ _ _ _ Hs Hy)). u32_simpl. lia. }
  intros [p|] Hp; [|split; [by left|done]]. specialize (Hp p eq_refl).
  assert (Hskip : forall (c : bool) p, 10 <= p -> p < 2 ^ 31 + 2 ^ 17 ->
    ok (if c then skip_string (Z.to_nat srclen) src srclen p else Ok p) (fun q => p <= q <= Z.max p srclen)).
  { intros c p' Hp' Hb'. destruct c; [apply skip_string_safe; lia|cbn; lia]. }
  apply ok_bind. eapply ok_mono; [apply Hskip; lia|]. intros p1 Hp1. cbn beta in Hp1.
  apply ok_bind. eapply ok_mono; [apply Hskip; lia|]. intros p2 Hp2. cbn beta in Hp2.
  set (p3 := if negb (flg .& 2 =? 0) then p2 +w 2 else p2). assert (Hp3 : p2 <= p3 <= p2 + 2) by (unfold p3; destruct (negb (flg .& 2 =? 0)); [rewrite u32_small|]; lia).
  rewrite u32_small by lia. destruct (Z.ltb_spec srclen (p3 + 8)); [split; [by left|done]|].
  rewrite !u32_small by (rewrite ?u32_small; lia).
  apply ok_bind. eapply ok_mono; [apply inflate_raw_ok; [by apply Forall_drop|rewrite length_drop; lia|lia|done|done]|].
  intros [n d] [Hn Hdl]. cbn [fst snd] in *. destruct (Z.ltb_spec n 0); [split; done|]. destruct Hn as [|Hn]; [lia|].
  apply ok_bind. eapply (ok_mono _ (fun _ => True)).
  { unfold gzip_isize. destruct (_ <? _); [done|]. apply le32_at_safe; lia. }
  intros isize _. cbn beta. destruct (negb (u32 n =? isize)); [cbn [ok fst snd]; split; [by left|done]|].
  apply ok_bind. eapply ok_mono; [apply le32_at_safe; lia|]. intros sc _.
  apply ok_bind. eapply ok_mono; [apply crc32_safe; rewrite u32_small; lia|]. intros cr _.
  cbn beta. destruct (negb (cr =? sc)); [split; [by left|done]|]. split; [by right|done].
Qed.

(** * Example *)

(** a gzip file with one stored block: the bytes 104 and 105 *)
Definition demo_gz : list Z := [31; 139; 8; 0; 0; 0; 0; 0; 0; 3; 1; 2; 0; 253; 255; 104; 105; 172; 42; 147; 216; 2; 0; 0; 0].

Lemma gunzip_memory_safe_witness : exists r dst',
  gunzip demo_gz 25 (replicate 4 0) 4 = Ok (r, dst') /\ (r < 0 \/ 0 <= r <= 4) /\ length dst' = 4%nat.
Proof.
  apply (gunzip_memory_safe demo_gz 25 (replicate 4 0) 4); [|vm_compute; split; discriminate|reflexivity|reflexivity|reflexivity].
  repeat (constructor; [split; [discriminate|reflexivity]|]). constructor.
Defined.
