(* ===== verification/InflateTokens.v ===== *)
(** What a compressed block means, and that [inflate.c] computes it. *)

From stdpp Require Import list.
From Stdlib Require Import ZArith Lia.
From S2P Require Import Prelude Checked Inflate InflateBits InflateHuff InflateSafe.

(** * Reading what was encoded *)

(** From a reader without error whose bits ahead start with [s], [c] consumes
    exactly [s] and returns a value in [P]. *)
Definition yields {A} (c : C bitr A) (s : list bool) (P : A -> Prop) : Prop :=
  forall b t, binv b -> b_err b = false -> stream b = s ++ t -> cok c b (fun r b' => P r /\ moved b b' t).

Lemma moved_refl b : binv b -> moved b b (stream b).
Proof. by split. Qed.

Lemma yields_ret {A} (v : A) (P : A -> Prop) : P v -> yields (mret v) [] P.
Proof. intros Hv b t Hb He Hs. apply cok_ret. split; [done|]. cbn in Hs. rewrite <- Hs. by apply moved_refl. Qed.

Lemma yields_bind {A B} (c : C bitr A) (k : A -> C bitr B) s s' P Q :
  yields c s P -> (forall v, P v -> yields (k v) s' Q) -> yields (c ≫= k) (s ++ s') Q.
Proof.
  intros Hc Hk b t Hb He Hs. rewrite <- app_assoc in Hs. apply cok_bind. eapply cok_mono; [by apply (Hc b (s' ++ t))|].
  intros r b1 [Hr M1]. eapply cok_mono; [apply (Hk r Hr b1 t); [apply M1|by rewrite (mv_err _ _ _ M1)|apply M1]|].
  intros r' b2 [Hr' M2]. split; [done|]. by eapply moved_trans.
Qed.

Lemma yields_lift {A B} (c : outcome A) (k : A -> C bitr B) s P :
  ok c (fun v => yields (k v) s P) -> yields (lift c ≫= k) s P.
Proof. intros Hk b t Hb He Hs. apply cok_bind, cok_lift. eapply ok_mono; [exact Hk|]. intros v Hv. by apply (Hv b t). Qed.

Lemma yields_err {A} (k : bool -> C bitr A) s P : yields (k false) s P -> yields (look b_err ≫= k) s P.
Proof. intros Hk b t Hb He Hs. apply cok_bind, cok_look. rewrite He. by apply (Hk b t). Qed.

Lemma yields_mono {A} (c : C bitr A) s (P Q : A -> Prop) : yields c s P -> (forall v, P v -> Q v) -> yields c s Q.
Proof. intros Hc Hpq b t Hb He Hs. eapply cok_mono; [by apply (Hc b t)|]. intros r b' [H M]. auto. Qed.

Lemma yields_bits n v : 0 <= n <= 16 -> 0 <= v < 2 ^ n -> yields (bits n) (zbits (Z.to_nat n) v) (eq v).
Proof. intros Hn Hv b t Hb _ Hs. eapply cok_mono; [by apply (bits_next n v t)|]. intros r b' [-> M]. done. Qed.

Lemma yields_code ls h s l : huff_ok ls h -> ls !! s = Some l -> l <> 0 ->
  yields (huff_decode h) (code_bits ls s) (eq (Z.of_nat s)).
Proof. intros Hh Hs Hl b t Hb _ Hst. eapply cok_mono; [by eapply huff_decode_code|]. intros r b' [-> M]. done. Qed.

(** A symbol that has a code. *)
Definition coded (ls : list Z) (s : nat) : Prop := exists l, ls !! s = Some l /\ l <> 0.

(** * Tokens *)

(** A literal byte, or a copy: length code [li] with extra bits [lx], distance
    code [di] with extra bits [dx]. *)
Inductive token := Lit (c : Z) | Match (li : nat) (lx : Z) (di : nat) (dx : Z).

Definition nth_z (l : list Z) (i : nat) : Z := default 0 (l !! i).
Definition mlen (li : nat) (lx : Z) : Z := nth_z len_base li + lx.
Definition mdist (di : nat) (dx : Z) : Z := nth_z dist_base di + dx.

(** what the token adds to the output *)
Fixpoint copy_back (n dist : nat) (out : list Z) : list Z :=
  match n with O => out | S n' => copy_back n' dist (out ++ [default 0 (out !! (length out - dist)%nat)]) end.

Definition expand1 (out : list Z) (t : token) : list Z :=
  match t with
  | Lit c => out ++ [c]
  | Match li lx di dx => copy_back (Z.to_nat (mlen li lx)) (Z.to_nat (mdist di dx)) out
  end.

Definition expand (out : list Z) (ts : list token) : list Z := fold_left expand1 ts out.

Section tokens.
Context (lls dls : list Z).

Definition token_ok (out : list Z) (t : token) : Prop :=
  match t with
  | Lit c => byte c /\ coded lls (Z.to_nat c)
  | Match li lx di dx =>
      (li < 29)%nat /\ 0 <= lx < 2 ^ nth_z len_extra li /\ coded lls (257 + li) /\
      (di < 30)%nat /\ 0 <= dx < 2 ^ nth_z dist_extra di /\ coded dls di /\ mdist di dx <= Z.of_nat (length out)
  end.

Fixpoint tokens_ok (out : list Z) (ts : list token) : Prop :=
  match ts with [] => True | t :: ts' => token_ok out t /\ tokens_ok (expand1 out t) ts' end.

(** the bits of a token, and of a block's tokens with their end *)
Definition enc_token (t : token) : list bool :=
  match t with
  | Lit c => code_bits lls (Z.to_nat c)
  | Match li lx di dx =>
      code_bits lls (257 + li) ++ zbits (Z.to_nat (nth_z len_extra li)) lx ++
      code_bits dls di ++ zbits (Z.to_nat (nth_z dist_extra di)) dx
  end.

Definition enc_tokens (ts : list token) : list bool := (ts ≫= enc_token) ++ code_bits lls 256.
End tokens.

(** ** The output buffer *)

(** [d] holds [out], at its start. *)
Definition holds (d : list Z) (out : list Z) : Prop := take (length out) d = out.

Lemma holds_len d out : holds d out -> (length out <= length d)%nat.
Proof. unfold holds. intros H. rewrite <- H, length_take. lia. Qed.

Lemma holds_lookup d out i x : holds d out -> out !! i = Some x -> d !! i = Some x.
Proof. intros H Hi. rewrite <- H in Hi. by apply lookup_take_Some in Hi as [? _]. Qed.

Lemma holds_snoc d out c : holds d out -> (length out < length d)%nat -> holds (<[length out := c]> d) (out ++ [c]).
Proof.
  unfold holds. intros H Hl. rewrite length_app. cbn [length]. rewrite Nat.add_1_r.
  rewrite (take_S_r _ _ c); [|by rewrite list_lookup_insert_eq]. rewrite take_insert_ge by lia. by rewrite H.
Qed.

Lemma length_copy_back n dist out : length (copy_back n dist out) = (length out + n)%nat.
Proof. revert out. induction n as [|n IH]; intros out; cbn [copy_back]; [lia|]. rewrite IH, length_app. cbn. lia. Qed.

(** The byte by byte copy computes [copy_back], overlaps included. *)
Lemma copy_match_spec d out n dist : holds d out -> 1 <= dist <= Z.of_nat (length out) -> 0 <= n ->
  Z.of_nat (length out) + n <= Z.of_nat (length d) -> Z.of_nat (length d) < 2 ^ 31 ->
  ok (copy_match d (Z.of_nat (length out)) (Z.of_nat (length out) - dist) n) (fun d' =>
    length d' = length d /\ holds d' (copy_back (Z.to_nat n) (Z.to_nat dist) out)).
Proof.
  intros Hd Hdist Hn Hl Hcap. unfold copy_match.
  eapply ok_mono; [apply (ok_iter (fun k d' => length d' = length d /\ exists o, holds d' o /\
    Z.of_nat (length o) = Z.of_nat (length out) + k /\
    copy_back (Z.to_nat n - Z.to_nat k) (Z.to_nat dist) o = copy_back (Z.to_nat n) (Z.to_nat dist) out))|].
  - split; [done|]. exists out. split; [done|]. split; [lia|]. f_equal. lia.
  - intros k d' Hk [Hd' (o & Ho & Hol & Hcb)]. rewrite !u32_small by lia.
    destruct (lookup_lt_is_Some_2 o (length o - Z.to_nat dist)) as [x Hx]; [lia|].
    rewrite (aref_ok _ _ x); [|lia|]; [|apply (holds_lookup _ _ _ _ Ho); replace (Z.to_nat _) with (length o - Z.to_nat dist)%nat by lia; done].
    cbn [mbind outcome_bind]. replace (Z.of_nat (length out) + k) with (Z.of_nat (length o)) by lia.
    pose proof (holds_len _ _ Ho). apply ok_aset; [lia|]. rewrite Nat2Z.id, length_insert. split; [done|].
    exists (o ++ [x]). split; [apply holds_snoc; [done|lia]|]. rewrite length_app. cbn [length]. split; [lia|].
    rewrite <- Hcb. replace (Z.to_nat n - Z.to_nat k)%nat with (S (Z.to_nat n - Z.to_nat (k + 1))) by lia.
    cbn [copy_back]. rewrite Hx. done.
  - cbn beta. intros d' [Hd' (o & Ho & _ & Hcb)]. split; [done|]. rewrite <- Hcb.
    replace (Z.to_nat n - Z.to_nat (0 + Z.of_nat (Z.to_nat n)))%nat with O by lia. done.
Qed.

(** ** The block loop *)

Lemma aref_nth l i : (i < length l)%nat -> aref l (Z.of_nat i) = Ok (nth_z l i).
Proof.
  intros Hi. destruct (lookup_lt_is_Some_2 l i Hi) as [x Hx]. rewrite (aref_ok _ _ x) by (try lia; by rewrite Nat2Z.id).
  unfold nth_z. by rewrite Hx.
Qed.

Lemma nth_range l i lo hi : Forall (fun x => lo <= x <= hi) l -> (i < length l)%nat -> lo <= nth_z l i <= hi.
Proof. intros Hl Hi. destruct (lookup_lt_is_Some_2 l i Hi) as [x Hx]. unfold nth_z. rewrite Hx. exact (Forall_lookup_1 _ _ _ _ Hl Hx). Qed.

Section block.
Context (lls dls : list Z) (lh dh : huff) (Hlh : huff_ok lls lh) (Hdh : huff_ok dls dh).

Lemma token_grows out t : (length out <= length (expand1 out t))%nat.
Proof. destruct t; cbn [expand1]; [rewrite length_app; lia|rewrite length_copy_back; lia]. Qed.

Lemma expand_grows ts : forall out, (length out <= length (expand out ts))%nat.
Proof.
  induction ts as [|t ts IH]; intros out; cbn [expand fold_left]; [done|]. pose proof (token_grows out t).
  specialize (IH (expand1 out t)). unfold expand in IH. lia.
Qed.

Lemma inflate_block_tokens ts : forall fuel dst out, (length ts < fuel)%nat -> holds dst out ->
  tokens_ok lls dls out ts -> coded lls 256 -> (length (expand out ts) <= length dst)%nat -> Z.of_nat (length dst) < 2 ^ 31 ->
  yields (inflate_block fuel lh dh dst (Z.of_nat (length dst)) (Z.of_nat (length out))) (enc_tokens lls dls ts) (fun r =>
    r.1 = Z.of_nat (length (expand out ts)) /\ length r.2 = length dst /\ holds r.2 (expand out ts)).
Proof.
  unfold enc_tokens. induction ts as [|t ts IH]; intros fuel dst out Hf Hd Hok H256 Hcap H31; (destruct fuel as [|fuel]; [cbn in Hf; lia|]);
    cbn [inflate_block mbind list_bind expand fold_left].
  - destruct H256 as (l & Hl & Hl0). cbn [app]. rewrite <- (app_nil_r (code_bits lls 256)).
    eapply yields_bind; [by eapply yields_code|]. intros ? <-. apply yields_err. cbn [orb].
    cbn [Z.of_nat Pos.of_succ_nat Z.ltb Z.compare Z.eqb]. apply yields_ret. cbn [fst snd].
    split; [|done]. rewrite s32_small; [done|]. cbn in Hcap. lia.
  - destruct Hok as [Ht Hts]. pose proof (expand_grows ts (expand1 out t)) as Hg. unfold expand in Hg, Hcap. cbn [fold_left] in Hcap.
    assert (Hrest : forall dst', length dst' = length dst -> holds dst' (expand1 out t) -> forall o, o = Z.of_nat (length (expand1 out t)) ->
      yields (inflate_block fuel lh dh dst' (Z.of_nat (length dst)) o) ((ts ≫= enc_token lls dls) ++ code_bits lls 256) (fun r =>
        r.1 = Z.of_nat (length (fold_left expand1 ts (expand1 out t))) /\ length r.2 = length dst /\
        holds r.2 (fold_left expand1 ts (expand1 out t)))).
    { intros dst' Hl' Hh' o ->. rewrite <- Hl'. eapply yields_mono; [apply (IH fuel dst' (expand1 out t)); try done; [cbn in Hf; lia|rewrite Hl'; exact Hcap|by rewrite Hl']|].
      intros r (H1 & H2 & H3). by rewrite H2. }
    rewrite <- app_assoc. destruct t as [c|li lx di dx]; cbn [token_ok enc_token expand1] in *.
    + destruct Ht as [Hc (l & Hl & Hl0)]. unfold byte in Hc.
      eapply yields_bind; [by eapply yields_code|]. intros ? <-. apply yields_err. cbn [orb]. rewrite Z2Nat.id by lia.
      rewrite (proj2 (Z.ltb_ge _ _)), (proj2 (Z.eqb_neq _ _)), (proj2 (Z.ltb_lt _ _)) by lia. rewrite length_app in Hg. cbn in Hg.
      rewrite (proj2 (Z.leb_gt _ _)) by lia. apply yields_lift, ok_aset; [lia|]. rewrite Nat2Z.id, u8_small, u32_small by lia.
      apply Hrest; [by rewrite length_insert|apply holds_snoc; [done|lia]|]. rewrite length_app. cbn. lia.
    + destruct Ht as (Hli & Hlx & (l & Hl & Hl0) & Hdi & Hdx & (d & Hd' & Hd0) & Hdist).
      assert (Hle : 0 <= nth_z len_extra li <= 5) by (apply nth_range; [repeat constructor; lia|done]).
      assert (Hlb : 3 <= nth_z len_base li <= 258) by (apply nth_range; [repeat constructor; lia|done]).
      assert (Hde : 0 <= nth_z dist_extra di <= 13) by (apply nth_range; [repeat constructor; lia|done]).
      assert (Hdb : 1 <= nth_z dist_base di <= 24577) by (apply nth_range; [repeat constructor; lia|done]).
      assert (2 ^ nth_z len_extra li <= 2 ^ 5) by (apply Z.pow_le_mono_r; lia).
      assert (2 ^ nth_z dist_extra di <= 2 ^ 13) by (apply Z.pow_le_mono_r; lia).
      rewrite <- !app_assoc. eapply yields_bind; [by eapply yields_code|]. intros ? <-. apply yields_err. cbn [orb].
      rewrite (proj2 (Z.ltb_ge _ 0)), (proj2 (Z.eqb_neq _ _)), (proj2 (Z.ltb_ge _ 256)) by lia. cbv zeta.
      replace (Z.of_nat (257 + li) - 257) with (Z.of_nat li) by lia. rewrite (proj2 (Z.leb_gt _ _)) by lia.
      rewrite !aref_nth by (cbn; lia). apply yields_lift, yields_lift. cbn [ok].
      eapply yields_bind; [apply yields_bits; [lia|done]|]. intros ? <-.
      eapply yields_bind; [by eapply yields_code|]. intros ? <-. apply yields_err. cbn [orb].
      rewrite (proj2 (Z.ltb_ge _ 0)), (proj2 (Z.leb_gt 30 _)) by lia. cbn [orb]. rewrite !aref_nth by (cbn; lia). apply yields_lift, yields_lift. cbn [ok].
      eapply yields_bind; [apply yields_bits; [lia|done]|]. intros ? <-. fold (mlen li lx) (mdist di dx) in *.
      assert (Hml : 3 <= mlen li lx <= 300) by (unfold mlen; lia). assert (Hmd : 1 <= mdist di dx) by (unfold mdist; lia).
      rewrite length_copy_back in Hg. u32_simpl. rewrite (proj2 (Z.ltb_ge _ _)) by lia. rewrite (proj2 (Z.ltb_ge _ _)) by lia.
      u32_simpl. apply yields_lift. eapply ok_mono; [apply copy_match_spec; [done|lia|lia|lia|done]|].
      intros dst' [Hdl Hdh']. apply Hrest; [done|done|]. rewrite length_copy_back. lia.
Qed.
End block.
