(* ===== verification/InflateDynamic.v ===== *)
(** The header of a dynamic block, and the tables [build_dynamic] makes of it. *)

From stdpp Require Import list.
From Stdlib Require Import ZArith Lia.
From S2P Require Import Prelude Checked Inflate InflateBits InflateHuff InflateSafe InflateTokens.

(** * Run-length coded code lengths *)

(** a length; the previous one 3 to 6 times; zero 3 to 10 times; zero 11 to 138 times *)
Inductive ctok := CLen (l : Z) | CPrev (x : Z) | CZero3 (x : Z) | CZero11 (x : Z).

Definition cexpand1 (acc : list Z) (t : ctok) : list Z :=
  match t with
  | CLen l => acc ++ [l]
  | CPrev x => acc ++ replicate (Z.to_nat (3 + x)) (default 0 (last acc))
  | CZero3 x => acc ++ replicate (Z.to_nat (3 + x)) 0
  | CZero11 x => acc ++ replicate (Z.to_nat (11 + x)) 0
  end.

Definition cexpand (acc : list Z) (ts : list ctok) : list Z := fold_left cexpand1 ts acc.

Section code_lengths.
Context (cls : list Z).

Definition ctok_ok (acc : list Z) (t : ctok) : Prop :=
  match t with
  | CLen l => 0 <= l <= 15 /\ coded cls (Z.to_nat l)
  | CPrev x => acc <> [] /\ 0 <= x < 4 /\ coded cls 16
  | CZero3 x => 0 <= x < 8 /\ coded cls 17
  | CZero11 x => 0 <= x < 128 /\ coded cls 18
  end.

Fixpoint ctoks_ok (acc : list Z) (ts : list ctok) : Prop :=
  match ts with [] => True | t :: ts' => ctok_ok acc t /\ ctoks_ok (cexpand1 acc t) ts' end.

Definition enc_ctok (t : ctok) : list bool :=
  match t with
  | CLen l => code_bits cls (Z.to_nat l)
  | CPrev x => code_bits cls 16 ++ zbits 2 x
  | CZero3 x => code_bits cls 17 ++ zbits 3 x
  | CZero11 x => code_bits cls 18 ++ zbits 7 x
  end.
End code_lengths.

Lemma cexpand_grows ts : forall acc, (length acc <= length (cexpand acc ts))%nat.
Proof.
  induction ts as [|t ts IH]; intros acc; cbn [cexpand fold_left]; [done|]. specialize (IH (cexpand1 acc t)). unfold cexpand in IH.
  destruct t; cbn [cexpand1] in *; rewrite length_app in IH; lia.
Qed.

Lemma ctok_grows cls acc t : ctok_ok cls acc t -> (length acc < length (cexpand1 acc t))%nat.
Proof. destruct t; cbn; rewrite length_app, ?length_replicate; cbn; intros; lia. Qed.

Lemma repeat_length_spec v total rep : forall ls acc, holds ls acc -> length ls = 318%nat -> total <= 318 ->
  Z.of_nat (length acc + rep) <= total ->
  ok (repeat_length rep v ls (Z.of_nat (length acc)) total) (fun r =>
    length r.1 = 318%nat /\ holds r.1 (acc ++ replicate rep v) /\ r.2 = Z.of_nat (length (acc ++ replicate rep v))).
Proof.
  induction rep as [|rep IH]; intros ls acc Hh Hl Ht Hf; cbn [repeat_length replicate].
  - cbn. by rewrite app_nil_r.
  - rewrite (proj2 (Z.ltb_lt _ _)) by lia. apply ok_bind, ok_aset; [lia|]. rewrite Nat2Z.id.
    eapply ok_mono.
    + replace (Z.of_nat (length acc) + 1) with (Z.of_nat (length (acc ++ [v]))) by (rewrite length_app; cbn; lia).
      apply (IH _ (acc ++ [v])); [apply holds_snoc; [done|lia]|by rewrite length_insert|done|rewrite length_app; cbn; lia].
    + intros r (H1 & H2 & H3). rewrite <- app_assoc in H2, H3. done.
Qed.

Section read.
Context (cls : list Z) (clc : huff) (Hclc : huff_ok cls clc).

Lemma read_lengths_tokens ts total : total <= 318 -> forall fuel ls acc, (length ts <= fuel)%nat -> holds ls acc -> length ls = 318%nat ->
  ctoks_ok cls acc ts -> Z.of_nat (length (cexpand acc ts)) = total ->
  yields (read_lengths fuel clc ls (Z.of_nat (length acc)) total) (ts ≫= enc_ctok cls) (fun r =>
    exists l, r = inr l /\ length l = 318%nat /\ holds l (cexpand acc ts)).
Proof.
  intros Ht. induction ts as [|t ts IH]; intros fuel ls acc Hf Hh Hl Hok Hlen; cbn [mbind list_bind cexpand fold_left] in *.
  { destruct fuel; cbn [read_lengths]; rewrite (proj2 (Z.ltb_ge _ _)) by lia; apply yields_ret; eauto. }
  destruct fuel as [|fuel]; [cbn in Hf; lia|]. cbn [read_lengths]. destruct Hok as [Ht1 Hts].
  pose proof (cexpand_grows ts (cexpand1 acc t)) as Hg. unfold cexpand in Hg.
  pose proof (ctok_grows _ _ _ Ht1) as Hg1.
  rewrite (proj2 (Z.ltb_lt _ _)) by lia.
  assert (Hrest : forall ls' n, holds ls' (cexpand1 acc t) -> length ls' = 318%nat -> n = Z.of_nat (length (cexpand1 acc t)) ->
    yields (read_lengths fuel clc ls' n total) (ts ≫= enc_ctok cls) (fun r =>
      exists l, r = inr l /\ length l = 318%nat /\ holds l (fold_left cexpand1 ts (cexpand1 acc t)))).
  { intros ls' n H1 H2 ->. apply IH; try done. cbn in Hf. lia. }
  assert (Hrep : forall nb x v m, 0 <= nb <= 7 -> 0 <= x < 2 ^ nb -> 0 <= m -> cexpand1 acc t = acc ++ replicate (Z.to_nat (m + x)) v ->
    yields (y ← bits nb; r ← lift (repeat_length (Z.to_nat (m + y)) v ls (Z.of_nat (length acc)) total); read_lengths fuel clc r.1 r.2 total)
      (zbits (Z.to_nat nb) x ++ (ts ≫= enc_ctok cls)) (fun r =>
      exists l, r = inr l /\ length l = 318%nat /\ holds l (fold_left cexpand1 ts (cexpand1 acc t)))).
  { intros nb x v m Hnb Hx Hm E. eapply yields_bind; [apply yields_bits; [lia|done]|]. intros ? <-.
    assert (El : length (cexpand1 acc t) = (length acc + Z.to_nat (m + x))%nat) by (by rewrite E, length_app, length_replicate).
    apply yields_lift. eapply ok_mono; [apply repeat_length_spec; [done|done|done|lia]|].
    intros r (R1 & R2 & R3). rewrite <- E in R2, R3. by apply Hrest. }
  destruct t as [l|x|x|x]; cbn [ctok_ok enc_ctok] in *; rewrite <- ?app_assoc.
  - destruct Ht1 as [Hl15 (c & Hc & Hc0)]. eapply yields_bind; [by eapply yields_code|]. intros ? <-. apply yields_err. cbn [orb].
    rewrite Z2Nat.id, (proj2 (Z.ltb_ge _ _)), (proj2 (Z.ltb_lt l 16)) by lia. apply yields_lift, ok_aset; [lia|].
    rewrite Nat2Z.id, u8_small by lia. apply Hrest; [apply holds_snoc; [done|lia]|by rewrite length_insert|].
    cbn [cexpand1]. rewrite length_app. cbn. lia.
  - destruct Ht1 as (Hne & Hx & (c & Hc & Hc0)). eapply yields_bind; [by eapply yields_code|]. intros ? <-. apply yields_err.
    assert (Hpos : (0 < length acc)%nat) by (destruct acc; [done|cbn; lia]).
    change (Z.of_nat 16) with 16. cbn [orb Z.ltb Z.compare Pos.compare Pos.compare_cont Z.eqb Pos.eqb]. rewrite (proj2 (Z.eqb_neq (Z.of_nat (length acc)) 0)) by lia.
    assert (Hprev : aref ls (Z.of_nat (length acc) - 1) = Ok (default 0 (last acc))).
    { rewrite last_lookup. destruct (lookup_lt_is_Some_2 acc (pred (length acc))) as [p Hp]; [lia|]. rewrite Hp. cbn [default].
      apply aref_ok; [lia|]. apply (holds_lookup _ _ _ _ Hh). by replace (Z.to_nat _) with (pred (length acc)) by lia. }
    pose proof (Hrep 2 x (default 0 (last acc)) 3 ltac:(lia) Hx ltac:(lia) eq_refl) as H.
    intros b t Hb He Hs. specialize (H b t Hb He Hs). unfold cok, mbind, C_bind in H |- *.
    destruct (bits 2 b) as [[y b2]| |]; [|done..]. rewrite Hprev. exact H.
  - destruct Ht1 as (Hx & (c & Hc & Hc0)). eapply yields_bind; [by eapply yields_code|]. intros ? <-. apply yields_err.
    by apply (Hrep 3 x 0 3).
  - destruct Ht1 as (Hx & (c & Hc & Hc0)). eapply yields_bind; [by eapply yields_code|]. intros ? <-. apply yields_err.
    by apply (Hrep 7 x 0 11).
Qed.
End read.

(** * The header *)

(** the lengths of the code length code, in the order they are sent *)
Definition enc_clc (hclen : nat) (cl : list Z) : list bool := take hclen clc_order ≫= fun o => zbits 3 (nth_z cl (Z.to_nat o)).

Definition clc_ok (hclen : nat) (cl : list Z) : Prop :=
  length cl = 19%nat /\ Forall (fun x => 0 <= x < 8) cl /\ (4 <= hclen <= 19)%nat /\ kraft cl /\
  forall o, o ∈ drop hclen clc_order -> nth_z cl (Z.to_nat o) = 0.

Lemma clc_order_all j : (j < 19)%nat -> Z.of_nat j ∈ clc_order.
Proof. intros Hj. apply (bool_decide_unpack _). do 19 (destruct j as [|j]; [by vm_compute|]). lia. Qed.

Lemma read_clc_spec cl : length cl = 19%nat -> Forall (fun x => 0 <= x < 8) cl ->
  forall k i acc, (i + k <= 19)%nat -> length acc = 19%nat ->
  yields (read_clc k (Z.of_nat i) acc) (take k (drop i clc_order) ≫= fun o => zbits 3 (nth_z cl (Z.to_nat o))) (fun l =>
    length l = 19%nat /\ forall j, (j < 19)%nat ->
      nth_z l j = if decide (Z.of_nat j ∈ take k (drop i clc_order)) then nth_z cl j else nth_z acc j).
Proof.
  intros Hcl H8. induction k as [|k IH]; intros i acc Hik Hacc; cbn [read_clc].
  { rewrite take_0. apply yields_ret. split; [done|]. intros j Hj. rewrite decide_False; [done|]. apply not_elem_of_nil. }
  assert (Ho : exists o, clc_order !! i = Some o /\ 0 <= o <= 18).
  { destruct (lookup_lt_is_Some_2 clc_order i) as [o Ho]; [cbn; lia|]. exists o. split; [done|].
    assert (Hr : Forall (fun x => 0 <= x <= 18) clc_order) by (repeat constructor; lia). exact (Forall_lookup_1 _ _ _ _ Hr Ho). }
  destruct Ho as (o & Ho & Ho18). rewrite (drop_S _ o) by done. cbn [take mbind list_bind].
  rewrite (aref_ok _ (Z.of_nat i) o) by (try lia; by rewrite Nat2Z.id). apply yields_lift. cbn [ok].
  assert (Hv : 0 <= nth_z cl (Z.to_nat o) < 2 ^ 3).
  { unfold nth_z. destruct (lookup_lt_is_Some_2 cl (Z.to_nat o)) as [v Hv]; [lia|]. rewrite Hv. exact (Forall_lookup_1 _ _ _ _ H8 Hv). }
  eapply yields_bind; [apply (yields_bits 3); [lia|exact Hv]|]. intros ? <-.
  apply yields_lift, ok_aset; [lia|]. rewrite u8_small by lia. replace (Z.of_nat i + 1) with (Z.of_nat (S i)) by lia.
  eapply yields_mono; [apply (IH (S i)); [lia|by rewrite length_insert]|].
  intros l [Hl H]. split; [done|]. intros j Hj. rewrite H by done.
  destruct (decide (Z.of_nat j ∈ take k (drop (S i) clc_order))) as [Hin|Hnin].
  - rewrite decide_True; [done|]. by apply elem_of_cons; right.
  - unfold nth_z at 1. destruct (decide (j = Z.to_nat o)) as [->|Hne].
    + rewrite list_lookup_insert_eq by lia. rewrite decide_True; [done|]. rewrite Z2Nat.id by lia. apply elem_of_cons. by left.
    + rewrite list_lookup_insert_ne by done. rewrite decide_False; [done|]. rewrite elem_of_cons. intros [|]; [lia|done].
Qed.

Lemma nth_ext (l l' : list Z) n : length l = n -> length l' = n -> (forall j, (j < n)%nat -> nth_z l j = nth_z l' j) -> l = l'.
Proof.
  intros Hl Hl' H. apply list_eq_same_length with n; [done|done|]. intros j x y Hj Hx Hy. specialize (H j Hj).
  unfold nth_z in H. by rewrite Hx, Hy in H.
Qed.

Lemma read_clc_header hclen cl : clc_ok hclen cl -> yields (read_clc hclen 0 (replicate 19 0)) (enc_clc hclen cl) (eq cl).
Proof.
  intros (Hcl & H8 & Hh & _ & Hrest). eapply yields_mono; [apply (read_clc_spec cl Hcl H8 hclen 0); [lia|done]|].
  intros l [Hl H]. apply (nth_ext _ _ 19); [done|done|]. intros j Hj. rewrite H by done. case_decide as Hin; [done|].
  replace (nth_z (replicate 19 0) j) with 0 by (unfold nth_z; rewrite lookup_replicate_2 by done; done).
  rewrite <- (Nat2Z.id j). apply Hrest. pose proof (clc_order_all j Hj) as Hall.
  rewrite <- (take_drop hclen clc_order) in Hall. apply elem_of_app in Hall as [|]; done.
Qed.

(** A dynamic header: the code length code, and the lengths of the two tables. *)
Record dyn := Dyn { dy_hclen : nat; dy_cl : list Z; dy_toks : list ctok; dy_lls : list Z; dy_dls : list Z }.

Definition dyn_ok (d : dyn) : Prop :=
  clc_ok (dy_hclen d) (dy_cl d) /\ ctoks_ok (dy_cl d) [] (dy_toks d) /\ cexpand [] (dy_toks d) = dy_lls d ++ dy_dls d /\
  (257 <= length (dy_lls d) <= 286)%nat /\ (1 <= length (dy_dls d) <= 30)%nat /\
  kraft (dy_lls d) /\ kraft (dy_dls d) /\ in15 (dy_lls d) /\ in15 (dy_dls d) /\ coded (dy_lls d) 256.

Definition enc_dyn (d : dyn) : list bool :=
  zbits 5 (Z.of_nat (length (dy_lls d)) - 257) ++ zbits 5 (Z.of_nat (length (dy_dls d)) - 1) ++ zbits 4 (Z.of_nat (dy_hclen d) - 4) ++
  enc_clc (dy_hclen d) (dy_cl d) ++ (dy_toks d ≫= enc_ctok (dy_cl d)).

Lemma ctoks_count cls ts : forall acc, ctoks_ok cls acc ts -> (length acc + length ts <= length (cexpand acc ts))%nat.
Proof.
  induction ts as [|t ts IH]; intros acc Hok; cbn [cexpand fold_left length]; [lia|]. destruct Hok as [H1 H2].
  pose proof (ctok_grows _ _ _ H1). specialize (IH _ H2). unfold cexpand in IH. lia.
Qed.

Lemma build_dynamic_spec d : dyn_ok d -> yields (build_dynamic huff_fresh huff_fresh) (enc_dyn d) (fun r =>
  r.1 = 0 /\ huff_ok (dy_lls d) r.2.1 /\ huff_ok (dy_dls d) r.2.2).
Proof.
  destruct d as [hclen cl ts lls dls]. unfold dyn_ok, enc_dyn. cbn [dy_hclen dy_cl dy_toks dy_lls dy_dls].
  intros (Hclc & Hts & Hexp & Hll & Hdl & Kl & Kd & L15 & D15 & (c & Hc & Hc0)).
  pose proof Hclc as (Hcl & H8 & Hh & Kcl & _). unfold build_dynamic.
  eapply yields_bind; [apply (yields_bits 5); lia|]. intros ? <-. eapply yields_bind; [apply (yields_bits 5); lia|]. intros ? <-.
  eapply yields_bind; [apply (yields_bits 4); lia|]. intros ? <-. rewrite !Z.sub_add. cbv zeta.
  rewrite (proj2 (Z.ltb_ge _ _)) by lia. rewrite (proj2 (Z.ltb_ge _ _)) by lia. cbn [orb]. rewrite !Nat2Z.id.
  eapply yields_bind; [by apply read_clc_header|]. intros ? <-.
  apply yields_lift. eapply ok_mono; [apply (huff_build_spec cl 19); [lia|apply lens_ok_take; [|lia]|apply fresh_len]|].
  { eapply Forall_impl; [exact H8|]. cbn. lia. }
  rewrite firstn_all2 by lia. intros [rc clc] [_ [[_ Hk]|[Hrc Hck]]]; [done|]. cbn [fst snd].
  rewrite (proj2 (Z.ltb_ge _ _)) by lia. rewrite <- (app_nil_r (ts ≫= _)).
  assert (Elen : length (cexpand [] ts) = (length lls + length dls)%nat) by (by rewrite Hexp, length_app).
  eapply yields_bind.
  - pose proof (ctoks_count _ _ _ Hts) as Hcnt. cbn [length] in Hcnt.
    apply (read_lengths_tokens cl clc Hck ts (Z.of_nat (length lls) + Z.of_nat (length dls)) ltac:(lia) _ _ []); [lia|done|done|done|lia].
  - intros ? (l & -> & Hl & Hh2). unfold holds in Hh2. rewrite Hexp, length_app in Hh2.
    assert (E1 : take (length lls) l = lls).
    { rewrite <- (Nat.min_l (length lls) (length lls + length dls)), <- take_take by lia. rewrite Hh2. by rewrite take_app_length. }
    assert (E2 : take (length dls) (drop (length lls) l) = dls).
    { rewrite take_drop_commute. rewrite Hh2. by rewrite drop_app_length. }
    assert (E3 : l !! 256%nat = Some c) by (rewrite <- E1 in Hc; by apply lookup_take_Some in Hc as [? _]).
    rewrite (aref_ok l 256 c) by done. apply yields_lift. cbn [ok]. rewrite (proj2 (Z.eqb_neq _ _)) by done.
    apply yields_lift. eapply ok_mono; [apply (huff_build_spec l (length lls)); [lia|rewrite E1; split; [done|lia]|apply fresh_len]|].
    rewrite E1. intros [rl hl] [_ [[_ Hk]|[Hrl Hlk]]]; [done|]. cbn [fst snd]. rewrite (proj2 (Z.ltb_ge _ _)) by lia.
    apply yields_lift.
    eapply ok_mono; [apply (huff_build_spec (drop (length lls) l) (length dls)); [rewrite length_drop; lia|rewrite E2; split; [done|lia]|apply fresh_len]|].
    rewrite E2. intros [rd hd] [_ [[_ Hk]|[Hrd Hdk]]]; [done|]. cbn [fst snd]. rewrite (proj2 (Z.ltb_ge _ _)) by lia.
    apply yields_ret. done.
Qed.
