(* ===== verification/InflateRoundtrip.v ===== *)
(** [inflate_raw] decodes every valid DEFLATE stream, [gunzip] every gzip file. *)

From stdpp Require Import list.
From Stdlib Require Import ZArith Lia.
From S2P Require Import Prelude Checked Inflate InflateBits InflateHuff InflateSafe InflateTokens InflateDynamic.

(** * Streams *)

(** A block: bytes after the padding to a byte boundary, tokens in the fixed
    code, or tokens in a code of its own. *)
Inductive block := Stored (pad : list bool) (data : list Z) | Fixed (ts : list token) | Dynamic (d : dyn) (ts : list token).

Definition block_out (out : list Z) (b : block) : list Z :=
  match b with Stored _ data => out ++ data | Fixed ts | Dynamic _ ts => expand out ts end.

Definition stored_bytes (data : list Z) : list Z :=
  let n := Z.of_nat (length data) in [n mod 256; n / 256; (65535 - n) mod 256; (65535 - n) / 256] ++ data.

Definition enc_block (final : bool) (b : block) : list bool :=
  zbits 1 (Z.b2z final) ++
  match b with
  | Stored pad data => zbits 2 0 ++ pad ++ bytes_bits (stored_bytes data)
  | Fixed ts => zbits 2 1 ++ enc_tokens fixed_ll fixed_dl ts
  | Dynamic d ts => zbits 2 2 ++ enc_dyn d ++ enc_tokens (dy_lls d) (dy_dls d) ts
  end.

(** [k] bits precede the block. *)
Definition block_ok (k : nat) (out : list Z) (b : block) : Prop :=
  match b with
  | Stored pad data => Forall byte data /\ Z.of_nat (length data) <= 65535 /\ (length pad < 8)%nat /\ ((k + 3 + length pad) mod 8 = 0)%nat
  | Fixed ts => tokens_ok fixed_ll fixed_dl out ts
  | Dynamic d ts => dyn_ok d /\ tokens_ok (dy_lls d) (dy_dls d) out ts
  end.

(** The blocks of a stream: the last one is marked. *)
Fixpoint enc_blocks (bs : list block) : list bool :=
  match bs with [] => [] | b :: bs' => enc_block (match bs' with [] => true | _ => false end) b ++ enc_blocks bs' end.

Fixpoint blocks_ok (k : nat) (out : list Z) (bs : list block) : Prop :=
  match bs with
  | [] => True
  | b :: bs' => block_ok k out b /\ blocks_ok (k + length (enc_block (match bs' with [] => true | _ => false end) b)) (block_out out b) bs'
  end.

Definition decompressed (bs : list block) : list Z := fold_left block_out bs [].

(** * Stored blocks *)

Lemma bytes_bits_prefix l' t : Forall byte l' -> forall l, Forall byte l -> bytes_bits l = bytes_bits l' ++ t ->
  exists r, l = l' ++ r /\ bytes_bits r = t.
Proof.
  intros Hl'. induction Hl' as [|x l' Hx Hl' IH]; intros l Hl E; [by exists l|].
  cbn [bytes_bits mbind list_bind] in E. rewrite <- app_assoc in E. destruct Hl as [|y l Hy Hl]; [by apply (f_equal length) in E|].
  cbn [bytes_bits mbind list_bind] in E. apply app_inj_1 in E as [E1 E2]; [|by rewrite !length_zbits].
  apply zbits_inj in E1; [|exact Hy|exact Hx]. subst y. destruct (IH l Hl E2) as (r & -> & Hr). by exists r.
Qed.

Lemma rest_aref b i x : binv b -> rest b !! i = Some x -> aref (b_src b) (b_pos b + Z.of_nat i) = Ok x.
Proof.
  intros [_ _ Hp _ _] Hx. unfold rest in Hx. rewrite lookup_drop in Hx. apply lookup_take_Some in Hx as [Hx _].
  apply aref_ok; [lia|]. by replace (Z.to_nat (b_pos b + Z.of_nat i)) with (Z.to_nat (b_pos b) + i)%nat by lia.
Qed.

Lemma rest_length b : binv b -> Z.of_nat (length (rest b)) = b_len b - b_pos b.
Proof. intros [_ Hl Hp _ _]. unfold rest. rewrite length_drop, length_take. lia. Qed.

Lemma src16_spec b x y r : binv b -> forall i, drop i (rest b) = x :: y :: r -> byte x ->
  src16 b (b_pos b + Z.of_nat i) = Ok (x + 256 * y).
Proof.
  intros Hb i E Hx. unfold src16.
  assert (E0 : rest b !! i = Some x) by (rewrite <- (Nat.add_0_r i), <- lookup_drop, E; done).
  assert (E1 : rest b !! (i + 1)%nat = Some y) by (rewrite <- lookup_drop, E; done).
  rewrite (rest_aref b i x Hb E0). cbn [mbind outcome_bind].
  replace (b_pos b + Z.of_nat i + 1) with (b_pos b + Z.of_nat (i + 1)) by lia. rewrite (rest_aref b _ y Hb E1).
  cbn. unfold byte in Hx. rewrite (lor_shiftl x y 8) by lia. f_equal. lia.
Qed.

Lemma lxor_ones16 n : 0 <= n < 65536 -> n .^ 0xFFFF = 65535 - n.
Proof.
  intros Hn. enough (n + (n .^ 0xFFFF) = 65535) by lia.
  rewrite Z.add_nocarry_lxor; [rewrite <- Z.lxor_assoc, Z.lxor_nilpotent; done|].
  apply Z.bits_inj'. intros i Hi. rewrite Z.land_spec, Z.lxor_spec, Z.bits_0. change 0xFFFF with (Z.ones 16).
  destruct (decide (i < 16)).
  - rewrite Z.ones_spec_low by lia. by destruct (Z.testbit n i).
  - rewrite <- (Z.mod_small n (2 ^ 16)) by lia. rewrite Z.mod_pow2_bits_high by lia. done.
Qed.

(** Copying [data] behind [out]. *)
Lemma copy_bytes_spec (f : Z -> outcome Z) data d out :
  (forall i x, data !! i = Some x -> f (Z.of_nat i) = Ok x) -> holds d out -> (length out + length data <= length d)%nat ->
  Z.of_nat (length d) < 2 ^ 31 ->
  ok (iter (length data) 0 (fun i d => c ← f i; aset d (Z.of_nat (length out) +w i) c) d) (fun d' =>
    length d' = length d /\ holds d' (out ++ data)).
Proof.
  intros Hf Hd Hl Hcap.
  eapply ok_mono; [apply (ok_iter (fun k d' => length d' = length d /\ holds d' (out ++ take (Z.to_nat k) data)))|].
  - split; [done|]. by rewrite take_0, app_nil_r.
  - intros k d' Hk [Hd' Ho]. destruct (lookup_lt_is_Some_2 data (Z.to_nat k)) as [x Hx]; [lia|].
    rewrite <- (Z2Nat.id k) at 1 by lia. rewrite (Hf _ _ Hx). cbn [mbind outcome_bind]. rewrite u32_small by lia.
    apply ok_aset; [lia|]. rewrite length_insert. split; [done|]. replace (Z.to_nat (k + 1)) with (S (Z.to_nat k)) by lia.
    rewrite (take_S_r _ _ x Hx), app_assoc.
    assert (El : length (out ++ take (Z.to_nat k) data) = (length out + Z.to_nat k)%nat) by (rewrite length_app, length_take; lia).
    replace (Z.to_nat (Z.of_nat (length out) + k)) with (length (out ++ take (Z.to_nat k) data)) by lia.
    apply holds_snoc; [done|]. lia.
  - cbn beta. intros d' [Hd' Ho]. split; [done|]. by rewrite Z.add_0_l, Nat2Z.id, firstn_all in Ho.
Qed.

Lemma stored_bytes_ok data : Forall byte data -> Z.of_nat (length data) <= 65535 -> Forall byte (stored_bytes data).
Proof.
  intros Hd Hl. unfold stored_bytes. set (n := Z.of_nat (length data)). assert (Hn : 0 <= n <= 65535) by lia.
  do 4 (apply Forall_cons; split; [unfold byte; Z.div_mod_to_equations; lia|]). done.
Qed.

Lemma stored_block_spec b pad data t dst out : binv b -> b_len b < 2 ^ 31 ->
  stream b = pad ++ bytes_bits (stored_bytes data) ++ t -> Z.of_nat (length pad) = bitcnt b ->
  Forall byte data -> Z.of_nat (length data) <= 65535 -> holds dst out -> (length out + length data <= length dst)%nat ->
  Z.of_nat (length dst) < 2 ^ 31 ->
  cok (stored_block dst (Z.of_nat (length dst)) (Z.of_nat (length out))) b (fun r b' =>
    (r.1 = Z.of_nat (length (out ++ data)) /\ length r.2 = length dst /\ holds r.2 (out ++ data)) /\ moved b b' t).
Proof.
  intros Hb H31 Hst Hpad Hdata Hdl Hho Hcap Hd31. unfold stream in Hst.
  apply app_inj_1 in Hst as [_ Hst]; [|rewrite length_zbits; lia].
  assert (Hrb : Forall byte (rest b)) by (apply Forall_drop, Forall_take, Hb).
  destruct (bytes_bits_prefix _ t (stored_bytes_ok data Hdata Hdl) (rest b) Hrb Hst) as (r & Hr & Ht).
  pose proof (rest_length b Hb) as Hrl. rewrite Hr, length_app in Hrl. unfold stored_bytes in Hr, Hrl.
  set (n := Z.of_nat (length data)) in *. assert (Hn : 0 <= n <= 65535) by lia. cbn [app length] in Hr, Hrl.
  pose proof (bi_pos _ Hb) as Hp. unfold stored_block. apply cok_bind, cok_change, cok_bind, cok_look. unfold id.
  set (b1 := set_buf 0 0 b). assert (Hb1 : binv b1) by (destruct Hb; split; cbn; try done; lia).
  change (b_len b1) with (b_len b). change (b_pos b1) with (b_pos b). rewrite !u32_small by lia.
  rewrite (proj2 (Z.ltb_ge _ _)) by lia.
  assert (S1 : src16 b1 (b_pos b) = Ok n).
  { rewrite <- (Z.add_0_r (b_pos b)). change (b_pos b + 0) with (b_pos b1 + Z.of_nat 0). rewrite (src16_spec b1 (n mod 256) (n / 256) _ Hb1 0 Hr) by (unfold byte; Z.div_mod_to_equations; lia).
    f_equal. pose proof (Z.div_mod n 256). lia. }
  assert (S2 : src16 b1 (b_pos b + 2) = Ok (65535 - n)).
  { change (b_pos b + 2) with (b_pos b1 + Z.of_nat 2).
    rewrite (src16_spec b1 ((65535 - n) mod 256) ((65535 - n) / 256) (data ++ r) Hb1 2);
      [|change (rest b1) with (rest b); by rewrite Hr|unfold byte; Z.div_mod_to_equations; lia].
    f_equal. pose proof (Z.div_mod (65535 - n) 256). lia. }
  rewrite S1, S2. apply cok_bind, cok_lift. cbn [ok]. apply cok_bind, cok_lift. cbn [ok]. apply cok_bind, cok_change.
  rewrite lxor_ones16, Z.eqb_refl by lia. cbn [negb]. apply cok_bind, cok_look.
  set (b2 := set_pos (b_pos b + 4) b1). change (b_len b2) with (b_len b). change (b_pos b2) with (b_pos b + 4).
  u32_simpl. rewrite (proj2 (Z.ltb_ge _ _)) by lia. rewrite (proj2 (Z.ltb_ge _ _)) by lia.
  apply cok_bind, cok_lift. unfold copy_stored. replace (Z.to_nat n) with (length data) by lia.
  eapply ok_mono.
  - apply (copy_bytes_spec (fun i => aref (b_src b2) (b_pos b2 +w i)) data dst out); [|done|done|done].
    intros i x Hx. pose proof (lookup_lt_Some _ _ _ Hx). change (b_pos b2) with (b_pos b + 4). change (b_src b2) with (b_src b).
    rewrite u32_small by lia. replace (b_pos b + 4 + Z.of_nat i) with (b_pos b + Z.of_nat (4 + i)) by lia.
    apply rest_aref; [done|]. rewrite Hr. change ((data ++ r) !! i = Some x). by rewrite lookup_app_l.
  - intros d' [Hd' Hho']. apply cok_bind, cok_change, cok_ret. cbn [fst snd].
    split; [split; [rewrite length_app; lia|done]|].
    assert (Hb3 : binv (set_pos (b_pos b + 4 + n) b2)) by (apply set_pos_inv; [apply set_pos_inv; [done|cbn; lia]|cbn; lia]).
    split; [done| |done|done|cbn; lia]. unfold stream. cbn [bitcnt bitbuf set_pos set_buf b2 b1 Z.to_nat]. rewrite zbits_0. cbn [app].
    rewrite <- Ht. f_equal. unfold rest in Hr |- *. cbn [b_pos b_len b_src set_pos b2 b1 set_buf].
    replace (Z.to_nat (b_pos b + 4 + n)) with (Z.to_nat (b_pos b) + (4 + length data))%nat by lia. rewrite <- drop_drop, Hr.
    cbn [Nat.add drop]. by rewrite drop_app_length.
Qed.

(** * The block loop *)

Lemma code_bits_pos ls s : in15 ls -> coded ls s -> (1 <= length (code_bits ls s))%nat.
Proof.
  intros H15 (l & Hl & Hl0). unfold code_bits. rewrite Hl, length_reverse, length_zbits.
  pose proof (Forall_lookup_1 _ _ _ _ H15 Hl). cbn beta in *. lia.
Qed.

(** every token takes a bit at least *)
Lemma tokens_bits lls dls ts : in15 lls -> forall out, tokens_ok lls dls out ts -> (length ts <= length (ts ≫= enc_token lls dls))%nat.
Proof.
  intros H15. induction ts as [|t ts IH]; intros out Hok; cbn [mbind list_bind length]; [lia|]. destruct Hok as [Ht Hts].
  rewrite length_app. specialize (IH _ Hts). enough (1 <= length (enc_token lls dls t))%nat by lia.
  destruct t as [c|li lx di dx]; cbn [enc_token token_ok] in *.
  - by apply code_bits_pos, Ht.
  - rewrite length_app. pose proof (code_bits_pos lls (257 + li) H15). destruct Ht as (_ & _ & Hc & _). specialize (H Hc). lia.
Qed.

Lemma fixed_coded s : (s < 288)%nat -> coded fixed_ll s.
Proof.
  intros Hs. destruct (lookup_lt_is_Some_2 fixed_ll s) as [l Hl]; [exact Hs|]. exists l. split; [done|].
  assert (H7 : Forall (fun x => x <> 0) fixed_ll) by (repeat apply Forall_app_2; by apply Forall_replicate).
  exact (Forall_lookup_1 _ _ _ _ H7 Hl).
Qed.

(** A compressed block, from tables for its code. *)
Lemma compressed_spec lls dls lh dh ts dst out b t : huff_ok lls lh -> huff_ok dls dh -> coded lls 256 ->
  binv b -> b_err b = false -> stream b = enc_tokens lls dls ts ++ t -> tokens_ok lls dls out ts -> holds dst out ->
  (length (expand out ts) <= length dst)%nat -> Z.of_nat (length dst) < 2 ^ 31 ->
  cok (left ← look bits_left; inflate_block (Z.to_nat (left + 1)) lh dh dst (Z.of_nat (length dst)) (Z.of_nat (length out))) b (fun r b' =>
    (r.1 = Z.of_nat (length (expand out ts)) /\ length r.2 = length dst /\ holds r.2 (expand out ts)) /\ moved b b' t).
Proof.
  intros Hl Hd H256 Hb He Hst Hts Hho Hcap H31. apply cok_bind, cok_look.
  apply (inflate_block_tokens lls dls lh dh Hl Hd ts); try done.
  pose proof (stream_length b Hb) as Hsl. rewrite Hst in Hsl. unfold enc_tokens in Hsl. rewrite !length_app in Hsl.
  pose proof (tokens_bits lls dls ts (proj1 (ho_lens _ _ Hl)) out Hts). lia.
Qed.

(** what a block does, read from the start of its type *)
Definition block_type (b : block) : Z := match b with Stored _ _ => 0 | Fixed _ => 1 | Dynamic _ _ => 2 end.

Definition block_body (b : block) : list bool :=
  match b with
  | Stored pad data => pad ++ bytes_bits (stored_bytes data)
  | Fixed ts => enc_tokens fixed_ll fixed_dl ts
  | Dynamic d ts => enc_dyn d ++ enc_tokens (dy_lls d) (dy_dls d) ts
  end.

Lemma enc_block_eq final b : enc_block final b = zbits 1 (Z.b2z final) ++ zbits 2 (block_type b) ++ block_body b.
Proof. destruct b; cbn [enc_block block_type block_body]; done. Qed.

Lemma block_grows out b : (length out <= length (block_out out b))%nat.
Proof. destruct b; cbn [block_out]; [rewrite length_app; lia|apply expand_grows..]. Qed.

Lemma one_block blk k dst out b t : binv b -> b_err b = false -> b_len b < 2 ^ 31 -> bitcnt b <= 7 ->
  Z.of_nat (k + 3) + bits_left b = 8 * b_len b -> stream b = block_body blk ++ t -> block_ok k out blk -> holds dst out ->
  (length (block_out out blk) <= length dst)%nat -> Z.of_nat (length dst) < 2 ^ 31 ->
  let type := block_type blk in let dstcap := Z.of_nat (length dst) in let o := Z.of_nat (length out) in
  cok (if type =? 0 then stored_block dst dstcap o
       else if (type =? 1) || (type =? 2) then
         t ← (if type =? 1 then t ← lift (build_fixed huff_fresh huff_fresh); mret (0, t)
              else build_dynamic huff_fresh huff_fresh);
         if negb (t.1 =? 0) then mret (-15, dst)
         else
           left ← look bits_left;
           inflate_block (Z.to_nat (left + 1)) t.2.1 t.2.2 dst dstcap o
       else mret (-16, dst)) b (fun r b' =>
    (r.1 = Z.of_nat (length (block_out out blk)) /\ length r.2 = length dst /\ holds r.2 (block_out out blk)) /\ moved b b' t).
Proof.
  intros Hb He H31 Hc7 Hk Hst Hok Hho Hcap Hd31. cbv zeta. destruct blk as [pad data|ts|d ts]; cbn [block_type block_body block_ok block_out Z.eqb Pos.eqb orb] in *.
  - destruct Hok as (Hdata & Hdl & Hp8 & Hpm). rewrite length_app in Hcap. rewrite <- app_assoc in Hst.
    apply (stored_block_spec b pad data t dst out); try done.
    pose proof (bi_pos _ Hb). pose proof (bi_cnt _ Hb). unfold bits_left in Hk.
    apply (f_equal Z.of_nat) in Hpm. rewrite Nat2Z.inj_mod in Hpm. change (Z.of_nat 0) with 0 in Hpm. change (Z.of_nat 8) with 8 in Hpm.
    revert Hpm. Z.div_mod_to_equations. lia.
  - apply cok_bind, cok_bind, cok_lift. eapply ok_mono; [apply build_fixed_safe|]. intros [lh dh] [Hl Hd]. apply cok_ret. cbn [fst snd Z.eqb negb].
    by apply (compressed_spec fixed_ll fixed_dl); try done; apply fixed_coded; lia.
  - destruct Hok as [Hdy Hts]. rewrite <- app_assoc in Hst.
    apply cok_bind. eapply cok_mono; [by apply (build_dynamic_spec d Hdy b (enc_tokens (dy_lls d) (dy_dls d) ts ++ t))|].
    intros [r [lh dh]] b1 [(Hr & Hl & Hd) M1]. cbn [fst snd] in *. subst r. cbn [Z.eqb negb].
    eapply cok_mono; [apply (compressed_spec (dy_lls d) (dy_dls d) lh dh ts dst out b1 t); try done; [apply Hdy|apply M1|by rewrite (mv_err _ _ _ M1)|apply M1]|].
    intros r b2 [H M2]. split; [done|]. by eapply moved_trans.
Qed.

Lemma decode_grows bs : forall out, (length out <= length (fold_left block_out bs out))%nat.
Proof.
  induction bs as [|b bs IH]; intros out; cbn [fold_left]; [done|]. specialize (IH (block_out out b)).
  pose proof (block_grows out b). lia.
Qed.

Lemma raw_loop_spec bs : forall fuel k dst out b t, bs <> [] -> (length bs <= fuel)%nat ->
  binv b -> b_err b = false -> b_len b < 2 ^ 31 -> bitcnt b <= 7 -> Z.of_nat k + bits_left b = 8 * b_len b ->
  stream b = enc_blocks bs ++ t -> blocks_ok k out bs -> holds dst out ->
  (length (fold_left block_out bs out) <= length dst)%nat -> Z.of_nat (length dst) < 2 ^ 31 ->
  cok (raw_loop fuel dst (Z.of_nat (length dst)) (Z.of_nat (length out))) b (fun r _ =>
    r.1 = Z.of_nat (length (fold_left block_out bs out)) /\ length r.2 = length dst /\ holds r.2 (fold_left block_out bs out)).
Proof.
  induction bs as [|blk bs IH]; intros fuel k dst out b t Hne Hf Hb He H31 Hc7 Hk Hst Hok Hho Hcap Hd31; [done|]. clear Hne.
  destruct fuel as [|fuel]; [cbn in Hf; lia|]. cbn [raw_loop]. cbn [enc_blocks blocks_ok fold_left] in *.
  set (final := match bs with [] => true | _ => false end) in *. destruct Hok as [Hbk Hbs].
  pose proof (stream_length b Hb) as Hsl. rewrite Hst, !length_app in Hsl.
  rewrite enc_block_eq, <- !app_assoc in Hst. rewrite enc_block_eq, !length_app, !length_zbits in Hsl, Hbs.
  apply cok_bind. eapply cok_mono; [apply (bits_next 1 (Z.b2z final) (zbits 2 (block_type blk) ++ block_body blk ++ enc_blocks bs ++ t) b Hb); [lia|destruct final; cbn; lia|exact Hst]|].
  intros ? b1 [-> M1]. apply cok_bind.
  eapply cok_mono; [apply (bits_next 2 (block_type blk) (block_body blk ++ enc_blocks bs ++ t) b1 (mv_inv _ _ _ M1)); [lia|destruct blk; cbn; lia|apply (mv_stream _ _ _ M1)]|].
  intros ? b2 [-> M2]. pose proof (moved_trans _ _ _ _ _ M1 M2) as M. apply cok_bind, cok_look. rewrite (mv_err _ _ _ M), He.
  pose proof (decode_grows bs (block_out out blk)) as Hg.
  pose proof (stream_length b2 (mv_inv _ _ _ M)) as Hsl2. rewrite (mv_stream _ _ _ M), !length_app in Hsl2.
  apply cok_bind. eapply cok_mono.
  { apply (one_block blk k dst out b2 (enc_blocks bs ++ t)); try done.
    - apply M.
    - by rewrite (mv_err _ _ _ M).
    - by rewrite (mv_len _ _ _ M).
    - by apply (mv_cnt _ _ _ M).
    - rewrite (mv_len _ _ _ M). lia.
    - apply M.
    - lia. }
  intros [r d] b3 [(Hr & Hd & Hho') M3]. cbn [fst snd] in *. subst r.
  pose proof (moved_trans _ _ _ _ _ M M3) as MM.
  rewrite (proj2 (Z.ltb_ge _ _)) by lia. destruct bs as [|blk' bs]; cbn [final Z.b2z Z.eqb].
  - apply cok_ret. cbn [fst snd fold_left]. rewrite s32_small; [done|]. cbn [fold_left] in Hcap. lia.
  - rewrite u32_small by lia. rewrite <- Hd.
    eapply cok_mono; [apply (IH fuel (k + (1 + (2 + length (block_body blk))))%nat d (block_out out blk) b3 t); try done|].
    + cbn in Hf |- *. lia.
    + apply MM.
    + by rewrite (mv_err _ _ _ MM).
    + by rewrite (mv_len _ _ _ MM).
    + by apply (mv_cnt _ _ _ MM).
    + pose proof (stream_length b3 (mv_inv _ _ _ MM)) as Hsl3. rewrite (mv_stream _ _ _ MM), length_app in Hsl3.
      rewrite (mv_len _ _ _ MM). lia.
    + apply MM.
    + rewrite Hd. exact Hcap.
    + by rewrite Hd.
    + intros r b4 (H1 & H2 & H3). split; [done|]. split; [congruence|done].
Qed.

Lemma inflate_raw_spec bs src srclen dst t : bs <> [] -> Forall byte src -> 0 <= srclen <= Z.of_nat (length src) -> srclen < 2 ^ 31 ->
  bytes_bits (take (Z.to_nat srclen) src) = enc_blocks bs ++ t -> blocks_ok 0 [] bs ->
  (length (decompressed bs) <= length dst)%nat -> Z.of_nat (length dst) < 2 ^ 31 ->
  ok (inflate_raw src srclen dst (Z.of_nat (length dst))) (fun r =>
    r.1 = Z.of_nat (length (decompressed bs)) /\ length r.2 = length dst /\ holds r.2 (decompressed bs)).
Proof.
  intros Hne Hs Hl H31 Hbits Hok Hcap Hd31. unfold inflate_raw. set (b := Bitr src srclen 0 0 0 false).
  assert (Hb : binv b) by (split; cbn; try done; lia).
  assert (Hst : stream b = enc_blocks bs ++ t) by (unfold stream, rest; cbn [bitcnt bitbuf b b_pos b_len b_src Z.to_nat]; by rewrite zbits_0, drop_0).
  assert (Hmany : forall l, (length l <= length (enc_blocks l))%nat).
  { intros l. induction l as [|x l IH]; cbn [enc_blocks length]; [lia|]. rewrite enc_block_eq, !length_app, !length_zbits. lia. }
  pose proof (stream_length b Hb) as Hsl. rewrite Hst, length_app in Hsl. specialize (Hmany bs).
  unfold bits_left in Hsl. cbn [b_len b_pos b bitcnt] in Hsl.
  apply ok_bind. eapply ok_mono.
  - apply (raw_loop_spec bs (Z.to_nat (8 * srclen + 1)) 0 dst [] b t); try done; unfold bits_left; cbn [b b_len b_pos bitcnt]; lia.
  - intros r H. done.
Qed.


(** C32. [huff_build] and [huff_decode] implement the canonical code: on code
    lengths of at most 15, [huff_build] fails exactly when the lengths are
    over-subscribed, and otherwise, for every symbol that has a code,
    [huff_decode] on a reader whose next bits are that code, most significant
    bit first, returns the symbol and consumes exactly the code. *)
Theorem huff_decode_canonical ls : lens_ok ls ->
  exists r h, huff_build huff_fresh ls (Z.of_nat (length ls)) = Ok (r, h) /\ (r < 0 <-> ~ kraft ls) /\
    (kraft ls -> forall s l b t, ls !! s = Some l -> l <> 0 -> binv b -> stream b = code_bits ls s ++ t ->
       exists b', huff_decode h b = Ok (Z.of_nat s, b') /\ stream b' = t /\ b_err b' = b_err b).
Proof.
  intros Hok. pose proof (huff_build_spec ls (length ls) (le_n _)) as H. rewrite firstn_all in H. specialize (H Hok huff_fresh fresh_len).
  apply ok_iff in H as ([r h] & E & _ & H). exists r, h. split; [done|]. destruct H as [[Hr Hk]|[Hr Hh]].
  - split; [done|]. intros Hk'. done.
  - split; [split; [lia|intros Hk; destruct (Hk (ho_kraft _ _ Hh))]|]. intros _ s l b t Hs Hl Hb Hst.
    pose proof (huff_decode_code ls h Hh s b t l Hs Hl Hb Hst) as Hd. apply cok_ex in Hd as (x & b' & Ex & -> & M).
    exists b'. split; [done|]. split; apply M.
Qed.

(** * Examples *)

(** a stored block, then a literal and a copy that overlaps itself *)
Definition demo_blocks : list block := [Stored (replicate 5 false) [104]; Fixed [Lit 105; Match 0 0 0 0]].
Definition demo_deflate : list Z := [0; 1; 0; 254; 255; 104; 203; 4; 2; 0].

Lemma demo_blocks_ok : blocks_ok 0 [] demo_blocks.
Proof.
  split; [split; [repeat constructor; lia|split; [cbn; lia|split; [cbn; lia|reflexivity]]]|].
  split; [|exact I]. split; [split; [unfold byte; lia|apply fixed_coded; lia]|]. split; [|exact I].
  split; [lia|]. split; [vm_compute; split; [discriminate|reflexivity]|]. split; [apply fixed_coded; lia|]. split; [lia|].
  split; [vm_compute; split; [discriminate|reflexivity]|]. split; [exists 5; split; [reflexivity|discriminate]|]. vm_compute. discriminate.
Qed.


(** three symbols, of lengths 1, 2 and 2: the code of the last is 11 *)
Lemma huff_decode_canonical_witness : lens_ok [1; 2; 2] /\
  exists r h, huff_build huff_fresh [1; 2; 2] 3 = Ok (r, h) /\ exists b', huff_decode h (Bitr [3] 1 0 0 0 false) = Ok (2, b').
Proof.
  assert (Hl : lens_ok [1; 2; 2]) by (split; [repeat constructor; lia|cbn; lia]). split; [exact Hl|].
  destruct (huff_decode_canonical [1; 2; 2] Hl) as (r & h & Hb & _ & Hd). exists r, h. split; [exact Hb|].
  destruct (Hd ltac:(intros l Hl'; do 16 (destruct l as [|l]; [vm_compute; discriminate|]); lia) 2%nat 2 (Bitr [3] 1 0 0 0 false) (replicate 6 false)) as (b' & E & _).
  - reflexivity.
  - discriminate.
  - split; cbn; try lia. repeat (constructor; [split; [discriminate|reflexivity]|]). constructor.
  - vm_compute. reflexivity.
  - exists b'. exact E.
Defined.
