(* ===== verification/Gzip.v ===== *)
(** The gzip container: [gunzip] of [inflate.c] reads back every gzip file. *)

From stdpp Require Import list.
From Stdlib Require Import ZArith Lia.
From S2P Require Import Prelude Checked Inflate InflateBits InflateHuff InflateSafe InflateTokens InflateDynamic InflateRoundtrip.

(** * The container *)

Definition crc_of (data : list Z) : Z := fold_left crc_byte data 0xFFFFFFFF .^ 0xFFFFFFFF.
Definition le4 (v : Z) : list Z := [v mod 256; v / 256 mod 256; v / 65536 mod 256; v / 16777216].

Lemma word_bits v : 0 <= v < 2 ^ 32 <-> 0 <= v /\ forall i, 32 <= i -> Z.testbit v i = false.
Proof.
  split.
  - intros Hv. split; [lia|]. intros i Hi. rewrite <- (Z.mod_small v (2 ^ 32)) by lia. by rewrite Z.mod_pow2_bits_high by lia.
  - intros [Hv Hb]. split; [done|]. destruct (decide (v < 2 ^ 32)) as [|Hge]; [done|].
    assert (H0 : 0 < v) by lia. pose proof (Z.bit_log2 v H0) as Hl. rewrite Hb in Hl; [done|]. apply Z.log2_le_pow2; lia.
Qed.

Lemma crc_bit_range c : 0 <= c < 2 ^ 32 -> 0 <= crc_bit c < 2 ^ 32.
Proof.
  intros Hc. unfold crc_bit. apply word_bits. pose proof (proj1 (word_bits c) Hc) as [_ Hcb].
  pose proof (proj1 (word_bits 0xEDB88320) ltac:(lia)) as [_ Hpb]. pose proof (u32_range (- (c .& 1))).
  split; [apply Z.lxor_nonneg; split; intros; [apply Z.land_nonneg; left; lia|apply Z.shiftr_nonneg; lia]|].
  intros i Hi. rewrite Z.lxor_spec, Z.land_spec, Z.shiftr_spec by lia. rewrite Hcb, Hpb by lia. done.
Qed.

Lemma lxor_range a b : 0 <= a < 2 ^ 32 -> 0 <= b < 2 ^ 32 -> 0 <= a .^ b < 2 ^ 32.
Proof.
  intros Ha Hb. apply word_bits. split; [apply Z.lxor_nonneg; lia|]. intros i Hi. rewrite Z.lxor_spec.
  rewrite (proj2 (proj1 (word_bits a) Ha)), (proj2 (proj1 (word_bits b) Hb)) by exact Hi. reflexivity.
Qed.

Lemma iter_keeps {A} (P : A -> Prop) f n : (forall x, P x -> P (f x)) -> forall x, P x -> P (Nat.iter n f x).
Proof. intros Hf x Hx. induction n as [|n IH]; [exact Hx|]. exact (Hf _ IH). Qed.

Lemma fold_keeps {A B} (P : A -> Prop) (Q : B -> Prop) (f : A -> B -> A) l :
  (forall a x, P a -> Q x -> P (f a x)) -> Forall Q l -> forall a, P a -> P (fold_left f l a).
Proof. intros Hf Hl. induction Hl as [|x l Hx Hl IH]; intros a Ha; [exact Ha|]. exact (IH _ (Hf _ _ Ha Hx)). Qed.

Lemma fold_snoc {A B} (f : A -> B -> A) l x a : fold_left f (l ++ [x]) a = f (fold_left f l a) x.
Proof. rewrite fold_left_app. reflexivity. Qed.

Lemma crc_byte_range c p : 0 <= c < 2 ^ 32 -> byte p -> 0 <= crc_byte c p < 2 ^ 32.
Proof.
  intros Hc Hp. unfold crc_byte. apply (iter_keeps (fun x => 0 <= x < 2 ^ 32) crc_bit); [exact crc_bit_range|].
  apply lxor_range; [exact Hc|]. unfold byte in Hp. lia.
Qed.

Lemma crc_fold_range data c : Forall byte data -> 0 <= c < 2 ^ 32 -> 0 <= fold_left crc_byte data c < 2 ^ 32.
Proof. intros Hd. revert c. exact (fold_keeps (fun x => 0 <= x < 2 ^ 32) byte crc_byte data crc_byte_range Hd). Qed.

Lemma crc_of_range data : Forall byte data -> 0 <= crc_of data < 2 ^ 32.
Proof. intros Hd. assert (Hi : 0 <= 0xFFFFFFFF < 2 ^ 32) by lia. exact (lxor_range _ _ (crc_fold_range data _ Hd Hi) Hi). Qed.

Lemma crc_loop d data c0 : holds d data ->
  iter (length data) 0 (fun i crc => c ← aref d i; Ok (crc_byte crc c)) c0 = Ok (fold_left crc_byte data c0).
Proof.
  intros Hd. enough (H : ok (iter (length data) 0 (fun i crc => c ← aref d i; Ok (crc_byte crc c)) c0) (fun r => r = fold_left crc_byte data c0)).
  { apply ok_iff in H as (r & -> & ->). reflexivity. }
  eapply ok_mono; [apply (ok_iter (fun k r => r = fold_left crc_byte (take (Z.to_nat k) data) c0)); [reflexivity|]|].
  - intros k r Hk ->. destruct (lookup_lt_is_Some_2 data (Z.to_nat k)) as [x Hx]; [lia|].
    rewrite (aref_ok _ _ x); [|lia|by apply (holds_lookup _ data)]. cbn [mbind outcome_bind ok].
    replace (Z.to_nat (k + 1)) with (S (Z.to_nat k)) by lia. rewrite (take_S_r _ _ x Hx), fold_snoc. reflexivity.
  - cbn beta. intros r ->. by rewrite Z.add_0_l, Nat2Z.id, firstn_all.
Qed.

Lemma crc32_spec d data : holds d data -> crc32 d (Z.of_nat (length data)) = Ok (crc_of data).
Proof. intros Hd. unfold crc32. rewrite Nat2Z.id, (crc_loop d data _ Hd). reflexivity. Qed.

Lemma le32_spec l v r i : drop i l = le4 v ++ r -> 0 <= v < 2 ^ 32 -> le32_at l (Z.of_nat i) = Ok v.
Proof.
  intros E Hv. assert (Hat : forall j x, (le4 v) !! j = Some x -> aref l (Z.of_nat i + Z.of_nat j) = Ok x).
  { intros j x Hx. apply aref_ok; [lia|]. replace (Z.to_nat _) with (i + j)%nat by lia. rewrite <- lookup_drop, E.
    by apply lookup_app_l_Some. }
  unfold le32_at. pose proof (Hat 0%nat _ eq_refl) as H0. rewrite Z.add_0_r in H0.
  rewrite H0, (Hat 1%nat _ eq_refl : aref l (Z.of_nat i + 1) = _), (Hat 2%nat _ eq_refl : aref l (Z.of_nat i + 2) = _), (Hat 3%nat _ eq_refl : aref l (Z.of_nat i + 3) = _).
  cbn [mbind outcome_bind]. f_equal. pose proof (Z.mod_pos_bound v 256 ltac:(lia)). pose proof (Z.mod_pos_bound (v / 256) 256 ltac:(lia)).
  pose proof (Z.mod_pos_bound (v / 65536) 256 ltac:(lia)).
  rewrite (lor_shiftl _ _ 8), (lor_shiftl _ _ 16), (lor_shiftl _ _ 24) by lia.
  replace 65536 with (256 * 256) by lia. replace 16777216 with (256 * 256 * 256) by lia. rewrite <- !Z.div_div by lia.
  pose proof (Z.div_mod v 256). pose proof (Z.div_mod (v / 256) 256). pose proof (Z.div_mod (v / 256 / 256) 256). lia.
Qed.

(** * CRC-32 *)

(** The checksum of RFC 1952 (ISO 3309), apart from the code: the bits of the
    data, in the order in which they are sent, are the coefficients of a
    polynomial over GF(2), the highest first.  It is multiplied by [x^32], the
    first 32 coefficients are inverted, and the checksum is the inverse of the
    remainder by the generator, its highest coefficient in bit 0. *)

(** [x^32] apart, the coefficients of the generator from [x^31] down *)
Definition generator : list bool :=
  (fun k => bool_decide (k ∈ [26; 23; 22; 16; 12; 11; 10; 8; 7; 5; 4; 2; 1; 0])) <$> reverse (seqZ 0 32).

(** [g] added to the first coefficients of [l] *)
Fixpoint add_front (g l : list bool) : list bool :=
  match g, l with x :: g, y :: l => xorb x y :: add_front g l | _, l => l end.

(** [n] rounds of the long division by the generator *)
Fixpoint poly_mod (n : nat) (l : list bool) : list bool :=
  match n, l with
  | S n, b :: l => poly_mod n (if b : bool then add_front generator l else l)
  | _, l => l
  end.

Definition crc_remainder (data : list Z) : list bool :=
  poly_mod (8 * length data) (add_front (replicate 32 true) (bytes_bits data ++ replicate 32 false)).

Definition is_crc32 (data : list Z) (v : Z) : Prop := 0 <= v < 2 ^ 32 /\ zbits 32 v = negb <$> crc_remainder data.

Lemma add_front_lookup g l i : add_front g l !! i = xorb (default false (g !! i)) <$> l !! i.
Proof.
  revert l i. induction g as [|x g IH]; intros l i.
  - assert (add_front [] l = l) as -> by (by destruct l). rewrite lookup_nil. cbn. by destruct (l !! i) as [[]|].
  - destruct l as [|y l]; [by rewrite lookup_nil|]. cbn [add_front]. destruct i as [|i]; [done|]. exact (IH l i).
Qed.

Lemma zbits_default n v i : 0 <= v < 2 ^ Z.of_nat n -> default false (zbits n v !! i) = Z.testbit v (Z.of_nat i).
Proof.
  intros Hv. destruct (decide (i < n)%nat) as [Hi|Hi]; [by rewrite zbits_lookup|].
  rewrite lookup_ge_None_2 by (rewrite length_zbits; lia). cbn. rewrite <- (Z.mod_small v (2 ^ Z.of_nat n)) by done. by rewrite Z.mod_pow2_bits_high by lia.
Qed.

(** the register laid over the bits that are still to come *)
Lemma register_lookup c l i : 0 <= c < 2 ^ 32 -> add_front (zbits 32 c) l !! i = xorb (Z.testbit c (Z.of_nat i)) <$> l !! i.
Proof. intros Hc. by rewrite add_front_lookup, (zbits_default 32). Qed.

Lemma generator_bits : generator = zbits 32 0xEDB88320.
Proof. vm_compute. reflexivity. Qed.

Lemma crc_bit_eq c : crc_bit c = if Z.testbit c 0 then (c .>> 1) .^ 0xEDB88320 else c .>> 1.
Proof.
  unfold crc_bit. change 1 with (2 ^ 1 - 1) at 2. rewrite land_ones_mod by lia. rewrite Z.bit0_odd. change (2 ^ 1) with 2. rewrite Zmod_odd.
  destruct (Z.odd c); [done|]. change (u32 (- 0)) with 0. by rewrite Z.land_0_r, Z.lxor_0_r.
Qed.

Lemma poly_mod_0 l : poly_mod 0 l = l.
Proof. by destruct l. Qed.

(** One round of the division is one shift of the register. *)
Lemma poly_mod_bit c m n : 0 <= c < 2 ^ 32 ->
  poly_mod (S n) (add_front (zbits 32 c) (false :: m)) = poly_mod n (add_front (zbits 32 (crc_bit c)) m).
Proof.
  intros Hc. pose proof (crc_bit_range c Hc) as Hr.
  assert (add_front (zbits 32 c) (false :: m) = Z.testbit c 0 :: add_front (zbits 32 (c .>> 1)) m) as ->.
  { apply list_eq. intros [|i]; rewrite register_lookup by done; cbn [lookup list_lookup]; [cbn; by rewrite xorb_false_r|].
    assert (0 <= c .>> 1 < 2 ^ 32) by (rewrite Z.shiftr_div_pow2 by lia; Z.div_mod_to_equations; lia).
    change ((Z.testbit c 0 :: add_front (zbits 32 (c .>> 1)) m) !! S i) with (add_front (zbits 32 (c .>> 1)) m !! i).
    rewrite register_lookup by done. rewrite Z.shiftr_spec by lia. change ((false :: m) !! S i) with (m !! i). do 3 f_equal. lia. }
  cbn [poly_mod]. f_equal. rewrite crc_bit_eq in *. destruct (Z.testbit c 0); [|done].
  rewrite generator_bits. apply list_eq. intros i. rewrite register_lookup by lia. rewrite !register_lookup; [|done|rewrite Z.shiftr_div_pow2 by lia; Z.div_mod_to_equations; lia].
  rewrite Z.lxor_spec. destruct (m !! i) as [b|]; [|done]. cbn. f_equal. by destruct (Z.testbit (c .>> 1) (Z.of_nat i)), (Z.testbit 3988292384 (Z.of_nat i)), b.
Qed.

(** Eight rounds take a byte. *)
Lemma poly_mod_byte c p m n : 0 <= c < 2 ^ 32 -> byte p ->
  poly_mod (8 + n) (add_front (zbits 32 c) (zbits 8 p ++ m)) = poly_mod n (add_front (zbits 32 (crc_byte c p)) m).
Proof.
  intros Hc Hp. assert (0 <= c .^ p < 2 ^ 32) as Hx by (apply lxor_range; [done|unfold byte in Hp; lia]).
  assert (add_front (zbits 32 c) (zbits 8 p ++ m) = add_front (zbits 32 (c .^ p)) (replicate 8 false ++ m)) as ->.
  { apply list_eq. intros i. rewrite !register_lookup by done. rewrite Z.lxor_spec. destruct (decide (i < 8)%nat) as [Hi|Hi].
    - rewrite !lookup_app_l by (rewrite ?length_zbits, ?length_replicate; lia). rewrite zbits_lookup, lookup_replicate_2 by lia. cbn. by rewrite xorb_false_r.
    - rewrite !lookup_app_r by (rewrite ?length_zbits, ?length_replicate; lia). rewrite length_zbits, length_replicate.
      assert (Z.testbit p (Z.of_nat i) = false) as ->; [|by rewrite xorb_false_r].
      rewrite <- (Z.mod_small p (2 ^ 8)) by exact Hp. apply Z.mod_pow2_bits_high. lia. }
  unfold crc_byte. revert Hx. generalize (c .^ p). intros d Hd. cbn [Nat.add replicate app Nat.iter nat_rect].
  rewrite poly_mod_bit by done. do 7 (rewrite poly_mod_bit by (repeat apply crc_bit_range; done)). reflexivity.
Qed.

Lemma bytes_bits_cons p data : bytes_bits (p :: data) = zbits 8 p ++ bytes_bits data.
Proof. reflexivity. Qed.

Lemma fold_left_cons {A B} (f : A -> B -> A) x l a : fold_left f (x :: l) a = fold_left f l (f a x).
Proof. reflexivity. Qed.

Lemma register_zeros c : 0 <= c < 2 ^ 32 -> add_front (zbits 32 c) (replicate 32 false) = zbits 32 c.
Proof.
  intros Hc. apply list_eq. intros i. rewrite register_lookup by done. destruct (decide (i < 32)%nat).
  - rewrite lookup_replicate_2, zbits_lookup by lia. cbn. by rewrite xorb_false_r.
  - rewrite !lookup_ge_None_2 by (rewrite ?length_zbits, ?length_replicate; lia). done.
Qed.

Lemma poly_mod_bytes z data c : Forall byte data -> 0 <= c < 2 ^ 32 ->
  poly_mod (8 * length data) (add_front (zbits 32 c) (bytes_bits data ++ z)) = add_front (zbits 32 (fold_left crc_byte data c)) z.
Proof.
  intros Hd. revert c. induction Hd as [|p data Hp Hd IH]; intros c Hc.
  - apply poly_mod_0.
  - specialize (IH (crc_byte c p) (crc_byte_range c p Hc Hp)).
    rewrite bytes_bits_cons, <- app_assoc, fold_left_cons. cbn [length]. rewrite Nat.mul_succ_r, Nat.add_comm. rewrite poly_mod_byte by done. exact IH.
Qed.

(** The code's checksum is the one of the RFC, and no other number is. *)
Lemma crc_of_correct data v : Forall byte data -> is_crc32 data v <-> v = crc_of data.
Proof.
  intros Hd. pose proof (crc_of_range data Hd) as Hr.
  assert (crc_remainder data = zbits 32 (fold_left crc_byte data 0xFFFFFFFF)) as Erem .
  { unfold crc_remainder. change (replicate 32 true) with (zbits 32 0xFFFFFFFF). rewrite poly_mod_bytes by (done || lia).
    apply register_zeros, crc_fold_range; [done|lia]. }
  assert (zbits 32 (crc_of data) = negb <$> crc_remainder data) as E.
  { rewrite Erem. apply list_eq. intros i. rewrite list_lookup_fmap. destruct (decide (i < 32)%nat) as [Hi|Hi].
    - rewrite !zbits_lookup by done. unfold crc_of. rewrite Z.lxor_spec. change 0xFFFFFFFF with (Z.ones 32). rewrite Z.ones_spec_low by lia. cbn. by rewrite xorb_true_r.
    - rewrite !lookup_ge_None_2 by (rewrite length_zbits; lia). done. }
  split; [|intros ->; by split]. intros [Hv Ev]. apply (zbits_inj 32); [done..|congruence].
Qed.

(** A gzip header: the fields that a flag announces, and the six bytes of time
    and system. *)
Record gz := Gz { gz_text : bool; gz_hcrc : option (Z * Z); gz_extra : option (list Z); gz_name : option (list Z);
                  gz_comment : option (list Z); gz_mid : list Z }.

Definition present {A} (o : option A) : bool := match o with Some _ => true | None => false end.
Definition gz_flg (h : gz) : Z :=
  Z.b2z (gz_text h) + 2 * Z.b2z (present (gz_hcrc h)) + 4 * Z.b2z (present (gz_extra h)) +
  8 * Z.b2z (present (gz_name h)) + 16 * Z.b2z (present (gz_comment h)).

Definition extra_field (o : option (list Z)) : list Z :=
  match o with Some l => let n := Z.of_nat (length l) in n mod 256 :: n / 256 :: l | None => [] end.
Definition string_field (o : option (list Z)) : list Z := match o with Some l => l ++ [0] | None => [] end.
Definition hcrc_field (o : option (Z * Z)) : list Z := match o with Some (x, y) => [x; y] | None => [] end.

Definition gz_head (h : gz) : list Z :=
  ([0x1f; 0x8b; 8; gz_flg h] ++ gz_mid h) ++ extra_field (gz_extra h) ++ string_field (gz_name h) ++
  string_field (gz_comment h) ++ hcrc_field (gz_hcrc h).

(** the file with checksum [crc] and size [isize] in its trailer *)
Definition gz_file (h : gz) (body : list Z) (crc isize : Z) : list Z := gz_head h ++ body ++ le4 crc ++ le4 isize.

Definition gz_ok (h : gz) : Prop :=
  length (gz_mid h) = 6%nat /\ (forall l, gz_extra h = Some l -> Z.of_nat (length l) < 65536) /\
  (forall l, gz_name h = Some l -> Forall (fun x => x <> 0) l) /\ (forall l, gz_comment h = Some l -> Forall (fun x => x <> 0) l).

Lemma gz_flg_bits h :
  negb (gz_flg h .& 4 =? 0) = present (gz_extra h) /\ negb (gz_flg h .& 8 =? 0) = present (gz_name h) /\
  negb (gz_flg h .& 16 =? 0) = present (gz_comment h) /\ negb (gz_flg h .& 2 =? 0) = present (gz_hcrc h).
Proof.
  unfold gz_flg. destruct (gz_text h), (present (gz_hcrc h)), (present (gz_extra h)), (present (gz_name h)), (present (gz_comment h)); done.
Qed.

Lemma aref_app (pre : list Z) x suf i : i = Z.of_nat (length pre) -> aref (pre ++ x :: suf) i = Ok x.
Proof. intros ->. apply aref_ok; [lia|]. rewrite Nat2Z.id. by apply list_lookup_middle. Qed.

Lemma skip_string_spec (l : list Z) src srclen r : Forall (fun x => x <> 0) l -> srclen < 2 ^ 31 -> forall fuel p, (length l < fuel)%nat ->
  drop p src = l ++ 0 :: r -> Z.of_nat (p + length l + 1) <= srclen ->
  skip_string fuel src srclen (Z.of_nat p) = Ok (Z.of_nat (p + length l + 1)).
Proof.
  intros Hl H31. induction Hl as [|x l Hx Hl IH]; intros fuel p Hf Hd Hs; (destruct fuel as [|fuel]; [cbn in Hf; lia|]);
    cbn [skip_string length] in *; rewrite (proj2 (Z.ltb_lt _ _)) by lia; cbn [app] in Hd.
  - rewrite (aref_ok _ _ 0); [|lia|rewrite Nat2Z.id, <- (Nat.add_0_r p), <- lookup_drop, Hd; done]. cbn [mbind outcome_bind Z.eqb].
    rewrite u32_small by lia. f_equal. lia.
  - rewrite (aref_ok _ _ x); [|lia|rewrite Nat2Z.id, <- (Nat.add_0_r p), <- lookup_drop, Hd; done]. cbn [mbind outcome_bind].
    rewrite (proj2 (Z.eqb_neq _ _)) by done. rewrite u32_small by lia. replace (Z.of_nat p + 1) with (Z.of_nat (S p)) by lia.
    rewrite IH; [f_equal; lia|lia| |lia]. rewrite <- (Nat.add_1_r p), <- drop_drop, Hd. done.
Qed.

Lemma skip_field o pre suf : (forall l, o = Some l -> Forall (fun x => x <> 0) l) ->
  let src := pre ++ string_field o ++ suf in Z.of_nat (length src) < 2 ^ 31 ->
  (if present o then skip_string (Z.to_nat (Z.of_nat (length src))) src (Z.of_nat (length src)) (Z.of_nat (length pre)) else Ok (Z.of_nat (length pre))) =
  Ok (Z.of_nat (length (pre ++ string_field o))).
Proof.
  intros Ho src H31. destruct o as [l|]; cbn [present string_field] in *; [|by rewrite app_nil_r].
  assert (El : length src = (length pre + (length l + 1) + length suf)%nat) by (subst src; rewrite !length_app; cbn; lia).
  rewrite (skip_string_spec l src _ suf (Ho l eq_refl) H31); [|lia| |lia].
  - f_equal. rewrite !length_app. cbn. lia.
  - subst src. rewrite drop_app_length, <- app_assoc. done.
Qed.

Lemma extra_spec o pre suf : (forall l, o = Some l -> Z.of_nat (length l) < 65536) ->
  let src := pre ++ extra_field o ++ suf in let p := Z.of_nat (length pre) in Z.of_nat (length src) < 2 ^ 31 ->
  (if present o then
     if Z.of_nat (length src) <? p +w 2 then Ok None
     else x ← aref src p; y ← aref src (p + 1); Ok (Some (p +w (2 +w (x .| Z.shiftl y 8))))
   else Ok (Some p)) = Ok (Some (Z.of_nat (length (pre ++ extra_field o)))).
Proof.
  intros Ho src p H31. destruct o as [l|]; cbn [present extra_field] in *; [|by rewrite app_nil_r].
  specialize (Ho l eq_refl). subst src p. set (n := Z.of_nat (length l)) in *. rewrite !length_app in H31 |- *. cbn [length] in H31 |- *.
  rewrite !length_app in *. cbn [length app] in *.
  rewrite u32_small, (proj2 (Z.ltb_ge _ _)) by lia. cbn [app]. rewrite (aref_app _ _ _ _ eq_refl). cbn [mbind outcome_bind].
  rewrite (cons_middle (n mod 256)), app_assoc, (aref_app (pre ++ [n mod 256])) by (rewrite length_app; cbn; lia). cbn [mbind outcome_bind].
  rewrite (lor_shiftl _ _ 8) by (try lia; apply Z.mod_pos_bound; lia). pose proof (Z.div_mod n 256). u32_simpl. do 2 f_equal. lia.
Qed.

Lemma hcrc_spec o (pre : list Z) : let p := Z.of_nat (length pre) in p + 2 < 2 ^ 31 ->
  (if present o then p +w 2 else p) = Z.of_nat (length (pre ++ hcrc_field o)).
Proof.
  intros p H31. destruct o as [[x y]|]; cbn [present hcrc_field]; [|by rewrite app_nil_r].
  subst p. rewrite length_app, u32_small by lia. cbn. lia.
Qed.

(** the result that belongs to a trailer *)
Definition verdict (data : list Z) (crc isize r : Z) : Prop :=
  (isize = Z.of_nat (length data) -> is_crc32 data crc -> r = Z.of_nat (length data)) /\
  (isize <> Z.of_nat (length data) -> r = -24) /\
  (isize = Z.of_nat (length data) -> ~ is_crc32 data crc -> r = -25).

(** The checks at the end of [gunzip], on a trailer at [i]. *)
Lemma trailer_spec src i d data crc isize : Forall byte data -> holds d data -> Z.of_nat (length data) < 2 ^ 32 ->
  0 <= crc < 2 ^ 32 -> 0 <= isize < 2 ^ 32 -> drop i src = le4 crc ++ le4 isize ->
  let n := Z.of_nat (length data) in let srclen := Z.of_nat i + 8 in
  exists r, (size ← gzip_isize src srclen;
    if negb (u32 n =? size) then Ok (-24, d)
    else stored_crc ← le32_at src (srclen - 8); c ← crc32 d (u32 n); if negb (c =? stored_crc) then Ok (-25, d) else Ok (n, d)) = Ok (r, d) /\
    verdict data crc isize r.
Proof.
  intros Hdb Hho Hn Hcrc Hisz E n srclen. unfold gzip_isize, verdict. rewrite (proj2 (Z.ltb_ge _ _)) by lia.
  replace (srclen - 4) with (Z.of_nat (i + 4)) by lia. replace (srclen - 8) with (Z.of_nat i) by lia.
  rewrite (le32_spec src isize [] (i + 4)); [|by rewrite <- drop_drop, E|lia]. cbn [mbind outcome_bind]. rewrite u32_small by lia.
  destruct (Z.eqb_spec n isize) as [Es|Es]; cbn [negb].
  2: { exists (-24). split; [done|]. unfold n in Es. split; [congruence|]. split; [done|congruence]. }
  rewrite (le32_spec src crc (le4 isize)) by done. cbn [mbind outcome_bind]. unfold n in Es |- *. rewrite (crc32_spec d data Hho). cbn [mbind outcome_bind].
  pose proof (crc_of_correct data crc Hdb) as Hiff. destruct (Z.eqb_spec (crc_of data) crc) as [Ec|Ec]; cbn [negb].
  - exists n. split; [done|]. split; [done|]. split; [congruence|]. intros _ Hw. destruct Hw. apply Hiff. congruence.
  - exists (-25). split; [done|]. split; [|split; [congruence|done]]. intros _ Hw%Hiff. congruence.
Qed.

(** C14. [gunzip] reads back every gzip file: with any header fields, for a body
    that is a DEFLATE stream of [data] and a trailer with the length of [data]
    and its CRC-32, the remainder of RFC 1952, it returns the length of [data]
    and leaves [data] at the start of the destination.  With another length in
    the trailer it answers -24, and with the right length and any other checksum
    -25. *)
Theorem gunzip_roundtrip h bs body data crc isize dst t : gz_ok h -> bs <> [] -> decompressed bs = data ->
  bytes_bits body = enc_blocks bs ++ t -> blocks_ok 0 [] bs -> Forall byte (gz_file h body crc isize) -> Forall byte data ->
  0 <= crc < 2 ^ 32 -> 0 <= isize < 2 ^ 32 ->
  Z.of_nat (length (gz_file h body crc isize)) < 2 ^ 31 -> (length data <= length dst)%nat -> Z.of_nat (length dst) < 2 ^ 31 ->
  exists r dst', gunzip (gz_file h body crc isize) (Z.of_nat (length (gz_file h body crc isize))) dst (Z.of_nat (length dst)) = Ok (r, dst') /\
    length dst' = length dst /\ take (length data) dst' = data /\
    (isize = Z.of_nat (length data) -> is_crc32 data crc -> r = Z.of_nat (length data)) /\
    (isize <> Z.of_nat (length data) -> r = -24) /\
    (isize = Z.of_nat (length data) -> ~ is_crc32 data crc -> r = -25).
Proof.
  intros (Hmid & Hex & Hna & Hco) Hne Hdata Hbits Hok Hby Hdb Hcrc Hisz H31 Hcap Hd31.
  set (src := gz_file h body crc isize) in *. set (L := Z.of_nat (length src)) in *.
  set (pre0 := [0x1f; 0x8b; 8; gz_flg h] ++ gz_mid h). set (e := extra_field (gz_extra h)). set (n := string_field (gz_name h)).
  set (c := string_field (gz_comment h)). set (x := hcrc_field (gz_hcrc h)). set (tr := le4 crc ++ le4 isize).
  assert (Esrc : src = pre0 ++ e ++ n ++ c ++ x ++ body ++ tr) by (unfold src, gz_file, gz_head; by rewrite <- !app_assoc).
  assert (Hp0 : length pre0 = 10%nat) by (unfold pre0; rewrite length_app; cbn; lia).
  assert (Htr : length tr = 8%nat) by done.
  assert (HL : L = 10 + Z.of_nat (length e + length n + length c + length x + length body + 8)) by (unfold L; rewrite Esrc, !length_app; lia).
  destruct (gz_flg_bits h) as (F4 & F8 & F16 & F2).
  set (p := (length (gz_head h))%nat). assert (Ep : p = (10 + length e + length n + length c + length x)%nat).
  { unfold p, gz_head. fold pre0 e n c x. rewrite !length_app. lia. }
  assert (Edrop : drop p src = body ++ tr) by (unfold src, gz_file, p; by rewrite drop_app_length).
  unfold gunzip, is_gzip. rewrite (proj2 (Z.ltb_ge _ _)) by lia.
  assert (Hat : forall i y, pre0 !! i = Some y -> aref src (Z.of_nat i) = Ok y).
  { intros i y Hy. apply aref_ok; [lia|]. rewrite Nat2Z.id, Esrc. by apply lookup_app_l_Some. }
  rewrite (Hat 0%nat _ eq_refl : aref src 0 = _), (Hat 1%nat _ eq_refl : aref src 1 = _), (Hat 2%nat _ eq_refl : aref src 2 = _),
    (Hat 3%nat _ eq_refl : aref src 3 = _). cbn [mbind outcome_bind Z.eqb Pos.eqb negb orb].
  rewrite (proj2 (Z.ltb_ge L 2)) by lia. cbn [mbind outcome_bind negb orb]. rewrite F4, F8, F16, F2.
  pose proof (extra_spec (gz_extra h) pre0 (n ++ c ++ x ++ body ++ tr) Hex) as HE. cbv zeta in HE. fold e in HE.
  rewrite <- Esrc, Hp0 in HE. fold L in HE. change (Z.of_nat 10) with 10 in HE. rewrite (HE H31). cbn [mbind outcome_bind].
  pose proof (skip_field (gz_name h) (pre0 ++ e) (c ++ x ++ body ++ tr) Hna) as HN. cbv zeta in HN. fold n in HN.
  rewrite <- app_assoc, <- Esrc in HN. fold L in HN. rewrite (HN H31). cbn [mbind outcome_bind].
  pose proof (skip_field (gz_comment h) ((pre0 ++ e) ++ n) (x ++ body ++ tr) Hco) as HC. cbv zeta in HC. fold c in HC.
  rewrite <- !app_assoc, <- Esrc in HC. rewrite !app_assoc in HC. fold L in HC. rewrite (HC H31). cbn [mbind outcome_bind].
  assert (Ehead : (((pre0 ++ e) ++ n) ++ c) ++ x = gz_head h) by (unfold gz_head; fold pre0 e n c x; by rewrite <- !app_assoc).
  rewrite (hcrc_spec (gz_hcrc h) (((pre0 ++ e) ++ n) ++ c)) by (rewrite !length_app; lia). fold x. rewrite Ehead. fold p.
  u32_simpl. rewrite (proj2 (Z.ltb_ge _ _)) by lia. rewrite Nat2Z.id, Edrop.
  replace (L - 8 - Z.of_nat p) with (Z.of_nat (length body)) by lia.
  pose proof (inflate_raw_spec bs (body ++ tr) (Z.of_nat (length body)) dst t Hne) as HI.
  rewrite Nat2Z.id, take_app_length, Hdata in HI.
  assert (Hbb : Forall byte (body ++ tr)) by (rewrite <- Edrop; by apply Forall_drop).
  specialize (HI Hbb ltac:(rewrite length_app; lia) ltac:(lia) Hbits Hok Hcap Hd31).
  apply ok_iff in HI as ([r d] & -> & Hr & Hd & Hho). cbn [fst snd mbind outcome_bind] in *. subst r.
  rewrite (proj2 (Z.ltb_ge _ _)) by lia.
  assert (E8 : drop (p + length body) src = tr) by (by rewrite <- drop_drop, Edrop, drop_app_length).
  destruct (trailer_spec src (p + length body) d data crc isize Hdb Hho ltac:(lia) Hcrc Hisz E8) as (r & Er & Hv).
  replace (Z.of_nat (p + length body) + 8) with L in Er by lia. exists r, d. split; [exact Er|]. split; [done|]. split; [exact Hho|exact Hv].
Qed.

(** * Example *)

Definition demo_gz_head : gz := Gz false None None (Some [102]) None [0; 0; 0; 0; 0; 3].

(** The file of a small text, with its checksum; the wrong one is refused. *)
Lemma gunzip_roundtrip_witness :
  (exists dst', gunzip (gz_file demo_gz_head demo_deflate 0xEE198AA5 5) 30 (replicate 8 0) 8 = Ok (5, dst') /\ take 5 dst' = [104; 105; 105; 105; 105]) /\
  exists dst', gunzip (gz_file demo_gz_head demo_deflate 0xEE198AA6 5) 30 (replicate 8 0) 8 = Ok (-25, dst').
Proof.
  assert (Hh : gz_ok demo_gz_head) by (split; [reflexivity|]; split; [discriminate|]; split; [intros l [= <-]; repeat constructor; discriminate|discriminate]).
  assert (Hd : Forall byte [104; 105; 105; 105; 105]) by (repeat (constructor; [split; [discriminate|reflexivity]|]); constructor).
  assert (Hb : forall c, c = 0xEE198AA5 \/ c = 0xEE198AA6 -> Forall byte (gz_file demo_gz_head demo_deflate c 5)).
  { intros c [->| ->]; vm_compute; repeat (constructor; [split; [discriminate|reflexivity]|]); constructor. }
  assert (Hc : crc_of [104; 105; 105; 105; 105] = 0xEE198AA5) by (vm_compute; reflexivity).
  split.
  - destruct (gunzip_roundtrip demo_gz_head demo_blocks demo_deflate [104; 105; 105; 105; 105] 0xEE198AA5 5 (replicate 8 0) [false; false] Hh
      ltac:(discriminate) ltac:(vm_compute; reflexivity) ltac:(vm_compute; reflexivity) demo_blocks_ok (Hb _ (or_introl eq_refl)) Hd
      ltac:(lia) ltac:(lia) ltac:(reflexivity) ltac:(vm_compute; repeat constructor) ltac:(reflexivity)) as (r & dst' & E & _ & Ht & H & _).
    exists dst'. split; [|exact Ht]. rewrite H in E; [exact E|reflexivity|]. apply (crc_of_correct _ _ Hd). symmetry. exact Hc.
  - destruct (gunzip_roundtrip demo_gz_head demo_blocks demo_deflate [104; 105; 105; 105; 105] 0xEE198AA6 5 (replicate 8 0) [false; false] Hh
      ltac:(discriminate) ltac:(vm_compute; reflexivity) ltac:(vm_compute; reflexivity) demo_blocks_ok (Hb _ (or_intror eq_refl)) Hd
      ltac:(lia) ltac:(lia) ltac:(reflexivity) ltac:(vm_compute; repeat constructor) ltac:(reflexivity)) as (r & dst' & E & _ & _ & _ & _ & H).
    exists dst'. rewrite H in E; [exact E|reflexivity|]. rewrite (crc_of_correct _ _ Hd), Hc. discriminate.
Defined.
