(* ===== verification/Kfdt.v ===== *)
(** The device-tree reader, [kernel/drivers/of/kfdt.c].

    A blob is its bytes, [None] the null pointer; a pointer into it is an
    offset.  Reading outside the blob is a [Fault].  Paths and names are C
    strings without their NUL. *)

From stdpp Require Import list.
From Stdlib Require Import ZArith Lia.
From S2P Require Import Prelude Checked.

Definition FDT_MAGIC : Z := 0xd00dfeed.
Definition FDT_BEGIN_NODE : Z := 1.
Definition FDT_END_NODE : Z := 2.
Definition FDT_PROP : Z := 3.
Definition FDT_NOP : Z := 4.
Definition FDT_END : Z := 9.

Definition SLASH : Z := 47.
Definition AT : Z := 64.

Definition be32 (d : list Z) (p : Z) : outcome Z :=
  a ← aref d p;
  b ← aref d (p + 1);
  c ← aref d (p + 2);
  e ← aref d (p + 3);
  Ok (Z.shiftl a 24 .| Z.shiftl b 16 .| Z.shiftl c 8 .| e).

(** the string at [a] of the blob against [name] *)
Fixpoint streq (d : list Z) (a : Z) (name : list Z) : outcome bool :=
  c ← aref d a;
  match name with
  | [] => Ok (c =? 0)
  | x :: name' => if negb (c =? 0) && (c =? x) then streq d (a + 1) name' else Ok (c =? x)
  end.

(** [fuel] bounds the length: the blob ends. *)
Fixpoint slen (fuel : nat) (d : list Z) (s n : Z) : outcome Z :=
  c ← aref d (s + n);
  if c =? 0 then Ok n else match fuel with O => NoFuel | S fuel' => slen fuel' d s (n +w 1) end.

Definition kfdt_valid (dtb : option (list Z)) : outcome bool :=
  match dtb with None => Ok false | Some d => m ← be32 d 0; Ok (m =? FDT_MAGIC) end.

Definition kfdt_totalsize (d : list Z) : outcome Z := be32 d 4.

(** ** Paths *)

Fixpoint skip_slash (p : list Z) : list Z :=
  match p with c :: p' => if c =? SLASH then skip_slash p' else p | [] => [] end.

(** characters before the next slash *)
Fixpoint comp_len (p : list Z) : nat :=
  match p with c :: p' => if c =? SLASH then O else S (comp_len p') | [] => O end.

(** [n] rounds are enough when the path is no longer than [n]. *)
Fixpoint path_ncomp (n : nat) (p : list Z) : Z :=
  match n with
  | O => 0
  | S n' =>
      match skip_slash p with
      | [] => 0
      | c :: p' => 1 + path_ncomp n' (drop (comp_len (c :: p')) (c :: p'))
      end
  end.

(** the [idx]-th component, the first being number [n0] *)
Fixpoint path_comp (n : nat) (p : list Z) (n0 idx : Z) : option (list Z) :=
  match n with
  | O => None
  | S n' =>
      match skip_slash p with
      | [] => None
      | c :: p' =>
          let k := comp_len (c :: p') in
          if n0 =? idx then Some (take k (c :: p')) else path_comp n' (drop k (c :: p')) (n0 + 1) idx
      end
  end.

(** from the [i]-th character on *)
Fixpoint node_matches (d : list Z) (nodename : Z) (comp : list Z) : outcome bool :=
  c ← aref d nodename;
  match comp with
  | [] => Ok ((c =? 0) || (c =? AT))
  | x :: comp' => if (c =? 0) || (c =? AT) || negb (c =? x) then Ok false else node_matches d (nodename + 1) comp'
  end.

(** ** The walk *)

(** where the walk is: the offset, the depth and the components matched *)
Record walk := Walk { w_p : Z; w_depth : Z; w_matched : Z }.

Definition pad4 (n : Z) : Z := (n +w 3) .& .~ 3.

(** after a BEGIN_NODE token, [p] behind it *)
Definition begin_node (d path : list Z) (w : walk) (p : Z) : outcome walk :=
  n ← slen (length d) d p 0;
  let nl := n +w 1 in
  let p' := p +w pad4 nl in
  let depth := w_depth w + 1 in
  let ncomp := path_ncomp (length path) path in
  if 2 <=? depth then
    let ci := depth - 2 in
    if (w_matched w =? ci) && (ci <? ncomp) then
      match path_comp (length path) path 0 ci with
      | Some comp => m ← node_matches d p comp; Ok (Walk p' depth (if m : bool then ci + 1 else w_matched w))
      | None => Ok (Walk p' depth (w_matched w))
      end
    else Ok (Walk p' depth (w_matched w))
  else Ok (Walk p' depth (w_matched w)).

Definition end_node (w : walk) (p : Z) : walk :=
  let m := if w_depth w - 2 <? w_matched w then w_depth w - 2 else w_matched w in
  Walk p (w_depth w - 1) (if m <? 0 then 0 else m).

(** after a PROP token: leave the walk with a result, or go on *)
Definition prop_step (d path name : list Z) (off_strings : Z) (w : walk) (p : Z) : outcome (walk + option (Z * Z)) :=
  if off_strings <? p +w 8 then Ok (inr None)
  else
    len ← be32 d p;
    noff ← be32 d (p + 4);
    let p := p +w 8 in
    total ← (if off_strings -w p <? len then Ok 0 else be32 d 4);
    if (off_strings -w p <? len) || (total <=? noff) then Ok (inr None)
    else
      let p' := p +w pad4 len in
      let ncomp := path_ncomp (length path) path in
      if (w_matched w =? ncomp) && (w_depth w =? ncomp + 1) then
        e ← streq d (off_strings + noff) name;
        if e : bool then Ok (inr (Some (p, len))) else Ok (inl (Walk p' (w_depth w) (w_matched w)))
      else Ok (inl (Walk p' (w_depth w) (w_matched w))).

(** One token. *)
Definition token_step (d path name : list Z) (off_strings : Z) (w : walk) : outcome (walk + option (Z * Z)) :=
  if off_strings <? w_p w +w 4 then Ok (inr None)
  else
    tok ← be32 d (w_p w);
    let p := w_p w +w 4 in
    if tok =? FDT_END then Ok (inr None)
    else if tok =? FDT_NOP then Ok (inl (Walk p (w_depth w) (w_matched w)))
    else if tok =? FDT_BEGIN_NODE then w' ← begin_node d path w p; Ok (inl w')
    else if tok =? FDT_END_NODE then Ok (inl (end_node w p))
    else if tok =? FDT_PROP then prop_step d path name off_strings w p
    else Ok (inr None).

(** Every token advances by four bytes at least. *)
Fixpoint walk_loop (fuel : nat) (d path name : list Z) (off_strings : Z) (w : walk) : outcome (option (Z * Z)) :=
  match fuel with
  | O => NoFuel
  | S fuel' =>
      r ← token_step d path name off_strings w;
      match r with inl w' => walk_loop fuel' d path name off_strings w' | inr v => Ok v end
  end.

(** The offset of the value and its length. *)
Definition kfdt_getprop (dtb : option (list Z)) (path name : list Z) : outcome (option (Z * Z)) :=
  v ← kfdt_valid dtb;
  match dtb with
  | Some d =>
      if negb v then Ok None
      else
        off_struct ← be32 d 8;
        off_strings ← be32 d 12;
        walk_loop (Z.to_nat (off_strings / 4 + 1)) d path name off_strings (Walk off_struct 0 0)
  | None => Ok None
  end.

(** * The boot handoff *)

Definition hex_digit (c : Z) : option Z :=
  if (48 <=? c) && (c <=? 57) then Some (c - 48)
  else if (97 <=? c) && (c <=? 102) then Some (c - 97 + 10)
  else if (65 <=? c) && (c <=? 70) then Some (c - 65 + 10)
  else None.

Definition dec_digit (c : Z) : option Z := if (48 <=? c) && (c <=? 57) then Some (c - 48) else None.

(** the digits from [s]: the offset behind them and the value *)
Fixpoint digits (fuel : nat) (digit : Z -> option Z) (radix : Z) (d : list Z) (s v : Z) : outcome (Z * Z) :=
  c ← aref d s;
  match digit c with
  | None => Ok (s, v)
  | Some x => match fuel with O => NoFuel | S fuel' => digits fuel' digit radix d (s + 1) (v *w radix +w x) end
  end.

Definition parse_uint (d : list Z) (s : Z) : outcome (Z * Z) :=
  c ← aref d s;
  x ← (if c =? 48 then aref d (s + 1) else Ok 0);
  if (c =? 48) && ((x =? 120) || (x =? 88)) then digits (length d) hex_digit 16 d (s + 2) 0
  else digits (length d) dec_digit 10 d s 0.

(** "/chosen", "linux,initrd-start", "linux,initrd-end", "bootargs", "initrd=" *)
Definition s_chosen : list Z := [47; 99; 104; 111; 115; 101; 110].
Definition s_start : list Z := [108;105;110;117;120;44;105;110;105;116;114;100;45;115;116;97;114;116].
Definition s_end : list Z := [108;105;110;117;120;44;105;110;105;116;114;100;45;101;110;100].
Definition s_bootargs : list Z := [98;111;111;116;97;114;103;115].
Definition s_initrd : list Z := [105;110;105;116;114;100;61].

(** [s[0]=='i' && s[1]=='n' && ...]: the characters are read until one differs *)
Fixpoint has_prefix (d : list Z) (s : Z) (l : list Z) : outcome bool :=
  match l with
  | [] => Ok true
  | x :: l' => c ← aref d s; if c =? x then has_prefix d (s + 1) l' else Ok false
  end.

(** the scan of the command line from character [i] *)
Fixpoint find_initrd (fuel : nat) (d : list Z) (args len i : Z) : outcome (option (Z * Z)) :=
  if negb (i +w 7 <? len) then Ok None
  else
    c ← aref d (args + i);
    if c =? 0 then Ok None
    else
      start ← (if i =? 0 then Ok true else b ← aref d (args + i - 1); Ok (b =? 32));
      hit ← (if start : bool then has_prefix d (args + i) s_initrd else Ok false);
      if hit : bool then
        r ← parse_uint d (args + i + 7);
        c ← aref d r.1;
        if negb (c =? 44) then Ok None
        else r' ← parse_uint d (r.1 + 1); Ok (Some (r.2, r'.2))
      else match fuel with O => NoFuel | S fuel' => find_initrd fuel' d args len (i +w 1) end.

(** base and size, or nothing for -1 *)
Definition kfdt_initrd (d : list Z) : outcome (option (Z * Z)) :=
  s ← kfdt_getprop (Some d) s_chosen s_start;
  e ← kfdt_getprop (Some d) s_chosen s_end;
  r ← match s, e with
      | Some (s, sl), Some (e, el) =>
          if (4 <=? sl) && (4 <=? el) then
            x ← be32 d s;
            y ← be32 d e;
            Ok (if x <? y then Some (x, y -w x) else None)
          else Ok None
      | _, _ => Ok None
      end;
  match r with
  | Some v => Ok (Some v)
  | None =>
      a ← kfdt_getprop (Some d) s_chosen s_bootargs;
      match a with
      | Some (args, len) => if len =? 0 then Ok None else find_initrd (Z.to_nat len) d args len 0
      | None => Ok None
      end
  end.

Definition root_u32 (d name : list Z) (dflt : Z) : outcome Z :=
  p ← kfdt_getprop (Some d) [SLASH] name;
  match p with Some (p, len) => if 4 <=? len then be32 d p else Ok dflt | None => Ok dflt end.

(** "#address-cells", "#size-cells", "/memory", "reg" *)
Definition s_address_cells : list Z := [35;97;100;100;114;101;115;115;45;99;101;108;108;115].
Definition s_size_cells : list Z := [35;115;105;122;101;45;99;101;108;108;115].
Definition s_memory : list Z := [47;109;101;109;111;114;121].
Definition s_reg : list Z := [114;101;103].

Definition kfdt_memory (d : list Z) : outcome (option (Z * Z)) :=
  ac ← root_u32 d s_address_cells 1;
  sc ← root_u32 d s_size_cells 1;
  if (ac <? 1) || (2 <? ac) || (sc <? 1) || (2 <? sc) then Ok None
  else
    reg ← kfdt_getprop (Some d) s_memory s_reg;
    match reg with
    | None => Ok None
    | Some (reg, len) =>
        if len <? (ac +w sc) *w 4 then Ok None
        else
          base ← be32 d (reg + (ac - 1) * 4);
          size ← be32 d (reg + ac * 4 + (sc - 1) * 4);
          Ok (Some (base, size))
    end.
