(* ===== verification/KfdtTree.v ===== *)
(** The device-tree reader finds what the tree says: [kfdt_getprop] on the
    flattened form of a tree is the lookup in the tree. *)

From stdpp Require Import list.
From Stdlib Require Import ZArith Lia.
From S2P Require Import Prelude Checked Kfdt.

(** * Trees *)

(** A property: the offset of its name in the strings block, the name, the value. *)
Record fprop := Prop_ { pr_noff : Z; pr_name : list Z; pr_val : list Z }.

#[warnings="-register-all"]
Inductive node := Node (nm : list Z) (ps : list fprop) (ch : list node).

Section node_ind.
Context (P : node -> Prop) (H : forall nm ps ch, Forall P ch -> P (Node nm ps ch)).
Fixpoint node_ind' (n : node) : P n :=
  match n with
  | Node nm ps ch => H nm ps ch ((fix go l : Forall P l :=
      match l with [] => Forall_nil_2 _ | c :: l' => Forall_cons_2 _ _ _ (node_ind' c) (go l') end) ch)
  end.
End node_ind.

(** the name before the unit address *)
Fixpoint unit_name (nm : list Z) : list Z :=
  match nm with [] => [] | c :: nm' => if c =? AT then [] else c :: unit_name nm' end.

Fixpoint prop_in (ps : list fprop) (name : list Z) : option (list Z) :=
  match ps with [] => None | p :: ps' => if bool_decide (pr_name p = name) then Some (pr_val p) else prop_in ps' name end.

(** The value of [name] in the first node below [n] that the components lead to
    and that has it. *)
Fixpoint find_prop (n : node) (comps : list (list Z)) (name : list Z) : option (list Z) :=
  match n with
  | Node _ ps ch =>
      match comps with
      | [] => prop_in ps name
      | c :: cs =>
          (fix go l := match l with
                       | [] => None
                       | Node nm ps ch :: l' =>
                           if bool_decide (unit_name nm = c)
                           then match find_prop (Node nm ps ch) cs name with Some v => Some v | None => go l' end
                           else go l'
                       end) ch
      end
  end.

(** ** The flattened form *)

Definition be (v : Z) : list Z := [v / 2 ^ 24; v / 2 ^ 16 mod 256; v / 2 ^ 8 mod 256; v mod 256].
Definition padz (l : list Z) : list Z := l ++ replicate (Z.to_nat (pad4 (Z.of_nat (length l))) - length l) 0.

Definition enc_prop (p : fprop) : list Z :=
  be FDT_PROP ++ be (Z.of_nat (length (pr_val p))) ++ be (pr_noff p) ++ padz (pr_val p).

Fixpoint enc_node (n : node) : list Z :=
  match n with
  | Node nm ps ch => be FDT_BEGIN_NODE ++ padz (nm ++ [0]) ++ concat (map enc_prop ps) ++ concat (map enc_node ch) ++ be FDT_END_NODE
  end.

(** the number of tokens *)
Fixpoint ntok (n : node) : nat := match n with Node _ ps ch => 2 + length ps + list_sum (map ntok ch) end.

Lemma length_be v : length (be v) = 4%nat.
Proof. done. Qed.

Lemma be32_be d p v r : drop p d = be v ++ r -> 0 <= v < 2 ^ 32 -> be32 d (Z.of_nat p) = Ok v.
Proof.
  intros E Hv. assert (Hat : forall j x, be v !! j = Some x -> aref d (Z.of_nat p + Z.of_nat j) = Ok x).
  { intros j x Hx. apply aref_ok; [lia|]. replace (Z.to_nat _) with (p + j)%nat by lia. rewrite <- lookup_drop, E. by apply lookup_app_l_Some. }
  unfold be32. pose proof (Hat 0%nat _ eq_refl) as H0. rewrite Z.add_0_r in H0.
  rewrite H0, (Hat 1%nat _ eq_refl : aref d (Z.of_nat p + 1) = _), (Hat 2%nat _ eq_refl : aref d (Z.of_nat p + 2) = _), (Hat 3%nat _ eq_refl : aref d (Z.of_nat p + 3) = _).
  cbn [mbind outcome_bind]. f_equal. pose proof (Z.mod_pos_bound v 256 ltac:(lia)). pose proof (Z.mod_pos_bound (v / 2 ^ 8) 256 ltac:(lia)).
  pose proof (Z.mod_pos_bound (v / 2 ^ 16) 256 ltac:(lia)).
  rewrite <- !Z.lor_assoc, (Z.lor_comm (Z.shiftl (v / 2 ^ 8 mod 256) 8)), (lor_shiftl _ _ 8) by lia.
  rewrite (Z.lor_comm (Z.shiftl (v / 2 ^ 16 mod 256) 16)), (lor_shiftl _ _ 16) by lia.
  rewrite (Z.lor_comm (Z.shiftl (v / 2 ^ 24) 24)), (lor_shiftl _ _ 24) by lia.
  replace (2 ^ 16) with (2 ^ 8 * 2 ^ 8) by lia. replace (2 ^ 24) with (2 ^ 8 * 2 ^ 8 * 2 ^ 8) by lia. rewrite <- !Z.div_div by lia.
  change 256 with (2 ^ 8).
  pose proof (Z.div_mod v (2 ^ 8)). pose proof (Z.div_mod (v / 2 ^ 8) (2 ^ 8)). pose proof (Z.div_mod (v / 2 ^ 8 / 2 ^ 8) (2 ^ 8)). lia.
Qed.

Lemma pad4_eq n : 0 <= n < 2 ^ 31 -> pad4 n = (n + 3) / 4 * 4.
Proof. intros Hn. apply (align_up n 2); lia. Qed.

Lemma pad4_spec n : 0 <= n < 2 ^ 31 -> n <= pad4 n < n + 4 /\ pad4 n mod 4 = 0.
Proof.
  intros Hn. rewrite pad4_eq by done. split; [|apply Z_mod_mult]. pose proof (Z.div_mod (n + 3) 4). pose proof (Z.mod_pos_bound (n + 3) 4). lia.
Qed.

Lemma length_padz l : Z.of_nat (length l) < 2 ^ 31 -> Z.of_nat (length (padz l)) = pad4 (Z.of_nat (length l)).
Proof. intros Hl. unfold padz. rewrite length_app, length_replicate. pose proof (pad4_spec (Z.of_nat (length l))). lia. Qed.

(** ** Strings and paths *)

Definition plain (l : list Z) : Prop := Forall (fun c => c <> 0) l.

Lemma at_nth (d : list Z) p l r i x : drop p d = l ++ r -> l !! i = Some x -> aref d (Z.of_nat (p + i)) = Ok x.
Proof. intros E Hx. apply aref_ok; [lia|]. rewrite Nat2Z.id, <- lookup_drop, E. by apply lookup_app_l_Some. Qed.

Lemma at_head (d : list Z) p x r : drop p d = x :: r -> aref d (Z.of_nat p) = Ok x /\ drop (S p) d = r.
Proof.
  intros E. split; [rewrite <- (Nat.add_0_r p) at 1; by apply (at_nth d p [x] r)|].
  rewrite <- Nat.add_1_r, <- drop_drop, E. done.
Qed.

Lemma slen_spec d p l r : plain l -> forall fuel n, (length l <= fuel)%nat -> drop (p + n) d = l ++ 0 :: r ->
  Z.of_nat (p + n + length l) < 2 ^ 31 -> slen fuel d (Z.of_nat p) (Z.of_nat n) = Ok (Z.of_nat (n + length l)).
Proof.
  intros Hl. induction Hl as [|x l Hx Hl IH]; intros fuel n Hf E H31; cbn [app] in E; apply at_head in E as [Ha E];
    (destruct fuel as [|fuel]; [cbn in Hf; try lia|]); cbn [slen length] in *;
    replace (Z.of_nat p + Z.of_nat n) with (Z.of_nat (p + n)) by lia; rewrite Ha; cbn [mbind outcome_bind Z.eqb].
  - f_equal. lia.
  - f_equal. lia.
  - rewrite (proj2 (Z.eqb_neq x 0)) by done. rewrite u32_small by lia. replace (Z.of_nat n + 1) with (Z.of_nat (S n)) by lia.
    rewrite IH; [f_equal; lia|lia|by replace (p + S n)%nat with (S (p + n)) by lia|lia].
Qed.

Lemma streq_spec d name : plain name -> forall p l r, plain l -> drop p d = l ++ 0 :: r ->
  streq d (Z.of_nat p) name = Ok (bool_decide (l = name)).
Proof.
  intros Hn. induction Hn as [|x name Hx Hn IH]; intros p l r Hl E; destruct Hl as [|y l Hy Hl]; cbn [app] in E;
    apply at_head in E as [Ha E]; cbn [streq]; rewrite Ha; cbn [mbind outcome_bind].
  - done.
  - by rewrite (proj2 (Z.eqb_neq _ _)) by done.
  - change (0 =? 0) with true. cbn [negb andb]. by rewrite (proj2 (Z.eqb_neq 0 x)) by done.
  - rewrite (proj2 (Z.eqb_neq y 0)) by done. cbn [negb andb]. destruct (Z.eqb_spec y x) as [->|Hne].
    + replace (Z.of_nat p + 1) with (Z.of_nat (S p)) by lia. rewrite (IH _ l r) by done. f_equal. apply bool_decide_ext. naive_solver.
    + f_equal. symmetry. apply bool_decide_eq_false. naive_solver.
Qed.

Lemma node_matches_spec d comp : plain comp -> forall p l r, plain l -> drop p d = l ++ 0 :: r ->
  node_matches d (Z.of_nat p) comp = Ok (bool_decide (unit_name l = comp)).
Proof.
  intros Hc. induction Hc as [|x comp Hx Hc IH]; intros p l r Hl E; destruct Hl as [|y l Hy Hl]; cbn [app] in E;
    apply at_head in E as [Ha E]; cbn [node_matches unit_name]; rewrite Ha; cbn [mbind outcome_bind].
  - done.
  - rewrite (proj2 (Z.eqb_neq y 0)) by done. cbn [orb]. by destruct (y =? AT).
  - done.
  - rewrite (proj2 (Z.eqb_neq y 0)) by done. cbn [orb]. destruct (y =? AT); cbn [orb]; [done|].
    destruct (Z.eqb_spec y x) as [->|Hne]; cbn [negb].
    + replace (Z.of_nat p + 1) with (Z.of_nat (S p)) by lia. rewrite (IH _ l r) by done. f_equal. apply bool_decide_ext. naive_solver.
    + f_equal. symmetry. apply bool_decide_eq_false. naive_solver.
Qed.

(** the path with the components [cs] *)
Definition path_of (cs : list (list Z)) : list Z := concat (map (cons SLASH) cs).
(** the root is also written as a slash *)
Definition path_is (path : list Z) (cs : list (list Z)) : Prop := path = path_of cs \/ (cs = [] /\ path = [SLASH]).
Definition comp_ok (c : list Z) : Prop := c <> [] /\ Forall (fun x => x <> SLASH /\ x <> 0) c.

Lemma comp_len_app c r : Forall (fun x => x <> SLASH /\ x <> 0) c -> (r = [] \/ exists r', r = SLASH :: r') ->
  Kfdt.comp_len (c ++ r) = length c.
Proof.
  intros Hc Hr. induction Hc as [|x c [Hx _] Hc IH]; cbn [app Kfdt.comp_len length].
  - destruct Hr as [->|[r' ->]]; done.
  - rewrite (proj2 (Z.eqb_neq _ _)) by done. by rewrite IH.
Qed.

Lemma skip_slash_comp c r : comp_ok c -> skip_slash (SLASH :: c ++ r) = c ++ r.
Proof.
  intros [Hne Hc]. destruct Hc as [|x c [Hx _] Hc]; [done|]. cbn. by rewrite (proj2 (Z.eqb_neq _ _)).
Qed.

Lemma path_of_rest cs : path_of cs = [] \/ exists r', path_of cs = SLASH :: r'.
Proof. destruct cs as [|c cs]; [by left|]. right. cbn. eauto. Qed.

Lemma path_of_spec cs : Forall comp_ok cs -> forall n, (length cs <= n)%nat ->
  path_ncomp n (path_of cs) = Z.of_nat (length cs) /\
  forall i n0, path_comp n (path_of cs) n0 (n0 + Z.of_nat i) = cs !! i.
Proof.
  intros Hcs. induction Hcs as [|c cs Hc Hcs IH]; intros n Hn.
  { destruct n; cbn; [done|]. done. }
  destruct n as [|n]; [cbn in Hn; lia|]. destruct (IH n) as [IH1 IH2]; [cbn in Hn; lia|].
  assert (E : skip_slash (path_of (c :: cs)) = c ++ path_of cs) by (unfold path_of; cbn [map concat app]; by apply skip_slash_comp).
  assert (El : Kfdt.comp_len (c ++ path_of cs) = length c) by (apply comp_len_app; [apply Hc|apply path_of_rest]).
  destruct (c ++ path_of cs) as [|x l] eqn:Ecl; [destruct Hc as [Hne _]; by destruct c|].
  cbn [path_ncomp path_comp]. rewrite E, El, <- Ecl, drop_app_length, take_app_length.
  split; [rewrite IH1; cbn [length]; lia|]. intros [|i] n0.
  - by rewrite Z.add_0_r, Z.eqb_refl.
  - rewrite (proj2 (Z.eqb_neq _ _)) by lia. replace (n0 + Z.of_nat (S i)) with (n0 + 1 + Z.of_nat i) by lia. apply IH2.
Qed.

Lemma path_of_len cs : (length cs <= length (path_of cs))%nat.
Proof. induction cs as [|c l IH]; [done|]. unfold path_of in *. cbn [map concat length]. rewrite length_app. cbn [length]. lia. Qed.

(** * The walk *)

Definition name_of (n : node) : list Z := match n with Node nm _ _ => nm end.

Fixpoint first_child (ch : list node) (c : list Z) (cs : list (list Z)) (name : list Z) : option (list Z) :=
  match ch with
  | [] => None
  | x :: ch' =>
      if bool_decide (unit_name (name_of x) = c)
      then match find_prop x cs name with Some v => Some v | None => first_child ch' c cs name end
      else first_child ch' c cs name
  end.

Lemma find_prop_cons nm ps ch c cs name : find_prop (Node nm ps ch) (c :: cs) name = first_child ch c cs name.
Proof.
  cbn [find_prop]. induction ch as [|[nm' ps' ch'] ch IH]; [done|]. cbn [first_child name_of]. by rewrite IH.
Qed.

Section walk.
Context (d : list Z) (path : list Z) (cs : list (list Z)) (name : list Z) (os total : Z).
Context (Hpath : path_is path cs) (Hcs : Forall comp_ok cs) (Hname : plain name) (Hos : 0 <= os < 2 ^ 31) (Htotal : be32 d 4 = Ok total).

Definition prop_ok (p : fprop) : Prop :=
  plain (pr_name p) /\ 0 <= pr_noff p < total /\ pr_noff p < 2 ^ 32 /\ Z.of_nat (length (pr_val p)) < 2 ^ 31 /\
  exists r, drop (Z.to_nat (os + pr_noff p)) d = pr_name p ++ 0 :: r.

#[warnings="-register-all"]
Inductive node_ok : node -> Prop :=
| node_ok_intro nm ps ch : plain nm -> Forall prop_ok ps -> Forall node_ok ch -> node_ok (Node nm ps ch).

Abbreviation K := (length cs).
Abbreviation loop := (fun fuel w => walk_loop fuel d path name os w).

Lemma path_facts : path_ncomp (length path) path = Z.of_nat K /\ forall i, path_comp (length path) path 0 (Z.of_nat i) = cs !! i.
Proof.
  destruct Hpath as [->|[-> ->]]; [|done].
  destruct (path_of_spec cs Hcs _ (path_of_len cs)) as [H1 H2]. split; [done|]. intros i. exact (H2 i 0).
Qed.

(** What [n] tokens from [w] do: find a value, or reach [w']. *)
Definition walked (n : nat) (w : walk) (res : option (list Z)) (w' : walk) : Prop :=
  match res with
  | Some v => exists o, 0 <= o /\ take (length v) (drop (Z.to_nat o) d) = v /\
      forall fuel, loop (n + fuel)%nat w = Ok (Some (o, Z.of_nat (length v)))
  | None => forall fuel, loop (n + fuel)%nat w = loop fuel w'
  end.

Definition orelse {A} (o o' : option A) : option A := match o with Some x => Some x | None => o' end.

Lemma walked_trans n n' w w1 w2 res res' : walked n w res w1 -> walked n' w1 res' w2 -> walked (n + n') w (orelse res res') w2.
Proof.
  intros H H'. destruct res as [v|]; cbn [orelse walked] in *.
  - destruct H as (o & H0 & H1 & H2). exists o. split; [done|]. split; [done|]. intros fuel. by rewrite <- Nat.add_assoc.
  - destruct res' as [v|]; cbn [walked] in *.
    + destruct H' as (o & H0 & H1 & H2). exists o. split; [done|]. split; [done|]. intros fuel. by rewrite <- Nat.add_assoc, H.
    + intros fuel. by rewrite <- Nat.add_assoc, H.
Qed.

Lemma walked_step w w' : token_step d path name os w = Ok (inl w') -> walked 1 w None w'.
Proof. intros H fuel. cbn [Nat.add walk_loop]. by rewrite H. Qed.

(** ** Tokens *)

(** the components matched when a node named [nm] is entered at depth [k] *)
Definition enter (k m : nat) (nm : list Z) : nat :=
  match k with
  | O => m
  | S k' => if decide (m = k') then match cs !! k' with Some c => if bool_decide (unit_name nm = c) then S m else m | None => m end else m
  end.

Abbreviation at_ p k m := (Walk (Z.of_nat p) (Z.of_nat k) (Z.of_nat m)).

Lemma tok_at p v r : drop p d = be v ++ r -> 0 <= v < 2 ^ 32 -> Z.of_nat (p + 4) <= os ->
  (os <? Z.of_nat p +w 4) = false /\ be32 d (Z.of_nat p) = Ok v /\ Z.of_nat p +w 4 = Z.of_nat (p + 4) /\ drop (p + 4) d = r.
Proof.
  intros E Hv Hp. split; [apply Z.ltb_ge; rewrite u32_small; lia|]. split; [by eapply be32_be|].
  split; [rewrite u32_small; lia|]. by rewrite <- drop_drop, E.
Qed.

Lemma step_begin p k m nm r : plain nm -> drop p d = be FDT_BEGIN_NODE ++ padz (nm ++ [0]) ++ r ->
  Z.of_nat (p + 4 + length (padz (nm ++ [0]))) <= os ->
  walked 1 (at_ p k m) None (at_ (p + 4 + length (padz (nm ++ [0]))) (S k) (enter k m nm)).
Proof.
  intros Hnm E Hlim. apply walked_step. unfold token_step. cbn [w_p w_depth w_matched].
  destruct (tok_at p FDT_BEGIN_NODE _ E) as (-> & -> & -> & E'); [done|lia|]. cbn [mbind outcome_bind].
  change (FDT_BEGIN_NODE =? FDT_END) with false. change (FDT_BEGIN_NODE =? FDT_NOP) with false. change (FDT_BEGIN_NODE =? FDT_BEGIN_NODE) with true.
  cbn match. unfold begin_node. cbn [w_depth w_matched].
  assert (Hlen : length (nm ++ [0]) = S (length nm)) by (rewrite length_app; cbn; lia).
  assert (Hpl : (length (nm ++ [0%Z]) <= length (padz (nm ++ [0%Z])))%nat) by (unfold padz; rewrite (length_app (nm ++ [0])); lia).
  assert (Estr : exists r', drop (p + 4) d = nm ++ 0 :: r') by (rewrite E'; unfold padz; rewrite <- !app_assoc; cbn; eauto).
  destruct Estr as [r' Estr].
  assert (Hfit : (length nm <= length d)%nat) by (apply (f_equal length) in Estr; rewrite length_drop, length_app in Estr; lia).
  rewrite <- (Nat.add_0_r (p + 4)) in Estr. pose proof (slen_spec d (p + 4) nm r' Hnm (length d) 0 Hfit Estr ltac:(lia)) as Hsl.
  change (Z.of_nat 0) with 0 in Hsl. rewrite Hsl. cbn [mbind outcome_bind]. rewrite Nat.add_0_r in Estr.
  pose proof (length_padz (nm ++ [0]) ltac:(lia)) as Hpz. rewrite Hlen in Hpz.
  rewrite (u32_small (Z.of_nat (0 + length nm) + 1)) by lia. replace (Z.of_nat (0 + length nm) + 1) with (Z.of_nat (S (length nm))) by lia.
  rewrite <- Hpz, u32_small by lia. destruct path_facts as [-> Hpc].
  replace (Z.of_nat (p + 4) + Z.of_nat (length (padz (nm ++ [0])))) with (Z.of_nat (p + 4 + length (padz (nm ++ [0])))) by lia.
  replace (Z.of_nat k + 1) with (Z.of_nat (S k)) by lia.
  destruct k as [|k]; cbn [enter]; [by rewrite (proj2 (Z.leb_gt _ _)) by lia|]. rewrite (proj2 (Z.leb_le _ _)) by lia.
  replace (Z.of_nat (S (S k)) - 2) with (Z.of_nat k) by lia. destruct (decide (m = k)) as [->|Hmk].
  2:{ by rewrite (proj2 (Z.eqb_neq (Z.of_nat m) (Z.of_nat k))) by lia. }
  rewrite Z.eqb_refl. cbn [andb]. destruct (Z.ltb_spec (Z.of_nat k) (Z.of_nat K)) as [Hlt|Hge].
  - rewrite Hpc. destruct (lookup_lt_is_Some_2 cs k) as [c Hc]; [lia|]. rewrite Hc.
    assert (Hcp : plain c).
    { destruct (Forall_lookup_1 _ _ _ _ Hcs Hc) as [_ Hf]. eapply Forall_impl; [exact Hf|]. by intros x [_ ?]. }
    rewrite (node_matches_spec d c Hcp (p + 4) nm r' Hnm Estr). cbn [mbind outcome_bind].
    case_bool_decide; [|done]. do 3 f_equal. lia.
  - rewrite (lookup_ge_None_2 cs k) by lia. done.
Qed.

Lemma step_end p k m r : drop p d = be FDT_END_NODE ++ r -> Z.of_nat (p + 4) <= os ->
  walked 1 (at_ p (S k) m) None (at_ (p + 4) k (Nat.min m (k - 1))).
Proof.
  intros E Hlim. apply walked_step. unfold token_step. cbn [w_p w_depth w_matched].
  destruct (tok_at p FDT_END_NODE _ E) as (-> & -> & -> & _); [done|lia|]. cbn [mbind outcome_bind]. cbn match.
  change (FDT_END_NODE =? FDT_END) with false. change (FDT_END_NODE =? FDT_NOP) with false. change (FDT_END_NODE =? FDT_BEGIN_NODE) with false.
  change (FDT_END_NODE =? FDT_END_NODE) with true. cbn match. unfold end_node. cbn [w_depth w_matched]. do 2 f_equal.
  replace (Z.of_nat (S k) - 1) with (Z.of_nat k) by lia. f_equal.
  destruct (Z.ltb_spec (Z.of_nat (S k) - 2) (Z.of_nat m)); case_bool; lia.
Qed.

Lemma step_prop p k m x r : prop_ok x -> drop p d = enc_prop x ++ r -> Z.of_nat (p + length (enc_prop x)) <= os ->
  walked 1 (at_ p k m) (if decide (m = K /\ k = S K) then if bool_decide (pr_name x = name) then Some (pr_val x) else None else None)
    (at_ (p + length (enc_prop x)) k m).
Proof.
  intros (Hpn & Hno & Hno32 & Hv31 & (rs & Estr)) E Hlim.
  pose proof (length_padz (pr_val x) Hv31) as Hpz. pose proof (pad4_spec (Z.of_nat (length (pr_val x))) ltac:(lia)) as [Hp4 _].
  assert (Hel : length (enc_prop x) = (12 + length (padz (pr_val x)))%nat) by (unfold enc_prop; rewrite !length_app; done).
  unfold enc_prop in E. rewrite <- !app_assoc in E. destruct (tok_at p FDT_PROP _ E) as (T1 & T2 & T3 & E1); [done|lia|].
  destruct (tok_at (p + 4) _ _ E1) as (_ & L2 & _ & E2); [lia|lia|]. destruct (tok_at (p + 4 + 4) _ _ E2) as (_ & N2 & _ & E3); [lia|lia|].
  assert (Hval : take (length (pr_val x)) (drop (p + 12) d) = pr_val x).
  { replace (p + 12)%nat with (p + 4 + 4 + 4)%nat by lia. rewrite E3. unfold padz. rewrite <- app_assoc. by rewrite take_app_length. }
  assert (Hstep : token_step d path name os (at_ p k m) =
    Ok (if decide (m = K /\ k = S K) then
          if bool_decide (pr_name x = name) then inr (Some (Z.of_nat (p + 12), Z.of_nat (length (pr_val x))))
          else inl (at_ (p + length (enc_prop x)) k m)
        else inl (at_ (p + length (enc_prop x)) k m))).
  { unfold token_step. cbn [w_p w_depth w_matched]. rewrite T1, T2, T3. cbn [mbind outcome_bind].
    change (FDT_PROP =? FDT_END) with false. change (FDT_PROP =? FDT_NOP) with false. change (FDT_PROP =? FDT_BEGIN_NODE) with false.
    change (FDT_PROP =? FDT_END_NODE) with false. change (FDT_PROP =? FDT_PROP) with true. cbn match. unfold prop_step. cbn [w_depth w_matched].
    rewrite (u32_small (Z.of_nat (p + 4) + 8)) by lia. rewrite (proj2 (Z.ltb_ge _ _)) by lia. rewrite L2. cbn [mbind outcome_bind].
    replace (Z.of_nat (p + 4) + 4) with (Z.of_nat (p + 4 + 4)) by lia. rewrite N2. cbn [mbind outcome_bind].
    rewrite (u32_small (os - _)) by lia. rewrite (proj2 (Z.ltb_ge _ _)) by lia. rewrite Htotal. cbn [mbind outcome_bind orb].
    rewrite (proj2 (Z.leb_gt _ _)) by lia. rewrite <- Hpz, u32_small by lia.
    replace (Z.of_nat (p + 4) + 8 + Z.of_nat (length (padz (pr_val x)))) with (Z.of_nat (p + length (enc_prop x))) by lia.
    replace (Z.of_nat (p + 4) + 8) with (Z.of_nat (p + 12)) by lia. destruct path_facts as [-> _].
    destruct (decide (m = K /\ k = S K)) as [[-> ->]|Hne].
    - rewrite Z.eqb_refl, (proj2 (Z.eqb_eq _ _)) by lia. cbn [andb]. rewrite <- (Z2Nat.id (os + pr_noff x)) by lia.
      rewrite (streq_spec d name Hname _ (pr_name x) rs Hpn Estr). cbn [mbind outcome_bind]. by case_bool_decide.
    - destruct (Z.eqb_spec (Z.of_nat m) (Z.of_nat K)), (Z.eqb_spec (Z.of_nat k) (Z.of_nat K + 1)); cbn [andb]; try done.
      exfalso. apply Hne. lia. }
  destruct (decide (m = K /\ k = S K)); [|by apply walked_step]. case_bool_decide; [|by apply walked_step].
  exists (Z.of_nat (p + 12)). split; [lia|]. rewrite Nat2Z.id. split; [done|]. intros fuel. cbn [Nat.add walk_loop]. by rewrite Hstep.
Qed.

(** ** Nodes *)

Lemma props_walk k m ps : Forall prop_ok ps -> forall p r, drop p d = concat (map enc_prop ps) ++ r ->
  Z.of_nat (p + length (concat (map enc_prop ps))) <= os ->
  walked (length ps) (at_ p k m) (if decide (m = K /\ k = S K) then prop_in ps name else None)
    (at_ (p + length (concat (map enc_prop ps))) k m).
Proof.
  induction 1 as [|x ps Hx Hps IH]; intros p r E Hlim; cbn [map concat length prop_in] in *.
  { rewrite Nat.add_0_r. by case_decide. }
  rewrite length_app in Hlim |- *. rewrite <- app_assoc in E.
  assert (E' : drop (p + length (enc_prop x)) d = concat (map enc_prop ps) ++ r) by (by rewrite <- drop_drop, E, drop_app_length).
  pose proof (walked_trans 1 (length ps) _ _ _ _ _ (step_prop p k m x _ Hx E ltac:(lia)) (IH _ _ E' ltac:(lia))) as H.
  rewrite Nat.add_assoc. case_decide; [|done]. by case_bool_decide.
Qed.

(** the lookup below a node that is entered with [m] components matched *)
Definition found (k m : nat) (n : node) : option (list Z) :=
  if decide (enter k m (name_of n) = k) then find_prop n (drop k cs) name else None.

Lemma enter_bound k m nm : (m <= k - 1)%nat -> (m <= K)%nat -> (enter k m nm <= k)%nat /\ (enter k m nm <= K)%nat /\ Nat.min (enter k m nm) (k - 1) = m.
Proof.
  intros Hm HK. destruct k as [|k]; cbn [enter]; [lia|]. case_decide; [|lia]. subst m.
  destruct (cs !! k) eqn:Hc; [|lia]. apply lookup_lt_Some in Hc. case_bool_decide; lia.
Qed.

Lemma children_walk k m ch : Forall (fun n => forall p k m r, drop p d = enc_node n ++ r -> Z.of_nat (p + length (enc_node n)) <= os ->
    (m <= k - 1)%nat -> (m <= K)%nat -> walked (ntok n) (at_ p k m) (found k m n) (at_ (p + length (enc_node n)) k m)) ch ->
  (m <= k)%nat -> (m <= K)%nat -> forall p r, drop p d = concat (map enc_node ch) ++ r -> Z.of_nat (p + length (concat (map enc_node ch))) <= os ->
  walked (list_sum (map ntok ch)) (at_ p (S k) m)
    (if decide (m = k) then match cs !! k with Some c => first_child ch c (drop (S k) cs) name | None => None end else None)
    (at_ (p + length (concat (map enc_node ch))) (S k) m).
Proof.
  intros Hch Hm HK. induction Hch as [|x ch Hx Hch IH]; intros p r E Hlim; cbn [map concat length list_sum fold_right first_child] in *.
  { rewrite Nat.add_0_r. case_decide; [|done]. by destruct (cs !! k). }
  rewrite length_app in Hlim |- *. rewrite <- app_assoc in E.
  assert (E' : drop (p + length (enc_node x)) d = concat (map enc_node ch) ++ r) by (by rewrite <- drop_drop, E, drop_app_length).
  pose proof (walked_trans _ _ _ _ _ _ _ (Hx p (S k) m _ E ltac:(lia) ltac:(lia) HK) (IH _ _ E' ltac:(lia))) as H.
  rewrite Nat.add_assoc. unfold found in H. cbn [enter] in H. change (fold_right Nat.add 0%nat) with list_sum.
  destruct (decide (m = k)) as [->|Hne]; [|rewrite decide_False in H by lia; exact H].
  destruct (cs !! k) as [c|] eqn:Hc; [|rewrite decide_False in H by lia; exact H].
  case_bool_decide; [rewrite decide_True in H by done|rewrite decide_False in H by lia; exact H].
  exact H.
Qed.

Lemma node_walk n : node_ok n -> forall p k m r, drop p d = enc_node n ++ r -> Z.of_nat (p + length (enc_node n)) <= os ->
  (m <= k - 1)%nat -> (m <= K)%nat -> walked (ntok n) (at_ p k m) (found k m n) (at_ (p + length (enc_node n)) k m).
Proof.
  induction n as [nm ps ch IH] using node_ind'. intros Hok p k m r E Hlim Hm HK.
  inversion Hok as [? ? ? Hnm Hps Hch]; subst. clear Hok. cbn [enc_node ntok] in *. rewrite <- !app_assoc in E. rewrite !length_app, !length_be in Hlim |- *.
  destruct (enter_bound k m nm Hm HK) as (Hb1 & Hb2 & Hb3). set (m' := enter k m nm) in *.
  set (lp := length (padz (nm ++ [0]))) in *. set (le := length (concat (map enc_prop ps))) in *. set (lc := length (concat (map enc_node ch))) in *.
  pose proof (step_begin p k m nm _ Hnm E ltac:(fold lp; lia)) as W1. fold lp m' in W1.
  assert (E1 : drop (p + 4 + lp) d = concat (map enc_prop ps) ++ concat (map enc_node ch) ++ be FDT_END_NODE ++ r).
  { rewrite <- !drop_drop, E. change (drop 4 (be _ ++ ?l)) with l. unfold lp. by rewrite drop_app_length. }
  pose proof (props_walk (S k) m' ps Hps _ _ E1 ltac:(fold le; lia)) as W2. fold le in W2.
  assert (E2 : drop (p + 4 + lp + le) d = concat (map enc_node ch) ++ be FDT_END_NODE ++ r) by (unfold le; by rewrite <- drop_drop, E1, drop_app_length).
  assert (Hch' : Forall (fun n => forall p k m r, drop p d = enc_node n ++ r -> Z.of_nat (p + length (enc_node n)) <= os ->
    (m <= k - 1)%nat -> (m <= K)%nat -> walked (ntok n) (at_ p k m) (found k m n) (at_ (p + length (enc_node n)) k m)) ch).
  { clear -IH Hch. induction IH as [|x l Hx Hl IHl]; [constructor|]. inversion Hch; subst. constructor; [by apply Hx|by apply IHl]. }
  pose proof (children_walk k m' ch Hch' Hb1 Hb2 _ _ E2 ltac:(fold lc; lia)) as W3. fold lc in W3.
  assert (E3 : drop (p + 4 + lp + le + lc) d = be FDT_END_NODE ++ r) by (unfold lc; by rewrite <- drop_drop, E2, drop_app_length).
  pose proof (step_end _ k m' _ E3 ltac:(lia)) as W4. rewrite Hb3 in W4.
  pose proof (walked_trans _ _ _ _ _ _ _ (walked_trans _ _ _ _ _ _ _ (walked_trans _ _ _ _ _ _ _ W1 W2) W3) W4) as W.
  replace (1 + length ps + list_sum (map ntok ch) + 1)%nat with (2 + length ps + list_sum (map ntok ch))%nat in W by lia.
  replace (p + 4 + lp + le + lc + 4)%nat with (p + (4 + (lp + (le + (lc + 4)))))%nat in W by lia.
  replace (found k m (Node nm ps ch)) with (orelse (orelse (orelse None (if decide (m' = K /\ S k = S K) then prop_in ps name else None))
    (if decide (m' = k) then match cs !! k with Some c => first_child ch c (drop (S k) cs) name | None => None end else None)) None); [exact W|].
  unfold found. cbn [name_of orelse]. fold m'. destruct (decide (m' = k)) as [Ek|Hk].
  - destruct (decide (m' = K /\ S k = S K)) as [[-> [= ->]]|Hn].
    + rewrite (lookup_ge_None_2 cs K), drop_all by done. cbn [find_prop]. by destruct (prop_in ps name).
    + assert (HkK : (k < K)%nat) by (destruct (decide (k = K)); [exfalso; apply Hn; lia|lia]).
      destruct (lookup_lt_is_Some_2 cs k HkK) as [c Hc]. rewrite Hc, (drop_S _ c _ Hc), find_prop_cons. cbn [orelse].
      by destruct (first_child _ _ _ _).
  - rewrite decide_False by lia. done.
Qed.
End walk.

(** ** The reader *)

(** A blob: its header names the two blocks, the structure block is the tree. *)
Record blob_ok (d : list Z) (root : node) (ost : nat) (os total : Z) : Prop := {
  bl_magic : be32 d 0 = Ok FDT_MAGIC;
  bl_total : be32 d 4 = Ok total;
  bl_struct : be32 d 8 = Ok (Z.of_nat ost);
  bl_strings : be32 d 12 = Ok os;
  bl_tree : exists r, drop ost d = enc_node root ++ be FDT_END ++ r;
  bl_room : Z.of_nat (ost + length (enc_node root) + 4) <= os < 2 ^ 31;
  bl_nodes : node_ok d os total root;
}.

Lemma ntok_bound n : (4 * ntok n <= length (enc_node n))%nat.
Proof.
  induction n as [nm ps ch IH] using node_ind'. cbn [ntok enc_node]. rewrite !length_app, !length_be.
  assert (Hp : (4 * length ps <= length (concat (map enc_prop ps)))%nat).
  { induction ps as [|x ps IHp]; cbn [map concat length]; [lia|]. rewrite length_app. unfold enc_prop at 1. rewrite !length_app, !length_be. lia. }
  assert (Hc : (4 * list_sum (map ntok ch) <= length (concat (map enc_node ch)))%nat).
  { induction IH as [|x l Hx Hl IHl]; cbn [map concat length list_sum fold_right]; [lia|]. rewrite length_app. unfold list_sum in IHl. lia. }
  lia.
Qed.

(** The reader on the blob of a tree. *)
Lemma kfdt_getprop_lookup d root ost os total path cs name :
  blob_ok d root ost os total -> path_is path cs -> Forall comp_ok cs -> plain name ->
  match find_prop root cs name with
  | Some v => exists o, 0 <= o /\ kfdt_getprop (Some d) path name = Ok (Some (o, Z.of_nat (length v))) /\
                take (length v) (drop (Z.to_nat o) d) = v
  | None => kfdt_getprop (Some d) path name = Ok None
  end.
Proof.
  intros [Hm Ht Hst Hso [r Htree] [Hroom H31] Hok] Hpath Hcs Hname.
  unfold kfdt_getprop, kfdt_valid. rewrite Hm. cbn [mbind outcome_bind]. change (FDT_MAGIC =? FDT_MAGIC) with true. cbn [negb].
  rewrite Hst. cbn [mbind outcome_bind]. rewrite Hso. cbn [mbind outcome_bind].
  pose proof (node_walk d path cs name os total Hpath Hcs Hname ltac:(lia) Ht root Hok ost 0 0 _ Htree ltac:(lia) ltac:(lia) ltac:(lia)) as W.
  unfold found in W. cbn [enter] in W. rewrite decide_True, drop_0 in W by done. pose proof (ntok_bound root) as Hn.
  assert (Hf : exists f, Z.to_nat (os / 4 + 1) = (ntok root + S f)%nat).
  { exists (Z.to_nat (os / 4 + 1) - ntok root - 1)%nat. assert (Z.of_nat (ntok root) <= os / 4) by (apply Z.div_le_lower_bound; lia). lia. }
  destruct Hf as [f ->]. change (Walk (Z.of_nat ost) 0 0) with (Walk (Z.of_nat ost) (Z.of_nat 0) (Z.of_nat 0)).
  destruct (find_prop root cs name) as [v|]; cbn [walked] in W.
  - destruct W as (o & Ho & Hv & W). exists o. split; [done|]. by rewrite W.
  - rewrite W. cbn [walk_loop]. unfold token_step. cbn [w_p].
    destruct (tok_at d os ltac:(lia) (ost + length (enc_node root)) FDT_END r) as (-> & -> & _); [by rewrite <- drop_drop, Htree, drop_app_length|done|lia|].
    done.
Qed.

(** C24. On the flattened form of a device tree, with any sibling nodes, depths,
    unit addresses and properties, [kfdt_getprop] is the lookup in the tree: it
    returns where the value is and its length for the first node that the path
    leads to and that has the property, the unit addresses of nodes being
    ignored, and nothing when there is none. *)
Theorem kfdt_getprop_correct d root ost os total path cs name :
  blob_ok d root ost os total -> path_is path cs -> Forall comp_ok cs -> plain name ->
  match find_prop root cs name with
  | Some v => exists o, kfdt_getprop (Some d) path name = Ok (Some (o, Z.of_nat (length v))) /\
                take (length v) (drop (Z.to_nat o) d) = v
  | None => kfdt_getprop (Some d) path name = Ok None
  end.
Proof.
  intros Hb Hp Hc Hn. pose proof (kfdt_getprop_lookup d root ost os total path cs name Hb Hp Hc Hn) as H. destruct (find_prop root cs name); [|done].
  destruct H as (o & _ & H). by exists o.
Qed.

(** * Examples *)

(** "/" with the nodes memory@40 (reg) and chosen (no properties) *)
Definition demo_tree : node :=
  Node [] [Prop_ 4 [99] [1; 2; 3]]
    [Node [109; 64; 52] [Prop_ 0 [114; 101; 103] [64; 0; 0; 0; 8]] []; Node [99; 104] [] []].
Definition demo_dtb : list Z :=
  be FDT_MAGIC ++ be 100 ++ be 16 ++ be 92 ++ enc_node demo_tree ++ be FDT_END ++ [114; 101; 103; 0; 99; 0; 0; 0].

Lemma kfdt_getprop_correct_witness : exists o,
  kfdt_getprop (Some demo_dtb) [47; 109] [114; 101; 103] = Ok (Some (o, 5)) /\ take 5 (drop (Z.to_nat o) demo_dtb) = [64; 0; 0; 0; 8].
Proof.
  assert (Hp : forall l, (forallb (fun c => negb (c =? 0)) l) = true -> plain l).
  { intros l Hl. induction l as [|x l IH]; [constructor|]. cbn in Hl. apply andb_prop in Hl as [Hx Hl].
    constructor; [intros ->; discriminate Hx|exact (IH Hl)]. }
  assert (Hb : blob_ok demo_dtb demo_tree 16 92 100).
  { constructor; [vm_compute; reflexivity..| | |].
    - exists [114; 101; 103; 0; 99; 0; 0; 0]. vm_compute. reflexivity.
    - vm_compute. split; [discriminate|reflexivity].
    - constructor; [apply Hp; reflexivity| |].
      + constructor; [|constructor]. split; [apply Hp; reflexivity|]. split; [cbn; lia|]. split; [cbn; lia|]. split; [cbn; lia|].
        exists [0; 0]. vm_compute. reflexivity.
      + constructor; [|constructor; [|constructor]]; constructor; try (apply Hp; reflexivity); try constructor; try constructor.
        * apply Hp; reflexivity.
        * split; [cbn; lia|]. split; [cbn; lia|]. split; [cbn; lia|]. exists [99; 0; 0; 0]. vm_compute. reflexivity. }
  exact (kfdt_getprop_correct demo_dtb demo_tree 16 92 100 [47; 109] [[109]] [114; 101; 103] Hb (or_introl eq_refl)
    ltac:(constructor; [split; [discriminate|constructor; [split; discriminate|constructor]]|constructor]) ltac:(apply Hp; reflexivity)).
Defined.

(** A blob whose header is consistent but whose last node name is not
    terminated makes [kfdt_getprop] read behind the end of the blob, although the
    walk checks every token and every property against the end of the structure
    block: the length of a node name is not bounded. *)
Theorem kfdt_name_overread :
  let d := be FDT_MAGIC ++ be 24 ++ be 16 ++ be 24 ++ be FDT_BEGIN_NODE ++ [97; 98; 99; 100] in
  kfdt_totalsize d = Ok (Z.of_nat (length d)) /\ kfdt_getprop (Some d) s_memory s_reg = Fault.
Proof. vm_compute. split; reflexivity. Qed.
