(* ===== verification/Cpio.v ===== *)
(** The initramfs unpacker, [kernel/fs/cpio.c].

    The archive is its bytes; reading outside it is a [Fault].  The entries go
    to the file system through the operations of [Ramfs]. *)

From stdpp Require Import gmap list.
From Stdlib Require Import ZArith Lia.
From S2P Require Import Prelude Memory Checked KernMem Ramfs.

Definition S_IFMT : Z := 61440.
Definition S_IFLNK : Z := 40960.
Definition S_IFREG : Z := 32768.
Definition S_IFDIR : Z := 16384.
Definition S_IFCHR : Z := 8192.

Definition hex_val (c : Z) : Z :=
  if (48 <=? c) && (c <=? 57) then c - 48
  else if (97 <=? c) && (c <=? 102) then c - 97 + 10
  else if (65 <=? c) && (c <=? 70) then c - 65 + 10
  else 0.

(** [w] digits from [p], [v] read before *)
Fixpoint hex (w : nat) (b : list Z) (p v : Z) : outcome Z :=
  match w with
  | O => Ok v
  | S w' => c ← aref b p; hex w' b (p + 1) ((v .<< 4) .| hex_val c)
  end.

Definition ALIGN4 (x : Z) : Z := (x +w 3) .& .~ 3.

(** [memcmp(b + p, l, n) == 0] *)
Fixpoint bytes_eq (b : list Z) (p : Z) (l : list Z) : outcome bool :=
  match l with
  | [] => Ok true
  | x :: l' => c ← aref b p; if c =? x then bytes_eq b (p + 1) l' else Ok false
  end.

(** ** Names

    A name is read where it lies: [p] is the bytes of the archive from it on. *)

Definition chr (p : list Z) : outcome Z := match p with c :: _ => Ok c | [] => Fault end.

(** [while (p[i] && p[i] != '/' && i < room) i++] *)
Fixpoint comp_end (room : nat) (p : list Z) {struct p} : outcome nat :=
  match p with
  | [] => Fault
  | c :: p' =>
      if (c =? 0) || (c =? SLASH) then Ok O
      else match room with O => Ok O | S room' => i ← comp_end room' p'; Ok (S i) end
  end.

(** [while ( *p == '/') p++] *)
Fixpoint past_slashes (p : list Z) : outcome (list Z) :=
  match p with c :: p' => if c =? SLASH then past_slashes p' else Ok p | [] => Fault end.

Definition s_magic : list Z := [48; 55; 48; 55; 48; 49].
Definition s_trailer : list Z := [84; 82; 65; 73; 76; 69; 82; 33; 33; 33].

Section model.
Context {S : Type} {KM : KMem S}.

(** Every round consumes a character; 0 stands for the null directory. *)
Fixpoint make_parents_loop (fuel : nat) (dir : Z) (p : list Z) : C (fs S) (Z * cstr) :=
  match fuel with
  | O => fun _ => NoFuel
  | Datatypes.S fuel' =>
      i ← lift (comp_end 63 p);
      let comp := take i p in
      let rest := drop i p in
      c ← lift (chr rest);
      if negb (c =? 0) && negb (c =? SLASH) then mret (0, [])
      else
        next ← lift (past_slashes rest);
        c ← lift (chr next);
        if c =? 0 then mret (dir, strlcpy_ [] comp 64)
        else
          child ← look (fun s => ramfs_child s dir comp);
          child ← (if child =? 0 then run (ramfs_mkdir dir comp 493) else mret child);
          n ← run (get_inode child);
          if (child =? 0) || negb (bool_decide (i_type n = RF_DIR)) then mret (0, [])
          else make_parents_loop fuel' child next
  end.

Definition make_parents (path : list Z) : C (fs S) (Z * cstr) :=
  dir ← run ramfs_root;
  p ← lift (past_slashes path);
  make_parents_loop (Datatypes.S (length path)) dir p.

(** the entry with this name, mode, device numbers and data *)
Definition create_entry (b : list Z) (name : list Z) (mode rmaj rmin data_off filesize : Z) : C (fs S) unit :=
  dl ← make_parents name;
  let '(dir, leaf) := dl in
  if (dir =? 0) || is_nil leaf then mret tt
  else if mode .& S_IFMT =? S_IFDIR then
    c ← look (fun s => ramfs_child s dir leaf);
    if c =? 0 then run (ramfs_mkdir dir leaf (mode .& 4095)) ≫= fun _ => mret tt else mret tt
  else if mode .& S_IFMT =? S_IFLNK then
    let n := if filesize <? 127 then filesize else 127 in
    tgt ← lift (slice b data_off n);
    run (ramfs_mklnk dir leaf (until_nul tgt)) ≫= fun _ => mret tt
  else if mode .& S_IFMT =? S_IFCHR then
    run (ramfs_mknod dir leaf mode rmaj rmin) ≫= fun _ => mret tt
  else if mode .& S_IFMT =? S_IFREG then
    f ← look (fun s => ramfs_child s dir leaf);
    f ← (if f =? 0 then run (ramfs_mkreg dir leaf (mode .& 4095)) else mret f);
    if negb (f =? 0) && negb (filesize =? 0) then
      data ← lift (slice b data_off filesize);
      run (ramfs_write f 0 data) ≫= fun _ => mret tt
    else mret tt
  else mret tt.

(** The entry loop.  [fuel] bounds the rounds: an entry takes 112 bytes at
    least, padding four. *)
Fixpoint cpio_loop (fuel : nat) (b : list Z) (size off count : Z) : C (fs S) Z :=
  match fuel with
  | O => fun _ => NoFuel
  | Datatypes.S fuel' =>
      if size <? off +w 110 then mret (-1)
      else
        m ← lift (bytes_eq b off s_magic);
        if negb m then
          h0 ← lift (aref b off);
          if h0 =? 0 then
            let off := off +w 4 in
            if size <=? off then mret count else cpio_loop fuel' b size off count
          else mret (-2)
        else
          mode ← lift (hex 8 b (off + 14) 0);
          filesize ← lift (hex 8 b (off + 54) 0);
          rmaj ← lift (hex 8 b (off + 78) 0);
          rmin ← lift (hex 8 b (off + 86) 0);
          namesize ← lift (hex 8 b (off + 94) 0);
          if size <? off +w 110 +w namesize then mret (-3)
          else
            trailer ← (if namesize =? 11 then lift (bytes_eq b (off + 110) s_trailer) else mret false);
            if trailer : bool then mret count
            else
              let data_off := ALIGN4 (off +w 110 +w namesize) in
              if size <? data_off +w filesize then mret (-4)
              else
                let name := drop (Z.to_nat (off + 110)) b in
                dot ← lift (c ← chr name; if c =? 46 then c ← chr (drop 1 name); Ok (c =? 0) else Ok false);
                count ← (if dot : bool then mret count
                         else create_entry b name mode rmaj rmin data_off filesize ≫= fun _ => mret (count + 1));
                let off := ALIGN4 (data_off +w filesize) in
                if size <=? off then mret count else cpio_loop fuel' b size off count
  end.

Definition cpio_load (b : list Z) (size : Z) : C (fs S) Z := cpio_loop (Z.to_nat (size / 4 + 1)) b size 0 0.
End model.
