(* ===== verification/CpioLoad.v ===== *)
(** What the unpacker does with an archive: [cpio_load] of [cpio.c] reads back
    every well-formed newc archive, and the 32-bit sums of its bounds checks
    let a malformed one hang it. *)

From stdpp Require Import gmap list.
From Stdlib Require Import ZArith Lia.
From S2P Require Import Prelude Memory Frames Pmm Kmalloc Heap KernMem Checked Ramfs RamfsPaths Cpio.

(** * Numbers in hexadecimal *)

Definition hexdig (d : Z) : Z := if d <? 10 then 48 + d else 55 + d.
Fixpoint hexn (n : nat) (v : Z) : list Z := match n with O => [] | S n' => hexn n' (v / 16) ++ [hexdig (v mod 16)] end.

Lemma hexdig_val d : 0 <= d < 16 -> hex_val (hexdig d) = d.
Proof.
  intros Hd. unfold hexdig, hex_val. destruct (Z.ltb_spec d 10).
  - rewrite (proj2 (Z.leb_le 48 _)), (proj2 (Z.leb_le _ 57)) by lia. cbn [andb]. lia.
  - rewrite (proj2 (Z.leb_gt _ 57)), (proj2 (Z.leb_gt 97 _)), (proj2 (Z.leb_le 65 _)), (proj2 (Z.leb_le _ 70)), andb_false_r by lia.
    cbn [andb]. lia.
Qed.

Lemma hexn_length n v : length (hexn n v) = n.
Proof. revert v. induction n as [|n IH]; intros v; cbn; [done|]. rewrite length_app, IH. cbn. lia. Qed.

Lemma hex_snoc n b p v0 : hex (S n) b p v0 = (v ← hex n b p v0; c ← aref b (p + Z.of_nat n); Ok ((v .<< 4) .| hex_val c)).
Proof.
  revert p v0. induction n as [|n IH]; intros p v0.
  - cbn. by rewrite Z.add_0_r.
  - change (hex (S (S n)) b p v0) with (c ← aref b p; hex (S n) b (p + 1) ((v0 .<< 4) .| hex_val c)).
    change (hex (S n) b p v0) with (c ← aref b p; hex n b (p + 1) ((v0 .<< 4) .| hex_val c)).
    destruct (aref b p) as [c| |]; cbn [mbind outcome_bind]; [|done..]. rewrite IH.
    replace (p + 1 + Z.of_nat n) with (p + Z.of_nat (S n)) by lia. done.
Qed.

Lemma aref_drop (b l r : list Z) p j x : drop p b = l ++ r -> l !! j = Some x -> aref b (Z.of_nat p + Z.of_nat j) = Ok x.
Proof.
  intros E Hx. apply aref_ok; [lia|]. replace (Z.to_nat _) with (p + j)%nat by lia. rewrite <- lookup_drop, E.
  by apply lookup_app_l_Some.
Qed.

Lemma hex_hexn b p n v r : (n <= 8)%nat -> drop p b = hexn n v ++ r -> 0 <= v < 16 ^ Z.of_nat n -> hex n b (Z.of_nat p) 0 = Ok v.
Proof.
  revert v r. induction n as [|n IH]; intros v r Hn E Hv.
  - cbn in *. f_equal. lia.
  - rewrite Nat2Z.inj_succ, Z.pow_succ_r in Hv by lia.
    assert (Hpow : 16 ^ Z.of_nat n <= 16 ^ 7) by (apply Z.pow_le_mono_r; lia). change (16 ^ 7) with (2 ^ 28) in Hpow.
    assert (H4 : (0 < 16)) by lia. pose proof (Z.mod_pos_bound v 16 H4). pose proof (Z.div_mod v 16 ltac:(lia)).
    rewrite hex_snoc, (IH (v / 16) (hexdig (v mod 16) :: r)); [|lia|by rewrite E; cbn [hexn]; rewrite <- app_assoc|].
    2:{ split; [apply Z.div_pos; lia|]. apply Z.div_lt_upper_bound; lia. }
    cbn [mbind outcome_bind].
    rewrite (aref_drop b (hexn (S n) v) r p n (hexdig (v mod 16))); [|done|].
    2:{ cbn [hexn]. rewrite lookup_app_r; rewrite hexn_length; [|lia]. by rewrite Nat.sub_diag. }
    cbn [mbind outcome_bind]. rewrite hexdig_val by done. f_equal.
    assert (0 <= v / 16 < 2 ^ 28) by (split; [apply Z.div_pos; lia|apply Z.div_lt_upper_bound; lia]).
    rewrite Z.shiftl_mul_pow2 by lia. rewrite u32_small by lia. rewrite Z.lor_comm, <- Z.shiftl_mul_pow2 by lia. rewrite lor_shiftl by lia. lia.
Qed.

Lemma hex8_at b p v r : drop p b = hexn 8 v ++ r -> 0 <= v < 2 ^ 32 -> hex 8 b (Z.of_nat p) 0 = Ok v.
Proof. intros E Hv. by apply (hex_hexn b p 8 v r). Qed.

(** * Names *)

Definition nul_free (l : list Z) : Prop := Forall (fun c => c <> 0) l.

Lemma comp_end_string room p t : nul_free p -> comp_end room (p ++ 0 :: t) = Ok (comp_len room p).
Proof.
  intros Hp. revert room. induction Hp as [|c p Hc Hp IH]; intros room; cbn [app comp_end]; [by destruct room|].
  rewrite (proj2 (Z.eqb_neq c 0)) by done. cbn [orb]. destruct room as [|room]; cbn [comp_len]; destruct (c =? SLASH); [done..|].
  by rewrite IH.
Qed.

Lemma past_slashes_string p t : nul_free p -> past_slashes (p ++ 0 :: t) = Ok (skip_slashes p ++ 0 :: t).
Proof. intros Hp. induction Hp as [|c p Hc Hp IH]; cbn; [done|]. by destruct (c =? SLASH). Qed.

Lemma skip_slashes_nul_free p : nul_free p -> nul_free (skip_slashes p).
Proof. intros Hp. induction Hp as [|c p Hc Hp IH]; cbn; [by constructor|]. destruct (c =? SLASH); [done|]. by constructor. Qed.

Lemma chr_string p t : nul_free p -> exists c, chr (p ++ 0 :: t) = Ok c /\ (c =? 0) = is_nil p /\ (c =? SLASH) = starts_slash p.
Proof. intros Hp. destruct Hp as [|c p Hc Hp]; eexists; (split; [done|]); [done|]. cbn. by rewrite (proj2 (Z.eqb_neq c 0)). Qed.

Lemma comp_len_le room p : (comp_len room p <= length p)%nat.
Proof.
  revert room. induction p as [|c p IH]; intros [|room]; cbn [comp_len length]; try lia. specialize (IH room). destruct (c =? SLASH); lia.
Qed.

Lemma components_is_nil q : starts_slash q = false -> is_nil (components q) = is_nil q.
Proof.
  intros Hq. pose proof (components_nil q Hq) as Hc. destruct q as [|z q]; [done|].
  destruct (components (z :: q)) as [|w ws]; [discriminate (proj1 Hc eq_refl)|done].
Qed.

Section load.
Context {S : Type} {KM : KMem S}.

(** [mkdir -p] of all components but the last: the directory and the last *)
Fixpoint descend (dir : Z) (cs : list cstr) : M (fs S) (Z * cstr) :=
  match cs with
  | [] => mret (dir, [])
  | c :: cs' =>
      if (NAME_CAP <=? length c)%nat then mret (0, [])
      else if is_nil cs' then mret (dir, c)
      else
        child ← gets (fun s => ramfs_child s dir c);
        child ← (if child =? 0 then ramfs_mkdir dir c 493 else mret child);
        n ← get_inode child;
        if (child =? 0) || negb (bool_decide (i_type n = RF_DIR)) then mret (0, [])
        else descend child cs'
  end.

Lemma make_parents_loop_string fuel dir p t s : nul_free p -> starts_slash p = false -> (length p < fuel)%nat ->
  make_parents_loop fuel dir (p ++ 0 :: t) s = Ok (descend dir (components p) s).
Proof.
  revert dir p s. induction fuel as [|fuel IH]; intros dir p s Hp Hs Hf; [lia|].
  cbn [make_parents_loop]. unfold mbind, C_bind, lift at 1. rewrite comp_end_string by done. cbn [mbind outcome_bind].
  pose proof (comp_len_le 63 p) as Hle.
  rewrite drop_app_le, take_app_le by done.
  assert (Hd : nul_free (drop (comp_len 63 p) p)) by by apply Forall_drop.
  assert (Hn : nul_free (skip_slashes (drop (comp_len 63 p) p))) by by apply skip_slashes_nul_free.
  destruct (chr_string _ t Hd) as (c & Ec & Ec0 & Ecs). unfold lift at 1. rewrite Ec. cbn [mbind outcome_bind].
  rewrite Ec0, Ecs. unfold lift at 1. rewrite past_slashes_string by done. cbn [mbind outcome_bind].
  destruct (chr_string _ t Hn) as (c' & Ec' & Ec0' & _). unfold lift. rewrite Ec'. cbn [mbind outcome_bind]. rewrite Ec0'.
  destruct (decide (p = [])) as [->|Hne]; [done|].
  destruct (components_head p Hne Hs) as [Hi [(E & w & ws & Hw & Hl)|(E & Hl & Hw)]]; change (pred NAME_CAP) with 63%nat in *; rewrite E, Hw;
    cbn [descend].
  - by rewrite (proj2 (Nat.leb_le _ _)).
  - rewrite (proj2 (Nat.leb_gt _ _)) by done.
    rewrite (components_is_nil _ (skip_slashes_starts _)). destruct (is_nil (skip_slashes _)).
    + unfold mret, C_ret, M_ret. do 3 f_equal. unfold strlcpy_. rewrite strlcpy_copy_take. unfold NAME_CAP in Hl. rewrite take_ge; [done|lia].
    + unfold look, run, mbind, M_bind, get_inode, mret, C_ret, M_ret. unfold gets. destruct (ramfs_child s dir _ =? 0).
      * destruct (ramfs_mkdir dir _ 493 s) as [ch s1]. cbn beta iota.
        destruct (_ || _); [done|]. apply IH; [done|apply skip_slashes_starts|].
        pose proof (skip_slashes_length (drop (comp_len 63 p) p)). rewrite length_drop in *. lia.
      * destruct (_ || _); [done|]. apply IH; [done|apply skip_slashes_starts|].
        pose proof (skip_slashes_length (drop (comp_len 63 p) p)). rewrite length_drop in *. lia.
Qed.

Lemma make_parents_string p t s : nul_free p -> make_parents (p ++ 0 :: t) s = Ok (descend (root s) (components p) s).
Proof.
  intros Hp. unfold make_parents, mbind, C_bind, run, ramfs_root, gets, lift. rewrite past_slashes_string by done. cbn [mbind outcome_bind].
  rewrite make_parents_loop_string; [by rewrite components_skip|by apply skip_slashes_nul_free|apply skip_slashes_starts|].
  pose proof (skip_slashes_length p). rewrite length_app. cbn [length]. lia.
Qed.
(** * Archives *)

(** An entry: the fields that are used, and the bytes of those that are not. *)
Record item := Item { it_name : cstr; it_mode : Z; it_rmaj : Z; it_rmin : Z; it_data : list Z;
                      it_ino : list Z; it_ids : list Z; it_dev : list Z; it_check : list Z }.

Definition pad (n : Z) : list Z := replicate (Z.to_nat ((n + 3) / 4 * 4 - n)) 0.
Definition zlen {A} (l : list A) : Z := Z.of_nat (length l).

Definition it_head (x : item) : list Z :=
  s_magic ++ it_ino x ++ hexn 8 (it_mode x) ++ it_ids x ++ hexn 8 (zlen (it_data x)) ++ it_dev x ++
  hexn 8 (it_rmaj x) ++ hexn 8 (it_rmin x) ++ hexn 8 (zlen (it_name x) + 1) ++ it_check x.
Definition it_bytes (x : item) : list Z :=
  (it_head x ++ it_name x ++ 0 :: pad (110 + zlen (it_name x) + 1)) ++ it_data x ++ pad (zlen (it_data x)).

Record item_ok (x : item) : Prop := {
  ok_name : nul_free (it_name x);
  ok_mode : 0 <= it_mode x < 2 ^ 32;
  ok_rmaj : 0 <= it_rmaj x < 2 ^ 32;
  ok_rmin : 0 <= it_rmin x < 2 ^ 32;
  ok_ino : length (it_ino x) = 8%nat;
  ok_ids : length (it_ids x) = 32%nat;
  ok_dev : length (it_dev x) = 16%nat;
  ok_check : length (it_check x) = 8%nat }.

(** what an entry asks for, in terms of the operations of the file system *)
Definition install (x : item) : M (fs S) unit :=
  dir ← ramfs_root;
  dl ← descend dir (components (it_name x));
  let '(dir, leaf) := dl in
  if (dir =? 0) || is_nil leaf then mret tt
  else if it_mode x .& S_IFMT =? S_IFDIR then
    c ← gets (fun s => ramfs_child s dir leaf);
    if c =? 0 then ramfs_mkdir dir leaf (it_mode x .& 4095) ≫= fun _ => mret tt else mret tt
  else if it_mode x .& S_IFMT =? S_IFLNK then
    ramfs_mklnk dir leaf (until_nul (take 127 (it_data x))) ≫= fun _ => mret tt
  else if it_mode x .& S_IFMT =? S_IFCHR then
    ramfs_mknod dir leaf (it_mode x) (it_rmaj x) (it_rmin x) ≫= fun _ => mret tt
  else if it_mode x .& S_IFMT =? S_IFREG then
    f ← gets (fun s => ramfs_child s dir leaf);
    f ← (if f =? 0 then ramfs_mkreg dir leaf (it_mode x .& 4095) else mret f);
    if negb (f =? 0) && negb (is_nil (it_data x)) then ramfs_write f 0 (it_data x) ≫= fun _ => mret tt else mret tt
  else mret tt.

Lemma slice_spec (b l r : list Z) p n : drop p b = l ++ r -> (p <= length b)%nat -> 0 <= n <= zlen l ->
  slice b (Z.of_nat p) n = Ok (take (Z.to_nat n) l).
Proof.
  intros E Hp Hn. unfold zlen in *. assert (Hl : length (drop p b) = length (l ++ r)) by by rewrite E. rewrite length_drop, length_app in Hl. unfold slice.
  rewrite (proj2 (Z.ltb_ge _ 0)), (proj2 (Z.ltb_ge _ (Z.of_nat p + n))) by lia. cbn [orb]. rewrite Nat2Z.id, E. by rewrite take_app_le by lia.
Qed.

Lemma create_entry_install x b t r p s : item_ok x -> drop p b = it_data x ++ r -> (p <= length b)%nat ->
  create_entry b (it_name x ++ 0 :: t) (it_mode x) (it_rmaj x) (it_rmin x) (Z.of_nat p) (zlen (it_data x)) s = Ok (install x s).
Proof.
  intros Hx E Hp. unfold create_entry, install. unfold mbind, C_bind, M_bind. rewrite make_parents_string by apply Hx.
  unfold ramfs_root, gets at 1. destruct (descend _ _ s) as [[dir leaf] s1].
  destruct ((dir =? 0) || is_nil leaf); [done|].
  destruct (_ =? S_IFDIR).
  { unfold look, gets. destruct (ramfs_child s1 dir leaf =? 0); [|done]. unfold run. by destruct (ramfs_mkdir dir leaf _ s1). }
  destruct (_ =? S_IFLNK).
  { unfold lift. rewrite (slice_spec b (it_data x) r p) by (try done; unfold zlen; case_match; lia). cbn [mbind outcome_bind].
    replace (take (Z.to_nat _) (it_data x)) with (take 127 (it_data x)).
    - unfold run. by destruct (ramfs_mklnk dir leaf _ s1).
    - unfold zlen. destruct (Z.ltb_spec (Z.of_nat (length (it_data x))) 127); [|done]. rewrite Nat2Z.id, firstn_all. apply take_ge. lia. }
  destruct (_ =? S_IFCHR).
  { unfold run. by destruct (ramfs_mknod dir leaf _ _ _ s1). }
  destruct (_ =? S_IFREG); [|done].
  assert (E3 : (zlen (it_data x) =? 0) = is_nil (it_data x)) by by destruct (it_data x).
  unfold look, gets. destruct (ramfs_child s1 dir leaf =? 0); [unfold run at 1; destruct (ramfs_mkreg _ _ _ s1) as [f s2]|cbn [negb mret C_ret M_ret]; set (f := ramfs_child _ _ _)];
    cbn [mret C_ret M_ret]; rewrite E3; (destruct (negb (f =? 0) && _); [|done]); unfold lift;
    rewrite (slice_spec b (it_data x) r p) by (try done; unfold zlen; lia); cbn [mbind outcome_bind]; unfold zlen; rewrite Nat2Z.id, firstn_all;
    unfold run; by destruct (ramfs_write f 0 _ _).
Qed.
Lemma bytes_eq_spec (b l m r : list Z) p : drop p b = m ++ r -> length m = length l -> bytes_eq b (Z.of_nat p) l = Ok (bool_decide (m = l)).
Proof.
  revert p m. induction l as [|x l IH]; intros p m E Hm; [by destruct m|]. destruct m as [|y m]; [done|]. cbn [bytes_eq].
  pose proof (aref_drop b (y :: m) r p 0 y E eq_refl) as H. rewrite Z.add_0_r in H. rewrite H. cbn [mbind outcome_bind].
  destruct (Z.eqb_spec y x) as [->|Hne].
  - replace (Z.of_nat p + 1) with (Z.of_nat (Datatypes.S p)) by lia. rewrite (IH _ m); [|by rewrite <- Nat.add_1_r, <- drop_drop, E|by injection Hm].
    f_equal. apply bool_decide_ext. naive_solver.
  - rewrite bool_decide_eq_false_2; [done|]. naive_solver.
Qed.

Lemma drop_app_at (b l r : list Z) p q : drop p b = l ++ r -> q = (p + length l)%nat -> drop q b = r.
Proof. intros E ->. by rewrite <- drop_drop, E, drop_app_length. Qed.

(** the number in the field behind the bytes [l] *)
Lemma field_at b p l v r q : drop p b = l ++ hexn 8 v ++ r -> 0 <= v < 2 ^ 32 -> q = Z.of_nat p + Z.of_nat (length l) -> hex 8 b q 0 = Ok v.
Proof.
  intros E Hv ->. rewrite <- Nat2Z.inj_add. apply (hex8_at _ _ _ r); [|done]. by apply (drop_app_at b l _ p).
Qed.

Lemma head_length x : item_ok x -> length (it_head x) = 110%nat.
Proof. intros Hx. unfold it_head. rewrite !length_app, !hexn_length, (ok_ino x), (ok_ids x), (ok_dev x), (ok_check x) by done. done. Qed.

Lemma bytes_length x : item_ok x -> zlen (it_bytes x) = (110 + zlen (it_name x) + 1 + 3) / 4 * 4 + (zlen (it_data x) + 3) / 4 * 4.
Proof.
  intros Hx. unfold it_bytes, pad, zlen. rewrite !length_app, head_length by done. cbn [length]. rewrite !length_replicate.
  pose proof (Z.div_mod (110 + Z.of_nat (length (it_name x)) + 1 + 3) 4). pose proof (Z.mod_pos_bound (110 + Z.of_nat (length (it_name x)) + 1 + 3) 4).
  pose proof (Z.div_mod (Z.of_nat (length (it_data x)) + 3) 4). pose proof (Z.mod_pos_bound (Z.of_nat (length (it_data x)) + 3) 4). lia.
Qed.

Section item.
Context (b : list Z) (off : nat) (x : item) (r : list Z).
Hypothesis (Hx : item_ok x) (Hb : drop off b = it_bytes x ++ r) (H31 : zlen b < 2 ^ 31) (Hoff : Z.of_nat off mod 4 = 0).

Lemma room : Z.of_nat off + zlen (it_bytes x) <= zlen b.
Proof.
  assert (Hl : length (drop off b) = length (it_bytes x ++ r)) by by rewrite Hb. rewrite length_drop, length_app in Hl. unfold zlen.
  assert (0 < zlen (it_bytes x)) by (rewrite bytes_length by done; unfold zlen; Z.div_mod_to_equations; lia). unfold zlen in *. lia.
Qed.

Lemma head_fields :
  bytes_eq b (Z.of_nat off) s_magic = Ok true /\ hex 8 b (Z.of_nat off + 14) 0 = Ok (it_mode x) /\
  hex 8 b (Z.of_nat off + 54) 0 = Ok (zlen (it_data x)) /\ hex 8 b (Z.of_nat off + 78) 0 = Ok (it_rmaj x) /\
  hex 8 b (Z.of_nat off + 86) 0 = Ok (it_rmin x) /\ hex 8 b (Z.of_nat off + 94) 0 = Ok (zlen (it_name x) + 1).
Proof.
  pose proof room as Hr. rewrite bytes_length in Hr by done. unfold zlen in *.
  assert (H0 : exists t, drop off b = it_head x ++ t) by (rewrite Hb; unfold it_bytes; rewrite <- !app_assoc; eauto).
  destruct H0 as [t Ht]. unfold it_head in Ht. rewrite <- !app_assoc in Ht. destruct Hx.
  split; [by rewrite (bytes_eq_spec b s_magic s_magic _ off Ht eq_refl), bool_decide_eq_true_2|].
  split; [eapply (field_at b off (s_magic ++ it_ino x)); [rewrite <- !app_assoc; exact Ht|done|rewrite length_app, ok_ino0; done]|].
  split; [eapply (field_at b off (s_magic ++ it_ino x ++ hexn 8 (it_mode x) ++ it_ids x));
    [rewrite <- !app_assoc; exact Ht|Z.div_mod_to_equations; lia|rewrite !length_app, hexn_length, ok_ino0, ok_ids0; done]|].
  split; [eapply (field_at b off (s_magic ++ it_ino x ++ hexn 8 (it_mode x) ++ it_ids x ++ hexn 8 (zlen (it_data x)) ++ it_dev x));
    [rewrite <- !app_assoc; exact Ht|done|rewrite !length_app, !hexn_length, ok_ino0, ok_ids0, ok_dev0; done]|].
  split; [eapply (field_at b off (s_magic ++ it_ino x ++ hexn 8 (it_mode x) ++ it_ids x ++ hexn 8 (zlen (it_data x)) ++ it_dev x ++ hexn 8 (it_rmaj x)));
    [rewrite <- !app_assoc; exact Ht|done|rewrite !length_app, !hexn_length, ok_ino0, ok_ids0, ok_dev0; done]|].
  eapply (field_at b off (s_magic ++ it_ino x ++ hexn 8 (it_mode x) ++ it_ids x ++ hexn 8 (zlen (it_data x)) ++ it_dev x ++ hexn 8 (it_rmaj x) ++ hexn 8 (it_rmin x)));
    [rewrite <- !app_assoc; exact Ht|Z.div_mod_to_equations; lia|rewrite !length_app, !hexn_length, ok_ino0, ok_ids0, ok_dev0; done].
Qed.

Lemma name_at : exists t, drop (off + 110) b = it_name x ++ 0 :: t.
Proof.
  eexists. apply (drop_app_at b (it_head x) _ off); [|by rewrite head_length by done]. rewrite Hb. unfold it_bytes. rewrite <- !app_assoc. cbn [app]. done.
Qed.

Lemma trailer_test : (if zlen (it_name x) + 1 =? 11 then bytes_eq b (Z.of_nat off + 110) s_trailer else Ok false) = Ok (bool_decide (it_name x = s_trailer)).
Proof.
  destruct name_at as [t Ht]. replace (Z.of_nat off + 110) with (Z.of_nat (off + 110)) by lia.
  destruct (Z.eqb_spec (zlen (it_name x) + 1) 11) as [E|E]; unfold zlen in E.
  - apply (bytes_eq_spec _ _ _ _ _ Ht). cbn. lia.
  - rewrite bool_decide_eq_false_2; [done|]. intros Et. rewrite Et in E. done.
Qed.

Lemma dot_test t : (c ← chr (it_name x ++ 0 :: t); if c =? 46 then c ← chr (drop 1 (it_name x ++ 0 :: t)); Ok (c =? 0) else Ok false) =
  Ok (bool_decide (it_name x = [46])).
Proof.
  destruct Hx as [Hn _ _ _ _ _ _ _]. destruct Hn as [|c n Hc Hn]; [done|]. cbn [app chr mbind outcome_bind].
  destruct (Z.eqb_spec c 46) as [->|Hne]; [|rewrite bool_decide_eq_false_2; [done|congruence]].
  rewrite skipn_cons, drop_0. destruct Hn as [|c n Hc' Hn]; [done|]. cbn [app chr mbind outcome_bind].
  rewrite (proj2 (Z.eqb_neq c 0)) by done. by rewrite bool_decide_eq_false_2.
Qed.

Definition data_pos : nat := off + Z.to_nat ((110 + zlen (it_name x) + 1 + 3) / 4 * 4).

Lemma data_at : drop data_pos b = it_data x ++ pad (zlen (it_data x)) ++ r /\ (data_pos <= length b)%nat.
Proof.
  pose proof room as Hr. rewrite bytes_length in Hr by done. split.
  - apply (drop_app_at b (it_head x ++ it_name x ++ 0 :: pad (110 + zlen (it_name x) + 1)) _ off).
    + rewrite Hb. unfold it_bytes. by rewrite <- !app_assoc.
    + unfold data_pos. rewrite !length_app, head_length by done. cbn [length]. unfold pad, zlen. rewrite length_replicate. Z.div_mod_to_equations. lia.
  - unfold data_pos, zlen in *. Z.div_mod_to_equations. lia.
Qed.

(** the sums of the loop do not wrap *)
Lemma sums :
  (zlen b <? Z.of_nat off +w 110) = false /\ (zlen b <? Z.of_nat off +w 110 +w (zlen (it_name x) + 1)) = false /\
  ALIGN4 (Z.of_nat off +w 110 +w (zlen (it_name x) + 1)) = Z.of_nat data_pos /\
  (zlen b <? Z.of_nat data_pos +w zlen (it_data x)) = false /\
  ALIGN4 (Z.of_nat data_pos +w zlen (it_data x)) = Z.of_nat (off + length (it_bytes x)).
Proof.
  pose proof room as Hr. pose proof (bytes_length x Hx) as Hl. rewrite Hl in Hr. unfold data_pos, zlen in *.
  set (n := Z.of_nat (length (it_name x))) in *. set (d := Z.of_nat (length (it_data x))) in *. set (o := Z.of_nat off) in *.
  assert (Hn : 0 <= n) by lia. assert (Hd : 0 <= d) by lia. assert (Ho : 0 <= o) by lia. set (z := Z.of_nat (length b)) in *.
  assert (H1 : 111 + n <= (110 + n + 1 + 3) / 4 * 4 < 111 + n + 4) by (Z.div_mod_to_equations; lia).
  assert (H2 : d <= (d + 3) / 4 * 4 < d + 4) by (Z.div_mod_to_equations; lia).
  rewrite !Nat2Z.inj_add, Z2Nat.id by lia. fold o. fold n.
  assert (E1 : u32 (o + 110) = o + 110) by (apply u32_small; lia). rewrite E1.
  assert (E2 : u32 (o + 110 + (n + 1)) = o + 110 + (n + 1)) by (apply u32_small; lia). rewrite E2.
  assert (E3 : u32 (o + (110 + n + 1 + 3) / 4 * 4 + d) = o + (110 + n + 1 + 3) / 4 * 4 + d) by (apply u32_small; lia). rewrite E3.
  split; [apply Z.ltb_ge; lia|]. split; [apply Z.ltb_ge; lia|]. split; [|split; [apply Z.ltb_ge; lia|]].
  - unfold ALIGN4. change 3 with (2 ^ 2 - 1) at 1 2. rewrite align_up by lia. fold o in Hoff. Z.div_mod_to_equations; lia.
  - unfold ALIGN4. change 3 with (2 ^ 2 - 1) at 2 3. rewrite align_up by lia. fold o in Hoff. rewrite Hl. Z.div_mod_to_equations; lia.
Qed.

(** One round of the loop on an entry. *)
Lemma entry_step fuel count s : it_name x <> s_trailer ->
  cpio_loop (Datatypes.S fuel) b (zlen b) (Z.of_nat off) count s =
  (let '(count', s') := if bool_decide (it_name x = [46]) then (count, s) else (count + 1, (install x s).2) in
   if zlen b <=? Z.of_nat (off + length (it_bytes x)) then Ok (count', s')
   else cpio_loop fuel b (zlen b) (Z.of_nat (off + length (it_bytes x))) count' s').
Proof.
  intros Hnt. destruct head_fields as (F1 & F2 & F3 & F4 & F5 & F6). destruct sums as (S1 & S2 & S3 & S4 & S5).
  destruct name_at as [t Ht]. destruct data_at as [Hd Hp]. cbn [cpio_loop]. rewrite S1.
  unfold mbind, C_bind, lift. rewrite F1, F2, F3, F4, F5, F6. cbn [mbind outcome_bind negb]. rewrite S2.
  pose proof trailer_test as T. rewrite bool_decide_eq_false_2 in T by done.
  replace ((if _ =? 11 then _ else _) s) with (Ok (false, s) : outcome (bool * fs S)).
  2:{ destruct (_ =? 11); [by rewrite T|done]. }
  rewrite S3, S4, S5. replace (Z.to_nat (Z.of_nat off + 110)) with (off + 110)%nat by lia. rewrite Ht, dot_test. cbn [mbind outcome_bind].
  destruct (bool_decide (it_name x = [46])); cbn [mret C_ret]; [by destruct (zlen b <=? _)|].
  rewrite (create_entry_install x b t (pad (zlen (it_data x)) ++ r)) by done. destruct (install x s) as [[] s']. cbn [mret C_ret snd]. by destruct (zlen b <=? _).
Qed.

(** The trailer ends it. *)
Lemma trailer_step fuel count s : it_name x = s_trailer -> cpio_loop (Datatypes.S fuel) b (zlen b) (Z.of_nat off) count s = Ok (count, s).
Proof.
  intros Hnt. destruct head_fields as (F1 & F2 & F3 & F4 & F5 & F6). destruct sums as (S1 & S2 & _ & _ & _).
  cbn [cpio_loop]. rewrite S1. unfold mbind, C_bind, lift. rewrite F1, F2, F3, F4, F5, F6. cbn [mbind outcome_bind negb]. rewrite S2.
  pose proof trailer_test as T. rewrite bool_decide_eq_true_2 in T by done.
  destruct (_ =? 11); [|discriminate T]. rewrite T. done.
Qed.
End item.

(** entries that are not the root itself *)
Definition counted (xs : list item) : Z := zlen (filter (fun x => it_name x <> [46]) xs).
Definition install_all (xs : list item) (s : fs S) : fs S :=
  fold_left (fun s x => (install x s).2) (filter (fun x => it_name x <> [46]) xs) s.

Definition archive (xs : list item) (last : item) (rest : list Z) : list Z := (xs ≫= it_bytes) ++ it_bytes last ++ rest.

Lemma zlen_app {A} (l l' : list A) : zlen (l ++ l') = zlen l + zlen l'.
Proof. unfold zlen. rewrite length_app. lia. Qed.

Lemma cpio_loop_archive xs last rest b s : Forall item_ok xs -> item_ok last -> Forall (fun x => it_name x <> s_trailer) xs -> it_name last = s_trailer ->
  zlen b < 2 ^ 31 -> forall fuel off count, drop off b = archive xs last rest -> (length xs < fuel)%nat -> Z.of_nat off mod 4 = 0 ->
  cpio_loop fuel b (zlen b) (Z.of_nat off) count s = Ok (count + counted xs, install_all xs s).
Proof.
  intros Hxs Hl Hnt Hlt H31. revert s. induction Hxs as [|x xs Hx Hxs IH]; intros s fuel off count E Hf Ho; (destruct fuel as [|fuel]; [cbn in Hf; lia|]).
  - rewrite (trailer_step b off last rest) by done. unfold counted, install_all. cbn. by rewrite Z.add_0_r.
  - apply Forall_cons in Hnt as [Hn Hnt]. unfold archive in E. rewrite bind_cons, <- app_assoc in E. fold (archive xs last rest) in E.
    pose proof (bytes_length x Hx) as Hlen. pose proof (bytes_length last Hl) as Hlen'.
    assert (Hroom : (off + length (it_bytes x) < length b)%nat).
    { assert (E' : length (drop off b) = length (it_bytes x ++ archive xs last rest)) by by rewrite E. unfold archive in E'. rewrite length_drop, !length_app in E'.
      assert (0 < zlen (it_bytes last)) by (rewrite Hlen'; unfold zlen; Z.div_mod_to_equations; lia). unfold zlen in *. lia. }
    rewrite (entry_step b off x (archive xs last rest)) by done.
    assert (E2 : drop (off + length (it_bytes x)) b = archive xs last rest) by by apply (drop_app_at b (it_bytes x) _ off).
    assert (Ho' : Z.of_nat (off + length (it_bytes x)) mod 4 = 0) by (rewrite Nat2Z.inj_add; fold (zlen (it_bytes x)); rewrite Hlen; Z.div_mod_to_equations; lia).
    unfold counted, install_all. rewrite filter_cons. cbn [length] in Hf.
    rewrite (proj2 (Z.leb_gt _ _)) by (unfold zlen; lia).
    destruct (decide (it_name x <> [46])) as [Hd|Hd].
    + rewrite bool_decide_eq_false_2 by done. rewrite IH by (try done; lia). cbn [fold_left]. unfold counted, install_all, zlen. cbn [length]. do 2 f_equal. lia.
    + rewrite bool_decide_eq_true_2 by (by apply dec_stable). by rewrite IH by (try done; lia).
Qed.

(** C25. Unpacking inverts packing: for every list of well-formed entries, the
    archive that holds them, up to its trailer and whatever follows, is read by
    [cpio_load] without reading outside of it, within its fuel, and the effect
    is that of installing the entries one after the other: the directories on
    the way to each, then the directory, link, device or file with its data.
    The result is the number of entries. *)
Theorem cpio_load_archive xs last rest s :
  Forall item_ok xs -> item_ok last -> Forall (fun x => it_name x <> s_trailer) xs -> it_name last = s_trailer ->
  zlen (archive xs last rest) < 2 ^ 31 ->
  cpio_load (archive xs last rest) (zlen (archive xs last rest)) s = Ok (counted xs, install_all xs s).
Proof.
  intros Hxs Hl Hnt Hlt H31. unfold cpio_load. change 0 with (Z.of_nat 0) at 1.
  rewrite (cpio_loop_archive xs last rest); [done..| |done]. unfold archive. rewrite zlen_app.
  assert (H : 28 * zlen xs <= zlen (xs ≫= it_bytes) / 4).
  { clear -Hxs. induction Hxs as [|x xs Hx Hxs IH]; [done|]. rewrite bind_cons, zlen_app, (bytes_length x Hx).
    unfold zlen in *. cbn [length]. Z.div_mod_to_equations. lia. }
  pose proof (Z.div_le_mono (zlen (xs ≫= it_bytes)) (zlen (xs ≫= it_bytes) + zlen (it_bytes last ++ rest)) 4).
  unfold zlen in *. lia.
Qed.

(** An archive of one entry, a fifo named x, whose size field is [2^32 - 112]. *)
Definition looping : list Z :=
  Eval vm_compute in s_magic ++ replicate 8 48 ++ hexn 8 4096 ++ replicate 32 48 ++ hexn 8 (2 ^ 32 - 112) ++ replicate 16 48 ++
  hexn 8 0 ++ hexn 8 0 ++ hexn 8 2 ++ replicate 8 48 ++ [120; 0].

Lemma looping_entry s : create_entry looping (drop 110 looping) 4096 0 0 112 (2 ^ 32 - 112) s = Ok (tt, s).
Proof.
  change (drop 110 looping) with ([120] ++ 0 :: []). unfold create_entry, mbind, C_bind. rewrite make_parents_string by (by repeat constructor).
  cbn [descend components]. change (components [120]) with [[120]]. cbn. by destruct (root s =? 0).
Qed.

(** The checks of [cpio_load] add the offset and the sizes of the header in
    32 bits: this archive of 112 bytes, whose single entry claims [2^32 - 112]
    bytes of data, passes them all and brings the offset back to 0, so that the
    loader never ends, in any state of the file system. *)
Theorem cpio_load_hangs fuel count s : cpio_loop fuel looping (zlen looping) 0 count s = NoFuel.
Proof.
  revert count s. induction fuel as [|fuel IH]; intros count s; [done|].
  assert (E : cpio_loop (Datatypes.S fuel) looping (zlen looping) 0 count s =
    match create_entry looping (drop 110 looping) 4096 0 0 112 (2 ^ 32 - 112) s with
    | Ok (_, s') => cpio_loop fuel looping (zlen looping) 0 (count + 1) s' | Fault => Fault | NoFuel => NoFuel end).
  { cbn [cpio_loop]. change (zlen looping) with 112. cbn [Z.ltb Z.compare Z.add]. unfold mbind, C_bind, lift.
    change (bytes_eq looping 0 s_magic) with (Ok true). change (hex 8 looping (0 + 14) 0) with (Ok 4096).
    change (hex 8 looping (0 + 54) 0) with (Ok (2 ^ 32 - 112)). change (hex 8 looping (0 + 78) 0) with (Ok 0).
    change (hex 8 looping (0 + 86) 0) with (Ok 0). change (hex 8 looping (0 + 94) 0) with (Ok 2). cbn [mbind outcome_bind negb].
    change (112 <? 0 +w 110) with false. change (112 <? 0 +w 110 +w 2) with false. change (2 =? 11) with false.
    change (ALIGN4 (0 +w 110 +w 2)) with 112. change (112 <? 112 +w (2 ^ 32 - 112)) with false.
    change (ALIGN4 (112 +w (2 ^ 32 - 112))) with 0. change (Z.to_nat (0 + 110)) with 110%nat.
    cbn [mret C_ret]. change (chr (drop 110 looping)) with (Ok 120). cbn [mbind outcome_bind]. change (120 =? 46) with false. cbn iota. 
    change (112 <=? 0) with false. cbn [mbind outcome_bind]. by destruct (create_entry _ _ _ _ _ _ _ s) as [[[] s']| |]. }
  rewrite E, looping_entry. apply IH.
Qed.
End load.

(** ** A concrete archive *)

Definition demo_item (name : cstr) (mode : Z) (data : list Z) : item :=
  Item name mode 0 0 data (replicate 8 48) (replicate 32 48) (replicate 16 48) (replicate 8 48).
(** the root, a directory d, a file d/f and a link l *)
Definition demo_items : list item :=
  [demo_item [46] 16877 []; demo_item [100] 16877 []; demo_item [100; 47; 102] 33188 [104; 105; 10]; demo_item [108] 41471 [100; 47; 102]].
Definition demo_last : item := demo_item s_trailer 0 [].

Lemma demo_item_ok name mode data : nul_free name -> 0 <= mode < 2 ^ 32 -> item_ok (demo_item name mode data).
Proof. intros Hn Hm. by constructor. Qed.

Lemma cpio_load_archive_witness :
  Forall item_ok demo_items /\ counted demo_items = 3 /\
  cpio_load (archive demo_items demo_last [0; 0; 0]) (zlen (archive demo_items demo_last [0; 0; 0])) demo_root = Ok (3, install_all demo_items demo_root).
Proof.
  assert (H : Forall item_ok demo_items) by (repeat apply Forall_cons_2; [apply demo_item_ok; [by repeat constructor|lia]..|apply Forall_nil_2]).
  split; [exact H|]. split; [reflexivity|]. change 3 with (counted demo_items).
  apply (cpio_load_archive demo_items demo_last [0; 0; 0] demo_root).
  - exact H.
  - by apply demo_item_ok; [repeat constructor|].
  - repeat constructor; discriminate.
  - reflexivity.
  - vm_compute. reflexivity.
Defined.
