(* ===== verification/UserMem.v ===== *)
(** The memory of a user process, as its program sees it.

    [ubyte] is the byte behind a user address, if the page is mapped: an address
    space is a partial map from addresses to bytes.  The steps by which the
    kernel changes one (a zeroed page is mapped, a page is dropped, a byte is
    stored) are shared by [mmap.c], [binfmt_elf.c] and [proc.c]; each is
    described by its effect on that map, on the frames the process owns, and
    on everybody else ([evolves]). *)

From stdpp Require Import gmap list fin_maps.
From Stdlib Require Import ZArith Lia.
From S2P Require Import Prelude Memory Frames Vm.

(** * Model *)

Section model.
Context {A : Type} {FA : FrameAlloc A}.

(** [pa = pmm_alloc_page(); if (!pa || vm_map_page(l1, va, pa) != 0) { if (pa) pmm_free_page(pa); fail }] *)
Definition map_fresh (l1 va : Z) : M (vms A) bool :=
  pa ← in_phys fa_alloc_page;
  if pa =? 0 then mret false
  else
    rc ← vm_map_page l1 va pa;
    if negb (rc =? 0) then in_phys (fa_free_page pa) ≫= fun _ => mret false
    else mret true.

(** [rp = vm_walk(l1, va); if (rp) { vm_unmap_page(l1, va); pmm_free_page(rp); }] *)
Definition drop_page (l1 va : Z) : M (vms A) unit :=
  rp ← vm_walk l1 va;
  if rp =? 0 then mret tt
  else vm_unmap_page l1 va ≫= fun _ => in_phys (fa_free_page rp).

(** a byte stored through the identity map *)
Definition store_byte (pa v : Z) : M (vms A) unit := in_phys (upd_pm (fun m => stb m pa v)).
End model.

(** * What a step may change *)

Section spec.
Context {A : Type} {FA : FrameAlloc A} {FS : FrameAllocSpec A}.
Context (K : Z -> Z) (HK : forall i, (K i) mod 4 <> 1).
Implicit Types (s t u : vms A) (a b : aspace).

Definition in_as l1 a (f : Z) : Prop := exists r, frame_at l1 a r = Some f.

(** bytes in frames of the address space, or in frames nobody owns *)
Definition reach s l1 a (x : Z) : Prop := in_as l1 a (page_down x) \/ ~ owned s (page_down x).

(** The address space went from [a] to [a']: frames of others are kept, new ones
    were free, and no byte in a frame of others changed. *)
Record evolves s l1 a s' a' : Prop := {
  ev_ok : as_ok K s' l1 a';
  ev_keep : forall f, owned s f -> ~ in_as l1 a f -> owned s' f;
  ev_new : forall f, in_as l1 a' f -> in_as l1 a f \/ ~ owned s f;
  ev_pm : mem_frame (reach s l1 a) (vm_pm s) (vm_pm s');
  ev_wm : mem_frame (reach s l1 a) (wm s) (wm s');
  ev_base : l1_pa s' = l1_pa s;
}.

(** nothing is lost: what is owned afterwards was somebody else's, or is in use *)
Definition tight s l1 a s' a' : Prop := forall f, owned s' f -> (owned s f /\ ~ in_as l1 a f) \/ in_as l1 a' f.

Lemma evolves_refl s l1 a : as_ok K s l1 a -> evolves s l1 a s a.
Proof. intros Ha. split; try done; auto. Qed.

Lemma in_as_dec l1 a f : in_as l1 a f \/ ~ in_as l1 a f.
Proof.
  destruct (decide (map_Exists (fun _ g => g = f) (tabs a))) as [(i & g & Hi & ->)|Hn]; [left; by exists (RL2 i)|].
  destruct (decide (map_Exists (fun _ g => g = f) (pages a))) as [(i & g & Hi & ->)|Hn']; [left; by exists (RPage i)|].
  destruct (decide (f ∈ frame_of l1 <$> seqZ 0 4)) as [(j & -> & Hj)%list_elem_of_fmap|Hn''].
  { left. exists (RL1 j). cbn. rewrite elem_of_seqZ in Hj. by rewrite decide_True by lia. }
  right. intros ([j|i|v] & Hr); cbn in Hr.
  - case_decide; [|done]. injection Hr as <-. apply Hn''. apply list_elem_of_fmap. exists j. split; [done|]. apply elem_of_seqZ. lia.
  - apply Hn. by exists i, f.
  - apply Hn'. by exists v, f.
Qed.

(** The frame of a byte of the address space. *)
Lemma in_as_byte s l1 a r f x : as_ok K s l1 a -> frame_at l1 a r = Some f -> in_range f PAGE_SIZE x -> page_down x = f.
Proof. intros Ha Hf Hx. apply page_down_frame; [|done]. by apply (as_frame K s l1 a r f Ha Hf). Qed.

Lemma evolves_reach s l1 a s' a' x : evolves s l1 a s' a' -> reach s' l1 a' x -> reach s l1 a x.
Proof.
  intros He [Hx|Hx]; [by apply (ev_new _ _ _ _ _ He)|].
  destruct (in_as_dec l1 a (page_down x)) as [?|Hn]; [by left|right]. intros Ho. by apply Hx, (ev_keep _ _ _ _ _ He).
Qed.

Lemma evolves_trans s l1 a s1 a1 s2 a2 : evolves s l1 a s1 a1 -> evolves s1 l1 a1 s2 a2 -> evolves s l1 a s2 a2.
Proof.
  intros H1 H2. split.
  - apply H2.
  - intros f Ho Hn. apply (ev_keep _ _ _ _ _ H2); [by apply (ev_keep _ _ _ _ _ H1)|].
    intros Hf. by destruct (ev_new _ _ _ _ _ H1 f Hf).
  - intros f Hf. destruct (ev_new _ _ _ _ _ H2 f Hf) as [Hf1|Hf1]; [by apply (ev_new _ _ _ _ _ H1)|].
    destruct (in_as_dec l1 a f) as [?|Hn]; [by left|right]. intros Ho. by apply Hf1, (ev_keep _ _ _ _ _ H1).
  - eapply mem_frame_trans; [apply H1|]. eapply mem_frame_mono; [apply H2|]. intros x. by apply evolves_reach.
  - eapply mem_frame_trans; [apply H1|]. eapply mem_frame_mono; [apply H2|]. intros x. by apply evolves_reach.
  - etransitivity; [apply H2|apply H1].
Qed.

Lemma tight_trans s l1 a s1 a1 s2 a2 : evolves s l1 a s1 a1 -> tight s l1 a s1 a1 -> tight s1 l1 a1 s2 a2 -> tight s l1 a s2 a2.
Proof.
  intros H1 T1 T2 f Hf. destruct (T2 f Hf) as [[Ho Hn]|?]; [|by right]. destruct (T1 f Ho) as [?|?]; [by left|done].
Qed.

Lemma tight_refl s l1 a : tight s l1 a s a.
Proof. intros f Hf. destruct (in_as_dec l1 a f); [by right|by left]. Qed.

(** Bytes in frames of others keep their value. *)
Lemma evolves_other s l1 a s' a' l1' b : as_ok K s l1 a -> evolves s l1 a s' a' -> as_ok K s l1' b -> disjoint_as l1 a l1' b ->
  as_ok K s' l1' b /\ disjoint_as l1 a' l1' b /\
  forall r f x, frame_at l1' b r = Some f -> in_range f PAGE_SIZE x -> ldb (vm_pm s') x = ldb (vm_pm s) x.
Proof.
  intros Ha He Hb Hd.
  assert (Hoff : forall r f x, frame_at l1' b r = Some f -> in_range f PAGE_SIZE x -> ~ reach s l1 a x).
  { intros r f x Hf Hx. pose proof (in_as_byte s l1' b r f x Hb Hf Hx) as E. intros [(q & Hq)|Hn].
    - rewrite E in Hq. by apply (Hd q r f).
    - rewrite E in Hn. apply Hn. by apply (as_own _ _ _ _ Hb r). }
  split; [|split].
  - apply (as_ok_frame K (reach s l1 a) s); try done; try apply He.
    + intros r f Hf. apply (ev_keep _ _ _ _ _ He); [by apply (as_own _ _ _ _ Hb r)|]. intros (q & Hq). by apply (Hd q r f).
    + intros x Hx. destruct (tbl_byte_frame l1' b x Hx) as (r & f & Hf & Hxf & _). by apply (Hoff r f).
  - intros r r' f Hf Hf'. destruct (ev_new _ _ _ _ _ He f) as [(q & Hq)|Hn]; [by exists r|by apply (Hd q r' f)|].
    apply Hn. by apply (as_own _ _ _ _ Hb r').
  - intros r f x Hf Hx. apply (ev_pm _ _ _ _ _ He). by apply (Hoff r f).
Qed.

(** * The byte behind an address *)

Definition ubyte s a (x : Z) : option Z := (fun f => ldb (vm_pm s) (f + x mod 4096)) <$> pages a !! vpn x.

Lemma in_page f x : in_range f PAGE_SIZE (f + x mod 4096).
Proof. pose proof (Z.mod_pos_bound x 4096 ltac:(lia)). plia. Qed.

(** Pages whose frame is kept with its bytes look the same. *)
Lemma ubyte_same s a s' a' x : pages a' !! vpn x = pages a !! vpn x ->
  (forall f, pages a !! vpn x = Some f -> forall y, in_range f PAGE_SIZE y -> ldb (vm_pm s') y = ldb (vm_pm s) y) ->
  ubyte s' a' x = ubyte s a x.
Proof. intros E H. unfold ubyte. rewrite E. destruct (pages a !! vpn x) as [f|]; [|done]. cbn. f_equal. apply (H f eq_refl), in_page. Qed.

Lemma tbl_change_reach s l1 a x : as_ok K s l1 a -> tbl_change s l1 a x -> reach s l1 a x.
Proof.
  intros Ha [Hx|Hx]; [|by right]. left. destruct (tbl_byte_frame l1 a x Hx) as (r & f & Hf & Hxf & _).
  exists r. by rewrite (in_as_byte s l1 a r f x).
Qed.

Lemma ext_evolves s l1 a s' a' : as_ok K s l1 a -> ext K s l1 a s' a' -> evolves s l1 a s' a'.
Proof.
  intros Ha He. split; try apply He.
  - intros f Ho _. by apply (ex_mono _ _ _ _ _ _ He).
  - intros f (r & Hr). destruct (ex_new _ _ _ _ _ _ He r f Hr); [left; by exists r|by right].
  - eapply mem_frame_mono; [apply He|]. intros x. by apply tbl_change_reach.
  - eapply mem_frame_mono; [apply He|]. intros x. by apply tbl_change_reach.
Qed.

(** * The steps *)

(** A step and its effect: [g] is what the program sees afterwards. *)
Record step s l1 a s' a' (g : Z -> option Z) : Prop := {
  st_ev : evolves s l1 a s' a';
  st_tight : tight s l1 a s' a';
  st_see : forall x, 0 <= x -> ubyte s' a' x = g x;
}.

Lemma step_trans s l1 a s1 a1 s2 a2 g h : step s l1 a s1 a1 g -> step s1 l1 a1 s2 a2 h -> step s l1 a s2 a2 h.
Proof. intros [E1 T1 S1] [E2 T2 S2]. split; [by eapply evolves_trans|by eapply tight_trans|done]. Qed.

Lemma step_see s l1 a s' a' g h : step s l1 a s' a' g -> (forall x, 0 <= x -> g x = h x) -> step s l1 a s' a' h.
Proof. intros [E T S] H. split; [done|done|]. intros x Hx. rewrite S by done. by apply H. Qed.

Lemma step_refl s l1 a : as_ok K s l1 a -> step s l1 a s a (ubyte s a).
Proof. intros Ha. split; [by apply evolves_refl|apply tight_refl|done]. Qed.

Lemma owned_byte_off s pa t f x : fresh_page s pa t -> aligned PAGE_SIZE f -> owned s f -> in_range f PAGE_SIZE x -> ~ in_range pa PAGE_SIZE x.
Proof. intros Hf Hal Ho Hx. apply (fresh_page_apart s pa t x Hf). by rewrite (page_down_frame f x). Qed.

Lemma fresh_see s l1 a pa t x : as_ok K s l1 a -> fresh_page s pa t -> ubyte t a x = ubyte s a x.
Proof.
  intros Ha Hf. apply ubyte_same; [done|]. intros f Hp y Hy. pose proof Hf as (_ & _ & _ & Hpm & _). apply Hpm.
  destruct (as_frame K s l1 a (RPage _) f Ha Hp) as (Hal & _). apply (owned_byte_off s pa t f); [done..| |done].
  by apply (as_own _ _ _ _ Ha (RPage (vpn x))).
Qed.

(** A frame taken and given back. *)
Lemma free_fresh s l1 a pa t : as_ok K s l1 a -> fresh_page s pa t ->
  wp (in_phys (fa_free_page pa)) t (fun _ u => step s l1 a u a (ubyte s a)).
Proof.
  intros Ha Hf. pose proof (as_ok_fresh K s l1 a pa t Ha Hf) as Hat. pose proof Hf as (Hn & Hfa & Hown & Hpm & Hwm & Hb & _).
  apply wp_zoom. eapply wp_mono; [apply fa_free_page_spec; [exact Hfa|apply Hown; by right]|].
  intros [] ph (Epm & Hok & _ & Hown'). set (u := set_vphys ph t).
  assert (Eu : vm_pm u = vm_pm t) by exact Epm.
  assert (Ho : forall g, owned u g <-> owned s g).
  { intros g. change (owned u g) with (fa_owned (fa ph) g). rewrite Hown'. change (fa_owned (fa (vphys t)) g) with (owned t g). rewrite Hown.
    split; [naive_solver|]. intros Hg. split; [by left|]. intros ->. done. }
  assert (Hin : forall f, in_as l1 a f -> owned s f) by (intros f (r & Hr); by apply (as_own _ _ _ _ Ha r)).
  split.
  - split.
    + apply (as_ok_frame K (fun _ => False) t); [done|exact Hok| |by rewrite Eu|done|auto].
      intros r f Hr. apply Ho. by apply (as_own _ _ _ _ Ha r).
    + intros f Hof _. by apply Ho.
    + by left.
    + rewrite Eu. eapply mem_frame_mono; [exact Hpm|]. intros x Hx. right. intros Hox. by apply (fresh_page_apart _ _ _ x Hf Hox).
    + change (wm u) with (wm t). by rewrite Hwm.
    + exact Hb.
  - intros f Hof. apply Ho in Hof. destruct (in_as_dec l1 a f); [by right|by left].
  - intros x _. rewrite <- (fresh_see s l1 a pa t x Ha Hf). by apply ubyte_same; [|rewrite Eu].
Qed.

(** A zeroed frame, mapped. *)
Lemma mapped_fresh s l1 a pa t u a' va : as_ok K s l1 a -> pages a !! vpn va = None -> fresh_page s pa t -> zeroed (vm_pm t) pa PAGE_SIZE ->
  grown K t l1 a u a' -> pages a' = <[vpn va := pa]> (pages a) ->
  step s l1 a u a' (fun x => if decide (vpn x = vpn va) then Some 0 else ubyte s a x).
Proof.
  intros Ha Hnone Hf Hz Hg Hp. destruct (ext_map_fresh K s l1 a pa t u a' (vpn va) Ha Hf Hg Hp) as [He Hdata]. split.
  - by apply ext_evolves.
  - intros f Ho. destruct (ex_own _ _ _ _ _ _ He f Ho) as [Hs|?]; [|by right]. destruct (in_as_dec l1 a f) as [(r & Hr)|?]; [|by left].
    right. destruct r as [j|i|w]; [by exists (RL1 j)|exists (RL2 i); by apply (lookup_weaken _ _ _ _ Hr (ex_tabs _ _ _ _ _ _ He))|].
    exists (RPage w). cbn in *. rewrite Hp. rewrite lookup_insert_ne; [done|]. intros <-. congruence.
  - intros x _. destruct (decide (vpn x = vpn va)) as [E|E].
    + unfold ubyte. rewrite Hp, E, lookup_insert_eq. cbn. rewrite Hdata by apply in_page. f_equal. apply Hz. apply in_page.
    + rewrite <- (fresh_see s l1 a pa t x Ha Hf). apply ubyte_same; [by rewrite Hp, lookup_insert_ne|].
      intros f Hfx y Hy. pose proof (ext_page_data K s l1 a u a' _ f y He Ha Hfx Hy) as E1. rewrite E1.
      pose proof Hf as (_ & _ & _ & Hpm & _). symmetry. apply Hpm.
      destruct (as_frame K s l1 a (RPage _) f Ha Hfx) as (Hal & _). apply (owned_byte_off s pa t f); [done..| |done].
      by apply (as_own _ _ _ _ Ha (RPage (vpn x))).
Qed.

Lemma fresh_evolves s l1 a pa t : as_ok K s l1 a -> fresh_page s pa t -> evolves s l1 a t a.
Proof.
  intros Ha Hf. pose proof Hf as (Hn & Hfa & Hown & Hpm & Hwm & Hb & _). split; [by apply (as_ok_fresh K s l1 a pa t)| |by left| |by rewrite Hwm|done].
  - intros f Ho _. apply Hown. by left.
  - eapply mem_frame_mono; [exact Hpm|]. intros x Hx. right. intros Hox. by apply (fresh_page_apart _ _ _ x Hf Hox).
Qed.

Lemma vm_map_page_bad s l1 va pa : ~ USER_VA_MIN <= va < USER_VA_MAX -> vm_map_page l1 va pa s = (-1, s).
Proof. intros H. unfold vm_map_page. destruct (Z.ltb_spec va USER_VA_MIN), (Z.leb_spec USER_VA_MAX va); try done. lia. Qed.

Lemma map_fresh_spec s l1 a va : as_ok K s l1 a -> USER_VA_MIN <= va < USER_VA_MAX -> pages a !! vpn va = None ->
  wp (map_fresh l1 va) s (fun ok s' => if ok
    then exists a' pa, step s l1 a s' a' (fun x => if decide (vpn x = vpn va) then Some 0 else ubyte s a x) /\ pages a' = <[vpn va := pa]> (pages a)
    else step s l1 a s' a (ubyte s a)).
Proof.
  intros Ha Hva Hnone. unfold map_fresh. wp_steps. eapply wp_mono; [apply (vm_alloc_page_spec s (as_fa _ _ _ _ Ha))|].
  intros pa t [[-> ->]|(Hpos & Hf & Hz)]; cbn beta.
  { rewrite Z.eqb_refl. wp_steps. by apply step_refl. }
  rewrite (proj2 (Z.eqb_neq _ _)) by lia. pose proof (as_ok_fresh K s l1 a pa t Ha Hf) as Hat.
  wp_steps. eapply wp_mono; [apply (vm_map_page_spec K HK t l1 a va pa Hat Hva (mappable_fresh K s l1 a pa t _ Ha Hf))|].
  intros r u [[-> ->]|(-> & a' & Hg & Hp)]; cbn beta; cbn [negb Z.eqb].
  { wp_steps. eapply wp_mono; [by apply (free_fresh s l1 a pa t)|]. intros [] u Hu. by wp_steps. }
  wp_steps. exists a', pa. split; [|done]. by apply (mapped_fresh s l1 a pa t).
Qed.

(** [a] with page [v] gone *)
Definition without a (v : Z) : aspace := set_page a v None.

Lemma without_pages a v w : pages (without a v) !! w = if decide (v = w) then None else pages a !! w.
Proof. apply lookup_set_page. Qed.

Lemma without_role l1 a v r f : frame_at l1 (without a v) r = Some f <-> frame_at l1 a r = Some f /\ r <> RPage v.
Proof.
  destruct r as [j|i|w]; cbn; [naive_solver..|]. change (partial_alter (fun _ => None) v (pages a)) with (pages (without a v)).
  rewrite without_pages. case_decide; naive_solver.
Qed.

Lemma vpn_page va : aligned PAGE_SIZE va -> va mod 4096 = 0.
Proof. done. Qed.

Lemma drop_page_none s l1 a va : as_ok K s l1 a -> 0 <= va < 2 ^ 32 -> pages a !! vpn va = None -> drop_page l1 va s = (tt, s).
Proof. intros Ha Hva Hn. unfold drop_page, mbind, M_bind. rewrite (vm_walk_eq K HK s l1 a) by done. by rewrite Hn. Qed.

(** Dropping a page gives its frame back. *)
Lemma drop_page_spec s l1 a va : as_ok K s l1 a -> 0 <= va < 2 ^ 32 -> aligned PAGE_SIZE va ->
  wp (drop_page l1 va) s (fun _ s' => step s l1 a s' (without a (vpn va)) (fun x => if decide (vpn x = vpn va) then None else ubyte s a x)).
Proof.
  intros Ha Hva Hal. destruct (pages a !! vpn va) as [f|] eqn:Hf.
  2:{ unfold wp. rewrite (drop_page_none s l1 a va) by done. cbn [snd].
      assert (E : without a (vpn va) = a) by (destruct a as [ta pa]; unfold without, set_page; cbn in *; f_equal; pose proof (partial_alter_self pa (vpn va)) as Hs; by rewrite Hf in Hs).
      rewrite E. eapply step_see; [by apply step_refl|]. intros x _. case_decide as Ex; [|done]. unfold ubyte. by rewrite Ex, Hf. }
  unfold drop_page. wp_steps. unfold wp at 1. rewrite (vm_walk_eq K HK s l1 a) by done. rewrite Hf. cbn [fst snd].
  destruct (as_frame K s l1 a (RPage _) f Ha Hf) as (Half & Hpos & _).
  rewrite (vpn_page va Hal), Z.add_0_r, (proj2 (Z.eqb_neq _ _)) by lia. wp_steps.
  eapply wp_mono; [apply (vm_unmap_page_spec K HK s l1 a va Ha Hva)|].
  intros r t [(-> & -> & Hn)|(-> & _ & Hg & Hfa & _)]; cbn beta; [congruence|].
  pose proof (gr_ok _ _ _ _ _ _ Hg) as Hat. fold (without a (vpn va)) in *.
  assert (Hot : forall g, owned t g <-> owned s g) by (intros g; unfold owned; by rewrite Hfa).
  apply wp_zoom. eapply wp_mono; [apply fa_free_page_spec; [apply Hat|apply Hot; by apply (as_own _ _ _ _ Ha (RPage (vpn va)))]|].
  intros [] ph (Epm & Hok & _ & Hown). set (u := set_vphys ph t). assert (Eu : vm_pm u = vm_pm t) by exact Epm.
  assert (Ho : forall g, owned u g <-> owned s g /\ g <> f) by (intros g; change (owned u g) with (fa_owned (fa ph) g); rewrite Hown; apply and_iff_compat_r, Hot).
  assert (Hne : forall r g, frame_at l1 (without a (vpn va)) r = Some g -> g <> f).
  { intros r g Hr ->. apply without_role in Hr as [Hr Hrn]. apply Hrn. by apply (as_inj _ _ _ _ Ha r (RPage (vpn va)) f). }
  split.
  - split.
    + apply (as_ok_frame K (fun _ => False) t); [done|exact Hok| |by rewrite Eu|done|auto].
      intros r g Hr. apply Ho. split; [|by apply (Hne r)]. apply without_role in Hr as [Hr _]. by apply (as_own _ _ _ _ Ha r).
    + intros g Hg' Hn. apply Ho. split; [done|]. intros ->. apply Hn. by exists (RPage (vpn va)).
    + intros g (r & Hr). left. apply without_role in Hr as [Hr _]. by exists r.
    + rewrite Eu. eapply mem_frame_mono; [apply Hg|]. intros x. by apply tbl_change_reach.
    + eapply mem_frame_mono; [apply Hg|]. intros x. by apply tbl_change_reach.
    + apply (gr_base _ _ _ _ _ _ Hg).
  - intros g Hg'. apply Ho in Hg' as [Hs Hgf]. destruct (in_as_dec l1 a g) as [(r & Hr)|]; [|by left]. right. exists r.
    apply without_role. split; [done|]. intros ->. cbn in Hr. congruence.
  - intros x _. case_decide as Ex.
    + unfold ubyte. by rewrite without_pages, decide_True.
    + apply ubyte_same; [by rewrite without_pages, decide_False by congruence|]. intros g Hgx y Hy. rewrite Eu. apply (gr_pm _ _ _ _ _ _ Hg).
      intros [Hy'|Hy'].
      * destruct (tbl_byte_frame l1 a y Hy') as (r & h & Hh & Hyh & Hr). apply (Hr (vpn x)). symmetry. by apply (roles_apart K s l1 a (RPage (vpn x)) r g h y).
      * apply Hy'. rewrite (in_as_byte s l1 a (RPage (vpn x)) g y) by done. by apply (as_own _ _ _ _ Ha (RPage (vpn x))).
Qed.

Lemma page_of s l1 a x y f g : as_ok K s l1 a -> pages a !! vpn x = Some f -> pages a !! vpn y = Some g ->
  f + x mod 4096 = g + y mod 4096 -> 0 <= x -> 0 <= y -> x = y.
Proof.
  intros Ha Hf Hg E Hx Hy. assert (H : RPage (vpn x) = RPage (vpn y)).
  { apply (roles_apart K s l1 a _ _ f g (f + x mod 4096)); [done..|apply in_page|]. rewrite E. apply in_page. }
  injection H as H. rewrite <- H in Hg. unfold vpn in *. assert (f = g) by congruence. subst g. Z.div_mod_to_equations. lia.
Qed.

(** A byte stored into a mapped page. *)
Lemma store_byte_spec s l1 a va f v : as_ok K s l1 a -> 0 <= va -> pages a !! vpn va = Some f ->
  wp (store_byte (f + va mod 4096) v) s (fun _ s' =>
    step s l1 a s' a (fun x => if decide (x = va) then Some (u8 v) else ubyte s a x)).
Proof.
  intros Ha Hva Hf. unfold store_byte. apply wp_zoom. unfold wp. cbn [upd_pm modify fst snd].
  set (s' := set_vphys _ s). assert (Epm : vm_pm s' = stb (vm_pm s) (f + va mod 4096) v) by done.
  assert (Hm : mem_frame (eq (f + va mod 4096)) (vm_pm s) (vm_pm s')) by (rewrite Epm; apply mem_frame_stb).
  split.
  - split; [|auto|auto| |done|done].
    + apply (as_ok_frame K (eq (f + va mod 4096)) s); [done|apply Ha|apply Ha|done|done|]. intros x Hx <-.
      destruct (tbl_byte_frame l1 a _ Hx) as (r & g & Hg & Hxg & Hr). apply (Hr (vpn va)). symmetry.
      apply (roles_apart K s l1 a (RPage (vpn va)) r f g (f + va mod 4096)); [done..|apply in_page|done].
    + eapply mem_frame_mono; [exact Hm|]. intros x <-. left. exists (RPage (vpn va)). cbn.
      rewrite (in_as_byte s l1 a (RPage (vpn va)) f); [done..|apply in_page].
  - apply (tight_refl s).
  - intros x Hx. unfold ubyte. destruct (pages a !! vpn x) as [g|] eqn:Hg; cbn; rewrite ?Epm, ?ldb_stb.
    + case_decide as E.
      * rewrite decide_True; [done|]. by apply (page_of s l1 a x va g f Ha Hg Hf).
      * rewrite decide_False; [done|]. intros ->. apply E. congruence.
    + rewrite decide_False; [done|]. intros ->. congruence.
Qed.
End spec.
