(* ===== verification/Elf.v ===== *)
(** The ELF loader, [kernel/fs/binfmt_elf.c].

    The image is its bytes and is not trusted: every read of it is checked.
    The address space it is loaded into is that of [Vm]. *)

From stdpp Require Import gmap list.
From Stdlib Require Import ZArith Lia.
From S2P Require Import Prelude Memory Checked Frames Vm UserMem.

Definition E_TYPE : Z := 16.
Definition E_MACHINE : Z := 18.
Definition E_ENTRY : Z := 24.
Definition E_PHOFF : Z := 28.
Definition E_PHENTSIZE : Z := 42.
Definition E_PHNUM : Z := 44.
Definition P_TYPE : Z := 0.
Definition P_OFFSET : Z := 4.
Definition P_VADDR : Z := 8.
Definition P_FILESZ : Z := 16.
Definition P_MEMSZ : Z := 20.
Definition PT_LOAD : Z := 1.
Definition PT_INTERP : Z := 3.
Definition ET_EXEC : Z := 2.
Definition ET_DYN : Z := 3.
Definition PAGE_MASK : Z := PAGE_SIZE - 1.
(** [sizeof(out->interp)] *)
Definition INTERP_CAP : Z := 128.

Definition rd16 (e : list Z) (p : Z) : outcome Z :=
  a ← aref e p; b ← aref e (p + 1); Ok (a .| Z.shiftl b 8).

Definition rd32 (e : list Z) (p : Z) : outcome Z :=
  a ← aref e p; b ← aref e (p + 1); c ← aref e (p + 2); d ← aref e (p + 3);
  Ok (a .| Z.shiftl b 8 .| Z.shiftl c 16 .| Z.shiftl d 24).

(** [interp] is the interpreter's path, when there is one. *)
Record elf_info := ElfInfo {
  ei_entry : Z; ei_brk_end : Z; ei_phdr_va : Z; ei_phent : Z; ei_phnum : Z; ei_is_dyn : bool; ei_interp : option (list Z) }.

(** the locals of the loop over the program headers *)
Record scan := Scan { sc_brk_end : Z; sc_phdr_va : Z; sc_interp : option (list Z) }.

(** Checks of the file header: the error, or type and program header table. *)
Definition read_header (e : list Z) (sz bias : Z) : outcome (Z + (Z * Z * Z * Z)) :=
  if sz <? 52 then Ok (inl (-1))
  else
    m0 ← aref e 0; m1 ← aref e 1; m2 ← aref e 2; m3 ← aref e 3;
    if negb ((m0 =? 0x7F) && (m1 =? 69) && (m2 =? 76) && (m3 =? 70)) then Ok (inl (-2))
    else
      c ← aref e 4; d ← aref e 5;
      if negb (c =? 1) || negb (d =? 1) then Ok (inl (-3))
      else
        etype ← rd16 e E_TYPE;
        if negb (etype =? ET_EXEC) && negb (etype =? ET_DYN) then Ok (inl (-4))
        else
          machine ← rd16 e E_MACHINE;
          if negb (machine =? 40) then Ok (inl (-5))
          else if (etype =? ET_EXEC) && negb (bias =? 0) then Ok (inl (-8))
          else
            phoff ← rd32 e E_PHOFF;
            phent ← rd16 e E_PHENTSIZE;
            phnum ← rd16 e E_PHNUM;
            if (phent <? 32) || (sz <? phoff) || ((sz -w phoff) / phent <? phnum) then Ok (inl (-10))
            else Ok (inr (etype, phoff, phent, phnum)).

(** The interpreter's path of a PT_INTERP header at [ph]. *)
Definition read_interp (e : list Z) (sz ph : Z) : outcome (Z + list Z) :=
  ioff ← rd32 e (ph + P_OFFSET);
  ilen ← rd32 e (ph + P_FILESZ);
  if (ilen =? 0) || (INTERP_CAP <? ilen) || (sz <? ioff) || (sz -w ioff <? ilen) then Ok (inl (-9))
  else s ← slice e ioff ilen; Ok (inr (until_nul (take (Z.to_nat (ilen - 1)) s))).

(** A PT_LOAD header at [ph]: offset, address, and sizes in the file and in memory. *)
Definition read_load (e : list Z) (sz bias ph : Z) : outcome (Z + (Z * Z * Z * Z)) :=
  off ← rd32 e (ph + P_OFFSET);
  vraw ← rd32 e (ph + P_VADDR);
  let vaddr := vraw +w bias in
  filesz ← rd32 e (ph + P_FILESZ);
  memsz ← rd32 e (ph + P_MEMSZ);
  if (sz <? off) || (sz -w off <? filesz) then Ok (inl (-11))
  else if (memsz <? filesz) || (vraw +w bias <? bias) || (USER_VA_MAX -w vaddr <? memsz) then Ok (inl (-12))
  else Ok (inr (off, vaddr, filesz, memsz)).

Section model.
Context {A : Type} {FA : FrameAlloc A}.

(** the page loop of a segment: [n] pages from [va] *)
Definition map_segment (l1 va : Z) (n : nat) : M (vms A) (option Z) :=
  forR n va PAGE_SIZE (fun va =>
    pa ← vm_walk l1 va;
    if pa =? 0 then
      pa ← in_phys fa_alloc_page;
      if pa =? 0 then mret (Some (-6))
      else rc ← vm_map_page l1 va pa; if negb (rc =? 0) then mret (Some (-7)) else mret None
    else mret None).

(** the byte loop *)
Definition copy_segment (l1 : Z) (e : list Z) (off vaddr filesz : Z) : C (vms A) (option Z) :=
  iterC (Z.to_nat filesz) 0 (fun j =>
    let va := vaddr +w j in
    pa ← run (vm_walk l1 va);
    if pa =? 0 then mret (Some (-7))
    else b ← lift (aref e (off + j)); run (store_byte pa b) ≫= fun _ => mret None).

Definition seg_start (vaddr : Z) : Z := vaddr .& .~ PAGE_MASK.
Definition seg_end (vaddr memsz : Z) : Z := (vaddr +w memsz +w PAGE_MASK) .& .~ PAGE_MASK.

(** One program header: the error, or the locals afterwards. *)
Definition load_phdr (l1 : Z) (e : list Z) (sz bias phoff ph : Z) (l : scan) : C (vms A) (Z + scan) :=
  ptype ← lift (rd32 e (ph + P_TYPE));
  if ptype =? PT_INTERP then
    r ← lift (read_interp e sz ph);
    match r with inl rc => mret (inl rc) | inr p => mret (inr (Scan (sc_brk_end l) (sc_phdr_va l) (Some p))) end
  else if negb (ptype =? PT_LOAD) then mret (inr l)
  else
    r ← lift (read_load e sz bias ph);
    match r with
    | inl rc => mret (inl rc)
    | inr (off, vaddr, filesz, memsz) =>
        let phdr_va := if (off <=? phoff) && (phoff <? off +w filesz) then vaddr +w (phoff -w off) else sc_phdr_va l in
        let vstart := seg_start vaddr in
        let vend := seg_end vaddr memsz in
        r ← run (map_segment l1 vstart (Z.to_nat ((vend - vstart) / PAGE_SIZE)));
        match r with
        | Some rc => mret (inl rc)
        | None =>
            r ← copy_segment l1 e off vaddr filesz;
            match r with
            | Some rc => mret (inl rc)
            | None => mret (inr (Scan (if sc_brk_end l <? vend then vend else sc_brk_end l) phdr_va (sc_interp l)))
            end
        end
    end.

(** headers [i] to [i + n - 1] *)
Fixpoint load_phdrs (n : nat) (i : Z) (l1 : Z) (e : list Z) (sz bias phoff phent : Z) (l : scan) : C (vms A) (Z + scan) :=
  match n with
  | O => mret (inr l)
  | S n' =>
      r ← load_phdr l1 e sz bias phoff (phoff + i * phent) l;
      match r with inl rc => mret (inl rc) | inr l' => load_phdrs n' (i + 1) l1 e sz bias phoff phent l' end
  end.

Definition elf_load (l1 : Z) (e : list Z) (sz bias : Z) : C (vms A) (Z + elf_info) :=
  h ← lift (read_header e sz bias);
  match h with
  | inl rc => mret (inl rc)
  | inr (etype, phoff, phent, phnum) =>
      r ← load_phdrs (Z.to_nat phnum) 0 l1 e sz bias phoff phent (Scan 0 0 None);
      match r with
      | inl rc => mret (inl rc)
      | inr l =>
          entry ← lift (rd32 e E_ENTRY);
          mret (inr (ElfInfo (entry +w bias) (sc_brk_end l) (sc_phdr_va l) phent phnum (etype =? ET_DYN) (sc_interp l)))
      end
  end.
End model.
