(* ===== verification/ElfLoad.v ===== *)
(** What [elf_load] of [binfmt_elf.c] does to an address space, for every image:
    it never reads outside the image, it changes nothing but the address space
    it is given, and when it succeeds the program's memory is the old one (or
    zero) with the segments laid over it. *)

From stdpp Require Import gmap list fin_maps.
From Stdlib Require Import ZArith Lia.
From S2P Require Import Prelude Memory Checked Frames Pmm Vm AddrSpace UserMem Elf.

Definition bytes (e : list Z) : Prop := Forall (fun c => 0 <= c < 256) e.

(** ** Reading the image *)

Section reads.
Context (e : list Z) (He : bytes e).

Lemma byte_at p (Q : Z -> Prop) : 0 <= p < Z.of_nat (length e) -> (forall c, 0 <= c < 256 -> Q c) -> ok (aref e p) Q.
Proof. intros Hp HQ. apply ok_aref; [done|]. intros c Hc. apply HQ. by apply (Forall_lookup_1 _ _ _ _ He Hc). Qed.

Lemma rd16_ok p (Q : Z -> Prop) : 0 <= p -> p + 2 <= Z.of_nat (length e) -> (forall v, 0 <= v < 2 ^ 16 -> Q v) -> ok (rd16 e p) Q.
Proof.
  intros Hp Hl HQ. unfold rd16. apply ok_bind, byte_at; [lia|]. intros a Ha. apply ok_bind, byte_at; [lia|]. intros b Hb.
  apply HQ. rewrite (lor_shiftl _ _ 8) by lia. lia.
Qed.

Lemma rd32_ok p (Q : Z -> Prop) : 0 <= p -> p + 4 <= Z.of_nat (length e) -> (forall v, 0 <= v < 2 ^ 32 -> Q v) -> ok (rd32 e p) Q.
Proof.
  intros Hp Hl HQ. unfold rd32. apply ok_bind, byte_at; [lia|]. intros a Ha. apply ok_bind, byte_at; [lia|]. intros b Hb.
  apply ok_bind, byte_at; [lia|]. intros c Hc. apply ok_bind, byte_at; [lia|]. intros d Hd.
  apply HQ. rewrite (lor_shiftl _ _ 8), (lor_shiftl _ _ 16), (lor_shiftl _ _ 24) by lia. lia.
Qed.

Let sz : Z := Z.of_nat (length e).
Context (Hsz : sz < 2 ^ 32).

(** the program header table lies in the image *)
Lemma header_ok bias : ok (read_header e sz bias) (fun h =>
  match h with inl rc => rc < 0 | inr (etype, phoff, phent, phnum) =>
    52 <= sz /\ 0 <= phoff /\ 32 <= phent /\ 0 <= phnum < 2 ^ 16 /\ phoff + phnum * phent <= sz end).
Proof.
  unfold read_header. destruct (Z.ltb_spec sz 52) as [|H52]; [cbn; lia|]. unfold sz in *.
  do 4 (apply ok_bind, byte_at; [lia|]; intros ? _). destruct (negb _); [cbn; lia|].
  do 2 (apply ok_bind, byte_at; [lia|]; intros ? _). destruct (negb _ || _); [cbn; lia|].
  apply ok_bind, rd16_ok; [unfold E_TYPE; lia..|]. intros etype _. destruct (_ && _); [cbn; lia|].
  apply ok_bind, rd16_ok; [unfold E_MACHINE; lia..|]. intros mach _. destruct (negb (mach =? 40)); [cbn; lia|]. destruct (_ && _); [cbn; lia|].
  apply ok_bind, rd32_ok; [unfold E_PHOFF; lia..|]. intros phoff Hoff. apply ok_bind, rd16_ok; [unfold E_PHENTSIZE; lia..|]. intros phent Hent.
  apply ok_bind, rd16_ok; [unfold E_PHNUM; lia..|]. intros phnum Hnum.
  destruct (Z.ltb_spec phent 32); [cbn; lia|]. destruct (Z.ltb_spec (Z.of_nat (length e)) phoff); [cbn; lia|]. cbn [orb].
  rewrite u32_small by lia. destruct (Z.ltb_spec ((Z.of_nat (length e) - phoff) / phent) phnum) as [|Hn]; [cbn; lia|]. cbn.
  repeat (split; [lia|]). pose proof (Z.mul_div_le (Z.of_nat (length e) - phoff) phent ltac:(lia)). nia.
Qed.

Section phdr.
Context (ph : Z) (Hph : 0 <= ph) (Hend : ph + 32 <= sz).

Lemma interp_ok : ok (read_interp e sz ph) (fun r => match r with inl rc => rc < 0 | inr _ => True end).
Proof.
  unfold read_interp, sz in *. apply ok_bind, rd32_ok; [unfold P_OFFSET; lia..|]. intros ioff Hio. apply ok_bind, rd32_ok; [unfold P_FILESZ; lia..|]. intros ilen Hil.
  destruct (Z.eqb_spec ilen 0); [cbn; lia|]. destruct (Z.ltb_spec INTERP_CAP ilen); [cbn; lia|]. destruct (Z.ltb_spec (Z.of_nat (length e)) ioff); [cbn; lia|].
  cbn [orb]. rewrite u32_small by lia. destruct (Z.ltb_spec (Z.of_nat (length e) - ioff) ilen); [cbn; lia|].
  unfold slice. rewrite (proj2 (Z.ltb_ge ioff 0)), (proj2 (Z.ltb_ge (Z.of_nat (length e)) (ioff + ilen))) by lia. done.
Qed.

Lemma load_ok bias : 0 <= bias < 2 ^ 32 -> ok (read_load e sz bias ph) (fun r => match r with inl rc => rc < 0 | inr (off, vaddr, filesz, memsz) =>
  0 <= off /\ 0 <= filesz <= memsz /\ off + filesz <= sz /\ 0 <= vaddr < 2 ^ 32 /\ 0 <= memsz < 2 ^ 32 /\ (vaddr <= USER_VA_MAX -> vaddr + memsz <= USER_VA_MAX) end).
Proof.
  intros Hb. unfold read_load, sz in *. apply ok_bind, rd32_ok; [unfold P_OFFSET; lia..|]. intros off Ho. apply ok_bind, rd32_ok; [unfold P_VADDR; lia..|]. intros vraw Hv.
  apply ok_bind, rd32_ok; [unfold P_FILESZ; lia..|]. intros filesz Hf. apply ok_bind, rd32_ok; [unfold P_MEMSZ; lia..|]. intros memsz Hm.
  destruct (Z.ltb_spec (Z.of_nat (length e)) off); [cbn; lia|]. cbn [orb]. rewrite (u32_small (_ - off)) by lia. destruct (Z.ltb_spec (Z.of_nat (length e) - off) filesz); [cbn; lia|].
  destruct (Z.ltb_spec memsz filesz); [cbn; lia|]. destruct (Z.ltb_spec (vraw +w bias) bias); [cbn; lia|]. cbn [orb].
  pose proof (u32_range (vraw + bias)) as Hr. destruct (Z.ltb_spec (USER_VA_MAX -w (vraw +w bias)) memsz) as [|Hlt]; [cbn; lia|]. cbn.
  do 3 (split; [lia|]). split; [done|]. split; [lia|]. intros Hle. rewrite u32_small in Hlt; [lia|]. unfold USER_VA_MAX in *. lia.
Qed.
End phdr.
End reads.

(** ** Loading a segment *)

Section load.
Context {A : Type} {FA : FrameAlloc A} {FS : FrameAllocSpec A}.
Context (K : Z -> Z) (HK : forall i, (K i) mod 4 <> 1).
Implicit Types (s t u : vms A) (a b : aspace).

(** [g] with the pages from [lo] to [hi] mapped, new ones zeroed *)
Definition zfill (lo hi : Z) (g : Z -> option Z) (x : Z) : option Z :=
  if decide (lo <= x < hi) then Some (default 0 (g x)) else g x.

Lemma page_span va x : aligned PAGE_SIZE va -> vpn x = vpn va <-> va <= x < va + PAGE_SIZE.
Proof. unfold aligned, vpn, PAGE_SIZE. intros. Z.div_mod_to_equations. lia. Qed.

Lemma map_one_spec s l1 a va : as_ok K s l1 a -> aligned PAGE_SIZE va -> 0 <= va < 2 ^ 32 ->
  wp (pa ← vm_walk l1 va;
      if pa =? 0 then
        pa ← in_phys fa_alloc_page;
        if pa =? 0 then mret (Some (-6)) else rc ← vm_map_page l1 va pa; if negb (rc =? 0) then mret (Some (-7)) else mret None
      else mret None) s (fun r s' => exists a', evolves K s l1 a s' a' /\
    match r with Some rc => rc < 0 | None => forall x, 0 <= x -> ubyte s' a' x = zfill va (va + PAGE_SIZE) (ubyte s a) x end).
Proof.
  intros Ha Hal Hva. wp_steps. unfold wp at 1. rewrite (vm_walk_eq K HK s l1 a) by done. cbn [fst snd].
  destruct (pages a !! vpn va) as [f|] eqn:Hf.
  - destruct (as_frame K s l1 a (RPage _) f Ha Hf) as (_ & Hpos & _). rewrite (proj2 (Z.eqb_neq _ _)) by (pose proof (Z.mod_pos_bound va 4096); lia).
    wp_steps. exists a. split; [by apply evolves_refl|]. intros x _. unfold zfill. case_decide as Hx; [|done].
    apply (page_span va x Hal) in Hx. unfold ubyte. by rewrite Hx, Hf.
  - rewrite Z.eqb_refl. wp_steps. eapply wp_mono; [apply (vm_alloc_page_spec s (as_fa _ _ _ _ Ha))|].
    intros pa t [[-> ->]|(Hpos & Hfr & Hz)]; cbn beta.
    { rewrite Z.eqb_refl. wp_steps. exists a. split; [by apply evolves_refl|lia]. }
    rewrite (proj2 (Z.eqb_neq _ _)) by lia. wp_steps.
    assert (Hd : USER_VA_MIN <= va < USER_VA_MAX \/ ~ USER_VA_MIN <= va < USER_VA_MAX) by lia. destruct Hd as [Hr|Hr].
    + eapply wp_mono; [apply (vm_map_page_spec K HK t l1 a va pa (as_ok_fresh K s l1 a pa t Ha Hfr) Hr (mappable_fresh K s l1 a pa t _ Ha Hfr))|].
      intros r u [[-> ->]|(-> & a' & Hg & Hp)]; cbn beta; cbn [negb Z.eqb]; wp_steps.
      * exists a. split; [by apply (fresh_evolves K s l1 a pa t)|lia].
      * destruct (mapped_fresh K s l1 a pa t u a' va Ha Hf Hfr Hz Hg Hp) as [He _ Hsee]. exists a'. split; [done|]. intros x Hx. rewrite Hsee by done.
        unfold zfill. destruct (decide (vpn x = vpn va)) as [E|E].
        -- rewrite decide_True by (by apply page_span). unfold ubyte. by rewrite E, Hf.
        -- rewrite decide_False; [done|]. intros Hx'. apply E. by apply page_span.
    + unfold wp. rewrite vm_map_page_bad by done. cbn. exists a. split; [by apply (fresh_evolves K s l1 a pa t)|lia].
Qed.

Lemma map_segment_spec s l1 a va n : as_ok K s l1 a -> aligned PAGE_SIZE va -> 0 <= va -> va + Z.of_nat n * PAGE_SIZE <= 2 ^ 32 ->
  wp (map_segment l1 va n) s (fun r s' => exists a', evolves K s l1 a s' a' /\
    match r with Some rc => rc < 0 | None => forall x, 0 <= x -> ubyte s' a' x = zfill va (va + Z.of_nat n * PAGE_SIZE) (ubyte s a) x end).
Proof.
  intros Ha Hal Hva Hend. unfold map_segment.
  apply (wp_forR n va PAGE_SIZE _ s (fun v t => exists a', evolves K s l1 a t a' /\ forall x, 0 <= x -> ubyte t a' x = zfill va v (ubyte s a) x)).
  - exists a. split; [by apply evolves_refl|]. intros x _. unfold zfill. rewrite decide_False by lia. done.
  - intros k t Hk (a1 & He & Hsee). eapply wp_mono; [apply (map_one_spec t l1 a1); [apply He| |unfold PAGE_SIZE in *; lia]|].
    + apply aligned_add; [done|]. rewrite Z.mul_comm. apply aligned_mul.
    + intros r u (a2 & He2 & H). destruct r as [rc|]; (exists a2; split; [by eapply evolves_trans|]); [done|].
      intros x Hx. rewrite H by done. unfold zfill at 1. rewrite Hsee by done. unfold zfill. unfold PAGE_SIZE in *.
      repeat case_decide; try lia; done.
  - intros t H. exact H.
Qed.

(** [g] with [n] bytes of the image from [off] on laid over it at [vaddr] *)
Definition overlay (e : list Z) (off vaddr n : Z) (g : Z -> option Z) (x : Z) : option Z :=
  if decide (vaddr <= x < vaddr + n) then Some (default 0 (e !! Z.to_nat (off + (x - vaddr)))) else g x.

Lemma copy_segment_spec e s l1 a off vaddr n : bytes e -> as_ok K s l1 a -> 0 <= off -> 0 <= n -> off + n <= Z.of_nat (length e) -> 0 <= vaddr < 2 ^ 32 ->
  (vaddr <= USER_VA_MAX -> vaddr + n <= USER_VA_MAX) ->
  cok (copy_segment l1 e off vaddr n) s (fun r s' => evolves K s l1 a s' a /\
    match r with Some rc => rc < 0 | None => forall x, 0 <= x -> ubyte s' a x = overlay e off vaddr n (ubyte s a) x end).
Proof.
  intros He Ha Hoff Hn Hend Hv Hr. unfold copy_segment.
  apply (cok_iterC _ 0 _ s (fun j t => (0 < j -> vaddr <= USER_VA_MAX) /\ evolves K s l1 a t a /\ forall x, 0 <= x -> ubyte t a x = overlay e off vaddr j (ubyte s a) x)).
  - split; [lia|]. split; [by apply evolves_refl|]. intros x _. unfold overlay. by rewrite decide_False by lia.
  - intros j t Hj (Hle & Hev & Hsee). rewrite Z2Nat.id in Hj by lia. apply cok_bind, cok_run. unfold wp. pose proof (u32_range (vaddr + j)) as Hu.
    rewrite (vm_walk_eq K HK t l1 a) by (try done; apply Hev). cbn [fst snd].
    destruct (pages a !! vpn (vaddr +w j)) as [f|] eqn:Hf; [|rewrite Z.eqb_refl; apply cok_ret; split; [done|lia]].
    destruct (as_frame K s l1 a (RPage _) f Ha Hf) as (_ & Hpos & _). pose proof (Z.mod_pos_bound (vaddr +w j) 4096 ltac:(lia)) as Hm.
    rewrite (proj2 (Z.eqb_neq _ _)) by lia.
    assert (Hle' : vaddr <= USER_VA_MAX).
    { destruct (decide (0 < j)); [by apply Hle|]. destruct (as_pages _ _ _ _ Ha _ _ Hf) as [Hp _]. revert Hp. rewrite u32_small by lia.
      unfold vpn, USER_VA_MAX. intros. Z.div_mod_to_equations. lia. }
    specialize (Hr Hle'). assert (Hsmall : vaddr +w j = vaddr + j) by (apply u32_small; unfold USER_VA_MAX in *; lia).
    apply cok_bind, cok_lift. assert (Hin : 0 <= off + j < Z.of_nat (length e)) by lia.
    destruct (lookup_lt_is_Some_2 e (Z.to_nat (off + j))) as [b Hb]; [lia|]. rewrite (aref_ok e (off + j) b) by (try done; lia). cbn [ok].
    apply cok_bind, cok_run. eapply wp_mono; [apply (store_byte_spec K t l1 a (vaddr +w j) f b); [apply Hev|lia|done]|].
    intros [] u [Hev' _ Hsee']. apply cok_ret. split; [done|]. split; [by eapply evolves_trans|].
    rewrite Hsmall in Hsee'. intros x Hx. rewrite Hsee' by done. case_decide as Ex.
    + subst x. unfold overlay. rewrite decide_True by lia. replace (off + (vaddr + j - vaddr)) with (off + j) by lia. rewrite Hb. cbn. f_equal.
      apply u8_small. by apply (Forall_lookup_1 _ _ _ _ He Hb).
    + rewrite Hsee by done. unfold overlay. destruct (decide (vaddr <= x < vaddr + j)); [by rewrite decide_True by lia|]. by rewrite decide_False by lia.
  - rewrite Z.add_0_l, Z2Nat.id by lia. intros t (_ & H). exact H.
Qed.

(** ** The program *)

Definition seg : Type := Z * Z * Z * Z.

(** What a segment (offset, address, sizes in the file and in memory) makes of
    the memory: its pages, with the part that is in the file.  A segment above
    the user range that passes the checks of the loader has nothing to load. *)
Definition seg_see (e : list Z) (g : Z -> option Z) (sg : seg) : Z -> option Z :=
  let '(off, vaddr, filesz, memsz) := sg in
  if vaddr <=? USER_VA_MAX then overlay e off vaddr filesz (zfill (page_down vaddr) (page_up (vaddr + memsz)) g) else g.

Lemma seg_bounds vaddr memsz : 0 <= vaddr -> 0 <= memsz -> vaddr + memsz <= USER_VA_MAX ->
  seg_start vaddr = page_down vaddr /\ seg_end vaddr memsz = page_up (vaddr + memsz).
Proof.
  intros H1 H2 H3. unfold seg_start, seg_end, PAGE_MASK, USER_VA_MAX in *. split.
  - apply (land_lnot_ones vaddr 12); lia.
  - rewrite (u32_small (vaddr + memsz)) by lia. change (PAGE_SIZE - 1) with (2 ^ 12 - 1). rewrite align_up by lia.
    unfold page_up, page_down, PAGE_SIZE. change (2 ^ 12 - 1) with (4096 - 1). change (2 ^ 12) with 4096. Z.div_mod_to_equations. lia.
Qed.

Lemma mask_page x : 0 <= x < 2 ^ 32 -> let y := x .& .~ PAGE_MASK in aligned PAGE_SIZE y /\ 0 <= y <= x.
Proof.
  intros Hx. assert (E : x .& .~ PAGE_MASK = x - x mod 2 ^ 12) by (apply (land_lnot_ones x 12); lia).
  cbn zeta. rewrite E. unfold aligned, PAGE_SIZE. Z.div_mod_to_equations. lia.
Qed.

Lemma user_byte s l1 a x : as_ok K s l1 a -> 0 <= x -> is_Some (ubyte s a x) -> x < USER_VA_MAX.
Proof.
  intros Ha Hx [b Hb]. unfold ubyte in Hb. destruct (pages a !! vpn x) as [f|] eqn:Hf; [|done].
  destruct (as_pages _ _ _ _ Ha _ _ Hf) as [Hp _]. unfold vpn, USER_VA_MAX in *. Z.div_mod_to_equations. lia.
Qed.

(** Mapping and copying one segment. *)
Lemma segment_spec e s l1 a off vaddr filesz memsz : bytes e -> as_ok K s l1 a ->
  0 <= off -> 0 <= filesz <= memsz -> off + filesz <= Z.of_nat (length e) -> 0 <= vaddr < 2 ^ 32 -> 0 <= memsz < 2 ^ 32 ->
  (vaddr <= USER_VA_MAX -> vaddr + memsz <= USER_VA_MAX) ->
  cok (r ← run (map_segment l1 (seg_start vaddr) (Z.to_nat ((seg_end vaddr memsz - seg_start vaddr) / PAGE_SIZE)));
       match r with Some rc => mret (Some rc) | None => copy_segment l1 e off vaddr filesz end) s
    (fun r s' => exists a', evolves K s l1 a s' a' /\
      match r with Some rc => rc < 0 | None => forall x, 0 <= x -> ubyte s' a' x = seg_see e (ubyte s a) (off, vaddr, filesz, memsz) x end).
Proof.
  intros He Ha Hoff Hfm Hend Hv Hm Hr.
  destruct (mask_page vaddr Hv) as [Hal1 Hle1]. destruct (mask_page (vaddr +w memsz +w PAGE_MASK) (u32_range _)) as [Hal2 Hle2].
  fold (seg_start vaddr) in *. fold (seg_end vaddr memsz) in *. pose proof (u32_range (vaddr +w memsz + PAGE_MASK)) as Hu.
  set (lo := seg_start vaddr) in *. set (hi := seg_end vaddr memsz) in *. set (n := Z.to_nat ((hi - lo) / PAGE_SIZE)).
  assert (Hn : Z.of_nat n * PAGE_SIZE = Z.max 0 (hi - lo)).
  { clearbody lo hi. unfold n, aligned, PAGE_SIZE in *. clear -Hal1 Hal2. Z.div_mod_to_equations. lia. }
  apply cok_bind, cok_run. eapply wp_mono; [apply (map_segment_spec s l1 a lo n Ha Hal1); unfold PAGE_SIZE in *; lia|].
  intros r t (a' & Hev & H). destruct r as [rc|]; [apply cok_ret; eauto|].
  eapply cok_mono; [apply (copy_segment_spec e t l1 a' off vaddr filesz He (ev_ok _ _ _ _ _ _ Hev)); try done; try lia|].
  intros r u [Hev' H']. exists a'. split; [by eapply evolves_trans|]. destruct r as [rc|]; [done|].
  intros x Hx. rewrite H' by done. unfold seg_see. destruct (Z.leb_spec vaddr USER_VA_MAX) as [Hle|Hgt].
  - specialize (Hr Hle). destruct (seg_bounds vaddr memsz) as [E1 E2]; [lia..|]. fold lo in E1. fold hi in E2. rewrite <- E1, <- E2.
    assert (lo <= hi) by (rewrite E1, E2; pose proof (page_down_spec vaddr); pose proof (page_up_spec (vaddr + memsz)); lia).
    unfold overlay. destruct (decide (vaddr <= x < vaddr + filesz)); [done|]. rewrite H by done. unfold zfill.
    rewrite Hn, Z.max_r by lia. by replace (lo + (hi - lo)) with hi by lia.
  - assert (Ez : filesz = 0).
    { destruct (decide (filesz = 0)); [done|]. enough (vaddr < USER_VA_MAX) by lia. apply (user_byte u l1 a'); [apply Hev'|lia|].
      rewrite H' by lia. unfold overlay. rewrite decide_True by lia. eauto. }
    assert (En : Z.of_nat n * PAGE_SIZE = 0).
    { destruct (decide (n = O)) as [->|]; [done|]. enough (lo < USER_VA_MAX).
      { unfold lo, seg_start, USER_VA_MAX, PAGE_MASK in *. change (PAGE_SIZE - 1) with (2 ^ 12 - 1) in *. rewrite land_lnot_ones in * by lia. Z.div_mod_to_equations. lia. }
      apply (user_byte t l1 a'); [apply Hev|lia|]. rewrite H by lia. unfold zfill. rewrite decide_True by (unfold PAGE_SIZE in *; lia). eauto. }
    rewrite Ez. unfold overlay. rewrite decide_False by lia. rewrite H by done. rewrite En. unfold zfill. by rewrite decide_False by lia.
Qed.

(** the segments that the headers [i] to [i + n - 1] of the table describe *)
Definition seg_of (e : list Z) (bias ph : Z) : list seg :=
  match rd32 e (ph + P_TYPE) with
  | Ok t => if t =? PT_LOAD then match read_load e (Z.of_nat (length e)) bias ph with Ok (inr sg) => [sg] | _ => [] end else []
  | _ => []
  end.
Definition segs (e : list Z) (bias phoff phent : Z) (n : nat) (i : Z) : list seg :=
  seqZ i (Z.of_nat n) ≫= fun j => seg_of e bias (phoff + j * phent).

Lemma segs_ext e l : forall g h, (forall x, 0 <= x -> g x = h x) -> forall x, 0 <= x -> fold_left (seg_see e) l g x = fold_left (seg_see e) l h x.
Proof.
  induction l as [|[[[off vaddr] filesz] memsz] l IH]; intros g h H x Hx; [by apply H|]. cbn [fold_left]. apply IH; [|done].
  intros y Hy. unfold seg_see. destruct (vaddr <=? USER_VA_MAX); [unfold overlay, zfill; by rewrite (H y Hy)|by apply H].
Qed.

Lemma segs_cons e bias phoff phent n i : segs e bias phoff phent (S n) i = seg_of e bias (phoff + i * phent) ++ segs e bias phoff phent n (i + 1).
Proof. unfold segs. rewrite seqZ_cons by lia. rewrite bind_cons. do 3 f_equal; lia. Qed.

(** a header that the loader goes past, if it is of a segment, describes one *)
Definition accepted (e : list Z) (bias ph : Z) : Prop :=
  rd32 e (ph + P_TYPE) = Ok PT_LOAD -> exists sg, read_load e (Z.of_nat (length e)) bias ph = Ok (inr sg).

Lemma load_phdr_spec e bias phoff ph l s l1 a : bytes e -> Z.of_nat (length e) < 2 ^ 32 -> 0 <= bias < 2 ^ 32 -> as_ok K s l1 a ->
  0 <= ph -> ph + 32 <= Z.of_nat (length e) ->
  cok (load_phdr l1 e (Z.of_nat (length e)) bias phoff ph l) s (fun r s' => exists a', evolves K s l1 a s' a' /\
    match r with
    | inl rc => rc < 0
    | inr _ => accepted e bias ph /\ forall x, 0 <= x -> ubyte s' a' x = fold_left (seg_see e) (seg_of e bias ph) (ubyte s a) x
    end).
Proof.
  intros He H32 Hb Ha Hph Hend. unfold load_phdr, seg_of, accepted.
  assert (Hstay : forall P : Prop, P -> exists a', evolves K s l1 a s a' /\ P /\ forall x, 0 <= x -> ubyte s a' x = ubyte s a x) by (intros P HP; exists a; split; [by apply evolves_refl|done]).
  assert (Herr : forall rc, rc < 0 -> exists a', evolves K s l1 a s a' /\ rc < 0) by (intros rc Hrc; exists a; split; [by apply evolves_refl|done]).
  apply cok_bind, cok_lift. assert (Ht : ok (rd32 e (ph + P_TYPE)) (fun v => 0 <= v < 2 ^ 32)) by (apply rd32_ok; [done|unfold P_TYPE; lia..|done]).
  destruct (rd32 e (ph + P_TYPE)) as [ptype| |]; [|done..]. cbn [ok]. clear Ht.
  destruct (Z.eqb_spec ptype PT_INTERP) as [->|_].
  - apply cok_bind, cok_lift. eapply ok_mono; [by apply (interp_ok e He H32 ph Hph Hend)|]. intros [rc|p]; intros H; apply cok_ret; [by apply Herr|apply Hstay; by intros [=]].
  - destruct (Z.eqb_spec ptype PT_LOAD) as [->|Hne]; cbn [negb]; [|apply cok_ret; apply Hstay; by intros [=]].
    apply cok_bind, cok_lift. pose proof (load_ok e He H32 ph Hph Hend bias Hb) as Hl.
    destruct (read_load e (Z.of_nat (length e)) bias ph) as [[rc|[[[off vaddr] filesz] memsz]]| |]; cbn [ok] in *; [apply cok_ret; by apply Herr| |done..].
    destruct Hl as (Hoff & Hfm & Hin & Hv & Hm & Hr). pose proof (segment_spec e s l1 a off vaddr filesz memsz He Ha Hoff Hfm Hin Hv Hm Hr) as Hs.
    unfold cok, mbind, C_bind, run in Hs |- *. destruct (map_segment l1 _ _ s) as [[rc|] t]; [exact Hs|].
    destruct (copy_segment l1 e off vaddr filesz t) as [[[rc|] u]| |]; [exact Hs| |exact Hs..].
    destruct Hs as (a' & Hev & Hsee). exists a'. split; [done|]. split; [intros _; by eexists|exact Hsee].
Qed.

Lemma load_phdrs_spec e bias phoff phent l1 : bytes e -> Z.of_nat (length e) < 2 ^ 32 -> 0 <= bias < 2 ^ 32 -> 0 <= phoff -> 32 <= phent ->
  forall n i l s a, 0 <= i -> phoff + (i + Z.of_nat n) * phent <= Z.of_nat (length e) -> as_ok K s l1 a ->
  cok (load_phdrs n i l1 e (Z.of_nat (length e)) bias phoff phent l) s (fun r s' => exists a', evolves K s l1 a s' a' /\
    match r with
    | inl rc => rc < 0
    | inr _ => (forall j, i <= j < i + Z.of_nat n -> accepted e bias (phoff + j * phent)) /\
        forall x, 0 <= x -> ubyte s' a' x = fold_left (seg_see e) (segs e bias phoff phent n i) (ubyte s a) x
    end).
Proof.
  intros He H32 Hb Hoff Hent. induction n as [|n IH]; intros i l s a Hi Hend Ha; cbn [load_phdrs].
  - apply cok_ret. exists a. split; [by apply evolves_refl|]. split; [lia|done].
  - assert (H0 : phoff + i * phent + 32 + (Z.of_nat n) * phent <= Z.of_nat (length e)) by nia. assert (0 <= i * phent) by nia. assert (0 <= Z.of_nat n * phent) by nia.
    apply cok_bind. eapply cok_mono; [apply (load_phdr_spec e bias phoff (phoff + i * phent) l s l1 a); try done; lia|].
    intros [rc|l'] t (a1 & Hev & Hsee); [apply cok_ret; eauto|]. destruct Hsee as [Hacc Hsee].
    eapply cok_mono; [apply (IH (i + 1) l' t a1); [lia|nia|apply Hev]|].
    intros r u (a2 & Hev2 & H2). exists a2. split; [by eapply evolves_trans|]. destruct r as [rc|l'']; [done|]. destruct H2 as [Hall H2].
    split; [intros j Hj; destruct (decide (j = i)) as [->|]; [done|apply Hall; lia]|].
    intros x Hx. rewrite H2, segs_cons, fold_left_app by done. by apply segs_ext.
Qed.

(** ** What a segment's bytes are *)

(** The program header at [ph] is one of a segment with this offset in the file,
    address and sizes in the file and in memory. *)
Definition phdr_seg (e : list Z) (bias ph : Z) (sg : seg) : Prop :=
  let '(off, vaddr, filesz, memsz) := sg in
  rd32 e (ph + P_TYPE) = Ok PT_LOAD /\ rd32 e (ph + P_OFFSET) = Ok off /\ rd32 e (ph + P_VADDR) = Ok (vaddr - bias) /\
  rd32 e (ph + P_FILESZ) = Ok filesz /\ rd32 e (ph + P_MEMSZ) = Ok memsz.

(** [x] is an address of the part of the segment that is in the file. *)
Definition in_file (sg : seg) (x : Z) : Prop := let '(_, vaddr, filesz, _) := sg in vaddr <= x < vaddr + filesz.

Lemma read_load_seg e bias ph sg : bytes e -> Z.of_nat (length e) < 2 ^ 32 -> 0 <= ph -> ph + 32 <= Z.of_nat (length e) -> 0 <= bias < 2 ^ 32 ->
  rd32 e (ph + P_TYPE) = Ok PT_LOAD -> read_load e (Z.of_nat (length e)) bias ph = Ok (inr sg) -> phdr_seg e bias ph sg.
Proof.
  intros He H32 Hph Hend Hb Ht Hr.
  assert (Hv : ok (rd32 e (ph + P_VADDR)) (fun v => 0 <= v < 2 ^ 32)) by (apply rd32_ok; [done|unfold P_VADDR; lia..|done]).
  unfold read_load in Hr. destruct (rd32 e (ph + P_OFFSET)) as [off| |] eqn:E1; [|done..]. destruct (rd32 e (ph + P_VADDR)) as [vraw| |] eqn:E2; [|done..].
  destruct (rd32 e (ph + P_FILESZ)) as [filesz| |] eqn:E3; [|done..]. destruct (rd32 e (ph + P_MEMSZ)) as [memsz| |] eqn:E4; [|done..].
  cbn [mbind outcome_bind] in Hr. destruct (_ || _); [done|]. destruct (memsz <? filesz); [done|]. cbn [orb] in Hr.
  destruct (Z.ltb_spec (vraw +w bias) bias) as [|Hge]; [done|]. cbn [orb] in Hr. destruct (_ <? memsz); [done|]. injection Hr as <-.
  cbn in Hv. unfold phdr_seg. rewrite E1, E2, E3, E4. split; [done|]. split; [done|]. split; [|done]. f_equal.
  destruct (decide (vraw + bias < 2 ^ 32)) as [Hs|Hs]; [rewrite u32_small by lia; lia|].
  exfalso. assert (vraw +w bias = vraw + bias - 2 ^ 32) as E; [|lia]. symmetry. apply (Z.mod_unique_pos _ _ 1); lia.
Qed.

Lemma phdr_seg_unique e bias ph sg sg' : phdr_seg e bias ph sg -> phdr_seg e bias ph sg' -> sg = sg'.
Proof.
  destruct sg as [[[o v] f] m], sg' as [[[o' v'] f'] m']. intros (_ & H1 & H2 & H3 & H4) (_ & H1' & H2' & H3' & H4').
  rewrite H1 in H1'. rewrite H2 in H2'. rewrite H3 in H3'. rewrite H4 in H4'. repeat f_equal; try congruence. injection H2' as ?. lia.
Qed.

Lemma elem_of_segs e bias phoff phent n i sg : sg ∈ segs e bias phoff phent n i ->
  exists j, i <= j < i + Z.of_nat n /\ rd32 e (phoff + j * phent + P_TYPE) = Ok PT_LOAD /\ read_load e (Z.of_nat (length e)) bias (phoff + j * phent) = Ok (inr sg).
Proof.
  unfold segs. intros (j & Hsg & Hj)%list_elem_of_bind. apply elem_of_seqZ in Hj. exists j. split; [lia|]. unfold seg_of in Hsg.
  destruct (rd32 e (phoff + j * phent + P_TYPE)) as [ty| |]; try (by apply elem_of_nil in Hsg).
  destruct (ty =? PT_LOAD) eqn:Ety; [|by apply elem_of_nil in Hsg]. split; [f_equal; lia|].
  destruct (read_load e _ bias _) as [[rc|sg']| |]; try (by apply elem_of_nil in Hsg). apply list_elem_of_singleton in Hsg. by subst.
Qed.

Lemma segs_split e bias phoff phent n j : 0 <= j < Z.of_nat n ->
  segs e bias phoff phent n 0 =
  segs e bias phoff phent (Z.to_nat j) 0 ++ seg_of e bias (phoff + j * phent) ++ segs e bias phoff phent (Z.to_nat (Z.of_nat n - j - 1)) (j + 1).
Proof.
  intros Hj. unfold segs. rewrite !Z2Nat.id by lia. replace (Z.of_nat n) with (j + (1 + (Z.of_nat n - j - 1))) at 1 by lia.
  rewrite seqZ_app, bind_app by lia. f_equal. rewrite Z.add_0_l, seqZ_app, bind_app by lia. f_equal. rewrite seqZ_cons by lia. by rewrite bind_cons, app_nil_r.
Qed.

(** Segments with no byte of the file at [x] leave it, but for a new page. *)
Lemma segs_elsewhere e l g x : Forall (fun sg => ~ in_file sg x) l ->
  fold_left (seg_see e) l g x = g x \/ g x = None /\ fold_left (seg_see e) l g x = Some 0.
Proof.
  intros Hl. revert g. induction Hl as [|[[[off vaddr] filesz] memsz] l Hn Hl IH]; intros g; [by left|]. cbn [fold_left].
  assert (seg_see e g (off, vaddr, filesz, memsz) x = g x \/ g x = None /\ seg_see e g (off, vaddr, filesz, memsz) x = Some 0) as Hone.
  { unfold seg_see. destruct (vaddr <=? USER_VA_MAX); [|by left]. unfold overlay. rewrite decide_False by exact Hn. unfold zfill.
    case_decide; [|by left]. destruct (g x); [by left|by right]. }
  destruct (IH (seg_see e g (off, vaddr, filesz, memsz))) as [E|[E E']]; rewrite ?E, ?E'; [exact Hone|].
  destruct Hone as [Ho|[Ho Ho']]; [right; split; [congruence|done]|congruence].
Qed.

Lemma segs_byte e l1 l2 off vaddr filesz memsz g x : 0 <= vaddr <= USER_VA_MAX -> 0 <= filesz -> vaddr <= x < vaddr + memsz -> g x = None ->
  Forall (fun sg => ~ in_file sg x) (l1 ++ l2) ->
  fold_left (seg_see e) (l1 ++ [(off, vaddr, filesz, memsz)] ++ l2) g x =
  Some (if x <? vaddr + filesz then default 0 (e !! Z.to_nat (off + (x - vaddr))) else 0).
Proof.
  intros Hv Hf Hx Hg [H1 H2]%Forall_app. rewrite fold_left_app. cbn [app fold_left]. set (g1 := fold_left (seg_see e) l1 g).
  assert (Hg1 : default 0 (g1 x) = 0) by (destruct (segs_elsewhere e l1 g x H1) as [E|[_ E]]; unfold g1; rewrite E, ?Hg; done).
  assert (Hsee : seg_see e g1 (off, vaddr, filesz, memsz) x = Some (if x <? vaddr + filesz then default 0 (e !! Z.to_nat (off + (x - vaddr))) else 0)).
  { unfold seg_see. rewrite (proj2 (Z.leb_le _ _)) by lia. unfold overlay. destruct (Z.ltb_spec x (vaddr + filesz)); [by rewrite decide_True by lia|].
    rewrite decide_False by lia. unfold zfill. pose proof (page_down_spec vaddr). pose proof (page_up_spec (vaddr + memsz)). rewrite decide_True by lia. by rewrite Hg1. }
  destruct (segs_elsewhere e l2 (seg_see e g1 (off, vaddr, filesz, memsz)) x H2) as [E|[E _]]; [by rewrite E|congruence].
Qed.

(** C23. Loading any image, well formed or not, is safe: no byte outside the
    image is read, the loop ends, frames of others and their contents are kept
    and only free frames are taken.  When it succeeds, the image has the header
    of an ARM executable with its program header table inside, and the
    program's memory is what was there (zero in pages that are new) with the
    part of every PT_LOAD segment that is in the file laid over it, in order.
    So an address of a segment that begins in the user range, and that was not
    mapped before, holds the segment's byte of the file, or zero beyond the part
    in the file, as long as the part in the file of no other segment covers it;
    where segments overlap, the zeros of one are not written over the bytes of
    another. *)
Theorem elf_load_correct e bias s l1 a :
  bytes e -> Z.of_nat (length e) < 2 ^ 32 -> 0 <= bias < 2 ^ 32 -> as_ok K s l1 a ->
  exists r s' a', elf_load l1 e (Z.of_nat (length e)) bias s = Ok (r, s') /\ evolves K s l1 a s' a' /\
  match r with
  | inl rc => rc < 0
  | inr info => exists etype phoff, read_header e (Z.of_nat (length e)) bias = Ok (inr (etype, phoff, ei_phent info, ei_phnum info)) /\
      phoff + ei_phnum info * ei_phent info <= Z.of_nat (length e) /\
      (forall x, 0 <= x -> ubyte s' a' x = fold_left (seg_see e) (segs e bias phoff (ei_phent info) (Z.to_nat (ei_phnum info)) 0) (ubyte s a) x) /\
      (forall j off vaddr filesz memsz, 0 <= j < ei_phnum info -> phdr_seg e bias (phoff + j * ei_phent info) (off, vaddr, filesz, memsz) ->
         vaddr <= USER_VA_MAX -> vaddr + memsz <= USER_VA_MAX /\
         forall x, vaddr <= x < vaddr + memsz -> ubyte s a x = None ->
           (forall j' sg, 0 <= j' < ei_phnum info -> j' <> j -> phdr_seg e bias (phoff + j' * ei_phent info) sg -> ~ in_file sg x) ->
           ubyte s' a' x = Some (if x <? vaddr + filesz then default 0 (e !! Z.to_nat (off + (x - vaddr))) else 0))
  end.
Proof.
  intros He H32 Hb Ha.
  enough (H : cok (elf_load l1 e (Z.of_nat (length e)) bias) s (fun r s' => exists a', evolves K s l1 a s' a' /\
    match r with
    | inl rc => rc < 0
    | inr info => exists etype phoff, read_header e (Z.of_nat (length e)) bias = Ok (inr (etype, phoff, ei_phent info, ei_phnum info)) /\
      (0 <= phoff /\ 32 <= ei_phent info /\ 0 <= ei_phnum info /\ phoff + ei_phnum info * ei_phent info <= Z.of_nat (length e)) /\
      (forall j, 0 <= j < ei_phnum info -> accepted e bias (phoff + j * ei_phent info)) /\
      forall x, 0 <= x -> ubyte s' a' x = fold_left (seg_see e) (segs e bias phoff (ei_phent info) (Z.to_nat (ei_phnum info)) 0) (ubyte s a) x
    end)).
  { apply cok_ex in H as (r & s' & E & a' & Hev & H). exists r, s', a'. split; [done|]. split; [done|]. destruct r as [rc|info]; [done|].
    destruct H as (etype & phoff & Eh & (Hoff & Hent & Hnum & Hin) & Hacc & Hsee). exists etype, phoff. split; [done|]. split; [done|]. split; [done|].
    assert (Hph : forall j, 0 <= j < ei_phnum info -> 0 <= phoff + j * ei_phent info /\ phoff + j * ei_phent info + 32 <= Z.of_nat (length e)) by (intros j Hj; nia).
    intros j off vaddr filesz memsz Hj Hsg Hv. destruct (Hph j Hj) as [Hp1 Hp2]. destruct (Hacc j Hj) as [sg Hload]; [apply Hsg|].
    pose proof (read_load_seg e bias _ sg He H32 Hp1 Hp2 Hb (proj1 Hsg) Hload) as Hsg'. rewrite (phdr_seg_unique _ _ _ _ _ Hsg' Hsg) in Hload. clear sg Hsg'.
    pose proof (load_ok e He H32 _ Hp1 Hp2 bias Hb) as Hok. rewrite Hload in Hok. cbn in Hok. destruct Hok as (_ & Hf & _ & Hv' & _ & Hmax).
    split; [by apply Hmax|]. intros x Hx Hnew Hothers. rewrite Hsee by lia. rewrite (segs_split _ _ _ _ _ j) by lia.
    assert (Eseg : seg_of e bias (phoff + j * ei_phent info) = [(off, vaddr, filesz, memsz)]) by (unfold seg_of; rewrite (proj1 Hsg), Z.eqb_refl; by rewrite Hload).
    rewrite Eseg. apply segs_byte; [lia|lia|done|done|]. apply Forall_forall. intros sg [Hin1|Hin1]%elem_of_app;
      apply elem_of_segs in Hin1 as (j' & Hj' & Ht & Hl); (apply (Hothers j'); [lia|lia|]); destruct (Hph j' ltac:(lia)) as [? ?]; by apply read_load_seg. }
  unfold elf_load. apply cok_bind, cok_lift. pose proof (header_ok e He H32 bias) as Hh.
  destruct (read_header e (Z.of_nat (length e)) bias) as [[rc|[[[etype phoff] phent] phnum]]| |] eqn:Eh; cbn [ok] in Hh |- *; [| |done..].
  { apply cok_ret. exists a. split; [by apply evolves_refl|done]. }
  destruct Hh as (H52 & Hoff & Hent & Hnum & Hin). apply cok_bind.
  eapply cok_mono; [apply (load_phdrs_spec e bias phoff phent l1 He H32 Hb Hoff Hent (Z.to_nat phnum) 0 (Scan 0 0 None) s a); [lia|lia|done]|].
  intros [rc|l] t (a' & Hev & H); [apply cok_ret; eauto|].
  apply cok_bind, cok_lift. apply rd32_ok; [done|unfold E_ENTRY; lia..|]. intros entry _. apply cok_ret. exists a'. split; [done|].
  exists etype, phoff. split; [done|]. cbn [ei_phent ei_phnum]. split; [split; [lia|split; [lia|split; [lia|done]]]|].
  destruct H as [Hacc H]. split; [intros j Hj; apply Hacc; lia|exact H].
Qed.
End load.

(** ** A small program *)

Definition le2 (v : Z) : list Z := [v mod 256; v / 256].
Definition le4 (v : Z) : list Z := [v mod 256; v / 256 mod 256; v / 65536 mod 256; v / 16777216].

(** an ET_EXEC image with one segment: the whole file, at 0x10000 *)
Definition demo_elf : list Z :=
  Eval vm_compute in
  [127; 69; 76; 70; 1; 1; 1; 0; 0; 0; 0; 0; 0; 0; 0; 0] ++ le2 ET_EXEC ++ le2 40 ++ le4 1 ++ le4 0x10054 ++ le4 52 ++ le4 0 ++ le4 0 ++
  le2 52 ++ le2 32 ++ le2 1 ++ le2 0 ++ le2 0 ++ le2 0 ++
  le4 PT_LOAD ++ le4 0 ++ le4 0x10000 ++ le4 0x10000 ++ le4 88 ++ le4 100 ++ le4 5 ++ le4 4096 ++ [7; 0; 160; 227].

Lemma elf_load_correct_witness :
  exists info s' a', elf_load demo_l1 demo_elf (Z.of_nat (length demo_elf)) 0 demo_vm1 = Ok (inr info, s') /\
    ubyte s' a' 0x10056 = Some 160 /\ ubyte s' a' 0x10060 = Some 0 /\ ubyte s' a' 0x20000 = None.
Proof.
  assert (E : match elf_load demo_l1 demo_elf (Z.of_nat (length demo_elf)) 0 demo_vm1 with Ok (inr _, _) => true | _ => false end = true) by (vm_compute; reflexivity).
  destruct (elf_load_correct kmap kmap_not_coarse demo_elf 0 demo_vm1 demo_l1 (AS ∅ ∅)) as (r & s' & a' & E1 & _ & H).
  - unfold bytes. apply (bool_decide_unpack _). vm_compute. exact I.
  - cbn. lia.
  - lia.
  - exact demo_as1.
  - rewrite E1 in E. destruct r as [rc|info]; [discriminate E|]. clear E. destruct H as (etype & phoff & Eh & _ & H & _).
    assert (Eh' : read_header demo_elf (Z.of_nat (length demo_elf)) 0 = Ok (inr (2, 52, 32, 1))) by (vm_compute; reflexivity).
    rewrite Eh' in Eh. injection Eh as _ E2 E3 E4. rewrite <- E2, <- E3, <- E4 in H. exists info, s', a'. split; [exact E1|].
    split; [|split]; (rewrite H by lia; vm_compute; reflexivity).
Defined.
