(* ===== verification/Kern.v ===== *)
(** The state of the whole kernel.

    One physical memory serves the heap, the file system and the page tables:
    the address-space operations of [Vm] see it through [kvm], the file layer
    through [kio].  The processor's part of the state is the VFP register file,
    the thread pointer and the memory behind the data cache. *)

From stdpp Require Import gmap list fin_maps.
From Stdlib Require Import ZArith Lia.
From S2P Require Import Prelude Memory Checked Frames Kmalloc KernMem Vm Ramfs Proc File FsSyscall.

Section model.
Context {A : Type} {FA : FrameAlloc A}.

(** [g_ticks]: the counter of the timer interrupt in [main.c] *)
Record kern := Kern { kio : io (kmem A); kwm : mem; khw : list hwop; kbase : Z; cpu_vfp : list Z; cpu_tls : Z; g_ticks : Z }.

Definition kfp (k : kern) : fp (kmem A) := iofp (kio k).
Definition kfs (k : kern) : fs (kmem A) := fsys (kfp k).
Definition ksch (k : kern) : sched := psch (kfp k).
Definition kvm (k : kern) : vms A := Vms (kphys (fmem (kfs k))) (kwm k) (khw k) (kbase k).

Definition set_kio v k := Kern v (kwm k) (khw k) (kbase k) (cpu_vfp k) (cpu_tls k) (g_ticks k).
Definition set_kfp v k := set_kio (set_iofp v (kio k)) k.
Definition set_ksch v k := set_kfp (set_psch v (kfp k)) k.
Definition set_kvm (v : vms A) (k : kern) : kern :=
  Kern (set_iofp (set_fsys (set_fmem (set_kphys (vphys v) (fmem (kfs k))) (kfs k)) (kfp k)) (kio k))
    (wm v) (hwlog v) (l1_pa v) (cpu_vfp k) (cpu_tls k) (g_ticks k).
Definition set_cpu v t k := Kern (kio k) (kwm k) (khw k) (kbase k) v t (g_ticks k).
Definition set_ticks v k := Kern (kio k) (kwm k) (khw k) (kbase k) (cpu_vfp k) (cpu_tls k) v.

Definition in_kio {R} : M (io (kmem A)) R -> M kern R := zoom kio set_kio.
Definition in_kfp {R} : M (fp (kmem A)) R -> M kern R := zoom kfp set_kfp.
Definition in_kfs {R} (c : M (fs (kmem A)) R) : M kern R := in_kfp (in_fs c).
Definition in_ksch {R} : M sched R -> M kern R := zoom ksch set_ksch.
Definition in_vm {R} : M (vms A) R -> M kern R := zoom kvm set_kvm.

(** [proc_current()] *)
Definition proc_current : M kern nat := gets (fun k => default O (cur (ksch k))).
Definition cur_proc (k : kern) : proc := proc_at (ksch k) (default O (cur (ksch k))).
Definition upd_cur (f : proc -> proc) : M kern unit := c ← proc_current; in_ksch (upd_proc c f).
Definition set_ret (v : Z) : M kern unit := upd_cur (fun p => set_tf (set_reg 0 (u32 v) (tf p)) p).

Definition sync_icache : M (vms A) unit := hw SyncIcache.

(** ** User memory

    A system call dereferences a user pointer through the live page table. *)

(** the table in use: the last write to TTBR0 *)
Fixpoint ttbr0_of (log : list hwop) : Z :=
  match log with
  | [] => 0
  | o :: log' => let r := ttbr0_of log' in
      if existsb (fun o => match o with SetTtbr0 _ => true | _ => false end) log' then r
      else match o with SetTtbr0 v => v | _ => 0 end
  end.

Definition uaddr (k : kern) (va : Z) : outcome Z :=
  match hw_walk (kwm k) (ttbr0_of (khw k)) va with
  | HPage pa _ | HSection pa _ => Ok pa
  | HFault => Fault
  end.

Definition uload (va : Z) : C kern Z := fun k => pa ← uaddr k (u32 va); Ok (ldb (vm_pm (kvm k)) pa, k).
Definition ustore (va v : Z) : C kern unit := fun k =>
  pa ← uaddr k (u32 va); Ok (in_vm (in_phys (upd_pm (fun m => stb m pa v))) k).

(** [n] bytes from [va] *)
Fixpoint uload_bytes (n : nat) (va : Z) : C kern (list Z) :=
  match n with
  | O => mret []
  | S n' => b ← uload va; l ← uload_bytes n' (va + 1); mret (b :: l)
  end.
Fixpoint ustore_bytes (va : Z) (l : list Z) : C kern unit :=
  match l with
  | [] => mret tt
  | b :: l' => ustore va b ≫= fun _ => ustore_bytes (va + 1) l'
  end.

Definition le_word (l : list Z) : Z := foldr (fun b v => b + 256 * v) 0 l.
Definition uload32 (va : Z) : C kern Z := l ← uload_bytes 4 va; mret (le_word l).
Definition ustore32 (va v : Z) : C kern unit := ustore_bytes va (le_bytes 4 v).

(** the C string at [va] *)
Fixpoint uload_str (fuel : nat) (va : Z) : C kern cstr :=
  match fuel with
  | O => fun _ => NoFuel
  | S fuel' => c ← uload va; if c =? 0 then mret [] else s ← uload_str fuel' (va + 1); mret (c :: s)
  end.
End model.

Arguments kern : clear implicits.

(** * The views fit together *)

Section lens.
Context {A : Type}.
Implicit Types (k : kern A) (v w : vms A).

Lemma kvm_set v k : kvm (set_kvm v k) = v.
Proof. by destruct v. Qed.

Lemma set_kvm_kvm k : set_kvm (kvm k) k = k.
Proof. destruct k as [[[[[h t u p] o r n] ps] c] w g b f l q]. done. Qed.

Lemma set_kvm_twice v w k : set_kvm v (set_kvm w k) = set_kvm v k.
Proof. done. Qed.

Lemma ksch_set_kvm v k : ksch (set_kvm v k) = ksch k.
Proof. done. Qed.

Lemma kvm_set_ksch x k : kvm (set_ksch x k) = kvm k.
Proof. done. Qed.

Lemma wp_in_vm {R} (c : M (vms A) R) k (Q : R -> kern A -> Prop) : wp c (kvm k) (fun r v => Q r (set_kvm v k)) -> wp (in_vm c) k Q.
Proof. apply wp_zoom. Qed.

(** slot [c] is the current process *)
Definition running k (c : nat) : Prop := table_ok (ksch k) /\ cur (ksch k) = Some c /\ (c < NPROC)%nat.

Lemma running_proc k c : running k c -> cur_proc k = proc_at (ksch k) c.
Proof. intros (_ & E & _). unfold cur_proc. by rewrite E. Qed.

(** [k] with the current process changed by [f] *)
Definition with_cur (f : proc -> proc) (c : nat) k : kern A := set_ksch (set_proctab (alter f c (proctab (ksch k))) (ksch k)) k.

Lemma upd_cur_eq f k c : running k c -> upd_cur f k = (tt, with_cur f c k).
Proof. intros (_ & E & _). unfold upd_cur, mbind, M_bind, proc_current, gets. by rewrite E. Qed.

Lemma wp_upd_cur f k c (Q : unit -> kern A -> Prop) : running k c -> Q tt (with_cur f c k) -> wp (upd_cur f) k Q.
Proof. intros Hc HQ. unfold wp. by rewrite (upd_cur_eq f k c Hc). Qed.

Lemma with_cur_running f c k : running k c -> running (with_cur f c k) c.
Proof. intros (H1 & H2 & H3). split; [by apply table_ok_upd|]. by split. Qed.

Lemma with_cur_proc f c k j : running k c -> proc_at (ksch (with_cur f c k)) j = if decide (j = c) then f (proc_at (ksch k) c) else proc_at (ksch k) j.
Proof. intros (H1 & H2 & H3). by apply proc_at_upd. Qed.
End lens.
