(* ===== verification/Mmap.v ===== *)
(** The memory system calls, [kernel/mm/mmap.c]: [brk], [mmap2], [munmap] and
    [mprotect] on the address space and the layout pointers of the current
    process. *)

From stdpp Require Import gmap list fin_maps.
From Stdlib Require Import ZArith Lia.
From S2P Require Import Prelude Memory Checked Frames Kmalloc KernMem Vm UserMem Ramfs Proc File FsSyscall Kern.

Definition PROT_EXEC : Z := 4.
Definition MAP_PRIVATE : Z := 2.
Definition MAP_TYPE : Z := 15.
Definition MAP_FIXED : Z := 16.
Definition MAP_ANONYMOUS : Z := 32.
Definition K_ENOSYS : Z := 38.
Definition PG_MASK : Z := PAGE_SIZE - 1.
Definition PAGE_UP (x : Z) : Z := (x +w PG_MASK) .& .~ PG_MASK.

Section model.
Context {A : Type} {FA : FrameAlloc A}.

(** [for (v = lo; v < lo + n * PAGE_SIZE; v += PAGE_SIZE)] drop the page *)
Definition drop_range (l1 lo : Z) (n : nat) : M (vms A) unit := forM n lo PAGE_SIZE (drop_page l1).

(** the grow loop of [sys_brk], with its roll back *)
Definition brk_grow (l1 old_top : Z) (n : nat) : M (vms A) (option unit) :=
  forR n old_top PAGE_SIZE (fun va =>
    ok ← map_fresh l1 va;
    if ok : bool then mret None
    else drop_range l1 old_top (Z.to_nat ((va - old_top) / PAGE_SIZE)) ≫= fun _ => mret (Some tt)).

Definition set_brk v p := set_layout (brk_start p) v (brk_ceiling p) (mmap_top p) p.
Definition set_mmap_top v p := set_layout (brk_start p) (brk p) (brk_ceiling p) v p.

Definition sys_brk (addr : Z) : M (kern A) Z :=
  p ← gets cur_proc;
  let cur_brk := brk p in
  if addr <? brk_start p then mret cur_brk
  else if brk_ceiling p <=? addr then mret cur_brk
  else
    let old_top := PAGE_UP cur_brk in
    let new_top := PAGE_UP addr in
    r ← (if old_top <? new_top then in_vm (brk_grow (p_l1 p) old_top (Z.to_nat ((new_top - old_top) / PAGE_SIZE)))
         else in_vm (drop_range (p_l1 p) new_top (Z.to_nat ((old_top - new_top) / PAGE_SIZE))) ≫= fun _ => mret None);
    match r with
    | Some _ => mret cur_brk
    | None => upd_cur (set_brk addr) ≫= fun _ => mret addr
    end.

Definition map_zeroed_range (l1 base : Z) (npages : nat) : M (vms A) Z :=
  r ← forR npages 0 1 (fun i =>
    let va := base +w i *w PAGE_SIZE in
    drop_page l1 va ≫= fun _ =>
    ok ← map_fresh l1 va;
    if ok : bool then mret None
    else
      forM (Z.to_nat i) 0 1 (fun j => drop_page l1 (base +w j *w PAGE_SIZE)) ≫= fun _ =>
      mret (Some (-1)));
  mret (default 0 r).

(** bytes stored into a frame through the identity map *)
Definition store_bytes (pa : Z) (l : list Z) : M (vms A) unit := in_phys (upd_pm (fun m => poke m pa l)).

(** the copy loop: every round but the last fills a page *)
Fixpoint copy_loop (fuel : nat) (l1 ino va len foff done : Z) : M (kern A) unit :=
  match fuel with
  | O => mret tt
  | S fuel' =>
      if negb (done <? len) then mret tt
      else
        let p_va := va +w done in
        pa ← in_vm (vm_walk l1 (p_va .& .~ PG_MASK));
        if pa =? 0 then mret tt
        else
          let in_pg := p_va .& PG_MASK in
          let chunk := PAGE_SIZE - in_pg in
          let chunk := if len - done <? chunk then len - done else chunk in
          r ← gets (fun k => ramfs_read (kfs k) ino (foff +w done) chunk);
          if r.1 <=? 0 then mret tt
          else
            in_vm (store_bytes (pa + in_pg) r.2) ≫= fun _ =>
            if r.1 <? chunk then mret tt else copy_loop fuel' l1 ino va len foff (done + r.1)
  end.

Definition copy_file_into (l1 va len fd foff : Z) : M (kern A) Z :=
  f ← in_kfp (my_fd fd);
  fl ← in_kfp (get_file f);
  n ← in_kfs (get_inode (f_inode fl));
  if (f =? 0) || (f_inode fl =? 0) || negb (bool_decide (i_type n = RF_REG)) then mret (- K_EACCES)
  else copy_loop (Z.to_nat (len / PAGE_SIZE + 2)) l1 (f_inode fl) va len foff 0 ≫= fun _ => mret 0.

(** where the mapping goes, or the error *)
Definition mmap_base (p : proc) (addr span flags : Z) : Z + Z :=
  if has_flag flags MAP_FIXED then
    if negb (addr .& PG_MASK =? 0) then inl (- K_EINVAL)
    else if (addr <? USER_VA_MIN) || (USER_VA_MAX <? addr +w span) || (addr +w span <? addr) then inl (- K_EINVAL)
    else inr addr
  else if mmap_top p -w USER_VA_MIN <? span then inl (- K_ENOMEM)
  else
    let base := mmap_top p -w span in
    if base <? PAGE_UP (brk p) then inl (- K_ENOMEM) else inr base.

Definition sys_mmap2 (addr len prot flags fd pgoff : Z) : M (kern A) Z :=
  if (len =? 0) || (USER_VA_MAX - USER_VA_MIN <? len) then mret (- K_EINVAL)
  else if negb (flags .& MAP_TYPE =? MAP_PRIVATE) then mret (- K_ENOSYS)
  else
    let file_backed := negb (has_flag flags MAP_ANONYMOUS) in
    if file_backed && (fd <? 0) then mret (- K_EBADF)
    else
      p ← gets cur_proc;
      let npages := PAGE_UP len / PAGE_SIZE in
      let span := npages *w PAGE_SIZE in
      let foff64 := Z.shiftl pgoff 12 in
      if 0xFFFFFFFF <? foff64 then mret (- K_EINVAL)
      else
        match mmap_base p addr span flags with
        | inl rc => mret rc
        | inr base =>
            rc ← in_vm (map_zeroed_range (p_l1 p) base (Z.to_nat npages));
            if negb (rc =? 0) then mret (- K_ENOMEM)
            else
              rc ← (if file_backed then
                      rc ← copy_file_into (p_l1 p) base len fd foff64;
                      if negb (rc =? 0) then
                        in_vm (forM (Z.to_nat npages) 0 1 (fun i => drop_page (p_l1 p) (base +w i *w PAGE_SIZE))) ≫= fun _ => mret rc
                      else (if has_flag prot PROT_EXEC then in_vm sync_icache else mret tt) ≫= fun _ => mret 0
                    else mret 0);
              if negb (rc =? 0) then mret rc
              else
                (if has_flag flags MAP_FIXED then mret tt else upd_cur (set_mmap_top base)) ≫= fun _ =>
                mret base
        end.

Definition sys_munmap (addr len : Z) : M (kern A) Z :=
  if negb (addr .& PG_MASK =? 0) then mret (- K_EINVAL)
  else
    p ← gets cur_proc;
    let end_ := PAGE_UP (addr +w len) in
    in_vm (drop_range (p_l1 p) addr (Z.to_nat ((end_ - addr) / PAGE_SIZE))) ≫= fun _ =>
    (if addr =? mmap_top p then upd_cur (set_mmap_top end_) else mret tt) ≫= fun _ =>
    mret 0.

Definition sys_mprotect (addr len prot : Z) : M (kern A) Z :=
  if negb (addr .& PG_MASK =? 0) then mret (- K_EINVAL) else mret 0.
End model.
