(* ===== verification/MmapCalls.v ===== *)
(** What the memory system calls of [mmap.c] do to the program's memory. *)

From stdpp Require Import gmap list fin_maps.
From Stdlib Require Import ZArith Lia.
From S2P Require Import Prelude Memory Checked Frames Pmm Kmalloc KernMem Vm AddrSpace UserMem Ramfs Proc File FsSyscall Kern Mmap.

(** [g] with nothing, or zeros, from [lo] to [hi] *)
Definition hole (lo hi : Z) (g : Z -> option Z) (x : Z) : option Z := if decide (lo <= x < hi) then None else g x.
Definition zeros (lo hi : Z) (g : Z -> option Z) (x : Z) : option Z := if decide (lo <= x < hi) then Some 0 else g x.

Lemma page_iff va x : aligned PAGE_SIZE va -> vpn x = vpn va <-> va <= x < va + PAGE_SIZE.
Proof. unfold aligned, vpn, PAGE_SIZE. intros. Z.div_mod_to_equations. lia. Qed.

Lemma aligned_step va k : aligned PAGE_SIZE va -> aligned PAGE_SIZE (va + k * PAGE_SIZE).
Proof. intros H. apply aligned_add; [done|]. rewrite Z.mul_comm. apply aligned_mul. Qed.

Section ranges.
Context {A : Type} {FA : FrameAlloc A} {FS : FrameAllocSpec A}.
Context (K : Z -> Z) (HK : forall i, (K i) mod 4 <> 1).
Implicit Types (s t u : vms A) (a b : aspace).

Lemma drop_one s l1 a va : as_ok K s l1 a -> 0 <= va < 2 ^ 32 -> aligned PAGE_SIZE va ->
  wp (drop_page l1 va) s (fun _ s' => exists a', step K s l1 a s' a' (hole va (va + PAGE_SIZE) (ubyte s a))).
Proof.
  intros Ha Hva Hal. eapply wp_mono; [by apply (drop_page_spec K HK s l1 a va)|]. intros [] t Ht. exists (without a (vpn va)).
  eapply step_see; [exact Ht|]. intros x _. unfold hole. pose proof (page_iff va x Hal). destruct (decide (vpn x = vpn va)), (decide (va <= x < va + PAGE_SIZE)); tauto.
Qed.

Lemma map_one s l1 a va : as_ok K s l1 a -> USER_VA_MIN <= va < USER_VA_MAX -> aligned PAGE_SIZE va -> ubyte s a va = None ->
  wp (map_fresh l1 va) s (fun ok s' => exists a', step K s l1 a s' a' (if ok : bool then zeros va (va + PAGE_SIZE) (ubyte s a) else ubyte s a)).
Proof.
  intros Ha Hva Hal Hn. assert (Hp : pages a !! vpn va = None) by (unfold ubyte in Hn; by destruct (pages a !! vpn va)).
  eapply wp_mono; [by apply (map_fresh_spec K HK s l1 a va)|]. intros [] t H; [|by exists a].
  destruct H as (a' & pa & Ht & _). exists a'. eapply step_see; [exact Ht|]. intros x _. unfold zeros. pose proof (page_iff va x Hal).
  destruct (decide (vpn x = vpn va)), (decide (va <= x < va + PAGE_SIZE)); tauto.
Qed.

Lemma drop_range_spec s l1 a lo n : as_ok K s l1 a -> aligned PAGE_SIZE lo -> 0 <= lo -> lo + Z.of_nat n * PAGE_SIZE <= 2 ^ 32 ->
  wp (drop_range l1 lo n) s (fun _ s' => exists a', step K s l1 a s' a' (hole lo (lo + Z.of_nat n * PAGE_SIZE) (ubyte s a))).
Proof.
  intros Ha Hal Hlo Hhi. unfold drop_range. apply (wp_forM n lo PAGE_SIZE _ s (fun v t => exists a', step K s l1 a t a' (hole lo v (ubyte s a)))).
  - exists a. eapply step_see; [by apply step_refl|]. intros x _. unfold hole. by rewrite decide_False by lia.
  - intros k t Hk (a1 & H1). eapply wp_mono; [apply (drop_one t l1 a1); [apply H1|unfold PAGE_SIZE in *; lia|by apply aligned_step]|].
    intros [] u (a2 & H2). exists a2. eapply step_trans; [exact H1|]. eapply step_see; [exact H2|]. intros x Hx. unfold hole at 1.
    rewrite (st_see _ _ _ _ _ _ _ H1 x Hx). unfold hole, PAGE_SIZE in *. repeat case_decide; try lia; done.
Qed.

Lemma brk_grow_spec s l1 a lo n : as_ok K s l1 a -> aligned PAGE_SIZE lo -> USER_VA_MIN <= lo -> lo + Z.of_nat n * PAGE_SIZE <= USER_VA_MAX ->
  (forall x, lo <= x < lo + Z.of_nat n * PAGE_SIZE -> ubyte s a x = None) ->
  wp (brk_grow l1 lo n) s (fun r s' => exists a', step K s l1 a s' a' (match r with
    | None => zeros lo (lo + Z.of_nat n * PAGE_SIZE) (ubyte s a) | Some _ => ubyte s a end)).
Proof.
  intros Ha Hal Hlo Hhi Hfree. unfold brk_grow.
  apply (wp_forR n lo PAGE_SIZE _ s (fun v t => exists a', step K s l1 a t a' (zeros lo v (ubyte s a)))).
  - exists a. eapply step_see; [by apply step_refl|]. intros x _. unfold zeros. by rewrite decide_False by lia.
  - intros k t Hk (a1 & H1). wp_step. set (va := lo + k * PAGE_SIZE) in *. assert (Hva : aligned PAGE_SIZE va) by by apply aligned_step.
    assert (Hr : lo <= va /\ va + PAGE_SIZE <= lo + Z.of_nat n * PAGE_SIZE) by (unfold va, PAGE_SIZE; lia).
    eapply wp_mono; [apply (map_one t l1 a1 va (ev_ok _ _ _ _ _ _ (st_ev _ _ _ _ _ _ _ H1))); [unfold PAGE_SIZE in *; lia|done|]|].
    { rewrite (st_see _ _ _ _ _ _ _ H1) by (unfold USER_VA_MIN in *; lia). unfold zeros. rewrite decide_False by lia. apply Hfree. unfold PAGE_SIZE in *. lia. }
    intros [] u (a2 & H2); cbn beta iota in *; wp_steps.
    + exists a2. eapply step_trans; [exact H1|]. eapply step_see; [exact H2|]. intros x Hx. unfold zeros at 1. rewrite (st_see _ _ _ _ _ _ _ H1 x Hx).
      unfold zeros, va, PAGE_SIZE in *. repeat case_decide; try lia; done.
    + assert (Eva : Z.of_nat (Z.to_nat ((va - lo) / PAGE_SIZE)) * PAGE_SIZE = va - lo) by (unfold va; rewrite Z.add_simpl_l, Z.div_mul, Z2Nat.id by (unfold PAGE_SIZE; lia); done).
      eapply wp_mono; [apply (drop_range_spec u l1 a2 lo); [apply H2|done|unfold USER_VA_MIN in *; lia|rewrite Eva; unfold USER_VA_MAX, PAGE_SIZE in *; lia]|].
      rewrite Eva. intros [] w (a3 & H3). cbn beta. wp_steps. exists a3. eapply step_trans; [exact H1|]. eapply step_trans; [exact H2|]. eapply step_see; [exact H3|].
      intros x Hx. unfold hole. rewrite (st_see _ _ _ _ _ _ _ H2 x Hx), (st_see _ _ _ _ _ _ _ H1 x Hx). unfold zeros.
      repeat case_decide; try lia; [|done]. symmetry. apply Hfree. unfold PAGE_SIZE in *. lia.
  - intros t H. exact H.
Qed.

(** [base + i * PAGE_SIZE] does not wrap inside the user range *)
Lemma page_addr base i n : USER_VA_MIN <= base -> base + n * PAGE_SIZE <= USER_VA_MAX -> 0 <= i < n -> base +w i *w PAGE_SIZE = base + i * PAGE_SIZE.
Proof. unfold USER_VA_MIN, USER_VA_MAX, PAGE_SIZE. intros. u32_simpl. done. Qed.

Lemma drop_each s l1 a base n N : as_ok K s l1 a -> aligned PAGE_SIZE base -> USER_VA_MIN <= base -> base + N * PAGE_SIZE <= USER_VA_MAX -> Z.of_nat n <= N ->
  wp (forM n 0 1 (fun j => drop_page l1 (base +w j *w PAGE_SIZE))) s (fun _ s' => exists a', step K s l1 a s' a' (hole base (base + Z.of_nat n * PAGE_SIZE) (ubyte s a))).
Proof.
  intros Ha Hal Hlo Hhi Hn. eapply wp_mono; [apply (wp_forM n 0 1 _ s (fun j t => exists a', step K s l1 a t a' (hole base (base + j * PAGE_SIZE) (ubyte s a))))|].
  - exists a. eapply step_see; [by apply step_refl|]. intros x _. unfold hole. by rewrite decide_False by lia.
  - intros k t Hk (a1 & H1). rewrite Z.add_0_l, Z.mul_1_r in *. rewrite (page_addr base k N) by lia.
    eapply wp_mono; [apply (drop_one t l1 a1); [apply H1|unfold USER_VA_MIN, USER_VA_MAX, PAGE_SIZE in *; lia|by apply aligned_step]|].
    intros [] u (a2 & H2). exists a2. eapply step_trans; [exact H1|]. eapply step_see; [exact H2|]. intros x Hx. unfold hole at 1.
    rewrite (st_see _ _ _ _ _ _ _ H1 x Hx). unfold hole, PAGE_SIZE in *. repeat case_decide; try lia; done.
  - cbn beta. intros [] t H. by rewrite Z.add_0_l, Z.mul_1_r in H.
Qed.

(** Fresh zeroed pages over the whole range; or the first pages of it are gone. *)
Lemma map_zeroed_range_spec s l1 a base n : as_ok K s l1 a -> aligned PAGE_SIZE base -> USER_VA_MIN <= base -> base + Z.of_nat n * PAGE_SIZE <= USER_VA_MAX ->
  wp (map_zeroed_range l1 base n) s (fun r s' => exists a',
    (r = 0 /\ step K s l1 a s' a' (zeros base (base + Z.of_nat n * PAGE_SIZE) (ubyte s a))) \/
    (r = -1 /\ exists i, 0 <= i < Z.of_nat n /\ step K s l1 a s' a' (hole base (base + (i + 1) * PAGE_SIZE) (ubyte s a)))).
Proof.
  intros Ha Hal Hlo Hhi. unfold map_zeroed_range. wp_step.
  apply (wp_forR n 0 1 _ s (fun i t => exists a', step K s l1 a t a' (zeros base (base + i * PAGE_SIZE) (ubyte s a)))).
  - exists a. eapply step_see; [by apply step_refl|]. intros x _. unfold zeros. by rewrite decide_False by lia.
  - intros k t Hk (a1 & H1). rewrite Z.add_0_l, Z.mul_1_r in *. cbn zeta. rewrite (page_addr base k (Z.of_nat n)) by lia. set (va := base + k * PAGE_SIZE) in *.
    assert (Hva : aligned PAGE_SIZE va) by by apply aligned_step.
    assert (Hr : base <= va /\ va + PAGE_SIZE <= base + Z.of_nat n * PAGE_SIZE) by (unfold va, PAGE_SIZE; lia).
    assert (Hb : USER_VA_MIN <= va < USER_VA_MAX /\ 0 <= va < 2 ^ 32) by (unfold USER_VA_MIN, USER_VA_MAX, PAGE_SIZE in *; lia).
    wp_step. eapply wp_mono; [apply (drop_one t l1 a1 va); [apply H1|lia|done]|]. intros [] t2 (a2 & H2). cbn beta. wp_step.
    eapply wp_mono; [apply (map_one t2 l1 a2 va); [apply H2|lia|done|]|].
    { rewrite (st_see _ _ _ _ _ _ _ H2) by lia. unfold hole. by rewrite decide_True by (unfold PAGE_SIZE; lia). }
    assert (H12 : forall x, 0 <= x -> ubyte t2 a2 x = hole va (va + PAGE_SIZE) (zeros base va (ubyte s a)) x).
    { intros x Hx. rewrite (st_see _ _ _ _ _ _ _ H2 x Hx). unfold hole. case_decide; [done|]. by rewrite (st_see _ _ _ _ _ _ _ H1 x Hx). }
    intros [] u (a3 & H3); cbn beta iota in *; wp_steps.
    + exists a3. eapply step_trans; [exact H1|]. eapply step_trans; [exact H2|]. eapply step_see; [exact H3|]. intros x Hx. unfold zeros at 1. rewrite (H12 x Hx).
      unfold zeros, hole, va, PAGE_SIZE in *. repeat case_decide; try lia; done.
    + eapply wp_mono; [apply (drop_each u l1 a3 base (Z.to_nat k) (Z.of_nat n)); [apply H3|done|done|done|lia]|]. rewrite Z2Nat.id by lia.
      intros [] w (a4 & H4). cbn beta. wp_steps. exists a4. right. split; [done|]. exists k. split; [done|].
      eapply step_trans; [exact H1|]. eapply step_trans; [exact H2|]. eapply step_trans; [exact H3|]. eapply step_see; [exact H4|].
      intros x Hx. unfold hole at 1. rewrite (st_see _ _ _ _ _ _ _ H3 x Hx), (H12 x Hx). unfold hole, zeros, va, PAGE_SIZE in *.
      repeat case_decide; try lia; done.
  - intros t (a1 & H1). wp_steps. rewrite Z.add_0_l, Z.mul_1_r in *. exists a1. by left.
Qed.
End ranges.

(** * The calls *)

Section calls.
Context {A : Type} {FA : FrameAlloc A} {FS : FrameAllocSpec A}.
Context (K : Z -> Z) (HK : forall i, (K i) mod 4 <> 1).
Implicit Types (k : kern A) (a b : aspace).

Lemma PAGE_UP_eq x : 0 <= x -> x + PAGE_SIZE <= 2 ^ 32 -> PAGE_UP x = page_up x.
Proof.
  intros H1 H2. unfold PAGE_UP, PG_MASK, page_up, page_down, PAGE_SIZE in *. change (4096 - 1) with (2 ^ 12 - 1).
  rewrite align_up by lia. change (2 ^ 12) with 4096. Z.div_mod_to_equations. lia.
Qed.

(** The layout of a process: break and ceiling in the user range. *)
Record layout_ok k a (p : proc) : Prop := {
  lay_as : as_ok K (kvm k) (p_l1 p) a;
  lay_brk : USER_VA_MIN <= brk_start p /\ brk_start p <= brk p;
  lay_ceiling : brk p <= brk_ceiling p <= USER_VA_MAX - PAGE_SIZE;
}.

(** what the program sees after the break went from [old] to [new] *)
Definition brk_see (old new : Z) (g : Z -> option Z) : Z -> option Z :=
  hole (page_up new) (page_up old) (zeros (page_up old) (page_up new) g).

Lemma page_up_mono x y : x <= y -> page_up x <= page_up y.
Proof. unfold page_up, page_down, PAGE_SIZE. intros. Z.div_mod_to_equations. lia. Qed.

Lemma pages_between lo hi : aligned PAGE_SIZE lo -> aligned PAGE_SIZE hi -> lo <= hi -> lo + Z.of_nat (Z.to_nat ((hi - lo) / PAGE_SIZE)) * PAGE_SIZE = hi.
Proof. unfold aligned, PAGE_SIZE. intros. Z.div_mod_to_equations. lia. Qed.

(** C33. [sys_brk], called with nothing mapped in the pages the break would grow
    over (the code does not look, and a MAP_FIXED mapping there would be lost),
    either refuses, returning the current break and leaving the program's
    memory and the process as they were (also when memory runs out half way),
    or moves the break: the new pages are zero, the pages given up are gone,
    every other byte is kept; no frame is leaked and nothing of anybody else is
    touched. *)
Theorem sys_brk_correct k c a addr r k' :
  running k c -> layout_ok k a (cur_proc k) -> 0 <= addr < 2 ^ 32 ->
  (forall x, page_up (brk (cur_proc k)) <= x < page_up addr -> ubyte (kvm k) a x = None) ->
  sys_brk addr k = (r, k') ->
  let p := cur_proc k in
  exists a', objs (kfs k') = objs (kfs k) /\
  ((r = brk p /\ ksch k' = ksch k /\ step K (kvm k) (p_l1 p) a (kvm k') a' (ubyte (kvm k) a)) \/
   (r = addr /\ brk_start p <= addr < brk_ceiling p /\ ksch k' = ksch (with_cur (set_brk addr) c k) /\
    step K (kvm k) (p_l1 p) a (kvm k') a' (brk_see (brk p) addr (ubyte (kvm k) a)))).
Proof.
  intros Hc Hl Haddr Hfree E. refine (wp_eq _ _ _ _ (fun r k' => let p := cur_proc k in exists a', _) E _). clear r k' E.
  destruct Hl as [Ha [Hb1 Hb2] Hceil]. set (p := cur_proc k) in *. unfold USER_VA_MIN, USER_VA_MAX in *.
  assert (Hnop : exists a', objs (kfs k) = objs (kfs k) /\ ((brk p = brk p /\ ksch k = ksch k /\ step K (kvm k) (p_l1 p) a (kvm k) a' (ubyte (kvm k) a)) \/
    (brk p = addr /\ brk_start p <= addr < brk_ceiling p /\ ksch k = ksch (with_cur (set_brk addr) c k) /\
    step K (kvm k) (p_l1 p) a (kvm k) a' (brk_see (brk p) addr (ubyte (kvm k) a))))).
  { exists a. split; [done|]. left. split; [done|]. split; [done|]. by apply step_refl. }
  unfold sys_brk. wp_steps. fold p. destruct (Z.ltb_spec addr (brk_start p)); [wp_steps; exact Hnop|].
  destruct (Z.leb_spec (brk_ceiling p) addr); [wp_steps; exact Hnop|]. clear Hnop.
  rewrite !PAGE_UP_eq by (unfold PAGE_SIZE in *; lia).
  destruct (page_up_spec (brk p)) as [Hal1 Hr1], (page_up_spec addr) as [Hal2 Hr2].
  pose proof (page_up_mono addr (brk_ceiling p) ltac:(lia)) as Hm. pose proof (page_up_spec (brk_ceiling p)) as [_ Hr3].
  wp_step. destruct (Z.ltb_spec (page_up (brk p)) (page_up addr)) as [Hgrow|Hshrink].
  - apply wp_in_vm. eapply wp_mono; [apply (brk_grow_spec K HK (kvm k) (p_l1 p) a (page_up (brk p)) _ Ha Hal1)|].
    + unfold USER_VA_MIN. lia.
    + rewrite pages_between by (try done; lia). unfold USER_VA_MAX, PAGE_SIZE in *. lia.
    + rewrite pages_between by (try done; lia). intros x Hx. apply Hfree. lia.
    + rewrite pages_between by (try done; lia). intros [[]|] t (a' & Ht); cbn beta in Ht; wp_steps.
      * exists a'. split; [done|]. left. split; [done|]. split; [done|]. by rewrite kvm_set.
      * apply (wp_upd_cur _ _ c); [exact Hc|]. wp_steps. exists a'. split; [done|]. right. split; [done|]. split; [done|]. split; [done|].
        unfold with_cur. rewrite kvm_set_ksch, kvm_set. eapply step_see; [exact Ht|]. intros x _. unfold brk_see, hole, zeros. repeat case_decide; try lia; done.
  - wp_step. apply wp_in_vm. eapply wp_mono; [apply (drop_range_spec K HK (kvm k) (p_l1 p) a (page_up addr) _ Ha Hal2)|].
    + lia.
    + rewrite pages_between by (try done; lia). unfold PAGE_SIZE in *. lia.
    + rewrite pages_between by (try done; lia). intros [] t (a' & Ht). cbn beta in Ht. wp_steps. apply (wp_upd_cur _ _ c); [exact Hc|]. wp_steps.
      exists a'. split; [done|]. right. split; [done|]. split; [done|]. split; [done|].
      unfold with_cur. rewrite kvm_set_ksch, kvm_set. eapply step_see; [exact Ht|]. intros x _. unfold brk_see, hole, zeros. repeat case_decide; try lia; done.
Qed.

Lemma land_pg_mask x : x .& PG_MASK = x mod PAGE_SIZE.
Proof. unfold PG_MASK, PAGE_SIZE. change (4096 - 1) with (2 ^ 12 - 1). apply land_ones_mod. lia. Qed.

(** The size of a mapping of [len] bytes. *)
Lemma span_eq len : 0 < len <= USER_VA_MAX - USER_VA_MIN ->
  PAGE_UP len / PAGE_SIZE = page_up len / PAGE_SIZE /\ 0 <= page_up len / PAGE_SIZE /\ page_up len / PAGE_SIZE *w PAGE_SIZE = page_up len /\
  page_up len / PAGE_SIZE * PAGE_SIZE = page_up len /\ 0 < page_up len < 2 ^ 31.
Proof.
  unfold USER_VA_MAX, USER_VA_MIN. intros Hl. rewrite PAGE_UP_eq by (unfold PAGE_SIZE; lia). destruct (page_up_spec len) as [Hal Hr]. unfold aligned, PAGE_SIZE in *.
  assert (E : page_up len / 4096 * 4096 = page_up len) by (Z.div_mod_to_equations; lia). rewrite E. rewrite u32_small by lia.
  split; [done|]. split; [apply Z.div_pos; lia|]. split; [done|]. split; [done|]. lia.
Qed.

(** Where a mapping may go. *)
Lemma mmap_base_spec p addr span flags : 0 <= addr < 2 ^ 32 -> 0 < span < 2 ^ 31 -> aligned PAGE_SIZE span ->
  aligned PAGE_SIZE (mmap_top p) -> USER_VA_MIN <= mmap_top p <= USER_VA_MAX -> 0 <= brk p <= USER_VA_MAX ->
  match mmap_base p addr span flags with
  | inl rc => rc < 0
  | inr base => aligned PAGE_SIZE base /\ USER_VA_MIN <= base /\ base + span <= USER_VA_MAX /\
      if has_flag flags MAP_FIXED then base = addr else base + span = mmap_top p /\ page_up (brk p) <= base
  end.
Proof.
  intros Haddr Hspan Hal Htop Hr Hb. unfold mmap_base, USER_VA_MIN, USER_VA_MAX in *. destruct (has_flag flags MAP_FIXED).
  - rewrite land_pg_mask. destruct (Z.eqb_spec (addr mod PAGE_SIZE) 0) as [Ha|]; cbn [negb]; [|done].
    destruct (Z.ltb_spec addr 0x1000); [done|]. cbn [orb].
    destruct (Z.ltb_spec 0x40000000 (addr +w span)); [done|]. cbn [orb]. destruct (Z.ltb_spec (addr +w span) addr) as [|Hge]; [done|].
    assert (Hw : addr + span < 2 ^ 32).
    { destruct (decide (addr + span < 2 ^ 32)); [done|]. rewrite u32_add_wrap in Hge by lia. lia. }
    rewrite u32_small in * by lia. split; [done|]. split; [lia|]. split; [lia|done].
  - rewrite (u32_small (mmap_top p - 0x1000)) by lia. destruct (Z.ltb_spec (mmap_top p - 0x1000) span); [done|].
    rewrite (u32_small (mmap_top p - span)) by lia. rewrite PAGE_UP_eq by (unfold PAGE_SIZE; lia).
    destruct (Z.ltb_spec (mmap_top p - span) (page_up (brk p))); [done|]. split; [|lia].
    unfold aligned, PAGE_SIZE in *. Z.div_mod_to_equations. lia.
Qed.

(** The layout for mappings: the next one goes right below [mmap_top]. *)
Record map_ok k a (p : proc) : Prop := {
  mp_as : as_ok K (kvm k) (p_l1 p) a;
  mp_top : aligned PAGE_SIZE (mmap_top p) /\ USER_VA_MIN <= mmap_top p <= USER_VA_MAX;
  mp_brk : 0 <= brk p <= USER_VA_MAX;
}.

(** what an anonymous [mmap2] leaves *)
Definition mmap_post k c a (addr len flags r : Z) k' : Prop :=
  let p := cur_proc k in let span := page_up len in
  exists a', objs (kfs k') = objs (kfs k) /\
  ((r < 0 /\ ksch k' = ksch k /\ (kvm k' = kvm k \/ exists base n, aligned PAGE_SIZE base /\
      (if has_flag flags MAP_FIXED then base = addr else base + span = mmap_top p) /\ 0 <= n <= span /\
      step K (kvm k) (p_l1 p) a (kvm k') a' (hole base (base + n) (ubyte (kvm k) a)))) \/
   (0 < r /\ 0 < len /\ aligned PAGE_SIZE r /\ USER_VA_MIN <= r /\ r + span <= USER_VA_MAX /\
    step K (kvm k) (p_l1 p) a (kvm k') a' (zeros r (r + span) (ubyte (kvm k) a)) /\
    if has_flag flags MAP_FIXED then r = addr /\ ksch k' = ksch k
    else r + span = mmap_top p /\ page_up (brk p) <= r /\ ksch k' = ksch (with_cur (set_mmap_top r) c k))).

Lemma sys_mmap2_spec k c a addr len prot flags fd pgoff r k' :
  running k c -> map_ok k a (cur_proc k) -> 0 <= addr < 2 ^ 32 -> 0 <= len < 2 ^ 32 -> 0 <= pgoff < 2 ^ 32 ->
  has_flag flags MAP_ANONYMOUS = true -> sys_mmap2 addr len prot flags fd pgoff k = (r, k') ->
  mmap_post k c a addr len flags r k'.
Proof.
  intros Hc [Ha [Htop Hr] Hb] Haddr Hlen Hpg Han E. refine (wp_eq _ _ _ _ (mmap_post k c a addr len flags) E _).
  clear r k' E. set (p := cur_proc k) in *.
  assert (Hnop : forall rc, rc < 0 -> mmap_post k c a addr len flags rc k) by (intros rc Hrc; exists a; split; [reflexivity|]; left; split; [exact Hrc|]; split; [reflexivity|]; left; reflexivity).
  unfold sys_mmap2. destruct (Z.eqb_spec len 0); [wp_steps; by apply Hnop|]. cbn [orb].
  destruct (Z.ltb_spec (USER_VA_MAX - USER_VA_MIN) len); [wp_steps; by apply Hnop|].
  destruct (negb (flags .& MAP_TYPE =? MAP_PRIVATE)); [wp_steps; by apply Hnop|]. rewrite Han. cbn [negb andb]. wp_steps. fold p.
  destruct (span_eq len) as (E1 & E2 & E3 & E4 & E5); [lia|]. rewrite E1, E3.
  destruct (0xFFFFFFFF <? Z.shiftl pgoff 12); [wp_steps; by apply Hnop|].
  pose proof (mmap_base_spec p addr (page_up len) flags Haddr E5 (proj1 (page_up_spec len)) Htop Hr Hb) as Hbase.
  destruct (mmap_base p addr (page_up len) flags) as [rc|base]; [wp_steps; by apply Hnop|]. destruct Hbase as (Hal & Hlo & Hhi & Hwhere). clear Hnop. unfold mmap_post. cbn zeta. fold p.
  assert (Hn : Z.of_nat (Z.to_nat (page_up len / PAGE_SIZE)) * PAGE_SIZE = page_up len) by (rewrite Z2Nat.id by lia; done).
  wp_step. apply wp_in_vm. eapply wp_mono; [apply (map_zeroed_range_spec K HK (kvm k) (p_l1 p) a base _ Ha Hal Hlo); by rewrite Hn|]. rewrite Hn.
  intros rc t (a' & [[-> Ht]|(-> & i & Hi & Ht)]); cbn [negb Z.eqb]; wp_steps.
  - assert (0 < base) by (unfold USER_VA_MIN in *; lia). rewrite Z.eqb_refl. cbn [negb]. wp_steps. destruct (has_flag flags MAP_FIXED).
    + wp_steps. exists a'. split; [done|]. right. rewrite kvm_set. repeat (split; [done || lia|]). done.
    + apply (wp_upd_cur _ _ c); [exact Hc|]. wp_steps. exists a'. split; [done|]. right. unfold with_cur. rewrite kvm_set_ksch, kvm_set.
      repeat (split; [done || lia|]). done.
  - exists a'. split; [done|]. left. split; [done|]. split; [done|]. right. exists base, ((i + 1) * PAGE_SIZE). rewrite kvm_set.
    split; [done|]. split; [destruct (has_flag flags MAP_FIXED); [done|apply Hwhere]|]. split; [|done].
    unfold PAGE_SIZE in *. lia.
Qed.

(** C34. An anonymous private [mmap2] that succeeds returns a page-aligned address
    of the user range, the caller's for MAP_FIXED and right below the previous
    mapping otherwise, above the heap; from there [len] bytes, rounded up to
    pages, are zero, every other byte of the program is kept, no frame is
    leaked.  A failing one changes the process not at all, and its memory only
    by pages of a MAP_FIXED range that were to be replaced, which may be gone.
    Mappings of a file are not covered. *)
Theorem sys_mmap2_correct k c a addr len prot flags fd pgoff r k' :
  running k c -> map_ok k a (cur_proc k) -> 0 <= addr < 2 ^ 32 -> 0 <= len < 2 ^ 32 -> 0 <= pgoff < 2 ^ 32 ->
  has_flag flags MAP_ANONYMOUS = true -> sys_mmap2 addr len prot flags fd pgoff k = (r, k') ->
  mmap_post k c a addr len flags r k'.
Proof. apply sys_mmap2_spec. Qed.

Lemma sys_munmap_spec k c a addr len : running k c -> as_ok K (kvm k) (p_l1 (cur_proc k)) a -> aligned PAGE_SIZE addr -> 0 <= addr -> 0 <= len -> addr + len <= USER_VA_MAX ->
  wp (sys_munmap addr len) k (fun r k' => exists a', r = 0 /\ objs (kfs k') = objs (kfs k) /\
    step K (kvm k) (p_l1 (cur_proc k)) a (kvm k') a' (hole addr (page_up (addr + len)) (ubyte (kvm k) a)) /\
    ksch k' = if addr =? mmap_top (cur_proc k) then ksch (with_cur (set_mmap_top (page_up (addr + len))) c k) else ksch k).
Proof.
  intros Hc Ha Hal Haddr Hlen Hhi. unfold sys_munmap, USER_VA_MAX in *. rewrite land_pg_mask, Hal, Z.eqb_refl. cbn [negb]. wp_steps.
  rewrite (u32_small (addr + len)) by lia. rewrite PAGE_UP_eq by (unfold PAGE_SIZE; lia). destruct (page_up_spec (addr + len)) as [Hal2 Hr2].
  apply wp_in_vm. eapply wp_mono; [apply (drop_range_spec K HK (kvm k) _ a addr _ Ha Hal Haddr); rewrite pages_between by (try done; lia); unfold PAGE_SIZE in *; lia|].
  rewrite pages_between by (try done; lia). intros [] t (a' & Ht). cbn beta in Ht. wp_steps. destruct (addr =? mmap_top (cur_proc k)).
  - apply (wp_upd_cur _ _ c); [exact Hc|]. wp_steps. exists a'. split; [done|]. split; [done|]. unfold with_cur. rewrite kvm_set_ksch, kvm_set. done.
  - wp_steps. exists a'. by rewrite kvm_set.
Qed.

(** [munmap] undoes [mmap2]: when nothing was mapped where the mapping went,
    unmapping it gives the program back the memory it had, returns every frame
    of its pages, and the process is as it was. *)
Theorem munmap_undoes_mmap k c a len prot flags fd pgoff r k' :
  running k c -> map_ok k a (cur_proc k) -> 0 <= len < 2 ^ 32 -> 0 <= pgoff < 2 ^ 32 ->
  has_flag flags MAP_ANONYMOUS = true -> has_flag flags MAP_FIXED = false ->
  (forall x, page_up (brk (cur_proc k)) <= x < mmap_top (cur_proc k) -> ubyte (kvm k) a x = None) ->
  sys_mmap2 0 len prot flags fd pgoff k = (r, k') -> 0 <= r ->
  exists k'' a'', sys_munmap r len k' = (0, k'') /\
    step K (kvm k) (p_l1 (cur_proc k)) a (kvm k'') a'' (ubyte (kvm k) a) /\
    forall j, (j < NPROC)%nat -> proc_at (ksch k'') j = proc_at (ksch k) j.
Proof.
  intros Hc Hm Hlen Hpg Han Hfix Hfree E Hr.
  destruct (sys_mmap2_spec k c a 0 len prot flags fd pgoff r k') as (a' & _ & [(? & _)|(Hpos & Hl0 & Hal & Hlo & Hhi & Hs & Hw)]); [done..|lia|].
  rewrite Hfix in Hw. destruct Hw as (Htop & Hbrk & Esch). set (p := cur_proc k) in *.
  assert (Hc' : running k' c) by (destruct (with_cur_running (set_mmap_top r) c k Hc) as (H1 & H2 & H3); rewrite <- Esch in H1, H2; done).
  assert (Ep : cur_proc k' = set_mmap_top r p).
  { rewrite (running_proc k' c Hc'), Esch, (with_cur_proc _ c k c Hc), decide_True by done. unfold p. by rewrite (running_proc k c Hc). }
  destruct (page_up_spec len) as [Hal2 Hr2].
  assert (Eup : page_up (r + len) = r + page_up len) by (unfold page_up, page_down, aligned, PAGE_SIZE in *; Z.div_mod_to_equations; lia).
  pose proof (sys_munmap_spec k' c a' r len Hc') as Hu. rewrite Ep in Hu. cbn [p_l1 mmap_top set_mmap_top set_layout] in Hu.
  specialize (Hu (ev_ok _ _ _ _ _ _ (st_ev _ _ _ _ _ _ _ Hs)) Hal ltac:(lia) ltac:(lia) ltac:(lia)). rewrite Eup, Z.eqb_refl in Hu.
  destruct (sys_munmap r len k') as [r2 k''] eqn:Em. destruct (wp_eq _ _ _ _ _ Em Hu) as (a'' & -> & _ & Hs2 & Esch2).
  exists k'', a''. split; [done|]. split.
  - eapply step_trans; [exact Hs|]. eapply step_see; [exact Hs2|]. intros x Hx. unfold hole. rewrite (st_see _ _ _ _ _ _ _ Hs x Hx). unfold zeros.
    repeat case_decide; try done. symmetry. apply Hfree. lia.
  - intros j Hj. rewrite Esch2, (with_cur_proc _ c k' j Hc'), Esch, !(with_cur_proc _ c k _ Hc). destruct (decide (j = c)) as [->|]; [|done].
    rewrite decide_True by done. rewrite <- (running_proc k c Hc). fold p. rewrite Htop. by destruct p.
Qed.
End calls.

(** ** A process to try them on *)

Definition demo_proc : proc := set_layout 0x11000 0x11000 MMAP_TOP MMAP_TOP (set_l1 demo_l1 (set_state P_RUNNING proc0)).
Definition demo_ksch : sched := Sched (demo_proc :: replicate 7 proc0) (Some O) 2.
Definition kern_over (v : vms pmm) : kern pmm :=
  Kern (Io (Fp (Fs (mk_kmem 0 0 0 (vphys v)) ∅ 0 1) demo_ksch) (Console None (fun _ => 0) O []))
    (wm v) (hwlog v) (l1_pa v) (replicate 33 0) 0 0.
Definition demo_kern : kern pmm := kern_over demo_vm1.

Lemma kern_over_kvm v : kvm (kern_over v) = v.
Proof. by destruct v. Qed.

Lemma demo_kvm : kvm demo_kern = demo_vm1.
Proof. exact (kern_over_kvm demo_vm1). Qed.

Lemma demo_running : running demo_kern O.
Proof. split; [reflexivity|]. split; [reflexivity|]. unfold NPROC. lia. Qed.

Lemma demo_cur : cur_proc demo_kern = demo_proc.
Proof. reflexivity. Qed.

Lemma demo_unmapped x : ubyte (kvm demo_kern) (AS ∅ ∅) x = None.
Proof. unfold ubyte. cbn [pages]. by rewrite lookup_empty. Qed.

Lemma demo_layout : layout_ok kmap demo_kern (AS ∅ ∅) demo_proc.
Proof.
  split; [rewrite demo_kvm; exact demo_as1| |]; cbn; unfold USER_VA_MIN, USER_VA_MAX, MMAP_TOP, PAGE_SIZE; lia.
Qed.

Lemma demo_map : map_ok kmap demo_kern (AS ∅ ∅) demo_proc.
Proof.
  split; [rewrite demo_kvm; exact demo_as1| |]; cbn; unfold USER_VA_MIN, USER_VA_MAX, MMAP_TOP, aligned, PAGE_SIZE; try lia.
  split; [reflexivity|lia].
Qed.

Lemma sys_brk_correct_witness :
  exists k' a', sys_brk 0x13000 demo_kern = (0x13000, k') /\ ubyte (kvm k') a' 0x12345 = Some 0 /\ ubyte (kvm k') a' 0x13000 = None.
Proof.
  assert (Er : (sys_brk 0x13000 demo_kern).1 = 0x13000) by (vm_compute; reflexivity).
  destruct (sys_brk 0x13000 demo_kern) as [r k'] eqn:E. cbn [fst] in Er. subst r. exists k'.
  destruct (sys_brk_correct kmap kmap_not_coarse demo_kern O (AS ∅ ∅) 0x13000 0x13000 k' demo_running demo_layout) as (a' & _ & [(H & _)|(_ & _ & _ & H)]);
    [lia|intros x _; apply demo_unmapped|exact E|discriminate H|].
  exists a'. split; [reflexivity|]. split; rewrite (st_see _ _ _ _ _ _ _ H) by lia; [reflexivity|].
  change (ubyte (kvm demo_kern) (AS ∅ ∅) 0x13000 = None). apply demo_unmapped.
Defined.

(** MAP_PRIVATE | MAP_ANONYMOUS *)
Definition demo_flags : Z := 34.

Lemma sys_mmap2_correct_witness :
  exists k' a', sys_mmap2 0 5000 3 demo_flags (-1) 0 demo_kern = (0x37FFE000, k') /\ ubyte (kvm k') a' 0x37FFE000 = Some 0.
Proof.
  assert (Er : (sys_mmap2 0 5000 3 demo_flags (-1) 0 demo_kern).1 = 0x37FFE000) by (vm_compute; reflexivity).
  destruct (sys_mmap2 0 5000 3 demo_flags (-1) 0 demo_kern) as [r k'] eqn:E. cbn [fst] in Er. subst r. exists k'.
  destruct (sys_mmap2_correct kmap kmap_not_coarse demo_kern O (AS ∅ ∅) 0 5000 3 demo_flags (-1) 0 0x37FFE000 k' demo_running demo_map)
    as (a' & _ & [(H & _)|(_ & _ & _ & _ & _ & H & _)]); [lia..|reflexivity|exact E|discriminate H|].
  exists a'. split; [reflexivity|]. rewrite (st_see _ _ _ _ _ _ _ H) by lia. reflexivity.
Defined.

Lemma munmap_undoes_mmap_witness :
  exists k' k'' a'', sys_mmap2 0 5000 3 demo_flags (-1) 0 demo_kern = (0x37FFE000, k') /\
    sys_munmap 0x37FFE000 5000 k' = (0, k'') /\ ubyte (kvm k'') a'' 0x37FFE000 = None.
Proof.
  assert (Er : (sys_mmap2 0 5000 3 demo_flags (-1) 0 demo_kern).1 = 0x37FFE000) by (vm_compute; reflexivity).
  destruct (sys_mmap2 0 5000 3 demo_flags (-1) 0 demo_kern) as [r k'] eqn:E. cbn [fst] in Er. subst r. exists k'.
  destruct (munmap_undoes_mmap kmap kmap_not_coarse demo_kern O (AS ∅ ∅) 5000 3 demo_flags (-1) 0 0x37FFE000 k' demo_running demo_map)
    as (k'' & a'' & E2 & H & _); [lia|lia|reflexivity|reflexivity|intros x _; apply demo_unmapped|exact E|lia|].
  exists k'', a''. split; [reflexivity|]. split; [exact E2|]. rewrite (st_see _ _ _ _ _ _ _ H) by lia. apply demo_unmapped.
Defined.
