(* ===== verification/ProcOps.v ===== *)
(** Processes at work, [kernel/kernel/proc.c]: the context switch, preemption,
    fork, sleeping, exit and wait, and the handling of faults.

    The halting loops of the code end the model with [None] (or [false]); what
    is printed is left out. *)

From stdpp Require Import gmap list fin_maps.
From Stdlib Require Import ZArith Lia.
From S2P Require Import Prelude Memory Checked Frames Kmalloc KernMem Vm Ramfs Proc File FsSyscall Kern.

Definition CLONE_VM : Z := 0x100.
(** the mode bits of a program status register, and user mode *)
Definition MODE_MASK : Z := 0x1f.
Definition MODE_USR : Z := 0x10.

Section model.
Context {A : Type} {FA : FrameAlloc A}.

Definition upd_slot (i : nat) (f : proc -> proc) : M (kern A) unit := in_ksch (upd_proc i f).
Definition slot (i : nat) : M (kern A) proc := gets (fun k => proc_at (ksch k) i).
Definition cur_slot : M (kern A) (option nat) := gets (fun k => cur (ksch k)).

(** [vfp_save(p->vfp)] and the read of TPIDRURO into [p->tls] *)
Definition save_fpu (i : nat) : M (kern A) unit :=
  v ← gets cpu_vfp;
  t ← gets cpu_tls;
  upd_slot i (set_fpu v t).

(** [vfp_restore(p->vfp)] and the write of TPIDRURO *)
Definition load_fpu (i : nat) : M (kern A) unit := p ← slot i; modify (set_cpu (vfp p) (tls p)).

Definition switch_to (p : nat) : M (kern A) unit :=
  c ← cur_slot;
  (match c with Some c => save_fpu c | None => mret tt end) ≫= fun _ =>
  in_ksch (modify (set_cur (Some p))) ≫= fun _ =>
  upd_slot p (set_state P_RUNNING) ≫= fun _ =>
  q ← slot p;
  in_vm (vm_switch (p_l1 q)) ≫= fun _ =>
  load_fpu p.

(** The frame to start in user mode, unless there is no process. *)
Definition proc_run_first : M (kern A) (option trapframe) :=
  r ← gets (fun k => find_from (fun i => has_state P_RUNNABLE (proc_at (ksch k) (Z.to_nat i))) NPROC 0);
  match r with
  | None => mret None
  | Some i =>
      let i := Z.to_nat i in
      in_ksch (modify (set_cur (Some i))) ≫= fun _ =>
      upd_slot i (set_state P_RUNNING) ≫= fun _ =>
      p ← slot i;
      in_vm (vm_switch (p_l1 p)) ≫= fun _ =>
      load_fpu i ≫= fun _ =>
      mret (Some (tf p))
  end.

(** the frame the interrupt path resumes *)
Definition proc_preempt (t : trapframe) : M (kern A) trapframe :=
  c ← cur_slot;
  match c with
  | None => mret t
  | Some c =>
      if negb (cpsr t .& MODE_MASK =? MODE_USR) then mret t
      else
        nx ← gets (fun k => pick_next (ksch k));
        match nx with
        | None => mret t
        | Some nx =>
            if bool_decide (nx = c) then mret t
            else
              upd_slot c (set_tf t) ≫= fun _ =>
              upd_slot c (set_state P_RUNNABLE) ≫= fun _ =>
              switch_to nx ≫= fun _ =>
              gets (fun k => tf (cur_proc k))
        end
  end.

(** ** Fork *)

Definition do_fork (child_sp : Z) : M (kern A) unit :=
  r ← in_ksch alloc_proc;
  match r with
  | None => set_ret (-11)
  | Some child =>
      l1 ← in_vm vm_create;
      upd_slot child (set_l1 l1) ≫= fun _ =>
      if l1 =? 0 then upd_slot child (set_state P_UNUSED) ≫= fun _ => set_ret (-12)
      else
        p ← gets cur_proc;
        rc ← in_vm (vm_copy l1 (p_l1 p));
        if negb (rc =? 0) then
          in_vm (vm_destroy l1) ≫= fun _ =>
          upd_slot child (set_state P_UNUSED) ≫= fun _ => set_ret (-12)
        else
          in_vm sync_icache ≫= fun _ =>
          c ← proc_current;
          upd_slot child (set_parent_of (Some c)) ≫= fun _ =>
          upd_slot child (set_tf (set_reg 0 0 (tf p))) ≫= fun _ =>
          (if negb (child_sp =? 0) then upd_slot child (fun q => set_tf (set_sp child_sp (tf q)) q) else mret tt) ≫= fun _ =>
          in_kfp (fdtable_copy child c) ≫= fun _ =>
          upd_slot child (set_cwd (cwd p)) ≫= fun _ =>
          upd_slot child (set_layout (brk_start p) (brk p) (brk_ceiling p) (mmap_top p)) ≫= fun _ =>
          upd_slot child (set_sigs (sig_blocked p) (sigact p)) ≫= fun _ =>
          save_fpu child ≫= fun _ =>
          upd_slot child (set_state P_RUNNABLE) ≫= fun _ =>
          q ← slot child;
          set_ret (pid q)
  end.

Definition proc_fork : M (kern A) unit := do_fork 0.

Definition proc_clone (flags child_stack : Z) : M (kern A) unit :=
  if negb (flags .& CLONE_VM =? 0) then set_ret (-38) else do_fork child_stack.

(** ** Sleeping *)

(** whether the process was put to sleep *)
Definition proc_sleep (ch : chan) : M (kern A) bool :=
  c ← proc_current;
  nx ← gets (fun k => pick_next (ksch k));
  match nx with
  | None => mret false
  | Some nx =>
      if bool_decide (nx = c) then mret false
      else
        upd_slot c (set_chan (Some ch)) ≫= fun _ =>
        upd_slot c (set_state P_BLOCKED) ≫= fun _ =>
        upd_slot c (fun p => set_tf (set_pc (pc (tf p) -w 4) (tf p)) p) ≫= fun _ =>
        switch_to nx ≫= fun _ =>
        mret true
  end.

(** ** Exit *)

(** the slot of init, the process with number 1 *)
Definition init_slot (s : sched) : option nat :=
  Z.to_nat <$> find_from (fun i => (pid (proc_at s (Z.to_nat i)) =? 1) && negb (has_state P_UNUSED (proc_at s (Z.to_nat i)))) NPROC 0.

(** one round of the loop that hands the children of [c] to init *)
Definition reparent (c initp : nat) (i : Z) : M sched unit :=
  let i := Z.to_nat i in
  q ← gets (fun s => proc_at s i);
  if negb (bool_decide (i = c)) && negb (has_state P_UNUSED q) && bool_decide (parent q = Some c) then
    upd_proc i (set_parent_of (Some initp)) ≫= fun _ =>
    if has_state P_ZOMBIE q then proc_wakeup (ChProc initp) else mret tt
  else mret tt.

(** whether another process could be resumed *)
Definition reap_current_and_switch (code sig : Z) : M (kern A) bool :=
  c ← proc_current;
  upd_slot c (set_exit code sig) ≫= fun _ =>
  upd_slot c (set_state P_ZOMBIE) ≫= fun _ =>
  in_kfp (fdtable_closeall c) ≫= fun _ =>
  p ← slot c;
  let dead_l1 := p_l1 p in
  upd_slot c (set_l1 0) ≫= fun _ =>
  initp ← gets (fun k => init_slot (ksch k));
  (match initp with
   | Some i => if bool_decide (i = c) then mret tt else in_ksch (forM NPROC 0 1 (reparent c i))
   | None => mret tt
   end) ≫= fun _ =>
  p ← slot c;
  (match parent p with Some i => in_ksch (proc_wakeup (ChProc i)) | None => mret tt end) ≫= fun _ =>
  nx ← gets (fun k => pick_next (ksch k));
  match nx with
  | None => mret false
  | Some nx => switch_to nx ≫= fun _ => in_vm (vm_destroy dead_l1) ≫= fun _ => mret true
  end.

Definition proc_exit (code : Z) : M (kern A) bool := reap_current_and_switch code 0.

(** The frame to resume; [None] for a panic, or when nothing is left to run. *)
Definition fault_trap (kind : Z) (t : trapframe) : M (kern A) (option trapframe) :=
  c ← cur_slot;
  match c with
  | None => mret None
  | Some c =>
      upd_slot c (set_tf t) ≫= fun _ =>
      if negb (cpsr t .& MODE_MASK =? MODE_USR) then mret None
      else
        ok ← reap_current_and_switch 0 (if kind =? 0 then 4 else 11);
        if ok : bool then t' ← gets (fun k => tf (cur_proc k)); mret (Some t') else mret None
  end.

(** ** Wait *)

(** the POSIX wait status *)
Definition wait_status (q : proc) : Z := if negb (killed_sig q =? 0) then killed_sig q .& 0x7f else Z.shiftl (exit_code q .& 0xff) 8.

Definition zombie_of (c : nat) (q : proc) : bool := has_state P_ZOMBIE q && bool_decide (parent q = Some c).
Definition child_of (c : nat) (q : proc) : bool := bool_decide (parent q = Some c) && negb (has_state P_UNUSED q).

Definition proc_wait (status_uptr : Z) : C (kern A) unit :=
  c ← run proc_current;
  z ← look (fun k => find_from (fun i => zombie_of c (proc_at (ksch k) (Z.to_nat i))) NPROC 0);
  match z with
  | Some i =>
      let i := Z.to_nat i in
      q ← run (slot i);
      (if negb (status_uptr =? 0) then ustore32 status_uptr (wait_status q) else mret tt) ≫= fun _ =>
      run (upd_slot i (set_state P_UNUSED)) ≫= fun _ =>
      run (set_ret (pid q))
  | None =>
      h ← look (fun k => find_from (fun i => child_of c (proc_at (ksch k) (Z.to_nat i))) NPROC 0);
      slept ← (match h with Some _ => run (proc_sleep (ChProc c)) | None => mret false end);
      if slept : bool then mret tt else run (set_ret (-10))
  end.
End model.
