(* ===== verification/ProcInv.v ===== *)
(** The process table as a state machine: what every sequence of process
    operations of [proc.c] keeps.

    The invariant is about the part of a slot that scheduling looks at, its
    [view]: number, state, parent and wait channel. *)

From stdpp Require Import gmap list fin_maps relations.
From Stdlib Require Import ZArith Lia.
From S2P Require Import Prelude Memory Checked Frames Pmm Kmalloc KernMem Vm Ramfs Proc File FsSyscall Kern ProcOps.

Record pv := Pv { v_pid : Z; v_st : pstate; v_par : option nat; v_ch : option chan }.
Definition pv_of (p : proc) : pv := Pv (pid p) (state p) (parent p) (wait_chan p).
Definition view (s : sched) (i : nat) : pv := pv_of (proc_at s i).

Definition used (q : pv) : Prop := v_st q <> P_UNUSED.

(** What holds of the slots whatever the numbers of the processes are: [c]
    runs, alone; nothing is half made; a parent pointer stays in the table; and
    a sleeper waits for something, for its children only if they are its own. *)
Record slots_ok (v : nat -> pv) (c : nat) : Prop := {
  sl_cur : (c < NPROC)%nat /\ v_st (v c) = P_RUNNING;
  sl_one : forall i, (i < NPROC)%nat -> v_st (v i) = P_RUNNING -> i = c;
  sl_embryo : forall i, (i < NPROC)%nat -> v_st (v i) <> P_EMBRYO;
  sl_parent : forall i p, (i < NPROC)%nat -> used (v i) -> v_par (v i) = Some p -> (p < NPROC)%nat;
  sl_chan : forall i, (i < NPROC)%nat -> v_st (v i) = P_BLOCKED -> exists ch, v_ch (v i) = Some ch /\ forall p, ch = ChProc p -> p = i;
}.

(** What holds as long as the next number [np] is above every number in use:
    process numbers are distinct; init is there and has no parent; a parent
    pointer names a live process, or init; and a process that waits for its
    children has no dead one. *)
Record numbered (v : nat -> pv) (np : Z) : Prop := {
  nb_pid : forall i, (i < NPROC)%nat -> used (v i) -> v_pid (v i) < np;
  nb_pids : forall i j, (i < NPROC)%nat -> (j < NPROC)%nat -> used (v i) -> used (v j) -> v_pid (v i) = v_pid (v j) -> i = j;
  nb_init : exists i, (i < NPROC)%nat /\ used (v i) /\ v_pid (v i) = 1 /\ v_par (v i) = None;
  nb_parent : forall i p, (i < NPROC)%nat -> used (v i) -> v_par (v i) = Some p ->
    p <> i /\ used (v p) /\ (v_st (v p) = P_ZOMBIE -> v_pid (v p) = 1);
  nb_wait : forall i, (i < NPROC)%nat -> v_st (v i) = P_BLOCKED -> v_ch (v i) = Some (ChProc i) ->
    forall j, (j < NPROC)%nat -> v_st (v j) = P_ZOMBIE -> v_par (v j) <> Some i;
}.

(** The two together; the second part under the condition [G] that the numbers
    have not run out. *)
Definition inv (G : Prop) (v : nat -> pv) (c : nat) (np : Z) : Prop := slots_ok v c /\ (G -> numbered v np).

Lemma inv_weaken (G G' : Prop) v c np : (G' -> G) -> inv G v c np -> inv G' v c np.
Proof. intros H [I N]. split; auto. Qed.

Lemma inv_ext G v v' c np : (forall i, (i < NPROC)%nat -> v' i = v i) -> inv G v c np -> inv G v' c np.
Proof.
  intros E [[H1 H2 H3 H4 H5] N]. split.
  - split.
    + rewrite E by apply H1. done.
    + intros i Hi. rewrite E by done. by apply H2.
    + intros i Hi. rewrite E by done. by apply H3.
    + intros i p Hi. rewrite E by done. by apply H4.
    + intros i Hi. rewrite E by done. by apply H5.
  - intros g. destruct (N g) as [N1 N2 (i0 & N3) N4 N5]. split.
    + intros i Hi. rewrite E by done. by apply N1.
    + intros i j Hi Hj. rewrite !E by done. by apply N2.
    + exists i0. rewrite E by apply N3. done.
    + intros i p Hi. rewrite E by done. intros Hu Hp. rewrite E by (by eapply H4). by apply N4.
    + intros i Hi. rewrite E by done. intros Hb Hch j Hj. rewrite E by done. by apply N5.
Qed.

Section moves.
Context (G : Prop) (v : nat -> pv) (c : nat) (np : Z) (I : inv G v c np).

Lemma iv_cur : (c < NPROC)%nat /\ v_st (v c) = P_RUNNING.
Proof. apply I. Qed.

(** the process with number 1 is the one without a parent *)
Lemma init_unique i : numbered v np -> (i < NPROC)%nat -> used (v i) -> v_pid (v i) = 1 -> v_par (v i) = None.
Proof. intros N Hi Hu Hp. destruct (nb_init _ _ N) as (j & Hj & Huj & Hpj & Hn). assert (i = j) as -> by (apply (nb_pids _ _ N); congruence). done. Qed.

(** A zombie somebody waits for has no children. *)
Lemma zombie_childless z p : numbered v np -> (z < NPROC)%nat -> v_st (v z) = P_ZOMBIE -> v_par (v z) = Some p ->
  forall i, (i < NPROC)%nat -> used (v i) -> v_par (v i) <> Some z.
Proof.
  intros N Hz Hst Hp i Hi Hu Hpar. destruct (nb_parent _ _ N i z Hi Hu Hpar) as (_ & Hu' & H1). specialize (H1 Hst).
  pose proof (init_unique z N Hz Hu' H1). congruence.
Qed.

(** [w] is woken from its sleep, or the same *)
Definition woken (q w : pv) : Prop := w = q \/ (v_st q = P_BLOCKED /\ w = Pv (v_pid q) P_RUNNABLE (v_par q) None).

Lemma woken_same q w : woken q w -> v_pid w = v_pid q /\ v_par w = v_par q /\ (used w <-> used q) /\
  (forall st, st <> P_RUNNABLE -> v_st w = st -> v_st q = st /\ w = q) /\ (forall st, st <> P_BLOCKED -> v_st q = st -> v_st w = st).
Proof.
  unfold used. intros [->|[Hb ->]]; cbn; [naive_solver|]. rewrite Hb. repeat split; try done; congruence.
Qed.

(** a sleeper of the table, with nothing to wait for among the dead *)
Definition waits (q : pv) (i : nat) : Prop := exists ch, v_ch q = Some ch /\
  forall p, ch = ChProc p -> p = i /\ (G -> forall j, (j < NPROC)%nat -> v_st (v j) = P_ZOMBIE -> v_par (v j) <> Some i).

Lemma iv_wait i : (i < NPROC)%nat -> v_st (v i) = P_BLOCKED -> waits (v i) i.
Proof.
  destruct I as [S N]. intros Hi Hb. destruct (sl_chan _ _ S i Hi Hb) as (ch & Hch & Hp). exists ch. split; [done|].
  intros p E. pose proof (Hp p E) as ->. split; [done|]. intros g. apply (nb_wait _ _ (N g) i Hi Hb). congruence.
Qed.

(** Who is alive and who is whose child stays; the running process, sleepers
    and runnable ones may change. *)
Lemma inv_alive v' c' :
  (forall i, (i < NPROC)%nat -> v_pid (v' i) = v_pid (v i) /\ v_par (v' i) = v_par (v i) /\ v_st (v' i) <> P_EMBRYO /\
     (v_st (v' i) = P_UNUSED <-> v_st (v i) = P_UNUSED) /\ (v_st (v' i) = P_ZOMBIE <-> v_st (v i) = P_ZOMBIE)) ->
  (c' < NPROC)%nat -> v_st (v' c') = P_RUNNING -> (forall i, (i < NPROC)%nat -> v_st (v' i) = P_RUNNING -> i = c') ->
  (forall i, (i < NPROC)%nat -> v_st (v' i) = P_BLOCKED -> waits (v' i) i) ->
  inv G v' c' np.
Proof.
  intros Hs Hc Hr Hone Hb. destruct I as [[[H1 H1'] H2 H3 H4 H5] N].
  assert (U : forall i, (i < NPROC)%nat -> used (v' i) <-> used (v i)) by (intros i Hi; unfold used; destruct (Hs i Hi) as (_ & _ & _ & E & _); by rewrite E).
  split.
  - split; [done|done| | |].
    + intros i Hi. apply (Hs i Hi).
    + intros i p Hi Hu. destruct (Hs i Hi) as (_ & -> & _). apply H4; [done|by apply U].
    + intros i Hi Hbi. destruct (Hb i Hi Hbi) as (ch & Hch & H). exists ch. split; [done|]. intros p Hp. by apply H.
  - intros g. destruct (N g) as [N1 N2 (i0 & N3 & Hu0 & Hp0 & Hn0) N4 N5]. split.
    + intros i Hi Hu. destruct (Hs i Hi) as (-> & _). by apply N1, U.
    + intros i j Hi Hj Hu Hu'. destruct (Hs i Hi) as (-> & _), (Hs j Hj) as (-> & _). apply N2; [done..|by apply U|by apply U].
    + exists i0. destruct (Hs i0 N3) as (-> & -> & _). by rewrite U.
    + intros i p Hi Hu. destruct (Hs i Hi) as (_ & -> & _). intros Hp. apply U in Hu; [|done]. destruct (N4 i p Hi Hu Hp) as (A2 & A3 & A4).
      pose proof (H4 i p Hi Hu Hp) as A1. destruct (Hs p A1) as (-> & _ & _ & _ & ->). split; [done|]. split; [by apply U|done].
    + intros i Hi Hbi Hch j Hj. destruct (Hs j Hj) as (_ & -> & _ & _ & ->). destruct (Hb i Hi Hbi) as (ch & Hch' & H).
      apply (H i); [congruence|done|done].
Qed.

(** Wakeups keep it. *)
Lemma inv_calm v' : (forall i, (i < NPROC)%nat -> woken (v i) (v' i)) -> inv G v' c np.
Proof.
  intros W. pose proof iv_cur as [Hc Hcr]. pose proof (proj1 I) as S.
  assert (WS : forall i, (i < NPROC)%nat -> _) by (intros i Hi; exact (woken_same _ _ (W i Hi))). cbn beta in WS. apply inv_alive.
  - intros i Hi. destruct (WS i Hi) as (-> & -> & Hu & H1 & H2). split; [done|]. split; [done|]. split; [|split].
    + intros He. apply H1 in He as [He _]; [|done]. by apply (sl_embryo _ _ S i Hi).
    + split; [intros He; by apply H1 in He as [He _]|by apply H2].
    + split; [intros He; by apply H1 in He as [He _]|by apply H2].
  - done.
  - by apply (WS c Hc).
  - intros i Hi Hr. apply (WS i Hi) in Hr as [Hr _]; [|done]. by apply (sl_one _ _ S).
  - intros i Hi Hb. apply (WS i Hi) in Hb as [Hb E]; [|done]. rewrite E. by apply iv_wait.
Qed.

Definition vset (w : nat -> pv) (i : nat) (q : pv) : nat -> pv := fun j => if decide (j = i) then q else w j.

(** The current process makes way for [nx], still runnable or asleep. *)
Lemma inv_switch nx st ch : (nx < NPROC)%nat -> nx <> c -> v_st (v nx) = P_RUNNABLE ->
  st = P_RUNNABLE \/ (st = P_BLOCKED /\ waits (Pv (v_pid (v c)) st (v_par (v c)) ch) c) ->
  inv G (vset (vset v c (Pv (v_pid (v c)) st (v_par (v c)) ch)) nx (Pv (v_pid (v nx)) P_RUNNING (v_par (v nx)) (v_ch (v nx)))) nx np.
Proof.
  intros Hnx Hne Hrun Hst. pose proof iv_cur as [Hc Hcr]. pose proof (proj1 I) as S. apply inv_alive; try done.
  - intros i Hi. unfold vset. destruct (decide (i = nx)) as [->|]; [cbn; rewrite Hrun; split; [done|]; split; [done|]; split; [done|]; split; split; congruence|].
    destruct (decide (i = c)) as [->|]; [|split; [done|]; split; [done|]; split; [by apply (sl_embryo _ _ S)|done]].
    cbn. rewrite Hcr. destruct Hst as [->|[-> _]]; split; try done; split; try done; split; try done; split; split; congruence.
  - unfold vset. by rewrite decide_True.
  - intros i Hi. unfold vset. destruct (decide (i = nx)); [done|]. destruct (decide (i = c)) as [->|]; cbn.
    + destruct Hst as [->|[-> _]]; congruence.
    + intros Hr. pose proof (sl_one _ _ S i Hi Hr). congruence.
  - intros i Hi. unfold vset. destruct (decide (i = nx)); [cbn; congruence|]. destruct (decide (i = c)) as [->|]; cbn.
    + intros Es. destruct Hst as [?|[_ H]]; [congruence|exact H].
    + apply (iv_wait i Hi).
Qed.

(** A new process, with number [np]; [np'] is the next one. *)
Lemma inv_fork i np' : (i < NPROC)%nat -> v_st (v i) = P_UNUSED -> (G -> np < np') -> inv G (vset v i (Pv np P_RUNNABLE (Some c) None)) c np'.
Proof.
  intros Hi Hfree Hnp. destruct I as [[[H1 H1'] H2 H3 H4 H5] N].
  assert (Hci : c <> i) by congruence. unfold vset. split.
  - split.
    + split; [done|]. by rewrite decide_False.
    + intros j Hj. destruct (decide (j = i)); [done|]. by apply H2.
    + intros j Hj. destruct (decide (j = i)); [done|]. by apply H3.
    + intros j p Hj. destruct (decide (j = i)) as [->|]; cbn; [by intros _ [= <-]|by apply H4].
    + intros j Hj. destruct (decide (j = i)); [done|]. by apply H5.
  - intros g. specialize (Hnp g). destruct (N g) as [N1 N2 (i0 & N3 & Hu0 & Hp0 & Hn0) N4 N5]. split.
    + intros j Hj. destruct (decide (j = i)); cbn; [lia|]. intros Hu. specialize (N1 j Hj Hu). lia.
    + intros j l Hj Hl. destruct (decide (j = i)) as [->|], (decide (l = i)) as [->|]; cbn; [done| | |by apply N2].
      * intros _ Hu E. specialize (N1 l Hl Hu). lia.
      * intros Hu _ E. specialize (N1 j Hj Hu). lia.
    + exists i0. rewrite decide_False by (intros ->; done). done.
    + intros j p Hj. destruct (decide (j = i)) as [->|]; cbn.
      * intros _ [= <-]. rewrite decide_False by done. unfold used. rewrite H1'. done.
      * intros Hu Hp. destruct (N4 j p Hj Hu Hp) as (A2 & A3 & A4). rewrite decide_False by (intros ->; done). done.
    + intros j Hj. destruct (decide (j = i)) as [->|]; [done|]. intros Hb Hch l Hl. destruct (decide (l = i)); [done|]. by apply N5.
Qed.

(** A dead child is harvested by the current process. *)
Lemma inv_harvest z : (z < NPROC)%nat -> v_st (v z) = P_ZOMBIE -> v_par (v z) = Some c ->
  inv G (vset v z (Pv (v_pid (v z)) P_UNUSED (v_par (v z)) (v_ch (v z)))) c np.
Proof.
  intros Hz Hst Hp. pose proof (zombie_childless z c) as Hnone.
  destruct I as [[[H1 H1'] H2 H3 H4 H5] N]. assert (Hcz : c <> z) by congruence. unfold vset. split.
  - split.
    + split; [done|]. by rewrite decide_False.
    + intros j Hj. destruct (decide (j = z)); [done|]. by apply H2.
    + intros j Hj. destruct (decide (j = z)); [done|]. by apply H3.
    + intros j p Hj. destruct (decide (j = z)) as [->|]; [done|by apply H4].
    + intros j Hj. destruct (decide (j = z)); [done|]. by apply H5.
  - intros g. specialize (Hnone (N g) Hz Hst Hp). destruct (N g) as [N1 N2 (i0 & N3 & Hu0 & Hp0 & Hn0) N4 N5]. split.
    + intros j Hj. destruct (decide (j = z)); [done|]. by apply N1.
    + intros j l Hj Hl. destruct (decide (j = z)) as [->|], (decide (l = z)) as [->|]; [done|done|done|by apply N2].
    + exists i0. rewrite decide_False by (intros ->; congruence). done.
    + intros j p Hj. destruct (decide (j = z)) as [->|]; [done|]. intros Hu Hpj. destruct (N4 j p Hj Hu Hpj) as (A2 & A3 & A4).
      rewrite decide_False by (intros ->; by apply (Hnone j)). done.
    + intros j Hj. destruct (decide (j = z)) as [->|]; [done|]. intros Hb Hch l Hl. destruct (decide (l = z)); [done|]. by apply N5.
Qed.

(** The current process dies.  Its children go to init, its parent and init are
    woken where they have a dead child to look at, and [nx] runs next.  Where
    there is no init, or it is the one that dies, the children stay. *)
Lemma inv_exit i0 v' nx :
  (i0 < NPROC)%nat -> (G -> used (v i0) /\ v_pid (v i0) = 1) ->
  v' c = Pv (v_pid (v c)) P_ZOMBIE (v_par (v c)) (v_ch (v c)) ->
  (forall i, (i < NPROC)%nat -> i <> c ->
     v_pid (v' i) = v_pid (v i) /\
     v_par (v' i) = (if bool_decide (i0 <> c /\ used (v i) /\ v_par (v i) = Some c) then Some i0 else v_par (v i)) /\
     ((v_st (v' i) = v_st (v i) /\ v_ch (v' i) = v_ch (v i)) \/ (v_st (v i) = P_BLOCKED /\ v_st (v' i) = P_RUNNABLE) \/
      (i = nx /\ v_st (v' i) = P_RUNNING /\ (v_st (v i) = P_RUNNABLE \/ v_st (v i) = P_BLOCKED)))) ->
  (forall i, (i < NPROC)%nat -> v_st (v' i) = P_BLOCKED -> v_ch (v' i) = Some (ChProc i) ->
     v_par (v c) <> Some i /\
     (i = i0 -> i0 <> c -> forall j, (j < NPROC)%nat -> v_st (v j) = P_ZOMBIE -> v_par (v j) <> Some c)) ->
  (nx < NPROC)%nat -> nx <> c -> v_st (v' nx) = P_RUNNING ->
  inv G v' nx np.
Proof.
  intros Hi0 Hinit0 Ec Eo Ew Hnx Hne Hrun. pose proof (init_unique i0) as Hn0.
  destruct I as [[[H1 H1'] H2 H3 H4 H5] N].
  assert (S : forall i, (i < NPROC)%nat -> v_pid (v' i) = v_pid (v i) /\ (used (v' i) <-> used (v i)) /\ v_st (v' i) <> P_EMBRYO /\
    (v_st (v' i) = P_RUNNING -> i = nx) /\ (v_st (v' i) = P_ZOMBIE <-> i = c \/ v_st (v i) = P_ZOMBIE)).
  { intros i Hi. unfold used. destruct (decide (i = c)) as [->|Hic].
    { rewrite Ec. cbn. rewrite H1'. split; [done|]. split; [done|]. split; [done|]. split; [done|]. split; auto. }
    destruct (Eo i Hi Hic) as (-> & _ & Hst). split; [done|]. specialize (H3 i Hi). pose proof (H2 i Hi).
    destruct Hst as [[-> _]|[[Hb ->]|(-> & -> & Hb)]]; [|rewrite Hb|]; repeat split; try done; try (intros; congruence); intros; naive_solver congruence. }
  assert (Bl : forall i, (i < NPROC)%nat -> v_st (v' i) = P_BLOCKED -> i <> c /\ v_st (v i) = P_BLOCKED /\ v_ch (v' i) = v_ch (v i)).
  { intros i Hi Hb. destruct (decide (i = c)) as [->|Hic]; [rewrite Ec in Hb; done|]. split; [done|].
    destruct (Eo i Hi Hic) as (_ & _ & [[Hst Hch]|[[_ Hst]|(_ & Hst & _)]]); [|congruence..]. split; congruence. }
  split.
  - split; [done| | | |].
    + intros i Hi. by apply S.
    + intros i Hi. by apply S.
    + intros i p Hi Hu. apply S in Hu; [|done]. destruct (decide (i = c)) as [->|Hic]; [rewrite Ec; by apply H4|].
      destruct (Eo i Hi Hic) as (_ & -> & _). case_bool_decide; [by intros [= <-]|by apply H4].
    + intros i Hi Hb. destruct (Bl i Hi Hb) as (_ & Hb' & ->). by apply H5.
  - intros g. destruct (Hinit0 g) as [Hu0 Hp0]. specialize (Hn0 (N g) Hi0 Hu0 Hp0). destruct (N g) as [N1 N2 _ N4 N5]. split.
    + intros i Hi Hu. destruct (S i Hi) as (-> & E & _). apply N1; [done|by apply E].
    + intros i j Hi Hj Hu Hu'. destruct (S i Hi) as (-> & E & _), (S j Hj) as (-> & E' & _). apply N2; [done..|by apply E|by apply E'].
    + exists i0. destruct (S i0 Hi0) as (-> & E & _). split; [done|]. split; [by apply E|]. split; [done|].
      destruct (decide (i0 = c)) as [->|Hic]; [by rewrite Ec|]. destruct (Eo i0 Hi0 Hic) as (_ & -> & _). rewrite bool_decide_eq_false_2; [done|].
      rewrite Hn0. intros (_ & _ & ?). done.
    + intros i p Hi Hu Hp. destruct (S i Hi) as (_ & E & _). apply E in Hu. clear E.
      assert (K : forall p, (p < NPROC)%nat -> used (v p) -> (p = c \/ v_st (v p) = P_ZOMBIE -> v_pid (v p) = 1) ->
        used (v' p) /\ (v_st (v' p) = P_ZOMBIE -> v_pid (v' p) = 1)).
      { intros q Hq Huq Hz. destruct (S q Hq) as (-> & E & _ & _ & Ez). split; [by apply E|]. rewrite Ez. done. }
      destruct (decide (i = c)) as [->|Hic].
      { rewrite Ec in Hp. cbn in Hp. destruct (N4 c p Hi Hu Hp) as (A2 & A3 & A4). split; [done|]. apply K; [by eapply H4|done|]. intros [?|?]; [done|auto]. }
      destruct (Eo i Hi Hic) as (_ & Epar & _). rewrite Epar in Hp. case_bool_decide as Hb.
      * injection Hp as <-. destruct Hb as (Hic0 & _ & Hpc). split; [intros ->; congruence|]. by apply K.
      * destruct (N4 i p Hi Hu Hp) as (A2 & A3 & A4). split; [done|]. apply K; [by eapply H4|done|]. intros [->|?]; [|auto].
        destruct (decide (i0 = c)) as [<-|Hic0]; [done|]. destruct Hb. done.
    + intros i Hi Hb Hch. destruct (Bl i Hi Hb) as (Hic & Hb' & Hch'). destruct (Ew i Hi Hb Hch) as [Hpar Hinit].
      intros j Hj Hzj. destruct (S j Hj) as (_ & _ & _ & _ & Ez). apply Ez in Hzj.
      destruct (decide (j = c)) as [->|Hjc]; [by rewrite Ec|]. destruct Hzj as [?|Hzj]; [done|].
      destruct (Eo j Hj Hjc) as (_ & -> & _). case_bool_decide as Hbd; [|apply N5; congruence].
      intros [= ->]. destruct Hbd as (A1 & _ & A3). by apply (Hinit eq_refl A1 j Hj Hzj).
Qed.
End moves.
