(* ===== verification/Calm.v ===== *)
(** Operations that leave the process table alone.

    The file system and the calls on files touch the table only to wake
    sleepers and to set a descriptor or a working directory.  [Calm] says so
    of a computation; the proofs follow its text. *)

From stdpp Require Import gmap list fin_maps.
From Stdlib Require Import ZArith Lia.
From S2P Require Import Prelude Memory Checked Frames Kmalloc KernMem Vm Ramfs Proc File FsSyscall Kern ProcOps ProcInv.

(** a slot without its open files, its working directory and its place in the
    queues: what a process computes with, and how it ended *)
Definition ctx (p : proc) : proc := set_fds [] (set_cwd 0 (set_state P_UNUSED (set_chan None p))).

Definition quiet (p q : proc) : Prop := ctx q = ctx p /\ woken (pv_of p) (pv_of q).

Definition calm (s s' : sched) : Prop :=
  table_ok s -> table_ok s' /\ cur s' = cur s /\ next_pid s' = next_pid s /\
  forall i, (i < NPROC)%nat -> quiet (proc_at s i) (proc_at s' i).

#[export] Instance woken_preorder : PreOrder woken.
Proof.
  split; [by left|]. intros q w x [->|[Hb ->]]; [done|]. intros [->|[Hb' _]]; [by right|done].
Qed.

#[export] Instance quiet_preorder : PreOrder quiet.
Proof. split; [by split|]. intros p q r [E1 W1] [E2 W2]. split; [congruence|by etrans]. Qed.

#[export] Instance calm_preorder : PreOrder calm.
Proof.
  split; [by intros s Ht|]. intros s t u H1 H2 Ht. destruct (H1 Ht) as (Ht' & E1 & E2 & Q1), (H2 Ht') as (Ht'' & E3 & E4 & Q2).
  split; [done|]. split; [congruence|]. split; [congruence|]. intros i Hi. etrans; auto.
Qed.

Lemma calm_upd s i f : (forall p, quiet p (f p)) -> calm s (set_proctab (alter f i (proctab s)) s).
Proof.
  intros Hf Ht. split; [by apply table_ok_upd|]. split; [done|]. split; [done|]. intros j Hj.
  destruct (decide (i < NPROC)%nat) as [Hi|Hi].
  - rewrite proc_at_upd by done. destruct (decide (j = i)) as [->|]; [apply Hf|done].
  - unfold proc_at at 2. cbn. rewrite list_lookup_alter_ne by lia. done.
Qed.

Lemma wake_woken ch p : woken (pv_of p) (pv_of (wake ch p)).
Proof.
  unfold wake. destruct (has_state P_BLOCKED p) eqn:Hb; [|by left]. destruct (bool_decide _); [|by left].
  right. apply has_state_true in Hb. done.
Qed.

Lemma wake_quiet ch p : quiet p (wake ch p).
Proof. split; [unfold wake; by destruct (_ && _)|apply wake_woken]. Qed.

Lemma calm_wakeup s ch : calm s (set_proctab (wake ch <$> proctab s) s).
Proof.
  intros Ht. split; [unfold table_ok; cbn; by rewrite length_fmap|]. split; [done|]. split; [done|]. intros i Hi. rewrite proc_at_wake by done. apply wake_quiet.
Qed.

(** The current process may change what it computes with. *)
Definition tame (s s' : sched) : Prop :=
  table_ok s -> table_ok s' /\ cur s' = cur s /\ next_pid s' = next_pid s /\
  forall i, (i < NPROC)%nat -> woken (view s i) (view s' i) /\ (default O (cur s) <> i -> ctx (proc_at s' i) = ctx (proc_at s i)).

#[export] Instance tame_preorder : PreOrder tame.
Proof.
  split; [by intros s Ht|]. intros s t u H1 H2 Ht. destruct (H1 Ht) as (Ht' & E1 & E2 & Q1), (H2 Ht') as (Ht'' & E3 & E4 & Q2).
  split; [done|]. split; [congruence|]. split; [congruence|]. intros i Hi. destruct (Q1 i Hi) as [W1 C1], (Q2 i Hi) as [W2 C2]. split; [by etrans|].
  intros Hne. rewrite C2 by congruence. by apply C1.
Qed.

Lemma calm_tame s s' : calm s s' -> tame s s'.
Proof. intros H Ht. destruct (H Ht) as (? & ? & ? & Q). split; [done|]. split; [done|]. split; [done|]. intros i Hi. by destruct (Q i Hi). Qed.

Lemma tame_upd s c f : default O (cur s) = c -> (forall p, pv_of (f p) = pv_of p) -> tame s (set_proctab (alter f c (proctab s)) s).
Proof.
  intros Hc Hf Ht. split; [by apply table_ok_upd|]. split; [done|]. split; [done|]. intros j Hj. unfold view.
  destruct (decide (c < NPROC)%nat) as [Hi|Hi].
  - rewrite proc_at_upd by done. destruct (decide (j = c)) as [->|]; [|split; [by left|done]]. rewrite Hf. split; [by left|done].
  - unfold proc_at at 2 3. cbn. rewrite list_lookup_alter_ne by lia. split; [by left|done].
Qed.

(** * Computations

    [Keeps rel sch m]: the part [sch] of the state before and after [m] is in
    [rel]. *)

Section Keeps.
Context {S T : Type} (rel : relation T) {PRE : PreOrder rel} (sch : S -> T).

Definition Keeps {R} (m : M S R) : Prop := forall k, rel (sch k) (sch (m k).2).

Lemma Keeps_ret {R} (r : R) : Keeps (mret r).
Proof. intros k. cbn. reflexivity. Qed.

Lemma Keeps_gets {R} (f : S -> R) : Keeps (gets f).
Proof. intros k. cbn. reflexivity. Qed.

Lemma Keeps_bind {R R'} (m : M S R) (f : R -> M S R') : Keeps m -> (forall r, Keeps (f r)) -> Keeps (m ≫= f).
Proof. intros Hm Hf k. unfold mbind, M_bind. specialize (Hm k). destruct (m k) as [r k'] eqn:E. cbn in Hm. etrans; [exact Hm|apply Hf]. Qed.

Lemma Keeps_modify f : (forall k, sch (f k) = sch k) -> Keeps (modify f).
Proof. intros H k. cbn. by rewrite H. Qed.

Lemma Keeps_forR {R} n i d (body : Z -> M S (option R)) : (forall j, Keeps (body j)) -> Keeps (forR n i d body).
Proof.
  intros Hb. revert i. induction n as [|n IH]; intros i; cbn [forR]; [apply Keeps_ret|]. apply Keeps_bind; [done|]. intros [r|]; [apply Keeps_ret|apply IH].
Qed.

Lemma Keeps_forM n i d body : (forall j, Keeps (body j)) -> Keeps (forM n i d body).
Proof. intros Hb. revert i. induction n as [|n IH]; intros i; cbn [forM]; [apply Keeps_ret|]. by apply Keeps_bind. Qed.

Lemma Keeps_frame {U R} (get : S -> U) set (m : M U R) : (forall x k, sch (set x k) = sch k) -> Keeps (zoom get set m).
Proof. intros H k. unfold zoom. destruct (m (get k)) as [r x]. cbn. by rewrite H. Qed.

(** checked code, where it has a result *)
Definition KeepsC {R} (m : C S R) : Prop := forall k r k', m k = Ok (r, k') -> rel (sch k) (sch k').

Lemma KeepsC_ret {R} (r : R) : KeepsC (mret r).
Proof. by intros k r' k' [= <- <-]. Qed.

Lemma KeepsC_bind {R R'} (m : C S R) (f : R -> C S R') : KeepsC m -> (forall r, KeepsC (f r)) -> KeepsC (m ≫= f).
Proof.
  intros Hm Hf k r k'. unfold mbind, C_bind. destruct (m k) as [[x k1]| |] eqn:E; [|done..]. intros H. etrans; [by apply (Hm k x k1)|]. by apply (Hf x k1 r k').
Qed.

Lemma KeepsC_run {R} (m : M S R) : Keeps m -> KeepsC (run m).
Proof. intros H k r k' [= E]. specialize (H k). by rewrite E in H. Qed.

Lemma KeepsC_look {R} (f : S -> R) : KeepsC (look f).
Proof. by intros k r k' [= _ <-]. Qed.

Lemma KeepsC_change f : (forall k, sch (f k) = sch k) -> KeepsC (change f).
Proof. intros H k r k' [= _ <-]. by rewrite H. Qed.

Lemma KeepsC_lift {R} (o : outcome R) : KeepsC (lift o).
Proof. intros k r k'. unfold lift. destruct o; [|done..]. by intros [= _ <-]. Qed.

Lemma KeepsC_fail {R} (o : outcome (R * S)) : (forall a, o <> Ok a) -> KeepsC (fun _ => o).
Proof. intros H k r k' E. by destruct (H (r, k')). Qed.

Lemma KeepsC_iterC {R} n i (body : Z -> C S (option R)) : (forall j, KeepsC (body j)) -> KeepsC (iterC n i body).
Proof.
  intros Hb. revert i. induction n as [|n IH]; intros i; cbn [iterC]; [apply KeepsC_ret|]. apply KeepsC_bind; [done|]. intros [r|]; [apply KeepsC_ret|apply IH].
Qed.
End Keeps.

Lemma Keeps_zoom {S T U R} (rel : relation T) (sch : S -> T) (sch' : U -> T) (get : S -> U) set (m : M U R) :
  (forall k, sch k = sch' (get k)) -> (forall x k, sch (set x k) = sch' x) -> Keeps rel sch' m -> Keeps rel sch (zoom get set m).
Proof. intros H1 H2 H k. unfold zoom. specialize (H (get k)). destruct (m (get k)) as [r x]. cbn in H |- *. by rewrite H1, H2. Qed.

Lemma Keeps_mono {S T R} (rel rel' : relation T) (sch : S -> T) (m : M S R) :
  (forall s s', rel s s' -> rel' s s') -> Keeps rel sch m -> Keeps rel' sch m.
Proof. intros H Hm k. by apply H. Qed.

Abbreviation Calm := (Keeps calm).
Abbreviation Tame := (Keeps tame).
Abbreviation TameC := (KeepsC tame).

Create HintDb calm.

Ltac calm_step :=
  match goal with
  | |- PreOrder _ => apply _
  | |- forall _, _ => intros ?
  | |- Keeps _ _ _ => solve [auto 1 with calm nocore]
  | |- KeepsC _ _ _ => solve [auto 1 with calm nocore]
  | |- Keeps _ _ (mret _) => apply Keeps_ret
  | |- Keeps _ _ (gets _) => apply Keeps_gets
  | |- Keeps _ _ (mbind _ _) => apply Keeps_bind
  | |- Keeps _ _ (forM _ _ _ _) => apply Keeps_forM
  | |- Keeps _ _ (forR _ _ _ _) => apply Keeps_forR
  | |- KeepsC _ _ (mret _) => apply KeepsC_ret
  | |- KeepsC _ _ (mbind _ _) => apply KeepsC_bind
  | |- KeepsC _ _ (run _) => apply KeepsC_run
  | |- KeepsC _ _ (look _) => apply KeepsC_look
  | |- KeepsC _ _ (lift _) => apply KeepsC_lift
  | |- KeepsC _ _ (fun _ => _) => apply KeepsC_fail; done
  | |- KeepsC _ _ (iterC _ _ _) => apply KeepsC_iterC
  | |- Keeps _ _ (modify _) => apply Keeps_modify; [apply _|done]
  | |- Keeps _ _ (match ?x with _ => _ end) => destruct x
  | |- KeepsC _ _ (match ?x with _ => _ end) => destruct x
  | |- Keeps _ _ (let _ := _ in _) => cbv zeta
  | |- KeepsC _ _ (let _ := _ in _) => cbv zeta
  end.
Ltac calm := repeat calm_step.

(** * The file layer *)

Section files.
Context {S : Type} {KM : KMem S}.

Lemma Calm_in_fs {R} (m : M (fs S) R) : Calm psch (in_fs m).
Proof. apply Keeps_frame; [apply _|done]. Qed.

Lemma Calm_wakeup ch : Calm psch (in_sched (S := S) (proc_wakeup ch)).
Proof. intros k. apply calm_wakeup. Qed.

Lemma Calm_set_fd i j v : Calm psch (set_fd (S := S) i j v).
Proof. intros k. apply calm_upd. intros p. split; [done|by left]. Qed.

Lemma Calm_upd_file p g : Calm psch (upd_file (S := S) p g).
Proof. apply Calm_in_fs. Qed.

Lemma Calm_set_cwd ino : Calm psch (proc_set_cwd (S := S) ino).
Proof. intros k. apply calm_upd. intros p. split; [done|by left]. Qed.
End files.

#[export] Hint Resolve Calm_in_fs Calm_wakeup Calm_set_fd Calm_upd_file Calm_set_cwd : calm.

Section file_ops.
Context {S : Type} {KM : KMem S}.
Abbreviation Quiet := (Keeps (S := fp S) calm psch).

Lemma Calm_account f d : Quiet (pipe_open_account f d).
Proof. unfold pipe_open_account, get_file. calm. Qed.
Lemma Calm_close f : Quiet (file_close f).
Proof. pose proof Calm_account. unfold file_close, get_file. calm. Qed.
Lemma Calm_dup f : Quiet (file_dup f).
Proof. unfold file_dup. calm. Qed.
Lemma Calm_open i fl : Quiet (file_open_inode i fl).
Proof. pose proof Calm_account. unfold file_open_inode. calm. Qed.
Lemma Calm_alloc_fd i f m : Quiet (fd_alloc_from i f m).
Proof. unfold fd_alloc_from. calm. Qed.
Lemma Calm_fd_close i fd : Quiet (fd_close i fd).
Proof. pose proof Calm_close. unfold fd_close. calm. Qed.
Lemma Calm_install i fd f : Quiet (fd_install_at i fd f).
Proof. pose proof Calm_close. unfold fd_install_at. calm. Qed.
Lemma Calm_init i : Quiet (fdtable_init i).
Proof. unfold fdtable_init. calm. Qed.
Lemma Calm_copy d s : Quiet (fdtable_copy d s).
Proof. unfold fdtable_copy. calm. Qed.
Lemma Calm_closeall i : Quiet (fdtable_closeall i).
Proof. pose proof Calm_close. unfold fdtable_closeall. calm. Qed.
Lemma Calm_my_fd fd : Quiet (my_fd fd).
Proof. unfold my_fd, me, fd_get. calm. Qed.
Lemma Calm_resolve d p fl : Quiet (resolve_at d p fl).
Proof. pose proof Calm_my_fd. unfold resolve_at, proc_cwd. calm. Qed.
End file_ops.

#[export] Hint Resolve Calm_account Calm_close Calm_dup Calm_open Calm_alloc_fd Calm_fd_close Calm_install Calm_init Calm_copy Calm_closeall Calm_my_fd Calm_resolve : calm.

Section calls.
Context {S : Type} {KM : KMem S}.
Abbreviation Quiet := (Keeps (S := fp S) calm psch).

Lemma Calm_openat d p fl m : Quiet (sys_openat d p fl m).
Proof. unfold sys_openat, open_target, proc_cwd, fd_alloc, me. calm. Qed.
Lemma Calm_sys_close fd : Quiet (sys_close fd).
Proof. unfold sys_close, me. calm. Qed.
Lemma Calm_llseek a b c d e : Quiet (sys_llseek a b c d e).
Proof. unfold sys_llseek. calm. Qed.
Lemma Calm_lseek a b c : Quiet (sys_lseek a b c).
Proof. unfold sys_lseek. calm. Qed.
Lemma Calm_sys_dup a : Quiet (sys_dup a).
Proof. unfold sys_dup, me, fd_alloc. calm. Qed.
Lemma Calm_dup2 a b : Quiet (sys_dup2 a b).
Proof. unfold sys_dup2, me. calm. Qed.
Lemma Calm_pipe2 a : Quiet (sys_pipe2 a).
Proof. unfold sys_pipe2, me, fd_alloc. calm. Qed.
Lemma Calm_fcntl a b c : Quiet (sys_fcntl64 a b c).
Proof. unfold sys_fcntl64, me. calm. Qed.
Lemma Calm_getdents a b : Quiet (sys_getdents64 a b).
Proof. unfold sys_getdents64, get_file. calm. Qed.
Lemma Calm_fstat a : Quiet (sys_fstat64 a).
Proof. unfold sys_fstat64. calm. Qed.
Lemma Calm_stat a b : Quiet (sys_stat64 a b).
Proof. unfold sys_stat64, stat_of, proc_cwd. calm. Qed.
Lemma Calm_at a b c : Quiet (at_inode a b c).
Proof. unfold at_inode. calm. Qed.
Lemma Calm_fstatat a b c : Quiet (sys_fstatat64 a b c).
Proof. pose proof Calm_at. unfold sys_fstatat64, stat_of. calm. Qed.
Lemma Calm_statx a b c d : Quiet (sys_statx a b c d).
Proof. pose proof Calm_at. unfold sys_statx. calm. Qed.
Lemma Calm_faccessat a b : Quiet (sys_faccessat a b).
Proof. unfold sys_faccessat. calm. Qed.
Lemma Calm_readlinkat a b c : Quiet (sys_readlinkat a b c).
Proof. unfold sys_readlinkat. calm. Qed.
Lemma Calm_chdir a : Quiet (sys_chdir a).
Proof. unfold sys_chdir, proc_cwd. calm. Qed.
Lemma Calm_getcwd a : Quiet (sys_getcwd a).
Proof. unfold sys_getcwd, proc_cwd. calm. Qed.
Lemma Calm_block_chan a b : Quiet (read_block_chan a b).
Proof. unfold read_block_chan. calm. Qed.
End calls.

(** * Calls on the console too *)

Section console.
Context {S : Type} {KM : KMem S}.
Abbreviation Quiet := (Keeps (S := io S) calm (fun s => psch (iofp s))).

Lemma Calm_in_fp {R} (m : M (fp S) R) : Calm psch m -> Quiet (in_fp m).
Proof. by apply Keeps_zoom. Qed.
Lemma Calm_con {R} (m : M (io S) R) : (forall k, iofp (m k).2 = iofp k) -> Quiet m.
Proof. intros H k. cbn beta. by rewrite H. Qed.
Lemma Calm_tios : Quiet console_tios.
Proof. apply Calm_con. intros k. unfold console_tios, mbind, M_bind, gets. cbn. by destruct (tios _). Qed.
Lemma Calm_putc c : Quiet (uart0_putc c).
Proof. by apply Calm_con. Qed.
Lemma Calm_getc : Quiet uart0_getc.
Proof. by apply Calm_con. Qed.
End console.

#[export] Hint Resolve Calm_tios Calm_putc Calm_getc : calm.
#[export] Hint Extern 1 (Keeps _ _ (in_fp _)) => apply Calm_in_fp; calm : calm.

Section io_calls.
Context {S : Type} {KM : KMem S}.
Abbreviation Quiet := (Keeps (S := io S) calm (fun s => psch (iofp s))).

Lemma Calm_console_read n e : Quiet (console_read n e).
Proof. induction n as [|n IH]; cbn [console_read]; calm. Qed.
Lemma Calm_console_write l : Quiet (console_write l).
Proof. induction l as [|c l IH]; cbn [console_write]; calm. Qed.
Lemma Calm_read fd n : Quiet (sys_read fd n).
Proof. pose proof Calm_console_read. unfold sys_read, console_echo, get_file. calm. Qed.
Lemma Calm_write fd b : Quiet (sys_write fd b).
Proof. pose proof Calm_console_write. unfold sys_write, get_file. calm. Qed.
Lemma Calm_ioctl a b c d : Quiet (sys_ioctl a b c d).
Proof. unfold sys_ioctl, get_file. calm. Qed.
End io_calls.

#[export] Hint Resolve Calm_openat Calm_sys_close Calm_llseek Calm_lseek Calm_sys_dup Calm_dup2 Calm_pipe2 Calm_fcntl Calm_getdents Calm_fstat Calm_stat
  Calm_fstatat Calm_statx Calm_faccessat Calm_readlinkat Calm_chdir Calm_getcwd Calm_block_chan Calm_console_read Calm_console_write Calm_read Calm_write
  Calm_ioctl : calm.

(** * What checked code does when it has a result *)

Section may.
Context {S : Type}.

(** [may c s Q]: if [c] has a result from [s], it is in [Q]. *)
Definition may {R} (c : C S R) (s : S) (Q : R -> S -> Prop) : Prop := forall r s', c s = Ok (r, s') -> Q r s'.

Lemma may_ret {R} (r : R) s (Q : R -> S -> Prop) : Q r s -> may (mret r) s Q.
Proof. by intros H r' s' [= <- <-]. Qed.

Lemma may_bind {R R'} (c : C S R) (f : R -> C S R') s Q : may c s (fun r s' => may (f r) s' Q) -> may (c ≫= f) s Q.
Proof. intros H r s'. unfold mbind, C_bind. destruct (c s) as [[x s1]| |] eqn:E; [|done..]. by apply (H x s1). Qed.

Lemma may_run {R} (c : M S R) s (Q : R -> S -> Prop) : wp c s Q -> may (run c) s Q.
Proof. intros H r s' [= E]. by apply (wp_eq c s r s'). Qed.

Lemma may_look {R} (f : S -> R) s (Q : R -> S -> Prop) : Q (f s) s -> may (look f) s Q.
Proof. by intros H r s' [= <- <-]. Qed.

Lemma may_mono {R} (c : C S R) s (P Q : R -> S -> Prop) : may c s P -> (forall r s', P r s' -> Q r s') -> may c s Q.
Proof. intros H HPQ r s' E. by apply HPQ, H. Qed.

Lemma may_keeps {T R} rel (sch : S -> T) (c : C S R) s : KeepsC rel sch c -> may c s (fun _ s' => rel (sch s) (sch s')).
Proof. intros H r s' E. by apply (H s r s'). Qed.
End may.

(** * The whole kernel *)

Section kernel.
Context {A : Type} {FA : FrameAlloc A}.

Lemma Keeps_in_vm {R} rel {PRE : PreOrder rel} (m : M (vms A) R) : Keeps rel ksch (in_vm m).
Proof. apply Keeps_frame; [apply _|done]. Qed.

Lemma Calm_in_kio {R} (m : M (io (kmem A)) R) : Keeps calm (fun s => psch (iofp s)) m -> Calm ksch (in_kio m).
Proof. by apply Keeps_zoom. Qed.

Lemma Calm_in_kfp {R} (m : M (fp (kmem A)) R) : Calm psch m -> Calm ksch (in_kfp m).
Proof. by apply Keeps_zoom. Qed.

Lemma Tame_calm {R} (m : M (kern A) R) : Calm ksch m -> Tame ksch m.
Proof. apply Keeps_mono, calm_tame. Qed.

Lemma Tame_upd_cur f : (forall p, pv_of (f p) = pv_of p) -> Tame ksch (upd_cur (A := A) f).
Proof.
  intros Hf k. unfold upd_cur, mbind, M_bind, proc_current, gets. cbn. unfold in_ksch, zoom, upd_proc, modify. cbn.
  by apply tame_upd.
Qed.

Lemma Tame_set_ret v : Tame ksch (set_ret (A := A) v).
Proof. by apply Tame_upd_cur. Qed.

Lemma TameC_uload va : TameC ksch (uload (A := A) va).
Proof. intros k r k'. unfold uload. destruct (uaddr _ _); [|done..]. by intros [= _ <-]. Qed.

Lemma TameC_ustore va v : TameC ksch (ustore (A := A) va v).
Proof. intros k r k'. unfold ustore. destruct (uaddr _ _) as [pa| |]; [|done..]. intros [= <- <-].
  apply (Keeps_in_vm tame (in_phys (upd_pm (fun m => stb m pa v)))). Qed.

Lemma TameC_uload_bytes n va : TameC ksch (uload_bytes (A := A) n va).
Proof. pose proof TameC_uload. revert va. induction n as [|n IH]; intros va; cbn [uload_bytes]; calm. Qed.

Lemma TameC_ustore_bytes l va : TameC ksch (ustore_bytes (A := A) va l).
Proof. pose proof TameC_ustore. revert va. induction l as [|b l IH]; intros va; cbn [ustore_bytes]; calm. Qed.

Lemma TameC_uload32 va : TameC ksch (uload32 (A := A) va).
Proof. pose proof TameC_uload_bytes. unfold uload32. calm. Qed.

Lemma TameC_ustore32 va v : TameC ksch (ustore32 (A := A) va v).
Proof. apply TameC_ustore_bytes. Qed.

Lemma TameC_uload_str n va : TameC ksch (uload_str (A := A) n va).
Proof. pose proof TameC_uload. revert va. induction n as [|n IH]; intros va; cbn [uload_str]; calm. Qed.
End kernel.

#[export] Hint Resolve Tame_set_ret TameC_uload TameC_ustore TameC_uload_bytes TameC_ustore_bytes TameC_uload32 TameC_ustore32 TameC_uload_str : calm.
#[export] Hint Extern 1 (Keeps _ _ (in_vm _)) => apply Keeps_in_vm; apply _ : calm.
#[export] Hint Extern 1 (Keeps calm _ (in_kio _)) => apply Calm_in_kio; calm : calm.
#[export] Hint Extern 1 (Keeps calm _ (in_kfp _)) => apply Calm_in_kfp; calm : calm.
#[export] Hint Extern 1 (Keeps tame _ (in_kio _)) => apply Tame_calm; calm : calm.
#[export] Hint Extern 1 (Keeps tame _ (in_kfp _)) => apply Tame_calm; calm : calm.
