(* ===== verification/ProcSteps.v ===== *)
(** What the process operations of [proc.c] do to the process table.

    [tab s g]: the slots of [s] are those of [g].  The functional
    specifications of the operations are in these terms; that they keep the
    invariant of [ProcInv] follows from them. *)

From stdpp Require Import gmap list fin_maps relations.
From Stdlib Require Import ZArith Lia.
From S2P Require Import Prelude Memory Checked Frames Pmm Kmalloc KernMem Vm Ramfs Proc File FsSyscall Kern ProcOps ProcInv Calm.

Definition tab (s : sched) (g : nat -> proc) : Prop := table_ok s /\ forall i, (i < NPROC)%nat -> proc_at s i = g i.

(** the slots with slot [i] changed by [f] *)
Definition at_slot (i : nat) (f : proc -> proc) (g : nat -> proc) : nat -> proc := fun j => if decide (j = i) then f (g j) else g j.

Lemma at_slot_eq i f g : at_slot i f g i = f (g i).
Proof. unfold at_slot. by rewrite decide_True. Qed.
Lemma at_slot_ne i j f g : j <> i -> at_slot i f g j = g j.
Proof. intros H. unfold at_slot. by rewrite decide_False. Qed.

Definition put_slot (i : nat) (f : proc -> proc) (s : sched) : sched := set_proctab (alter f i (proctab s)) s.

Lemma tab_self s : table_ok s -> tab s (proc_at s).
Proof. by split. Qed.

Lemma tab_put s g i f : tab s g -> (i < NPROC)%nat -> tab (put_slot i f s) (at_slot i f g).
Proof.
  intros [Ht Hg] Hi. split; [by apply table_ok_upd|]. intros j Hj. unfold put_slot, at_slot. rewrite proc_at_upd by done.
  destruct (decide (j = i)) as [->|]; by rewrite Hg.
Qed.

(** Successive updates of one slot add up. *)
Lemma tab_more s g i f h : tab s (at_slot i h g) -> (i < NPROC)%nat -> tab (put_slot i f s) (at_slot i (fun p => f (h p)) g).
Proof.
  intros T Hi. destruct (tab_put _ _ i f T Hi) as [X1 X2]. split; [done|]. intros j Hj. rewrite X2 by done. unfold at_slot. by destruct (decide (j = i)).
Qed.

Lemma tab_at s g i f f' : tab s (at_slot i f g) -> f (g i) = f' (g i) -> tab s (at_slot i f' g).
Proof. intros [X1 X2] E. split; [done|]. intros j Hj. rewrite X2 by done. unfold at_slot. destruct (decide (j = i)) as [->|]; done. Qed.

(** The table is sound: a process runs, the slots are in order, and the numbers
    are as they should be. *)
Definition procs_ok (s : sched) : Prop := table_ok s /\ exists c, cur s = Some c /\ slots_ok (view s) c /\ numbered (view s) (next_pid s).

(** The same, the numbers being in order under the condition [G]; with [False]
    for [G], the slots alone. *)
Definition procs_inv (G : Prop) (s : sched) : Prop := table_ok s /\ exists c, cur s = Some c /\ inv G (view s) c (next_pid s).

Lemma procs_ok_inv G s : procs_ok s -> procs_inv G s.
Proof. intros (Ht & c & Hc & H1 & H2). split; [done|]. exists c. split; [done|]. by split. Qed.
Lemma procs_inv_ok (G : Prop) s : G -> procs_inv G s -> procs_ok s.
Proof. intros g (Ht & c & Hc & H1 & H2). split; [done|]. exists c. auto. Qed.
Lemma procs_inv_weaken (G G' : Prop) s : (G' -> G) -> procs_inv G s -> procs_inv G' s.
Proof. intros H (Ht & c & Hc & I). split; [done|]. exists c. split; [done|]. by eapply inv_weaken. Qed.

(** there is a number left *)
Definition pids_left (s : sched) : Prop := next_pid s < 2 ^ 31 - 1.

Lemma next_number s : 1 < next_pid s -> pids_left s -> next_pid s < s32 (next_pid s + 1).
Proof. unfold pids_left. intros H1 H2. rewrite s32_small; lia. Qed.

Lemma tame_ok G s s' : tame s s' -> procs_inv G s -> procs_inv G s'.
Proof.
  intros H (Ht & c & Hc & I). destruct (H Ht) as (Ht' & Ec & En & Q). split; [done|]. exists c. rewrite Ec, En. split; [done|].
  apply (inv_calm _ _ _ _ I). intros i Hi. by apply Q.
Qed.

(** the invariant of a table given by its slots *)
Lemma procs_inv_tab G s g c v : tab s g -> cur s = Some c -> inv G v c (next_pid s) -> (forall i, (i < NPROC)%nat -> pv_of (g i) = v i) -> procs_inv G s.
Proof. intros [Ht Hg] Hc I Hv. split; [done|]. exists c. split; [done|]. eapply inv_ext; [|exact I]. intros i Hi. unfold view. by rewrite Hg, Hv. Qed.

(** Init alone. *)
Lemma sole_ok s i : table_ok s -> (i < NPROC)%nat -> cur s = Some i -> 1 < next_pid s ->
  pid (proc_at s i) = 1 -> state (proc_at s i) = P_RUNNING -> parent (proc_at s i) = None ->
  (forall j, (j < NPROC)%nat -> j <> i -> state (proc_at s j) = P_UNUSED) -> procs_ok s.
Proof.
  intros Ht Hi Hc Hn Hp Hs Hpar U. assert (V0 : view s i = Pv 1 P_RUNNING None (wait_chan (proc_at s i))) by (unfold view, pv_of; congruence).
  assert (U' : forall j, (j < NPROC)%nat -> v_st (view s j) <> P_UNUSED -> j = i) by (intros j Hj Hu; destruct (decide (j = i)); [done|]; by destruct Hu; apply U).
  split; [done|]. exists i. split; [done|]. split; split.
  - by rewrite V0.
  - intros j Hj Hr. apply U'; [done|]. congruence.
  - intros j Hj He. assert (j = i) as -> by (apply U'; [done|congruence]). by rewrite V0 in He.
  - intros j q Hj Hu. by rewrite (U' j Hj Hu), V0.
  - intros j Hj Hb. assert (j = i) as -> by (apply U'; [done|congruence]). by rewrite V0 in Hb.
  - intros j Hj Hu. rewrite (U' j Hj Hu), V0. cbn. lia.
  - intros j l Hj Hl Hu Hu' _. by rewrite (U' j Hj Hu), (U' l Hl Hu').
  - exists i. unfold used. by rewrite V0.
  - intros j q Hj Hu. by rewrite (U' j Hj Hu), V0.
  - intros j Hj Hb. assert (j = i) as -> by (apply U'; [done|congruence]). by rewrite V0 in Hb.
Qed.

(** An unused slot may hold anything. *)
Lemma inv_unused G v v' c np np' : inv G v c np -> (G -> np <= np') ->
  (forall j, (j < NPROC)%nat -> v' j = v j \/ (v_st (v j) = P_UNUSED /\ v_st (v' j) = P_UNUSED)) -> inv G v' c np'.
Proof.
  intros [[[H1 H1'] H2 H3 H4 H5] N] Hnp E.
  assert (U : forall j, (j < NPROC)%nat -> used (v' j) -> v' j = v j) by (intros j Hj Hu; destruct (E j Hj) as [?|[_ ?]]; done).
  assert (U' : forall j, (j < NPROC)%nat -> used (v j) -> v' j = v j) by (intros j Hj Hu; destruct (E j Hj) as [?|[? _]]; done).
  assert (St : forall j st, (j < NPROC)%nat -> st <> P_UNUSED -> v_st (v' j) = st -> v' j = v j). { intros j st Hj Hs Hst. apply U; [done|]. unfold used. congruence. }
  split.
  - split.
    + rewrite U'; [done..|]. unfold used. congruence.
    + intros j Hj Hr. rewrite (St j P_RUNNING Hj) in Hr by done. by apply H2.
    + intros j Hj Hr. rewrite (St j P_EMBRYO Hj) in Hr by done. by apply (H3 j Hj).
    + intros j p Hj Hu. pose proof (U j Hj Hu) as Ej. rewrite Ej in Hu |- *. by apply H4.
    + intros j Hj Hb. pose proof (St j P_BLOCKED Hj ltac:(done) Hb) as Ej. rewrite Ej in Hb |- *. by apply H5.
  - intros g. specialize (Hnp g). destruct (N g) as [N1 N2 (i0 & N3 & Hu0 & Hp0 & Hn0) N4 N5]. split.
    + intros j Hj Hu. pose proof (U j Hj Hu) as Ej. rewrite Ej in Hu |- *. specialize (N1 j Hj Hu). lia.
    + intros j l Hj Hl Hu Hu'. pose proof (U j Hj Hu) as Ej. pose proof (U l Hl Hu') as El. rewrite Ej, El in *. by apply N2.
    + exists i0. by rewrite U'.
    + intros j p Hj Hu Hp. pose proof (U j Hj Hu) as Ej. rewrite Ej in Hu, Hp. destruct (N4 j p Hj Hu Hp) as (A2 & A3 & A4). pose proof (H4 j p Hj Hu Hp). by rewrite U'.
    + intros j Hj Hb. pose proof (St j P_BLOCKED Hj ltac:(done) Hb) as Ej. rewrite Ej in Hb |- *. intros Hch l Hl Hzl.
      pose proof (St l P_ZOMBIE Hl ltac:(done) Hzl) as El. rewrite El in Hzl |- *. by apply N5.
Qed.

(** The pick is another process that can run, unless it is the current one. *)
Lemma pick_other s c nx : cur s = Some c -> (c < NPROC)%nat -> pick_next s = Some nx ->
  (nx < NPROC)%nat /\ (nx <> c \/ state (proc_at s c) <> P_RUNNING -> state (proc_at s nx) = P_RUNNABLE).
Proof.
  intros Hc Hcn Hp. pose proof (pick_next_spec s c Hc) as H. rewrite Hp in H. destruct H as [(k & Hk & -> & Hr & _)|(-> & Hn & Hst)].
  - split; [apply slot_after_lt|done].
  - split; [done|]. intros [?|?]; [done|]. by destruct Hst.
Qed.

Section ops.
Context {A : Type} {FA : FrameAlloc A}.
Implicit Types (k : kern A) (G : Prop).

Lemma wp_upd_slot i f k (Q : unit -> kern A -> Prop) : Q tt (set_ksch (put_slot i f (ksch k)) k) -> wp (upd_slot i f) k Q.
Proof. done. Qed.

Lemma wp_vm_any {R} (m : M (vms A) R) k (Q : R -> kern A -> Prop) : (forall r v, m (kvm k) = (r, v) -> Q r (set_kvm v k)) -> wp (in_vm m) k Q.
Proof. intros H. apply wp_in_vm, wp_self. done. Qed.

(** [switch_to]: the processor's VFP registers and thread pointer go to the
    slot of the old process and come from the slot of the new one. *)
Lemma switch_to_spec k c p g : cur (ksch k) = Some c -> (c < NPROC)%nat -> (p < NPROC)%nat -> tab (ksch k) g ->
  wp (switch_to p) k (fun _ k' =>
    let g' := at_slot p (set_state P_RUNNING) (at_slot c (set_fpu (cpu_vfp k) (cpu_tls k)) g) in
    tab (ksch k') g' /\ cur (ksch k') = Some p /\ next_pid (ksch k') = next_pid (ksch k) /\
    cpu_vfp k' = vfp (g' p) /\ cpu_tls k' = tls (g' p) /\ kvm k' = (vm_switch (p_l1 (g p)) (kvm k)).2).
Proof.
  intros Hc Hcn Hp Hg. unfold switch_to, cur_slot, save_fpu, load_fpu, slot. apply wp_bind, wp_gets. rewrite Hc.
  apply wp_bind. do 2 apply wp_bind, wp_gets. apply wp_upd_slot. apply wp_bind. unfold in_ksch. apply wp_zoom, wp_modify.
  apply wp_bind, wp_upd_slot. apply wp_bind, wp_gets. apply wp_bind, wp_in_vm, wp_self. intros r v Ev. apply wp_bind, wp_gets, wp_modify.
  set (g1 := at_slot c (set_fpu (cpu_vfp k) (cpu_tls k)) g). cbv beta zeta.
  set (s1 := put_slot c (set_fpu (cpu_vfp k) (cpu_tls k)) (ksch k)). set (s2 := put_slot p (set_state P_RUNNING) (set_cur (Some p) s1)).
  assert (H1 : tab s1 g1) by (by apply tab_put).
  assert (H2 : tab s2 (at_slot p (set_state P_RUNNING) g1)) by (by apply (tab_put (set_cur (Some p) s1))).
  pose proof (proj2 H2 p Hp) as E2. change (vm_switch (p_l1 (proc_at s2 p)) (kvm k) = (r, v)) in Ev.
  split; [exact H2|]. split; [done|]. split; [done|]. rewrite <- E2. split; [done|]. split; [done|].
  transitivity v; [by destruct v|]. replace (p_l1 (g p)) with (p_l1 (proc_at s2 p)); [by rewrite Ev|].
  rewrite E2, at_slot_eq. unfold g1, at_slot. by destruct (decide (p = c)).
Qed.

(** The current process [c] is changed by [f] and makes way for [nx]. *)
Definition switched k (c : nat) (f : proc -> proc) (nx : nat) k' : Prop :=
  let g' := at_slot nx (set_state P_RUNNING) (at_slot c (fun p => set_fpu (cpu_vfp k) (cpu_tls k) (f p)) (proc_at (ksch k))) in
  tab (ksch k') g' /\ cur (ksch k') = Some nx /\ next_pid (ksch k') = next_pid (ksch k) /\
  cpu_vfp k' = vfp (proc_at (ksch k) nx) /\ cpu_tls k' = tls (proc_at (ksch k) nx) /\ kvm k' = (vm_switch (p_l1 (proc_at (ksch k) nx)) (kvm k)).2.

(** The updates of [c]'s slot before the switch add up to [f]. *)
Lemma wp_switch k k1 c nx f : running k c -> (nx < NPROC)%nat -> nx <> c ->
  tab (ksch k1) (at_slot c f (proc_at (ksch k))) -> cur (ksch k1) = Some c -> next_pid (ksch k1) = next_pid (ksch k) ->
  cpu_vfp k1 = cpu_vfp k -> cpu_tls k1 = cpu_tls k -> kvm k1 = kvm k ->
  wp (switch_to nx) k1 (fun _ k' => switched k c f nx k').
Proof.
  intros (Ht & Hc & Hcn) Hnx Hne Hg Hc1 Hnp Ev Et Ek. eapply wp_mono; [by apply (switch_to_spec k1 c nx _ Hc1 Hcn Hnx Hg)|].
  cbv beta zeta. intros _ k' ((T1 & T2) & H2 & H3 & H4 & H5 & H6). rewrite at_slot_eq, (at_slot_ne c nx), (at_slot_ne c nx) in H4, H5 by done.
  rewrite at_slot_ne in H6 by done. rewrite Ek in H6. unfold switched. split; [split; [done|]|by rewrite H3].
  intros i Hi. rewrite T2 by done. unfold at_slot. rewrite Ev, Et. by destruct (decide (i = nx)), (decide (i = c)).
Qed.

(** [switched] keeps the invariant when [c] stays runnable, or goes to sleep on
    something that will wake it. *)
Lemma switched_ok G k c f nx k' : procs_inv G (ksch k) -> cur (ksch k) = Some c -> (nx < NPROC)%nat -> nx <> c -> state (proc_at (ksch k) nx) = P_RUNNABLE ->
  (forall p, pid (f p) = pid p /\ parent (f p) = parent p) ->
  (let q := f (proc_at (ksch k) c) in state q = P_RUNNABLE \/
   (state q = P_BLOCKED /\ exists ch, wait_chan q = Some ch /\ forall p, ch = ChProc p -> p = c /\
      forall j, (j < NPROC)%nat -> state (proc_at (ksch k) j) = P_ZOMBIE -> parent (proc_at (ksch k) j) <> Some c)) ->
  switched k c f nx k' -> procs_inv G (ksch k').
Proof.
  intros (Ht & c' & Hc' & I) Hc Hnx Hne Hr Hf Hq (T & H2 & H3 & _). assert (c' = c) by congruence. subst c'.
  set (q := f (proc_at (ksch k) c)) in *. eapply (procs_inv_tab _ _ _ nx); [exact T|exact H2| |].
  - rewrite H3. apply (inv_switch _ _ _ _ I nx (state q) (wait_chan q)); try done.
    destruct Hq as [?|(? & ch & Hch & Hw)]; [by left|right]. split; [done|]. exists ch. split; [done|]. intros p Hp. destruct (Hw p Hp). done.
  - intros i Hi. unfold at_slot, vset. destruct (decide (i = nx)) as [->|]; [by rewrite decide_False by done|].
    destruct (decide (i = c)) as [->|]; [|done]. unfold pv_of, view. cbn. destruct (Hf (proc_at (ksch k) c)) as [-> ->]. done.
Qed.

(** [proc_preempt] resumes the interrupted process, or saves it whole and
    resumes the next one. *)
Lemma proc_preempt_spec k c t : running k c ->
  wp (proc_preempt t) k (fun t' k' => (t' = t /\ k' = k) \/
    exists nx, pick_next (ksch k) = Some nx /\ (nx < NPROC)%nat /\ nx <> c /\ state (proc_at (ksch k) nx) = P_RUNNABLE /\
      cpsr t .& MODE_MASK = MODE_USR /\ switched k c (fun p => set_state P_RUNNABLE (set_tf t p)) nx k' /\ t' = tf (proc_at (ksch k) nx)).
Proof.
  intros Hrun. pose proof Hrun as (Ht & Hc & Hcn). unfold proc_preempt, cur_slot. apply wp_bind, wp_gets. rewrite Hc.
  destruct (Z.eqb_spec (cpsr t .& MODE_MASK) MODE_USR) as [Hm|]; cbn [negb]; [|apply wp_ret; auto].
  apply wp_bind, wp_gets. destruct (pick_next (ksch k)) as [nx|] eqn:Hp; [|apply wp_ret; auto].
  case_bool_decide as Hne; [apply wp_ret; auto|]. destruct (pick_other _ _ _ Hc Hcn Hp) as [Hnx Hr]. specialize (Hr (or_introl Hne)).
  apply wp_bind, wp_upd_slot, wp_bind, wp_upd_slot, wp_bind.
  eapply wp_mono; [apply (wp_switch k _ c nx (fun p => set_state P_RUNNABLE (set_tf t p))); try done|].
  { exact (tab_more _ _ c (set_state P_RUNNABLE) _ (tab_put _ _ c (set_tf t) (tab_self _ Ht) Hcn) Hcn). }
  cbv beta. intros _ k' Hs. apply wp_gets. right. exists nx. do 5 (split; [done|]). split; [done|].
  destruct Hs as ((T1 & T2) & H2 & _). unfold cur_proc. rewrite H2. cbn [default]. rewrite T2, at_slot_eq, at_slot_ne by done. done.
Qed.

Lemma proc_sleep_spec k c ch : running k c ->
  wp (proc_sleep ch) k (fun r k' => (r = false /\ k' = k) \/
    exists nx, r = true /\ pick_next (ksch k) = Some nx /\ (nx < NPROC)%nat /\ nx <> c /\ state (proc_at (ksch k) nx) = P_RUNNABLE /\
      switched k c (fun p => set_tf (set_pc (pc (tf p) -w 4) (tf p)) (set_state P_BLOCKED (set_chan (Some ch) p))) nx k').
Proof.
  intros Hrun. pose proof Hrun as (Ht & Hc & Hcn). unfold proc_sleep, proc_current. apply wp_bind, wp_gets. rewrite Hc. cbn [default].
  apply wp_bind, wp_gets. destruct (pick_next (ksch k)) as [nx|] eqn:Hp; [|apply wp_ret; auto].
  case_bool_decide as Hne; [apply wp_ret; auto|]. destruct (pick_other _ _ _ Hc Hcn Hp) as [Hnx Hr]. specialize (Hr (or_introl Hne)).
  apply wp_bind, wp_upd_slot, wp_bind, wp_upd_slot, wp_bind, wp_upd_slot, wp_bind.
  eapply wp_mono; [apply (wp_switch k _ c nx (fun p => set_tf (set_pc (pc (tf p) -w 4) (tf p)) (set_state P_BLOCKED (set_chan (Some ch) p)))); try done|].
  { exact (tab_more _ _ c _ _ (tab_more _ _ c _ _ (tab_put _ _ c _ (tab_self _ Ht) Hcn) Hcn) Hcn). }
  cbv beta. intros _ k' Hs. apply wp_ret. right. exists nx. done.
Qed.

Lemma running_ok G k : procs_inv G (ksch k) -> exists c, running k c /\ inv G (view (ksch k)) c (next_pid (ksch k)).
Proof. intros (Ht & c & Hc & I). exists c. split; [|done]. split; [done|]. split; [done|]. apply (iv_cur _ _ _ _ I). Qed.

Lemma proc_preempt_ok G k t : procs_inv G (ksch k) -> procs_inv G (ksch (proc_preempt t k).2).
Proof.
  intros H. destruct (running_ok _ k H) as (c & Hrun & _). destruct (proc_preempt_spec k c t Hrun) as [[_ ->]|(nx & _ & Hnx & Hne & Hr & _ & Hs & _)]; [done|].
  eapply switched_ok; [exact H|apply Hrun|exact Hnx|done|done| | |exact Hs]; [done|]. by left.
Qed.

Lemma proc_sleep_ok G k ch : procs_inv G (ksch k) ->
  (forall p, ch = ChProc p -> cur (ksch k) = Some p /\ forall j, (j < NPROC)%nat -> zombie_of p (proc_at (ksch k) j) = false) ->
  procs_inv G (ksch (proc_sleep ch k).2).
Proof.
  intros H Hch. destruct (running_ok _ k H) as (c & Hrun & _). destruct (proc_sleep_spec k c ch Hrun) as [[_ ->]|(nx & _ & _ & Hnx & Hne & Hr & Hs)]; [done|].
  eapply switched_ok; [exact H|apply Hrun|exact Hnx|done|done| | |exact Hs]; [done|]. right. split; [done|]. exists ch. split; [done|].
  intros p Hp. destruct (Hch p Hp) as [Hcur Hz]. assert (p = c) as -> by (destruct Hrun as (_ & E & _); congruence). split; [done|].
  intros j Hj Hzj Hpj. specialize (Hz j Hj). unfold zombie_of in Hz. rewrite (proj2 (has_state_true _ _) Hzj), bool_decide_eq_true_2 in Hz; done.
Qed.

(** ** Fork *)

Lemma alloc_proc_spec (s : sched) : table_ok s ->
  wp alloc_proc s (fun r s' => (r = None /\ s' = s /\ forall i, (i < NPROC)%nat -> state (proc_at s i) <> P_UNUSED) \/
    exists i, r = Some i /\ (i < NPROC)%nat /\ state (proc_at s i) = P_UNUSED /\ cur s' = cur s /\ next_pid s' = s32 (next_pid s + 1) /\
      tab s' (at_slot i (fun p => fresh_proc (next_pid s) (set_state P_EMBRYO p)) (proc_at s))).
Proof.
  intros Ht. unfold alloc_proc. apply wp_bind, wp_gets. destruct (find_from _ _ _) as [z|] eqn:E.
  - apply find_from_Some in E as (Hz & Hu & _). unfold upd_proc. do 4 (wp_step; wp_step). wp_step. cbn [fst snd].
    right. exists (Z.to_nat z). unfold NPROC in Hz |- *. split; [done|]. split; [lia|]. split; [by apply has_state_true|]. split; [done|]. split; [done|].
    assert (Hi : (Z.to_nat z < NPROC)%nat) by (unfold NPROC; lia).
    exact (tab_more (set_next_pid (s32 (next_pid s + 1)) _) _ (Z.to_nat z) (fresh_proc (next_pid s)) _ (tab_put _ _ (Z.to_nat z) (set_state P_EMBRYO) (tab_self _ Ht) Hi) Hi).
  - apply wp_ret. left. split; [done|]. split; [done|]. intros i Hi Hu. pose proof (proj1 (find_from_None _ _ _) E (Z.of_nat i)) as Hn.
    cbv beta in Hn. rewrite Nat2Z.id in Hn. apply has_state_true in Hu. rewrite Hn in Hu; [done|]. unfold NPROC in *. lia.
Qed.

(** the return value in the current frame *)
Definition ret (v : Z) (p : proc) : proc := set_tf (set_reg 0 (u32 v) (tf p)) p.

(** the child of [p] in a slot that held [q] *)
Definition child (k : kern A) (c : nat) (sp l1 : Z) (q : proc) : proc :=
  let p := proc_at (ksch k) c in
  let t := set_reg 0 0 (tf p) in
  set_fpu (cpu_vfp k) (cpu_tls k) (set_sigs (sig_blocked p) (sigact p) (set_layout (brk_start p) (brk p) (brk_ceiling p) (mmap_top p)
    (set_cwd (cwd p) (set_tf (if negb (sp =? 0) then set_sp sp t else t) (set_parent_of (Some c) (set_l1 l1 (fresh_proc (next_pid (ksch k)) q))))))).

(** What a fork does to the memory: the table of the child, if it gets one. *)
Definition fork_vm (l1p : Z) : M (vms A) (option Z) :=
  l1 ← vm_create;
  if l1 =? 0 then mret None
  else
    rc ← vm_copy l1 l1p;
    if negb (rc =? 0) then vm_destroy l1 ≫= fun _ => mret None else sync_icache ≫= fun _ => mret (Some l1).

Lemma fork_vm_none l1p v v1 : vm_create v = (0, v1) -> fork_vm l1p v = (None, v1).
Proof. intros E. unfold fork_vm, mbind, M_bind. by rewrite E. Qed.

Lemma fork_vm_fail l1p v l1 v1 rc v2 v3 : vm_create v = (l1, v1) -> l1 <> 0 -> vm_copy l1 l1p v1 = (rc, v2) -> rc <> 0 -> vm_destroy l1 v2 = (tt, v3) ->
  fork_vm l1p v = (None, v3).
Proof. intros E Hl E2 Hrc E3. unfold fork_vm, mbind, M_bind. rewrite E, (proj2 (Z.eqb_neq _ _) Hl), E2, (proj2 (Z.eqb_neq _ _) Hrc). cbn [negb]. by rewrite E3. Qed.

Lemma fork_vm_ok l1p v l1 v1 v2 v3 : vm_create v = (l1, v1) -> l1 <> 0 -> vm_copy l1 l1p v1 = (0, v2) -> sync_icache v2 = (tt, v3) -> fork_vm l1p v = (Some l1, v3).
Proof. intros E Hl E2 E3. unfold fork_vm, mbind, M_bind. rewrite E, (proj2 (Z.eqb_neq _ _) Hl), E2, Z.eqb_refl. cbn [negb]. by rewrite E3. Qed.

(** The process table after a fork; [o] is the table of the child. *)
Definition forked (k : kern A) (c : nat) (sp : Z) (o : option Z) (s' : sched) : Prop :=
  table_ok s' /\ cur s' = Some c /\
  ((exists e, o = None /\ (e = -11 \/ e = -12) /\ (next_pid s' = next_pid (ksch k) \/ next_pid s' = s32 (next_pid (ksch k) + 1)) /\ forall j, (j < NPROC)%nat -> proc_at s' j = at_slot c (ret e) (proc_at (ksch k)) j \/
      (state (proc_at (ksch k) j) = P_UNUSED /\ state (proc_at s' j) = P_UNUSED)) \/
   (exists i l1, o = Some l1 /\ (i < NPROC)%nat /\ state (proc_at (ksch k) i) = P_UNUSED /\ l1 <> 0 /\ next_pid s' = s32 (next_pid (ksch k) + 1) /\
      ctx (proc_at s' i) = ctx (child k c sp l1 (proc_at (ksch k) i)) /\ state (proc_at s' i) = P_RUNNABLE /\ wait_chan (proc_at s' i) = None /\ cwd (proc_at s' i) = cwd (proc_at (ksch k) c) /\
      forall j, (j < NPROC)%nat -> j <> i -> quiet (at_slot c (ret (next_pid (ksch k))) (proc_at (ksch k)) j) (proc_at s' j))).

Lemma wp_set_ret v k c (Q : unit -> kern A -> Prop) : cur (ksch k) = Some c -> Q tt (set_ksch (put_slot c (ret v) (ksch k)) k) -> wp (set_ret v) k Q.
Proof. intros Hc HQ. unfold set_ret, upd_cur, proc_current. apply wp_bind, wp_gets. rewrite Hc. exact HQ. Qed.

(** A fork that fails gives the slot back. *)
Lemma fork_fails k k1 c i f sp e : running k c -> e = -11 \/ e = -12 -> (i < NPROC)%nat -> state (proc_at (ksch k) i) = P_UNUSED ->
  tab (ksch k1) (at_slot i f (proc_at (ksch k))) -> cur (ksch k1) = Some c -> next_pid (ksch k1) = s32 (next_pid (ksch k) + 1) ->
  state (proc_at (ksch k) c) = P_RUNNING ->
  wp (upd_slot i (set_state P_UNUSED) ≫= fun _ => set_ret e) k1 (fun _ k' => forked k c sp None (ksch k') /\ kvm k' = kvm k1).
Proof.
  intros (Ht & Hc & Hcn) He Hi Hu T Hc1 Hn Hrun. apply wp_bind, wp_upd_slot, (wp_set_ret e _ c); [done|].
  assert (i <> c) by congruence.
  pose proof (tab_put _ _ c (ret e) (tab_put _ _ i (set_state P_UNUSED) T Hi) Hcn) as [T1 T2].
  split; [|done]. change (forked k c sp None (put_slot c (ret e) (put_slot i (set_state P_UNUSED) (ksch k1)))).
  split; [exact T1|]. split; [done|]. left. exists e. split; [done|]. split; [done|]. split; [by right|]. intros j Hj. rewrite T2 by done.
  unfold at_slot. destruct (decide (j = i)) as [->|]; [right|left].
  - by rewrite decide_False.
  - done.
Qed.

Lemma fdtable_copy_mem i c : Keeps eq (fun f : fp (kmem A) => fmem (fsys f)) (fdtable_copy i c).
Proof. unfold fdtable_copy, set_fd, upd_file. calm; by intros k. Qed.

Lemma ctx_fill w b1 b2 b3 b4 m a v t x y : ctx x = ctx y ->
  ctx (set_state P_RUNNABLE (set_fpu v t (set_sigs m a (set_layout b1 b2 b3 b4 (set_cwd w x))))) = ctx (set_fpu v t (set_sigs m a (set_layout b1 b2 b3 b4 (set_cwd w y)))).
Proof. destruct x, y. intros [=]. subst. done. Qed.

Lemma set_sp_tf sp r q : set_tf (set_sp sp (tf (set_tf r q))) (set_tf r q) = set_tf (set_sp sp r) q.
Proof. by destruct q. Qed.

Lemma embryo_view t par l n q : pv_of (set_tf t (set_parent_of par (set_l1 l (fresh_proc n (set_state P_EMBRYO q))))) = Pv n P_EMBRYO par None.
Proof. by destruct q. Qed.

Lemma ctx_embryo t par l n st q : ctx (set_tf t (set_parent_of par (set_l1 l (fresh_proc n (set_state st q))))) = ctx (set_tf t (set_parent_of par (set_l1 l (fresh_proc n q)))).
Proof. by destruct q. Qed.

(** The part of a fork that cannot fail. *)
Lemma fork_fills k k1 c i l1 sp : running k c -> (i < NPROC)%nat -> i <> c -> state (proc_at (ksch k) i) = P_UNUSED -> l1 <> 0 ->
  tab (ksch k1) (at_slot i (fun p => set_l1 l1 (fresh_proc (next_pid (ksch k)) (set_state P_EMBRYO p))) (proc_at (ksch k))) ->
  cur (ksch k1) = Some c -> next_pid (ksch k1) = s32 (next_pid (ksch k) + 1) -> cpu_vfp k1 = cpu_vfp k -> cpu_tls k1 = cpu_tls k ->
  let p := proc_at (ksch k) c in
  wp (upd_slot i (set_parent_of (Some c)) ≫= fun _ =>
      upd_slot i (set_tf (set_reg 0 0 (tf p))) ≫= fun _ =>
      (if negb (sp =? 0) then upd_slot i (fun q => set_tf (set_sp sp (tf q)) q) else mret tt) ≫= fun _ =>
      in_kfp (fdtable_copy i c) ≫= fun _ =>
      upd_slot i (set_cwd (cwd p)) ≫= fun _ =>
      upd_slot i (set_layout (brk_start p) (brk p) (brk_ceiling p) (mmap_top p)) ≫= fun _ =>
      upd_slot i (set_sigs (sig_blocked p) (sigact p)) ≫= fun _ =>
      save_fpu i ≫= fun _ =>
      upd_slot i (set_state P_RUNNABLE) ≫= fun _ =>
      q ← slot i;
      set_ret (pid q)) k1 (fun _ k' => forked k c sp (Some l1) (ksch k') /\ kvm k' = kvm k1).
Proof.
  intros (Ht & Hc & Hcn) Hi Hic Hu Hl1 T Hc1 Hn Ev Et p. apply wp_bind, wp_upd_slot, wp_bind, wp_upd_slot, wp_bind.
  set (t1 := if negb (sp =? 0) then set_sp sp (set_reg 0 0 (tf p)) else set_reg 0 0 (tf p)).
  set (y := set_tf t1 (set_parent_of (Some c) (set_l1 l1 (fresh_proc (next_pid (ksch k)) (set_state P_EMBRYO (proc_at (ksch k) i)))))).
  apply (wp_mono _ _ (fun _ k2 => tab (ksch k2) (at_slot i (fun _ => y) (proc_at (ksch k))) /\ cur (ksch k2) = Some c /\ next_pid (ksch k2) = s32 (next_pid (ksch k) + 1) /\
    cpu_vfp k2 = cpu_vfp k /\ cpu_tls k2 = cpu_tls k /\ kvm k2 = kvm k1)).
  { pose proof (tab_more _ _ i (set_tf (set_reg 0 0 (tf p))) _ (tab_more _ _ i (set_parent_of (Some c)) _ T Hi) Hi) as T1. subst t1. destruct (negb (sp =? 0)).
    - apply wp_upd_slot. split; [|done]. eapply tab_at; [exact (tab_more _ _ i (fun q => set_tf (set_sp sp (tf q)) q) _ T1 Hi)|exact (set_sp_tf _ _ _)].
    - apply wp_ret. split; [|done]. eapply tab_at; [exact T1|]. reflexivity. }
  intros _ k2 (T2 & Hc2 & Hn2 & Ev2 & Et2 & Ek2). apply wp_bind. unfold in_kfp. apply wp_zoom, wp_self. intros [] fp' Ef.
  pose proof (fdtable_copy_mem i c (kfp k2)) as HM. rewrite Ef in HM. cbn [snd] in HM.
  pose proof (Calm_copy i c (kfp k2)) as HC. rewrite Ef in HC. cbn [snd] in HC.
  destruct (HC (proj1 T2)) as (Ht3 & Hc3 & Hn3 & Q). change (psch (kfp k2)) with (ksch k2) in *.
  do 3 apply wp_bind, wp_upd_slot. apply wp_bind. unfold save_fpu. do 2 apply wp_bind, wp_gets. apply wp_upd_slot, wp_bind, wp_upd_slot, wp_bind, wp_gets.
  apply (wp_set_ret _ _ c); [change (cur (psch fp') = Some c); congruence|].
  set (F := fun q => set_state P_RUNNABLE (set_fpu (cpu_vfp k2) (cpu_tls k2) (set_sigs (sig_blocked p) (sigact p)
    (set_layout (brk_start p) (brk p) (brk_ceiling p) (mmap_top p) (set_cwd (cwd p) q))))).
  match goal with |- forked _ _ _ _ (ksch (set_ksch (put_slot c (ret ?v) ?s) _)) /\ _ => set (s5 := s); set (pv' := v) end.
  split; [|rewrite <- Ek2; unfold kvm, kfs; cbn; by rewrite HM].
  assert (T5 : tab s5 (at_slot i F (proc_at (psch fp')))).
  { exact (tab_more _ _ i (set_state P_RUNNABLE) _ (tab_more _ _ i (set_fpu (cpu_vfp k2) (cpu_tls k2)) _ (tab_more _ _ i (set_sigs (sig_blocked p) (sigact p)) _
      (tab_more _ _ i (set_layout (brk_start p) (brk p) (brk_ceiling p) (mmap_top p)) _ (tab_put _ _ i (set_cwd (cwd p)) (tab_self _ Ht3) Hi) Hi) Hi) Hi) Hi). }
  destruct (Q i Hi) as [Qc Qw]. rewrite (proj2 T2), at_slot_eq in Qc, Qw by done.
  assert (Ey : pv_of (proc_at (psch fp') i) = Pv (next_pid (ksch k)) P_EMBRYO (Some c) None) by (destruct Qw as [->|[? _]]; [exact (embryo_view _ _ _ _ _)|done]).
  assert (Epid : pv' = next_pid (ksch k)). { change pv' with (pid (proc_at s5 i)). rewrite (proj2 T5), at_slot_eq by done. by injection Ey. }
  destruct (tab_put _ _ c (ret pv') T5 Hcn) as [X1 X2]. change (forked k c sp (Some l1) (put_slot c (ret pv') s5)).
  split; [exact X1|]. split; [change (cur (psch fp') = Some c); congruence|]. right. exists i, l1.
  split; [done|]. split; [done|]. split; [done|]. split; [done|]. split; [change (next_pid (psch fp') = s32 (next_pid (ksch k) + 1)); congruence|].
  rewrite (X2 i Hi), at_slot_ne, at_slot_eq by done.
  split; [unfold F, child; rewrite Ev2, Et2; apply ctx_fill; rewrite Qc; unfold y; apply ctx_embryo|].
  split; [done|]. split; [by injection Ey|]. split; [done|]. intros j Hj Hji. rewrite (X2 j Hj), Epid.
  pose proof (Q j Hj) as Qj. rewrite (proj2 T2), at_slot_ne in Qj by done. destruct (decide (j = c)) as [->|Hjc].
  - rewrite !at_slot_eq, at_slot_ne by done. destruct Qj as [C1 W1]. split; [|exact W1].
    unfold ret. destruct (proc_at (psch fp') c), (proc_at (ksch k) c). injection C1 as. subst. done.
  - rewrite !at_slot_ne by done. done.
Qed.

Lemma do_fork_spec k c sp : running k c -> state (proc_at (ksch k) c) = P_RUNNING -> wp (do_fork sp) k (fun _ k' =>
  exists o, forked k c sp o (ksch k') /\ ((o = None /\ kvm k' = kvm k) \/ fork_vm (p_l1 (proc_at (ksch k) c)) (kvm k) = (o, kvm k'))).
Proof.
  intros Hrun Hst. pose proof Hrun as (Ht & Hc & Hcn). unfold do_fork. apply wp_bind. unfold in_ksch at 1. apply wp_zoom.
  eapply wp_mono; [by apply alloc_proc_spec|]. intros r s1 [(-> & -> & _)|(i & -> & Hi & Hu & Hc1 & Hn & T)].
  { apply (wp_set_ret _ _ c); [done|]. pose proof (tab_put _ _ c (ret (-11)) (tab_self _ Ht) Hcn) as [T1 T2]. exists None. split; [|by left].
    split; [exact T1|]. split; [done|]. left. exists (-11). split; [done|]. split; [auto|]. split; [by left|]. intros j Hj. left. by apply T2. }
  rewrite Hc in Hc1. assert (Hic : i <> c) by congruence. set (p := proc_at (ksch k) c).
  apply wp_bind, wp_vm_any. intros l1 v1 E1. change (vm_create (kvm k) = (l1, v1)) in E1. apply wp_bind, wp_upd_slot.
  assert (T1 : tab (put_slot i (set_l1 l1) s1) (at_slot i (fun p => set_l1 l1 (fresh_proc (next_pid (ksch k)) (set_state P_EMBRYO p))) (proc_at (ksch k)))).
  { exact (tab_more _ _ i (set_l1 l1) _ T Hi). }
  assert (Fails : forall k1 v e, e = -12 -> ksch k1 = put_slot i (set_l1 l1) s1 -> kvm k1 = v -> fork_vm (p_l1 p) (kvm k) = (None, v) ->
    wp (upd_slot i (set_state P_UNUSED) ≫= fun _ => set_ret e) k1 (fun _ k' => exists o, forked k c sp o (ksch k') /\ ((o = None /\ kvm k' = kvm k) \/ fork_vm (p_l1 p) (kvm k) = (o, kvm k')))).
  { intros k1 v e -> Ek Ev EF. eapply wp_mono; [eapply (fork_fails k); [done|by right|exact Hi|done|rewrite Ek; exact T1|rewrite Ek; done|rewrite Ek; done|done]|].
    cbv beta. intros _ k' [F Ekv]. exists None. split; [exact F|]. right. by rewrite Ekv, Ev. }
  destruct (Z.eqb_spec l1 0) as [->|Hl1]; [apply (Fails _ v1); [done|done|by rewrite kvm_set_ksch, kvm_set|exact (fork_vm_none _ _ _ E1)]|].
  apply wp_bind, wp_gets. set (k2 := set_ksch _ _). assert (Es2 : ksch k2 = put_slot i (set_l1 l1) s1) by done. assert (Ek2 : kvm k2 = v1) by (unfold k2; by rewrite kvm_set_ksch, kvm_set).
  assert (Ec2 : cpu_vfp k2 = cpu_vfp k /\ cpu_tls k2 = cpu_tls k) by done. clearbody k2. destruct T1 as [T1 G1].
  assert (Ecur : cur_proc k2 = p). { unfold cur_proc. rewrite Es2. change (cur (put_slot i (set_l1 l1) s1)) with (cur s1). rewrite Hc1. change (default O (Some c)) with c. by rewrite G1, at_slot_ne. }
  rewrite Ecur. apply wp_bind, wp_vm_any. intros rc v2 E2. rewrite Ek2 in E2. destruct (Z.eqb_spec rc 0) as [->|Hrc]; cbn [negb].
  2:{ apply wp_bind, wp_vm_any. rewrite kvm_set. intros [] v3 E3. apply (Fails _ v3); [done|done|by rewrite kvm_set|exact (fork_vm_fail _ _ _ _ _ _ _ E1 Hl1 E2 Hrc E3)]. }
  apply wp_bind, wp_vm_any. rewrite kvm_set. intros [] v3 E3. apply wp_bind. unfold proc_current at 1. apply wp_gets. rewrite !ksch_set_kvm, Es2.
  change (default O (cur (put_slot i (set_l1 l1) s1))) with (default O (cur s1)). rewrite Hc1. change (default O (Some c)) with c.
  eapply wp_mono; [apply (fork_fills k _ c i l1); [done|done|done|done|done|rewrite !ksch_set_kvm, Es2; by split|rewrite !ksch_set_kvm, Es2; exact Hc1|rewrite !ksch_set_kvm, Es2; exact Hn|exact (proj1 Ec2)|exact (proj2 Ec2)]|].
  cbv beta. intros _ k' [F Ekv]. exists (Some l1). split; [exact F|]. right. rewrite Ekv, !kvm_set. exact (fork_vm_ok _ _ _ _ _ _ E1 Hl1 E2 E3).
Qed.

Lemma ctx_pid p : pid (ctx p) = pid p.
Proof. done. Qed.
Lemma ctx_parent p : parent (ctx p) = parent p.
Proof. done. Qed.

Lemma child_view k c sp l1 q : pid (child k c sp l1 q) = next_pid (ksch k) /\ parent (child k c sp l1 q) = Some c.
Proof. by destruct q. Qed.

Lemma forked_ok G k c sp o s' : procs_inv G (ksch k) -> cur (ksch k) = Some c -> forked k c sp o s' -> procs_inv (G /\ pids_left (ksch k)) s'.
Proof.
  intros (Ht & c' & Hc' & I) Hc (Ht' & Hcur & H). assert (c' = c) by congruence. subst c'.
  assert (R : forall e j, pv_of (at_slot c (ret e) (proc_at (ksch k)) j) = view (ksch k) j) by (intros e j; unfold at_slot; by destruct (decide (j = c))).
  assert (L : G /\ pids_left (ksch k) -> next_pid (ksch k) < s32 (next_pid (ksch k) + 1)).
  { intros [g L]. apply next_number; [|done]. destruct (nb_init _ _ (proj2 I g)) as (i & Hi & Hu & <- & _). exact (nb_pid _ _ (proj2 I g) i Hi Hu). }
  apply (inv_weaken _ (G /\ pids_left (ksch k))) in I; [|tauto].
  split; [done|]. exists c. split; [done|]. destruct H as [(e & _ & _ & Hn & H)|(i & l1 & _ & Hi & Hu & _ & Hn & Hctx & Hst & Hch & _ & H)].
  - apply (inv_unused _ _ _ _ _ _ I). { intros g. specialize (L g). destruct Hn as [->| ->]; lia. }
    intros j Hj. destruct (H j Hj) as [E|E]; [left|by right]. unfold view at 1. by rewrite E, R.
  - rewrite Hn. set (w := fun j => if decide (j = i) then view (ksch k) i else view s' j).
    assert (Iw : inv (G /\ pids_left (ksch k)) w c (next_pid (ksch k))).
    { apply (inv_calm _ _ _ _ I). intros j Hj. unfold w. destruct (decide (j = i)) as [->|Hji]; [by left|]. rewrite <- (R (next_pid (ksch k))). apply (H j Hj Hji). }
    eapply inv_ext; [|apply (inv_fork _ _ _ _ Iw i); [exact Hi| |exact L]].
    + intros j Hj. unfold vset, w. destruct (decide (j = i)) as [->|]; [|done]. unfold view, pv_of. rewrite Hst, Hch.
      destruct (child_view k c sp l1 (proc_at (ksch k) i)) as [<- <-].
      rewrite <- (ctx_pid (proc_at s' i)), <- (ctx_parent (proc_at s' i)), Hctx, ctx_pid, ctx_parent. done.
    + unfold w. by rewrite decide_True.
Qed.

Lemma do_fork_ok G k sp : procs_inv G (ksch k) -> procs_inv (G /\ pids_left (ksch k)) (ksch (do_fork sp k).2).
Proof.
  intros H. destruct (running_ok _ k H) as (c & Hrun & I). destruct (do_fork_spec k c sp Hrun) as (o & F & _); [apply (iv_cur _ _ _ _ I)|].
  apply (forked_ok G k c sp o); [done|apply Hrun|exact F].
Qed.

(** ** Exit *)

(** as [woken], but for the parent *)
Definition moved (q w : pv) : Prop := v_pid w = v_pid q /\ ((v_st w = v_st q /\ v_ch w = v_ch q) \/ (v_st q = P_BLOCKED /\ v_st w = P_RUNNABLE)).

#[local] Instance moved_preorder : PreOrder moved.
Proof.
  split; [split; auto|]. intros q w x [E1 H1] [E2 H2]. split; [congruence|].
  destruct H1 as [[A1 A2]|[A1 A2]], H2 as [[B1 B2]|[B1 B2]]; [left|right|right|]; try split; congruence.
Qed.

Lemma woken_moved q w : woken q w -> moved q w /\ v_par w = v_par q.
Proof. intros [->|[Hb ->]]; [done|]. split; [|done]. split; [done|]. right. done. Qed.

Lemma moved_state q w st : moved q w -> st <> P_RUNNABLE -> st <> P_BLOCKED -> v_st w = st <-> v_st q = st.
Proof. intros [_ [[-> _]|[H1 H2]]] H3 H4; [done|]. rewrite H1, H2. split; congruence. Qed.

Definition asleep (q : pv) (ch : chan) : Prop := v_st q = P_BLOCKED /\ v_ch q = Some ch.

Lemma moved_asleep q w ch : moved q w -> asleep w ch -> asleep q ch.
Proof. intros [_ [[E1 E2]|[_ E]]] [H1 H2]; [split; congruence|congruence]. Qed.

Lemma wake_asleep s ch i : table_ok s -> (i < NPROC)%nat ->
  moved (view s i) (view (set_proctab (wake ch <$> proctab s) s) i) /\ v_par (view (set_proctab (wake ch <$> proctab s) s) i) = v_par (view s i) /\
  ~ asleep (view (set_proctab (wake ch <$> proctab s) s) i) ch.
Proof.
  intros Ht Hi. unfold view. rewrite proc_at_wake by done. destruct (woken_moved _ _ (wake_woken ch (proc_at s i))) as [H1 H2].
  split; [done|]. split; [done|]. unfold wake, asleep. destruct (has_state P_BLOCKED (proc_at s i)) eqn:Hb.
  - case_bool_decide as Hc; cbn; [by intros [? _]|]. by intros [_ ?].
  - cbn. intros [E _]. apply has_state_true in E. congruence.
Qed.

(** After [n] rounds: the children of [c] among the first slots have gone to
    [i0], who was woken when there was a dead one. *)
Definition handed (s2 : sched) (c i0 : nat) (n : Z) (s : sched) : Prop :=
  table_ok s /\ cur s = cur s2 /\ next_pid s = next_pid s2 /\
  forall j, (j < NPROC)%nat -> moved (view s2 j) (view s j) /\
    v_par (view s j) = (if bool_decide (Z.of_nat j < n /\ j <> c /\ used (view s2 j) /\ v_par (view s2 j) = Some c) then Some i0 else v_par (view s2 j)) /\
    (Z.of_nat j < n -> j <> c -> v_st (view s2 j) = P_ZOMBIE -> v_par (view s2 j) = Some c -> ~ asleep (view s i0) (ChProc i0)).

Lemma view_parent s i i0 j : table_ok s -> (i < NPROC)%nat ->
  view (put_slot i (set_parent_of (Some i0)) s) j = if decide (j = i) then Pv (v_pid (view s i)) (v_st (view s i)) (Some i0) (v_ch (view s i)) else view s j.
Proof. intros Ht Hi. unfold view, put_slot. rewrite proc_at_upd by done. by destruct (decide (j = i)). Qed.

Lemma reparent_round s2 c i0 n s : (i0 < NPROC)%nat -> 0 <= n < Z.of_nat NPROC -> handed s2 c i0 n s ->
  wp (reparent c i0 n) s (fun _ s' => handed s2 c i0 (n + 1) s').
Proof.
  intros Hi0 Hn (Hts & Hc & Hnp & H). unfold reparent. set (i := Z.to_nat n). assert (Hi : (i < NPROC)%nat) by lia. destruct (H i Hi) as (Hmv & Hpar & _).
  rewrite bool_decide_eq_false_2 in Hpar by lia. apply wp_bind, wp_gets.
  set (child := negb (bool_decide (i = c)) && negb (has_state P_UNUSED (proc_at s i)) && bool_decide (parent (proc_at s i) = Some c)).
  assert (Hchild : child = bool_decide (i <> c /\ used (view s2 i) /\ v_par (view s2 i) = Some c)).
  { assert (Hu : used (view s2 i) <-> has_state P_UNUSED (proc_at s i) = false).
    { unfold used. rewrite <- (moved_state _ _ P_UNUSED Hmv) by done. unfold has_state. by rewrite bool_decide_eq_false. }
    unfold child. change (parent (proc_at s i)) with (v_par (view s i)). rewrite Hpar. apply eq_bool_prop_intro. rewrite !andb_True, !negb_True, !bool_decide_spec, Hu.
    destruct (has_state _ _); naive_solver. }
  assert (Hlt : forall j, (j < NPROC)%nat -> Z.of_nat j < n + 1 -> Z.of_nat j < n \/ j = i) by lia.
  destruct child eqn:E; symmetry in Hchild; [apply bool_decide_eq_true in Hchild|apply bool_decide_eq_false in Hchild].
  - apply wp_bind. unfold upd_proc. apply wp_modify. fold (put_slot i (set_parent_of (Some i0)) s). set (s1 := put_slot _ _ s).
    assert (H1 : forall j, (j < NPROC)%nat -> moved (view s2 j) (view s1 j) /\ v_par (view s1 j) =
      (if bool_decide (Z.of_nat j < n + 1 /\ j <> c /\ used (view s2 j) /\ v_par (view s2 j) = Some c) then Some i0 else v_par (view s2 j))).
    { intros j Hj. unfold s1. rewrite view_parent by done. destruct (decide (j = i)) as [->|Hji].
      - split; [by split; [apply Hmv|]; destruct Hmv as [_ ?]|]. rewrite bool_decide_eq_true_2; [done|]. split; [lia|done].
      - destruct (H j Hj) as (A1 & -> & _). split; [done|]. erewrite bool_decide_ext; [done|]. split; intros [? ?]; (split; [lia|done]). }
    assert (Hz : has_state P_ZOMBIE (proc_at s i) = true <-> v_st (view s2 i) = P_ZOMBIE).
    { rewrite has_state_true. exact (moved_state _ _ P_ZOMBIE Hmv ltac:(done) ltac:(done)). }
    assert (Ht1 : table_ok s1) by (by apply table_ok_upd). destruct (has_state P_ZOMBIE (proc_at s i)).
    + unfold proc_wakeup. apply wp_modify. split; [unfold table_ok; cbn; by rewrite length_fmap|]. do 2 (split; [done|]). intros j Hj.
      destruct (H1 j Hj) as [A1 A2], (wake_asleep s1 (ChProc i0) j Ht1 Hj) as (B1 & B2 & _). split; [by etrans|]. split; [by rewrite B2|].
      intros _ _ _ _. apply (wake_asleep s1 (ChProc i0) i0 Ht1 Hi0).
    + apply wp_ret. split; [done|]. do 2 (split; [done|]). intros j Hj. destruct (H1 j Hj) as [A1 A2]. split; [done|]. split; [done|].
      intros Hjn Hjc Hjz Hjp Has. destruct (Hlt j Hj Hjn) as [Hlt'| ->]; [|apply Hz in Hjz; done].
      apply (proj2 (proj2 (H j Hj)) Hlt' Hjc Hjz Hjp). unfold s1 in Has. rewrite view_parent in Has by done. destruct (decide (i0 = i)) as [->|]; [|done].
      exact Has.
  - apply wp_ret. do 3 (split; [done|]). intros j Hj. destruct (H j Hj) as (A1 & A2 & A3). split; [done|]. split.
    + rewrite A2. erewrite bool_decide_ext; [done|]. split; [intros [? ?]; split; [lia|done]|]. intros (B1 & B2). destruct (Hlt j Hj B1) as [?| ->]; [done|]. destruct (Hchild B2).
    + intros Hjn Hjc Hjz Hjp. destruct (Hlt j Hj Hjn) as [?| ->]; [by apply A3|]. destruct Hchild. unfold used. rewrite Hjz. done.
Qed.

Lemma reparent_spec s2 c i0 : table_ok s2 -> (i0 < NPROC)%nat -> wp (forM NPROC 0 1 (reparent c i0)) s2 (fun _ s => handed s2 c i0 (Z.of_nat NPROC) s).
Proof.
  intros Ht Hi0. eapply wp_mono; [apply (wp_forM _ _ _ _ _ (handed s2 c i0))|].
  - do 3 (split; [done|]). intros j Hj. split; [done|]. split; [|lia]. rewrite bool_decide_eq_false_2; [done|lia].
  - intros n s Hn. rewrite Z.mul_1_r, Z.add_0_l, Z.mul_1_r, Z.add_0_l. by apply reparent_round.
  - done.
Qed.

Section exit.
Context (G : Prop) (v : nat -> pv) (c : nat) (np : Z) (I : inv G v c np).
Local Abbreviation dead := (Pv (v_pid (v c)) P_ZOMBIE (v_par (v c)) (v_ch (v c))).

(** [c] is dead and has closed its files *)
Definition closed (s : sched) : Prop :=
  table_ok s /\ cur s = Some c /\ next_pid s = np /\ view s c = dead /\ forall j, (j < NPROC)%nat -> j <> c -> woken (v j) (view s j).

(** its children have gone to init, in slot [i0] *)
Definition orphaned (i0 : nat) (s : sched) : Prop :=
  table_ok s /\ cur s = Some c /\ next_pid s = np /\ view s c = dead /\ forall j, (j < NPROC)%nat -> j <> c -> moved (v j) (view s j) /\
    v_par (view s j) = (if bool_decide (i0 <> c /\ used (v j) /\ v_par (v j) = Some c) then Some i0 else v_par (v j)) /\
    (i0 <> c -> v_st (v j) = P_ZOMBIE -> v_par (v j) = Some c -> ~ asleep (view s i0) (ChProc i0)).

Lemma dead_moved w : moved dead w -> v_par w = v_par (v c) -> w = dead.
Proof. destruct w. intros [E [[E1 E2]|[E1 _]]] E3; [|done]. cbn in *. congruence. Qed.

(** who is init can be seen from the dead state too *)
Lemma init_slot_closed s : closed s -> let i0 := default c (init_slot s) in (i0 < NPROC)%nat /\ (G -> used (v i0) /\ v_pid (v i0) = 1).
Proof.
  intros (Ht & Hc & _ & Hd & Hw). pose proof (iv_cur _ _ _ _ I) as [Hcn Hcr].
  assert (V : forall j, (j < NPROC)%nat -> v_pid (view s j) = v_pid (v j) /\ (used (view s j) <-> used (v j))).
  { intros j Hj. destruct (decide (j = c)) as [->|Hjc]; [|destruct (woken_same _ _ (Hw j Hj Hjc)) as (E & _ & U & _); done].
    rewrite Hd. unfold used. cbn. rewrite Hcr. done. }
  unfold init_slot. destruct (find_from _ _ _) as [z|] eqn:E.
  - apply find_from_Some in E as (Hz & Hb & _). apply andb_true_iff in Hb as [Hp Hu].
    assert (Hi : (Z.to_nat z < NPROC)%nat) by lia. destruct (V _ Hi) as [Ep Eu]. change (default c (Z.to_nat <$> Some z)) with (Z.to_nat z). split; [done|]. intros _. split.
    + apply Eu. unfold used. apply negb_true_iff in Hu. unfold has_state in Hu. by apply bool_decide_eq_false in Hu.
    + rewrite <- Ep. by apply Z.eqb_eq in Hp.
  - split; [done|]. intros g. destruct (nb_init _ _ (proj2 I g)) as (i0 & Hi0 & Hu0 & Hp0 & _). pose proof (proj1 (find_from_None _ _ _) E (Z.of_nat i0)) as Hn. cbv beta in Hn.
    rewrite Nat2Z.id in Hn. destruct (V i0 Hi0) as [Ep Eu]. apply Eu in Hu0. change (pid (proc_at s i0)) with (v_pid (view s i0)) in Hn.
    rewrite Ep, Hp0 in Hn. unfold has_state in Hn. rewrite bool_decide_eq_false_2 in Hn by done. specialize (Hn ltac:(lia)). done.
Qed.

Lemma closed_reparent i0 s : closed s -> (i0 < NPROC)%nat ->
  wp (if bool_decide (i0 = c) then mret tt else forM NPROC 0 1 (reparent c i0)) s (fun _ s' => orphaned i0 s').
Proof.
  intros (Ht & Hc & Hnp & Hd & Hw) Hi0. pose proof (iv_cur _ _ _ _ I) as [Hcn _]. case_bool_decide as Hic.
  - apply wp_ret. do 4 (split; [done|]). intros j Hj Hjc. destruct (woken_moved _ _ (Hw j Hj Hjc)) as [H1 H2]. split; [done|].
    rewrite bool_decide_eq_false_2 by tauto. done.
  - eapply wp_mono; [by apply reparent_spec|]. intros _ s' (Ht' & Hc' & Hn' & H). split; [done|]. split; [congruence|]. split; [congruence|].
    split. { destruct (H c Hcn) as (M & P & _). rewrite Hd in M, P. apply dead_moved; [exact M|]. rewrite P, bool_decide_eq_false_2 by tauto. done. }
    intros j Hj Hjc. destruct (H j Hj) as (M & P & Z). pose proof (woken_moved _ _ (Hw j Hj Hjc)) as [Wm Wp].
    destruct (woken_same _ _ (Hw j Hj Hjc)) as (_ & _ & Wu & _ & Wz).
    split; [by etrans|]. split.
    + rewrite P, Wp. erewrite bool_decide_ext; [done|]. rewrite Wu. split; [tauto|]. intros (A1 & A2 & A3). split; [lia|tauto].
    + intros _ Hz Hp. apply Z; [lia|done|by apply Wz|congruence].
Qed.

(** the state in which the next process is picked *)
Definition exiting (i0 : nat) (s : sched) : Prop := orphaned i0 s /\ forall p, v_par (v c) = Some p -> ~ asleep (view s p) (ChProc p).

Lemma orphaned_wake i0 s : orphaned i0 s -> (i0 < NPROC)%nat ->
  wp (match v_par (v c) with Some i => proc_wakeup (ChProc i) | None => mret tt end) s (fun _ s' => exiting i0 s').
Proof.
  intros H Hi0. pose proof (iv_cur _ _ _ _ I) as [Hcn Hcr]. destruct (v_par (v c)) as [p|] eqn:Hp; [|apply wp_ret; split; [done|by rewrite Hp]].
  pose proof (sl_parent _ _ (proj1 I) c p Hcn ltac:(unfold used; by rewrite Hcr) Hp) as Hpn. destruct H as (Ht & Hc & Hn & Hd & H).
  unfold proc_wakeup. apply wp_modify. split; [|intros p' [= <-]%(eq_trans (eq_sym Hp)); by apply wake_asleep].
  split; [unfold table_ok; cbn; by rewrite length_fmap|]. do 2 (split; [done|]).
  split. { destruct (wake_asleep s (ChProc p) c Ht Hcn) as (M & P & _). rewrite Hd in M, P. by apply dead_moved. }
  intros j Hj Hjc. destruct (H j Hj Hjc) as (A1 & A2 & A3), (wake_asleep s (ChProc p) j Ht Hj) as (B1 & B2 & _). split; [by etrans|]. split; [congruence|].
  intros C1 C2 C3 Has. apply (A3 C1 C2 C3). destruct (wake_asleep s (ChProc p) i0 Ht Hi0) as (M & _). by eapply moved_asleep.
Qed.

(** [nx] runs: the invariant holds again. *)
Lemma exiting_switch i0 s s' nx g f : exiting i0 s -> (i0 < NPROC)%nat -> (G -> used (v i0) /\ v_pid (v i0) = 1) -> pick_next s = Some nx ->
  (forall p, pv_of (f p) = pv_of p) ->
  tab s' (at_slot nx (set_state P_RUNNING) (at_slot c f g)) -> tab s g -> cur s' = Some nx -> next_pid s' = next_pid s -> procs_inv G s'.
Proof.
  intros [(Ht & Hc & Hn & Hd & H) Hpar] Hi0 Hu0 Hpick Hf [Ht' T] [_ Tg] Hc' Hn'. pose proof (iv_cur _ _ _ _ I) as [Hcn Hcr].
  destruct (pick_other s c nx Hc Hcn Hpick) as [Hnx Hr]. change (state (proc_at s c)) with (v_st (view s c)) in Hr. rewrite Hd in Hr. specialize (Hr ltac:(by right)).
  change (v_st (view s nx) = P_RUNNABLE) in Hr. assert (Hne : nx <> c) by (intros ->; rewrite Hd in Hr; done).
  assert (V : forall j, (j < NPROC)%nat -> view s' j = if decide (j = nx) then Pv (v_pid (view s nx)) P_RUNNING (v_par (view s nx)) (v_ch (view s nx)) else view s j).
  { intros j Hj. unfold view. rewrite T by done. unfold at_slot. destruct (decide (j = nx)) as [->|].
    - rewrite decide_False, Tg by done. done.
    - rewrite Tg by done. destruct (decide (j = c)) as [->|]; by rewrite ?Hf. }
  split; [done|]. exists nx. split; [done|]. rewrite Hn', Hn.
  assert (Vc : view s' c = dead) by (rewrite V, decide_False by done; exact Hd).
  apply (inv_exit G v c np I i0); try done.
  - intros i Hi Hic. destruct (H i Hi Hic) as (M & P & _). pose proof M as [Mp Ms]. rewrite V by done. destruct (decide (i = nx)) as [->|].
    + cbn. split; [done|]. split; [done|]. right. right. split; [done|]. split; [done|]. destruct Ms as [[E _]|[E _]]; [left; congruence|by right].
    + split; [done|]. split; [done|]. destruct Ms; auto.
  - intros i Hi Hb Hch. assert (Hi' : view s' i = view s i). { rewrite V in Hb |- * by done. by destruct (decide (i = nx)). }
    assert (Has : asleep (view s i) (ChProc i)) by (rewrite <- Hi'; done). split; [intros E; by apply (Hpar i E)|].
    intros -> Hic j Hj Hz Hp. assert (j <> c) by (intros ->; congruence). destruct (H j Hj) as (_ & _ & Z); [done|]. by apply Z.
  - rewrite V by done. by rewrite decide_True.
Qed.
End exit.

(** Stepping through the monad with what happens to the table only. *)
Lemma wp_ksch {R} (m : M sched R) k (Q : R -> kern A -> Prop) P : wp m (ksch k) P -> (forall r s, P r s -> Q r (set_ksch s k)) -> wp (in_ksch m) k Q.
Proof. intros Hm HQ. unfold in_ksch. apply wp_zoom. eapply wp_mono; [exact Hm|exact HQ]. Qed.

Lemma reap_closed G k c code sig : procs_inv G (ksch k) -> cur (ksch k) = Some c ->
  let s1 := put_slot c (set_state P_ZOMBIE) (put_slot c (set_exit code sig) (ksch k)) in
  forall s2, calm s1 s2 -> closed (view (ksch k)) c (next_pid (ksch k)) (put_slot c (set_l1 0) s2).
Proof.
  intros (Ht & c' & Hc' & I) Hc s1 s2 HC. assert (c' = c) by congruence. subst c'. pose proof (iv_cur _ _ _ _ I) as [Hcn Hcr].
  pose proof (tab_more _ _ c (set_state P_ZOMBIE) _ (tab_put _ _ c (set_exit code sig) (tab_self _ Ht) Hcn) Hcn) as T1. fold s1 in T1.
  destruct (HC (proj1 T1)) as (Ht2 & Hc2 & Hn2 & Q). pose proof (tab_put _ _ c (set_l1 0) (tab_self _ Ht2) Hcn) as [T2 T3].
  split; [done|]. split; [by rewrite <- Hc|]. split; [done|]. split.
  - destruct (Q c Hcn) as [_ W]. rewrite (proj2 T1), at_slot_eq in W by done. unfold view at 1. rewrite T3, at_slot_eq by done. destruct W as [W|[W _]]; [|done]. exact W.
  - intros j Hj Hjc. destruct (Q j Hj) as [_ W]. rewrite (proj2 T1), at_slot_ne in W by done. unfold view at 2. by rewrite T3, at_slot_ne.
Qed.

Lemma reap_ok G k code sig : procs_inv G (ksch k) -> wp (reap_current_and_switch code sig) k (fun r k' => r = true -> procs_inv G (ksch k')).
Proof.
  intros H. destruct (running_ok _ k H) as (c & (Ht & Hc & Hcn) & I). pose proof (iv_cur _ _ _ _ I) as [_ Hcr].
  unfold reap_current_and_switch, proc_current, slot. apply wp_bind, wp_gets. rewrite Hc. change (default O (Some c)) with c.
  apply wp_bind, wp_upd_slot, wp_bind, wp_upd_slot, wp_bind. unfold in_kfp at 1. apply wp_zoom, wp_self. intros [] fp' Ef.
  match type of Ef with _ ?x = _ => pose proof (Calm_closeall c x) as HC end.
  rewrite (f_equal snd Ef : _ = fp') in HC.
  pose proof (reap_closed _ k c code sig H Hc (psch fp') HC) as D.
  apply wp_bind, wp_gets, wp_bind, wp_upd_slot, wp_bind, wp_gets. pose proof (init_slot_closed _ _ c _ I _ D) as Hi0.
  match goal with |- context [init_slot ?s] => change s with (put_slot c (set_l1 0) (psch fp')) end. set (o := init_slot _) in *. set (i0 := default c o) in *. destruct Hi0 as [Hi0 Hu0]. apply wp_bind.
  apply (wp_mono _ _ (fun _ k2 => orphaned (view (ksch k)) c (next_pid (ksch k)) i0 (ksch k2))).
  { pose proof (closed_reparent _ _ c _ I i0 _ D Hi0) as Hre. subst i0. destruct o as [i0|]; cbn [default] in *; unfold id in *;
      [case_bool_decide; [apply wp_ret; exact Hre|]; eapply wp_ksch; [exact Hre|done]|]. rewrite bool_decide_true in Hre by done. apply wp_ret. exact Hre. }
  intros _ k2 Ho. apply wp_bind, wp_gets. replace (parent (proc_at (ksch k2) c)) with (v_par (view (ksch k) c)) by (symmetry; exact (f_equal v_par (proj1 (proj2 (proj2 (proj2 Ho)))))).
  apply wp_bind. apply (wp_mono _ _ (fun _ k3 => exiting (view (ksch k)) c (next_pid (ksch k)) i0 (ksch k3))).
  { pose proof (orphaned_wake _ _ c _ I i0 _ Ho Hi0) as Hwk. destruct (v_par (view (ksch k) c)); [eapply wp_ksch; [exact Hwk|done]|apply wp_ret; exact Hwk]. }
  intros _ k3 He. apply wp_bind, wp_gets. destruct (pick_next (ksch k3)) as [nx|] eqn:Hp; [|by apply wp_ret].
  destruct (proj1 He) as (Ht3 & Hc3 & _). destruct (pick_other _ _ _ Hc3 Hcn Hp) as [Hnx _]. apply wp_bind.
  eapply wp_mono; [apply (switch_to_spec k3 c nx _ Hc3 Hcn Hnx (tab_self _ Ht3))|]. cbv beta zeta. intros _ k4 (T & Hc4 & Hn4 & _).
  apply wp_bind, wp_vm_any. intros [] vv _. apply wp_ret. intros _. rewrite ksch_set_kvm.
  by apply (exiting_switch _ _ c _ I i0 (ksch k3) _ nx (proc_at (ksch k3)) (set_fpu (cpu_vfp k3) (cpu_tls k3)) He Hi0 Hu0 Hp).
Qed.

Lemma fault_trap_ok G k kind t t' : procs_inv G (ksch k) -> (fault_trap kind t k).1 = Some t' -> procs_inv G (ksch (fault_trap kind t k).2).
Proof.
  intros H. assert (wp (fault_trap kind t) k (fun r k' => r = Some t' -> procs_inv G (ksch k'))) as W; [|exact W].
  destruct (running_ok _ k H) as (c & (Ht & Hc & Hcn) & I). unfold fault_trap, cur_slot. apply wp_bind, wp_gets. rewrite Hc.
  apply wp_bind, wp_upd_slot. destruct (negb _); [by apply wp_ret|]. apply wp_bind.
  eapply wp_mono; [apply reap_ok|]. { apply (tame_ok _ (ksch k)); [|done]. apply tame_upd; [by rewrite Hc|done]. }
  cbv beta. intros [] k' Hk; [|by apply wp_ret]. apply wp_bind, wp_gets, wp_ret. auto.
Qed.

(** ** Wait *)

Lemma set_ret_ok G k v : procs_inv G (ksch k) -> procs_inv G (ksch (set_ret v k).2).
Proof. apply tame_ok, Tame_set_ret. Qed.

Lemma proc_wait_ok G k u : procs_inv G (ksch k) -> may (proc_wait u) k (fun _ k' => procs_inv G (ksch k')).
Proof.
  intros H. destruct (running_ok _ k H) as (c & (Ht & Hc & Hcn) & I). unfold proc_wait, proc_current, slot.
  apply may_bind, may_run, wp_gets. rewrite Hc. change (default O (Some c)) with c.
  apply may_bind, may_look. destruct (find_from _ _ _) as [z|] eqn:E.
  - apply find_from_Some in E as (Hz & Hb & _). set (i := Z.to_nat z) in *. assert (Hi : (i < NPROC)%nat) by lia.
    apply andb_true_iff in Hb as [Hzb Hpar]. apply has_state_true in Hzb. apply bool_decide_eq_true in Hpar.
    apply may_bind, may_run, wp_gets. set (q := proc_at (ksch k) i) in *. apply may_bind.
    apply (may_mono _ _ (fun _ k1 => tame (ksch k) (ksch k1))). { apply may_keeps. calm. }
    intros [] k1 HT. apply may_bind, may_run, wp_upd_slot, may_run, set_ret_ok.
    pose proof (tame_ok _ _ _ HT H) as (Ht1 & c1 & Hc1 & I1). destruct (HT Ht) as (_ & Ec & _ & Q). assert (c1 = c) as -> by congruence.
    assert (Ev : view (ksch k1) i = view (ksch k) i). { destruct (Q i Hi) as [[->|[Hbl _]] _]; [done|]. unfold view, pv_of in Hbl. cbn in Hbl. fold q in Hbl. congruence. }
    assert (v_st (view (ksch k1) i) = P_ZOMBIE /\ v_par (view (ksch k1) i) = Some c) as [Hz1 Hp1] by (rewrite Ev; done).
    eapply (procs_inv_tab _ _ _ c); [exact (tab_put _ _ i (set_state P_UNUSED) (tab_self _ Ht1) Hi)|done|exact (inv_harvest _ _ _ _ I1 i Hi Hz1 Hp1)|].
    intros j Hj. unfold at_slot, vset. destruct (decide (j = i)) as [->|]; done.
  - pose proof (proj1 (find_from_None _ _ _) E) as Hn.
    assert (HS : procs_inv G (ksch (proc_sleep (ChProc c) k).2)).
    { apply proc_sleep_ok; [done|]. intros p [= <-]. split; [done|]. intros j Hj. specialize (Hn (Z.of_nat j) ltac:(lia)). cbv beta in Hn. by rewrite Nat2Z.id in Hn. }
    apply may_bind, may_look, may_bind. apply (may_mono _ _ (fun _ k1 => procs_inv G (ksch k1))).
    { destruct (find_from (fun i => child_of _ _) _ _); [by apply may_run|by apply may_ret]. }
    intros [] k1 Hk1; [by apply may_ret|]. by apply may_run, set_ret_ok.
Qed.
End ops.
