(* ===== verification/Exec.v ===== *)
(** Starting programs: the parts of [kernel/kernel/proc.c] that build a new
    user image, and [vfs_load_elf] of [kernel/fs/vfs.c].

    A kernel-side string is a [cstr], an argument vector the list of its
    pointers ([None] is a null pointer, which ends it).  The kernel buffer an
    executable is read into is the list of its bytes.  What is printed is left
    out. *)

From stdpp Require Import gmap list fin_maps.
From Stdlib Require Import ZArith Lia.
From S2P Require Import Prelude Memory Checked Frames Kmalloc KernMem Vm Ramfs Proc File FsSyscall UserMem Elf Kern Mmap ProcOps.

Definition AT_NULL : Z := 0.
Definition AT_PHDR : Z := 3.
Definition AT_PHENT : Z := 4.
Definition AT_PHNUM : Z := 5.
Definition AT_PAGESZ : Z := 6.
Definition AT_BASE : Z := 7.
Definition AT_ENTRY : Z := 9.
Definition AT_UID : Z := 11.
Definition AT_EUID : Z := 12.
Definition AT_GID : Z := 13.
Definition AT_EGID : Z := 14.
Definition AT_SECURE : Z := 23.
Definition AT_RANDOM : Z := 25.

Definition PIE_BASE : Z := 0x00200000.
Definition INTERP_BASE : Z := 0x20000000.
Definition USTACK_PAGES : nat := 32.
Definition EXEC_MAXARG : nat := 64.
Definition EXEC_ARGBUF : Z := 4096.
Definition EXEC_MAXDEPTH : nat := 4.
Definition K_EIO_S : Z := 5.
Definition K_ENOEXEC_S : Z := 8.

Record load_result := LoadResult {
  lr_pc : Z; lr_brk_end : Z; lr_dynamic : bool; lr_phdr_va : Z; lr_phent : Z; lr_phnum : Z; lr_app_entry : Z; lr_interp_base : Z }.

(** ** Shebang lines *)

Definition is_blank (c : Z) : bool := (c =? 32) || (c =? 9).
Definition is_word (c : Z) : bool := negb (is_blank c) && negb (c =? 10) && negb (c =? 0).
Definition is_line (c : Z) : bool := negb (c =? 10) && negb (c =? 0).

(** [while (i < end && p(hdr[i])) i++;] *)
Fixpoint scan_while (fuel : nat) (p : Z -> bool) (hdr : list Z) (i end_ : Z) : outcome Z :=
  match fuel with
  | O => NoFuel
  | S fuel' =>
      if i <? end_ then c ← aref hdr i; if p c then scan_while fuel' p hdr (i + 1) end_ else Ok i
      else Ok i
  end.

(** The result, the interpreter and the argument, if there is one. *)
Definition parse_shebang (hdr : list Z) (hlen icap acap : Z) : outcome (Z * cstr * option cstr) :=
  if hlen <? 2 then Ok (0, [], None)
  else
    h0 ← aref hdr 0; h1 ← aref hdr 1;
    if negb ((h0 =? 35) && (h1 =? 33)) then Ok (0, [], None)
    else
      let end_ := if hlen <? 256 then hlen else 256 in
      let fuel := Z.to_nat (end_ + 1) in
      is_ ← scan_while fuel is_blank hdr 2 end_;
      i ← scan_while fuel is_word hdr is_ end_;
      let ilen := i - is_ in
      if (ilen =? 0) || (icap <=? ilen) then Ok (-1, [], None)
      else
        interp ← slice hdr is_ ilen;
        as_ ← scan_while fuel is_blank hdr i end_;
        i ← scan_while fuel is_line hdr as_ end_;
        let alen := i - as_ in
        if (0 <? alen) && (alen <? acap) then arg ← slice hdr as_ alen; Ok (1, interp, Some arg)
        else Ok (1, interp, None).

(** the strings of a vector up to its null pointer *)
Fixpoint c_vec (v : list (option cstr)) : list cstr := match v with Some s :: v' => s :: c_vec v' | _ => [] end.

Section model.
Context {A : Type} {FA : FrameAlloc A}.

(** ** The user stack *)

Definition stack_page (i : Z) : Z := USER_VA_MAX -w i *w PAGE_SIZE.

Definition map_user_stack (l1 : Z) : M (vms A) Z :=
  r ← forR USTACK_PAGES 1 1 (fun i =>
    ok ← map_fresh l1 (stack_page i);
    if ok : bool then mret None
    else forM (Z.to_nat (i - 1)) 1 1 (fun j => drop_page l1 (stack_page j)) ≫= fun _ => mret (Some (-1)));
  mret (default 0 r).

(** [sp -= strlen(s) + 1; memcpy(UVA2K(sp), s, ...)] for the strings of [l]; the
    addresses in the order of the vector, when [l] is the vector from its end *)
Fixpoint push_strings (pa page_lo : Z) (l : list cstr) (sp : Z) (vas : list Z) : M (vms A) (option (Z * list Z)) :=
  match l with
  | [] => mret (Some (sp, vas))
  | s :: l' =>
      let sp := sp -w (strlen s + 1) in
      if sp <? page_lo then mret None
      else store_bytes (pa + (sp -w page_lo)) (s ++ [0]) ≫= fun _ => push_strings pa page_lo l' sp (sp :: vas)
  end.

Definition auxv (lr : load_result) (at_random_va : Z) : list Z :=
  (if lr_dynamic lr then
     [AT_PHDR; lr_phdr_va lr; AT_PHENT; lr_phent lr; AT_PHNUM; lr_phnum lr; AT_ENTRY; lr_app_entry lr; AT_BASE; lr_interp_base lr;
      AT_UID; 0; AT_EUID; 0; AT_GID; 0; AT_EGID; 0; AT_SECURE; 0]
   else []) ++ [AT_PAGESZ; PAGE_SIZE; AT_RANDOM; at_random_va; AT_NULL; 0].

Definition random_bytes : list Z := (fun i => u8 (0xA5 + Z.of_nat i)) <$> seq 0 16.

(** the stack pointer, or 0 *)
Definition setup_user_stack (l1 stack_top : Z) (argv envp : list cstr) (lr : load_result) : M (vms A) Z :=
  let page_va := (stack_top -w 1) .& .~ (PAGE_SIZE - 1) in
  pa ← vm_walk l1 page_va;
  if pa =? 0 then mret 0
  else
    let page_lo := page_va in
    let argc := Z.of_nat (length argv) in
    let envc := Z.of_nat (length envp) in
    if (63 <? argc) || (63 <? envc) then mret 0
    else
      r ← push_strings pa page_lo (rev argv) stack_top [];
      match r with
      | None => mret 0
      | Some (sp, argv_va) =>
          r ← push_strings pa page_lo (rev envp) sp [];
          match r with
          | None => mret 0
          | Some (sp, envp_va) =>
              let sp := sp -w 16 in
              if sp <? page_lo then mret 0
              else
                store_bytes (pa + (sp -w page_lo)) random_bytes ≫= fun _ =>
                let nauxpairs := if lr_dynamic lr then 13 else 3 in
                let nwords := 1 + argc + 1 + envc + 1 + 2 * nauxpairs in
                if sp <? page_lo +w nwords * 4 then mret 0
                else
                  let vec := (sp -w nwords * 4) .& .~ 15 in
                  if vec <? page_lo then mret 0
                  else
                    let w := argc :: argv_va ++ [0] ++ envp_va ++ [0] ++ auxv lr sp in
                    store_bytes (pa + (vec -w page_lo)) (w ≫= le_bytes 4) ≫= fun _ =>
                    mret vec
          end
      end.

(** ** Loading *)

Definition in_vmC {R} (c : C (vms A) R) : C (kern A) R := fun k =>
  match c (kvm k) with Ok (r, v) => Ok (r, set_kvm v k) | Fault => Fault | NoFuel => NoFuel end.

Definition vfs_load_elf (ino l1 bias : Z) : C (kern A) (Z + elf_info) :=
  nd ← look (fun k => inode_at (kfs k) ino);
  if (ino =? 0) || negb (bool_decide (i_type nd = RF_REG)) then mret (inl (- K_EACCES))
  else
    let sz := i_size nd in
    if sz <? 52 then mret (inl (- K_ENOEXEC_S))
    else
      buf ← run (in_kfs (in_mem (km_alloc sz)));
      if buf =? 0 then mret (inl (- K_ENOMEM))
      else
        r ← look (fun k => ramfs_read (kfs k) ino 0 sz);
        if negb (r.1 =? sz) then run (in_kfs (in_mem (km_free buf))) ≫= fun _ => mret (inl (- K_EIO_S))
        else
          rc ← in_vmC (elf_load l1 r.2 sz bias);
          run (in_kfs (in_mem (km_free buf))) ≫= fun _ =>
          mret rc.

Definition load_program (l1 app : Z) : C (kern A) (Z + load_result) :=
  r ← look (fun k => ramfs_read (kfs k) app 0 20);
  if negb (r.1 =? 20) then mret (inl (-8))
  else
    b16 ← lift (aref r.2 16); b17 ← lift (aref r.2 17);
    let etype := b16 .| Z.shiftl b17 8 in
    let app_bias := if etype =? 3 then PIE_BASE else 0 in
    ai ← vfs_load_elf app l1 app_bias;
    match ai with
    | inl rc => mret (inl rc)
    | inr ai =>
        match ei_interp ai with
        | None =>
            if ei_is_dyn ai then mret (inl (-8))
            else mret (inr (LoadResult (ei_entry ai) (ei_brk_end ai) false (ei_phdr_va ai) (ei_phent ai) (ei_phnum ai) (ei_entry ai) 0))
        | Some path =>
            interp ← look (fun k => vfs_resolve (kfs k) (root (kfs k)) path true);
            nd ← look (fun k => inode_at (kfs k) interp);
            if (interp =? 0) || negb (bool_decide (i_type nd = RF_REG)) then mret (inl (-2))
            else
              ii ← vfs_load_elf interp l1 INTERP_BASE;
              match ii with
              | inl rc => mret (inl rc)
              | inr ii =>
                  if negb (ei_is_dyn ii) then mret (inl (-8))
                  else mret (inr (LoadResult (ei_entry ii) (ei_brk_end ai) true (ei_phdr_va ai) (ei_phent ai) (ei_phnum ai) (ei_entry ai) INTERP_BASE))
              end
        end
    end.

(** the path of the console node *)
Definition console_path : cstr := [47; 100; 101; 118; 47; 99; 111; 110; 115; 111; 108; 101].

Definition init_stdio (p : nat) : M (fp (kmem A)) unit :=
  fdtable_init p ≫= fun _ =>
  r ← in_fs ramfs_root;
  in_sched (upd_proc p (set_cwd r)) ≫= fun _ =>
  con ← gets (fun k => vfs_resolve (fsys k) r console_path true);
  if con =? 0 then mret tt
  else
    f0 ← file_open_inode con 0;
    f1 ← file_open_inode con 1;
    f2 ← file_open_inode con 1;
    (if negb (f0 =? 0) then set_fd p 0 f0 else mret tt) ≫= fun _ =>
    (if negb (f1 =? 0) then set_fd p 1 f1 else mret tt) ≫= fun _ =>
    (if negb (f2 =? 0) then set_fd p 2 f2 else mret tt).

(** the frame a new image starts with *)
Definition entry_frame (usp pc : Z) : trapframe := Tf usp 0 (replicate 13 0) pc 0x10.

Definition brk_ceiling_of (lr : load_result) : Z := if lr_dynamic lr then INTERP_BASE else MMAP_TOP.

(** [ino] is a regular file *)
Definition is_reg (k : kern A) (ino : Z) : bool := negb (ino =? 0) && bool_decide (i_type (inode_at (kfs k) ino) = RF_REG).

(** What a path names for [proc_spawn_elf]: the file to load and its arguments. *)
Definition spawn_target (path : cstr) : C (kern A) (option (Z * list cstr)) :=
  ino ← look (fun k => vfs_resolve (kfs k) (root (kfs k)) path true);
  reg ← look (fun k => is_reg k ino);
  if negb reg then mret None
  else
    r ← look (fun k => ramfs_read (kfs k) ino 0 128);
    sb ← (if 2 <=? r.1 then lift (parse_shebang r.2 r.1 128 128) else mret (0, [], None));
    let '(rc, interp, arg) := sb in
    if rc =? 1 then
      ino ← look (fun k => vfs_resolve (kfs k) (root (kfs k)) interp true);
      reg ← look (fun k => is_reg k ino);
      if negb reg then mret None
      else mret (Some (ino, interp :: match arg with Some a => [a] | None => [] end ++ [path]))
    else mret (Some (ino, [path])).

(** the slot of the new process *)
Definition proc_spawn_elf (path : cstr) : C (kern A) (option nat) :=
  t ← spawn_target path;
  match t with
  | None => mret None
  | Some (ino, argv) =>
      r ← run (in_ksch alloc_proc);
      match r with
      | None => mret None
      | Some p =>
          l1 ← run (in_vm vm_create);
          run (upd_slot p (set_l1 l1)) ≫= fun _ =>
          if l1 =? 0 then run (upd_slot p (set_state P_UNUSED)) ≫= fun _ => mret None
          else
            let undo := run (in_vm (vm_destroy l1)) ≫= fun _ => run (upd_slot p (set_state P_UNUSED)) ≫= fun _ => mret None in
            lr ← load_program l1 ino;
            match lr with
            | inl _ => undo
            | inr lr =>
                rc ← run (in_vm (map_user_stack l1));
                if negb (rc =? 0) then undo
                else
                  usp ← run (in_vm (setup_user_stack l1 USER_VA_MAX argv [] lr));
                  if usp =? 0 then undo
                  else
                    run (in_vm sync_icache) ≫= fun _ =>
                    run (upd_slot p (set_layout (lr_brk_end lr) (lr_brk_end lr) (brk_ceiling_of lr) MMAP_TOP)) ≫= fun _ =>
                    run (in_kfp (init_stdio p)) ≫= fun _ =>
                    run (upd_slot p (set_tf (entry_frame usp (lr_pc lr)))) ≫= fun _ =>
                    run (upd_slot p (set_state P_RUNNABLE)) ≫= fun _ =>
                    mret (Some p)
            end
      end
  end.

(** ** execve *)

(** the string at a user address, if it ends within [room] bytes *)
Fixpoint udup (room : nat) (va : Z) : C (kern A) (option cstr) :=
  match room with
  | O => mret None
  | S room' => c ← uload va; if c =? 0 then mret (Some []) else s ← udup room' (va + 1); mret (cons c <$> s)
  end.

(** The copy and the bytes of the buffer then used. *)
Definition bprm_dup_user (used va : Z) : C (kern A) (option cstr * Z) :=
  s ← udup (Z.to_nat (EXEC_ARGBUF - used)) va;
  mret (s, match s with Some s => used + strlen s + 1 | None => EXEC_ARGBUF end).

Definition bprm_dup (used : Z) (s : cstr) : option cstr * Z :=
  if used + strlen s + 1 <=? EXEC_ARGBUF then (Some s, used + strlen s + 1) else (None, EXEC_ARGBUF).

(** the rest of a vector, which may have [room] more entries *)
Fixpoint copy_vec (room : nat) (vec used : Z) : C (kern A) (option (list cstr) * Z) :=
  v ← uload32 vec;
  if v =? 0 then mret (Some [], used)
  else
    match room with
    | O => mret (None, used)
    | S room' =>
        d ← bprm_dup_user used v;
        match d.1 with
        | None => mret (None, d.2)
        | Some s => r ← copy_vec room' (vec + 4) d.2; mret (cons s <$> r.1, r.2)
        end
    end.

Definition bprm_copy_vec (used vec_uptr : Z) : C (kern A) (option (list cstr) * Z) :=
  if vec_uptr =? 0 then mret (Some [], used) else copy_vec EXEC_MAXARG vec_uptr used.

(** [strlcpy_] from a user address, [room] characters *)
Fixpoint upath (room : nat) (va : Z) : C (kern A) cstr :=
  match room with
  | O => mret []
  | S room' => c ← uload va; if c =? 0 then mret [] else s ← upath room' (va + 1); mret (c :: s)
  end.

Definition exec_commit (new_l1 : Z) (lr : load_result) (argv envp : list cstr) : M (kern A) unit :=
  rc ← in_vm (map_user_stack new_l1);
  if negb (rc =? 0) then in_vm (vm_destroy new_l1) ≫= fun _ => set_ret (-12)
  else
    usp ← in_vm (setup_user_stack new_l1 USER_VA_MAX argv envp lr);
    if usp =? 0 then in_vm (vm_destroy new_l1) ≫= fun _ => set_ret (-7)
    else
      p ← gets cur_proc;
      let old_l1 := p_l1 p in
      upd_cur (set_l1 new_l1) ≫= fun _ =>
      in_vm (vm_switch new_l1) ≫= fun _ =>
      in_vm sync_icache ≫= fun _ =>
      in_vm (vm_destroy old_l1) ≫= fun _ =>
      upd_cur (set_layout (lr_brk_end lr) (lr_brk_end lr) (brk_ceiling_of lr) MMAP_TOP) ≫= fun _ =>
      upd_cur (set_tf (entry_frame usp (lr_pc lr))).

(** [[interp, (arg), script, argv[1..]]] and the bytes of the buffer then used *)
Definition splice (used : Z) (interp : cstr) (arg : option cstr) (script : cstr) (argv : list (option cstr)) : list (option cstr) * Z :=
  let '(a, used) := bprm_dup used interp in
  let '(b, used) := match arg with Some x => let '(y, u) := bprm_dup used x in ([y], u) | None => ([], used) end in
  let '(c, used) := bprm_dup used script in
  let nv := a :: b ++ [c] in
  (nv ++ take (EXEC_MAXARG - length nv) (drop 1 argv), used).

(** the rounds of [proc_execve] *)
Fixpoint exec_loop (depth : nat) (cur_path : cstr) (used : Z) (argv : list (option cstr)) (envp : list cstr) : C (kern A) unit :=
  match depth with
  | O => run (set_ret (-40))
  | S depth' =>
      ino ← look (fun k => vfs_resolve (kfs k) (cwd (cur_proc k)) cur_path true);
      reg ← look (fun k => is_reg k ino);
      if negb reg then run (set_ret (-2))
      else
        r ← look (fun k => ramfs_read (kfs k) ino 0 128);
        if r.1 <? 0 then run (set_ret (-8))
        else
          sh ← (if 2 <=? r.1 then h0 ← lift (aref r.2 0); h1 ← lift (aref r.2 1); mret ((h0 =? 35) && (h1 =? 33)) else mret false);
          if sh : bool then
            sb ← lift (parse_shebang r.2 r.1 128 128);
            let '(rc, interp, arg) := sb in
            if rc <=? 0 then run (set_ret (-8))
            else
              let '(nv, used) := splice used interp arg cur_path argv in
              exec_loop depth' (strlcpy_ [] interp 128) used nv envp
          else
            new_l1 ← run (in_vm vm_create);
            if new_l1 =? 0 then run (set_ret (-12))
            else
              lr ← load_program new_l1 ino;
              match lr with
              | inl _ => run (in_vm (vm_destroy new_l1)) ≫= fun _ => run (set_ret (-8))
              | inr lr => run (exec_commit new_l1 lr (c_vec argv) envp)
              end
  end.

Definition proc_execve (path argv_uptr envp_uptr : Z) : C (kern A) unit :=
  a ← bprm_copy_vec 0 argv_uptr;
  match a.1 with
  | None => run (set_ret (-7))
  | Some argv =>
      e ← bprm_copy_vec a.2 envp_uptr;
      match e.1 with
      | None => run (set_ret (-7))
      | Some envp =>
          cur_path ← upath 127 path;
          exec_loop EXEC_MAXDEPTH cur_path e.2 (Some <$> argv) envp
      end
  end.
End model.
