(* ===== verification/ExecStack.v ===== *)
(** The stack a program starts with.

    [start_args] reads a stack the way the start-up code of a C program does:
    the argument count, the argument vector, the environment and the auxiliary
    vector.  What [setup_user_stack] of [proc.c] has laid out is read back as
    what it was given. *)

From stdpp Require Import gmap list fin_maps.
From Stdlib Require Import ZArith Lia.
From S2P Require Import Prelude Memory Checked Frames Pmm Kmalloc KernMem Vm AddrSpace Ramfs Proc File FsSyscall UserMem Elf ElfLoad Kern Mmap MmapCalls ProcOps Exec.

(** * Reading user memory *)

(** [g]: the bytes the program sees *)
Definition rd_word (g : Z -> option Z) (x : Z) : option Z :=
  b0 ← g x; b1 ← g (x + 1); b2 ← g (x + 2); b3 ← g (x + 3); Some (b0 + 2 ^ 8 * b1 + 2 ^ 16 * b2 + 2 ^ 24 * b3).

(** the C string at [x] *)
Fixpoint rd_str (fuel : nat) (g : Z -> option Z) (x : Z) : option cstr :=
  match fuel with
  | O => None
  | S n => c ← g x; if c =? 0 then Some [] else s ← rd_str n g (x + 1); Some (c :: s)
  end.

(** a vector of strings that ends with a null pointer, and the address behind it *)
Fixpoint rd_vec (fuel : nat) (g : Z -> option Z) (x : Z) : option (list cstr * Z) :=
  match fuel with
  | O => None
  | S n =>
      p ← rd_word g x;
      if p =? 0 then Some ([], x + 4)
      else s ← rd_str (Z.to_nat PAGE_SIZE) g p; '(l, y) ← rd_vec n g (x + 4); Some (s :: l, y)
  end.

(** pairs up to [AT_NULL] *)
Fixpoint rd_aux (fuel : nat) (g : Z -> option Z) (x : Z) : option (list (Z * Z)) :=
  match fuel with
  | O => None
  | S n =>
      t ← rd_word g x; v ← rd_word g (x + 4);
      if t =? AT_NULL then Some [] else l ← rd_aux n g (x + 8); Some ((t, v) :: l)
  end.

Record args := Args { a_argc : Z; a_argv : list cstr; a_envp : list cstr; a_auxv : list (Z * Z) }.

Definition start_args (g : Z -> option Z) (sp : Z) : option args :=
  n ← rd_word g sp;
  '(av, x) ← rd_vec 64 g (sp + 4);
  '(ev, y) ← rd_vec 64 g x;
  aux ← rd_aux 16 g y;
  Some (Args n av ev aux).

(** Only the bytes matter. *)
#[export] Instance rd_word_proper : Proper (pointwise_relation Z eq ==> eq ==> eq) rd_word.
Proof. intros g h E x ? <-. unfold rd_word. by rewrite !E. Qed.

#[export] Instance rd_str_proper n : Proper (pointwise_relation Z eq ==> eq ==> eq) (rd_str n).
Proof. intros g h E x ? <-. revert x. induction n as [|n IH]; intros x; cbn [rd_str]; [done|]. rewrite E. destruct (h x); [|done]. cbn. case_match; [done|]. by rewrite IH. Qed.

#[export] Instance rd_vec_proper n : Proper (pointwise_relation Z eq ==> eq ==> eq) (rd_vec n).
Proof.
  intros g h E x ? <-. revert x. induction n as [|n IH]; intros x; cbn [rd_vec]; [done|]. rewrite E. destruct (rd_word h x) as [p|]; [|done]. cbn [mbind option_bind].
  destruct (p =? 0); [done|]. rewrite E. destruct (rd_str _ h p); [|done]. cbn [mbind option_bind]. by rewrite IH.
Qed.

#[export] Instance rd_aux_proper n : Proper (pointwise_relation Z eq ==> eq ==> eq) (rd_aux n).
Proof.
  intros g h E x ? <-. revert x. induction n as [|n IH]; intros x; cbn [rd_aux]; [done|]. rewrite E. destruct (rd_word h x) as [t|]; [|done]. cbn [mbind option_bind]. rewrite E.
  destruct (rd_word h (x + 4)); [|done]. cbn [mbind option_bind]. destruct (t =? AT_NULL); [done|]. by rewrite IH.
Qed.

#[export] Instance start_args_proper : Proper (pointwise_relation Z eq ==> eq ==> eq) start_args.
Proof.
  intros g h E x ? <-. unfold start_args. rewrite E. destruct (rd_word h x); [|done]. cbn [mbind option_bind]. rewrite E. destruct (rd_vec 64 h (x + 4)) as [[av y]|]; [|done].
  cbn [mbind option_bind]. rewrite E. destruct (rd_vec 64 h y) as [[ev y']|]; [|done]. cbn [mbind option_bind]. by rewrite E.
Qed.

(** * Bytes in place *)

(** [g] with the bytes [l] at [va] *)
Definition patch (va : Z) (l : list Z) (g : Z -> option Z) (x : Z) : option Z :=
  if decide (va <= x < va + Z.of_nat (length l)) then l !! Z.to_nat (x - va) else g x.

Definition has (g : Z -> option Z) (va : Z) (l : list Z) : Prop := forall i c, l !! i = Some c -> g (va + Z.of_nat i) = Some c.

Lemma has_app g va l l' : has g va (l ++ l') <-> has g va l /\ has g (va + Z.of_nat (length l)) l'.
Proof.
  split.
  - intros H. split; intros i c Hi; [apply H; by apply lookup_app_l_Some|]. rewrite <- Z.add_assoc, <- Nat2Z.inj_add. apply H.
    rewrite lookup_app_r by lia. by replace (length l + i - length l)%nat with i by lia.
  - intros [H1 H2] i c [Hi|[Hl Hi]]%lookup_app_Some; [by apply H1|]. replace (va + Z.of_nat i) with (va + Z.of_nat (length l) + Z.of_nat (i - length l)) by lia. by apply H2.
Qed.

Lemma has_cons g va c l : has g va (c :: l) <-> g va = Some c /\ has g (va + 1) l.
Proof.
  rewrite (has_app g va [c] l). cbn. split; intros [H1 H2]; (split; [|done]).
  - rewrite <- (Z.add_0_r va). by apply (H1 O).
  - intros [|i] c' Hi; [|done]. injection Hi as <-. by rewrite Z.add_0_r.
Qed.

Lemma has_patch g va l : has (patch va l g) va l.
Proof.
  intros i c Hi. pose proof (lookup_lt_Some _ _ _ Hi). unfold patch. rewrite decide_True by lia. by replace (Z.to_nat (va + Z.of_nat i - va)) with i by lia.
Qed.

Lemma has_patch_off g va l va' l' : has g va' l' -> va + Z.of_nat (length l) <= va' \/ va' + Z.of_nat (length l') <= va -> has (patch va l g) va' l'.
Proof. intros H Ho i c Hi. pose proof (lookup_lt_Some _ _ _ Hi). unfold patch. rewrite decide_False by lia. by apply H. Qed.

Lemma has_ext g h va l : 0 <= va -> (forall x, 0 <= x -> g x = h x) -> has h va l -> has g va l.
Proof. intros Hv E H i c Hi. rewrite E by lia. by apply H. Qed.

(** ** Reading back *)

Definition word_ok (v : Z) : Prop := 0 <= v < 2 ^ 32.
(** a string the kernel copies: not empty of its terminator, and shorter than a page *)
Definition str_ok (s : cstr) : Prop := Forall (fun c => 0 < c < 256) s /\ strlen s < PAGE_SIZE.

Lemma has_word g x v : word_ok v -> has g x (le_bytes 4 v) -> rd_word g x = Some v.
Proof.
  intros Hv H. cbn [le_bytes] in H. rewrite !has_cons in H. destruct H as (H0 & H1 & H2 & H3 & _). unfold rd_word.
  replace (x + 2) with (x + 1 + 1) by lia. replace (x + 3) with (x + 1 + 1 + 1) by lia. rewrite H0, H1, H2, H3. cbn [mbind option_bind]. f_equal.
  unfold word_ok in Hv. Z.div_mod_to_equations. lia.
Qed.

Lemma has_str g x s n : Forall (fun c => 0 < c < 256) s -> (length s < n)%nat -> has g x (s ++ [0]) -> rd_str n g x = Some s.
Proof.
  revert x n. induction s as [|c s IH]; intros x [|n] Hs Hn H; try (cbn in Hn; lia); cbn [rd_str]; apply has_cons in H as [Hc H]; rewrite Hc; cbn [mbind option_bind].
  - done.
  - apply Forall_cons in Hs as [Hb Hs]. rewrite (proj2 (Z.eqb_neq c 0)) by lia. rewrite IH; [done|done|cbn in Hn; lia|done].
Qed.

(** the words [w] at [x] *)
Definition words_at (g : Z -> option Z) (x : Z) (w : list Z) : Prop := has g x (w ≫= le_bytes 4).

Lemma length_words w : length (w ≫= le_bytes 4) = (4 * length w)%nat.
Proof. induction w as [|v w IH]; [done|]. change ((v :: w) ≫= le_bytes 4) with (le_bytes 4 v ++ (w ≫= le_bytes 4)). rewrite length_app, IH. cbn. lia. Qed.

Lemma words_cons g x v w : words_at g x (v :: w) <-> has g x (le_bytes 4 v) /\ words_at g (x + 4) w.
Proof. unfold words_at. change ((v :: w) ≫= le_bytes 4) with (le_bytes 4 v ++ (w ≫= le_bytes 4)). apply has_app. Qed.

Lemma words_app g x v w : words_at g x (v ++ w) <-> words_at g x v /\ words_at g (x + 4 * Z.of_nat (length v)) w.
Proof. unfold words_at. rewrite bind_app, has_app, length_words, Nat2Z.inj_mul. done. Qed.

(** [p] points at the string [s] *)
Definition points (g : Z -> option Z) (p : Z) (s : cstr) : Prop := 0 < p < 2 ^ 32 /\ str_ok s /\ has g p (s ++ [0]).

Lemma words_vec g x ps ss n : Forall2 (points g) ps ss -> (length ss < n)%nat -> words_at g x (ps ++ [0]) ->
  rd_vec n g x = Some (ss, x + 4 * Z.of_nat (length ps) + 4).
Proof.
  intros H. revert x n. induction H as [|p s ps ss (Hp & [Hs Hl] & Hh) _ IH]; intros x [|n] Hn Hw; try (cbn in Hn; lia); cbn [rd_vec].
  - apply words_cons in Hw as [H0 _]. rewrite (has_word g x 0) by (done || (unfold word_ok; lia)). cbn [mbind option_bind]. rewrite Z.eqb_refl. do 2 f_equal. cbn [length]. lia.
  - cbn [app] in Hw. apply words_cons in Hw as [H0 Hw]. rewrite (has_word g x p) by (done || (unfold word_ok; lia)). cbn [mbind option_bind].
    rewrite (proj2 (Z.eqb_neq p 0)) by lia. rewrite (has_str g p s) by (try done; unfold strlen in Hl; lia). cbn [mbind option_bind].
    rewrite (IH (x + 4) n) by (try done; cbn in Hn; lia). cbn [mbind option_bind]. do 2 f_equal. cbn [length]. lia.
Qed.

Lemma words_aux g x (l : list (Z * Z)) n : Forall (fun '(t, v) => word_ok t /\ t <> AT_NULL /\ word_ok v) l -> (length l < n)%nat ->
  words_at g x ((l ≫= fun '(t, v) => [t; v]) ++ [AT_NULL; 0]) -> rd_aux n g x = Some l.
Proof.
  revert x n. induction l as [|[t v] l IH]; intros x [|n] Hl Hn Hw; try (cbn in Hn; lia); cbn [rd_aux].
  - apply words_cons in Hw as [H0 [H1 _]%words_cons]. rewrite (has_word g x AT_NULL) by (done || (unfold word_ok, AT_NULL; lia)).
    rewrite (has_word g (x + 4) 0) by (done || (unfold word_ok; lia)). done.
  - apply Forall_cons in Hl as [(Ht & Hn0 & Hv) Hl]. change (((t, v) :: l) ≫= _) with ([t; v] ++ (l ≫= fun '(t, v) => [t; v])) in Hw. rewrite <- app_assoc in Hw.
    cbn [app] in Hw. apply words_cons in Hw as [H0 [H1 Hw]%words_cons]. rewrite (has_word g x t), (has_word g (x + 4) v) by done. cbn [mbind option_bind].
    rewrite (proj2 (Z.eqb_neq t AT_NULL)) by done. rewrite (IH (x + 8) n); [done|done|cbn in Hn; lia|]. by replace (x + 8) with (x + 4 + 4) by lia.
Qed.

(** * Laying it out *)

(** the page the initial stack is built in *)
Definition STACK_PAGE : Z := USER_VA_MAX - PAGE_SIZE.

Definition strings_size (l : list cstr) : Z := foldr (fun s n => strlen s + 1 + n) 0 l.
Lemma strings_size_pos l : 0 <= strings_size l.
Proof. unfold strings_size. induction l as [|x l IH]; cbn; unfold strlen in *; lia. Qed.

Definition stack_words (argv envp : list cstr) (lr : load_result) : Z :=
  1 + Z.of_nat (length argv) + 1 + Z.of_nat (length envp) + 1 + 2 * (if lr_dynamic lr then 13 else 3).

(** the bytes needed, with the alignment of the stack pointer *)
Definition stack_need (argv envp : list cstr) (lr : load_result) : Z := strings_size argv + strings_size envp + 16 + 4 * stack_words argv envp lr + 15.

Definition aux_pairs (lr : load_result) (rnd : Z) : list (Z * Z) :=
  (if lr_dynamic lr then
     [(AT_PHDR, lr_phdr_va lr); (AT_PHENT, lr_phent lr); (AT_PHNUM, lr_phnum lr); (AT_ENTRY, lr_app_entry lr); (AT_BASE, lr_interp_base lr);
      (AT_UID, 0); (AT_EUID, 0); (AT_GID, 0); (AT_EGID, 0); (AT_SECURE, 0)]
   else []) ++ [(AT_PAGESZ, PAGE_SIZE); (AT_RANDOM, rnd)].

Definition lr_ok (lr : load_result) : Prop :=
  Forall word_ok [lr_phdr_va lr; lr_phent lr; lr_phnum lr; lr_app_entry lr; lr_interp_base lr].

Lemma auxv_pairs lr rnd : auxv lr rnd = (aux_pairs lr rnd ≫= fun '(t, v) => [t; v]) ++ [AT_NULL; 0].
Proof. unfold auxv, aux_pairs. by destruct (lr_dynamic lr). Qed.

Lemma aux_pairs_ok lr rnd : lr_ok lr -> word_ok rnd -> Forall (fun '(t, v) => word_ok t /\ t <> AT_NULL /\ word_ok v) (aux_pairs lr rnd).
Proof.
  unfold lr_ok, word_ok. rewrite !Forall_cons. intros (H1 & H2 & H3 & H4 & H5 & _) Hr. unfold aux_pairs, AT_NULL. destruct (lr_dynamic lr); cbn [app]; rewrite !Forall_cons;
  unfold AT_PHDR, AT_PHENT, AT_PHNUM, AT_ENTRY, AT_BASE, AT_UID, AT_EUID, AT_GID, AT_EGID, AT_SECURE, AT_PAGESZ, AT_RANDOM, PAGE_SIZE; repeat split; try lia; by apply Forall_nil.
Qed.

Lemma has_above g h lo va l : has g va l -> 0 <= lo <= va -> (forall x, lo <= x -> h x = g x) -> has h va l.
Proof. intros H Hv E i c Hi. rewrite E by lia. by apply H. Qed.

Section layout.
Context {A : Type} {FA : FrameAlloc A} {FS : FrameAllocSpec A}.
Context (K : Z -> Z) (HK : forall i, (K i) mod 4 <> 1).
Context (l1 : Z) (a : aspace) (pg f : Z) (Hpg : aligned PAGE_SIZE pg) (Hlo : PAGE_SIZE <= pg) (Hhi : pg + PAGE_SIZE <= USER_VA_MAX) (Hf : pages a !! vpn pg = Some f).
Implicit Types (s : vms A).

(** the bytes [l] stored at [va] of the page *)
Lemma store_bytes_spec l s va : as_ok K s l1 a -> pg <= va -> va + Z.of_nat (length l) <= pg + PAGE_SIZE -> Forall (fun c => 0 <= c < 256) l ->
  wp (store_bytes (f + (va - pg)) l) s (fun _ s' => step K s l1 a s' a (patch va l (ubyte s a))).
Proof.
  revert s va. induction l as [|c l IH]; intros s va Ha Hv Hl Hc.
  - unfold wp, store_bytes. cbn. replace (set_vphys _ s) with s by (by destruct s as [[]]). eapply step_see; [by apply step_refl|].
    intros x _. unfold patch. rewrite decide_False by (cbn; lia). done.
  - apply Forall_cons in Hc as [Hb Hc]. cbn [length] in Hl.
    assert (E : vpn va = vpn pg /\ va mod 4096 = va - pg) by (unfold vpn, aligned, PAGE_SIZE in *; Z.div_mod_to_equations; lia). destruct E as [Ev Em].
    pose proof (store_byte_spec K s l1 a va f c Ha ltac:(unfold PAGE_SIZE in *; lia) ltac:(congruence)) as W. rewrite Em in W.
    unfold wp in W. destruct (store_byte (f + (va - pg)) c s) as [[] s1] eqn:Es. cbn [fst snd] in W.
    assert (E1 : store_bytes (f + (va - pg)) (c :: l) s = store_bytes (f + (va + 1 - pg)) l s1).
    { replace (f + (va + 1 - pg)) with (f + (va - pg) + 1) by lia. injection Es as <-. done. }
    pose proof (IH s1 (va + 1) (ev_ok _ _ _ _ _ _ (st_ev _ _ _ _ _ _ _ W)) ltac:(lia) ltac:(lia) Hc) as H2. unfold wp in *. rewrite E1.
    eapply step_trans; [exact W|]. eapply step_see; [exact H2|]. intros x Hx. unfold patch. cbn [length]. rewrite (st_see _ _ _ _ _ _ _ W x Hx).
    destruct (decide (x = va)) as [->|].
    + rewrite decide_False, decide_True by lia. rewrite Z.sub_diag. cbn. by rewrite u8_small.
    + repeat case_decide; try lia; [|done]. replace (Z.to_nat (x - va)) with (S (Z.to_nat (x - (va + 1)))) by lia. done.
Qed.

(** A step that changes bytes of the page below [hi] only. *)
Definition wrote s (hi : Z) s' : Prop := step K s l1 a s' a (ubyte s' a) /\ forall x, 0 <= x -> ~ pg <= x < hi -> ubyte s' a x = ubyte s a x.

Lemma wrote_refl s hi : as_ok K s l1 a -> wrote s hi s.
Proof. intros Ha. split; [by apply step_refl|done]. Qed.

Lemma wrote_trans s hi s1 hi' s2 : wrote s hi s1 -> wrote s1 hi' s2 -> hi' <= hi -> wrote s hi s2.
Proof. intros [S1 F1] [S2 F2] Hle. split; [by eapply step_trans|]. intros x Hx Hn. rewrite F2, F1 by lia. done. Qed.

Lemma wrote_ok s hi s' : wrote s hi s' -> as_ok K s' l1 a.
Proof. intros [H _]. apply H. Qed.

Lemma wrote_has s hi s' va l : wrote s hi s' -> hi <= va -> pg <= va -> has (ubyte s a) va l -> has (ubyte s' a) va l.
Proof. intros [_ F] H1 H2 H. eapply (has_above _ _ va); [exact H|unfold PAGE_SIZE in *; lia|]. intros x Hx. apply F; unfold PAGE_SIZE in *; lia. Qed.

Lemma store_wrote l s va hi : as_ok K s l1 a -> pg <= va -> va + Z.of_nat (length l) <= hi -> hi <= pg + PAGE_SIZE -> Forall (fun c => 0 <= c < 256) l ->
  wp (store_bytes (f + (va - pg)) l) s (fun _ s' => wrote s hi s' /\ has (ubyte s' a) va l).
Proof.
  intros Ha Hv Hl Hh Hc. eapply wp_mono; [apply store_bytes_spec; [done..|lia|done]|]. intros _ s' [E T S]. split.
  - split; [by split|]. intros x Hx Hn. rewrite S by done. unfold patch. by rewrite decide_False by lia.
  - eapply has_ext; [unfold PAGE_SIZE in *; lia|exact S|]. apply has_patch.
Qed.
(** [p] points at [str], which lies in [lo, hi) *)
Definition placed s (lo hi : Z) (p : Z) (str : cstr) : Prop := lo <= p /\ p + strlen str + 1 <= hi /\ has (ubyte s a) p (str ++ [0]).

Lemma placed_later s hi s' lo hi' p str : wrote s hi s' -> hi <= lo -> pg <= lo -> placed s lo hi' p str -> placed s' lo hi' p str.
Proof. intros Hw H1 H2 (P1 & P2 & P3). split; [done|]. split; [done|]. eapply wrote_has; [exact Hw|lia..|done]. Qed.

Lemma placed_mono s lo hi lo' hi' p str : placed s lo hi p str -> lo' <= lo -> hi <= hi' -> placed s lo' hi' p str.
Proof. intros (P1 & P2 & P3) ??. split; [lia|]. split; [lia|done]. Qed.

Lemma str_bytes str : str_ok str -> Forall (fun c => 0 <= c < 256) (str ++ [0]).
Proof. intros [H _]. apply Forall_app. split; [|by apply Forall_singleton]. eapply Forall_impl; [exact H|]. cbn. lia. Qed.

(** The strings go below [sp], one under the other. *)
Lemma push_strings_spec l s sp vas : as_ok K s l1 a -> pg <= sp <= pg + PAGE_SIZE -> Forall str_ok l ->
  wp (push_strings f pg l sp vas) s (fun r s' => wrote s sp s' /\
    match r with
    | None => sp - strings_size l < pg
    | Some (sp', vas') => sp' = sp - strings_size l /\ pg <= sp' /\ exists ps, vas' = ps ++ vas /\ Forall2 (placed s' sp' sp) ps (rev l)
    end).
Proof.
  revert s sp vas. induction l as [|str l IH]; intros s sp vas Ha Hsp Hl; cbn [push_strings].
  - apply wp_ret. split; [by apply wrote_refl|]. split; [cbn; lia|]. split; [lia|]. by exists [].
  - change (strings_size (str :: l)) with (strlen str + 1 + strings_size l). apply Forall_cons in Hl as [Hs Hl]. pose proof Hs as [_ Hlen]. cbv zeta. assert (0 <= strlen str) by (unfold strlen; lia).
    pose proof (strings_size_pos l).
    assert (E : sp -w (strlen str + 1) = sp - (strlen str + 1)) by (unfold USER_VA_MAX, PAGE_SIZE in *; u32_simpl; lia). rewrite E.
    destruct (Z.ltb_spec (sp - (strlen str + 1)) pg) as [Hlt|Hge]; [apply wp_ret; split; [by apply wrote_refl|lia]|].
    assert (E2 : sp - (strlen str + 1) -w pg = sp - (strlen str + 1) - pg) by (unfold USER_VA_MAX, PAGE_SIZE in *; u32_simpl; lia). rewrite E2.
    set (sp1 := sp - (strlen str + 1)) in *. apply wp_bind. eapply wp_mono; [apply (store_wrote (str ++ [0]) s sp1 sp); [done|done| |lia|by apply str_bytes]|].
    { rewrite length_app. cbn. unfold sp1, strlen. lia. }
    intros _ s1 [W1 H1]. eapply wp_mono; [apply IH; [by eapply wrote_ok|lia|done]|]. cbv beta. intros r s2 [W2 H2].
    split; [eapply wrote_trans; [exact W1|exact W2|lia]|]. destruct r as [[sp' vas']|]; [|lia]. destruct H2 as (-> & Hp & ps & -> & HF).
    split; [lia|]. split; [done|]. exists (ps ++ [sp1]). split; [by rewrite <- app_assoc|]. cbn [rev]. apply Forall2_app.
    + eapply Forall2_impl; [exact HF|]. intros p q Hq. eapply placed_mono; [exact Hq|lia..].
    + constructor; [|done]. split; [lia|]. split; [unfold sp1; lia|]. eapply wrote_has; [exact W2|lia..|done].
Qed.
Lemma strings_size_rev l : strings_size (rev l) = strings_size l.
Proof.
  assert (H : forall x y, strings_size (x ++ y) = strings_size x + strings_size y) by (intros x y; unfold strings_size; induction x as [|c x IH]; cbn; lia).
  induction l as [|x l IH]; [done|]. cbn [rev]. rewrite H, IH. unfold strings_size. cbn. lia.
Qed.

Lemma placed_points s lo hi ps ss : Forall2 (placed s lo hi) ps ss -> pg <= lo -> hi <= pg + PAGE_SIZE -> Forall str_ok ss -> Forall2 (points (ubyte s a)) ps ss.
Proof.
  intros H H1 H2 Hs. induction H as [|p str ps ss (P1 & P2 & P3) _ IH]; [done|]. apply Forall_cons in Hs as [Hk Hs]. constructor; [|by apply IH].
  split; [|done]. unfold USER_VA_MAX, PAGE_SIZE, strlen in *. lia.
Qed.

(** The vectors in place are read back. *)
Lemma start_args_at (g : Z -> option Z) vec av ev argv envp lr rnd : Forall2 (points g) av argv -> Forall2 (points g) ev envp -> lr_ok lr -> word_ok rnd ->
  (length argv <= 63)%nat -> (length envp <= 63)%nat ->
  words_at g vec (Z.of_nat (length argv) :: av ++ [0] ++ ev ++ [0] ++ auxv lr rnd) ->
  start_args g vec = Some (Args (Z.of_nat (length argv)) argv envp (aux_pairs lr rnd)).
Proof.
  intros Hav Hev Hlr Hrnd La Le Hw. pose proof (Forall2_length _ _ _ Hav) as Ea. pose proof (Forall2_length _ _ _ Hev) as Ee.
  apply words_cons in Hw as [H0 Hw]. rewrite (app_assoc av), words_app in Hw. destruct Hw as [H1 Hw]. rewrite (app_assoc ev), words_app in Hw. destruct Hw as [H2 H3].
  rewrite !length_app in *. cbn [length] in *. unfold start_args. rewrite (has_word g vec (Z.of_nat (length argv))) by (done || (unfold word_ok; lia)). cbn [mbind option_bind].
  rewrite (words_vec g (vec + 4) av argv) by (done || lia). cbn [mbind option_bind].
  replace (vec + 4 + 4 * Z.of_nat (length av) + 4) with (vec + 4 + 4 * Z.of_nat (length av + 1)) by lia. set (x := vec + 4 + 4 * Z.of_nat (length av + 1)) in *.
  rewrite (words_vec g x ev envp) by (done || lia). cbn [mbind option_bind].
  replace (x + 4 * Z.of_nat (length ev) + 4) with (x + 4 * Z.of_nat (length ev + 1)) by lia. rewrite auxv_pairs in H3.
  rewrite (words_aux g _ (aux_pairs lr rnd)); [done|by apply aux_pairs_ok|unfold aux_pairs; destruct (lr_dynamic lr); cbn; lia|done].
Qed.

Lemma random_bytes_ok : Forall (fun c => 0 <= c < 256) random_bytes /\ length random_bytes = 16%nat.
Proof. split; [|done]. apply Forall_fmap, Forall_true. intros i. cbn. apply u8_range. Qed.

Lemma words_bytes w : Forall (fun c => 0 <= c < 256) (w ≫= le_bytes 4).
Proof.
  apply Forall_bind, Forall_true. intros v. cbn [le_bytes]. repeat (apply Forall_cons; split; [apply Z.mod_pos_bound; lia|]). done.
Qed.

Lemma length_auxv lr rnd : Z.of_nat (length (auxv lr rnd)) = 2 * (if lr_dynamic lr then 13 else 3).
Proof. unfold auxv. by destruct (lr_dynamic lr). Qed.
Definition too_big (argv envp : list cstr) (lr : load_result) : Prop := 63 < Z.of_nat (length argv) \/ 63 < Z.of_nat (length envp) \/ PAGE_SIZE < stack_need argv envp lr.

(** what a program finds at its stack pointer [sp] *)
Definition stack_ok (g : Z -> option Z) (sp : Z) (argv envp : list cstr) (lr : load_result) : Prop :=
  sp mod 16 = 0 /\ pg <= sp < pg + PAGE_SIZE /\
  exists rnd, start_args g sp = Some (Args (Z.of_nat (length argv)) argv envp (aux_pairs lr rnd)) /\ has g rnd random_bytes.

Lemma stack_ok_ext (g h : Z -> option Z) sp argv envp lr : (forall x, g x = h x) -> stack_ok h sp argv envp lr -> stack_ok g sp argv envp lr.
Proof.
  intros E (H1 & H2 & rnd & H3 & H4). split; [done|]. split; [done|]. exists rnd. split; [by rewrite (start_args_proper g h E sp sp eq_refl)|]. intros i c Hi. rewrite E. by apply H4.
Qed.

(** the last part: the random bytes and the vectors *)
Lemma setup_tail argv envp lr s sp av ev : as_ok K s l1 a -> Forall str_ok argv -> Forall str_ok envp -> lr_ok lr ->
  (length argv <= 63)%nat -> (length envp <= 63)%nat -> pg <= sp <= pg + PAGE_SIZE ->
  Forall2 (placed s sp (pg + PAGE_SIZE)) av argv -> Forall2 (placed s sp (pg + PAGE_SIZE)) ev envp ->
  let sp1 := sp -w 16 in
  wp (if sp1 <? pg then mret 0 else
      store_bytes (f + (sp1 -w pg)) random_bytes ≫= fun _ =>
      let nw := stack_words argv envp lr in
      if sp1 <? pg +w nw * 4 then mret 0
      else
        let vec := (sp1 -w nw * 4) .& .~ 15 in
        if vec <? pg then mret 0
        else store_bytes (f + (vec -w pg)) ((Z.of_nat (length argv) :: av ++ [0] ++ ev ++ [0] ++ auxv lr sp1) ≫= le_bytes 4) ≫= fun _ => mret vec) s
    (fun r s' => wrote s sp s' /\ if decide (r = 0) then sp - (16 + 4 * stack_words argv envp lr + 15) < pg else stack_ok (ubyte s' a) r argv envp lr).
Proof.
  intros Ha Hav Hev Hlr La Le Hsp Pa Pe. cbv zeta.
  assert (Hnw : 0 <= stack_words argv envp lr <= 155) by (unfold stack_words; destruct (lr_dynamic lr); lia). set (nw := stack_words argv envp lr) in *.
  unfold USER_VA_MAX, PAGE_SIZE in *. rewrite (u32_small (sp - 16)) by lia. set (sp1 := sp - 16) in *.
  destruct (Z.ltb_spec sp1 pg); [apply wp_ret; split; [by apply wrote_refl|rewrite decide_True by done; lia]|]. rewrite (u32_small (sp1 - pg)) by lia.
  destruct random_bytes_ok as [Rb Rl]. apply wp_bind. eapply wp_mono; [apply (store_wrote random_bytes s sp1 sp); [done|lia|rewrite Rl; lia|unfold PAGE_SIZE; lia|done]|].
  intros _ s1 [W1 B1]. rewrite (u32_small (pg + nw * 4)) by lia. destruct (Z.ltb_spec sp1 (pg + nw * 4)); [apply wp_ret; split; [done|rewrite decide_True by done; lia]|].
  rewrite (u32_small (sp1 - nw * 4)) by lia. assert (Ev : (sp1 - nw * 4) .& .~ 15 = (sp1 - nw * 4) - (sp1 - nw * 4) mod 2 ^ 4) by (apply (land_lnot_ones _ 4); lia).
  rewrite Ev. set (vec := sp1 - nw * 4 - (sp1 - nw * 4) mod 2 ^ 4). pose proof (Z.mod_pos_bound (sp1 - nw * 4) (2 ^ 4) ltac:(lia)) as Hm.
  destruct (Z.ltb_spec vec pg); [apply wp_ret; split; [done|rewrite decide_True by done; lia]|]. rewrite (u32_small (vec - pg)) by lia.
  set (w := Z.of_nat (length argv) :: av ++ [0] ++ ev ++ [0] ++ auxv lr sp1).
  assert (Lw : Z.of_nat (length (w ≫= le_bytes 4)) = 4 * nw).
  { rewrite length_words, Nat2Z.inj_mul. unfold w, nw, stack_words. cbn [length app]. rewrite !length_app. cbn [length]. rewrite !length_app. cbn [length].
    rewrite (Forall2_length _ _ _ Pa), (Forall2_length _ _ _ Pe). pose proof (length_auxv lr sp1). lia. }
  apply wp_bind. eapply wp_mono; [apply (store_wrote (w ≫= le_bytes 4) s1 vec sp1); [by eapply wrote_ok|lia|rewrite Lw; lia|unfold PAGE_SIZE; lia|apply words_bytes]|].
  intros _ s2 [W2 B2]. apply wp_ret. split; [eapply wrote_trans; [exact W1|exact W2|lia]|]. rewrite decide_False by lia.
  split; [unfold vec; Z.div_mod_to_equations; lia|]. split; [unfold PAGE_SIZE; lia|]. exists sp1. split; [|eapply wrote_has; [exact W2|lia..|done]].
  assert (L : forall ps ss, Forall2 (placed s sp (pg + 4096)) ps ss -> Forall2 (placed s2 sp (pg + 4096)) ps ss).
  { intros ps ss HF. eapply Forall2_impl; [exact HF|]. intros p str Hp. eapply placed_later; [exact W2|lia..|]. by eapply placed_later; [exact W1|lia..|]. }
  apply start_args_at with (av := av) (ev := ev); try done.
  - eapply placed_points; [by apply L|lia|unfold PAGE_SIZE; lia|done].
  - eapply placed_points; [by apply L|lia|unfold PAGE_SIZE; lia|done].
  - unfold word_ok. lia.
Qed.
End layout.

Section setup.
Context {A : Type} {FA : FrameAlloc A} {FS : FrameAllocSpec A}.
Context (K : Z -> Z) (HK : forall i, (K i) mod 4 <> 1).

Lemma setup_user_stack_spec (s : vms A) l1 a argv envp lr :
  as_ok K s l1 a -> is_Some (pages a !! vpn STACK_PAGE) -> Forall str_ok argv -> Forall str_ok envp -> lr_ok lr ->
  wp (setup_user_stack l1 USER_VA_MAX argv envp lr) s (fun sp s' => wrote K l1 a STACK_PAGE s USER_VA_MAX s' /\
    if decide (sp = 0) then too_big argv envp lr else stack_ok STACK_PAGE (ubyte s' a) sp argv envp lr).
Proof.
  intros Ha [f Hf] Hav Hev Hlr. assert (R : wrote K l1 a STACK_PAGE s USER_VA_MAX s) by by apply wrote_refl.
  destruct (as_frame K s l1 a (RPage _) f Ha Hf) as (_ & Hpos & _).
  assert (Hpg : aligned PAGE_SIZE STACK_PAGE /\ PAGE_SIZE <= STACK_PAGE /\ STACK_PAGE + PAGE_SIZE = USER_VA_MAX) by done. destruct Hpg as (Hal & Hlo & Hhi).
  unfold setup_user_stack. cbv zeta. change ((USER_VA_MAX -w 1) .& .~ (PAGE_SIZE - 1)) with STACK_PAGE.
  apply wp_bind. unfold wp at 1. rewrite (vm_walk_eq K HK s l1 a) by done. cbn [fst snd]. rewrite Hf. change (STACK_PAGE mod 4096) with 0. rewrite Z.add_0_r.
  rewrite (proj2 (Z.eqb_neq f 0)) by lia. destruct (Z.ltb_spec 63 (Z.of_nat (length argv))); [apply wp_ret; split; [done|by left]|].
  destruct (Z.ltb_spec 63 (Z.of_nat (length envp))); [apply wp_ret; split; [done|by right; left]|]. cbn [orb]. apply wp_bind.
  eapply wp_mono; [apply (push_strings_spec K l1 a STACK_PAGE f); [done..|unfold PAGE_SIZE in *; lia|by apply Forall_rev]|]. cbv beta.
  pose proof (strings_size_pos argv). pose proof (strings_size_pos envp).
  assert (Hw : 0 <= stack_words argv envp lr) by (unfold stack_words; destruct (lr_dynamic lr); lia).
  intros r s1 [W1 P1]. rewrite strings_size_rev in P1. rewrite <- Hhi in W1. destruct r as [[sp1 av]|].
  2:{ apply wp_ret. split; [by rewrite <- Hhi|]. rewrite decide_True by done. right; right. unfold stack_need, PAGE_SIZE in *. lia. }
  destruct P1 as (-> & Hp1 & av' & -> & F1). rewrite rev_involutive, app_nil_r in *. set (sp1 := USER_VA_MAX - strings_size argv) in *. apply wp_bind.
  eapply wp_mono; [apply (push_strings_spec K l1 a STACK_PAGE f); [done..|by eapply wrote_ok|unfold sp1; lia|by apply Forall_rev]|]. cbv beta.
  intros r s2 [W2 P2]. rewrite strings_size_rev in P2. assert (W12 : wrote K l1 a STACK_PAGE s USER_VA_MAX s2).
  { rewrite <- Hhi. eapply wrote_trans; [exact W1|exact W2|unfold sp1; lia]. }
  destruct r as [[sp2 ev]|]; [|apply wp_ret; split; [done|]; rewrite decide_True by done; right; right; unfold stack_need, PAGE_SIZE in *; lia].
  destruct P2 as (-> & Hp2 & ev' & -> & F2). rewrite rev_involutive, app_nil_r in *. set (sp2 := sp1 - strings_size envp) in *.
  eapply wp_mono; [apply (setup_tail K l1 a STACK_PAGE f Hal Hlo ltac:(lia) Hf argv envp lr s2 sp2 av' ev'); try done|].
  - by eapply wrote_ok.
  - lia.
  - lia.
  - unfold sp2, sp1. lia.
  - rewrite Hhi. eapply Forall2_impl; [exact F1|]. intros p str Hp. apply (placed_mono a s2 sp1 USER_VA_MAX); [|unfold sp2; lia|reflexivity]. eapply placed_later; [..|exact Hp]; [done|exact W2|lia..].
  - rewrite Hhi. eapply Forall2_impl; [exact F2|]. intros p str Hp. eapply placed_mono; [exact Hp|lia|unfold sp1; lia].
  - cbv beta. intros r s3 [W3 H3]. split; [eapply wrote_trans; [exact W12|exact W3|unfold sp2, sp1; lia]|]. destruct (decide (r = 0)); [|done].
    right. right. unfold stack_need, sp2, sp1, PAGE_SIZE in *. lia.
Qed.
End setup.

(** the lowest address of the stack *)
Definition STACK_LOW : Z := USER_VA_MAX - Z.of_nat USTACK_PAGES * PAGE_SIZE.

Section stack.
Context {A : Type} {FA : FrameAlloc A} {FS : FrameAllocSpec A}.
Context (K : Z -> Z) (HK : forall i, (K i) mod 4 <> 1).
Implicit Types (s t u : vms A) (a b : aspace).

Lemma stack_page_eq i : 1 <= i <= Z.of_nat USTACK_PAGES -> let va := USER_VA_MAX - i * PAGE_SIZE in
  stack_page i = va /\ aligned PAGE_SIZE va /\ STACK_LOW <= va /\ va + PAGE_SIZE <= USER_VA_MAX /\ USER_VA_MIN <= va.
Proof.
  unfold stack_page, USTACK_PAGES, STACK_LOW, USER_VA_MAX, USER_VA_MIN, aligned, PAGE_SIZE. intros Hi. cbv zeta. u32_simpl. Z.div_mod_to_equations. unfold USTACK_PAGES. lia.
Qed.

(** the pages of the stack from the top down are given back *)
Lemma drop_stack s l1 a n : as_ok K s l1 a -> Z.of_nat n <= Z.of_nat USTACK_PAGES ->
  wp (forM n 1 1 (fun j => drop_page l1 (stack_page j))) s (fun _ s' => exists a', step K s l1 a s' a' (hole (USER_VA_MAX - Z.of_nat n * PAGE_SIZE) USER_VA_MAX (ubyte s a))).
Proof.
  intros Ha Hn. eapply wp_mono; [apply (wp_forM n 1 1 _ s (fun j t => exists a', step K s l1 a t a' (hole (USER_VA_MAX - (j - 1) * PAGE_SIZE) USER_VA_MAX (ubyte s a))))|].
  - exists a. eapply step_see; [by apply step_refl|]. intros x _. unfold hole. by rewrite decide_False by lia.
  - intros k t Hk (a1 & H1). rewrite !Z.mul_1_r in *. destruct (stack_page_eq (1 + k)) as (-> & Hal & Hlo & Hhi & Hmin); [lia|].
    set (va := USER_VA_MAX - (1 + k) * PAGE_SIZE) in *. assert (USER_VA_MAX - (1 + k - 1) * PAGE_SIZE = va + PAGE_SIZE) as E by (unfold va; lia). rewrite E in H1.
    eapply wp_mono; [apply (drop_one K HK t l1 a1 va); [apply H1|unfold USER_VA_MIN, USER_VA_MAX, PAGE_SIZE in *; lia|done]|].
    intros [] u (a2 & H2). exists a2. eapply step_trans; [exact H1|]. eapply step_see; [exact H2|]. intros x Hx. unfold hole at 1.
    rewrite (st_see _ _ _ _ _ _ _ H1 x Hx). replace (USER_VA_MAX - (1 + (k + 1) - 1) * PAGE_SIZE) with va by (unfold va; lia).
    unfold hole, PAGE_SIZE in *. repeat case_decide; try lia; done.
  - cbn beta. intros [] t H. by replace (1 + Z.of_nat n * 1 - 1) with (Z.of_nat n) in H by lia.
Qed.

(** A fresh zeroed stack, or nothing. *)
Lemma map_user_stack_spec s l1 a : as_ok K s l1 a -> (forall x, STACK_LOW <= x < USER_VA_MAX -> ubyte s a x = None) ->
  wp (map_user_stack l1) s (fun r s' => exists a', (r = 0 /\ step K s l1 a s' a' (zeros STACK_LOW USER_VA_MAX (ubyte s a))) \/ (r = -1 /\ step K s l1 a s' a' (ubyte s a))).
Proof.
  intros Ha Hfree. unfold map_user_stack. wp_step.
  apply (wp_forR USTACK_PAGES 1 1 _ s (fun i t => exists a', step K s l1 a t a' (zeros (USER_VA_MAX - (i - 1) * PAGE_SIZE) USER_VA_MAX (ubyte s a)))).
  - exists a. eapply step_see; [by apply step_refl|]. intros x _. unfold zeros. by rewrite decide_False by lia.
  - intros k t Hk (a1 & H1). rewrite Z.mul_1_r in *. destruct (stack_page_eq (1 + k)) as (-> & Hal & Hlo & Hhi & Hmin); [lia|].
    set (va := USER_VA_MAX - (1 + k) * PAGE_SIZE) in *. assert (USER_VA_MAX - (1 + k - 1) * PAGE_SIZE = va + PAGE_SIZE) as E by (unfold va; lia). rewrite E in H1.
    wp_step. eapply wp_mono; [apply (map_one K HK t l1 a1 va); [apply H1|unfold USER_VA_MIN, PAGE_SIZE in *; lia|done|]|].
    { rewrite (st_see _ _ _ _ _ _ _ H1) by (unfold USER_VA_MIN in *; lia). unfold zeros. rewrite decide_False by (unfold PAGE_SIZE; lia). apply Hfree. unfold PAGE_SIZE in *. lia. }
    intros [] u (a2 & H2); cbn beta iota in *; wp_steps.
    + exists a2. eapply step_trans; [exact H1|]. eapply step_see; [exact H2|]. intros x Hx. unfold zeros at 1. rewrite (st_see _ _ _ _ _ _ _ H1 x Hx).
      replace (USER_VA_MAX - (1 + (k + 1) * 1 - 1) * PAGE_SIZE) with va by (unfold va; lia). unfold zeros, PAGE_SIZE in *. repeat case_decide; try lia; done.
    + replace (1 + k - 1) with k by lia. eapply wp_mono; [apply (drop_stack u l1 a2 (Z.to_nat k)); [apply H2|lia]|]. rewrite Z2Nat.id by lia.
      intros [] w (a3 & H3). cbn beta. wp_steps. exists a3. right. split; [done|]. eapply step_trans; [exact H1|]. eapply step_trans; [exact H2|]. eapply step_see; [exact H3|].
      intros x Hx. unfold hole. replace (USER_VA_MAX - k * PAGE_SIZE) with (va + PAGE_SIZE) by (unfold va; lia). case_decide as Hx'.
      * symmetry. apply Hfree. unfold PAGE_SIZE in *. lia.
      * rewrite (st_see _ _ _ _ _ _ _ H2 x Hx), (st_see _ _ _ _ _ _ _ H1 x Hx). unfold zeros. by rewrite decide_False.
  - intros t (a1 & H1). wp_steps. exists a1. left. split; [done|]. by replace (USER_VA_MAX - (1 + Z.of_nat USTACK_PAGES * 1 - 1) * PAGE_SIZE) with STACK_LOW in H1 by done.
Qed.

(** The top page of a fresh stack is there. *)
Lemma stack_mapped lo s l1 a s' a' g : lo <= STACK_PAGE -> step K s l1 a s' a' (zeros lo USER_VA_MAX g) -> is_Some (pages a' !! vpn STACK_PAGE).
Proof.
  intros Hlo S. pose proof (st_see _ _ _ _ _ _ _ S STACK_PAGE ltac:(done)) as E. unfold zeros in E. rewrite decide_True in E by (split; [done|]; unfold STACK_PAGE, PAGE_SIZE; lia). unfold ubyte in E. destruct (pages a' !! _); done.
Qed.
End stack.

(** * The claim *)

Section claim.
Context {A : Type} {FA : FrameAlloc A} {FS : FrameAllocSpec A}.
Context (K : Z -> Z) (HK : forall i, (K i) mod 4 <> 1).

(** C21. The initial stack round trip: where the top page of the stack is
    mapped, [setup_user_stack] writes into that page only.  A result of 0 means
    too many strings, or that they do not fit into the page; any other result
    is a 16-byte aligned stack pointer inside it from which the start-up code
    of a C program reads back exactly the count, the arguments, the
    environment, the auxiliary vector of the loaded program and 16 bytes behind
    [AT_RANDOM]. *)
Theorem initial_stack_roundtrip (s : vms A) l1 a argv envp lr sp s' :
  as_ok K s l1 a -> is_Some (pages a !! vpn STACK_PAGE) -> Forall str_ok argv -> Forall str_ok envp -> lr_ok lr ->
  setup_user_stack l1 USER_VA_MAX argv envp lr s = (sp, s') ->
  as_ok K s' l1 a /\
  (forall x, 0 <= x -> ~ STACK_PAGE <= x < USER_VA_MAX -> ubyte s' a x = ubyte s a x) /\
  (sp = 0 -> 63 < Z.of_nat (length argv) \/ 63 < Z.of_nat (length envp) \/ PAGE_SIZE < stack_need argv envp lr) /\
  (sp <> 0 -> sp mod 16 = 0 /\ STACK_PAGE <= sp < USER_VA_MAX /\ exists rnd,
    start_args (ubyte s' a) sp = Some (Args (Z.of_nat (length argv)) argv envp (aux_pairs lr rnd)) /\ has (ubyte s' a) rnd random_bytes).
Proof.
  intros Ha Hp Hav Hev Hlr E. destruct (wp_eq _ _ _ _ _ E (setup_user_stack_spec K HK s l1 a argv envp lr Ha Hp Hav Hev Hlr)) as [W H].
  split; [by eapply wrote_ok|]. split; [apply W|]. destruct (decide (sp = 0)) as [->|]; [by split|]. split; [done|]. intros _. exact H.
Qed.
End claim.

(** ** A witness: a stack for [sh] *)

Definition demo_sh : cstr := [115; 104].
Definition demo_lr : load_result := LoadResult 0x10000 0x12000 false 0 0 0 0x10000 0.
(** the top page of the stack mapped *)
Definition demo_stacked : vms pmm := (map_fresh demo_l1 STACK_PAGE demo_vm1).2.

Lemma demo_sh_ok : Forall str_ok [demo_sh].
Proof. apply Forall_singleton. split; [|done]. unfold demo_sh. repeat (apply Forall_cons; split; [lia|]). done. Qed.

Lemma demo_lr_ok : lr_ok demo_lr.
Proof. unfold lr_ok, word_ok, demo_lr. cbn. repeat (apply Forall_cons; split; [lia|]). done. Qed.

Lemma demo_stack_mapped : (map_fresh demo_l1 STACK_PAGE demo_vm1).1 = true.
Proof. vm_compute. reflexivity. Qed.

Lemma demo_stack_fits : negb ((setup_user_stack demo_l1 USER_VA_MAX [demo_sh] [] demo_lr demo_stacked).1 =? 0) = true.
Proof. vm_compute. reflexivity. Qed.

Lemma stack_fits_spec (v : vms pmm) : negb ((setup_user_stack demo_l1 USER_VA_MAX [demo_sh] [] demo_lr v).1 =? 0) = true ->
  exists sp s', setup_user_stack demo_l1 USER_VA_MAX [demo_sh] [] demo_lr v = (sp, s') /\ sp <> 0.
Proof.
  destruct (setup_user_stack demo_l1 USER_VA_MAX [demo_sh] [] demo_lr v) as [sp s'] eqn:E. intros N. exists sp, s'. split; [done|]. by apply negb_true_iff, Z.eqb_neq in N.
Qed.

Lemma demo_stacked_step : exists a', step kmap demo_vm1 demo_l1 (AS ∅ ∅) demo_stacked a' (zeros STACK_PAGE USER_VA_MAX (ubyte demo_vm1 (AS ∅ ∅))).
Proof.
  pose proof (map_one kmap kmap_not_coarse demo_vm1 demo_l1 _ STACK_PAGE demo_as1 ltac:(unfold STACK_PAGE, USER_VA_MIN, USER_VA_MAX, PAGE_SIZE; lia) eq_refl eq_refl) as W.
  unfold wp in W. rewrite demo_stack_mapped in W. exact W.
Qed.

Lemma demo_stacked_ok : exists a', as_ok kmap demo_stacked demo_l1 a' /\ is_Some (pages a' !! vpn STACK_PAGE).
Proof. destruct demo_stacked_step as (a' & S). exists a'. split; [apply S|exact (stack_mapped _ STACK_PAGE _ _ _ _ _ _ ltac:(done) S)]. Qed.

Lemma initial_stack_roundtrip_witness : exists sp s' a' rnd, setup_user_stack demo_l1 USER_VA_MAX [demo_sh] [] demo_lr demo_stacked = (sp, s') /\
  start_args (ubyte s' a') sp = Some (Args 1 [demo_sh] [] (aux_pairs demo_lr rnd)).
Proof.
  destruct demo_stacked_ok as (a' & Ha & Hp). destruct (stack_fits_spec demo_stacked demo_stack_fits) as (sp & s' & E & N).
  exists sp, s', a'. destruct (initial_stack_roundtrip kmap kmap_not_coarse demo_stacked demo_l1 a' [demo_sh] [] demo_lr sp s' Ha Hp demo_sh_ok) as (_ & _ & _ & H).
  - constructor.
  - exact demo_lr_ok.
  - exact E.
  - destruct (H N) as (_ & _ & rnd & H' & _). exists rnd. split; [exact E|exact H'].
Defined.
