(* ===== verification/Syscall.v ===== *)
(** The system call dispatcher, [kernel/arch/arm/syscall.c], and the timer
    interrupt of [kernel/kernel/main.c].

    The dispatcher moves the bytes of the caller's buffers: a call of
    [fs_syscall.c] gets the bytes it reads and returns the ones it stores.  A
    path is read to its end before it is looked up, and a buffer that is not
    mapped is a [Fault], as is every other access of the kernel through an
    unmapped user address.  What is printed is left out. *)

From stdpp Require Import gmap list fin_maps.
From Stdlib Require Import ZArith Lia.
From S2P Require Import Prelude Memory Checked Frames Pmm Kmalloc KernMem Vm Ramfs Proc File FsSyscall UserMem Elf Kern Mmap ProcOps Exec.

Definition SYS_restart_syscall : Z := 0.
Definition SYS_exit : Z := 1.
Definition SYS_fork : Z := 2.
Definition SYS_execve : Z := 11.
Definition SYS_getpid : Z := 20.
Definition SYS_wait4 : Z := 114.
Definition SYS_clone : Z := 120.
Definition SYS_exit_group : Z := 248.
Definition SYS_set_tid_address : Z := 256.
Definition SYS_read : Z := 3.
Definition SYS_write : Z := 4.
Definition SYS_open : Z := 5.
Definition SYS_close : Z := 6.
Definition SYS_lseek : Z := 19.
Definition SYS_dup : Z := 41.
Definition SYS_pipe : Z := 42.
Definition SYS_ioctl : Z := 54.
Definition SYS_dup2 : Z := 63.
Definition SYS__llseek : Z := 140.
Definition SYS_readv : Z := 145.
Definition SYS_writev : Z := 146.
Definition SYS_fcntl64 : Z := 221.
Definition SYS_openat : Z := 322.
Definition SYS_pipe2 : Z := 359.
Definition SYS_poll : Z := 168.
Definition SYS_chdir : Z := 12.
Definition SYS_access : Z := 33.
Definition SYS_getcwd : Z := 183.
Definition SYS_getdents64 : Z := 217.
Definition SYS_readlinkat : Z := 332.
Definition SYS_faccessat : Z := 334.
Definition SYS_faccessat2 : Z := 439.
Definition SYS_stat64 : Z := 195.
Definition SYS_lstat64 : Z := 196.
Definition SYS_fstat64 : Z := 197.
Definition SYS_fstatat64 : Z := 327.
Definition SYS_statx : Z := 397.
Definition SYS_brk : Z := 45.
Definition SYS_munmap : Z := 91.
Definition SYS_mprotect : Z := 125.
Definition SYS_mmap2 : Z := 192.
Definition SYS_madvise : Z := 220.
Definition SYS_rt_sigreturn : Z := 173.
Definition SYS_rt_sigaction : Z := 174.
Definition SYS_rt_sigprocmask : Z := 175.
Definition SYS_gettimeofday : Z := 78.
Definition SYS_sysinfo : Z := 116.
Definition SYS_nanosleep : Z := 162.
Definition SYS_clock_gettime : Z := 263.
Definition SYS_clock_nanosleep : Z := 265.
Definition SYS_clock_gettime64 : Z := 403.
Definition SYS_clock_nanosleep_time64 : Z := 407.
Definition SYS_getppid : Z := 64.
Definition SYS_setpgid : Z := 57.
Definition SYS_getpgrp : Z := 65.
Definition SYS_setsid : Z := 66.
Definition SYS_setrlimit : Z := 75.
Definition SYS_uname : Z := 122.
Definition SYS_getpgid : Z := 132.
Definition SYS_getsid : Z := 147.
Definition SYS_sched_yield : Z := 158.
Definition SYS_prctl : Z := 172.
Definition SYS_ugetrlimit : Z := 191.
Definition SYS_getuid : Z := 24.
Definition SYS_getgid : Z := 47.
Definition SYS_geteuid : Z := 49.
Definition SYS_getegid : Z := 50.
Definition SYS_getuid32 : Z := 199.
Definition SYS_getgid32 : Z := 200.
Definition SYS_geteuid32 : Z := 201.
Definition SYS_getegid32 : Z := 202.
Definition SYS_setuid32 : Z := 213.
Definition SYS_setgid32 : Z := 214.
Definition SYS_gettid : Z := 224.
Definition SYS_times : Z := 43.
Definition SYS_sched_getaffinity : Z := 242.
Definition SYS_mount : Z := 21.
Definition SYS_umount2 : Z := 52.
Definition ARM_NR_set_tls : Z := 0xf0005.

Definition K_EINTR : Z := 4.
Definition K_EINVAL_S : Z := 22.
Definition SIG_BLOCK : Z := 0.
Definition SIG_UNBLOCK : Z := 1.
Definition SIG_SETMASK : Z := 2.
Definition POLLNVAL : Z := 0x20.

Definition TICK_HZ : Z := 10.
(** of the default board, the T113 *)
Definition TIMER_INTID : Z := 29.
Definition GIC_SPURIOUS : Z := 0x3FF.

(** what [pmm_total_pages] and [pmm_free_pages] report *)
Class FrameCount (A : Type) := { total_pages : A -> Z; free_pages : A -> Z }.

#[export] Instance pmm_count : FrameCount pmm := {| total_pages := pmm_total_pages; free_pages := pmm_free_pages |}.

(** the strings of [sys_uname]: Linux, gameboy-v3, 0.9-gv3, kernel S10, armv7l, (none) *)
Definition uts_names : list cstr :=
  [[76; 105; 110; 117; 120];
   [103; 97; 109; 101; 98; 111; 121; 45; 118; 51];
   [48; 46; 57; 45; 103; 118; 51];
   [107; 101; 114; 110; 101; 108; 32; 83; 49; 48];
   [97; 114; 109; 118; 55; 108];
   [40; 110; 111; 110; 101; 41]].

(** a field of 65 bytes *)
Definition uts_field (s : cstr) : list Z := s ++ replicate (65 - length s) 0.

(** the words of a [struct ksig], and back *)
Definition ksig_words (s : ksig) : list Z := [handler s; sa_flags s; restorer s; mask_lo s; mask_hi s].
Definition ksig_of (w : list Z) : ksig := Ksig (default 0 (w !! 0%nat)) (default 0 (w !! 1%nat)) (default 0 (w !! 2%nat)) (default 0 (w !! 3%nat)) (default 0 (w !! 4%nat)).

(** the termios structure in 36 bytes *)
Definition termios_of (b : list Z) : termios :=
  Termios (le_word (take 4 b)) (le_word (take 4 (drop 4 b))) (le_word (take 4 (drop 8 b))) (le_word (take 4 (drop 12 b)))
    (default 0 (b !! 16%nat)) (take 19 (drop 17 b)).

Section model.
Context {A : Type} {FA : FrameAlloc A} {FN : FrameCount A}.

Definition ktime_uptime_ms (k : kern A) : Z := g_ticks k *w (1000 / TICK_HZ).

(** ** User memory *)

Definition ustore_words (va : Z) (w : list Z) : C (kern A) unit := ustore_bytes va (w ≫= le_bytes 4).

Fixpoint uload_words (n : nat) (va : Z) : C (kern A) (list Z) :=
  match n with
  | O => mret []
  | S n' => w ← uload32 va; l ← uload_words n' (va + 4); mret (w :: l)
  end.

(** at most [n] characters, and whether the string ended *)
Fixpoint ustr_block (n : nat) (va : Z) : C (kern A) (cstr * bool) :=
  match n with
  | O => mret ([], false)
  | S n' => c ← uload va; if c =? 0 then mret ([], true) else r ← ustr_block n' (va + 1); mret (c :: r.1, r.2)
  end.

(** The string at [va]: [2^16] blocks are the whole address space. *)
Fixpoint ustr_blocks (n : nat) (va : Z) : C (kern A) cstr :=
  match n with
  | O => fun _ => NoFuel
  | S n' =>
      b ← ustr_block (Z.to_nat 65536) va;
      if b.2 : bool then mret b.1 else s ← ustr_blocks n' (va + 65536); mret (b.1 ++ s)
  end.

(** a path argument; a null pointer is treated as an empty path *)
Definition upath_at (va : Z) : C (kern A) cstr := if va =? 0 then mret [] else ustr_blocks (Z.to_nat 65536) va.

(** a call with a buffer to fill *)
Definition fill_buf (va : Z) (m : M (kern A) (Z * list Z)) : C (kern A) Z :=
  r ← run m; ustore_bytes va r.2 ≫= fun _ => mret r.1.

(** ** Small calls *)

Definition sys_uname (buf : Z) : C (kern A) Z :=
  if buf =? 0 then mret (-14) else ustore_bytes buf (uts_names ≫= uts_field) ≫= fun _ => mret 0.

Definition sys_rt_sigaction (sig act_uptr oldact_uptr sigsetsize : Z) : C (kern A) Z :=
  if negb (sigsetsize =? 8) then mret (- K_EINVAL_S)
  else if (sig <? 1) || (Z.of_nat NSIG <=? sig) then mret (- K_EINVAL_S)
  else
    slot ← look (fun k => default ksig0 (sigact (cur_proc k) !! Z.to_nat sig));
    (if oldact_uptr =? 0 then mret tt else ustore_words oldact_uptr (ksig_words slot)) ≫= fun _ =>
    if act_uptr =? 0 then mret 0
    else if (sig =? 9) || (sig =? 19) then mret (- K_EINVAL_S)
    else
      a ← uload_words 5 act_uptr;
      run (upd_cur (fun p => set_sigs (sig_blocked p) (<[Z.to_nat sig := ksig_of a]> (sigact p)) p)) ≫= fun _ =>
      mret 0.

Definition sys_rt_sigprocmask (how set_uptr oldset_uptr sigsetsize : Z) : C (kern A) Z :=
  if negb (sigsetsize =? 8) then mret (- K_EINVAL_S)
  else
    b ← look (fun k => sig_blocked (cur_proc k));
    (if oldset_uptr =? 0 then mret tt else ustore_words oldset_uptr [u32 b; u32 (Z.shiftr b 32)]) ≫= fun _ =>
    if set_uptr =? 0 then mret 0
    else
      lo ← uload32 set_uptr; hi ← uload32 (set_uptr + 4);
      let m := lo .| Z.shiftl hi 32 in
      let set v := run (upd_cur (fun p => set_sigs v (sigact p) p)) ≫= fun _ => mret 0 in
      if how =? SIG_BLOCK then set (b .| m)
      else if how =? SIG_UNBLOCK then set (Z.ldiff b m)
      else if how =? SIG_SETMASK then set m
      else mret (- K_EINVAL_S).

Definition sys_gettimeofday (tv_uptr : Z) : C (kern A) Z :=
  if tv_uptr =? 0 then mret 0
  else
    ms ← look ktime_uptime_ms;
    ustore_words tv_uptr [ms / 1000; (ms mod 1000) *w 1000] ≫= fun _ => mret 0.

Definition sys_clock_gettime (ts_uptr : Z) (time64 : bool) : C (kern A) Z :=
  if ts_uptr =? 0 then mret 0
  else
    ms ← look ktime_uptime_ms;
    let sec := ms / 1000 in
    let nsec := (ms mod 1000) *w 1000000 in
    ustore_words ts_uptr (if time64 then [sec; 0; nsec; 0] else [sec; nsec]) ≫= fun _ => mret 0.

Definition sys_sysinfo (info_uptr : Z) : C (kern A) Z :=
  if info_uptr =? 0 then mret (-14)
  else
    w ← look (fun k => let a := fa (vphys (kvm k)) in
      [ktime_uptime_ms k / 1000; 0; 0; total_pages a *w 4096; free_pages a *w 4096] ++ replicate 9 0 ++ [1; 0]);
    ustore_words info_uptr w ≫= fun _ => mret 0.

(** ** Files *)

(** how many bytes of its buffer [sys_write] looks at *)
Definition write_span (fd n : Z) : M (fp (kmem A)) Z :=
  f ← my_fd fd;
  gets (fun k =>
    let nd := inode_at (fsys k) (f_inode (file_at (fsys k) f)) in
    if f =? 0 then 0
    else if is_console nd then n
    else match i_type nd with
         | RF_PIPE => if i_rd_open nd =? 0 then 0 else Z.min n (PIPE_CAP - i_size nd)
         | RF_REG => n
         | _ => 0
         end).

Definition call_write (fd va n : Z) : C (kern A) Z :=
  span ← run (in_kfp (write_span fd n));
  b ← uload_bytes (Z.to_nat span) va;
  run (in_kio (sys_write fd (b ++ replicate (Z.to_nat (n - span)) 0))).

Definition call_read (fd va n : Z) : C (kern A) Z := fill_buf va (in_kio (sys_read fd n)).

(** [sys_writev] and [sys_readv] over a vector in user memory: [n] entries from [iov] *)
Fixpoint call_vec (io : Z -> Z -> C (kern A) Z) (n : nat) (iov total : Z) : C (kern A) Z :=
  match n with
  | O => mret total
  | S n' =>
      base ← uload32 iov;
      len ← uload32 (iov + 4);
      if len =? 0 then call_vec io n' (iov + 8) total
      else
        r ← io base len;
        if r <? 0 then mret (if negb (total =? 0) then total else r)
        else if u32 r <? len then mret (total + r)
        else call_vec io n' (iov + 8) (total + r)
  end.

(** the structure [sys_ioctl] reads *)
Definition new_termios (fd req arg : Z) : C (kern A) termios :=
  f ← run (in_kfp (my_fd fd));
  tty ← look (fun k => is_console (inode_at (kfs k) (f_inode (file_at (kfs k) f))));
  if negb (f =? 0) && tty && ((req =? TCSETS) || (req =? TCSETSW) || (req =? TCSETSF)) && negb (arg =? 0)
  then b ← uload_bytes 36 arg; mret (termios_of b)
  else mret console_tios_default.

Definition call_ioctl (fd req arg : Z) : C (kern A) Z :=
  t ← new_termios fd req arg; fill_buf arg (in_kio (sys_ioctl fd req arg t)).

(** one entry of [poll], and whether it is ready *)
Definition poll_one (pf : Z) : C (kern A) Z :=
  w0 ← uload32 pf;
  w1 ← uload32 (pf + 4);
  let fd := s32 w0 in
  let events := w1 .& 0xffff in
  f ← (if 0 <=? fd then run (in_kfp (my_fd fd)) else mret 0);
  let rev := if negb (f =? 0) then events else POLLNVAL in
  ustore32 (pf + 4) ((w1 .& 0xffff) .| Z.shiftl rev 16) ≫= fun _ =>
  mret (if rev =? 0 then 0 else 1).

Fixpoint poll_loop (n : nat) (pf ready : Z) : C (kern A) Z :=
  match n with O => mret ready | S n' => r ← poll_one pf; poll_loop n' (pf + 8) (ready + r) end.

Definition file_call (nr a0 a1 a2 a3 a4 : Z) : option (C (kern A) Z) :=
  if nr =? SYS_openat then Some (path ← upath_at a1; run (in_kfp (sys_openat (s32 a0) path (s32 a2) a3)))
  else if nr =? SYS_open then Some (path ← upath_at a0; run (in_kfp (sys_openat AT_FDCWD path (s32 a1) a2)))
  else if nr =? SYS_close then Some (run (in_kfp (sys_close (s32 a0))))
  else if nr =? SYS_write then Some (call_write (s32 a0) a1 a2)
  else if nr =? SYS_writev then Some (call_vec (call_write (s32 a0)) (Z.to_nat (s32 a2)) a1 0)
  else if nr =? SYS_readv then Some (call_vec (call_read (s32 a0)) (Z.to_nat (s32 a2)) a1 0)
  else if nr =? SYS__llseek then Some (fill_buf a3 (in_kfp (sys_llseek (s32 a0) a1 a2 a3 (s32 a4))))
  else if nr =? SYS_lseek then Some (run (in_kfp (sys_lseek (s32 a0) (s32 a1) (s32 a2))))
  else if nr =? SYS_dup then Some (run (in_kfp (sys_dup (s32 a0))))
  else if nr =? SYS_dup2 then Some (run (in_kfp (sys_dup2 (s32 a0) (s32 a1))))
  else if (nr =? SYS_pipe) || (nr =? SYS_pipe2) then Some (fill_buf a0 (in_kfp (sys_pipe2 a0)))
  else if nr =? SYS_fcntl64 then Some (run (in_kfp (sys_fcntl64 (s32 a0) (s32 a1) a2)))
  else if nr =? SYS_getdents64 then Some (fill_buf a1 (in_kfp (sys_getdents64 (s32 a0) a2)))
  else if nr =? SYS_fstat64 then Some (fill_buf a1 (in_kfp (sys_fstat64 (s32 a0))))
  else if nr =? SYS_stat64 then Some (path ← upath_at a0; fill_buf a1 (in_kfp (sys_stat64 path true)))
  else if nr =? SYS_lstat64 then Some (path ← upath_at a0; fill_buf a1 (in_kfp (sys_stat64 path false)))
  else if nr =? SYS_fstatat64 then Some (path ← upath_at a1; fill_buf a2 (in_kfp (sys_fstatat64 (s32 a0) path (s32 a3))))
  else if nr =? SYS_statx then Some (path ← upath_at a1; fill_buf a4 (in_kfp (sys_statx (s32 a0) path (s32 a2) a4)))
  else if (nr =? SYS_faccessat) || (nr =? SYS_faccessat2) then Some (path ← upath_at a1; run (in_kfp (sys_faccessat (s32 a0) path)))
  else if nr =? SYS_access then Some (path ← upath_at a0; run (in_kfp (sys_faccessat AT_FDCWD path)))
  else if nr =? SYS_readlinkat then Some (path ← upath_at a1; fill_buf a2 (in_kfp (sys_readlinkat (s32 a0) path a3)))
  else if nr =? SYS_chdir then Some (path ← upath_at a0; run (in_kfp (sys_chdir path)))
  else if nr =? SYS_getcwd then Some (fill_buf a0 (in_kfp (sys_getcwd a1)))
  else if nr =? SYS_ioctl then Some (call_ioctl (s32 a0) a1 a2)
  else if (nr =? SYS_mount) || (nr =? SYS_umount2) then Some (mret 0)
  else if nr =? SYS_poll then Some (poll_loop (Z.to_nat a1) a0 0)
  else None.

Definition mem_call (nr a0 a1 a2 a3 a4 a5 : Z) : option (C (kern A) Z) :=
  if nr =? SYS_brk then Some (run (sys_brk a0))
  else if nr =? SYS_mmap2 then Some (run (sys_mmap2 a0 a1 (s32 a2) (s32 a3) (s32 a4) a5))
  else if nr =? SYS_munmap then Some (run (sys_munmap a0 a1))
  else if nr =? SYS_mprotect then Some (run (sys_mprotect a0 a1 (s32 a2)))
  else if nr =? SYS_madvise then Some (mret 0)
  else None.

Definition any (nr : Z) (l : list Z) : bool := existsb (Z.eqb nr) l.

(** signals, time, identity and the rest; [p] is the caller *)
Definition misc_call (p : proc) (nr a0 a1 a2 a3 : Z) : C (kern A) Z :=
  if nr =? SYS_getpid then mret (pid p)
  else if nr =? SYS_rt_sigaction then sys_rt_sigaction (s32 a0) a1 a2 a3
  else if nr =? SYS_rt_sigprocmask then sys_rt_sigprocmask (s32 a0) a1 a2 a3
  else if nr =? SYS_rt_sigreturn then mret (- K_EINVAL_S)
  else if nr =? SYS_gettimeofday then sys_gettimeofday a0
  else if nr =? SYS_clock_gettime then sys_clock_gettime a1 false
  else if nr =? SYS_clock_gettime64 then sys_clock_gettime a1 true
  else if nr =? SYS_sysinfo then sys_sysinfo a0
  else if any nr [SYS_nanosleep; SYS_clock_nanosleep; SYS_clock_nanosleep_time64] then mret 0
  else if nr =? SYS_getppid then
    look (fun k => match parent p with Some i => pid (proc_at (ksch k) i) | None => 1 end)
  else if any nr [SYS_getuid; SYS_geteuid; SYS_getgid; SYS_getegid; SYS_getuid32; SYS_geteuid32; SYS_getgid32; SYS_getegid32] then mret 0
  else if any nr [SYS_setuid32; SYS_setgid32] then mret 0
  else if nr =? SYS_gettid then mret (pid p)
  else if nr =? SYS_setpgid then mret 0
  else if any nr [SYS_setsid; SYS_getpgid; SYS_getpgrp; SYS_getsid] then mret (pid p)
  else if nr =? SYS_prctl then mret 0
  else if nr =? SYS_ugetrlimit then
    (if a1 =? 0 then mret tt else ustore_words a1 [0xFFFFFFFF; 0xFFFFFFFF]) ≫= fun _ => mret 0
  else if nr =? SYS_setrlimit then mret 0
  else if nr =? SYS_sched_getaffinity then
    if negb (a2 =? 0) && (4 <=? a1) then ustore32 a2 1 ≫= fun _ => mret 4 else mret (- K_EINVAL_S)
  else if any nr [SYS_sched_yield; SYS_times] then mret 0
  else if nr =? SYS_restart_syscall then mret (- K_EINTR)
  else if nr =? SYS_uname then sys_uname a0
  else if nr =? SYS_set_tid_address then mret (pid p)
  else if nr =? ARM_NR_set_tls then run (modify (fun k => set_cpu (cpu_vfp k) a0 k)) ≫= fun _ => mret 0
  else mret (- K_ENOSYS).

(** the calls that return to their caller with a value *)
Definition plain_call (p : proc) (nr a0 a1 a2 a3 a4 a5 : Z) : C (kern A) Z :=
  match file_call nr a0 a1 a2 a3 a4 with
  | Some c => c
  | None => match mem_call nr a0 a1 a2 a3 a4 a5 with Some c => c | None => misc_call p nr a0 a1 a2 a3 end
  end.

(** ** The trap *)

(** [SYS_read]: whether the caller was put to sleep, or the result *)
Definition blocking_read (fd va n : Z) : C (kern A) (option Z) :=
  ch ← run (in_kfp (read_block_chan fd n));
  slept ← (match ch with Some ch => run (proc_sleep ch) | None => mret false end);
  if slept : bool then mret None else r ← call_read fd va n; mret (Some r).

(** [Some r]: the value for the caller's [r0]; [None]: the current process has
    its frame already, or ([inl]) nothing is left to run *)
Definition dispatch (p : proc) (nr a0 a1 a2 a3 a4 a5 : Z) : C (kern A) (unit + option Z) :=
  if nr =? SYS_fork then run proc_fork ≫= fun _ => mret (inr None)
  else if nr =? SYS_clone then run (proc_clone a0 a1) ≫= fun _ => mret (inr None)
  else if nr =? SYS_execve then proc_execve a0 a1 a2 ≫= fun _ => mret (inr None)
  else if nr =? SYS_wait4 then proc_wait a1 ≫= fun _ => mret (inr None)
  else if (nr =? SYS_exit) || (nr =? SYS_exit_group) then ok ← run (proc_exit (s32 a0)); mret (if ok : bool then inr None else inl tt)
  else if nr =? SYS_read then r ← blocking_read (s32 a0) a1 a2; mret (inr r)
  else r ← plain_call p nr a0 a1 a2 a3 a4 a5; mret (inr (Some r)).

(** the frame to resume; [None] when the machine has halted *)
Definition syscall_trap (t : trapframe) : C (kern A) (option trapframe) :=
  run (upd_cur (set_tf t)) ≫= fun _ =>
  p ← look cur_proc;
  let r i := reg_of (tf p) i in
  d ← dispatch p (r 7%nat) (r 0%nat) (r 1%nat) (r 2%nat) (r 3%nat) (r 4%nat) (r 5%nat);
  match d with
  | inl _ => mret None
  | inr o =>
      (match o with Some v => run (set_ret v) | None => mret tt end) ≫= fun _ =>
      t' ← look (fun k => tf (cur_proc k));
      mret (Some t')
  end.

(** [iar]: what [gic_ack] returned; the timer and the interrupt controller are
    not part of the state *)
Definition irq_dispatch (iar : Z) (t : trapframe) : M (kern A) trapframe :=
  let intid := iar .& 0x3FF in
  if intid =? GIC_SPURIOUS then mret t
  else if intid =? TIMER_INTID then
    modify (fun k => set_ticks (g_ticks k +w 1) k) ≫= fun _ => proc_preempt t
  else mret t.
End model.
