(* ===== verification/SyscallInv.v ===== *)
(** The process table under everything that can happen to a running system: a
    system call, a timer interrupt, a fault, and the instructions of the user
    program in between. *)

From stdpp Require Import gmap list fin_maps relations.
From Stdlib Require Import ZArith Lia.
From S2P Require Import Prelude Memory Checked Frames Pmm Kmalloc KernMem Vm Ramfs Proc File FsSyscall UserMem Elf Kern Mmap ProcOps ProcInv Calm ProcSteps Exec Syscall AddrSpace MmapCalls.

Section tame.
Context {A : Type} {FA : FrameAlloc A} {FN : FrameCount A}.

Lemma Tame_same {R} (m : M (kern A) R) : (forall k, ksch (m k).2 = ksch k) -> Tame ksch m.
Proof. intros H k. by rewrite H. Qed.

Lemma TameC_in_vmC {R} (c : C (vms A) R) : TameC ksch (in_vmC c).
Proof. intros k r k'. unfold in_vmC. destruct (c (kvm k)) as [[x v]| |]; [|done..]. by intros [= _ <-]. Qed.

Lemma Tame_layout bs b bc mt : Tame ksch (upd_cur (A := A) (set_layout bs b bc mt)).
Proof. by apply Tame_upd_cur. Qed.
Lemma Tame_l1 l : Tame ksch (upd_cur (A := A) (set_l1 l)).
Proof. by apply Tame_upd_cur. Qed.
Lemma Tame_tf t : Tame ksch (upd_cur (A := A) (set_tf t)).
Proof. by apply Tame_upd_cur. Qed.
Lemma Tame_in_kfs {R} (m : M (fs (kmem A)) R) : Tame ksch (in_kfs m).
Proof. apply Tame_calm. unfold in_kfs. calm. Qed.
End tame.

#[export] Hint Resolve TameC_in_vmC Tame_layout Tame_l1 Tame_tf Tame_in_kfs : calm.
#[export] Hint Extern 2 (Keeps tame _ (upd_cur _)) => apply Tame_upd_cur; intros ?; reflexivity : calm.

Section exec.
Context {A : Type} {FA : FrameAlloc A}.

Lemma TameC_load_elf i l b : TameC ksch (vfs_load_elf (A := A) i l b).
Proof. unfold vfs_load_elf. calm. Qed.

Lemma TameC_load_program l i : TameC ksch (load_program (A := A) l i).
Proof. pose proof TameC_load_elf. unfold load_program. calm. Qed.

Lemma Tame_commit l lr a e : Tame ksch (exec_commit (A := A) l lr a e).
Proof. unfold exec_commit. calm. Qed.

Lemma TameC_udup n va : TameC ksch (udup (A := A) n va).
Proof. revert va. induction n as [|n IH]; intros va; cbn [udup]; calm. Qed.

Lemma TameC_upath n va : TameC ksch (upath (A := A) n va).
Proof. revert va. induction n as [|n IH]; intros va; cbn [upath]; calm. Qed.

Lemma TameC_copy_vec n vec u : TameC ksch (copy_vec (A := A) n vec u).
Proof. pose proof TameC_udup. revert vec u. induction n as [|n IH]; intros vec u; cbn [copy_vec]; unfold bprm_dup_user; calm. Qed.

Lemma TameC_exec_loop n p u a e : TameC ksch (exec_loop (A := A) n p u a e).
Proof. pose proof TameC_load_program. pose proof Tame_commit. revert p u a. induction n as [|n IH]; intros p u a; cbn [exec_loop]; calm. Qed.

Lemma TameC_execve p a e : TameC ksch (proc_execve (A := A) p a e).
Proof. pose proof TameC_copy_vec. pose proof TameC_upath. pose proof TameC_exec_loop. unfold proc_execve, bprm_copy_vec. calm. Qed.
End exec.

Section calls.
Context {A : Type} {FA : FrameAlloc A} {FN : FrameCount A}.

Lemma Tame_brk a : Tame ksch (sys_brk (A := A) a).
Proof. unfold sys_brk. calm. Qed.

Lemma Tame_copy_loop n l i v len f d : Tame ksch (copy_loop (A := A) n l i v len f d).
Proof. revert d. induction n as [|n IH]; intros d; cbn [copy_loop]; calm. Qed.

Lemma Tame_copy_file l v len fd f : Tame ksch (copy_file_into (A := A) l v len fd f).
Proof. pose proof Tame_copy_loop. unfold copy_file_into, get_file. calm. Qed.

Lemma Tame_mmap2 a b c d e f : Tame ksch (sys_mmap2 (A := A) a b c d e f).
Proof. pose proof Tame_copy_file. unfold sys_mmap2. calm. Qed.

Lemma Tame_munmap a b : Tame ksch (sys_munmap (A := A) a b).
Proof. unfold sys_munmap. calm. Qed.

Lemma TameC_words va w : TameC ksch (ustore_words (A := A) va w).
Proof. apply TameC_ustore_bytes. Qed.

Lemma TameC_load_words n va : TameC ksch (uload_words (A := A) n va).
Proof. revert va. induction n as [|n IH]; intros va; cbn [uload_words]; calm. Qed.

Lemma TameC_str_block n va : TameC ksch (ustr_block (A := A) n va).
Proof. revert va. induction n as [|n IH]; intros va; cbn [ustr_block]; calm. Qed.

Lemma TameC_str_blocks n va : TameC ksch (ustr_blocks (A := A) n va).
Proof. pose proof TameC_str_block. revert va. induction n as [|n IH]; intros va; cbn [ustr_blocks]; calm. Qed.

Lemma TameC_upath_at va : TameC ksch (upath_at (A := A) va).
Proof. pose proof TameC_str_blocks. unfold upath_at. calm. Qed.

Lemma TameC_fill va (m : M (kern A) (Z * list Z)) : Tame ksch m -> TameC ksch (fill_buf va m).
Proof. intros H. unfold fill_buf. calm. Qed.
End calls.

#[export] Hint Resolve Tame_brk Tame_mmap2 Tame_munmap TameC_words TameC_load_words TameC_upath_at TameC_execve : calm.
#[export] Hint Extern 1 (KeepsC tame _ (fill_buf _ _)) => apply TameC_fill; calm : calm.

(** a chain of tests, one call behind each *)
Ltac branches E := repeat match type of E with (if ?b then _ else _) = _ => destruct b; [injection E as <-; solve [calm]|] end; discriminate E.

Section dispatch.
Context {A : Type} {FA : FrameAlloc A} {FN : FrameCount A}.

Lemma TameC_write fd va n : TameC ksch (call_write (A := A) fd va n).
Proof. unfold call_write, write_span. calm. Qed.

Lemma TameC_read fd va n : TameC ksch (call_read (A := A) fd va n).
Proof. unfold call_read. calm. Qed.

Lemma TameC_vec (io : Z -> Z -> C (kern A) Z) n iov t : (forall b l, TameC ksch (io b l)) -> TameC ksch (call_vec io n iov t).
Proof. intros H. revert iov t. induction n as [|n IH]; intros iov t; cbn [call_vec]; calm. Qed.

Lemma TameC_ioctl fd r a : TameC ksch (call_ioctl (A := A) fd r a).
Proof. unfold call_ioctl, new_termios. calm. Qed.

Lemma TameC_poll n pf r : TameC ksch (poll_loop (A := A) n pf r).
Proof. revert pf r. induction n as [|n IH]; intros pf r; cbn [poll_loop]; unfold poll_one; calm. Qed.

Lemma TameC_sigaction a b c d : TameC ksch (sys_rt_sigaction (A := A) a b c d).
Proof. unfold sys_rt_sigaction. calm. Qed.

Lemma TameC_sigprocmask a b c d : TameC ksch (sys_rt_sigprocmask (A := A) a b c d).
Proof. unfold sys_rt_sigprocmask. calm. Qed.

Lemma TameC_file_call nr a0 a1 a2 a3 a4 c : file_call (A := A) nr a0 a1 a2 a3 a4 = Some c -> TameC ksch c.
Proof.
  pose proof TameC_write. pose proof TameC_read. pose proof TameC_ioctl. pose proof TameC_poll.
  assert (forall fd n iov t, TameC ksch (call_vec (A := A) (call_write fd) n iov t)) by (intros; by apply TameC_vec).
  assert (forall fd n iov t, TameC ksch (call_vec (A := A) (call_read fd) n iov t)) by (intros; by apply TameC_vec).
  unfold file_call. intros E. branches E.
Qed.

Lemma TameC_mem_call nr a0 a1 a2 a3 a4 a5 c : mem_call (A := A) nr a0 a1 a2 a3 a4 a5 = Some c -> TameC ksch c.
Proof. unfold mem_call, sys_mprotect. intros E. branches E. Qed.

Lemma TameC_misc_call p nr a0 a1 a2 a3 : TameC ksch (misc_call (A := A) p nr a0 a1 a2 a3).
Proof.
  pose proof TameC_sigaction. pose proof TameC_sigprocmask.
  unfold misc_call, sys_gettimeofday, sys_clock_gettime, sys_sysinfo, sys_uname. calm.
Qed.

Lemma TameC_plain p nr a0 a1 a2 a3 a4 a5 : TameC ksch (plain_call (A := A) p nr a0 a1 a2 a3 a4 a5).
Proof.
  unfold plain_call. destruct (file_call _ _ _ _ _ _) eqn:E; [by eapply TameC_file_call|].
  destruct (mem_call _ _ _ _ _ _ _) eqn:E'; [by eapply TameC_mem_call|]. apply TameC_misc_call.
Qed.
End dispatch.

Section traps.
Context {A : Type} {FA : FrameAlloc A} {FN : FrameCount A}.
Implicit Types (k : kern A) (G : Prop).

Lemma block_chan_spec fd n (f : fp (kmem A)) : wp (read_block_chan fd n) f (fun r f' => f' = f /\ forall p, r <> Some (ChProc p)).
Proof.
  unfold read_block_chan. destruct (n =? 0); [by apply wp_ret|]. apply wp_bind. apply (wp_mono _ _ (fun _ f' => f' = f)).
  { unfold my_fd, me, fd_get. apply wp_bind, wp_gets. destruct (_ || _); [by apply wp_ret|by apply wp_gets]. }
  intros x f' ->. apply wp_gets. split; [done|]. intros p. repeat case_match; congruence.
Qed.

Lemma blocking_read_ok G fd va n k : procs_inv G (ksch k) -> may (blocking_read fd va n) k (fun _ k' => procs_inv G (ksch k')).
Proof.
  intros H. unfold blocking_read. apply may_bind, may_run. unfold in_kfp. apply wp_zoom.
  pose proof (block_chan_spec fd n (kfp k)) as W.
  eapply wp_mono; [exact W|]. cbv beta. intros ch f [-> Hch]. set (k1 := set_kfp (kfp k) k). assert (Hk1 : procs_inv G (ksch k1)) by done.
  apply may_bind. apply (may_mono _ _ (fun _ k2 => procs_inv G (ksch k2))).
  { destruct ch as [ch|]; [|by apply may_ret]. apply may_run, proc_sleep_ok; [done|]. intros p ->. by destruct (Hch p). }
  intros [] k2 Hk2; [by apply may_ret|]. apply may_bind. eapply may_mono; [apply (may_keeps tame ksch), TameC_read|]. intros r k3 HT. apply may_ret. exact (tame_ok _ _ _ HT Hk2).
Qed.

Lemma tame_may G {R} (c : C (kern A) R) k : TameC ksch c -> procs_inv G (ksch k) -> may c k (fun _ k' => procs_inv G (ksch k')).
Proof. intros Hc H. eapply may_mono; [by apply (may_keeps tame ksch)|]. intros r k1 HT. exact (tame_ok _ _ _ HT H). Qed.

(** the invariant holds again unless the machine has halted; a fork takes a number *)
Lemma dispatch_ok G p nr a0 a1 a2 a3 a4 a5 k : procs_inv G (ksch k) ->
  may (dispatch p nr a0 a1 a2 a3 a4 a5) k (fun r k' => r <> inl tt -> procs_inv (G /\ pids_left (ksch k)) (ksch k')).
Proof.
  intros H0. unfold dispatch. set (G' := G /\ pids_left (ksch k)).
  assert (H : procs_inv G' (ksch k)) by (apply (procs_inv_weaken G); [by intros []|done]).
  assert (T : forall (c : C (kern A) unit), may c k (fun _ k' => procs_inv G' (ksch k')) ->
    may (c ≫= fun _ => mret (inr None : unit + option Z)) k (fun r k' => r <> inl tt -> procs_inv G' (ksch k'))).
  { intros c Hc. apply may_bind. eapply may_mono; [exact Hc|]. intros r k' Hk'. by apply may_ret. }
  destruct (nr =? SYS_fork); [apply T, may_run; by apply do_fork_ok|].
  destruct (nr =? SYS_clone); [apply T, may_run|].
  { unfold proc_clone. destruct (negb _); [by apply set_ret_ok|by apply do_fork_ok]. }
  destruct (nr =? SYS_execve); [apply T; by apply tame_may; [apply TameC_execve|]|].
  destruct (nr =? SYS_wait4); [apply T; by apply proc_wait_ok|].
  destruct (_ || _).
  { apply may_bind, may_run. unfold proc_exit. eapply wp_mono; [by apply (reap_ok G')|]. intros [] k' Hk'; apply may_ret; [auto|done]. }
  destruct (nr =? SYS_read); apply may_bind.
  - eapply may_mono; [by apply (blocking_read_ok G')|]. intros r k' Hk'. by apply may_ret.
  - eapply may_mono; [apply (tame_may G'); [apply TameC_plain|done]|]. intros r k' Hk'. by apply may_ret.
Qed.

Lemma syscall_trap_ok G t k : procs_inv G (ksch k) -> may (syscall_trap t) k (fun r k' => r <> None -> procs_inv (G /\ pids_left (ksch k)) (ksch k')).
Proof.
  intros H. unfold syscall_trap. apply may_bind, may_run. eapply (wp_self (upd_cur (set_tf t))). intros [] k1 E1.
  pose proof (Tame_tf t k) as HT. rewrite E1 in HT. pose proof (tame_ok _ _ _ HT H) as H1. destruct (HT (proj1 H)) as (_ & _ & En & _). cbn [snd] in H1, En.
  apply may_bind, may_look, may_bind. eapply may_mono; [by apply (dispatch_ok G)|]. unfold pids_left. rewrite En. intros [[]|o] k2 Hk2; [by apply may_ret|].
  specialize (Hk2 ltac:(done)). apply may_bind. apply (may_mono _ _ (fun _ k3 => procs_inv (G /\ pids_left (ksch k)) (ksch k3))).
  { destruct o; [by apply may_run, set_ret_ok|by apply may_ret]. }
  intros [] k3 Hk3. apply may_bind, may_look, may_ret. done.
Qed.

Lemma irq_dispatch_ok G iar t k : procs_inv G (ksch k) -> procs_inv G (ksch (irq_dispatch iar t k).2).
Proof.
  intros H. unfold irq_dispatch. destruct (_ =? GIC_SPURIOUS); [done|]. destruct (_ =? TIMER_INTID); [|done]. by apply proc_preempt_ok.
Qed.

(** A way into the kernel that comes back: a system call, an interrupt, a
    fault; [t'] is the frame the kernel resumes. *)
Inductive ktrap : kern A -> trapframe -> kern A -> Prop :=
  | k_syscall k t t' k' : syscall_trap t k = Ok (Some t', k') -> ktrap k t' k'
  | k_irq k iar t t' k' : irq_dispatch iar t k = (t', k') -> ktrap k t' k'
  | k_fault k kind t t' k' : fault_trap kind t k = (Some t', k') -> ktrap k t' k'.

(** What happens to a running system: the user program computes (it cannot
    reach the process table), or it enters the kernel. *)
Inductive kstep : kern A -> kern A -> Prop :=
  | k_user k k' : ksch k' = ksch k -> kstep k k'
  | k_trap k t' k' : ktrap k t' k' -> kstep k k'.

Lemma ktrap_inv G k t' k' : ktrap k t' k' -> procs_inv G (ksch k) -> procs_inv (G /\ pids_left (ksch k)) (ksch k').
Proof.
  intros [k1 t t1 k2 E|k1 iar t t1 k2 E|k1 kind t t1 k2 E] H.
  - by apply (syscall_trap_ok G t k1 H _ _ E).
  - apply (procs_inv_weaken G); [by intros []|]. pose proof (irq_dispatch_ok G iar t k1 H) as H'. by rewrite E in H'.
  - apply (procs_inv_weaken G); [by intros []|]. pose proof (fault_trap_ok G k1 kind t t1 H) as H'. rewrite E in H'. by apply H'.
Qed.

Lemma kstep_inv G k k' : kstep k k' -> procs_inv G (ksch k) -> procs_inv (G /\ pids_left (ksch k)) (ksch k').
Proof. intros [k1 k2 E|k1 t' k2 E] H; [|by eapply ktrap_inv]. rewrite E. apply (procs_inv_weaken G); [by intros []|done]. Qed.

(** Without a thought for the numbers, the slots stay in order. *)
Lemma ktrap_slots k t' k' : ktrap k t' k' -> procs_inv False (ksch k) -> procs_inv False (ksch k').
Proof. intros Hs H. apply (procs_inv_weaken (False /\ pids_left (ksch k))); [tauto|]. by apply (ktrap_inv False k t'). Qed.

(** a step before which there is a number left for a new process *)
Definition kstep_left k k' : Prop := pids_left (ksch k) /\ kstep k k'.

(** C1. Whatever system calls processes make, and wherever interrupts and
    faults hit, exactly the current process is running, no slot is left half
    made and every sleeper waits for something.  As long as the next process
    number is below the largest [int] ([kstep_left]; the counter of [proc.c]
    wraps behind it and hands numbers out again), the table is sound as a
    whole: process numbers are distinct; init is there; every parent pointer
    names a process of the table that is alive or is init, never a reused
    slot; and no process sleeps on its children while one of them is dead (no
    wakeup is lost). *)
Theorem process_table_invariant k k' : procs_ok (ksch k) ->
  (rtc kstep k k' -> exists c, cur (ksch k') = Some c /\ slots_ok (view (ksch k')) c) /\
  (rtc kstep_left k k' -> procs_ok (ksch k')).
Proof.
  intros H. split; intros Hr.
  - assert (W : procs_inv False (ksch k')); [|destruct W as (_ & c & Hc & S & _); by exists c].
    apply (procs_ok_inv False) in H. induction Hr as [k|k k1 k' Hs _ IH]; [done|]. apply IH, (procs_inv_weaken (False /\ pids_left (ksch k))); [tauto|]. by apply kstep_inv.
  - induction Hr as [k|k k1 k' [L Hs] _ IH]; [done|]. apply IH, (procs_inv_ok (True /\ pids_left (ksch k))); [done|]. by apply kstep_inv, procs_ok_inv.
Qed.

(** The process made with the largest number is followed by one with the
    smallest, and from there the numbers in use come round again. *)
Lemma alloc_proc_number_wraps s i s' : table_ok s -> next_pid s = 2 ^ 31 - 1 -> alloc_proc s = (Some i, s') ->
  pid (proc_at s' i) = 2 ^ 31 - 1 /\ next_pid s' = - 2 ^ 31.
Proof.
  intros Ht Hn E. pose proof (alloc_proc_spec s Ht) as W. unfold wp in W. rewrite E in W. cbn [fst snd] in W.
  destruct W as [(? & _)|(j & [= <-] & Hj & _ & _ & -> & T)]; [done|]. rewrite (proj2 T) by done. rewrite at_slot_eq, Hn. done.
Qed.
End traps.

(** ** A witness *)

(** init alone, about to fork *)
Definition demo_init : proc := Proc 1 P_RUNNING demo_l1 None 0 0 tf0 0x11000 0x11000 MMAP_TOP MMAP_TOP (replicate 16 0) 0 None 0 (replicate NSIG ksig0) (replicate 33 0) 0.
Definition demo_start : kern pmm := set_ksch (Sched (demo_init :: replicate 7 proc0) (Some O) 2) demo_kern.
(** a user frame at a fork: number 2 in [r7] *)
Definition demo_fork_frame : trapframe := Tf 0x3FFFF000 0 (replicate 7 0 ++ [2] ++ replicate 5 0) 0x8000 0x10.

Lemma only_init_ok p s : s = Sched (p :: replicate 7 proc0) (Some O) 2 -> pid p = 1 -> state p = P_RUNNING -> parent p = None -> procs_ok s.
Proof.
  intros -> Hp Hs Hn. apply (sole_ok _ O); [done|unfold NPROC; lia|done|cbn; lia|done..|].
  unfold NPROC. intros i Hi Hne. do 8 (destruct i as [|i]; [done|]). lia.
Qed.

(** init forks, the timer hands the processor to the child, and back *)
Definition round (k : kern pmm) : option (trapframe * kern pmm * (trapframe * kern pmm) * (trapframe * kern pmm)) :=
  match syscall_trap demo_fork_frame k with
  | Ok (Some t0, k0) => let r1 := irq_dispatch TIMER_INTID t0 k0 in Some (t0, k0, r1, irq_dispatch TIMER_INTID r1.1 r1.2)
  | _ => None
  end.
Definition round_cur (k : kern pmm) : option (option nat * option nat * option nat * Z) :=
  '(_, k0, r1, r2) ← round k; Some (cur (ksch k0), cur (ksch r1.2), cur (ksch r2.2), next_pid (ksch k0)).

Lemma round_spec k a b c n : round_cur k = Some (a, b, c, n) -> exists t0 k0 t1 k1 t2 k2,
  syscall_trap demo_fork_frame k = Ok (Some t0, k0) /\ irq_dispatch TIMER_INTID t0 k0 = (t1, k1) /\ irq_dispatch TIMER_INTID t1 k1 = (t2, k2) /\
  cur (ksch k0) = a /\ cur (ksch k1) = b /\ cur (ksch k2) = c /\ next_pid (ksch k0) = n.
Proof.
  unfold round_cur, round. destruct (syscall_trap demo_fork_frame k) as [[[t0|] k0]| |]; [|done..]. cbn [mbind option_bind].
  destruct (irq_dispatch TIMER_INTID t0 k0) as [t1 k1] eqn:E1. cbn [fst snd]. destruct (irq_dispatch TIMER_INTID t1 k1) as [t2 k2] eqn:E2.
  intros [= <- <- <- <-]. by exists t0, k0, t1, k1, t2, k2.
Qed.

Lemma demo_round : round_cur demo_start = Some (Some 0%nat, Some 1%nat, Some 0%nat, 3).
Proof. vm_compute. reflexivity. Qed.

Lemma demo_start_ok : procs_ok (ksch demo_start).
Proof. apply (only_init_ok demo_init); reflexivity. Qed.

Lemma demo_start_left : pids_left (ksch demo_start).
Proof. reflexivity. Qed.

(** init forks and the timer ticks. *)
Lemma process_table_invariant_witness : exists t1 k1 t2 k2,
  syscall_trap demo_fork_frame demo_start = Ok (Some t1, k1) /\ irq_dispatch TIMER_INTID t1 k1 = (t2, k2) /\ procs_ok (ksch k2).
Proof.
  destruct (round_spec _ _ _ _ _ demo_round) as (t1 & k1 & t2 & k2 & _ & _ & E & E2 & _ & _ & _ & _ & N). exists t1, k1, t2, k2. split; [exact E|]. split; [exact E2|].
  apply (process_table_invariant demo_start k2 demo_start_ok).
  eapply rtc_l; [exact (conj demo_start_left (k_trap _ _ _ (k_syscall _ _ _ _ E)))|].
  eapply rtc_l; [split; [unfold pids_left; rewrite N; reflexivity|exact (k_trap _ _ _ (k_irq _ _ _ _ _ E2))]|]. apply rtc_refl.
Defined.
