(* ===== verification/ProcCtx.v ===== *)
(** What a process computes with survives while others run.

    [spares c]: a step of process [c] leaves the saved registers, the address
    space and the layout of every other live process alone, whatever the
    system call.  With the context switch that makes preemption transparent:
    a process that is interrupted comes back, any number of steps later, with
    the registers it had. *)

From stdpp Require Import gmap list fin_maps relations.
From Stdlib Require Import ZArith Lia.
From S2P Require Import Prelude Memory Checked Frames Pmm Kmalloc KernMem Vm Ramfs Proc File FsSyscall UserMem Elf Kern Mmap ProcOps ProcInv Calm ProcSteps Exec Syscall SyscallInv.

Definition alive (st : pstate) : Prop := st = P_RUNNABLE \/ st = P_RUNNING \/ st = P_BLOCKED.

(** what a process computes with; its parent may be exchanged for init *)
Definition saved (p : proc) : proc := set_parent_of None (ctx p).

(** All live processes but [c] keep what they compute with. *)
Definition spares (c : nat) (s s' : sched) : Prop :=
  table_ok s -> table_ok s' /\ forall i, (i < NPROC)%nat -> i <> c -> alive (state (proc_at s i)) ->
    saved (proc_at s' i) = saved (proc_at s i) /\ alive (state (proc_at s' i)).

#[export] Instance spares_preorder c : PreOrder (spares c).
Proof.
  split; [by intros s Ht|]. intros s t u H1 H2 Ht. destruct (H1 Ht) as [Ht' Q1], (H2 Ht') as [Ht'' Q2]. split; [done|].
  intros i Hi Hne Ha. destruct (Q1 i Hi Hne Ha) as [E1 A1], (Q2 i Hi Hne A1) as [E2 A2]. split; [congruence|done].
Qed.

Lemma saved_ctx p q : ctx q = ctx p -> saved q = saved p.
Proof. unfold saved. by intros ->. Qed.

Lemma woken_alive p q : woken (pv_of p) (pv_of q) -> alive (state p) -> alive (state q).
Proof. intros [E|[_ E]] Ha; apply (f_equal v_st) in E; cbn in E; unfold alive in *; rewrite E; auto. Qed.

Lemma calm_spares c s s' : calm s s' -> spares c s s'.
Proof.
  intros H Ht. destruct (H Ht) as (Ht' & _ & _ & Q). split; [done|]. intros i Hi _ Ha. destruct (Q i Hi) as [E W]. split; [by apply saved_ctx|by eapply woken_alive].
Qed.

Lemma tame_spares c s s' : cur s = Some c -> tame s s' -> spares c s s'.
Proof.
  intros Hc H Ht. destruct (H Ht) as (Ht' & _ & _ & Q). split; [done|]. intros i Hi Hne Ha. destruct (Q i Hi) as [W E].
  split; [apply saved_ctx, E; rewrite Hc; by intros <-|by eapply woken_alive].
Qed.

Lemma spares_put c i f s :
  i = c \/ (alive (state (proc_at s i)) -> saved (f (proc_at s i)) = saved (proc_at s i) /\ alive (state (f (proc_at s i)))) -> spares c s (put_slot i f s).
Proof.
  intros Hf Ht. split; [by apply table_ok_upd|]. intros j Hj Hne Ha. unfold put_slot.
  destruct (decide (i < NPROC)%nat) as [Hi|Hi].
  - rewrite proc_at_upd by done. destruct (decide (j = i)) as [->|]; [|done]. destruct Hf as [?|Hf]; [done|]. auto.
  - unfold proc_at at 1 3. cbn. rewrite list_lookup_alter_ne by lia. done.
Qed.

Lemma spares_tab c s s' g : tab s' g -> (forall i, (i < NPROC)%nat -> i <> c -> alive (state (proc_at s i)) -> saved (g i) = saved (proc_at s i) /\ alive (state (g i))) -> spares c s s'.
Proof. intros [Ht Hg] H _. split; [done|]. intros i Hi Hne Ha. rewrite Hg by done. auto. Qed.

(** The same, and [c] is still the current process. *)
Definition stays (c : nat) (s s' : sched) : Prop := cur s = Some c -> table_ok s -> cur s' = Some c /\ table_ok s' /\ spares c s s'.

#[export] Instance stays_preorder c : PreOrder (stays c).
Proof.
  split; [by intros s Hc Ht|]. intros s t u H1 H2 Hc Ht. destruct (H1 Hc Ht) as (C1 & T1 & S1), (H2 C1 T1) as (C2 & T2 & S2). do 2 (split; [done|]). by etrans.
Qed.

Lemma stays_spares c s s' : cur s' = cur s -> spares c s s' -> stays c s s'.
Proof. intros E H Hc Ht. split; [congruence|]. split; [apply (H Ht)|done]. Qed.

Lemma tame_stays c s s' : tame s s' -> stays c s s'.
Proof. intros H Hc Ht. pose proof (H Ht) as (Ht' & E & _). split; [congruence|]. split; [done|]. by apply tame_spares. Qed.

Lemma Keeps_reparent c i0 j : Keeps (stays c) id (reparent c i0 j).
Proof.
  unfold reparent. calm; intros s.
  - apply stays_spares; [done|]. apply spares_put. right. done.
  - apply tame_stays, calm_tame, calm_wakeup.
Qed.

Lemma ttbr0_snoc log o : ttbr0_of (log ++ [o]) = match o with SetTtbr0 v => v | _ => ttbr0_of log end.
Proof.
  assert (E : forall l, ttbr0_of (l ++ [o]) = match o with SetTtbr0 v => v | _ => ttbr0_of l end /\
    existsb (fun o => match o with SetTtbr0 _ => true | _ => false end) (l ++ [o]) =
    (match o with SetTtbr0 _ => true | _ => false end || existsb (fun o => match o with SetTtbr0 _ => true | _ => false end) l)%bool).
  { induction l as [|x l [IH1 IH2]]; [by destruct o|]. cbn [app ttbr0_of existsb]. rewrite IH1, IH2. destruct o; cbn; destruct x; done. }
  apply E.
Qed.

Lemma ttbr0_app log l1 : ttbr0_of (log ++ [SetTtbr0 l1; TlbiAll]) = l1.
Proof.
  induction log as [|o log IH]; [done|]. cbn [app ttbr0_of]. rewrite IH.
  replace (existsb _ _) with true; [done|]. symmetry. apply existsb_exists. exists (SetTtbr0 l1). split; [|done]. apply in_or_app. right. by left.
Qed.

Section hops.
Context {A : Type} {FA : FrameAlloc A}.
Implicit Types (k : kern A).

(** The processor holds the registers and the address space of the current process. *)
Definition loaded k : Prop := forall c, cur (ksch k) = Some c ->
  let p := proc_at (ksch k) c in cpu_vfp k = vfp p /\ cpu_tls k = tls p /\ ttbr0_of (khw k) = p_l1 p.

(** From [k] to [k'], [d] has done something and perhaps made way for another. *)
Definition hop (d : nat) k k' : Prop := spares d (ksch k) (ksch k') /\ (cur (ksch k') = Some d \/ loaded k').

Lemma vm_switch_ttbr0 l1 (v : vms A) : ttbr0_of (hwlog (vm_switch l1 v).2) = l1.
Proof. transitivity (ttbr0_of ((hwlog v ++ [SetTtbr0 l1]) ++ [TlbiAll])); [done|]. rewrite <- app_assoc. apply ttbr0_app. Qed.

Lemma wp_keeps {R} rel (m : M (kern A) R) k (Q : R -> kern A -> Prop) : Keeps rel ksch m -> (forall r k', rel (ksch k) (ksch k') -> Q r k') -> wp m k Q.
Proof. intros Hm HQ. apply wp_self. intros r k' E. apply HQ. specialize (Hm k). by rewrite E in Hm. Qed.

Lemma hop_same d k : cur (ksch k) = Some d -> hop d k k.
Proof. intros H. split; [done|by left]. Qed.

Lemma hop_stays d k k' : cur (ksch k) = Some d -> table_ok (ksch k) -> stays d (ksch k) (ksch k') -> hop d k k'.
Proof. intros Hc Ht H. destruct (H Hc Ht) as (? & _ & ?). split; [done|by left]. Qed.

Lemma hop_after d k k1 k2 : cur (ksch k) = Some d -> table_ok (ksch k) -> stays d (ksch k) (ksch k1) -> hop d k1 k2 -> hop d k k2.
Proof. intros Hc Ht H [S1 L1]. destruct (H Hc Ht) as (_ & _ & ?). split; [by etrans|done]. Qed.

Lemma switch_hop k c nx : cur (ksch k) = Some c -> table_ok (ksch k) -> (c < NPROC)%nat -> (nx < NPROC)%nat -> wp (switch_to nx) k (fun _ k' => hop c k k').
Proof.
  intros Hc Ht Hcn Hnx. eapply wp_mono; [apply (switch_to_spec k c nx _ Hc Hcn Hnx (tab_self _ Ht))|]. cbv beta zeta.
  intros _ k' ([Ht' T] & Hc' & _ & Ev & Et & Ek). split.
  - eapply spares_tab; [exact (conj Ht' T)|]. intros i Hi Hne Ha. unfold at_slot. destruct (decide (i = nx)) as [->|].
    + rewrite decide_False by done. split; [done|]. right. by left.
    + rewrite decide_False by done. done.
  - right. intros c' Hc2. assert (c' = nx) as -> by congruence. rewrite T by done. split; [done|]. split; [done|].
    change (khw k') with (hwlog (kvm k')). rewrite Ek, vm_switch_ttbr0, at_slot_eq. unfold at_slot. by destruct (decide (nx = c)).
Qed.

Lemma switched_hop k c f nx k' : switched k c f nx k' -> nx <> c -> (nx < NPROC)%nat -> hop c k k'.
Proof.
  intros ([Ht' T] & Hc' & _ & Ev & Et & Ek) Hne Hnx. split.
  - eapply spares_tab; [exact (conj Ht' T)|]. intros i Hi Hi' Ha. unfold at_slot. rewrite (decide_False _ _ Hi'). destruct (decide (i = nx)) as [->|]; [|done].
    split; [done|]. right. by left.
  - right. intros c' Hc2. assert (c' = nx) as -> by congruence. rewrite T, at_slot_eq, at_slot_ne by done. split; [done|]. split; [done|].
    change (khw k') with (hwlog (kvm k')). by rewrite Ek, vm_switch_ttbr0.
Qed.

Lemma proc_preempt_hop k c t : running k c -> wp (proc_preempt t) k (fun t' k' => hop c k k' /\ (cur (ksch k') = Some c \/ t' = tf (cur_proc k'))).
Proof.
  intros Hrun. pose proof Hrun as (_ & Hc & _). eapply wp_mono; [by apply proc_preempt_spec|]. cbv beta.
  intros t' k' [[-> ->]|(nx & _ & Hnx & Hne & _ & _ & Hs & ->)].
  - split; [by apply hop_same|by left].
  - split; [by eapply switched_hop|]. right. destruct Hs as ([_ T] & Hc' & _). unfold cur_proc. rewrite Hc'. change (default O (Some nx)) with nx. by rewrite T, at_slot_eq, at_slot_ne.
Qed.

Lemma proc_sleep_hop k c ch : running k c -> wp (proc_sleep ch) k (fun r k' => hop c k k' /\ (r = false -> k' = k)).
Proof.
  intros Hrun. eapply wp_mono; [by apply proc_sleep_spec|]. cbv beta. intros r k' [[-> ->]|(nx & -> & _ & Hnx & Hne & _ & Hs)].
  - split; [apply hop_same, Hrun|done].
  - split; [by eapply switched_hop|done].
Qed.

Lemma forked_hop k k' c sp o : cur (ksch k) = Some c -> forked k c sp o (ksch k') -> hop c k k'.
Proof.
  intros Hc (Ht' & Hc' & H). split; [|by left]. intros Ht. split; [done|]. intros i Hi Hne Ha.
  assert (Hu : state (proc_at (ksch k) i) <> P_UNUSED) by (destruct Ha as [ -> | [ -> | -> ] ]; done).
  destruct H as [(e & _ & _ & _ & H)|(j & l1 & _ & _ & Hj & _ & _ & _ & _ & _ & _ & H)].
  - destruct (H i Hi) as [->|[? _]]; [|done]. by rewrite at_slot_ne.
  - destruct (H i Hi) as [E W]; [congruence|]. rewrite at_slot_ne in E, W by done. split; [by apply saved_ctx|by eapply woken_alive].
Qed.

Lemma do_fork_hop k c sp : procs_inv False (ksch k) -> cur (ksch k) = Some c -> hop c k (do_fork sp k).2.
Proof.
  intros H Hc. destruct (running_ok _ k H) as (c' & Hrun & I). assert (c' = c) as -> by (destruct Hrun as (_ & E & _); congruence).
  destruct (do_fork_spec k c sp Hrun) as (o & F & _); [apply (iv_cur _ _ _ _ I)|]. exact (forked_hop k _ c sp o Hc F).
Qed.

Lemma vm_destroy_log l1 : Keeps eq hwlog (vm_destroy (A := A) l1).
Proof. unfold vm_destroy, destroy_l2, get, put, in_phys. calm; apply Keeps_frame; (apply _ || done). Qed.

Lemma reap_hop k c code sig : running k c -> wp (reap_current_and_switch code sig) k (fun r k' => r = true -> hop c k k').
Proof.
  intros (Ht & Hc & Hcn). assert (U : forall f, Keeps (stays c) ksch (upd_slot (A := A) c f)).
  { intros f k1. apply stays_spares; [done|]. apply spares_put. by left. }
  assert (W : forall ch, Keeps (stays c) ksch (in_ksch (A := A) (proc_wakeup ch))) by (intros ch k1; apply tame_stays, calm_tame, calm_wakeup).
  unfold reap_current_and_switch, proc_current, slot. apply wp_bind, wp_gets. rewrite Hc. change (default O (Some c)) with c.
  apply wp_bind, (wp_keeps (stays c)); [apply U|]. intros _ k1 S1. apply wp_bind, (wp_keeps (stays c)); [apply U|]. intros _ k2 S2.
  apply wp_bind, (wp_keeps tame); [calm|]. intros _ k3 S3%(tame_stays c). apply wp_bind, wp_gets. set (dead := p_l1 _). clearbody dead.
  apply wp_bind, (wp_keeps (stays c)); [apply U|]. intros _ k4 S4. apply wp_bind, wp_gets. generalize (init_slot (ksch k4)) as o. intros o.
  apply wp_bind, (wp_keeps (stays c)).
  { calm. apply (Keeps_zoom _ _ id); [done..|]. calm. apply Keeps_reparent. }
  intros _ k5 S5. apply wp_bind, wp_gets, wp_bind, (wp_keeps (stays c)); [calm; apply W|]. intros _ k6 S6.
  assert (S : stays c (ksch k) (ksch k6)) by (repeat (etrans; [eassumption|]); done). destruct (S Hc Ht) as (Hc6 & Ht6 & _).
  apply wp_bind, wp_gets. destruct (pick_next (ksch k6)) as [nx|] eqn:Hp; [|by apply wp_ret].
  apply wp_bind. eapply wp_mono; [by apply switch_hop, (pick_other _ _ _ Hc6 Hcn Hp)|]. cbv beta. intros _ k7 H7. apply wp_bind, wp_vm_any.
  intros [] v Ev. apply wp_ret. intros _. apply (hop_after c k k6); [done..|]. destruct H7 as [S7 L7]. split; [exact S7|]. destruct L7 as [?|L7]; [by left|right].
  intros c' Hc'. destruct (L7 c' Hc') as (E1 & E2 & E3). split; [done|]. split; [done|]. pose proof (vm_destroy_log dead (kvm k7)) as El. rewrite Ev in El. change (hwlog (kvm k7)) with (khw k7) in El. cbn [snd] in El.
  change (ttbr0_of (hwlog v) = p_l1 (proc_at (ksch k7) c')). by rewrite <- El.
Qed.
End hops.

Section traps.
Context {A : Type} {FA : FrameAlloc A} {FN : FrameCount A}.
Implicit Types (k : kern A).

(** what a system call leaves: the rest of the trap only sets a result for a process that stayed *)
Definition answered (d : nat) k (r : unit + option Z) k' : Prop :=
  hop d k k' /\ forall v, r = inr (Some v) -> cur (ksch k') = Some d /\ table_ok (ksch k').

Lemma tame_answered {R} (c : C (kern A) R) d k : TameC ksch c -> cur (ksch k) = Some d -> table_ok (ksch k) ->
  may c k (fun _ k' => hop d k k' /\ cur (ksch k') = Some d /\ table_ok (ksch k')).
Proof.
  intros H Hc Ht. eapply may_mono; [by apply (may_keeps tame ksch)|]. intros r k' HT%(tame_stays d). split; [by apply hop_stays|].
  destruct (HT Hc Ht) as (? & ? & _). done.
Qed.

Lemma proc_wait_hop u k d : running k d -> may (proc_wait u) k (fun _ k' => hop d k k').
Proof.
  intros Hrun. pose proof Hrun as (Ht & Hc & Hcn). unfold proc_wait, proc_current, slot.
  assert (SR : forall v k1, cur (ksch k1) = Some d -> table_ok (ksch k1) -> wp (set_ret v) k1 (fun _ k' => hop d k1 k')).
  { intros v k1 Hc1 Ht1. apply (wp_keeps tame); [calm|]. intros _ k2 HT%(tame_stays d). by apply hop_stays. }
  apply may_bind, may_run, wp_gets. rewrite Hc. change (default O (Some d)) with d. apply may_bind, may_look. destruct (find_from _ _ _) as [z|] eqn:E.
  - apply find_from_Some in E as (Hz & Hb & _). set (i := Z.to_nat z) in *. assert (Hi : (i < NPROC)%nat) by lia.
    apply andb_true_iff in Hb as [Hzb _]. apply has_state_true in Hzb. apply may_bind, may_run, wp_gets, may_bind.
    apply (may_mono _ _ (fun _ k1 => tame (ksch k) (ksch k1))). { apply may_keeps. calm. }
    intros [] k1 HT. destruct (HT Ht) as (Ht1 & Ec1 & _ & Q). destruct (Q i Hi) as [W _].
    assert (Hz1 : state (proc_at (ksch k1) i) = P_ZOMBIE). { destruct W as [W|[W _]]; [rewrite <- Hzb; exact (f_equal v_st W)|]. cbn in W. congruence. }
    apply may_bind, may_run, wp_upd_slot, may_run. eapply wp_mono; [apply SR; [cbn; congruence|by apply table_ok_upd]|]. cbv beta. intros _ k2 H2.
    apply (hop_after d k k1); [done..|by apply tame_stays|]. eapply hop_after; [congruence|done| |exact H2]. apply stays_spares; [done|].
    apply spares_put. right. rewrite Hz1. by intros [ | [ | ] ].
  - apply may_bind, may_look, may_bind. apply (may_mono _ _ (fun r k1 => hop d k k1 /\ (r = false -> k1 = k))).
    { destruct (find_from (fun i => child_of _ _) _ _); [by apply may_run, proc_sleep_hop|]. apply may_ret. split; [by apply hop_same|done]. }
    intros [] k1 [H1 Hk1]; [by apply may_ret|]. rewrite (Hk1 eq_refl). by apply may_run, SR.
Qed.

Lemma blocking_read_hop fd va n k d : running k d -> may (blocking_read fd va n) k (fun r k' => answered d k (inr r) k').
Proof.
  intros Hrun. pose proof Hrun as (Ht & Hc & Hcn). unfold blocking_read. apply may_bind, may_run. unfold in_kfp. apply wp_zoom.
  eapply wp_mono; [exact (block_chan_spec fd n (kfp k))|]. cbv beta. intros ch f [-> _]. set (k1 := set_kfp (kfp k) k).
  assert (running k1 d) as Hrun1 by done. assert (ksch k1 = ksch k) as Ek by done. clearbody k1. apply may_bind.
  apply (may_mono _ _ (fun r k2 => hop d k1 k2 /\ (r = false -> k2 = k1))).
  { destruct ch as [ch|]; [by apply may_run, proc_sleep_hop|]. apply may_ret. split; [apply hop_same, Hrun1|done]. }
  assert (H1 : forall k2, hop d k1 k2 -> hop d k k2) by (intros k2; unfold hop; by rewrite Ek).
  intros [] k2 [H2 Hk2]; [apply may_ret; split; [by apply H1|done]|]. rewrite (Hk2 eq_refl) in *. apply may_bind.
  eapply may_mono; [apply (tame_answered _ d k1 (TameC_read fd va n)); apply Hrun1|]. cbv beta. intros r k3 (H3 & H4). apply may_ret. split; [by apply H1|done].
Qed.

Lemma dispatch_hop p nr a0 a1 a2 a3 a4 a5 k d : procs_inv False (ksch k) -> cur (ksch k) = Some d ->
  may (dispatch p nr a0 a1 a2 a3 a4 a5) k (fun r k' => r <> inl tt -> answered d k r k').
Proof.
  intros H Hc. assert (running k d) as Hrun. { destruct (running_ok _ k H) as (c' & Hrun & _). assert (c' = d) as -> by (destruct Hrun as (_ & E & _); congruence). done. }
  pose proof Hrun as (Ht & _ & Hcn). unfold dispatch.
  assert (T : forall (c : C (kern A) unit), may c k (fun _ k' => hop d k k') ->
    may (c ≫= fun _ => mret (inr None : unit + option Z)) k (fun r k' => r <> inl tt -> answered d k r k')).
  { intros c Hcc. apply may_bind. eapply may_mono; [exact Hcc|]. intros r k' Hk'. apply may_ret. by split. }
  destruct (nr =? SYS_fork); [apply T, may_run; by apply do_fork_hop|].
  destruct (nr =? SYS_clone); [apply T, may_run|].
  { unfold proc_clone. destruct (negb _); [|by apply do_fork_hop]. apply (wp_keeps tame); [calm|]. intros _ k2 HT%(tame_stays d). by apply hop_stays. }
  destruct (nr =? SYS_execve); [apply T; eapply may_mono; [apply (tame_answered _ d k (TameC_execve a0 a1 a2)); done|]; naive_solver|].
  destruct (nr =? SYS_wait4); [apply T; by apply proc_wait_hop|].
  destruct (_ || _).
  { apply may_bind, may_run. unfold proc_exit. eapply wp_mono; [by apply reap_hop|]. intros [] k' Hk'; apply may_ret; [|done]. intros _. split; [auto|done]. }
  destruct (nr =? SYS_read); apply may_bind.
  - eapply may_mono; [by apply blocking_read_hop|]. intros r k' Hk'. by apply may_ret.
  - eapply may_mono; [apply (tame_answered _ d k (TameC_plain p nr a0 a1 a2 a3 a4 a5)); done|]. cbv beta. intros r k' [H1 H2]. apply may_ret. by split.
Qed.

(** What comes back from the kernel: [d] itself, or another process with its own registers. *)
Definition resumed (d : nat) k (t' : trapframe) k' : Prop := hop d k k' /\ (cur (ksch k') = Some d \/ t' = tf (cur_proc k')).

Lemma syscall_resumed t k d : procs_inv False (ksch k) -> cur (ksch k) = Some d -> may (syscall_trap t) k (fun r k' => forall t', r = Some t' -> resumed d k t' k').
Proof.
  intros H Hc. unfold syscall_trap. apply may_bind, may_run, (wp_keeps tame); [apply Tame_tf|]. intros [] k1 HT.
  pose proof (tame_ok _ _ _ HT H) as H1. destruct (tame_stays d _ _ HT Hc (proj1 H)) as (Hc1 & Ht1 & _).
  assert (HA : forall k2, hop d k1 k2 -> hop d k k2) by (intros k2; apply hop_after; [done|apply H|by apply tame_stays]).
  apply may_bind, may_look, may_bind. eapply may_mono; [by apply dispatch_hop|]. intros [[]|o] k2 Hk2; [by apply may_ret|].
  destruct (Hk2 ltac:(done)) as [Hh Ha]. apply may_bind. apply (may_mono _ _ (fun _ k3 => hop d k1 k3)).
  { destruct o as [v|]; [|by apply may_ret]. destruct (Ha v eq_refl) as [Hc2 Ht2]. apply may_run, (wp_keeps tame); [calm|]. intros [] k3 HT3.
    destruct (tame_stays d _ _ HT3 Hc2 Ht2) as (Hc3 & _ & Hs3). split; [etrans; [apply Hh|done]|by left]. }
  intros [] k3 H3. apply may_bind, may_look, may_ret. intros t' [= <-]. split; [by apply HA|by right].
Qed.

Lemma irq_resumed iar t k d : running k d -> wp (irq_dispatch iar t) k (fun t' k' => resumed d k t' k').
Proof.
  intros Hrun. pose proof Hrun as (Ht & Hc & _). unfold irq_dispatch.
  destruct (_ =? GIC_SPURIOUS); [apply wp_ret; split; [by apply hop_same|by left]|]. destruct (_ =? TIMER_INTID); [|apply wp_ret; split; [by apply hop_same|by left]].
  apply wp_bind, wp_modify. eapply wp_mono; [by apply (proc_preempt_hop _ d)|]. done.
Qed.

Lemma fault_resumed kind t k d : running k d -> wp (fault_trap kind t) k (fun r k' => forall t', r = Some t' -> resumed d k t' k').
Proof.
  intros Hrun. pose proof Hrun as (Ht & Hc & Hcn). unfold fault_trap, cur_slot. apply wp_bind, wp_gets. rewrite Hc. apply wp_bind, wp_upd_slot.
  destruct (negb _); [by apply wp_ret|]. apply wp_bind. set (k1 := set_ksch _ k). assert (S1 : stays d (ksch k) (ksch k1)).
  { apply stays_spares; [done|]. apply spares_put. by left. }
  assert (running k1 d) as Hrun1 by (destruct (S1 Hc Ht) as (? & ? & _); done). eapply wp_mono; [by apply (reap_hop k1 d)|].
  cbv beta. intros [] k2 H2; [|by apply wp_ret]. apply wp_bind, wp_gets, wp_ret. intros t' [= <-]. split; [|by right]. by apply (hop_after d k k1); [..|apply H2].
Qed.

Lemma trap_resumed k t' k' d : procs_inv False (ksch k) -> cur (ksch k) = Some d -> ktrap k t' k' -> resumed d k t' k'.
Proof.
  intros H Hc. assert (running k d) as Hrun. { destruct (running_ok _ k H) as (c' & Hrun & _). assert (c' = d) as -> by (destruct Hrun as (_ & E & _); congruence). done. }
  intros Htr. destruct Htr as [k1 t t1 k2 E|k1 iar t t1 k2 E|k1 kind t t1 k2 E].
  - by apply (syscall_resumed t k1 d H Hc _ _ E).
  - pose proof (irq_resumed iar t k1 d Hrun) as R. unfold wp in R. by rewrite E in R.
  - pose proof (fault_resumed kind t k1 d Hrun) as R. unfold wp in R. rewrite E in R. by apply R.
Qed.

(** a step of the system at whose end [c] does not run *)
Definition away (c : nat) k k' : Prop := kstep k k' /\ cur (ksch k') <> Some c.

(** [c] is out, with [p] saved *)
Definition parked (c : nat) (p : proc) k : Prop :=
  procs_inv False (ksch k) /\ (c < NPROC)%nat /\ cur (ksch k) <> Some c /\ saved (proc_at (ksch k) c) = saved p /\ alive (state (proc_at (ksch k) c)).

Lemma parked_trap c p k t' k' : parked c p k -> ktrap k t' k' -> procs_inv False (ksch k') /\ saved (proc_at (ksch k') c) = saved p /\ alive (state (proc_at (ksch k') c)) /\
  (cur (ksch k') = Some c -> loaded k' /\ t' = tf (cur_proc k')).
Proof.
  intros (H & Hcn & Hc & Hs & Ha) Htr. destruct H as (Ht & d & Hd & I). pose proof (conj Ht (ex_intro _ d (conj Hd I)) : procs_inv False (ksch k)) as H.
  destruct (trap_resumed k t' k' d H Hd Htr) as [[S L] R]. assert (c <> d) by congruence. destruct (S Ht) as [_ Q]. destruct (Q c) as [E1 E2]; [done..|].
  split; [by eapply ktrap_slots|]. split; [congruence|]. split; [done|]. intros Hc'. destruct L as [?|L]; [congruence|]. destruct R as [?|R]; [congruence|done].
Qed.

Lemma parked_steps c p k k' : rtc (away c) k k' -> parked c p k -> parked c p k'.
Proof.
  induction 1 as [k|k k1 k' [Hs Hc] _ IH]; [done|]. intros Hp. apply IH. destruct Hs as [k k1 E|k t' k1 Htr].
  - unfold parked. by rewrite E.
  - destruct (parked_trap c p k t' k1 Hp Htr) as (H1 & H2 & H3 & _). destruct Hp as (_ & Hcn & _). done.
Qed.

(** C2. Preemption is transparent: a process the timer interrupt takes off
    the processor comes back, whatever the others have done in between (any
    number of system calls, forks, exits, interrupts and faults), in the very
    frame it was interrupted in, with the floating-point registers and the
    thread pointer the processor held for it, in its own address space and
    with its heap bounds and signal mask unchanged. *)
Theorem preemption_transparent k0 k1 k2 k3 c iar t t1 t' :
  procs_ok (ksch k0) -> cur (ksch k0) = Some c ->
  irq_dispatch iar t k0 = (t1, k1) -> cur (ksch k1) <> Some c ->
  rtc (away c) k1 k2 -> ktrap k2 t' k3 -> cur (ksch k3) = Some c ->
  let p := proc_at (ksch k0) c in let q := proc_at (ksch k3) c in
  t' = t /\ cpu_vfp k3 = cpu_vfp k0 /\ cpu_tls k3 = cpu_tls k0 /\ ttbr0_of (khw k3) = p_l1 p /\
  pid q = pid p /\ p_l1 q = p_l1 p /\ brk q = brk p /\ mmap_top q = mmap_top p /\ sig_blocked q = sig_blocked p /\ sigact q = sigact p.
Proof.
  intros H%(procs_ok_inv False) Hc E Hout Haway Htr Hback p q. destruct (running_ok _ k0 H) as (c' & Hrun & I). assert (c' = c) as -> by (destruct Hrun as (_ & ? & _); congruence).
  pose proof (irq_dispatch_ok _ iar t k0 H) as H1. rewrite E in H1. pose proof Hrun as (_ & _ & Hcn).
  assert (P1 : parked c (set_fpu (cpu_vfp k0) (cpu_tls k0) (set_tf t p)) k1).
  { split; [exact H1|]. split; [done|]. split; [done|]. revert E. unfold irq_dispatch. destruct (_ =? GIC_SPURIOUS); [by intros [= _ <-]|].
    destruct (_ =? TIMER_INTID); [|by intros [= _ <-]]. intros E. set (k0' := set_ticks (g_ticks k0 +w 1) k0) in *.
    pose proof (proc_preempt_spec k0' c t Hrun) as W. unfold wp in W. change (proc_preempt t k0' = (t1, k1)) in E. rewrite E in W. cbn [fst snd] in W.
    destruct W as [[_ ->]|(nx & _ & _ & Hne & _ & _ & (([_ T] & _) & _))]; [done|]. rewrite T, at_slot_ne, at_slot_eq by done. split; [done|by left]. }
  destruct (parked_trap c _ k2 t' k3 (parked_steps _ _ _ _ Haway P1) Htr) as (_ & E3 & _ & L). destruct (L Hback) as [L3 ->].
  destruct (L3 c Hback) as (V1 & V2 & V3). rewrite V1, V2, V3. fold q. rewrite running_proc with (c := c) by (split; [apply (ktrap_slots _ _ _ Htr), (parked_steps _ _ _ _ Haway P1)|done]).
  fold q in E3 |- *. destruct q, p. injection E3 as. subst. done.
Qed.
End traps.

(** ** A witness *)

Lemma preemption_transparent_witness : exists t0 k0 t1 k1 t2 k2,
  syscall_trap demo_fork_frame demo_start = Ok (Some t0, k0) /\ irq_dispatch TIMER_INTID t0 k0 = (t1, k1) /\ irq_dispatch TIMER_INTID t1 k1 = (t2, k2) /\
  t2 = t0 /\ cpu_vfp k2 = cpu_vfp k0.
Proof.
  destruct (round_spec _ _ _ _ _ demo_round) as (t0 & k0 & t1 & k1 & t2 & k2 & E0 & E1 & E2 & C0 & C1 & C2 & _).
  exists t0, k0, t1, k1, t2, k2. split; [exact E0|]. split; [exact E1|]. split; [exact E2|].
  assert (H0 : procs_ok (ksch k0)) by exact (procs_inv_ok _ _ (conj Logic.I demo_start_left) (ktrap_inv True _ _ _ (k_syscall _ _ _ _ E0) (procs_ok_inv _ _ demo_start_ok))).
  destruct (preemption_transparent k0 k1 k1 k2 0 TIMER_INTID t0 t1 t2 H0 C0 E1) as (R1 & R2 & _).
  - rewrite C1. discriminate.
  - apply rtc_refl.
  - exact (k_irq _ _ _ _ _ E2).
  - exact C2.
  - split; [exact R1|exact R2].
Defined.
