(* ===== verification/ExecCommit.v ===== *)
(** The point of no return of [execve].

    [exec_commit] of [proc.c] either replaces the image of the current process
    by the new one, with a fresh stack that holds the arguments, or gives the
    new one up and leaves the process as it was. *)

From stdpp Require Import gmap list fin_maps.
From Stdlib Require Import ZArith Lia.
From S2P Require Import Prelude Memory Checked Frames Pmm Kmalloc KernMem Vm AddrSpace Ramfs Proc File FsSyscall UserMem Elf ElfLoad Kern Mmap MmapCalls ProcOps ProcInv Calm ProcSteps Exec ExecStack ProcCtx.

(** * The table in use

    Only [vm_switch] writes TTBR0. *)

Section ttbr0.
Context {A : Type} {FA : FrameAlloc A}.
Local Abbreviation Stays := (Keeps eq (fun v : vms A => ttbr0_of (hwlog v))).

Lemma Stays_phys {R} (m : M (phys A) R) : Stays (in_phys m).
Proof. by apply Keeps_frame; [apply _|]. Qed.
Lemma Stays_tlbi va : Stays (hw (TlbiMva va)).
Proof. intros v. cbn. by rewrite ttbr0_snoc. Qed.
Lemma Stays_clean x : Stays (mmu_clean_dcache_line x).
Proof. by intros v. Qed.
End ttbr0.

#[export] Hint Resolve Stays_phys Stays_tlbi Stays_clean : calm.

Section ttbr0_ops.
Context {A : Type} {FA : FrameAlloc A}.
Local Abbreviation Stays := (Keeps eq (fun v : vms A => ttbr0_of (hwlog v))).

Lemma Stays_l2_for l1 va c : Stays (l2_for l1 va c).
Proof. unfold l2_for, clean_table, get, put. calm. Qed.
Lemma Stays_map l1 va pa : Stays (vm_map_page l1 va pa).
Proof. pose proof Stays_l2_for. unfold vm_map_page, put. calm. Qed.
Lemma Stays_walk l1 va : Stays (vm_walk l1 va).
Proof. pose proof Stays_l2_for. unfold vm_walk, get. calm. Qed.
Lemma Stays_unmap l1 va : Stays (vm_unmap_page l1 va).
Proof. pose proof Stays_l2_for. unfold vm_unmap_page, get, put. calm. Qed.
Lemma Stays_stack l1 : Stays (map_user_stack l1).
Proof. pose proof Stays_map. pose proof Stays_walk. pose proof Stays_unmap. unfold map_user_stack, map_fresh, drop_page. calm. Qed.
Lemma Stays_push pa lo l sp vas : Stays (push_strings pa lo l sp vas).
Proof. revert sp vas. induction l as [|x l IH]; intros sp vas; cbn [push_strings]; unfold store_bytes; calm. Qed.
Lemma Stays_setup l1 top argv envp lr : Stays (setup_user_stack l1 top argv envp lr).
Proof. pose proof Stays_walk. pose proof Stays_push. unfold setup_user_stack, store_bytes. calm. Qed.
End ttbr0_ops.

(** * Two address spaces *)

Section spaces.
Context {A : Type} {FA : FrameAlloc A} {FS : FrameAllocSpec A}.
Context (K : Z -> Z) (HK : forall i, (K i) mod 4 <> 1).
Implicit Types (s t u : vms A) (a b : aspace).

(** the registers do not matter *)
Lemma as_ok_log s l1 a log : as_ok K s l1 a -> as_ok K (Vms (vphys s) (wm s) log (l1_pa s)) l1 a.
Proof. intros Ha. apply (as_ok_frame K (fun _ => False) s); [done|apply Ha|apply Ha|done|done|by intros x _ []]. Qed.

(** One address space torn down beside another. *)
Lemma destroy_other s l1 a l1' b : as_ok K s l1 a -> as_ok K s l1' b -> disjoint_as l1 a l1' b ->
  wp (vm_destroy l1) s (fun _ s' => as_ok K s' l1' b /\ (forall x, ubyte s' b x = ubyte s b x) /\ (forall f, owned s' f <-> owned s f /\ ~ in_as l1 a f) /\ hwlog s' = hwlog s).
Proof.
  intros Ha Hb Hd. apply wp_self. intros [] s' E. pose proof (vm_destroy_spec K HK s l1 a Ha) as W. pose proof (vm_destroy_log l1 s) as L. rewrite E in L. unfold wp in W. rewrite E in W.
  destruct W as [(Hok & Hown & Hwm & _) Hm]. cbn [snd] in *.
  assert (Ho : forall f, owned s' f <-> owned s f /\ ~ in_as l1 a f) by (intros f; rewrite Hown; unfold in_as; naive_solver).
  destruct (untouched_by_change K s s' l1 a l1' b HK Ha Hb Hd Hok) as (Hb' & _ & Hdata).
  - intros q f Hf. apply Ho. split; [by apply (as_own _ _ _ _ Hb q)|]. intros (r & Hr). by apply (Hd r q f).
  - eapply mem_frame_mono; [exact Hm|]. intros x Hx. left. by left.
  - by rewrite Hwm.
  - split; [done|]. split; [|done]. intros x. apply ubyte_same; [done|]. intros f Hf y Hy. by apply (Hdata (vpn x) f).
Qed.

Lemma ubyte_other s l1 a s' a' l1' b : as_ok K s l1 a -> evolves K s l1 a s' a' -> as_ok K s l1' b -> disjoint_as l1 a l1' b ->
  as_ok K s' l1' b /\ disjoint_as l1 a' l1' b /\ forall x, ubyte s' b x = ubyte s b x.
Proof.
  intros Ha He Hb Hd. destruct (evolves_other K s l1 a s' a' l1' b Ha He Hb Hd) as (H1 & H2 & H3). split; [done|]. split; [done|].
  intros x. apply ubyte_same; [done|]. intros f Hf y Hy. by apply (H3 (RPage (vpn x)) f).
Qed.

Lemma owned_after s l1 a s' a' f : step K s l1 a s' a' (ubyte s' a') -> (owned s' f <-> (owned s f /\ ~ in_as l1 a f) \/ in_as l1 a' f).
Proof.
  intros [E T _]. split; [apply T|]. intros [[H1 H2]|(r & Hr)]; [by apply (ev_keep _ _ _ _ _ _ E)|]. by apply (as_own _ _ _ _ (ev_ok _ _ _ _ _ _ E) r).
Qed.

Lemma disjoint_sym l1 a l1' b : disjoint_as l1 a l1' b -> disjoint_as l1' b l1 a.
Proof. intros H r r' f Hf Hf'. by apply (H r' r f). Qed.
End spaces.

(** * The commit *)

Section commit.
Context {A : Type} {FA : FrameAlloc A} {FS : FrameAllocSpec A}.
Context (K : Z -> Z) (HK : forall i, (K i) mod 4 <> 1).
Implicit Types (k : kern A) (v : vms A) (a b : aspace).

(** the process in slot [c], whose image is [b], as it was but for the error [e] *)
Record kept k c b (new : Z) a (e : Z) k' : Prop := {
  kp_table : cur (ksch k') = Some c;
  kp_proc : proc_at (ksch k') c = ret e (proc_at (ksch k) c);
  kp_ttbr0 : ttbr0_of (khw k') = ttbr0_of (khw k);
  kp_ok : as_ok K (kvm k') (p_l1 (proc_at (ksch k) c)) b;
  kp_see : forall x, ubyte (kvm k') b x = ubyte (kvm k) b x;
  kp_own : forall f, owned (kvm k') f <-> owned (kvm k) f /\ ~ in_as new a f;
}.

(** the process runs the new image: what was loaded, and a stack with its arguments *)
Record replaced k c b (new : Z) a (lr : load_result) (argv envp : list cstr) k' (sp : Z) a' : Prop := {
  rp_table : cur (ksch k') = Some c;
  rp_proc : proc_at (ksch k') c = set_tf (entry_frame sp (lr_pc lr)) (set_layout (lr_brk_end lr) (lr_brk_end lr) (brk_ceiling_of lr) MMAP_TOP (set_l1 new (proc_at (ksch k) c)));
  rp_ttbr0 : ttbr0_of (khw k') = new;
  rp_ok : as_ok K (kvm k') new a';
  rp_image : forall x, 0 <= x -> ~ STACK_LOW <= x < USER_VA_MAX -> ubyte (kvm k') a' x = ubyte (kvm k) a x;
  rp_zero : forall x, STACK_LOW <= x < STACK_PAGE -> ubyte (kvm k') a' x = Some 0;
  rp_stack : stack_ok STACK_PAGE (ubyte (kvm k') a') sp argv envp lr;
  rp_own : forall f, owned (kvm k') f <-> (owned (kvm k) f /\ ~ in_as new a f /\ ~ in_as (p_l1 (proc_at (ksch k) c)) b f) \/ in_as new a' f;
}.

Lemma exec_fails k k1 c new a a1 b e : running k c -> let p := proc_at (ksch k) c in as_ok K (kvm k) new a -> as_ok K (kvm k) (p_l1 p) b -> disjoint_as new a (p_l1 p) b ->
  k1 = set_kvm (kvm k1) k -> step K (kvm k) new a (kvm k1) a1 (ubyte (kvm k1) a1) -> ttbr0_of (khw k1) = ttbr0_of (khw k) ->
  wp (in_vm (vm_destroy new) ≫= fun _ => set_ret e) k1 (fun _ k' => kept k c b new a e k').
Proof.
  intros Hrun p Ha Hb Hd Ek Hs Ht. pose proof Hrun as (Htab & Hc & Hcn).
  destruct (ubyte_other K _ _ _ _ a1 _ _ Ha (st_ev _ _ _ _ _ _ _ Hs) Hb Hd) as (Hb1 & Hd1 & Hu1).
  apply wp_bind, wp_in_vm. eapply wp_mono; [apply (destroy_other K HK _ new a1 (p_l1 p) b); [apply Hs|exact Hb1|exact Hd1]|]. cbv beta.
  intros _ v (Hb2 & Hu2 & Ho2 & Hl2). assert (Esch : ksch k1 = ksch k) by (rewrite Ek; apply ksch_set_kvm).
  apply (wp_set_ret e _ c); [by rewrite ksch_set_kvm, Esch|]. rewrite ksch_set_kvm.
  destruct (tab_put _ _ c (ret e) (tab_self _ Htab) Hcn) as [T1 T2]. split.
  - change (cur (ksch k1) = Some c). by rewrite Esch.
  - change (proc_at (put_slot c (ret e) (ksch k1)) c = ret e p). rewrite Esch, T2, at_slot_eq by done. done.
  - change (ttbr0_of (hwlog v) = ttbr0_of (khw k)). rewrite Hl2. exact Ht.
  - rewrite kvm_set_ksch, kvm_set. done.
  - intros x. rewrite kvm_set_ksch, kvm_set, Hu2. apply Hu1.
  - intros f. rewrite kvm_set_ksch, kvm_set, Ho2, (owned_after K _ _ _ _ _ f Hs). destruct (in_as_dec new a1 f); [|tauto].
    split; [tauto|]. intros [H1 H2]. destruct (ev_new _ _ _ _ _ _ (st_ev _ _ _ _ _ _ _ Hs) f); done.
Qed.
Lemma wp_upd_current f k c (Q : unit -> kern A -> Prop) : cur (ksch k) = Some c -> Q tt (set_ksch (put_slot c f (ksch k)) k) -> wp (upd_cur f) k Q.
Proof. intros Hc HQ. unfold upd_cur, proc_current. apply wp_bind, wp_gets. rewrite Hc. exact HQ. Qed.

Lemma exec_replaces k k1 c new a a1 b lr argv envp sp : running k c -> let p := proc_at (ksch k) c in
  as_ok K (kvm k) new a -> as_ok K (kvm k) (p_l1 p) b -> disjoint_as new a (p_l1 p) b ->
  k1 = set_kvm (kvm k1) k -> step K (kvm k) new a (kvm k1) a1 (ubyte (kvm k1) a1) ->
  (forall x, 0 <= x -> ~ STACK_LOW <= x < USER_VA_MAX -> ubyte (kvm k1) a1 x = ubyte (kvm k) a x) ->
  (forall x, STACK_LOW <= x < STACK_PAGE -> ubyte (kvm k1) a1 x = Some 0) ->
  stack_ok STACK_PAGE (ubyte (kvm k1) a1) sp argv envp lr ->
  wp (p ← gets cur_proc;
      let old_l1 := p_l1 p in
      upd_cur (set_l1 new) ≫= fun _ =>
      in_vm (vm_switch new) ≫= fun _ =>
      in_vm sync_icache ≫= fun _ =>
      in_vm (vm_destroy old_l1) ≫= fun _ =>
      upd_cur (set_layout (lr_brk_end lr) (lr_brk_end lr) (brk_ceiling_of lr) MMAP_TOP) ≫= fun _ =>
      upd_cur (set_tf (entry_frame sp (lr_pc lr)))) k1 (fun _ k' => replaced k c b new a lr argv envp k' sp a1).
Proof.
  intros Hrun p Ha Hb Hd Ek Hs Him Hz Hst. pose proof Hrun as (Htab & Hc & Hcn). assert (Esch : ksch k1 = ksch k) by (rewrite Ek; apply ksch_set_kvm).
  assert (Hc1 : cur (ksch k1) = Some c) by by rewrite Esch.
  destruct (ubyte_other K _ _ _ _ a1 _ _ Ha (st_ev _ _ _ _ _ _ _ Hs) Hb Hd) as (Hb1 & Hd1 & Hu1).
  apply wp_bind, wp_gets. cbv zeta. replace (cur_proc k1) with p by (unfold cur_proc; by rewrite Hc1, Esch).
  apply wp_bind, (wp_upd_current _ _ c); [done|]. set (k2 := set_ksch _ k1). assert (Ev2 : kvm k2 = kvm k1) by apply kvm_set_ksch.
  assert (T2 : tab (ksch k2) (at_slot c (set_l1 new) (proc_at (ksch k)))) by (rewrite <- Esch; apply tab_put; [apply tab_self; by rewrite Esch|done]).
  assert (Hc2 : cur (ksch k2) = Some c) by done. clearbody k2.
  assert (W : forall log, ttbr0_of log = new -> let v := Vms (vphys (kvm k1)) (wm (kvm k1)) log (l1_pa (kvm k1)) in
    wp (in_vm (vm_destroy (p_l1 p)) ≫= fun _ => upd_cur (set_layout (lr_brk_end lr) (lr_brk_end lr) (brk_ceiling_of lr) MMAP_TOP) ≫= fun _ => upd_cur (set_tf (entry_frame sp (lr_pc lr))))
      (set_kvm v k2) (fun _ k' => replaced k c b new a lr argv envp k' sp a1)).
  { intros log Hlog v. apply wp_bind, wp_in_vm. rewrite kvm_set.
    eapply wp_mono; [apply (destroy_other K HK v (p_l1 p) b new a1); [by apply as_ok_log|apply as_ok_log; apply Hs|by apply disjoint_sym]|]. cbv beta.
    intros _ w (Ha3 & Hu3 & Ho3 & Hl3). rewrite set_kvm_twice. apply wp_bind, (wp_upd_current _ _ c); [done|]. apply (wp_upd_current _ _ c); [done|].
    pose proof (tab_more _ _ c (set_tf (entry_frame sp (lr_pc lr))) _ (tab_more _ _ c (set_layout (lr_brk_end lr) (lr_brk_end lr) (brk_ceiling_of lr) MMAP_TOP) _ T2 Hcn) Hcn) as [_ T3].
    assert (Eu : forall x, ubyte w a1 x = ubyte (kvm k1) a1 x) by exact Hu3. split.
    - exact Hc2.
    - exact (eq_trans (T3 c Hcn) (at_slot_eq _ _ _)).
    - change (ttbr0_of (hwlog w) = new). by rewrite Hl3.
    - rewrite !kvm_set_ksch, kvm_set. done.
    - intros x H1 H2. rewrite !kvm_set_ksch, kvm_set, Eu. by apply Him.
    - intros x Hx. rewrite !kvm_set_ksch, kvm_set, Eu. by apply Hz.
    - rewrite !kvm_set_ksch, kvm_set. exact (stack_ok_ext STACK_PAGE _ _ _ _ _ _ Eu Hst).
    - intros f. rewrite !kvm_set_ksch, kvm_set, Ho3. change (owned v f) with (owned (kvm k1) f). rewrite (owned_after K _ _ _ _ _ f Hs). fold p.
      assert (in_as new a1 f -> ~ in_as (p_l1 p) b f) by (intros (q & Hq) (r & Hr); by apply (Hd1 q r f)). tauto. }
  apply wp_bind, wp_in_vm, wp_self. intros [] v1 E1. apply wp_bind, wp_in_vm, wp_self. intros [] v2 E2. rewrite kvm_set in E2. injection E1 as <-. injection E2 as <-.
  rewrite set_kvm_twice. rewrite <- Ev2 in W. apply (W (((khw k2 ++ [SetTtbr0 new]) ++ [TlbiAll]) ++ [SyncIcache])). by rewrite !ttbr0_snoc.
Qed.
Lemma exec_commit_spec k c new a b lr argv envp : running k c -> let p := proc_at (ksch k) c in
  as_ok K (kvm k) new a -> as_ok K (kvm k) (p_l1 p) b -> disjoint_as new a (p_l1 p) b ->
  (forall x, STACK_LOW <= x < USER_VA_MAX -> ubyte (kvm k) a x = None) ->
  Forall str_ok argv -> Forall str_ok envp -> lr_ok lr ->
  wp (exec_commit new lr argv envp) k (fun _ k' =>
    kept k c b new a (-12) k' \/ (kept k c b new a (-7) k' /\ too_big argv envp lr) \/ exists sp a', replaced k c b new a lr argv envp k' sp a').
Proof.
  intros Hrun p Ha Hb Hd Hfree Hav Hev Hlr. unfold exec_commit. apply wp_bind, wp_in_vm, wp_self. intros r v1 E1.
  pose proof (wp_eq _ _ _ _ _ E1 (map_user_stack_spec K HK _ _ _ Ha Hfree)) as W1. pose proof (Stays_stack new (kvm k)) as L1. rewrite E1 in L1. cbn [snd] in L1. cbv beta in W1.
  destruct W1 as (a1 & [[-> S1]|[-> S1]]); cbn [negb Z.eqb].
  2:{ eapply wp_mono; [apply (exec_fails k _ c new a a1 b); [done..|by rewrite kvm_set| |exact (eq_sym L1)]|by left]. rewrite kvm_set. eapply step_see; [exact S1|]. intros x Hx. symmetry. by apply S1. }
  assert (S1' : step K (kvm k) new a v1 a1 (ubyte v1 a1)) by (eapply step_see; [exact S1|]; intros x Hx; symmetry; by apply S1).
  apply wp_bind, wp_in_vm, wp_self. intros sp v2 E2. rewrite kvm_set in E2.
  pose proof (wp_eq _ _ _ _ _ E2 (setup_user_stack_spec K HK v1 new a1 argv envp lr (ev_ok _ _ _ _ _ _ (st_ev _ _ _ _ _ _ _ S1)) (stack_mapped _ STACK_LOW _ _ _ _ _ _ ltac:(done) S1) Hav Hev Hlr)) as W2.
  pose proof (Stays_setup new USER_VA_MAX argv envp lr v1) as L2. rewrite E2 in L2. cbn [snd] in L2. destruct W2 as [[S2 F2] W2].
  assert (S12 : step K (kvm k) new a v2 a1 (ubyte v2 a1)) by (eapply step_trans; [exact S1'|exact S2]).
  rewrite set_kvm_twice. destruct (Z.eqb_spec sp 0) as [->|Hsp].
  - rewrite decide_True in W2 by done. eapply wp_mono; [apply (exec_fails k _ c new a a1 b); [done..|by rewrite kvm_set|by rewrite kvm_set|]|by right; left].
    change (ttbr0_of (hwlog v2) = ttbr0_of (hwlog (kvm k))). congruence.
  - rewrite decide_False in W2 by done. eapply wp_mono; [apply (exec_replaces k _ c new a a1 b lr argv envp sp); [done..|by rewrite kvm_set|by rewrite kvm_set| | |by rewrite kvm_set]|by right; right; exists sp, a1].
    + intros x Hx Hn. rewrite kvm_set, F2, (st_see _ _ _ _ _ _ _ S1) by (done || (unfold STACK_LOW, STACK_PAGE, USTACK_PAGES, USER_VA_MAX, PAGE_SIZE in *; lia)).
      unfold zeros. by rewrite decide_False.
    + intros x Hx. rewrite kvm_set, F2, (st_see _ _ _ _ _ _ _ S1) by (unfold STACK_LOW, STACK_PAGE, USTACK_PAGES, USER_VA_MAX, PAGE_SIZE in *; lia).
      unfold zeros. rewrite decide_True; [done|]. unfold STACK_LOW, STACK_PAGE, USTACK_PAGES, USER_VA_MAX, PAGE_SIZE in *; lia.
Qed.
(** C3. [execve] is atomic at its end, for an image that maps nothing where the
    stack goes ([STACK_LOW] to [USER_VA_MAX]; the loader would accept a segment
    there, and the stack would then take the place of its pages).  Either the process is as it was (its
    image, its registers but for the error, the table in use), and exactly the
    frames of the abandoned image are free again, with -E2BIG only for
    arguments that do not fit into one page; or it runs the new image: what was
    loaded is unchanged, below the arguments lies a zeroed stack of 32 pages,
    its registers start at the entry point with a stack that reads back as the
    arguments, and exactly the frames of the old image are free again. *)
Theorem exec_commit_atomic k c new a b lr argv envp r k' : running k c ->
  as_ok K (kvm k) new a -> as_ok K (kvm k) (p_l1 (proc_at (ksch k) c)) b -> disjoint_as new a (p_l1 (proc_at (ksch k) c)) b ->
  (forall x, STACK_LOW <= x < USER_VA_MAX -> ubyte (kvm k) a x = None) ->
  Forall str_ok argv -> Forall str_ok envp -> lr_ok lr ->
  exec_commit new lr argv envp k = (r, k') ->
  kept k c b new a (-12) k' \/ (kept k c b new a (-7) k' /\ too_big argv envp lr) \/ exists sp a', replaced k c b new a lr argv envp k' sp a'.
Proof. intros Hrun Ha Hb Hd Hf Hav Hev Hlr E. exact (wp_eq _ _ _ _ _ E (exec_commit_spec k c new a b lr argv envp Hrun Ha Hb Hd Hf Hav Hev Hlr)). Qed.
End commit.

(** ** A witness: a process of the demo machine starts [sh] *)

Definition demo_two : kern pmm := kern_over demo_vm2.

Lemma demo_two_kvm : kvm demo_two = demo_vm2.
Proof. exact (kern_over_kvm demo_vm2). Qed.

Lemma demo_two_running : running demo_two O.
Proof. split; [reflexivity|]. split; [reflexivity|]. unfold NPROC. lia. Qed.

Definition succeeded (k : kern pmm) : bool := ttbr0_of (khw k) =? demo_l1'.

Lemma demo_commits : succeeded (exec_commit demo_l1' demo_lr [demo_sh] [] demo_two).2 = true /\ succeeded demo_two = false.
Proof. vm_compute. done. Qed.

Lemma commits_spec (k : kern pmm) : succeeded (exec_commit demo_l1' demo_lr [demo_sh] [] k).2 = true /\ succeeded k = false ->
  exists k', exec_commit demo_l1' demo_lr [demo_sh] [] k = (tt, k') /\ ttbr0_of (khw k') <> ttbr0_of (khw k).
Proof.
  destruct (exec_commit demo_l1' demo_lr [demo_sh] [] k) as [[] k'] eqn:E. intros [S1 S2]. exists k'. split; [done|]. intros N. unfold succeeded in *. cbn [snd] in S1. congruence.
Qed.

Lemma exec_commit_atomic_witness : exists k' sp a' rnd, exec_commit demo_l1' demo_lr [demo_sh] [] demo_two = (tt, k') /\
  start_args (ubyte (kvm k') a') sp = Some (Args 1 [demo_sh] [] (aux_pairs demo_lr rnd)) /\ ttbr0_of (khw k') = demo_l1'.
Proof.
  destruct demo_as2 as (H1 & H2 & H3). destruct (commits_spec demo_two demo_commits) as (k' & E & N). exists k'.
  destruct (exec_commit_atomic kmap kmap_not_coarse demo_two O demo_l1' (AS ∅ ∅) (AS ∅ ∅) demo_lr [demo_sh] [] tt k' demo_two_running) as [X|[[X _]|(sp & a' & X)]].
  - rewrite demo_two_kvm. exact H2.
  - rewrite demo_two_kvm. exact H1.
  - exact H3.
  - intros x _. unfold ubyte. cbn [pages]. rewrite lookup_empty. reflexivity.
  - exact demo_sh_ok.
  - constructor.
  - exact demo_lr_ok.
  - exact E.
  - destruct (N (kp_ttbr0 _ _ _ _ _ _ _ _ X)).
  - destruct (N (kp_ttbr0 _ _ _ _ _ _ _ _ X)).
  - destruct (rp_stack _ _ _ _ _ _ _ _ _ _ _ _ X) as (_ & _ & rnd & Hr & _). exists sp, a', rnd. split; [exact E|]. split; [exact Hr|]. exact (rp_ttbr0 _ _ _ _ _ _ _ _ _ _ _ _ X).
Defined.
