(* ===== verification/ForkMem.v ===== *)
(** What a fork does to memory: [do_fork] of [proc.c] with the address spaces
    of both processes. *)

From stdpp Require Import gmap list fin_maps.
From Stdlib Require Import ZArith Lia.
From S2P Require Import Prelude Memory Checked Frames Pmm Kmalloc KernMem Vm AddrSpace Ramfs Proc File FsSyscall UserMem Elf Kern Mmap MmapCalls ProcOps ProcInv Calm ProcSteps Exec ExecStack Syscall SyscallInv ProcCtx ExecCommit.

Section memory.
Context {A : Type} {FA : FrameAlloc A} {FS : FrameAllocSpec A}.
Context (K : Z -> Z) (HK : forall i, (K i) mod 4 <> 1).
Implicit Types (v : vms A) (a b : aspace).

(** A new table changes no byte of the others. *)
Lemma created_see v l1 v1 l1p a : kern_ok K v -> created K v l1 v1 -> as_ok K v l1p a ->
  as_ok K v1 l1p a /\ disjoint_as l1 (AS ∅ ∅) l1p a /\ forall x, ubyte v1 a x = ubyte v a x.
Proof.
  intros Hk Hcr Ha. destruct (created_keeps K v l1 v1 Hcr Hk) as [_ H]. destruct (H l1p a Ha) as [Ha1 Hd]. split; [done|]. split; [done|].
  destruct Hcr as (_ & Hl & _ & _ & Hpm & _). intros x. apply ubyte_same; [done|]. intros f Hf y Hy. apply Hpm. intros Hy'.
  apply (other_untouched K v1 l1 (AS ∅ ∅) l1p a (RPage (vpn x)) f y Hl Ha1 Hd Hf Hy). left. by left.
Qed.

(** The copy, byte for byte. *)
Lemma vm_copy_see v dst src a : as_ok K v dst (AS ∅ ∅) -> as_ok K v src a -> disjoint_as dst (AS ∅ ∅) src a ->
  wp (vm_copy dst src) v (fun r v' => exists b, as_ok K v' dst b /\ as_ok K v' src a /\ disjoint_as dst b src a /\ (forall x, ubyte v' a x = ubyte v a x) /\
    (r = 0 -> (forall x, ubyte v' b x = ubyte v a x) /\ forall f, owned v' f -> owned v f \/ in_as dst b f)).
Proof.
  intros Hd Hs Hdis. apply wp_self. intros r v' E. destruct (vm_copy_both K v dst (AS ∅ ∅) src a r v' HK Hd Hs Hdis E) as (b & H1 & H2 & H3 & H4 & H5).
  exists b. split; [done|]. split; [done|]. split; [done|]. split.
  - intros x. apply ubyte_same; [done|]. intros f Hf y Hy. by apply (H4 (vpn x) f).
  - intros Hr. destruct (H5 Hr) as (P1 & P2 & P3). split; [|done]. intros x. unfold ubyte. destruct (pages a !! vpn x) as [f|] eqn:Hf.
    + destruct (P1 _ _ Hf) as (g & -> & _ & Hdata). cbn. f_equal. apply Hdata. unfold PAGE_SIZE. apply Z.mod_pos_bound. lia.
    + rewrite P2 by done. cbn [pages]. by rewrite lookup_empty.
Qed.

Lemma fork_vm_spec v l1p a : kern_ok K v -> as_ok K v l1p a ->
  wp (fork_vm l1p) v (fun o v' => as_ok K v' l1p a /\ (forall x, ubyte v' a x = ubyte v a x) /\
    forall l1, o = Some l1 -> exists b, as_ok K v' l1 b /\ disjoint_as l1 b l1p a /\ (forall x, ubyte v' b x = ubyte v a x) /\
      forall f, owned v' f -> owned v f \/ in_as l1 b f).
Proof.
  intros Hk Ha. unfold fork_vm. apply wp_bind. eapply wp_mono; [by apply (vm_create_spec K v Hk)|]. cbv beta. intros l1 v1 [[-> ->]|Hcr].
  { rewrite Z.eqb_refl. by apply wp_ret. }
  destruct (created_see v l1 v1 l1p a Hk Hcr Ha) as (Ha1 & Hd1 & Hu1). destruct Hcr as (Hpos & Hl & Hown & _). rewrite (proj2 (Z.eqb_neq _ _)) by lia.
  apply wp_bind. eapply wp_mono; [by apply (vm_copy_see v1 l1 l1p a)|]. cbv beta. intros rc v2 (b & Hb2 & Ha2 & Hd2 & Hu2 & Hok).
  destruct (Z.eqb_spec rc 0) as [Hrc|Hrc]; cbn [negb]; apply wp_bind.
  - destruct (Hok Hrc) as [Hc Ho]. unfold sync_icache, hw. apply wp_modify, wp_ret. split; [by apply as_ok_log|]. split; [intros x; etrans; [exact (Hu2 x)|apply Hu1]|].
    intros l [= <-]. exists b. split; [by apply as_ok_log|]. split; [done|]. split; [intros x; etrans; [exact (Hc x)|apply Hu1]|].
    intros f Hf. destruct (Ho f Hf) as [Hf'|?]; [|by right]. apply Hown in Hf' as [?|(j & Hj & ->)]; [by left|]. right. exists (RL1 j). cbn. by rewrite decide_True.
  - eapply wp_mono; [by apply (destroy_other K HK v2 l1 b l1p a)|]. cbv beta. intros [] v3 (Ha3 & Hu3 & _). apply wp_ret. split; [done|]. split; [|done].
    intros x. by rewrite Hu3, Hu2, Hu1.
Qed.
End memory.

Section fork.
Context {A : Type} {FA : FrameAlloc A} {FS : FrameAllocSpec A}.
Context (K : Z -> Z) (HK : forall i, (K i) mod 4 <> 1).
Implicit Types (k : kern A) (a b : aspace).

(** the parts [ctx] keeps *)
Definition core (p : proc) := (pid p, p_l1 p, parent p, tf p, (brk_start p, brk p, brk_ceiling p, mmap_top p), (sig_blocked p, sigact p), (vfp p, tls p)).

Lemma ctx_core p q : ctx p = ctx q -> core p = core q.
Proof. intros E. change (core (ctx p) = core (ctx q)). by rewrite E. Qed.

Lemma child_core k c sp l1 q : let p := proc_at (ksch k) c in core (child k c sp l1 q) =
  (next_pid (ksch k), l1, Some c, (if negb (sp =? 0) then set_sp sp (set_reg 0 0 (tf p)) else set_reg 0 0 (tf p)),
   (brk_start p, brk p, brk_ceiling p, mmap_top p), (sig_blocked p, sigact p), (cpu_vfp k, cpu_tls k)).
Proof. by destruct q. Qed.

(** process [q] is a child of [p], in slot [c], as the fork at [k] makes it *)
Record child_of_fork k (c : nat) (sp : Z) (p q : proc) : Prop := {
  cf_state : state q = P_RUNNABLE;
  cf_pid : pid q = next_pid (ksch k);
  cf_parent : parent q = Some c;
  cf_tf : tf q = (if negb (sp =? 0) then set_sp sp (set_reg 0 0 (tf p)) else set_reg 0 0 (tf p));
  cf_fpu : vfp q = cpu_vfp k /\ tls q = cpu_tls k;
  cf_cwd : cwd q = cwd p;
  cf_layout : brk_start q = brk_start p /\ brk q = brk p /\ brk_ceiling q = brk_ceiling p /\ mmap_top q = mmap_top p;
  cf_sigs : sig_blocked q = sig_blocked p /\ sigact q = sigact p;
}.

(** C4. [fork] gives the child a copy of everything the parent computes with:
    its registers (but for the result 0, and the stack pointer a [clone] asks
    for), floating-point state and thread pointer, heap and mapping bounds,
    signal state, working directory, and in frames of its own every byte of its
    memory at the same address.  The parent's memory is untouched and its result
    is the child's number.  When there is no slot or no memory, the parent gets
    the error, keeps its memory, and no process appears. *)
Theorem fork_copies_process k c a sp r k' :
  running k c -> state (proc_at (ksch k) c) = P_RUNNING -> kern_ok K (kvm k) -> as_ok K (kvm k) (p_l1 (proc_at (ksch k) c)) a ->
  do_fork sp k = (r, k') ->
  let p := proc_at (ksch k) c in
  cur (ksch k') = Some c /\ as_ok K (kvm k') (p_l1 p) a /\ (forall x, ubyte (kvm k') a x = ubyte (kvm k) a x) /\
  ((exists e, (e = -11 \/ e = -12) /\ proc_at (ksch k') c = ret e p /\
      forall j, (j < NPROC)%nat -> state (proc_at (ksch k) j) = P_UNUSED -> state (proc_at (ksch k') j) = P_UNUSED) \/
   (exists i b, let q := proc_at (ksch k') i in
      (i < NPROC)%nat /\ state (proc_at (ksch k) i) = P_UNUSED /\ child_of_fork k c sp p q /\
      tf (proc_at (ksch k') c) = set_reg 0 (u32 (pid q)) (tf p) /\ p_l1 (proc_at (ksch k') c) = p_l1 p /\
      as_ok K (kvm k') (p_l1 q) b /\ disjoint_as (p_l1 q) b (p_l1 p) a /\
      (forall x, ubyte (kvm k') b x = ubyte (kvm k) a x) /\
      (forall f, owned (kvm k') f -> owned (kvm k) f \/ in_as (p_l1 q) b f))).
Proof.
  intros Hrun Hst Hk Ha E p. pose proof Hrun as (_ & Hc & Hcn).
  destruct (wp_eq _ _ _ _ _ E (do_fork_spec k c sp Hrun Hst)) as (o & (Ht' & Hc' & F) & M).
  assert (Mem : as_ok K (kvm k') (p_l1 p) a /\ (forall x, ubyte (kvm k') a x = ubyte (kvm k) a x) /\
    forall l1, o = Some l1 -> exists b, as_ok K (kvm k') l1 b /\ disjoint_as l1 b (p_l1 p) a /\ (forall x, ubyte (kvm k') b x = ubyte (kvm k) a x) /\
      forall f, owned (kvm k') f -> owned (kvm k) f \/ in_as l1 b f).
  { destruct M as [[-> ->]|M]; [done|]. exact (wp_eq _ _ _ _ _ M (fork_vm_spec K HK _ _ _ Hk Ha)). }
  destruct Mem as (M1 & M2 & M3). split; [done|]. split; [done|]. split; [done|].
  destruct F as [(e & _ & He & _ & F)|(i & l1 & -> & Hi & Hu & _ & _ & Hctx & Hst' & _ & Hcwd & F)]; [left|right].
  - exists e. split; [done|]. split.
    + destruct (F c Hcn) as [->|[Hu _]]; [by rewrite at_slot_eq|congruence].
    + intros j Hj Hu. destruct (F j Hj) as [->|[_ ?]]; [|done]. rewrite at_slot_ne; [done|]. congruence.
  - destruct (M3 l1 eq_refl) as (b & B1 & B2 & B3 & B4). exists i, b. cbv zeta. split; [done|]. split; [done|].
    destruct (F c Hcn) as [Fc _]; [congruence|]. rewrite at_slot_eq in Fc. set (q := proc_at (ksch k') i) in *. set (p' := proc_at (ksch k') c) in *.
    apply ctx_core in Hctx, Fc. rewrite child_core in Hctx. unfold core in Hctx, Fc. injection Hctx as P1 P2 P3 P4 P5 P6 P7 P8 P9 P10 P11 P12. injection Fc as _ C2 _ C4 _ _ _ _ _ _ _ _.
    split; [by split|]. rewrite P1, P2. split; [exact C4|]. split; [exact C2|]. done.
Qed.
End fork.

(** ** A witness: a process with one page forks *)

Section witness.
Context {A : Type} {FA : FrameAlloc A} {FS : FrameAllocSpec A}.
Implicit Types (v : vms A) (a b : aspace).

(** the kernel's own table is apart from the process *)
Definition apart v l1 a : Prop := forall j, 0 <= j < 4 -> ~ in_as l1 a (frame_of (l1_pa v) j).

Lemma kern_ok_evolves K v l1 a v' a' : kern_ok K v -> apart v l1 a -> evolves K v l1 a v' a' -> kern_ok K v'.
Proof.
  intros Hk Hap He. assert (Eb : l1_pa v' = l1_pa v) by apply He. split.
  - apply (as_fa _ _ _ _ (ev_ok _ _ _ _ _ _ He)).
  - intros j Hj. rewrite Eb. apply (ev_keep _ _ _ _ _ _ He); [by apply Hk|by apply Hap].
  - intros i Hi. rewrite Eb, <- (ko_l1 _ _ Hk i Hi). eapply ld32_frame; [apply He|]. intros x Hx Hr.
    destruct (l1_byte_frame (l1_pa v) a x) as (j & Hj & Hxj). { unfold in_range, L1_SIZE, L1_ENTRIES in *. lia. }
    cbn in Hj. case_decide as Hjr; [|done]. pose proof (ko_own _ _ Hk j Hjr) as Ho. destruct (owned_frame v _ (ko_fa _ _ Hk) Ho) as (Hal & _).
    assert (E : page_down x = frame_of (l1_pa v) j) by (by apply page_down_frame). destruct Hr as [Hr|Hr]; rewrite E in Hr; [by apply (Hap j)|done].
Qed.

Lemma created_apart K v l1 v1 : kern_ok K v -> created K v l1 v1 -> apart v1 l1 (AS ∅ ∅).
Proof.
  intros Hk (_ & _ & _ & Hfr & _ & _ & Eb) j Hj ([i|i|w] & Hf); cbn in Hf; [|by rewrite lookup_empty in Hf..]. case_decide as Hi; [|done].
  injection Hf as Hf. apply (Hfr (frame_of l1 i)); [by exists i|]. rewrite Hf, Eb. by apply Hk.
Qed.
End witness.

Definition demo_parent : kern pmm := kern_over demo_stacked.

Lemma demo_parent_image : exists a, as_ok kmap demo_stacked demo_l1 a /\ ubyte demo_stacked a STACK_PAGE = Some 0 /\ kern_ok kmap demo_stacked.
Proof.
  destruct demo_stacked_step as (a & S). exists a. split; [apply S|]. split.
  - exact (st_see _ _ _ _ _ _ _ S STACK_PAGE ltac:(done)).
  - destruct (created_keeps kmap _ _ _ demo_created demo_mmu_ok) as [Hk _].
    exact (kern_ok_evolves kmap _ _ _ _ _ Hk (created_apart _ _ _ _ demo_mmu_ok demo_created) (st_ev _ _ _ _ _ _ _ S)).
Qed.

Definition child_made (k : kern pmm) : bool := has_state P_RUNNABLE (proc_at (ksch (do_fork 0 k).2) 1).

Lemma demo_child_made : child_made demo_parent = true.
Proof. vm_compute. reflexivity. Qed.

Lemma child_made_spec k : child_made k = true -> exists r k', do_fork 0 k = (r, k') /\ state (proc_at (ksch k') 1) = P_RUNNABLE.
Proof. unfold child_made. destruct (do_fork 0 k) as [r k']. intros H. exists r, k'. split; [done|]. by apply has_state_true. Qed.

Lemma fork_copies_process_witness : exists r k' i b, do_fork 0 demo_parent = (r, k') /\ pid (proc_at (ksch k') i) = 2 /\ ubyte (kvm k') b STACK_PAGE = Some 0.
Proof.
  destruct demo_parent_image as (a & Ha & Hs & Hk). destruct (child_made_spec _ demo_child_made) as (r & k' & E & Hch). exists r, k'.
  assert (Ev : kvm demo_parent = demo_stacked) by exact (kern_over_kvm demo_stacked).
  destruct (fork_copies_process kmap kmap_not_coarse demo_parent O a 0 r k') as (_ & _ & _ & [(e & _ & _ & F)|(i & b & _ & _ & Hc & _ & _ & _ & _ & Hm & _)]).
  - split; [reflexivity|]. split; [reflexivity|]. unfold NPROC. lia.
  - reflexivity.
  - rewrite Ev. exact Hk.
  - rewrite Ev. exact Ha.
  - exact E.
  - rewrite F in Hch; [discriminate Hch|unfold NPROC; lia|reflexivity].
  - exists i, b. split; [exact E|]. split; [exact (cf_pid _ _ _ _ _ Hc)|]. rewrite Hm, Ev. exact Hs.
Defined.
