(* ===== verification/Boot.v ===== *)
(** The boot sequence, [kmain] and [load_archive] of [kernel/kernel/main.c].

    The device tree and the archive are bytes of physical memory.  The reader
    of the tree sees the blob up to the size in its header; what lies behind is
    a [Fault].  The interrupt controller and the timer are left out, as is what
    is printed; a path into the idle loop is [None].  The theorems say what the
    boot leaves of the memory, and in which state it enters user mode. *)

From stdpp Require Import gmap list fin_maps relations.
From Stdlib Require Import ZArith Lia.
From S2P Require Import Prelude Memory Checked Frames Pmm Kmalloc KernMem Vm AddrSpace Ramfs Proc File FsSyscall Inflate Kfdt KfdtTree Cpio CpioLoad UserMem Elf ElfLoad Kern Mmap ProcOps ProcInv Calm ProcSteps Exec Syscall SyscallInv ProcCtx.

Definition RAM_BASE : Z := 0x40000000.
Definition RAM_TOP : Z := 0x48000000.
(** "/init" *)
Definition INIT_PATH : cstr := [47; 105; 110; 105; 116].
(** the unused virtual address of the self test *)
Definition TEST_VA : Z := 0x50000000.

Section model.
Local Abbreviation kern := (kern pmm).

(** [n] bytes of memory from [a] on *)
Definition bytes_of (k : kern) (a n : Z) : list Z := bytes_at (vm_pm (kvm k)) a (Z.to_nat n).

Definition in_kfsC {R} (c : C (fs (kmem pmm)) R) : C kern R := fun k =>
  match c (kfs k) with Ok (r, s) => Ok (r, set_kfp (set_fsys s (kfp k)) k) | Fault => Fault | NoFuel => NoFuel end.

(** ** The archive *)

Definition load_archive (arch sz : Z) : C kern Z :=
  b ← look (fun k => bytes_of k arch sz);
  gz ← lift (is_gzip b sz);
  if negb gz then in_kfsC (cpio_load b sz)
  else
    out_sz ← lift (gzip_isize b sz);
    if out_sz =? 0 then mret (-100)
    else
      let npages := ((out_sz +w PAGE_SIZE) -w 1) / PAGE_SIZE in
      scratch ← run (in_vm (in_phys (pmm_alloc_aligned npages PAGE_SIZE)));
      if scratch =? 0 then mret (-101)
      else
        dst ← look (fun k => bytes_of k scratch (npages * PAGE_SIZE));
        r ← lift (gunzip b sz dst (npages *w PAGE_SIZE));
        run (in_vm (store_bytes scratch r.2)) ≫= fun _ =>
        if r.1 <? 0 then mret (-102)
        else
          d ← look (fun k => bytes_of k scratch r.1);
          in_kfsC (cpio_load d r.1).

(** ** The handoff *)

Definition valid_at (k : kern) (a : Z) : outcome bool := kfdt_valid (if a =? 0 then None else Some (bytes_of k a 4)).
Definition totalsize_at (k : kern) (a : Z) : outcome Z := kfdt_totalsize (bytes_of k a 8).

(** the trusted part of the memory node *)
Definition ram_top_of (m : option (Z * Z)) : Z :=
  match m with
  | Some (mbase, msize) =>
      if mbase =? RAM_BASE then let top := mbase +w msize in if RAM_TOP <? top then RAM_TOP else top
      else RAM_TOP
  | None => RAM_TOP
  end.

Record handoff := Handoff { h_dtb : Z; h_have : bool; h_size : Z; h_top : Z; h_initrd : Z * Z }.

Definition read_handoff (k : kern) (r2 : Z) : outcome handoff :=
  v ← valid_at k r2;
  w ← (if negb v then valid_at k RAM_BASE else Ok false);
  let dtb := if w : bool then RAM_BASE else r2 in
  have ← valid_at k dtb;
  if have : bool then
    size ← totalsize_at k dtb;
    let blob := bytes_of k dtb size in
    m ← kfdt_memory blob;
    i ← kfdt_initrd blob;
    Ok (Handoff dtb true size (ram_top_of m) (default (0, 0) i))
  else Ok (Handoff dtb false 0 RAM_TOP (0, 0)).

(** ** Memory *)

Definition in_pmm (f : pmm -> pmm) : M kern unit := in_vm (in_phys (modify (fun p => Phys (f (fa p)) (pm p)))).

Definition boot_memory (h : handoff) (kernel_end : Z) : M kern unit :=
  in_pmm (pmm_init kernel_end (h_top h)) ≫= fun _ =>
  (if h_have h then in_pmm (pmm_reserve (h_dtb h) (h_dtb h +w h_size h)) else mret tt) ≫= fun _ =>
  (if negb ((h_initrd h).1 =? 0) && negb ((h_initrd h).2 =? 0) then in_pmm (pmm_reserve (h_initrd h).1 ((h_initrd h).1 +w (h_initrd h).2)) else mret tt) ≫= fun _ =>
  in_vm mmu_init.

Definition mmu_selftest : C kern unit :=
  pa ← run (in_vm (in_phys (pmm_alloc_aligned 256 0x100000)));
  if pa =? 0 then mret tt
  else
    run (in_vm (mmu_map_section TEST_VA pa MEM_NORMAL)) ≫= fun _ =>
    ustore32 TEST_VA 0xC0FFEE42 ≫= fun _ =>
    ustore32 (TEST_VA + 4) 0xDEADBEEF.

(** ** The sequence *)

(** from the file system to the first process *)
Definition start_init (initrd : Z * Z) : C kern (option trapframe) :=
  if (initrd.1 =? 0) || (initrd.2 =? 0) then mret None
  else
    run (in_kfs ramfs_init) ≫= fun _ =>
    ents ← load_archive initrd.1 initrd.2;
    if ents <? 0 then mret None
    else
      run (in_ksch proc_init) ≫= fun _ =>
      p ← proc_spawn_elf INIT_PATH;
      match p with
      | None => mret None
      | Some _ => run proc_run_first
      end.

Definition kmain (r2 kernel_end : Z) : C kern (option trapframe) :=
  h ← (fun k => h ← read_handoff k r2; Ok (h, k));
  run (boot_memory h kernel_end) ≫= fun _ =>
  mmu_selftest ≫= fun _ =>
  start_init (h_initrd h).
End model.

(** * The first process *)

(** no process yet *)
Definition vacant (s : sched) : Prop := table_ok s /\ cur s = None /\ next_pid s = 1 /\ forall j, (j < NPROC)%nat -> state (proc_at s j) = P_UNUSED.

(** slot [i] alone is in use, by process 1 in state [st] *)
Record lone (i : nat) (st : pstate) (s : sched) : Prop := {
  ln_table : table_ok s;
  ln_lt : (i < NPROC)%nat;
  ln_cur : cur s = None;
  ln_next : next_pid s = 2;
  ln_view : view s i = Pv 1 st None None;
  ln_rest : forall j, (j < NPROC)%nat -> j <> i -> state (proc_at s j) = P_UNUSED;
}.

Lemma woken_still p q st : woken (pv_of p) (pv_of q) -> state p = st -> st <> P_BLOCKED -> pv_of q = pv_of p.
Proof. intros [->|[Hb _]] Hs Hn; [done|]. cbn in Hb. congruence. Qed.

Lemma lone_tame i s s' : tame s s' -> lone i P_EMBRYO s -> lone i P_EMBRYO s'.
Proof.
  intros H [Ht Hi Hc Hn Hv Hr]. destruct (H Ht) as (Ht' & Ec & En & Q). split; [done|done|congruence|congruence| |].
  - destruct (Q i Hi) as [W _]. rewrite <- Hv. apply (woken_still _ _ _ W eq_refl). intros E. apply (f_equal v_st) in Hv. cbn in Hv. congruence.
  - intros j Hj Hji. destruct (Q j Hj) as [W _]. pose proof (woken_still _ _ _ W (Hr j Hj Hji) ltac:(done)) as E. apply (f_equal v_st) in E. cbn in E. rewrite E. auto.
Qed.

Lemma lone_put i st st' f s : lone i st s -> (forall p, pv_of p = Pv 1 st None None -> pv_of (f p) = Pv 1 st' None None) -> lone i st' (put_slot i f s).
Proof.
  intros [Ht Hi Hc Hn Hv Hr] Hf. destruct (tab_put _ _ i f (tab_self _ Ht) Hi) as [T1 T2]. split; [done..| |].
  - unfold view. rewrite T2, at_slot_eq by done. by apply Hf.
  - intros j Hj Hji. rewrite T2, at_slot_ne by done. auto.
Qed.

Section first.
Local Abbreviation kern := (kern pmm).
Implicit Types (k : kern).

Lemma KeepsC_in_kfsC {R} (c : C (fs (kmem pmm)) R) : KeepsC eq ksch (in_kfsC c).
Proof. intros k r k'. unfold in_kfsC. destruct (c (kfs k)) as [[x s]| |]; [|done..]. by intros [= _ <-]. Qed.

Lemma KeepsC_ustore_eq va v : KeepsC eq ksch (ustore (A := pmm) va v).
Proof. intros k r k'. unfold ustore. destruct (uaddr _ _) as [pa| |]; [|done..]. by intros [= <- <-]. Qed.

Lemma KeepsC_ustores va l : KeepsC eq ksch (ustore_bytes (A := pmm) va l).
Proof. pose proof KeepsC_ustore_eq. revert va. induction l as [|b l IH]; intros va; cbn [ustore_bytes]; calm. Qed.

Lemma KeepsC_archive a n : KeepsC eq ksch (load_archive a n).
Proof. pose proof @KeepsC_in_kfsC. unfold load_archive. calm. Qed.

Lemma KeepsC_selftest : KeepsC eq ksch mmu_selftest.
Proof. pose proof KeepsC_ustores. unfold mmu_selftest, ustore32. calm. Qed.

Lemma KeepsC_target p : KeepsC eq ksch (spawn_target (A := pmm) p).
Proof. unfold spawn_target. calm. Qed.

Lemma Keeps_memory h e : Keeps eq ksch (boot_memory h e).
Proof. unfold boot_memory, in_pmm. calm. Qed.

Lemma Keeps_ramfs {R} (m : M (fs (kmem pmm)) R) : Keeps eq ksch (in_kfs (A := pmm) m).
Proof. intros k. unfold in_kfs, in_kfp, in_fs, zoom. destruct (m _). done. Qed.

(** [proc_spawn_elf] on an empty table makes process 1, ready to run in user mode. *)
Definition spawned (k : kern) (i : nat) : Prop := lone i P_RUNNABLE (ksch k) /\ exists usp pc, tf (proc_at (ksch k) i) = entry_frame usp pc.

Lemma fresh_view n p : pv_of (fresh_proc n (set_state P_EMBRYO p)) = Pv n P_EMBRYO None None.
Proof. by destruct p. Qed.

Lemma Calm_stdio i : Calm psch (init_stdio (A := pmm) i).
Proof.
  unfold init_stdio. calm. intros k. apply calm_upd. intros p. split; [done|by left].
Qed.

Lemma spawn_spec path k : vacant (ksch k) -> may (proc_spawn_elf path) k (fun r k' => forall i, r = Some i -> spawned k' i).
Proof.
  intros (Ht & Hc & Hn & Hu). unfold proc_spawn_elf. apply may_bind. eapply may_mono; [apply (may_keeps eq ksch), KeepsC_target|]. cbv beta.
  intros [[ino argv]|] k1 E1; [|by apply may_ret]. apply may_bind, may_run. unfold in_ksch at 1. apply wp_zoom. rewrite <- E1.
  eapply wp_mono; [by apply alloc_proc_spec|]. cbv beta. intros r s [(-> & _)|(i & -> & Hi & _ & Hc2 & Hn2 & T2)]; [by apply may_ret|].
  assert (L : lone i P_EMBRYO s).
  { destruct T2 as [T2 G2]. split; [done|done|congruence|rewrite Hn2, Hn; reflexivity| |]; intros; [|intros]; unfold view; rewrite G2 by done.
    - rewrite at_slot_eq, Hn. apply fresh_view.
    - rewrite at_slot_ne by done. auto. }
  set (k2 := set_ksch s k1). assert (Lk : lone i P_EMBRYO (ksch k2)) by exact L. clearbody k2. clear L T2.
  apply may_bind, may_run, wp_vm_any. intros l1 v _. apply may_bind, may_run, wp_upd_slot.
  assert (L3 : lone i P_EMBRYO (put_slot i (set_l1 l1) (ksch k2))) by (by eapply lone_put; [exact Lk|]).
  destruct (l1 =? 0). { apply may_bind, may_run, wp_upd_slot. by apply may_ret. }
  set (k3 := set_ksch _ _). assert (Lk3 : lone i P_EMBRYO (ksch k3)) by exact L3. clearbody k3. cbv zeta.
  assert (Undo : forall kk (Q : nat -> kern -> Prop), may (run (in_vm (vm_destroy l1)) ≫= fun _ => run (upd_slot i (set_state P_UNUSED)) ≫= fun _ => mret None) kk
    (fun r k' => forall j, r = Some j -> Q j k')).
  { intros kk Q. apply may_bind, may_run, wp_vm_any. intros [] w _. apply may_bind, may_run, wp_upd_slot. by apply may_ret. }
  apply may_bind. eapply may_mono; [apply (may_keeps tame ksch), TameC_load_program|]. cbv beta. intros [e|lr] k4 T4; [apply Undo|]. pose proof (lone_tame _ _ _ T4 Lk3) as L4.
  apply may_bind, may_run, wp_vm_any. intros rc w1 _. destruct (negb _); [apply Undo|].
  apply may_bind, may_run, wp_vm_any. intros usp w2 _. destruct (usp =? 0); [apply Undo|].
  apply may_bind, may_run, wp_vm_any. intros [] w3 _. apply may_bind, may_run, wp_upd_slot. apply may_bind, may_run, (wp_keeps tame); [apply Tame_calm, Calm_in_kfp, Calm_stdio|].
  intros [] k5 T5. assert (L5 : lone i P_EMBRYO (ksch k5)) by (eapply lone_tame; [exact T5|]; by eapply lone_put; [exact L4|]).
  apply may_bind, may_run, wp_upd_slot, may_bind, may_run, wp_upd_slot, may_ret. intros j [= <-].
  pose proof (ln_table _ _ _ L5) as Ht5. split.
  - eapply (lone_put i P_EMBRYO); [by eapply (lone_put i P_EMBRYO P_EMBRYO); [exact L5|]|]. intros p Hp. unfold pv_of in Hp |- *. cbn. congruence.
  - exists usp, (lr_pc lr).
    pose proof (tab_more _ _ i (set_state P_RUNNABLE) _ (tab_put _ _ i (set_tf (entry_frame usp (lr_pc lr))) (tab_self _ Ht5) Hi) Hi) as [_ T6].
    exact (f_equal tf (eq_trans (T6 i Hi) (at_slot_eq _ _ _))).
Qed.

(** no slot but that of the current process is in use *)
Definition alone (s : sched) : Prop := forall j, (j < NPROC)%nat -> cur s <> Some j -> state (proc_at s j) = P_UNUSED.

(** The sole process is found, and its registers are loaded. *)
Lemma run_first_spec k i : spawned k i -> wp proc_run_first k (fun r k' => exists t, r = Some t /\ cur (ksch k') = Some i /\ procs_ok (ksch k') /\ alone (ksch k') /\ loaded k' /\
  t = tf (proc_at (ksch k) i) /\ tf (cur_proc k') = t /\ pid (cur_proc k') = 1).
Proof.
  intros [[Ht Hi Hc Hn Hv Hr] _]. assert (Hst : state (proc_at (ksch k) i) = P_RUNNABLE) by exact (f_equal v_st Hv). unfold proc_run_first, slot, load_fpu.
  apply wp_bind, wp_gets. destruct (find_from _ _ _) as [z|] eqn:E.
  2:{ exfalso. pose proof (proj1 (find_from_None _ _ _) E (Z.of_nat i)) as Hf. cbv beta in Hf. rewrite Nat2Z.id in Hf. apply has_state_true in Hst. rewrite Hst in Hf. specialize (Hf ltac:(lia)). done. }
  apply find_from_Some in E as (Hz & Hb & _). apply has_state_true in Hb. assert (Z.to_nat z = i) as ->.
  { destruct (decide (Z.to_nat z = i)) as [|Hne]; [done|]. rewrite (Hr (Z.to_nat z)) in Hb by (done || lia). done. }
  apply wp_bind. unfold in_ksch at 1. apply wp_zoom, wp_modify. apply wp_bind, wp_upd_slot. set (k1 := set_ksch _ _).
  assert (T1 : tab (ksch k1) (at_slot i (set_state P_RUNNING) (proc_at (ksch k)))) by exact (tab_put (set_cur (Some i) (ksch k)) _ i (set_state P_RUNNING) (tab_self (set_cur (Some i) (ksch k)) Ht) Hi).
  assert (C1 : cur (ksch k1) = Some i) by done. assert (N1 : next_pid (ksch k1) = 2) by done. clearbody k1. destruct T1 as [T1 G1].
  apply wp_bind, wp_gets. apply wp_bind, wp_in_vm, wp_self. intros [] v Ev. apply wp_bind, wp_bind, wp_gets, wp_modify, wp_ret.
  set (k2 := set_cpu _ _ _). assert (E2 : ksch k2 = ksch k1) by done. pose proof (G1 i Hi) as Gi. rewrite at_slot_eq in Gi.
  exists (tf (proc_at (ksch k1) i)). split; [done|]. split; [done|]. assert (Ec : cur_proc k2 = proc_at (ksch k1) i) by (unfold cur_proc; by rewrite E2, C1).
  split; [|split; [|split; [|split; [by rewrite Gi|split; [by rewrite Ec|rewrite Ec, Gi; exact (f_equal v_pid Hv)]]]]].
  - rewrite E2. unfold view, pv_of in Hv. apply (sole_ok _ i); [done|done|done|lia| | | |]; rewrite ?Gi; cbn; try congruence.
    intros j Hj Hji. rewrite G1, at_slot_ne by done. auto.
  - intros j Hj. rewrite E2, C1. intros Hji. rewrite G1, at_slot_ne by congruence. apply Hr; congruence.
  - intros c Hc2. rewrite E2, C1 in Hc2. injection Hc2 as <-. rewrite E2. split; [done|]. split; [done|]. change (ttbr0_of (hwlog v) = p_l1 (proc_at (ksch k1) i)).
    replace v with (vm_switch (p_l1 (proc_at (ksch k1) i)) (kvm k1)).2 by (by rewrite Ev). apply vm_switch_ttbr0.
Qed.

(** the kernel has started process 1: it runs alone, the processor holds its
    registers and its address space, and it begins in user mode *)
Definition started (k' : kern) (t : trapframe) : Prop :=
  procs_ok (ksch k') /\ alone (ksch k') /\ loaded k' /\ pid (cur_proc k') = 1 /\ tf (cur_proc k') = t /\ cpsr t .& MODE_MASK = MODE_USR /\ tr t = replicate 13 0.

Lemma start_init_spec ir k : table_ok (ksch k) -> next_pid (ksch k) = 1 -> may (start_init ir) k (fun r k' => forall t, r = Some t -> started k' t).
Proof.
  intros Ht Hn. unfold start_init. destruct (_ || _); [by apply may_ret|]. apply may_bind, may_run, (wp_keeps eq); [apply Keeps_ramfs|]. intros [] k1 E1.
  apply may_bind. eapply may_mono; [apply (may_keeps eq ksch), KeepsC_archive|]. cbv beta. intros e k2 E2. destruct (e <? 0); [by apply may_ret|].
  apply may_bind, may_run. unfold in_ksch. apply wp_zoom. unfold proc_init. apply wp_modify. set (k3 := set_ksch _ k2).
  assert (V : vacant (ksch k3)).
  { assert (Ek : ksch k3 = set_cur None (set_proctab (set_state P_UNUSED <$> proctab (ksch k2)) (ksch k2))) by done. rewrite Ek, <- E2, <- E1.
    split; [unfold table_ok; cbn; by rewrite length_fmap|]. split; [done|]. split; [done|]. intros j Hj. unfold proc_at. cbn. rewrite list_lookup_fmap.
    destruct (lookup_lt_is_Some_2 (proctab (ksch k)) j) as [q ->]; [by rewrite Ht|]. done. }
  clearbody k3. apply may_bind. eapply may_mono; [by apply spawn_spec|]. cbv beta. intros [i|] k4 H4; [|by apply may_ret].
  specialize (H4 i eq_refl). apply may_run. eapply wp_mono; [by apply (run_first_spec k4 i)|]. cbv beta. intros r k5 (t & -> & _ & P5 & A5 & L5 & Et & Ec & Ep) t' [= <-].
  destruct H4 as [_ (usp & pc & E4)]. do 5 (split; [done|]). by rewrite Et, E4.
Qed.
(** When [kmain] gets as far as user mode, whatever the bootloader left in
    memory, process 1 is the current process and the only one, the process
    table is sound, the processor holds the floating-point registers, the
    thread pointer and the page table of process 1, and the frame resumed is
    its own: user mode, with cleared registers. *)
Theorem kmain_starts_init r2 kernel_end k t k' :
  table_ok (ksch k) -> next_pid (ksch k) = 1 -> kmain r2 kernel_end k = Ok (Some t, k') -> started k' t.
Proof.
  intros Ht Hn. assert (W : may (kmain r2 kernel_end) k (fun r k' => forall t, r = Some t -> started k' t)); [|intros E; by apply (W _ _ E)].
  unfold kmain. apply may_bind. intros h k1 E1. assert (k1 = k) as ->. { revert E1. cbv beta. destruct (read_handoff k r2); [|done..]. by intros [= _ <-]. }
  apply may_bind, may_run, (wp_keeps eq); [apply Keeps_memory|]. intros [] k2 E2. apply may_bind. eapply may_mono; [apply (may_keeps eq ksch), KeepsC_selftest|]. cbv beta.
  intros [] k3 E3. apply start_init_spec; [by rewrite <- E3, <- E2|by rewrite <- E3, <- E2].
Qed.
End first.

(** * What the boot leaves in memory *)

(** frame [f] holds one of the [n] bytes from [a] on *)
Definition meets (a n f : Z) : Prop := f < a + n /\ a < f + PAGE_SIZE.

(** what has to outlive the boot: the device tree and the archive *)
Definition kept (h : handoff) (f : Z) : Prop :=
  (h_have h = true /\ meets (h_dtb h) (h_size h) f) \/
  ((h_initrd h).1 <> 0 /\ (h_initrd h).2 <> 0 /\ meets (h_initrd h).1 (h_initrd h).2 f).

(** the areas handed over end below 4 GB *)
Record handoff_ok (h : handoff) : Prop := {
  ho_top : 0 <= h_top h < 2 ^ 32;
  ho_dtb : 0 <= h_dtb h /\ 0 <= h_size h /\ h_dtb h + h_size h < 2 ^ 32;
  ho_initrd : 0 <= (h_initrd h).1 /\ 0 <= (h_initrd h).2 /\ (h_initrd h).1 + (h_initrd h).2 < 2 ^ 32;
}.

Section memory.
Local Abbreviation kern := (kern pmm).
Implicit Types (k : kern).

Definition frames_of (k : kern) : pmm := fa (vphys (kvm k)).

(** the window of the allocator, with the frames in [P] in use *)
Definition laid (base num : Z) (P : Z -> Prop) (p : pmm) : Prop :=
  pmm_ok p /\ base_pa p = base /\ num_pages p = num /\ forall i, 0 <= i < num -> page_used p i = true <-> P (frame_of base i).

Lemma laid_owned base num P p f : laid base num P p -> pmm_window p f -> pmm_owned p f <-> P f.
Proof. intros (_ & <- & <- & H) (i & Hi & ->). rewrite pmm_owned_frame by done. by apply H. Qed.

Lemma laid_reserve base num P p (b : bool) a n : laid base num P p -> 0 <= a -> 0 <= n -> a + n < 2 ^ 32 ->
  laid base num (fun f => P f \/ (b = true /\ meets a n f)) (if b then pmm_reserve a (a +w n) p else p).
Proof.
  intros (Hok & Hb & Hn & HP) Ha Hn0 Hs. destruct b.
  - rewrite u32_small by lia. destruct (reserve_spec a (a + n) p) as (A1 & A2 & A3 & A4); [done|lia..|]. split; [done|]. split; [congruence|]. split; [congruence|].
    intros i Hi. rewrite A4, orb_true_iff, HP, bool_decide_eq_true, Hb by congruence. unfold meets. tauto.
  - split; [done|]. do 2 (split; [done|]). intros i Hi. rewrite HP by done. naive_solver.
Qed.

Lemma in_pmm_spec f k : wp (in_pmm f) k (fun _ k' => frames_of k' = f (frames_of k) /\ vm_pm (kvm k') = vm_pm (kvm k) /\ hwlog (kvm k') = hwlog (kvm k)).
Proof. unfold in_pmm. apply wp_in_vm. unfold in_phys. apply wp_zoom, wp_modify. unfold frames_of. rewrite kvm_set. done. Qed.

Lemma wp_if_pmm (b : bool) f k (Q : unit -> kern -> Prop) :
  (forall k', frames_of k' = (if b then f (frames_of k) else frames_of k) -> vm_pm (kvm k') = vm_pm (kvm k) -> hwlog (kvm k') = hwlog (kvm k) -> Q tt k') ->
  wp (if b then in_pmm f else mret tt) k Q.
Proof. intros H. destruct b; [|apply wp_ret; by apply H]. eapply wp_mono; [apply in_pmm_spec|]. intros [] k' (H1 & H2 & H3). by apply H. Qed.

Lemma window_frames e top f : 0 <= e -> 0 <= top ->
  (exists i, 0 <= i < Z.max 0 (Z.min MAX_PAGES ((page_down top - page_up e) / PAGE_SIZE)) /\ f = frame_of (page_up e) i) <->
  aligned PAGE_SIZE f /\ page_up e <= f < page_up e + MAX_PAGES * PAGE_SIZE /\ f + PAGE_SIZE <= top.
Proof.
  intros He Ht. destruct (page_up_spec e) as [Hua Hu], (page_down_spec top) as [Hda Hd]. unfold aligned, frame_of, PAGE_SIZE, MAX_PAGES in *.
  change (128 * 1024 * 1024 / 4096) with 32768. split.
  - intros (i & Hi & ->). split; [|Z.div_mod_to_equations; lia]. rewrite Z_mod_plus_full. done.
  - intros (Ha & Hb & Hc). exists ((f - page_up e) / 4096). Z.div_mod_to_equations. lia.
Qed.

(** what the reservations add up to *)
Definition reserved (h : handoff) (f : Z) : Prop :=
  (False \/ (h_have h = true /\ meets (h_dtb h) (h_size h) f)) \/
  (negb ((h_initrd h).1 =? 0) && negb ((h_initrd h).2 =? 0) = true /\ meets (h_initrd h).1 (h_initrd h).2 f).

Lemma reserved_kept h f : reserved h f <-> kept h f.
Proof. unfold reserved, kept. rewrite andb_true_iff, !negb_true_iff, !Z.eqb_neq. tauto. Qed.

(** C16. What the boot leaves of the memory, for any handoff whose areas end
    below 4 GB: the allocator manages the pages from the end of the kernel to
    the top of memory (128 MB at most), and of these exactly the pages of the
    device tree, of the archive and of the kernel's page table are in use.
    The page table is the identity map, it lies on pages of its own and is
    what the processor uses; every byte outside it (the tree and the archive
    included) is what the bootloader left.  The boot goes on without a table
    only when no aligned run of four pages is free. *)
Theorem boot_memory_correct h e k : handoff_ok h -> 0 < e -> e + PAGE_SIZE <= 2 ^ 32 ->
  wp (boot_memory h e) k (fun _ k' =>
    let v := kvm k' in let p := frames_of k' in
    pmm_ok p /\
    (forall f, pmm_window p f <-> aligned PAGE_SIZE f /\ page_up e <= f < page_up e + MAX_PAGES * PAGE_SIZE /\ f + PAGE_SIZE <= h_top h) /\
    (forall f, pmm_window p f -> pmm_owned p f <-> kept h f \/ (l1_pa v <> 0 /\ l1_frames (l1_pa v) f)) /\
    ((l1_pa v = 0 /\ vm_pm v = vm_pm (kvm k) /\ forall b, aligned L1_ALIGN b -> ~ forall j, 0 <= j < 4 -> pmm_window p (frame_of b j) /\ ~ kept h (frame_of b j)) \/
     (kern_ok kmap v /\ wm v = vm_pm v /\ aligned L1_ALIGN (l1_pa v) /\ ttbr0_of (hwlog v) = l1_pa v /\
      (forall f, l1_frames (l1_pa v) f -> pmm_window p f /\ ~ kept h f) /\
      mem_frame (in_range (l1_pa v) L1_SIZE) (vm_pm (kvm k)) (vm_pm v)))).
Proof.
  intros [Htop Hdtb Hinit] He He'. unfold boot_memory. destruct (init_bounds e (h_top h) (frames_of k) He He' Htop) as (B1 & B2 & B3 & B4).
  set (base := page_up e) in *. set (num := Z.max 0 _) in *.
  assert (L0 : laid base num (fun _ => False) (pmm_init e (h_top h) (frames_of k))). { do 3 (split; [done|]). intros i Hi. rewrite B4 by congruence. done. }
  apply wp_bind. eapply wp_mono; [apply in_pmm_spec|]. intros [] k1 (F1 & M1 & G1). rewrite <- F1 in L0.
  apply wp_bind, wp_if_pmm. intros k2 F2 M2 G2. apply (laid_reserve _ _ _ _ (h_have h) (h_dtb h) (h_size h)) in L0; [|lia..]. rewrite <- F2 in L0.
  apply wp_bind, wp_if_pmm. intros k3 F3 M3 G3. apply (laid_reserve _ _ _ _ (negb ((h_initrd h).1 =? 0) && negb ((h_initrd h).2 =? 0)) (h_initrd h).1 (h_initrd h).2) in L0; [|lia..]. rewrite <- F3 in L0.
  fold (reserved h) in L0. apply wp_in_vm, wp_self. intros [] v Ev. cbv zeta. unfold frames_of. rewrite kvm_set.
  assert (W : forall f, pmm_window (frames_of k3) f <-> aligned PAGE_SIZE f /\ base <= f < base + MAX_PAGES * PAGE_SIZE /\ f + PAGE_SIZE <= h_top h).
  { intros f. destruct L0 as (_ & Eb & En & _). unfold pmm_window. rewrite Eb, En. apply window_frames; lia. }
  assert (O : forall f, pmm_window (frames_of k3) f -> owned (kvm k3) f <-> kept h f). { intros f Hf. rewrite <- reserved_kept. exact (laid_owned _ _ _ _ f L0 Hf). }
  assert (M : vm_pm (kvm k3) = vm_pm (kvm k)) by congruence. destruct L0 as (Hok & _).
  pose proof (mmu_init_spec (kvm k3) Hok) as S. unfold wp in S. rewrite Ev in S. cbn [snd] in S.
  destruct S as [[Hz Hv]|(Hnz & Hko & Hw & Hal & Hown & Hlog & Hfr & Hwin & Hm)].
  - unfold vm_pm. rewrite Hv. split; [done|]. split; [exact W|]. split; [intros f Hf; rewrite Hz, <- O by done; naive_solver|]. left. split; [done|]. split; [exact M|].
    intros b Hb Hfree. pose proof (mmu_init_room (kvm k3) b Hok Hb) as R. rewrite Ev in R. apply R; [|exact Hz]. intros j Hj. destruct (Hfree j Hj) as [H1 H2].
    split; [exact H1|]. intros H3. apply H2. by apply O.
  - split; [apply Hko|]. split; [intros f; rewrite <- W; apply Hwin|]. split; [intros f Hf; apply Hwin in Hf; rewrite <- (O f Hf); rewrite (Hown f : pmm_owned _ _ <-> _); tauto|].
    right. do 3 (split; [done|]). split; [rewrite Hlog; change [TlbiAll; SetDacr 0x55555555; SetTtbcr 0; SetTtbr0 (l1_pa v); EnableSctlr; EnableCaches] with ((([TlbiAll; SetDacr 0x55555555; SetTtbcr 0] ++ [SetTtbr0 (l1_pa v)]) ++ [EnableSctlr]) ++ [EnableCaches]); by rewrite !app_assoc, !ttbr0_snoc|]. split; [|by rewrite <- M].
    intros f Hf. destruct (Hfr f Hf) as [H1 H2]. split; [by apply Hwin|]. by rewrite <- (O f H1).
Qed.
End memory.

(** ** A witness: a machine with 512 KB of memory boots *)

(** a tree with the memory node and the place of the archive *)
Definition demo_machine (initrd size : Z) : node :=
  Node [] []
    [Node (drop 1 s_memory) [Prop_ 0 s_reg (be RAM_BASE ++ be 0x80000)] [];
     Node (drop 1 s_chosen) [Prop_ 4 s_start (be initrd); Prop_ 23 s_end (be (initrd + size))] []].
Definition demo_blob (initrd size : Z) : list Z :=
  let st := enc_node (demo_machine initrd size) ++ be FDT_END in
  let str := s_reg ++ [0] ++ s_start ++ [0] ++ s_end ++ [0] in
  let os := 16 + Z.of_nat (length st) in
  be FDT_MAGIC ++ be (os + Z.of_nat (length str)) ++ be 16 ++ be os ++ st ++ str.

(** an archive with [/init] *)
Definition demo_initrd : list Z := archive [demo_item (drop 1 INIT_PATH) 33261 demo_elf] demo_last [].
Definition demo_ram : mem :=
  let n := Z.of_nat (length demo_initrd) in
  poke (poke ∅ RAM_BASE (demo_blob 0x40010000 n)) 0x40010000 demo_initrd.

(** the kernel's data at reset *)
Definition reset (m : mem) : kern pmm :=
  Kern (Io (Fp (Fs (mk_kmem 0 0 0 (Phys (mk_pmm ∅ 0 0 0) m)) ∅ 0 1) (Sched (replicate NPROC proc0) None 1)) (Console None (fun _ => 0) O []))
    m [] 0 (replicate 33 0) 0 0.

Definition boots (k : kern pmm) : bool := match kmain 0 0x40004000 k with Ok (Some _, _) => true | _ => false end.

Lemma boots_spec k : boots k = true -> exists t k', kmain 0 0x40004000 k = Ok (Some t, k').
Proof. unfold boots. destruct (kmain 0 0x40004000 k) as [[[t|] k']| |]; [|done..]. by exists t, k'. Qed.

Lemma demo_boots : boots (reset demo_ram) = true.
Proof. vm_compute. reflexivity. Qed.

Lemma kmain_starts_init_witness : exists t k', kmain 0 0x40004000 (reset demo_ram) = Ok (Some t, k') /\ started k' t.
Proof.
  destruct (boots_spec _ demo_boots) as (t & k' & E). exists t, k'. split; [exact E|].
  apply (kmain_starts_init 0 0x40004000 (reset demo_ram) t k'); [reflexivity|reflexivity|exact E].
Defined.

(** the tree below the kernel, the archive in the middle of 512 KB *)
Definition demo_handoff : handoff := Handoff RAM_BASE true 0x200 0x40080000 (0x40010000, 0x1234).

Lemma demo_handoff_ok : handoff_ok demo_handoff.
Proof. split; cbn; unfold RAM_BASE; lia. Qed.

(** The second page of the archive is not handed out. *)
Lemma boot_memory_correct_witness : wp (boot_memory demo_handoff 0x40004000) (reset ∅) (fun _ k' => pmm_ok (frames_of k') /\ pmm_owned (frames_of k') 0x40011000).
Proof.
  eapply wp_mono; [apply (boot_memory_correct demo_handoff 0x40004000 (reset ∅) demo_handoff_ok); unfold PAGE_SIZE; lia|].
  cbv beta zeta. intros _ k' (H1 & H2 & H3 & _). split; [exact H1|]. apply H3; [apply H2|left; right].
  - change (page_up 0x40004000) with 0x40004000. split; [reflexivity|]. change (MAX_PAGES * PAGE_SIZE) with (2 ^ 27). unfold PAGE_SIZE. cbn [h_top demo_handoff]. lia.
  - unfold meets, PAGE_SIZE. cbn. lia.
Defined.
