(* ===== verification/RtosSched.v ===== *)
(** The scheduler of the RTOS, [rtos/kernel/sched.c], with the tick of
    [rtos/arch/arm/systick_m4.c] and the region switch of [rtos/arch/arm/mpu.c].

    The statics of [sched.c] are the record [sched]; [tasks] is the array (an
    entry that was never written is zero) and [cur_task] the per-core index.  A
    critical section, from [spin_lock] to [spin_unlock], is one function on
    that record: interrupts are off inside it.  [get_cpu_id] is the argument
    [cpu].  The request bit of PendSV in ICSR is the set [pendsv] of the cores
    that have it set.  Trace output is left out. *)

From stdpp Require Import gmap list fin_maps.
From Stdlib Require Import ZArith Lia.
From S2P Require Import Prelude Memory.

(** * The build *)

(** What the build fixes: the sizes of [sched.h], whether the MPU is used, and
    the addresses the linker gives the stacks, [task_entry] and
    [sched_task_exit]. *)
Class Config := {
  MAX_TASKS : Z; TASK_STACK_SIZE : Z; CONFIG_MPU : bool;
  task_stacks : Z; task_entry : Z; task_exit_fn : Z;
}.

(** * Data *)

Inductive task_state := TASK_READY | TASK_RUNNING | TASK_BLOCKED | TASK_SLEEPING | TASK_DEAD.

#[export] Instance task_state_eq_dec : EqDecision task_state.
Proof. solve_decision. Defined.

Record task_tcb := Tcb {
  sp : Z; name : Z; state : task_state; wake_tick : Z; running_on_cpu : Z;
  priority : Z; fn : Z; total_ticks : Z; last_switch_in : Z;
}.

Definition tcb0 : task_tcb := Tcb 0 0 TASK_READY 0 0 0 0 0 0.

Definition set_sp v t := Tcb v (name t) (state t) (wake_tick t) (running_on_cpu t) (priority t) (fn t) (total_ticks t) (last_switch_in t).
Definition set_name v t := Tcb (sp t) v (state t) (wake_tick t) (running_on_cpu t) (priority t) (fn t) (total_ticks t) (last_switch_in t).
Definition set_state v t := Tcb (sp t) (name t) v (wake_tick t) (running_on_cpu t) (priority t) (fn t) (total_ticks t) (last_switch_in t).
Definition set_wake_tick v t := Tcb (sp t) (name t) (state t) v (running_on_cpu t) (priority t) (fn t) (total_ticks t) (last_switch_in t).
Definition set_cpu v t := Tcb (sp t) (name t) (state t) (wake_tick t) v (priority t) (fn t) (total_ticks t) (last_switch_in t).
Definition set_priority v t := Tcb (sp t) (name t) (state t) (wake_tick t) (running_on_cpu t) v (fn t) (total_ticks t) (last_switch_in t).
Definition set_fn v t := Tcb (sp t) (name t) (state t) (wake_tick t) (running_on_cpu t) (priority t) v (total_ticks t) (last_switch_in t).
Definition set_total_ticks v t := Tcb (sp t) (name t) (state t) (wake_tick t) (running_on_cpu t) (priority t) (fn t) v (last_switch_in t).
Definition set_last_switch_in v t := Tcb (sp t) (name t) (state t) (wake_tick t) (running_on_cpu t) (priority t) (fn t) (total_ticks t) v.

(** Statics, the tick counter, the MPU's stack region (RBAR, RASR) and RAM. *)
Record sched := Sched {
  tasks : gmap Z task_tcb; num_tasks : Z; cur_task : gmap Z Z;
  pendsv : gset Z; tick_count : Z; mpu_region2 : Z * Z; ram : mem;
}.

Definition set_tasks v s := Sched v (num_tasks s) (cur_task s) (pendsv s) (tick_count s) (mpu_region2 s) (ram s).
Definition set_num_tasks v s := Sched (tasks s) v (cur_task s) (pendsv s) (tick_count s) (mpu_region2 s) (ram s).
Definition set_cur_task v s := Sched (tasks s) (num_tasks s) v (pendsv s) (tick_count s) (mpu_region2 s) (ram s).
Definition set_pendsv v s := Sched (tasks s) (num_tasks s) (cur_task s) v (tick_count s) (mpu_region2 s) (ram s).
Definition set_tick_count v s := Sched (tasks s) (num_tasks s) (cur_task s) (pendsv s) v (mpu_region2 s) (ram s).
Definition set_mpu_region2 v s := Sched (tasks s) (num_tasks s) (cur_task s) (pendsv s) (tick_count s) v (ram s).
Definition set_ram v s := Sched (tasks s) (num_tasks s) (cur_task s) (pendsv s) (tick_count s) (mpu_region2 s) v.

(** before [main]: everything zero *)
Definition sched0 : sched := Sched ∅ 0 ∅ ∅ 0 (0, 0) ∅.

(** [tasks[i]], an update of it, and [current_task_per_cpu[cpu]] *)
Definition tk (s : sched) (i : Z) : task_tcb := default tcb0 (tasks s !! i).
Definition upd (i : Z) (f : task_tcb -> task_tcb) (s : sched) : sched := set_tasks (<[i := f (tk s i)]> (tasks s)) s.
Definition cur (s : sched) (cpu : Z) : Z := default 0 (cur_task s !! cpu).

Definition has (st : task_state) (t : task_tcb) : bool := bool_decide (state t = st).

(** * The code *)

(** [SCB_ICSR = ICSR_PENDSVSET] *)
Definition sched_yield (cpu : Z) (s : sched) : sched := set_pendsv ({[cpu]} ∪ pendsv s) s.

Definition systick_get_ticks (s : sched) : Z := tick_count s.
Definition systick_handler (cpu : Z) (s : sched) : sched := sched_yield cpu (set_tick_count (tick_count s +w 1) s).

(** up to the request of the switch: the loop after it is never resumed *)
Definition sched_task_exit (cpu : Z) (s : sched) : sched :=
  let s := upd (cur s cpu) (set_state TASK_DEAD) s in
  let s := upd (cur s cpu) (set_cpu (-1)) s in
  sched_yield cpu s.

(** [*(--sp) = w], for each of the words *)
Fixpoint push_words (ws : list Z) (sp : Z) (m : mem) : Z * mem :=
  match ws with
  | [] => (sp, m)
  | w :: ws => push_words ws (sp - 4) (st32 m (sp - 4) w)
  end.

(** AP_FULL | XN | REGION_ENABLE *)
Definition AP_FULL : Z := Z.shiftl 3 24.
Definition XN : Z := Z.shiftl 1 28.
Definition REGION_ENABLE : Z := 1.

Definition mpu_switch_task (stack_base stack_size : Z) (s : sched) : sched :=
  let size_bits := if stack_size <=? 256 then 7 else if stack_size <=? 512 then 8 else if stack_size <=? 1024 then 9 else 10 in
  set_mpu_region2 (stack_base .& 0xFFFFFFE0, AP_FULL .| XN .| Z.shiftl size_bits 1 .| REGION_ENABLE) s.

Section code.
Context `{Config}.

Definition task_stack_init (stack_base : Z) (m : mem) : Z * mem :=
  push_words (Z.shiftl 1 24 :: task_entry :: task_exit_fn .| 1 :: replicate 13 0) (stack_base + TASK_STACK_SIZE) m.

Definition stack_of (id : Z) : Z := task_stacks + id * TASK_STACK_SIZE.

Definition sched_create_task (f nm prio : Z) (s : sched) : Z * sched :=
  if MAX_TASKS <=? num_tasks s then (-1, s)
  else
    let id := num_tasks s in
    let s := set_num_tasks (num_tasks s + 1) s in
    let s := upd id (set_fn f) s in
    let '(p, m) := task_stack_init (stack_of id) (ram s) in
    let s := upd id (set_sp p) (set_ram m s) in
    let s := upd id (set_name nm) s in
    let s := upd id (set_state TASK_READY) s in
    let s := upd id (set_wake_tick 0) s in
    let s := upd id (set_cpu (-1)) s in
    let s := upd id (set_priority prio) s in
    (id, s).

Definition sched_current_name (cpu : Z) (s : sched) : Z := name (tk s (cur s cpu)).
Definition sched_current_id (cpu : Z) (s : sched) : Z := cur s cpu.
Definition sched_get_task_count (s : sched) : Z := num_tasks s.

(** [stats], unless the task does not exist *)
Definition sched_get_task_stats (id : Z) (s : sched) : option (Z * Z * task_state * Z) :=
  if (id <? 0) || (num_tasks s <=? id) then None
  else let t := tk s id in Some (name t, priority t, state t, total_ticks t).

(** "Wake sleeping tasks" *)
Definition wake_sleeper (now : Z) (t : task_tcb) : task_tcb :=
  if has TASK_SLEEPING t && (wake_tick t <=? now) then set_wake_tick 0 (set_state TASK_READY t) else t.

(** the body of the scan; the state is the scheduler, [best] and [best_prio] *)
Definition pick_body (cpu now i : Z) (st : sched * Z * Z) : sched * Z * Z :=
  let '(s, best, best_prio) := st in
  let c := (cur s cpu + 1 + i) mod num_tasks s in
  let s := upd c (wake_sleeper now) s in
  let t := tk s c in
  if (0 <=? running_on_cpu t) && negb (running_on_cpu t =? cpu) then (s, best, best_prio)
  else if has TASK_READY t && (priority t <=? best_prio) then (s, c, priority t)
  else (s, best, best_prio).

(** the search of last resort, from task [i] on *)
Fixpoint any_ready (n : nat) (i : Z) (s : sched) : option Z :=
  match n with
  | O => None
  | S n => if has TASK_READY (tk s i) && (running_on_cpu (tk s i) <? 0) then Some i else any_ready n (i + 1) s
  end.

Definition pick_next (cpu : Z) (s : sched) : Z * sched :=
  let now := systick_get_ticks s in
  let '(s, best, _) := for_loop (Z.to_nat (num_tasks s)) 0 (pick_body cpu now) (s, -1, 255) in
  if 0 <=? best then (best, s)
  else
    let c := cur s cpu in
    if has TASK_RUNNING (tk s c) || has TASK_READY (tk s c) then (c, s)
    else match any_ready (Z.to_nat (num_tasks s)) 0 s with
         | Some i => (i, s)
         | None => (c, s)
         end.

(** the stack pointer to resume *)
Definition sched_preempt (cpu old_sp : Z) (s : sched) : Z * sched :=
  let old_task := cur s cpu in
  let now := systick_get_ticks s in
  let s := upd old_task (fun t => set_total_ticks (total_ticks t +w (now -w last_switch_in t)) t) s in
  let s := upd old_task (set_sp old_sp) s in
  let s := if has TASK_RUNNING (tk s old_task)
           then upd old_task (set_cpu (-1)) (upd old_task (set_state TASK_READY) s) else s in
  let '(next, s) := pick_next cpu s in
  let s := set_cur_task (<[cpu := next]> (cur_task s)) s in
  let s := upd next (set_state TASK_RUNNING) s in
  let s := upd next (set_cpu cpu) s in
  let s := upd next (set_last_switch_in now) s in
  let s := if CONFIG_MPU then mpu_switch_task (stack_of next) TASK_STACK_SIZE s else s in
  (sp (tk s next), s).

Definition sched_sleep_ms (cpu ms : Z) (s : sched) : sched :=
  let id := cur s cpu in
  let now := systick_get_ticks s in
  let s := upd id (set_wake_tick (now +w ms)) s in
  let s := upd id (set_state TASK_SLEEPING) s in
  let s := upd id (set_cpu (-1)) s in
  sched_yield cpu s.

(** the new [wq->waiters] *)
Definition sched_block (cpu waiters : Z) (s : sched) : Z * sched :=
  let id := cur s cpu in
  let s := upd id (set_state TASK_BLOCKED) s in
  let s := upd id (set_cpu (-1)) s in
  (waiters .| u32 (Z.shiftl 1 id), s).

Fixpoint wake_loop (n : nat) (i waiters : Z) (s : sched) : Z * sched :=
  match n with
  | O => (waiters, s)
  | S n =>
      if negb (waiters .& u32 (Z.shiftl 1 i) =? 0)
      then (waiters .& .~ (u32 (Z.shiftl 1 i)), upd i (set_state TASK_READY) s)
      else wake_loop n (i + 1) waiters s
  end.

Definition sched_wake (waiters : Z) (s : sched) : Z * sched :=
  if waiters =? 0 then (waiters, s) else wake_loop (Z.to_nat (num_tasks s)) 0 waiters s.

Definition sched_wake_all (waiters : Z) (s : sched) : Z * sched :=
  (0, for_loop (Z.to_nat (num_tasks s)) 0 (fun i s =>
        if negb (waiters .& u32 (Z.shiftl 1 i) =? 0) then upd i (set_state TASK_READY) s else s) s).

(** the address jumped to and the process stack pointer, unless there is no task *)
Definition sched_start (cpu : Z) (s : sched) : option (Z * Z) * sched :=
  if num_tasks s =? 0 then (None, s)
  else
    let s := set_cur_task (<[cpu := 0]> (cur_task s)) s in
    let s := upd 0 (set_state TASK_RUNNING) s in
    let s := upd 0 (set_cpu cpu) s in
    let p := sp (tk s 0) in
    (Some (ld32 (ram s) (p + 56), p + 64), s).
End code.

(** * The array *)

Lemma tk_upd i f s j : tk (upd i f s) j = if decide (i = j) then f (tk s i) else tk s j.
Proof. unfold tk at 1, upd. cbn. rewrite lookup_insert. case_decide; [done|]. done. Qed.

Lemma tk_upd_eq i f s : tk (upd i f s) i = f (tk s i).
Proof. rewrite tk_upd. by case_decide. Qed.

Lemma tk_upd_ne i f s j : i <> j -> tk (upd i f s) j = tk s j.
Proof. rewrite tk_upd. by case_decide. Qed.

Lemma upd_upd i f g s : upd i f (upd i g s) = upd i (f ∘ g) s.
Proof.
  unfold upd at 1. rewrite tk_upd_eq. unfold upd, set_tasks. cbn [tasks num_tasks cur_task pendsv tick_count mpu_region2 ram].
  by rewrite insert_insert_eq.
Qed.

Lemma upd_ext i f g s : f (tk s i) = g (tk s i) -> upd i f s = upd i g s.
Proof. unfold upd. by intros ->. Qed.

(** [s'] differs from [s] in the tasks only. *)
Definition only_tasks (s s' : sched) : Prop := s' = set_tasks (tasks s') s.

#[export] Instance only_tasks_preorder : PreOrder only_tasks.
Proof. split; [by intros []|]. unfold only_tasks. by intros [] ? ? -> ->. Qed.

Lemma only_tasks_upd i f s : only_tasks s (upd i f s).
Proof. done. Qed.

Lemma only_tasks_num s s' : only_tasks s s' -> num_tasks s' = num_tasks s.
Proof. by intros ->. Qed.

Lemma only_tasks_cur s s' cpu : only_tasks s s' -> cur s' cpu = cur s cpu.
Proof. by intros ->. Qed.

Lemma has_true st t : has st t = true <-> state t = st.
Proof. apply bool_decide_eq_true. Qed.

Lemma has_false st t : has st t = false <-> state t <> st.
Proof. apply bool_decide_eq_false. Qed.

(** * The choice *)

(** position of task [c] in the scan that starts after the current task *)
Definition dist (s : sched) (cpu c : Z) : Z := (c - cur s cpu - 1) mod num_tasks s.

(** a task this core may run next *)
Definition runnable (cpu : Z) (t : task_tcb) : Prop :=
  state t = TASK_READY /\ (running_on_cpu t < 0 \/ running_on_cpu t = cpu) /\ priority t <= 255.

#[export] Instance runnable_dec cpu t : Decision (runnable cpu t).
Proof. unfold runnable. apply _. Defined.

(** the tasks once the sleepers whose time has come are awake *)
Definition awake (s : sched) (c : Z) : task_tcb :=
  if decide (0 <= c < num_tasks s) then wake_sleeper (tick_count s) (tk s c) else tk s c.

(** [r] is the most urgent runnable task among [P], the last one in the scan. *)
Definition most_urgent (s : sched) (cpu : Z) (P : Z -> Prop) (r : Z) : Prop :=
  P r /\ runnable cpu (awake s r) /\
  forall c, P c -> runnable cpu (awake s c) -> c <> r ->
    priority (awake s r) < priority (awake s c) \/
    priority (awake s r) = priority (awake s c) /\ dist s cpu c < dist s cpu r.

Definition task_ids (s : sched) (c : Z) : Prop := 0 <= c < num_tasks s.

Lemma dist_scan s cpu i : 0 <= i < num_tasks s -> dist s cpu ((cur s cpu + 1 + i) mod num_tasks s) = i.
Proof.
  intros Hi. unfold dist. rewrite <- Z.sub_add_distr, Zminus_mod_idemp_l.
  replace (cur s cpu + 1 + i - (cur s cpu + 1)) with i by lia. by apply Z.mod_small.
Qed.

Lemma dist_inj s cpu c d : task_ids s c -> task_ids s d -> dist s cpu c = dist s cpu d -> c = d.
Proof.
  unfold task_ids, dist. intros Hc Hd Heq.
  assert ((c - d) mod num_tasks s = 0) as Hm.
  { replace (c - d) with ((c - cur s cpu - 1) - (d - cur s cpu - 1)) by lia.
    rewrite Zminus_mod, Heq, Z.sub_diag. apply Zmod_0_l. }
  apply Z.mod_divide in Hm as [k Hk]; [|lia]. assert (k = 0) by nia. lia.
Qed.

Lemma prio_dist_range s cpu c : 0 < num_tasks s -> 0 <= dist s cpu c < num_tasks s.
Proof. intros. unfold dist. apply Z.mod_pos_bound. lia. Qed.

(** the current task is the last one scanned *)
Lemma dist_cur s cpu : task_ids s (cur s cpu) -> dist s cpu (cur s cpu) = num_tasks s - 1.
Proof.
  unfold task_ids, dist. intros Hc. replace (cur s cpu - cur s cpu - 1) with (-1) by lia.
  symmetry. apply (Z.mod_unique_pos _ _ (-1)); lia.
Qed.

(** what the first [k] rounds of the scan have done *)
Record scanned (cpu : Z) (s : sched) (k : Z) (st : sched * Z * Z) : Prop := {
  sc_only : only_tasks s st.1.1;
  sc_tk : forall c, tk st.1.1 c = if decide (task_ids s c /\ dist s cpu c < k) then awake s c else tk s c;
  sc_best :
    if decide (st.1.2 = -1)
    then st.2 = 255 /\ forall c, task_ids s c /\ dist s cpu c < k -> ~ runnable cpu (awake s c)
    else st.2 = priority (awake s st.1.2) /\ most_urgent s cpu (fun c => task_ids s c /\ dist s cpu c < k) st.1.2;
}.

Lemma pick_body_scanned cpu s k st : 0 <= k < num_tasks s ->
  scanned cpu s k st -> scanned cpu s (k + 1) (pick_body cpu (tick_count s) k st).
Proof.
  destruct st as [[t best] bp]. intros Hk [Ho Htk Hb]. cbn [fst snd] in *. unfold pick_body.
  rewrite (only_tasks_num _ _ Ho), (only_tasks_cur _ _ cpu Ho). pose proof (dist_scan s cpu k Hk) as Hd.
  set (c := (cur s cpu + 1 + k) mod num_tasks s) in *.
  assert (task_ids s c) as Hc by (apply Z.mod_pos_bound; lia).
  assert (forall d, task_ids s d /\ dist s cpu d < k + 1 <-> d = c \/ task_ids s d /\ dist s cpu d < k) as Hnext.
  { intros d. split; [|intros [->|[? ?]]; split; (done || lia)]. intros [Hd1 Hd2].
    destruct (decide (dist s cpu d = k)); [left; apply (dist_inj s cpu); [done..|lia]|right; split; [done|lia]]. }
  assert (tk t c = tk s c) as Htc by (rewrite Htk, decide_False; [done|lia]).
  assert (tk (upd c (wake_sleeper (tick_count s)) t) c = awake s c) as Hwc.
  { rewrite tk_upd_eq, Htc. unfold awake. by rewrite decide_True by exact Hc. }
  assert (forall d, tk (upd c (wake_sleeper (tick_count s)) t) d =
            if decide (task_ids s d /\ dist s cpu d < k + 1) then awake s d else tk s d) as Htk'.
  { intros d. destruct (decide (c = d)) as [<-|Hne].
    - rewrite decide_True by (split; [done|lia]). exact Hwc.
    - rewrite tk_upd_ne, Htk by done. apply decide_ext. rewrite Hnext. naive_solver. }
  assert (only_tasks s (upd c (wake_sleeper (tick_count s)) t)) as Ho' by (etrans; [exact Ho|apply only_tasks_upd]).
  rewrite Hwc.
  assert (Hskip : ~ runnable cpu (awake s c) \/ best <> -1 /\ bp < priority (awake s c) ->
     scanned cpu s (k + 1) (upd c (wake_sleeper (tick_count s)) t, best, bp)).
  { intros Hno. split; [exact Ho'|exact Htk'|]. cbn [fst snd]. case_decide as Hbest.
    - destruct Hb as [-> Hb]. split; [done|]. intros d [->|Hd']%Hnext; [naive_solver|by apply Hb].
    - destruct Hb as [-> (Hb1 & Hb2 & Hb3)]. split; [done|]. split; [by apply Hnext; right|]. split; [done|].
      intros d [->|Hd']%Hnext Hr Hdne; [naive_solver|by apply Hb3]. }
  destruct ((0 <=? running_on_cpu (awake s c)) && negb (running_on_cpu (awake s c) =? cpu)) eqn:Hother.
  { apply Hskip. left. unfold runnable. lia. }
  destruct (has TASK_READY (awake s c) && (priority (awake s c) <=? bp)) eqn:Htake.
  - apply andb_true_iff in Htake as [Hready%has_true Hprio].
    assert (bp <= 255) as Hbp. { case_decide; [lia|]. destruct Hb as [-> (_ & (_ & _ & ?) & _)]. done. }
    split; [exact Ho'|exact Htk'|]. cbn [fst snd]. rewrite decide_False by (unfold task_ids in Hc; lia).
    split; [done|]. split; [by apply Hnext; left|]. split.
    { split; [done|]. lia. }
    intros d [->|Hd']%Hnext Hr Hdne; [done|]. case_decide.
    + destruct Hb as [_ Hb]. by destruct (Hb d Hd').
    + destruct Hb as [-> (_ & _ & Hb)]. destruct (decide (d = best)) as [->|Hne]; [lia|].
      specialize (Hb d Hd' Hr Hne). lia.
  - apply Hskip. apply andb_false_iff in Htake as [?%has_false|Hprio]; [left; unfold runnable; naive_solver|].
    case_decide as Hbest; [left; unfold runnable|right]; lia.
Qed.

Lemma any_ready_none cpu s n i : (forall c, i <= c < i + Z.of_nat n -> ~ runnable cpu (tk s c)) ->
  (forall c, priority (tk s c) <= 255) -> any_ready n i s = None.
Proof.
  intros Hno Hp. revert i Hno. induction n as [|n IH]; intros i Hno; cbn [any_ready]; [done|].
  destruct (has TASK_READY (tk s i) && (running_on_cpu (tk s i) <? 0)) eqn:E.
  - apply andb_true_iff in E as [E%has_true ?]. destruct (Hno i); [lia|]. split; [done|]. split; [lia|apply Hp].
  - apply IH. intros c Hc. apply Hno. lia.
Qed.

(** Priorities are bytes. *)
Definition prio_ok (s : sched) : Prop := forall c, priority (tk s c) <= 255.

Lemma awake_priority s c : priority (awake s c) = priority (tk s c).
Proof. unfold awake, wake_sleeper. case_decide; [|done]. by destruct (has _ _ && _). Qed.

(** the result of [pick_next]: the most urgent runnable task, or the current
    one when there is none *)
Definition picked (s : sched) (cpu r : Z) : Prop :=
  most_urgent s cpu (task_ids s) r \/ (forall c, task_ids s c -> ~ runnable cpu (awake s c)) /\ r = cur s cpu.

Lemma rtos_pick_next_spec cpu s : task_ids s (cur s cpu) -> prio_ok s ->
  let '(r, s') := pick_next cpu s in
  only_tasks s s' /\ (forall c, tk s' c = awake s c) /\ task_ids s r /\ picked s cpu r.
Proof.
  intros Hcur Hp. unfold task_ids in Hcur. unfold pick_next, systick_get_ticks.
  pose proof (for_loop_ind (scanned cpu s) (Z.to_nat (num_tasks s)) 0 (pick_body cpu (tick_count s)) (s, -1, 255)) as Hl.
  destruct (for_loop _ _ _ _) as [[t best] bp]. destruct Hl as [Ho Htk Hb].
  { split; [done| |].
    - intros c. rewrite decide_False; [done|]. intros [? ?]. pose proof (prio_dist_range s cpu c). lia.
    - cbn. split; [done|]. intros c [? ?]. pose proof (prio_dist_range s cpu c). lia. }
  { intros k st Hk. apply pick_body_scanned. lia. }
  cbn [fst snd] in *. rewrite Z.add_0_l, Z2Nat.id in * by lia.
  assert (forall c, task_ids s c /\ dist s cpu c < num_tasks s <-> task_ids s c) as Hall.
  { intros c. split; [naive_solver|]. intros Hc. split; [done|]. apply prio_dist_range. lia. }
  assert (forall c, tk t c = awake s c) as Htk'.
  { intros c. rewrite Htk. destruct (decide (task_ids s c /\ dist s cpu c < num_tasks s)) as [Hc|Hc]; [done|]. rewrite Hall in Hc. unfold awake. by rewrite decide_False. }
  case_decide as Hbest.
  - subst best. cbn [Z.leb Z.compare]. rewrite (only_tasks_cur _ _ cpu Ho), (only_tasks_num _ _ Ho).
    destruct Hb as [_ Hb]. setoid_rewrite Hall in Hb.
    rewrite (any_ready_none cpu); [| |].
    + destruct (_ || _); (split; [done|split; [done|split; [done|by right]]]).
    + intros c Hc. rewrite Htk'. apply Hb. unfold task_ids. lia.
    + intros c. rewrite Htk', awake_priority. apply Hp.
  - destruct Hb as [_ (Hb1 & Hb2 & Hb3)]. rewrite Hall in Hb1. setoid_rewrite Hall in Hb3.
    rewrite (proj2 (Z.leb_le _ _)) by (unfold task_ids in Hb1; lia). split; [done|]. split; [done|]. split; [done|].
    left. split; [done|]. by split.
Qed.

(** * The switch *)

(** the outgoing task when PendSV takes it off the core *)
Definition outgoing (now old_sp : Z) (t : task_tcb) : task_tcb :=
  let t := set_sp old_sp (set_total_ticks (total_ticks t +w (now -w last_switch_in t)) t) in
  if has TASK_RUNNING t then set_cpu (-1) (set_state TASK_READY t) else t.

(** the incoming task *)
Definition incoming (now cpu : Z) (t : task_tcb) : task_tcb :=
  set_last_switch_in now (set_cpu cpu (set_state TASK_RUNNING t)).

Definition requeue (cpu old_sp : Z) (s : sched) : sched := upd (cur s cpu) (outgoing (tick_count s) old_sp) s.

Lemma outgoing_priority now p t : priority (outgoing now p t) = priority t.
Proof. unfold outgoing. by destruct (has _ _). Qed.

Lemma requeue_priority cpu p s c : priority (tk (requeue cpu p s) c) = priority (tk s c).
Proof. unfold requeue. rewrite tk_upd. destruct (decide (cur s cpu = c)) as [->|]; [apply outgoing_priority|done]. Qed.

Lemma requeue_prio cpu p s : prio_ok s -> prio_ok (requeue cpu p s).
Proof. intros Hp c. rewrite requeue_priority. apply Hp. Qed.

(** Everything but the tasks, the current task of [cpu] and the stack region is kept. *)
Record same_but (cpu : Z) (s s' : sched) : Prop := {
  sb_num : num_tasks s' = num_tasks s;
  sb_cur : forall d, d <> cpu -> cur s' d = cur s d;
  sb_pendsv : pendsv s' = pendsv s;
  sb_tick : tick_count s' = tick_count s;
  sb_ram : ram s' = ram s;
}.

Section switch.
Context `{Config}.
Implicit Types (s : sched) (cpu p : Z).

Lemma requeue_eq cpu old_sp s :
  let s1 := upd (cur s cpu) (set_sp old_sp)
              (upd (cur s cpu) (fun t => set_total_ticks (total_ticks t +w (tick_count s -w last_switch_in t)) t) s) in
  (if has TASK_RUNNING (tk s1 (cur s cpu))
   then upd (cur s cpu) (set_cpu (-1)) (upd (cur s cpu) (set_state TASK_READY) s1) else s1) = requeue cpu old_sp s.
Proof.
  cbn zeta. rewrite !upd_upd, tk_upd_eq. unfold requeue. destruct (has TASK_RUNNING _) eqn:E.
  - apply upd_ext. unfold outgoing, compose in *. by rewrite E.
  - apply upd_ext. unfold outgoing, compose in *. by rewrite E.
Qed.

Lemma sched_preempt_spec cpu old_sp s : task_ids s (cur s cpu) -> prio_ok s ->
  let '(p, s') := sched_preempt cpu old_sp s in
  exists r, task_ids s r /\ picked (requeue cpu old_sp s) cpu r /\ p = sp (tk (requeue cpu old_sp s) r) /\
    cur s' cpu = r /\ same_but cpu s s' /\
    forall c, tk s' c = if decide (c = r) then incoming (tick_count s) cpu (awake (requeue cpu old_sp s) c)
                        else awake (requeue cpu old_sp s) c.
Proof.
  intros Hcur Hp. unfold sched_preempt. cbn zeta. rewrite requeue_eq.
  pose proof (rtos_pick_next_spec cpu (requeue cpu old_sp s) Hcur (requeue_prio _ _ _ Hp)) as Hn.
  destruct (pick_next cpu (requeue cpu old_sp s)) as [r t]. destruct Hn as (Ho & Htk & Hr & Hpick).
  set (u := if CONFIG_MPU then _ else _). exists r.
  assert (forall c, tk u c = if decide (c = r) then incoming (tick_count s) cpu (awake (requeue cpu old_sp s) c)
                             else awake (requeue cpu old_sp s) c) as Hu.
  { intros c. rewrite <- Htk.
    trans (tk (upd r (incoming (tick_count s) cpu) t) c).
    - unfold u. rewrite !upd_upd. by destruct CONFIG_MPU.
    - rewrite tk_upd. destruct (decide (r = c)) as [->|Hne]; [by rewrite decide_True|by rewrite decide_False]. }
  split; [exact Hr|]. split; [exact Hpick|]. split.
  { rewrite Hu, decide_True by done. unfold incoming. cbn. unfold awake, wake_sleeper. case_decide; [|done].
    by destruct (_ && _). }
  split; [unfold u, mpu_switch_task; destruct CONFIG_MPU; unfold cur; cbn; by rewrite lookup_insert_eq|].
  split; [|exact Hu]. unfold u, mpu_switch_task. split; try intros d Hd; unfold cur; destruct CONFIG_MPU; cbn; rewrite ?lookup_insert_ne by done; rewrite Ho; done.
Qed.
End switch.

(** * Theorems *)

Lemma wake_sleeper_state now t st : state (wake_sleeper now t) = st ->
  state t = st \/ st = TASK_READY /\ state t = TASK_SLEEPING /\ wake_tick t <= now.
Proof.
  unfold wake_sleeper. destruct (has TASK_SLEEPING t && (wake_tick t <=? now)) eqn:E; [|by left].
  apply andb_true_iff in E as [E%has_true ?]. intros <-. right. split; [done|]. split; [done|lia].
Qed.

Lemma awake_state s c st : state (awake s c) = st ->
  state (tk s c) = st \/ st = TASK_READY /\ state (tk s c) = TASK_SLEEPING /\ wake_tick (tk s c) <= tick_count s.
Proof. unfold awake. case_decide; [apply wake_sleeper_state|by left]. Qed.

Lemma awake_not_due s c : task_ids s c -> state (awake s c) = TASK_SLEEPING -> tick_count s < wake_tick (awake s c).
Proof.
  intros Hc. unfold awake. rewrite decide_True by exact Hc. unfold wake_sleeper.
  destruct (has TASK_SLEEPING (tk s c) && (wake_tick (tk s c) <=? tick_count s)) eqn:E; [done|].
  intros Hs%has_true. rewrite Hs in E. cbn in E. lia.
Qed.

Lemma awake_sp s c : sp (awake s c) = sp (tk s c).
Proof. unfold awake, wake_sleeper. case_decide; [|done]. by destruct (_ && _). Qed.

Lemma awake_cpu s c : running_on_cpu (awake s c) = running_on_cpu (tk s c).
Proof. unfold awake, wake_sleeper. case_decide; [|done]. by destruct (_ && _). Qed.

Lemma outgoing_sp now p t : sp (outgoing now p t) = p.
Proof. unfold outgoing. by destruct (has _ _). Qed.

(** The current task, put back by the switch, is a candidate of it. *)
Lemma requeue_cur_runnable cpu p s : task_ids s (cur s cpu) -> prio_ok s -> state (tk s (cur s cpu)) = TASK_RUNNING ->
  runnable cpu (awake (requeue cpu p s) (cur s cpu)).
Proof.
  intros Hc Hp Hr. assert (tk (requeue cpu p s) (cur s cpu) = outgoing (tick_count s) p (tk s (cur s cpu))) as E by apply tk_upd_eq.
  unfold awake. rewrite decide_True by exact Hc. rewrite E. unfold outgoing. cbn zeta. rewrite (proj2 (has_true _ _)) by done.
  unfold wake_sleeper. cbn [has state set_cpu set_state]. unfold has. rewrite bool_decide_false by done. cbn [andb].
  split; [done|]. split; [left; cbn; lia|apply Hp].
Qed.

(** The sleep of [t] is over at time [now]. *)
Definition due (now : Z) (t : task_tcb) : Prop := state t = TASK_SLEEPING /\ wake_tick t <= now.

#[export] Instance due_dec now t : Decision (due now t).
Proof. unfold due. apply _. Defined.

(** Task [t] waits for a turn on [cpu]: it is ready, or about to be woken, and no
    other core has it. *)
Definition waiting (cpu now : Z) (t : task_tcb) : Prop :=
  (state t = TASK_READY \/ due now t) /\ (running_on_cpu t < 0 \/ running_on_cpu t = cpu).

(** Field by field, what a switch on [cpu] at time [now] makes of a task:
    [was_cur] says it had the core, [is_next] that it gets it. *)
Definition tcb_after (cpu now old_sp : Z) (was_cur is_next : Prop) `{Decision was_cur, Decision is_next} (t : task_tcb) : task_tcb :=
  {| sp := if decide was_cur then old_sp else sp t;
     name := name t;
     state := if decide is_next then TASK_RUNNING
              else if decide (was_cur /\ state t = TASK_RUNNING \/ due now t) then TASK_READY else state t;
     wake_tick := if decide (due now t) then 0 else wake_tick t;
     running_on_cpu := if decide is_next then cpu
                       else if decide (was_cur /\ state t = TASK_RUNNING) then -1 else running_on_cpu t;
     priority := priority t;
     fn := fn t;
     total_ticks := if decide was_cur then total_ticks t +w (now -w last_switch_in t) else total_ticks t;
     last_switch_in := if decide is_next then now else last_switch_in t |}.

(** What the rest of the system sees of the switch on [cpu] that stored [old_sp]
    and went to task [r] with stack pointer [p]. *)
Record switched (cpu old_sp p r : Z) (s s' : sched) : Prop := {
  sw_id : task_ids s r;
  sw_cur : cur s' cpu = r;
  sw_run : state (tk s' r) = TASK_RUNNING /\ running_on_cpu (tk s' r) = cpu;
  (** the stack pointer loaded is the one saved when the task was last switched out *)
  sw_sp : p = sp (tk s' r) /\ forall c, sp (tk s' c) = if decide (c = cur s cpu) then old_sp else sp (tk s c);
  (** no other ready task of this core is more urgent *)
  sw_urgent : forall c, task_ids s c -> c <> r -> state (tk s' c) = TASK_READY ->
    running_on_cpu (tk s' c) < 0 \/ running_on_cpu (tk s' c) = cpu -> priority (tk s' r) <= priority (tk s' c);
  (** no task sleeps past its time *)
  sw_due : forall c, task_ids s c -> state (tk s' c) = TASK_SLEEPING -> tick_count s < wake_tick (tk s' c);
  sw_prio : forall c, priority (tk s' c) = priority (tk s c);
  (** the task was waiting for the core, or has it already and nobody else does
      or it is running *)
  sw_ready : waiting cpu (tick_count s) (tk s r) \/
    r = cur s cpu /\ (state (tk s r) = TASK_RUNNING \/ forall c, task_ids s c -> ~ waiting cpu (tick_count s) (tk s c));
  (** every field of every task: the outgoing task and the incoming one apart,
      only tasks whose sleep is over change *)
  sw_tasks : forall c, tk s' c =
    if decide (task_ids s c) then tcb_after cpu (tick_count s) old_sp (c = cur s cpu) (c = r) (tk s c) else tk s c;
  sw_same : same_but cpu s s';
}.

(** the task after the sleepers are woken and the outgoing one is put back *)
Lemma awake_requeue cpu old_sp s c : task_ids s c -> c <> cur s cpu ->
  awake (requeue cpu old_sp s) c = wake_sleeper (tick_count s) (tk s c).
Proof.
  intros Hc Hne. unfold awake. rewrite decide_True by exact Hc. unfold requeue. by rewrite tk_upd_ne by done.
Qed.

Lemma awake_requeue_cur cpu old_sp s : task_ids s (cur s cpu) ->
  awake (requeue cpu old_sp s) (cur s cpu) = wake_sleeper (tick_count s) (outgoing (tick_count s) old_sp (tk s (cur s cpu))).
Proof. intros Hc. unfold awake. rewrite decide_True by exact Hc. unfold requeue. by rewrite tk_upd_eq. Qed.

Lemma due_iff now t : has TASK_SLEEPING t && (wake_tick t <=? now) = bool_decide (due now t).
Proof. apply Bool.eq_iff_eq_true. by rewrite bool_decide_eq_true, andb_true_iff, has_true, Z.leb_le. Qed.

(** Two tasks with the same fields are the same: each field is a case analysis. *)
Ltac tcb_cases := f_equal; repeat case_decide; unfold due in *; cbn in *; (done || congruence || tauto || naive_solver).

Lemma wake_sleeper_after cpu now old_sp t : wake_sleeper now t = tcb_after cpu now old_sp False False t.
Proof.
  unfold wake_sleeper, tcb_after. rewrite due_iff. destruct t. case_bool_decide; cbn [set_wake_tick set_state]; tcb_cases.
Qed.

Lemma outgoing_after cpu now old_sp t : wake_sleeper now (outgoing now old_sp t) = tcb_after cpu now old_sp True False t.
Proof.
  unfold outgoing. cbn zeta. destruct (has TASK_RUNNING _) eqn:Er.
  - apply has_true in Er. cbn in Er. unfold wake_sleeper. rewrite due_iff. rewrite bool_decide_false by (by intros []).
    unfold tcb_after. destruct t. cbn in Er. subst. cbn. tcb_cases.
  - apply has_false in Er. cbn in Er. rewrite (wake_sleeper_after cpu now old_sp). unfold tcb_after. destruct t. cbn in *. tcb_cases.
Qed.

Lemma incoming_after cpu now old_sp (was_cur : Prop) `{Decision was_cur} t :
  incoming now cpu (tcb_after cpu now old_sp was_cur False t) = tcb_after cpu now old_sp was_cur True t.
Proof. unfold incoming, tcb_after. by rewrite !(decide_True (P := True)) by done. Qed.

Lemma tcb_after_ext cpu now old_sp (P P' Q Q' : Prop) `{Decision P, Decision P', Decision Q, Decision Q'} t :
  (P <-> P') -> (Q <-> Q') -> tcb_after cpu now old_sp P Q t = tcb_after cpu now old_sp P' Q' t.
Proof. intros HP HQ. unfold tcb_after. f_equal; repeat (apply decide_ext || case_decide); tauto. Qed.

(** what the scan took for runnable was waiting *)
Lemma awake_waiting cpu s c : state (awake s c) = TASK_READY -> running_on_cpu (awake s c) < 0 \/ running_on_cpu (awake s c) = cpu ->
  waiting cpu (tick_count s) (tk s c).
Proof.
  intros Hst Hcpu. rewrite awake_cpu in Hcpu. split; [|done]. apply awake_state in Hst as [?|(_ & ? & ?)]; [by left|by right].
Qed.

Lemma waiting_awake cpu s c : task_ids s c -> waiting cpu (tick_count s) (tk s c) -> prio_ok s -> runnable cpu (awake s c).
Proof.
  intros Hc [Hst Hcpu] Hp. split; [|split; [by rewrite awake_cpu|rewrite awake_priority; apply Hp]].
  unfold awake. rewrite decide_True by exact Hc. unfold wake_sleeper. rewrite due_iff.
  case_bool_decide; [done|]. tauto.
Qed.

Section theorems.
Context `{Config}.

(** The task after the requeue is the one before, or was running before it. *)
Lemma requeue_waiting cpu old_sp s c : waiting cpu (tick_count s) (tk (requeue cpu old_sp s) c) ->
  waiting cpu (tick_count s) (tk s c) \/ c = cur s cpu /\ state (tk s c) = TASK_RUNNING.
Proof.
  unfold requeue. destruct (decide (cur s cpu = c)) as [<-|Hne]; [rewrite tk_upd_eq|rewrite tk_upd_ne by done; by left].
  unfold outgoing. cbn zeta. destruct (has TASK_RUNNING _) eqn:Er; [apply has_true in Er; by right|by left].
Qed.

Lemma waiting_requeue cpu old_sp s c : waiting cpu (tick_count s) (tk s c) -> waiting cpu (tick_count s) (tk (requeue cpu old_sp s) c).
Proof.
  unfold requeue. destruct (decide (cur s cpu = c)) as [<-|Hne]; [rewrite tk_upd_eq|by rewrite tk_upd_ne by done].
  unfold outgoing. cbn zeta. destruct (has TASK_RUNNING _) eqn:Er; [|done].
  intros _. split; [by left|]. cbn. left. lia.
Qed.

Lemma requeue_sp cpu p s c : sp (tk (requeue cpu p s) c) = if decide (c = cur s cpu) then p else sp (tk s c).
Proof.
  unfold requeue. rewrite tk_upd. destruct (decide (cur s cpu = c)) as [->|Hne].
  - by rewrite decide_True, outgoing_sp.
  - by rewrite decide_False.
Qed.

Lemma sched_preempt_switched cpu old_sp s : task_ids s (cur s cpu) -> prio_ok s ->
  exists r, (r = cur s cpu \/ runnable cpu (awake (requeue cpu old_sp s) r)) /\
    switched cpu old_sp (sched_preempt cpu old_sp s).1 r s (sched_preempt cpu old_sp s).2.
Proof.
  intros Hc Hp. pose proof (sched_preempt_spec cpu old_sp s Hc Hp) as Hs.
  destruct (sched_preempt cpu old_sp s) as [p s']. destruct Hs as (r & Hr & Hpick & -> & Hcur & Hsame & Htk).
  exists r. split; [destruct Hpick as [(_ & ? & _)|[_ ->]]; [by right|by left]|].
  assert (forall c, sp (tk s' c) = sp (tk (requeue cpu old_sp s) c)) as Hsp.
  { intros c. rewrite Htk. case_decide; cbn; by rewrite awake_sp. }
  split; cbn [fst snd].
  - done.
  - done.
  - by rewrite Htk, decide_True.
  - split; [by rewrite Hsp|]. intros c. by rewrite Hsp, requeue_sp.
  - intros c Hcs Hne. rewrite !Htk. rewrite (decide_False (P := c = r)), (decide_True (P := r = r)) by done. intros Hst Hcpu. cbn.
    destruct (decide (priority (awake (requeue cpu old_sp s) c) <= 255)) as [Hle|Hgt].
    + assert (runnable cpu (awake (requeue cpu old_sp s) c)) as Hrun by done.
      destruct Hpick as [(_ & _ & Hu)|[Hno _]]; [|by destruct (Hno c Hcs)]. specialize (Hu c Hcs Hrun Hne). lia.
    + rewrite !awake_priority in *. pose proof (requeue_prio cpu old_sp s Hp c). lia.
  - intros c Hcs. rewrite Htk. case_decide; [done|]. intros Hst. by apply (awake_not_due (requeue cpu old_sp s)).
  - intros c. rewrite Htk. case_decide; cbn; rewrite awake_priority; apply requeue_priority.
  - destruct Hpick as [(_ & (Hst & Hcpu & _) & _)|[Hno ->]].
    + apply (awake_waiting cpu), (requeue_waiting cpu old_sp s r) in Hst as [?|[? ?]]; [by left|right; by auto|done].
    + right. split; [done|]. right. intros c Hcs Hw. apply (Hno c Hcs), (waiting_awake cpu); [done| |by apply requeue_prio].
      by apply (waiting_requeue cpu old_sp s c).
  - intros c. rewrite Htk. destruct (decide (task_ids s c)) as [Hcs|Hcs].
    + assert (awake (requeue cpu old_sp s) c = tcb_after cpu (tick_count s) old_sp (c = cur s cpu) False (tk s c)) as Ha.
      { destruct (decide (c = cur s cpu)) as [->|Hne].
        - rewrite awake_requeue_cur, (outgoing_after cpu) by done. by apply tcb_after_ext.
        - rewrite awake_requeue, (wake_sleeper_after cpu _ old_sp) by done. by apply tcb_after_ext. }
      rewrite Ha. destruct (decide (c = r)) as [->|Hne]; [rewrite incoming_after|]; by apply tcb_after_ext.
    + rewrite decide_False by (intros ->; done). unfold awake. rewrite decide_False by exact Hcs. unfold requeue.
      by rewrite tk_upd_ne by (intros <-; done).
  - done.
Qed.

(** C35. [sched_preempt] runs the most urgent waiting task: the task it switches
    to is a task of the table that was ready, or whose sleep is over, and that no
    other core runs (or the one that has the core already, when it is running or
    when nothing waits); it becomes the core's current task and is marked
    running there; the stack pointer returned is the one that task was last
    switched out with, and the outgoing task's is saved; every other ready task
    of the core has a priority number at least as large; no task sleeps past its
    time.  Every field of every task is accounted for: the outgoing task is
    ready again if it was running and is charged its ticks, a task whose sleep is
    over becomes ready, and all other tasks, the other cores, memory and the
    clock are as they were. *)
Theorem sched_preempt_correct cpu old_sp s (Hcur : task_ids s (cur s cpu)) (Hprio : prio_ok s) :
  exists r, switched cpu old_sp (sched_preempt cpu old_sp s).1 r s (sched_preempt cpu old_sp s).2.
Proof. destruct (sched_preempt_switched cpu old_sp s Hcur Hprio) as (r & _ & Hr). by exists r. Qed.

(** [cpu] is interrupted by its timer and switches, once for each of [sps], the
    stack pointers at those moments. *)
Fixpoint time_slices (cpu : Z) (sps : list Z) (s : sched) : sched :=
  match sps with
  | [] => s
  | p :: sps => time_slices cpu sps (sched_preempt cpu p (systick_handler cpu s)).2
  end.

(** The current task runs, and no task that is ready or asleep is more urgent. *)
Record unrivalled (cpu : Z) (s : sched) : Prop := {
  ur_cur : task_ids s (cur s cpu);
  ur_prio : prio_ok s;
  ur_run : state (tk s (cur s cpu)) = TASK_RUNNING;
  ur_min : forall c, task_ids s c -> state (tk s c) = TASK_READY \/ state (tk s c) = TASK_SLEEPING ->
    priority (tk s (cur s cpu)) <= priority (tk s c);
}.

Lemma unrivalled_stays cpu p s : unrivalled cpu s ->
  unrivalled cpu (sched_preempt cpu p s).2 /\ cur (sched_preempt cpu p s).2 cpu = cur s cpu.
Proof.
  intros [Hc Hp Hrun Hmin]. pose proof (sched_preempt_spec cpu p s Hc Hp) as Hs.
  destruct (sched_preempt cpu p s) as [q s']. destruct Hs as (r & Hr & Hpick & _ & Hcur & [Hn _ _ _ _] & Htk). cbn [snd].
  pose proof (requeue_cur_runnable cpu p s Hc Hp Hrun) as Hrq.
  assert (forall c, priority (awake (requeue cpu p s) c) = priority (tk s c)) as Hpr.
  { intros c. rewrite awake_priority. apply requeue_priority. }
  assert (forall c, c <> cur s cpu -> tk (requeue cpu p s) c = tk s c) as Hoth by (intros c Hne; by apply tk_upd_ne).
  assert (r = cur s cpu) as ->.
  { destruct Hpick as [(_ & [Hst _] & Hu)|[Hno _]]; [|by destruct (Hno (cur s cpu) Hc)].
    destruct (decide (r = cur s cpu)) as [|Hne]; [done|exfalso].
    assert (priority (tk s (cur s cpu)) <= priority (tk s r)).
    { apply Hmin; [done|]. apply awake_state in Hst. rewrite Hoth in Hst by done. naive_solver. }
    assert (dist (requeue cpu p s) cpu (cur s cpu) = num_tasks s - 1) as Hd by exact (dist_cur (requeue cpu p s) cpu Hc).
    pose proof (prio_dist_range (requeue cpu p s) cpu r) as Hdr. cbn [num_tasks requeue upd set_tasks] in Hdr.
    specialize (Hu (cur s cpu) Hc Hrq (not_eq_sym Hne)). rewrite !Hpr in Hu. unfold task_ids in Hc. lia. }
  assert (forall c, priority (tk s' c) = priority (tk s c)) as Hps by (intros c; rewrite Htk; case_decide; apply Hpr).
  split; [|done]. split.
  - unfold task_ids. by rewrite Hn, Hcur.
  - intros c. rewrite Hps. apply Hp.
  - by rewrite Hcur, Htk, decide_True.
  - intros c Hcs Hst. rewrite Hcur, !Hps. unfold task_ids in Hcs. rewrite Hn in Hcs.
    destruct (decide (c = cur s cpu)) as [->|Hne]; [done|]. apply Hmin; [done|].
    rewrite Htk, decide_False in Hst by done.
    destruct Hst as [Hst|Hst]; apply awake_state in Hst; rewrite Hoth in Hst by done; naive_solver.
Qed.

(** Tasks of equal priority do not take turns: from a state in which the
    running task has no more urgent rival, however many timer interrupts and
    switches follow, the core stays on that task, so a ready task of the same
    priority never runs. *)
Theorem equal_priority_never_rotates cpu sps s (Hun : unrivalled cpu s) :
  cur (time_slices cpu sps s) cpu = cur s cpu /\
  forall c, task_ids s c -> c <> cur s cpu -> cur (time_slices cpu sps s) cpu <> c.
Proof.
  assert (cur (time_slices cpu sps s) cpu = cur s cpu) as E; [|by rewrite E; split; [|naive_solver]].
  revert s Hun. induction sps as [|p sps IH]; intros s Hun; cbn [time_slices]; [done|].
  assert (unrivalled cpu (systick_handler cpu s)) as Hun' by (destruct Hun; split; done).
  destruct (unrivalled_stays cpu p _ Hun') as [Hn Hcur]. by rewrite IH, Hcur.
Qed.

(** the bytes the stack region admits *)
Definition in_region2 (s : sched) (a : Z) : Prop :=
  let '(rbar, rasr) := mpu_region2 s in rbar <= a < rbar + 2 ^ ((rasr .>> 1) .& 31 + 1).

(** With the stack size of [sched.h] the region given to a task ends below the
    frame it starts on. *)
Theorem mpu_region_too_small base (s : sched) a : 0 <= base < 2 ^ 32 -> 2048 + 64 <= TASK_STACK_SIZE ->
  base + TASK_STACK_SIZE - 64 <= a -> ~ in_region2 (mpu_switch_task base TASK_STACK_SIZE s) a.
Proof.
  intros Hb Hsz Ha. unfold mpu_switch_task, in_region2. cbn [mpu_region2 set_mpu_region2].
  rewrite !(proj2 (Z.leb_gt _ _)) by lia.
  change (2 ^ (((AP_FULL .| XN .| Z.shiftl 10 1 .| REGION_ENABLE) .>> 1) .& 31 + 1)) with 2048.
  change 0xFFFFFFE0 with (u32 (Z.lnot (2 ^ 5 - 1))). rewrite land_lnot_ones by lia.
  pose proof (Z.mod_pos_bound base (2 ^ 5)). lia.
Qed.
End theorems.

(** ** Witnesses *)

(** the defaults of [sched.h], stacks at the start of RAM *)
#[export] Instance demo_config : Config := {|
  MAX_TASKS := 8; TASK_STACK_SIZE := 4096; CONFIG_MPU := false;
  task_stacks := 0x20000000; task_entry := 0x08000401; task_exit_fn := 0x08000481;
|}.

(** two tasks of priority 3 and the idle task, started *)
Definition demo_sched : sched :=
  (sched_start 0 (sched_create_task 0x103 0x203 7 (sched_create_task 0x102 0x202 3 (sched_create_task 0x101 0x201 3 sched0).2).2).2).2.

Lemma tk_all (P : Z -> Prop) (f : task_tcb -> Z) (s : sched) : P (f tcb0) -> Forall (fun kt => P (f kt.2)) (map_to_list (tasks s)) ->
  forall c, P (f (tk s c)).
Proof.
  intros H0 Hall c. unfold tk. destruct (tasks s !! c) as [t|] eqn:E; [|done].
  apply (proj1 (Forall_forall _ _) Hall (c, t)). by apply elem_of_map_to_list.
Qed.

Lemma demo_prio_ok : prio_ok demo_sched.
Proof. refine (tk_all (fun p => p <= 255) priority demo_sched _ _); [done|]. vm_compute. repeat constructor; done. Qed.

Lemma sched_preempt_correct_witness : exists r, switched 0 0x20000F00 (sched_preempt 0 0x20000F00 demo_sched).1 r demo_sched (sched_preempt 0 0x20000F00 demo_sched).2.
Proof. apply (sched_preempt_correct 0 0x20000F00 demo_sched); [split; [done|reflexivity]|apply demo_prio_ok]. Defined.

Lemma demo_unrivalled : unrivalled 0 demo_sched.
Proof.
  split; [split; [done|reflexivity]|apply demo_prio_ok|reflexivity|].
  intros c Hc _. assert (c = 0 \/ c = 1 \/ c = 2) as Hcc by (unfold task_ids in Hc; change (num_tasks demo_sched) with 3 in Hc; lia).
  destruct Hcc as [ -> | [ -> | -> ] ]; done.
Qed.

Lemma equal_priority_never_rotates_witness :
  cur (time_slices 0 (replicate 5 0x20000F00) demo_sched) 0 = cur demo_sched 0 /\
  forall c, task_ids demo_sched c -> c <> cur demo_sched 0 -> cur (time_slices 0 (replicate 5 0x20000F00) demo_sched) 0 <> c.
Proof. apply (equal_priority_never_rotates 0 (replicate 5 0x20000F00) demo_sched), demo_unrivalled. Defined.
