(* ===== verification/RtosSync.v ===== *)
(** Semaphores and mutexes of the RTOS, [rtos/kernel/sync.c], the supervisor
    calls of [rtos/kernel/syscall.c], and the machine they run on: tasks,
    interrupts and the switch, interleaved.

    One round of a blocking loop, from [spin_lock] to [sched_yield], is one
    step.  A task that has gone to sleep in such a loop is remembered in
    [calls] and goes round again when it is resumed.  PendSV has the lowest
    priority, so interrupts may come before it; it is taken before the
    interrupted thread executes anything further. *)

From stdpp Require Import gmap list fin_maps.
From Stdlib Require Import ZArith Lia.
From S2P Require Import Prelude Memory RtosSched.

(** * Data *)

(** 16-bit and 8-bit signed conversions, for [int16_t count] and [int8_t owner] *)
Definition s16 (x : Z) : Z := let y := u16 x in if y <? 2 ^ 15 then y else y - 2 ^ 16.
Definition s8 (x : Z) : Z := let y := u8 x in if y <? 2 ^ 7 then y else y - 2 ^ 8.

Record semaphore := Sem { count : Z; sem_wq : Z }.
Record mutex := Mutex { owner : Z; mutex_wq : Z }.

Definition SEM_INIT (initial : Z) : semaphore := Sem (s16 initial) 0.
Definition MUTEX_INIT : mutex := Mutex (-1) 0.

(** * The code *)

Section code.
Context (cpu : Z).

(** one round of the loop of [mutex_lock]; [true] when it returns *)
Definition mutex_lock_round (m : mutex) (s : sched) : bool * mutex * sched :=
  if owner m <? 0 then (true, Mutex (s8 (sched_current_id cpu s)) (mutex_wq m), s)
  else let '(w, s) := sched_block cpu (mutex_wq m) s in (false, Mutex (owner m) w, sched_yield cpu s).

Definition mutex_unlock (m : mutex) (s : sched) : mutex * sched :=
  let '(w, s) := sched_wake (mutex_wq m) s in (Mutex (-1) w, s).

Definition sem_give (x : semaphore) (s : sched) : semaphore * sched :=
  let c := s16 (count x + 1) in
  let '(w, s) := sched_wake (sem_wq x) s in (Sem c w, s).

(** one round of the loop of [sem_take] *)
Definition sem_take_round (x : semaphore) (s : sched) : bool * semaphore * sched :=
  if 0 <? count x then (true, Sem (s16 (count x - 1)) (sem_wq x), s)
  else let '(w, s) := sched_block cpu (sem_wq x) s in (false, Sem (count x) w, sched_yield cpu s).

Definition sem_try_take (x : semaphore) : Z * semaphore :=
  if 0 <? count x then (0, Sem (s16 (count x - 1)) (sem_wq x)) else (-1, x).

(** The loops when nothing runs between two rounds; [None] when they have not
    returned after [fuel] of them. *)
Fixpoint mutex_lock (fuel : nat) (m : mutex) (s : sched) : option (mutex * sched) :=
  match fuel with
  | O => None
  | S n => let '(ret, m, s) := mutex_lock_round m s in if ret : bool then Some (m, s) else mutex_lock n m s
  end.

Fixpoint sem_take (fuel : nat) (x : semaphore) (s : sched) : option (semaphore * sched) :=
  match fuel with
  | O => None
  | S n => let '(ret, x, s) := sem_take_round x s in if ret : bool then Some (x, s) else sem_take n x s
  end.
End code.

(** ** Objects in memory *)

(** A blocking call in progress, with the address of its object. *)
Inductive call := SemTake (a : Z) | MutexLock (a : Z).

#[export] Instance call_eq_dec : EqDecision call.
Proof. solve_decision. Defined.

Record machine := Machine { ks : sched; sems : gmap Z semaphore; muts : gmap Z mutex; calls : gmap Z call }.

Definition set_ks v m := Machine v (sems m) (muts m) (calls m).
Definition set_calls v m := Machine (ks m) (sems m) (muts m) v.
Definition put_sem a x s m := Machine s (<[a := x]> (sems m)) (muts m) (calls m).
Definition put_mut a x s m := Machine s (sems m) (<[a := x]> (muts m)) (calls m).

(** ** Supervisor calls

    The handler has a higher priority than PendSV and the tick, so the loops
    run without interruption.  The result is the new [frame[0]]. *)

Definition SYS_YIELD : Z := 0.
Definition SYS_SLEEP_MS : Z := 1.
Definition SYS_SEM_GIVE : Z := 2.
Definition SYS_SEM_TAKE : Z := 3.
Definition SYS_MUTEX_LOCK : Z := 4.
Definition SYS_MUTEX_UNLOCK : Z := 5.

Definition svc_dispatch (fuel : nat) (cpu syscall_num arg1 : Z) (m : machine) : option (Z * machine) :=
  if syscall_num =? SYS_YIELD then Some (0, set_ks (sched_yield cpu (ks m)) m)
  else if syscall_num =? SYS_SLEEP_MS then Some (0, set_ks (sched_sleep_ms cpu arg1 (ks m)) m)
  else if syscall_num =? SYS_SEM_GIVE then
    x ← sems m !! arg1; let '(x, s) := sem_give x (ks m) in Some (0, put_sem arg1 x s m)
  else if syscall_num =? SYS_SEM_TAKE then
    x ← sems m !! arg1; '(x, s) ← sem_take cpu fuel x (ks m); Some (0, put_sem arg1 x s m)
  else if syscall_num =? SYS_MUTEX_LOCK then
    x ← muts m !! arg1; '(x, s) ← mutex_lock cpu fuel x (ks m); Some (0, put_mut arg1 x s m)
  else if syscall_num =? SYS_MUTEX_UNLOCK then
    x ← muts m !! arg1; let '(x, s) := mutex_unlock x (ks m) in Some (0, put_mut arg1 x s m)
  else Some (u32 (-1), m).

(** * The machine *)

Inductive event :=
  (* what the current task of a core does *)
  | EGive (a : Z) | ETake (a : Z) | ETryTake (a : Z) | ELock (a : Z) | EUnlock (a : Z)
  | EYield | ESleep (ms : Z) | EExit | ECreate (f nm prio : Z)
  (* the current task, resumed inside a blocking call, goes round its loop *)
  | ERetry
  (* an interrupt handler gives a semaphore; the tick; the switch *)
  | EIsrGive (a : Z) | ETick | EPendsv (old_sp : Z).

Section machine.
Context `{Config} (cpu : Z).

(** Blocks in [q] or returns from it. *)
Definition settle (q : call) (ret : bool) (m : machine) : machine :=
  let c := cur (ks m) cpu in
  set_calls (if ret then delete c (calls m) else <[c := q]> (calls m)) m.

Definition round (q : call) (m : machine) : option machine :=
  match q with
  | SemTake a => x ← sems m !! a; let '(ret, x, s) := sem_take_round cpu x (ks m) in Some (settle q ret (put_sem a x s m))
  | MutexLock a => x ← muts m !! a; let '(ret, x, s) := mutex_lock_round cpu x (ks m) in Some (settle q ret (put_mut a x s m))
  end.

Definition give (a : Z) (m : machine) : option machine :=
  x ← sems m !! a; let '(x, s) := sem_give x (ks m) in Some (put_sem a x s m).

(** The current task runs: no switch is pending. *)
Definition in_thread (m : machine) : bool := bool_decide (cpu ∉ pendsv (ks m)).
Definition in_call (m : machine) : option call := calls m !! cur (ks m) cpu.

(** What a task does when it is not inside a call. *)
Definition task_step (e : event) (m : machine) : option machine :=
  match e with
  | EGive a => give a m
  | ETake a => round (SemTake a) m
  | ETryTake a => x ← sems m !! a; let '(_, x) := sem_try_take x in Some (put_sem a x (ks m) m)
  | ELock a => round (MutexLock a) m
  | EUnlock a => x ← muts m !! a; let '(x, s) := mutex_unlock x (ks m) in Some (put_mut a x s m)
  | EYield => Some (set_ks (sched_yield cpu (ks m)) m)
  | ESleep ms => Some (set_ks (sched_sleep_ms cpu ms (ks m)) m)
  | EExit => Some (set_ks (sched_task_exit cpu (ks m)) m)
  | ECreate f nm prio => Some (set_ks (sched_create_task f nm (u8 prio) (ks m)).2 m)
  | _ => None
  end.

Definition exec (e : event) (m : machine) : option machine :=
  match e with
  | EIsrGive a => give a m
  | ETick => Some (set_ks (systick_handler cpu (ks m)) m)
  | EPendsv old_sp =>
      if in_thread m then None
      else Some (set_ks (sched_preempt cpu old_sp (set_pendsv (pendsv (ks m) ∖ {[cpu]}) (ks m))).2 m)
  | ERetry => if in_thread m then q ← in_call m; round q m else None
  | _ => if in_thread m then match in_call m with Some _ => None | None => task_step e m end else None
  end.
End machine.

(** ** Start *)

Definition create_all `{Config} (l : list (Z * Z * Z)) (s : sched) : sched :=
  foldl (fun s '(f, nm, prio) => (sched_create_task f nm (u8 prio) s).2) s l.

(** [main]: the tasks are created and the scheduler is started on core 0, over
    semaphores with the given counts and free mutexes *)
Definition boot `{Config} (l : list (Z * Z * Z)) (counts : gmap Z Z) (ms : gset Z) : machine :=
  Machine (sched_start 0 (create_all l sched0)).2 (SEM_INIT <$> counts) (gset_to_gmap MUTEX_INIT ms) ∅.
