(* ===== verification/RtosInv.v ===== *)
(** Soundness of the RTOS scheduler and its blocking calls, for one core: an
    invariant of the machine of [RtosSync] under every interleaving of task
    calls, interrupts and switches, with the wait queues it implies. *)

From stdpp Require Import gmap list fin_maps.
From Stdlib Require Import ZArith Lia.
From S2P Require Import Prelude Memory RtosSched RtosSync.

(** * Wait queues as bit sets *)

(** [1 << i] for a task of a 32-bit queue *)
Lemma bit_of_id i : 0 <= i < 32 -> u32 (Z.shiftl 1 i) = 2 ^ i.
Proof.
  intros Hi. rewrite Z.shiftl_mul_pow2, Z.mul_1_l by lia. apply u32_small. split; [lia|]. apply Z.pow_lt_mono_r; lia.
Qed.

(** A queue holds tasks of the table only. *)
Definition queue_ok (n w : Z) : Prop := 0 <= w < 2 ^ 32 /\ forall i, Z.testbit w i = true -> 0 <= i < n.

Lemma queue_ok_0 n : queue_ok n 0.
Proof. split; [lia|]. intros i. by rewrite Z.bits_0. Qed.

Lemma range_of_bits w k : 0 <= k -> (forall i, k <= i -> Z.testbit w i = false) -> 0 <= w -> w < 2 ^ k.
Proof.
  intros Hk Hb Hw. assert (w = w mod 2 ^ k) as ->; [|apply Z.mod_pos_bound; lia].
  apply Z.bits_inj'. intros i Hi. destruct (decide (i < k)).
  - by rewrite Z.mod_pow2_bits_low by lia.
  - by rewrite Z.mod_pow2_bits_high, Hb by lia.
Qed.

Lemma test_bit w i : 0 <= i < 32 -> negb (w .& u32 (Z.shiftl 1 i) =? 0) = Z.testbit w i.
Proof.
  intros Hi. rewrite bit_of_id by done. destruct (Z.testbit w i) eqn:E.
  - apply negb_true_iff, Z.eqb_neq. intros H0. assert (Z.testbit (w .& 2 ^ i) i = false) as Hb by (by rewrite H0, Z.bits_0).
    rewrite Z.land_spec, Z.pow2_bits_true, E in Hb by lia. done.
  - apply negb_false_iff, Z.eqb_eq. apply Z.bits_inj'. intros j Hj. rewrite Z.land_spec, Z.bits_0.
    destruct (decide (j = i)) as [->|]; [by rewrite E|]. rewrite Z.pow2_bits_false by lia. apply andb_false_r.
Qed.

Lemma queue_add n w i : n <= 32 -> queue_ok n w -> 0 <= i < n ->
  queue_ok n (w .| u32 (Z.shiftl 1 i)) /\
  forall j, Z.testbit (w .| u32 (Z.shiftl 1 i)) j = Z.testbit w j || bool_decide (j = i).
Proof.
  intros Hn [Hw Hb] Hi. rewrite bit_of_id by lia.
  assert (forall j, Z.testbit (w .| 2 ^ i) j = Z.testbit w j || bool_decide (j = i)) as Hj.
  { intros j. rewrite Z.lor_spec. f_equal. destruct (decide (j = i)) as [->|].
    - rewrite bool_decide_true by done. apply Z.pow2_bits_true. lia.
    - rewrite bool_decide_false by done. apply Z.pow2_bits_false. lia. }
  split; [|done]. assert (0 <= w .| 2 ^ i) as Hnn by (apply Z.lor_nonneg; split; lia).
  assert (forall j, Z.testbit (w .| 2 ^ i) j = true -> 0 <= j < n) as Hr.
  { intros j. rewrite Hj. intros [E|E%bool_decide_eq_true]%orb_true_iff; [by apply Hb|lia]. }
  split; [|done]. split; [done|]. apply range_of_bits; [lia| |done]. intros j Hj32.
  destruct (Z.testbit (w .| 2 ^ i) j) eqn:E; [|done]. apply Hr in E. lia.
Qed.

Lemma queue_del n w i : n <= 32 -> queue_ok n w -> 0 <= i < n ->
  queue_ok n (w .& .~ (u32 (Z.shiftl 1 i))) /\
  forall j, Z.testbit (w .& .~ (u32 (Z.shiftl 1 i))) j = Z.testbit w j && negb (bool_decide (j = i)).
Proof.
  intros Hn [Hw Hb] Hi. rewrite bit_of_id by lia.
  assert (forall j, Z.testbit (w .& u32 (Z.lnot (2 ^ i))) j = Z.testbit w j && negb (bool_decide (j = i))) as Hj.
  { intros j. rewrite Z.land_spec. destruct (Z.testbit w j) eqn:E; [|done]. cbn [andb]. pose proof (Hb j E). unfold u32.
    rewrite Z.mod_pow2_bits_low, Z.lnot_spec by lia. f_equal. destruct (decide (j = i)) as [->|].
    - rewrite bool_decide_true by done. apply Z.pow2_bits_true. lia.
    - rewrite bool_decide_false by done. apply Z.pow2_bits_false. lia. }
  split; [|done]. assert (0 <= w .& u32 (Z.lnot (2 ^ i))) as Hnn by (apply Z.land_nonneg; lia).
  assert (forall j, Z.testbit (w .& u32 (Z.lnot (2 ^ i))) j = true -> 0 <= j < n) as Hr.
  { intros j. rewrite Hj. intros [E _]%andb_true_iff. by apply Hb. }
  split; [|done]. split; [done|]. apply range_of_bits; [lia| |done]. intros j Hj32.
  destruct (Z.testbit (w .& u32 (Z.lnot (2 ^ i))) j) eqn:E; [|done]. apply Hr in E. lia.
Qed.

Lemma queue_nonempty w : 0 <= w -> w <> 0 -> exists i, Z.testbit w i = true.
Proof. intros Hw Hne. exists (Z.log2 w). apply Z.bit_log2. lia. Qed.

(** [sched_wake] takes one task off the queue, unless it is empty. *)
Lemma wake_loop_spec n i w s : (exists j, i <= j < i + Z.of_nat n /\ Z.testbit w j = true) -> 0 <= i -> i + Z.of_nat n <= 32 ->
  exists j, i <= j < i + Z.of_nat n /\ Z.testbit w j = true /\
    wake_loop n i w s = (w .& .~ (u32 (Z.shiftl 1 j)), upd j (set_state TASK_READY) s).
Proof.
  revert i. induction n as [|n IH]; intros i (j & Hj & Hb) Hi Hn; [lia|]. cbn [wake_loop].
  rewrite test_bit by lia. destruct (Z.testbit w i) eqn:E.
  - exists i. split; [lia|]. by split.
  - destruct (IH (i + 1)) as (l & Hl & Hlb & ->); [|lia..|exists l; split; [lia|done]].
    exists j. split; [|done]. destruct (decide (j = i)) as [->|]; [congruence|lia].
Qed.

Lemma sched_wake_spec w s : num_tasks s <= 32 -> queue_ok (num_tasks s) w ->
  w = 0 /\ sched_wake w s = (0, s) \/
  exists i, task_ids s i /\ Z.testbit w i = true /\
    sched_wake w s = (w .& .~ (u32 (Z.shiftl 1 i)), upd i (set_state TASK_READY) s).
Proof.
  intros Hn [Hw Hb]. unfold sched_wake. destruct (Z.eqb_spec w 0) as [->|Hne]; [by left|right].
  destruct (queue_nonempty w) as [j Hj]; [lia|done|]. pose proof (Hb j Hj).
  destruct (wake_loop_spec (Z.to_nat (num_tasks s)) 0 w s) as (i & Hi & Hib & ->); [exists j; split; [lia|done]|lia..|].
  exists i. split; [unfold task_ids; lia|]. done.
Qed.

(** * Counting *)

Fixpoint cnt (n : nat) (f : Z -> bool) : Z :=
  match n with O => 0 | S n => cnt n f + (if f (Z.of_nat n) then 1 else 0) end.

Lemma cnt_ext n f g : (forall i, 0 <= i < Z.of_nat n -> f i = g i) -> cnt n f = cnt n g.
Proof.
  induction n as [|n IH]; intros Hfg; cbn; [done|]. rewrite (Hfg (Z.of_nat n)) by lia. rewrite IH; [done|].
  intros i Hi. apply Hfg. lia.
Qed.

Lemma cnt_flip n f g c : 0 <= c < Z.of_nat n -> f c = false -> g c = true ->
  (forall i, 0 <= i < Z.of_nat n -> i <> c -> f i = g i) -> cnt n g = cnt n f + 1.
Proof.
  induction n as [|n IH]; intros Hc Hf Hg Hfg; [lia|]. cbn [cnt]. destruct (decide (c = Z.of_nat n)) as [->|Hne].
  - rewrite Hf, Hg. rewrite (cnt_ext n g f); [lia|]. intros i Hi. symmetry. apply Hfg; lia.
  - rewrite (Hfg (Z.of_nat n)), IH by (try done; try lia; intros i Hi; apply Hfg; lia). lia.
Qed.

Lemma count_pos n f : 0 < cnt n f -> exists i, 0 <= i < Z.of_nat n /\ f i = true.
Proof.
  induction n as [|n IH]; cbn [cnt]; [lia|]. intros Hp. destruct (f (Z.of_nat n)) eqn:E.
  - exists (Z.of_nat n). split; [lia|done].
  - destruct IH as (i & Hi & Hf); [lia|]. exists i. split; [lia|done].
Qed.

Lemma count_nonneg n f : 0 <= cnt n f.
Proof. induction n as [|n IH]; cbn [cnt]; [lia|]. destruct (f _); lia. Qed.

(** * The invariant *)

(** ready or running *)
Definition live (t : task_tcb) : bool := has TASK_READY t || has TASK_RUNNING t.

Lemma live_true t : live t = true <-> state t = TASK_READY \/ state t = TASK_RUNNING.
Proof. unfold live. by rewrite orb_true_iff, !has_true. Qed.

(** [c] was woken up in call [q] and has not gone round its loop yet. *)
Definition woken (s : sched) (cl : gmap Z call) (q : call) (c : Z) : bool := bool_decide (cl !! c = Some q) && live (tk s c).
Definition wokens (s : sched) (cl : gmap Z call) (q : call) : Z := cnt (Z.to_nat (num_tasks s)) (woken s cl q).

(** The scheduler with wait queues [W] and calls [cl]; [z] is the idle task. *)
Record base (z : Z) (s : sched) (W : call -> Z) (cl : gmap Z call) : Prop := {
  b_cur : task_ids s (cur s 0);
  b_num : num_tasks s <= 32;
  b_prio : prio_ok s;
  (** the idle task can always run *)
  b_idle : task_ids s z /\ live (tk s z) = true /\ cl !! z = None;
  (** at most the current task runs, and it does unless a switch is pending *)
  b_run : forall c, task_ids s c -> state (tk s c) = TASK_RUNNING -> c = cur s 0;
  b_thread : 0 ∉ pendsv s -> state (tk s (cur s 0)) = TASK_RUNNING;
  b_cpu : forall c, task_ids s c -> running_on_cpu (tk s c) = if has TASK_RUNNING (tk s c) then 0 else -1;
  (** a task is blocked exactly when it is in the queue of the call it makes, and in no other *)
  b_blocked : forall c, task_ids s c -> state (tk s c) = TASK_BLOCKED -> exists q, cl !! c = Some q /\ Z.testbit (W q) c = true;
  b_queue : forall q, queue_ok (num_tasks s) (W q);
  b_wait : forall q c, Z.testbit (W q) c = true -> state (tk s c) = TASK_BLOCKED /\ cl !! c = Some q;
  b_call : forall c q, cl !! c = Some q -> task_ids s c /\ (live (tk s c) = true \/ state (tk s c) = TASK_BLOCKED);
}.

(** No wakeup is lost: while tasks wait for a semaphore, as many tasks are on
    their way to take it as it has units; while tasks wait for a free mutex,
    one is on its way to lock it. *)
Record tokens (wk : call -> Z) (sm : gmap Z semaphore) (mt : gmap Z mutex) : Prop := {
  t_range : forall a x, sm !! a = Some x -> - 2 ^ 15 <= count x;
  t_sem : forall a x, sm !! a = Some x -> sem_wq x <> 0 -> count x <= wk (SemTake a);
  t_mut : forall a x, mt !! a = Some x -> mutex_wq x <> 0 -> 0 <= owner x \/ 0 < wk (MutexLock a);
}.

Definition wq (m : machine) (q : call) : Z :=
  match q with
  | SemTake a => from_option sem_wq 0 (sems m !! a)
  | MutexLock a => from_option mutex_wq 0 (muts m !! a)
  end.

Definition good (z : Z) (m : machine) : Prop :=
  base z (ks m) (wq m) (calls m) /\ tokens (wokens (ks m) (calls m)) (sems m) (muts m).

Definition upd_queue (q : call) (w : Z) (W : call -> Z) (q' : call) : Z := if decide (q' = q) then w else W q'.

Lemma upd_queue_eq q w W : upd_queue q w W q = w.
Proof. unfold upd_queue. by rewrite decide_True. Qed.

Lemma upd_queue_ne q w W q' : q' <> q -> upd_queue q w W q' = W q'.
Proof. intros. unfold upd_queue. by rewrite decide_False. Qed.

Lemma base_ext z s W W' cl : (forall q, W' q = W q) -> base z s W cl -> base z s W' cl.
Proof. intros HW []. split; try done; setoid_rewrite HW; done. Qed.

Lemma tk_ne_state st st' t : state t = st -> st <> st' -> has st' t = false.
Proof. intros <- Hne. by apply has_false. Qed.

(** Effects on the counts of woken tasks. *)
Lemma wokens_ext s s' cl cl' q : num_tasks s' = num_tasks s ->
  (forall c, task_ids s c -> woken s' cl' q c = woken s cl q c) -> wokens s' cl' q = wokens s cl q.
Proof. intros Hn Hc. unfold wokens. rewrite Hn. apply cnt_ext. intros i Hi. apply Hc. unfold task_ids. lia. Qed.

Lemma wokens_flip s s' cl cl' q c : num_tasks s' = num_tasks s -> task_ids s c ->
  woken s cl q c = false -> woken s' cl' q c = true ->
  (forall d, task_ids s d -> d <> c -> woken s' cl' q d = woken s cl q d) -> wokens s' cl' q = wokens s cl q + 1.
Proof.
  intros Hn Hc Hf Hg Hd. unfold wokens, task_ids in *. rewrite Hn. apply (cnt_flip _ _ _ c); [lia|done..|].
  intros i Hi Hne. symmetry. apply Hd; lia.
Qed.

Lemma base_wake z s W cl q : base z s W cl ->
  let '(w, s') := sched_wake (W q) s in
  base z s' (upd_queue q w W) cl /\ (forall q', q' <> q -> wokens s' cl q' = wokens s cl q') /\
  (w <> 0 -> W q <> 0 /\ wokens s' cl q = wokens s cl q + 1).
Proof.
  intros B. pose proof (b_num _ _ _ _ B) as Hnum.
  destruct (sched_wake_spec (W q) s Hnum (b_queue _ _ _ _ B q)) as [[H0 ->]|(i & Hi & Hb & ->)].
  { split; [|done]. apply (base_ext z s W); [|done]. intros q'. unfold upd_queue. case_decide; subst; done. }
  destruct (b_wait _ _ _ _ B q i Hb) as [Hst Hcl].
  destruct (queue_del (num_tasks s) (W q) i Hnum (b_queue _ _ _ _ B q) Hi) as [Hqok Hbits].
  set (w := W q .& _) in *.
  assert (forall q', q' <> q -> cl !! i <> Some q') as Hcl' by (rewrite Hcl; congruence).
  assert (forall c q', c <> i \/ q' <> q -> woken (upd i (set_state TASK_READY) s) cl q' c = woken s cl q' c) as Hwk.
  { intros c q' Hc. unfold woken. rewrite tk_upd. destruct (decide (i = c)) as [<-|]; [|done].
    rewrite !(bool_decide_false (cl !! i = Some q')); [done|apply Hcl'; naive_solver..]. }
  assert (wokens (upd i (set_state TASK_READY) s) cl q = wokens s cl q + 1) as Hup.
  { apply (wokens_flip _ _ _ _ _ i); [done..| | |].
    - unfold woken. rewrite (bool_decide_true _ Hcl). unfold live, has. rewrite Hst. done.
    - unfold woken. by rewrite (bool_decide_true _ Hcl), tk_upd_eq.
    - intros d Hd Hne. apply Hwk. by left. }
  split; [|split].
  2: { intros q' Hq'. apply wokens_ext; [done|]. intros c Hc. apply Hwk. by right. }
  2: { intros _. split; [|done]. intros E. by rewrite E, Z.bits_0 in Hb. }
  destruct B as [B1 B2 B3 (B4a & B4b & B4c) B5 B6 B7 B8 B9 B10 B11].
  assert (i <> z) as Hiz by (intros ->; congruence).
  assert (0 ∉ pendsv s -> i <> cur s 0) as Hicur by (intros Hp Heq; specialize (B6 Hp); congruence).
  split; cbn [num_tasks pendsv upd set_tasks].
  - exact B1.
  - exact B2.
  - intros c. rewrite tk_upd. case_decide; [subst|]; apply B3.
  - split; [exact B4a|]. by rewrite tk_upd_ne.
  - intros c Hc. rewrite tk_upd. case_decide; [done|]. by apply B5.
  - intros Hp. change (cur (upd _ _ s) 0) with (cur s 0). rewrite tk_upd_ne by auto. auto.
  - intros c Hc. rewrite tk_upd. case_decide as Hic; [subst c|by apply B7]. cbn. rewrite B7, (tk_ne_state TASK_BLOCKED) by done. done.
  - intros c Hc. rewrite tk_upd. case_decide as Hic; [done|]. intros Hs. destruct (B8 c Hc Hs) as (q' & Hq' & Hbc).
    exists q'. split; [done|]. unfold upd_queue. case_decide; [subst q'|done]. rewrite Hbits, Hbc, bool_decide_false by done. done.
  - intros q'. unfold upd_queue. case_decide; [exact Hqok|apply B9].
  - intros q' c. unfold upd_queue. destruct (decide (q' = q)) as [->|Hq'].
    + rewrite Hbits. intros [Hbc Hne%negb_true_iff%bool_decide_eq_false]%andb_true_iff. rewrite tk_upd_ne by done. by apply B10.
    + intros Hbc. destruct (B10 q' c Hbc) as [Hs Hc]. rewrite tk_upd_ne; [done|]. intros <-. congruence.
  - intros c q' Hc. destruct (B11 c q' Hc) as [Hid Hl]. split; [done|]. rewrite tk_upd. case_decide; [by left|done].
Qed.

(** The current task stops: it goes to state [st] and a switch is requested. *)
Lemma base_stop z s W W' cl cl' st f : base z s W cl -> 0 ∉ pendsv s -> cur s 0 <> z ->
  st <> TASK_READY -> st <> TASK_RUNNING ->
  (forall t, state (f t) = st /\ running_on_cpu (f t) = -1 /\ priority (f t) = priority t) ->
  (forall c, c <> cur s 0 -> cl' !! c = cl !! c) ->
  (forall q, queue_ok (num_tasks s) (W' q)) ->
  (forall q c, c <> cur s 0 -> Z.testbit (W' q) c = Z.testbit (W q) c) ->
  (forall q, Z.testbit (W' q) (cur s 0) = true -> cl' !! cur s 0 = Some q) ->
  (forall q, cl' !! cur s 0 = Some q -> st = TASK_BLOCKED) ->
  (st = TASK_BLOCKED -> exists q, cl' !! cur s 0 = Some q /\ Z.testbit (W' q) (cur s 0) = true) ->
  let s' := sched_yield 0 (upd (cur s 0) f s) in
  base z s' W' cl' /\ forall q, cl !! cur s 0 <> Some q -> wokens s' cl' q = wokens s cl q.
Proof.
  intros [B1 B2 B3 (B4a & B4b & B4c) B5 B6 B7 B8 B9 B10 B11] Hp Hz Hst1 Hst2 Hf Hcl Hq Hbit Hin Hcall Hblk.
  assert (live (f (tk s (cur s 0))) = false) as Hdead.
  { unfold live. rewrite !(tk_ne_state st); [done|apply Hf|done|apply Hf|done]. }
  assert (forall c, tk (sched_yield 0 (upd (cur s 0) f s)) c = if decide (cur s 0 = c) then f (tk s (cur s 0)) else tk s c) as Htk
    by (intros c; apply tk_upd).
  cbn zeta. split.
  2: { intros q Hn. apply wokens_ext; [done|]. intros c Hc. unfold woken. rewrite Htk. destruct (decide (cur s 0 = c)) as [<-|Hne].
       - by rewrite Hdead, andb_false_r, (bool_decide_false _ Hn).
       - by rewrite Hcl. }
  split; cbn [num_tasks pendsv sched_yield upd set_tasks set_pendsv].
  - exact B1.
  - exact B2.
  - intros c. rewrite Htk. case_decide; [|apply B3]. destruct (Hf (tk s (cur s 0))) as (_ & _ & ->). apply B3.
  - split; [exact B4a|]. rewrite Htk, decide_False, Hcl by done. done.
  - intros c Hc. rewrite Htk. case_decide; [subst; by intros _|]. by apply B5.
  - intros Hn. set_solver.
  - intros c Hc. rewrite Htk. case_decide; [|by apply B7]. destruct (Hf (tk s (cur s 0))) as (Hs & -> & _).
    by rewrite (tk_ne_state st).
  - intros c Hc. rewrite Htk. case_decide as Hcc.
    + subst c. intros Hs. apply Hblk. rewrite <- Hs. symmetry. apply Hf.
    + intros Hs. destruct (B8 c Hc Hs) as (q & Hq1 & Hq2). exists q. by rewrite Hcl, Hbit.
  - exact Hq.
  - intros q c Hb. rewrite Htk. case_decide as Hcc.
    + subst c. apply Hin in Hb. split; [|done]. destruct (Hf (tk s (cur s 0))) as (-> & _). exact (Hcall q Hb).
    + rewrite Hbit in Hb by done. rewrite Hcl by done. by apply B10.
  - intros c q Hc. destruct (decide (c = cur s 0)) as [->|Hne].
    + split; [exact B1|]. right. rewrite Htk, decide_True by done. destruct (Hf (tk s (cur s 0))) as (-> & _). exact (Hcall q Hc).
    + rewrite Hcl in Hc by done. rewrite Htk, decide_False by done. by apply (B11 c q).
Qed.

Lemma cur_not_queued z s W cl q : base z s W cl -> 0 ∉ pendsv s -> Z.testbit (W q) (cur s 0) = false.
Proof.
  intros B Hp. destruct (Z.testbit (W q) (cur s 0)) eqn:E; [|done]. apply (b_wait _ _ _ _ B) in E as [E _].
  rewrite (b_thread _ _ _ _ B Hp) in E. done.
Qed.

Lemma base_block z s W cl q : base z s W cl -> 0 ∉ pendsv s -> cur s 0 <> z ->
  let '(w, s') := sched_block 0 (W q) s in
  base z (sched_yield 0 s') (upd_queue q w W) (<[cur s 0 := q]> cl) /\
  forall q', cl !! cur s 0 <> Some q' -> wokens (sched_yield 0 s') (<[cur s 0 := q]> cl) q' = wokens s cl q'.
Proof.
  intros B Hp Hz. unfold sched_block. rewrite upd_upd.
  destruct (queue_add (num_tasks s) (W q) (cur s 0) (b_num _ _ _ _ B) (b_queue _ _ _ _ B q) (b_cur _ _ _ _ B)) as [Hqok Hbits].
  apply (base_stop z s W _ cl _ TASK_BLOCKED); try done.
  - intros c Hc. by rewrite lookup_insert_ne.
  - intros q'. unfold upd_queue. case_decide; [done|]. apply (b_queue _ _ _ _ B).
  - intros q' c Hc. unfold upd_queue. case_decide; [subst|done]. rewrite Hbits, (bool_decide_false (c = _)) by done. apply orb_false_r.
  - intros q'. unfold upd_queue. case_decide; [subst; by rewrite lookup_insert_eq|].
    by rewrite (cur_not_queued z s W cl).
  - intros _. exists q. rewrite lookup_insert_eq, upd_queue_eq, Hbits, bool_decide_true by done. split; [done|apply orb_true_r].
Qed.

Lemma base_leave z s W cl st f : base z s W cl -> 0 ∉ pendsv s -> cur s 0 <> z -> cl !! cur s 0 = None ->
  st = TASK_SLEEPING \/ st = TASK_DEAD ->
  (forall t, state (f t) = st /\ running_on_cpu (f t) = -1 /\ priority (f t) = priority t) ->
  let s' := sched_yield 0 (upd (cur s 0) f s) in
  base z s' W cl /\ forall q, wokens s' cl q = wokens s cl q.
Proof.
  intros B Hp Hz Hc Hst Hf. assert (st <> TASK_READY /\ st <> TASK_RUNNING /\ st <> TASK_BLOCKED) as (? & ? & ?) by naive_solver.
  destruct (base_stop z s W W cl cl st f B Hp Hz) as [HB Hw]; try done.
  - apply (b_queue _ _ _ _ B).
  - intros q. by rewrite (cur_not_queued z s W cl).
  - intros q. by rewrite Hc.
  - split; [exact HB|]. intros q. apply Hw. by rewrite Hc.
Qed.

(** The current task returns from the call it was in. *)
Lemma base_return z s W cl : base z s W cl -> 0 ∉ pendsv s ->
  base z s W (delete (cur s 0) cl) /\
  (forall q, cl !! cur s 0 <> Some q -> wokens s (delete (cur s 0) cl) q = wokens s cl q) /\
  (forall q, wokens s cl q <= wokens s (delete (cur s 0) cl) q + 1).
Proof.
  intros B Hp. pose proof (b_thread _ _ _ _ B Hp) as Hrun.
  assert (forall c q, c <> cur s 0 -> woken s (delete (cur s 0) cl) q c = woken s cl q c) as Hoth.
  { intros c q Hc. unfold woken. by rewrite lookup_delete_ne. }
  assert (forall q, woken s (delete (cur s 0) cl) q (cur s 0) = false) as Hself.
  { intros q. unfold woken. by rewrite lookup_delete_eq. }
  assert (forall q, cl !! cur s 0 <> Some q -> wokens s (delete (cur s 0) cl) q = wokens s cl q) as Hsame.
  { intros q Hq. apply wokens_ext; [done|]. intros c Hc. destruct (decide (c = cur s 0)) as [->|]; [|by apply Hoth].
    rewrite Hself. unfold woken. by rewrite bool_decide_false. }
  split; [|split; [exact Hsame|]].
  - destruct B as [B1 B2 B3 (B4a & B4b & B4c) B5 B6 B7 B8 B9 B10 B11]. split; try done.
    + split; [done|]. split; [done|]. apply lookup_delete_None. by right.
    + intros c Hc Hs. destruct (B8 c Hc Hs) as (q & Hq & Hb). exists q. split; [|done]. rewrite lookup_delete_ne; [done|]. congruence.
    + intros q c Hb. destruct (B10 q c Hb) as [Hs Hq]. split; [done|]. rewrite lookup_delete_ne; [done|]. congruence.
    + intros c q Hc. apply (B11 c q). by apply lookup_delete_Some in Hc as [_ ?].
  - intros q. destruct (decide (cl !! cur s 0 = Some q)) as [Hq|Hq]; [|rewrite Hsame by done; lia].
    assert (wokens s cl q = wokens s (delete (cur s 0) cl) q + 1); [|lia].
    apply (wokens_flip _ _ _ _ _ (cur s 0)); [done|apply (b_cur _ _ _ _ B)|done| |].
    + unfold woken. rewrite bool_decide_true by done. cbn. apply live_true. by right.
    + intros d Hd Hne. symmetry. by apply Hoth.
Qed.

(** A switch is requested. *)
Lemma base_flag z s W cl t : base z s W cl -> base z (sched_yield 0 (set_tick_count t s)) W cl.
Proof. intros []. split; try done. cbn. set_solver. Qed.

(** ** The switch *)

(** A task between being put back and the choice: out of its core, awake if its
    time has come. *)
Lemma parked_state now p t : state (outgoing now p t) = (if decide (state t = TASK_RUNNING) then TASK_READY else state t).
Proof. unfold outgoing, has. cbn zeta. cbn [state set_sp set_total_ticks]. case_decide; [by rewrite bool_decide_true|by rewrite bool_decide_false]. Qed.

Lemma parked z s W cl p c : base z s W cl -> task_ids s c ->
  let u := awake (requeue 0 p s) c in
  running_on_cpu u = -1 /\ priority u = priority (tk s c) /\
  (state u = state (tk s c) /\ state u <> TASK_RUNNING \/
   state u = TASK_READY /\ (state (tk s c) = TASK_RUNNING \/ state (tk s c) = TASK_SLEEPING)).
Proof.
  intros B Hc. cbn zeta. rewrite awake_cpu, awake_priority, requeue_priority.
  assert (running_on_cpu (tk (requeue 0 p s) c) = -1 /\
    (state (tk (requeue 0 p s) c) = state (tk s c) /\ state (tk s c) <> TASK_RUNNING \/
     state (tk (requeue 0 p s) c) = TASK_READY /\ state (tk s c) = TASK_RUNNING)) as [Hcpu Hst].
  { pose proof (b_cpu _ _ _ _ B c Hc) as Hcpu. unfold requeue. rewrite tk_upd. destruct (decide (cur s 0 = c)) as [->|Hne].
    - rewrite parked_state. unfold outgoing, has in *. cbn zeta. cbn [state set_sp set_total_ticks].
      destruct (decide (state (tk s c) = TASK_RUNNING)) as [E|E].
      + rewrite bool_decide_true by done. split; [done|]. by right.
      + rewrite bool_decide_false in * by done. split; [done|]. by left.
    - assert (state (tk s c) <> TASK_RUNNING) as Hnr by (intros E; by apply (b_run _ _ _ _ B c Hc) in E).
      rewrite Hcpu. rewrite (proj2 (has_false _ _)) by done. split; [done|]. by left. }
  split; [done|]. split; [done|].
  destruct (awake_state (requeue 0 p s) c _ eq_refl) as [E|(E & E1 & _)].
  - rewrite <- E. destruct Hst as [[-> Hn]|[-> Hr]]; [by left|]. right. split; [done|]. by left.
  - right. split; [done|]. destruct Hst as [[Hs _]|[Hs _]]; rewrite E1 in Hs; [|done]. by right.
Qed.

Lemma picked_pendsv v cpu p s r : picked (requeue cpu p (set_pendsv v s)) cpu r -> picked (requeue cpu p s) cpu r.
Proof. exact id. Qed.

Lemma requeue_ids cpu p s c : task_ids (requeue cpu p s) c <-> task_ids s c.
Proof. done. Qed.

Section steps.
Context `{Config}.

Lemma base_preempt z s W cl p : base z s W cl ->
  let s' := (sched_preempt 0 p (set_pendsv (pendsv s ∖ {[0]}) s)).2 in
  base z s' W cl /\ forall q, wokens s' cl q = wokens s cl q.
Proof.
  intros B. set (s0 := set_pendsv _ s).
  pose proof (sched_preempt_spec 0 p s0 (b_cur _ _ _ _ B) (b_prio _ _ _ _ B)) as Hs.
  destruct (sched_preempt 0 p s0) as [q0 s']. destruct Hs as (r & Hr & Hpick & _ & Hcur & [Hn _ Hpend _ _] & Htk). cbn [snd].
  apply picked_pendsv in Hpick. change (awake (requeue 0 p s0)) with (awake (requeue 0 p s)) in Htk.
  pose proof (fun c => parked z s W cl p c B) as Hu. set (u := awake (requeue 0 p s)) in *. cbn zeta in Hu.
  assert (runnable 0 (u r)) as (Hready & _).
  { destruct Hpick as [(_ & Hrun & _)|[Hno _]]; [exact Hrun|exfalso]. destruct (b_idle _ _ _ _ B) as (Hz & Hl & _).
    apply (Hno z); [by apply requeue_ids|]. fold u. destruct (Hu z Hz) as (Hzc & Hzp & Hzs). apply live_true in Hl.
    split; [clear -Hl Hzs; destruct Hzs as [[E Hn]|[E _]]; [|done]; rewrite E in *; by destruct Hl|].
    rewrite Hzc, Hzp. split; [lia|]. apply (b_prio _ _ _ _ B). }
  assert (forall c, task_ids s c -> state (tk s' c) = if decide (c = r) then TASK_RUNNING else state (u c)) as Hst.
  { intros c Hc. rewrite Htk. by case_decide. }
  assert (forall c, task_ids s c -> state (tk s' c) = TASK_BLOCKED <-> state (tk s c) = TASK_BLOCKED) as Hblk.
  { intros c Hc. rewrite Hst by done. destruct (Hu c Hc) as (_ & _ & Hs). case_decide as Hcr; [subst c; rewrite Hready in Hs|];
      clear -Hs; destruct Hs as [[E _]|[E [E'|E']]]; rewrite ?E, ?E'; try done; by rewrite <- E. }
  assert (forall c, task_ids s c -> live (tk s c) = true -> live (tk s' c) = true) as Hlive.
  { intros c Hc Hl. apply live_true. rewrite Hst by done. case_decide; [by right|]. left.
    destruct (Hu c Hc) as (_ & _ & Hs). apply live_true in Hl. clear -Hl Hs. destruct Hs as [[E Hn]|[E _]]; [|done].
    rewrite E in *. by destruct Hl. }
  assert (forall c q, cl !! c = Some q -> live (tk s' c) = live (tk s c)) as Hlc.
  { intros c q Hc. destruct (b_call _ _ _ _ B c q Hc) as [Hid [Hl|Hb]]; [by rewrite Hl, (Hlive c Hid Hl)|].
    unfold live, has. rewrite (proj2 (Hblk c Hid) Hb), Hb. done. }
  split.
  2: { intros q. apply wokens_ext; [done|]. intros c Hc. unfold woken. destruct (decide (cl !! c = Some q)) as [E|E].
       - by rewrite (Hlc c q E).
       - by rewrite bool_decide_false. }
  assert (forall c, task_ids s' c <-> task_ids s c) as Hids by (intros c; unfold task_ids; by rewrite Hn).
  split.
  - rewrite Hids, Hcur. exact Hr.
  - rewrite Hn. apply (b_num _ _ _ _ B).
  - intros c. rewrite Htk. pose proof (b_prio _ _ _ _ B c) as Hp. unfold u. case_decide; cbn; by rewrite awake_priority, requeue_priority.
  - destruct (b_idle _ _ _ _ B) as (Hz & Hl & Hc). rewrite Hids. split; [done|]. split; [by apply Hlive|done].
  - intros c Hc Hs. apply Hids in Hc. rewrite Hcur. rewrite Hst in Hs by done. case_decide; [done|].
    destruct (Hu c Hc) as (_ & _ & [[_ Hs']|[Hs' _]]); congruence.
  - intros _. by rewrite Hcur, Hst, decide_True.
  - intros c Hc. apply Hids in Hc. rewrite Htk. case_decide; [done|]. destruct (Hu c Hc) as (-> & _ & Hs).
    rewrite (proj2 (has_false _ _)); [done|]. destruct Hs as [[_ Hs]|[Hs _]]; congruence.
  - intros c Hc Hs. apply Hids in Hc. apply Hblk in Hs; [|done]. by apply (b_blocked _ _ _ _ B).
  - intros q. rewrite Hn. apply (b_queue _ _ _ _ B).
  - intros q c Hb. destruct (b_wait _ _ _ _ B q c Hb) as [Hs Hc]. split; [|done]. apply Hblk; [|done]. by apply (b_call _ _ _ _ B c q).
  - intros c q Hc. destruct (b_call _ _ _ _ B c q Hc) as [Hid Hl]. rewrite Hids, (Hlc c q Hc), (Hblk c Hid). done.
Qed.

(** ** New tasks and the start *)

Lemma create_spec f nm prio s : num_tasks s < MAX_TASKS ->
  let s' := (sched_create_task f nm prio s).2 in
  num_tasks s' = num_tasks s + 1 /\ cur_task s' = cur_task s /\ pendsv s' = pendsv s /\
  exists t, state t = TASK_READY /\ running_on_cpu t = -1 /\ priority t = prio /\
    forall c, tk s' c = if decide (num_tasks s = c) then t else tk s c.
Proof.
  intros Hn. unfold sched_create_task. rewrite (proj2 (Z.leb_gt _ _)) by done.
  destruct (task_stack_init _ _) as [p mm]. rewrite !upd_upd. cbn [snd].
  split; [done|]. split; [done|]. split; [done|]. eexists. split; [|split; [|split]].
  4: { intros c. rewrite tk_upd. case_decide; [reflexivity|]. unfold tk, upd. cbn. by rewrite lookup_insert_ne. }
  all: reflexivity.
Qed.

Lemma create_full f nm prio s : MAX_TASKS <= num_tasks s -> sched_create_task f nm prio s = (-1, s).
Proof. intros Hn. unfold sched_create_task. by rewrite (proj2 (Z.leb_le _ _)). Qed.

Lemma base_create z s W cl f nm prio : MAX_TASKS <= 32 -> prio <= 255 -> base z s W cl ->
  let s' := (sched_create_task f nm prio s).2 in
  base z s' W cl /\ forall q, wokens s' cl q = wokens s cl q.
Proof.
  intros Hmax Hp B. destruct (decide (num_tasks s < MAX_TASKS)) as [Hlt|Hge]; [|rewrite create_full by lia; done].
  destruct (create_spec f nm prio s Hlt) as (Hn & Hcur & Hpend & t & Ht1 & Ht2 & Ht3 & Htk). cbn zeta.
  set (s' := (sched_create_task f nm prio s).2) in *.
  assert (forall c, cur s' c = cur s c) as Hcur' by (intros c; unfold cur; by rewrite Hcur).
  assert (forall c, task_ids s c -> tk s' c = tk s c) as Hold by (intros c Hc; rewrite Htk, decide_False; [done|unfold task_ids in Hc; lia]).
  assert (forall c, task_ids s c -> task_ids s' c) as Hids by (unfold task_ids; lia).
  assert (forall c, task_ids s' c -> c = num_tasks s /\ tk s' c = t \/ task_ids s c /\ tk s' c = tk s c) as Hcase.
  { intros c Hc. destruct (decide (num_tasks s = c)) as [<-|Hne]; [left; rewrite Htk, decide_True by done; done|right].
    assert (task_ids s c) by (unfold task_ids in *; lia). auto. }
  destruct B as [B1 B2 B3 (B4a & B4b & B4c) B5 B6 B7 B8 B9 B10 B11]. split.
  2: { intros q. unfold wokens. rewrite Hn. replace (Z.to_nat (num_tasks s + 1)) with (S (Z.to_nat (num_tasks s))) by (unfold task_ids in *; lia).
       cbn [cnt]. rewrite Z2Nat.id by (unfold task_ids in *; lia).
       assert (woken s' cl q (num_tasks s) = false) as ->.
       { unfold woken. rewrite bool_decide_false; [done|]. intros E. destruct (B11 _ _ E) as [Hid _]. unfold task_ids in Hid. lia. }
       rewrite Z.add_0_r. apply cnt_ext. intros i Hi. unfold woken. rewrite Hold; [done|]. unfold task_ids. lia. }
  split.
  - rewrite Hcur'. by apply Hids.
  - lia.
  - intros c. rewrite Htk. case_decide; [lia|apply B3].
  - rewrite Hold by done. auto.
  - intros c Hc. rewrite Hcur'. destruct (Hcase c Hc) as [[_ ->]|[Hid ->]]; [congruence|by apply B5].
  - rewrite Hpend, Hcur', Hold by done. done.
  - intros c Hc. destruct (Hcase c Hc) as [[_ ->]|[Hid ->]]; [|by apply B7]. by rewrite Ht2, (tk_ne_state TASK_READY).
  - intros c Hc. destruct (Hcase c Hc) as [[_ ->]|[Hid ->]]; [congruence|by apply B8].
  - intros q. destruct (B9 q) as [Hw Hb]. split; [done|]. intros i Hi. specialize (Hb i Hi). lia.
  - intros q c Hb. destruct (B10 q c Hb) as [Hs Hc]. destruct (B11 c q Hc) as [Hid _]. by rewrite Hold.
  - intros c q Hc. destruct (B11 c q Hc) as [Hid Hl]. rewrite Hold by done. auto.
Qed.

(** before the scheduler starts *)
Record unstarted (s : sched) : Prop := {
  us_num : 0 <= num_tasks s <= MAX_TASKS;
  us_prio : prio_ok s;
  us_new : forall c, task_ids s c -> state (tk s c) = TASK_READY /\ running_on_cpu (tk s c) = -1;
  us_pend : pendsv s = ∅;
}.

Lemma unstarted_create f nm prio s : unstarted s -> unstarted (sched_create_task f nm (u8 prio) s).2.
Proof.
  intros U. destruct (decide (num_tasks s < MAX_TASKS)) as [Hlt|Hge]; [|by rewrite create_full by lia].
  destruct (create_spec f nm (u8 prio) s Hlt) as (Hn & Hcur & Hpend & t & Ht1 & Ht2 & Ht3 & Htk).
  destruct U as [U1 U2 U3 U4]. pose proof (u8_range prio). split.
  - lia.
  - intros c. rewrite Htk. case_decide; [lia|apply U2].
  - intros c Hc. rewrite Htk. case_decide; [done|]. apply U3. unfold task_ids in *. lia.
  - by rewrite Hpend.
Qed.

Lemma create_all_unstarted l s : unstarted s -> unstarted (create_all l s).
Proof. revert s. induction l as [|[[f nm] prio] l IH]; intros s Hs; cbn; [done|]. by apply IH, unstarted_create. Qed.

Lemma create_all_num l s : 0 <= num_tasks s -> num_tasks s + Z.of_nat (length l) <= MAX_TASKS ->
  num_tasks (create_all l s) = num_tasks s + Z.of_nat (length l).
Proof.
  revert s. induction l as [|[[f nm] prio] l IH]; intros s H0 Hle; cbn in *; [lia|].
  destruct (create_spec f nm (u8 prio) s) as (Hn & _); [lia|]. unfold create_all in IH. rewrite IH; lia.
Qed.

Lemma base_start z s : MAX_TASKS <= 32 -> unstarted s -> task_ids s z -> base z (sched_start 0 s).2 (fun _ => 0) ∅.
Proof.
  intros Hmax [U1 U2 U3 U4] Hz. unfold sched_start. unfold task_ids in Hz. rewrite (proj2 (Z.eqb_neq _ _)) by lia. cbn [snd].
  rewrite upd_upd. set (s' := upd 0 _ _).
  assert (forall c, tk s' c = if decide (0 = c) then set_cpu 0 (set_state TASK_RUNNING (tk s 0)) else tk s c) as Htk
    by (intros c; unfold s'; rewrite tk_upd; reflexivity).
  assert (cur s' 0 = 0) as Hcur by (unfold cur; cbn; by rewrite lookup_insert_eq).
  split.
  - rewrite Hcur. unfold task_ids. cbn. lia.
  - cbn. lia.
  - intros c. rewrite Htk. case_decide; apply U2.
  - split; [exact Hz|]. split; [|done]. rewrite Htk. case_decide; [done|]. apply live_true. left. by apply U3.
  - intros c Hc. rewrite Htk, Hcur. case_decide; [done|]. destruct (U3 c Hc). congruence.
  - intros _. by rewrite Hcur, Htk.
  - intros c Hc. rewrite Htk. case_decide; [done|]. destruct (U3 c Hc) as [Hs ->]. by rewrite (tk_ne_state TASK_READY).
  - intros c Hc. rewrite Htk. case_decide; [done|]. destruct (U3 c Hc). congruence.
  - intros q. apply queue_ok_0.
  - intros q c. by rewrite Z.bits_0.
  - done.
Qed.
End steps.

(** * Every step keeps it *)

Lemma s16_range v : - 2 ^ 15 <= s16 v < 2 ^ 15.
Proof. unfold s16, u16. pose proof (Z.mod_pos_bound v (2 ^ 16)). case_bool; lia. Qed.

Lemma s16_le v : - 2 ^ 15 <= v -> s16 v <= v.
Proof.
  intros Hv. unfold s16, u16. pose proof (Z.div_mod v (2 ^ 16)). pose proof (Z.mod_pos_bound v (2 ^ 16)).
  assert (-1 <= v / 2 ^ 16) by (apply Z.div_le_lower_bound; lia). case_bool; lia.
Qed.

Lemma wq_put_sem a x s m q : wq (put_sem a x s m) q = upd_queue (SemTake a) (sem_wq x) (wq m) q.
Proof.
  unfold upd_queue. destruct q as [b|b]; cbn.
  - destruct (decide (b = a)) as [->|Hne]; [by rewrite lookup_insert_eq, decide_True|].
    rewrite lookup_insert_ne, decide_False by congruence. done.
  - by rewrite decide_False.
Qed.

Lemma wq_put_mut a x s m q : wq (put_mut a x s m) q = upd_queue (MutexLock a) (mutex_wq x) (wq m) q.
Proof.
  unfold upd_queue. destruct q as [b|b]; cbn.
  - by rewrite decide_False.
  - destruct (decide (b = a)) as [->|Hne]; [by rewrite lookup_insert_eq, decide_True|].
    rewrite lookup_insert_ne, decide_False by congruence. done.
Qed.

(** The counts may change where an object is updated. *)
Lemma tokens_sem wk wk' sm mt a x : tokens wk sm mt -> (forall q, q <> SemTake a -> wk' q = wk q) ->
  - 2 ^ 15 <= count x -> (sem_wq x <> 0 -> count x <= wk' (SemTake a)) -> tokens wk' (<[a := x]> sm) mt.
Proof.
  intros [T0 T1 T2] Hwk Hr Hx. split.
  - intros b y [[-> <-]|[Hne Hy]]%lookup_insert_Some; [done|by apply (T0 b)].
  - intros b y [[-> <-]|[Hne Hy]]%lookup_insert_Some; [done|]. rewrite Hwk by congruence. by apply T1.
  - intros b y Hy. rewrite Hwk by done. by apply T2.
Qed.

Lemma tokens_mut wk wk' sm mt a x : tokens wk sm mt -> (forall q, q <> MutexLock a -> wk' q = wk q) ->
  (mutex_wq x <> 0 -> 0 <= owner x \/ 0 < wk' (MutexLock a)) -> tokens wk' sm (<[a := x]> mt).
Proof.
  intros [T0 T1 T2] Hwk Hx. split.
  - exact T0.
  - intros b y Hy. rewrite Hwk by done. by apply T1.
  - intros b y [[-> <-]|[Hne Hy]]%lookup_insert_Some; [done|]. rewrite Hwk by congruence. by apply T2.
Qed.

Lemma tokens_same wk wk' sm mt : tokens wk sm mt -> (forall q, wk' q = wk q) -> tokens wk' sm mt.
Proof. intros [T0 T1 T2] Hwk. split; [done|..]; intros a x Hx; rewrite Hwk; [by apply T1|by apply T2]. Qed.

Lemma good_give z a m m' : good z m -> give a m = Some m' -> good z m'.
Proof.
  intros [B T] (x & Hx & He)%bind_Some. unfold sem_give in He. pose proof (base_wake z _ _ _ (SemTake a) B) as Hw.
  assert (wq m (SemTake a) = sem_wq x) as Hq by (cbn; by rewrite Hx). rewrite Hq in Hw.
  destruct (sched_wake (sem_wq x) (ks m)) as [w s'] eqn:E. destruct Hw as (B' & Hoth & Hself). injection He as <-. split.
  - eapply base_ext; [intros q; apply wq_put_sem|exact B'].
  - cbn. apply (tokens_sem (wokens (ks m) (calls m))); [exact T|exact Hoth|apply s16_range|]. cbn. intros Hne.
    destruct (Hself Hne) as [H0 ->]. pose proof (t_range _ _ _ T a x Hx) as Hr. pose proof (t_sem _ _ _ T a x Hx H0).
    pose proof (s16_le (count x + 1)). lia.
Qed.

Lemma good_unlock z a x m : good z m -> muts m !! a = Some x ->
  let '(x', s) := mutex_unlock x (ks m) in good z (put_mut a x' s m).
Proof.
  intros [B T] Hx. unfold mutex_unlock. pose proof (base_wake z _ _ _ (MutexLock a) B) as Hw.
  assert (wq m (MutexLock a) = mutex_wq x) as Hq by (cbn; by rewrite Hx). rewrite Hq in Hw.
  destruct (sched_wake (mutex_wq x) (ks m)) as [w s'] eqn:E. destruct Hw as (B' & Hoth & Hself). split.
  - eapply base_ext; [intros q; apply wq_put_mut|exact B'].
  - cbn. apply (tokens_mut (wokens (ks m) (calls m))); [exact T|exact Hoth|]. cbn. intros Hne. right.
    destruct (Hself Hne) as [_ ->]. pose proof (count_nonneg (Z.to_nat (num_tasks (ks m))) (woken (ks m) (calls m) (MutexLock a))).
    unfold wokens. lia.
Qed.

Lemma wokens_nonneg s cl q : 0 <= wokens s cl q.
Proof. apply count_nonneg. Qed.

Lemma upd_queue_same q W q' : upd_queue q (W q) W q' = W q'.
Proof. unfold upd_queue. case_decide; by subst. Qed.

Lemma s8_id c : 0 <= c < 32 -> s8 c = c.
Proof. intros Hc. unfold s8. rewrite u8_small by lia. by rewrite (proj2 (Z.ltb_lt _ _)) by lia. Qed.

Lemma good_round z q m m' : good z m -> 0 ∉ pendsv (ks m) -> cur (ks m) 0 <> z ->
  (forall q', calls m !! cur (ks m) 0 = Some q' -> q' = q) -> round 0 q m = Some m' -> good z m'.
Proof.
  intros [B T] Hp Hz Hq. set (c := cur (ks m) 0) in *. destruct (base_return z _ _ _ B Hp) as (BR & RO & RS). fold c in BR, RO, RS.
  assert (forall q', q' <> q -> calls m !! c <> Some q') as Hne by (intros q' Hne E; by apply Hq in E).
  pose proof (base_block z _ _ _ q B Hp Hz) as Hb. fold c in Hb.
  destruct q as [a|a]; cbn [round]; intros (x & Hx & He)%bind_Some.
  - assert (wq m (SemTake a) = sem_wq x) as Hw by (cbn; by rewrite Hx). rewrite Hw in Hb.
    unfold sem_take_round in He. destruct (Z.ltb_spec 0 (count x)) as [Hpos|Hle].
    + injection He as <-. split; cbn.
      * eapply base_ext; [|exact BR]. intros q. change (wq (settle _ _ _ ?m) q) with (wq m q). rewrite wq_put_sem. cbn. rewrite <- Hw. apply upd_queue_same.
      * apply (tokens_sem (wokens (ks m) (calls m))); [exact T|intros q Hqne; by apply RO, Hne|apply s16_range|]. cbn. intros Hwne.
        pose proof (t_sem _ _ _ T a x Hx Hwne). specialize (RS (SemTake a)). pose proof (s16_le (count x - 1)). fold c. lia.
    + destruct (sched_block 0 (sem_wq x) (ks m)) as [w s'] eqn:E. injection He as <-. destruct Hb as [Hb1 Hb2].
      assert (cur s' 0 = c) as Hcs by (unfold sched_block in E; injection E as <- <-; done). unfold settle. cbn.
      change (cur (sched_yield 0 s') 0) with (cur s' 0). rewrite Hcs. split; cbn.
      * eapply base_ext; [|exact Hb1]. intros q. apply (wq_put_sem a (Sem (count x) w) s' m).
      * apply (tokens_sem (wokens (ks m) (calls m))); [exact T|intros q Hqne; by apply Hb2, Hne|apply (t_range _ _ _ T a x Hx)|].
        cbn. intros _. pose proof (wokens_nonneg (sched_yield 0 s') (<[c:=SemTake a]> (calls m)) (SemTake a)). lia.
  - assert (wq m (MutexLock a) = mutex_wq x) as Hw by (cbn; by rewrite Hx). rewrite Hw in Hb.
    unfold mutex_lock_round in He. destruct (Z.ltb_spec (owner x) 0) as [Hneg|Hge].
    + injection He as <-. split; cbn.
      * eapply base_ext; [|exact BR]. intros q. change (wq (settle _ _ _ ?m) q) with (wq m q). rewrite wq_put_mut. cbn. rewrite <- Hw. apply upd_queue_same.
      * apply (tokens_mut (wokens (ks m) (calls m))); [exact T|intros q Hqne; by apply RO, Hne|]. cbn. intros _. left.
        pose proof (b_cur _ _ _ _ B). pose proof (b_num _ _ _ _ B). unfold sched_current_id, task_ids in *. rewrite s8_id; lia.
    + destruct (sched_block 0 (mutex_wq x) (ks m)) as [w s'] eqn:E. injection He as <-. destruct Hb as [Hb1 Hb2].
      assert (cur s' 0 = c) as Hcs by (unfold sched_block in E; injection E as <- <-; done). unfold settle. cbn.
      change (cur (sched_yield 0 s') 0) with (cur s' 0). rewrite Hcs. split; cbn.
      * eapply base_ext; [|exact Hb1]. intros q. apply (wq_put_mut a (Mutex (owner x) w) s' m).
      * apply (tokens_mut (wokens (ks m) (calls m))); [exact T|intros q Hqne; by apply Hb2, Hne|]. cbn. intros _. by left.
Qed.

(** The idle task makes no call that could stop it. *)
Definition idle_ok (z : Z) (e : event) (m : machine) : Prop :=
  match e with
  | ETake _ | ELock _ | ESleep _ | EExit => cur (ks m) 0 <> z
  | _ => True
  end.

#[export] Instance idle_ok_dec z e m : Decision (idle_ok z e m).
Proof. destruct e; cbn; apply _. Defined.

Section runs.
Context `{Config}.

Lemma good_ks z m s : good z m -> base z s (wq m) (calls m) -> (forall q, wokens s (calls m) q = wokens (ks m) (calls m) q) ->
  good z (set_ks s m).
Proof. intros [_ T] B Hw. split; [exact B|]. by apply (tokens_same (wokens (ks m) (calls m))). Qed.

Lemma good_task_step z e m m' : MAX_TASKS <= 32 -> good z m -> 0 ∉ pendsv (ks m) -> calls m !! cur (ks m) 0 = None -> idle_ok z e m ->
  task_step 0 e m = Some m' -> good z m'.
Proof.
  intros Hmax G Hp Hc Hi. pose proof G as [B T].
  destruct e as [a|a|a|a|a| |ms| |f nm prio| |a| |p]; cbn [task_step]; intros He; try done; cbn in Hi.
  - by apply (good_give z a m).
  - apply (good_round z (SemTake a) m); try done. by rewrite Hc.
  - apply bind_Some in He as (x & Hx & He). unfold sem_try_take in He. assert (wq m (SemTake a) = sem_wq x) as Hw by (cbn; by rewrite Hx).
    assert (forall q v, wq (put_sem a (Sem v (sem_wq x)) (ks m) m) q = wq m q) as Hsame.
    { intros q v. rewrite wq_put_sem. cbn. rewrite <- Hw. apply upd_queue_same. }
    destruct (Z.ltb_spec 0 (count x)); injection He as <-; (split; cbn; [eapply base_ext; [|exact B]; intros q|]).
    + apply Hsame.
    + apply (tokens_sem (wokens (ks m) (calls m))); [exact T|done|apply s16_range|]. cbn. intros Hne.
      pose proof (t_sem _ _ _ T a x Hx Hne). pose proof (s16_le (count x - 1)). lia.
    + destruct x. apply Hsame.
    + rewrite insert_id by done. exact T.
  - apply (good_round z (MutexLock a) m); try done. by rewrite Hc.
  - apply bind_Some in He as (x & Hx & He). pose proof (good_unlock z a x m G Hx) as Hu.
    destruct (mutex_unlock x (ks m)). by injection He as <-.
  - injection He as <-. apply good_ks; [exact G| |done]. apply (base_flag z (ks m) _ _ (tick_count (ks m))) in B. by destruct (ks m).
  - injection He as <-. unfold sched_sleep_ms. rewrite !upd_upd. destruct (base_leave z (ks m) (wq m) (calls m) TASK_SLEEPING
      (set_cpu (-1) ∘ (set_state TASK_SLEEPING ∘ set_wake_tick (systick_get_ticks (ks m) +w ms)))) as [B' Hw]; try done; [by left|].
    by apply good_ks.
  - injection He as <-. unfold sched_task_exit. change (cur (upd ?c ?g (ks m)) 0) with (cur (ks m) 0). rewrite upd_upd.
    destruct (base_leave z (ks m) (wq m) (calls m) TASK_DEAD (set_cpu (-1) ∘ set_state TASK_DEAD)) as [B' Hw]; try done; [by right|].
    by apply good_ks.
  - injection He as <-. pose proof (u8_range prio). destruct (base_create z (ks m) (wq m) (calls m) f nm (u8 prio)) as [B' Hw]; [done|lia|done|].
    by apply good_ks.
Qed.

Lemma good_exec z e m m' : MAX_TASKS <= 32 -> good z m -> idle_ok z e m -> exec 0 e m = Some m' -> good z m'.
Proof.
  intros Hmax G Hi He. pose proof G as [B T].
  assert (forall e, (if in_thread 0 m then match in_call 0 m with Some _ => None | None => task_step 0 e m end else None) = Some m' ->
    idle_ok z e m -> good z m') as Htask.
  { intros e' He' Hi'. unfold in_thread in He'. case_bool_decide as Hp; [|done]. destruct (in_call 0 m) eqn:E; [done|].
    by apply (good_task_step z e' m). }
  destruct e as [a|a|a|a|a| |ms| |f nm prio| |a| |p]; cbn [exec] in He; try by apply (Htask _ He).
  - unfold in_thread in He. case_bool_decide as Hp; [|done]. apply bind_Some in He as (q & Hq & He).
    apply (good_round z q m m'); try done.
    + intros E. unfold in_call in Hq. rewrite E in Hq. destruct (b_idle _ _ _ _ B) as (_ & _ & Hn). congruence.
    + intros q' Hq'. unfold in_call in Hq. congruence.
  - by apply (good_give z a m).
  - injection He as <-. apply good_ks; [exact G| |done]. by apply base_flag.
  - destruct (in_thread 0 m); [done|]. injection He as <-. destruct (base_preempt z (ks m) (wq m) (calls m) p B) as [B' Hw].
    by apply good_ks.
Qed.

(** The states a machine can reach from [m0] while the idle task behaves. *)
Inductive reachable (z : Z) (m0 : machine) : machine -> Prop :=
  | reach_refl : reachable z m0 m0
  | reach_step e m m' : reachable z m0 m -> idle_ok z e m -> exec 0 e m = Some m' -> reachable z m0 m'.

Lemma boot_good z l counts ms : MAX_TASKS <= 32 -> 0 <= z < Z.of_nat (length l) -> Z.of_nat (length l) <= MAX_TASKS ->
  good z (boot l counts ms).
Proof.
  intros Hmax Hz Hl. assert (unstarted (create_all l sched0)) as U.
  { apply create_all_unstarted. split; [cbn; lia| |unfold task_ids; cbn; lia|done]. intros c. by vm_compute. }
  split; cbn.
  - eapply base_ext; [|apply base_start; [done|exact U|]].
    + intros [a|a]; cbn.
      * rewrite lookup_fmap. by destruct (counts !! a).
      * rewrite lookup_gset_to_gmap. unfold guard. by case_decide.
    + unfold task_ids. rewrite create_all_num; cbn; lia.
  - split.
    + intros a x. rewrite lookup_fmap. intros (v & _ & ->)%fmap_Some. apply s16_range.
    + intros a x. rewrite lookup_fmap. by intros (v & _ & ->)%fmap_Some.
    + intros a x [_ <-]%lookup_gset_to_gmap_Some. done.
Qed.

Lemma reachable_good z m0 m : MAX_TASKS <= 32 -> good z m0 -> reachable z m0 m -> good z m.
Proof. intros Hmax G. induction 1 as [|e m m' Hr IH Hi He]; [done|]. by apply (good_exec z e m). Qed.

(** What call [q] waits for is there. *)
Definition available (m : machine) (q : call) : Prop :=
  match q with
  | SemTake a => exists x, sems m !! a = Some x /\ 0 < count x
  | MutexLock a => exists x, muts m !! a = Some x /\ owner x < 0
  end.

Lemma good_woken z m c q : good z m -> calls m !! c = Some q -> state (tk (ks m) c) = TASK_BLOCKED -> available m q ->
  exists d, task_ids (ks m) d /\ calls m !! d = Some q /\ live (tk (ks m) d) = true.
Proof.
  intros [B T] Hc Hs Ha. destruct (b_call _ _ _ _ B c q Hc) as [Hid _].
  destruct (b_blocked _ _ _ _ B c Hid Hs) as (q' & Hq' & Hb). assert (q' = q) as -> by congruence.
  assert (wq m q <> 0) as Hne by (intros E; by rewrite E, Z.bits_0 in Hb).
  assert (0 < wokens (ks m) (calls m) q) as Hpos.
  { destruct q as [a|a]; destruct Ha as (x & Hx & Hv); cbn in Hne; rewrite Hx in Hne.
    - pose proof (t_sem _ _ _ T a x Hx Hne). lia.
    - destruct (t_mut _ _ _ T a x Hx Hne); lia. }
  apply count_pos in Hpos as (d & Hd & Hw). unfold woken in Hw. apply andb_true_iff in Hw as [Hw1%bool_decide_eq_true Hw2].
  exists d. split; [unfold task_ids; lia|]. done.
Qed.

(** C6. On one core, whatever tasks, interrupt handlers and the switch do in
    whatever order, while the idle task makes no blocking call: at most the
    current task runs and no task is marked as running anywhere else, a task is
    blocked exactly when it is in the queue of the semaphore or mutex it waits
    for, and no wakeup is lost: if what a blocked task waits for is there, a
    task that is ready or running is on its way to take it. *)
Theorem rtos_scheduler_sound l counts ms z m (Hmax : MAX_TASKS <= 32) (Hidle : 0 <= z < Z.of_nat (length l))
    (Hl : Z.of_nat (length l) <= MAX_TASKS) (Hrun : reachable z (boot l counts ms) m) :
  good z m /\
  forall c q, calls m !! c = Some q -> state (tk (ks m) c) = TASK_BLOCKED -> available m q ->
    exists d, task_ids (ks m) d /\ calls m !! d = Some q /\ live (tk (ks m) d) = true.
Proof.
  assert (good z m) as G by (by apply (reachable_good z (boot l counts ms)), Hrun; [|apply boot_good]).
  split; [exact G|]. intros c q. by apply (good_woken z).
Qed.
End runs.

(** * Blocking calls through the supervisor *)

Lemma sem_take_stuck cpu fuel x s : count x <= 0 -> sem_take cpu fuel x s = None.
Proof.
  revert x s. induction fuel as [|n IH]; intros x s Hc; cbn [sem_take]; [done|].
  unfold sem_take_round. rewrite (proj2 (Z.ltb_ge _ _)) by done. destruct (sched_block cpu (sem_wq x) s). by apply IH.
Qed.

Lemma mutex_lock_stuck cpu fuel x s : 0 <= owner x -> mutex_lock cpu fuel x s = None.
Proof.
  revert x s. induction fuel as [|n IH]; intros x s Hc; cbn [mutex_lock]; [done|].
  unfold mutex_lock_round. rewrite (proj2 (Z.ltb_ge _ _)) by done. destruct (sched_block cpu (mutex_wq x) s). by apply IH.
Qed.

(** C39. A supervisor call to take a semaphore or lock a mutex returns only if
    it need not wait: when the semaphore is empty or the mutex is owned, the
    handler, which the switch cannot interrupt, goes round its loop for ever. *)
Theorem svc_blocking_call_returns_iff cpu a b x y m (Hx : sems m !! a = Some x) (Hy : muts m !! b = Some y) :
  ((exists fuel, svc_dispatch fuel cpu SYS_SEM_TAKE a m <> None) <-> 0 < count x) /\
  ((exists fuel, svc_dispatch fuel cpu SYS_MUTEX_LOCK b m <> None) <-> owner y < 0).
Proof.
  assert (forall fuel, svc_dispatch fuel cpu SYS_SEM_TAKE a m =
            ('(x, s) ← sem_take cpu fuel x (ks m); Some (0, put_sem a x s m))) as E1.
  { intros fuel. unfold svc_dispatch. cbn [Z.eqb Pos.eqb SYS_SEM_TAKE SYS_YIELD SYS_SLEEP_MS SYS_SEM_GIVE]. by rewrite Hx. }
  assert (forall fuel, svc_dispatch fuel cpu SYS_MUTEX_LOCK b m =
            ('(y, s) ← mutex_lock cpu fuel y (ks m); Some (0, put_mut b y s m))) as E2.
  { intros fuel. unfold svc_dispatch. cbn [Z.eqb Pos.eqb SYS_SEM_TAKE SYS_YIELD SYS_SLEEP_MS SYS_SEM_GIVE SYS_MUTEX_LOCK]. by rewrite Hy. }
  split; split.
  - intros [fuel Hf]. rewrite E1 in Hf. destruct (decide (0 < count x)); [done|]. by rewrite sem_take_stuck in Hf by lia.
  - intros Hc. exists 1%nat. rewrite E1. cbn [sem_take]. unfold sem_take_round. by rewrite (proj2 (Z.ltb_lt _ _)).
  - intros [fuel Hf]. rewrite E2 in Hf. destruct (decide (owner y < 0)); [done|]. by rewrite mutex_lock_stuck in Hf by lia.
  - intros Hc. exists 1%nat. rewrite E2. cbn [mutex_lock]. unfold mutex_lock_round. by rewrite (proj2 (Z.ltb_lt _ _)).
Qed.

(** * Two cores *)

(** Started on both cores, the scheduler runs task 0 on both, on one stack. *)
Theorem smp_start_shares_task s : num_tasks s <> 0 ->
  let '(e0, s0) := sched_start 0 s in let '(e1, s1) := sched_start 1 s0 in
  is_Some e0 /\ e1 = e0 /\ cur s1 0 = 0 /\ cur s1 1 = 0.
Proof.
  intros Hn. unfold sched_start. rewrite (proj2 (Z.eqb_neq (num_tasks s) 0)) by done. cbn [num_tasks upd set_tasks set_cur_task].
  rewrite (proj2 (Z.eqb_neq (num_tasks s) 0)) by done. rewrite !upd_upd, !tk_upd_eq. split; [done|]. split; [|split].
  - cbn. unfold tk, upd. cbn. by rewrite lookup_insert_eq.
  - unfold cur. cbn. by rewrite lookup_insert_ne, lookup_insert_eq.
  - unfold cur. cbn. by rewrite lookup_insert_eq.
Qed.

(** ** Witnesses *)

Fixpoint run `{Config} (z : Z) (es : list event) (m : machine) : option machine :=
  match es with
  | [] => Some m
  | e :: es => if decide (idle_ok z e m) then m ← exec 0 e m; run z es m else None
  end.

Lemma run_reachable `{Config} z es m0 m m' : reachable z m0 m -> run z es m = Some m' -> reachable z m0 m'.
Proof.
  revert m. induction es as [|e es IH]; intros m Hr; cbn [run]; [by intros [= <-]|].
  case_decide; [|done]. intros (m1 & He & Hrun)%bind_Some. apply (IH m1); [|done]. by apply (reach_step z m0 e m).
Qed.

(** two workers and the idle task; the workers wait for a semaphore that an
    interrupt handler gives once *)
Definition demo_boot : machine := boot [(0x101, 0x201, 2); (0x102, 0x202, 3); (0x103, 0x203, 7)] {[0x100 := 0]} {[0x300]}.
Definition demo_events : list event :=
  [ELock 0x300; ETake 0x100; EPendsv 0x20000F00; ETake 0x100; EPendsv 0x20001F00; EYield; EIsrGive 0x100].
Definition demo_machine : machine := default demo_boot (run 2 demo_events demo_boot).

Lemma demo_run : run 2 demo_events demo_boot = Some demo_machine.
Proof. vm_compute. reflexivity. Qed.

Lemma demo_waits : calls demo_machine !! 1 = Some (SemTake 0x100) /\ state (tk (ks demo_machine) 1) = TASK_BLOCKED /\
  available demo_machine (SemTake 0x100).
Proof. split; [|split]; [vm_compute; reflexivity..|]. exists (Sem 1 2). split; [vm_compute; reflexivity|done]. Qed.

Lemma rtos_scheduler_sound_witness : good 2 demo_machine /\ exists d, task_ids (ks demo_machine) d /\
  calls demo_machine !! d = Some (SemTake 0x100) /\ live (tk (ks demo_machine) d) = true.
Proof.
  destruct (rtos_scheduler_sound [(0x101, 0x201, 2); (0x102, 0x202, 3); (0x103, 0x203, 7)] {[0x100 := 0]} {[0x300]} 2 demo_machine) as [Hg Hw].
  - done.
  - done.
  - done.
  - exact (run_reachable 2 demo_events demo_boot demo_boot demo_machine (reach_refl 2 demo_boot) demo_run).
  - split; [exact Hg|]. destruct demo_waits as (H1 & H2 & H3). exact (Hw 1 (SemTake 0x100) H1 H2 H3).
Defined.

Lemma svc_blocking_call_returns_iff_witness :
  ((exists fuel, svc_dispatch fuel 0 SYS_SEM_TAKE 0x100 demo_boot <> None) <-> 0 < 0) /\
  ((exists fuel, svc_dispatch fuel 0 SYS_MUTEX_LOCK 0x300 demo_boot <> None) <-> -1 < 0).
Proof. apply (svc_blocking_call_returns_iff 0 0x100 0x300 (Sem 0 0) (Mutex (-1) 0) demo_boot); vm_compute; reflexivity. Defined.
