(* ===== verification/RtosMsgq.v ===== *)
(** Message queues of the RTOS, [rtos/kernel/msgq.c]: the ring of fixed-size
    messages, in memory at the address of its [struct msgq], is a bounded
    queue.

    A round of the loops of [msgq_put] and [msgq_get] (with interrupts off) is
    one function; [false] means that the task yields and tries again. *)

From stdpp Require Import gmap list fin_maps.
From Stdlib Require Import ZArith Lia.
From S2P Require Import Prelude Memory.

Definition MSGQ_MAX_MSGS : Z := 8.
Definition MSGQ_MAX_MSG_SIZE : Z := 32.

(** The fields of [struct msgq]: [buf[i]], [head], [tail], [count], [msg_size]. *)
Definition q_buf (q i : Z) : Z := q + i * MSGQ_MAX_MSG_SIZE.
Definition q_head (q : Z) : Z := q + 256.
Definition q_tail (q : Z) : Z := q + 257.
Definition q_count (q : Z) : Z := q + 258.
Definition q_msg_size (q : Z) : Z := q + 259.

Definition MSGQ_INIT (q msize : Z) (m : mem) : mem :=
  stb (stb (stb (stb m (q_head q) 0) (q_tail q) 0) (q_count q) 0) (q_msg_size q) msize.

(** [while (n--) *d++ = *s++;] *)
Fixpoint memcpy_small (n : nat) (d s : Z) (m : mem) : mem :=
  match n with
  | O => m
  | S n => memcpy_small n (d + 1) (s + 1) (stb m d (ldb m s))
  end.

Definition msgq_put_round (q msg : Z) (m : mem) : bool * mem :=
  if ldb m (q_count q) <? MSGQ_MAX_MSGS then
    let m := memcpy_small (Z.to_nat (ldb m (q_msg_size q))) (q_buf q (ldb m (q_head q))) msg m in
    let m := stb m (q_head q) ((ldb m (q_head q) + 1) mod MSGQ_MAX_MSGS) in
    let m := stb m (q_count q) (ldb m (q_count q) + 1) in
    (true, m)
  else (false, m).

Definition msgq_get_round (q msg : Z) (m : mem) : bool * mem :=
  if 0 <? ldb m (q_count q) then
    let m := memcpy_small (Z.to_nat (ldb m (q_msg_size q))) msg (q_buf q (ldb m (q_tail q))) m in
    let m := stb m (q_tail q) ((ldb m (q_tail q) + 1) mod MSGQ_MAX_MSGS) in
    let m := stb m (q_count q) (ldb m (q_count q) - 1) in
    (true, m)
  else (false, m).

Definition msgq_try_get (q msg : Z) (m : mem) : Z * mem :=
  let '(ok, m) := msgq_get_round q msg m in (if ok : bool then 0 else -1, m).

(** * The queue *)

Lemma memcpy_small_eq n d s m : memcpy_small n d s m = memcpy n d s m.
Proof. revert d s m. induction n as [|n IH]; intros d s m; cbn; [done|apply IH]. Qed.

(** The queue at [q] has its oldest message in slot [t] and holds [l], messages of [sz] bytes. *)
Record msgq_rep (m : mem) (q sz t : Z) (l : list (list Z)) : Prop := {
  mq_size : ldb m (q_msg_size q) = sz /\ 0 <= sz <= MSGQ_MAX_MSG_SIZE;
  mq_tail : ldb m (q_tail q) = t /\ 0 <= t < MSGQ_MAX_MSGS;
  mq_count : ldb m (q_count q) = Z.of_nat (length l) /\ Z.of_nat (length l) <= MSGQ_MAX_MSGS;
  mq_head : ldb m (q_head q) = (t + Z.of_nat (length l)) mod MSGQ_MAX_MSGS;
  mq_msgs : forall i x, l !! i = Some x -> bytes_at m (q_buf q ((t + Z.of_nat i) mod MSGQ_MAX_MSGS)) (Z.to_nat sz) = x;
}.

(** a buffer of [n] bytes apart from the queue *)
Definition apart (q msg n : Z) : Prop := msg + n <= q \/ q + 260 <= msg.

(** Memory after [n] bytes went from [s] to [d] and two bytes were set. *)
Lemma copied_lookup n d s a1 v1 a2 v2 m a : d + Z.of_nat n <= s \/ s + Z.of_nat n <= d -> 0 <= v1 < 256 -> 0 <= v2 < 256 ->
  ldb (stb (stb (memcpy n d s m) a1 v1) a2 v2) a =
  if decide (a = a2) then v2 else if decide (a = a1) then v1
  else if decide (in_range d (Z.of_nat n) a) then ldb m (s + (a - d)) else ldb m a.
Proof.
  intros Hd H1 H2. rewrite !ldb_stb. destruct (decide (a = a2)) as [->|]; [rewrite decide_True by done; by apply u8_small|].
  rewrite (decide_False (P := a2 = a)) by congruence. destruct (decide (a = a1)) as [->|]; [rewrite decide_True by done; by apply u8_small|].
  rewrite (decide_False (P := a1 = a)) by congruence. apply memcpy_lookup. lia.
Qed.

Ltac fields := unfold q_buf, q_head, q_tail, q_count, q_msg_size, MSGQ_MAX_MSG_SIZE, MSGQ_MAX_MSGS in *.

(** the slots of a queue that is not full *)
Lemma slot_free t i n : 0 <= t < 8 -> 0 <= i < n -> n < 8 -> (t + i) mod 8 <> (t + n) mod 8.
Proof. intros Ht Hi Hn. Z.div_mod_to_equations. lia. Qed.

Lemma msgq_put_spec m q msg sz t l : msgq_rep m q sz t l -> apart q msg sz ->
  let '(ok, m') := msgq_put_round q msg m in
  if decide (Z.of_nat (length l) < MSGQ_MAX_MSGS)
  then ok = true /\ msgq_rep m' q sz t (l ++ [bytes_at m msg (Z.to_nat sz)]) /\ mem_frame (in_range q 260) m m'
  else ok = false /\ m' = m.
Proof.
  intros [[Hs Hs'] [Ht Ht'] [Hc Hc'] Hh Hm] Ha. unfold msgq_put_round. rewrite Hc. fields. unfold apart in Ha.
  case_decide as Hlt; [|by rewrite (proj2 (Z.ltb_ge _ _)) by lia]. rewrite (proj2 (Z.ltb_lt _ _)) by lia.
  set (n := Z.of_nat (length l)) in *. rewrite memcpy_small_eq, Hs, Hh. set (h := (t + n) mod 8) in *.
  assert (0 <= h < 8) as Hhr by (apply Z.mod_pos_bound; lia).
  set (m1 := memcpy _ _ _ m).
  assert (forall f, 256 <= f -> ldb m1 (q + f) = ldb m (q + f)) as Hf.
  { intros f Hf. unfold m1. apply mem_frame_memcpy. unfold in_range. lia. }
  rewrite ldb_stb_ne, !Hf, Hh, Hc by lia. fold h.
  pose proof (Z.mod_pos_bound (h + 1) 8) as Hh1.
  assert (forall a, ldb (stb (stb m1 (q + 256) ((h + 1) mod 8)) (q + 258) (n + 1)) a =
    if decide (a = q + 258) then n + 1 else if decide (a = q + 256) then (h + 1) mod 8
    else if decide (in_range (q + h * 32) sz a) then ldb m (msg + (a - (q + h * 32))) else ldb m a) as Hl.
  { intros a. unfold m1. rewrite copied_lookup by lia. by rewrite Z2Nat.id by lia. }
  split; [done|]. split.
  - split; fields; rewrite ?length_app; cbn [length].
    + rewrite Hl, !decide_False by (unfold in_range; lia). done.
    + rewrite Hl, !decide_False by (unfold in_range; lia). done.
    + rewrite Hl, decide_True by done. lia.
    + rewrite Hl, decide_False, decide_True by lia. unfold h. rewrite Zplus_mod_idemp_l. f_equal. lia.
    + intros i x. rewrite lookup_app_Some, list_lookup_singleton_Some. intros [Hi|(Hi & Hi0 & <-)].
      * rewrite <- (Hm i x Hi). apply bytes_at_ext. intros j Hj. apply lookup_lt_Some in Hi as Hil.
        pose proof (slot_free t (Z.of_nat i) n) as Hsl. fold h in Hsl. pose proof (Z.mod_pos_bound (t + Z.of_nat i) 8).
        rewrite Hl, !decide_False by (unfold in_range; lia). done.
      * replace (Z.of_nat i) with n by lia. fold h. apply bytes_at_ext. intros j Hj.
        rewrite Hl, decide_False, decide_False, decide_True by (unfold in_range; lia). f_equal. lia.
  - intros a Hna. unfold in_range in *. rewrite Hl, !decide_False by lia. done.
Qed.

Lemma msgq_get_spec m q msg sz t l : msgq_rep m q sz t l -> apart q msg sz ->
  let '(ok, m') := msgq_get_round q msg m in
  match l with
  | [] => ok = false /\ m' = m
  | x :: l => ok = true /\ msgq_rep m' q sz ((t + 1) mod MSGQ_MAX_MSGS) l /\ bytes_at m' msg (Z.to_nat sz) = x /\
              mem_frame (fun a => in_range q 260 a \/ in_range msg sz a) m m'
  end.
Proof.
  intros [[Hs Hs'] [Ht Ht'] [Hc Hc'] Hh Hm] Ha. unfold msgq_get_round. rewrite Hc. fields. unfold apart in Ha.
  destruct l as [|x l]; [done|]. cbn [length] in *. rewrite (proj2 (Z.ltb_lt _ _)) by lia.
  set (n := Z.of_nat (length l)) in *. rewrite memcpy_small_eq, Hs, Ht.
  set (m1 := memcpy _ _ _ m).
  assert (forall f, 256 <= f < 260 -> ldb m1 (q + f) = ldb m (q + f)) as Hf.
  { intros f Hf. unfold m1. apply mem_frame_memcpy. unfold in_range. lia. }
  rewrite ldb_stb_ne, !Hf, Ht, Hc by lia. pose proof (Z.mod_pos_bound (t + 1) 8) as Ht1.
  assert (forall a, ldb (stb (stb m1 (q + 257) ((t + 1) mod 8)) (q + 258) (Z.of_nat (S (length l)) - 1)) a =
    if decide (a = q + 258) then n else if decide (a = q + 257) then (t + 1) mod 8
    else if decide (in_range msg sz a) then ldb m (q + t * 32 + (a - msg)) else ldb m a) as Hl.
  { intros a. unfold m1. rewrite copied_lookup by lia. rewrite Z2Nat.id by lia. by replace (Z.of_nat (S (length l)) - 1) with n by lia. }
  split; [done|]. split; [|split].
  - split; fields.
    + rewrite Hl, !decide_False by (unfold in_range; lia). done.
    + rewrite Hl, decide_False, decide_True by lia. split; [done|lia].
    + rewrite Hl, decide_True by done. lia.
    + rewrite Hl, !decide_False by (unfold in_range; lia). rewrite Hh, Zplus_mod_idemp_l. f_equal. lia.
    + intros i y Hi. rewrite <- (Hm (S i) y Hi). rewrite Zplus_mod_idemp_l.
      replace (t + 1 + Z.of_nat i) with (t + Z.of_nat (S i)) by lia. pose proof (Z.mod_pos_bound (t + Z.of_nat (S i)) 8).
      apply bytes_at_ext. intros j Hj. rewrite Hl, !decide_False by (unfold in_range; lia). done.
  - rewrite <- (Hm 0%nat x eq_refl). apply bytes_at_ext. intros j Hj. change (Z.of_nat 0) with 0. rewrite (Z.add_0_r t), (Z.mod_small t) by lia.
    rewrite Hl, decide_False, decide_False, decide_True by (unfold in_range; lia). f_equal. lia.
  - intros a Hna. unfold in_range in *. rewrite Hl, !decide_False by lia. done.
Qed.

(** * Refinement *)

(** What the users of a queue do: send the message at an address, receive one
    there, or store into memory of their own. *)
Inductive qop := QPut (msg : Z) | QTryGet (msg : Z) | QStore (a v : Z).

Definition legal (q sz : Z) (o : qop) : Prop :=
  match o with
  | QPut msg | QTryGet msg => apart q msg sz
  | QStore a _ => ~ in_range q 260 a
  end.

#[export] Instance legal_dec q sz o : Decision (legal q sz o).
Proof. destruct o; unfold legal, apart, in_range; apply _. Defined.

(** what they see *)
Inductive qevent := Sent (x : list Z) | Full | Received (x : list Z) | Empty.

Definition q_step (q sz : Z) (o : qop) (m : mem) : list qevent * mem :=
  match o with
  | QPut msg => let '(ok, m') := msgq_put_round q msg m in ([if ok : bool then Sent (bytes_at m msg (Z.to_nat sz)) else Full], m')
  | QTryGet msg => let '(r, m') := msgq_try_get q msg m in
                   ([if r =? 0 then Received (bytes_at m' msg (Z.to_nat sz)) else Empty], m')
  | QStore a v => ([], stb m a v)
  end.

Fixpoint q_exec (q sz : Z) (os : list qop) (m : mem) : list qevent * mem :=
  match os with
  | [] => ([], m)
  | o :: os => let '(e, m) := q_step q sz o m in let '(es, m) := q_exec q sz os m in (e ++ es, m)
  end.

(** a first-in first-out queue of at most eight messages *)
Fixpoint fifo (es : list qevent) (l : list (list Z)) : option (list (list Z)) :=
  match es with
  | [] => Some l
  | Sent x :: es => if decide (Z.of_nat (length l) < MSGQ_MAX_MSGS) then fifo es (l ++ [x]) else None
  | Full :: es => if decide (Z.of_nat (length l) < MSGQ_MAX_MSGS) then None else fifo es l
  | Received x :: es => match l with y :: l => if decide (x = y) then fifo es l else None | [] => None end
  | Empty :: es => match l with [] => fifo es [] | _ :: _ => None end
  end.

Lemma fifo_app e es l : fifo (e ++ es) l = fifo e l ≫= fifo es.
Proof.
  revert l. induction e as [|[x| |x|] e IH]; intros l; cbn; [done|..]; [case_decide; [apply IH|done]|case_decide; [done|apply IH]|..].
  - destruct l as [|y l]; [done|]. case_decide; [apply IH|done].
  - destruct l; [apply IH|done].
Qed.

Lemma msgq_rep_frame m m' q sz t l : mem_frame (fun a => ~ in_range q 260 a) m m' -> msgq_rep m q sz t l -> msgq_rep m' q sz t l.
Proof.
  intros Hf [[Hs Hs'] [Ht Ht'] Hc Hh Hm]. unfold in_range in Hf.
  split; fields; rewrite ?Hf by lia; try done. intros i x Hi. rewrite <- (Hm i x Hi). apply bytes_at_ext. intros j Hj.
  pose proof (Z.mod_pos_bound (t + Z.of_nat i) 8). apply Hf. lia.
Qed.

Lemma q_step_refines q sz o m t l : msgq_rep m q sz t l -> legal q sz o ->
  let '(e, m') := q_step q sz o m in exists t' l', fifo e l = Some l' /\ msgq_rep m' q sz t' l'.
Proof.
  intros Hr Ho. destruct o as [msg|msg|a v]; cbn [q_step legal] in *.
  - pose proof (msgq_put_spec m q msg sz t l Hr Ho) as Hp. destruct (msgq_put_round q msg m) as [ok m'].
    exists t. destruct (decide (Z.of_nat (length l) < MSGQ_MAX_MSGS)) eqn:E.
    + destruct Hp as (-> & Hp & _). eexists. split; [|exact Hp]. cbn [fifo]. by rewrite E.
    + destruct Hp as (-> & ->). exists l. cbn [fifo]. by rewrite E.
  - pose proof (msgq_get_spec m q msg sz t l Hr Ho) as Hg. unfold msgq_try_get. destruct (msgq_get_round q msg m) as [ok m'].
    destruct l as [|x l].
    + destruct Hg as (-> & ->). by exists t, [].
    + destruct Hg as (-> & Hg & Hx & _). eexists _, l. split; [|exact Hg]. cbn. by rewrite decide_True.
  - exists t, l. split; [done|]. eapply msgq_rep_frame; [|exact Hr]. intros b Hb. apply ldb_stb_ne. intros <-. by apply Hb.
Qed.

(** C36. A message queue is a bounded queue: from a queue holding [l], in any
    sequence of sends, receives and stores elsewhere, the messages come out
    whole and in the order they went in, a send is refused exactly when eight
    messages are waiting and a receive exactly when none is, and what is left
    is what was sent and not received. *)
Theorem msgq_refines_fifo q sz os m t l (Hrep : msgq_rep m q sz t l) (Hlegal : Forall (legal q sz) os) :
  let '(es, m') := q_exec q sz os m in exists t' l', fifo es l = Some l' /\ msgq_rep m' q sz t' l'.
Proof.
  revert m t l Hrep. induction Hlegal as [|o os Ho Hos IH]; intros m t l Hrep; cbn [q_exec]; [by exists t, l|].
  pose proof (q_step_refines q sz o m t l Hrep Ho) as Hs. destruct (q_step q sz o m) as [e m1].
  destruct Hs as (t1 & l1 & He & Hr1). specialize (IH m1 t1 l1 Hr1). destruct (q_exec q sz os m1) as [es m'].
  destruct IH as (t' & l' & Hes & Hr'). exists t', l'. split; [|done]. by rewrite fifo_app, He.
Qed.

(** ** Witness *)

(** a queue of 4-byte messages at 4096, a client buffer at 8192 *)
Definition demo_queue : mem := MSGQ_INIT 4096 4 ∅.
Definition demo_ops : list qop :=
  [QTryGet 8192; QStore 8192 7; QPut 8192; QStore 8192 8; QPut 8192; QTryGet 8200; QTryGet 8200].

Lemma demo_queue_rep : msgq_rep demo_queue 4096 4 0 [].
Proof. split; try done. Qed.

Lemma msgq_refines_fifo_witness :
  fst (q_exec 4096 4 demo_ops demo_queue) = [Empty; Sent [7; 0; 0; 0]; Sent [8; 0; 0; 0]; Received [7; 0; 0; 0]; Received [8; 0; 0; 0]] /\ let '(es, m') := q_exec 4096 4 demo_ops demo_queue in exists t' l', fifo es [] = Some l' /\ msgq_rep m' 4096 4 t' l'.
Proof.
  split; [vm_compute; reflexivity|]. apply (msgq_refines_fifo 4096 4 demo_ops demo_queue 0 []); [exact demo_queue_rep|].
  repeat constructor; unfold legal, apart, in_range; lia.
Defined.
