(* ===== verification/RtosSlab.v ===== *)
(** The fixed-size block allocator of the RTOS, [rtos/lib/memslab.c]: the free
    list threaded through the free blocks implements a set of blocks.

    [struct memslab] is the record [slab]; the blocks are in memory. *)

From stdpp Require Import gmap list fin_maps.
From Stdlib Require Import ZArith Lia.
From S2P Require Import Prelude Memory.

Record slab := Slab { free_list : Z; block_size : Z; num_blocks : Z; used : Z }.

(** * The code *)

Definition memslab_init (buf bsize nblocks : Z) (m : mem) : slab * mem :=
  let m := for_loop (Z.to_nat (nblocks -w 1)) 0 (fun i m => st32 m (buf + i * bsize) (buf + (i + 1) * bsize)) m in
  let m := st32 m (buf + (nblocks -w 1) * bsize) 0 in
  (Slab buf bsize nblocks 0, m).

Definition memslab_alloc (s : slab) (m : mem) : Z * slab :=
  if free_list s =? 0 then (0, s)
  else (free_list s, Slab (ld32 m (free_list s)) (block_size s) (num_blocks s) (used s +w 1)).

Definition memslab_free (s : slab) (block : Z) (m : mem) : slab * mem :=
  if block =? 0 then (s, m)
  else (Slab block (block_size s) (num_blocks s) (used s -w 1), st32 m block (free_list s)).

(** * The set of blocks *)

(** the addresses of the blocks *)
Definition blocks (buf bsize nblocks : Z) : list Z := (fun i => buf + i * bsize) <$> seqZ 0 nblocks.

(** the free list from [p] visits [l] *)
Fixpoint threaded (m : mem) (p : Z) (l : list Z) : Prop :=
  match l with
  | [] => p = 0
  | b :: l => p = b /\ threaded m (ld32 m b) l
  end.

(** A slab over [nblocks] blocks from [buf], of which [live] are in use. *)
Record slab_rep (buf : Z) (s : slab) (m : mem) (live : list Z) : Prop := {
  sl_geom : 0 < buf /\ 4 <= block_size s /\ 0 < num_blocks s /\ buf + num_blocks s * block_size s <= 2 ^ 32;
  sl_free : exists free, threaded m (free_list s) free /\ free ++ live ≡ₚ blocks buf (block_size s) (num_blocks s);
  sl_used : used s = Z.of_nat (length live);
}.

Lemma elem_of_blocks buf bsize n b : b ∈ blocks buf bsize n <-> exists i, b = buf + i * bsize /\ 0 <= i < n.
Proof. unfold blocks. rewrite list_elem_of_fmap. setoid_rewrite elem_of_seqZ. split; intros (i & ? & ?); exists i; split; (done || lia). Qed.

Lemma blocks_NoDup buf bsize n : 0 < bsize -> NoDup (blocks buf bsize n).
Proof. intros Hb. unfold blocks. apply (NoDup_fmap_2_strong _ _); [|apply NoDup_seqZ]. intros x y _ _ Hxy. nia. Qed.

Lemma length_blocks buf bsize n : 0 <= n -> Z.of_nat (length (blocks buf bsize n)) = n.
Proof. intros. unfold blocks. rewrite length_fmap, length_seqZ. lia. Qed.

(** Two blocks do not overlap. *)
Lemma blocks_apart buf bsize n b c : 0 < bsize -> b ∈ blocks buf bsize n -> c ∈ blocks buf bsize n -> b <> c -> b + bsize <= c \/ c + bsize <= b.
Proof.
  intros Hs (i & -> & Hi)%elem_of_blocks (j & -> & Hj)%elem_of_blocks Hne.
  destruct (decide (i < j)); [left|right]; assert (i <> j) by naive_solver; nia.
Qed.

Lemma threaded_frame P m m' p l : mem_frame P m m' -> (forall b a, b ∈ l -> in_range b 4 a -> ~ P a) ->
  threaded m p l -> threaded m' p l.
Proof.
  intros Hf. revert p. induction l as [|b l IH]; intros p Hb; cbn; [done|]. intros [-> Ht]. split; [done|].
  rewrite (ld32_frame P m m') by (try done; intros a; apply Hb; left). apply IH; [|done]. intros c a Hc. apply Hb. by right.
Qed.

Section rep.
Context (buf : Z) (s : slab) (m : mem) (live : list Z) (Hrep : slab_rep buf s m live).

Lemma rep_parts : exists free, threaded m (free_list s) free /\ NoDup (free ++ live) /\
  free ++ live ≡ₚ blocks buf (block_size s) (num_blocks s) /\
  forall b, b ∈ free ++ live -> 0 < b /\ b + block_size s <= 2 ^ 32.
Proof.
  destruct Hrep as [(Hb & Hs & Hn & Hend) (free & Ht & Hp) Hu]. exists free. split; [done|]. split; [|split; [done|]].
  - rewrite Hp. apply blocks_NoDup. lia.
  - intros b. rewrite Hp. intros (i & -> & Hi)%elem_of_blocks. nia.
Qed.

Lemma memslab_alloc_spec :
  let '(p, s') := memslab_alloc s m in
  if decide (p = 0) then s' = s /\ (live ≡ₚ blocks buf (block_size s) (num_blocks s))
  else p ∈ blocks buf (block_size s) (num_blocks s) /\ (p ∉ live) /\ slab_rep buf s' m (p :: live).
Proof.
  destruct rep_parts as (free & Ht & Hnd & Hp & Hr). unfold memslab_alloc. destruct free as [|b free].
  - cbn in Ht. rewrite Ht. done.
  - cbn in Ht. destruct Ht as [-> Ht]. assert (0 < b) by (apply Hr; left). rewrite (proj2 (Z.eqb_neq b 0)) by lia.
    rewrite decide_False by lia. split; [rewrite <- Hp; left|]. split.
    { apply NoDup_cons in Hnd as [Hb _]. set_solver. }
    destruct Hrep as [Hg _ Hu]. split; cbn.
    + exact Hg.
    + exists free. split; [done|]. rewrite <- Hp. cbn. by rewrite Permutation_middle.
    + rewrite Hu, u32_small; [lia|]. apply Permutation_length in Hp. rewrite length_app in Hp. cbn in Hp.
      assert (Z.of_nat (length (blocks buf (block_size s) (num_blocks s))) = num_blocks s) by (apply length_blocks; lia). nia.
Qed.

Lemma memslab_free_spec b : b ∈ live ->
  let '(s', m') := memslab_free s b m in
  exists live', live ≡ₚ b :: live' /\ slab_rep buf s' m' live' /\ mem_frame (in_range b 4) m m'.
Proof.
  intros Hb. destruct rep_parts as (free & Ht & Hnd & Hp & Hr). apply elem_of_Permutation in Hb as [live' Hl].
  assert (b ∈ free ++ live) as Hbl by (rewrite Hl; set_solver).
  unfold memslab_free. destruct (Hr b Hbl) as [Hb0 _]. rewrite (proj2 (Z.eqb_neq b 0)) by lia.
  exists live'. split; [done|]. split; [|apply mem_frame_st32]. destruct Hrep as [(Hg1 & Hg2 & Hg3 & Hg4) _ Hu].
  assert (Z.of_nat (length live) = Z.of_nat (length live') + 1) as Hlen by (rewrite Hl; cbn; lia).
  assert (Z.of_nat (length (free ++ live)) = num_blocks s) as Hn by (rewrite Hp; apply length_blocks; lia). rewrite length_app in Hn.
  split; cbn.
  - done.
  - exists (b :: free). split.
    + cbn. split; [done|]. rewrite ld32_st32_eq.
      assert (u32 (free_list s) = free_list s) as ->.
      { destruct free as [|c free]; cbn in Ht; [by rewrite Ht|]. destruct Ht as [-> _]. destruct (Hr c) as [? ?]; [left|]. apply u32_small. lia. }
      eapply threaded_frame; [apply mem_frame_st32| |exact Ht]. intros c a Hc Ha Ha'.
      assert (c <> b) as Hcb. { intros ->. apply NoDup_app in Hnd as (_ & Hd & _). apply (Hd b Hc). rewrite Hl. left. }
      destruct (blocks_apart buf (block_size s) (num_blocks s) c b); [lia|rewrite <- Hp; set_solver..|done| |]; unfold in_range in *; lia.
    + rewrite <- Hp, Hl. cbn. by rewrite Permutation_middle.
  - rewrite Hu, Hlen, u32_small; nia.
Qed.
End rep.

Lemma memslab_init_spec buf bsize n m : 0 < buf -> 4 <= bsize -> 0 < n -> buf + n * bsize <= 2 ^ 32 ->
  let '(s, m') := memslab_init buf bsize n m in slab_rep buf s m' [].
Proof.
  intros Hb Hs Hn Hend. unfold memslab_init. assert (n < 2 ^ 32) by nia. rewrite u32_small by lia.
  set (link := fun (i : Z) (m : mem) => st32 m (buf + i * bsize) (buf + (i + 1) * bsize)).
  set (m1 := for_loop (Z.to_nat (n - 1)) 0 link m).
  assert (forall j, 0 <= j < n - 1 -> ld32 m1 (buf + j * bsize) = buf + (j + 1) * bsize) as Hlink.
  { pose proof (for_loop_ind (fun i m => forall j, 0 <= j < i -> ld32 m (buf + j * bsize) = buf + (j + 1) * bsize)
      (Z.to_nat (n - 1)) 0 link m) as Hl. rewrite Z.add_0_l, Z2Nat.id in Hl by lia. apply Hl; [lia|].
    intros k m2 Hk Hm2 j Hj. unfold link. destruct (decide (j = k)) as [->|Hne].
    - rewrite ld32_st32_eq. apply u32_small. nia.
    - rewrite ld32_st32_ne by nia. apply Hm2. lia. }
  split; cbn [free_list block_size num_blocks used length].
  - lia.
  - exists (blocks buf bsize n). split; [|by rewrite app_nil_r].
    assert (forall k i, 0 <= i -> i + Z.of_nat k = n -> (0 < k)%nat ->
      threaded (st32 m1 (buf + (n - 1) * bsize) 0) (buf + i * bsize) ((fun i => buf + i * bsize) <$> seqZ i (Z.of_nat k))) as Hth.
    { intros k. induction k as [|k IH]; intros i Hi Hik Hk; [lia|]. rewrite seqZ_cons by lia. cbn [fmap list_fmap threaded]. split; [done|].
      replace (Z.pred (Z.of_nat (S k))) with (Z.of_nat k) by lia. destruct (decide (k = 0%nat)) as [->|Hk0].
      - replace i with (n - 1) by lia. rewrite ld32_st32_eq. done.
      - rewrite ld32_st32_ne, Hlink by nia. apply IH; lia. }
    specialize (Hth (Z.to_nat n) 0). rewrite Z2Nat.id, Z.add_0_r in Hth by lia. apply Hth; lia.
  - done.
Qed.

(** * Clients *)

(** [slab_steps buf (s, m, live) (s', m', live')]: the clients and the code,
    with the blocks in use. *)
Inductive slab_steps (buf : Z) : slab * mem * list Z -> slab * mem * list Z -> Prop :=
  | ss_refl x : slab_steps buf x x
  | ss_alloc s m live x : slab_steps buf
      (let '(p, s') := memslab_alloc s m in (s', m, if decide (p = 0) then live else p :: live)) x -> slab_steps buf (s, m, live) x
  | ss_free s m b live live' x : live ≡ₚ b :: live' -> slab_steps buf
      (let '(s', m') := memslab_free s b m in (s', m', live')) x -> slab_steps buf (s, m, live) x
  | ss_store s m live a v x : (exists b, b ∈ live /\ in_range b (block_size s) a) \/ ~ in_range buf (num_blocks s * block_size s) a ->
      slab_steps buf (s, stb m a v, live) x -> slab_steps buf (s, m, live) x.

Lemma slab_rep_perm buf s m live live' : live ≡ₚ live' -> slab_rep buf s m live -> slab_rep buf s m live'.
Proof.
  intros Hl [Hg (free & Ht & Hp) Hu]. split; [done|exists free; by rewrite <- Hl|by rewrite <- Hl].
Qed.

Lemma slab_steps_rep buf x y : slab_steps buf x y ->
  slab_rep buf x.1.1 x.1.2 x.2 -> slab_rep buf y.1.1 y.1.2 y.2 /\ block_size y.1.1 = block_size x.1.1 /\ num_blocks y.1.1 = num_blocks x.1.1.
Proof.
  induction 1 as [x|s m live x Hx IH|s m b live live' x Hl Hx IH|s m live a v x Ha Hx IH]; cbn [fst snd] in *; intros Hr.
  - done.
  - pose proof (memslab_alloc_spec buf s m live Hr) as Hs. assert (block_size (memslab_alloc s m).2 = block_size s /\
      num_blocks (memslab_alloc s m).2 = num_blocks s) as [<- <-] by (unfold memslab_alloc; by destruct (_ =? _)).
    destruct (memslab_alloc s m) as [p s']. cbn [fst snd] in *. apply IH. case_decide; [destruct Hs as [-> _]; done|apply Hs].
  - assert (b ∈ live) as Hb by (rewrite Hl; left). pose proof (memslab_free_spec buf s m live Hr b Hb) as Hs.
    assert (block_size (memslab_free s b m).1 = block_size s /\ num_blocks (memslab_free s b m).1 = num_blocks s) as [<- <-]
      by (unfold memslab_free; by destruct (_ =? _)).
    destruct (memslab_free s b m) as [s' m']. cbn [fst snd] in *. destruct Hs as (l' & Hl' & Hr' & _). apply IH.
    eapply slab_rep_perm; [|exact Hr']. rewrite Hl in Hl'. by apply (Permutation_cons_inv (a := b)).
  - apply IH. destruct (rep_parts buf s m live Hr) as (free & Ht & Hnd & Hp & Hrg).
    destruct Hr as [(Hg1 & Hg2 & Hg3 & Hg4) _ Hu]. split; [done| |done]. exists free. split; [|done].
    eapply threaded_frame; [apply mem_frame_stb| |exact Ht]. intros c d Hc Hd ->. unfold in_range in *.
    assert (c ∈ blocks buf (block_size s) (num_blocks s)) as Hcb by (rewrite <- Hp; set_solver).
    destruct Ha as [(b & Hb & Hba)|Hout].
    + assert (c <> b) as Hne by (intros ->; apply NoDup_app in Hnd as (_ & Hd' & _); by apply (Hd' b)).
      destruct (blocks_apart buf (block_size s) (num_blocks s) c b); [lia|done|rewrite <- Hp; set_solver|done|lia|lia].
    + apply elem_of_blocks in Hcb as (i & -> & Hi). apply Hout. nia.
Qed.

(** C37. Whatever the clients of a slab do after [memslab_init] (allocate, free
    blocks they hold, store into those or outside the slab), the blocks in use
    are distinct blocks of the buffer and are counted by [used]; an allocation
    returns a block that is not in use, and NULL exactly when all are; and
    freeing a block leaves the contents of the others alone. *)
Theorem memslab_sound buf bsize n m0 s m live (Hbuf : 0 < buf) (Hsize : 4 <= bsize) (Hn : 0 < n) (Hend : buf + n * bsize <= 2 ^ 32)
    (Hrun : slab_steps buf (memslab_init buf bsize n m0, []) (s, m, live)) :
  NoDup live /\ live ⊆ blocks buf bsize n /\ used s = Z.of_nat (length live) /\
  (let '(p, _) := memslab_alloc s m in
   (p = 0 <-> Z.of_nat (length live) = n) /\ (p <> 0 -> p ∈ blocks buf bsize n /\ p ∉ live)) /\
  forall b, b ∈ live -> let '(_, m') := memslab_free s b m in
    forall c, c ∈ live -> c <> b -> bytes_at m' c (Z.to_nat bsize) = bytes_at m c (Z.to_nat bsize).
Proof.
  pose proof (memslab_init_spec buf bsize n m0 Hbuf Hsize Hn Hend) as Hi.
  assert (block_size (memslab_init buf bsize n m0).1 = bsize /\ num_blocks (memslab_init buf bsize n m0).1 = n) as [Hs0 Hn0] by done.
  destruct (memslab_init buf bsize n m0) as [s0 m1]. destruct (slab_steps_rep _ _ _ Hrun Hi) as (Hr & Hs & Hn'). cbn [fst snd] in *.
  rewrite Hs0 in Hs. rewrite Hn0 in Hn'. destruct (rep_parts buf s m live Hr) as (free & Ht & Hnd & Hp & Hrg). rewrite Hs, Hn' in *.
  assert (live ⊆ blocks buf bsize n) as Hsub by (intros b Hb; rewrite <- Hp; set_solver).
  split; [by apply NoDup_app in Hnd as (_ & _ & ?)|]. split; [done|]. split; [apply Hr|]. split.
  - pose proof (memslab_alloc_spec buf s m live Hr) as Ha. rewrite Hs, Hn' in Ha. destruct (memslab_alloc s m) as [p s']. case_decide as Hp0.
    + destruct Ha as [_ Ha]. split; [|done]. split; [intros _|done]. rewrite Ha. apply length_blocks. lia.
    + split; [|naive_solver]. split; [done|]. intros Hlen. destruct Ha as (Hin & Hnot & _). destruct Hnot.
      assert (live ≡ₚ blocks buf bsize n) as ->; [|done]. apply submseteq_length_Permutation.
      * apply NoDup_submseteq; [by apply NoDup_app in Hnd as (_ & _ & ?)|done].
      * pose proof (length_blocks buf bsize n). lia.
  - intros b Hb. pose proof (memslab_free_spec buf s m live Hr b Hb) as Hf. destruct (memslab_free s b m) as [s' m'].
    destruct Hf as (_ & _ & _ & Hf). intros c Hc Hne. apply bytes_at_ext. intros j Hj. apply Hf. unfold in_range.
    destruct (blocks_apart buf bsize n c b); [lia|auto|auto|done|lia|lia].
Qed.

(** ** Witness *)

(** three blocks of 16 bytes at 4096; two are taken, the first is given back *)
Definition demo_slab : slab * mem := memslab_init 4096 16 3 ∅.
Definition demo_slab1 : slab := (memslab_alloc (memslab_alloc demo_slab.1 demo_slab.2).2 demo_slab.2).2.
Definition demo_slab2 : slab * mem := memslab_free demo_slab1 4096 (stb demo_slab.2 4112 9).

Lemma demo_slab_steps : slab_steps 4096 (memslab_init 4096 16 3 ∅, []) (demo_slab2.1, demo_slab2.2, [4112]).
Proof.
  change (memslab_init 4096 16 3 ∅) with (demo_slab.1, demo_slab.2). apply ss_alloc. apply ss_alloc.
  change (slab_steps 4096 (demo_slab1, demo_slab.2, [4112; 4096]) (demo_slab2.1, demo_slab2.2, [4112])).
  apply (ss_store _ _ _ _ 4112 9); [left; exists 4112; split; [left|split; [done|reflexivity]]|].
  apply (ss_free _ _ _ 4096 _ [4112]); [apply Permutation_swap|]. apply ss_refl.
Qed.

Lemma memslab_sound_witness : NoDup [4112] /\ (memslab_alloc demo_slab2.1 demo_slab2.2).1 = 4096 /\
  used demo_slab2.1 = Z.of_nat (length [4112]).
Proof.
  destruct (memslab_sound 4096 16 3 ∅ demo_slab2.1 demo_slab2.2 [4112]) as (H1 & _ & H2 & _); [done|done|done|done|exact demo_slab_steps|].
  split; [exact H1|]. split; [vm_compute; reflexivity|exact H2].
Defined.
