(* ===== verification/RtosHeap.v ===== *)
(** The heap of the RTOS, [rtos/lib/heap.c]: first fit over a chain of blocks
    with headers in memory, with coalescing.

    [struct block_header] is 12 bytes: [size] at 0, [free] at 4, [next] at 8.
    A loop over the chain has one round for each 12 bytes of the heap as fuel,
    which the theorems show to be enough. *)

From stdpp Require Import gmap list fin_maps.
From Stdlib Require Import ZArith Lia.
From S2P Require Import Prelude Memory.

Definition HEADER_SIZE : Z := 12.

(** the statics *)
Record heap := Heap { heap_start : Z; total_size : Z }.

Definition b_size (m : mem) (b : Z) : Z := ld32 m b.
Definition b_free (m : mem) (b : Z) : bool := negb (ldb m (b + 4) =? 0).
Definition b_next (m : mem) (b : Z) : Z := ld32 m (b + 8).
Definition set_size (b v : Z) (m : mem) : mem := st32 m b v.
Definition set_free (b v : Z) (m : mem) : mem := stb m (b + 4) v.
Definition set_next (b v : Z) (m : mem) : mem := st32 m (b + 8) v.

(** * The code *)

(** [ALIGN_UP(x, 4)] on [size_t] *)
Definition ALIGN_UP (x a : Z) : Z := (x +w a -w 1) .& .~ (a - 1).

Definition heap_init (p size : Z) (m : mem) : heap * mem :=
  (Heap p size, set_next p 0 (set_free p 1 (set_size p size m))).

Definition split_block (curr size : Z) (m : mem) : mem :=
  let new_block := curr + size in
  let m := set_size new_block (b_size m curr -w size) m in
  let m := set_free new_block 1 m in
  let m := set_next new_block (b_next m curr) m in
  let m := set_size curr size m in
  set_next curr new_block m.

(** the pointer returned, 0 when nothing fits; [None] when the fuel is used up *)
Fixpoint alloc_loop (fuel : nat) (curr size : Z) (m : mem) : option (Z * mem) :=
  match fuel with
  | O => None
  | S fuel =>
      if curr =? 0 then Some (0, m)
      else if b_free m curr && (size <=? b_size m curr) then
        let m := if size +w HEADER_SIZE +w 4 <=? b_size m curr then split_block curr size m else m in
        Some (curr + HEADER_SIZE, set_free curr 0 m)
      else alloc_loop fuel (b_next m curr) size m
  end.

Definition rounds (h : heap) : nat := S (Z.to_nat (total_size h / HEADER_SIZE)).

Definition heap_alloc (h : heap) (size : Z) (m : mem) : option (Z * mem) :=
  let size := ALIGN_UP size 4 +w HEADER_SIZE in alloc_loop (rounds h) (heap_start h) size m.

(** [while (curr && curr->next)] *)
Fixpoint coalesce_loop (fuel : nat) (curr : Z) (m : mem) : option mem :=
  match fuel with
  | O => None
  | S fuel =>
      if (curr =? 0) || (b_next m curr =? 0) then Some m
      else if b_free m curr && b_free m (b_next m curr) then
        let m := set_size curr (b_size m curr +w b_size m (b_next m curr)) m in
        let m := set_next curr (b_next m (b_next m curr)) m in
        coalesce_loop fuel curr m
      else coalesce_loop fuel (b_next m curr) m
  end.

Definition heap_free (h : heap) (ptr : Z) (m : mem) : option mem :=
  if ptr =? 0 then Some m
  else
    let block := ptr - HEADER_SIZE in
    let m := set_free block 1 m in
    coalesce_loop (rounds h) (heap_start h) m.

Fixpoint free_bytes_loop (fuel : nat) (curr acc : Z) (m : mem) : option Z :=
  match fuel with
  | O => None
  | S fuel =>
      if curr =? 0 then Some acc
      else free_bytes_loop fuel (b_next m curr) (if b_free m curr then acc +w (b_size m curr -w HEADER_SIZE) else acc) m
  end.

Definition heap_free_bytes (h : heap) (m : mem) : option Z := free_bytes_loop (rounds h) (heap_start h) 0 m.
Definition heap_used_bytes (h : heap) (m : mem) : option Z :=
  f ← heap_free_bytes h m; Some (total_size h -w f -w HEADER_SIZE).

(** * The chain *)

(** the header of a block *)
Record header (m : mem) (a sz : Z) (f : bool) (nx : Z) : Prop := {
  h_size : b_size m a = sz; h_free : b_free m a = f; h_next : b_next m a = nx;
}.

(** Blocks of sizes and states [l], one after the other from [a]. *)
Fixpoint chain (m : mem) (a : Z) (l : list (Z * bool)) : Prop :=
  match l with
  | [] => False
  | (sz, f) :: l =>
      match l with
      | [] => header m a sz f 0
      | _ => header m a sz f (a + sz) /\ chain m (a + sz) l
      end
  end.

(** the blocks with their addresses *)
Fixpoint placed (a : Z) (l : list (Z * bool)) : list (Z * Z * bool) :=
  match l with [] => [] | (sz, f) :: l => (a, sz, f) :: placed (a + sz) l end.

Fixpoint sizes (l : list (Z * bool)) : Z := match l with [] => 0 | (sz, _) :: l => sz + sizes l end.

(** the bytes of the headers *)
Definition in_headers (a : Z) (l : list (Z * bool)) (x : Z) : Prop := exists b sz f, (b, sz, f) ∈ placed a l /\ in_range b 12 x.

Definition fits (l : list (Z * bool)) : Prop := Forall (fun b => HEADER_SIZE <= b.1) l.

Lemma fits_sizes l : fits l -> Z.of_nat (length l) * 12 <= sizes l.
Proof. unfold fits, HEADER_SIZE. induction 1 as [|[sz f] l Hb Hl IH]; cbn in *; lia. Qed.

Lemma sizes_nonneg l : fits l -> 0 <= sizes l.
Proof. intros Hl%fits_sizes. lia. Qed.

Lemma placed_range a l b sz f : fits l -> (b, sz, f) ∈ placed a l -> a <= b /\ HEADER_SIZE <= sz /\ b + sz <= a + sizes l.
Proof.
  intros Hl. revert a. induction Hl as [|[sz0 f0] l Hb Hl IH]; intros a; cbn; [by intros ?%elem_of_nil|].
  pose proof (sizes_nonneg l Hl). cbn in Hb. unfold HEADER_SIZE in *.
  intros [[= -> -> ->]|Hin]%elem_of_cons; [lia|]. specialize (IH _ Hin). lia.
Qed.

(** Blocks do not overlap. *)
Lemma placed_apart a l b sz f c sz' f' : fits l -> (b, sz, f) ∈ placed a l -> (c, sz', f') ∈ placed a l ->
  (b = c /\ sz = sz' /\ f = f') \/ b + sz <= c \/ c + sz' <= b.
Proof.
  intros Hl. revert a. induction Hl as [|[sz0 f0] l Hb Hl IH]; intros a; cbn; [by intros ?%elem_of_nil|].
  intros [[= -> -> ->]|Hin]%elem_of_cons [[= -> -> ->]|Hin']%elem_of_cons.
  - by left.
  - apply (placed_range _ _ _ _ _ Hl) in Hin'. lia.
  - apply (placed_range _ _ _ _ _ Hl) in Hin. lia.
  - by apply (IH (a + sz0)).
Qed.

Lemma header_frame P m m' a sz f nx : mem_frame P m m' -> (forall x, in_range a 12 x -> ~ P x) -> header m a sz f nx -> header m' a sz f nx.
Proof.
  intros Hf HP [H1 H2 H3]. unfold in_range in HP. split.
  - rewrite <- H1. apply (ld32_frame P); [done|]. unfold in_range. intros b Hb. apply HP. lia.
  - rewrite <- H2. unfold b_free. do 2 f_equal. apply Hf, HP. lia.
  - rewrite <- H3. apply (ld32_frame P); [done|]. unfold in_range. intros b Hb. apply HP. lia.
Qed.

Lemma chain_frame P m m' a l : mem_frame P m m' -> (forall x, in_headers a l x -> ~ P x) -> chain m a l -> chain m' a l.
Proof.
  intros Hf. revert a. induction l as [|[sz f] l IH]; intros a HP; cbn [chain]; [done|].
  assert (forall x, in_range a 12 x -> ~ P x) as Hh by (intros x Hx; apply HP; exists a, sz, f; split; [left|done]).
  destruct l as [|b l]; [by apply (header_frame P m m')|]. intros [Hd Hc]. split; [by apply (header_frame P m m')|].
  apply IH; [|done]. intros x (c & s & g & Hin & Hx). apply HP. exists c, s, g. split; [by right|done].
Qed.

(** The header of any block of the chain, its successor included. *)
Lemma chain_header m a sz f l : chain m a ((sz, f) :: l) -> header m a sz f (match l with [] => 0 | _ => a + sz end).
Proof. destruct l; cbn; [done|]. by intros [? _]. Qed.

Lemma chain_tail m a sz f l : chain m a ((sz, f) :: l) -> l <> [] -> chain m (a + sz) l.
Proof. destruct l; cbn; [done|]. by intros [_ ?]. Qed.

Lemma chain_cons m a sz f l : header m a sz f (match l with [] => 0 | _ => a + sz end) -> (l <> [] -> chain m (a + sz) l) ->
  chain m a ((sz, f) :: l).
Proof. destruct l; cbn; [done|]. intros Hh Hc. split; [done|by apply Hc]. Qed.

(** * First fit on the list of blocks *)

(** what is left of a free block of [sz] bytes when [need] are taken *)
Definition carve (need sz : Z) (l : list (Z * bool)) : list (Z * bool) :=
  if need + 16 <=? sz then (need, false) :: (sz - need, true) :: l else (sz, false) :: l.

Fixpoint l_alloc (need a : Z) (l : list (Z * bool)) : option (Z * list (Z * bool)) :=
  match l with
  | [] => None
  | (sz, f) :: l =>
      if f && (need <=? sz) then Some (a + HEADER_SIZE, carve need sz l)
      else '(p, l') ← l_alloc need (a + sz) l; Some (p, (sz, f) :: l')
  end.

Lemma carve_fits need sz l : HEADER_SIZE <= need -> HEADER_SIZE <= sz -> fits l -> fits (carve need sz l) /\ sizes (carve need sz l) = sz + sizes l.
Proof.
  unfold fits, carve, HEADER_SIZE. intros Hn Hs Hl. case_bool; cbn; (split; [|lia]); repeat (apply Forall_cons; split); cbn; (lia || done).
Qed.

Lemma l_alloc_fits need a l p l' : HEADER_SIZE <= need -> fits l -> l_alloc need a l = Some (p, l') ->
  fits l' /\ sizes l' = sizes l /\ l' <> [].
Proof.
  intros Hn Hl. revert a p l'. induction Hl as [|[sz f] l Hb Hl IH]; intros a p l'; cbn [l_alloc]; [done|].
  destruct (f && (need <=? sz)).
  - intros [= _ <-]. destruct (carve_fits need sz l) as [? ?]; [done..|]. split; [done|]. split; [done|]. unfold carve. by destruct (_ <=? _).
  - intros ([q l2] & Hq & [= -> <-])%bind_Some. destruct (IH _ _ _ Hq) as (? & Hs & _). split; [by apply Forall_cons|]. cbn. split; [lia|done].
Qed.

(** ** Writing headers *)

Lemma b_size_set_size m a v : b_size (set_size a v m) a = u32 v.
Proof. apply ld32_st32_eq. Qed.

(** the fields of a header after each of them was set *)
Lemma header_set m a sz v nx : 0 <= sz < 2 ^ 32 -> 0 <= nx < 2 ^ 32 -> (v = 0 \/ v = 1) ->
  forall m1, mem_frame (fun x => ~ in_range a 12 x) (set_next a nx (set_free a v (set_size a sz m))) m1 ->
  header m1 a sz (v =? 1) nx.
Proof.
  intros Hs Hn Hv m1 Hf. apply (header_frame _ _ _ _ _ _ _ Hf); [naive_solver|]. unfold set_next, set_free, set_size. split.
  - unfold b_size. rewrite ld32_st32_ne by lia. rewrite (ld32_frame (eq (a + 4)) (st32 m a sz)); [|apply mem_frame_stb|unfold in_range; lia].
    rewrite ld32_st32_eq. by apply u32_small.
  - unfold b_free. rewrite (mem_frame_st32 _ (a + 8)) by (unfold in_range; lia). rewrite ldb_stb_eq. destruct Hv; subst; done.
  - unfold b_next. rewrite ld32_st32_eq. by apply u32_small.
Qed.

(** a field of the header of [a] set, the others kept *)
Lemma header_set_free m a sz f nx v : v = 0 \/ v = 1 -> header m a sz f nx -> header (set_free a v m) a sz (v =? 1) nx.
Proof.
  intros Hv [H1 H2 H3]. split.
  - rewrite <- H1. apply (ld32_frame (eq (a + 4))); [apply mem_frame_stb|unfold in_range; lia].
  - unfold b_free, set_free. rewrite ldb_stb_eq. destruct Hv; subst; done.
  - rewrite <- H3. apply (ld32_frame (eq (a + 4))); [apply mem_frame_stb|unfold in_range; lia].
Qed.

Lemma header_set_size m a sz f nx v : 0 <= v < 2 ^ 32 -> header m a sz f nx -> header (set_size a v m) a v f nx.
Proof.
  intros Hv [H1 H2 H3]. split.
  - rewrite b_size_set_size. by apply u32_small.
  - rewrite <- H2. unfold b_free. do 2 f_equal. apply (mem_frame_st32 m a v). unfold in_range. lia.
  - rewrite <- H3. apply ld32_st32_ne. lia.
Qed.

Lemma header_set_next m a sz f nx v : 0 <= v < 2 ^ 32 -> header m a sz f nx -> header (set_next a v m) a sz f v.
Proof.
  intros Hv [H1 H2 H3]. split.
  - rewrite <- H1. apply ld32_st32_ne. lia.
  - rewrite <- H2. unfold b_free. do 2 f_equal. apply (mem_frame_st32 m (a + 8) v). unfold in_range. lia.
  - unfold b_next, set_next. rewrite ld32_st32_eq. by apply u32_small.
Qed.

Lemma frame_set_size m a v : mem_frame (in_range a 12) m (set_size a v m).
Proof. eapply mem_frame_mono; [apply mem_frame_st32|]. unfold in_range. lia. Qed.
Lemma frame_set_free m a v : mem_frame (in_range a 12) m (set_free a v m).
Proof. eapply mem_frame_mono; [apply mem_frame_stb|]. unfold in_range. intros x <-. lia. Qed.
Lemma frame_set_next m a v : mem_frame (in_range a 12) m (set_next a v m).
Proof. eapply mem_frame_mono; [apply mem_frame_st32|]. unfold in_range. lia. Qed.
#[export] Hint Resolve frame_set_size frame_set_free frame_set_next : kdb.

Lemma frame_l (P Q : Z -> Prop) m m' : mem_frame P m m' -> mem_frame (fun x => P x \/ Q x) m m'.
Proof. intros H. eapply mem_frame_mono; [exact H|auto]. Qed.
Lemma frame_r (P Q : Z -> Prop) m m' : mem_frame Q m m' -> mem_frame (fun x => P x \/ Q x) m m'.
Proof. intros H. eapply mem_frame_mono; [exact H|auto]. Qed.

(** The split makes two headers. *)
Lemma split_block_spec m a sz need nx : header m a sz true nx -> HEADER_SIZE <= need -> need + 16 <= sz -> 0 <= a -> a + sz <= 2 ^ 32 -> 0 <= nx < 2 ^ 32 ->
  header (split_block a need m) a need true (a + need) /\ header (split_block a need m) (a + need) (sz - need) true nx /\
  mem_frame (fun x => in_range a 12 x \/ in_range (a + need) 12 x) m (split_block a need m).
Proof.
  unfold HEADER_SIZE. intros Hh Hn Hs Ha Hend Hnx. unfold split_block.
  set (m1 := set_size (a + need) (b_size m a -w need) m). set (m2 := set_free (a + need) 1 m1).
  set (m3 := set_next (a + need) (b_next m2 a) m2). set (m4 := set_size a need m3).
  assert (mem_frame (in_range (a + need) 12) m m2) as F2 by (eapply mem_frame_trans; [apply frame_set_size|apply frame_set_free]).
  assert (mem_frame (in_range (a + need) 12) m m3) as F3 by (eapply mem_frame_trans; [exact F2|apply frame_set_next]).
  assert (header m2 a sz true nx) as H2 by (eapply header_frame; [exact F2|unfold in_range; lia|done]).
  assert (header m3 a sz true nx) as H3 by (eapply header_frame; [exact F3|unfold in_range; lia|done]).
  assert (mem_frame (in_range a 12) m3 (set_next a (a + need) m4)) as F5 by (eapply mem_frame_trans; [apply frame_set_size|apply frame_set_next]).
  split; [|split].
  - apply (header_set_next _ _ _ _ nx); [lia|]. apply (header_set_size _ _ sz); [lia|done].
  - eapply header_frame; [exact F5|unfold in_range; lia|].
    assert (m3 = set_next (a + need) nx (set_free (a + need) 1 (set_size (a + need) (sz - need) m))) as E.
    { unfold m3. rewrite (h_next _ _ _ _ _ H2). unfold m2, m1. rewrite (h_size _ _ _ _ _ Hh). rewrite u32_small by lia. done. }
    apply (header_set m (a + need) (sz - need) 1 nx); [lia|lia|by right|]. rewrite <- E. apply mem_frame_refl.
  - eapply mem_frame_trans; [by apply frame_r, F3|by apply frame_l, F5].
Qed.

(** ** The loops on the chain *)

(** a chain inside memory, not at the very bottom of it *)
Definition in_memory (a : Z) (l : list (Z * bool)) : Prop := 16 < a /\ a + sizes l <= 2 ^ 32.

Lemma in_headers_ge a l x : fits l -> in_headers a l x -> a <= x.
Proof. intros Hl (b & sz & f & Hin & Hx). apply (placed_range _ _ _ _ _ Hl) in Hin. unfold in_range in Hx. lia. Qed.

Lemma in_headers_tail a sz f l x : in_headers (a + sz) l x -> in_headers a ((sz, f) :: l) x.
Proof. intros (b & s & g & Hin & Hx). exists b, s, g. split; [by right|done]. Qed.

Lemma in_headers_head a sz f l x : in_range a 12 x -> in_headers a ((sz, f) :: l) x.
Proof. intros Hx. exists a, sz, f. split; [left|done]. Qed.

(** the block taken by [alloc_loop] *)
Lemma rtos_take_block_spec m a sz need l : chain m a ((sz, true) :: l) -> fits ((sz, true) :: l) -> in_memory a ((sz, true) :: l) ->
  HEADER_SIZE <= need -> need <= sz ->
  let m' := set_free a 0 (if need +w HEADER_SIZE +w 4 <=? b_size m a then split_block a need m else m) in
  chain m' a (carve need sz l) /\ mem_frame (in_headers a (carve need sz l)) m m'.
Proof.
  unfold in_memory, HEADER_SIZE. intros Hc [Hs Hl]%Forall_cons [Ha Hend] Hn Hle. cbn in Hs, Hend. unfold HEADER_SIZE in Hs.
  pose proof (sizes_nonneg l Hl). pose proof (chain_header _ _ _ _ _ Hc) as Hh. rewrite (h_size _ _ _ _ _ Hh).
  u32_simpl. unfold carve. replace (need + 12 + 4) with (need + 16) by lia. cbn zeta.
  assert (0 <= match l with [] => 0 | _ => a + sz end < 2 ^ 32) as Hnx.
  { destruct l as [|[s2 f2] l]; [lia|]. apply Forall_cons in Hl as [Hs2 Hl]. cbn in Hs2, Hend. unfold HEADER_SIZE in Hs2.
    pose proof (sizes_nonneg l Hl). lia. }
  destruct (Z.leb_spec (need + 16) sz) as [Hsp|Hno].
  - destruct (split_block_spec m a sz need _ Hh Hn Hsp) as (H1 & H2 & F); [lia..|]. set (m1 := split_block a need m) in *.
    assert (mem_frame (in_range a 12) m1 (set_free a 0 m1)) as F0 by apply frame_set_free.
    assert (mem_frame (fun x => in_range a 12 x \/ in_range (a + need) 12 x) m (set_free a 0 m1)) as F1.
    { eapply mem_frame_trans; [exact F|by apply frame_l]. }
    split.
    + apply chain_cons; [apply (header_set_free _ _ _ _ _ 0) in H1; [exact H1|by left]|intros _].
      apply chain_cons.
      * replace (a + need + (sz - need)) with (a + sz) by lia. eapply header_frame; [exact F0|unfold in_range; lia|exact H2].
      * intros Hl0. replace (a + need + (sz - need)) with (a + sz) by lia. eapply chain_frame; [exact F1| |by apply chain_tail in Hc].
        intros x Hx%in_headers_ge; [|done]. unfold in_range. lia.
    + eapply mem_frame_mono; [exact F1|]. intros x [Hx|Hx]; [by apply in_headers_head|]. by apply in_headers_tail, in_headers_head.
  - assert (mem_frame (in_range a 12) m (set_free a 0 m)) as F0 by apply frame_set_free. split.
    + apply chain_cons; [apply (header_set_free _ _ _ _ _ 0) in Hh; [exact Hh|by left]|].
      intros Hl0. eapply chain_frame; [exact F0| |by apply chain_tail in Hc]. intros x Hx%in_headers_ge; [|done]. unfold in_range. lia.
    + eapply mem_frame_mono; [exact F0|]. intros x. apply in_headers_head.
Qed.

Lemma in_memory_tail a sz f l : HEADER_SIZE <= sz -> in_memory a ((sz, f) :: l) -> in_memory (a + sz) l.
Proof. unfold in_memory, HEADER_SIZE. cbn. lia. Qed.

Lemma alloc_loop_spec fuel m a l need : chain m a l -> fits l -> in_memory a l -> HEADER_SIZE <= need -> (length l < fuel)%nat ->
  match l_alloc need a l with
  | None => alloc_loop fuel a need m = Some (0, m)
  | Some (p, l') => exists m', alloc_loop fuel a need m = Some (p, m') /\ chain m' a l' /\ mem_frame (in_headers a l') m m'
  end.
Proof.
  intros Hc Hl. revert fuel a Hc. induction Hl as [|[sz f] l Hs Hl IH]; intros fuel a Hc Hm Hn Hf; [done|].
  destruct fuel as [|fuel]; [cbn in Hf; lia|]. pose proof (chain_header _ _ _ _ _ Hc) as Hh. cbn [fst] in Hs.
  cbn [l_alloc alloc_loop]. rewrite (proj2 (Z.eqb_neq a 0)) by (unfold in_memory in Hm; lia).
  rewrite (h_free _ _ _ _ _ Hh). destruct (f && (need <=? sz)) eqn:Et.
  - apply andb_true_iff in Et as [-> Hle]. rewrite (h_size _ _ _ _ _ Hh), Hle. cbn [andb]. eexists. split; [reflexivity|].
    pose proof (rtos_take_block_spec m a sz need l Hc) as Ht. rewrite (h_size _ _ _ _ _ Hh) in Ht.
    apply Ht; [by apply Forall_cons|done|done|lia].
  - rewrite (h_size _ _ _ _ _ Hh), Et, (h_next _ _ _ _ _ Hh). destruct l as [|b l].
    { cbn. destruct fuel; [cbn in Hf; lia|]. done. }
    assert (b :: l <> []) as Hne by done. set (l2 := b :: l) in *. clearbody l2.
    specialize (IH fuel (a + sz) (chain_tail _ _ _ _ _ Hc Hne) (in_memory_tail _ _ _ _ Hs Hm) Hn).
    assert (match l2 with [] => 0 | _ => a + sz end = a + sz) as Enx by (by destruct l2). rewrite ?Enx in Hh |- *.
    destruct (l_alloc need (a + sz) l2) as [[p l']|] eqn:El; cbn.
    + destruct IH as (m' & -> & Hc' & Hf'); [cbn in Hf; lia|]. exists m'. split; [done|].
      destruct (l_alloc_fits _ _ _ _ _ Hn Hl El) as (Hl' & _ & Hne'). split.
      * apply chain_cons; [|done]. assert (match l' with [] => 0 | _ => a + sz end = a + sz) as -> by (by destruct l').
        eapply header_frame; [exact Hf'| |exact Hh]. intros x Hx Hx'%in_headers_ge; [|done]. unfold in_range, HEADER_SIZE in *. lia.
      * eapply mem_frame_mono; [exact Hf'|]. intros x. apply in_headers_tail.
    + apply IH. cbn in Hf. lia.
Qed.

(** Coalescing on the list: [b] is the current block. *)
Fixpoint l_coalesce (b : Z * bool) (l : list (Z * bool)) : list (Z * bool) :=
  match l with
  | [] => [b]
  | c :: l => if b.2 && c.2 then l_coalesce (b.1 + c.1, true) l else b :: l_coalesce c l
  end.

Lemma l_coalesce_fits b l : fits (b :: l) -> fits (l_coalesce b l) /\ sizes (l_coalesce b l) = sizes (b :: l) /\ l_coalesce b l <> [].
Proof.
  unfold fits, HEADER_SIZE. revert b. induction l as [|[s2 f2] l IH]; intros [sz f] Hl; cbn [l_coalesce fst snd]; [done|].
  apply Forall_cons in Hl as [H1 [H2 Hl]%Forall_cons]. cbn in H1, H2. destruct (f && f2).
  - destruct (IH (sz + s2, true)) as (? & Hs & ?); [apply Forall_cons; split; [cbn; lia|done]|]. split; [done|]. split; [rewrite Hs; cbn; lia|done].
  - destruct (IH (s2, f2)) as (? & Hs & ?); [by apply Forall_cons|]. split; [by apply Forall_cons|]. split; [|done]. cbn [sizes]. rewrite Hs. done.
Qed.

Lemma in_headers_merge a s1 s2 f1 f2 l x : in_headers a ((s1 + s2, f1) :: l) x -> in_headers a ((s1, f1) :: (s2, f2) :: l) x.
Proof.
  intros (b & sz & f & Hin & Hx). cbn in Hin. apply elem_of_cons in Hin as [[= -> -> ->]|Hin]; [by apply in_headers_head|].
  apply in_headers_tail, in_headers_tail. exists b, sz, f. by rewrite <- Z.add_assoc.
Qed.

Lemma coalesce_loop_spec fuel m a b l : chain m a (b :: l) -> fits (b :: l) -> in_memory a (b :: l) -> (length l < fuel)%nat ->
  exists m', coalesce_loop fuel a m = Some m' /\ chain m' a (l_coalesce b l) /\ mem_frame (in_headers a (b :: l)) m m'.
Proof.
  revert fuel a b m. induction l as [|[s2 f2] l IH]; intros fuel a [sz f] m Hc Hl Hm Hf; destruct fuel as [|fuel]; try (cbn in Hf; lia);
    pose proof (chain_header _ _ _ _ _ Hc) as Hh; cbn [coalesce_loop l_coalesce].
  - rewrite (h_next _ _ _ _ _ Hh), orb_true_r. by exists m.
  - apply Forall_cons in Hl as [Hs Hl]. cbn [fst] in Hs. pose proof Hm as [Ha Hend]. unfold HEADER_SIZE in *. cbn [sizes] in Hend.
    pose proof Hl as [Hs2 Hl2]%Forall_cons. cbn in Hs2. unfold HEADER_SIZE in Hs2. pose proof (sizes_nonneg l Hl2).
    pose proof (chain_tail _ _ _ _ _ Hc ltac:(done)) as Hc2. pose proof (chain_header _ _ _ _ _ Hc2) as Hh2.
    rewrite (h_next _ _ _ _ _ Hh), !(proj2 (Z.eqb_neq _ 0)) by lia. cbn [orb fst snd].
    rewrite (h_free _ _ _ _ _ Hh), (h_free _ _ _ _ _ Hh2). destruct (f && f2) eqn:Ef.
    + apply andb_true_iff in Ef as [-> ->]. rewrite (h_size _ _ _ _ _ Hh), (h_size _ _ _ _ _ Hh2), u32_small by lia.
      set (m1 := set_size a (sz + s2) m). assert (mem_frame (in_range a 12) m m1) as F1 by apply frame_set_size.
      assert (header m1 (a + sz) s2 true (match l with [] => 0 | _ => a + sz + s2 end)) as Hh2' by (eapply header_frame; [exact F1|unfold in_range; lia|exact Hh2]).
      assert (header m1 a (sz + s2) true (a + sz)) as Hh' by (apply (header_set_size _ _ sz); [lia|exact Hh]).
      rewrite (h_next _ _ _ _ _ Hh'), (h_next _ _ _ _ _ Hh2').
      assert (0 <= match l with [] => 0 | _ => a + sz + s2 end < 2 ^ 32) as Hnx.
      { destruct l as [|[s3 f3] l]; [lia|]. apply Forall_cons in Hl2 as [Hs3 Hl3]. cbn in Hs3, Hend. unfold HEADER_SIZE in Hs3.
        pose proof (sizes_nonneg l Hl3). lia. }
      set (m2 := set_next a _ m1). assert (mem_frame (in_range a 12) m m2) as F2 by (eapply mem_frame_trans; [exact F1|apply frame_set_next]).
      destruct (IH fuel a (sz + s2, true) m2) as (m' & -> & Hc' & Hf').
      * apply chain_cons.
        -- rewrite Z.add_assoc. by apply (header_set_next _ _ _ _ (a + sz)).
        -- intros Hl0. rewrite Z.add_assoc. eapply chain_frame; [exact F2| |by apply chain_tail in Hc2].
           intros x Hx%in_headers_ge; [|done]. unfold in_range. lia.
      * apply Forall_cons. cbn. unfold HEADER_SIZE. split; [lia|done].
      * split; [done|]. cbn. lia.
      * cbn in Hf. lia.
      * exists m'. split; [done|]. split; [done|]. eapply mem_frame_trans.
        -- eapply mem_frame_mono; [exact F2|]. intros x. apply in_headers_head.
        -- eapply mem_frame_mono; [exact Hf'|]. intros x. apply in_headers_merge.
    + destruct (IH fuel (a + sz) (s2, f2) m Hc2 Hl (in_memory_tail _ _ _ _ Hs Hm)) as (m' & -> & Hc' & Hf'); [cbn in Hf; lia|].
      exists m'. split; [done|]. destruct (l_coalesce_fits (s2, f2) l Hl) as (Hl' & _ & Hne). split.
      * apply chain_cons; [|done]. assert (match l_coalesce (s2, f2) l with [] => 0 | _ => a + sz end = a + sz) as -> by (by destruct (l_coalesce (s2, f2) l)).
        eapply header_frame; [exact Hf'| |exact Hh]. intros x Hx Hx'%in_headers_ge; [|done]. unfold in_range in *. lia.
      * eapply mem_frame_mono; [exact Hf'|]. intros x. apply in_headers_tail.
Qed.

(** * Blocks in use *)

Definition used_block (a : Z) (l : list (Z * bool)) (b sz : Z) : Prop := (b, sz, false) ∈ placed a l.

Lemma used_cons a sz f l b s : used_block a ((sz, f) :: l) b s <-> (b = a /\ s = sz /\ f = false) \/ used_block (a + sz) l b s.
Proof. unfold used_block. cbn. rewrite elem_of_cons. naive_solver. Qed.

Lemma l_alloc_some need a l p l' : HEADER_SIZE <= need -> fits l -> l_alloc need a l = Some (p, l') ->
  exists sz, need <= sz /\ (exists sz0, (p - HEADER_SIZE, sz0, true) ∈ placed a l) /\
    forall b s, used_block a l' b s <-> used_block a l b s \/ (b = p - HEADER_SIZE /\ s = sz).
Proof.
  unfold HEADER_SIZE. intros Hn Hl. revert a p l'. induction Hl as [|[sz f] l Hs Hl IH]; intros a p l'; cbn [l_alloc]; [done|].
  destruct (f && (need <=? sz)) eqn:Et.
  - intros [= <- <-]. apply andb_true_iff in Et as [-> Hle]. unfold HEADER_SIZE, carve in *. replace (a + 12 - 12) with a by lia.
    exists (if need + 16 <=? sz then need else sz). split; [case_bool; lia|]. split; [exists sz; left|].
    intros b s. rewrite used_cons. destruct (Z.leb_spec (need + 16) sz); rewrite !used_cons.
    + replace (a + need + (sz - need)) with (a + sz) by lia. naive_solver.
    + naive_solver.
  - intros ([q l2] & Hq & [= -> <-])%bind_Some. destruct (IH _ _ _ Hq) as (s0 & Hs0 & (z & Hz) & Hu).
    exists s0. split; [done|]. split; [exists z; by right|]. intros b s. rewrite !used_cons, Hu. naive_solver.
Qed.

(** [free = 1] for the block at [b] *)
Fixpoint l_release (a b : Z) (l : list (Z * bool)) : list (Z * bool) :=
  match l with [] => [] | (sz, f) :: l => (sz, if decide (a = b) then true else f) :: l_release (a + sz) b l end.

Lemma l_release_ge a b l : fits l -> b < a -> l_release a b l = l.
Proof.
  intros Hl. revert a. induction Hl as [|[sz f] l Hs Hl IH]; intros a Hb; cbn; [done|]. unfold HEADER_SIZE in Hs. cbn in Hs.
  rewrite decide_False by lia. by rewrite IH by lia.
Qed.

Lemma l_release_shape a b l : length (l_release a b l) = length l /\ sizes (l_release a b l) = sizes l /\ (fits l -> fits (l_release a b l)).
Proof.
  revert a. induction l as [|[sz f] l IH]; intros a; cbn; [done|]. destruct (IH (a + sz)) as (H1 & H2 & H3). split; [lia|]. split; [lia|].
  unfold fits in *. intros [Hs Hl]%Forall_cons. apply Forall_cons. split; [done|]. by apply H3.
Qed.

Lemma l_release_used a b l c s : fits l -> used_block a (l_release a b l) c s <-> used_block a l c s /\ c <> b.
Proof.
  intros Hl. revert a. induction Hl as [|[sz f] l Hs Hl IH]; intros a; cbn [l_release].
  - unfold used_block. cbn. rewrite elem_of_nil. naive_solver.
  - rewrite !used_cons, IH. case_decide as Hab; [subst b|naive_solver]. split; [naive_solver|]. intros [[(-> & _)|Hu] Hne]; [done|by right].
Qed.

Lemma l_release_chain m a b l sz f : fits l -> (b, sz, f) ∈ placed a l -> chain m a l -> chain (set_free b 1 m) a (l_release a b l).
Proof.
  intros Hl. revert a. induction Hl as [|[s0 f0] l Hs Hl IH]; intros a Hin Hc; [done|]. cbn [l_release].
  pose proof (chain_header _ _ _ _ _ Hc) as Hh. cbn in Hs. unfold HEADER_SIZE in Hs.
  assert (match l_release (a + s0) b l with [] => 0 | _ => a + s0 end = match l with [] => 0 | _ => a + s0 end) as Enx by (by destruct l as [|[]]).
  cbn in Hin. apply elem_of_cons in Hin as [[= -> -> ->]|Hin].
  - rewrite decide_True by done. rewrite l_release_ge in Enx |- * by (done || lia). apply chain_cons.
    + apply (header_set_free _ _ _ _ _ 1) in Hh; [exact Hh|by right].
    + intros Hl0. eapply chain_frame; [apply frame_set_free| |by apply chain_tail in Hc]. intros x Hx%in_headers_ge; [|done]. unfold in_range. lia.
  - pose proof (placed_range _ _ _ _ _ Hl Hin) as (? & ? & ?). rewrite decide_False by lia. apply chain_cons.
    + rewrite Enx. eapply header_frame; [apply frame_set_free| |exact Hh]. unfold in_range. lia.
    + intros _. apply IH; [done|]. apply chain_tail in Hc; [done|]. intros ->. by apply elem_of_nil in Hin.
Qed.

Lemma l_coalesce_used a b l c s : used_block a (l_coalesce b l) c s <-> used_block a (b :: l) c s.
Proof.
  revert a b. induction l as [|[s2 f2] l IH]; intros a [sz f]; cbn [l_coalesce fst snd]; [done|].
  destruct (f && f2) eqn:Ef.
  - apply andb_true_iff in Ef as [-> ->]. rewrite IH, !used_cons, Z.add_assoc. naive_solver.
  - rewrite !(used_cons a), IH. done.
Qed.

(** No two neighbours are both free. *)
Fixpoint no_adjacent (l : list (Z * bool)) : Prop :=
  match l with
  | b :: ((c :: _) as l) => ~ (b.2 = true /\ c.2 = true) /\ no_adjacent l
  | _ => True
  end.

Lemma no_adjacent_cons b l : no_adjacent (b :: l) <-> (forall c l', l = c :: l' -> ~ (b.2 = true /\ c.2 = true)) /\ no_adjacent l.
Proof. destruct l as [|c l]; cbn; naive_solver. Qed.

Lemma l_coalesce_no_adjacent b l : no_adjacent (l_coalesce b l) /\ exists c l', l_coalesce b l = c :: l' /\ c.2 = b.2.
Proof.
  revert b. induction l as [|[s2 f2] l IH]; intros [sz f]; cbn [l_coalesce fst snd].
  - split; [done|]. by exists (sz, f), [].
  - destruct (f && f2) eqn:Ef.
    + apply andb_true_iff in Ef as [-> ->]. exact (IH (sz + s2, true)).
    + destruct (IH (s2, f2)) as (Hn & c & l' & E & Hc). split; [|by eexists _, _]. apply no_adjacent_cons. split; [|done].
      intros d l2 E2. rewrite E in E2. injection E2 as -> ->. cbn in Hc |- *. rewrite Hc. intros [-> ->]. done.
Qed.

Lemma l_alloc_no_adjacent need a l p l' : l_alloc need a l = Some (p, l') -> no_adjacent l -> no_adjacent l'.
Proof.
  assert (forall need a l p l', l_alloc need a l = Some (p, l') -> no_adjacent l ->
    no_adjacent l' /\ forall c k, l' = c :: k -> c.2 = true -> exists d k', l = d :: k' /\ d.2 = true) as Hgen; [|intros H1 H2; by apply (Hgen _ _ _ _ _ H1 H2)].
  clear. intros need a l. revert a. induction l as [|[sz f] l IH]; intros a p l'; cbn [l_alloc]; [done|].
  destruct (f && (need <=? sz)) eqn:Et.
  - apply andb_true_iff in Et as [-> _]. intros [= _ <-] [Hh Hn]%no_adjacent_cons. unfold carve. destruct (_ <=? _).
    + split; [|by intros c k [= <- _]]. apply no_adjacent_cons. split; [by intros c k [= <- _] [? _]|]. apply no_adjacent_cons. split; [|done]. exact Hh.
    + split; [|by intros c k [= <- _]]. apply no_adjacent_cons. split; [by intros c k _ [? _]|done].
  - intros ([q l2] & Hq & [= -> <-])%bind_Some [Hh Hn]%no_adjacent_cons. destruct (IH _ _ _ Hq Hn) as [Hn2 Hhd]. split.
    + apply no_adjacent_cons. split; [|done]. intros c k E [Hf Hc]. destruct (Hhd c k E Hc) as (d & k' & -> & Hd). by apply (Hh d k' eq_refl).
    + intros c k [= <- _] Hf. by exists (sz, f), l.
Qed.

(** Blocks stay on word boundaries. *)
Definition on_words (a : Z) (l : list (Z * bool)) : Prop := forall b sz f, (b, sz, f) ∈ placed a l -> aligned 4 b.

Lemma on_words_cons a sz f l : on_words a ((sz, f) :: l) <-> aligned 4 a /\ on_words (a + sz) l.
Proof. unfold on_words. cbn. setoid_rewrite elem_of_cons. naive_solver. Qed.

Lemma l_alloc_on_words need a l p l' : aligned 4 need -> l_alloc need a l = Some (p, l') -> on_words a l -> on_words a l'.
Proof.
  intros Hal. revert a p l'. induction l as [|[sz f] l IH]; intros a p l'; cbn [l_alloc]; [done|]. destruct (f && (need <=? sz)).
  - intros [= _ <-]. unfold carve. destruct (_ <=? _); [|by rewrite !on_words_cons]. rewrite !on_words_cons.
    replace (a + need + (sz - need)) with (a + sz) by lia. intros [Ha Hw]. split; [done|]. split; [by apply aligned_add|done].
  - intros ([q l2] & Hq & [= -> <-])%bind_Some. rewrite !on_words_cons. intros [Ha Hw]. split; [done|]. by apply (IH _ p).
Qed.

Lemma l_coalesce_on_words a b l : on_words a (b :: l) -> on_words a (l_coalesce b l).
Proof.
  revert a b. induction l as [|[s2 f2] l IH]; intros a [sz f]; cbn [l_coalesce fst snd]; [done|].
  destruct (f && f2); rewrite !on_words_cons; intros (H1 & H2 & H3).
  - apply IH. rewrite on_words_cons, Z.add_assoc. done.
  - split; [done|]. apply IH. by rewrite on_words_cons.
Qed.

Lemma l_release_on_words a b l : on_words a l -> on_words a (l_release a b l).
Proof.
  revert a. induction l as [|[sz f] l IH]; intros a; cbn [l_release]; [done|]. rewrite !on_words_cons. intros [H1 H2]. split; [done|auto].
Qed.

(** * Clients *)

(** The heap [h] with the pointers [live] in use. *)
Definition heap_rep (h : heap) (m : mem) (live : gset Z) : Prop := exists l,
  chain m (heap_start h) l /\ fits l /\ in_memory (heap_start h) l /\ sizes l = total_size h /\ no_adjacent l /\
  on_words (heap_start h) l /\ forall p, p ∈ live <-> exists sz, used_block (heap_start h) l (p - HEADER_SIZE) sz.

(** the bytes at the disposal of the owner of [p] *)
Definition area (m : mem) (p : Z) : Z := b_size m (p - HEADER_SIZE) - HEADER_SIZE.

(** every allocation, deallocation and store of the clients; requests are at
    most [2^32 - 16] bytes, stores go into areas in use or outside the heap *)
Inductive heap_steps (h : heap) : mem * gset Z -> mem * gset Z -> Prop :=
  | hs_refl x : heap_steps h x x
  | hs_alloc m live size p m' x : 0 <= size <= 2 ^ 32 - 16 -> heap_alloc h size m = Some (p, m') ->
      heap_steps h (m', if decide (p = 0) then live else {[p]} ∪ live) x -> heap_steps h (m, live) x
  | hs_free m live p m' x : p = 0 \/ p ∈ live -> heap_free h p m = Some m' ->
      heap_steps h (m', live ∖ {[p]}) x -> heap_steps h (m, live) x
  | hs_store m live a v x : (exists p, p ∈ live /\ in_range p (area m p) a) \/ ~ in_range (heap_start h) (total_size h) a ->
      heap_steps h (stb m a v, live) x -> heap_steps h (m, live) x.

Lemma need_spec size : 0 <= size <= 2 ^ 32 - 16 ->
  let need := ALIGN_UP size 4 +w HEADER_SIZE in size + HEADER_SIZE <= need /\ need <= size + 3 + HEADER_SIZE /\ aligned 4 need.
Proof.
  unfold ALIGN_UP, HEADER_SIZE. intros Hs. rewrite (u32_small (size + 4)) by lia. change (4 - 1) with (2 ^ 2 - 1).
  replace (size + 4 - 1) with (size + (2 ^ 2 - 1)) by lia. rewrite align_up by lia.
  pose proof (Z.div_mod (size + (2 ^ 2 - 1)) (2 ^ 2)). pose proof (Z.mod_pos_bound (size + (2 ^ 2 - 1)) (2 ^ 2)). cbn zeta.
  rewrite u32_small by lia. split; [lia|]. split; [lia|]. apply aligned_add; [|done]. rewrite Z.mul_comm. apply (aligned_mul 4).
Qed.

(** The header of a block in use says its size. *)
Lemma used_area m a l b sz : chain m a l -> used_block a l b sz -> b_size m b = sz.
Proof.
  revert a. induction l as [|[s0 f] l IH]; intros a Hc; [done|]. intros [(-> & -> & ->)|Hu]%used_cons.
  - apply (h_size _ _ _ _ _ (chain_header _ _ _ _ _ Hc)).
  - apply (IH (a + s0)); [|done]. apply (chain_tail _ _ _ _ _ Hc). intros ->. by apply elem_of_nil in Hu.
Qed.

Lemma rep_rounds h l : fits l -> sizes l = total_size h -> (length l < rounds h)%nat.
Proof.
  intros Hl%fits_sizes Hs. unfold rounds, HEADER_SIZE. rewrite Hs in Hl.
  assert (Z.of_nat (length l) <= total_size h / 12) by (apply Z.div_le_lower_bound; lia). lia.
Qed.

(** Two areas in use do not meet, and lie in the heap off every header. *)
Lemma used_apart a l b sz x : fits l -> used_block a l b sz -> in_headers a l x -> ~ in_range (b + HEADER_SIZE) (sz - HEADER_SIZE) x.
Proof.
  unfold HEADER_SIZE. intros Hl Hu (c & s & f & Hin & Hx) Hr. unfold in_range in *.
  pose proof (placed_range _ _ _ _ _ Hl Hin) as (? & Hsz & ?). unfold HEADER_SIZE in Hsz.
  destruct (placed_apart _ _ _ _ _ _ _ _ Hl Hu Hin) as [(-> & _)|[?|?]]; lia.
Qed.

(** what an allocation does *)
Record allocated (h : heap) (size p : Z) (m m' : mem) (live : gset Z) : Prop := {
  al_fresh : p ∉ live;
  al_word : aligned 4 p;
  al_size : size <= area m' p;
  al_in : heap_start h <= p - HEADER_SIZE /\ p + area m' p <= heap_start h + total_size h;
  al_keep : forall q, q ∈ live -> area m' q = area m q /\ bytes_at m' q (Z.to_nat (area m q)) = bytes_at m q (Z.to_nat (area m q)) /\
    (q + area m q <= p - HEADER_SIZE \/ p + area m' p <= q - HEADER_SIZE);
}.

(** what a refusal means: no stretch of the heap, off the areas in use and their
    headers, holds the request, rounded up to words, and a header *)
Definition no_room (h : heap) (size : Z) (m : mem) (live : gset Z) : Prop :=
  forall a k, 0 < k -> heap_start h <= a -> a + k <= heap_start h + total_size h ->
    (forall q, q ∈ live -> a + k <= q - HEADER_SIZE \/ q + area m q <= a) -> k < size + 3 + HEADER_SIZE.

Lemma l_alloc_none need a l sz : l_alloc need a l = None -> (sz, true) ∈ l -> sz < need.
Proof.
  revert a. induction l as [|[s f] l IH]; intros a; cbn [l_alloc]; [by intros _ ?%elem_of_nil|].
  destruct (f && (need <=? s)) eqn:Et; [done|]. destruct (l_alloc need (a + s) l) as [[]|] eqn:El; [done|]. intros _.
  intros [[= -> <-]|Hin]%elem_of_cons; [cbn in Et; lia|by eapply IH].
Qed.

(** A stretch that meets no block in use lies in a free one. *)
Lemma stretch_in_free a l x k : fits l -> no_adjacent l -> 0 < k -> a <= x -> x + k <= a + sizes l ->
  (forall b sz, used_block a l b sz -> x + k <= b \/ b + sz <= x) -> exists sz, (sz, true) ∈ l /\ k <= sz.
Proof.
  intros Hl. revert a. induction Hl as [|[sz f] l Hs Hl IH]; intros a Hn Hk Hx Hend Hu; cbn [sizes] in Hend; [cbn in Hend; lia|].
  apply no_adjacent_cons in Hn as [Hadj Hn]. setoid_rewrite used_cons in Hu. cbn in Hs. unfold HEADER_SIZE in Hs.
  assert (a + sz <= x -> exists s, (s, true) ∈ (sz, f) :: l /\ k <= s) as Htail.
  { intros Hge. destruct (IH (a + sz) Hn Hk Hge) as (s & Hin & Hle); [lia|intros b s Hb; apply Hu; by right|].
    exists s. split; [by right|done]. }
  destruct f.
  - destruct (decide (x + k <= a + sz)) as [Hin|Hout]; [exists sz; split; [left|lia]|].
    destruct (decide (a + sz <= x)) as [Hge|Hlt]; [by apply Htail|exfalso].
    destruct l as [|[s2 [|]] l]; [cbn in Hend; lia|by destruct (Hadj _ _ eq_refl)|].
    destruct (Hu (a + sz) s2) as [?|?]; [right; apply used_cons; by left|lia|].
    apply Forall_cons in Hl as [Hs2 _]. cbn in Hs2. unfold HEADER_SIZE in Hs2. lia.
  - destruct (Hu a sz) as [?|?]; [by left|lia|]. by apply Htail.
Qed.

Lemma live_keep a l l' m m' b sz : fits l' -> chain m a l -> chain m' a l' -> used_block a l b sz -> used_block a l' b sz ->
  mem_frame (in_headers a l') m m' ->
  area m' (b + HEADER_SIZE) = area m (b + HEADER_SIZE) /\
  bytes_at m' (b + HEADER_SIZE) (Z.to_nat (area m (b + HEADER_SIZE))) = bytes_at m (b + HEADER_SIZE) (Z.to_nat (area m (b + HEADER_SIZE))).
Proof.
  intros Hl' Hc Hc' Hu Hu' Hf. unfold area. replace (b + HEADER_SIZE - HEADER_SIZE) with b by lia.
  rewrite (used_area m' a l' b sz), (used_area m a l b sz) by done. split; [done|]. apply bytes_at_ext. intros i Hi. apply Hf.
  intros Hx. apply (used_apart a l' b sz _ Hl' Hu' Hx). unfold in_range. lia.
Qed.

Lemma heap_alloc_spec h m live size : heap_rep h m live -> 0 <= size <= 2 ^ 32 - 16 ->
  exists p m', heap_alloc h size m = Some (p, m') /\
    heap_rep h m' (if decide (p = 0) then live else {[p]} ∪ live) /\
    if decide (p = 0) then m' = m /\ no_room h size m live else allocated h size p m m' live.
Proof.
  intros (l & Hc & Hl & Hm & Hs & Hadj & Hw & Hu) Hsz. destruct (need_spec size Hsz) as (Hn & Hn3 & Hal). unfold heap_alloc.
  set (need := ALIGN_UP size 4 +w HEADER_SIZE) in *. assert (HEADER_SIZE <= need) as Hn12 by lia.
  pose proof (alloc_loop_spec (rounds h) m (heap_start h) l need Hc Hl Hm Hn12 (rep_rounds h l Hl Hs)) as Ha.
  destruct (l_alloc need (heap_start h) l) as [[p l']|] eqn:El.
  2: { exists 0, m. rewrite Ha, !decide_True by done. split; [done|]. split; [by exists l|]. split; [done|].
       intros a k Hk Ha1 Ha2 Hq. rewrite <- Hs in Ha2. destruct (stretch_in_free (heap_start h) l a k) as (sz & Hin & Hle); [done..| |].
       - intros b sz Hb. pose proof (used_area m _ _ _ _ Hc Hb) as Hsize. destruct (Hq (b + HEADER_SIZE)) as [?|Hr].
         + apply Hu. exists sz. by replace (b + HEADER_SIZE - HEADER_SIZE) with b by lia.
         + left. lia.
         + right. unfold area in Hr. replace (b + HEADER_SIZE - HEADER_SIZE) with b in Hr by lia. lia.
       - pose proof (l_alloc_none _ _ _ _ El Hin). lia. }
  destruct Ha as (m' & Ha & Hc' & Hf). destruct (l_alloc_fits _ _ _ _ _ Hn12 Hl El) as (Hl' & Hs' & _).
  destruct (l_alloc_some _ _ _ _ _ Hn12 Hl El) as (sz & Hsn & (s0 & Hs0) & Hu'). exists p, m'.
  pose proof (placed_range _ _ _ _ _ Hl Hs0) as Hpr. pose proof Hm as [Hm1 Hm2]. unfold HEADER_SIZE in Hpr.
  rewrite !decide_False by (unfold HEADER_SIZE in *; lia). split; [done|]. split.
  - exists l'. split; [done|]. split; [done|]. split; [split; [done|by rewrite Hs']|]. split; [by rewrite Hs'|].
    split; [by eapply l_alloc_no_adjacent|]. split; [by eapply l_alloc_on_words|].
    intros q. rewrite elem_of_union, elem_of_singleton, Hu. setoid_rewrite Hu'. unfold HEADER_SIZE in *. split.
    + intros [->|[s1 ?]]; [exists sz; by right|exists s1; by left].
    + intros [s1 [?|[? ?]]]; [right; by exists s1|left; lia].
  - assert (used_block (heap_start h) l' (p - HEADER_SIZE) sz) as Hup by (apply Hu'; by right).
    pose proof (placed_range _ _ _ _ _ Hl' Hup) as (? & ? & ?).
    assert (area m' p = sz - HEADER_SIZE) as Harea by (unfold area; by rewrite (used_area m' (heap_start h) l' _ sz)).
    split; rewrite ?Harea.
    + intros Hp%Hu. destruct Hp as [s1 Hs1]. destruct (placed_apart _ _ _ _ _ _ _ _ Hl Hs1 Hs0) as [(_ & _ & ?)|Hd]; [done|].
      pose proof (placed_range _ _ _ _ _ Hl Hs1). pose proof (placed_range _ _ _ _ _ Hl Hs0). unfold HEADER_SIZE in *. lia.
    + replace p with (p - HEADER_SIZE + HEADER_SIZE) by lia. apply aligned_add; [|done]. eapply Hw, Hs0.
    + lia.
    + lia.
    + intros q Hq. apply Hu in Hq as [s1 Hs1]. assert (used_block (heap_start h) l' (q - HEADER_SIZE) s1) as Hs1' by (apply Hu'; by left).
      pose proof (live_keep _ _ _ _ _ _ _ Hl' Hc Hc' Hs1 Hs1' Hf) as Hk. replace (q - HEADER_SIZE + HEADER_SIZE) with q in Hk by lia.
      destruct Hk as [Hk1 Hk2]. split; [done|]. split; [done|].
      assert (area m q = s1 - HEADER_SIZE) as -> by (unfold area; by rewrite (used_area m (heap_start h) l _ s1)).
      destruct (placed_apart _ _ _ _ _ _ _ _ Hl Hs1 Hs0) as [(_ & _ & ?)|Hd]; [done|].
      destruct (placed_apart _ _ _ _ _ _ _ _ Hl' Hs1' Hup) as [(Hqp & _ & _)|Hd']; [|lia].
      pose proof (placed_range _ _ _ _ _ Hl Hs1). pose proof (placed_range _ _ _ _ _ Hl Hs0). unfold HEADER_SIZE in *. lia.
Qed.

Lemma placed_release a b l c sz f : (c, sz, f) ∈ placed a (l_release a b l) -> exists g, (c, sz, g) ∈ placed a l.
Proof.
  revert a. induction l as [|[s0 f0] l IH]; intros a; cbn; [by intros ?%elem_of_nil|].
  intros [[= -> -> _]|Hin]%elem_of_cons; [eexists; left|]. destruct (IH _ Hin) as [g Hg]. exists g. by right.
Qed.

Lemma heap_free_spec h m live p : heap_rep h m live -> p ∈ live ->
  exists m', heap_free h p m = Some m' /\ heap_rep h m' (live ∖ {[p]}) /\
    forall q, q ∈ live -> q <> p -> area m' q = area m q /\ bytes_at m' q (Z.to_nat (area m q)) = bytes_at m q (Z.to_nat (area m q)).
Proof.
  intros (l & Hc & Hl & Hm & Hs & Hadj & Hw & Hu) Hp. pose proof Hm as [Hm1 Hm2]. destruct (proj1 (Hu p) Hp) as [sz Hsz].
  pose proof (placed_range _ _ _ _ _ Hl Hsz) as Hr. unfold heap_free. rewrite (proj2 (Z.eqb_neq p 0)) by (unfold HEADER_SIZE in *; lia).
  set (b := p - HEADER_SIZE) in *. set (m1 := set_free b 1 m). set (l1 := l_release (heap_start h) b l).
  destruct (l_release_shape (heap_start h) b l) as (Hlen & Hsz1 & Hl1). specialize (Hl1 Hl). fold l1 in Hlen, Hsz1, Hl1.
  assert (chain m1 (heap_start h) l1) as Hc1 by (by eapply l_release_chain).
  assert (forall x, in_headers (heap_start h) l1 x -> in_headers (heap_start h) l x) as Hh1.
  { intros x (c & s & f & Hin & Hx). apply placed_release in Hin as [g Hg]. by exists c, s, g. }
  assert (forall c s, used_block (heap_start h) l1 c s <-> used_block (heap_start h) l c s /\ c <> b) as Hu1 by (intros; by apply l_release_used).
  assert (on_words (heap_start h) l1) as Hw1 by (by apply l_release_on_words).
  pose proof (rep_rounds h l1 Hl1 (eq_trans Hsz1 Hs)) as Hro. clearbody l1. destruct l1 as [|b0 l1]; [done|].
  destruct (coalesce_loop_spec (rounds h) m1 (heap_start h) b0 l1) as (m' & -> & Hc' & Hf'); [done|done|split; [done|by rewrite Hsz1]|cbn in Hro; lia|].
  destruct (l_coalesce_fits b0 l1 Hl1) as (Hl' & Hs' & _). exists m'. split; [done|]. split.
  - exists (l_coalesce b0 l1). split; [done|]. split; [done|]. split; [split; [done|by rewrite Hs', Hsz1]|]. split; [by rewrite Hs', Hsz1|].
    split; [apply l_coalesce_no_adjacent|]. split; [by apply l_coalesce_on_words|].
    intros q. rewrite elem_of_difference, elem_of_singleton, Hu. setoid_rewrite l_coalesce_used. setoid_rewrite Hu1. unfold b. split.
    + intros [[s1 ?] Hne]. exists s1. split; [done|]. unfold HEADER_SIZE. lia.
    + intros (s1 & ? & Hne). split; [by exists s1|]. by intros ->.
  - intros q Hq Hne. apply Hu in Hq as [s1 Hs1].
    assert (used_block (heap_start h) (l_coalesce b0 l1) (q - HEADER_SIZE) s1) as Hs1'.
    { apply l_coalesce_used, Hu1. split; [done|]. unfold b, HEADER_SIZE. lia. }
    unfold area. rewrite (used_area m' _ _ _ _ Hc' Hs1'), (used_area m _ _ _ _ Hc Hs1). split; [done|]. apply bytes_at_ext. intros i Hi.
    assert (forall x, in_headers (heap_start h) l x -> x <> q + i) as Hoff.
    { intros x Hx ->. apply (used_apart _ _ _ _ _ Hl Hs1 Hx). unfold in_range, HEADER_SIZE in *. lia. }
    trans (ldb m1 (q + i)).
    + apply Hf'. intros Hx%Hh1. by apply (Hoff _ Hx).
    + unfold m1. apply frame_set_free. intros Hx. apply (Hoff (q + i)); [|done]. by exists b, sz, false.
Qed.

Lemma heap_init_rep p size m : aligned 4 p -> 16 < p -> HEADER_SIZE <= size -> p + size <= 2 ^ 32 ->
  heap_rep (heap_init p size m).1 (heap_init p size m).2 ∅.
Proof.
  unfold HEADER_SIZE. intros Hal Hp Hs Hend. exists [(size, true)]. cbn [heap_init fst snd heap_start total_size]. split; [|split; [|split; [|split; [|split; [|split]]]]].
  - cbn. apply (header_set m p size 1 0); [lia|lia|by right|apply mem_frame_refl].
  - apply Forall_singleton. cbn. done.
  - split; [done|cbn; lia].
  - cbn. lia.
  - done.
  - intros b sz f. cbn. rewrite list_elem_of_singleton. by intros [= -> _ _].
  - intros q. unfold used_block. cbn. setoid_rewrite list_elem_of_singleton. split; [set_solver|]. by intros [? ?].
Qed.

Lemma heap_steps_rep h x y : heap_steps h x y -> heap_rep h x.1 x.2 -> heap_rep h y.1 y.2.
Proof.
  induction 1 as [x|m live size p m' x Hsz Ha Hx IH|m live p m' x Hp Hf Hx IH|m live a v x Ha Hx IH]; cbn [fst snd] in *; intros Hr; [done|..]; apply IH.
  - destruct (heap_alloc_spec h m live size Hr Hsz) as (p' & m2 & E & Hr' & _). rewrite Ha in E. by injection E as <- <-.
  - destruct (decide (p ∈ live)) as [Hin|Hout].
    + destruct (heap_free_spec h m live p Hr Hin) as (m2 & E & Hr' & _). rewrite Hf in E. by injection E as <-.
    + destruct Hp as [->|?]; [|done]. cbn in Hf. injection Hf as <-. by replace (live ∖ {[0]}) with live by set_solver.
  - destruct Hr as (l & Hc & Hl & Hm & Hs & Hadj & Hw & Hu). exists l. split; [|done].
    eapply chain_frame; [apply mem_frame_stb| |exact Hc]. intros y Hy <-. destruct Ha as [(p & Hp & Hr)|Hout].
    + apply Hu in Hp as [sz Hsz]. apply (used_apart _ _ _ _ _ Hl Hsz Hy). unfold area in Hr. rewrite (used_area m _ _ _ _ Hc Hsz) in Hr.
      by replace (p - HEADER_SIZE + HEADER_SIZE) with p by lia.
    + destruct Hy as (b & sz & f & Hin & Hy). apply (placed_range _ _ _ _ _ Hl) in Hin. unfold in_range, HEADER_SIZE in *. lia.
Qed.

Lemma all_free_single l : l <> [] -> no_adjacent l -> (forall b, b ∈ l -> b.2 = true) -> exists sz, l = [(sz, true)].
Proof.
  destruct l as [|[sz f] [|[s2 f2] l]]; [done|..]; intros _ Hn Hall.
  - exists sz. pose proof (Hall (sz, f) ltac:(left)) as Hf. cbn in Hf. by rewrite Hf.
  - destruct Hn as [Hn _]. destruct Hn. split; [apply (Hall (sz, f)); left|apply (Hall (s2, f2)); right; left].
Qed.

Lemma placed_of a l sz f : (sz, f) ∈ l -> exists b, (b, sz, f) ∈ placed a l.
Proof.
  revert a. induction l as [|[s0 f0] l IH]; intros a; cbn; [by intros ?%elem_of_nil|].
  intros [[= -> ->]|Hin]%elem_of_cons; [eexists; left|]. destruct (IH (a + s0) Hin) as [b Hb]. exists b. by right.
Qed.

(** C11. Whatever the clients of the heap do after [heap_init] (allocate up to
    [2^32 - 16] bytes at a time, free what they hold, store into it or outside
    the heap): for a request of that size [heap_alloc] ends, and returns NULL
    without effect, and only when no stretch of the heap off the areas in use
    holds the request and a header, or a word-aligned pointer that is not in use
    to an area of at least the size asked for, inside the heap and apart from
    every area in use and its header; [heap_free] of a pointer in use ends;
    neither changes a byte of the other areas in use; and once everything has
    been freed the heap is a single free block again.  Beyond that size the
    request wraps around, see [heap_alloc_size_wraps] and
    [heap_alloc_then_hangs]. *)
Theorem rtos_heap_sound p size m0 m live (Hal : aligned 4 p) (Hp : 16 < p) (Hsize : HEADER_SIZE <= size) (Hend : p + size <= 2 ^ 32)
    (Hrun : heap_steps (heap_init p size m0).1 ((heap_init p size m0).2, ∅) (m, live)) :
  (forall n, 0 <= n <= 2 ^ 32 - 16 -> exists q m', heap_alloc (Heap p size) n m = Some (q, m') /\
     if decide (q = 0) then m' = m /\ no_room (Heap p size) n m live else allocated (Heap p size) n q m m' live) /\
  (forall q, q ∈ live -> exists m', heap_free (Heap p size) q m = Some m' /\
     forall r, r ∈ live -> r <> q -> area m' r = area m r /\ bytes_at m' r (Z.to_nat (area m r)) = bytes_at m r (Z.to_nat (area m r))) /\
  (live = ∅ -> header m p size true 0).
Proof.
  pose proof (heap_steps_rep _ _ _ Hrun (heap_init_rep p size m0 Hal Hp Hsize Hend)) as Hr. cbn [fst snd heap_init] in Hr. split; [|split].
  - intros n Hn. destruct (heap_alloc_spec _ _ _ n Hr Hn) as (q & m' & Ha & _ & Hq). by exists q, m'.
  - intros q Hq. destruct (heap_free_spec _ _ _ q Hr Hq) as (m' & Hf & _ & Hk). by exists m'.
  - intros ->. destruct Hr as (l & Hc & Hl & Hm & Hs & Hadj & Hw & Hu). cbn [heap_start total_size] in *.
    destruct (all_free_single l) as [sz ->]; [by intros ->|done| |cbn in Hc, Hs; by replace size with sz by lia].
    intros [sz [|]] Hin; [done|]. apply (placed_of p) in Hin as [b Hb].
    exfalso. apply (not_elem_of_empty (C := gset Z) (b + HEADER_SIZE)). apply Hu. exists sz. by replace (b + HEADER_SIZE - HEADER_SIZE) with b by lia.
Qed.

(** Above that size the computation of the request wraps around, and a block
    without room is handed out. *)
Theorem heap_alloc_size_wraps : exists m',
  heap_alloc (heap_init 4096 64 ∅).1 0xFFFFFFFF (heap_init 4096 64 ∅).2 = Some (4108, m') /\ area m' 4108 = 0.
Proof. eexists. split; [vm_compute; reflexivity|]. vm_compute. reflexivity. Qed.

(** A request of [2^32 - 12] bytes is taken for a block of size 0: the block is
    split from itself, so its chain leads back to it, and every later call of
    [heap_alloc] goes round for ever. *)
Theorem heap_alloc_then_hangs :
  match heap_alloc (heap_init 4096 64 ∅).1 0xFFFFFFF4 (heap_init 4096 64 ∅).2 with
  | Some (p, m') => p <> 0 /\ forall fuel size, alloc_loop fuel 4096 size m' = None
  | None => False
  end.
Proof.
  set (o := heap_alloc _ _ _). assert (match o with Some (p, m') => (p =? 0, b_free m' 4096, b_next m' 4096) | None => (true, true, 0) end = (false, false, 4096)) as H
    by (vm_compute; reflexivity).
  clearbody o. destruct o as [[p m']|]; [|done]. injection H as Hp Hf Hn. split; [lia|]. intros fuel size.
  induction fuel as [|fuel IH]; [done|]. cbn [alloc_loop]. rewrite Hf, Hn. exact IH.
Qed.

(** ** Witness *)

(** a heap of 256 bytes at 4096 in which two areas were taken and one returned *)
Definition demo_heap : heap := Heap 4096 256.
Definition demo_m0 : mem := (heap_init 4096 256 ∅).2.
Definition demo_m1 : mem := (default (0, ∅) (heap_alloc demo_heap 10 demo_m0)).2.
Definition demo_m2 : mem := (default (0, ∅) (heap_alloc demo_heap 20 demo_m1)).2.
Definition demo_m3 : mem := default ∅ (heap_free demo_heap 4108 (stb demo_m2 4132 5)).

Lemma demo_heap_steps : heap_steps demo_heap (demo_m0, ∅) (demo_m3, ({[4132]} ∪ ({[4108]} ∪ ∅)) ∖ {[4108]}).
Proof.
  apply (hs_alloc _ _ _ 10 4108 demo_m1); [lia|vm_compute; reflexivity|]. rewrite decide_False by done.
  apply (hs_alloc _ _ _ 20 4132 demo_m2); [lia|vm_compute; reflexivity|]. rewrite decide_False by done.
  apply (hs_store _ _ _ 4132 5); [left; exists 4132; split; [set_solver|split; [done|vm_compute; reflexivity]]|].
  apply (hs_free _ _ _ 4108 demo_m3); [right; set_solver|vm_compute; reflexivity|]. apply hs_refl.
Qed.

Lemma rtos_heap_sound_witness : exists q m', heap_alloc demo_heap 8 demo_m3 = Some (q, m') /\
  if decide (q = 0) then m' = demo_m3 /\ no_room demo_heap 8 demo_m3 (({[4132]} ∪ ({[4108]} ∪ ∅)) ∖ {[4108]}) else allocated demo_heap 8 q demo_m3 m' (({[4132]} ∪ ({[4108]} ∪ ∅)) ∖ {[4108]}).
Proof.
  destruct (rtos_heap_sound 4096 256 ∅ demo_m3 (({[4132]} ∪ ({[4108]} ∪ ∅)) ∖ {[4108]})) as (Ha & _); [done|done|done|done|exact demo_heap_steps|].
  apply Ha. lia.
Defined.
