(* ===== verification/RtosNet.v ===== *)
(** The UDP/IP stack of the RTOS, [rtos/net/udp.c]: ARP, IPv4 and UDP over an
    Ethernet driver.

    The statics of [udp.c] are the record [net].  Frames are lists of bytes; a
    packed header is the concatenation of its fields, little-endian as the
    processor stores them, after the [htons] and [htonl] of the code.  The
    driver is a parameter: a frame given to [eth_send] is appended to [wire],
    with the driver's answer as an argument, and [net_poll] is given the frame
    that [eth_recv] puts into [pkt_buf].  Reads of [pkt_buf] are checked
    against its 600 bytes. *)

From stdpp Require Import list.
From Stdlib Require Import ZArith Lia.
From S2P Require Import Prelude Checked.

(** * Data *)

Definition NET_MAX_SOCKETS : nat := 4.
Definition ARP_CACHE_SIZE : nat := 4.
Definition ETH_TYPE_IP : Z := 0x0800.
Definition ETH_TYPE_ARP : Z := 0x0806.
Definition IP_PROTO_UDP : Z := 17.

Record udp_socket := Sock { local_port : Z; bound : bool }.
Record arp_entry := Arp { arp_ip : Z; arp_mac : list Z; arp_valid : bool }.
Record rx_slot := Rx { rx_data : list Z; rx_len : Z; rx_src_ip : Z; rx_src_port : Z; rx_ready : bool }.

Record net := Net {
  net_ip : Z; net_netmask : Z; net_gateway : Z; net_mac : list Z;
  sockets : list udp_socket; arp_cache : list arp_entry; rx_buf : list rx_slot;
  pkt_buf : list Z; wire : list (list Z);
}.

Definition set_sockets v n := Net (net_ip n) (net_netmask n) (net_gateway n) (net_mac n) v (arp_cache n) (rx_buf n) (pkt_buf n) (wire n).
Definition set_arp v n := Net (net_ip n) (net_netmask n) (net_gateway n) (net_mac n) (sockets n) v (rx_buf n) (pkt_buf n) (wire n).
Definition set_rx v n := Net (net_ip n) (net_netmask n) (net_gateway n) (net_mac n) (sockets n) (arp_cache n) v (pkt_buf n) (wire n).
Definition set_pkt v n := Net (net_ip n) (net_netmask n) (net_gateway n) (net_mac n) (sockets n) (arp_cache n) (rx_buf n) v (wire n).
Definition set_wire v n := Net (net_ip n) (net_netmask n) (net_gateway n) (net_mac n) (sockets n) (arp_cache n) (rx_buf n) (pkt_buf n) v.

Definition zeros (n : nat) : list Z := replicate n 0.
Definition net_zero : net :=
  Net 0 0 0 (zeros 6) (replicate NET_MAX_SOCKETS (Sock 0 false)) (replicate ARP_CACHE_SIZE (Arp 0 (zeros 6) false))
    (replicate NET_MAX_SOCKETS (Rx (zeros 256) 0 0 0 false)) (zeros 600) [].

(** * Fields *)

Definition htons (h : Z) : Z := u16 ((h .>> 8) .| Z.shiftl h 8).
Definition htonl (h : Z) : Z :=
  ((h .>> 24) .& 0xFF) .| ((h .>> 8) .& 0xFF00) .| (Z.shiftl h 8 .& 0xFF0000) .| (Z.shiftl h 24 .& 0xFF000000).

Definition le16 (x : Z) : list Z := [u8 x; u8 (x .>> 8)].
Definition le32 (x : Z) : list Z := [u8 x; u8 (x .>> 8); u8 (x .>> 16); u8 (x .>> 24)].

Definition rd16 (b : list Z) (i : Z) : outcome Z := x ← aref b i; y ← aref b (i + 1); Ok (x + 2 ^ 8 * y).
Definition rd32 (b : list Z) (i : Z) : outcome Z :=
  x ← aref b i; y ← aref b (i + 1); z ← aref b (i + 2); w ← aref b (i + 3); Ok (x + 2 ^ 8 * y + 2 ^ 16 * z + 2 ^ 24 * w).

(** the loop over 16-bit words, and the odd byte at the end *)
Fixpoint word_sum (b : list Z) (sum : Z) : Z :=
  match b with
  | x :: y :: b => word_sum b (sum +w (x + 2 ^ 8 * y))
  | [x] => sum +w x
  | [] => sum
  end.

(** [while (sum >> 16) sum = (sum & 0xFFFF) + (sum >> 16);] *)
Fixpoint fold_carries (fuel : nat) (sum : Z) : option Z :=
  match fuel with
  | O => None
  | S n => if sum .>> 16 =? 0 then Some sum else fold_carries n ((sum .& 0xFFFF) +w (sum .>> 16))
  end.

(** three rounds are enough for a 32-bit sum *)
Definition ip_checksum (b : list Z) : Z := u16 (Z.lnot (default 0 (fold_carries 4 (word_sum b 0)))).

(** * ARP *)

(** the cache with the entry stored in the first place that is unused or has the address *)
Fixpoint arp_add_loop (ip : Z) (mac : list Z) (l : list arp_entry) : option (list arp_entry) :=
  match l with
  | [] => None
  | e :: l => if negb (arp_valid e) || (arp_ip e =? ip) then Some (Arp ip mac true :: l)
              else l' ← arp_add_loop ip mac l; Some (e :: l')
  end.

Definition arp_cache_add (ip : Z) (mac : list Z) (l : list arp_entry) : list arp_entry :=
  match arp_add_loop ip mac l with
  | Some l => l
  | None => match l with [] => [] | e :: l => Arp ip mac (arp_valid e) :: l end
  end.

Fixpoint arp_cache_lookup (ip : Z) (l : list arp_entry) : option (list Z) :=
  match l with
  | [] => None
  | e :: l => if arp_valid e && (arp_ip e =? ip) then Some (arp_mac e) else arp_cache_lookup ip l
  end.

Definition eth_send (frame : list Z) (n : net) : net := set_wire (wire n ++ [frame]) n.

(** an Ethernet frame with an ARP packet *)
Definition arp_frame (dst src : list Z) (oper : Z) (sha : list Z) (spa : Z) (tha : list Z) (tpa : Z) : list Z :=
  dst ++ src ++ le16 (htons ETH_TYPE_ARP) ++
  le16 (htons 1) ++ le16 (htons 0x0800) ++ [6; 4] ++ le16 (htons oper) ++ sha ++ le32 spa ++ tha ++ le32 tpa.

Definition arp_send_request (target_ip : Z) (n : net) : net :=
  eth_send (arp_frame (replicate 6 0xFF) (net_mac n) 1 (net_mac n) (htonl (net_ip n)) (zeros 6) (htonl target_ip)) n.

Definition ARP_FRAME_LEN : Z := 14 + 28.

Definition arp_handle (len : Z) (n : net) : outcome net :=
  if len <? ARP_FRAME_LEN then Ok n
  else
    let f := pkt_buf n in
    spa ← rd32 f 28;
    sha ← slice f 22 6;
    let n := set_arp (arp_cache_add (htonl spa) sha (arp_cache n)) n in
    oper ← rd16 f 20;
    tpa ← rd32 f 38;
    if (htons oper =? 1) && (htonl tpa =? net_ip n)
    then Ok (eth_send (arp_frame sha (net_mac n) 2 (net_mac n) (htonl (net_ip n)) sha spa) n)
    else Ok n.

(** * Sending *)

(** the address of the next hop; when it is not known, a request is sent *)
Definition resolve_mac (dst_ip : Z) (n : net) : option (list Z) * net :=
  let target := if dst_ip .& net_netmask n =? net_ip n .& net_netmask n then dst_ip else net_gateway n in
  match arp_cache_lookup target (arp_cache n) with
  | Some mac => (Some mac, n)
  | None => (None, arp_send_request target n)
  end.

Definition ip_header (total_len checksum src dst : Z) : list Z :=
  [0x45; 0] ++ le16 (htons total_len) ++ le16 0 ++ le16 0 ++ [64; IP_PROTO_UDP] ++ le16 checksum ++ le32 (htonl src) ++ le32 (htonl dst).

Definition udp_frame (dst_mac src_mac : list Z) (src_ip dst_ip src_port dst_port : Z) (data : list Z) : list Z :=
  let len := Z.of_nat (length data) in
  let ck := ip_checksum (ip_header (20 + 8 + len) 0 src_ip dst_ip) in
  dst_mac ++ src_mac ++ le16 (htons ETH_TYPE_IP) ++ ip_header (20 + 8 + len) ck src_ip dst_ip ++
  le16 (htons src_port) ++ le16 (htons dst_port) ++ le16 (htons (8 + len)) ++ le16 0 ++ data.

(** [rc] is what the driver answers *)
Definition udp_send (sock dst_ip dst_port : Z) (data : list Z) (rc : Z) (n : net) : Z * net :=
  if (sock <? 0) || (Z.of_nat NET_MAX_SOCKETS <=? sock) then (-1, n)
  else
    let so := default (Sock 0 false) (sockets n !! Z.to_nat sock) in
    if negb (bound so) then (-1, n)
    else
      let data := take 512 data in
      match resolve_mac dst_ip n with
      | (None, n) => (-1, n)
      | (Some mac, n) => (rc, eth_send (udp_frame mac (net_mac n) (net_ip n) dst_ip (local_port so) dst_port data) n)
      end.

(** * Receiving *)

(** a socket that waits for port [port], from socket [i] on *)
Fixpoint find_socket (port : Z) (ss : list udp_socket) (rs : list rx_slot) (i : nat) : option nat :=
  match ss, rs with
  | so :: ss, r :: rs => if bound so && (local_port so =? port) && negb (rx_ready r) then Some i else find_socket port ss rs (S i)
  | _, _ => None
  end.

Definition udp_handle (len : Z) (n : net) : outcome net :=
  if len <? 14 + 20 + 8 then Ok n
  else
    let f := pkt_buf n in
    proto ← aref f 23;
    if negb (proto =? IP_PROTO_UDP) then Ok n
    else
      dst ← rd32 f 30;
      if negb (htonl dst =? net_ip n) then Ok n
      else
        dport ← rd16 f 36;
        ulen ← rd16 f 38;
        let data_len := u16 (htons ulen - 8) in
        match find_socket (htons dport) (sockets n) (rx_buf n) 0 with
        | None => Ok n
        | Some i =>
            let copy := if 256 <? data_len then 256 else data_len in
            payload ← slice f 42 copy;
            src ← rd32 f 26;
            sport ← rd16 f 34;
            let old := default (Rx (zeros 256) 0 0 0 false) (rx_buf n !! i) in
            Ok (set_rx (<[i := Rx (payload ++ drop (Z.to_nat copy) (rx_data old)) copy (htonl src) (htons sport) true]> (rx_buf n)) n)
        end.

(** * The interface *)

Definition net_init (ip netmask gateway : Z) (mac : list Z) (n : net) : net :=
  Net ip netmask gateway mac (sockets n) (arp_cache n) (rx_buf n) (pkt_buf n) (wire n).

Fixpoint find_unbound (ss : list udp_socket) (i : nat) : option nat :=
  match ss with [] => None | so :: ss => if bound so then find_unbound ss (S i) else Some i end.

Definition udp_socket_open (port : Z) (n : net) : Z * net :=
  match find_unbound (sockets n) 0 with
  | None => (-1, n)
  | Some i =>
      let r := default (Rx (zeros 256) 0 0 0 false) (rx_buf n !! i) in
      (Z.of_nat i, set_rx (<[i := Rx (rx_data r) (rx_len r) (rx_src_ip r) (rx_src_port r) false]> (rx_buf n))
                     (set_sockets (<[i := Sock port true]> (sockets n)) n))
  end.

(** the bytes received with their origin, [None] for the results -1 and 0 *)
Definition udp_recv (sock buf_size : Z) (n : net) : option (list Z * Z * Z) * net :=
  if (sock <? 0) || (Z.of_nat NET_MAX_SOCKETS <=? sock) then (None, n)
  else
    let i := Z.to_nat sock in
    let r := default (Rx (zeros 256) 0 0 0 false) (rx_buf n !! i) in
    if negb (rx_ready r) then (None, n)
    else
      let copy := if rx_len r <? buf_size then rx_len r else buf_size in
      (Some (take (Z.to_nat copy) (rx_data r), rx_src_ip r, rx_src_port r),
       set_rx (<[i := Rx (rx_data r) (rx_len r) (rx_src_ip r) (rx_src_port r) false]> (rx_buf n)) n).

(** [frame] is what [eth_recv] stores; nothing was received when it is empty *)
Definition net_poll (frame : list Z) (n : net) : outcome net :=
  let n := set_pkt (frame ++ drop (length frame) (pkt_buf n)) n in
  let len := Z.of_nat (length frame) in
  if len <? 14 then Ok n
  else
    type ← rd16 (pkt_buf n) 12;
    if htons type =? ETH_TYPE_ARP then arp_handle len n
    else if htons type =? ETH_TYPE_IP then udp_handle len n
    else Ok n.

(** * Byte order *)

Lemma land_shifted x mask k : 0 <= k -> x .& Z.shiftl mask k = Z.shiftl ((x .>> k) .& mask) k.
Proof.
  intros Hk. apply Z.bits_inj'. intros i Hi. rewrite Z.land_spec, !Z.shiftl_spec by lia. destruct (decide (k <= i)).
  - rewrite Z.land_spec, Z.shiftr_spec by lia. by replace (i - k + k) with i by lia.
  - rewrite !(Z.testbit_neg_r _ (i - k)) by lia. apply andb_false_r.
Qed.

Lemma land_ff x : x .& 0xFF = x mod 2 ^ 8.
Proof. change 0xFF with (2 ^ 8 - 1). apply land_ones_mod. lia. Qed.

Lemma htons_eq h : 0 <= h < 2 ^ 16 -> htons h = h / 2 ^ 8 + h mod 2 ^ 8 * 2 ^ 8.
Proof.
  intros Hh. unfold htons. rewrite Z.shiftr_div_pow2 by lia. rewrite lor_shiftl by (Z.div_mod_to_equations; lia).
  unfold u16. Z.div_mod_to_equations. lia.
Qed.

Lemma htons_range h : 0 <= htons h < 2 ^ 16.
Proof. apply Z.mod_pos_bound. lia. Qed.

Lemma htons_invol h : 0 <= h < 2 ^ 16 -> htons (htons h) = h.
Proof. intros Hh. rewrite (htons_eq (htons h)) by apply htons_range. rewrite htons_eq by done. Z.div_mod_to_equations. lia. Qed.

(** the four bytes in the other order *)
Lemma htonl_eq h : 0 <= h < 2 ^ 32 ->
  htonl h = h / 2 ^ 24 + (h / 2 ^ 16 mod 2 ^ 8) * 2 ^ 8 + (h / 2 ^ 8 mod 2 ^ 8) * 2 ^ 16 + (h mod 2 ^ 8) * 2 ^ 24.
Proof.
  intros Hh. unfold htonl. change 0xFF00 with (Z.shiftl 0xFF 8). change 0xFF0000 with (Z.shiftl 0xFF 16). change 0xFF000000 with (Z.shiftl 0xFF 24).
  rewrite !land_shifted, !land_ff by lia. rewrite Z.shiftr_shiftr by lia. rewrite (Z.shiftr_shiftl_r h 8 16), (Z.shiftr_shiftl_r h 24 24) by lia.
  rewrite !Z.shiftr_div_pow2 by lia. change (8 + 8) with 16. change (16 - 8) with 8. change (24 - 24) with 0. rewrite Z.pow_0_r, Z.div_1_r.
  rewrite (Z.mod_small (h / 2 ^ 24)) by (Z.div_mod_to_equations; lia).
  assert (0 <= h / 2 ^ 24 < 2 ^ 8) by (Z.div_mod_to_equations; lia).
  pose proof (Z.mod_pos_bound (h / 2 ^ 16) (2 ^ 8)). pose proof (Z.mod_pos_bound (h / 2 ^ 8) (2 ^ 8)).
  rewrite (lor_shiftl (h / 2 ^ 24)) by lia. rewrite (lor_shiftl (_ + _) _ 16) by lia. rewrite (lor_shiftl (_ + _) _ 24) by lia. lia.
Qed.

Lemma htonl_range h : 0 <= h < 2 ^ 32 -> 0 <= htonl h < 2 ^ 32.
Proof.
  intros Hh. rewrite htonl_eq by done. pose proof (Z.mod_pos_bound (h / 2 ^ 16) (2 ^ 8)). pose proof (Z.mod_pos_bound (h / 2 ^ 8) (2 ^ 8)).
  pose proof (Z.mod_pos_bound h (2 ^ 8)). assert (0 <= h / 2 ^ 24 < 2 ^ 8) by (Z.div_mod_to_equations; lia). lia.
Qed.

(** a 32-bit number by its bytes *)
Lemma bytes_of h : 0 <= h < 2 ^ 32 -> exists a b c d, h = a + b * 2 ^ 8 + c * 2 ^ 16 + d * 2 ^ 24 /\
  0 <= a < 256 /\ 0 <= b < 256 /\ 0 <= c < 256 /\ 0 <= d < 256.
Proof.
  intros Hh. exists (h mod 256), (h / 256 mod 256), (h / 256 / 256 mod 256), (h / 256 / 256 / 256).
  pose proof (Z.div_mod h 256). pose proof (Z.mod_pos_bound h 256). set (q := h / 256) in *. clearbody q.
  pose proof (Z.div_mod q 256). pose proof (Z.mod_pos_bound q 256). set (r := q / 256) in *. clearbody r.
  pose proof (Z.div_mod r 256). pose proof (Z.mod_pos_bound r 256). lia.
Qed.

Lemma htonl_bytes a b c d : 0 <= a < 256 -> 0 <= b < 256 -> 0 <= c < 256 -> 0 <= d < 256 ->
  htonl (a + b * 2 ^ 8 + c * 2 ^ 16 + d * 2 ^ 24) = d + c * 2 ^ 8 + b * 2 ^ 16 + a * 2 ^ 24.
Proof.
  intros Ha Hb Hc Hd. rewrite htonl_eq by lia. set (h := a + _ + _ + _).
  assert (h / 2 ^ 24 = d) as -> by (symmetry; apply (Z.div_unique_pos _ _ _ (a + b * 2 ^ 8 + c * 2 ^ 16)); unfold h; lia).
  assert (h / 2 ^ 16 = d * 2 ^ 8 + c) as -> by (symmetry; apply (Z.div_unique_pos _ _ _ (a + b * 2 ^ 8)); unfold h; lia).
  assert (h / 2 ^ 8 = (d * 2 ^ 8 + c) * 2 ^ 8 + b) as -> by (symmetry; apply (Z.div_unique_pos _ _ _ a); unfold h; lia).
  assert (h mod 2 ^ 8 = a) as -> by (symmetry; apply (Z.mod_unique_pos _ _ ((d * 2 ^ 8 + c) * 2 ^ 8 + b)); unfold h; lia).
  rewrite !(Z.add_comm (_ * 2 ^ 8)), !Z.mod_add, !(Z.mod_small _ (2 ^ 8)) by lia. done.
Qed.

Lemma htonl_invol h : 0 <= h < 2 ^ 32 -> htonl (htonl h) = h.
Proof. intros (a & b & c & d & -> & Ha & Hb & Hc & Hd)%bytes_of. by rewrite !htonl_bytes. Qed.

Lemma le16_value x : 0 <= x < 2 ^ 16 -> u8 x + 2 ^ 8 * u8 (x .>> 8) = x.
Proof. intros Hx. unfold u8. rewrite Z.shiftr_div_pow2 by lia. Z.div_mod_to_equations. lia. Qed.

Lemma le32_value x : 0 <= x < 2 ^ 32 -> u8 x + 2 ^ 8 * u8 (x .>> 8) + 2 ^ 16 * u8 (x .>> 16) + 2 ^ 24 * u8 (x .>> 24) = x.
Proof. intros Hx. unfold u8. rewrite !Z.shiftr_div_pow2 by lia. Z.div_mod_to_equations. lia. Qed.

(** * The checksum *)

Lemma fold_carries_small n sum : 0 <= sum < 2 ^ 16 -> fold_carries (S n) sum = Some sum.
Proof. intros Hs. cbn. rewrite Z.shiftr_div_pow2, Z.div_small by lia. done. Qed.

Lemma fold_step n sum : 2 ^ 16 <= sum < 2 ^ 32 ->
  fold_carries (S n) sum = fold_carries n (sum mod 2 ^ 16 + sum / 2 ^ 16).
Proof.
  intros Hs. cbn. rewrite Z.shiftr_div_pow2 by lia. change 0xFFFF with (2 ^ 16 - 1). rewrite land_ones_mod by lia.
  assert (1 <= sum / 2 ^ 16 < 2 ^ 16) by (Z.div_mod_to_equations; lia). pose proof (Z.mod_pos_bound sum (2 ^ 16)).
  rewrite (proj2 (Z.eqb_neq _ 0)) by lia. by rewrite u32_small by lia.
Qed.

(** The fold is the sum modulo [2^16 - 1], with 0 for 0 only. *)
Lemma fold_carries_spec sum : 0 <= sum < 2 ^ 32 -> exists r, fold_carries 4 sum = Some r /\ 0 <= r < 2 ^ 16 /\
  (exists k, sum = r + k * 65535) /\ (r = 0 -> sum = 0).
Proof.
  intros Hs. destruct (decide (sum < 2 ^ 16)); [exists sum; rewrite fold_carries_small by lia; repeat split; [lia..|exists 0; lia|lia]|].
  rewrite fold_step by lia. pose proof (Z.div_mod sum (2 ^ 16)). pose proof (Z.mod_pos_bound sum (2 ^ 16)).
  assert (1 <= sum / 2 ^ 16 < 2 ^ 16) by (Z.div_mod_to_equations; lia). set (s1 := sum mod 2 ^ 16 + sum / 2 ^ 16) in *.
  destruct (decide (s1 < 2 ^ 16)); [exists s1; rewrite fold_carries_small by lia; repeat split; [lia..|exists (sum / 2 ^ 16); lia|lia]|].
  rewrite fold_step by lia. pose proof (Z.div_mod s1 (2 ^ 16)). pose proof (Z.mod_pos_bound s1 (2 ^ 16)).
  assert (s1 / 2 ^ 16 = 1) by (symmetry; apply (Z.div_unique_pos _ _ _ (s1 - 2 ^ 16)); lia).
  exists (s1 mod 2 ^ 16 + s1 / 2 ^ 16). rewrite fold_carries_small by lia. repeat split; [lia..|exists (sum / 2 ^ 16 + 1); lia|lia].
Qed.

Lemma u16_lnot r : 0 <= r < 2 ^ 16 -> u16 (Z.lnot r) = 65535 - r.
Proof. intros Hr. unfold u16. pose proof (Z.add_lnot_diag r). symmetry. apply (Z.mod_unique_pos _ _ (-1)); lia. Qed.

(** the sum of a header with the checksum field zero, and with it set *)
Lemma header_sum tl src dst ck : 0 <= ck < 2 ^ 16 ->
  word_sum (ip_header tl ck src dst) 0 = word_sum (ip_header tl 0 src dst) 0 + ck /\ 0 < word_sum (ip_header tl 0 src dst) 0 < 10 * 2 ^ 16.
Proof.
  intros Hck. unfold ip_header, le16, le32. cbn [app word_sum].
  set (b1 := u8 (htons tl)). set (b2 := u8 (htons tl .>> 8)).
  set (b3 := u8 (htonl src)). set (b4 := u8 (htonl src .>> 8)). set (b5 := u8 (htonl src .>> 16)). set (b6 := u8 (htonl src .>> 24)).
  set (b7 := u8 (htonl dst)). set (b8 := u8 (htonl dst .>> 8)). set (b9 := u8 (htonl dst .>> 16)). set (b10 := u8 (htonl dst .>> 24)).
  pose proof (le16_value ck Hck) as Ev. pose proof (u8_range ck). pose proof (u8_range (ck .>> 8)).
  assert (0 <= b1 < 256) by apply u8_range. assert (0 <= b2 < 256) by apply u8_range. assert (0 <= b3 < 256) by apply u8_range.
  assert (0 <= b4 < 256) by apply u8_range. assert (0 <= b5 < 256) by apply u8_range. assert (0 <= b6 < 256) by apply u8_range.
  assert (0 <= b7 < 256) by apply u8_range. assert (0 <= b8 < 256) by apply u8_range. assert (0 <= b9 < 256) by apply u8_range.
  assert (0 <= b10 < 256) by apply u8_range. clearbody b1 b2 b3 b4 b5 b6 b7 b8 b9 b10.
  change (u8 0) with 0. change (u8 (0 .>> 8)) with 0. unfold IP_PROTO_UDP.
  set (c1 := u8 ck) in *. set (c2 := u8 (ck .>> 8)) in *. clearbody c1 c2. u32_simpl. lia.
Qed.

(** The header sent passes the check of RFC 1071. *)
Lemma checksum_valid tl src dst : ip_checksum (ip_header tl (ip_checksum (ip_header tl 0 src dst)) src dst) = 0.
Proof.
  assert (0 <= ip_checksum (ip_header tl 0 src dst) < 2 ^ 16) as Hck by (apply Z.mod_pos_bound; lia).
  destruct (header_sum tl src dst _ Hck) as [Hs Hb]. revert Hck Hs. set (ck := ip_checksum (ip_header tl 0 src dst)). intros Hck Hs.
  destruct (fold_carries_spec (word_sum (ip_header tl 0 src dst) 0)) as (r & Hr & Hrr & (k & Hk) & Hr0); [lia|].
  assert (ck = 65535 - r) as Eck by (unfold ck, ip_checksum; rewrite Hr; by apply u16_lnot).
  unfold ip_checksum. rewrite Hs. destruct (fold_carries_spec (word_sum (ip_header tl 0 src dst) 0 + ck)) as (q & Hq & Hqr & (k' & Hk') & Hq0); [lia|].
  rewrite Hq. change (default 0 (Some q)) with q. rewrite u16_lnot by done. destruct (decide (q = 0)) as [E|E]; [specialize (Hq0 E); lia|]. assert (q = 65535 * (k + 1 - k')) as Eq by (rewrite Hk, Eck in Hk'; clear -Hk'; lia). clear -Eq E Hqr. assert (k + 1 - k' = 1) by lia. lia.
Qed.

(** * The wire *)

(** What the RFCs say of the bytes on the wire, apart from the code: numbers are
    big-endian (RFC 1700), ARP packets have the fields of RFC 826, IPv4 headers
    those of RFC 791 and UDP headers those of RFC 768. *)
Definition be16 (x : Z) : list Z := [x / 2 ^ 8; x mod 2 ^ 8].
Definition be32 (x : Z) : list Z := [x / 2 ^ 24; x / 2 ^ 16 mod 2 ^ 8; x / 2 ^ 8 mod 2 ^ 8; x mod 2 ^ 8].

Definition wire_arp (dst src : list Z) (op : Z) (sha : list Z) (spa : Z) (tha : list Z) (tpa : Z) : list Z :=
  dst ++ src ++ [0x08; 0x06] ++ [0; 1; 0x08; 0x00; 6; 4] ++ be16 op ++ sha ++ be32 spa ++ tha ++ be32 tpa.

Definition wire_ip (total ck src dst : Z) : list Z :=
  [0x45; 0] ++ be16 total ++ [0; 0; 0; 0] ++ [64; 17] ++ be16 ck ++ be32 src ++ be32 dst.

Definition wire_udp (dmac smac : list Z) (ck src dst sport dport : Z) (data : list Z) : list Z :=
  dmac ++ smac ++ [0x08; 0x00] ++ wire_ip (28 + Z.of_nat (length data)) ck src dst ++
  be16 sport ++ be16 dport ++ be16 (8 + Z.of_nat (length data)) ++ [0; 0] ++ data.

(** The sum of the 16-bit numbers, an odd byte at the end padded with zero. *)
Fixpoint be_sum (b : list Z) : Z :=
  match b with x :: y :: b => 2 ^ 8 * x + y + be_sum b | [x] => 2 ^ 8 * x | [] => 0 end.

(** A header is valid when its ones' complement sum is 0xFFFF (RFC 791, RFC
    1071), that is, when the sum is a positive multiple of 65535. *)
Definition checksum_ok (b : list Z) : Prop := 0 < be_sum b /\ be_sum b mod 65535 = 0.

Lemma le16_htons x : 0 <= x < 2 ^ 16 -> le16 (htons x) = be16 x.
Proof.
  intros Hx. unfold le16, be16. rewrite htons_eq by done. unfold u8. rewrite Z.shiftr_div_pow2 by lia.
  change (2 ^ 8) with 256. f_equal; [|f_equal]; Z.div_mod_to_equations; lia.
Qed.

Lemma be32_bytes a b c d : 0 <= a < 256 -> 0 <= b < 256 -> 0 <= c < 256 -> 0 <= d < 256 ->
  be32 (a + b * 2 ^ 8 + c * 2 ^ 16 + d * 2 ^ 24) = [d; c; b; a].
Proof.
  intros Ha Hb Hc Hd. unfold be32. set (h := a + _ + _ + _).
  assert (h / 2 ^ 24 = d) as -> by (symmetry; apply (Z.div_unique_pos _ _ _ (a + b * 2 ^ 8 + c * 2 ^ 16)); unfold h; lia).
  assert (h / 2 ^ 16 = d * 2 ^ 8 + c) as -> by (symmetry; apply (Z.div_unique_pos _ _ _ (a + b * 2 ^ 8)); unfold h; lia).
  assert (h / 2 ^ 8 = (d * 2 ^ 8 + c) * 2 ^ 8 + b) as -> by (symmetry; apply (Z.div_unique_pos _ _ _ a); unfold h; lia).
  assert (h mod 2 ^ 8 = a) as -> by (symmetry; apply (Z.mod_unique_pos _ _ ((d * 2 ^ 8 + c) * 2 ^ 8 + b)); unfold h; lia).
  rewrite !(Z.add_comm (_ * 2 ^ 8)), !Z.mod_add, !(Z.mod_small _ (2 ^ 8)) by lia. done.
Qed.

Lemma le32_bytes a b c d : 0 <= a < 256 -> 0 <= b < 256 -> 0 <= c < 256 -> 0 <= d < 256 ->
  le32 (a + b * 2 ^ 8 + c * 2 ^ 16 + d * 2 ^ 24) = [a; b; c; d].
Proof.
  intros Ha Hb Hc Hd. pose proof (be32_bytes a b c d Ha Hb Hc Hd) as E. unfold be32 in E. unfold le32, u8.
  rewrite !Z.shiftr_div_pow2 by lia. injection E as E1 E2 E3 E4. change 256 with (2 ^ 8).
  rewrite E2, E3, E4, E1, Z.mod_small by lia. done.
Qed.

Lemma le32_htonl x : 0 <= x < 2 ^ 32 -> le32 (htonl x) = be32 x.
Proof.
  intros (a & b & c & d & -> & Ha & Hb & Hc & Hd)%bytes_of. by rewrite htonl_bytes, be32_bytes, le32_bytes.
Qed.

(** The code sums the numbers with their bytes swapped, which is 256 times the
    sum modulo 65535. *)
Lemma word_sum_be n b sum : (length b <= n)%nat -> Forall (fun x => 0 <= x < 256) b -> 0 <= sum -> sum + 65536 * Z.of_nat (length b) < 2 ^ 32 ->
  0 <= word_sum b sum < 2 ^ 32 /\ exists k, word_sum b sum = sum + 256 * be_sum b + k * 65535.
Proof.
  revert b sum. induction n as [|n IH]; intros b sum Hn Hb Hs Hlt.
  { destruct b; [|cbn in Hn; lia]. cbn in *. split; [lia|]. exists 0. lia. }
  destruct b as [|x [|y b]]; cbn [word_sum be_sum length] in *.
  - split; [lia|]. exists 0. lia.
  - apply Forall_cons in Hb as [Hx _]. rewrite u32_small by lia. split; [lia|]. exists (- x). lia.
  - apply Forall_cons in Hb as [Hx [Hy Hb]%Forall_cons]. rewrite (u32_small (sum + _)) by lia.
    destruct (IH b (sum + (x + 2 ^ 8 * y))) as [Hr (k & Hk)]; [lia|done|lia|lia|]. split; [done|]. exists (k - x). lia.
Qed.

Lemma ip_checksum_ok b : Forall (fun x => 0 <= x < 256) b -> (length b <= 100)%nat -> 0 < be_sum b -> ip_checksum b = 0 -> checksum_ok b.
Proof.
  intros Hb Hl Hpos Hck. split; [done|]. destruct (word_sum_be (length b) b 0) as [Hr (k & Hk)]; [done|done|lia|lia|].
  unfold ip_checksum in Hck. destruct (fold_carries_spec (word_sum b 0) Hr) as (r & Hf & Hrr & (j & Hj) & _). rewrite Hf in Hck.
  change (default 0 (Some r)) with r in Hck. rewrite u16_lnot in Hck by done.
  apply Z.mod_divide; [lia|]. exists (256 * (1 + j - k) - be_sum b). lia.
Qed.

(** * What a frame does to its receiver *)

Lemma slice_in b p n : 0 <= p -> p + n <= Z.of_nat (length b) -> slice b p n = Ok (take (Z.to_nat n) (drop (Z.to_nat p) b)).
Proof. intros Hp Hn. unfold slice. by rewrite (proj2 (Z.ltb_ge p 0)), (proj2 (Z.ltb_ge _ (p + n))) by lia. Qed.

Definition is_mac (l : list Z) : Prop := length l = 6%nat.
Lemma mac_bytes l : is_mac l -> exists a b c d e f, l = [a; b; c; d; e; f].
Proof. unfold is_mac. intros H. do 6 (destruct l as [|? l]; [done|]). destruct l; [|done]. by repeat eexists. Qed.

Definition is_ip (a : Z) : Prop := 0 <= a < 2 ^ 32.
Definition is_u16 (a : Z) : Prop := 0 <= a < 2 ^ 16.

(** the sizes of the arrays *)
Record net_ok (n : net) : Prop := {
  ok_mac : is_mac (net_mac n);
  ok_ip : is_ip (net_ip n) /\ is_ip (net_gateway n);
  ok_sock : length (sockets n) = NET_MAX_SOCKETS;
  ok_arp : length (arp_cache n) = ARP_CACHE_SIZE /\ Forall (fun e => is_mac (arp_mac e)) (arp_cache n);
  ok_rx : length (rx_buf n) = NET_MAX_SOCKETS /\ Forall (fun r => length (rx_data r) = 256%nat) (rx_buf n);
  ok_pkt : length (pkt_buf n) = 600%nat /\ Forall (fun b => 0 <= b < 256) (pkt_buf n);
}.

Section frames.
Context (dst src sha tha : list Z) (oper spa tpa : Z) (rest : list Z).
Context (Hdst : is_mac dst) (Hsrc : is_mac src) (Hsha : is_mac sha) (Htha : is_mac tha).
Context (Hoper : is_u16 oper) (Hspa : is_ip spa) (Htpa : is_ip tpa).

Lemma length_arp_frame : length (arp_frame dst src oper sha spa tha tpa) = 42%nat.
Proof. unfold arp_frame, is_mac in *. rewrite !length_app, Hdst, Hsrc, Hsha, Htha. done. Qed.

(** the fields read back *)
Lemma arp_frame_fields : let f := arp_frame dst src oper sha spa tha tpa ++ rest in
  rd16 f 12 = Ok (htons ETH_TYPE_ARP) /\ rd16 f 20 = Ok (htons oper) /\ rd32 f 28 = Ok spa /\ rd32 f 38 = Ok tpa /\ slice f 22 6 = Ok sha.
Proof.
  cbn zeta. pose proof (htons_range oper) as Ho. unfold arp_frame, le16, le32.
  destruct (mac_bytes dst Hdst) as (? & ? & ? & ? & ? & ? & ->). destruct (mac_bytes src Hsrc) as (? & ? & ? & ? & ? & ? & ->).
  destruct (mac_bytes sha Hsha) as (? & ? & ? & ? & ? & ? & ->). destruct (mac_bytes tha Htha) as (? & ? & ? & ? & ? & ? & ->). cbn [app].
  split; [reflexivity|]. split; [exact (f_equal Ok (le16_value _ Ho))|]. split; [exact (f_equal Ok (le32_value _ Hspa))|].
  split; [exact (f_equal Ok (le32_value _ Htpa))|].
  rewrite slice_in by (cbn [length]; lia). reflexivity.
Qed.
End frames.

Definition received (f : list Z) (n : net) : net := set_pkt (f ++ drop (length f) (pkt_buf n)) n.

Lemma net_poll_arp dst src oper sha spa tha tpa n : is_mac dst -> is_mac src -> is_mac sha -> is_mac tha -> is_u16 oper -> is_ip spa -> is_ip tpa ->
  let f := arp_frame dst src oper sha spa tha tpa in
  let n1 := set_arp (arp_cache_add (htonl spa) sha (arp_cache n)) (received f n) in
  net_poll f n = Ok (if (oper =? 1) && (htonl tpa =? net_ip n)
                     then eth_send (arp_frame sha (net_mac n) 2 (net_mac n) (htonl (net_ip n)) sha spa) n1 else n1).
Proof.
  intros H1 H2 H3 H4 H5 H6 H7. cbn zeta. set (f := arp_frame dst src oper sha spa tha tpa).
  assert (length f = 42%nat) as Hlen by (by apply length_arp_frame). unfold net_poll, received. rewrite Hlen.
  destruct (arp_frame_fields dst src sha tha oper spa tpa (drop 42 (pkt_buf n)) H1 H2 H3 H4 H6 H7) as (E1 & E2 & E3 & E4 & E5). fold f in E1, E2, E3, E4, E5.
  change (Z.of_nat 42 <? 14) with false. cbn iota. cbn [pkt_buf set_pkt]. rewrite E1. cbn [mbind outcome_bind].
  change (htons (htons ETH_TYPE_ARP) =? ETH_TYPE_ARP) with true. cbn iota. unfold arp_handle.
  change (Z.of_nat 42 <? ARP_FRAME_LEN) with false. cbn iota. cbn [pkt_buf set_pkt]. rewrite E3. cbn [mbind outcome_bind]. rewrite E5.
  cbn [mbind outcome_bind]. rewrite E2. cbn [mbind outcome_bind]. rewrite E4. cbn [mbind outcome_bind]. rewrite htons_invol by done.
  cbn [net_ip set_arp set_pkt]. by destruct (_ && _).
Qed.

(** An entry just learned is found. *)
Lemma arp_add_lookup ip mac l : l <> [] ->
  arp_cache_lookup ip (arp_cache_add ip mac l) = Some mac.
Proof.
  intros Hne. unfold arp_cache_add. destruct (arp_add_loop ip mac l) as [l'|] eqn:E.
  - clear Hne. revert l' E. induction l as [|e l IH]; intros l'; cbn [arp_add_loop]; [done|].
    destruct (negb (arp_valid e) || (arp_ip e =? ip)) eqn:Et; [intros [= <-]; cbn; by rewrite Z.eqb_refl|].
    intros (l2 & E2 & [= <-])%bind_Some. cbn. apply orb_false_iff in Et as [_ ->]. rewrite andb_false_r. by apply IH.
  - destruct l as [|e l]; [done|]. cbn [arp_add_loop] in E. cbn.
    destruct (negb (arp_valid e) || (arp_ip e =? ip)) eqn:Et; [done|]. apply orb_false_iff in Et as [Hv _]. apply negb_false_iff in Hv.
    by rewrite Hv, Z.eqb_refl.
Qed.

Section datagram.
Context (dmac smac : list Z) (src dst sport dport : Z) (data rest : list Z).
Context (Hdm : is_mac dmac) (Hsm : is_mac smac) (Hsrc : is_ip src) (Hdst : is_ip dst) (Hsp : is_u16 sport) (Hdp : is_u16 dport).
Context (Hlen : (length data <= 512)%nat).
Let f := udp_frame dmac smac src dst sport dport data.

Lemma length_udp_frame : length f = (42 + length data)%nat.
Proof. unfold f, udp_frame, is_mac in *. rewrite !length_app, Hdm, Hsm. cbn [length le16 le32 ip_header app]. lia. Qed.

Lemma udp_frame_fields :
  rd16 (f ++ rest) 12 = Ok (htons ETH_TYPE_IP) /\ aref (f ++ rest) 23 = Ok IP_PROTO_UDP /\ rd32 (f ++ rest) 26 = Ok (htonl src) /\
  rd32 (f ++ rest) 30 = Ok (htonl dst) /\ rd16 (f ++ rest) 34 = Ok (htons sport) /\ rd16 (f ++ rest) 36 = Ok (htons dport) /\
  rd16 (f ++ rest) 38 = Ok (htons (8 + Z.of_nat (length data))) /\
  forall k, (k <= length data)%nat -> slice (f ++ rest) 42 (Z.of_nat k) = Ok (take k data).
Proof.
  pose proof (htonl_range src Hsrc) as R1. pose proof (htonl_range dst Hdst) as R2. pose proof (htons_range sport) as R3. pose proof (htons_range dport) as R4.
  pose proof (htons_range (8 + Z.of_nat (length data))) as R5.
  assert (exists h, f = h ++ data /\ length h = 42%nat) as (h & Eh & Hh).
  { exists (take 42 f). assert (drop 42 f = data) as Ed.
    { unfold f, udp_frame. destruct (mac_bytes dmac Hdm) as (? & ? & ? & ? & ? & ? & ->). destruct (mac_bytes smac Hsm) as (? & ? & ? & ? & ? & ? & ->). reflexivity. }
    split; [trans (take 42 f ++ drop 42 f); [by rewrite take_drop|by rewrite Ed]|]. rewrite length_take, length_udp_frame. lia. }
  assert (forall k, (k <= length data)%nat -> slice (f ++ rest) 42 (Z.of_nat k) = Ok (take k data)) as Hs.
  { intros k Hk. rewrite slice_in by (rewrite ?length_app, ?length_udp_frame; lia). rewrite Eh, <- app_assoc. change (Z.to_nat 42) with 42%nat.
    rewrite <- Hh, drop_app_length, Nat2Z.id, take_app_le by lia. done. }
  clear Eh Hh. unfold f, udp_frame, ip_header, le16, le32 in *. set (ck := ip_checksum _) in *. clearbody ck.
  destruct (mac_bytes dmac Hdm) as (? & ? & ? & ? & ? & ? & ->). destruct (mac_bytes smac Hsm) as (? & ? & ? & ? & ? & ? & ->). cbn [app] in *.
  split; [reflexivity|]. split; [reflexivity|]. split; [exact (f_equal Ok (le32_value _ R1))|]. split; [exact (f_equal Ok (le32_value _ R2))|].
  split; [exact (f_equal Ok (le16_value _ R3))|]. split; [exact (f_equal Ok (le16_value _ R4))|]. split; [exact (f_equal Ok (le16_value _ R5))|exact Hs].
Qed.

End datagram.

(** The datagram is stored with the first socket that waits for it. *)
Lemma net_poll_udp dmac smac src dst sport dport data n :
  is_mac dmac -> is_mac smac -> is_ip src -> is_ip dst -> is_u16 sport -> is_u16 dport -> (length data <= 256)%nat -> dst = net_ip n ->
  let f := udp_frame dmac smac src dst sport dport data in
  net_poll f n = Ok (match find_socket dport (sockets n) (rx_buf n) 0 with
                     | None => received f n
                     | Some i => set_rx (<[i := Rx (data ++ drop (length data) (rx_data (default (Rx (zeros 256) 0 0 0 false) (rx_buf n !! i))))
                                                   (Z.of_nat (length data)) src sport true]> (rx_buf n)) (received f n)
                     end).
Proof.
  intros H1 H2 H3 H4 H5 H6 Hl Hd. cbn zeta. assert (length data <= 512)%nat as Hl512 by lia.
  pose proof (length_udp_frame dmac smac src dst sport dport data H1 H2) as HL.
  set (f := udp_frame dmac smac src dst sport dport data) in *. unfold net_poll. fold (received f n). set (n1 := received f n).
  assert (pkt_buf n1 = f ++ drop (length f) (pkt_buf n)) as Ep by done. assert (sockets n1 = sockets n) as Es by done.
  assert (rx_buf n1 = rx_buf n) as Er by done. assert (net_ip n1 = net_ip n) as Ei by done. clearbody n1.
  destruct (udp_frame_fields dmac smac src dst sport dport data (drop (length f) (pkt_buf n)) H1 H2 H3 H4 Hl512) as (E1 & E2 & E3 & E4 & E5 & E6 & E7 & E8).
  fold f in E1, E2, E3, E4, E5, E6, E7, E8. rewrite <- Ep in *.
  rewrite (proj2 (Z.ltb_ge _ 14)) by lia. rewrite E1. cbn [mbind outcome_bind].
  change (htons (htons ETH_TYPE_IP) =? ETH_TYPE_ARP) with false. change (htons (htons ETH_TYPE_IP) =? ETH_TYPE_IP) with true. cbn iota.
  unfold udp_handle. rewrite (proj2 (Z.ltb_ge _ (14 + 20 + 8))) by lia. rewrite E2. cbn [mbind outcome_bind]. change (negb (IP_PROTO_UDP =? IP_PROTO_UDP)) with false. cbn iota.
  rewrite E4. cbn [mbind outcome_bind]. rewrite htonl_invol, Ei, Hd, Z.eqb_refl by done. cbn [negb]. rewrite E6. cbn [mbind outcome_bind]. rewrite E7.
  cbn [mbind outcome_bind]. rewrite !htons_invol by (done || lia).
  assert (u16 (8 + Z.of_nat (length data) - 8) = Z.of_nat (length data)) as -> by (unfold u16; rewrite Z.mod_small; lia).
  rewrite Es, Er. destruct (find_socket dport (sockets n) (rx_buf n) 0) as [i|]; [|done].
  rewrite (proj2 (Z.ltb_ge 256 _)) by lia. rewrite E8 by lia. cbn [mbind outcome_bind]. rewrite E3. cbn [mbind outcome_bind]. rewrite E5. cbn [mbind outcome_bind].
  by rewrite htonl_invol, htons_invol, take_ge, Nat2Z.id by (done || lia).
Qed.

(** * Theorems *)

Lemma find_socket_spec port ss rs k i : find_socket port ss rs k = Some i ->
  (k <= i < k + length rs)%nat /\ (i < k + length ss)%nat.
Proof.
  revert rs k. induction ss as [|so ss IH]; intros rs k; [done|]. destruct rs as [|r rs]; [done|]. cbn.
  destruct (_ && _ && _); [intros [= <-]; lia|]. intros Hi%IH. lia.
Qed.

Lemma resolve_known dst mac n : dst .& net_netmask n = net_ip n .& net_netmask n -> arp_cache_lookup dst (arp_cache n) = Some mac ->
  resolve_mac dst n = (Some mac, n).
Proof. intros Hs Hl. unfold resolve_mac. rewrite Hs, Z.eqb_refl. by rewrite Hl. Qed.

Lemma udp_send_spec sock so dst port data rc n : 0 <= sock < 4 -> sockets n !! Z.to_nat sock = Some so -> bound so = true -> (length data <= 512)%nat ->
  udp_send sock dst port data rc n =
  match resolve_mac dst n with
  | (None, n) => (-1, n)
  | (Some mac, n) => (rc, eth_send (udp_frame mac (net_mac n) (net_ip n) dst (local_port so) port data) n)
  end.
Proof.
  intros Hs Hso Hb Hl. unfold udp_send. change (Z.of_nat NET_MAX_SOCKETS) with 4.
  rewrite (proj2 (Z.ltb_ge sock 0)), (proj2 (Z.leb_gt 4 sock)), Hso by lia. cbn. rewrite Hb. cbn. by rewrite take_ge.
Qed.

(** The frames of the code are those of the wire. *)
Lemma arp_frame_wire dst src op sha spa tha tpa : is_u16 op -> is_ip spa -> is_ip tpa ->
  arp_frame dst src op sha (htonl spa) tha (htonl tpa) = wire_arp dst src op sha spa tha tpa.
Proof. intros H1 H2 H3. unfold arp_frame, wire_arp. rewrite !(le32_htonl spa), !(le32_htonl tpa), !(le16_htons op) by done. done. Qed.

Lemma ip_header_wire total ck src dst : is_u16 total -> is_u16 ck -> is_ip src -> is_ip dst ->
  ip_header total (htons ck) src dst = wire_ip total ck src dst.
Proof.
  intros H1 H2 H3 H4. unfold ip_header, wire_ip. rewrite !(le32_htonl src), !(le32_htonl dst), !(le16_htons total), !(le16_htons ck) by done. done.
Qed.

Lemma be16_bytes x : 0 <= x < 2 ^ 16 -> Forall (fun b => 0 <= b < 256) (be16 x).
Proof. intros Hx. unfold be16. change (2 ^ 8) with 256. repeat (apply Forall_cons; split; [Z.div_mod_to_equations; lia|]). by apply Forall_nil. Qed.

Lemma be32_all_bytes x : 0 <= x < 2 ^ 32 -> Forall (fun b => 0 <= b < 256) (be32 x).
Proof. intros (a & b & c & d & -> & Ha & Hb & Hc & Hd)%bytes_of. rewrite be32_bytes by done. by repeat (apply Forall_cons; split; [lia|]). Qed.

Lemma wire_ip_bytes total ck src dst : is_u16 total -> is_u16 ck -> is_ip src -> is_ip dst ->
  Forall (fun b => 0 <= b < 256) (wire_ip total ck src dst).
Proof.
  intros H1 H2 H3 H4. unfold wire_ip. repeat (apply Forall_app; split); try (by apply be16_bytes); try (by apply be32_all_bytes);
    repeat (apply Forall_cons; split; [lia|]); by apply Forall_nil.
Qed.

Lemma be_sum_nonneg n b : (length b <= n)%nat -> Forall (fun x => 0 <= x < 256) b -> 0 <= be_sum b.
Proof.
  revert b. induction n as [|n IH]; intros [|x [|y b]] Hn Hb; cbn in *; try lia.
  - apply Forall_cons in Hb as [? _]. lia.
  - apply Forall_cons in Hb as [? [? Hb]%Forall_cons]. specialize (IH b ltac:(lia) Hb). lia.
Qed.

(** A datagram is sent with a header that is valid. *)
Lemma udp_frame_wire dmac smac src dst sport dport data : is_ip src -> is_ip dst -> is_u16 sport -> is_u16 dport -> (length data <= 512)%nat ->
  exists ck, is_u16 ck /\ udp_frame dmac smac src dst sport dport data = wire_udp dmac smac ck src dst sport dport data /\
    checksum_ok (wire_ip (28 + Z.of_nat (length data)) ck src dst).
Proof.
  intros H1 H2 H3 H4 Hl. set (total := 28 + Z.of_nat (length data)). assert (is_u16 total) as Ht by (unfold is_u16, total; lia).
  set (lck := ip_checksum (ip_header total 0 src dst)). assert (is_u16 lck) as Hlck by (apply Z.mod_pos_bound; lia).
  exists (htons lck). pose proof (htons_range lck) as Hck. split; [exact Hck|].
  pose proof (ip_header_wire total (htons lck) src dst Ht Hck H1 H2) as Hw. rewrite htons_invol in Hw by done. split.
  - unfold udp_frame, wire_udp. change (20 + 8 + Z.of_nat (length data)) with total. fold lck. rewrite Hw.
    rewrite !(le16_htons sport), !(le16_htons dport), !(le16_htons (8 + _)) by (done || lia). done.
  - pose proof (wire_ip_bytes total (htons lck) src dst Ht Hck H1 H2) as Hb. apply ip_checksum_ok; [done| | |].
    + unfold wire_ip, be16, be32. cbn. lia.
    + unfold wire_ip. cbn [app be_sum]. apply Forall_cons in Hb as [_ [_ Hb]%Forall_cons]. cbn [app] in Hb.
      pose proof (be_sum_nonneg _ _ (le_n _) Hb) as Hn. fold (be16 total). lia.
    + rewrite <- Hw. apply checksum_valid.
Qed.

(** [a] sends to [b]: what goes over the wire, from the first attempt until the
    data is handed to the receiver. *)
Record exchange (a b : net) (sock port i : Z) (data : list Z) (rc size : Z) (request reply dgram : list Z) (a1 a2 a3 b1 b2 : net) : Prop := {
  (** the first attempt fails and asks for the address, by broadcast *)
  ex_ask : udp_send sock (net_ip b) port data rc a = (-1, a1) /\ wire a1 = wire a ++ [request] /\
    request = wire_arp (replicate 6 0xFF) (net_mac a) 1 (net_mac a) (net_ip a) (replicate 6 0) (net_ip b);
  (** the receiver answers, the sender learns *)
  ex_reply : net_poll request b = Ok b1 /\ wire b1 = wire b ++ [reply] /\
    reply = wire_arp (net_mac a) (net_mac b) 2 (net_mac b) (net_ip b) (net_mac a) (net_ip a);
  ex_learn : net_poll reply a1 = Ok a2 /\ wire a2 = wire a1;
  (** the second attempt sends a datagram with a valid header *)
  ex_send : udp_send sock (net_ip b) port data rc a2 = (rc, a3) /\ wire a3 = wire a2 ++ [dgram] /\
    exists ck, dgram = wire_udp (net_mac b) (net_mac a) ck (net_ip a) (net_ip b)
                         (local_port (default (Sock 0 false) (sockets a !! Z.to_nat sock))) port data /\
      is_u16 ck /\ checksum_ok (wire_ip (28 + Z.of_nat (length data)) ck (net_ip a) (net_ip b));
  (** which is received whole, with its origin *)
  ex_recv : net_poll dgram b1 = Ok b2 /\ (udp_recv i size b2).1 =
    Some (data, net_ip a, local_port (default (Sock 0 false) (sockets a !! Z.to_nat sock)));
}.

(** C10. Over a subnet, a datagram of at most 256 bytes sent twice arrives: the
    first [udp_send] broadcasts an ARP request for the address of the
    destination, the destination answers, the second [udp_send] sends the
    datagram, and the socket there that waits for the port receives exactly the
    data, the sender's address and its port.  The three frames are, byte for
    byte, those of the RFCs, in network byte order, and the IP header has the
    ones' complement sum that RFC 1071 asks for. *)
Theorem udp_delivers a b sock so port i data rc size (Ha : net_ok a) (Hb : net_ok b) (Hsock : 0 <= sock < 4)
    (Hso : sockets a !! Z.to_nat sock = Some so) (Hbound : bound so = true) (Hlp : is_u16 (local_port so)) (Hport : is_u16 port)
    (Hsub : net_ip b .& net_netmask a = net_ip a .& net_netmask a) (Hnew : arp_cache_lookup (net_ip b) (arp_cache a) = None)
    (Hwait : find_socket port (sockets b) (rx_buf b) 0 = Some i) (Hlen : (length data <= 256)%nat) (Hsize : Z.of_nat (length data) <= size) :
  exists request reply dgram a1 a2 a3 b1 b2, exchange a b sock port (Z.of_nat i) data rc size request reply dgram a1 a2 a3 b1 b2.
Proof.
  destruct Ha as [A1 [A2 A2'] A3 [A4 A4'] A5 A6]. destruct Hb as [B1 [B2 B2'] B3 [B4 B4'] [B5 B5'] B6].
  assert (is_mac (replicate 6 255)) as M1 by done. assert (is_mac (zeros 6)) as M2 by done.
  pose proof (htonl_range _ A2) as RA. pose proof (htonl_range _ B2) as RB.
  set (request := arp_frame (replicate 6 255) (net_mac a) 1 (net_mac a) (htonl (net_ip a)) (zeros 6) (htonl (net_ip b))).
  set (reply := arp_frame (net_mac a) (net_mac b) 2 (net_mac b) (htonl (net_ip b)) (net_mac a) (htonl (net_ip a))).
  set (dgram := udp_frame (net_mac b) (net_mac a) (net_ip a) (net_ip b) (local_port so) port data).
  set (a1 := eth_send request a).
  set (a2 := set_arp (arp_cache_add (net_ip b) (net_mac b) (arp_cache a)) (received reply a1)).
  set (b1 := eth_send reply (set_arp (arp_cache_add (net_ip a) (net_mac a) (arp_cache b)) (received request b))).
  exists request, reply, dgram, a1, a2, (eth_send dgram a2), b1. eexists. split.
  - split; [|split; [done|by apply arp_frame_wire]]. rewrite (udp_send_spec sock so) by (done || lia). unfold resolve_mac. rewrite Hsub, Z.eqb_refl, Hnew. done.
  - split; [|split; [done|by apply arp_frame_wire]]. unfold request. rewrite net_poll_arp by (done || lia). rewrite !htonl_invol by done. by rewrite !Z.eqb_refl.
  - split; [|done]. unfold reply. rewrite net_poll_arp by (done || lia). rewrite !htonl_invol by done. done.
  - destruct (udp_frame_wire (net_mac b) (net_mac a) (net_ip a) (net_ip b) (local_port so) port data A2 B2 Hlp Hport) as (ck & Hck & Eck & Hok); [lia|].
    split; [|split; [done|]]; [|exists ck; rewrite Hso; split; [exact Eck|done]]. rewrite (udp_send_spec sock so) by (done || lia).
    rewrite (resolve_known (net_ip b) (net_mac b) a2); [done|done|]. apply arp_add_lookup. by destruct (arp_cache a).
  - split; [apply net_poll_udp; (done || lia)|]. change (sockets b1) with (sockets b). change (rx_buf b1) with (rx_buf b). rewrite Hwait.
    apply find_socket_spec in Hwait as [Hi Hi']. unfold NET_MAX_SOCKETS in *. rewrite B5 in Hi.
    unfold udp_recv. change (Z.of_nat NET_MAX_SOCKETS) with 4. rewrite (proj2 (Z.ltb_ge (Z.of_nat i) 0)), (proj2 (Z.leb_gt 4 (Z.of_nat i))) by lia.
    cbn [orb rx_buf set_rx]. rewrite Nat2Z.id, list_lookup_insert_eq by lia. cbn [default from_option id rx_ready negb rx_len rx_data rx_src_ip rx_src_port fst].
    rewrite Hso. cbn [default from_option id]. do 3 f_equal.
    assert ((if Z.of_nat (length data) <? size then Z.of_nat (length data) else size) = Z.of_nat (length data)) as -> by (case_bool; lia).
    by rewrite Nat2Z.id, take_app_length.
Qed.

Lemma word_byte_at (b : list Z) (i : nat) x : Forall (fun x => 0 <= x < 256) b -> b !! i = Some x -> 0 <= x < 256.
Proof. intros Hb Hx. exact (Forall_lookup_1 _ _ _ _ Hb Hx). Qed.

Lemma rd16_in b i : 0 <= i -> i + 1 < Z.of_nat (length b) -> Forall (fun x => 0 <= x < 256) b -> ok (rd16 b i) is_u16.
Proof.
  intros Hi Hl Hb. unfold rd16. apply ok_bind, ok_aref; [lia|]. intros x Hx. apply ok_bind, ok_aref; [lia|]. intros y Hy.
  pose proof (word_byte_at _ _ _ Hb Hx). pose proof (word_byte_at _ _ _ Hb Hy). unfold is_u16. cbn. lia.
Qed.

Lemma rd32_in b i : 0 <= i -> i + 3 < Z.of_nat (length b) -> Forall (fun x => 0 <= x < 256) b -> ok (rd32 b i) is_ip.
Proof.
  intros Hi Hl Hb. unfold rd32. apply ok_bind, ok_aref; [lia|]. intros x Hx. apply ok_bind, ok_aref; [lia|]. intros y Hy.
  apply ok_bind, ok_aref; [lia|]. intros z Hz. apply ok_bind, ok_aref; [lia|]. intros w Hw.
  pose proof (word_byte_at _ _ _ Hb Hx). pose proof (word_byte_at _ _ _ Hb Hy).
  pose proof (word_byte_at _ _ _ Hb Hz). pose proof (word_byte_at _ _ _ Hb Hw). unfold is_ip. cbn. lia.
Qed.

Lemma ok_slice b p n (Q : list Z -> Prop) : 0 <= p -> 0 <= n -> p + n <= Z.of_nat (length b) ->
  (forall l, length l = Z.to_nat n -> Q l) -> ok (slice b p n) Q.
Proof. intros Hp Hn Hl HQ. rewrite slice_in by lia. apply HQ. rewrite length_take, length_drop. lia. Qed.

Lemma arp_add_ok ip mac l : is_mac mac -> Forall (fun e => is_mac (arp_mac e)) l ->
  length (arp_cache_add ip mac l) = length l /\ Forall (fun e => is_mac (arp_mac e)) (arp_cache_add ip mac l).
Proof.
  intros Hm Hl. unfold arp_cache_add. destruct (arp_add_loop ip mac l) as [l'|] eqn:E.
  - revert l' E. induction Hl as [|e l He Hl IH]; intros l'; cbn [arp_add_loop]; [done|]. destruct (_ || _).
    + intros [= <-]. split; [done|]. by apply Forall_cons.
    + intros (l2 & E2 & [= <-])%bind_Some. destruct (IH _ E2). split; [cbn; lia|]. by apply Forall_cons.
  - destruct Hl as [|e l He Hl]; [done|]. split; [done|]. by apply Forall_cons.
Qed.

Lemma arp_handle_ok len n : net_ok n -> ok (arp_handle len n) net_ok.
Proof.
  intros N. pose proof N as [N1 N2 N3 [N4 N4'] N5 [N6 N6']]. unfold arp_handle. destruct (_ <? _); [done|].
  apply ok_bind. eapply ok_mono; [apply rd32_in; [lia|rewrite N6; lia|done]|]. intros spa Hspa. apply ok_bind, ok_slice; [lia|lia|rewrite N6; lia|]. intros sha Hsha.
  apply ok_bind. eapply ok_mono; [apply rd16_in; [lia|rewrite N6; lia|done]|]. intros oper _.
  apply ok_bind. eapply ok_mono; [apply rd32_in; [lia|rewrite N6; lia|done]|]. intros tpa _.
  destruct (arp_add_ok (htonl spa) sha (arp_cache n) Hsha N4') as [Hl Hf].
  destruct (_ && _); apply ok_ret; split; try done; cbn; rewrite Hl; done.
Qed.

Lemma udp_handle_ok len n : net_ok n -> ok (udp_handle len n) net_ok.
Proof.
  intros N. pose proof N as [N1 N2 N3 N4 [N5 N5'] [N6 N6']]. unfold udp_handle. destruct (_ <? _); [done|].
  apply ok_bind, ok_aref; [rewrite N6; lia|]. intros proto _. destruct (negb _); [done|].
  apply ok_bind. eapply ok_mono; [apply rd32_in; [lia|rewrite N6; lia|done]|]. intros dst _. destruct (negb _); [done|].
  apply ok_bind. eapply ok_mono; [apply rd16_in; [lia|rewrite N6; lia|done]|]. intros dport _.
  apply ok_bind. eapply ok_mono; [apply rd16_in; [lia|rewrite N6; lia|done]|]. intros ulen _.
  destruct (find_socket _ _ _ _) as [i|] eqn:Ei; [|done]. set (dl := u16 (htons ulen - 8)). assert (0 <= dl < 2 ^ 16) as Hdl by (apply Z.mod_pos_bound; lia).
  set (cp := if 256 <? dl then 256 else dl). assert (0 <= cp <= 256) as Hcp by (unfold cp; case_bool; lia). clearbody cp.
  apply ok_bind, ok_slice; [lia|lia|rewrite N6; lia|]. intros payload Hp.
  apply ok_bind. eapply ok_mono; [apply rd32_in; [lia|rewrite N6; lia|done]|]. intros src _.
  apply ok_bind. eapply ok_mono; [apply rd16_in; [lia|rewrite N6; lia|done]|]. intros sport _.
  apply ok_ret. split; try done. cbn. split; [by rewrite length_insert|]. apply Forall_insert; [done|]. cbn.
  rewrite length_app, length_drop, Hp. destruct (rx_buf n !! i) as [r|] eqn:Er; cbn.
  - rewrite (Forall_lookup_1 _ _ _ _ N5' Er). lia.
  - lia.
Qed.

(** C38. Whatever frame of at most 600 bytes arrives, [net_poll] reads only
    bytes of the packet buffer, and leaves all tables of the stack in their
    shape: no frame can make it run out of an array. *)
Theorem net_poll_safe frame n (Hn : net_ok n) (Hlen : (length frame <= 600)%nat) (Hbytes : Forall (fun b => 0 <= b < 256) frame) :
  exists n', net_poll frame n = Ok n' /\ net_ok n'.
Proof.
  apply (ok_iff (net_poll frame n)). unfold net_poll. set (n1 := set_pkt _ n).
  assert (net_ok n1) as N.
  { destruct Hn as [N1 N2 N3 N4 N5 [N6 N6']]. split; try done. cbn. split; [rewrite length_app, length_drop, N6; lia|].
    apply Forall_app. split; [done|]. by apply Forall_drop. }
  clearbody n1. destruct (_ <? 14); [done|]. destruct (ok_pkt _ N) as [Hl Hf]. apply ok_bind.
  eapply ok_mono; [apply rd16_in; [lia|rewrite Hl; lia|done]|]. intros type _.
  destruct (_ =? ETH_TYPE_ARP); [by apply arp_handle_ok|]. destruct (_ =? ETH_TYPE_IP); [by apply udp_handle_ok|done].
Qed.

(** ** Examples *)

Definition demo_mac (x : Z) : list Z := [2; 0; 0; 0; 0; x].
Definition demo_host (x : Z) : net := net_init (0x0A000000 + x) 0xFFFFFF00 0x0A0000FE (demo_mac x) net_zero.
(** 10.0.0.1 with a socket on port 4000, 10.0.0.2 with one on port 53 *)
Definition demo_a : net := (udp_socket_open 4000 (demo_host 1)).2.
Definition demo_b : net := (udp_socket_open 53 (demo_host 2)).2.

Lemma demo_net_ok x p : 0 <= x < 256 -> net_ok (udp_socket_open p (demo_host x)).2.
Proof.
  intros Hx. split; try done.
  - split; unfold is_ip; cbn; lia.
  - split; [done|]. cbn. repeat (apply Forall_cons; split; [done|]). done.
  - split; [done|]. repeat (apply Forall_cons; split; [reflexivity|]). done.
  - split; [done|]. apply (Forall_replicate _ 600 0). lia.
Qed.

Lemma udp_delivers_witness : exists request reply dgram a1 a2 a3 b1 b2,
  exchange demo_a demo_b 0 53 0 [1; 2; 3] 45 16 request reply dgram a1 a2 a3 b1 b2.
Proof.
  apply (udp_delivers demo_a demo_b 0 (Sock 4000 true) 53 0 [1; 2; 3] 45 16); try (apply demo_net_ok; lia); try reflexivity; try done; cbn; lia.
Defined.

Lemma net_poll_safe_witness : exists n', net_poll (replicate 60 0) demo_a = Ok n' /\ net_ok n'.
Proof. apply (net_poll_safe (replicate 60 0) demo_a); [apply demo_net_ok; lia|cbn; lia|apply Forall_replicate; lia]. Defined.

(** A header that claims more data than arrived makes the socket receive bytes
    of the packet before: here a frame of 42 bytes for port 53 claims 3 bytes of
    data, and the data of a packet for another host is delivered. *)
Theorem udp_delivers_stale_bytes :
  let secret := udp_frame (demo_mac 2) (demo_mac 1) 0x0A000001 0x0A000003 7 7 [115; 101; 99] in
  let probe := take 42 (udp_frame (demo_mac 2) (demo_mac 1) 0x0A000001 0x0A000002 7 53 [0; 0; 0]) in
  (n ← net_poll secret demo_b; n ← net_poll probe n; Ok (udp_recv 0 16 n).1) = Ok (Some ([115; 101; 99], 0x0A000001, 7)).
Proof. vm_compute. reflexivity. Qed.
