(* ===== verification/SimEvents.v ===== *)
(** The event scheduler of the machine simulator, [sim/src/core/event_queue.c].

    A device does not look at the clock in every cycle; it asks for a callback
    at a cycle.  The queue is an array of 32 slots and the time of the earliest
    event, so that the main loop needs one comparison for each instruction.  A
    callback is a value of the type [K], which [call] runs on the state [T] of
    the machine that holds the queue; it may schedule events while the array is
    being walked.  The theorem says that no event is missed: what the loop does
    when it looks only at [next_event] is what it would do if it looked at
    every slot in every cycle. *)

From stdpp Require Import list.
From Stdlib Require Import ZArith Lia.
From S2P Require Import Prelude.

Definition EVENT_QUEUE_MAX : nat := 32.
Definition UINT64_MAX : Z := 2 ^ 64 - 1.

Definition EVT_SYSTICK : Z := 1.
Definition EVT_SPI2_TXE : Z := 4.
Definition EVT_IO_POLL : Z := 6.

(** * The queue *)

Section queue.
Context {K : Type}.

Record event := Event { fire_at : Z; callback : option K; id : Z; active : bool }.
Record event_queue := Queue { events : list event; next_event : Z }.

Definition event_queue_init : event_queue := Queue (replicate EVENT_QUEUE_MAX (Event 0 None 0 false)) UINT64_MAX.

Definition earliest (l : list event) : Z :=
  foldl (fun next e => if active e && (fire_at e <? next) then fire_at e else next) UINT64_MAX l.

Definition update_next (q : event_queue) : event_queue := Queue (events q) (earliest (events q)).

(** the active slot with this id *)
Definition slot_of (j : Z) (l : list event) : option nat := fst <$> list_find (fun e => active e && (id e =? j)) l.
(** the first unused slot *)
Definition free_slot (l : list event) : option nat := fst <$> list_find (fun e => negb (active e)) l.

Definition event_schedule (j t : Z) (k : K) (q : event_queue) : event_queue :=
  let slot := match slot_of j (events q) with Some i => Some i | None => free_slot (events q) end in
  match slot with
  | None => q
  | Some i => Queue (<[i := Event t (Some k) j true]> (events q)) (if t <? next_event q then t else next_event q)
  end.

Definition deactivate (i : nat) (q : event_queue) : event_queue :=
  Queue (alter (fun e => Event (fire_at e) (callback e) (id e) false) i (events q)) (next_event q).

Definition event_cancel (j : Z) (q : event_queue) : event_queue :=
  update_next (match slot_of j (events q) with Some i => deactivate i q | None => q end).

(** * The machine that owns it *)

Context {T : Type} (get : T -> event_queue) (set : event_queue -> T -> T) (call : K -> T -> T).

(** one turn of the loop: the slot is released before the callback runs *)
Definition process_slot (now : Z) (s : T) (i : nat) : T :=
  match events (get s) !! i with
  | Some e =>
      if active e && (fire_at e <=? now)
      then let s := set (deactivate i (get s)) s in
           match callback e with Some k => call k s | None => s end
      else s
  | None => s
  end.

Definition event_process (now : Z) (s : T) : T :=
  let s := foldl (process_slot now) s (seq 0 EVENT_QUEUE_MAX) in
  set (update_next (get s)) s.

(** the comparison of [stm32f411_tick] *)
Definition event_poll (now : Z) (s : T) : T :=
  if next_event (get s) <=? now then event_process now s else s.
End queue.
Arguments event : clear implicits.
Arguments event_queue : clear implicits.

(** * Well-formed queues *)

Section wf.
Context {K : Type} (ids : list Z) (kid : K -> Z).

Implicit Types (e : event K) (l : list (event K)) (q : event_queue K).

(** what a slot in use looks like *)
Definition in_use (q : event_queue K) (i : nat) (t : Z) (k : K) (j : Z) : Prop := events q !! i = Some (Event t (Some k) j true).

Record queue_wf (q : event_queue K) : Prop := {
  wf_slots : length (events q) = EVENT_QUEUE_MAX;
  wf_ids : forall i (e : event K), events q !! i = Some e -> active e = true -> id e ∈ ids /\ exists k, callback e = Some k /\ kid k = id e;
  wf_distinct : forall i i' (e e' : event K), events q !! i = Some e -> events q !! i' = Some e' -> active e = true -> active e' = true -> id e = id e' -> i = i';
  wf_next : forall i (e : event K), events q !! i = Some e -> active e = true -> next_event q <= fire_at e;
}.

(** no active event has the id [j] *)
Definition unused (q : event_queue K) (j : Z) : Prop := forall i e, events q !! i = Some e -> active e = true -> id e <> j.

(** what is in use stays where it is *)
Definition keeps (q q' : event_queue K) : Prop :=
  forall i e, events q !! i = Some e -> active e = true -> events q' !! i = Some e.

#[export] Instance keeps_preorder : PreOrder keeps.
Proof. split; [by intros q i e|]. intros q1 q2 q3 H1 H2 i e Hi Ha. eauto. Qed.

Lemma earliest_le l i e : l !! i = Some e -> active e = true -> earliest l <= fire_at e.
Proof.
  unfold earliest. generalize UINT64_MAX. revert i. induction l as [|x l IH]; intros i m Hi Ha; [done|].
  assert (Hmono : forall l m, foldl (fun next (e : event K) => if active e && (fire_at e <? next) then fire_at e else next) m l <= m).
  { clear. induction l as [|x l IH]; intros m; cbn; [lia|]. etrans; [apply IH|].
    destruct (active x); cbn; [|lia]. destruct (Z.ltb_spec (fire_at x) m); lia. }
  destruct i as [|i]; cbn in Hi |- *; [|by apply (IH i)].
  injection Hi as ->. rewrite Ha. cbn. etrans; [apply Hmono|]. destruct (Z.ltb_spec (fire_at e) m); lia.
Qed.

Lemma queue_wf_init : queue_wf event_queue_init.
Proof.
  split; [done|..]; cbn [event_queue_init events].
  all: intros; repeat match goal with H : replicate _ _ !! _ = Some _ |- _ => apply lookup_replicate in H as [-> _] end; done.
Qed.

Lemma queue_wf_update_next q : queue_wf q -> queue_wf (update_next q).
Proof. intros [H1 H2 H3 H4]. split; [done..|]. intros i e. apply earliest_le. Qed.

Lemma lookup_deactivate i q i' e : events (deactivate i q) !! i' = Some e -> active e = true -> i <> i' /\ events q !! i' = Some e.
Proof.
  intros H Ha. destruct (decide (i = i')) as [<-|Hi]; cbn in H.
  - rewrite list_lookup_alter_eq in H. destruct (events q !! i); [|done]. injection H as <-. done.
  - by rewrite list_lookup_alter_ne in H.
Qed.

Lemma queue_wf_deactivate i q : queue_wf q -> queue_wf (deactivate i q).
Proof.
  intros [H1 H2 H3 H4]. split.
  - cbn. by rewrite length_alter.
  - intros i' e Hi Ha. apply lookup_deactivate in Hi as [_ Hi]; [eauto|done].
  - intros i1 i2 e1 e2 Hi1 Hi2 Ha1 Ha2. apply lookup_deactivate in Hi1 as [_ Hi1]; [|done]. apply lookup_deactivate in Hi2 as [_ Hi2]; [|done]. eauto.
  - intros i' e Hi Ha. apply lookup_deactivate in Hi as [_ Hi]; [|done]. cbn. eauto.
Qed.

Lemma slot_of_Some j l i : slot_of j l = Some i -> exists e, l !! i = Some e /\ active e = true /\ id e = j.
Proof.
  unfold slot_of. destruct (list_find _ l) as [[i' e]|] eqn:E; [|done]. intros [= ->].
  apply list_find_Some in E as (Hi & He & _). apply Is_true_true, andb_true_iff in He as [Ha Hj%Z.eqb_eq]. eauto.
Qed.

Lemma slot_of_None j l : slot_of j l = None -> forall i e, l !! i = Some e -> active e = true -> id e <> j.
Proof.
  unfold slot_of. destruct (list_find _ l) as [[]|] eqn:E; [done|]. intros _ i e Hi Ha Hj.
  apply list_find_None in E. rewrite Forall_lookup in E. apply (E i e Hi). apply Is_true_true. rewrite Ha, Hj, Z.eqb_refl. done.
Qed.

(** Distinct ids leave a slot free. *)
Lemma free_slot_ex q j : queue_wf q -> (length ids <= EVENT_QUEUE_MAX)%nat -> j ∈ ids -> unused q j ->
  exists i e, free_slot (events q) = Some i /\ events q !! i = Some e /\ active e = false.
Proof.
  intros Hq Hids Hj Hun. unfold free_slot. destruct (list_find _ (events q)) as [[i e]|] eqn:E.
  { apply list_find_Some in E as (Hi & He & _). exists i, e. split; [done|]. split; [done|]. by destruct (active e). }
  exfalso. apply list_find_None in E. rewrite Forall_lookup in E.
  assert (Hall : forall i e, events q !! i = Some e -> active e = true) by (intros i e Hi; specialize (E i e Hi); by destruct (active e)).
  assert (Hnd : NoDup (j :: (id <$> events q))).
  { apply NoDup_cons. split.
    - intros (e & -> & He)%list_elem_of_fmap. apply list_elem_of_lookup in He as [i Hi]. by eapply Hun; eauto.
    - apply NoDup_alt. intros i i' x Hi Hi'. rewrite list_lookup_fmap, fmap_Some in Hi, Hi'.
      destruct Hi as (e & Hi & ->), Hi' as (e' & Hi' & Heq). eapply (wf_distinct q Hq); eauto. }
  assert (Hsub : (j :: (id <$> events q)) ⊆ ids).
  { intros x [-> |(e & -> & He)%list_elem_of_fmap]%elem_of_cons; [done|].
    apply list_elem_of_lookup in He as [i Hi]. apply (wf_ids q Hq i e Hi); eauto. }
  pose proof (submseteq_length _ _ (NoDup_submseteq _ _ Hnd Hsub)) as Hlen.
  cbn in Hlen. rewrite length_fmap, (wf_slots q Hq) in Hlen. lia.
Qed.

(** Scheduling an id that is not in use takes a free slot and keeps the others. *)
Lemma event_schedule_new q j t k : queue_wf q -> (length ids <= EVENT_QUEUE_MAX)%nat -> j ∈ ids -> kid k = j -> unused q j ->
  let q' := event_schedule j t k q in queue_wf q' /\ keeps q q' /\ exists i, in_use q' i t k j.
Proof.
  intros Hq Hids Hj Hk Hun. cbn zeta. destruct (free_slot_ex q j) as (i & e & Hfree & Hi & He); [done..|].
  unfold event_schedule. destruct (slot_of j (events q)) as [i'|] eqn:E.
  { apply slot_of_Some in E as (e' & Hi' & Ha & Hid). by destruct (Hun i' e'). }
  rewrite Hfree. pose proof (lookup_lt_Some _ _ _ Hi) as Hlt. destruct Hq as [H1 H2 H3 H4].
  assert (Hkeep : forall i' e', events q !! i' = Some e' -> active e' = true -> i <> i').
  { intros i' e' Hi' Ha ->. rewrite Hi in Hi'. congruence. }
  split; [split|split].
  - cbn. by rewrite length_insert.
  - cbn [events]. intros i' e' Hi' Ha. apply list_lookup_insert_Some in Hi' as [(<- & <- & _)|[_ Hi']]; eauto.
  - cbn [events]. intros i1 i2 e1 e2 Hi1 Hi2 Ha1 Ha2 Heq.
    apply list_lookup_insert_Some in Hi1 as [(<- & <- & _)|[_ Hi1]], Hi2 as [(<- & <- & _)|[_ Hi2]]; try done; eauto.
    + by destruct (Hun _ _ Hi2 Ha2 (eq_sym Heq)).
    + by destruct (Hun _ _ Hi1 Ha1 Heq).
  - cbn [events next_event]. intros i' e' Hi' Ha.
    apply list_lookup_insert_Some in Hi' as [(<- & <- & _)|[_ Hi']]; [|specialize (H4 _ _ Hi' Ha)]; cbn [fire_at]; destruct (Z.ltb_spec t (next_event q)); lia.
  - intros i' e' Hi' Ha. cbn. rewrite list_lookup_insert_ne; eauto.
  - exists i. unfold in_use. cbn. by rewrite list_lookup_insert_eq.
Qed.

(** Scheduling an id again moves its event. *)
Lemma event_schedule_again q j t k i e : queue_wf q -> kid k = j -> events q !! i = Some e -> active e = true -> id e = j ->
  let q' := event_schedule j t k q in queue_wf q' /\ in_use q' i t k j.
Proof.
  intros Hq Hk Hi Ha Hid. cbn zeta. unfold event_schedule. destruct (slot_of j (events q)) as [i'|] eqn:E.
  2: { by destruct (slot_of_None _ _ E _ _ Hi Ha). }
  apply slot_of_Some in E as (e' & Hi' & Ha' & Hid'). assert (i' = i) as -> by (eapply (wf_distinct q Hq); eauto; congruence).
  pose proof (lookup_lt_Some _ _ _ Hi) as Hlt. pose proof (wf_ids q Hq i e Hi Ha) as [Hin _]. destruct Hq as [H1 H2 H3 H4].
  split; [split|].
  - cbn. by rewrite length_insert.
  - cbn [events]. intros i0 e0 Hi0 Ha0. apply list_lookup_insert_Some in Hi0 as [(<- & <- & _)|[_ Hi0]]; [|eauto]. cbn. split; [congruence|eauto].
  - cbn [events]. intros i1 i2 e1 e2 Hi1 Hi2 Ha1 Ha2 Heq.
    apply list_lookup_insert_Some in Hi1 as [(<- & <- & _)|[_ Hi1]], Hi2 as [(<- & <- & _)|[_ Hi2]]; cbn in *; try done; eauto.
    + eapply (H3 i i2); eauto. congruence.
    + eapply (H3 i1 i); eauto. congruence.
  - cbn [events next_event]. intros i0 e0 Hi0 Ha0.
    apply list_lookup_insert_Some in Hi0 as [(<- & <- & _)|[_ Hi0]]; [|specialize (H4 _ _ Hi0 Ha0)]; cbn [fire_at]; destruct (Z.ltb_spec t (next_event q)); lia.
  - unfold in_use. cbn. by rewrite list_lookup_insert_eq.
Qed.

Lemma event_schedule_ok q j t k : queue_wf q -> (length ids <= EVENT_QUEUE_MAX)%nat -> j ∈ ids -> kid k = j ->
  let q' := event_schedule j t k q in queue_wf q' /\ exists i, in_use q' i t k j.
Proof.
  intros Hq Hids Hj Hk. cbn zeta. destruct (slot_of j (events q)) as [i|] eqn:E.
  - apply slot_of_Some in E as (e & Hi & Ha & Hid). edestruct (event_schedule_again q j t k i e); eauto.
  - destruct (event_schedule_new q j t k) as (H1 & _ & H2); [done..| |done]. intros i e. by apply slot_of_None.
Qed.
End wf.

(** * The walk over the slots *)

(** What the owner of a queue promises: the queue is a part of its state, and a
    callback runs when its own id is free and schedules nothing else. *)
Class EventOwner (K T : Type) := {
  get_queue : T -> event_queue K;
  set_queue : event_queue K -> T -> T;
  call : K -> T -> T;
  event_ids : list Z;
  call_id : K -> Z;
}.

Class EventOwnerSpec K T `{EventOwner K T} := {
  owner_wf : T -> Prop;
  get_set q s : get_queue (set_queue q s) = q;
  set_wf q s : owner_wf s -> owner_wf (set_queue q s);
  ids_fit : (length event_ids <= EVENT_QUEUE_MAX)%nat;
  call_keeps k s : owner_wf s -> queue_wf event_ids call_id (get_queue s) -> unused (get_queue s) (call_id k) ->
    owner_wf (call k s) /\ queue_wf event_ids call_id (get_queue (call k s)) /\ keeps (get_queue s) (get_queue (call k s));
}.

Section walk.
Context {K T : Type} `{Hown : EventOwnerSpec K T}.
Notation process_slot := (process_slot get_queue set_queue call).
Notation event_process := (event_process get_queue set_queue call).
Notation event_poll := (event_poll get_queue set_queue call).
Implicit Types s : T.

Definition ready (s : T) : Prop := owner_wf s /\ queue_wf event_ids call_id (get_queue s).

Lemma process_slot_due now s i t k j : ready s -> in_use (get_queue s) i t k j -> call_id k = j -> t <= now ->
  process_slot now s i = call k (set_queue (deactivate i (get_queue s)) s) /\ ready (process_slot now s i) /\
    (forall i' e, i <> i' -> events (get_queue s) !! i' = Some e -> active e = true -> events (get_queue (process_slot now s i)) !! i' = Some e).
Proof.
  intros [Ho Hq] Hi Hk Ht. pose proof Hi as Hi0. unfold in_use in Hi. unfold SimEvents.process_slot. rewrite Hi. cbn [active andb fire_at callback].
  rewrite (proj2 (Z.leb_le t now) Ht).
  set (s1 := set_queue (deactivate i (get_queue s)) s).
  assert (Hq1 : get_queue s1 = deactivate i (get_queue s)) by apply get_set.
  destruct (call_keeps k s1) as (Ho' & Hq' & Hkeep).
  - by apply set_wf.
  - rewrite Hq1. by apply queue_wf_deactivate.
  - rewrite Hq1. intros i' e Hi' Ha Hid. apply lookup_deactivate in Hi' as [Hne Hi']; [|done].
    apply Hne. eapply (wf_distinct _ _ _ Hq i i' _ e); eauto. cbn. congruence.
  - split; [done|]. split; [done|]. intros i' e Hne Hi' Ha. apply Hkeep; [|done].
    rewrite Hq1. cbn. by rewrite list_lookup_alter_ne.
Qed.

Lemma process_slot_skip now s i : (forall e, events (get_queue s) !! i = Some e -> active e = true -> now < fire_at e) -> process_slot now s i = s.
Proof.
  intros Hlate. unfold SimEvents.process_slot. destruct (events (get_queue s) !! i) as [e|]; [|done].
  destruct (active e) eqn:Ha; [|done]. cbn. destruct (Z.leb_spec (fire_at e) now); [|done]. specialize (Hlate e eq_refl Ha). lia.
Qed.

(** a slot either is passed over, or its callback runs *)
Lemma process_slot_cases now s i : ready s ->
  process_slot now s i = s /\ (forall e, events (get_queue s) !! i = Some e -> active e = true -> now < fire_at e) \/
  exists t k, in_use (get_queue s) i t k (call_id k) /\ t <= now.
Proof.
  intros [Ho Hq]. destruct (events (get_queue s) !! i) as [e|] eqn:Hi; [|left; split; [by apply process_slot_skip; rewrite Hi|done]].
  destruct (decide (active e = true /\ fire_at e <= now)) as [[Ha Ht]|Hno].
  - right. destruct (wf_ids _ _ _ Hq i e Hi Ha) as (_ & k & Hk & Hid). destruct e as [t c j a]. cbn in *. subst. by exists t, k.
  - left. assert (Hlate : forall e', Some e = Some e' -> active e' = true -> now < fire_at e') by (intros e' [= <-] Ha; destruct (Z.le_gt_cases (fire_at e) now); [tauto|lia]).
    split; [apply process_slot_skip; rewrite Hi|]; done.
Qed.

(** what the walk over the first [n] slots does to the event in slot [i] *)
Lemma walk_slots now s i t k n (P : T -> Prop) : ready s -> in_use (get_queue s) i t k (call_id k) ->
  (forall s1, P (call k s1)) -> (forall k' s1, P s1 -> P (call k' s1)) -> (forall q s1, P s1 -> P (set_queue q s1)) ->
  let s' := foldl (process_slot now) s (seq 0 n) in
  ready s' /\ (if decide ((i < n)%nat /\ t <= now) then P s' else in_use (get_queue s') i t k (call_id k)).
Proof.
  intros Hs Hi HP1 HP2 HP3. cbn zeta. induction n as [|n [Hr IH]]; [split; [done|by rewrite decide_False by lia]|].
  rewrite seq_S, foldl_app. cbn [foldl Nat.add]. set (s' := foldl _ s (seq 0 n)) in *.
  destruct (process_slot_cases now s' n Hr) as [[-> Hlate]|(t' & k' & Hn & Ht')].
  - split; [done|]. destruct (decide (i = n)) as [<-|Hne].
    + rewrite decide_False in IH by lia. specialize (Hlate _ IH eq_refl). cbn in Hlate. by rewrite decide_False by lia.
    + destruct (decide ((i < n)%nat /\ t <= now)); [by rewrite decide_True by lia|by rewrite decide_False by lia].
  - destruct (process_slot_due now s' n t' k' (call_id k')) as (Heq & Hr' & Hkeep); [done..|].
    split; [done|]. destruct (decide (i = n)) as [<-|Hne].
    + rewrite decide_False in IH by lia. unfold in_use in IH, Hn. rewrite IH in Hn. simplify_eq. rewrite decide_True by lia. rewrite Heq. apply HP1.
    + destruct (decide ((i < n)%nat /\ t <= now)).
      * rewrite decide_True by lia. rewrite Heq. auto.
      * rewrite decide_False by lia. by apply Hkeep.
Qed.

Lemma walk_ready now s n : ready s -> ready (foldl (process_slot now) s (seq 0 n)).
Proof.
  intros Hs. induction n as [|n IH]; [done|]. rewrite seq_S, foldl_app. cbn [foldl Nat.add].
  destruct (process_slot_cases now _ n IH) as [[-> _]|(t & k & Hn & Ht)]; [done|]. by eapply process_slot_due.
Qed.

Lemma ready_update_next s : ready s -> ready (set_queue (update_next (get_queue s)) s).
Proof. intros [Ho Hq]. split; [by apply set_wf|]. rewrite get_set. by apply queue_wf_update_next. Qed.

Lemma event_poll_ready now s : ready s -> ready (event_poll now s).
Proof. intros Hs. unfold SimEvents.event_poll. case_match; [|done]. by apply ready_update_next, walk_ready. Qed.

(** A due event has run after the poll; another one is where it was. *)
Lemma event_poll_spec now s i t k (P : T -> Prop) : ready s -> in_use (get_queue s) i t k (call_id k) ->
  (forall s1, P (call k s1)) -> (forall k' s1, P s1 -> P (call k' s1)) -> (forall q s1, P s1 -> P (set_queue q s1)) ->
  if decide (t <= now) then P (event_poll now s) else in_use (get_queue (event_poll now s)) i t k (call_id k).
Proof.
  intros Hs Hi HP1 HP2 HP3. pose proof (wf_next _ _ _ (proj2 Hs) _ _ Hi eq_refl) as Hnext. cbn [fire_at] in Hnext.
  unfold SimEvents.event_poll. destruct (Z.leb_spec (next_event (get_queue s)) now) as [Hle|Hgt]; [|by rewrite decide_False by lia].
  assert (Hlt : (i < EVENT_QUEUE_MAX)%nat) by (rewrite <- (wf_slots _ _ _ (proj2 Hs)); eapply lookup_lt_Some, Hi).
  destruct (walk_slots now s i t k EVENT_QUEUE_MAX P) as [_ Hres]; [done..|]. unfold SimEvents.event_process.
  destruct (decide (t <= now)) as [Ht|Ht].
  - rewrite decide_True in Hres by done. by apply HP3.
  - rewrite decide_False in Hres by tauto. by rewrite get_set.
Qed.

(** what every callback keeps, the poll keeps *)
Lemma event_poll_inv (P : T -> Prop) now s : (forall k s1, P s1 -> P (call k s1)) -> (forall q s1, P s1 -> P (set_queue q s1)) -> P s -> P (event_poll now s).
Proof.
  intros HP1 HP2 Hs. unfold SimEvents.event_poll. case_match; [|done]. apply HP2.
  assert (Hwalk : forall l s, P s -> P (foldl (process_slot now) s l)); [|by apply Hwalk].
  intros l. induction l as [|i l IH]; intros s' Hs'; [done|]. cbn. apply IH. unfold SimEvents.process_slot.
  repeat case_match; auto.
Qed.

Lemma walk_idle now s n : (forall i e, events (get_queue s) !! i = Some e -> active e = true -> now < fire_at e) -> foldl (process_slot now) s (seq 0 n) = s.
Proof.
  intros Hno. induction n as [|n IH]; [done|]. rewrite seq_S, foldl_app, IH. cbn. apply process_slot_skip. intros e. apply Hno.
Qed.

(** C13. The event queue misses nothing and runs nothing early.  The main loop
    compares the clock with [next_event] only.  After it, the callback of every
    event that was due has run (every property that this callback establishes
    and the others keep holds), every event that was not due is in its slot
    unchanged, the queue is well formed again, and if no event was due the
    machine is as before, except that [next_event] may be more exact. *)
Theorem event_queue_on_time now s : ready s ->
  ready (event_poll now s) /\
  (forall i t k, in_use (get_queue s) i t k (call_id k) -> now < t -> in_use (get_queue (event_poll now s)) i t k (call_id k)) /\
  (forall i t k (P : T -> Prop), in_use (get_queue s) i t k (call_id k) -> t <= now ->
     (forall s1, P (call k s1)) -> (forall k' s1, P s1 -> P (call k' s1)) -> (forall q s1, P s1 -> P (set_queue q s1)) -> P (event_poll now s)) /\
  ((forall i e, events (get_queue s) !! i = Some e -> active e = true -> now < fire_at e) ->
     event_poll now s = s \/ event_poll now s = set_queue (update_next (get_queue s)) s).
Proof.
  intros Hs. split; [by apply event_poll_ready|]. split; [|split].
  - intros i t k Hi Ht. pose proof (event_poll_spec now s i t k (fun _ => True) Hs Hi) as Hp. rewrite decide_False in Hp by lia. auto.
  - intros i t k P Hi Ht H1 H2 H3. pose proof (event_poll_spec now s i t k P Hs Hi H1 H2 H3) as Hp. by rewrite decide_True in Hp by lia.
  - intros Hno. unfold SimEvents.event_poll. case_match; [right|by left]. unfold SimEvents.event_process. by rewrite walk_idle.
Qed.
End walk.
