(* ===== verification/SimBus.v ===== *)
(** The memory bus of the machine simulator, [sim/src/core/membus.c]: the table
    of regions, the hash of megabytes and the TLB in front of it, and the
    accesses of each width with their short cuts for RAM and flash.

    [D] names the devices; what a device does with an access is a parameter, on
    the state [T] of the rest of the machine.  A pointer to a region is its
    index in the table.  The theorem says that the two caches never change the
    result of a lookup. *)

From stdpp Require Import gmap list.
From Stdlib Require Import ZArith Lia.
From S2P Require Import Prelude Memory.

Definition MAX_REGIONS : nat := 32.
Definition MEMBUS_FLASH_BASE : Z := 0x08000000.
Definition MEMBUS_FLASH_SIZE : Z := 512 * 1024.
Definition MEMBUS_RAM_BASE : Z := 0x20000000.
Definition MEMBUS_RAM_SIZE : Z := 128 * 1024.
Definition MEMBUS_HASH_SIZE : Z := 4096.
Definition TLB_INDEX (addr : Z) : Z := Z.land (Z.lxor (addr .>> 12) (addr .>> 20)) 4095.

(** the host memory behind a region: a pointer to one of the two arrays of the
    machine, [soc->flash] and [soc->ram] *)
Inductive backing := InFlash | InRam.

Section bus.
Context {D T : Type} (dev_read : D -> Z -> T -> Z * T) (dev_write : D -> Z -> Z -> T -> T).

(** [direct] with [read_only], or the device's functions *)
Inductive target := Direct (m : backing) (read_only : bool) | Device (d : D).
Record mem_region := Region { base : Z; size : Z; tgt : target }.

Record membus := Bus {
  regions : list mem_region;
  hash : gmap Z nat;
  tlb : gmap Z nat;
  flash_ptr : option backing;
  ram_ptr : option backing;
  (** the contents of the two arrays *)
  flash_mem : mem;
  ram_mem : mem;
}.

Definition set_tlb t b := Bus (regions b) (hash b) t (flash_ptr b) (ram_ptr b) (flash_mem b) (ram_mem b).
Definition set_ptrs f r b := Bus (regions b) (hash b) (tlb b) f r (flash_mem b) (ram_mem b).
Definition set_flash m b := Bus (regions b) (hash b) (tlb b) (flash_ptr b) (ram_ptr b) m (ram_mem b).
Definition set_ram m b := Bus (regions b) (hash b) (tlb b) (flash_ptr b) (ram_ptr b) (flash_mem b) m.

Definition membus_init : membus := Bus [] ∅ ∅ None None ∅ ∅.

(** [for (i = lo; i <= hi && i < MEMBUS_HASH_SIZE; i++)] *)
Fixpoint hash_loop (n : nat) (i hi : Z) (r : nat) (h : gmap Z nat) : gmap Z nat :=
  match n with
  | O => h
  | S n => if (i <=? hi) && (i <? MEMBUS_HASH_SIZE)
           then hash_loop n (i + 1) hi r (match h !! i with Some _ => h | None => <[i := r]> h end)
           else h
  end.

Definition hash_insert (r : mem_region) (ix : nat) (h : gmap Z nat) : gmap Z nat :=
  hash_loop (Z.to_nat MEMBUS_HASH_SIZE) (base r .>> 20) ((base r +w size r -w 1) .>> 20) ix h.

(** what [membus_register] and [membus_register_ram] share; the table has room *)
Definition add_region (r : mem_region) (b : membus) : membus :=
  Bus (regions b ++ [r]) (hash_insert r (length (regions b)) (hash b)) ∅ (flash_ptr b) (ram_ptr b) (flash_mem b) (ram_mem b).

Definition membus_register (bs sz : Z) (d : D) (b : membus) : membus :=
  if (MAX_REGIONS <=? length (regions b))%nat then b else add_region (Region bs sz (Device d)) b.

Definition membus_register_ram (bs sz : Z) (m : backing) (read_only : bool) (b : membus) : membus :=
  if (MAX_REGIONS <=? length (regions b))%nat then b
  else
    let b := add_region (Region bs sz (Direct m read_only)) b in
    let b := if bs =? MEMBUS_FLASH_BASE then set_ptrs (Some m) (ram_ptr b) b else b in
    if bs =? MEMBUS_RAM_BASE then set_ptrs (flash_ptr b) (Some m) b else b.

Definition contains (r : mem_region) (addr : Z) : bool := (base r <=? addr) && (addr <? base r +w size r).

(** the linear scan *)
Fixpoint scan (l : list mem_region) (addr : Z) (i : nat) : option nat :=
  match l with
  | [] => None
  | r :: l => if contains r addr then Some i else scan l addr (S i)
  end.

Definition find_region_slow (b : membus) (addr : Z) : option nat :=
  match hash b !! (addr .>> 20) with
  | Some i => if match regions b !! i with Some r => contains r addr | None => false end then Some i else scan (regions b) addr 0
  | None => scan (regions b) addr 0
  end.

Definition find_region_tlb (addr : Z) (b : membus) : option nat * membus :=
  let idx := TLB_INDEX addr in
  let slow := match find_region_slow b addr with
              | Some i => (Some i, set_tlb (<[idx := i]> (tlb b)) b)
              | None => (None, b)
              end in
  match tlb b !! idx with
  | Some i => if match regions b !! i with Some r => contains r addr | None => false end then (Some i, b) else slow
  | None => slow
  end.

(** * Accesses *)

Definition backing_mem (m : backing) (b : membus) : mem := match m with InFlash => flash_mem b | InRam => ram_mem b end.
Definition set_backing (m : backing) (x : mem) (b : membus) : membus := match m with InFlash => set_flash x b | InRam => set_ram x b end.

(** The short cuts go through [flash_ptr] and [ram_ptr].  A bus on which these
    are still null has no memory there ([bus_wf] excludes it). *)
Definition ptr_mem (p : option backing) (b : membus) : mem := match p with Some m => backing_mem m b | None => ∅ end.
Definition set_ptr_mem (p : option backing) (x : mem) (b : membus) : membus := match p with Some m => set_backing m x b | None => b end.

(** [ld] loads the width from host memory, [cast] narrows what a device returns *)
Definition membus_read (ld : mem -> Z -> Z) (cast : Z -> Z) (addr : Z) (b : membus) (t : T) : Z * membus * T :=
  if addr -w MEMBUS_RAM_BASE <? MEMBUS_RAM_SIZE then (ld (ptr_mem (ram_ptr b) b) (addr - MEMBUS_RAM_BASE), b, t)
  else if addr -w MEMBUS_FLASH_BASE <? MEMBUS_FLASH_SIZE then (ld (ptr_mem (flash_ptr b) b) (addr - MEMBUS_FLASH_BASE), b, t)
  else
    let (i, b) := find_region_tlb addr b in
    match i ≫= (fun i => regions b !! i) with
    | Some r => match tgt r with
                | Direct m _ => (ld (backing_mem m b) (addr - base r), b, t)
                | Device d => let (v, t) := dev_read d (addr - base r) t in (cast v, b, t)
                end
    | None => (0, b, t)
    end.

Definition membus_write (st : mem -> Z -> Z -> mem) (addr val : Z) (b : membus) (t : T) : membus * T :=
  if addr -w MEMBUS_RAM_BASE <? MEMBUS_RAM_SIZE then (set_ptr_mem (ram_ptr b) (st (ptr_mem (ram_ptr b) b) (addr - MEMBUS_RAM_BASE) val) b, t)
  else
    let (i, b) := find_region_tlb addr b in
    match i ≫= (fun i => regions b !! i) with
    | Some r => match tgt r with
                | Direct m ro => (if ro then b else set_backing m (st (backing_mem m b) (addr - base r) val) b, t)
                | Device d => (b, dev_write d (addr - base r) val t)
                end
    | None => (b, t)
    end.

Definition ld16 (m : mem) (a : Z) : Z := ldb m a + 2 ^ 8 * ldb m (a + 1).
Definition st16 (m : mem) (a v : Z) : mem := stb (stb m a v) (a + 1) (v .>> 8).

Definition membus_read32 := membus_read ld32 u32.
Definition membus_read16 := membus_read ld16 u16.
Definition membus_read8 := membus_read ldb u8.
Definition membus_write32 := membus_write st32.
Definition membus_write16 := membus_write st16.
Definition membus_write8 := membus_write stb.

(** * The lookup without caches *)

(** the region of an address: the first of the table that holds it *)
Definition region_of (l : list mem_region) (addr : Z) : option nat := scan l addr 0.

(** regions do not overlap *)
Definition disjoint_regions (l : list mem_region) : Prop :=
  forall i j r r' a, l !! i = Some r -> l !! j = Some r' -> contains r a = true -> contains r' a = true -> i = j.

(** a check of a table *)
Definition apart (r r' : mem_region) : bool := (base r +w size r <=? base r') || (base r' +w size r' <=? base r).
Fixpoint table_check (l : list mem_region) : bool :=
  match l with [] => true | r :: l => forallb (apart r) l && table_check l end.

Lemma apart_spec r r' a : apart r r' = true -> contains r a = true -> contains r' a = true -> False.
Proof. unfold apart, contains. rewrite orb_true_iff, !andb_true_iff, !Z.leb_le, !Z.ltb_lt. lia. Qed.

Lemma table_check_spec l : table_check l = true -> disjoint_regions l.
Proof.
  induction l as [|x l IH]; [intros _ i j r r' a Hi; by rewrite lookup_nil in Hi|]. cbn. rewrite andb_true_iff, forallb_forall. intros [Hx Hl].
  assert (Hap : forall i r, l !! i = Some r -> apart x r = true) by (intros i r Hi; apply Hx, list_elem_of_In; by eapply list_elem_of_lookup_2).
  intros [|i] [|j] r r' a Hi Hj Hr Hr'; cbn in Hi, Hj; simplify_eq; [done|..].
  - destruct (apart_spec r r' a); eauto.
  - destruct (apart_spec r' r a); eauto.
  - f_equal. by eapply IH.
Qed.

Lemma scan_spec l addr i j : scan l addr i = Some j <->
  exists r, (i <= j)%nat /\ l !! (j - i)%nat = Some r /\ contains r addr = true /\ (forall k r', (k < j - i)%nat -> l !! k = Some r' -> contains r' addr = false).
Proof.
  revert i j. induction l as [|x l IH]; intros i j; cbn [scan].
  { split; [done|]. intros (r & _ & Hr & _). by rewrite lookup_nil in Hr. }
  destruct (contains x addr) eqn:Hx.
  - split.
    + intros [= ->]. exists x. rewrite Nat.sub_diag. repeat split; [done..|]. intros k r' Hk. lia.
    + intros (r & Hij & Hr & Hc & Hfirst). destruct (decide (i = j)) as [->|Hne]; [done|].
      specialize (Hfirst 0%nat x ltac:(lia) eq_refl). congruence.
  - rewrite IH. split.
    + intros (r & Hij & Hr & Hc & Hfirst). exists r. replace (j - i)%nat with (S (j - S i)) by lia. repeat split; [lia|done|done|].
      intros [|k] r' Hk Hl; [by injection Hl as <-|]. apply (Hfirst k); [lia|done].
    + intros (r & Hij & Hr & Hc & Hfirst). destruct (decide (i = j)) as [->|Hne].
      { rewrite Nat.sub_diag in Hr. injection Hr as <-. congruence. }
      replace (j - i)%nat with (S (j - S i)) in * by lia. exists r. repeat split; [lia|done|done|].
      intros k r' Hk Hl. apply (Hfirst (S k)); [lia|done].
Qed.

Lemma region_of_hit l i r addr : disjoint_regions l -> l !! i = Some r -> contains r addr = true -> region_of l addr = Some i.
Proof.
  intros Hd Hi Hc. apply scan_spec. exists r. rewrite Nat.sub_0_r. repeat split; [lia|done|done|].
  intros k r' Hk Hr'. destruct (contains r' addr) eqn:E; [|done]. specialize (Hd i k r r' addr Hi Hr' Hc E). lia.
Qed.

Lemma find_region_slow_spec b addr : disjoint_regions (regions b) -> find_region_slow b addr = region_of (regions b) addr.
Proof.
  intros Hd. unfold find_region_slow. destruct (hash b !! _) as [i|]; [|done].
  destruct (regions b !! i) as [r|] eqn:Hr; [|done]. destruct (contains r addr) eqn:Hc; [|done]. symmetry. by eapply region_of_hit.
Qed.

Lemma find_region_tlb_spec b addr : disjoint_regions (regions b) ->
  (find_region_tlb addr b).1 = region_of (regions b) addr /\
  exists t, (find_region_tlb addr b).2 = set_tlb t b.
Proof.
  intros Hd. unfold find_region_tlb. rewrite find_region_slow_spec by done.
  assert (Hslow : forall x : option nat, (match x with Some i => (Some i, set_tlb (<[TLB_INDEX addr := i]> (tlb b)) b) | None => (None, b) end).1 = x /\
     exists t, (match x with Some i => (Some i, set_tlb (<[TLB_INDEX addr := i]> (tlb b)) b) | None => (None, b) end).2 = set_tlb t b).
  { intros [i|]; (split; [done|]); [by eexists|]. exists (tlb b). by destruct b. }
  destruct (tlb b !! _) as [i|]; [|apply Hslow].
  destruct (regions b !! i) as [r|] eqn:Hr; [|apply Hslow]. destruct (contains r addr) eqn:Hc; [|apply Hslow].
  cbn. split; [symmetry; by eapply region_of_hit|]. exists (tlb b). by destruct b.
Qed.

(** * A bus without caches *)

(** the same accesses, each with a scan of the table *)
Definition plain_read (ld : mem -> Z -> Z) (cast : Z -> Z) (addr : Z) (b : membus) (t : T) : Z * T :=
  match region_of (regions b) addr ≫= (fun i => regions b !! i) with
  | Some r => match tgt r with
              | Direct m _ => (ld (backing_mem m b) (addr - base r), t)
              | Device d => let (v, t) := dev_read d (addr - base r) t in (cast v, t)
              end
  | None => (0, t)
  end.

Definition plain_write (st : mem -> Z -> Z -> mem) (addr val : Z) (b : membus) (t : T) : membus * T :=
  match region_of (regions b) addr ≫= (fun i => regions b !! i) with
  | Some r => match tgt r with
              | Direct m ro => (if ro then b else set_backing m (st (backing_mem m b) (addr - base r) val) b, t)
              | Device d => (b, dev_write d (addr - base r) val t)
              end
  | None => (b, t)
  end.

(** RAM and flash have been registered, where the short cuts expect them *)
Record bus_wf (b : membus) : Prop := {
  wf_disjoint : disjoint_regions (regions b);
  wf_ram : exists i, regions b !! i = Some (Region MEMBUS_RAM_BASE MEMBUS_RAM_SIZE (Direct InRam false));
  wf_flash : exists i, regions b !! i = Some (Region MEMBUS_FLASH_BASE MEMBUS_FLASH_SIZE (Direct InFlash true));
  wf_ram_ptr : ram_ptr b = Some InRam;
  wf_flash_ptr : flash_ptr b = Some InFlash;
}.

Lemma region_at b i r addr : bus_wf b -> regions b !! i = Some r -> contains r addr = true ->
  region_of (regions b) addr ≫= (fun i => regions b !! i) = Some r.
Proof. intros [Hd _ _ _ _] Hi Hc. by rewrite (region_of_hit _ _ _ _ Hd Hi Hc). Qed.

Lemma short_cut bs sz addr x : 0 <= addr < 2 ^ 32 -> 0 <= bs -> 0 < sz -> bs + sz < 2 ^ 32 ->
  (addr -w bs <? sz) = contains (Region bs sz x) addr.
Proof.
  intros Ha Hb Hs Hlt. unfold contains. cbn [base size]. rewrite (u32_small (bs + sz)) by lia.
  destruct (Z.leb_spec bs addr) as [Hle|Hgt]; cbn [andb].
  - rewrite u32_small by lia. destruct (Z.ltb_spec (addr - bs) sz), (Z.ltb_spec addr (bs + sz)); lia.
  - apply Z.ltb_ge. replace (addr - bs) with (addr - bs + 2 ^ 32 + -1 * 2 ^ 32) by lia. unfold u32. rewrite Z.mod_add, Z.mod_small by lia. lia.
Qed.

Lemma set_tlb_id b : set_tlb (tlb b) b = b.
Proof. by destruct b. Qed.

(** what the lookup of an access returns *)
Lemma lookup_region b addr : bus_wf b -> exists t,
  (let (i, b) := find_region_tlb addr b in (i ≫= (fun i => regions b !! i), b)) =
  (region_of (regions b) addr ≫= (fun i => regions b !! i), set_tlb t b).
Proof.
  intros [Hd _ _ _ _]. destruct (find_region_tlb_spec b addr Hd) as [H1 [t H2]]. exists t.
  destruct (find_region_tlb addr b) as [i b']. cbn in H1, H2. by subst.
Qed.

Lemma membus_read_plain ld cast addr b t : bus_wf b -> 0 <= addr < 2 ^ 32 -> exists x,
  membus_read ld cast addr b t = ((plain_read ld cast addr b t).1, set_tlb x b, (plain_read ld cast addr b t).2).
Proof.
  intros Hb Ha. destruct (lookup_region b addr Hb) as [x Hx]. destruct (wf_ram _ Hb) as [ri Hr], (wf_flash _ Hb) as [fi Hf].
  unfold membus_read, plain_read. rewrite (wf_ram_ptr _ Hb), (wf_flash_ptr _ Hb), (short_cut _ _ _ (Direct InRam false)), (short_cut _ _ _ (Direct InFlash true)) by done.
  destruct (find_region_tlb addr b) as [i b']. injection Hx as Hi ->. cbn [regions set_tlb] in *.
  destruct (contains _ addr) eqn:Hram; [rewrite (region_at _ _ _ _ Hb Hr Hram); exists (tlb b); by rewrite set_tlb_id|].
  destruct (contains (Region MEMBUS_FLASH_BASE _ _) addr) eqn:Hfl; [rewrite (region_at _ _ _ _ Hb Hf Hfl); exists (tlb b); by rewrite set_tlb_id|].
  rewrite Hi. exists x. destruct (region_of _ _ ≫= _) as [r|]; [|done]. destruct (tgt r) as [m ro|d]; [by destruct m|]. by destruct (dev_read d _ t).
Qed.

Lemma membus_write_plain st addr val b t : bus_wf b -> 0 <= addr < 2 ^ 32 -> exists x,
  membus_write st addr val b t = (set_tlb x (plain_write st addr val b t).1, (plain_write st addr val b t).2).
Proof.
  intros Hb Ha. destruct (lookup_region b addr Hb) as [x Hx]. destruct (wf_ram _ Hb) as [ri Hr].
  unfold membus_write, plain_write. rewrite (wf_ram_ptr _ Hb), (short_cut _ _ _ (Direct InRam false)) by done.
  destruct (find_region_tlb addr b) as [i b']. injection Hx as Hi ->. cbn [regions set_tlb] in *.
  destruct (contains _ addr) eqn:Hram; [rewrite (region_at _ _ _ _ Hb Hr Hram); by exists (tlb b)|].
  rewrite Hi. exists x. destruct (region_of _ _ ≫= _) as [r|]; [|done]. destruct (tgt r) as [m ro|d]; [|done]. destruct ro; [done|]. by destruct m.
Qed.

(** Registering sets the pointers of the short cuts: the two calls of
    [stm32f411_init] on a fresh bus make one that is [bus_wf], and a device
    registered later leaves the pointers. *)
Lemma registered_wf :
  bus_wf (membus_register_ram MEMBUS_RAM_BASE MEMBUS_RAM_SIZE InRam false (membus_register_ram MEMBUS_FLASH_BASE MEMBUS_FLASH_SIZE InFlash true membus_init)).
Proof. split; [by apply table_check_spec|by exists 1%nat|by exists 0%nat|done|done]. Qed.

Lemma register_ptrs bs sz d b : flash_ptr (membus_register bs sz d b) = flash_ptr b /\ ram_ptr (membus_register bs sz d b) = ram_ptr b.
Proof. unfold membus_register. by destruct (_ <=? _)%nat. Qed.

(** C40. The hash, the TLB and the short cuts for RAM and flash are invisible:
    on a bus whose regions do not overlap and on which RAM and flash have been
    registered, a read or a write of any width at
    any address returns and does what a scan of the table of regions would,
    and changes nothing else of the bus than the TLB. *)
Theorem membus_caches_invisible ld cast st addr val b t : bus_wf b -> 0 <= addr < 2 ^ 32 ->
  (exists x, membus_read ld cast addr b t = ((plain_read ld cast addr b t).1, set_tlb x b, (plain_read ld cast addr b t).2)) /\
  (exists x, membus_write st addr val b t = (set_tlb x (plain_write st addr val b t).1, (plain_write st addr val b t).2)).
Proof. intros Hb Ha. split; [by apply membus_read_plain|by apply membus_write_plain]. Qed.
End bus.
