(* ===== verification/NorFlash.v ===== *)
(** NOR flash: what its cells do, and what a flash driver promises
    ([rtos/include/drivers/flash.h]).

    The cells are a function from addresses to bytes.  Programming can only
    clear bits; erasing sets the bytes of whole sectors to 0xFF.  [FlashDriver]
    is [struct flash_driver_api] and [FlashDriverSpec] what its clients may
    rely on; the file system of [RtosFs] is verified against it, and
    [RtosFlash] implements it. *)

From stdpp Require Import list.
From Stdlib Require Import ZArith Lia.
From S2P Require Import Prelude Checked.

Definition SECTOR : Z := 4096.

(** the cells after [l] was programmed at [off] *)
Definition programmed (f : Z -> Z) (off : Z) (l : list Z) (a : Z) : Z :=
  if (off <=? a) && (a <? off + Z.of_nat (length l)) then f a .& default 0 (l !! Z.to_nat (a - off)) else f a.

(** the cells after [n] bytes from [off] on were erased *)
Definition erased (f : Z -> Z) (off n : Z) (a : Z) : Z := if (off <=? a) && (a <? off + n) then 0xFF else f a.

Definition bytes (l : list Z) : Prop := Forall (fun x => 0 <= x < 256) l.

Class FlashDriver (D : Type) := {
  flash_read : Z -> nat -> C D (Z * list Z);
  flash_write : Z -> list Z -> C D Z;
  flash_erase : Z -> Z -> C D Z;
}.

Class FlashDriverSpec D `{FlashDriver D} := {
  flash_size : Z;
  (** the device can be used, and these are its cells *)
  holds : (Z -> Z) -> D -> Prop;
  holds_byte f d a : holds f d -> 0 <= f a < 256;
  holds_ext f g d : holds f d -> (forall a, g a = f a) -> holds g d;
  flash_read_spec f d off n : holds f d -> 0 <= off < flash_size -> off + Z.of_nat n <= flash_size ->
    cok (flash_read off n) d (fun r d' => r = (0, map f (seqZ off (Z.of_nat n))) /\ holds f d');
  flash_write_spec f d off l : holds f d -> bytes l -> 0 <= off -> off + Z.of_nat (length l) <= flash_size ->
    cok (flash_write off l) d (fun r d' => r = 0 /\ holds (programmed f off l) d');
  flash_erase_spec f d off n : holds f d -> off mod SECTOR = 0 -> 0 <= off -> 0 <= n -> off + SECTOR * n <= flash_size ->
    cok (flash_erase off (SECTOR * n)) d (fun r d' => r = 0 /\ holds (erased f off (SECTOR * n)) d');
}.

(** * Lemmas on cells *)

Lemma programmed_ext f g off l a : (forall a, g a = f a) -> programmed g off l a = programmed f off l a.
Proof. intros H. unfold programmed. by rewrite H. Qed.

Lemma programmed_shift f g off off' l a a' : f a = g a' -> a - off = a' - off' -> programmed f off l a = programmed g off' l a'.
Proof.
  intros Hf Ha. unfold programmed. rewrite Hf, Ha. replace (off <=? a) with (off' <=? a') by (destruct (Z.leb_spec off' a'), (Z.leb_spec off a); lia).
  replace (a <? off + Z.of_nat (length l)) with (a' <? off' + Z.of_nat (length l)) by (destruct (Z.ltb_spec a' (off' + Z.of_nat (length l))), (Z.ltb_spec a (off + Z.of_nat (length l))); lia). done.
Qed.

Lemma programmed_nil f off a : programmed f off [] a = f a.
Proof. unfold programmed. cbn [length Z.of_nat]. rewrite Z.add_0_r. destruct (Z.leb_spec off a), (Z.ltb_spec a off); cbn [andb]; (done || lia). Qed.

(** in two pieces *)
Lemma programmed_app f off l l' a : programmed (programmed f off l) (off + Z.of_nat (length l)) l' a = programmed f off (l ++ l') a.
Proof.
  unfold programmed. rewrite length_app.
  destruct (Z.leb_spec (off + Z.of_nat (length l)) a), (Z.ltb_spec a (off + Z.of_nat (length l) + Z.of_nat (length l'))),
    (Z.leb_spec off a), (Z.ltb_spec a (off + Z.of_nat (length l))), (Z.ltb_spec a (off + Z.of_nat (length l + length l'))); cbn [andb]; try lia; try done.
  all: try (by rewrite lookup_app_l by lia).
  rewrite lookup_app_r by lia. replace (Z.to_nat (a - off) - length l)%nat with (Z.to_nat (a - (off + Z.of_nat (length l)))) by lia. done.
Qed.

(** programming gives bytes *)
Lemma programmed_byte f off l a : (forall a, 0 <= f a < 256) -> bytes l -> 0 <= programmed f off l a < 256.
Proof.
  intros Hc Hl. unfold programmed. case_match; [|apply Hc]. destruct (l !! _) as [x|] eqn:E; cbn; [|rewrite Z.land_0_r; lia].
  pose proof (Forall_lookup_1 _ _ _ _ Hl E) as Hx. cbn in Hx. pose proof (Hc a).
  replace (f a) with (f a .& (2 ^ 8 - 1)) by (rewrite land_ones_mod, Z.mod_small by lia; done).
  rewrite <- Z.land_assoc, (Z.land_comm (2 ^ 8 - 1)), Z.land_assoc, land_ones_mod by lia. apply Z.mod_pos_bound. lia.
Qed.

Lemma erased_ext f g off n a : (forall a, g a = f a) -> erased g off n a = erased f off n a.
Proof. intros H. unfold erased. by rewrite H. Qed.

Lemma erased_none f off a : erased f off 0 a = f a.
Proof. unfold erased. destruct (Z.leb_spec off a), (Z.ltb_spec a (off + 0)); cbn [andb]; (done || lia). Qed.

Lemma erased_app f off n n' a : 0 <= n -> 0 <= n' -> erased (erased f off n) (off + n) n' a = erased f off (n + n') a.
Proof.
  intros Hn Hn'. unfold erased. destruct (Z.leb_spec (off + n) a), (Z.ltb_spec a (off + n + n')), (Z.leb_spec off a), (Z.ltb_spec a (off + n)), (Z.ltb_spec a (off + (n + n'))); cbn [andb]; (done || lia).
Qed.

(** an erased byte takes what is programmed *)
Lemma programmed_erased f off l a : bytes l -> off <= a < off + Z.of_nat (length l) -> f a = 0xFF ->
  Some (programmed f off l a) = l !! Z.to_nat (a - off).
Proof.
  intros Hl Ha Hf. unfold programmed. rewrite (proj2 (Z.leb_le _ _)), (proj2 (Z.ltb_lt _ _)), Hf by lia. cbn [andb].
  destruct (lookup_lt_is_Some_2 l (Z.to_nat (a - off))) as [x Hx]; [lia|]. rewrite Hx. cbn [default from_option id].
  pose proof (Forall_lookup_1 _ _ _ _ Hl Hx) as Hb. cbn in Hb. f_equal. rewrite Z.land_comm. change 0xFF with (2 ^ 8 - 1). rewrite land_ones_mod, Z.mod_small by lia. done.
Qed.

Lemma programmed_out f off l a : ~ off <= a < off + Z.of_nat (length l) -> programmed f off l a = f a.
Proof. intros Ha. unfold programmed. destruct (Z.leb_spec off a), (Z.ltb_spec a (off + Z.of_nat (length l))); cbn [andb]; (done || lia). Qed.

Lemma erased_out f off n a : ~ off <= a < off + n -> erased f off n a = f a.
Proof. intros Ha. unfold erased. destruct (Z.leb_spec off a), (Z.ltb_spec a (off + n)); cbn [andb]; (done || lia). Qed.

Lemma erased_in f off n a : off <= a < off + n -> erased f off n a = 0xFF.
Proof. intros Ha. unfold erased. by rewrite (proj2 (Z.leb_le _ _)), (proj2 (Z.ltb_lt _ _)) by lia. Qed.

(** * Sequences of operations *)

Inductive flash_op := Read (off : Z) (n : nat) | Write (off : Z) (l : list Z) | Erase (off n : Z).

(** what an ideal flash answers, and its cells afterwards *)
Definition ideal_op (f : Z -> Z) (op : flash_op) : list Z * (Z -> Z) :=
  match op with
  | Read off n => (map f (seqZ off (Z.of_nat n)), f)
  | Write off l => ([], programmed f off l)
  | Erase off n => ([], erased f off (SECTOR * n))
  end.

Fixpoint ideal_ops (f : Z -> Z) (ops : list flash_op) : list (list Z) * (Z -> Z) :=
  match ops with
  | [] => ([], f)
  | op :: ops => let (r, f) := ideal_op f op in let (rs, f) := ideal_ops f ops in (r :: rs, f)
  end.

Section ops.
Context {D : Type} `{FlashDriverSpec D}.

Definition in_bounds (op : flash_op) : Prop :=
  match op with
  | Read off n => 0 <= off < flash_size /\ off + Z.of_nat n <= flash_size
  | Write off l => bytes l /\ 0 <= off /\ off + Z.of_nat (length l) <= flash_size
  | Erase off n => off mod SECTOR = 0 /\ 0 <= off /\ 0 <= n /\ off + SECTOR * n <= flash_size
  end.

Definition run_op (op : flash_op) : C D (list Z) :=
  match op with
  | Read off n => r ← flash_read off n; mret r.2
  | Write off l => flash_write off l ;; mret []
  | Erase off n => flash_erase off (SECTOR * n) ;; mret []
  end.

Fixpoint run_ops (ops : list flash_op) : C D (list (list Z)) :=
  match ops with [] => mret [] | op :: ops => r ← run_op op; rs ← run_ops ops; mret (r :: rs) end.

Lemma run_op_spec f d op : holds f d -> in_bounds op -> cok (run_op op) d (fun r d' => r = (ideal_op f op).1 /\ holds (ideal_op f op).2 d').
Proof.
  intros Hd Hop. destruct op as [off n|off l|off n]; cbn [run_op ideal_op in_bounds] in *; apply cok_bind.
  - eapply cok_mono; [apply (flash_read_spec f); [done|apply Hop|apply Hop]|]. intros r d' [-> Hd']. by apply cok_ret.
  - eapply cok_mono; [apply (flash_write_spec f); [done|apply Hop..]|]. intros r d' [_ Hd']. by apply cok_ret.
  - eapply cok_mono; [apply (flash_erase_spec f); [done|apply Hop..]|]. intros r d' [_ Hd']. by apply cok_ret.
Qed.

Lemma run_ops_spec f d ops : holds f d -> Forall in_bounds ops -> cok (run_ops ops) d (fun rs d' => rs = (ideal_ops f ops).1 /\ holds (ideal_ops f ops).2 d').
Proof.
  revert f d. induction ops as [|op ops IH]; intros f d Hd Hops; [by apply cok_ret|]. apply Forall_cons in Hops as [Hop Hops].
  cbn [run_ops ideal_ops]. apply cok_bind. eapply cok_mono; [by apply (run_op_spec f)|]. intros r d1 [-> Hd1]. cbn beta.
  apply cok_bind. destruct (ideal_op f op) as [r f1]. cbn [fst snd] in *. eapply cok_mono; [by apply (IH f1)|]. intros rs d2 [-> Hd2].
  apply cok_ret. by destruct (ideal_ops f1 ops).
Qed.
End ops.
