(* ===== verification/SimBoard.v ===== *)
(** The part of the simulated gameboy-v2 board that the flash driver talks to:
    the W25Q128 chip ([sim/src/devices/w25q128.c]), the SPI bus
    ([core/spi_bus.c]), the SPI controller and the GPIO ports of the STM32
    ([hw/stm32/stm32_spi.c], [stm32_gpio.c]), its clock registers and the main
    loop ([soc/stm32f411.c]), wired as in [machine/gameboy_v2.c].

    The chip is a state machine that is given one byte at a time while it is
    selected; it is the device of the only slave on the bus of SPI3, and pin 0
    of port B is its select line.  [data] is a map in which an absent cell is
    erased (0xFF).  The cycle counter is a number without bound (64 bits are
    enough for 36000 years).  The processor is present as the accesses it
    makes: an instruction takes a cycle, and after it the due events run. *)

From stdpp Require Import gmap list.
From Stdlib Require Import ZArith Lia.
From S2P Require Import Prelude Memory SimEvents SimBus.

(** * The chip *)

Definition W25Q128_SIZE : Z := 16 * 1024 * 1024.
Definition W25Q128_PAGE_SIZE : Z := 256.
Definition W25Q128_SECTOR_SIZE : Z := 4096.
Definition W25Q128_ID : list Z := [0xEF; 0x40; 0x18].
Definition W25Q_STATUS_BUSY : Z := 1.
Definition W25Q_STATUS_WEL : Z := 2.

Inductive w25q_state :=
  | W25Q_IDLE | W25Q_READ_ADDR | W25Q_READ_DATA | W25Q_FAST_READ_ADDR | W25Q_FAST_READ_DUMMY | W25Q_FAST_READ_DATA
  | W25Q_PROGRAM_ADDR | W25Q_PROGRAM_DATA | W25Q_ERASE_ADDR | W25Q_JEDEC_ID | W25Q_READ_STATUS.

#[export] Instance w25q_state_eq_dec : EqDecision w25q_state.
Proof. solve_decision. Defined.

Record w25q128 := Chip {
  data : gmap Z Z; state : w25q_state; addr : Z; addr_bytes : Z; status : Z; cmd : Z; jedec_idx : Z;
  page_buf : list Z; page_addr : Z; page_len : Z; busy_until : Z;
}.

Definition set_data v d := Chip v (state d) (addr d) (addr_bytes d) (status d) (cmd d) (jedec_idx d) (page_buf d) (page_addr d) (page_len d) (busy_until d).
Definition set_state v d := Chip (data d) v (addr d) (addr_bytes d) (status d) (cmd d) (jedec_idx d) (page_buf d) (page_addr d) (page_len d) (busy_until d).
Definition set_addr a n d := Chip (data d) (state d) a n (status d) (cmd d) (jedec_idx d) (page_buf d) (page_addr d) (page_len d) (busy_until d).
Definition set_status v d := Chip (data d) (state d) (addr d) (addr_bytes d) v (cmd d) (jedec_idx d) (page_buf d) (page_addr d) (page_len d) (busy_until d).
Definition set_cmd v d := Chip (data d) (state d) (addr d) (addr_bytes d) (status d) v (jedec_idx d) (page_buf d) (page_addr d) (page_len d) (busy_until d).
Definition set_jedec v d := Chip (data d) (state d) (addr d) (addr_bytes d) (status d) (cmd d) v (page_buf d) (page_addr d) (page_len d) (busy_until d).
Definition set_page buf a n d := Chip (data d) (state d) (addr d) (addr_bytes d) (status d) (cmd d) (jedec_idx d) buf a n (busy_until d).
Definition set_busy v d := Chip (data d) (state d) (addr d) (addr_bytes d) (status d) (cmd d) (jedec_idx d) (page_buf d) (page_addr d) (page_len d) v.

(** the byte of a cell *)
Definition cell (m : gmap Z Z) (a : Z) : Z := default 0xFF (m !! a).

Definition w25q128_init : w25q128 := Chip ∅ W25Q_IDLE 0 0 0 0 0 (replicate (Z.to_nat W25Q128_PAGE_SIZE) 0) 0 0 0.

(** the cells from [a] on with the bytes of the file *)
Fixpoint load_bytes (l : list Z) (a : Z) (m : gmap Z Z) : gmap Z Z :=
  match l with [] => m | x :: l => load_bytes l (a + 1) (<[a := x]> m) end.

(** [file] is the contents of the file, or [None] when it cannot be opened *)
Definition w25q128_load (file : option (list Z)) (d : w25q128) : Z * w25q128 :=
  match file with
  | None => (-1, d)
  | Some l => let l := take (Z.to_nat W25Q128_SIZE) l in (Z.of_nat (length l), set_data (load_bytes l 0 (data d)) d)
  end.

(** [cc] is the cycle counter, when there is one *)
Definition is_busy (cc : option Z) (d : w25q128) : bool * w25q128 :=
  if status d .& W25Q_STATUS_BUSY =? 0 then (false, d)
  else match cc with
       | Some c => if busy_until d <=? c then (false, set_status (Z.land (status d) (Z.lnot W25Q_STATUS_BUSY)) d) else (true, d)
       | None => (true, d)
       end.

(** the end of both commits: the write latch falls and the chip is busy *)
Definition start_busy (cc : option Z) (cycles : Z) (d : w25q128) : w25q128 :=
  let d := set_status (Z.land (status d) (Z.lnot W25Q_STATUS_WEL)) d in
  let d := match cc with Some c => set_busy (c + cycles) d | None => d end in
  set_status (status d .| W25Q_STATUS_BUSY) d.

Definition program_byte (d : w25q128) (i : Z) (m : gmap Z Z) : gmap Z Z :=
  let base := page_addr d .& (.~ (W25Q128_PAGE_SIZE - 1)) in
  let offset := page_addr d .& (W25Q128_PAGE_SIZE - 1) in
  let a := base +w ((offset +w i) .& (W25Q128_PAGE_SIZE - 1)) in
  if a <? W25Q128_SIZE then <[a := cell m a .& default 0 (page_buf d !! Z.to_nat i)]> m else m.

Definition commit_page_program (cc : option Z) (d : w25q128) : w25q128 :=
  if page_len d =? 0 then d
  else
    let d := set_data (for_loop (Z.to_nat (page_len d)) 0 (program_byte d) (data d)) d in
    let d := start_busy cc 11200 d in
    set_page (page_buf d) (page_addr d) 0 d.

Definition commit_sector_erase (cc : option Z) (d : w25q128) : w25q128 :=
  let base := addr d .& (.~ (W25Q128_SECTOR_SIZE - 1)) in
  let d := if base +w W25Q128_SECTOR_SIZE <=? W25Q128_SIZE
           then set_data (for_loop (Z.to_nat W25Q128_SECTOR_SIZE) base (fun a m => <[a := 0xFF]> m) (data d)) d else d in
  start_busy cc 720000 d.

Definition w25q128_cs_deassert (cc : option Z) (d : w25q128) : w25q128 :=
  let d := if decide (state d = W25Q_PROGRAM_DATA) then commit_page_program cc d else d in
  set_state W25Q_IDLE d.

(** the first byte after the chip was selected *)
Definition w25q128_command (byte : Z) (d : w25q128) : w25q128 :=
  let d := set_addr 0 0 (set_cmd byte d) in
  let wel := negb (status d .& W25Q_STATUS_WEL =? 0) in
  if byte =? 0x9F then set_jedec 0 (set_state W25Q_JEDEC_ID d)
  else if byte =? 0x05 then set_state W25Q_READ_STATUS d
  else if byte =? 0x06 then set_status (status d .| W25Q_STATUS_WEL) d
  else if byte =? 0x04 then set_status (Z.land (status d) (Z.lnot W25Q_STATUS_WEL)) d
  else if byte =? 0x03 then set_state W25Q_READ_ADDR d
  else if byte =? 0x0B then set_state W25Q_FAST_READ_ADDR d
  else if byte =? 0x02 then (if wel then set_state W25Q_PROGRAM_ADDR d else d)
  else if byte =? 0x20 then (if wel then set_state W25Q_ERASE_ADDR d else d)
  else d.

(** a byte of the address; [next] is what follows the third *)
Definition address_byte (byte : Z) (next : w25q128 -> w25q128) (d : w25q128) : w25q128 :=
  let d := set_addr ((addr d .<< 8) .| byte) (addr_bytes d + 1) d in
  if addr_bytes d =? 3 then next d else d.

Definition read_cell (d : w25q128) : Z * w25q128 :=
  (if addr d <? W25Q128_SIZE then cell (data d) (addr d) else 0xFF, set_addr (addr d +w 1) (addr_bytes d) d).

Definition w25q128_transfer (cc : option Z) (d : w25q128) (byte : Z) : Z * w25q128 :=
  let (busy, d) := is_busy cc d in
  if busy && negb (bool_decide (state d = W25Q_READ_STATUS)) then
    if bool_decide (state d = W25Q_IDLE) && (byte =? 0x05) then (0xFF, set_state W25Q_READ_STATUS d) else (0xFF, d)
  else
    match state d with
    | W25Q_IDLE => (0xFF, w25q128_command byte d)
    | W25Q_JEDEC_ID => (if jedec_idx d <? 3 then default 0 (W25Q128_ID !! Z.to_nat (jedec_idx d)) else 0, set_jedec (jedec_idx d + 1) d)
    | W25Q_READ_STATUS => let (_, d) := is_busy cc d in (status d, d)
    | W25Q_READ_ADDR => (0xFF, address_byte byte (set_state W25Q_READ_DATA) d)
    | W25Q_READ_DATA => read_cell d
    | W25Q_FAST_READ_ADDR => (0xFF, address_byte byte (set_state W25Q_FAST_READ_DUMMY) d)
    | W25Q_FAST_READ_DUMMY => (0xFF, set_state W25Q_FAST_READ_DATA d)
    | W25Q_FAST_READ_DATA => read_cell d
    | W25Q_PROGRAM_ADDR => (0xFF, address_byte byte (fun d => set_page (page_buf d) (addr d) 0 (set_state W25Q_PROGRAM_DATA d)) d)
    | W25Q_PROGRAM_DATA => (0xFF, if page_len d <? W25Q128_PAGE_SIZE then set_page (<[Z.to_nat (page_len d) := byte]> (page_buf d)) (page_addr d) (page_len d + 1) d else d)
    | W25Q_ERASE_ADDR => (0xFF, address_byte byte (fun d => set_state W25Q_IDLE (commit_sector_erase cc d)) d)
    end.

(** * The SPI bus *)

Definition SPI_MAX_SLAVES : nat := 4.

Section spi_bus.
Context {D : Type} (transfer : D -> Z -> Z * D).

Record spi_slave := Slave { dev : D; cs_active : bool }.

Definition spi_bus_attach (d : D) (bus : list spi_slave) : Z * list spi_slave :=
  if (SPI_MAX_SLAVES <=? length bus)%nat then (-1, bus) else (Z.of_nat (length bus), bus ++ [Slave d false]).

(** every selected slave gets the byte; the answer is that of the last one *)
Fixpoint spi_bus_transfer (byte ret : Z) (bus : list spi_slave) : Z * list spi_slave :=
  match bus with
  | [] => (ret, [])
  | sl :: bus =>
      let (ret, sl) := if cs_active sl then let (r, d) := transfer (dev sl) byte in (r, Slave d true) else (ret, sl) in
      let (ret, bus) := spi_bus_transfer byte ret bus in
      (ret, sl :: bus)
  end.
End spi_bus.
Arguments spi_slave : clear implicits.

(** * The SPI controller *)

Definition SR_RXNE : Z := 1.
Definition SR_TXE : Z := 2.
Definition SR_BSY : Z := 128.
Definition I2S_CYCLES_PER_SAMPLE : Z := 16000000 / 22050.

(** the callbacks of the event queue *)
Inductive callback := spi_txe | i2s_txe | systick_event | chardev_flush.

(** the flags that a request sets in a DMA stream and its controller *)
Record dma_request := DmaReq { request_pending : bool; any_active : bool; any_pending : bool }.

Record stm32_spi := Spi {
  cr1 : Z; cr2 : Z; sr : Z; rx_data : Z; slaves : list (spi_slave w25q128);
  spi_cycles_per_byte : Z; spi_cycles_override : bool;
  i2scfgr : Z; i2spr : Z; i2s_mode : bool; dma_tx : option dma_request;
  i2s_cycles_per_sample : Z; i2s_lr : bool; i2s_pending_left : Z; i2s_sink : option (list (Z * Z));
}.

Definition set_cr1 v s := Spi v (cr2 s) (sr s) (rx_data s) (slaves s) (spi_cycles_per_byte s) (spi_cycles_override s) (i2scfgr s) (i2spr s) (i2s_mode s) (dma_tx s) (i2s_cycles_per_sample s) (i2s_lr s) (i2s_pending_left s) (i2s_sink s).
Definition set_cr2 v s := Spi (cr1 s) v (sr s) (rx_data s) (slaves s) (spi_cycles_per_byte s) (spi_cycles_override s) (i2scfgr s) (i2spr s) (i2s_mode s) (dma_tx s) (i2s_cycles_per_sample s) (i2s_lr s) (i2s_pending_left s) (i2s_sink s).
Definition set_sr v s := Spi (cr1 s) (cr2 s) v (rx_data s) (slaves s) (spi_cycles_per_byte s) (spi_cycles_override s) (i2scfgr s) (i2spr s) (i2s_mode s) (dma_tx s) (i2s_cycles_per_sample s) (i2s_lr s) (i2s_pending_left s) (i2s_sink s).
Definition set_bus rx v s := Spi (cr1 s) (cr2 s) (sr s) rx v (spi_cycles_per_byte s) (spi_cycles_override s) (i2scfgr s) (i2spr s) (i2s_mode s) (dma_tx s) (i2s_cycles_per_sample s) (i2s_lr s) (i2s_pending_left s) (i2s_sink s).
Definition set_baud v s := Spi (cr1 s) (cr2 s) (sr s) (rx_data s) (slaves s) v (spi_cycles_override s) (i2scfgr s) (i2spr s) (i2s_mode s) (dma_tx s) (i2s_cycles_per_sample s) (i2s_lr s) (i2s_pending_left s) (i2s_sink s).
Definition set_dma v s := Spi (cr1 s) (cr2 s) (sr s) (rx_data s) (slaves s) (spi_cycles_per_byte s) (spi_cycles_override s) (i2scfgr s) (i2spr s) (i2s_mode s) v (i2s_cycles_per_sample s) (i2s_lr s) (i2s_pending_left s) (i2s_sink s).
Definition set_i2s cfg mode lr left sink s := Spi (cr1 s) (cr2 s) (sr s) (rx_data s) (slaves s) (spi_cycles_per_byte s) (spi_cycles_override s) cfg (i2spr s) mode (dma_tx s) (i2s_cycles_per_sample s) lr left sink.
Definition set_i2spr v c s := Spi (cr1 s) (cr2 s) (sr s) (rx_data s) (slaves s) (spi_cycles_per_byte s) (spi_cycles_override s) (i2scfgr s) v (i2s_mode s) (dma_tx s) c (i2s_lr s) (i2s_pending_left s) (i2s_sink s).

Definition s16 (x : Z) : Z := let y := u16 x in if y <? 2 ^ 15 then y else y - 2 ^ 16.

Definition spi_compute_baud (s : stm32_spi) : stm32_spi :=
  if spi_cycles_override s then s
  else let br := (cr1 s .>> 3) .& 7 in set_baud (8 * (2 .<< br)) s.

Definition stm32_spi_init : stm32_spi := Spi 0 0 SR_TXE 0 [] 16 false 0 0 false None I2S_CYCLES_PER_SAMPLE false 0 None.

Definition stm32_spi_read (offset : Z) (s : stm32_spi) : Z * stm32_spi :=
  if offset =? 0x00 then (cr1 s, s)
  else if offset =? 0x04 then (cr2 s, s)
  else if offset =? 0x08 then (sr s, s)
  else if offset =? 0x0C then (rx_data s, set_sr (Z.land (sr s) (Z.lnot SR_RXNE)) s)
  else if offset =? 0x1C then (i2scfgr s, s)
  else if offset =? 0x20 then (i2spr s, s)
  else (0, s).

Definition kick_dma (s : stm32_spi) : stm32_spi :=
  if negb (cr2 s .& 2 =? 0) && bool_decide (is_Some (dma_tx s)) then set_dma (Some (DmaReq true true true)) s else s.

Definition spi_txe_callback (s : stm32_spi) : stm32_spi :=
  let s := set_sr (sr s .| SR_TXE) s in
  let s := set_sr (Z.land (sr s) (Z.lnot SR_BSY)) s in
  kick_dma s.

Definition i2s_txe_callback (s : stm32_spi) : stm32_spi := kick_dma (set_sr (sr s .| SR_TXE) s).

(** a write to DR in I2S mode: left and right samples in turn *)
Definition i2s_write_dr (now val : Z) (s : stm32_spi) (q : event_queue callback) : stm32_spi * event_queue callback :=
  if negb (i2s_lr s) then
    let s := set_i2s (i2scfgr s) (i2s_mode s) true (s16 val) (i2s_sink s) s in
    (kick_dma (set_sr (sr s .| SR_TXE) s), q)
  else
    let sink := (fun l => l ++ [(i2s_pending_left s, s16 val)]) <$> i2s_sink s in
    let s := set_i2s (i2scfgr s) (i2s_mode s) false (i2s_pending_left s) sink s in
    let s := set_sr (Z.land (sr s) (Z.lnot SR_TXE)) s in
    (s, event_schedule EVT_SPI2_TXE (now + i2s_cycles_per_sample s) i2s_txe q).

(** a write to DR in SPI mode: the byte is exchanged, TXE comes back later *)
Definition spi_write_dr (now val : Z) (s : stm32_spi) (q : event_queue callback) : stm32_spi * event_queue callback :=
  let (rx, sl) := spi_bus_transfer (w25q128_transfer (Some now)) (u8 val) 0 (slaves s) in
  let s := set_bus rx sl s in
  let s := set_sr (sr s .| SR_RXNE) s in
  let s := set_sr (Z.land (sr s) (Z.lnot (SR_TXE .| SR_BSY))) s in
  let s := set_sr (sr s .| SR_BSY) s in
  (s, event_schedule EVT_SPI2_TXE (now + spi_cycles_per_byte s) spi_txe q).

Definition stm32_spi_write (now offset val : Z) (s : stm32_spi) (q : event_queue callback) : stm32_spi * event_queue callback :=
  if offset =? 0x00 then (spi_compute_baud (set_cr1 val s), q)
  else if offset =? 0x04 then
    let s := set_cr2 val s in
    (if negb (val .& 2 =? 0) && negb (sr s .& SR_TXE =? 0) then kick_dma s else s, q)
  else if offset =? 0x0C then
    if i2s_mode s then i2s_write_dr now val s q else spi_write_dr now val s q
  else if offset =? 0x1C then
    let mode := negb (val .& 2 ^ 11 =? 0) in
    let s := set_i2s val mode (if mode then false else i2s_lr s) (i2s_pending_left s) (i2s_sink s) s in
    (if mode then set_sr (sr s .| SR_TXE) s else s, q)
  else if offset =? 0x20 then (set_i2spr val I2S_CYCLES_PER_SAMPLE s, q)
  else (s, q).

(** * GPIO ports *)

Record stm32_gpio := Gpio { odr : Z; idr : Z }.

Definition stm32_gpio_read (offset : Z) (g : stm32_gpio) : Z :=
  if offset =? 0x10 then idr g else if offset =? 0x14 then odr g else 0.

Section gpio.
Context {T : Type} (get : T -> stm32_gpio) (set : stm32_gpio -> T -> T).
(** [out i level]: the handler of the output pin [i], if there is one *)
Context (out : Z -> bool -> T -> T).

Definition set_odr (v : Z) (t : T) : T := set (Gpio v (idr (get t))) t.

Definition odr_bit (i val : Z) (t : T) : T :=
  let new_bit := Z.testbit val i in
  if eqb new_bit (Z.testbit (odr (get t)) i) then t else out i new_bit t.

Definition bsrr_bit (val i : Z) (t : T) : T :=
  let t := if Z.testbit val i then
             let t := if negb (Z.testbit (odr (get t)) i) then out i true t else t in
             set_odr (odr (get t) .| (1 .<< i)) t
           else t in
  if Z.testbit val (i + 16) then
    let t := if Z.testbit (odr (get t)) i then out i false t else t in
    set_odr (odr (get t) .& (.~ (1 .<< i))) t
  else t.

Definition stm32_gpio_write (offset val : Z) (t : T) : T :=
  if offset =? 0x14 then set_odr val (for_loop 16 0 (fun i => odr_bit i val) t)
  else if offset =? 0x18 then for_loop 16 0 (bsrr_bit val) t
  else t.

(** [change] is the handler of the input pin *)
Definition stm32_gpio_set_input (change : bool -> T -> T) (pin : Z) (level : bool) (t : T) : T :=
  let old := Z.testbit (idr (get t)) pin in
  let t := set (Gpio (odr (get t)) (if level then idr (get t) .| (1 .<< pin) else idr (get t) .& (.~ (1 .<< pin)))) t in
  if eqb level old then t else change level t.
End gpio.

(** * The board *)

Record rcc_state := Rcc { rcc_cr : Z; ahb1enr : Z; apb1enr : Z; apb2enr : Z }.

Definition rcc_read (offset : Z) (r : rcc_state) : Z :=
  if offset =? 0x00 then rcc_cr r else if offset =? 0x30 then ahb1enr r
  else if offset =? 0x40 then apb1enr r else if offset =? 0x44 then apb2enr r else 0.

Definition rcc_write (offset val : Z) (r : rcc_state) : rcc_state :=
  if offset =? 0x00 then
    let cr := if negb (val .& 2 ^ 24 =? 0) then val .| 2 ^ 25 else val in
    let cr := if negb (val .& 2 ^ 26 =? 0) then cr .| 2 ^ 27 else cr in
    Rcc cr (ahb1enr r) (apb1enr r) (apb2enr r)
  else if offset =? 0x30 then Rcc (rcc_cr r) (ahb1enr r .| val) (apb1enr r) (apb2enr r)
  else if offset =? 0x40 then Rcc (rcc_cr r) (ahb1enr r) (apb1enr r .| val) (apb2enr r)
  else if offset =? 0x44 then Rcc (rcc_cr r) (ahb1enr r) (apb1enr r) (apb2enr r .| val)
  else r.

(** [spi3] is [spis[2]]; [csr] and [rvr] are the registers of SysTick *)
Record board := Board {
  cycle_count : Z; queue : event_queue callback; spi3 : stm32_spi;
  gpioa : stm32_gpio; gpiob : stm32_gpio; gpioc : stm32_gpio; rcc : rcc_state; csr : Z; rvr : Z;
}.

Definition set_cycle v b := Board v (queue b) (spi3 b) (gpioa b) (gpiob b) (gpioc b) (rcc b) (csr b) (rvr b).
Definition set_evq v b := Board (cycle_count b) v (spi3 b) (gpioa b) (gpiob b) (gpioc b) (rcc b) (csr b) (rvr b).
Definition set_spi3 v b := Board (cycle_count b) (queue b) v (gpioa b) (gpiob b) (gpioc b) (rcc b) (csr b) (rvr b).
Definition set_gpioa v b := Board (cycle_count b) (queue b) (spi3 b) v (gpiob b) (gpioc b) (rcc b) (csr b) (rvr b).
Definition set_gpiob v b := Board (cycle_count b) (queue b) (spi3 b) (gpioa b) v (gpioc b) (rcc b) (csr b) (rvr b).
Definition set_gpioc v b := Board (cycle_count b) (queue b) (spi3 b) (gpioa b) (gpiob b) v (rcc b) (csr b) (rvr b).
Definition set_rcc v b := Board (cycle_count b) (queue b) (spi3 b) (gpioa b) (gpiob b) (gpioc b) v (csr b) (rvr b).

(** the select line of the flash: low is selected *)
Definition w25q128_cs_handler (level : bool) (b : board) : board :=
  let s := spi3 b in
  let select sl := Slave (if level then w25q128_cs_deassert (Some (cycle_count b)) (dev sl) else dev sl) (negb level) in
  set_spi3 (set_bus (rx_data s) (alter select 0%nat (slaves s)) s) b.

(** the end of a configuration of the FPGA raises CDONE *)
Definition fpga_ss_handler (level : bool) (b : board) : board :=
  if level then stm32_gpio_set_input gpiob set_gpiob (fun _ b => b) 2 true b else b.

(** the handlers of the pins of port B *)
Definition gpiob_out (i : Z) (level : bool) (b : board) : board :=
  if i =? 0 then w25q128_cs_handler level b else if i =? 6 then fpga_ss_handler level b else b.

Inductive device := SPI3 | GPIOA | GPIOB | GPIOC | RCC.

Definition dev_read (d : device) (offset : Z) (b : board) : Z * board :=
  match d with
  | SPI3 => let (v, s) := stm32_spi_read offset (spi3 b) in (v, set_spi3 s b)
  | GPIOA => (stm32_gpio_read offset (gpioa b), b)
  | GPIOB => (stm32_gpio_read offset (gpiob b), b)
  | GPIOC => (stm32_gpio_read offset (gpioc b), b)
  | RCC => (rcc_read offset (rcc b), b)
  end.

Definition dev_write (d : device) (offset val : Z) (b : board) : board :=
  match d with
  | SPI3 => let (s, q) := stm32_spi_write (cycle_count b) offset val (spi3 b) (queue b) in set_evq q (set_spi3 s b)
  | GPIOA => stm32_gpio_write gpioa set_gpioa (fun _ _ b => b) offset val b
  | GPIOB => stm32_gpio_write gpiob set_gpiob gpiob_out offset val b
  | GPIOC => stm32_gpio_write gpioc set_gpioc (fun _ _ b => b) offset val b
  | RCC => set_rcc (rcc_write offset val (rcc b)) b
  end.

(** ** Events *)

Definition systick_event_cb (b : board) : board :=
  if negb (csr b .& 1 =? 0) && (0 <? rvr b) then set_evq (event_schedule EVT_SYSTICK (cycle_count b + rvr b) systick_event (queue b)) b else b.

Definition chardev_flush_cb (b : board) : board := set_evq (event_schedule EVT_IO_POLL (cycle_count b + 10000) chardev_flush (queue b)) b.

#[export] Instance board_events : EventOwner callback board := {
  get_queue := queue;
  set_queue := set_evq;
  call k b := match k with
              | spi_txe => set_spi3 (spi_txe_callback (spi3 b)) b
              | i2s_txe => set_spi3 (i2s_txe_callback (spi3 b)) b
              | systick_event => systick_event_cb b
              | chardev_flush => chardev_flush_cb b
              end;
  event_ids := [EVT_SYSTICK; EVT_SPI2_TXE; EVT_IO_POLL];
  call_id k := match k with spi_txe | i2s_txe => EVT_SPI2_TXE | systick_event => EVT_SYSTICK | chardev_flush => EVT_IO_POLL end;
}.

(** the regions of [stm32f411_init] that the driver uses *)
Definition board_bus : membus :=
  membus_register 0x40023800 0x100 RCC $ membus_register 0x40020800 0x400 GPIOC $ membus_register 0x40020400 0x400 GPIOB $
  membus_register 0x40020000 0x400 GPIOA $ membus_register 0x40003C00 0x24 SPI3 $
  membus_register_ram MEMBUS_RAM_BASE MEMBUS_RAM_SIZE InRam false $ membus_register_ram MEMBUS_FLASH_BASE MEMBUS_FLASH_SIZE InFlash true membus_init.

Definition machine : Type := @membus device * board.

(** [gameboy_v2_init]: the flash on SPI3, its select line, the event that flushes the character devices *)
Definition gameboy_v2_init (chardevs : bool) (chip : w25q128) : machine :=
  let s := set_bus 0 (spi_bus_attach chip []).2 stm32_spi_init in
  let b := Board 0 event_queue_init s (Gpio 0 0) (Gpio 0 0) (Gpio 0 0) (Rcc 0 0 0 0) 0 0 in
  let b := stm32_gpio_set_input gpiob set_gpiob (fun _ b => b) 2 false b in
  (board_bus, if chardevs then set_evq (event_schedule EVT_IO_POLL 10000 chardev_flush (queue b)) b else b).

(** ** The main loop *)

Definition poll_events (b : board) : board := event_poll get_queue set_queue call (cycle_count b) b.

(** [stm32f411_tick] with an instruction that makes the access [f] *)
Definition tick {R} (f : machine -> R * machine) (m : machine) : R * machine :=
  let '(r, (bus, b)) := f (m.1, set_cycle (cycle_count m.2 + 1) m.2) in
  (r, (bus, poll_events b)).

(** [n] instructions that leave these devices alone *)
Fixpoint idle (n : nat) (m : machine) : machine :=
  match n with O => m | S n => idle n (tick (fun m => (tt, m)) m).2 end.

Definition load32 (a : Z) (m : machine) : Z * machine :=
  tick (fun m => let '(v, bus, b) := membus_read32 dev_read a m.1 m.2 in (v, (bus, b))) m.

Definition store32 (a v : Z) (m : machine) : machine :=
  (tick (fun m => (tt, membus_write32 dev_write a v m.1 m.2)) m).2.
