(* ===== verification/SimLink.v ===== *)
(** What the simulated board promises to the firmware: the link to the flash
    chip.

    [link d act m]: on the machine [m] the chip is in state [d], selected when
    [act], and SPI3 is in SPI mode, with TXE set or with the event that will
    set it in the queue.  Every access of the firmware is described by its
    effect on the link; time only moves on. *)

From stdpp Require Import gmap list.
From Stdlib Require Import ZArith Lia.
From S2P Require Import Prelude Memory Checked SimEvents SimBus SimBoard.

Definition txe (b : board) : bool := Z.testbit (sr (spi3 b)) 1.
Definition rxne (b : board) : bool := Z.testbit (sr (spi3 b)) 0.

(** what the events leave alone *)
Record same_devices (b b' : board) : Prop := {
  same_cycle : cycle_count b' = cycle_count b;
  same_slaves : slaves (spi3 b') = slaves (spi3 b);
  same_rx : rx_data (spi3 b') = rx_data (spi3 b);
  same_rxne : rxne b' = rxne b;
  same_baud : spi_cycles_per_byte (spi3 b') = spi_cycles_per_byte (spi3 b);
  same_mode : i2s_mode (spi3 b') = i2s_mode (spi3 b);
  same_dma : dma_tx (spi3 b') = None;
  same_gpio : gpiob b' = gpiob b;
}.

Record board_ok (b : board) : Prop := {
  ok_queue : queue_wf event_ids call_id (queue b);
  ok_mode : i2s_mode (spi3 b) = false;
  ok_dma : dma_tx (spi3 b) = None;
  ok_baud : 0 <= spi_cycles_per_byte (spi3 b) <= 2048;
}.

(** TXE is set, or will be by cycle [T] *)
Definition txe_by (T : Z) (b : board) : Prop := txe b = true \/ exists i t, in_use (queue b) i t spi_txe EVT_SPI2_TXE /\ t <= T.

(** * The board as the owner of the event queue *)

Lemma kick_dma_none s : dma_tx s = None -> kick_dma s = s.
Proof. intros H. unfold kick_dma. rewrite H. by rewrite andb_false_r. Qed.

Lemma schedule_own (b : board) j t k : queue_wf event_ids call_id (queue b) -> unused (queue b) j -> j ∈ event_ids -> call_id k = j ->
  let q := event_schedule j t k (queue b) in
  queue_wf event_ids call_id q /\ keeps (queue b) q.
Proof. intros Hq Hu Hj Hk. edestruct (event_schedule_new event_ids call_id (queue b) j t k) as (H1 & H2 & _); [done| |done..|]; [cbn; unfold EVENT_QUEUE_MAX; lia|done]. Qed.

#[export] Instance board_events_spec : EventOwnerSpec callback board.
Proof.
  refine {| owner_wf _ := True |}; [done|done|cbn; unfold EVENT_QUEUE_MAX; lia|].
  intros k b _ Hq Hu. split; [done|]. destruct k; cbn [call call_id board_events] in *; [done..| |].
  - unfold systick_event_cb. case_match; [|done]. apply schedule_own; [done..| |done]. set_solver.
  - apply schedule_own; [done..| |done]. set_solver.
Defined.

Lemma same_devices_refl b : dma_tx (spi3 b) = None -> same_devices b b.
Proof. by split. Qed.

Lemma same_devices_trans b1 b2 b3 : same_devices b1 b2 -> same_devices b2 b3 -> same_devices b1 b3.
Proof. intros [] []. split; congruence. Qed.

Lemma call_same k b : dma_tx (spi3 b) = None -> same_devices b (call k b).
Proof.
  intros Hd. destruct k; cbn [call board_events].
  - unfold spi_txe_callback. rewrite kick_dma_none by done. split; try done. unfold rxne. cbn [spi3 set_spi3 sr set_sr].
    rewrite Z.land_spec, Z.lor_spec. cbn. by rewrite orb_false_r, andb_true_r.
  - unfold i2s_txe_callback. rewrite kick_dma_none by done. split; try done. unfold rxne. cbn [spi3 set_spi3 sr set_sr]. rewrite Z.lor_spec. apply orb_false_r.
  - unfold systick_event_cb. by case_match; split.
  - by split.
Qed.

Lemma call_dma k b : dma_tx (spi3 (call k b)) = None -> dma_tx (spi3 b) = None.
Proof.
  destruct k; cbn [call board_events]; try done; [unfold spi_txe_callback, kick_dma|unfold i2s_txe_callback, kick_dma|unfold systick_event_cb]; by case_match.
Qed.

Lemma txe_sets b : dma_tx (spi3 b) = None -> txe (call spi_txe b) = true.
Proof.
  intros Hd. unfold txe. cbn [call board_events]. unfold spi_txe_callback. rewrite kick_dma_none by done. cbn [spi3 set_spi3 sr set_sr].
  rewrite Z.land_spec, Z.lor_spec. cbn. by rewrite orb_true_r.
Qed.

(** TXE, once set, stays set under events *)
Lemma txe_stays k b : dma_tx (spi3 b) = None -> txe b = true -> txe (call k b) = true.
Proof.
  intros Hd Ht. destruct k; [by apply txe_sets|..]; unfold txe in *; cbn [call board_events].
  - unfold i2s_txe_callback. rewrite kick_dma_none by done. cbn [spi3 set_spi3 sr set_sr]. by rewrite Z.lor_spec, Ht.
  - unfold systick_event_cb. by case_match.
  - done.
Qed.

Lemma poll_same b : dma_tx (spi3 b) = None -> same_devices b (poll_events b).
Proof.
  intros Hd. unfold poll_events. apply (event_poll_inv (same_devices b)); [|by intros q s1 []; split|by apply same_devices_refl].
  intros k s1 Hs. eapply same_devices_trans; [exact Hs|]. apply call_same, Hs.
Qed.

(** The events of a cycle keep the link, and TXE is set when its time has come. *)
Lemma poll_ok T b : board_ok b -> txe_by T b ->
  board_ok (poll_events b) /\ same_devices b (poll_events b) /\ txe_by T (poll_events b) /\ (T <= cycle_count b -> txe (poll_events b) = true).
Proof.
  intros [Hq Hm Hd Hb] Ht. pose proof (poll_same b Hd) as Hsame.
  assert (Hr : ready b) by (by split).
  assert (Htxe : txe_by T (poll_events b) /\ (T <= cycle_count b -> txe (poll_events b) = true)).
  { destruct Ht as [Ht|(i & t & Hi & Ht)].
    - assert (Hp : txe (poll_events b) = true); [|by split; [left|]].
      apply (event_poll_inv (fun b' => dma_tx (spi3 b') = None /\ txe b' = true)); [|done|done]. intros k s1 [H1 H2]. split; [apply call_same, H1|by apply txe_stays].
    - pose proof (event_poll_spec (cycle_count b) b i t spi_txe (fun b' => dma_tx (spi3 b') = None -> txe b' = true) Hr Hi) as Hp.
      specialize (Hp (fun s1 H1 => txe_sets s1 (call_dma spi_txe s1 H1)) (fun k' s1 H1 H2 => txe_stays k' s1 (call_dma k' s1 H2) (H1 (call_dma k' s1 H2))) (fun _ _ H1 => H1)).
      destruct (decide (t <= cycle_count b)).
      + assert (Hp' : txe (poll_events b) = true) by (apply Hp, Hsame). by split; [left|].
      + split; [right; by exists i, t|lia]. }
  split; [|split; [done|exact Htxe]]. destruct Hsame. split; [apply (event_poll_ready (cycle_count b) b Hr)|congruence|done|congruence].
Qed.

(** * The link *)

Record wired (d : w25q128) (act lvl : bool) (m : machine) : Prop := {
  wired_bus : bus_wf m.1;
  wired_regions : regions m.1 = regions board_bus;
  wired_board : board_ok m.2;
  wired_slaves : slaves (spi3 m.2) = [Slave d act];
  wired_cs : Z.testbit (odr (gpiob m.2)) 0 = lvl;
}.

Definition now (m : machine) : Z := cycle_count m.2.

(** the rest of a tick, after the access *)
Lemma wired_poll T d act lvl bus b : wired d act lvl (bus, b) -> txe_by T b ->
  wired d act lvl (bus, poll_events b) /\ txe_by T (poll_events b) /\ (T <= cycle_count b -> txe (poll_events b) = true) /\
  same_devices b (poll_events b).
Proof.
  intros [H1 H2 H3 H4 H5] Ht. destruct (poll_ok T b H3 Ht) as (Hb & Hs & Ht' & Hnow). split; [|done].
  destruct Hs. split; cbn in *; congruence.
Qed.

(** the clock of the next instruction *)
Lemma wired_cycle d act lvl bus b c : wired d act lvl (bus, b) -> wired d act lvl (bus, set_cycle c b).
Proof. by intros [H1 H2 [] H4 H5]; split. Qed.

Lemma wired_tlb d act lvl bus b x : wired d act lvl (bus, b) -> wired d act lvl (set_tlb x bus, b).
Proof. intros [[] H2 H3 H4 H5]. by split; [split|..]. Qed.

Lemma txe_by_cycle T c b : txe_by T b -> txe_by T (set_cycle c b).
Proof. done. Qed.

(** what an instruction that does not touch SPI3 keeps *)
Record later (m m' : machine) : Prop := {
  later_now : now m <= now m';
  later_rx : rx_data (spi3 m'.2) = rx_data (spi3 m.2);
  later_rxne : rxne m'.2 = rxne m.2;
  later_txe : txe m.2 = true -> txe m'.2 = true;
  later_by T : txe_by T m.2 -> txe_by T m'.2;
}.

#[export] Instance later_preorder : PreOrder later.
Proof. split; [by intros m; split|]. intros m1 m2 m3 [] []. split; [lia|congruence|congruence|auto|auto]. Qed.

Lemma wired_step d act lvl bus b : wired d act lvl (bus, b) -> (exists T, txe_by T b) ->
  wired d act lvl (bus, poll_events b) /\ later (bus, b) (bus, poll_events b) /\ forall T, txe_by T b -> T <= cycle_count b -> txe (poll_events b) = true.
Proof.
  intros Hl [T0 HT0]. pose proof (wired_poll T0 d act lvl bus b Hl HT0) as (Hl' & _ & _ & Hs). split; [done|].
  assert (Hall : forall T, txe_by T b -> txe_by T (poll_events b) /\ (T <= cycle_count b -> txe (poll_events b) = true)).
  { intros T HT. by destruct (wired_poll T d act lvl bus b Hl HT) as (_ & ? & ? & _). }
  destruct Hs. split; [split; cbn|].
  - unfold now. cbn. lia.
  - done.
  - done.
  - intros Ht. apply (Hall (cycle_count b)); [by left|done].
  - intros T HT. by apply Hall.
  - intros T HT Hc. by apply (Hall T).
Qed.

Lemma wired_idle n d act lvl m : wired d act lvl m -> (exists T, txe_by T m.2) -> wired d act lvl (idle n m) /\ later m (idle n m) /\ (exists T, txe_by T (idle n m).2).
Proof.
  revert m. induction n as [|n IH]; intros m Hl Ht; [done|]. destruct m as [bus b]. cbn [idle tick fst snd].
  destruct (wired_step d act lvl bus (set_cycle (cycle_count b + 1) b)) as (Hl' & Hlat & _); [by apply wired_cycle|done|].
  destruct Ht as [T HT]. assert (HT' : txe_by T (poll_events (set_cycle (cycle_count b + 1) b))) by by apply (later_by _ _ Hlat).
  destruct (IH (bus, poll_events (set_cycle (cycle_count b + 1) b))) as (H1 & H2 & H3); [done|by exists T|]. split; [done|]. split; [|done].
  etrans; [|exact H2]. etrans; [|exact Hlat]. split; try done. unfold now. cbn. lia.
Qed.

(** with the deadline of TXE; [lvl] is the level of the select line *)
Definition up (d : w25q128) (act lvl : bool) (m : machine) : Prop := wired d act lvl m /\ exists T, txe_by T m.2 /\ T <= now m + 2048.
Definition link (d : w25q128) (act : bool) (m : machine) : Prop := up d act (negb act) m.

Lemma up_later d act lvl m m' : up d act lvl m -> later m m' -> wired d act lvl m' -> up d act lvl m'.
Proof. intros [_ (T & HT & Hn)] Hlat Hw. split; [done|]. exists T. split; [by apply Hlat|]. destruct Hlat. lia. Qed.

Lemma up_idle n d act lvl m : up d act lvl m -> up d act lvl (idle n m) /\ later m (idle n m).
Proof.
  intros Hl. destruct Hl as [Hw (T & HT & Hn)]. destruct (wired_idle n d act lvl m) as (H1 & H2 & _); [done|by exists T|].
  split; [|done]. eapply up_later; [|done|done]. split; [done|]. by exists T.
Qed.

(** * Accesses *)

(** the device of an address *)
Definition decode (a : Z) : option mem_region := region_of (regions board_bus) a ≫= (fun i => regions board_bus !! i).

Lemma bus_load d act lvl bus b a bs sz dv : wired d act lvl (bus, b) -> 0 <= a < 2 ^ 32 -> decode a = Some (Region bs sz (Device dv)) ->
  exists x, membus_read32 dev_read a bus b = (u32 (dev_read dv (a - bs) b).1, set_tlb x bus, (dev_read dv (a - bs) b).2).
Proof.
  intros Hw Ha Hd. destruct (membus_read_plain dev_read ld32 u32 a bus b (wired_bus _ _ _ _ Hw) Ha) as [x Hx]. exists x.
  unfold membus_read32. rewrite Hx. unfold plain_read. pose proof (wired_regions _ _ _ _ Hw) as Hr. cbn [fst] in Hr. rewrite Hr. fold (decode a). rewrite Hd. cbn.
  by destruct (dev_read dv (a - bs) b).
Qed.

Lemma bus_store d act lvl bus b a v bs sz dv : wired d act lvl (bus, b) -> 0 <= a < 2 ^ 32 -> decode a = Some (Region bs sz (Device dv)) ->
  exists x, membus_write32 dev_write a v bus b = (set_tlb x bus, dev_write dv (a - bs) v b).
Proof.
  intros Hw Ha Hd. destruct (membus_write_plain dev_write st32 a v bus b (wired_bus _ _ _ _ Hw) Ha) as [x Hx]. exists x.
  unfold membus_write32. rewrite Hx. unfold plain_write. pose proof (wired_regions _ _ _ _ Hw) as Hr. cbn [fst] in Hr. rewrite Hr. fold (decode a). by rewrite Hd.
Qed.

(** reading the status register *)
Lemma load_sr d act lvl m : up d act lvl m ->
  let (v, m') := load32 0x40003C08 m in
  up d act lvl m' /\ later m m' /\ now m' = now m + 1 /\ Z.testbit v 1 = txe m.2 /\ Z.testbit v 0 = rxne m.2 /\
  (forall T, txe_by T m.2 -> T <= now m' -> txe m'.2 = true).
Proof.
  destruct m as [bus b]. intros Hl. destruct Hl as [Hw (T & HT & Hn)]. unfold load32, tick. cbn [fst snd].
  set (b1 := set_cycle (cycle_count b + 1) b). assert (Hw1 : wired d act lvl (bus, b1)) by by apply wired_cycle.
  destruct (bus_load d act lvl bus b1 0x40003C08 0x40003C00 0x24 SPI3) as [x ->]; [done|done|by vm_compute|].
  change (dev_read SPI3 (0x40003C08 - 0x40003C00) b1) with (sr (spi3 b1), set_spi3 (spi3 b1) b1). cbn [fst snd].
  replace (set_spi3 (spi3 b1) b1) with b1 by by destruct b1.
  destruct (wired_step d act lvl (set_tlb x bus) b1) as (Hw' & Hlat & Ht); [by apply wired_tlb|by exists T|].
  assert (Hlat' : later (bus, b) (set_tlb x bus, poll_events b1)).
  { etrans; [|exact Hlat]. split; try done. unfold now. cbn. lia. }
  assert (Hc : cycle_count (poll_events b1) = cycle_count b1) by apply poll_same, Hw.
  split; [|split; [done|]]; [|split; [|split; [|split]]].
  - eapply up_later; [|exact Hlat'|done]. split; [done|]. by exists T.
  - unfold now. cbn [snd]. rewrite Hc. done.
  - unfold u32. by rewrite Z.mod_pow2_bits_low by lia.
  - unfold u32. by rewrite Z.mod_pow2_bits_low by lia.
  - intros T' HT' Hle. apply (Ht T'); [done|]. unfold now in Hle. cbn [snd] in Hle. by rewrite Hc in Hle.
Qed.

(** the end of a tick whose access left the link in this state *)
Lemma tick_end T d act lvl bus b : wired d act lvl (bus, b) -> txe_by T b -> T <= cycle_count b + 2048 ->
  let m := (bus, poll_events b) in
  up d act lvl m /\ now m = cycle_count b /\ rx_data (spi3 m.2) = rx_data (spi3 b) /\ rxne m.2 = rxne b.
Proof.
  intros Hw HT Hn. destruct (wired_step d act lvl bus b) as (Hw' & Hlat & _); [done|by exists T|].
  destruct (poll_same b) as [Hc _ Hrx Hrxne _ _ _ _]; [apply Hw|]. cbn zeta.
  split; [split; [done|]|done]. exists T. split; [by apply Hlat|]. unfold now. cbn [snd]. lia.
Qed.

(** reading the data register *)
Lemma load_dr d act lvl m : up d act lvl m ->
  let (v, m') := load32 0x40003C0C m in up d act lvl m' /\ now m' = now m + 1 /\ v = u32 (rx_data (spi3 m.2)).
Proof.
  destruct m as [bus b]. intros Hl. destruct Hl as [Hw (T & HT & Hn)]. unfold load32, tick. cbn [fst snd].
  set (b1 := set_cycle (cycle_count b + 1) b). assert (Hw1 : wired d act lvl (bus, b1)) by by apply wired_cycle.
  destruct (bus_load d act lvl bus b1 0x40003C0C 0x40003C00 0x24 SPI3) as [x ->]; [done|done|by vm_compute|].
  change (dev_read SPI3 (0x40003C0C - 0x40003C00) b1) with (rx_data (spi3 b1), set_spi3 (set_sr (Z.land (sr (spi3 b1)) (Z.lnot SR_RXNE)) (spi3 b1)) b1). cbn [fst snd].
  set (b2 := set_spi3 _ b1).
  assert (Htxe : txe b2 = txe b1) by (unfold txe, b2; cbn [spi3 set_spi3 sr set_sr]; rewrite Z.land_spec; apply andb_true_r).
  assert (Hw2 : wired d act lvl (set_tlb x bus, b2)) by (apply wired_tlb; destruct Hw1 as [? ? [] ? ?]; by repeat (split; try done)).
  destruct (tick_end T d act lvl (set_tlb x bus) b2) as (H1 & H2 & _); [done| |unfold now in Hn; cbn in Hn |- *; lia|done].
  unfold txe_by in *. rewrite Htxe. exact HT.
Qed.

(** writing the data register: the selected chip gets the byte, in this cycle *)
Lemma store_dr d m byte : link d true m -> 0 <= byte < 256 ->
  let m' := store32 0x40003C0C byte m in
  let c := now m + 1 in
  let (r, d') := w25q128_transfer (Some c) d byte in
  link d' true m' /\ now m' = c /\ rx_data (spi3 m'.2) = r /\ rxne m'.2 = true.
Proof.
  destruct m as [bus b]. intros Hl Hbyte. destruct Hl as [Hw (T & HT & Hn)]. unfold store32, tick. cbn [fst snd].
  set (b1 := set_cycle (cycle_count b + 1) b). assert (Hw1 : wired d true false (bus, b1)) by by apply wired_cycle.
  destruct (bus_store d true false bus b1 0x40003C0C byte 0x40003C00 0x24 SPI3) as [x ->]; [done|done|by vm_compute|].
  pose proof (wired_slaves _ _ _ _ Hw1) as Hsl. pose proof (wired_board _ _ _ _ Hw1) as [Hq Hm Hd Hb]. cbn [snd] in *.
  change (now (bus, b) + 1) with (cycle_count b1).
  destruct (w25q128_transfer (Some (cycle_count b1)) d byte) as [r d'] eqn:Etr.
  assert (E : dev_write SPI3 (0x40003C0C - 0x40003C00) byte b1 =
     set_evq (event_schedule EVT_SPI2_TXE (cycle_count b1 + spi_cycles_per_byte (spi3 b1)) spi_txe (queue b1))
       (set_spi3 (set_sr (Z.land (sr (spi3 b1) .| SR_RXNE) (Z.lnot (SR_TXE .| SR_BSY)) .| SR_BSY) (set_bus r [Slave d' true] (spi3 b1))) b1)).
  { unfold dev_write, stm32_spi_write. cbn [Z.sub Z.eqb]. change (0x40003C0C - 0x40003C00) with 0x0C. cbn [Z.eqb Pos.eqb].
    rewrite Hm. unfold spi_write_dr. rewrite Hsl, u8_small by lia. cbn [spi_bus_transfer cs_active dev]. rewrite Etr. done. }
  rewrite E. set (b2 := set_evq _ _).
  destruct (event_schedule_ok event_ids call_id (queue b1) EVT_SPI2_TXE (cycle_count b1 + spi_cycles_per_byte (spi3 b1)) spi_txe) as (Hq' & i & Hi); [done|cbn; unfold EVENT_QUEUE_MAX; lia|set_solver|done|].
  assert (Hw2 : wired d' true false (set_tlb x bus, b2)) by (apply wired_tlb; destruct Hw1; by repeat (split; try done)).
  destruct (tick_end (cycle_count b1 + spi_cycles_per_byte (spi3 b1)) d' true false (set_tlb x bus) b2) as (H1 & H2 & H3 & H4); [done| |change (cycle_count b2) with (cycle_count b1); lia|].
  - right. by exists i, (cycle_count b1 + spi_cycles_per_byte (spi3 b1)).
  - split; [exact H1|]. split; [done|]. split; [done|]. etrans; [exact H4|]. unfold rxne, b2. cbn [spi3 set_evq set_spi3 sr set_sr].
    rewrite !Z.lor_spec, Z.land_spec, Z.lor_spec. cbn. by rewrite orb_true_r.
Qed.

(** * The select line *)

Lemma for_loop_skip {S} n i (body : Z -> S -> S) s : (forall j t, i <= j < i + Z.of_nat n -> body j t = t) -> for_loop n i body s = s.
Proof. revert i. induction n as [|n IH]; intros i H; [done|]. cbn [for_loop]. rewrite (H i s) by lia. apply IH. intros j t Hj. apply H. lia. Qed.

(** a BSRR write that concerns pin 0 only *)
Lemma bsrr_pin0 val b : 0 <= val -> (forall j, 1 <= j < 16 -> Z.testbit val j = false /\ Z.testbit val (j + 16) = false) ->
  dev_write GPIOB 0x18 val b = bsrr_bit gpiob set_gpiob gpiob_out val 0 b.
Proof.
  intros Hv H. unfold dev_write, stm32_gpio_write. cbn [Z.eqb Pos.eqb].
  set (f := bsrr_bit gpiob set_gpiob gpiob_out val).
  transitivity (for_loop 15 1 f (f 0 b)); [reflexivity|]. unshelve eapply (for_loop_skip 15 1 f).
  intros j t Hj. destruct (H j) as [H1 H2]; [lia|]. unfold f, bsrr_bit. by rewrite H1, H2.
Qed.

(** resetting and setting pin 0 of port B *)
Lemma bsrr_select b : Z.testbit (odr (gpiob b)) 0 = true -> exists v, Z.testbit v 0 = false /\
  dev_write GPIOB 0x18 (2 ^ 16) b = set_gpiob (Gpio v (idr (gpiob b))) (w25q128_cs_handler false b).
Proof.
  intros H0. exists (odr (gpiob b) .& (.~ (1 .<< 0))). split; [rewrite Z.land_spec; replace (Z.testbit (.~ (1 .<< 0)) 0) with false by (by vm_compute); apply andb_false_r|].
  rewrite bsrr_pin0; [|done|intros j Hj; rewrite !Z.pow2_bits_eqb by lia; split; apply Z.eqb_neq; lia].
  unfold bsrr_bit. replace (Z.testbit (2 ^ 16) 0) with false by done. replace (Z.testbit (2 ^ 16) (0 + 16)) with true by done.
  cbv zeta iota. rewrite H0. done.
Qed.

Lemma bsrr_release b : Z.testbit (odr (gpiob b)) 0 = false -> exists v, Z.testbit v 0 = true /\
  dev_write GPIOB 0x18 1 b = set_gpiob (Gpio v (idr (gpiob b))) (w25q128_cs_handler true b).
Proof.
  intros H0. exists (odr (gpiob b) .| (1 .<< 0)). split; [rewrite Z.lor_spec; replace (Z.testbit (1 .<< 0) 0) with true by (by vm_compute); apply orb_true_r|].
  rewrite bsrr_pin0; [|done|intros j Hj; split; change 1 with (2 ^ 0); rewrite Z.pow2_bits_eqb by lia; apply Z.eqb_neq; lia].
  unfold bsrr_bit. replace (Z.testbit 1 0) with true by done. replace (Z.testbit 1 (0 + 16)) with false by done.
  cbv zeta iota. rewrite H0. done.
Qed.

Lemma store_select d m : link d false m -> let m' := store32 0x40020418 (2 ^ 16) m in link d true m' /\ now m' = now m + 1.
Proof.
  destruct m as [bus b]. intros Hl. destruct Hl as [Hw (T & HT & Hn)]. unfold store32, tick. cbn [fst snd].
  set (b1 := set_cycle (cycle_count b + 1) b). assert (Hw1 : wired d false true (bus, b1)) by by apply wired_cycle.
  destruct (bus_store d false true bus b1 0x40020418 (2 ^ 16) 0x40020400 0x400 GPIOB) as [x ->]; [done|done|by vm_compute|]. change (0x40020418 - 0x40020400) with 0x18.
  destruct (bsrr_select b1) as (v & Hv & ->); [apply Hw1|]. set (b2 := set_gpiob _ _).
  assert (Hw2 : wired d true false (set_tlb x bus, b2)).
  { apply wired_tlb. destruct Hw1 as [? ? [] Hsl ?]. split; try done. cbn in Hsl |- *. by rewrite Hsl. }
  destruct (tick_end T d true false (set_tlb x bus) b2) as (H1 & H2 & _); [done|done|unfold now in Hn; cbn in Hn |- *; lia|done].
Qed.

Lemma store_release d act m : up d act false m -> let m' := store32 0x40020418 1 m in
  link (w25q128_cs_deassert (Some (now m + 1)) d) false m' /\ now m' = now m + 1.
Proof.
  destruct m as [bus b]. intros Hl. destruct Hl as [Hw (T & HT & Hn)]. unfold store32, tick. cbn [fst snd].
  set (b1 := set_cycle (cycle_count b + 1) b). assert (Hw1 : wired d act false (bus, b1)) by by apply wired_cycle.
  destruct (bus_store d act false bus b1 0x40020418 1 0x40020400 0x400 GPIOB) as [x ->]; [done|done|by vm_compute|]. change (0x40020418 - 0x40020400) with 0x18.
  destruct (bsrr_release b1) as (v & Hv & ->); [apply Hw1|]. set (b2 := set_gpiob _ _).
  assert (Hw2 : wired (w25q128_cs_deassert (Some (cycle_count b + 1)) d) false true (set_tlb x bus, b2)).
  { apply wired_tlb. destruct Hw1 as [? ? [] Hsl ?]. split; try done. cbn in Hsl |- *. by rewrite Hsl. }
  destruct (tick_end T (w25q128_cs_deassert (Some (cycle_count b + 1)) d) false true (set_tlb x bus) b2) as (H1 & H2 & _); [done|done|unfold now in Hn; cbn in Hn |- *; lia|done].
Qed.

(** * Set-up *)

(** reading a register of another device *)
Lemma load_quiet d act lvl m a bs sz dv : up d act lvl m -> 0 <= a < 2 ^ 32 -> decode a = Some (Region bs sz (Device dv)) -> (forall b, (dev_read dv (a - bs) b).2 = b) ->
  up d act lvl (load32 a m).2.
Proof.
  destruct m as [bus b]. intros [Hw (T & HT & Hn)] Ha Hd Hdv. unfold load32, tick. cbn [fst snd].
  set (b1 := set_cycle (cycle_count b + 1) b). assert (Hw1 : wired d act lvl (bus, b1)) by by apply wired_cycle.
  destruct (bus_load d act lvl bus b1 a bs sz dv) as [x ->]; [done..|]. cbn [fst snd].
  rewrite Hdv.
  destruct (tick_end T d act lvl (set_tlb x bus) b1) as [H1 _]; [by apply wired_tlb|done|unfold now in Hn; cbn in Hn |- *; lia|done].
Qed.

(** a write that leaves the ports and SPI3 as they are *)
Lemma store_quiet d act lvl m a v bs sz dv : up d act lvl m -> 0 <= a < 2 ^ 32 -> decode a = Some (Region bs sz (Device dv)) ->
  (forall b, spi3 (dev_write dv (a - bs) v b) = spi3 b /\ gpiob (dev_write dv (a - bs) v b) = gpiob b /\
     queue (dev_write dv (a - bs) v b) = queue b /\ cycle_count (dev_write dv (a - bs) v b) = cycle_count b) ->
  up d act lvl (store32 a v m).
Proof.
  destruct m as [bus b]. intros [Hw (T & HT & Hn)] Ha Hd Hdv. unfold store32, tick. cbn [fst snd].
  set (b1 := set_cycle (cycle_count b + 1) b). assert (Hw1 : wired d act lvl (bus, b1)) by by apply wired_cycle.
  destruct (bus_store d act lvl bus b1 a v bs sz dv) as [x ->]; [done..|]. destruct (Hdv b1) as (H1 & H2 & H3 & H4).
  set (b2 := dev_write _ _ _ _) in *.
  assert (Hw2 : wired d act lvl (set_tlb x bus, b2)).
  { apply wired_tlb. destruct Hw1 as [? ? [? ? ? ?] ? ?]. split; try done; cbn [snd] in *; [split| |]; congruence. }
  destruct (tick_end T d act lvl (set_tlb x bus) b2) as [Hu _]; [done| |rewrite H4; unfold now in Hn; cbn in Hn |- *; lia|done].
  unfold txe_by, txe in *. rewrite H1, H3. exact HT.
Qed.

(** the control register sets the rate *)
Lemma store_cr1 d act lvl m v : up d act lvl m -> up d act lvl (store32 0x40003C00 v m).
Proof.
  destruct m as [bus b]. intros [Hw (T & HT & Hn)]. unfold store32, tick. cbn [fst snd].
  set (b1 := set_cycle (cycle_count b + 1) b). assert (Hw1 : wired d act lvl (bus, b1)) by by apply wired_cycle.
  destruct (bus_store d act lvl bus b1 0x40003C00 v 0x40003C00 0x24 SPI3) as [x ->]; [done|done|by vm_compute|].
  change (dev_write SPI3 (0x40003C00 - 0x40003C00) v b1) with (set_evq (queue b1) (set_spi3 (spi_compute_baud (set_cr1 v (spi3 b1))) b1)).
  set (b2 := set_evq _ _).
  assert (Hw2 : wired d act lvl (set_tlb x bus, b2)).
  { apply wired_tlb. destruct Hw1 as [? ? [? ? ? Hb] ? ?]. unfold b2, spi_compute_baud. cbn [spi_cycles_override set_cr1].
    case_match; split; try done. split; try done. cbn [spi3 set_evq set_spi3 set_baud spi_cycles_per_byte snd cr1 set_cr1].
    pose proof (Z.mod_pos_bound (v .>> 3) 8 ltac:(lia)) as Hr. change 7 with (2 ^ 3 - 1). rewrite land_ones_mod by lia.
    change (2 ^ 3) with 8. set (br := (v .>> 3) mod 8) in *. assert (Hbr : br ∈ [0;1;2;3;4;5;6;7]) by (repeat (rewrite elem_of_cons); lia).
    clearbody br. clear -Hbr. repeat (apply elem_of_cons in Hbr as [-> |Hbr]; [vm_compute; done|]). by apply elem_of_nil in Hbr. }
  destruct (tick_end T d act lvl (set_tlb x bus) b2) as [Hu _]; [done| |unfold now in Hn; cbn in Hn |- *; lia|done].
  unfold txe_by, txe, b2, spi_compute_baud in *. cbn [spi_cycles_override set_cr1] in *. by case_match.
Qed.

(** the machine after reset: the select line is low, and nobody saw it fall *)
Lemma gameboy_v2_up chardevs chip : up chip false false (gameboy_v2_init chardevs chip).
Proof.
  assert (Hdis : disjoint_regions (regions board_bus)) by (apply table_check_spec; by vm_compute).
  split; [split|].
  - split; [done|by exists 1%nat|by exists 0%nat|done|done].
  - done.
  - split; [|by destruct chardevs..].
    destruct chardevs; [|apply queue_wf_init]. cbn [gameboy_v2_init snd queue set_evq].
    apply event_schedule_ok; [apply queue_wf_init|cbn; unfold EVENT_QUEUE_MAX; lia|set_solver|done].
  - by destruct chardevs.
  - by destruct chardevs.
  - exists 0. split; [left; by destruct chardevs|]. destruct chardevs; cbn; lia.
Qed.
