(* ===== verification/SimChip.v ===== *)
(** What the commands of the W25Q128 do to the simulated chip of [SimBoard]:
    reading, enabling writes, programming a page, erasing a sector and asking
    for the status, each as a sequence of bytes between two edges of the select
    line, at any cycles. *)

From stdpp Require Import gmap list.
From Stdlib Require Import ZArith Lia.
From S2P Require Import Prelude Memory NorFlash SimEvents SimBus SimBoard.

(** the chip gets the bytes [tx] one after another, at cycles after [t0] and up to [t1], and answers [rx] *)
Fixpoint runs (t0 t1 : Z) (d : w25q128) (tx rx : list Z) (d' : w25q128) : Prop :=
  match tx, rx with
  | [], [] => d' = d /\ t0 <= t1
  | x :: tx, r :: rx => exists c, t0 < c <= t1 /\ r = u8 (w25q128_transfer (Some c) d x).1 /\ runs c t1 (w25q128_transfer (Some c) d x).2 tx rx d'
  | _, _ => False
  end.

Lemma runs_weaken t0 t0' t1 t1' d tx rx d' : t0' <= t0 -> t1 <= t1' -> runs t0 t1 d tx rx d' -> runs t0' t1' d tx rx d'.
Proof.
  revert t0 t0' d rx. induction tx as [|x tx IH]; intros t0 t0' d [|r rx] H0 H1; cbn; [intros [-> ?]; split; [done|lia]|done|done|].
  intros (c & Hc & Hr & Hrest). exists c. split; [lia|]. split; [done|]. by eapply IH.
Qed.

Lemma runs_time t0 t1 d tx rx d' : runs t0 t1 d tx rx d' -> t0 <= t1.
Proof.
  revert t0 d rx. induction tx as [|x tx IH]; intros t0 d [|r rx]; cbn; [by intros [_ ?]|done|done|].
  intros (c & Hc & _ & H). apply IH in H. lia.
Qed.

(** * Chips between commands *)

(** not selected, not busy; [dt] are the cells *)
Record resting (dt : gmap Z Z) (d : w25q128) : Prop := {
  rest_state : state d = W25Q_IDLE;
  rest_status : status d = 0 \/ status d = 2;
  rest_page : length (page_buf d) = 256%nat;
  rest_data : data d = dt;
}.

(** every cell is a byte *)
Definition cells_ok (dt : gmap Z Z) : Prop := forall a, 0 <= cell dt a < 256.

(** the address in the three bytes after a command *)
Definition addr_bytes_of (a : Z) : list Z := [(a .>> 16) .& 0xFF; (a .>> 8) .& 0xFF; a .& 0xFF].

Lemma byte_range x : 0 <= x .& 0xFF < 256.
Proof. change 0xFF with (2 ^ 8 - 1). rewrite land_ones_mod by lia. apply Z.mod_pos_bound. lia. Qed.

Lemma addr_bytes_ok a : bytes (addr_bytes_of a).
Proof. repeat constructor; apply byte_range. Qed.

Lemma append_byte x b : 0 <= x -> x * 256 < 2 ^ 32 -> 0 <= b < 256 -> (x .<< 8) .| b = x * 256 + b.
Proof.
  intros Hx Hlt Hb. rewrite (u32_small (Z.shiftl x 8)) by (rewrite Z.shiftl_mul_pow2 by lia; change (2 ^ 8) with 256; lia).
  rewrite Z.lor_comm, lor_shiftl by lia. lia.
Qed.

Lemma address_assembled a : 0 <= a < 2 ^ 24 ->
  (((((0 .<< 8) .| ((a .>> 16) .& 0xFF)) .<< 8) .| ((a .>> 8) .& 0xFF)) .<< 8) .| (a .& 0xFF) = a.
Proof.
  intros Ha. pose proof (byte_range (a .>> 16)) as H1. pose proof (byte_range (a .>> 8)) as H2. pose proof (byte_range a) as H3.
  rewrite (append_byte 0) by lia. rewrite Z.mul_0_l, Z.add_0_l.
  rewrite (append_byte (_ .& _)) by lia. rewrite append_byte by lia.
  change 0xFF with (2 ^ 8 - 1). rewrite !land_ones_mod, !Z.shiftr_div_pow2 by lia.
  change (2 ^ 8) with 256. change (2 ^ 16) with 65536.
  rewrite (Z.mod_small (a / 65536)) by (split; [apply Z.div_pos; lia|apply Z.div_lt_upper_bound; lia]).
  pose proof (Z.div_mod a 256 ltac:(lia)). pose proof (Z.div_mod (a / 256) 256 ltac:(lia)) as Hd. rewrite Z.div_div in Hd by lia. change (256 * 256) with 65536 in Hd. lia.
Qed.

(** * Commands *)

(** a command that is followed by an address: the chip as it waits for what comes next *)
Lemma run_address t0 t1 dt d cmd a rx d' next : resting dt d -> 0 <= a < 2 ^ 24 -> status d = 2 \/ next = W25Q_READ_DATA ->
  (cmd, next) ∈ [(0x03, W25Q_READ_DATA); (0x02, W25Q_PROGRAM_DATA)] ->
  runs t0 t1 d (cmd :: addr_bytes_of a) rx d' ->
  state d' = next /\ addr d' = a /\ status d' = status d /\ data d' = dt /\ page_buf d' = page_buf d /\
  (next = W25Q_PROGRAM_DATA -> page_addr d' = a /\ page_len d' = 0).
Proof.
  intros [Hs Hst Hpb Hdt] Ha Hwel Hcmd Hruns. destruct d as [dt' st ad nb sta cm ji pb pa pl bu]. cbn in Hs, Hst, Hpb, Hdt, Hwel |- *. subst.
  destruct rx as [|r0 [|r1 [|r2 [|r3 [|]]]]]; cbn [runs addr_bytes_of] in Hruns; try (by repeat (destruct Hruns as (? & _ & _ & Hruns))).
  destruct Hruns as (c0 & _ & _ & c1 & _ & _ & c2 & _ & _ & c3 & _ & _ & -> & _).
  rewrite !elem_of_cons in Hcmd. destruct Hcmd as [[= -> ->]|[[= -> ->]|Hcmd%elem_of_nil]]; [..|done].
  - match goal with |- state ?d' = _ /\ _ => assert (E : d' = Chip dt W25Q_READ_DATA (((((0 .<< 8) .| ((a .>> 16) .& 0xFF)) .<< 8 .| ((a .>> 8) .& 0xFF)) .<< 8) .| (a .& 0xFF)) 3 sta 3 ji pb pa pl bu) end.
    { destruct Hst as [-> | ->]; reflexivity. }
    rewrite E, address_assembled by lia. done.
  - destruct Hwel as [-> |]; [|done].
    match goal with |- state ?d' = _ /\ _ => assert (E : d' = let ad := ((((0 .<< 8) .| ((a .>> 16) .& 0xFF)) .<< 8 .| ((a .>> 8) .& 0xFF)) .<< 8) .| (a .& 0xFF) in Chip dt W25Q_PROGRAM_DATA ad 3 2 2 ji pb ad 0 bu) by reflexivity end.
    cbv zeta in E. rewrite E, address_assembled by lia. done.
Qed.

(** reading: the cells from the address on *)
Lemma run_read n t0 t1 dt d rx d' : state d = W25Q_READ_DATA -> status d = 0 \/ status d = 2 -> data d = dt -> cells_ok dt ->
  0 <= addr d -> addr d + Z.of_nat n <= W25Q128_SIZE ->
  runs t0 t1 d (replicate n 0xFF) rx d' ->
  rx = map (cell dt) (seqZ (addr d) (Z.of_nat n)) /\ state d' = W25Q_READ_DATA /\ status d' = status d /\ data d' = dt /\ page_buf d' = page_buf d.
Proof.
  revert t0 d rx. induction n as [|n IH]; intros t0 d rx Hs Hst Hdt Hc Ha Hlen Hruns.
  { destruct rx; [|done]. destruct Hruns as [-> _]. done. }
  destruct rx as [|r rx]; [done|]. cbn [replicate runs] in Hruns. destruct Hruns as (c & _ & Hr & Hruns). rewrite Nat2Z.inj_succ in Hlen |- *.
  assert (E : w25q128_transfer (Some c) d 0xFF = (cell dt (addr d), set_addr (addr d + 1) (addr_bytes d) d)).
  { destruct d as [dt' st ad nb sta cm ji pb pa pl bu]. cbn in Hs, Hst, Hdt, Ha, Hlen. subst.
    assert (E1 : w25q128_transfer (Some c) (Chip dt W25Q_READ_DATA ad nb sta cm ji pb pa pl bu) 0xFF = read_cell (Chip dt W25Q_READ_DATA ad nb sta cm ji pb pa pl bu)) by (destruct Hst as [-> | ->]; reflexivity).
    rewrite E1. unfold read_cell, set_addr. cbn [addr data state addr_bytes status cmd jedec_idx page_buf page_addr page_len busy_until].
    rewrite (proj2 (Z.ltb_lt ad W25Q128_SIZE)) by lia. rewrite u32_small by (unfold W25Q128_SIZE in Hlen; lia). done. }
  rewrite E in Hr, Hruns. cbn [fst snd] in Hr, Hruns. rewrite u8_small in Hr by apply Hc. subst r.
  apply IH in Hruns as (-> & H1 & H2 & H3 & H4); [|destruct d; cbn -[W25Q128_SIZE] in *; (done || lia)..].
  destruct d; cbn -[W25Q128_SIZE] in *. split; [|done]. rewrite (seqZ_cons _ (Z.succ _)) by lia. cbn. by rewrite Z.pred_succ.
Qed.

(** filling the page buffer from position [k] on *)
Lemma run_page l t0 t1 d rx d' k : state d = W25Q_PROGRAM_DATA -> status d = 2 -> length (page_buf d) = 256%nat ->
  page_len d = Z.of_nat k -> (k + length l <= 256)%nat ->
  runs t0 t1 d l rx d' ->
  state d' = W25Q_PROGRAM_DATA /\ status d' = 2 /\ length (page_buf d') = 256%nat /\ page_len d' = Z.of_nat (k + length l) /\
  page_addr d' = page_addr d /\ data d' = data d /\
  (forall i, (i < k)%nat -> page_buf d' !! i = page_buf d !! i) /\ (forall i, (i < length l)%nat -> page_buf d' !! (k + i)%nat = l !! i).
Proof.
  revert t0 d rx k. induction l as [|x l IH]; intros t0 d rx k Hs Hst Hpb Hpl Hk Hruns.
  { destruct rx; [|done]. destruct Hruns as [-> _]. cbn. rewrite Nat.add_0_r. repeat split; try done. intros i Hi. lia. }
  destruct rx as [|r rx]; [done|]. cbn [runs] in Hruns. destruct Hruns as (c & _ & _ & Hruns). cbn [length] in Hk.
  set (d1 := set_page (<[k := x]> (page_buf d)) (page_addr d) (Z.of_nat (S k)) d).
  assert (E : (w25q128_transfer (Some c) d x).2 = d1).
  { unfold d1. destruct d as [dt' st ad nb sta cm ji pb pa pl bu]. cbn in Hs, Hst, Hpb, Hpl. subst.
    assert (E1 : w25q128_transfer (Some c) (Chip dt' W25Q_PROGRAM_DATA ad nb 2 cm ji pb pa (Z.of_nat k) bu) x = (0xFF, let d := Chip dt' W25Q_PROGRAM_DATA ad nb 2 cm ji pb pa (Z.of_nat k) bu in if Z.of_nat k <? W25Q128_PAGE_SIZE then set_page (<[Z.to_nat (Z.of_nat k) := x]> pb) pa (Z.of_nat k + 1) d else d)) by reflexivity.
    rewrite E1. cbv zeta. cbn [snd]. rewrite (proj2 (Z.ltb_lt _ _)) by (unfold W25Q128_PAGE_SIZE; lia). rewrite Nat2Z.id, Nat2Z.inj_succ. done. }
  rewrite E in Hruns. apply (IH _ _ _ (S k)) in Hruns as (H1 & H2 & H3 & H4 & H5 & H6 & H7 & H8); [|done|done|unfold d1; cbn; by rewrite length_insert|done|lia].
  split; [done|]. split; [done|]. split; [done|]. split; [rewrite H4; cbn [length]; f_equal; lia|]. split; [done|]. split; [done|]. split.
  - intros i Hi. rewrite H7 by lia. unfold d1. cbn. by rewrite list_lookup_insert_ne by lia.
  - intros [|i] Hi; cbn [length] in Hi.
    + rewrite Nat.add_0_r, H7 by lia. unfold d1. cbn. rewrite list_lookup_insert_eq by lia. done.
    + replace (k + S i)%nat with (S k + i)%nat by lia. rewrite H8 by lia. done.
Qed.

(** * Programming and erasing *)

Lemma cell_insert m a v a' : cell (<[a := v]> m) a' = if decide (a = a') then v else cell m a'.
Proof. unfold cell. case_decide as Ha; [subst; by rewrite lookup_insert_eq|by rewrite lookup_insert_ne]. Qed.

Lemma program_byte_at d i m : 0 <= page_addr d < W25Q128_SIZE -> 0 <= i -> page_addr d mod 256 + i < 256 ->
  program_byte d i m = <[page_addr d + i := cell m (page_addr d + i) .& default 0 (page_buf d !! Z.to_nat i)]> m.
Proof.
  intros Ha Hi Hp. unfold program_byte, W25Q128_PAGE_SIZE. unfold W25Q128_SIZE in *. change (256 - 1) with (2 ^ 8 - 1).
  rewrite land_lnot_ones, !land_ones_mod by lia. change (2 ^ 8) with 256.
  pose proof (Z.mod_pos_bound (page_addr d) 256 ltac:(lia)) as Hm.
  rewrite (u32_small (page_addr d mod 256 + i)) by lia.
  rewrite (Z.mod_small (page_addr d mod 256 + i)) by lia. rewrite u32_small by lia.
  replace (page_addr d - page_addr d mod 256 + (page_addr d mod 256 + i)) with (page_addr d + i) by lia.
  rewrite (proj2 (Z.ltb_lt _ _)); [done|]. pose proof (Z.div_mod (page_addr d) 256 ltac:(lia)). lia.
Qed.

Lemma start_busy_spec cc n d : status d = 0 \/ status d = 2 ->
  let d' := start_busy (Some cc) n d in
  state d' = state d /\ status d' = 1 /\ data d' = data d /\ page_buf d' = page_buf d /\ busy_until d' = cc + n.
Proof. intros Hst. destruct d. cbn in Hst. by destruct Hst as [-> | ->]. Qed.

(** the end of a page program: the cells change, and the chip is busy *)
Lemma deassert_program c d l : state d = W25Q_PROGRAM_DATA -> status d = 2 -> l <> [] -> page_len d = Z.of_nat (length l) ->
  (forall i, (i < length l)%nat -> page_buf d !! i = l !! i) ->
  0 <= page_addr d < W25Q128_SIZE -> page_addr d mod 256 + Z.of_nat (length l) <= 256 ->
  let d' := w25q128_cs_deassert (Some c) d in
  state d' = W25Q_IDLE /\ status d' = 1 /\ busy_until d' = c + 11200 /\ page_buf d' = page_buf d /\
  forall a, cell (data d') a = programmed (cell (data d)) (page_addr d) l a.
Proof.
  intros Hs Hst Hl Hpl Hpb Ha Hfit. cbn zeta. unfold w25q128_cs_deassert. rewrite decide_True by done. unfold commit_page_program.
  rewrite (proj2 (Z.eqb_neq _ _)) by (rewrite Hpl; destruct l; [done|cbn; lia]).
  set (m := for_loop _ _ _ _). destruct (start_busy_spec c 11200 (set_data m d)) as (_ & H2 & H3 & H4 & H5); [right; done|].
  set (d1 := start_busy _ _ _) in *. clearbody d1. cbn. rewrite H2, H3, H4, H5. cbn in H3. repeat split; [done..|].
  set (I k m := forall a, cell m a = programmed (cell (data d)) (page_addr d) (take (Z.to_nat k) l) a).
  assert (HI : I (0 + Z.of_nat (Z.to_nat (page_len d))) m).
  { apply for_loop_ind.
    - intros a. unfold programmed. cbn [Z.to_nat take length Z.of_nat]. rewrite Z.add_0_r. destruct (Z.leb_spec (page_addr d) a), (Z.ltb_spec a (page_addr d)); cbn [andb]; (done || lia).
    - rewrite Hpl, Nat2Z.id. intros k m1 Hk HI a. rewrite program_byte_at, cell_insert by lia. rewrite (Hpb (Z.to_nat k)) by lia.
      destruct (lookup_lt_is_Some_2 l (Z.to_nat k)) as [x Hx]; [lia|]. replace (Z.to_nat (k + 1)) with (S (Z.to_nat k)) by lia. rewrite (take_S_r _ _ x) by done.
      rewrite !HI. unfold programmed. rewrite length_app, !length_take, Nat.min_l by lia. cbn [length].
      case_decide as Hd.
      + subst a. rewrite !(proj2 (Z.leb_le _ _)) by lia. rewrite (proj2 (Z.ltb_ge _ _)), (proj2 (Z.ltb_lt _ _)) by lia. cbn [andb].
        replace (Z.to_nat (page_addr d + k - page_addr d)) with (Z.to_nat k) by lia. rewrite Hx, lookup_app_r by (rewrite length_take; lia).
        rewrite length_take, Nat.min_l, Nat.sub_diag by lia. done.
      + destruct (Z.leb_spec (page_addr d) a); cbn [andb]; [|done].
        destruct (Z.ltb_spec a (page_addr d + Z.of_nat (Z.to_nat k))), (Z.ltb_spec a (page_addr d + Z.of_nat (Z.to_nat k + 1))); try done; try lia.
        by rewrite lookup_app_l by (rewrite length_take; lia). }
  intros a. etrans; [exact (HI a)|]. rewrite Hpl, Nat2Z.id, Z.add_0_l, Nat2Z.id, firstn_all. done.
Qed.

(** write enable: one byte *)
Lemma run_write_enable t0 t1 dt d rx d' c : resting dt d -> runs t0 t1 d [0x06] rx d' ->
  resting dt (w25q128_cs_deassert (Some c) d') /\ status (w25q128_cs_deassert (Some c) d') = 2.
Proof.
  intros [Hs Hst Hpb Hdt] Hruns. destruct d as [dt' st ad nb sta cm ji pb pa pl bu]. cbn in Hs, Hst, Hpb, Hdt. subst.
  destruct rx as [|r0 [|]]; cbn [runs] in Hruns; [done| |by repeat (destruct Hruns as (? & _ & _ & Hruns))].
  destruct Hruns as (c0 & _ & _ & -> & _). destruct Hst as [-> | ->]; (split; [split|]); cbn; auto.
Qed.

Lemma erase_loop_spec n base m a : cell (for_loop n base (fun a m => <[a := 0xFF]> m) m) a = if (base <=? a) && (a <? base + Z.of_nat n) then 0xFF else cell m a.
Proof.
  set (I k (m' : gmap Z Z) := forall a, cell m' a = if (base <=? a) && (a <? k) then 0xFF else cell m a).
  assert (HI : I (base + Z.of_nat n) (for_loop n base (fun a m => <[a := 0xFF]> m) m)); [|apply HI]. apply for_loop_ind.
  - intros x. destruct (Z.leb_spec base x), (Z.ltb_spec x base); cbn [andb]; (done || lia).
  - intros k m' Hk HI x. rewrite cell_insert, HI. case_decide as Hx; destruct (Z.leb_spec base x), (Z.ltb_spec x k), (Z.ltb_spec x (k + 1)); cbn [andb]; (done || lia).
Qed.

Lemma run_erase t0 t1 dt d off rx d' c : resting dt d -> status d = 2 -> 0 <= off -> off + 4096 <= W25Q128_SIZE -> off mod 4096 = 0 ->
  runs t0 t1 d (0x20 :: addr_bytes_of off) rx d' ->
  let d'' := w25q128_cs_deassert (Some c) d' in
  state d'' = W25Q_IDLE /\ status d'' = 1 /\ busy_until d'' <= t1 + 720000 /\ length (page_buf d'') = 256%nat /\ forall a, cell (data d'') a = erased (cell dt) off SECTOR a.
Proof.
  intros [Hs _ Hpb Hdt] Hst Ho Hlen Hal Hruns. destruct d as [dt' st ad nb sta cm ji pb pa pl bu]. cbn in Hs, Hst, Hpb, Hdt. subst.
  destruct rx as [|r0 [|r1 [|r2 [|r3 [|]]]]]; cbn [runs addr_bytes_of] in Hruns; try (by repeat (destruct Hruns as (? & _ & _ & Hruns))).
  destruct Hruns as (c0 & _ & _ & c1 & _ & _ & c2 & _ & _ & c3 & Hc & _ & -> & _).
  match goal with |- context [w25q128_cs_deassert (Some c) ?x] => assert (E : x = set_state W25Q_IDLE (commit_sector_erase (Some c3) (Chip dt W25Q_ERASE_ADDR (((((0 .<< 8) .| ((off .>> 16) .& 0xFF)) .<< 8 .| ((off .>> 8) .& 0xFF)) .<< 8) .| (off .& 0xFF)) 3 2 0x20 ji pb pa pl bu))) by reflexivity end.
  rewrite E. unfold W25Q128_SIZE in Hlen. rewrite address_assembled by lia. cbn zeta.
  unfold commit_sector_erase, W25Q128_SECTOR_SIZE. cbn [addr]. change (4096 - 1) with (2 ^ 12 - 1). rewrite land_lnot_ones by lia. change (2 ^ 12) with 4096.
  rewrite Hal, Z.sub_0_r, u32_small, (proj2 (Z.leb_le _ _)) by (unfold W25Q128_SIZE; lia).
  set (m := for_loop _ _ _ _). match goal with |- context [start_busy (Some c3) 720000 ?x] => destruct (start_busy_spec c3 720000 x) as (H1 & H2 & H3 & H4 & H5); [right; done|]; set (d1 := start_busy _ _ x) in * end.
  clearbody d1. unfold w25q128_cs_deassert. rewrite decide_False by done. cbn. rewrite H2, H3, H4, H5. cbn in Hpb |- *.
  split; [done|]. split; [done|]. split; [lia|]. split; [done|]. intros a. unfold m, erased. rewrite erase_loop_spec. done.
Qed.

(** * Waiting *)

(** busy until cycle [B], with the cells [dt] *)
Record working (dt : gmap Z Z) (B : Z) (d : w25q128) : Prop := {
  work_state : state d = W25Q_IDLE;
  work_status : status d = 1;
  work_until : busy_until d = B;
  work_page : length (page_buf d) = 256%nat;
  work_data : data d = dt;
}.

(** asked for its status *)
Record polling (dt : gmap Z Z) (B : Z) (d : w25q128) : Prop := {
  poll_state : state d = W25Q_READ_STATUS;
  poll_status : status d = 0 \/ status d = 1 /\ busy_until d = B;
  poll_page : length (page_buf d) = 256%nat;
  poll_data : data d = dt;
}.

Lemma run_status_command t0 t1 dt B d rx d' : working dt B d -> runs t0 t1 d [0x05] rx d' -> polling dt B d'.
Proof.
  intros [Hs Hst HB Hpb Hdt] Hruns. destruct d as [dt' st ad nb sta cm ji pb pa pl bu]. cbn in Hs, Hst, Hpb, Hdt, HB. subst.
  destruct rx as [|r0 [|]]; cbn [runs] in Hruns; [done| |by repeat (destruct Hruns as (? & _ & _ & Hruns))].
  destruct Hruns as (c0 & _ & _ & -> & _). unfold w25q128_transfer, is_busy. cbn -[Z.leb]. destruct (Z.leb_spec B c0); split; cbn; auto.
Qed.

Lemma transfer_status dt B d c x : polling dt B d ->
  polling dt B (w25q128_transfer (Some c) d x).2 /\ status (w25q128_transfer (Some c) d x).2 = (w25q128_transfer (Some c) d x).1 /\
  ((w25q128_transfer (Some c) d x).1 = 0 \/ (w25q128_transfer (Some c) d x).1 = 1 /\ c < B).
Proof.
  intros [Hs Hst Hpb Hdt]. destruct d as [dt' st ad nb sta cm ji pb pa pl bu]. cbn in Hs, Hst, Hpb, Hdt. subst.
  destruct Hst as [-> | [-> ->]].
  { split; [split; cbn; auto|]. split; [done|by left]. }
  set (d := Chip dt W25Q_READ_STATUS ad nb 1 cm ji pb pa pl B).
  assert (Eb : is_busy (Some c) d = if B <=? c then (false, set_status 0 d) else (true, d)) by (unfold is_busy; cbn -[Z.leb]; by destruct (B <=? c)).
  assert (E : w25q128_transfer (Some c) d x = if B <=? c then (0, set_status 0 d) else (1, d)).
  { unfold w25q128_transfer. rewrite Eb. destruct (B <=? c); [done|]. cbn [state d andb negb]. unfold bool_decide. cbn [decide_rel decide]. rewrite Eb. done. }
  rewrite E. destruct (Z.leb_spec B c); (split; [split; cbn; auto|]; split; [done|]); [by left|by right].
Qed.

Lemma deassert_polling dt B d c : polling dt B d -> status d = 0 -> resting dt (w25q128_cs_deassert (Some c) d).
Proof.
  intros [Hs _ Hpb Hdt] Hst. unfold w25q128_cs_deassert. rewrite decide_False by (rewrite Hs; done). destruct d. cbn in *. by split; [|left| |].
Qed.

(** identification *)
Lemma run_jedec t0 t1 t2 t3 dt d rx d1 rx' d2 : resting dt d -> runs t0 t1 d [0x9F] rx d1 -> runs t2 t3 d1 (replicate 3 0xFF) rx' d2 ->
  rx' = W25Q128_ID /\ state d2 = W25Q_JEDEC_ID /\ status d2 = status d /\ data d2 = dt /\ page_buf d2 = page_buf d.
Proof.
  intros [Hs Hst Hpb Hdt] Hr Hr'. destruct d as [dt' st ad nb sta cm ji pb pa pl bu]. cbn in Hs, Hst, Hpb, Hdt. subst.
  destruct rx as [|r0 [|]]; cbn [runs] in Hr; [done| |by repeat (destruct Hr as (? & _ & _ & Hr))]. destruct Hr as (c0 & _ & _ & -> & _).
  destruct rx' as [|r1 [|r2 [|r3 [|]]]]; cbn [runs replicate] in Hr'; try (by repeat (destruct Hr' as (? & _ & _ & Hr'))).
  destruct Hr' as (c1 & _ & -> & c2 & _ & -> & c3 & _ & -> & -> & _). by destruct Hst as [-> | ->].
Qed.

Lemma deassert_idle dt d c : state d <> W25Q_PROGRAM_DATA -> status d = 0 \/ status d = 2 -> data d = dt -> length (page_buf d) = 256%nat ->
  resting dt (w25q128_cs_deassert (Some c) d).
Proof. intros Hs Hst Hdt Hpb. unfold w25q128_cs_deassert. rewrite decide_False by done. destruct d. cbn in *. by split. Qed.
