(* ===== verification/RtosFlash.v ===== *)
(** The flash driver of the RTOS, [rtos/drivers/flash/flash_w25q.c], over its SPI
    driver [rtos/drivers/spi/spi_stm32.c], run on the simulated board.

    The driver is code of the firmware: each register access is an instruction
    of the machine of [SimBoard], and [gap] says how many other instructions
    run after it (the code in between, interrupts, other tasks that leave SPI3
    alone).  Polling loops have a bound, which the theorems show to be enough.
    The device configuration is that of the node [spi3] of the board's device
    tree.  Power management (CONFIG_PM) is off. *)

From stdpp Require Import gmap list.
From Stdlib Require Import ZArith Lia.
From S2P Require Import Prelude Memory Checked NorFlash SimEvents SimBus SimBoard SimLink SimChip.

Section driver.
Context (gap : Z -> nat).

Definition pause (m : machine) : machine := idle (gap (now m)) m.

(** [REG(base, off)] *)
Definition reg_read (a : Z) : C machine Z := fun m => let (v, m) := load32 a m in Ok (v, pause m).
Definition reg_write (a v : Z) : C machine unit := fun m => Ok (tt, pause (store32 a v m)).

(** [while (!(REG(a) & mask));] with at most [p] rounds *)
Definition wait_flag (p : positive) (a mask : Z) : C machine unit := fun m =>
  match while_pos p (fun m => match reg_read a m with
                              | Ok (v, m) => if v .& mask =? 0 then inl m else inr (Ok (tt, m))
                              | _ => inr NoFuel
                              end) m with
  | inl _ => NoFuel
  | inr r => r
  end.

(** * The SPI driver *)

Record spi_stm32_config := SpiCfg {
  base : Z; clk_bus : Z; clk_bit : Z; br : Z;
  sck_port : Z; sck_pin : Z; sck_af : Z; miso_port : Z; miso_pin : Z; miso_af : Z; mosi_port : Z; mosi_pin : Z; mosi_af : Z;
  cs_port : Z; cs_pin : Z;
}.

(** node [spi3] of [gameboy-v2/board.dts] *)
Definition spi3_cfg : spi_stm32_config :=
  SpiCfg 0x40003C00 1 15 0 0x40020800 10 6 0x40020800 11 6 0x40020800 12 6 0x40020400 0.

Definition SPI_CR1_OFF : Z := 0x00.
Definition SPI_SR_OFF : Z := 0x08.
Definition SPI_DR_OFF : Z := 0x0C.

(** [clock_stm32_on], with the RCC at 0x40023800 *)
Definition clock_on (bus bit : Z) : C machine unit :=
  if 2 <? bus then mret tt
  else
    let a := 0x40023800 + (if bus =? 0 then 0x30 else if bus =? 1 then 0x40 else 0x44) in
    v ← reg_read a; reg_write a (v .| (1 .<< bit)).

(** [*a &= ~clear; *a |= set;] *)
Definition reg_update (a clear set : Z) : C machine unit :=
  v ← reg_read a; reg_write a (v .& (.~ clear)) ;;
  v ← reg_read a; reg_write a (v .| set).

Definition pin_configure_af (port pin af : Z) : C machine unit :=
  let moder := port +w 0 in
  let afr := port +w (if pin <? 8 then 0x20 else 0x24) in
  let af_pos := (pin mod 8) * 4 in
  reg_update moder (3 .<< (pin * 2)) (2 .<< (pin * 2)) ;;
  reg_update afr (0xF .<< af_pos) (af .<< af_pos).

Definition port_idx (port : Z) : Z := u8 ((port -w 0x40020000) / 0x400).

Definition spi_stm32_init (cfg : spi_stm32_config) : C machine Z :=
  clock_on (clk_bus cfg) (clk_bit cfg) ;;
  clock_on 0 (port_idx (sck_port cfg)) ;;
  (if port_idx (mosi_port cfg) =? port_idx (sck_port cfg) then mret tt else clock_on 0 (port_idx (mosi_port cfg))) ;;
  pin_configure_af (sck_port cfg) (sck_pin cfg) (sck_af cfg) ;;
  pin_configure_af (miso_port cfg) (miso_pin cfg) (miso_af cfg) ;;
  pin_configure_af (mosi_port cfg) (mosi_pin cfg) (mosi_af cfg) ;;
  clock_on 0 (port_idx (cs_port cfg)) ;;
  reg_update (cs_port cfg +w 0) (3 .<< (cs_pin cfg * 2)) (1 .<< (cs_pin cfg * 2)) ;;
  reg_write (cs_port cfg +w 0x18) (1 .<< cs_pin cfg) ;;
  reg_write (base cfg +w SPI_CR1_OFF) ((1 .<< 2) .| ((br cfg .& 7) .<< 3) .| (1 .<< 8) .| (1 .<< 9)) ;;
  v ← reg_read (base cfg +w SPI_CR1_OFF);
  reg_write (base cfg +w SPI_CR1_OFF) (v .| (1 .<< 6)) ;;
  mret 0.

(** TXE comes back within 2048 cycles, at the slowest rate *)
Definition spi_xfer_byte (b tx : Z) : C machine Z :=
  wait_flag 4096 (b +w SPI_SR_OFF) 2 ;;
  reg_write (b +w SPI_DR_OFF) tx ;;
  wait_flag 4096 (b +w SPI_SR_OFF) 1 ;;
  v ← reg_read (b +w SPI_DR_OFF);
  mret (u8 v).

Fixpoint send_bytes (b : Z) (tx : list Z) : C machine unit :=
  match tx with [] => mret tt | x :: tx => spi_xfer_byte b x ;; send_bytes b tx end.

Fixpoint receive_bytes (b : Z) (n : nat) : C machine (list Z) :=
  match n with O => mret [] | S n => x ← spi_xfer_byte b 0xFF; l ← receive_bytes b n; mret (x :: l) end.

Definition spi_stm32_transceive (cfg : spi_stm32_config) (tx : list Z) (rx_len : nat) : C machine (list Z) :=
  send_bytes (base cfg) tx ;; receive_bytes (base cfg) rx_len.

Definition spi_stm32_cs_select (cfg : spi_stm32_config) : C machine unit := reg_write (cs_port cfg +w 0x18) (1 .<< (cs_pin cfg + 16)).
Definition spi_stm32_cs_release (cfg : spi_stm32_config) : C machine unit := reg_write (cs_port cfg +w 0x18) (1 .<< cs_pin cfg).

Definition spi_write (tx : list Z) : C machine unit := spi_stm32_transceive spi3_cfg tx 0 ;; mret tt.
Definition spi_read (n : nat) : C machine (list Z) := spi_stm32_transceive spi3_cfg [] n.
Definition spi_cs_select : C machine unit := spi_stm32_cs_select spi3_cfg.
Definition spi_cs_release : C machine unit := spi_stm32_cs_release spi3_cfg.

(** * The flash driver *)

Definition CMD_WRITE_ENABLE : Z := 0x06.
Definition CMD_READ_STATUS : Z := 0x05.
Definition CMD_READ_DATA : Z := 0x03.
Definition CMD_PAGE_PROGRAM : Z := 0x02.
Definition CMD_SECTOR_ERASE : Z := 0x20.
Definition CMD_JEDEC_ID : Z := 0x9F.
Definition STATUS_BUSY : Z := 0x01.

Definition w25q_write_enable : C machine unit :=
  spi_cs_select ;; spi_write [CMD_WRITE_ENABLE] ;; spi_cs_release.

(** the longest operation of the chip takes 720000 cycles, and a round at least four *)
Definition w25q_wait_busy : C machine unit :=
  spi_cs_select ;;
  spi_write [CMD_READ_STATUS] ;;
  (fun m => match while_pos 720001 (fun m => match spi_read 1 m with
                                             | Ok ([st], m) => if st .& STATUS_BUSY =? 0 then inr (Ok (tt, m)) else inl m
                                             | Ok (_, _) => inr Fault
                                             | Fault => inr Fault
                                             | NoFuel => inr NoFuel
                                             end) m with
            | inl _ => NoFuel
            | inr r => r
            end) ;;
  spi_cs_release.

Definition w25q_cmd_addr (cmd addr : Z) : C machine unit :=
  spi_write [cmd; (addr .>> 16) .& 0xFF; (addr .>> 8) .& 0xFF; addr .& 0xFF].

Definition flash_nor_init : C machine Z :=
  spi_cs_select ;;
  spi_write [CMD_JEDEC_ID] ;;
  i ← spi_read 3;
  spi_cs_release ;;
  let id k := default 0 (i !! k) in
  mret (if (negb (id 0%nat =? 0xEF) && negb (id 0%nat =? 0xC8)) || negb (id 1%nat =? 0x40) || negb (id 2%nat =? 0x18) then -1 else 0).

Definition flash_nor_read (offset : Z) (len : nat) : C machine (Z * list Z) :=
  spi_cs_select ;;
  w25q_cmd_addr CMD_READ_DATA offset ;;
  buf ← spi_read len;
  spi_cs_release ;;
  mret (0, buf).

(** a round per page; each takes at least a byte *)
Fixpoint flash_write_loop (fuel : nat) (offset : Z) (src : list Z) : C machine unit :=
  match src with
  | [] => mret tt
  | _ =>
      match fuel with
      | O => fun _ => NoFuel
      | S fuel =>
          let page_remain := 256 - (offset .& 0xFF) in
          let chunk := if Z.of_nat (length src) <? page_remain then Z.of_nat (length src) else page_remain in
          w25q_write_enable ;;
          spi_cs_select ;;
          w25q_cmd_addr CMD_PAGE_PROGRAM offset ;;
          spi_write (take (Z.to_nat chunk) src) ;;
          spi_cs_release ;;
          w25q_wait_busy ;;
          flash_write_loop fuel (offset +w chunk) (drop (Z.to_nat chunk) src)
      end
  end.

Definition flash_nor_write (offset : Z) (buf : list Z) : C machine Z :=
  flash_write_loop (length buf) offset buf ;; mret 0.

Fixpoint flash_erase_loop (fuel : nat) (offset size : Z) : C machine unit :=
  if size =? 0 then mret tt
  else
    match fuel with
    | O => fun _ => NoFuel
    | S fuel =>
        w25q_write_enable ;;
        spi_cs_select ;;
        w25q_cmd_addr CMD_SECTOR_ERASE offset ;;
        spi_cs_release ;;
        w25q_wait_busy ;;
        flash_erase_loop fuel (offset +w 4096) (if 4096 <? size then size - 4096 else 0)
    end.

Definition flash_nor_erase (offset size : Z) : C machine Z :=
  flash_erase_loop (Z.to_nat (size / 4096 + 1)) offset size ;; mret 0.

(** * One byte *)

Lemma while_term {S R} (body : S -> S + R) (I : S -> Prop) (mu : S -> Z) (Q : R -> Prop) :
  (forall s, I s -> 0 <= mu s /\ match body s with inl s' => I s' /\ mu s' < mu s | inr r => Q r end) ->
  forall s p, I s -> mu s < Z.pos p -> exists r, while_pos p body s = inr r /\ Q r.
Proof.
  intros Hbody s p HI Hmu. enough (Hn : forall n s, I s -> mu s < Z.of_nat n -> exists r, while_nat n body s = inr r /\ Q r).
  { destruct (Hn (Pos.to_nat p) s HI) as (r & Hr & HQ); [lia|]. exists r. by rewrite while_pos_nat. }
  clear s p HI Hmu. intros n. induction n as [|n IH]; intros s HI Hmu; destruct (Hbody s HI) as [Hpos Hs]; [lia|].
  cbn. destruct (body s) as [s'|r]; [|by exists r]. destruct Hs as [HI' Hlt]. apply IH; [done|lia].
Qed.

Lemma bit_set v i : 0 <= i -> (v .& 2 ^ i =? 0) = negb (Z.testbit v i).
Proof.
  intros Hi. destruct (Z.testbit v i) eqn:E; cbn.
  - apply Z.eqb_neq. intros H. assert (Hb : Z.testbit (v .& 2 ^ i) i = true) by (rewrite Z.land_spec, E, Z.pow2_bits_true by lia; done). rewrite H, Z.bits_0 in Hb. done.
  - apply Z.eqb_eq, Z.bits_inj'. intros k Hk. rewrite Z.land_spec, Z.bits_0, Z.pow2_bits_eqb by lia. destruct (Z.eqb_spec i k) as [<-|]; [by rewrite E|apply andb_false_r].
Qed.

Lemma up_pause d act lvl m : up d act lvl m -> up d act lvl (pause m) /\ later m (pause m).
Proof. apply up_idle. Qed.

Lemma wait_txe d act lvl m : up d act lvl m ->
  cok (wait_flag 4096 0x40003C08 2) m (fun _ m' => up d act lvl m' /\ now m < now m').
Proof.
  intros Hu. pose proof Hu as [Hw (T & HT & Hn)]. unfold wait_flag, cok.
  set (body := fun m => _).
  destruct (while_term body (fun m' => up d act lvl m' /\ now m <= now m' /\ txe_by T m'.2)
    (fun m' => if txe m'.2 then 0 else Z.max 0 (T - now m') + 1) (fun r => exists m', r = Ok (tt, m') /\ up d act lvl m' /\ now m < now m')) with (s := m) (p := 4096%positive) as (r & -> & m' & -> & H); [|done| |done].
  - intros m1 (Hu1 & Hl1 & HT1). split; [destruct (txe m1.2); lia|]. unfold body, reg_read.
    pose proof (load_sr d act lvl m1 Hu1) as Hld. destruct (load32 0x40003C08 m1) as [v m2].
    destruct Hld as (Hu2 & Hl2 & Hn2 & Hv & _ & Ht). destruct (up_pause d act lvl m2 Hu2) as [Hu3 Hl3].
    pose proof (later_now _ _ Hl3). change 2 with (2 ^ 1). rewrite bit_set, Hv by lia. destruct (txe m1.2) eqn:E; cbn [negb].
    + exists (pause m2). split; [done|]. split; [done|lia].
    + split; [split; [done|split; [lia|by apply Hl3, Hl2]]|].
      destruct (decide (T <= now m2)) as [Hle|Hgt].
      * rewrite (later_txe _ _ Hl3 (Ht T HT1 Hle)). lia.
      * destruct (txe (pause m2).2); lia.
  - destruct (txe m.2); lia.
Qed.

Lemma wait_rxne d act lvl m : up d act lvl m -> rxne m.2 = true ->
  cok (wait_flag 4096 0x40003C08 1) m (fun _ m' => up d act lvl m' /\ now m < now m' /\ rx_data (spi3 m'.2) = rx_data (spi3 m.2)).
Proof.
  intros Hu Hr. unfold wait_flag, cok. rewrite while_pos_nat. change (Pos.to_nat 4096) with (S (Pos.to_nat 4095)). cbn [while_nat]. unfold reg_read at 1.
  pose proof (load_sr d act lvl m Hu) as Hld. destruct (load32 0x40003C08 m) as [v m2].
  destruct Hld as (Hu2 & Hl2 & Hn2 & _ & Hv & _). destruct (up_pause d act lvl m2 Hu2) as [Hu3 Hl3].
  change 1 with (2 ^ 0) at 1. rewrite bit_set, Hv, Hr by lia. cbn. split; [done|]. destruct Hl2, Hl3. split; [lia|congruence].
Qed.

(** The exchange of a byte is a transfer of the chip at some later cycle. *)
Lemma spi_xfer_byte_spec d m tx : link d true m -> 0 <= tx < 256 ->
  cok (spi_xfer_byte 0x40003C00 tx) m (fun r m' => exists c, now m < c <= now m' /\
    r = u8 (w25q128_transfer (Some c) d tx).1 /\ link (w25q128_transfer (Some c) d tx).2 true m').
Proof.
  intros Hl Htx. unfold spi_xfer_byte. change (0x40003C00 +w SPI_SR_OFF) with 0x40003C08. change (0x40003C00 +w SPI_DR_OFF) with 0x40003C0C.
  apply cok_bind. eapply cok_mono; [by apply wait_txe|]. intros [] m1 [Hu1 Hn1]. cbn beta.
  apply cok_bind. unfold reg_write. apply ok_ret. cbn [fst snd].
  pose proof (store_dr d m1 tx Hu1 Htx) as Hst. cbn zeta in Hst. destruct (w25q128_transfer (Some (now m1 + 1)) d tx) as [r d'] eqn:E.
  destruct Hst as (Hu2 & Hn2 & Hrx & Hrxne). destruct (up_pause _ _ _ _ Hu2) as [Hu3 Hl3].
  apply cok_bind. eapply cok_mono; [apply wait_rxne; [exact Hu3|by rewrite (later_rxne _ _ Hl3)]|]. intros [] m4 (Hu4 & Hn4 & Hrx4). cbn beta.
  apply cok_bind. unfold reg_read at 1. unfold cok. pose proof (load_dr _ _ _ m4 Hu4) as Hld. destruct (load32 0x40003C0C m4) as [v m5].
  destruct Hld as (Hu5 & Hn5 & Hv). destruct (up_pause _ _ _ _ Hu5) as [Hu6 Hl6]. cbn. exists (now m1 + 1). rewrite E. cbn [fst snd].
  split; [destruct Hl3, Hl6; lia|]. split; [|done]. rewrite Hv, Hrx4, (later_rx _ _ Hl3), Hrx. unfold u8, u32. rewrite Z.mod_mod_divide; [done|]. by exists (2 ^ 24).
Qed.

(** * Sequences of bytes *)

Lemma send_bytes_spec tx d m : link d true m -> bytes tx ->
  cok (send_bytes 0x40003C00 tx) m (fun _ m' => exists rx d', runs (now m) (now m') d tx rx d' /\ link d' true m').
Proof.
  revert d m. induction tx as [|x tx IH]; intros d m Hl Htx; cbn [send_bytes].
  - apply cok_ret. exists [], d. cbn. split; [split; [done|lia]|done].
  - apply Forall_cons in Htx as [Hx Htx]. apply cok_bind. eapply cok_mono; [by apply spi_xfer_byte_spec|].
    intros r m1 (c & Hc & Hr & Hl1). cbn beta. eapply cok_mono; [by apply IH|]. intros [] m2 (rx & d' & Hruns & Hl2).
    exists (r :: rx), d'. split; [|done]. exists c. pose proof (runs_time _ _ _ _ _ _ Hruns).
    split; [lia|]. split; [done|]. eapply runs_weaken; [|reflexivity|exact Hruns]. lia.
Qed.

Lemma receive_bytes_spec n d m : link d true m ->
  cok (receive_bytes 0x40003C00 n) m (fun rx m' => exists d', runs (now m) (now m') d (replicate n 0xFF) rx d' /\ link d' true m').
Proof.
  revert d m. induction n as [|n IH]; intros d m Hl; cbn [receive_bytes].
  - apply cok_ret. exists d. cbn. split; [split; [done|lia]|done].
  - apply cok_bind. eapply cok_mono; [apply spi_xfer_byte_spec; [done|lia]|].
    intros r m1 (c & Hc & Hr & Hl1). cbn beta. apply cok_bind. eapply cok_mono; [by apply IH|]. intros rx m2 (d' & Hruns & Hl2).
    apply cok_ret. exists d'. split; [|done]. exists c. pose proof (runs_time _ _ _ _ _ _ Hruns).
    split; [lia|]. split; [done|]. eapply runs_weaken; [|reflexivity|exact Hruns]. lia.
Qed.

(** * Commands *)

(** between two operations: not selected, not busy, with the cells [dt] *)
Definition at_rest (dt : gmap Z Z) (m : machine) : Prop := exists d, link d false m /\ resting dt d.

Lemma select_spec d m : link d false m -> cok spi_cs_select m (fun _ m' => link d true m' /\ now m <= now m').
Proof.
  intros Hl. unfold cok, spi_cs_select, spi_stm32_cs_select, reg_write, ok. cbn [fst snd].
  change (cs_port spi3_cfg +w 0x18) with 0x40020418. change (1 .<< (cs_pin spi3_cfg + 16)) with (2 ^ 16).
  destruct (store_select d m Hl) as [H1 H2]. destruct (up_pause _ _ _ _ H1) as [H3 H4]. split; [done|]. destruct H4. lia.
Qed.

Lemma release_spec d m : link d true m -> cok spi_cs_release m (fun _ m' => exists c, now m < c <= now m' /\ link (w25q128_cs_deassert (Some c) d) false m').
Proof.
  intros Hl. unfold cok, spi_cs_release, spi_stm32_cs_release, reg_write, ok. cbn [fst snd].
  change (cs_port spi3_cfg +w 0x18) with 0x40020418. change (1 .<< cs_pin spi3_cfg) with 1.
  destruct (store_release d true m Hl) as [H1 H2]. destruct (up_pause _ _ _ _ H1) as [H3 H4]. exists (now m + 1). split; [destruct H4; lia|done].
Qed.

Lemma spi_write_spec tx d m : link d true m -> bytes tx ->
  cok (spi_write tx) m (fun _ m' => exists rx d', runs (now m) (now m') d tx rx d' /\ link d' true m').
Proof.
  intros Hl Htx. apply cok_bind, cok_bind. eapply cok_mono; [by apply (send_bytes_spec tx d m)|]. intros [] m' H. apply cok_ret, cok_ret, H.
Qed.

Lemma spi_read_spec n d m : link d true m ->
  cok (spi_read n) m (fun rx m' => exists d', runs (now m) (now m') d (replicate n 0xFF) rx d' /\ link d' true m').
Proof. intros Hl. apply cok_bind, cok_ret. cbn beta. by apply receive_bytes_spec. Qed.

Lemma write_enable_spec dt m : at_rest dt m ->
  cok w25q_write_enable m (fun _ m' => exists d, link d false m' /\ resting dt d /\ status d = 2).
Proof.
  intros (d & Hl & Hd). apply cok_bind. eapply cok_mono; [by apply select_spec|]. intros [] m1 [H1 _]. cbn beta.
  apply cok_bind. eapply cok_mono; [apply spi_write_spec; [done|by apply Forall_singleton]|]. intros [] m2 (rx & d2 & Hr & H2). cbn beta.
  eapply cok_mono; [by apply release_spec|]. intros [] m3 (c & Hc & H3). exists (w25q128_cs_deassert (Some c) d2). split; [done|]. by eapply run_write_enable.
Qed.

Lemma wait_busy_spec dt B d m : link d false m -> working dt B d -> B <= now m + 720000 -> cok w25q_wait_busy m (fun _ m' => at_rest dt m').
Proof.
  intros Hl Hd HB. apply cok_bind. eapply cok_mono; [by apply select_spec|]. intros [] m1 [H1 Hn1]. cbn beta.
  apply cok_bind. eapply cok_mono; [apply spi_write_spec; [done|by apply Forall_singleton]|]. intros [] m2 (rx & d2 & Hr & H2). cbn beta.
  pose proof (runs_time _ _ _ _ _ _ Hr) as Hn2. apply (run_status_command _ _ dt B) in Hr; [|done].
  apply cok_bind. unfold cok at 1. set (body := fun m => _).
  destruct (while_term body (fun m' => exists d', link d' true m' /\ polling dt B d') (fun m' => Z.max 0 (B - now m'))
    (fun r => exists m' d', r = Ok (tt, m') /\ link d' true m' /\ polling dt B d' /\ status d' = 0)) with (s := m2) (p := 720001%positive) as (r & -> & m3 & d3 & -> & H3 & Hp & Hst); [|by exists d2|lia|].
  - intros m' (d' & Hl' & Hp). split; [lia|]. unfold body.
    pose proof (spi_read_spec 1 d' m' Hl') as Hrd. apply cok_ex in Hrd as (rx' & m'' & -> & d'' & Hruns & Hl'').
    destruct rx' as [|st [|]]; cbn [replicate runs] in Hruns; [done| |by destruct Hruns as (? & _ & _ & Hruns)].
    destruct Hruns as (c & Hc & Hst & -> & _). destruct (transfer_status dt B d' c 0xFF Hp) as (Hp' & Heq & Hcase).
    destruct Hcase as [H0|[H0 Hlt]]; rewrite H0 in Hst, Heq; rewrite Hst; cbn.
    + by exists m'', (w25q128_transfer (Some c) d' 0xFF).2.
    + split; [by eexists|lia].
  - cbn [ok fst snd]. eapply cok_mono; [by apply release_spec|]. intros [] m4 (c & Hc & H4). exists (w25q128_cs_deassert (Some c) d3). split; [done|]. by eapply deassert_polling.
Qed.

(** the bytes of a command with an address *)
Lemma cmd_addr_ok cmd a : 0 <= cmd < 256 -> bytes (cmd :: addr_bytes_of a).
Proof. intros H. constructor; [done|apply addr_bytes_ok]. Qed.

(** * Reading *)

Lemma flash_nor_read_spec dt m off len : at_rest dt m -> cells_ok dt -> 0 <= off < W25Q128_SIZE -> off + Z.of_nat len <= W25Q128_SIZE ->
  cok (flash_nor_read off len) m (fun r m' => r = (0, map (cell dt) (seqZ off (Z.of_nat len))) /\ at_rest dt m').
Proof.
  intros (d & Hl & Hd) Hc Ho Hlen. apply cok_bind. eapply cok_mono; [by apply select_spec|]. intros [] m1 [H1 _]. cbn beta.
  apply cok_bind. eapply cok_mono; [apply (spi_write_spec (CMD_READ_DATA :: addr_bytes_of off)); [done|by apply cmd_addr_ok]|]. intros [] m2 (rx & d2 & Hr & H2). cbn beta.
  eapply (run_address _ _ dt _ _ _ _ _ W25Q_READ_DATA) in Hr as (Hs & Ha & Hst & Hdt & Hpb & _); [|done|done|by right|set_solver].
  pose proof (rest_status _ _ Hd) as Hs0. rewrite <- Hst in Hs0.
  apply cok_bind. eapply cok_mono; [by apply spi_read_spec|]. intros rx' m3 (d3 & Hr & H3). cbn beta.
  apply (run_read len _ _ dt) in Hr as (-> & Hs3 & Hst3 & Hdt3 & Hpb3); [|done|done|done|done|lia|lia]. rewrite <- Hst3 in Hs0.
  apply cok_bind. eapply cok_mono; [by apply release_spec|]. intros [] m4 (c & Hc4 & H4). apply cok_ret. rewrite Ha. split; [done|].
  exists (w25q128_cs_deassert (Some c) d3). split; [done|]. apply deassert_idle; [by rewrite Hs3|done..|]. rewrite Hpb3, Hpb. apply Hd.
Qed.

(** * Writing *)

(** one page *)
Lemma program_page_spec {R} (k : C machine R) (Q : R -> machine -> Prop) dt m off l : at_rest dt m -> 0 <= off < W25Q128_SIZE -> l <> [] -> bytes l -> off mod 256 + Z.of_nat (length l) <= 256 ->
  (forall dt' m', at_rest dt' m' -> (forall a, cell dt' a = programmed (cell dt) off l a) -> cok k m' Q) ->
  cok (w25q_write_enable ;; spi_cs_select ;; w25q_cmd_addr CMD_PAGE_PROGRAM off ;; spi_write l ;; spi_cs_release ;; w25q_wait_busy ;; k) m Q.
Proof.
  intros Hm Ho Hl Hbytes Hfit Hk. apply cok_bind. eapply cok_mono; [by apply write_enable_spec|]. intros [] m0 (d & H0 & Hd & Hst). cbn beta.
  apply cok_bind. eapply cok_mono; [by apply select_spec|]. intros [] m1 [H1 _]. cbn beta.
  apply cok_bind. eapply cok_mono; [apply (spi_write_spec (CMD_PAGE_PROGRAM :: addr_bytes_of off)); [done|by apply cmd_addr_ok]|]. intros [] m2 (rx & d2 & Hr & H2). cbn beta.
  eapply (run_address _ _ dt _ _ _ _ _ W25Q_PROGRAM_DATA) in Hr as (Hs & _ & Hst2 & Hdt & Hpb & Hpage); [|done|done|by left|set_solver].
  destruct Hpage as [Hpa Hpl]; [done|]. pose proof (rest_page _ _ Hd) as Hlen. pose proof (Z.mod_pos_bound off 256 ltac:(lia)).
  apply cok_bind. eapply cok_mono; [by apply spi_write_spec|]. intros [] m3 (rx' & d3 & Hr & H3). cbn beta.
  apply (run_page l _ _ _ _ _ 0) in Hr as (Hs3 & Hst3 & Hlen3 & Hpl3 & Hpa3 & Hdt3 & _ & Hbuf); [|done|congruence|congruence|done|lia].
  apply cok_bind. eapply cok_mono; [by apply release_spec|]. intros [] m4 (c & Hc & H4). cbn beta.
  destruct (deassert_program c d3 l) as (E1 & E2 & E3 & E4 & E5); [done..|rewrite Hpa3, Hpa; lia|rewrite Hpa3, Hpa; lia|].
  set (d4 := w25q128_cs_deassert (Some c) d3) in *.
  apply cok_bind. eapply cok_mono; [apply (wait_busy_spec (data d4) (c + 11200) d4); [done| |lia]|].
  - split; [done..| |done]. by rewrite E4.
  - intros [] m5 H5. cbn beta. apply (Hk (data d4)); [done|]. intros a. rewrite E5, Hdt3, Hdt, Hpa3, Hpa. done.
Qed.

Lemma flash_write_loop_spec fuel dt m off src : at_rest dt m -> 0 <= off -> off + Z.of_nat (length src) <= W25Q128_SIZE ->
  bytes src -> (length src <= fuel)%nat ->
  cok (flash_write_loop fuel off src) m (fun _ m' => exists dt', at_rest dt' m' /\ forall a, cell dt' a = programmed (cell dt) off src a).
Proof.
  revert dt m off src. induction fuel as [|fuel IH]; intros dt m off src Hm Ho Hlen Hsrc Hfuel.
  { destruct src; [|cbn in Hfuel; lia]. apply cok_ret. exists dt. split; [done|]. intros a. by rewrite programmed_nil. }
  destruct (decide (src = [])) as [->|Hne]. { apply cok_ret. exists dt. split; [done|]. intros a. by rewrite programmed_nil. }
  assert (Hpos : (0 < length src)%nat) by (destruct src; [done|cbn; lia]).
  pose proof (Z.mod_pos_bound off 256 ltac:(lia)) as Hmod.
  set (chunk := Z.min (Z.of_nat (length src)) (256 - off mod 256)).
  assert (Hchunk : 0 < chunk /\ chunk <= Z.of_nat (length src) /\ off mod 256 + chunk <= 256) by lia.
  assert (E : flash_write_loop (S fuel) off src = (w25q_write_enable ;; spi_cs_select ;; w25q_cmd_addr CMD_PAGE_PROGRAM off ;; spi_write (take (Z.to_nat chunk) src) ;; spi_cs_release ;; w25q_wait_busy ;; flash_write_loop fuel (off +w chunk) (drop (Z.to_nat chunk) src))).
  { cbn [flash_write_loop]. change (off .& 0xFF) with (off .& (2 ^ 8 - 1)). rewrite land_ones_mod by lia. change (2 ^ 8) with 256.
    replace (if Z.of_nat (length src) <? 256 - off mod 256 then Z.of_nat (length src) else 256 - off mod 256) with chunk by (unfold chunk; destruct (Z.ltb_spec (Z.of_nat (length src)) (256 - off mod 256)); lia).
    by destruct src. }
  rewrite E. clear E. unfold W25Q128_SIZE in Hlen.
  assert (Htk : length (take (Z.to_nat chunk) src) = Z.to_nat chunk) by (rewrite length_take; lia).
  apply (program_page_spec _ _ dt); [done|unfold W25Q128_SIZE; lia|intros E; apply (f_equal length) in E; rewrite Htk in E; cbn in E; lia|by apply Forall_take|lia|].
  intros dt1 m1 H1 Hd1. rewrite u32_small by lia.
  eapply cok_mono; [apply (IH dt1); [done|lia|rewrite length_drop; unfold W25Q128_SIZE; lia|by apply Forall_drop|rewrite length_drop; lia]|].
  intros [] m2 (dt2 & H2 & Hd2). exists dt2. split; [done|]. intros a. rewrite Hd2.
  replace (off + chunk) with (off + Z.of_nat (length (take (Z.to_nat chunk) src))) by lia.
  rewrite (programmed_ext (programmed (cell dt) off (take (Z.to_nat chunk) src))) by done. rewrite programmed_app. by rewrite take_drop.
Qed.

(** * Erasing *)

Lemma flash_erase_loop_spec n fuel dt m off : at_rest dt m -> 0 <= off -> off mod 4096 = 0 -> off + 4096 * Z.of_nat n <= W25Q128_SIZE -> (n <= fuel)%nat ->
  cok (flash_erase_loop fuel off (4096 * Z.of_nat n)) m (fun _ m' => exists dt', at_rest dt' m' /\ forall a, cell dt' a = erased (cell dt) off (4096 * Z.of_nat n) a).
Proof.
  revert fuel dt m off. induction n as [|n IH]; intros fuel dt m off Hm Ho Hal Hlen Hfuel.
  { assert (E : flash_erase_loop fuel off (4096 * Z.of_nat 0) = mret tt) by by destruct fuel. rewrite E. apply cok_ret. exists dt. split; [done|]. intros a. by rewrite erased_none. }
  destruct fuel as [|fuel]; [lia|]. cbn [flash_erase_loop]. rewrite (proj2 (Z.eqb_neq _ _)) by lia.
  replace (if 4096 <? 4096 * Z.of_nat (S n) then 4096 * Z.of_nat (S n) - 4096 else 0) with (4096 * Z.of_nat n) by (destruct (Z.ltb_spec 4096 (4096 * Z.of_nat (S n))); lia).
  unfold W25Q128_SIZE in Hlen. rewrite u32_small by lia.
  apply cok_bind. eapply cok_mono; [by apply write_enable_spec|]. intros [] m0 (d & H0 & Hd & Hst). cbn beta.
  apply cok_bind. eapply cok_mono; [by apply select_spec|]. intros [] m1 [H1 _]. cbn beta.
  apply cok_bind. eapply cok_mono; [apply (spi_write_spec (CMD_SECTOR_ERASE :: addr_bytes_of off)); [done|by apply cmd_addr_ok]|]. intros [] m2 (rx & d2 & Hr & H2). cbn beta.
  apply cok_bind. eapply cok_mono; [by apply release_spec|]. intros [] m3 (c & Hc & H3). cbn beta.
  destruct (run_erase _ _ dt d off _ _ c Hd Hst Ho ltac:(unfold W25Q128_SIZE; lia) Hal Hr) as (E1 & E2 & E3 & E4 & E5).
  set (d3 := w25q128_cs_deassert (Some c) d2) in *.
  apply cok_bind. eapply cok_mono; [apply (wait_busy_spec (data d3) (busy_until d3) d3); [done|by split|lia]|]. intros [] m4 H4. cbn beta.
  eapply cok_mono; [apply (IH fuel (data d3)); [done|lia| |unfold W25Q128_SIZE; lia|lia]|].
  - rewrite Z.add_mod, Hal by lia. done.
  - intros [] m5 (dt' & H5 & Hdt'). exists dt'. split; [done|]. intros a. rewrite Hdt', (erased_ext (erased (cell dt) off 4096)) by done.
    rewrite erased_app by lia. f_equal. lia.
Qed.

(** * The interface *)

#[export] Instance w25q_driver : FlashDriver machine := {
  flash_read := flash_nor_read; flash_write := flash_nor_write; flash_erase := flash_nor_erase;
}.

Definition flash_holds (f : Z -> Z) (m : machine) : Prop := exists dt, at_rest dt m /\ cells_ok dt /\ forall a, f a = cell dt a.

(** The driver on the board is a NOR flash. *)
#[export] Instance w25q_driver_spec : FlashDriverSpec machine.
Proof.
  refine {| flash_size := W25Q128_SIZE; holds := flash_holds |}.
  - intros f d a (dt & _ & Hc & Hf). rewrite Hf. apply Hc.
  - intros f g d (dt & Hr & Hc & Hf) Hg. exists dt. split; [done|]. split; [done|]. intros a. by rewrite Hg, Hf.
  - intros f d off n (dt & Hr & Hc & Hf) Ho Hn. cbn [flash_read w25q_driver]. eapply cok_mono; [by apply (flash_nor_read_spec dt)|].
    intros r m' [-> Hm]. split; [|by exists dt]. f_equal. apply map_ext. intros a. by rewrite Hf.
  - intros f d off l (dt & Hr & Hc & Hf) Hl Ho Hn. cbn [flash_write w25q_driver]. apply cok_bind. eapply cok_mono; [by apply (flash_write_loop_spec _ dt)|].
    intros [] m' (dt' & Hm & Hdt). apply cok_ret. split; [done|]. exists dt'. split; [done|]. split.
    + intros a. rewrite Hdt. by apply programmed_byte.
    + intros a. rewrite Hdt. by apply programmed_ext.
  - intros f d off n (dt & Hr & Hc & Hf) Hal Ho Hn Hlen. cbn [flash_erase w25q_driver]. unfold SECTOR in *. apply cok_bind.
    rewrite <- (Z2Nat.id n) at 2 by lia. rewrite <- (Z2Nat.id n) at 1 by lia.
    eapply cok_mono; [apply (flash_erase_loop_spec _ _ dt); [done..|lia|]|].
    + rewrite Z.mul_comm, Z.div_mul by lia. lia.
    + intros [] m' (dt' & Hm & Hdt). rewrite Z2Nat.id in Hdt by lia. apply cok_ret. split; [done|]. exists dt'. split; [done|]. split.
      * intros a. rewrite Hdt. unfold erased. case_match; [lia|apply Hc].
      * intros a. rewrite Hdt. by apply erased_ext.
Defined.

(** * Start-up *)

Lemma reg_read_quiet d act lvl m a bs sz dv : up d act lvl m -> 0 <= a < 2 ^ 32 -> decode a = Some (Region bs sz (Device dv)) -> (forall b, (dev_read dv (a - bs) b).2 = b) ->
  cok (reg_read a) m (fun _ m' => up d act lvl m').
Proof.
  intros Hu Ha Hd Hdv. pose proof (load_quiet d act lvl m a bs sz dv Hu Ha Hd Hdv) as Hl. unfold reg_read, cok, ok. destruct (load32 a m) as [v m']. by apply up_pause.
Qed.

(** writes that the simulated device ignores, and clocks *)
Definition quiet_offset (dv : device) (off : Z) : bool :=
  match dv with SPI3 => false | RCC => true | _ => negb (off =? 0x14) && negb (off =? 0x18) end.

Lemma reg_write_quiet d act lvl m a v bs sz dv : up d act lvl m -> 0 <= a < 2 ^ 32 -> decode a = Some (Region bs sz (Device dv)) -> quiet_offset dv (a - bs) = true ->
  cok (reg_write a v) m (fun _ m' => up d act lvl m').
Proof.
  intros Hu Ha Hd Hq. unfold reg_write, cok, ok. cbn [fst snd]. apply up_pause. eapply store_quiet; [done|done|exact Hd|]. intros b.
  destruct dv; cbn [quiet_offset] in Hq; [done|..|done]; cbn [dev_write]; unfold stm32_gpio_write;
    apply andb_true_iff in Hq as [-> %negb_true_iff -> %negb_true_iff]; done.
Qed.

Lemma reg_update_quiet d act lvl m a c v bs sz dv : up d act lvl m -> 0 <= a < 2 ^ 32 -> decode a = Some (Region bs sz (Device dv)) -> quiet_offset dv (a - bs) = true ->
  cok (reg_update a c v) m (fun _ m' => up d act lvl m').
Proof.
  intros Hu Ha Hd Hq. assert (Hdv : forall b, (dev_read dv (a - bs) b).2 = b) by by destruct dv.
  apply cok_bind. eapply cok_mono; [by apply (reg_read_quiet d act lvl m a bs sz dv)|]. intros x1 m1 H1. cbn beta.
  apply cok_bind. eapply cok_mono; [by apply (reg_write_quiet d act lvl m1 a _ bs sz dv)|]. intros [] m2 H2. cbn beta.
  apply cok_bind. eapply cok_mono; [by apply (reg_read_quiet d act lvl m2 a bs sz dv)|]. intros x2 m3 H3. by apply (reg_write_quiet d act lvl m3 a _ bs sz dv).
Qed.

Lemma clock_on_quiet d act lvl m bus bit : up d act lvl m -> bus = 0 \/ bus = 1 -> cok (clock_on bus bit) m (fun _ m' => up d act lvl m').
Proof.
  intros Hu [-> | ->]; unfold clock_on; cbn [Z.ltb Z.compare Z.eqb]; cbv zeta.
  all: apply cok_bind; eapply cok_mono; [by eapply (reg_read_quiet _ _ _ _ _ 0x40023800 0x100 RCC)|]; intros x m1 H1; by eapply (reg_write_quiet _ _ _ _ _ _ 0x40023800 0x100 RCC).
Qed.

Lemma spi_stm32_init_spec d m : up d false false m -> cok (spi_stm32_init spi3_cfg) m (fun r m' => r = 0 /\ exists c, link (w25q128_cs_deassert (Some c) d) false m').
Proof.
  intros Hu. unfold spi_stm32_init.
  change (port_idx (mosi_port spi3_cfg) =? port_idx (sck_port spi3_cfg)) with true. cbn iota.
  apply cok_bind; eapply cok_mono; [apply clock_on_quiet; [done|by right]|]; clear m Hu; intros [] m Hu; cbn beta.
  apply cok_bind; eapply cok_mono; [apply clock_on_quiet; [done|by left]|]; clear m Hu; intros [] m Hu; cbn beta.
  apply cok_bind, cok_ret. cbn beta.
  do 3 (apply cok_bind; unfold pin_configure_af; apply cok_bind; eapply cok_mono; [by eapply (reg_update_quiet _ _ _ _ _ _ _ 0x40020800 0x400 GPIOC)|]; clear m Hu; intros [] m Hu; cbn beta;
        eapply cok_mono; [by eapply (reg_update_quiet _ _ _ _ _ _ _ 0x40020800 0x400 GPIOC)|]; clear m Hu; intros [] m Hu; cbn beta).
  apply cok_bind; eapply cok_mono; [apply clock_on_quiet; [done|by left]|]; clear m Hu; intros [] m Hu; cbn beta.
  apply cok_bind; eapply cok_mono; [by eapply (reg_update_quiet _ _ _ _ _ _ _ 0x40020400 0x400 GPIOB)|]; clear m Hu; intros [] m Hu; cbn beta.
  apply cok_bind. unfold reg_write at 1. unfold cok at 1, ok. cbn [fst snd].
  change (cs_port spi3_cfg +w 0x18) with 0x40020418. change (1 .<< cs_pin spi3_cfg) with 1.
  destruct (store_release d false m Hu) as [H1 _]. destruct (up_pause _ _ _ _ H1) as [H2 _]. set (d' := w25q128_cs_deassert _ d) in *.
  change (base spi3_cfg +w SPI_CR1_OFF) with 0x40003C00.
  apply cok_bind. unfold reg_write at 1. unfold cok at 1, ok. cbn [fst snd].
  match goal with |- context [store32 0x40003C00 ?v ?m0] => pose proof (store_cr1 d' false true m0 v H2) as H3; destruct (up_pause _ _ _ _ H3) as [H4 _]; set (m1 := pause (store32 0x40003C00 v m0)) in * end.
  apply cok_bind. eapply cok_mono; [apply (reg_read_quiet d' false true m1 0x40003C00 0x40003C00 0x24 SPI3); [exact H4|done|by vm_compute|]; intros b; by destruct b|]. intros v m2 H5. cbn beta.
  apply cok_bind. unfold reg_write. unfold cok at 1, ok. cbn [fst snd]. apply cok_ret. split; [done|]. exists (now m + 1). apply up_pause, store_cr1, H5.
Qed.

(** the chip is recognised *)
Lemma flash_nor_init_spec dt m : at_rest dt m -> cok flash_nor_init m (fun r m' => r = 0 /\ at_rest dt m').
Proof.
  intros (d & Hl & Hd). apply cok_bind. eapply cok_mono; [by apply select_spec|]. intros [] m1 [H1 _]. cbn beta.
  apply cok_bind. eapply cok_mono; [apply spi_write_spec; [done|by apply Forall_singleton]|]. intros [] m2 (rx & d2 & Hr & H2). cbn beta.
  apply cok_bind. eapply cok_mono; [by apply spi_read_spec|]. intros rx' m3 (d3 & Hr' & H3). cbn beta.
  destruct (run_jedec _ _ _ _ dt d rx d2 rx' d3 Hd Hr Hr') as (-> & Hs & Hst & Hdt & Hpb).
  apply cok_bind. eapply cok_mono; [by apply release_spec|]. intros [] m4 (c & Hc & H4). apply cok_ret. split; [done|].
  exists (w25q128_cs_deassert (Some c) d3). split; [done|]. apply deassert_idle; [by rewrite Hs|rewrite Hst; apply Hd|done|rewrite Hpb; apply Hd].
Qed.

(** the devices of the bus and of the flash, in the order of their priorities *)
Definition flash_boot : C machine Z := spi_stm32_init spi3_cfg ;; flash_nor_init.

Lemma flash_boot_spec chardevs dt chip : resting dt chip -> cells_ok dt ->
  cok flash_boot (gameboy_v2_init chardevs chip) (fun r m => r = 0 /\ flash_holds (cell dt) m).
Proof.
  intros Hd Hc. apply cok_bind. eapply cok_mono; [apply spi_stm32_init_spec, gameboy_v2_up|]. intros r m [_ [c Hl]]. cbn beta.
  eapply cok_mono; [apply (flash_nor_init_spec dt)|].
  - exists (w25q128_cs_deassert (Some c) chip). split; [done|]. destruct Hd. apply deassert_idle; [congruence|done..].
  - intros r' m' [-> Hm]. split; [done|]. by exists dt.
Qed.
End driver.

(** * The driver on the board *)

(** C8. The flash driver drives the simulated board as an ideal NOR flash.  After
    reset and start-up, with any contents of the chip, any times between the
    accesses and any sequence of reads, writes and erasures within the chip:
    every call returns (no polling loop runs for ever), reads return the cells,
    a write clears exactly the bits it should in exactly its bytes, across page
    boundaries too, and an erasure sets exactly its sectors to 0xFF. *)
Theorem flash_driver_is_nor gap chardevs chip dt ops : resting dt chip -> cells_ok dt ->
  Forall (@in_bounds machine (w25q_driver gap) (w25q_driver_spec gap)) ops ->
  cok (flash_boot gap ;; @run_ops machine (w25q_driver gap) ops) (gameboy_v2_init chardevs chip)
    (fun rs m => rs = (ideal_ops (cell dt) ops).1 /\ flash_holds (ideal_ops (cell dt) ops).2 m).
Proof.
  intros Hd Hc Hops. apply cok_bind. eapply cok_mono; [by apply (flash_boot_spec gap chardevs dt)|]. intros r m [_ Hm]. cbn beta.
  apply (@run_ops_spec machine (w25q_driver gap) (w25q_driver_spec gap) (cell dt)); done.
Qed.

Lemma init_resting : resting ∅ w25q128_init.
Proof. by split; [|left| |]. Qed.

Lemma empty_cells_ok : cells_ok ∅.
Proof. intros a. unfold cell. rewrite lookup_empty. cbn. lia. Qed.

(** the ten bytes 1 to 10 over a page boundary, then three more over them *)
Definition sample_ops : list flash_op := [Erase 4096 1; Write 4350 (map Z.of_nat (seq 1 10)); Write 4355 [3; 3; 3]; Read 4348 14].

Lemma flash_driver_is_nor_witness :
  cok (flash_boot (fun _ => 0%nat) ;; @run_ops machine (w25q_driver (fun _ => 0%nat)) sample_ops) (gameboy_v2_init true w25q128_init)
    (fun rs m => rs = [[]; []; []; [255; 255; 1; 2; 3; 4; 5; 2; 3; 0; 9; 10; 255; 255]] /\ exists f, flash_holds f m).
Proof.
  eapply cok_mono; [apply (flash_driver_is_nor (fun _ => 0%nat) true w25q128_init ∅ sample_ops)|].
  - exact init_resting.
  - exact empty_cells_ok.
  - unfold sample_ops. repeat (apply Forall_cons; split); [| | | |by apply Forall_nil]; cbn [in_bounds flash_size w25q_driver_spec]; unfold SECTOR, W25Q128_SIZE, bytes; repeat split; try (cbn; lia); by (apply Forall_lookup; intros i x Hi; apply (list_elem_of_lookup_2 _ _ _) in Hi; cbn in Hi; set_solver by lia).
  - intros rs m [-> Hm]. split; [vm_compute; reflexivity|eexists; exact Hm].
Defined.

(** ** Witnesses for the queue and the bus, on this board *)

Lemma event_queue_on_time_witness : let b := (gameboy_v2_init true w25q128_init).2 in
  ready (event_poll get_queue set_queue call 10000 b) /\ cycle_count (event_poll get_queue set_queue call 10000 b) = 0.
Proof.
  split; [|vm_compute; reflexivity]. apply (event_queue_on_time 10000). split; [exact I|]. apply (gameboy_v2_up true w25q128_init).
Defined.

Lemma membus_caches_invisible_witness : let '(bus, b) := gameboy_v2_init true w25q128_init in
  (membus_read32 dev_read 0x40003C08 bus b).1.1 = 2.
Proof.
  pose proof (membus_caches_invisible dev_read dev_write ld32 u32 st32 0x40003C08 0 board_bus (gameboy_v2_init true w25q128_init).2
    (wired_bus _ _ _ _ (proj1 (gameboy_v2_up true w25q128_init))) ltac:(lia)) as [[x Hx] _].
  cbn [gameboy_v2_init]. unfold membus_read32. cbn [gameboy_v2_init snd] in Hx. rewrite Hx. vm_compute. reflexivity.
Defined.
