(* ===== verification/RtosFs.v ===== *)
(** The file system of the RTOS: TinyFS, [rtos/fs/tinyfs.c], behind the dispatch
    layer [rtos/fs/fs.c].

    TinyFS keeps a directory of 15 entries in sector 0 of a NOR flash, and one
    sector for each file.  [dir_table] is its copy in RAM (a static of
    [tinyfs.c]); the flash is any device with the interface [FlashDriver].  The
    structs are written to the flash as they lie in memory, which [encode] and
    [decode] write out.  Functions of [fs.c] dispatch through [struct fs_ops];
    with one file system type this is a call of [tinyfs_ops]. *)

From stdpp Require Import gmap list.
From Stdlib Require Import ZArith Lia.
From S2P Require Import Prelude Memory Checked NorFlash.

Definition FS_MAX_NAME : nat := 16.
Definition FS_MAX_FILES : nat := 15.
Definition FS_SECTOR_SIZE : Z := 4096.
Definition DIR_SECTOR : Z := 0.
Definition DATA_SECTOR (i : Z) : Z := i + 1.

(** * The directory *)

Record dir_entry := Entry { name : list Z; size : Z; used : Z; pad : list Z }.

Definition word_bytes (x : Z) : list Z := [u8 x; u8 (x .>> 8); u8 (x .>> 16); u8 (x .>> 24)].
Definition bytes_word (l : list Z) : Z :=
  match l with [a; b; c; d] => a + 2 ^ 8 * b + 2 ^ 16 * c + 2 ^ 24 * d | _ => 0 end.

(** the 24 bytes of an entry *)
Definition encode_entry (e : dir_entry) : list Z := name e ++ word_bytes (size e) ++ [used e] ++ pad e.
Definition decode_entry (l : list Z) : dir_entry :=
  Entry (take 16 l) (bytes_word (take 4 (drop 16 l))) (default 0 (l !! 20%nat)) (take 3 (drop 21 l)).

Definition ENTRY_SIZE : nat := 24.
Definition DIR_SIZE : nat := FS_MAX_FILES * ENTRY_SIZE.

Definition encode (t : list dir_entry) : list Z := concat (encode_entry <$> t).
Fixpoint decode (n : nat) (l : list Z) : list dir_entry :=
  match n with O => [] | S n => decode_entry (take ENTRY_SIZE l) :: decode n (drop ENTRY_SIZE l) end.

(** [while ( *a && *b) { if ( *a++ != *b++) return 0; } return *a == *b;] *)
Fixpoint streq (a b : list Z) : outcome bool :=
  match a, b with
  | x :: a, y :: b => if (x =? 0) || (y =? 0) then Ok (x =? y) else if x =? y then streq a b else Ok false
  | _, _ => Fault
  end.

(** the copy from position [i] on; [src] is what is left of the source *)
Fixpoint strcopy_loop (i : nat) (dst src : list Z) (max : nat) : list Z :=
  match src with
  | c :: src => if negb (c =? 0) && (i <? max - 1)%nat then strcopy_loop (S i) (<[i := c]> dst) src max else <[i := 0]> dst
  | [] => <[i := 0]> dst
  end.
Definition strcopy (dst src : list Z) (max : nat) : list Z := strcopy_loop 0 dst src max.

(** * The operations *)

Section tinyfs.
Context {D : Type} `{FlashDriver D}.

(** RAM and device: the directory, the mount point, the flash *)
Record tinyfs := Fs { dir_table : list dir_entry; mounted : bool; dev : D }.
(** [mp] is always the mount point *)
Record fs_file := File { index : Z; offset : Z; opened : bool }.

Definition set_dir (t : list dir_entry) (s : tinyfs) : tinyfs := Fs t (mounted s) (dev s).
Definition set_mounted (b : bool) (s : tinyfs) : tinyfs := Fs (dir_table s) b (dev s).
Definition set_dev (d : D) (s : tinyfs) : tinyfs := Fs (dir_table s) (mounted s) d.

Definition on_flash {A} (c : C D A) : C tinyfs A := fun s => r ← c (dev s); Ok (r.1, set_dev r.2 s).

Definition dir_flush : C tinyfs Z :=
  on_flash (flash_erase (DIR_SECTOR * FS_SECTOR_SIZE) FS_SECTOR_SIZE) ;;
  t ← look dir_table;
  on_flash (flash_write (DIR_SECTOR * FS_SECTOR_SIZE) (encode t)) ;;
  mret 0.

(** [used = 0; size = 0; name[0] = 0;] *)
Definition clear_entry (e : dir_entry) : dir_entry := Entry (<[0%nat := 0]> (name e)) 0 0 (pad e).

Definition tinyfs_mount : C tinyfs Z :=
  r ← on_flash (flash_read (DIR_SECTOR * FS_SECTOR_SIZE) DIR_SIZE);
  change (set_dir (decode FS_MAX_FILES r.2)) ;;
  t ← look dir_table;
  e0 ← lift (aref t 0);
  (if used e0 =? 0xFF then change (fun s => set_dir (clear_entry <$> dir_table s) s) ;; dir_flush ;; mret tt else mret tt) ;;
  mret 0.

Definition tinyfs_format : C tinyfs Z :=
  on_flash (flash_erase (DIR_SECTOR * FS_SECTOR_SIZE) FS_SECTOR_SIZE) ;;
  change (fun s => set_dir (clear_entry <$> dir_table s) s) ;;
  dir_flush.

(** the first entry in use with this name *)
Fixpoint find_name (t : list dir_entry) (nm : list Z) (i : nat) : outcome (option nat) :=
  match t with
  | [] => Ok None
  | e :: t =>
      if used e =? 0 then find_name t nm (S i)
      else eq ← streq (name e) nm; if eq : bool then Ok (Some i) else find_name t nm (S i)
  end.

(** the first entry that is not in use *)
Fixpoint find_unused (t : list dir_entry) (i : nat) : option nat :=
  match t with [] => None | e :: t => if used e =? 0 then Some i else find_unused t (S i) end.

(** [nm] with its terminator *)
Definition tinyfs_open (fp : fs_file) (nm : list Z) : C tinyfs (Z * fs_file) :=
  t ← look dir_table;
  r ← lift (find_name t nm 0);
  match r with
  | Some i => mret (0, File (Z.of_nat i) (offset fp) true)
  | None =>
      match find_unused t 0 with
      | Some i =>
          change (set_dir (alter (fun e => Entry (strcopy (name e) nm FS_MAX_NAME) 0 1 (pad e)) i t)) ;;
          dir_flush ;;
          on_flash (flash_erase (DATA_SECTOR (Z.of_nat i) * FS_SECTOR_SIZE) FS_SECTOR_SIZE) ;;
          mret (0, File (Z.of_nat i) (offset fp) true)
      | None => mret (-1, fp)
      end
  end.

Definition tinyfs_write (fp : fs_file) (data : list Z) : C tinyfs (Z * fs_file) :=
  if negb (opened fp) then mret (-1, fp)
  else
    let off := DATA_SECTOR (index fp) * FS_SECTOR_SIZE +w offset fp in
    let max := FS_SECTOR_SIZE -w offset fp in
    let len := if max <? Z.of_nat (length data) then max else Z.of_nat (length data) in
    on_flash (flash_write off (take (Z.to_nat len) data)) ;;
    let fp := File (index fp) (offset fp +w len) (opened fp) in
    t ← look dir_table;
    e ← lift (aref t (index fp));
    (if size e <? offset fp
     then change (fun s => set_dir (alter (fun e => Entry (name e) (offset fp) (used e) (pad e)) (Z.to_nat (index fp)) (dir_table s)) s) ;; dir_flush ;; mret tt
     else mret tt) ;;
    mret (len, fp).

(** the bytes read are what it puts into [buf] *)
Definition tinyfs_read (fp : fs_file) (len : Z) : C tinyfs (Z * list Z * fs_file) :=
  if negb (opened fp) then mret (-1, [], fp)
  else
    t ← look dir_table;
    e ← lift (aref t (index fp));
    let remaining := size e -w offset fp in
    let len := if remaining <? len then remaining else len in
    if len =? 0 then mret (0, [], fp)
    else
      let off := DATA_SECTOR (index fp) * FS_SECTOR_SIZE +w offset fp in
      r ← on_flash (flash_read off (Z.to_nat len));
      mret (len, r.2, File (index fp) (offset fp +w len) (opened fp)).

Definition tinyfs_close (fp : fs_file) : fs_file := File (index fp) (offset fp) false.

(** what the callback is called with *)
Definition tinyfs_ls : C tinyfs (list (list Z * Z)) :=
  t ← look dir_table; mret ((fun e => (name e, size e)) <$> filter (fun e => negb (used e =? 0)) t).

(** ** The dispatch layer *)

Definition fs_mount : C tinyfs Z :=
  change (set_mounted false) ;;
  rc ← tinyfs_mount;
  (if rc =? 0 then change (set_mounted true) else mret tt) ;;
  mret rc.

Definition fs_format : C tinyfs Z := tinyfs_format.
Definition fs_open (fp : fs_file) (nm : list Z) : C tinyfs (Z * fs_file) := tinyfs_open (File (index fp) 0 false) nm.
Definition fs_read (fp : fs_file) (len : Z) : C tinyfs (Z * list Z * fs_file) := tinyfs_read fp len.
Definition fs_write (fp : fs_file) (data : list Z) : C tinyfs (Z * fs_file) := tinyfs_write fp data.
Definition fs_rewind (fp : fs_file) : fs_file := File (index fp) 0 (opened fp).
Definition fs_close (fp : fs_file) : fs_file := tinyfs_close fp.
Definition fs_ls : C tinyfs (list (list Z * Z)) := tinyfs_ls.
End tinyfs.
Arguments tinyfs : clear implicits.

(** * Entries as bytes *)

Record entry_ok (e : dir_entry) : Prop := {
  ok_name : length (name e) = FS_MAX_NAME /\ bytes (name e);
  ok_size : 0 <= size e <= FS_SECTOR_SIZE;
  ok_used : used e = 0 \/ used e = 1;
  ok_pad : length (pad e) = 3%nat /\ bytes (pad e);
  ok_nul : used e = 1 -> 0 ∈ name e;
}.

(** the name of a file, without its terminator *)
Definition entry_name (e : dir_entry) : list Z := until_nul (name e).

Lemma word_bytes_word x : 0 <= x < 2 ^ 32 -> bytes_word (word_bytes x) = x.
Proof.
  intros Hx. unfold bytes_word, word_bytes, u8. rewrite !Z.shiftr_div_pow2 by lia. change (2 ^ 8) with 256. change (2 ^ 16) with 65536. change (2 ^ 24) with 16777216.
  pose proof (Z.div_mod x 256 ltac:(lia)). pose proof (Z.div_mod (x / 256) 256 ltac:(lia)) as H1. pose proof (Z.div_mod (x / 65536) 256 ltac:(lia)) as H2.
  rewrite Z.div_div in H1 by lia. rewrite Z.div_div in H2 by lia. change (256 * 256) with 65536 in H1. change (65536 * 256) with 16777216 in H2.
  rewrite (Z.mod_small (x / 16777216)) by (split; [apply Z.div_pos; lia|apply Z.div_lt_upper_bound; lia]). lia.
Qed.

Lemma length_encode_entry e : entry_ok e -> length (encode_entry e) = ENTRY_SIZE.
Proof. intros [[Hn _] _ _ [Hp _] _]. unfold encode_entry. rewrite !length_app, Hn, Hp. done. Qed.

Lemma decode_encode_entry e : entry_ok e -> decode_entry (encode_entry e) = e.
Proof.
  intros [[Hn _] Hs _ [Hp _] _]. destruct e as [nm sz us pd]. cbn in *. unfold FS_MAX_NAME in Hn. unfold decode_entry, encode_entry. cbn [name size used pad].
  rewrite take_app_length' by done. rewrite drop_app_length' by done.
  cbn [app word_bytes]. rewrite lookup_app_r, Hn by lia. change (20 - 16)%nat with 4%nat. cbn [lookup list_lookup].
  change 21%nat with (16 + 5)%nat. rewrite <- drop_drop, drop_app_length' by done. cbn [drop]. rewrite (take_ge pd) by lia.
  f_equal. apply (word_bytes_word sz). unfold FS_SECTOR_SIZE in Hs. lia.
Qed.

Lemma length_encode t : Forall entry_ok t -> length (encode t) = (length t * ENTRY_SIZE)%nat.
Proof. induction 1 as [|e t He Ht IH]; [done|]. unfold encode in *. cbn. rewrite length_app, IH, length_encode_entry by done. done. Qed.

Lemma decode_encode t : Forall entry_ok t -> decode (length t) (encode t) = t.
Proof.
  induction 1 as [|e t He Ht IH]; [done|]. cbn [length decode encode fmap list_fmap concat]. fold (encode t).
  rewrite take_app_length' by by rewrite length_encode_entry. rewrite drop_app_length' by by rewrite length_encode_entry. by rewrite decode_encode_entry, IH.
Qed.

Lemma encode_bytes t : Forall entry_ok t -> bytes (encode t).
Proof.
  induction 1 as [|e t He Ht IH]; [by constructor|]. unfold bytes, encode in *. cbn. apply Forall_app. split; [|done].
  destruct He as [[_ Hn] _ Hu [_ Hp] _]. unfold encode_entry. repeat (apply Forall_app; split); [done| |apply Forall_singleton; lia|done].
  unfold word_bytes. repeat (apply Forall_cons; split; [apply u8_range|]). by apply Forall_nil.
Qed.

(** ** Names *)

Lemma tinyfs_streq_spec a nm : 0 ∈ a -> cstr_ok nm -> streq a (nm ++ [0]) = Ok (bool_decide (until_nul a = nm)).
Proof.
  revert nm. induction a as [|x a IH]; intros nm Ha Hnm; [by apply elem_of_nil in Ha|].
  destruct nm as [|y nm]; cbn [app streq until_nul].
  - destruct (Z.eqb_spec x 0) as [-> |Hx]; cbn [orb]; [done|]. rewrite Z.eqb_refl. by rewrite bool_decide_eq_false_2.
  - apply Forall_cons in Hnm as [Hy Hnm]. destruct (Z.eqb_spec x 0) as [-> |Hx]; cbn [orb].
    + rewrite (proj2 (Z.eqb_neq 0 y)) by lia. by rewrite bool_decide_eq_false_2.
    + rewrite (proj2 (Z.eqb_neq y 0)) by lia. destruct (Z.eqb_spec x y) as [<-|Hxy].
      * rewrite IH; [|apply elem_of_cons in Ha as [Ha|Ha]; [congruence|done]|done]. f_equal. apply bool_decide_ext. split; [by intros ->|by intros [= ->]].
      * rewrite bool_decide_eq_false_2; [done|]. intros [= ? ?]. done.
Qed.

Lemma strcopy_loop_spec nm dst i max : cstr_ok nm -> (i + length nm < max)%nat -> (max <= length dst)%nat ->
  strcopy_loop i dst (nm ++ [0]) max = take i dst ++ nm ++ 0 :: drop (i + length nm + 1) dst.
Proof.
  revert dst i. induction nm as [|c nm IH]; intros dst i Hnm Hlen Hdst; cbn [app strcopy_loop length].
  - cbn in Hlen. change (0 =? 0) with true. cbn [negb andb]. rewrite insert_take_drop by lia. replace (i + 0 + 1)%nat with (S i) by lia. done.
  - apply Forall_cons in Hnm as [Hc Hnm]. cbn in Hlen. rewrite (proj2 (Z.eqb_neq c 0)) by lia. rewrite (proj2 (Nat.ltb_lt i (max - 1))) by lia. cbn [negb andb].
    rewrite IH by (done || rewrite ?length_insert; lia). rewrite (take_S_r _ _ c) by (rewrite list_lookup_insert_eq by lia; done).
    rewrite take_insert_ge by lia. rewrite drop_insert_lt by lia. rewrite <- app_assoc. cbn [app]. by replace (S i + length nm + 1)%nat with (i + S (length nm) + 1)%nat by lia.
Qed.

Lemma until_nul_app nm r : cstr_ok nm -> until_nul (nm ++ 0 :: r) = nm.
Proof. induction nm as [|c nm IH]; intros Hnm; [done|]. apply Forall_cons in Hnm as [Hc Hnm]. cbn. rewrite (proj2 (Z.eqb_neq c 0)) by lia. by rewrite IH. Qed.
