(* ===== verification/RtosFsSpec.v ===== *)
(** What TinyFS promises: a map from names to contents that survives a remount.

    [disk_rel m t f]: the directory [t] and the cells [f] represent the files
    [m].  Every operation of [RtosFs] is described on the map; the flash is any
    device with the interface of [NorFlash], and the witnesses use the driver
    of [RtosFlash] on the simulated board. *)

From stdpp Require Import gmap list.
From Stdlib Require Import ZArith Lia.
From S2P Require Import Prelude Memory Checked NorFlash RtosFs.

(** * Representation *)

(** the first byte of the sector of file [i] *)
Definition sector_of (i : nat) : Z := (Z.of_nat i + 1) * 4096.

Definition file_bytes (f : Z -> Z) (i : nat) (n : Z) : list Z := map f (seqZ (sector_of i) n).

(** the contents after the bytes [l] were written at [o]: NOR flash only clears bits *)
Definition overwrite (c : list Z) (o : Z) (l : list Z) : list Z :=
  map (programmed (fun a => default 0xFF (c !! Z.to_nat a)) o l) (seqZ 0 (Z.max (Z.of_nat (length c)) (o + Z.of_nat (length l)))).

Record disk_rel (m : gmap (list Z) (list Z)) (t : list dir_entry) (f : Z -> Z) : Prop := {
  rel_length : length t = FS_MAX_FILES;
  rel_entries : Forall entry_ok t;
  rel_disk : map f (seqZ 0 (Z.of_nat DIR_SIZE)) = encode t;
  rel_distinct : forall i j e e', t !! i = Some e -> t !! j = Some e' -> used e = 1 -> used e' = 1 -> entry_name e = entry_name e' -> i = j;
  rel_tail : forall i e k, t !! i = Some e -> used e = 1 -> size e <= k < 4096 -> f (sector_of i + k) = 0xFF;
  rel_files : forall n c, m !! n = Some c <-> exists i e, t !! i = Some e /\ used e = 1 /\ entry_name e = n /\ c = file_bytes f i (size e);
}.

Lemma seqZ_shift o n : seqZ o n = map (Z.add o) (seqZ 0 n).
Proof. rewrite <- (Z.add_0_r o) at 1. symmetry. apply fmap_add_seqZ. Qed.

Lemma map_seqZ_ext (f g : Z -> Z) o o' n : (forall k, 0 <= k < n -> f (o + k) = g (o' + k)) -> map f (seqZ o n) = map g (seqZ o' n).
Proof.
  intros Hfg. rewrite (seqZ_shift o), (seqZ_shift o'), !map_map. apply map_ext_in. intros k Hk. apply list_elem_of_In, elem_of_seqZ in Hk. apply Hfg. lia.
Qed.

Lemma lookup_map_seqZ (f : Z -> Z) o n k : 0 <= k < n -> map f (seqZ o n) !! Z.to_nat k = Some (f (o + k)).
Proof. intros Hk. change (map f (seqZ o n)) with (f <$> seqZ o n). rewrite list_lookup_fmap, lookup_seqZ_lt by lia. cbn. by rewrite Z2Nat.id by lia. Qed.

Lemma length_map_seqZ (f : Z -> Z) o n : 0 <= n -> Z.of_nat (length (map f (seqZ o n))) = n.
Proof. intros Hn. rewrite length_map, length_seqZ. lia. Qed.

(** two lists as functions *)
Lemma map_seqZ_lookup (f : Z -> Z) o l : (forall k, 0 <= k < Z.of_nat (length l) -> Some (f (o + k)) = l !! Z.to_nat k) -> map f (seqZ o (Z.of_nat (length l))) = l.
Proof.
  intros Hf. apply list_eq. intros i. destruct (decide (i < length l)%nat) as [Hi|Hi].
  - rewrite <- (Nat2Z.id i), lookup_map_seqZ by lia. apply Hf. lia.
  - rewrite !lookup_ge_None_2; [done|lia|rewrite length_map, length_seqZ; lia].
Qed.

Lemma alter_insert {A} (g : A -> A) i (t : list A) e : t !! i = Some e -> alter g i t = <[i := g e]> t.
Proof.
  intros Hi. apply list_eq. intros j. destruct (decide (i = j)) as [<-|Hj].
  - by rewrite list_lookup_alter_eq, list_lookup_insert_eq, Hi by (by eapply lookup_lt_Some).
  - by rewrite list_lookup_alter_ne, list_lookup_insert_ne by done.
Qed.

(** One file is created or changed, and the others are left alone. *)
Lemma disk_rel_change m t f i e e' f' : disk_rel m t f -> t !! i = Some e -> entry_ok e' -> used e' = 1 ->
  used e = 0 \/ used e = 1 /\ entry_name e = entry_name e' ->
  (forall j x, t !! j = Some x -> used x = 1 -> entry_name x = entry_name e' -> j = i) ->
  map f' (seqZ 0 (Z.of_nat DIR_SIZE)) = encode (<[i := e']> t) ->
  (forall j k, j <> i -> 0 <= k < 4096 -> f' (sector_of j + k) = f (sector_of j + k)) ->
  (forall k, size e' <= k < 4096 -> f' (sector_of i + k) = 0xFF) ->
  disk_rel (<[entry_name e' := file_bytes f' i (size e')]> m) (<[i := e']> t) f'.
Proof.
  intros [H1 H2 H3 H4 H5 H6] Hi He' Hu' Hold Hsame Hdisk Hother Htail. pose proof (lookup_lt_Some _ _ _ Hi) as Hlt.
  assert (Hent : forall j x, t !! j = Some x -> used x = 1 -> 0 <= size x <= 4096) by (intros j x Hj _; apply (Forall_lookup_1 _ _ _ _ H2 Hj)).
  assert (Hbytes : forall j x, j <> i -> t !! j = Some x -> used x = 1 -> file_bytes f' j (size x) = file_bytes f j (size x)).
  { intros j x Hj Hx Hux. apply map_seqZ_ext. intros k Hk. apply Hother; [done|]. specialize (Hent j x Hx Hux). lia. }
  split.
  - by rewrite length_insert.
  - by apply Forall_insert.
  - done.
  - intros j j' x x' Hj Hj' Hux Hux' Hn.
    apply list_lookup_insert_Some in Hj as [(<- & <- & _)|[Hne Hj]], Hj' as [(<- & <- & _)|[Hne' Hj']]; [done| | |by eapply H4].
    + symmetry. by eapply Hsame.
    + by eapply Hsame.
  - intros j x k Hj Hux Hk. apply list_lookup_insert_Some in Hj as [(<- & <- & _)|[Hne Hj]]; [by apply Htail|].
    specialize (Hent j x Hj Hux). rewrite Hother by (done || lia). by eapply H5.
  - intros n c. destruct (decide (entry_name e' = n)) as [<-|Hn].
    + rewrite lookup_insert_eq. split.
      * intros [= <-]. exists i, e'. by rewrite list_lookup_insert_eq.
      * intros (j & x & Hj & Hux & Hxn & ->). apply list_lookup_insert_Some in Hj as [(<- & <- & _)|[Hne Hj]]; [done|]. destruct Hne. symmetry. by eapply Hsame.
    + rewrite lookup_insert_ne by done. rewrite H6. split; intros (j & x & Hj & Hux & Hxn & ->).
      * exists j, x. assert (Hne : i <> j). { intros <-. rewrite Hi in Hj. injection Hj as <-. destruct Hold as [Hold|[_ Hold]]; congruence. }
        rewrite list_lookup_insert_ne by done. split; [done|]. split; [done|]. split; [done|]. symmetry. by apply Hbytes.
      * apply list_lookup_insert_Some in Hj as [(<- & <- & _)|[Hne Hj]]; [congruence|]. exists j, x. split; [done|]. split; [done|]. split; [done|]. by apply Hbytes.
Qed.

Lemma filter_all {A} (P : A -> Prop) `{forall x, Decision (P x)} l : Forall P l -> filter P l = l.
Proof. induction 1 as [|x l Hx Hl IH]; [done|]. by rewrite filter_cons_True, IH. Qed.

(** There are as many files as entries in use. *)
Lemma nodup_names t : (forall i j e e', t !! i = Some e -> t !! j = Some e' -> used e = 1 -> used e' = 1 -> entry_name e = entry_name e' -> i = j) ->
  NoDup (entry_name <$> filter (fun e => used e = 1) t).
Proof.
  induction t as [|x t IH]; intros Hd; [constructor|].
  assert (Ht : NoDup (entry_name <$> filter (fun e => used e = 1) t)).
  { apply IH. intros i j e e' Hi Hj H1 H2 H3. assert (S i = S j) by (eapply (Hd (S i) (S j)); eauto). lia. }
  rewrite filter_cons. case_decide as Hx; [|done]. cbn. constructor; [|done].
  intros (e & Hn & He)%list_elem_of_fmap. apply list_elem_of_filter in He as [Hue He]. apply list_elem_of_lookup in He as [j Hj].
  specialize (Hd 0%nat (S j) x e eq_refl Hj Hx Hue Hn). lia.
Qed.

Lemma disk_rel_size m t f : disk_rel m t f -> base.size m = length (filter (fun e => used e = 1) t).
Proof.
  intros [_ _ _ H4 _ H6]. rewrite <- size_dom. rewrite <- (length_fmap entry_name). rewrite <- (size_list_to_set (C := gset (list Z))) by by apply nodup_names.
  f_equal. apply set_eq. intros n. rewrite elem_of_dom, elem_of_list_to_set, list_elem_of_fmap. split.
  - intros [c Hc]. apply H6 in Hc as (i & e & Hi & Hu & Hn & _). exists e. split; [done|]. apply list_elem_of_filter. split; [done|]. by eapply list_elem_of_lookup_2.
  - intros (e & -> & [Hu He]%list_elem_of_filter). apply list_elem_of_lookup in He as [i Hi]. eexists. apply H6. by exists i, e.
Qed.

(** A directory without files. *)
Lemma disk_rel_empty t f : length t = FS_MAX_FILES -> Forall entry_ok t -> Forall (fun e => used e = 0) t ->
  map f (seqZ 0 (Z.of_nat DIR_SIZE)) = encode t -> disk_rel ∅ t f.
Proof.
  intros Hlen Ht Hu Hd. assert (Hno : forall i e, t !! i = Some e -> used e <> 1) by (intros i e Hi; rewrite (Forall_lookup_1 _ _ _ _ Hu Hi); lia).
  split; [done..| | |].
  - intros i j e e' Hi _ Hue. by destruct (Hno i e).
  - intros i e k Hi Hue. by destruct (Hno i e).
  - intros n c. rewrite lookup_empty. split; [done|]. intros (i & e & Hi & Hue & _). by destruct (Hno i e).
Qed.

(** appending is writing at the end *)
Lemma overwrite_append c l : bytes c -> bytes l -> overwrite c (Z.of_nat (length c)) l = c ++ l.
Proof.
  intros Hc Hl. unfold overwrite. replace (Z.max _ _) with (Z.of_nat (length (c ++ l))) by (rewrite length_app; lia). apply map_seqZ_lookup.
  intros k Hk. rewrite length_app in Hk. rewrite Z.add_0_l. destruct (decide (k < Z.of_nat (length c))) as [Hlt|Hge].
  - rewrite programmed_out by lia. rewrite lookup_app_l by lia. destruct (lookup_lt_is_Some_2 c (Z.to_nat k)) as [x ->]; [lia|]. done.
  - rewrite programmed_erased; [|done|lia|]; [rewrite lookup_app_r by lia; f_equal; lia|]. by rewrite lookup_ge_None_2 by lia.
Qed.

Section ops.
Context {D : Type} `{FlashDriverSpec D}.
(** room for the directory and fifteen files *)
Context (Hroom : 16 * 4096 <= flash_size).

Definition fs_rel (m : gmap (list Z) (list Z)) (s : tinyfs D) : Prop := exists f, holds f (dev s) /\ disk_rel m (dir_table s) f.

(** * The directory on the flash *)

Lemma cok_flash {A} (c : C D A) s (Q : A -> tinyfs D -> Prop) : cok c (dev s) (fun r d => Q r (set_dev d s)) -> cok (on_flash c) s Q.
Proof. unfold cok, on_flash. destruct (c (dev s)) as [[r d]| |]; done. Qed.

(** the cells after the directory [t] was flushed *)
Definition flushed (f : Z -> Z) (t : list dir_entry) : Z -> Z := programmed (erased f 0 4096) 0 (encode t).

Lemma flushed_high f t a : length t = FS_MAX_FILES -> Forall entry_ok t -> 4096 <= a -> flushed f t a = f a.
Proof.
  intros Hlen Ht Ha. unfold flushed. rewrite programmed_out, erased_out; [done|lia|]. rewrite length_encode, Hlen by done. unfold FS_MAX_FILES, ENTRY_SIZE. lia.
Qed.

Lemma flushed_dir f t : length t = FS_MAX_FILES -> Forall entry_ok t -> map (flushed f t) (seqZ 0 (Z.of_nat DIR_SIZE)) = encode t.
Proof.
  intros Hlen Ht. assert (Hl : length (encode t) = DIR_SIZE) by (rewrite length_encode, Hlen by done; done). rewrite <- Hl. apply map_seqZ_lookup.
  intros k Hk. rewrite Z.add_0_l. unfold flushed. rewrite programmed_erased; [by rewrite Z.sub_0_r|by apply encode_bytes|lia|].
  apply erased_in. rewrite Hl in Hk. unfold DIR_SIZE, FS_MAX_FILES, ENTRY_SIZE in Hk. lia.
Qed.

Lemma dir_flush_spec f s : holds f (dev s) -> length (dir_table s) = FS_MAX_FILES -> Forall entry_ok (dir_table s) ->
  cok dir_flush s (fun r s' => r = 0 /\ dir_table s' = dir_table s /\ mounted s' = mounted s /\ holds (flushed f (dir_table s)) (dev s')).
Proof.
  intros Hf Hlen Ht. unfold dir_flush, DIR_SECTOR, FS_SECTOR_SIZE. rewrite Z.mul_0_l. apply cok_bind, cok_flash.
  eapply cok_mono; [apply (flash_erase_spec f _ 0 1); [done|done|done|done|unfold SECTOR; lia]|]. intros r d [_ Hd]. cbn beta.
  apply cok_bind, cok_look. cbn [dir_table set_dev]. cbn beta. apply cok_bind, cok_flash. cbn [dev set_dev].
  eapply cok_mono; [apply (flash_write_spec (erased f 0 4096)); [done|by apply encode_bytes|done|]|].
  - rewrite length_encode, Hlen by done. unfold FS_MAX_FILES, ENTRY_SIZE. lia.
  - intros r' d' [_ Hd']. by apply cok_ret.
Qed.

(** * Mounting *)

(** entries of any bytes *)
Record entry_shape (e : dir_entry) : Prop := {
  shape_name : length (name e) = FS_MAX_NAME /\ bytes (name e);
  shape_pad : length (pad e) = 3%nat /\ bytes (pad e);
}.

Lemma clear_entry_ok e : entry_shape e -> entry_ok (clear_entry e) /\ used (clear_entry e) = 0.
Proof.
  intros [[Hn Hb] Hp]. split; [|done]. split; cbn; [|unfold FS_SECTOR_SIZE; lia|by left|done|done]. rewrite length_insert. split; [done|]. apply Forall_insert; [done|lia].
Qed.

Lemma clear_all t : Forall entry_shape t -> Forall entry_ok (clear_entry <$> t) /\ Forall (fun e => used e = 0) (clear_entry <$> t).
Proof. intros Ht. rewrite !Forall_fmap. split; eapply Forall_impl; [exact Ht| |exact Ht|]; intros e He; by apply clear_entry_ok. Qed.

Lemma decode_shape n l : length l = (n * ENTRY_SIZE)%nat -> bytes l -> Forall entry_shape (decode n l) /\ length (decode n l) = n.
Proof.
  revert l. induction n as [|n IH]; intros l Hl Hb; [done|]. cbn [decode]. unfold ENTRY_SIZE in *.
  destruct (IH (drop 24 l)) as [IH1 IH2]; [rewrite length_drop; lia|by apply Forall_drop|]. cbn [length]. rewrite IH2. split; [|done]. constructor; [|done].
  unfold decode_entry. split; cbn [name pad]; (split; [rewrite ?length_take, ?length_drop, ?length_take; unfold FS_MAX_NAME; lia|]); unfold bytes; auto using Forall_take, Forall_drop.
Qed.

Lemma entry_ok_shape e : entry_ok e -> entry_shape e.
Proof. by intros [? ? ? ? ?]. Qed.

(** A formatted flash is read back; what RAM held before does not matter. *)
Lemma fs_mount_spec m t f s : holds f (dev s) -> disk_rel m t f ->
  cok fs_mount s (fun r s' => r = 0 /\ mounted s' = true /\ fs_rel m s').
Proof.
  intros Hf Hrel. pose proof Hrel as [H1 H2 H3 _ _ _]. unfold fs_mount. apply cok_bind, cok_change. cbn beta. apply cok_bind.
  unfold tinyfs_mount, DIR_SECTOR, FS_SECTOR_SIZE. rewrite Z.mul_0_l. apply cok_bind, cok_flash. cbn [dev set_mounted].
  eapply cok_mono; [apply (flash_read_spec f); [done|lia|unfold DIR_SIZE, FS_MAX_FILES, ENTRY_SIZE; lia]|]. intros r d [-> Hd]. cbn beta. cbn [snd]. rewrite H3.
  apply cok_bind, cok_change. apply cok_bind, cok_look. cbn [dir_table set_dir]. rewrite <- H1, decode_encode by done.
  destruct (lookup_lt_is_Some_2 t 0) as [e0 He0]; [rewrite H1; unfold FS_MAX_FILES; lia|].
  apply cok_bind, cok_lift. rewrite (aref_ok t 0 e0) by done. apply ok_ret.
  rewrite (proj2 (Z.eqb_neq (used e0) 0xFF)) by (destruct (ok_used _ (Forall_lookup_1 _ _ _ _ H2 He0)); lia).
  apply cok_bind, cok_ret, cok_ret. rewrite Z.eqb_refl. apply cok_bind, cok_change, cok_ret. split; [done|]. split; [done|]. by exists f.
Qed.

(** A blank flash is formatted. *)
Lemma fs_mount_blank f s : holds f (dev s) -> f 20 = 0xFF -> cok fs_mount s (fun r s' => r = 0 /\ mounted s' = true /\ fs_rel ∅ s').
Proof.
  intros Hf H20. unfold fs_mount. apply cok_bind, cok_change. cbn beta. apply cok_bind.
  unfold tinyfs_mount, DIR_SECTOR, FS_SECTOR_SIZE. rewrite Z.mul_0_l. apply cok_bind, cok_flash. cbn [dev set_mounted].
  eapply cok_mono; [apply (flash_read_spec f); [done|lia|unfold DIR_SIZE, FS_MAX_FILES, ENTRY_SIZE; lia]|]. intros r d [-> Hd]. cbn beta. cbn [snd].
  set (l := map f (seqZ 0 (Z.of_nat DIR_SIZE))). set (t := decode FS_MAX_FILES l).
  assert (Hl : length l = DIR_SIZE) by (apply Nat2Z.inj; unfold l; by rewrite length_map_seqZ by lia).
  assert (Hb : bytes l) by (apply Forall_forall; intros x Hx; unfold l in Hx; apply list_elem_of_In, in_map_iff in Hx as (a & <- & _); by eapply holds_byte).
  destruct (decode_shape FS_MAX_FILES l Hl Hb) as [Hsh Hlen]. fold t in Hsh, Hlen.
  apply cok_bind, cok_change. apply cok_bind, cok_look. cbn [dir_table set_dir].
  assert (He0 : exists e0, t !! 0%nat = Some e0 /\ used e0 = 0xFF).
  { eexists. split; [reflexivity|]. cbn [used decode_entry]. rewrite lookup_take_lt by (unfold ENTRY_SIZE; lia). change 20%nat with (Z.to_nat 20). unfold l.
    rewrite lookup_map_seqZ by (unfold DIR_SIZE, FS_MAX_FILES, ENTRY_SIZE; lia). done. }
  destruct He0 as (e0 & He0 & Hu0). apply cok_bind, cok_lift. rewrite (aref_ok t 0 e0) by done. apply ok_ret. rewrite Hu0, Z.eqb_refl.
  destruct (clear_all t Hsh) as [Hok Hz].
  apply cok_bind, cok_bind, cok_change, cok_bind. eapply cok_mono; [apply (dir_flush_spec f); [done|cbn [dir_table set_dir set_dev]; by rewrite length_fmap|done]|].
  cbn [dir_table set_dir]. intros r s' (_ & Ht' & _ & Hd'). apply cok_ret, cok_ret. rewrite Z.eqb_refl. apply cok_bind, cok_change, cok_ret. split; [done|]. split; [done|].
  exists (flushed f (clear_entry <$> t)). split; [done|]. cbn [dir_table set_mounted]. rewrite Ht'. apply disk_rel_empty; [by rewrite length_fmap|done..|].
  apply flushed_dir; [by rewrite length_fmap|done].
Qed.

Lemma fs_format_spec f s : holds f (dev s) -> length (dir_table s) = FS_MAX_FILES -> Forall entry_shape (dir_table s) ->
  cok fs_format s (fun r s' => r = 0 /\ fs_rel ∅ s').
Proof.
  intros Hf Hlen Hsh. destruct (clear_all _ Hsh) as [Hok Hz]. unfold fs_format, tinyfs_format, DIR_SECTOR, FS_SECTOR_SIZE. rewrite Z.mul_0_l. apply cok_bind, cok_flash.
  eapply cok_mono; [apply (flash_erase_spec f _ 0 1); [done|done|done|done|unfold SECTOR; lia]|]. intros r d [_ Hd]. cbn beta.
  apply cok_bind, cok_change. eapply cok_mono; [apply (dir_flush_spec (erased f 0 (SECTOR * 1))); [done|cbn [dir_table set_dir set_dev]; by rewrite length_fmap|done]|].
  cbn [dir_table set_dir set_dev]. intros r' s' (-> & Ht' & _ & Hd'). split; [done|]. eexists. split; [exact Hd'|]. rewrite Ht'. apply disk_rel_empty; [by rewrite length_fmap|done..|].
  apply flushed_dir; [by rewrite length_fmap|done].
Qed.

(** * Opening *)

Lemma find_name_spec t nm i : Forall entry_ok t -> cstr_ok nm -> exists r, find_name t (nm ++ [0]) i = Ok r /\
  match r with
  | Some j => exists e, (i <= j)%nat /\ t !! (j - i)%nat = Some e /\ used e = 1 /\ entry_name e = nm
  | None => forall j e, t !! j = Some e -> used e = 1 -> entry_name e <> nm
  end.
Proof.
  intros Ht Hnm. revert i. induction Ht as [|e t He Ht IH]; intros i; [by exists None|]. cbn [find_name].
  destruct (IH (S i)) as (r & Hr & Hres).
  assert (Hlater : used e = 0 \/ entry_name e <> nm -> match r with
    | Some j => exists x, (i <= j)%nat /\ (e :: t) !! (j - i)%nat = Some x /\ used x = 1 /\ entry_name x = nm
    | None => forall j x, (e :: t) !! j = Some x -> used x = 1 -> entry_name x <> nm end).
  { intros Hno. destruct r as [j|].
    - destruct Hres as (x & Hj & Hx & Hrest). exists x. split; [lia|]. replace (j - i)%nat with (S (j - S i)) by lia. done.
    - intros [|j] x Hx Hux; [injection Hx as <-; destruct Hno; [lia|done]|]. by eapply Hres. }
  destruct (ok_used e He) as [Hu|Hu]; rewrite Hu; cbn [Z.eqb].
  - exists r. split; [done|]. apply Hlater. by left.
  - rewrite tinyfs_streq_spec by (done || by apply He). cbn [mbind outcome_bind]. fold (entry_name e). case_bool_decide as Hn.
    + exists (Some i). split; [done|]. exists e. rewrite Nat.sub_diag. done.
    + exists r. split; [done|]. apply Hlater. by right.
Qed.

Lemma find_unused_spec t i : Forall entry_ok t -> match find_unused t i with
  | Some j => exists e, (i <= j)%nat /\ t !! (j - i)%nat = Some e /\ used e = 0
  | None => Forall (fun e => used e = 1) t
  end.
Proof.
  intros Ht. revert i. induction Ht as [|e t He Ht IH]; intros i; [by constructor|]. cbn [find_unused].
  destruct (ok_used e He) as [Hu|Hu]; rewrite Hu; cbn [Z.eqb].
  - exists e. rewrite Nat.sub_diag. done.
  - specialize (IH (S i)). destruct (find_unused t (S i)) as [j|]; [|by constructor]. destruct IH as (x & Hj & Hx & Hux). exists x. split; [lia|]. by replace (j - i)%nat with (S (j - S i)) by lia.
Qed.

(** A name of sixteen characters or more matches no entry, although opening it
    created one with the first fifteen: every such call takes another entry. *)
Lemma long_name_never_found t nm i : Forall entry_ok t -> cstr_ok nm -> (FS_MAX_NAME <= length nm)%nat -> find_name t (nm ++ [0]) i = Ok None.
Proof.
  intros Ht Hnm Hlen. destruct (find_name_spec t nm i Ht Hnm) as (r & -> & Hr). destruct r as [j|]; [|done]. exfalso.
  destruct Hr as (e & _ & He & Hu & <-). pose proof (Forall_lookup_1 _ _ _ _ Ht He) as Hok. destruct (ok_name _ Hok) as [Hn _]. pose proof (ok_nul _ Hok Hu) as Hnul.
  assert (Hlt : forall l : list Z, 0 ∈ l -> (length (until_nul l) < length l)%nat).
  { induction l as [|x l IH]; intros Hin; [by apply elem_of_nil in Hin|]. cbn. destruct (Z.eqb_spec x 0); cbn; [lia|].
    apply elem_of_cons in Hin as [Hin|Hin]; [congruence|]. specialize (IH Hin). lia. }
  specialize (Hlt _ Hnul). unfold entry_name in Hlen. lia.
Qed.

(** Writing over existing bytes does not replace them. *)
Example overwrite_clears_bits : overwrite [0x0F; 0x41] 0 [0xF0] = [0x00; 0x41].
Proof. reflexivity. Qed.

(** [fp] is open on the file [nm], at offset [o] *)
Definition handle (s : tinyfs D) (fp : fs_file) (nm : list Z) (o : Z) : Prop :=
  exists i e, dir_table s !! i = Some e /\ used e = 1 /\ entry_name e = nm /\ fp = File (Z.of_nat i) o true.

(** names that fit in an entry *)
Definition name_ok (nm : list Z) : Prop := cstr_ok nm /\ (length nm < FS_MAX_NAME)%nat.

Lemma new_entry_ok e nm : entry_ok e -> name_ok nm ->
  let e' := Entry (strcopy (name e) (nm ++ [0]) FS_MAX_NAME) 0 1 (pad e) in entry_ok e' /\ entry_name e' = nm.
Proof.
  intros [[Hn Hb] _ _ Hp _] [Hc Hlen]. cbn zeta. unfold strcopy. rewrite strcopy_loop_spec by (done || lia). change (take 0 (name e)) with (@nil Z). cbn [app]. change (0 + length nm + 1)%nat with (length nm + 1)%nat.
  split; [|by apply until_nul_app]. split; cbn [name size used pad]; [|unfold FS_SECTOR_SIZE; lia|by right|done|set_solver].
  rewrite !length_app. cbn [length]. rewrite length_drop. split; [lia|]. unfold bytes. apply Forall_app. split; [|constructor; [lia|by apply Forall_drop]].
  eapply Forall_impl; [exact Hc|]. cbn. lia.
Qed.

(** what [fs_open] answers: the file, a new empty file, or an error when the directory is full *)
Lemma fs_open_spec m s fp nm : fs_rel m s -> name_ok nm ->
  cok (fs_open fp (nm ++ [0])) s (fun r s' =>
    match m !! nm with
    | Some _ => r.1 = 0 /\ handle s' r.2 nm 0 /\ s' = s
    | None => if decide (base.size m < FS_MAX_FILES)%nat then r.1 = 0 /\ handle s' r.2 nm 0 /\ fs_rel (<[nm := []]> m) s'
              else r = (-1, File (index fp) 0 false) /\ s' = s
    end).
Proof.
  intros (f & Hf & Hrel) Hnm. pose proof Hrel as [H1 H2 H3 H4 H5 H6]. unfold fs_open, tinyfs_open. apply cok_bind, cok_look. cbn beta.
  destruct (find_name_spec (dir_table s) nm 0) as (r & Hr & Hres); [done|apply Hnm|]. apply cok_bind, cok_lift. rewrite Hr. apply ok_ret.
  destruct r as [i|].
  - destruct Hres as (e & _ & He & Hu & Hn). rewrite Nat.sub_0_r in He. apply cok_ret. rewrite (proj2 (H6 nm _)) by (exists i, e; done). split; [done|]. split; [|done]. by exists i, e.
  - assert (Hnone : m !! nm = None). { destruct (m !! nm) as [c|] eqn:E; [|done]. apply H6 in E as (i & e & He & Hu & Hn & _). by destruct (Hres i e). }
    rewrite Hnone. pose proof (find_unused_spec (dir_table s) 0 H2) as Hfree. destruct (find_unused (dir_table s) 0) as [i|].
    + destruct Hfree as (e & _ & He & Hu). rewrite Nat.sub_0_r in He. destruct (decide (base.size m < FS_MAX_FILES)%nat) as [_|Hno].
      2: { destruct Hno. rewrite (disk_rel_size _ _ _ Hrel), <- H1. apply (length_filter_lt _ _ e); [by eapply list_elem_of_lookup_2|lia]. }
      pose proof (Forall_lookup_1 _ _ _ _ H2 He) as Hoe. destruct (new_entry_ok e nm Hoe Hnm) as [Hok Hname]. set (e' := Entry _ _ _ _) in *.
      rewrite (alter_insert _ _ _ _ He). fold e'. set (t' := <[i := e']> (dir_table s)).
      assert (Ht' : length t' = FS_MAX_FILES /\ Forall entry_ok t') by (split; [unfold t'; by rewrite length_insert|by apply Forall_insert]).
      apply cok_bind, cok_change, cok_bind. eapply cok_mono; [apply (dir_flush_spec f); [done|apply Ht'..]|]. intros r s1 (_ & Hs1 & _ & Hf1). cbn [dir_table set_dir] in Hs1, Hf1.
      pose proof (lookup_lt_Some _ _ _ He) as Hlt. rewrite H1 in Hlt. unfold FS_MAX_FILES in Hlt.
      apply cok_bind, cok_flash. change (DATA_SECTOR (Z.of_nat i) * FS_SECTOR_SIZE) with (sector_of i).
      eapply cok_mono; [apply (flash_erase_spec (flushed f t') _ (sector_of i) 1); [done|by apply Z.mod_mul|unfold sector_of; lia|lia|unfold sector_of, SECTOR; lia]|].
      intros r2 d [_ Hd]. apply cok_ret. cbn [fst snd]. split; [done|]. split.
      * exists i, e'. cbn [dir_table set_dev]. rewrite Hs1. unfold t'. rewrite list_lookup_insert_eq by (rewrite H1; unfold FS_MAX_FILES; lia). done.
      * eexists. split; [exact Hd|]. cbn [dir_table set_dev]. rewrite Hs1. replace (<[nm := []]> m) with (<[entry_name e' := file_bytes (erased (flushed f t') (sector_of i) (SECTOR * 1)) i (size e')]> m) by (by rewrite Hname).
        apply (disk_rel_change m (dir_table s) f i e); [done|done|done|done|by left| | | |].
        -- intros j x Hj Hux Hxn. rewrite Hname in Hxn. by destruct (Hres j x).
        -- fold t'. rewrite <- (flushed_dir f t') by apply Ht'. apply map_seqZ_ext. intros k Hk. apply erased_out. unfold DIR_SIZE, FS_MAX_FILES, ENTRY_SIZE, sector_of in *. lia.
        -- intros j k Hj Hk. rewrite erased_out by (unfold sector_of, SECTOR; lia). apply flushed_high; [apply Ht'..|unfold sector_of; lia].
        -- intros k Hk. apply erased_in. unfold SECTOR. change (size e') with 0 in Hk. lia.
    + destruct (decide (base.size m < FS_MAX_FILES)%nat) as [Hsz|_]; [|by apply cok_ret]. exfalso. revert Hsz. rewrite (disk_rel_size _ _ _ Hrel), filter_all by done. lia.
Qed.

(** * Reading and writing *)

(** what a handle refers to *)
Lemma handle_file m s f fp nm o c : disk_rel m (dir_table s) f -> handle s fp nm o -> m !! nm = Some c ->
  exists i e, dir_table s !! i = Some e /\ used e = 1 /\ entry_name e = nm /\ fp = File (Z.of_nat i) o true /\ (i < 15)%nat /\
    c = file_bytes f i (size e) /\ Z.of_nat (length c) = size e /\ size e <= 4096 /\ entry_ok e.
Proof.
  intros Hrel (i & e & Hi & Hu & Hn & ->) Hc. pose proof Hrel as [H1 H2 _ H4 _ H6].
  apply H6 in Hc as (j & e' & Hj & Hu' & Hn' & ->). assert (j = i) as -> by (eapply H4; eauto; congruence). rewrite Hi in Hj. injection Hj as <-.
  pose proof (Forall_lookup_1 _ _ _ _ H2 Hi) as Hok. pose proof (ok_size _ Hok) as Hs. unfold FS_SECTOR_SIZE in Hs.
  exists i, e. pose proof (lookup_lt_Some _ _ _ Hi) as Hlt. rewrite H1 in Hlt. unfold FS_MAX_FILES in Hlt. unfold file_bytes. rewrite length_map_seqZ by lia. do 4 (split; [done|]). split; [lia|]. do 2 (split; [done|]). split; [lia|done].
Qed.

Lemma fs_read_spec m s fp nm o c len : fs_rel m s -> handle s fp nm o -> m !! nm = Some c -> 0 <= o <= Z.of_nat (length c) -> 0 <= len ->
  let n := Z.min len (Z.of_nat (length c) - o) in
  cok (fs_read fp len) s (fun r s' => r.1 = (n, take (Z.to_nat n) (drop (Z.to_nat o) c)) /\ fs_rel m s' /\ handle s' r.2 nm (o + n)).
Proof.
  intros (f & Hf & Hrel) Hh Hc Ho Hlen. cbn zeta. destruct (handle_file m s f fp nm o c Hrel Hh Hc) as (i & e & Hi & Hu & Hn & -> & Hlt & Hce & Hlc & Hsz & _).
  unfold fs_read, tinyfs_read. cbn [opened negb index offset]. apply cok_bind, cok_look. cbn beta.
  apply cok_bind, cok_lift. rewrite (aref_ok _ _ e) by (lia || by rewrite Nat2Z.id). apply ok_ret. rewrite (u32_small (size e - o)) by lia.
  rewrite <- Hlc. set (n := Z.min len (Z.of_nat (length c) - o)).
  replace (if Z.of_nat (length c) - o <? len then Z.of_nat (length c) - o else len) with n by (unfold n; destruct (Z.ltb_spec (Z.of_nat (length c) - o) len); lia).
  destruct (Z.eqb_spec n 0) as [Hn0|Hn0].
  - apply cok_ret. cbn [fst snd]. rewrite Hn0, Z.add_0_r. split; [done|]. split; [by exists f|]. by exists i, e.
  - apply cok_bind, cok_flash. unfold DATA_SECTOR, FS_SECTOR_SIZE. fold (sector_of i). rewrite u32_small by (unfold sector_of; lia).
    eapply cok_mono; [apply (flash_read_spec f); [done|unfold sector_of; lia|unfold sector_of; lia]|]. intros r d [-> Hd]. apply cok_ret. cbn [fst snd].
    rewrite u32_small by lia. split; [|split; [by exists f|by exists i, e]]. f_equal. rewrite Z2Nat.id by lia.
    apply list_eq. intros k. destruct (decide (k < Z.to_nat n)%nat) as [Hk|Hk].
    + rewrite lookup_take_lt, lookup_drop by lia. rewrite <- (Nat2Z.id k) at 1. rewrite lookup_map_seqZ by lia.
      replace (Z.to_nat o + k)%nat with (Z.to_nat (o + Z.of_nat k)) by lia. rewrite Hce. unfold file_bytes. rewrite lookup_map_seqZ by lia. f_equal. f_equal. lia.
    + rewrite !lookup_ge_None_2; [done|rewrite length_take; lia|rewrite length_map, length_seqZ; lia].
Qed.

(** the sector of an open file, as its contents and erased bytes *)
Lemma file_cells m t f i e k : disk_rel m t f -> t !! i = Some e -> used e = 1 -> 0 <= k < 4096 ->
  f (sector_of i + k) = default 0xFF (file_bytes f i (size e) !! Z.to_nat k).
Proof.
  intros [_ H2 _ _ H5 _] Hi Hu Hk. pose proof (ok_size _ (Forall_lookup_1 _ _ _ _ H2 Hi)) as Hs. destruct (decide (k < size e)) as [Hlt|Hge].
  - unfold file_bytes. by rewrite lookup_map_seqZ by lia.
  - rewrite (H5 i e) by (done || lia). rewrite lookup_ge_None_2; [done|]. pose proof (length_map_seqZ f (sector_of i) (size e) ltac:(lia)). unfold file_bytes. lia.
Qed.

(** the file after a write, with the cells [f'] that agree with the programmed ones in its sector *)
Lemma written_bytes m t f f' i e o l : disk_rel m t f -> t !! i = Some e -> used e = 1 -> 0 <= o -> o + Z.of_nat (length l) <= 4096 ->
  (forall k, 0 <= k < 4096 -> f' (sector_of i + k) = programmed f (sector_of i + o) l (sector_of i + k)) ->
  let c := file_bytes f i (size e) in
  file_bytes f' i (Z.max (size e) (o + Z.of_nat (length l))) = overwrite c o l /\
  (forall k, Z.max (size e) (o + Z.of_nat (length l)) <= k < 4096 -> f' (sector_of i + k) = 0xFF).
Proof.
  intros Hrel Hi Hu Ho Hl Hf' c. pose proof Hrel as [_ H2 _ _ H5 _]. pose proof (ok_size _ (Forall_lookup_1 _ _ _ _ H2 Hi)) as Hs. unfold FS_SECTOR_SIZE in Hs. split.
  - unfold overwrite. replace (Z.of_nat (length c)) with (size e) by (unfold c, file_bytes; rewrite length_map_seqZ by lia; done).
    apply map_seqZ_ext. intros k Hk. rewrite Z.add_0_l, Hf' by lia. apply programmed_shift; [|lia]. eapply file_cells; [done..|lia].
  - intros k Hk. rewrite Hf' by lia. rewrite programmed_out by lia. eapply H5; [done..|lia].
Qed.

Lemma fs_write_spec m s fp nm o c data : fs_rel m s -> handle s fp nm o -> m !! nm = Some c -> 0 <= o <= Z.of_nat (length c) -> bytes data -> Z.of_nat (length data) < 2 ^ 31 ->
  let n := Z.min (Z.of_nat (length data)) (4096 - o) in
  cok (fs_write fp data) s (fun r s' => r.1 = n /\ fs_rel (<[nm := overwrite c o (take (Z.to_nat n) data)]> m) s' /\ handle s' r.2 nm (o + n)).
Proof.
  intros (f & Hf & Hrel) Hh Hc Ho Hdata Hdlen. cbn zeta. destruct (handle_file m s f fp nm o c Hrel Hh Hc) as (i & e & Hi & Hu & Hn & -> & Hlt & Hce & Hlc & Hsz & Hok).
  pose proof Hrel as [H1 H2 H3 H4 _ _].
  unfold fs_write, tinyfs_write. cbn [opened negb index offset]. unfold DATA_SECTOR, FS_SECTOR_SIZE. fold (sector_of i). rewrite (u32_small (sector_of i + o)) by (unfold sector_of; lia).
  rewrite (u32_small (4096 - o)) by lia. set (n := Z.min (Z.of_nat (length data)) (4096 - o)).
  replace (if 4096 - o <? Z.of_nat (length data) then 4096 - o else Z.of_nat (length data)) with n by (unfold n; destruct (Z.ltb_spec (4096 - o) (Z.of_nat (length data))); lia).
  set (l := take (Z.to_nat n) data). assert (Hl : Z.of_nat (length l) = n) by (unfold l; rewrite length_take; lia).
  apply cok_bind, cok_flash. eapply cok_mono; [apply (flash_write_spec f); [done|by apply Forall_take|unfold sector_of; lia|unfold sector_of; lia]|]. intros r d [_ Hd]. cbn beta.
  set (f1 := programmed f (sector_of i + o) l) in *. rewrite (u32_small (o + n)) by lia. apply cok_bind, cok_look. cbn [dir_table set_dev index offset opened].
  apply cok_bind, cok_lift. rewrite (aref_ok _ _ e) by (lia || by rewrite Nat2Z.id). apply ok_ret. rewrite Nat2Z.id.
  set (e' := Entry (name e) (Z.max (size e) (o + n)) (used e) (pad e)).
  assert (He' : entry_ok e') by (destruct Hok; split; try done; unfold FS_SECTOR_SIZE in *; cbn; lia).
  assert (Hrel' : forall f', (forall a, 4096 <= a -> f' a = f1 a) -> map f' (seqZ 0 (Z.of_nat DIR_SIZE)) = encode (<[i := e']> (dir_table s)) ->
    disk_rel (<[nm := overwrite c o l]> m) (<[i := e']> (dir_table s)) f').
  { intros f' Hhigh Hdir. destruct (written_bytes m (dir_table s) f f' i e o l) as [Hw Htail]; [done..|lia|lia|intros k Hk; apply Hhigh; unfold sector_of; lia|].
    rewrite Hce, <- Hw, <- Hn, Hl. apply (disk_rel_change m (dir_table s) f i e e'); [done..|by right| |done| |].
    - intros j x Hj Hux Hxn. by eapply H4.
    - intros j k Hj Hk. rewrite Hhigh by (unfold sector_of; lia). apply programmed_out. unfold sector_of. lia.
    - rewrite Hl in Htail. exact Htail. }
  destruct (Z.ltb_spec (size e) (o + n)) as [Hgrow|Hsame].
  - assert (Heq : Entry (name e) (o + n) (used e) (pad e) = e') by (unfold e'; by rewrite Z.max_r by lia).
    apply cok_bind, cok_bind, cok_change. cbn [dir_table set_dev]. rewrite (alter_insert _ _ _ _ Hi), Heq. set (t' := <[i := e']> (dir_table s)) in *.
    assert (Ht' : length t' = FS_MAX_FILES /\ Forall entry_ok t') by (split; [unfold t'; by rewrite length_insert|by apply Forall_insert]).
    apply cok_bind. eapply cok_mono; [apply (dir_flush_spec f1); [done|apply Ht'..]|]. intros r' s' (_ & Hs' & _ & Hf'). cbn [dir_table set_dir] in Hs', Hf'.
    apply cok_ret, cok_ret. cbn [fst snd]. split; [done|]. split.
    + exists (flushed f1 t'). split; [done|]. rewrite Hs'. apply Hrel'; [intros a Ha; apply flushed_high; [apply Ht'..|done]|apply flushed_dir; apply Ht'].
    + exists i, e'. rewrite Hs'. unfold t'. rewrite list_lookup_insert_eq by (rewrite H1; unfold FS_MAX_FILES; lia). done.
  - assert (Heq : e' = e) by (unfold e'; rewrite Z.max_l by lia; by destruct e). rewrite Heq, list_insert_id in Hrel' by done.
    apply cok_bind, cok_ret, cok_ret. cbn [fst snd]. split; [done|]. split; [|by exists i, e].
    exists f1. split; [done|]. apply Hrel'; [done|]. rewrite <- H3. apply map_seqZ_ext. intros k Hk. apply programmed_out. unfold DIR_SIZE, FS_MAX_FILES, ENTRY_SIZE, sector_of in *. lia.
Qed.

Lemma fs_ls_spec m s : fs_rel m s -> cok fs_ls s (fun r s' => s' = s /\
  forall n k, (exists nm, (nm, k) ∈ r /\ until_nul nm = n) <-> exists c, m !! n = Some c /\ Z.of_nat (length c) = k).
Proof.
  intros (f & Hf & Hrel). pose proof Hrel as [_ H2 _ _ _ H6]. apply cok_bind, cok_look, cok_ret. split; [done|]. intros n k. split.
  - intros (nm & Hin & Hn). apply list_elem_of_fmap in Hin as (e & [= -> ->] & [Hu He]%list_elem_of_filter). apply list_elem_of_lookup in He as [i Hi].
    pose proof (Forall_lookup_1 _ _ _ _ H2 Hi) as Hok. pose proof (ok_size _ Hok). destruct (ok_used _ Hok) as [Hz|Hone]; [by rewrite Hz in Hu|].
    exists (file_bytes f i (size e)). split; [apply H6; by exists i, e|]. unfold file_bytes. rewrite length_map_seqZ by lia. done.
  - intros (c & Hc & <-). apply H6 in Hc as (i & e & Hi & Hu & Hn & ->). pose proof (ok_size _ (Forall_lookup_1 _ _ _ _ H2 Hi)).
    exists (name e). split; [|done]. apply list_elem_of_fmap. exists e. unfold file_bytes. rewrite length_map_seqZ by lia. split; [done|].
    apply list_elem_of_filter. split; [by rewrite Hu|by eapply list_elem_of_lookup_2].
Qed.

(** A handle that is not open is refused, and nothing changes. *)
Lemma fs_closed_spec s (fp : fs_file) : opened fp = false ->
  (forall len, fs_read fp len s = Ok (-1, [], fp, s)) /\ (forall data, fs_write fp data s = Ok (-1, fp, s)).
Proof. intros Ho. unfold fs_read, tinyfs_read, fs_write, tinyfs_write. by rewrite Ho. Qed.

(** C12. TinyFS is a map from names to contents, kept on the flash.  In any state
    that represents the files [m], for names of at most 15 characters (a longer
    one is stored cut off and never found again, [long_name_never_found]):
    opening a file gives a handle at its start,
    opening a new name creates an empty file unless there are fifteen, when it
    answers -1 and changes nothing; reading returns the bytes asked for, up to
    the end; writing changes that file only, clearing bits over what is there
    and extending it up to 4096 bytes; listing gives exactly the names and
    sizes; formatting leaves no file; mounting again, with anything at all in
    RAM, finds the same files; a handle that is closed or was never opened is
    refused with -1 by reading and by writing, which then change nothing; and
    rewinding puts a handle back to the start of its file.  Every call
    returns. *)
Theorem tinyfs_refines_files m s fp nm : fs_rel m s -> name_ok nm ->
  cok (fs_open fp (nm ++ [0])) s (fun r s' =>
    match m !! nm with
    | Some _ => r.1 = 0 /\ handle s' r.2 nm 0 /\ s' = s
    | None => if decide (base.size m < FS_MAX_FILES)%nat then r.1 = 0 /\ handle s' r.2 nm 0 /\ fs_rel (<[nm := []]> m) s'
              else r = (-1, File (index fp) 0 false) /\ s' = s
    end) /\
  (forall o c len, handle s fp nm o -> m !! nm = Some c -> 0 <= o <= Z.of_nat (length c) -> 0 <= len ->
     let n := Z.min len (Z.of_nat (length c) - o) in
     cok (fs_read fp len) s (fun r s' => r.1 = (n, take (Z.to_nat n) (drop (Z.to_nat o) c)) /\ fs_rel m s' /\ handle s' r.2 nm (o + n))) /\
  (forall o c data, handle s fp nm o -> m !! nm = Some c -> 0 <= o <= Z.of_nat (length c) -> bytes data -> Z.of_nat (length data) < 2 ^ 31 ->
     let n := Z.min (Z.of_nat (length data)) (4096 - o) in
     cok (fs_write fp data) s (fun r s' => r.1 = n /\ fs_rel (<[nm := overwrite c o (take (Z.to_nat n) data)]> m) s' /\ handle s' r.2 nm (o + n))) /\
  cok fs_ls s (fun r s' => s' = s /\ forall n k, (exists x, (x, k) ∈ r /\ until_nul x = n) <-> exists c, m !! n = Some c /\ Z.of_nat (length c) = k) /\
  cok fs_format s (fun r s' => r = 0 /\ fs_rel ∅ s') /\
  (forall t, cok fs_mount (Fs t false (dev s)) (fun r s' => r = 0 /\ mounted s' = true /\ fs_rel m s')) /\
  (forall fp', opened fp' = false \/ fp' = fs_close fp ->
     (forall len, fs_read fp' len s = Ok (-1, [], fp', s)) /\ (forall data, fs_write fp' data s = Ok (-1, fp', s))) /\
  (forall o, handle s fp nm o -> handle s (fs_rewind fp) nm 0).
Proof.
  intros Hs Hnm. split; [by apply fs_open_spec|]. split; [intros; by apply fs_read_spec|]. split; [intros; by apply fs_write_spec|]. split; [by apply fs_ls_spec|].
  destruct Hs as (f & Hf & Hrel). split; [|split; [|split]].
  - apply (fs_format_spec f); [done|apply Hrel|]. eapply Forall_impl; [apply Hrel|]. apply entry_ok_shape.
  - intros t. by apply (fs_mount_spec m (dir_table s) f).
  - intros fp' [Ho| ->]; by apply fs_closed_spec.
  - intros o (i & e & Hi & Hu & Hn & ->). by exists i, e.
Qed.
End ops.
