(* ===== verification/RtosFsBoard.v ===== *)
(** The file system, the flash driver and the simulated board together: files
    written by the firmware are on the chip, and are found there after the RAM
    copy of the directory is lost. *)

From stdpp Require Import gmap list.
From Stdlib Require Import ZArith Lia.
From S2P Require Import Prelude Memory Checked NorFlash SimEvents SimBus SimBoard SimLink SimChip RtosFlash RtosFs RtosFsSpec.

Section programs.
Context {D : Type} `{FlashDriver D}.

(** mount, create or open the file, write to it, close it *)
Definition save (nm data : list Z) : C (tinyfs D) Z :=
  fs_mount ;; r ← fs_open (File 0 0 false) nm; w ← fs_write r.2 data; mret w.1.

(** mount, open the file, read it *)
Definition restore (nm : list Z) (len : Z) : C (tinyfs D) (Z * list Z) :=
  fs_mount ;; r ← fs_open (File 0 0 false) nm; x ← fs_read r.2 len; mret x.1.
End programs.

Section board.
Context (gap : Z -> nat).
#[local] Instance gap_driver : FlashDriver machine := w25q_driver gap.
#[local] Instance gap_driver_spec : FlashDriverSpec machine := w25q_driver_spec gap.

Lemma board_room : 16 * 4096 <= flash_size.
Proof. cbn [flash_size gap_driver_spec w25q_driver_spec]. unfold W25Q128_SIZE. lia. Qed.

(** on a blank chip *)
Lemma save_spec f nm data t b m : flash_holds f m -> f 20 = 0xFF -> name_ok nm -> bytes data -> Z.of_nat (length data) <= 4096 ->
  cok (save (nm ++ [0]) data) (Fs t b m) (fun r s => r = Z.of_nat (length data) /\ fs_rel {[nm := data]} s).
Proof.
  intros Hf H20 Hnm Hd Hlen. unfold save. apply cok_bind. eapply cok_mono; [by apply (fs_mount_blank board_room f)|]. intros r s (_ & _ & Hs). cbn beta.
  apply cok_bind. eapply cok_mono; [by apply (fs_open_spec board_room ∅)|]. intros [rc fp] s1. rewrite lookup_empty. cbn [fst snd].
  rewrite decide_True by (rewrite map_size_empty; unfold FS_MAX_FILES; lia). intros (_ & Hh & Hs1).
  apply cok_bind. eapply cok_mono; [apply (fs_write_spec board_room _ s1 fp nm 0 [] data Hs1 Hh); [apply lookup_insert_eq|cbn; lia|done|lia]|].
  intros [n fp'] s2 (Hn & Hs2 & _). cbn [fst] in Hn. apply cok_ret. cbn [fst]. rewrite Z.sub_0_r, Z.min_l in Hn, Hs2 by lia. split; [done|].
  rewrite Nat2Z.id, firstn_all in Hs2. change 0 with (Z.of_nat (length (@nil Z))) in Hs2 at 1. rewrite overwrite_append in Hs2 by (done || by apply Forall_nil). by rewrite insert_insert_eq in Hs2.
Qed.

(** on a chip that holds the file, whatever RAM holds *)
Lemma restore_spec nm data t b (s : tinyfs machine) : fs_rel {[nm := data]} s -> name_ok nm ->
  cok (restore (nm ++ [0]) (Z.of_nat (length data))) (Fs t b (RtosFs.dev s)) (fun r _ => r = (Z.of_nat (length data), data)).
Proof.
  intros (f & Hf & Hrel) Hnm. unfold restore. apply cok_bind. eapply cok_mono; [by apply (fs_mount_spec board_room {[nm := data]} (dir_table s) f)|]. intros r s1 (_ & _ & Hs1). cbn beta.
  apply cok_bind. eapply cok_mono; [by apply (fs_open_spec board_room {[nm := data]} s1 _ nm Hs1)|]. intros [rc fp] s2. rewrite lookup_singleton_eq. cbn [fst snd]. intros (_ & Hh & ->).
  apply cok_bind. eapply cok_mono; [apply (fs_read_spec board_room {[nm := data]} s1 fp nm 0 data (Z.of_nat (length data)) Hs1 Hh); [apply lookup_singleton_eq|lia|lia]|].
  intros [x fp'] s3 (Hx & _). cbn [fst] in Hx. apply cok_ret. cbn [fst]. rewrite Hx. rewrite Z.sub_0_r, Z.min_id, Nat2Z.id. cbn [Z.to_nat drop]. by rewrite firstn_all.
Qed.
End board.

(** C7. From reset to a file that survives.  On the simulated board with a blank
    chip: the drivers start; a program mounts the file system, creates a file
    with any name of up to 15 characters and writes up to 4096 bytes to it;
    then, with anything in RAM where the directory was, mounting again, opening
    the file and reading it returns exactly these bytes.  Every call returns,
    whatever the time between the accesses of the driver. *)
Theorem tinyfs_survives_remount gap chardevs nm data t1 t2 b1 b2 : name_ok nm -> bytes data -> Z.of_nat (length data) <= 4096 ->
  exists m, flash_boot gap (gameboy_v2_init chardevs w25q128_init) = Ok (0, m) /\
  exists s, @save machine (w25q_driver gap) (nm ++ [0]) data (Fs t1 b1 m) = Ok (Z.of_nat (length data), s) /\
  exists s', @restore machine (w25q_driver gap) (nm ++ [0]) (Z.of_nat (length data)) (Fs t2 b2 (RtosFs.dev s)) = Ok (Z.of_nat (length data), data, s').
Proof.
  intros Hnm Hd Hlen.
  pose proof (flash_boot_spec gap chardevs ∅ w25q128_init init_resting empty_cells_ok) as Hb. apply cok_ex in Hb as (r & m & Hb & -> & Hm). exists m. split; [done|].
  pose proof (save_spec gap (cell ∅) nm data t1 b1 m Hm eq_refl Hnm Hd Hlen) as Hs. apply cok_ex in Hs as (r & s & Hs & -> & Hrel). exists s. split; [done|].
  pose proof (restore_spec gap nm data t2 b2 s Hrel Hnm) as Hr. apply cok_ex in Hr as (r & s' & Hr & ->). by exists s'.
Qed.

Lemma tinyfs_survives_remount_witness : let nm := [97; 46; 116; 120; 116] in let gap := fun _ => 0%nat in
  exists m, flash_boot gap (gameboy_v2_init true w25q128_init) = Ok (0, m) /\
  exists s, @save machine (w25q_driver gap) (nm ++ [0]) [72; 105] (Fs [] false m) = Ok (2, s) /\
  exists s', @restore machine (w25q_driver gap) (nm ++ [0]) 2 (Fs [] true (RtosFs.dev s)) = Ok (2, [72; 105], s').
Proof.
  apply (tinyfs_survives_remount (fun _ => 0%nat) true [97; 46; 116; 120; 116] [72; 105] [] [] false true).
  - split; [|cbn; unfold FS_MAX_NAME; lia]. repeat (apply Forall_cons; split; [lia|]). by apply Forall_nil.
  - repeat (apply Forall_cons; split; [lia|]). by apply Forall_nil.
  - cbn. lia.
Defined.

(** the state after the first mount of a blank chip *)
Lemma mounted_blank : exists s : tinyfs machine, @fs_rel machine (w25q_driver (fun _ => 0%nat)) (w25q_driver_spec (fun _ => 0%nat)) ∅ s.
Proof.
  pose proof (flash_boot_spec (fun _ => 0%nat) true ∅ w25q128_init init_resting empty_cells_ok) as Hb. apply cok_ex in Hb as (r & m & _ & _ & Hm).
  pose proof (@fs_mount_blank machine (w25q_driver (fun _ => 0%nat)) (w25q_driver_spec (fun _ => 0%nat)) (board_room (fun _ => 0%nat)) (cell ∅) (Fs [] false m) Hm eq_refl) as Hf.
  apply cok_ex in Hf as (r' & s & _ & _ & _ & Hs). by exists s.
Qed.

Lemma tinyfs_refines_files_witness : exists s : tinyfs machine,
  cok (@fs_open machine (w25q_driver (fun _ => 0%nat)) (File 0 0 false) [97; 0]) s
    (fun r s' => r.1 = 0 /\ @fs_rel machine (w25q_driver (fun _ => 0%nat)) (w25q_driver_spec (fun _ => 0%nat)) {[ [97] := [] ]} s').
Proof.
  destruct mounted_blank as [s Hs]. exists s.
  pose proof (@tinyfs_refines_files machine (w25q_driver (fun _ => 0%nat)) (w25q_driver_spec (fun _ => 0%nat)) (board_room (fun _ => 0%nat)) ∅ s (File 0 0 false) [97] Hs) as Ht.
  destruct Ht as [Ho _]; [split; [apply Forall_cons; split; [lia|by apply Forall_nil]|cbn; unfold FS_MAX_NAME; lia]|].
  eapply cok_mono; [exact Ho|]. cbn beta. rewrite lookup_empty. intros r s'. rewrite decide_True by (rewrite map_size_empty; unfold FS_MAX_FILES; lia).
  intros (H1 & _ & H2). split; [exact H1|exact H2].
Defined.
