(* ===== verification/BootFdt.v ===== *)
(** The device-tree editor of the bootloader, [bootloader/fdt.c].

    The blob is the bytes of the buffer it was loaded into, with the room behind
    it; a pointer into it is an offset and an access outside the buffer is a
    [Fault].  Names and the command line are C strings without their NUL.  The
    messages are left out. *)

From stdpp Require Import list.
From Stdlib Require Import ZArith Lia.
From S2P Require Import Prelude Checked.

Definition FDT_MAGIC : Z := 0xd00dfeed.
Definition FDT_BEGIN_NODE : Z := 0x1.
Definition FDT_END_NODE : Z := 0x2.
Definition FDT_PROP : Z := 0x3.
Definition FDT_NOP : Z := 0x4.
Definition FDT_END : Z := 0x9.

(** header words *)
Definition H_TOTALSIZE : Z := 1.
Definition H_OFF_STRUCT : Z := 2.
Definition H_OFF_STRINGS : Z := 3.
Definition H_SIZE_STRINGS : Z := 8.
Definition H_SIZE_STRUCT : Z := 9.

Definition ALIGN4 (x : Z) : Z := (x +w 3) .& .~ 3.

(** ** Words and strings *)

Definition be32 (d : list Z) (p : Z) : outcome Z :=
  a ← aref d p;
  b ← aref d (p + 1);
  c ← aref d (p + 2);
  e ← aref d (p + 3);
  Ok (Z.shiftl a 24 .| Z.shiftl b 16 .| Z.shiftl c 8 .| e).

Definition wr32 (d : list Z) (p v : Z) : outcome (list Z) :=
  d ← aset d p (u8 (v .>> 24));
  d ← aset d (p + 1) (u8 (v .>> 16));
  d ← aset d (p + 2) (u8 (v .>> 8));
  aset d (p + 3) (u8 v).

Definition hget (d : list Z) (word : Z) : outcome Z := be32 d (word * 4).
Definition hset (d : list Z) (word v : Z) : outcome (list Z) := wr32 d (word * 4) v.

(** the string at [a] of the blob against [b] *)
Fixpoint str_eq (d : list Z) (a : Z) (b : list Z) : outcome bool :=
  c ← aref d a;
  match b with
  | [] => Ok (c =? 0)
  | x :: b' => if c =? 0 then Ok (c =? x) else if negb (c =? x) then Ok false else str_eq d (a + 1) b'
  end.

(** [fuel] bounds the length: the buffer ends. *)
Fixpoint str_len (fuel : nat) (d : list Z) (s n : Z) : outcome Z :=
  c ← aref d (s + n);
  if c =? 0 then Ok n else match fuel with O => NoFuel | S fuel' => str_len fuel' d s (n +w 1) end.

(** [n] bytes from [from] on, the last one first *)
Fixpoint shift_bytes (n : nat) (d : list Z) (from delta : Z) : outcome (list Z) :=
  match n with
  | O => Ok d
  | S n' =>
      let i := from + Z.of_nat n' in
      x ← aref d i;
      d ← aset d (i +w delta) x;
      shift_bytes n' d from delta
  end.

Definition shift_up (d : list Z) (from old_total delta : Z) : outcome (list Z) := shift_bytes (Z.to_nat (old_total - from)) d from delta.

Definition fdt_check (d : list Z) : outcome Z := m ← be32 d 0; Ok (if negb (m =? FDT_MAGIC) then -1 else 0).

(** ** The strings block *)

(** skip to the NUL *)
Fixpoint skip_string (fuel : nat) (d : list Z) (off sz i : Z) : outcome Z :=
  if i <? sz then
    c ← aref d (off +w i);
    if negb (c =? 0) then match fuel with O => NoFuel | S fuel' => skip_string fuel' d off sz (i +w 1) end else Ok i
  else Ok i.

Fixpoint find_string (fuel : nat) (d : list Z) (off sz : Z) (name : list Z) (i : Z) : outcome Z :=
  if i <? sz then
    e ← str_eq d (off + i) name;
    if e : bool then Ok (s32 i)
    else
      i ← skip_string (length d) d off sz i;
      match fuel with O => NoFuel | S fuel' => find_string fuel' d off sz name (i +w 1) end
  else Ok (-1).

Definition strings_find (d name : list Z) : outcome Z :=
  off ← hget d H_OFF_STRINGS;
  sz ← hget d H_SIZE_STRINGS;
  find_string (length d) d off sz name 0.

Definition strings_append (d name : list Z) : outcome (Z * list Z) :=
  off ← hget d H_OFF_STRINGS;
  sz ← hget d H_SIZE_STRINGS;
  total ← hget d H_TOTALSIZE;
  let n := Z.of_nat (length name) + 1 in
  d ← iter (Z.to_nat n) 0 (fun i d => aset d ((off +w sz) +w i) (default 0 (name !! Z.to_nat i))) d;
  d ← hset d H_SIZE_STRINGS (sz +w n);
  d ← hset d H_TOTALSIZE (total +w n);
  Ok (s32 sz, d).

(** ** The property *)

(** [n] bytes at [pos]: the command line with its NUL, then zeros *)
Definition put_value (n : Z) (d : list Z) (pos : Z) (cmdline : list Z) (need : Z) : outcome (list Z) :=
  iter (Z.to_nat n) 0 (fun i d => aset d (pos +w i) (if i <? need then default 0 (cmdline !! Z.to_nat i) else 0)) d.

Definition fdt_replace_bootargs (d : list Z) (tokpos len valpos : Z) (cmdline : list Z) (need : Z) : outcome (Z * list Z) :=
  let old_space := ALIGN4 len in
  let new_space := ALIGN4 need in
  if old_space <? new_space then
    let delta := new_space -w old_space in
    total ← hget d H_TOTALSIZE;
    d ← shift_up d (valpos +w old_space) total delta;
    d ← hset d H_TOTALSIZE (total +w delta);
    os ← hget d H_OFF_STRINGS;
    d ← hset d H_OFF_STRINGS (os +w delta);
    ss ← hget d H_SIZE_STRUCT;
    d ← hset d H_SIZE_STRUCT (ss +w delta);
    d ← wr32 d (tokpos + 4) need;
    d ← put_value new_space d valpos cmdline need;
    Ok (0, d)
  else
    d ← put_value len d valpos cmdline need;
    Ok (0, d).

Definition s_bootargs : list Z := [98;111;111;116;97;114;103;115].
Definition s_chosen : list Z := [99; 104; 111; 115; 101; 110].

(** a gap at [ip], and the property in it *)
Definition insert_at (d : list Z) (ip : Z) (cmdline : list Z) (need noff : Z) : outcome (Z * list Z) :=
  let val_space := ALIGN4 need in
  let ins := 12 +w val_space in
  total ← hget d H_TOTALSIZE;
  d ← shift_up d ip total ins;
  d ← hset d H_TOTALSIZE (total +w ins);
  os ← hget d H_OFF_STRINGS;
  d ← hset d H_OFF_STRINGS (os +w ins);
  ss ← hget d H_SIZE_STRUCT;
  d ← hset d H_SIZE_STRUCT (ss +w ins);
  d ← wr32 d (ip + 0) FDT_PROP;
  d ← wr32 d (ip + 4) need;
  d ← wr32 d (ip + 8) (u32 noff);
  d ← put_value val_space d (ip +w 12) cmdline need;
  Ok (0, d).

Definition fdt_insert_bootargs (d : list Z) (ip : Z) (cmdline : list Z) (need : Z) : outcome (Z * list Z) :=
  noff ← strings_find d s_bootargs;
  r ← (if noff <? 0 then strings_append d s_bootargs else Ok (noff, d));
  insert_at r.2 ip cmdline need r.1.

(** ** The walk *)

Record walk := Walk { w_p : Z; w_depth : Z; in_chosen : bool; have_chosen : bool; chosen_body : Z }.

(** how it ends: at the END token, at the property, at a token it does not know *)
Inductive exit := AtEnd (have : bool) (body : Z) | AtProp (tokpos len valpos : Z) | AtUnknown.

Definition token_step (d : list Z) (off_strings : Z) (w : walk) : outcome (walk + exit) :=
  let tokpos := w_p w in
  tok ← be32 d (w_p w);
  let p := w_p w +w 4 in
  if tok =? FDT_END then Ok (inr (AtEnd (have_chosen w) (chosen_body w)))
  else if tok =? FDT_NOP then Ok (inl (Walk p (w_depth w) (in_chosen w) (have_chosen w) (chosen_body w)))
  else if tok =? FDT_BEGIN_NODE then
    let depth := w_depth w + 1 in
    n ← str_len (length d) d p 0;
    let p' := p +w ALIGN4 (n +w 1) in
    c ← (if depth =? 2 then str_eq d p s_chosen else Ok false);
    Ok (inl (if c : bool then Walk p' depth true true p' else Walk p' depth false (have_chosen w) (chosen_body w)))
  else if tok =? FDT_END_NODE then Ok (inl (Walk p (w_depth w - 1) false (have_chosen w) (chosen_body w)))
  else if tok =? FDT_PROP then
    len ← be32 d p;
    noff ← be32 d (p + 4);
    let valpos := p +w 8 in
    e ← (if in_chosen w then str_eq d (off_strings + noff) s_bootargs else Ok false);
    if e : bool then Ok (inr (AtProp tokpos len valpos))
    else Ok (inl (Walk (valpos +w ALIGN4 len) (w_depth w) (in_chosen w) (have_chosen w) (chosen_body w)))
  else Ok (inr AtUnknown).

(** [NoFuel] after as many tokens as the buffer has words: the walk goes in
    circles. *)
Fixpoint walk_loop (fuel : nat) (d : list Z) (off_strings : Z) (w : walk) : outcome exit :=
  match fuel with
  | O => NoFuel
  | S fuel' => r ← token_step d off_strings w; match r with inl w' => walk_loop fuel' d off_strings w' | inr e => Ok e end
  end.

(** the return value and the buffer *)
Definition fdt_set_bootargs (d cmdline : list Z) : outcome (Z * list Z) :=
  c ← fdt_check d;
  if negb (c =? 0) then Ok (-1, d)
  else
    off_struct ← hget d H_OFF_STRUCT;
    off_strings ← hget d H_OFF_STRINGS;
    size_strings ← hget d H_SIZE_STRINGS;
    total ← hget d H_TOTALSIZE;
    if negb ((off_struct <? off_strings) && (off_strings +w size_strings <=? total)) then Ok (-5, d)
    else
      let need := Z.of_nat (length cmdline) +w 1 in
      e ← walk_loop (S (length d / 4)) d off_strings (Walk off_struct 0 false false 0);
      match e with
      | AtUnknown => Ok (-3, d)
      | AtProp tokpos len valpos => fdt_replace_bootargs d tokpos len valpos cmdline need
      | AtEnd have body => if have : bool then fdt_insert_bootargs d body cmdline need else Ok (-4, d)
      end.
