(* ===== verification/BootFdtTree.v ===== *)
(** The device-tree editor of the bootloader sets a property of the tree:
    [fdt_set_bootargs] on the flattened form of a tree gives the flattened form
    of the tree with [/chosen/bootargs] set. *)

From stdpp Require Import list.
From Stdlib Require Import ZArith Lia.
From S2P Require Import Prelude Checked Kfdt KfdtTree BootFdt.

(** * Writing into a buffer *)

Lemma aref_middle (a : list Z) x b : aref (a ++ x :: b) (Z.of_nat (length a)) = Ok x.
Proof. apply aref_ok; [lia|]. rewrite Nat2Z.id. by rewrite list_lookup_middle. Qed.

Lemma aset_app (a : list Z) x b v : aset (a ++ x :: b) (Z.of_nat (length a)) v = Ok (a ++ v :: b).
Proof.
  rewrite aset_ok by (rewrite length_app; cbn; lia). f_equal. rewrite Nat2Z.id.
  rewrite insert_app_r_alt, Nat.sub_diag by lia. done.
Qed.

Lemma be_bytes v : 0 <= v < 2 ^ 32 -> be v = [u8 (v .>> 24); u8 (v .>> 16); u8 (v .>> 8); u8 v].
Proof.
  intros Hv. unfold be, u8. rewrite !Z.shiftr_div_pow2 by lia. change (2 ^ 8) with 256.
  rewrite (Z.mod_small (v / 2 ^ 24)); [done|]. split; [apply Z.div_pos; lia|]. apply Z.div_lt_upper_bound; lia.
Qed.

Lemma wr32_app a w b p v : p = Z.of_nat (length a) -> length w = 4%nat -> 0 <= v < 2 ^ 32 -> wr32 (a ++ w ++ b) p v = Ok (a ++ be v ++ b).
Proof.
  intros -> Hw Hv. destruct w as [|x0 [|x1 [|x2 [|x3 [|]]]]]; try done. unfold wr32. cbn [app]. rewrite aset_app. cbn [mbind outcome_bind].
  set (y0 := u8 (v .>> 24)). set (y1 := u8 (v .>> 16)). set (y2 := u8 (v .>> 8)).
  assert (H : forall l (n : Z) x c z, n = Z.of_nat (length l) -> aset (a ++ l ++ x :: c) (Z.of_nat (length a) + n) z = Ok (a ++ (l ++ [z]) ++ c)).
  { intros l n x c z ->. rewrite app_assoc, <- Nat2Z.inj_add, <- length_app, aset_app. by rewrite <- !app_assoc. }
  rewrite (H [y0] 1 x1 (x2 :: x3 :: b) y1 eq_refl : aset (a ++ y0 :: x1 :: x2 :: x3 :: b) _ y1 = Ok (a ++ y0 :: y1 :: x2 :: x3 :: b)). cbn [mbind outcome_bind].
  rewrite (H [y0; y1] 2 x2 (x3 :: b) y2 eq_refl : aset (a ++ y0 :: y1 :: x2 :: x3 :: b) _ y2 = Ok (a ++ y0 :: y1 :: y2 :: x3 :: b)). cbn [mbind outcome_bind].
  rewrite (H [y0; y1; y2] 3 x3 b (u8 v) eq_refl : aset (a ++ y0 :: y1 :: y2 :: x3 :: b) _ (u8 v) = Ok (a ++ y0 :: y1 :: y2 :: u8 v :: b)). by rewrite be_bytes.
Qed.

(** a loop that stores [f i] at [pos + i] *)
Lemma fill_app (f : Z -> Z) a : forall (w : list Z) (i : nat) b, Z.of_nat (length a + length w) < 2 ^ 32 ->
  (i <= length a)%nat -> forall pos, pos = Z.of_nat (length a) - Z.of_nat i ->
  iter (length w) (Z.of_nat i) (fun i d => aset d (pos +w i) (f i)) (a ++ w ++ b) = Ok (a ++ (f <$> seqZ (Z.of_nat i) (Z.of_nat (length w))) ++ b).
Proof.
  intros w. revert a. induction w as [|x w IH]; intros a i b H32 Hi pos ->; cbn [length iter].
  { done. }
  cbn [app]. rewrite u32_small by (cbn [length] in H32; lia).
  replace (Z.of_nat (length a) - Z.of_nat i + Z.of_nat i) with (Z.of_nat (length a)) by lia. rewrite aset_app. cbn [mbind outcome_bind].
  replace (Z.of_nat i + 1) with (Z.of_nat (S i)) by lia. change (a ++ f (Z.of_nat i) :: w ++ b) with (a ++ [f (Z.of_nat i)] ++ w ++ b). rewrite app_assoc.
  rewrite (IH (a ++ [f (Z.of_nat i)]) (S i) b); [|rewrite length_app; cbn [length] in *; lia|rewrite length_app; cbn; lia|rewrite length_app; cbn; lia].
  rewrite <- app_assoc. rewrite (seqZ_cons (Z.of_nat i) (Z.of_nat (S (length w)))) by lia. cbn [fmap list_fmap app].
  do 3 f_equal. do 3 f_equal; lia.
Qed.

(** the value written: the command line, its NUL, zeros *)
Definition filled (n : nat) (cmd : list Z) : list Z := take n (cmd ++ [0] ++ replicate n 0).

Lemma length_filled n cmd : length (filled n cmd) = n.
Proof. unfold filled. rewrite length_take, !length_app, length_replicate. cbn. lia. Qed.

Lemma filled_seq n cmd need : need = Z.of_nat (length cmd) + 1 ->
  (fun i => if i <? need then default 0 (cmd !! Z.to_nat i) else 0) <$> seqZ 0 (Z.of_nat n) = filled n cmd.
Proof.
  intros ->. apply list_eq. intros i. rewrite list_lookup_fmap. destruct (decide (i < n)%nat) as [Hi|Hi].
  - rewrite lookup_seqZ_lt by lia. cbn [fmap option_fmap option_map]. unfold filled. rewrite lookup_take_lt by lia.
    replace (Z.to_nat (0 + Z.of_nat i)) with i by lia. destruct (Z.ltb_spec (0 + Z.of_nat i) (Z.of_nat (length cmd) + 1)) as [Hl|Hl].
    + destruct (decide (i < length cmd)%nat) as [Hc|Hc].
      * destruct (lookup_lt_is_Some_2 cmd i Hc) as [x Hx]. rewrite Hx. symmetry. by apply lookup_app_l_Some.
      * assert (i = length cmd) as -> by lia. rewrite (lookup_ge_None_2 cmd) by lia. cbn [app]. by rewrite list_lookup_middle.
    + rewrite lookup_app_r by lia. destruct (i - length cmd)%nat as [|j] eqn:Ej; [lia|]. change (([0] ++ replicate n 0) !! S j) with (replicate n 0 !! j). rewrite lookup_replicate_2 by lia. done.
  - rewrite lookup_seqZ_ge by lia. symmetry. apply lookup_ge_None_2. rewrite length_filled. lia.
Qed.

Lemma put_value_app a w b pos cmd need : pos = Z.of_nat (length a) -> Z.of_nat (length a + length w) < 2 ^ 32 -> need = Z.of_nat (length cmd) + 1 ->
  put_value (Z.of_nat (length w)) (a ++ w ++ b) pos cmd need = Ok (a ++ filled (length w) cmd ++ b).
Proof.
  intros -> H32 Hn. unfold put_value. rewrite Nat2Z.id.
  pose proof (fill_app (fun i => if i <? need then default 0 (cmd !! Z.to_nat i) else 0) a w 0 b H32 ltac:(lia) (Z.of_nat (length a)) ltac:(lia)) as E.
  change (Z.of_nat 0) with 0 in E. by rewrite E, filled_seq.
Qed.

Lemma shift_app a b c n : (n <= length c)%nat -> Z.of_nat (length (a ++ b ++ c)) < 2 ^ 32 ->
  shift_up (a ++ b ++ c) (Z.of_nat (length a)) (Z.of_nat (length (a ++ b))) (Z.of_nat n) = Ok (a ++ take n (b ++ c) ++ b ++ drop n c).
Proof.
  unfold shift_up. replace (Z.to_nat _) with (length b) by (rewrite length_app; lia). revert c. induction b as [|x b IH] using rev_ind; intros c Hn H32.
  { cbn. by rewrite take_drop. }
  rewrite length_app. cbn [length]. rewrite Nat.add_1_r. cbn [shift_bytes].
  rewrite !length_app in H32. cbn [length] in H32. rewrite <- Nat2Z.inj_add, <- length_app, <- (app_assoc b), (app_assoc a b). cbn [app]. rewrite aref_middle. cbn [mbind outcome_bind].
  rewrite u32_small by (rewrite length_app; lia).
  destruct n as [|n].
  { rewrite Z.add_0_r, aset_app. cbn [mbind outcome_bind]. rewrite <- (app_assoc a b (x :: c)). rewrite IH; [|lia|rewrite !length_app; cbn; lia]. rewrite !take_0, !drop_0. by rewrite <- (app_assoc b). }
  assert (Hset : forall y, aset ((a ++ b) ++ x :: c) (Z.of_nat (length (a ++ b)) + Z.of_nat (S n)) y = Ok ((a ++ b) ++ x :: <[n := y]> c)).
  { intros y. rewrite aset_ok by (rewrite !length_app; cbn [length]; lia). f_equal. replace (Z.to_nat _) with (length (a ++ b) + S n)%nat by lia.
    rewrite insert_app_r. done. }
  rewrite Hset. cbn [mbind outcome_bind]. rewrite <- app_assoc, IH; [|cbn; rewrite length_insert; lia|rewrite !length_app; cbn; rewrite length_insert; lia].
  rewrite <- (app_assoc b). cbn [app]. do 2 f_equal. assert (Hc : (n < length c)%nat) by lia. clear -Hc.
  assert (E1 : take (S n) (b ++ x :: <[n:=x]> c) = take (S n) (b ++ x :: c)).
  { apply list_eq. intros i. destruct (decide (i < S n)%nat) as [Hi|Hi]; [|rewrite !lookup_take_ge by lia; done]. rewrite !lookup_take_lt by done.
    destruct (decide (i < length b)%nat); [by rewrite !lookup_app_l by done|]. rewrite !lookup_app_r by lia.
    destruct (i - length b)%nat as [|j] eqn:Ej; [done|]. change ((x :: <[n:=x]> c) !! S j) with (<[n:=x]> c !! j). by rewrite list_lookup_insert_ne by lia. }
  rewrite E1. f_equal. f_equal. cbn [drop]. rewrite (drop_S (<[n:=x]> c) x n) by (by rewrite list_lookup_insert_eq). f_equal. by rewrite drop_insert_lt by lia.
Qed.

(** * The tree with the command line set *)

(** the new value in place of [old]: in the space of the old one when it fits
    there, and then with the old length *)
Definition new_value (old cmd : list Z) : list Z :=
  if pad4 (Z.of_nat (length old)) <? pad4 (Z.of_nat (length cmd + 1)) then cmd ++ [0] else filled (length old) cmd.

Fixpoint replace_prop (ps : list fprop) (cmd : list Z) : option (list fprop) :=
  match ps with
  | [] => None
  | p :: ps' =>
      if bool_decide (pr_name p = s_bootargs) then Some (Prop_ (pr_noff p) (pr_name p) (new_value (pr_val p) cmd) :: ps')
      else cons p <$> replace_prop ps' cmd
  end.

(** in the first node [chosen] that has the property *)
Fixpoint replace_child (ch : list node) (cmd : list Z) : option (list node) :=
  match ch with
  | [] => None
  | Node nm ps cc :: ch' =>
      match (if bool_decide (nm = s_chosen) then replace_prop ps cmd else None) with
      | Some ps' => Some (Node nm ps' cc :: ch')
      | None => cons (Node nm ps cc) <$> replace_child ch' cmd
      end
  end.

(** before the properties of the last node [chosen] *)
Fixpoint insert_child (ch : list node) (p : fprop) : option (list node) :=
  match ch with
  | [] => None
  | Node nm ps cc :: ch' =>
      match insert_child ch' p with
      | Some ch'' => Some (Node nm ps cc :: ch'')
      | None => if bool_decide (nm = s_chosen) then Some (Node nm (p :: ps) cc :: ch') else None
      end
  end.

(** a blob: the reserved words of the header, the bytes before the tree, the
    tree, the bytes behind it and the strings *)
Record dtb := Dtb { rsv : list Z; mid : list Z; root : node; gap : list Z; strs : list (list Z) }.

Definition strings (l : list (list Z)) : list Z := concat (map (fun s => s ++ [0]) l).

Definition hdr (total ost os : Z) (rsv : list Z) (ss sst : Z) : list Z :=
  be FDT_MAGIC ++ be total ++ be ost ++ be os ++ rsv ++ be ss ++ be sst.

Definition off_struct (x : dtb) : nat := 40 + length (mid x).
Definition off_strings (x : dtb) : nat := off_struct x + length (enc_node (root x)) + 4 + length (gap x).
Definition total_size (x : dtb) : nat := off_strings x + length (strings (strs x)).

Definition enc_dtb (x : dtb) : list Z :=
  hdr (Z.of_nat (total_size x)) (Z.of_nat (off_struct x)) (Z.of_nat (off_strings x)) (rsv x)
    (Z.of_nat (length (strings (strs x)))) (Z.of_nat (length (enc_node (root x)) + 4)) ++
  mid x ++ enc_node (root x) ++ be FDT_END ++ gap x ++ strings (strs x).

(** names are C strings and lie in the strings block *)
Record dtb_ok (x : dtb) : Prop := {
  db_rsv : length (rsv x) = 16%nat;
  db_tree : node_ok (strings (strs x)) 0 (Z.of_nat (length (strings (strs x)))) (root x);
  db_strs : Forall plain (strs x);
}.

(** the offset of a name in the strings block *)
Fixpoint name_off (l : list (list Z)) (name : list Z) : option Z :=
  match l with
  | [] => None
  | s :: l' => if bool_decide (s = name) then Some 0 else Z.add (Z.of_nat (length s) + 1) <$> name_off l' name
  end.

Definition set_children (ch : list node) (n : node) : node := match n with Node nm ps _ => Node nm ps ch end.
Definition children (n : node) : list node := match n with Node _ _ ch => ch end.

Definition set_bootargs (x : dtb) (cmd : list Z) : option dtb :=
  match replace_child (children (root x)) cmd with
  | Some ch => Some (Dtb (rsv x) (mid x) (set_children ch (root x)) (gap x) (strs x))
  | None =>
      let noff := default (Z.of_nat (length (strings (strs x)))) (name_off (strs x) s_bootargs) in
      let strs' := match name_off (strs x) s_bootargs with Some _ => strs x | None => strs x ++ [s_bootargs] end in
      ch ← insert_child (children (root x)) (Prop_ noff s_bootargs (cmd ++ [0]));
      Some (Dtb (rsv x) (mid x) (set_children ch (root x)) (gap x) strs')
  end.

(** ** Strings in the buffer *)

Lemma str_eq_streq d b : forall a, str_eq d a b = streq d a b.
Proof.
  induction b as [|x b IH]; intros a; [done|]. cbn [str_eq streq]. destruct (aref d a) as [c| |]; [|done..]. cbn [mbind outcome_bind].
  destruct (Z.eqb_spec c 0) as [->|Hc]; [done|]. cbn [negb andb]. destruct (Z.eqb_spec c x) as [->|Hx]; cbn [negb]; [|done].
  apply IH.
Qed.

Lemma str_eq_spec d name p l r : plain name -> plain l -> drop p d = l ++ 0 :: r -> str_eq d (Z.of_nat p) name = Ok (bool_decide (l = name)).
Proof. intros Hn Hl E. rewrite str_eq_streq. by eapply streq_spec. Qed.

Lemma str_len_spec d p l r : plain l -> drop p d = l ++ 0 :: r -> Z.of_nat (length d) < 2 ^ 31 -> str_len (length d) d (Z.of_nat p) 0 = Ok (Z.of_nat (length l)).
Proof.
  intros Hl E H31. pose proof (f_equal length E) as El. rewrite length_drop, length_app in El. cbn [length] in El.
  pose proof (slen_spec d p l r Hl (length d) 0 ltac:(lia) ltac:(by rewrite Nat.add_0_r) ltac:(lia)) as H. exact H.
Qed.

Lemma drop_fits {A} p (d l r : list A) : drop p d = l ++ r -> l <> [] -> (p + length l <= length d)%nat.
Proof. intros E Hl. pose proof (f_equal length E) as El. rewrite length_drop, length_app in El. destruct l; [done|]. cbn [length] in *. lia. Qed.

Lemma drop_next {A} p (d l r : list A) : drop p d = l ++ r -> drop (p + length l) d = r.
Proof. intros E. by rewrite <- drop_drop, E, drop_app_length. Qed.

Lemma plain_bootargs : plain s_bootargs.
Proof. repeat constructor; discriminate. Qed.
Lemma plain_chosen : plain s_chosen.
Proof. repeat constructor; discriminate. Qed.
#[local] Hint Resolve plain_bootargs plain_chosen : kdb.

(** * The walk *)

Section walk.
Context (d : list Z) (os total : Z) (Hd : Z.of_nat (length d) < 2 ^ 31).

Abbreviation loop fuel w := (BootFdt.walk_loop fuel d os w).
Abbreviation at_ p k ic hc cb := (BootFdt.Walk (Z.of_nat p) k ic hc cb).

(** [n] tokens lead from [w] to [w'], or to the end [e] *)
Definition goes (n : nat) (w w' : BootFdt.walk) : Prop := forall fuel, loop (n + fuel)%nat w = loop fuel w'.
Definition ends (n : nat) (w : BootFdt.walk) (e : exit) : Prop := forall fuel, loop (n + fuel)%nat w = Ok e.

Lemma goes_refl w : goes 0 w w.
Proof. done. Qed.

Lemma goes_trans n n' w w1 w2 : goes n w w1 -> goes n' w1 w2 -> goes (n + n') w w2.
Proof. intros H H' fuel. by rewrite <- Nat.add_assoc, H. Qed.

Lemma goes_ends n n' w w1 e : goes n w w1 -> ends n' w1 e -> ends (n + n') w e.
Proof. intros H H' fuel. by rewrite <- Nat.add_assoc, H. Qed.

Lemma goes_step w w' : BootFdt.token_step d os w = Ok (inl w') -> goes 1 w w'.
Proof. intros H fuel. cbn [Nat.add BootFdt.walk_loop]. by rewrite H. Qed.

Lemma ends_step w e : BootFdt.token_step d os w = Ok (inr e) -> ends 1 w e.
Proof. intros H fuel. cbn [Nat.add BootFdt.walk_loop]. by rewrite H. Qed.

Lemma word_at p v r : drop p d = be v ++ r -> 0 <= v < 2 ^ 32 ->
  BootFdt.be32 d (Z.of_nat p) = Ok v /\ Z.of_nat p +w 4 = Z.of_nat (p + 4) /\ drop (p + 4) d = r.
Proof.
  intros E Hv. split; [exact (be32_be d p v r E Hv)|]. pose proof (drop_fits _ _ _ _ E ltac:(done)) as Hf. rewrite length_be in Hf.
  split; [rewrite u32_small; lia|]. exact (drop_next _ _ _ _ E).
Qed.

Lemma boot_begin p k ic hc cb nm r : plain nm -> drop p d = be FDT_BEGIN_NODE ++ padz (nm ++ [0]) ++ r -> 0 <= k ->
  let p' := (p + (4 + length (padz (nm ++ [0%Z]))))%nat in
  goes 1 (at_ p k ic hc cb)
    (if bool_decide (k = 1 /\ nm = s_chosen) then at_ p' (k + 1) true true (Z.of_nat p') else at_ p' (k + 1) false hc cb).
Proof.
  intros Hnm E Hk p'. apply goes_step. unfold BootFdt.token_step. cbn [BootFdt.w_p BootFdt.w_depth have_chosen chosen_body].
  destruct (word_at p _ _ E) as (-> & -> & E'); [done|]. cbn [mbind outcome_bind].
  change (FDT_BEGIN_NODE =? FDT_END) with false. change (FDT_BEGIN_NODE =? FDT_NOP) with false. change (FDT_BEGIN_NODE =? FDT_BEGIN_NODE) with true. cbn match.
  assert (Es : exists r', drop (p + 4) d = nm ++ 0 :: r') by (rewrite E'; unfold padz; rewrite <- !app_assoc; cbn; eauto). destruct Es as [r' Es].
  rewrite (str_len_spec d _ nm r' Hnm Es Hd). cbn [mbind outcome_bind].
  pose proof (drop_fits _ _ _ _ E' ltac:(unfold padz; by destruct nm)) as Hf.
  pose proof (length_app nm [0]) as Hl. cbn [length] in Hl.
  assert (Hpz : Z.of_nat (length (padz (nm ++ [0]))) = pad4 (Z.of_nat (length nm) + 1)).
  { rewrite length_padz, Hl, Nat2Z.inj_add; [done|]. rewrite Hl. apply (f_equal length) in Es. rewrite length_drop, length_app in Es. cbn in Es. lia. }
  assert (Hlen : (length nm < length d)%nat) by (apply (f_equal length) in Es; rewrite length_drop, length_app in Es; cbn in Es; lia).
  rewrite (u32_small (Z.of_nat (length nm) + 1)) by lia. change (ALIGN4 ?x) with (pad4 x). rewrite <- Hpz, u32_small by lia.
  replace (Z.of_nat (p + 4) + Z.of_nat (length (padz (nm ++ [0])))) with (Z.of_nat p') by (unfold p'; lia).
  destruct (Z.eqb_spec (k + 1) 2) as [Hk2|Hk2].
  - rewrite (str_eq_spec d s_chosen _ nm r' plain_chosen Hnm Es). cbn [mbind outcome_bind].
    destruct (decide (nm = s_chosen)) as [->|Hne]; [by rewrite !bool_decide_true by (done || (split; [lia|done]))|].
    rewrite !bool_decide_false; [done| |done]. by intros [_ ?].
  - cbn [mbind outcome_bind]. rewrite bool_decide_false; [done|]. intros [? _]. lia.
Qed.

Lemma boot_end p k ic hc cb r : drop p d = be FDT_END_NODE ++ r -> goes 1 (at_ p k ic hc cb) (at_ (p + 4) (k - 1) false hc cb).
Proof.
  intros E. apply goes_step. unfold BootFdt.token_step. cbn [BootFdt.w_p BootFdt.w_depth have_chosen chosen_body].
  destruct (word_at p _ _ E) as (-> & -> & E'); [done|]. done.
Qed.

Lemma boot_prop p k ic hc cb x r : prop_ok d os total x -> 0 <= os -> drop p d = enc_prop x ++ r ->
  BootFdt.token_step d os (at_ p k ic hc cb) =
    Ok (if ic && bool_decide (pr_name x = s_bootargs) then inr (AtProp (Z.of_nat p) (Z.of_nat (length (pr_val x))) (Z.of_nat (p + 12)))
        else inl (at_ (p + length (enc_prop x)) k ic hc cb)).
Proof.
  intros (Hpn & Hno & Hno32 & Hv31 & (rs & Estr)) Hos E.
  pose proof (drop_fits _ _ _ _ E ltac:(done)) as Hf. pose proof (length_padz (pr_val x) Hv31) as Hpz.
  assert (Hel : length (enc_prop x) = (12 + length (padz (pr_val x)))%nat) by (unfold enc_prop; rewrite !length_app; done).
  unfold enc_prop in E. rewrite <- !app_assoc in E. destruct (word_at p _ _ E) as (T1 & T2 & E1); [done|].
  destruct (word_at (p + 4) _ _ E1) as (L1 & _ & E2); [lia|]. destruct (word_at (p + 4 + 4) _ _ E2) as (N1 & _ & _); [lia|].
  unfold BootFdt.token_step. cbn [BootFdt.w_p BootFdt.w_depth BootFdt.in_chosen have_chosen chosen_body]. rewrite T1, T2. cbn [mbind outcome_bind].
  change (FDT_PROP =? FDT_END) with false. change (FDT_PROP =? FDT_NOP) with false. change (FDT_PROP =? FDT_BEGIN_NODE) with false.
  change (FDT_PROP =? FDT_END_NODE) with false. change (FDT_PROP =? FDT_PROP) with true. cbn match. rewrite L1. cbn [mbind outcome_bind].
  replace (Z.of_nat (p + 4) + 4) with (Z.of_nat (p + 4 + 4)) by lia. rewrite N1. cbn [mbind outcome_bind].
  rewrite (u32_small (Z.of_nat (p + 4) + 8)) by lia. change (ALIGN4 ?x) with (pad4 x). rewrite <- Hpz, u32_small by lia.
  replace (Z.of_nat (p + 4) + 8 + Z.of_nat (length (padz (pr_val x)))) with (Z.of_nat (p + length (enc_prop x))) by lia.
  replace (Z.of_nat (p + 4) + 8) with (Z.of_nat (p + 12)) by lia.
  destruct ic; cbn [andb mbind outcome_bind]; [|done]. rewrite <- (Z2Nat.id (os + pr_noff x)) by lia.
  rewrite (str_eq_spec d s_bootargs _ (pr_name x) rs plain_bootargs Hpn Estr). cbn [mbind outcome_bind]. by case_bool_decide.
Qed.

(** no property [bootargs] *)
Definition unset (ps : list fprop) : Prop := Forall (fun p => pr_name p <> s_bootargs) ps.

Lemma boot_props k ic hc cb ps : Forall (prop_ok d os total) ps -> 0 <= os -> (ic = true -> unset ps) -> forall p r,
  drop p d = concat (map enc_prop ps) ++ r -> goes (length ps) (at_ p k ic hc cb) (at_ (p + length (concat (map enc_prop ps))) k ic hc cb).
Proof.
  intros Hps Hos. induction Hps as [|x ps Hx Hps IH]; intros Hun p r E; cbn [map concat length] in *.
  { rewrite Nat.add_0_r. apply goes_refl. }
  rewrite <- app_assoc in E. rewrite length_app, Nat.add_assoc. apply (goes_trans 1 (length ps) _ (at_ (p + length (enc_prop x)) k ic hc cb)).
  - apply goes_step. rewrite (boot_prop p k ic hc cb x _ Hx Hos E). destruct ic; [|done]. specialize (Hun eq_refl). inversion Hun; subst. by rewrite bool_decide_false.
  - apply (IH ltac:(intros Hic; specialize (Hun Hic); by inversion Hun) _ r). by apply drop_next.
Qed.

(** below the children of the root nothing is recorded *)
Definition passes (n : node) : Prop := forall p k ic hc cb r, 2 <= k -> drop p d = enc_node n ++ r ->
  goes (ntok n) (at_ p k ic hc cb) (at_ (p + length (enc_node n)) k false hc cb).

Lemma passes_children ch : Forall passes ch -> forall p k ic hc cb r, 2 <= k -> drop p d = concat (map enc_node ch) ++ r ->
  exists ic', goes (list_sum (map ntok ch)) (at_ p k ic hc cb) (at_ (p + length (concat (map enc_node ch))) k ic' hc cb).
Proof.
  induction 1 as [|x ch Hx Hch IH]; intros p k ic hc cb r Hk E; cbn [map concat length list_sum fold_right] in *.
  { rewrite Nat.add_0_r. exists ic. apply goes_refl. }
  rewrite <- app_assoc in E. destruct (IH (p + length (enc_node x))%nat k false hc cb r Hk ltac:(by apply drop_next)) as [ic' Hg].
  exists ic'. rewrite length_app, Nat.add_assoc. eapply goes_trans; [by eapply Hx|exact Hg].
Qed.

(** the properties, the children and the end of a node that was entered *)
Lemma boot_body ps ch k ic hc cb : Forall (prop_ok d os total) ps -> 0 <= os -> (ic = true -> unset ps) -> Forall passes ch -> 1 <= k -> forall p r,
  drop p d = concat (map enc_prop ps) ++ concat (map enc_node ch) ++ be FDT_END_NODE ++ r ->
  goes (length ps + list_sum (map ntok ch) + 1) (at_ p (k + 1) ic hc cb)
    (at_ (p + (length (concat (map enc_prop ps)) + length (concat (map enc_node ch)) + 4)) k false hc cb).
Proof.
  intros Hps Hos Hun Hch Hk p r E. pose proof (boot_props (k + 1) ic hc cb ps Hps Hos Hun _ _ E) as W1. apply drop_next in E.
  destruct (passes_children ch Hch _ (k + 1) ic hc cb _ ltac:(lia) E) as [ic' W2]. apply drop_next in E.
  pose proof (boot_end _ (k + 1) ic' hc cb r E) as W3. replace (k + 1 - 1) with k in W3 by lia.
  replace (p + _)%nat with (p + length (concat (map enc_prop ps)) + length (concat (map enc_node ch)) + 4)%nat by lia.
  exact (goes_trans _ _ _ _ _ (goes_trans _ _ _ _ _ W1 W2) W3).
Qed.

Lemma boot_deep n : 0 <= os -> node_ok d os total n -> passes n.
Proof.
  intros Hos. induction n as [nm ps ch IH] using node_ind'. intros Hok. inversion Hok as [? ? ? Hnm Hps Hch]; subst. clear Hok. intros p k ic hc cb r Hk E.
  cbn [enc_node ntok] in *. rewrite <- !app_assoc in E. rewrite !length_app, !length_be.
  pose proof (boot_begin p k ic hc cb nm _ Hnm E ltac:(lia)) as W1. cbv zeta in W1. rewrite bool_decide_false in W1 by lia.
  apply (drop_next _ _ (be FDT_BEGIN_NODE)) in E. rewrite length_be in E. apply drop_next in E. rewrite <- Nat.add_assoc in E.
  assert (Hp : Forall passes ch) by (clear -IH Hch; induction IH; inversion Hch; constructor; auto).
  pose proof (boot_body ps ch k false hc cb Hps Hos ltac:(done) Hp ltac:(lia) _ _ E) as W2.
  replace (2 + length ps + list_sum (map ntok ch))%nat with (1 + (length ps + list_sum (map ntok ch) + 1))%nat by lia.
  eapply goes_trans; [exact W1|]. match type of W2 with goes _ _ ?w => match goal with |- goes _ _ ?w' => replace w' with w by (do 2 f_equal; lia) end end. exact W2.
Qed.

(** ** The children of the root *)

Definition props_of (n : node) : list fprop := match n with Node _ ps _ => ps end.

(** the walk passes the node without an exit *)
Definition quiet (n : node) : Prop := name_of n = s_chosen -> unset (props_of n).

Lemma boot_child n : 0 <= os -> node_ok d os total n -> quiet n -> forall p ic hc cb r, drop p d = enc_node n ++ r ->
  exists hc' cb', goes (ntok n) (at_ p 1 ic hc cb) (at_ (p + length (enc_node n)) 1 false hc' cb') /\
    (if bool_decide (name_of n = s_chosen) then hc' = true /\ cb' = Z.of_nat (p + (4 + length (padz (s_chosen ++ [0%Z])))) else hc' = hc /\ cb' = cb).
Proof.
  intros Hos Hok Hq p ic hc cb r E. destruct n as [nm ps ch]. inversion Hok as [? ? ? Hnm Hps Hch]; subst. clear Hok. cbn [enc_node ntok name_of props_of] in *.
  rewrite <- !app_assoc in E. rewrite !length_app, !length_be.
  pose proof (boot_begin p 1 ic hc cb nm _ Hnm E ltac:(lia)) as W1. cbv zeta in W1.
  apply (drop_next _ _ (be FDT_BEGIN_NODE)) in E. rewrite length_be in E. apply drop_next in E. rewrite <- Nat.add_assoc in E.
  assert (Hp : Forall passes ch) by (eapply Forall_impl; [exact Hch|]; intros c Hc; by apply boot_deep).
  replace (2 + length ps + list_sum (map ntok ch))%nat with (1 + (length ps + list_sum (map ntok ch) + 1))%nat by lia.
  assert (Hbody : forall ic hc cb, (ic = true -> nm = s_chosen) ->
    goes (length ps + list_sum (map ntok ch) + 1) (at_ (p + (4 + length (padz (nm ++ [0%Z])))) (1 + 1) ic hc cb)
      (at_ (p + (4 + (length (padz (nm ++ [0%Z])) + (length (concat (map enc_prop ps)) + (length (concat (map enc_node ch)) + 4))))) 1 false hc cb)).
  { intros ic' hc' cb' Hic. pose proof (boot_body ps ch 1 ic' hc' cb' Hps Hos ltac:(auto) Hp ltac:(lia) _ _ E) as W2.
    match type of W2 with goes _ _ ?w => match goal with |- goes _ _ ?w' => replace w' with w by (do 2 f_equal; lia) end end. exact W2. }
  destruct (decide (nm = s_chosen)) as [Hnm'|Hnm'];
    [rewrite bool_decide_true in W1 by done; rewrite bool_decide_true by done|rewrite bool_decide_false in W1 by (by intros [_ ?]); rewrite bool_decide_false by done].
  - rewrite <- Hnm'. eexists _, _. split; [eapply goes_trans; [exact W1|by apply Hbody]|done].
  - exists hc, cb. split; [eapply goes_trans; [exact W1|by apply Hbody]|done].
Qed.

Lemma boot_children ch : 0 <= os -> Forall (node_ok d os total) ch -> Forall quiet ch -> forall p ic hc cb r, drop p d = concat (map enc_node ch) ++ r ->
  exists ic' hc' cb', goes (list_sum (map ntok ch)) (at_ p 1 ic hc cb) (at_ (p + length (concat (map enc_node ch))) 1 ic' hc' cb') /\
    (Forall (fun n => name_of n <> s_chosen) ch -> hc' = hc /\ cb' = cb).
Proof.
  intros Hos Hok. induction Hok as [|x ch Hx Hok IH]; intros Hq p ic hc cb r E; cbn [map concat length list_sum fold_right] in *.
  { rewrite Nat.add_0_r. exists ic, hc, cb. split; [apply goes_refl|done]. }
  inversion Hq as [|? ? Hqx Hqs]; subst. rewrite <- app_assoc in E. destruct (boot_child x Hos Hx Hqx p ic hc cb _ E) as (h1 & c1 & W1 & H1).
  apply drop_next in E. destruct (IH Hqs _ false h1 c1 r E) as (ic' & h2 & c2 & W2 & H2). exists ic', h2, c2. split.
  - rewrite length_app, Nat.add_assoc. by eapply goes_trans.
  - intros Hn. inversion Hn; subst. rewrite bool_decide_false in H1 by done. destruct H1 as [-> ->]. by apply H2.
Qed.

(** the property in the node [chosen] *)
Lemma boot_found p1 q p2 cc : 0 <= os -> Forall (prop_ok d os total) (p1 ++ q :: p2) -> unset p1 -> pr_name q = s_bootargs -> forall p ic hc cb r,
  drop p d = enc_node (Node s_chosen (p1 ++ q :: p2) cc) ++ r ->
  let t := (p + (4 + length (padz (s_chosen ++ [0%Z]))) + length (concat (map enc_prop p1)))%nat in
  ends (2 + length p1) (at_ p 1 ic hc cb) (AtProp (Z.of_nat t) (Z.of_nat (length (pr_val q))) (Z.of_nat (t + 12))).
Proof.
  intros Hos Hps Hun Hq p ic hc cb r E. cbn [enc_node] in E. rewrite <- !app_assoc in E.
  pose proof (boot_begin p 1 ic hc cb s_chosen _ plain_chosen E ltac:(lia)) as W1. cbv zeta in W1. rewrite bool_decide_true in W1 by done.
  apply (drop_next _ _ (be FDT_BEGIN_NODE)) in E. rewrite length_be in E. apply drop_next in E. rewrite <- Nat.add_assoc in E.
  apply Forall_app in Hps as [Hp1 Hps]. inversion Hps as [|? ? Hpq Hp2]; subst. rewrite map_app, concat_app, <- !app_assoc in E.
  set (cb1 := Z.of_nat (p + (4 + length (padz (s_chosen ++ [0%Z]))))) in *.
  pose proof (boot_props 2 true true cb1 p1 Hp1 Hos ltac:(auto) _ _ E) as W2. apply drop_next in E. cbn [map concat] in E. rewrite <- app_assoc in E.
  pose proof (boot_prop _ 2 true true cb1 q _ Hpq Hos E) as W3. rewrite bool_decide_true in W3 by done. cbn [andb] in W3. apply ends_step in W3.
  replace (2 + length p1)%nat with (1 + length p1 + 1)%nat by lia.
  exact (goes_ends _ _ _ _ _ (goes_trans _ _ _ _ _ W1 W2) W3).
Qed.

(** entering the root *)
Lemma boot_root nm ps r p : 0 <= os -> plain nm -> Forall (prop_ok d os total) ps ->
  drop p d = be FDT_BEGIN_NODE ++ padz (nm ++ [0]) ++ concat (map enc_prop ps) ++ r ->
  let q := (p + (4 + length (padz (nm ++ [0%Z])) + length (concat (map enc_prop ps))))%nat in
  goes (1 + length ps) (at_ p 0 false false 0) (at_ q 1 false false 0) /\ drop q d = r.
Proof.
  intros Hos Hnm Hps E q. pose proof (boot_begin p 0 false false 0 nm _ Hnm E ltac:(lia)) as W1. cbv zeta in W1. rewrite bool_decide_false in W1 by lia.
  apply (drop_next _ _ (be FDT_BEGIN_NODE)) in E. rewrite length_be in E. apply drop_next in E. rewrite <- Nat.add_assoc in E.
  pose proof (boot_props 1 false false 0 ps Hps Hos ltac:(done) _ _ E) as W2. apply drop_next in E.
  replace q with (p + (4 + length (padz (nm ++ [0%Z]))) + length (concat (map enc_prop ps)))%nat by (unfold q; lia).
  split; [exact (goes_trans _ _ _ _ _ W1 W2)|done].
Qed.

Lemma walk_ends n w e fuel : ends n w e -> (n <= fuel)%nat -> loop fuel w = Ok e.
Proof. intros H Hf. replace fuel with (n + (fuel - n))%nat by lia. apply H. Qed.
End walk.

(** * The edits *)

(** ** The header *)

Lemma wr32_at d a w b p v : d = a ++ w ++ b -> p = Z.of_nat (length a) -> length w = 4%nat -> 0 <= v < 2 ^ 32 -> wr32 d p v = Ok (a ++ be v ++ b).
Proof. intros ->. apply wr32_app. Qed.

Section header.
Context (rs : list Z) (Hrs : length rs = 16%nat).
Implicit Types (t ost os ss st : Z).

Lemma length_hdr t ost os ss st : length (hdr t ost os rs ss st) = 40%nat.
Proof. unfold hdr. rewrite !length_app, !length_be, Hrs. done. Qed.

Lemma hdr_get t ost os ss st r : Forall (fun v => 0 <= v < 2 ^ 32) [t; ost; os; ss; st] ->
  BootFdt.be32 (hdr t ost os rs ss st ++ r) 0 = Ok FDT_MAGIC /\ hget (hdr t ost os rs ss st ++ r) H_TOTALSIZE = Ok t /\
  hget (hdr t ost os rs ss st ++ r) H_OFF_STRUCT = Ok ost /\ hget (hdr t ost os rs ss st ++ r) H_OFF_STRINGS = Ok os /\
  hget (hdr t ost os rs ss st ++ r) H_SIZE_STRINGS = Ok ss /\ hget (hdr t ost os rs ss st ++ r) H_SIZE_STRUCT = Ok st.
Proof.
  rewrite !Forall_cons. intros (Ht & Ho & Hs & Hss & Hst & _). split; [exact (be32_be (hdr t ost os rs ss st ++ r) 0 FDT_MAGIC ((be t ++ be ost ++ be os ++ rs ++ be ss ++ be st) ++ r) eq_refl ltac:(done))|].
  split; [exact (be32_be (hdr t ost os rs ss st ++ r) 4 t ((be ost ++ be os ++ rs ++ be ss ++ be st) ++ r) eq_refl Ht)|]. split; [exact (be32_be (hdr t ost os rs ss st ++ r) 8 ost ((be os ++ rs ++ be ss ++ be st) ++ r) eq_refl Ho)|]. split; [exact (be32_be (hdr t ost os rs ss st ++ r) 12 os ((rs ++ be ss ++ be st) ++ r) eq_refl Hs)|].
  assert (E : drop 32 (hdr t ost os rs ss st ++ r) = be ss ++ be st ++ r).
  { change (drop 32 (hdr t ost os rs ss st ++ r)) with (drop 16 ((rs ++ be ss ++ be st) ++ r)). rewrite <- !app_assoc, <- Hrs. by rewrite drop_app_length. }
  split; [exact (be32_be _ 32 ss _ E Hss)|]. refine (be32_be _ 36 st r _ Hst). exact (drop_next 32 _ (be ss) _ E).
Qed.

Lemma hdr_set_total t ost os ss st r v : 0 <= v < 2 ^ 32 -> hset (hdr t ost os rs ss st ++ r) H_TOTALSIZE v = Ok (hdr v ost os rs ss st ++ r).
Proof. intros Hv. exact (wr32_at _ (be FDT_MAGIC) (be t) ((be ost ++ be os ++ rs ++ be ss ++ be st) ++ r) 4 v eq_refl eq_refl eq_refl Hv). Qed.

Lemma hdr_set_strings t ost os ss st r v : 0 <= v < 2 ^ 32 -> hset (hdr t ost os rs ss st ++ r) H_OFF_STRINGS v = Ok (hdr t ost v rs ss st ++ r).
Proof. intros Hv. exact (wr32_at _ (be FDT_MAGIC ++ be t ++ be ost) (be os) ((rs ++ be ss ++ be st) ++ r) 12 v eq_refl eq_refl eq_refl Hv). Qed.

Lemma hdr_set_size t ost os ss st r v : 0 <= v < 2 ^ 32 -> hset (hdr t ost os rs ss st ++ r) H_SIZE_STRINGS v = Ok (hdr t ost os rs v st ++ r).
Proof.
  intros Hv. unfold hset. rewrite (wr32_at _ (be FDT_MAGIC ++ be t ++ be ost ++ be os ++ rs) (be ss) (be st ++ r) (H_SIZE_STRINGS * 4) v); [|by unfold hdr; rewrite <- !app_assoc|by rewrite !length_app, Hrs|done|done].
  unfold hdr. by rewrite <- !app_assoc.
Qed.

Lemma hdr_set_struct t ost os ss st r v : 0 <= v < 2 ^ 32 -> hset (hdr t ost os rs ss st ++ r) H_SIZE_STRUCT v = Ok (hdr t ost os rs ss v ++ r).
Proof.
  intros Hv. unfold hset. rewrite (wr32_at _ (be FDT_MAGIC ++ be t ++ be ost ++ be os ++ rs ++ be ss) (be st) r (H_SIZE_STRUCT * 4) v); [|by unfold hdr; rewrite <- !app_assoc|by rewrite !length_app, Hrs|done|done].
  unfold hdr. by rewrite <- !app_assoc.
Qed.

(** making room for [n] bytes behind [a], which the header counts *)
Lemma make_room a b c (n : nat) t ost os ss st d : d = hdr t ost os rs ss st ++ a ++ b ++ c -> t = Z.of_nat (40 + length a + length b) ->
  (n <= length c)%nat -> Z.of_nat (length d) < 2 ^ 31 -> 0 <= os -> 0 <= st -> os + Z.of_nat n < 2 ^ 31 -> st + Z.of_nat n < 2 ^ 31 -> 0 <= ost < 2 ^ 31 -> 0 <= ss < 2 ^ 31 ->
  forall (k : list Z -> outcome (Z * list Z)),
  (d ← shift_up d (Z.of_nat (40 + length a)) t (Z.of_nat n);
   d ← hset d H_TOTALSIZE (t +w Z.of_nat n);
   o ← hget d H_OFF_STRINGS;
   d ← hset d H_OFF_STRINGS (o +w Z.of_nat n);
   s ← hget d H_SIZE_STRUCT;
   d ← hset d H_SIZE_STRUCT (s +w Z.of_nat n);
   k d) = k (hdr (t + Z.of_nat n) ost (os + Z.of_nat n) rs ss (st + Z.of_nat n) ++ a ++ take n (b ++ c) ++ b ++ drop n c).
Proof.
  intros Ed Et Hn Hd Hos Hst Ho2 Hs2 Hof Hss k.
  assert (Hd' : Z.of_nat (40 + length a + length b + length c) < 2 ^ 31) by (rewrite Ed, !length_app, length_hdr in Hd; lia).
  assert (Hsh : shift_up d (Z.of_nat (40 + length a)) t (Z.of_nat n) = Ok (hdr t ost os rs ss st ++ a ++ take n (b ++ c) ++ b ++ drop n c)).
  { pose proof (shift_app (hdr t ost os rs ss st ++ a) b c n Hn) as H. rewrite <- !app_assoc, <- Ed in H. specialize (H ltac:(lia)).
    rewrite !length_app, length_hdr in H. rewrite <- H. f_equal. lia. }
  rewrite Hsh. cbn [mbind outcome_bind]. rewrite (u32_small (t + _)) by lia. rewrite hdr_set_total by lia. cbn [mbind outcome_bind].
  set (r := a ++ _). destruct (hdr_get (t + Z.of_nat n) ost os ss st r) as (_ & _ & _ & -> & _); [rewrite !Forall_cons; repeat split; [lia..|constructor]|].
  cbn [mbind outcome_bind]. rewrite (u32_small (os + _)), hdr_set_strings by lia. cbn [mbind outcome_bind].
  destruct (hdr_get (t + Z.of_nat n) ost (os + Z.of_nat n) ss st r) as (_ & _ & _ & _ & _ & ->); [rewrite !Forall_cons; repeat split; [lia..|constructor]|].
  cbn [mbind outcome_bind]. rewrite (u32_small (st + _)), hdr_set_struct by lia. done.
Qed.
End header.

(** ** The place of the property *)

(** the flattened form before and behind the properties between [p1] and [p2] of
    a child [chosen] of the root *)
Definition node_pre (nm : list Z) (ps : list fprop) : list Z := be FDT_BEGIN_NODE ++ padz (nm ++ [0]) ++ concat (map enc_prop ps).
Definition tree_pre (nm : list Z) (ps : list fprop) (ch1 : list node) (p1 : list fprop) : list Z :=
  node_pre nm ps ++ concat (map enc_node ch1) ++ node_pre s_chosen p1.
Definition tree_post (p2 : list fprop) (cc ch2 : list node) : list Z :=
  concat (map enc_prop p2) ++ concat (map enc_node cc) ++ be FDT_END_NODE ++ concat (map enc_node ch2) ++ be FDT_END_NODE.
Definition focus (nm : list Z) (ps : list fprop) (ch1 : list node) (p1 : list fprop) (qs p2 : list fprop) (cc ch2 : list node) : node :=
  Node nm ps (ch1 ++ Node s_chosen (p1 ++ qs ++ p2) cc :: ch2).

Lemma enc_focus nm ps ch1 p1 qs p2 cc ch2 :
  enc_node (focus nm ps ch1 p1 qs p2 cc ch2) = tree_pre nm ps ch1 p1 ++ concat (map enc_prop qs) ++ tree_post p2 cc ch2.
Proof.
  unfold focus, tree_pre, tree_post, node_pre. cbn [enc_node]. rewrite map_app, concat_app. cbn [map concat enc_node].
  rewrite !map_app, !concat_app. by rewrite <- !app_assoc.
Qed.

Section edit.
Context (rs md pre post gp str : list Z) (Hrs : length rs = 16%nat).

Definition os_of (e : nat) : nat := 40 + length md + (length pre + e + length post) + 4 + length gp.

(** the blob with the bytes [e] between [pre] and [post] *)
Definition img_hdr (e : nat) : list Z :=
  hdr (Z.of_nat (os_of e + length str)) (Z.of_nat (40 + length md)) (Z.of_nat (os_of e)) rs (Z.of_nat (length str)) (Z.of_nat (length pre + e + length post + 4)).
Definition img (e : list Z) : list Z := img_hdr (length e) ++ (md ++ pre) ++ e ++ (post ++ be FDT_END ++ gp ++ str).

Lemma length_img_hdr e : length (img_hdr e) = 40%nat.
Proof. by apply length_hdr. Qed.

Lemma length_img e : length (img e) = (os_of (length e) + length str)%nat.
Proof. unfold img. rewrite !length_app, length_img_hdr, length_be. unfold os_of. lia. Qed.

Lemma img_words e r : Z.of_nat (length (img e)) < 2 ^ 31 ->
  BootFdt.be32 (img e ++ r) 0 = Ok FDT_MAGIC /\ hget (img e ++ r) H_TOTALSIZE = Ok (Z.of_nat (os_of (length e) + length str)) /\
  hget (img e ++ r) H_OFF_STRUCT = Ok (Z.of_nat (40 + length md)) /\ hget (img e ++ r) H_OFF_STRINGS = Ok (Z.of_nat (os_of (length e))) /\
  hget (img e ++ r) H_SIZE_STRINGS = Ok (Z.of_nat (length str)) /\ hget (img e ++ r) H_SIZE_STRUCT = Ok (Z.of_nat (length pre + length e + length post + 4)).
Proof.
  rewrite length_img. intros H. unfold img, img_hdr. rewrite <- (app_assoc (hdr _ _ _ _ _ _)). apply hdr_get; [done|].
  unfold os_of in *. rewrite !Forall_cons. repeat split; [lia..|constructor].
Qed.

(** the growth of the part [e] by [n] bytes *)
Lemma grow_img e g b' sl (n : nat) (k : list Z -> outcome (Z * list Z)) :
  (n <= length sl)%nat -> Z.of_nat (length (img (e ++ g) ++ sl)) < 2 ^ 31 -> b' = g ++ post ++ be FDT_END ++ gp ++ str ->
  let d := img (e ++ g) ++ sl in
  (d ← shift_up d (Z.of_nat (40 + length (md ++ pre ++ e))) (Z.of_nat (os_of (length (e ++ g)) + length str)) (Z.of_nat n);
   d ← hset d H_TOTALSIZE (Z.of_nat (os_of (length (e ++ g)) + length str) +w Z.of_nat n);
   o ← hget d H_OFF_STRINGS;
   d ← hset d H_OFF_STRINGS (o +w Z.of_nat n);
   s ← hget d H_SIZE_STRUCT;
   d ← hset d H_SIZE_STRUCT (s +w Z.of_nat n);
   k d) =
  k (img (e ++ take n (b' ++ sl) ++ g) ++ drop n sl).
Proof.
  intros Hn Hd -> d. assert (Hd' : (os_of (length (e ++ g)) + length str + length sl = length d)%nat) by (unfold d; by rewrite (length_app (img _)), length_img).
  rewrite (length_app (img _)), length_img in Hd. unfold os_of in Hd, Hd'. rewrite !length_app in Hd, Hd'.
  set (b := g ++ post ++ be FDT_END ++ gp ++ str).
  rewrite (make_room rs Hrs (md ++ pre ++ e) b sl n _ (Z.of_nat (40 + length md)) (Z.of_nat (os_of (length (e ++ g)))) (Z.of_nat (length str))
    (Z.of_nat (length pre + length (e ++ g) + length post + 4)) d); unfold d, b, os_of; rewrite ?length_app, ?length_be, ?length_img;
    [|unfold img, img_hdr, os_of; rewrite <- ?app_assoc, ?length_app; done|lia|done|unfold os_of; rewrite ?length_app; lia|lia|lia|lia|lia|lia|lia].
  f_equal. unfold img, img_hdr, os_of. rewrite <- !app_assoc, !length_app, length_take, !length_app, length_be. f_equal.
  f_equal; lia.
Qed.

Lemma put_value_at d a w b pos n cmd need : d = a ++ w ++ b -> pos = Z.of_nat (length a) -> n = Z.of_nat (length w) -> Z.of_nat (length a + length w) < 2 ^ 32 ->
  need = Z.of_nat (length cmd) + 1 -> put_value n d pos cmd need = Ok (a ++ filled (length w) cmd ++ b).
Proof. intros -> Hp ->. by apply put_value_app. Qed.

Lemma filled_padz cmd : Z.of_nat (length cmd) < 2 ^ 30 -> filled (length (padz (cmd ++ [0%Z]))) cmd = padz (cmd ++ [0%Z]).
Proof.
  intros Hc. assert (Hl : length (cmd ++ [0%Z]) = S (length cmd)) by (rewrite length_app; cbn; lia). unfold filled.
  set (k := (Z.to_nat (pad4 (Z.of_nat (length (cmd ++ [0%Z])))) - length (cmd ++ [0%Z]))%nat).
  assert (Hn : length (padz (cmd ++ [0%Z])) = (S (length cmd) + k)%nat) by (unfold padz; rewrite length_app, length_replicate, Hl; fold k; unfold k; rewrite Hl; lia).
  rewrite Hn, app_assoc, take_app, Hl, take_ge by lia. unfold padz. fold k. f_equal. rewrite take_replicate. f_equal. lia.
Qed.

Lemma length_enc_prop q : length (enc_prop q) = (12 + length (padz (pr_val q)))%nat.
Proof. unfold enc_prop. by rewrite !length_app. Qed.

Lemma padz_same v w : length v = length w -> padz w = w ++ drop (length v) (padz v).
Proof. intros E. unfold padz. rewrite drop_app_length. by rewrite E. Qed.

(** replacing the property *)
Lemma replace_img q cmd sl : Z.of_nat (length (img (enc_prop q) ++ sl)) < 2 ^ 31 -> Z.of_nat (length cmd) < 2 ^ 30 -> (length cmd + 4 <= length sl)%nat ->
  let q' := Prop_ (pr_noff q) (pr_name q) (new_value (pr_val q) cmd) in
  let t := Z.of_nat (40 + length (md ++ pre)) in
  fdt_replace_bootargs (img (enc_prop q) ++ sl) t (Z.of_nat (length (pr_val q))) (t + 12) cmd (Z.of_nat (length cmd) + 1) =
    Ok (0, img (enc_prop q') ++ drop (length (enc_prop q') - length (enc_prop q)) sl).
Proof.
  intros Hd Hc Hsl q' t. assert (Hd0 := Hd). rewrite length_app, length_img in Hd0. unfold os_of in Hd0. rewrite length_enc_prop in Hd0.
  assert (Hvl : (length (pr_val q) <= length (padz (pr_val q)))%nat) by (unfold padz; rewrite length_app; lia).
  assert (Hv : Z.of_nat (length (padz (pr_val q))) = pad4 (Z.of_nat (length (pr_val q)))) by (apply length_padz; lia).
  assert (Hn : Z.of_nat (length (padz (cmd ++ [0%Z]))) = pad4 (Z.of_nat (length cmd) + 1)) by (rewrite length_padz, length_app, Nat2Z.inj_add; [done|rewrite length_app; cbn; lia]).
  pose proof (pad4_spec (Z.of_nat (length cmd) + 1) ltac:(lia)) as [Hp4 _].
  assert (Hnv : new_value (pr_val q) cmd = if pad4 (Z.of_nat (length (pr_val q))) <? pad4 (Z.of_nat (length cmd) + 1) then cmd ++ [0%Z] else filled (length (pr_val q)) cmd).
  { unfold new_value. by rewrite Nat2Z.inj_add. }
  unfold fdt_replace_bootargs. change (ALIGN4 ?x) with (pad4 x). rewrite <- Hv, <- Hn in *.
  destruct (Z.ltb_spec (Z.of_nat (length (padz (pr_val q)))) (Z.of_nat (length (padz (cmd ++ [0%Z]))))) as [Hlt|Hge].
  - set (n := (length (padz (cmd ++ [0%Z])) - length (padz (pr_val q)))%nat).
    replace (u32 (Z.of_nat (length (padz (cmd ++ [0%Z]))) - Z.of_nat (length (padz (pr_val q))))) with (Z.of_nat n) by (unfold n; rewrite u32_small; lia).
    destruct (img_words (enc_prop q) sl) as (_ & -> & _); [rewrite length_app in Hd; lia|]. cbn [mbind outcome_bind].
    replace (t + 12 +w Z.of_nat (length (padz (pr_val q)))) with (Z.of_nat (40 + length (md ++ pre ++ enc_prop q)))
      by (unfold t; rewrite u32_small; rewrite ?length_app, ?length_enc_prop; lia).
    pose proof (grow_img (enc_prop q) [] (post ++ be FDT_END ++ gp ++ str) sl n) as Hg. rewrite app_nil_r in Hg. rewrite Hg; [|lia|done|done]. clear Hg. rewrite app_nil_r.
    set (g := take n _). assert (Hlg : length g = n) by (unfold g; rewrite length_take, length_app; lia).
    unfold img. set (h := img_hdr _).
    rewrite (wr32_at _ (h ++ md ++ pre ++ be FDT_PROP) (be (Z.of_nat (length (pr_val q)))) (be (pr_noff q) ++ (padz (pr_val q) ++ g) ++ (post ++ be FDT_END ++ gp ++ str) ++ drop n sl));
      [|unfold enc_prop; by rewrite <- !app_assoc|unfold t, h; rewrite !length_app, length_img_hdr, length_be; lia|done|lia]. cbn [mbind outcome_bind].
    rewrite (put_value_at _ (h ++ md ++ pre ++ be FDT_PROP ++ be (Z.of_nat (length cmd) + 1) ++ be (pr_noff q)) (padz (pr_val q) ++ g) ((post ++ be FDT_END ++ gp ++ str) ++ drop n sl));
      [|by rewrite <- !app_assoc|unfold t, h; rewrite !length_app, length_img_hdr, !length_be; lia|rewrite length_app; unfold n in *; lia
       |unfold h; rewrite !length_app, length_img_hdr, !length_be, Hlg; unfold n; lia|done]. cbn [mbind outcome_bind].
    replace (length (padz (pr_val q) ++ g)) with (length (padz (cmd ++ [0%Z]))) by (rewrite length_app; lia). rewrite filled_padz by lia.
    assert (Eq : enc_prop q' = be FDT_PROP ++ be (Z.of_nat (length cmd) + 1) ++ be (pr_noff q) ++ padz (cmd ++ [0%Z])).
    { unfold enc_prop, q'. cbn [pr_val pr_noff]. rewrite Hnv. rewrite length_app. do 2 f_equal. f_equal. cbn; lia. }
    assert (El : length (enc_prop q') = length (enc_prop q ++ g)) by (rewrite Eq, !length_app, length_enc_prop, !length_be; lia).
    replace (length (enc_prop q') - length (enc_prop q))%nat with n by (rewrite El, length_app; lia).
    unfold img. rewrite El. fold h. rewrite Eq. by rewrite <- !app_assoc.
  - assert (Eq : enc_prop q' = be FDT_PROP ++ be (Z.of_nat (length (pr_val q))) ++ be (pr_noff q) ++ filled (length (pr_val q)) cmd ++ drop (length (pr_val q)) (padz (pr_val q))).
    { unfold enc_prop, q'. cbn [pr_val pr_noff]. rewrite Hnv, length_filled. do 3 f_equal. apply padz_same. by rewrite length_filled. }
    assert (El : length (enc_prop q') = length (enc_prop q)).
    { rewrite Eq, length_enc_prop, !length_app, !length_be, length_filled, length_drop. lia. }
    set (h := img_hdr (length (enc_prop q))).
    rewrite (put_value_at _ (h ++ md ++ pre ++ be FDT_PROP ++ be (Z.of_nat (length (pr_val q))) ++ be (pr_noff q)) (pr_val q)
      (drop (length (pr_val q)) (padz (pr_val q)) ++ (post ++ be FDT_END ++ gp ++ str) ++ sl));
      [| |unfold t, h; rewrite !length_app, length_img_hdr, !length_be; lia|done|unfold h; rewrite !length_app, length_img_hdr, !length_be; lia|done].
    + cbn [mbind outcome_bind]. rewrite El, Nat.sub_diag, drop_0. unfold img. rewrite El. fold h. rewrite Eq. by rewrite <- !app_assoc.
    + unfold img. fold h. unfold enc_prop. rewrite (padz_same (pr_val q) (pr_val q)), drop_app_length by done. by rewrite <- !app_assoc.
Qed.

(** inserting it *)
Lemma insert_img noff cmd sl (need := Z.of_nat (length cmd) + 1) (ip := Z.of_nat (40 + length (md ++ pre))) :
  Z.of_nat (length (img [] ++ sl)) < 2 ^ 31 -> Z.of_nat (length cmd) < 2 ^ 30 -> (length cmd + 16 <= length sl)%nat -> 0 <= noff < 2 ^ 32 ->
  let q := Prop_ noff s_bootargs (cmd ++ [0]) in
  insert_at (img [] ++ sl) ip cmd need noff = Ok (0, img (enc_prop q) ++ drop (length (enc_prop q)) sl).
Proof.
  intros Hd Hc Hsl Hno q. unfold insert_at. rewrite (u32_small noff) by done. set (ins := 12 +w _). assert (Hd0 := Hd). rewrite length_app, length_img in Hd0. unfold os_of in Hd0. cbn [length] in Hd0.
  assert (Hn : Z.of_nat (length (padz (cmd ++ [0%Z]))) = pad4 (Z.of_nat (length cmd) + 1)) by (rewrite length_padz, length_app, Nat2Z.inj_add; [done|rewrite length_app; cbn; lia]).
  pose proof (pad4_spec (Z.of_nat (length cmd) + 1) ltac:(lia)) as [Hp4 _].
  assert (Hins : ins = Z.of_nat (length (enc_prop q))).
  { unfold ins, need. change (ALIGN4 ?x) with (pad4 x). rewrite <- Hn, u32_small by lia. rewrite length_enc_prop. cbn [pr_val q]. lia. }
  clearbody ins. subst ins. set (n := length (enc_prop q)). assert (Hnl : n = (12 + length (padz (cmd ++ [0%Z])))%nat) by (unfold n; by rewrite length_enc_prop).
  destruct (img_words [] sl) as (_ & HT & _); [rewrite length_app in Hd; lia|]. unfold ip. rewrite HT. cbn [mbind outcome_bind].
  pose proof (grow_img [] [] (post ++ be FDT_END ++ gp ++ str) sl n) as Hg. cbn [app] in Hg. rewrite app_nil_r in Hg.
  rewrite Hg; [|lia|done|done]. clear Hg HT.
  rewrite app_nil_r. set (g := take n _). assert (Hlg : length g = n) by (unfold g; rewrite length_take, !length_app; lia).
  assert (Hg4 : exists g1 g2 g3 g4, g = g1 ++ g2 ++ g3 ++ g4 /\ length g1 = 4%nat /\ length g2 = 4%nat /\ length g3 = 4%nat /\ length g4 = length (padz (cmd ++ [0%Z]))).
  { exists (take 4 g), (take 4 (drop 4 g)), (take 4 (drop 8 g)), (drop 12 g). rewrite !length_take, !length_drop. split; [|lia].
    rewrite <- (take_drop 4 g) at 1. f_equal. rewrite <- (take_drop 4 (drop 4 g)) at 1. f_equal. rewrite drop_drop. cbn [Nat.add].
    rewrite <- (take_drop 4 (drop 8 g)) at 1. f_equal. by rewrite drop_drop. }
  destruct Hg4 as (g1 & g2 & g3 & g4 & Eg & L1 & L2 & L3 & L4). unfold img. rewrite Hlg. set (h := img_hdr n).
  assert (Hlh : length h = 40%nat) by apply length_img_hdr.
  set (R := (post ++ be FDT_END ++ gp ++ str) ++ drop n sl).
  rewrite (wr32_at _ (h ++ md ++ pre) g1 (g2 ++ g3 ++ g4 ++ R)); [|unfold R; rewrite Eg; by rewrite <- !app_assoc|rewrite !length_app; lia|done|done]. cbn [mbind outcome_bind].
  rewrite (wr32_at _ (h ++ md ++ pre ++ be FDT_PROP) g2 (g3 ++ g4 ++ R)); [|by rewrite <- !app_assoc|rewrite !length_app, length_be; lia|done|unfold need; lia]. cbn [mbind outcome_bind].
  rewrite (wr32_at _ (h ++ md ++ pre ++ be FDT_PROP ++ be need) g3 (g4 ++ R)); [|by rewrite <- !app_assoc|rewrite !length_app, !length_be; lia|done|done]. cbn [mbind outcome_bind].
  rewrite (put_value_at _ (h ++ md ++ pre ++ be FDT_PROP ++ be need ++ be noff) g4 R);
    [|by rewrite <- !app_assoc|rewrite !length_app, !length_be, u32_small; rewrite ?length_app; lia|change (ALIGN4 need) with (pad4 need); unfold need; lia|rewrite !length_app, !length_be; lia|done].
  cbn [mbind outcome_bind]. rewrite L4, filled_padz by lia. unfold R, n, enc_prop. cbn [pr_val pr_noff q].
  replace (Z.of_nat (length (cmd ++ [0%Z]))) with need by (unfold need; rewrite length_app; cbn; lia). unfold h, n, enc_prop. cbn [pr_val pr_noff q].
  replace (Z.of_nat (length (cmd ++ [0%Z]))) with need by (unfold need; rewrite length_app; cbn; lia). by rewrite <- !app_assoc.
Qed.
End edit.

(** ** The strings block *)

Lemma boot_skip_string d off : 0 <= off -> Z.of_nat (length d) < 2 ^ 31 -> forall s fuel i r sz, plain s -> (length s <= fuel)%nat -> 0 <= i ->
  drop (Z.to_nat (off + i)) d = s ++ 0 :: r -> i + Z.of_nat (length s) < sz -> sz < 2 ^ 31 ->
  skip_string fuel d off sz i = Ok (i + Z.of_nat (length s)).
Proof.
  intros Hoff Hd s. induction s as [|c s IH]; intros fuel i r sz Hs Hf Hi E Hsz H31; cbn [length] in *;
    pose proof (drop_fits _ _ [_] _ E ltac:(done)) as Hfit; cbn [length] in Hfit; apply at_head in E as [Ha E]; rewrite Z2Nat.id in Ha by lia.
  - destruct fuel; cbn [skip_string]; rewrite (proj2 (Z.ltb_lt i sz)), (u32_small (off + i)), Ha by lia; cbn; by rewrite Z.add_0_r.
  - inversion Hs as [|? ? Hc Hs']; subst. destruct fuel as [|fuel]; [lia|]. cbn [skip_string]. rewrite (proj2 (Z.ltb_lt i sz)), (u32_small (off + i)), Ha by lia.
    cbn [mbind outcome_bind]. rewrite (proj2 (Z.eqb_neq c 0)) by done. cbn [negb]. rewrite u32_small by lia.
    rewrite (IH fuel (i + 1) r sz); [f_equal; lia|done|lia|lia| |lia|done]. by replace (Z.to_nat (off + (i + 1))) with (S (Z.to_nat (off + i))) by lia.
Qed.

Lemma find_string_spec d off name : 0 <= off -> Z.of_nat (length d) < 2 ^ 31 -> plain name -> forall l fuel i r, Forall plain l -> (length (strings l) <= fuel)%nat -> 0 <= i ->
  drop (Z.to_nat (off + i)) d = strings l ++ r ->
  find_string fuel d off (i + Z.of_nat (length (strings l))) name i = Ok (match name_off l name with Some o => i + o | None => -1 end).
Proof.
  intros Hoff Hd Hn l. induction l as [|s l IH]; intros fuel i r Hl Hf Hi E.
  { cbn [strings map concat length]. destruct fuel; cbn [find_string]; by rewrite Z.add_0_r, Z.ltb_irrefl. }
  inversion Hl as [|? ? Hs Hl']; subst. unfold strings in E, Hf |- *. cbn [map concat] in E, Hf |- *. fold (strings l) in E, Hf |- *.
  pose proof (drop_fits _ _ _ _ E ltac:(by destruct s)) as Hfit. rewrite !length_app in Hf, Hfit |- *. cbn [length] in Hf, Hfit |- *. rewrite <- !app_assoc in E. cbn [app] in E.
  destruct fuel as [|fuel]; [lia|]. cbn [find_string]. rewrite (proj2 (Z.ltb_lt i _)) by lia.
  pose proof (str_eq_spec d name (Z.to_nat (off + i)) s _ Hn Hs E) as Hse. rewrite Z2Nat.id in Hse by lia. rewrite Hse. cbn [mbind outcome_bind name_off].
  case_bool_decide; [rewrite s32_small by lia; f_equal; lia|].
  rewrite (boot_skip_string d off Hoff Hd s (length d) i _ (i + Z.of_nat (length s + 1 + length (strings l))) Hs ltac:(lia) Hi E ltac:(lia) ltac:(lia)). cbn [mbind outcome_bind].
  rewrite u32_small by lia. assert (Ei : i + Z.of_nat (length s) + 1 = i + Z.of_nat (length s + 1)) by lia. rewrite Ei.
  pose proof (IH fuel (i + Z.of_nat (length s + 1)) r Hl' ltac:(lia) ltac:(lia)) as Hrec.
  replace (i + Z.of_nat (length s + 1 + length (strings l))) with (i + Z.of_nat (length s + 1) + Z.of_nat (length (strings l))) by lia.
  rewrite Hrec; [destruct (name_off l name); cbn; f_equal; lia|].
  replace (Z.to_nat (off + (i + Z.of_nat (length s + 1)))) with (Z.to_nat (off + i) + length (s ++ [0%Z]))%nat by (rewrite length_app; cbn; lia).
  apply drop_next with (l := s ++ [0]). by rewrite <- app_assoc.
Qed.

Lemma name_bytes (name : list Z) : (fun i => default 0 (name !! Z.to_nat i)) <$> seqZ 0 (Z.of_nat (length name + 1)) = name ++ [0].
Proof.
  apply list_eq. intros i. rewrite list_lookup_fmap. destruct (decide (i < length name + 1)%nat) as [Hi|Hi].
  - rewrite lookup_seqZ_lt by lia. cbn [fmap option_fmap option_map]. replace (Z.to_nat (0 + Z.of_nat i)) with i by lia.
    destruct (decide (i < length name)%nat) as [Hn|Hn].
    + destruct (lookup_lt_is_Some_2 name i Hn) as [x Hx]. rewrite Hx. symmetry. by apply lookup_app_l_Some.
    + assert (i = length name) as -> by lia. rewrite (lookup_ge_None_2 name) by lia. by rewrite list_lookup_middle.
  - rewrite lookup_seqZ_ge by lia. symmetry. apply lookup_ge_None_2. rewrite length_app. cbn. lia.
Qed.

Section strings.
Context (rs md pre post gp : list Z) (Hrs : length rs = 16%nat).

Lemma strings_append_img str e name sl (d := img rs md pre post gp str e ++ sl) : Z.of_nat (length d) < 2 ^ 31 -> (length name + 1 <= length sl)%nat ->
  strings_append d name = Ok (Z.of_nat (length str), img rs md pre post gp (str ++ name ++ [0]) e ++ drop (length name + 1) sl).
Proof.
  intros Hd Hsl. set (n := (length name + 1)%nat) in *.
  assert (Hd0 : Z.of_nat (os_of md pre post gp (length e) + length str + length sl) < 2 ^ 31) by (unfold d in Hd; rewrite length_app, length_img in Hd by done; lia).
  unfold strings_append. destruct (img_words rs md pre post gp str Hrs e sl) as (_ & HT & _ & HO & HS & _); [rewrite length_img by done; lia|]. fold d in HT, HO, HS.
  rewrite HO. cbn [mbind outcome_bind]. rewrite HS. cbn [mbind outcome_bind]. rewrite HT. cbn [mbind outcome_bind].
  rewrite (u32_small (Z.of_nat (os_of _ _ _ _ _) + Z.of_nat (length str))) by lia.
  replace (Z.of_nat (length name) + 1) with (Z.of_nat n) by lia. rewrite Nat2Z.id.
  pose proof (fill_app (fun i => default 0 (name !! Z.to_nat i)) (img rs md pre post gp str e) (take n sl) 0 (drop n sl)) as Hf.
  rewrite take_drop, length_take, Nat.min_l, length_img in Hf by done. specialize (Hf ltac:(lia) ltac:(lia) _ eq_refl).
  change (Z.of_nat 0) with 0 in Hf. rewrite Z.sub_0_r, Nat2Z.inj_add in Hf. fold d in Hf. rewrite Hf. cbn [mbind outcome_bind]. clear Hf.
  unfold n at 1. rewrite name_bytes. unfold img, img_hdr. rewrite <- !(app_assoc (hdr _ _ _ _ _ _)).
  rewrite (u32_small (Z.of_nat (length str) + _)), hdr_set_size by (done || lia). cbn [mbind outcome_bind].
  rewrite (u32_small (Z.of_nat (_ + length str) + _)), hdr_set_total by (done || lia). cbn [mbind outcome_bind].
  rewrite s32_small by lia. do 2 f_equal. rewrite !length_app. cbn [length]. rewrite <- !app_assoc. f_equal. f_equal; unfold n; lia.
Qed.

Lemma strings_find_img l e name sl (d := img rs md pre post gp (strings l) e ++ sl) : Z.of_nat (length d) < 2 ^ 31 -> Forall plain l -> plain name ->
  strings_find d name = Ok (match name_off l name with Some o => o | None => -1 end).
Proof.
  intros Hd Hl Hn. assert (Hd0 : Z.of_nat (os_of md pre post gp (length e) + length (strings l) + length sl) < 2 ^ 31) by (unfold d in Hd; rewrite length_app, length_img in Hd by done; lia).
  unfold strings_find. destruct (img_words rs md pre post gp (strings l) Hrs e sl) as (_ & _ & _ & HO & HS & _); [rewrite length_img by done; lia|].
  fold d in HO, HS. rewrite HO. cbn [mbind outcome_bind]. rewrite HS. cbn [mbind outcome_bind].
  pose proof (find_string_spec d (Z.of_nat (os_of md pre post gp (length e))) name ltac:(lia) Hd Hn l (length d) 0 sl Hl) as Hf.
  rewrite Z.add_0_l in Hf. rewrite Hf; [done|unfold d; rewrite length_app, length_img by done; lia|lia|].
  rewrite Z.add_0_r, Nat2Z.id. unfold d, img. rewrite <- !app_assoc. unfold os_of.
  replace (40 + length md + (length pre + length e + length post) + 4 + length gp)%nat with (40 + (length md + (length pre + (length e + (length post + (4 + length gp))))))%nat by lia.
  rewrite <- !drop_drop. rewrite <- (length_img_hdr rs md pre post gp (strings l) Hrs (length e)) at 1. rewrite !drop_app_length.
  change (drop 4 (be _ ++ ?x)) with x. by rewrite drop_app_length.
Qed.
End strings.

(** * The editor *)

Lemma replace_prop_Some ps cmd ps' : replace_prop ps cmd = Some ps' -> exists p1 q p2, ps = p1 ++ q :: p2 /\
  ps' = p1 ++ Prop_ (pr_noff q) (pr_name q) (new_value (pr_val q) cmd) :: p2 /\ unset p1 /\ pr_name q = s_bootargs.
Proof.
  revert ps'. induction ps as [|p ps IH]; intros ps' H; cbn [replace_prop] in H; [done|]. case_bool_decide as Hp.
  - injection H as <-. exists [], p, ps. repeat split; [constructor|done].
  - destruct (replace_prop ps cmd) as [l|]; [|done]. injection H as <-. destruct (IH l eq_refl) as (p1 & q & p2 & -> & -> & Hu & Hq).
    exists (p :: p1), q, p2. repeat split; [by constructor|done].
Qed.

Lemma replace_prop_None ps cmd : replace_prop ps cmd = None -> unset ps.
Proof.
  induction ps as [|p ps IH]; cbn [replace_prop]; intros H; [constructor|]. case_bool_decide; [done|]. constructor; [done|]. apply IH. by destruct (replace_prop ps cmd).
Qed.

Lemma replace_child_Some ch cmd ch' : replace_child ch cmd = Some ch' -> exists ch1 p1 q p2 cc ch2, ch = ch1 ++ Node s_chosen (p1 ++ q :: p2) cc :: ch2 /\
  ch' = ch1 ++ Node s_chosen (p1 ++ Prop_ (pr_noff q) (pr_name q) (new_value (pr_val q) cmd) :: p2) cc :: ch2 /\ Forall quiet ch1 /\ unset p1 /\ pr_name q = s_bootargs.
Proof.
  revert ch'. induction ch as [|[nm ps cc] ch IH]; intros ch' H; cbn [replace_child] in H; [done|].
  destruct (if bool_decide (nm = s_chosen) then replace_prop ps cmd else None) as [ps'|] eqn:E.
  - injection H as <-. case_bool_decide as Hnm; [|done]. subst nm. apply replace_prop_Some in E as (p1 & q & p2 & -> & -> & Hu & Hq).
    exists [], p1, q, p2, cc, ch. repeat split; [constructor|done|done].
  - destruct (replace_child ch cmd) as [l|]; [|done]. injection H as <-. destruct (IH l eq_refl) as (ch1 & p1 & q & p2 & c & ch2 & -> & -> & Hq1 & Hu & Hq).
    exists (Node nm ps cc :: ch1), p1, q, p2, c, ch2. repeat split; [|done|done]. constructor; [|done].
    intros Hnm. cbn [name_of props_of] in *. rewrite bool_decide_true in E by done. by apply replace_prop_None in E.
Qed.

Lemma replace_child_None ch cmd : replace_child ch cmd = None -> Forall quiet ch.
Proof.
  induction ch as [|[nm ps cc] ch IH]; intros H; cbn [replace_child] in H; [constructor|].
  destruct (if bool_decide (nm = s_chosen) then replace_prop ps cmd else None) as [ps'|] eqn:E; [done|].
  constructor; [|apply IH; by destruct (replace_child ch cmd)].
  intros Hnm. cbn [name_of props_of] in *. rewrite bool_decide_true in E by done. by apply replace_prop_None in E.
Qed.

Lemma insert_child_None ch p : insert_child ch p = None -> Forall (fun n => name_of n <> s_chosen) ch.
Proof.
  induction ch as [|[nm ps cc] ch IH]; intros H; cbn [insert_child] in H; [constructor|]. destruct (insert_child ch p); [done|].
  case_bool_decide; [done|]. constructor; [done|by apply IH].
Qed.

Lemma insert_child_Some ch p ch' : insert_child ch p = Some ch' -> exists ch1 ps cc ch2, ch = ch1 ++ Node s_chosen ps cc :: ch2 /\
  ch' = ch1 ++ Node s_chosen (p :: ps) cc :: ch2 /\ Forall (fun n => name_of n <> s_chosen) ch2.
Proof.
  revert ch'. induction ch as [|[nm ps cc] ch IH]; intros ch' H; cbn [insert_child] in H; [done|]. destruct (insert_child ch p) as [l|] eqn:E.
  - injection H as <-. destruct (IH l eq_refl) as (ch1 & ps1 & c & ch2 & -> & -> & Hn). exists (Node nm ps cc :: ch1), ps1, c, ch2. by repeat split.
  - case_bool_decide; [|done]. subst. injection H as <-. exists [], ps, cc, ch. repeat split. by apply insert_child_None in E.
Qed.

(** ** Well-formed blobs *)

Lemma node_ok_mono d os t d' os' t' n : (forall p, prop_ok d os t p -> prop_ok d' os' t' p) -> node_ok d os t n -> node_ok d' os' t' n.
Proof.
  intros Hp. induction n as [nm ps ch IH] using node_ind'. intros H. inversion H as [? ? ? Hnm Hps Hch]; subst. constructor; [done| |].
  - eapply Forall_impl; [exact Hps|exact Hp].
  - clear -IH Hch. induction IH; inversion Hch; subst; constructor; auto.
Qed.

Lemma prop_ok_shift str r a t p : prop_ok str 0 (Z.of_nat (length str)) p -> Z.of_nat (length str) <= t -> prop_ok (a ++ str ++ r) (Z.of_nat (length a)) t p.
Proof.
  intros (Hn & Hno & H32 & Hv & [r' E]) Ht. split; [done|]. split; [lia|]. split; [done|]. split; [done|]. exists (r' ++ r).
  replace (Z.to_nat (Z.of_nat (length a) + pr_noff p)) with (length a + Z.to_nat (pr_noff p))%nat by lia.
  rewrite <- drop_drop, drop_app_length, drop_app_le by lia. rewrite Z.add_0_l in E. rewrite E. by rewrite <- app_assoc.
Qed.

Lemma prop_ok_more str r p : prop_ok str 0 (Z.of_nat (length str)) p -> prop_ok (str ++ r) 0 (Z.of_nat (length (str ++ r))) p.
Proof. intros H. apply (prop_ok_shift str r []); [done|]. rewrite length_app. lia. Qed.

Lemma length_enc_dtb x : length (rsv x) = 16%nat -> length (enc_dtb x) = total_size x.
Proof.
  intros Hr. unfold enc_dtb. rewrite !length_app, (length_hdr _ Hr), length_be. unfold total_size, off_strings, off_struct. lia.
Qed.

(** where the tree and the strings are *)
Lemma dtb_struct x r : length (rsv x) = 16%nat -> drop (off_struct x) (enc_dtb x ++ r) = enc_node (root x) ++ be FDT_END ++ gap x ++ strings (strs x) ++ r.
Proof.
  intros Hr. unfold enc_dtb, off_struct. rewrite <- !app_assoc, <- drop_drop. set (h := hdr _ _ _ _ _ _). rewrite <- (length_hdr _ Hr _ _ _ _ _ : length h = 40%nat) at 1. rewrite drop_app_length.
  by rewrite drop_app_length.
Qed.

Lemma dtb_split x r : length (rsv x) = 16%nat -> exists a, enc_dtb x ++ r = a ++ strings (strs x) ++ r /\ length a = off_strings x.
Proof.
  intros Hr. exists (hdr (Z.of_nat (total_size x)) (Z.of_nat (off_struct x)) (Z.of_nat (off_strings x)) (rsv x)
    (Z.of_nat (length (strings (strs x)))) (Z.of_nat (length (enc_node (root x)) + 4)) ++ mid x ++ enc_node (root x) ++ be FDT_END ++ gap x).
  split; [unfold enc_dtb; by rewrite <- !app_assoc|].
  rewrite !length_app, (length_hdr _ Hr), length_be. unfold off_strings, off_struct. lia.
Qed.

Lemma dtb_nodes x r : dtb_ok x -> node_ok (enc_dtb x ++ r) (Z.of_nat (off_strings x)) (Z.of_nat (total_size x)) (root x).
Proof.
  intros [Hr Ht _]. destruct (dtb_split x r Hr) as (a & -> & <-). eapply node_ok_mono; [|exact Ht].
  intros p Hp. apply prop_ok_shift; [done|]. unfold total_size. lia.
Qed.

(** ** The walk over a blob *)

Section run.
Context (x : dtb) (sl : list Z) (Hx : dtb_ok x) (Hd : Z.of_nat (length (enc_dtb x ++ sl)) < 2 ^ 31).

Abbreviation d := (enc_dtb x ++ sl).
Abbreviation os := (Z.of_nat (off_strings x)).
Abbreviation start := (BootFdt.Walk (Z.of_nat (off_struct x)) 0 false false 0).
Abbreviation fuel := (S (length d / 4)).

Lemma run_total : length d = (total_size x + length sl)%nat.
Proof. rewrite length_app, length_enc_dtb; [done|apply Hx]. Qed.

Lemma run_words : BootFdt.be32 d 0 = Ok FDT_MAGIC /\ hget d H_TOTALSIZE = Ok (Z.of_nat (total_size x)) /\ hget d H_OFF_STRUCT = Ok (Z.of_nat (off_struct x)) /\
  hget d H_OFF_STRINGS = Ok os /\ hget d H_SIZE_STRINGS = Ok (Z.of_nat (length (strings (strs x)))).
Proof.
  pose proof run_total as Ht. rewrite Ht in Hd. unfold total_size, off_strings, off_struct in Hd. unfold enc_dtb. rewrite <- (app_assoc (hdr _ _ _ _ _ _)).
  destruct (hdr_get (rsv x) (db_rsv _ Hx) (Z.of_nat (total_size x)) (Z.of_nat (off_struct x)) os (Z.of_nat (length (strings (strs x)))) (Z.of_nat (length (enc_node (root x)) + 4))
    ((mid x ++ enc_node (root x) ++ be FDT_END ++ gap x ++ strings (strs x)) ++ sl)) as (H0 & H1 & H2 & H3 & H8 & _);
    [unfold total_size, off_strings, off_struct; rewrite !Forall_cons; repeat split; [lia..|constructor]|]. done.
Qed.

Lemma run_tokens n : (n <= S (ntok (root x)))%nat -> (n <= fuel)%nat.
Proof.
  intros Hn. pose proof (ntok_bound (root x)) as Hb. pose proof run_total as Ht. unfold total_size, off_strings, off_struct in Ht.
  enough (S (ntok (root x)) <= S (length d / 4))%nat by lia. apply le_n_S, Nat.div_le_lower_bound; lia.
Qed.

Lemma set_bootargs_start cmd : Z.of_nat (length cmd) < 2 ^ 30 ->
  fdt_set_bootargs d cmd =
    (e ← BootFdt.walk_loop fuel d os start;
     match e with
     | AtUnknown => Ok (-3, d)
     | AtProp tokpos len valpos => fdt_replace_bootargs d tokpos len valpos cmd (Z.of_nat (length cmd) + 1)
     | AtEnd have body => if have : bool then fdt_insert_bootargs d body cmd (Z.of_nat (length cmd) + 1) else Ok (-4, d)
     end).
Proof.
  intros Hc. destruct run_words as (H0 & H1 & H2 & H3 & H8). pose proof run_total as Ht. unfold fdt_set_bootargs, fdt_check. rewrite H0. cbn [mbind outcome_bind].
  rewrite Z.eqb_refl. cbn [negb Z.eqb]. rewrite H2. cbn [mbind outcome_bind]. rewrite H3. cbn [mbind outcome_bind]. rewrite H8. cbn [mbind outcome_bind].
  rewrite H1. cbn [mbind outcome_bind]. rewrite Ht in Hd. rewrite (u32_small (os + _)) by (unfold total_size in Hd; lia).
  rewrite (proj2 (Z.ltb_lt _ _)), (proj2 (Z.leb_le _ _)) by (unfold total_size, off_strings; lia). cbn [andb negb].
  by rewrite (u32_small (Z.of_nat (length cmd) + 1)) by lia.
Qed.

Context (nm : list Z) (ps : list fprop) (ch : list node) (Hroot : root x = Node nm ps ch).

Lemma run_node : plain nm /\ Forall (prop_ok d os (Z.of_nat (total_size x))) ps /\ Forall (node_ok d os (Z.of_nat (total_size x))) ch.
Proof. pose proof (dtb_nodes x sl Hx) as H. rewrite Hroot in H. by inversion H. Qed.

(** behind the name and the properties of the root *)
Definition first_pos : nat := (off_struct x + length (node_pre nm ps))%nat.

Lemma run_first : goes d os (1 + length ps) start (BootFdt.Walk (Z.of_nat first_pos) 1 false false 0) /\
  drop first_pos d = concat (map enc_node ch) ++ be FDT_END_NODE ++ be FDT_END ++ gap x ++ strings (strs x) ++ sl.
Proof.
  destruct run_node as (Hnm & Hps & _). pose proof (dtb_struct x sl (db_rsv _ Hx)) as E. rewrite Hroot in E. cbn [enc_node] in E. rewrite <- !app_assoc in E.
  destruct (boot_root d os (Z.of_nat (total_size x)) Hd nm ps _ (off_struct x) ltac:(lia) Hnm Hps E) as [W E'].
  assert (first_pos = off_struct x + (4 + length (padz (nm ++ [0%Z])) + length (concat (map enc_prop ps))))%nat as ->; [|done].
  unfold first_pos, node_pre. rewrite !length_app, length_be. lia.
Qed.

(** the end of the root and of the tree *)
Lemma run_close n p ic hc cb r : goes d os n start (BootFdt.Walk (Z.of_nat p) 1 ic hc cb) -> drop p d = be FDT_END_NODE ++ be FDT_END ++ r ->
  (n + 1 <= ntok (root x))%nat -> BootFdt.walk_loop fuel d os start = Ok (AtEnd hc cb).
Proof.
  intros W E Hn. pose proof (boot_end d os Hd _ 1 ic hc cb _ E) as W2. apply (drop_next _ _ (be FDT_END_NODE)) in E. rewrite length_be in E.
  assert (We : ends d os 1 (BootFdt.Walk (Z.of_nat (p + 4)) (1 - 1) false hc cb) (AtEnd hc cb)).
  { apply ends_step. unfold BootFdt.token_step. cbn [BootFdt.w_p have_chosen chosen_body]. destruct (word_at d Hd _ _ _ E) as (-> & _); [done|]. done. }
  apply (walk_ends d os _ _ _ _ (goes_ends d os _ _ _ _ _ (goes_trans d os _ _ _ _ _ W W2) We)). apply run_tokens. lia.
Qed.

(** no [chosen] *)
Lemma run_none : Forall quiet ch -> Forall (fun n => name_of n <> s_chosen) ch -> BootFdt.walk_loop fuel d os start = Ok (AtEnd false 0).
Proof.
  intros Hq Hn. destruct run_first as [W E]. destruct run_node as (_ & _ & Hch).
  destruct (boot_children d os _ Hd ch ltac:(lia) Hch Hq _ false false 0 _ E) as (ic & hc & cb & W2 & H2). destruct (H2 Hn) as [-> ->]. apply drop_next in E.
  apply (run_close _ _ _ _ _ _ (goes_trans d os _ _ _ _ _ W W2) E). rewrite Hroot. cbn [ntok]. lia.
Qed.

Lemma tree_pre_pos ch1 p1 : (off_struct x + length (tree_pre nm ps ch1 p1) =
  first_pos + length (concat (map enc_node ch1)) + (4 + length (padz (s_chosen ++ [0%Z]))) + length (concat (map enc_prop p1)))%nat.
Proof. unfold first_pos, tree_pre, node_pre. rewrite !length_app, !length_be. lia. Qed.

(** the last [chosen] *)
Lemma run_last ch1 pc cc ch2 : ch = ch1 ++ Node s_chosen pc cc :: ch2 -> Forall quiet ch -> Forall (fun n => name_of n <> s_chosen) ch2 ->
  BootFdt.walk_loop fuel d os start = Ok (AtEnd true (Z.of_nat (off_struct x + length (tree_pre nm ps ch1 [])))).
Proof.
  intros Hc Hq Hn. destruct run_first as [W E]. destruct run_node as (_ & _ & Hch). pose proof Hch as Hch'. rewrite Hc in Hch', Hq, E.
  apply Forall_app in Hch' as [Ho1 Ho]. apply Forall_app in Hq as [Hq1 Hq]. inversion Ho as [|? ? Hok Ho2]; inversion Hq as [|? ? Hqc Hq2]; subst.
  rewrite map_app, concat_app, <- app_assoc in E. cbn [map concat] in E. rewrite <- app_assoc in E.
  destruct (boot_children d os _ Hd ch1 ltac:(lia) Ho1 Hq1 _ false false 0 _ E) as (ic & hc & cb & W2 & _). apply drop_next in E.
  destruct (boot_child d os _ Hd _ ltac:(lia) Hok Hqc _ ic hc cb _ E) as (h1 & c1 & W3 & H3). rewrite bool_decide_true in H3 by done. destruct H3 as [-> ->]. apply drop_next in E.
  match type of W3 with goes _ _ _ _ (BootFdt.Walk _ _ _ _ ?c) => set (cb1 := c) in * end.
  destruct (boot_children d os _ Hd ch2 ltac:(lia) Ho2 Hq2 _ false true cb1 _ E) as (ic2 & h2 & c2 & W4 & H4). destruct (H4 Hn) as [-> ->]. apply drop_next in E.
  rewrite (run_close _ _ _ _ _ _ (goes_trans d os _ _ _ _ _ (goes_trans d os _ _ _ _ _ (goes_trans d os _ _ _ _ _ W W2) W3) W4) E).
  - do 2 f_equal. unfold cb1. rewrite tree_pre_pos. cbn [map concat length]. lia.
  - rewrite Hroot. cbn [ntok]. rewrite map_app, list_sum_app. cbn [map list_sum fold_right ntok]. change (fold_right Nat.add 0%nat) with list_sum. lia.
Qed.

(** the property *)
Lemma run_found ch1 p1 q p2 cc ch2 : ch = ch1 ++ Node s_chosen (p1 ++ q :: p2) cc :: ch2 -> Forall quiet ch1 -> unset p1 -> pr_name q = s_bootargs ->
  let t := Z.of_nat (off_struct x + length (tree_pre nm ps ch1 p1)) in
  BootFdt.walk_loop fuel d os start = Ok (AtProp t (Z.of_nat (length (pr_val q))) (t + 12)).
Proof.
  intros Hc Hq1 Hu Hq t. destruct run_first as [W E]. destruct run_node as (_ & _ & Hch). pose proof Hch as Hch'. rewrite Hc in Hch', E.
  apply Forall_app in Hch' as [Ho1 Ho]. inversion Ho as [|? ? Hok Ho2]; subst. inversion Hok as [? ? ? _ Hpc _]; subst.
  rewrite map_app, concat_app, <- app_assoc in E. cbn [map concat] in E. rewrite <- app_assoc in E.
  destruct (boot_children d os _ Hd ch1 ltac:(lia) Ho1 Hq1 _ false false 0 _ E) as (ic & hc & cb & W2 & _). apply drop_next in E.
  pose proof (boot_found d os _ Hd p1 q p2 cc ltac:(lia) Hpc Hu Hq _ ic hc cb _ E) as W3. cbv zeta in W3.
  rewrite (walk_ends d os _ _ _ _ (goes_ends d os _ _ _ _ _ (goes_trans d os _ _ _ _ _ W W2) W3)).
  - do 2 f_equal; unfold t; rewrite tree_pre_pos; lia.
  - apply run_tokens. rewrite Hroot. cbn [ntok]. rewrite map_app, list_sum_app. cbn [map list_sum fold_right ntok]. rewrite length_app. cbn [length]. lia.
Qed.
End run.

(** ** The result *)

Lemma enc_dtb_img rs md nm ps ch1 p1 qs p2 cc ch2 gp ss :
  enc_dtb (Dtb rs md (focus nm ps ch1 p1 qs p2 cc ch2) gp ss) = img rs md (tree_pre nm ps ch1 p1) (tree_post p2 cc ch2) gp (strings ss) (concat (map enc_prop qs)).
Proof.
  unfold enc_dtb, img, img_hdr, total_size, off_strings, off_struct, os_of. cbn [rsv mid root gap strs].
  rewrite enc_focus, !length_app. rewrite <- !app_assoc. f_equal. f_equal; lia.
Qed.

Lemma focus_ok d os t nm ps ch1 p1 qs p2 cc ch2 : node_ok d os t (focus nm ps ch1 p1 qs p2 cc ch2) <->
  node_ok d os t (focus nm ps ch1 p1 [] p2 cc ch2) /\ Forall (prop_ok d os t) qs.
Proof.
  unfold focus. split.
  - intros H. inversion H as [? ? ? Hn Hp Hc]; subst. apply Forall_app in Hc as [H1 Hc]. inversion Hc as [|? ? Hx H2]; subst. inversion Hx as [? ? ? Hn' Hp' Hc']; subst.
    rewrite !Forall_app in Hp'. split; [|tauto]. constructor; [done|done|]. apply Forall_app. split; [done|]. constructor; [|done]. constructor; [done| |done].
    rewrite !Forall_app. split_and!; [tauto|constructor|tauto].
  - intros [H Hq]. inversion H as [? ? ? Hn Hp Hc]; subst. apply Forall_app in Hc as [H1 Hc]. inversion Hc as [|? ? Hx H2]; subst. inversion Hx as [? ? ? Hn' Hp' Hc']; subst.
    rewrite !Forall_app in Hp'. constructor; [done|done|]. apply Forall_app. split; [done|]. constructor; [|done]. constructor; [done| |done].
    rewrite !Forall_app. tauto.
Qed.

Lemma length_new_value old cmd : Z.of_nat (length old) < 2 ^ 31 -> Z.of_nat (length cmd) < 2 ^ 30 -> Z.of_nat (length (new_value old cmd)) < 2 ^ 31.
Proof. intros Ho Hc. unfold new_value. destruct (_ <? _); [rewrite length_app; cbn; lia|by rewrite length_filled]. Qed.

Lemma name_off_spec l name o : name_off l name = Some o -> 0 <= o < Z.of_nat (length (strings l)) /\ exists r, drop (Z.to_nat o) (strings l) = name ++ 0 :: r.
Proof.
  revert o. induction l as [|s l IH]; intros o H; cbn [name_off] in H; [done|]. unfold strings. cbn [map concat]. fold (strings l). rewrite !length_app. cbn [length].
  case_bool_decide as Hs.
  - injection H as <-. subst. split; [lia|]. exists (strings l). cbn [Z.to_nat drop]. by rewrite <- app_assoc.
  - destruct (name_off l name) as [o'|]; [|done]. cbn in H. injection H as <-. destruct (IH o' eq_refl) as [Ho [r Hr]]. split; [lia|]. exists r.
    replace (Z.to_nat (Z.of_nat (length s) + 1 + o')) with (length (s ++ [0%Z]) + Z.to_nat o')%nat by (rewrite length_app; cbn; lia).
    by rewrite <- drop_drop, drop_app_length.
Qed.

(** the name is in the strings block after it was looked up or appended *)
Lemma new_name_ok l cmd (noff := default (Z.of_nat (length (strings l))) (name_off l s_bootargs))
    (l' := match name_off l s_bootargs with Some _ => l | None => l ++ [s_bootargs] end) :
  Z.of_nat (length (strings l)) < 2 ^ 31 -> Z.of_nat (length cmd) < 2 ^ 30 -> prop_ok (strings l') 0 (Z.of_nat (length (strings l'))) (Prop_ noff s_bootargs (cmd ++ [0])).
Proof.
  intros Hl Hc. unfold prop_ok. cbn [pr_name pr_noff pr_val]. split; [apply plain_bootargs|]. rewrite length_app, Z.add_0_l. unfold noff, l'.
  destruct (name_off l s_bootargs) as [o|] eqn:E; cbn [default from_option]; unfold id.
  - destruct (name_off_spec _ _ _ E) as [Ho Hr]. split; [done|]. split; [lia|]. split; [cbn; lia|done].
  - unfold strings at 2 3. rewrite map_app, concat_app. fold (strings l). rewrite (length_app (strings l)). split; [cbn; lia|]. split; [lia|]. split; [cbn; lia|].
    exists []. rewrite Nat2Z.id. unfold strings at 2. rewrite map_app, concat_app. fold (strings l). by rewrite drop_app_length.
Qed.

Lemma replace_spec rs md nm ps ch1 p1 q p2 cc ch2 gp ss cmd sl (x := Dtb rs md (focus nm ps ch1 p1 [q] p2 cc ch2) gp ss)
    (x' := Dtb rs md (focus nm ps ch1 p1 [Prop_ (pr_noff q) (pr_name q) (new_value (pr_val q) cmd)] p2 cc ch2) gp ss) :
  dtb_ok x -> Z.of_nat (length (enc_dtb x ++ sl)) < 2 ^ 30 -> (length cmd + 32 <= length sl)%nat -> Forall quiet ch1 -> unset p1 -> pr_name q = s_bootargs ->
  fdt_set_bootargs (enc_dtb x ++ sl) cmd = Ok (0, enc_dtb x' ++ drop (length (enc_dtb x') - length (enc_dtb x)) sl) /\ dtb_ok x'.
Proof.
  intros Hx Hd Hsl Hq1 Hu Hq. assert (Hc : Z.of_nat (length cmd) < 2 ^ 30) by (rewrite length_app in Hd; lia). pose proof (db_rsv _ Hx : length rs = 16%nat) as Hrs. split.
  - rewrite (set_bootargs_start x sl Hx ltac:(lia) cmd Hc).
    rewrite (run_found x sl Hx ltac:(lia) nm ps _ eq_refl ch1 p1 q p2 cc ch2 eq_refl Hq1 Hu Hq). cbn [mbind outcome_bind].
    unfold x, x' in *. rewrite !enc_dtb_img in *. cbn [map concat] in *. rewrite !app_nil_r in *. unfold off_struct. cbn [mid].
    replace (40 + length md + length (tree_pre nm ps ch1 p1))%nat with (40 + length (md ++ tree_pre nm ps ch1 p1))%nat by (rewrite length_app; lia).
    rewrite (replace_img rs md _ _ gp (strings ss) Hrs q cmd sl) by lia. do 4 f_equal. rewrite !length_img by done. unfold os_of. lia.
  - destruct Hx as [H1 H2 H3]. split; [done| |done]. cbn [root strs x x'] in *. apply focus_ok in H2 as [H2 H4]. apply focus_ok. split; [done|].
    inversion H4 as [|? ? (Hn & Hno & H32 & Hv & Hr) _]; subst. constructor; [|constructor]. unfold prop_ok. cbn [pr_name pr_noff pr_val].
    split; [done|]. split; [done|]. split; [done|]. split; [by apply length_new_value|done].
Qed.

Lemma insert_spec rs md nm ps ch1 p2 cc ch2 gp ss cmd sl
    (noff := default (Z.of_nat (length (strings ss))) (name_off ss s_bootargs)) (ss' := match name_off ss s_bootargs with Some _ => ss | None => ss ++ [s_bootargs] end)
    (x := Dtb rs md (focus nm ps ch1 [] [] p2 cc ch2) gp ss) (x' := Dtb rs md (focus nm ps ch1 [] [Prop_ noff s_bootargs (cmd ++ [0])] p2 cc ch2) gp ss') :
  dtb_ok x -> Z.of_nat (length (enc_dtb x ++ sl)) < 2 ^ 30 -> (length cmd + 32 <= length sl)%nat ->
  Forall quiet (ch1 ++ Node s_chosen p2 cc :: ch2) -> Forall (fun n => name_of n <> s_chosen) ch2 ->
  fdt_set_bootargs (enc_dtb x ++ sl) cmd = Ok (0, enc_dtb x' ++ drop (length (enc_dtb x') - length (enc_dtb x)) sl) /\ dtb_ok x'.
Proof.
  intros Hx Hd Hsl Hq Hn. assert (Hc : Z.of_nat (length cmd) < 2 ^ 30) by (rewrite length_app in Hd; lia). pose proof (db_rsv _ Hx : length rs = 16%nat) as Hrs.
  pose proof (db_strs _ Hx : Forall plain ss) as Hss. assert (Hsl2 : Z.of_nat (length (strings ss)) < 2 ^ 30).
  { rewrite length_app, length_enc_dtb in Hd by done. unfold total_size in Hd. cbn [strs x] in Hd. lia. }
  pose proof (new_name_ok ss cmd ltac:(lia) Hc) as Hnew. cbv zeta in Hnew. fold noff ss' in Hnew. split.
  - rewrite (set_bootargs_start x sl Hx ltac:(lia) cmd Hc).
    rewrite (run_last x sl Hx ltac:(lia) nm ps _ eq_refl ch1 p2 cc ch2 eq_refl Hq Hn). cbn [mbind outcome_bind].
    unfold x, x' in *. rewrite !enc_dtb_img in *. cbn [map concat] in *. rewrite !app_nil_r in *. unfold off_struct. cbn [mid].
    set (pre := tree_pre nm ps ch1 []) in *. set (post := tree_post p2 cc ch2) in *.
    replace (40 + length md + length pre)%nat with (40 + length (md ++ pre))%nat by (rewrite length_app; lia).
    unfold fdt_insert_bootargs. rewrite (strings_find_img rs md pre post gp Hrs ss [] s_bootargs sl ltac:(lia) Hss plain_bootargs). cbn [mbind outcome_bind].
    destruct Hnew as (_ & Hno & H32 & _). rewrite length_app in Hd.
    assert (Hfin : forall str k, (k <= 9)%nat -> length str = (length (strings ss) + k)%nat ->
      insert_at (img rs md pre post gp str [] ++ drop k sl) (Z.of_nat (40 + length (md ++ pre))) cmd (Z.of_nat (length cmd) + 1) noff =
      Ok (0, img rs md pre post gp str (enc_prop (Prop_ noff s_bootargs (cmd ++ [0]))) ++
        drop (length (img rs md pre post gp str (enc_prop (Prop_ noff s_bootargs (cmd ++ [0])))) - length (img rs md pre post gp (strings ss) [])) sl)).
    { intros str k Hk Hstr. rewrite !length_img in * by done. unfold os_of in *. cbn [length] in *.
      rewrite (insert_img rs md pre post gp str Hrs noff cmd (drop k sl)); [|rewrite length_app, length_img, length_drop by done; unfold os_of; cbn [length]; lia|done
        |rewrite length_drop; lia|cbn [pr_noff] in Hno, H32; lia]. rewrite drop_drop. do 4 f_equal. lia. }
    unfold noff, ss' in *. destruct (name_off ss s_bootargs) as [o|] eqn:E; cbn [default from_option] in *; unfold id in *.
    + rewrite (proj2 (Z.ltb_ge o 0)) by (cbn [pr_noff] in Hno; lia). cbn [mbind outcome_bind]. specialize (Hfin (strings ss) 0%nat ltac:(lia) ltac:(lia)). by rewrite drop_0 in Hfin.
    + change (-1 <? 0) with true. cbn match. rewrite (strings_append_img rs md pre post gp Hrs (strings ss) [] s_bootargs sl); [|rewrite length_app; lia|cbn [length s_bootargs]; lia]. cbn [mbind outcome_bind].
      assert (Es : strings (ss ++ [s_bootargs]) = strings ss ++ s_bootargs ++ [0]) by (unfold strings; rewrite map_app, concat_app; cbn [map concat]; by rewrite app_nil_r).
      rewrite Es. apply (Hfin _ 9%nat); [lia|]. by rewrite length_app.
  - destruct Hx as [H1 H2 H3]. split; [done| |].
    + cbn [root strs x x'] in *. apply focus_ok. split; [|by constructor; [|constructor]]. eapply node_ok_mono; [|exact H2].
      intros p Hp. unfold ss'. destruct (name_off ss s_bootargs); [done|]. unfold strings. rewrite map_app, concat_app. by apply prop_ok_more.
    + cbn [strs x' x] in *. unfold ss'. destruct (name_off ss s_bootargs); [done|]. apply Forall_app. split; [done|]. constructor; [apply plain_bootargs|constructor].
Qed.

(** The editor on the blob of a tree. *)
Lemma fdt_set_bootargs_spec x cmd sl : dtb_ok x -> Z.of_nat (length (enc_dtb x ++ sl)) < 2 ^ 30 -> (length cmd + 32 <= length sl)%nat ->
  match set_bootargs x cmd with
  | Some x' => fdt_set_bootargs (enc_dtb x ++ sl) cmd = Ok (0, enc_dtb x' ++ drop (length (enc_dtb x') - length (enc_dtb x)) sl) /\ dtb_ok x'
  | None => fdt_set_bootargs (enc_dtb x ++ sl) cmd = Ok (-4, enc_dtb x ++ sl)
  end.
Proof.
  intros Hx Hd Hsl. assert (Hc : Z.of_nat (length cmd) < 2 ^ 30) by (rewrite length_app in Hd; lia). destruct x as [rs md [nm ps ch] gp ss].
  unfold set_bootargs. cbn [rsv mid root gap strs children set_children]. destruct (replace_child ch cmd) as [ch'|] eqn:E.
  - apply replace_child_Some in E as (ch1 & p1 & q & p2 & cc & ch2 & -> & -> & Hq1 & Hu & Hq). by apply (replace_spec rs md nm ps ch1 p1 q p2 cc ch2 gp ss cmd sl).
  - apply replace_child_None in E. destruct (insert_child ch _) as [ch'|] eqn:Ei; cbn [mbind option_bind].
    + apply insert_child_Some in Ei as (ch1 & p2 & cc & ch2 & -> & -> & Hn). by apply (insert_spec rs md nm ps ch1 p2 cc ch2 gp ss cmd sl).
    + apply insert_child_None in Ei. rewrite (set_bootargs_start _ sl Hx ltac:(lia) cmd Hc).
      by rewrite (run_none _ sl Hx ltac:(lia) nm ps ch eq_refl E Ei).
Qed.

(** A blob as the reader of the kernel sees it. *)
Lemma dtb_blob x r : dtb_ok x -> Z.of_nat (total_size x) < 2 ^ 31 ->
  blob_ok (enc_dtb x ++ r) (root x) (off_struct x) (Z.of_nat (off_strings x)) (Z.of_nat (total_size x)).
Proof.
  intros Hx H31. pose proof (db_rsv _ Hx) as Hr. unfold total_size, off_strings, off_struct in H31.
  destruct (hdr_get (rsv x) Hr (Z.of_nat (total_size x)) (Z.of_nat (off_struct x)) (Z.of_nat (off_strings x)) (Z.of_nat (length (strings (strs x)))) (Z.of_nat (length (enc_node (root x)) + 4))
    ((mid x ++ enc_node (root x) ++ be FDT_END ++ gap x ++ strings (strs x)) ++ r)) as (H0 & H1 & H2 & H3 & _);
    [unfold total_size, off_strings, off_struct; rewrite !Forall_cons; repeat split; [lia..|constructor]|].
  assert (E : enc_dtb x ++ r = hdr (Z.of_nat (total_size x)) (Z.of_nat (off_struct x)) (Z.of_nat (off_strings x)) (rsv x)
    (Z.of_nat (length (strings (strs x)))) (Z.of_nat (length (enc_node (root x)) + 4)) ++ (mid x ++ enc_node (root x) ++ be FDT_END ++ gap x ++ strings (strs x)) ++ r)
    by (unfold enc_dtb; by rewrite <- !app_assoc).
  split; [rewrite E; exact H0|rewrite E; exact H1|rewrite E; exact H2|rewrite E; exact H3| | |by apply dtb_nodes].
  - eexists. by rewrite dtb_struct.
  - unfold off_strings, off_struct. lia.
Qed.

(** ** Lookups in the new tree *)

(** [ps'] is [ps] but for the property [bootargs] *)
Definition same_but (ps ps' : list fprop) : Prop := forall name, name <> s_bootargs -> prop_in ps' name = prop_in ps name.

(** [ch'] is [ch] but for that property of one node [chosen] *)
Definition one_changed (ch ch' : list node) : Prop :=
  exists ch1 ps ps' cc ch2, ch = ch1 ++ Node s_chosen ps cc :: ch2 /\ ch' = ch1 ++ Node s_chosen ps' cc :: ch2 /\ same_but ps ps'.

Lemma replace_child_changed ch cmd ch' : replace_child ch cmd = Some ch' -> one_changed ch ch'.
Proof.
  intros H. apply replace_child_Some in H as (ch1 & p1 & q & p2 & cc & ch2 & -> & -> & _ & _ & Hq). exists ch1, (p1 ++ q :: p2), (p1 ++ Prop_ (pr_noff q) (pr_name q) (new_value (pr_val q) cmd) :: p2), cc, ch2.
  split; [done|]. split; [done|]. intros name Hn. induction p1 as [|p p1 IH]; cbn [app prop_in pr_name pr_val]; [|by rewrite IH].
  by rewrite !bool_decide_false by congruence.
Qed.

Lemma insert_child_changed ch noff v ch' : insert_child ch (Prop_ noff s_bootargs v) = Some ch' -> one_changed ch ch'.
Proof.
  intros H. apply insert_child_Some in H as (ch1 & ps & cc & ch2 & -> & -> & _). eexists ch1, ps, _, cc, ch2. split; [done|]. split; [done|].
  intros name Hn. cbn [prop_in pr_name]. by rewrite bool_decide_false by congruence.
Qed.

Lemma first_child_app ch1 ch2 c cs name :
  first_child (ch1 ++ ch2) c cs name = match first_child ch1 c cs name with Some v => Some v | None => first_child ch2 c cs name end.
Proof.
  induction ch1 as [|n ch1 IH]; [done|]. cbn [app first_child]. rewrite IH. case_bool_decide; [|done]. by destruct (find_prop n cs name).
Qed.

Lemma one_changed_lookup nm ps ch ch' comps name : one_changed ch ch' -> comps <> [s_chosen] \/ name <> s_bootargs ->
  find_prop (Node nm ps ch') comps name = find_prop (Node nm ps ch) comps name.
Proof.
  intros (ch1 & pc & pc' & cc & ch2 & -> & -> & Hs) Hne. destruct comps as [|c cs]; [done|]. rewrite !find_prop_cons, !first_child_app. destruct (first_child ch1 c cs name); [done|].
  cbn [first_child name_of]. case_bool_decide as Hc; [|done]. replace (find_prop (Node s_chosen pc' cc) cs name) with (find_prop (Node s_chosen pc cc) cs name); [done|].
  destruct cs as [|c2 cs]; [|by rewrite !find_prop_cons]. cbn [find_prop]. symmetry. apply Hs. destruct Hne as [Hne|]; [|done].
  exfalso. apply Hne. change (unit_name s_chosen) with s_chosen in Hc. congruence.
Qed.

Lemma set_bootargs_changed x cmd x' : set_bootargs x cmd = Some x' -> exists nm ps ch ch', root x = Node nm ps ch /\ root x' = Node nm ps ch' /\ one_changed ch ch'.
Proof.
  unfold set_bootargs. intros H. destruct (root x) as [nm ps ch]. cbn [children set_children] in H. exists nm, ps, ch. destruct (replace_child ch cmd) as [ch'|] eqn:E.
  - injection H as <-. exists ch'. split; [done|]. split; [done|]. by eapply replace_child_changed.
  - destruct (insert_child ch _) as [ch'|] eqn:Ei; cbn [mbind option_bind] in H; [|done]. injection H as <-. exists ch'. split; [done|]. split; [done|].
    by eapply insert_child_changed.
Qed.

(** the only node of that name *)
Definition sole_chosen (n : node) (ps : list fprop) : Prop :=
  exists ch1 cc ch2, children n = ch1 ++ Node s_chosen ps cc :: ch2 /\ Forall (fun n => unit_name (name_of n) <> s_chosen) (ch1 ++ ch2).

(** the value the lookup finds *)
Definition value_set (ps : list fprop) (cmd : list Z) : list Z :=
  match prop_in ps s_bootargs with Some old => new_value old cmd | None => cmd ++ [0] end.

Lemma unit_chosen n : unit_name (name_of n) <> s_chosen -> name_of n <> s_chosen.
Proof. intros H E. apply H. by rewrite E. Qed.

Lemma replace_child_app ch1 ch2 cmd : Forall (fun n => name_of n <> s_chosen) ch1 -> replace_child (ch1 ++ ch2) cmd = (fun l => ch1 ++ l) <$> replace_child ch2 cmd.
Proof.
  induction 1 as [|[nm ps cc] ch1 Hn H IH]; cbn [app replace_child]; [by destruct (replace_child ch2 cmd)|]. rewrite bool_decide_false by done. rewrite IH. by destruct (replace_child ch2 cmd).
Qed.

Lemma insert_child_app ch1 n ch2 p : Forall (fun n => name_of n <> s_chosen) ch2 -> name_of n = s_chosen ->
  insert_child (ch1 ++ n :: ch2) p = Some (ch1 ++ (match n with Node nm ps cc => Node nm (p :: ps) cc end) :: ch2).
Proof.
  intros H2 Hn. assert (E2 : insert_child ch2 p = None). { induction H2 as [|[nm ps cc] ch2 Hx H2 IH]; [done|]. cbn [insert_child]. rewrite IH. by rewrite bool_decide_false. }
  induction ch1 as [|[nm ps cc] ch1 IH]; cbn [app insert_child].
  - destruct n as [nm ps cc]. rewrite E2. cbn [name_of] in Hn. by rewrite bool_decide_true.
  - by rewrite IH.
Qed.

Lemma replace_prop_in ps cmd : match replace_prop ps cmd with
  | Some ps' => exists old, prop_in ps s_bootargs = Some old /\ prop_in ps' s_bootargs = Some (new_value old cmd)
  | None => prop_in ps s_bootargs = None
  end.
Proof.
  induction ps as [|p ps IH]; [done|]. cbn [replace_prop prop_in]. case_bool_decide as Hp.
  - exists (pr_val p). split; [done|]. cbn [prop_in pr_name pr_val]. by rewrite bool_decide_true.
  - destruct (replace_prop ps cmd) as [l|]; cbn [fmap option_fmap option_map]; [|done]. destruct IH as (old & H1 & H2). exists old. split; [done|].
    cbn [prop_in]. by rewrite bool_decide_false.
Qed.

Lemma set_bootargs_value x ps cmd : sole_chosen (root x) ps -> exists x', set_bootargs x cmd = Some x' /\ find_prop (root x') [s_chosen] s_bootargs = Some (value_set ps cmd).
Proof.
  intros (ch1 & cc & ch2 & Hch & Hu). apply Forall_app in Hu as [Hu1 Hu2]. destruct (root x) as [nm rp ch] eqn:Er. cbn [children] in Hch. subst ch.
  assert (Hn1 : Forall (fun n => name_of n <> s_chosen) ch1) by (eapply Forall_impl; [exact Hu1|apply unit_chosen]).
  assert (Hn2 : Forall (fun n => name_of n <> s_chosen) ch2) by (eapply Forall_impl; [exact Hu2|apply unit_chosen]).
  assert (Hfc : forall l, Forall (fun n => unit_name (name_of n) <> s_chosen) l -> first_child l s_chosen [] s_bootargs = None).
  { intros l. induction 1; [done|]. cbn [first_child]. by rewrite bool_decide_false. }
  assert (Hfind : forall ps' v, prop_in ps' s_bootargs = Some v -> find_prop (Node nm rp (ch1 ++ Node s_chosen ps' cc :: ch2)) [s_chosen] s_bootargs = Some v).
  { intros ps' v Hv. rewrite find_prop_cons, first_child_app, Hfc by done. cbn [first_child name_of]. rewrite bool_decide_true by done. cbn [find_prop]. by rewrite Hv. }
  unfold set_bootargs, value_set. rewrite Er. cbn [children set_children]. rewrite replace_child_app by done. cbn [replace_child]. rewrite bool_decide_true by done.
  pose proof (replace_prop_in ps cmd) as Hr. destruct (replace_prop ps cmd) as [ps'|] eqn:E; cbn [fmap option_fmap option_map].
  - destruct Hr as (old & -> & Hv). eexists. split; [done|]. cbn [root]. by apply Hfind.
  - rewrite Hr. assert (E2 : replace_child ch2 cmd = None).
    { pose proof (replace_child_app ch2 [] cmd Hn2) as H2. by rewrite app_nil_r in H2. }
    rewrite E2. cbn [fmap option_fmap option_map]. rewrite insert_child_app by done. cbn [mbind option_bind]. eexists. split; [done|]. cbn [root]. apply Hfind.
    cbn [prop_in pr_name pr_val]. by rewrite bool_decide_true.
Qed.

(** The old value has room for the command line and its terminator, or takes
    fewer words than they need, so that it is grown. *)
Definition room_for (old cmd : list Z) : Prop :=
  (length cmd < length old)%nat \/ ((length old + 3) / 4 < (length cmd + 4) / 4)%nat.

Lemma pad4_words n : Z.of_nat n < 2 ^ 31 -> pad4 (Z.of_nat n) = 4 * Z.of_nat ((n + 3) / 4).
Proof. intros Hn. rewrite pad4_eq by lia. rewrite Nat2Z.inj_div. lia. Qed.

Lemma filled_fits n cmd : (length cmd < n)%nat -> filled n cmd = cmd ++ 0 :: replicate (n - length cmd - 1) 0.
Proof.
  intros Hn. unfold filled. rewrite take_app_ge by lia. f_equal. replace (n - length cmd)%nat with (S (n - length cmd - 1)) by lia.
  cbn [app firstn]. f_equal. rewrite take_replicate. f_equal. lia.
Qed.

(** Then the value is the command line as a C string; else it is cut. *)
Lemma new_value_room old cmd : Z.of_nat (length old) < 2 ^ 31 -> Z.of_nat (length cmd) < 2 ^ 30 -> room_for old cmd ->
  exists z, new_value old cmd = cmd ++ 0 :: replicate z 0.
Proof.
  intros Ho Hc Hroom. unfold new_value. rewrite !pad4_words by lia. replace (length cmd + 1 + 3)%nat with (length cmd + 4)%nat by lia.
  destruct (Z.ltb_spec (4 * Z.of_nat ((length old + 3) / 4)) (4 * Z.of_nat ((length cmd + 4) / 4))); [by exists 0%nat|].
  destruct Hroom as [Hroom|?]; [|lia]. rewrite filled_fits by done. by eexists.
Qed.

Lemma new_value_cut old cmd : Z.of_nat (length old) < 2 ^ 31 -> Z.of_nat (length cmd) < 2 ^ 30 -> ~ room_for old cmd ->
  new_value old cmd = take (length old) cmd.
Proof.
  unfold room_for. intros Ho Hc Hroom. unfold new_value. rewrite !pad4_words by lia. replace (length cmd + 1 + 3)%nat with (length cmd + 4)%nat by lia.
  destruct (Z.ltb_spec (4 * Z.of_nat ((length old + 3) / 4)) (4 * Z.of_nat ((length cmd + 4) / 4))); [lia|].
  unfold filled. rewrite take_app_le by lia. done.
Qed.

(** the values of a tree in a blob are no longer than that *)
Lemma chosen_value_length x ps old : dtb_ok x -> sole_chosen (root x) ps -> prop_in ps s_bootargs = Some old -> Z.of_nat (length old) < 2 ^ 31.
Proof.
  intros Hx (ch1 & cc & ch2 & Hch & _) Hp. pose proof (db_tree _ Hx) as Hn. inversion Hn as [nm rp ch _ _ Hall Er]. rewrite <- Er in Hch. cbn in Hch. subst ch.
  apply Forall_app in Hall as [_ [Hc _]%Forall_cons]. inversion Hc as [? ? ? _ Hps _]; subst. clear -Hps Hp.
  induction Hps as [|p ps Hok Hps IH]; [done|]. cbn [prop_in] in Hp. case_bool_decide; [|by apply IH]. injection Hp as <-. apply Hok.
Qed.

Lemma set_bootargs_kept x cmd x' : set_bootargs x cmd = Some x' -> rsv x' = rsv x /\ mid x' = mid x /\
  forall comps name, comps <> [s_chosen] \/ name <> s_bootargs -> find_prop (root x') comps name = find_prop (root x) comps name.
Proof.
  intros E. split; [|split].
  - unfold set_bootargs in E. destruct (replace_child _ _); [by injection E as <-|]. destruct (insert_child _ _); cbn [mbind option_bind] in E; [by injection E as <-|done].
  - unfold set_bootargs in E. destruct (replace_child _ _); [by injection E as <-|]. destruct (insert_child _ _); cbn [mbind option_bind] in E; [by injection E as <-|done].
  - intros comps name Hne. destruct (set_bootargs_changed x cmd x' E) as (nm & ps & ch & ch' & -> & -> & Hc). by apply one_changed_lookup.
Qed.

Lemma set_bootargs_none x cmd : Forall (fun n => name_of n <> s_chosen) (children (root x)) -> set_bootargs x cmd = None.
Proof.
  intros Hn. unfold set_bootargs. pose proof (replace_child_app _ [] cmd Hn) as Hr. rewrite app_nil_r in Hr. rewrite Hr. cbn [replace_child fmap option_fmap option_map].
  replace (insert_child _ _) with (@None (list node)); [done|]. symmetry. generalize (children (root x)), Hn. intros l Hl.
  induction Hl as [|[nm ps cc] l Hx Hl IH]; [done|]. cbn [insert_child]. rewrite IH. by rewrite bool_decide_false.
Qed.

(** The result of the editor on a tree with one node [/chosen]. *)
Lemma fdt_set_bootargs_sole x cmd sl ps : dtb_ok x -> Z.of_nat (length (enc_dtb x ++ sl)) < 2 ^ 30 -> (length cmd + 32 <= length sl)%nat -> sole_chosen (root x) ps ->
  exists x', fdt_set_bootargs (enc_dtb x ++ sl) cmd = Ok (0, enc_dtb x' ++ drop (length (enc_dtb x') - length (enc_dtb x)) sl) /\ dtb_ok x' /\
    find_prop (root x') [s_chosen] s_bootargs = Some (value_set ps cmd) /\
    rsv x' = rsv x /\ mid x' = mid x /\
    forall comps name, comps <> [s_chosen] \/ name <> s_bootargs -> find_prop (root x') comps name = find_prop (root x) comps name.
Proof.
  intros Hx Hd Hsl Hs. destruct (set_bootargs_value x ps cmd Hs) as (x' & E & Hv). exists x'.
  pose proof (fdt_set_bootargs_spec x cmd sl Hx Hd Hsl) as H. rewrite E in H. destruct H as [H1 H2].
  split; [done|]. split; [done|]. split; [done|]. by apply set_bootargs_kept in E.
Qed.

(** C19. The bootloader edits the tree: on the flattened form of a device tree
    with one node [/chosen], in a buffer with room behind it, [fdt_set_bootargs]
    leaves the flattened form of a tree in which the property [bootargs] of
    [/chosen] is the command line with its terminator (and zeros up to the old
    length), whether the property was there or not; every lookup of another
    property or another path gives what it gave before, the reserved bytes are
    kept and so are the bytes behind.  An old value that is too short for the
    command line but takes as many words is the exception
    ([fdt_set_bootargs_cuts]).  Without a node [/chosen] the result is -4 and
    nothing changes.  There is no read or write outside the buffer. *)
Theorem fdt_set_bootargs_correct x cmd sl :
  dtb_ok x -> Z.of_nat (length (enc_dtb x ++ sl)) < 2 ^ 30 -> (length cmd + 32 <= length sl)%nat ->
  (forall ps, sole_chosen (root x) ps -> (forall old, prop_in ps s_bootargs = Some old -> room_for old cmd) ->
     exists x', fdt_set_bootargs (enc_dtb x ++ sl) cmd = Ok (0, enc_dtb x' ++ drop (length (enc_dtb x') - length (enc_dtb x)) sl) /\ dtb_ok x' /\
       (exists z, find_prop (root x') [s_chosen] s_bootargs = Some (cmd ++ 0 :: replicate z 0)) /\
       rsv x' = rsv x /\ mid x' = mid x /\
       forall comps name, comps <> [s_chosen] \/ name <> s_bootargs -> find_prop (root x') comps name = find_prop (root x) comps name) /\
  (Forall (fun n => name_of n <> s_chosen) (children (root x)) -> fdt_set_bootargs (enc_dtb x ++ sl) cmd = Ok (-4, enc_dtb x ++ sl)).
Proof.
  intros Hx Hd Hsl. assert (Hc : Z.of_nat (length cmd) < 2 ^ 30) by (rewrite length_app in Hd; lia). split.
  - intros ps Hs Hroom. destruct (fdt_set_bootargs_sole x cmd sl ps Hx Hd Hsl Hs) as (x' & H1 & H2 & Hv & H3). exists x'.
    split; [done|]. split; [done|]. split; [|done]. rewrite Hv. unfold value_set.
    destruct (prop_in ps s_bootargs) as [old|] eqn:Ep; [|by exists 0%nat].
    destruct (new_value_room old cmd (chosen_value_length x ps old Hx Hs Ep) Hc (Hroom old eq_refl)) as [z ->]. by exists z.
  - intros Hn. pose proof (fdt_set_bootargs_spec x cmd sl Hx Hd Hsl) as H. by rewrite (set_bootargs_none x cmd Hn) in H.
Qed.

(** Where the old value is too short but as many words long, the command line is
    cut to the old length, without a terminator. *)
Theorem fdt_set_bootargs_cuts x cmd sl ps old :
  dtb_ok x -> Z.of_nat (length (enc_dtb x ++ sl)) < 2 ^ 30 -> (length cmd + 32 <= length sl)%nat ->
  sole_chosen (root x) ps -> prop_in ps s_bootargs = Some old -> ~ room_for old cmd ->
  exists x', fdt_set_bootargs (enc_dtb x ++ sl) cmd = Ok (0, enc_dtb x' ++ drop (length (enc_dtb x') - length (enc_dtb x)) sl) /\
    find_prop (root x') [s_chosen] s_bootargs = Some (take (length old) cmd) /\ (length old <= length cmd)%nat.
Proof.
  intros Hx Hd Hsl Hs Ep Hroom. assert (Hc : Z.of_nat (length cmd) < 2 ^ 30) by (rewrite length_app in Hd; lia).
  destruct (fdt_set_bootargs_sole x cmd sl ps Hx Hd Hsl Hs) as (x' & H1 & _ & Hv & _). exists x'. split; [done|].
  split; [|unfold room_for in Hroom; lia]. rewrite Hv. unfold value_set. rewrite Ep.
  by rewrite (new_value_cut old cmd (chosen_value_length x ps old Hx Hs Ep) Hc Hroom).
Qed.
