(* ===== verification/BootCmd.v ===== *)
(** The command line of the bootloader, [build_cmdline] of [bootloader/main.c],
    and what the kernel reads out of it, [kfdt_initrd].

    The buffer is its bytes; writing outside it is a [Fault]. *)

From stdpp Require Import strings list.
From Stdlib Require Import ZArith Lia.
From S2P Require Import Prelude Checked Kfdt KfdtTree BootFdt BootFdtTree.

(** the characters of a literal *)
Definition asc (s : string) : list Z := map (fun c => Z.of_N (Ascii.N_of_ascii c)) (String.list_ascii_of_string s).

(** ** [main.c] *)

(** the characters up to the NUL, as long as [o < cap - 1] *)
Fixpoint append_chars (dst : list Z) (o cap : Z) (src : list Z) : outcome (Z * list Z) :=
  match src with
  | [] => Ok (o, dst)
  | c :: src' => if o <? cap - 1 then dst ← aset dst o c; append_chars dst (o + 1) cap src' else Ok (o, dst)
  end.

Definition append (dst : list Z) (o cap : Z) (src : list Z) : outcome (Z * list Z) :=
  r ← append_chars dst o cap src;
  dst ← aset r.2 r.1 0;
  Ok (r.1, dst).

Definition digit_chars : list Z := asc "0123456789abcdef".

(** the digits in [tmp], the lowest first; [room] places are left in it *)
Fixpoint num_chars (room : nat) (v base : Z) : outcome (list Z) :=
  if v =? 0 then Ok []
  else match room with
       | O => Fault
       | S room' => c ← aref digit_chars (v mod base); l ← num_chars room' (v / base) base; Ok (c :: l)
       end.

Definition append_num (dst : list Z) (o cap v base : Z) : outcome (Z * list Z) :=
  tmp ← (if v =? 0 then Ok [48] else num_chars 11 v base);
  append dst o cap (rev tmp).

Definition s_console : list Z := asc "console=ttyS0,115200 earlycon earlyprintk mem=128M@0x40000000 ".
Definition s_panic : list Z := asc " panic=10".

Definition build_cmdline (buf : list Z) (cap initrd_addr initrd_size : Z) : outcome (list Z) :=
  r ← append buf 0 cap (s_console ++ asc "initrd=0x");
  r ← append_num r.2 r.1 cap initrd_addr 16;
  r ← append r.2 r.1 cap (asc ",");
  r ← append_num r.2 r.1 cap initrd_size 10;
  r ← append r.2 r.1 cap s_panic;
  Ok r.2.

(** ** The text *)

(** the digits of [v], at most [n], the lowest first *)
Fixpoint low (n : nat) (base v : Z) : list Z :=
  match n with O => [] | S n' => if v =? 0 then [] else v mod base :: low n' base (v / base) end.

Definition digit_char (x : Z) : Z := if x <? 10 then 48 + x else 87 + x.

(** [v] as text *)
Definition num_text (base v : Z) : list Z := if v =? 0 then [48] else digit_char <$> rev (low 11 base v).

(** the command line *)
Definition cmd_text (addr size : Z) : list Z := s_console ++ asc "initrd=0x" ++ num_text 16 addr ++ asc "," ++ num_text 10 size ++ s_panic.

Lemma low_length n base v : (length (low n base v) <= n)%nat.
Proof. revert v. induction n as [|n IH]; intros v; cbn [low]; [done|]. destruct (v =? 0); cbn [length]; [lia|]. specialize (IH (v / base)). lia. Qed.

Lemma low_range n base v : 1 < base -> Forall (fun x => 0 <= x < base) (low n base v).
Proof. intros Hb. revert v. induction n as [|n IH]; intros v; cbn [low]; [constructor|]. destruct (v =? 0); constructor; [apply Z.mod_pos_bound; lia|apply IH]. Qed.

Lemma low_value n base v : 1 < base -> 0 <= v < base ^ Z.of_nat n -> foldr (fun x acc => acc * base + x) 0 (low n base v) = v.
Proof.
  intros Hb. revert v. induction n as [|n IH]; intros v Hv; cbn [low]; [cbn in *; lia|]. destruct (Z.eqb_spec v 0) as [->|Hn]; [done|]. cbn [foldr].
  rewrite Nat2Z.inj_succ, Z.pow_succ_r in Hv by lia. rewrite IH; [pose proof (Z.div_mod v base); lia|].
  split; [apply Z.div_pos; lia|]. apply Z.div_lt_upper_bound; lia.
Qed.

Lemma digit_chars_at x : 0 <= x < 16 -> aref digit_chars x = Ok (digit_char x).
Proof.
  intros Hx. assert (H : Forall (fun x => aref digit_chars x = Ok (digit_char x)) (seqZ 0 16)) by (vm_compute; repeat constructor).
  rewrite Forall_forall in H. apply H. apply elem_of_seqZ. lia.
Qed.

Lemma num_chars_spec base : 1 < base <= 16 -> forall n v, 0 <= v < base ^ Z.of_nat n -> num_chars n v base = Ok (digit_char <$> low n base v).
Proof.
  intros Hb n. induction n as [|n IH]; intros v Hv; cbn [num_chars low].
  - cbn in Hv. by rewrite (proj2 (Z.eqb_eq v 0)) by lia.
  - destruct (Z.eqb_spec v 0) as [->|Hn]; [done|]. rewrite Nat2Z.inj_succ, Z.pow_succ_r in Hv by lia.
    pose proof (Z.mod_pos_bound v base ltac:(lia)). rewrite digit_chars_at by lia. cbn [mbind outcome_bind]. rewrite IH; [done|].
    split; [apply Z.div_pos; lia|]. apply Z.div_lt_upper_bound; lia.
Qed.

Lemma append_chars_spec cap src : forall a b, (length src <= length b)%nat -> Z.of_nat (length a + length src) < cap ->
  append_chars (a ++ b) (Z.of_nat (length a)) cap src = Ok (Z.of_nat (length (a ++ src)), (a ++ src) ++ drop (length src) b).
Proof.
  induction src as [|c src IH]; intros a b Hb Hc; cbn [append_chars length] in *; [by rewrite app_nil_r|].
  rewrite (proj2 (Z.ltb_lt _ _)) by lia. destruct b as [|x b]; [cbn in Hb; lia|]. rewrite aset_app. cbn [mbind outcome_bind].
  change (a ++ c :: b) with (a ++ [c] ++ b). rewrite app_assoc. replace (Z.of_nat (length a) + 1) with (Z.of_nat (length (a ++ [c]))) by (rewrite length_app; cbn; lia).
  rewrite IH; [|cbn in Hb; lia|rewrite length_app; cbn; lia]. by rewrite <- app_assoc.
Qed.

(** Appending text that fits. *)
Lemma append_spec cap src a b : (length src < length b)%nat -> Z.of_nat (length a + length src) < cap ->
  append (a ++ b) (Z.of_nat (length a)) cap src = Ok (Z.of_nat (length (a ++ src)), (a ++ src) ++ 0 :: drop (length src + 1) b).
Proof.
  intros Hb Hc. unfold append. rewrite append_chars_spec by lia. cbn [mbind outcome_bind fst snd].
  destruct (drop (length src) b) as [|x r] eqn:E; [apply (f_equal length) in E; rewrite length_drop in E; cbn in E; lia|].
  rewrite aset_app. cbn [mbind outcome_bind]. rewrite <- drop_drop, E. done.
Qed.

Lemma append_num_spec cap base v a b : 1 < base <= 16 -> 0 <= v < base ^ 11 -> (length (num_text base v) < length b)%nat -> Z.of_nat (length a + length (num_text base v)) < cap ->
  append_num (a ++ b) (Z.of_nat (length a)) cap v base = Ok (Z.of_nat (length (a ++ num_text base v)), (a ++ num_text base v) ++ 0 :: drop (length (num_text base v) + 1) b).
Proof.
  intros Hbs Hv Hb Hc. unfold append_num. assert (E : (if v =? 0 then Ok [48] else num_chars 11 v base) = Ok (rev (num_text base v))).
  { unfold num_text. destruct (v =? 0); [done|]. rewrite num_chars_spec by done. f_equal. change (_ <$> rev ?l) with (map digit_char (rev l)). by rewrite map_rev, rev_involutive. }
  rewrite E. cbn [mbind outcome_bind]. rewrite rev_involutive. by apply append_spec.
Qed.

Lemma num_text_length base v : (length (num_text base v) <= 11)%nat.
Proof. unfold num_text. destruct (v =? 0); [cbn; lia|]. rewrite length_fmap, length_rev. apply low_length. Qed.

(** The buffer holds the command line and its NUL. *)
Lemma build_cmdline_spec buf cap addr size : 0 <= addr < 2 ^ 32 -> 0 <= size < 2 ^ 32 -> length buf = Z.to_nat cap -> 128 <= cap ->
  exists r, build_cmdline buf cap addr size = Ok (cmd_text addr size ++ 0 :: r).
Proof.
  intros Ha Hs Hb Hcap. pose proof (num_text_length 16 addr) as L1. pose proof (num_text_length 10 size) as L2. unfold build_cmdline.
  pose proof (append_spec cap (s_console ++ asc "initrd=0x") [] buf) as H1. cbn [app length] in H1. change (Z.of_nat 0) with 0 in H1.
  rewrite H1; [|change (length (s_console ++ asc "initrd=0x")) with 71%nat; lia|change (length (s_console ++ asc "initrd=0x")) with 71%nat; lia]. cbn [mbind outcome_bind fst snd]. clear H1.
  set (t1 := s_console ++ asc "initrd=0x"). assert (T1 : length t1 = 71%nat) by done.
  rewrite append_num_spec; [|lia|lia|cbn [length]; rewrite length_drop; lia|lia]. cbn [mbind outcome_bind fst snd].
  set (t2 := t1 ++ num_text 16 addr). assert (T2 : (length t2 <= 82)%nat) by (unfold t2; rewrite length_app; lia).
  rewrite append_spec; [|cbn [length]; rewrite length_drop; cbn [length]; rewrite length_drop; change (length (asc ",")) with 1%nat; lia|change (length (asc ",")) with 1%nat; lia].
  cbn [mbind outcome_bind fst snd]. set (t3 := t2 ++ asc ","). assert (T3 : (length t3 <= 83)%nat) by (unfold t3; rewrite length_app; change (length (asc ",")) with 1%nat; lia).
  set (b3 := 0 :: drop _ _). assert (B3 : (length buf - 90 <= length b3)%nat) by (unfold b3; cbn [length]; rewrite !length_drop; cbn [length]; rewrite !length_drop; cbn [length]; rewrite !length_drop; change (length (asc ",")) with 1%nat; lia).
  clearbody b3. rewrite append_num_spec; [|lia|lia|lia|lia]. cbn [mbind outcome_bind fst snd].
  set (t4 := t3 ++ num_text 10 size). assert (T4 : (length t4 <= 94)%nat) by (unfold t4; rewrite length_app; lia).
  rewrite append_spec; [|cbn [length]; rewrite length_drop; change (length s_panic) with 9%nat; lia|change (length s_panic) with 9%nat; lia].
  cbn [mbind outcome_bind fst snd].
  assert (Et : t4 ++ s_panic = cmd_text addr size) by (unfold t4, t3, t2, t1, cmd_text; by rewrite <- !app_assoc). rewrite Et. by eexists.
Qed.

(** * What the kernel reads *)

Lemma digits_spec digit radix d ds : Forall (fun x => 0 <= x < radix /\ digit (digit_char x) = Some x) ds -> 1 < radix -> forall fuel p v c r,
  drop p d = (digit_char <$> ds) ++ c :: r -> digit c = None -> (length ds <= fuel)%nat -> 0 <= v -> fold_left (fun acc x => acc * radix + x) ds v < 2 ^ 32 ->
  digits fuel digit radix d (Z.of_nat p) v = Ok (Z.of_nat (p + length ds), fold_left (fun acc x => acc * radix + x) ds v).
Proof.
  intros Hds Hr. assert (Hmono : forall l w, Forall (fun x => 0 <= x < radix /\ digit (digit_char x) = Some x) l -> 0 <= w -> w <= fold_left (fun acc x => acc * radix + x) l w).
  { induction l as [|y l IHl]; intros w Hl Hw; cbn [fold_left]; [lia|]. inversion Hl as [|? ? [Hy _] Hl']; subst. assert (w <= w * radix) by nia. specialize (IHl (w * radix + y) Hl' ltac:(lia)). lia. }
  induction Hds as [|x ds [Hx Hd] Hds IH]; intros fuel p v c r E Hc Hf Hv Hb; cbn [fmap list_fmap app length fold_left] in *.
  - apply at_head in E as [Ha _]. destruct fuel; cbn [digits]; rewrite Ha; cbn [mbind outcome_bind]; rewrite Hc, Nat.add_0_r; done.
  - apply at_head in E as [Ha E]. destruct fuel as [|fuel]; [lia|]. cbn [digits]. rewrite Ha. cbn [mbind outcome_bind]. rewrite Hd.
    assert (Hvr : 0 <= v * radix) by nia. pose proof (Hmono ds (v * radix + x) Hds ltac:(lia)) as Hm. rewrite (u32_small (v * radix)), u32_small by lia.
    replace (Z.of_nat p + 1) with (Z.of_nat (S p)) by lia. rewrite (IH fuel (S p) (v * radix + x) c r E Hc ltac:(lia) ltac:(lia) Hb). do 3 f_equal. lia.
Qed.

(** the digits of a number, the highest first *)
Definition num_digits (base v : Z) : list Z := if v =? 0 then [0] else rev (low 11 base v).

Lemma num_text_digits base v : num_text base v = digit_char <$> num_digits base v.
Proof. unfold num_text, num_digits. by destruct (v =? 0). Qed.

Lemma num_digits_value base v : 1 < base -> 0 <= v < base ^ 11 -> fold_left (fun acc x => acc * base + x) (num_digits base v) 0 = v.
Proof.
  intros Hb Hv. unfold num_digits. destruct (Z.eqb_spec v 0) as [->|]; [cbn; lia|]. rewrite <- fold_left_rev_right, rev_involutive. by apply (low_value 11).
Qed.

Lemma num_digits_range base v : 1 < base -> Forall (fun x => 0 <= x < base) (num_digits base v).
Proof. intros Hb. unfold num_digits. destruct (v =? 0); [constructor; [lia|constructor]|]. apply Forall_rev, low_range. lia. Qed.

Lemma num_digits_length base v : (1 <= length (num_digits base v) <= 11)%nat.
Proof.
  unfold num_digits. destruct (Z.eqb_spec v 0) as [->|Hv]; [cbn; lia|]. rewrite length_rev. split; [|apply low_length]. cbn [low]. rewrite (proj2 (Z.eqb_neq v 0)) by done. cbn. lia.
Qed.

Lemma dec_digit_char x : 0 <= x < 10 -> dec_digit (digit_char x) = Some x.
Proof.
  intros Hx. unfold dec_digit, digit_char. rewrite (proj2 (Z.ltb_lt x 10)) by lia. rewrite (proj2 (Z.leb_le 48 _)), (proj2 (Z.leb_le _ 57)) by lia. cbn [andb]. f_equal. lia.
Qed.

Lemma hex_digit_char x : 0 <= x < 16 -> hex_digit (digit_char x) = Some x.
Proof.
  intros Hx. assert (H : Forall (fun x => hex_digit (digit_char x) = Some x) (seqZ 0 16)) by (vm_compute; repeat constructor).
  rewrite Forall_forall in H. apply H, elem_of_seqZ. lia.
Qed.

Lemma fits_after {A} p (d l : list A) c r : drop p d = l ++ c :: r -> (length l < length d)%nat.
Proof. intros E. apply (f_equal length) in E. rewrite length_drop, length_app in E. cbn in E. lia. Qed.

(** A hexadecimal number behind its prefix. *)
Lemma parse_hex d p v c r : 0 <= v < 2 ^ 32 -> drop p d = asc "0x" ++ num_text 16 v ++ c :: r -> hex_digit c = None ->
  parse_uint d (Z.of_nat p) = Ok (Z.of_nat (p + (2 + length (num_digits 16 v))), v).
Proof.
  intros Hv E Hc. change (asc "0x") with [48; 120] in E. cbn [app] in E. apply at_head in E as [H0 E]. apply at_head in E as [H1 E].
  unfold parse_uint. rewrite H0. cbn [mbind outcome_bind]. rewrite Z.eqb_refl. replace (Z.of_nat p + 1) with (Z.of_nat (S p)) by lia. rewrite H1. cbn [mbind outcome_bind].
  change ((120 =? 120) || (120 =? 88)) with true. cbn [andb]. replace (Z.of_nat p + 2) with (Z.of_nat (S (S p))) by lia. rewrite num_text_digits in E.
  pose proof (fits_after _ _ _ _ _ E) as Hf. rewrite length_fmap in Hf.
  pose proof (num_digits_value 16 v ltac:(lia) ltac:(lia)) as Hval.
  assert (Hr : Forall (fun x => 0 <= x < 16 /\ hex_digit (digit_char x) = Some x) (num_digits 16 v)) by (eapply Forall_impl; [by apply num_digits_range|]; intros x Hx; split; [done|by apply hex_digit_char]).
  rewrite (digits_spec hex_digit 16 d _ Hr ltac:(lia) (length d) _ 0 c r E Hc ltac:(lia) ltac:(lia) ltac:(lia)), Hval. do 3 f_equal. lia.
Qed.

Lemma parse_dec d p v c r : 0 <= v < 2 ^ 32 -> drop p d = num_text 10 v ++ c :: r -> dec_digit c = None -> c <> 120 -> c <> 88 ->
  parse_uint d (Z.of_nat p) = Ok (Z.of_nat (p + length (num_digits 10 v)), v).
Proof.
  intros Hv E Hc Hx HX. rewrite num_text_digits in E. pose proof (num_digits_length 10 v) as [Hl _]. pose proof (num_digits_range 10 v ltac:(lia)) as Hr.
  assert (Hsmall : forall x, 0 <= x < 10 -> digit_char x <> 120 /\ digit_char x <> 88) by (intros x Hxx; unfold digit_char; rewrite (proj2 (Z.ltb_lt x 10)) by lia; lia).
  assert (Hd : digits (length d) dec_digit 10 d (Z.of_nat p) 0 = Ok (Z.of_nat (p + length (num_digits 10 v)), v)).
  { pose proof (fits_after _ _ _ _ _ E) as Hf. rewrite length_fmap in Hf.
    pose proof (num_digits_value 10 v ltac:(lia) ltac:(lia)) as Hval.
    rewrite (digits_spec dec_digit 10 d _ ltac:(eapply Forall_impl; [exact Hr|]; intros x Hxx; split; [done|by apply dec_digit_char]) ltac:(lia) (length d) _ 0 c r E Hc ltac:(lia) ltac:(lia) ltac:(lia)).
    by rewrite Hval. }
  destruct (num_digits 10 v) as [|x l] eqn:El; [cbn in Hl; lia|]. inversion Hr as [|? ? Hxr Hlr]; subst. cbn [fmap list_fmap app] in E. apply at_head in E as [H0 E].
  unfold parse_uint. rewrite H0. cbn [mbind outcome_bind].
  destruct (Z.eqb_spec (digit_char x) 48) as [Hz|Hz]; [|cbn [mbind outcome_bind andb]; exact Hd].
  replace (Z.of_nat p + 1) with (Z.of_nat (S p)) by lia. assert (Hn : exists y, aref d (Z.of_nat (S p)) = Ok y /\ y <> 120 /\ y <> 88).
  { destruct l as [|y l]; cbn [fmap list_fmap app] in E; apply at_head in E as [H1 _]; [by exists c|]. exists (digit_char y). split; [done|]. inversion Hlr; subst. by apply Hsmall. }
  destruct Hn as (y & -> & Hy1 & Hy2). cbn [mbind outcome_bind]. rewrite (proj2 (Z.eqb_neq y 120)), (proj2 (Z.eqb_neq y 88)) by done. cbn [orb andb]. exact Hd.
Qed.

(** ** The scan for the token *)

(** no token that starts with the letter i among the first [n] characters *)
Definition misses (l : list Z) (n : nat) : bool :=
  forallb (fun i => let c := default 0 (l !! i) in
    negb (c =? 0) && ((negb (Nat.eqb i 0) && negb (default 0 (l !! (i - 1)%nat) =? 32)) || negb (c =? 105))) (seq 0 n).

Lemma scan_skip d p l r n len : drop p d = l ++ r -> (n <= length l)%nat -> misses l n = true -> Z.of_nat n + 7 <= len -> len < 2 ^ 31 -> forall k i f, (i + k = n)%nat ->
  find_initrd (k + f) d (Z.of_nat p) len (Z.of_nat i) = find_initrd f d (Z.of_nat p) len (Z.of_nat n).
Proof.
  intros E Hn Hm Hlen H31 k. unfold misses in Hm. rewrite forallb_forall in Hm.
  assert (Hat : forall j, (j < n)%nat -> aref d (Z.of_nat p + Z.of_nat j) = Ok (default 0 (l !! j))).
  { intros j Hj. destruct (lookup_lt_is_Some_2 l j) as [x Hx]; [lia|]. rewrite Hx. rewrite <- Nat2Z.inj_add. by apply (at_nth d p l r). }
  induction k as [|k IH]; intros i f Hi; cbn [Nat.add]; [by replace i with n by lia|].
  specialize (Hm i). rewrite in_seq in Hm. specialize (Hm ltac:(lia)). cbv zeta in Hm. apply andb_prop in Hm as [H0 H1].
  cbn [find_initrd]. rewrite u32_small by lia. rewrite (proj2 (Z.ltb_lt _ _)) by lia. cbn [negb]. rewrite Hat by lia. cbn [mbind outcome_bind].
  rewrite (proj1 (negb_true_iff _) H0). replace (Z.of_nat i +w 1) with (Z.of_nat (S i)) by (rewrite u32_small; lia).
  assert (Hstart : exists b : bool, (if Z.of_nat i =? 0 then Ok true else b ← aref d (Z.of_nat p + Z.of_nat i - 1); Ok (b =? 32)) = Ok b /\
    (b = true -> default 0 (l !! i) <> 105)).
  { destruct i as [|i]; cbn [Nat.eqb negb andb orb] in H1.
    - exists true. split; [done|]. intros _ Ec. by rewrite Ec in H1.
    - change (Z.of_nat (S i) =? 0) with false. replace (Z.of_nat p + Z.of_nat (S i) - 1) with (Z.of_nat p + Z.of_nat i) by lia. rewrite Hat by lia. cbn [mbind outcome_bind].
      eexists. split; [done|]. intros Hb Ec. rewrite Ec in H1. replace (S i - 1)%nat with i in H1 by lia. rewrite Hb in H1. done. }
  destruct Hstart as (b & -> & Hb). cbn [mbind outcome_bind].
  assert (Hhit : (if b then has_prefix d (Z.of_nat p + Z.of_nat i) s_initrd else Ok false) = Ok false).
  { destruct b; [|done]. unfold s_initrd. cbn [has_prefix]. rewrite Hat by lia. cbn [mbind outcome_bind]. by rewrite (proj2 (Z.eqb_neq _ _)) by auto. }
  rewrite Hhit. cbn [mbind outcome_bind]. apply IH. lia.
Qed.

Lemma has_prefix_spec d l : forall p r, drop p d = l ++ r -> has_prefix d (Z.of_nat p) l = Ok true.
Proof.
  induction l as [|x l IH]; intros p r E; [done|]. cbn [app] in E. apply at_head in E as [Ha E]. cbn [has_prefix]. rewrite Ha. cbn [mbind outcome_bind].
  rewrite Z.eqb_refl. replace (Z.of_nat p + 1) with (Z.of_nat (S p)) by lia. by eapply IH.
Qed.

(** the command line without its last three characters *)
Definition cmd_core (addr size : Z) : list Z := s_console ++ s_initrd ++ asc "0x" ++ num_text 16 addr ++ asc "," ++ num_text 10 size ++ asc " panic".

Lemma find_initrd_cmdline d p addr size r len : 0 <= addr < 2 ^ 32 -> 0 <= size < 2 ^ 32 -> drop p d = cmd_core addr size ++ r ->
  Z.of_nat (length (cmd_core addr size)) <= len < 2 ^ 31 -> find_initrd (Z.to_nat len) d (Z.of_nat p) len 0 = Ok (Some (addr, size)).
Proof.
  intros Ha Hs E Hlen. unfold cmd_core in E, Hlen. rewrite !length_app in Hlen. change (length s_console) with 62%nat in Hlen. change (length s_initrd) with 7%nat in Hlen.
  change (length (asc "0x")) with 2%nat in Hlen.
  pose proof (scan_skip d p (s_console ++ s_initrd) (asc "0x" ++ num_text 16 addr ++ asc "," ++ num_text 10 size ++ asc " panic" ++ r) 62 len) as Hskip.
  rewrite <- !app_assoc in E. rewrite <- !app_assoc in Hskip. specialize (Hskip E ltac:(vm_compute; lia) ltac:(vm_compute; reflexivity) ltac:(lia) ltac:(lia) 62%nat 0%nat (Z.to_nat len - 62)%nat eq_refl).
  replace (62 + (Z.to_nat len - 62))%nat with (Z.to_nat len) in Hskip by lia. change (Z.of_nat 0) with 0 in Hskip. rewrite Hskip. clear Hskip.
  assert (H61 : aref d (Z.of_nat p + Z.of_nat 62 - 1) = Ok 32) by (replace (Z.of_nat p + Z.of_nat 62 - 1) with (Z.of_nat (p + 61)) by lia; by apply (at_nth d p s_console _ 61 32 E)).
  apply drop_next in E. change (length s_console) with 62%nat in E. assert (H62 : aref d (Z.of_nat p + Z.of_nat 62) = Ok 105) by (rewrite <- Nat2Z.inj_add; by destruct (at_head _ _ _ _ E)).
  pose proof (has_prefix_spec d s_initrd _ _ E) as Hp. apply drop_next in E. change (length s_initrd) with 7%nat in E.
  assert (Hstep : forall f, find_initrd f d (Z.of_nat p) len (Z.of_nat 62) =
    (r ← parse_uint d (Z.of_nat p + Z.of_nat 62 + 7); c ← aref d r.1; if negb (c =? 44) then Ok None else r' ← parse_uint d (r.1 + 1); Ok (Some (r.2, r'.2)))).
  { intros f. assert (Hb : (Z.of_nat 62 +w 7 <? len) = true) by (apply Z.ltb_lt; rewrite u32_small; lia).
    destruct f; cbn [find_initrd]; rewrite Hb, H62; cbn [negb mbind outcome_bind]; change (105 =? 0) with false; cbn match;
      change (Z.of_nat 62 =? 0) with false; cbn match; rewrite H61; cbn [mbind outcome_bind]; change (32 =? 32) with true; cbn match;
      rewrite <- Nat2Z.inj_add, Hp; cbn [mbind outcome_bind]; done. }
  rewrite Hstep. clear Hstep. replace (Z.of_nat p + Z.of_nat 62 + 7) with (Z.of_nat (p + 62 + 7)) by lia.
  change (asc ",") with [44] in E. cbn [app] in E. rewrite (parse_hex d _ addr 44 _ Ha E eq_refl). cbn [mbind outcome_bind fst snd].
  apply (drop_next _ _ (asc "0x")) in E. apply drop_next in E. change (length (asc "0x")) with 2%nat in E. rewrite num_text_digits, length_fmap in E.
  replace (p + 62 + 7 + 2 + length (num_digits 16 addr))%nat with (p + 62 + 7 + (2 + length (num_digits 16 addr)))%nat in E by lia.
  apply at_head in E as [H44 E]. rewrite H44. cbn [mbind outcome_bind]. change (44 =? 44) with true. cbn [negb].
  change (asc " panic" ++ r) with (32 :: asc "panic" ++ r) in E. replace (Z.of_nat (p + 62 + 7 + (2 + length (num_digits 16 addr))) + 1) with (Z.of_nat (S (p + 62 + 7 + (2 + length (num_digits 16 addr))))) by lia.
  rewrite (parse_dec d _ size 32 _ Hs E eq_refl ltac:(lia) ltac:(lia)). done.
Qed.

Lemma comp_ok_chosen : Forall comp_ok [s_chosen].
Proof. constructor; [|constructor]. split; [done|]. repeat constructor; discriminate. Qed.

(** a lookup of the kernel below [/chosen] *)
Lemma getprop_chosen d root ost os total name : blob_ok d root ost os total -> plain name ->
  match find_prop root [s_chosen] name with
  | Some v => exists o, 0 <= o /\ kfdt_getprop (Some d) Kfdt.s_chosen name = Ok (Some (o, Z.of_nat (length v))) /\ take (length v) (drop (Z.to_nat o) d) = v
  | None => kfdt_getprop (Some d) Kfdt.s_chosen name = Ok None
  end.
Proof. intros Hb Hn. exact (kfdt_getprop_lookup d root ost os total Kfdt.s_chosen [s_chosen] name Hb (or_introl eq_refl) comp_ok_chosen Hn). Qed.

Lemma plain_start : plain s_start.
Proof. repeat constructor; discriminate. Qed.
Lemma plain_end : plain s_end.
Proof. repeat constructor; discriminate. Qed.

(** The kernel finds the archive through the command line. *)
Lemma kfdt_initrd_bootargs d root ost os total addr size r : blob_ok d root ost os total -> Z.of_nat (length d) < 2 ^ 31 -> 0 <= addr < 2 ^ 32 -> 0 <= size < 2 ^ 32 ->
  find_prop root [s_chosen] s_start = None -> find_prop root [s_chosen] s_bootargs = Some (cmd_core addr size ++ r) -> kfdt_initrd d = Ok (Some (addr, size)).
Proof.
  intros Hb Hd Ha Hs Hst Hba. pose proof (getprop_chosen d root ost os total s_start Hb plain_start) as H1. rewrite Hst in H1.
  pose proof (getprop_chosen d root ost os total s_end Hb plain_end) as H2. pose proof (getprop_chosen d root ost os total s_bootargs Hb plain_bootargs) as H3. rewrite Hba in H3.
  destruct H3 as (o & Ho & H3 & Hv). unfold kfdt_initrd. rewrite H1. cbn [mbind outcome_bind].
  assert (H2' : exists e, kfdt_getprop (Some d) Kfdt.s_chosen s_end = Ok e) by (destruct (find_prop root [s_chosen] s_end); [destruct H2 as (o' & _ & -> & _)|]; eauto).
  destruct H2' as [e ->]. cbn [mbind outcome_bind]. change Kfdt.s_bootargs with s_bootargs. rewrite H3. cbn [mbind outcome_bind].
  set (v := cmd_core addr size ++ r) in *. assert (Hl : (62 <= length v)%nat) by (unfold v, cmd_core; rewrite !length_app; change (length s_console) with 62%nat; lia).
  rewrite (proj2 (Z.eqb_neq _ 0)) by lia.
  assert (E : drop (Z.to_nat o) d = v ++ drop (length v) (drop (Z.to_nat o) d)) by (rewrite <- Hv at 1; by rewrite take_drop).
  assert (Hlen : (length v <= length d)%nat) by (apply (f_equal length) in E; rewrite length_app, !length_drop in E; lia).
  rewrite <- (Z2Nat.id o Ho). unfold v in E. rewrite <- app_assoc in E. apply (find_initrd_cmdline d _ addr size _ _ Ha Hs E). unfold v in Hlen |- *. rewrite length_app in *. lia.
Qed.

Lemma cmd_text_core addr size : cmd_text addr size = cmd_core addr size ++ asc "=10".
Proof. unfold cmd_text, cmd_core. by rewrite <- !app_assoc. Qed.

Lemma cmd_core_length addr size : (length (cmd_core addr size) <= 100)%nat.
Proof.
  unfold cmd_core. rewrite !length_app. pose proof (num_text_length 16 addr). pose proof (num_text_length 10 size).
  change (length s_console) with 62%nat. change (length s_initrd) with 7%nat. change (length (asc "0x")) with 2%nat. change (length (asc ",")) with 1%nat. change (length (asc " panic")) with 6%nat. lia.
Qed.

(** Whatever the old value was, the new one starts with all that matters. *)
Lemma value_core ps addr size : (forall old, prop_in ps s_bootargs = Some old -> Z.of_nat (length old) < 2 ^ 31) ->
  exists r, value_set ps (cmd_text addr size) = cmd_core addr size ++ r.
Proof.
  intros Hold. rewrite cmd_text_core. pose proof (cmd_core_length addr size) as Hcl. unfold value_set. destruct (prop_in ps s_bootargs) as [old|]; [|rewrite <- app_assoc; by eexists].
  specialize (Hold old eq_refl). unfold new_value. rewrite (length_app (cmd_core addr size)). change (length (asc "=10")) with 3%nat. set (core := cmd_core addr size) in *.
  destruct (Z.ltb_spec (pad4 (Z.of_nat (length old))) (pad4 (Z.of_nat (length core + 3 + 1)))) as [|Hge]; [rewrite <- app_assoc; by eexists|].
  pose proof (pad4_spec (Z.of_nat (length old)) ltac:(lia)) as [P1 _]. pose proof (pad4_spec (Z.of_nat (length core + 3 + 1)) ltac:(lia)) as [P2 _].
  unfold filled. rewrite <- !app_assoc, take_app_ge by lia. by eexists.
Qed.

(** The editor and the reader: after [fdt_set_bootargs] with the command line
    of the bootloader, the kernel finds the archive. *)
Lemma cmdline_reaches_kernel x ps addr size x' r : dtb_ok x -> dtb_ok x' -> sole_chosen (root x) ps -> 0 <= addr < 2 ^ 32 -> 0 <= size < 2 ^ 32 ->
  find_prop (root x) [s_chosen] s_start = None -> set_bootargs x (cmd_text addr size) = Some x' -> Z.of_nat (length (enc_dtb x' ++ r)) < 2 ^ 31 ->
  kfdt_initrd (enc_dtb x' ++ r) = Ok (Some (addr, size)).
Proof.
  intros Hx Hx' Hsole Ha Hs Hst E Hlen. assert (Hold : forall old, prop_in ps s_bootargs = Some old -> Z.of_nat (length old) < 2 ^ 31).
  { intros old Hin. pose proof (db_tree _ Hx) as Ht. destruct Hsole as (ch1 & cc & ch2 & Hch & _). destruct (root x) as [nm rp ch]. cbn [children] in Hch. subst ch.
    inversion Ht as [? ? ? _ _ Hc]; subst. apply Forall_app in Hc as [_ Hc]. inversion Hc as [|? ? Hn _]; subst. inversion Hn as [? ? ? _ Hps _]; subst. clear -Hps Hin.
    induction Hps as [|p ps Hp Hps IH]; [done|]. cbn [prop_in] in Hin. case_bool_decide; [|by apply IH]. injection Hin as <-. by destruct Hp as (_ & _ & _ & ? & _). }
  destruct (value_core ps addr size Hold) as [rest Hval]. destruct (set_bootargs_value x ps (cmd_text addr size) Hsole) as (x2 & E2 & Hv). assert (x2 = x') as -> by congruence.
  rewrite Hval in Hv. destruct (set_bootargs_changed x _ x' E) as (nm & rp & ch & ch' & Er & Er' & Hone).
  assert (Hst' : find_prop (root x') [s_chosen] s_start = None) by (rewrite Er', (one_changed_lookup nm rp ch ch' _ _ Hone), <- Er; [done|by right]).
  rewrite length_app, length_enc_dtb in Hlen by apply Hx'.
  apply (kfdt_initrd_bootargs _ _ _ _ _ addr size rest (dtb_blob x' r Hx' ltac:(lia))); [rewrite length_app, length_enc_dtb by apply Hx'; lia|done..].
Qed.
