(* ===== verification/BootFat.v ===== *)
(** The FAT reader of the bootloader, [bootloader/fat.c], and the block loop of
    [bootloader/sdcard.c].

    The card is a function from block numbers to the 512 bytes of the block,
    [None] being a read error; the controller behind it is not modelled.  A
    block that cannot be read leaves the destination as it was (nothing reads
    it afterwards).  The messages are left out. *)

From stdpp Require Import list.
From Stdlib Require Import ZArith Lia.
From S2P Require Import Prelude Checked Memory.

(** the mounted volume, [vol] *)
Record volume := Vol {
  part_lba : Z; fat_start : Z; root_start : Z; root_sectors : Z; data_start : Z;
  sec_per_clus : Z; bytes_per_sec : Z; root_cluster : Z; is_fat32 : bool }.

(** the state of the bootloader: the volume, the scratch sector, the memory *)
Record boot := Boot { vol : volume; secbuf : list Z; dram : mem }.

Definition set_vol (v : volume) (s : boot) : boot := Boot v (secbuf s) (dram s).
Definition set_secbuf (b : list Z) (s : boot) : boot := Boot (vol s) b (dram s).
Definition set_dram (m : mem) (s : boot) : boot := Boot (vol s) (secbuf s) m.

(** ** Little-endian readers *)

Definition byte (p : list Z) (i : Z) : Z := default 0 (p !! Z.to_nat i).
Definition rd16 (p : list Z) (i : Z) : Z := byte p i .| Z.shiftl (byte p (i + 1)) 8.
Definition rd32 (p : list Z) (i : Z) : Z :=
  byte p i .| Z.shiftl (byte p (i + 1)) 8 .| Z.shiftl (byte p (i + 2)) 16 .| Z.shiftl (byte p (i + 3)) 24.

Section fat.
Context (card : Z -> option (list Z)).

Definition read_sec (lba : Z) : M boot Z := fun s =>
  match card lba with Some b => (0, set_secbuf b s) | None => (-1, s) end.

(** [n] blocks from [lba] on to memory at [buf] *)
Fixpoint sd_read_blocks (n : nat) (lba buf : Z) : M boot Z :=
  match n with
  | O => mret 0
  | S n' => fun s =>
      match card lba with
      | Some b => sd_read_blocks n' (lba +w 1) (buf + 512) (set_dram (poke (dram s) buf b) s)
      | None => (-1, s)
      end
  end.

(** ** Mounting *)

(** the first FAT partition of the table, from entry [i] on; 0 when there is none *)
Fixpoint find_partition (n : nat) (b : list Z) (i : Z) : Z :=
  match n with
  | O => 0
  | S n' =>
      let e := 0x1BE + i * 16 in
      let type := byte b (e + 0x04) in
      if (type =? 0x0B) || (type =? 0x0C) || (type =? 0x0E) || (type =? 0x06) || (type =? 0x04) then rd32 b (e + 0x08)
      else find_partition n' b (i + 1)
  end.

(** the fields of the boot record, and what follows from them *)
Definition set_geometry (b : list Z) (v : volume) : volume :=
  let part_lba := part_lba v in
  let bps := bytes_per_sec v in
  let rsvd := rd16 b 0x0E in
  let num_fats := byte b 0x10 in
  let root_ent := rd16 b 0x11 in
  let totsec16 := rd16 b 0x13 in
  let fatsz16 := rd16 b 0x16 in
  let totsec32 := rd32 b 0x20 in
  let fatsz32 := rd32 b 0x24 in
  let fatsz := if negb (fatsz16 =? 0) then fatsz16 else fatsz32 in
  let totsec := if negb (totsec16 =? 0) then totsec16 else totsec32 in
  let root_dir_sectors := ((root_ent *w 32) +w (bps -w 1)) / bps in
  let fat_start := part_lba +w rsvd in
  let root_start := fat_start +w (num_fats *w fatsz) in
  let data_start := root_start +w root_dir_sectors in
  let data_sectors := totsec -w ((rsvd +w (num_fats *w fatsz)) +w root_dir_sectors) in
  let clusters := if negb (sec_per_clus v =? 0) then data_sectors / sec_per_clus v else 0 in
  Vol part_lba fat_start root_start root_dir_sectors data_start (sec_per_clus v) bps (rd32 b 0x2C) (65525 <=? clusters).

Definition set_part (lba : Z) (v : volume) : volume :=
  Vol lba (fat_start v) (root_start v) (root_sectors v) (data_start v) (sec_per_clus v) (bytes_per_sec v) (root_cluster v) (is_fat32 v).
Definition set_sizes (bps spc : Z) (v : volume) : volume :=
  Vol (part_lba v) (fat_start v) (root_start v) (root_sectors v) (data_start v) spc bps (root_cluster v) (is_fat32 v).

Definition fat_mount : M boot Z :=
  r ← read_sec 0;
  if negb (r =? 0) then mret (-1)
  else
    b ← gets secbuf;
    if negb (rd16 b 0x1FE =? 0xAA55) then mret (-2)
    else
      let part_lba := find_partition 4 b 0 in
      if part_lba =? 0 then mret (-3)
      else
        modify (fun s => set_vol (set_part part_lba (vol s)) s) ≫= fun _ =>
        r ← read_sec part_lba;
        if negb (r =? 0) then mret (-4)
        else
          b ← gets secbuf;
          modify (fun s => set_vol (set_sizes (rd16 b 0x0B) (byte b 0x0D) (vol s)) s) ≫= fun _ =>
          if negb (rd16 b 0x0B =? 512) then mret (-5)
          else
            modify (fun s => set_vol (set_geometry b (vol s)) s) ≫= fun _ =>
            mret 0.

(** ** The chain *)

Definition fat_next (clus : Z) : M boot Z :=
  v ← gets vol;
  let fat_off := if is_fat32 v then clus *w 4 else clus *w 2 in
  let sec := fat_start v +w fat_off / 512 in
  let off := fat_off mod 512 in
  r ← read_sec sec;
  if negb (r =? 0) then mret 0x0FFFFFFF
  else
    b ← gets secbuf;
    mret (if is_fat32 v then rd32 b off .& 0x0FFFFFFF else rd16 b off).

Definition fat_is_eoc (v : volume) (clus : Z) : bool := if is_fat32 v then 0x0FFFFFF8 <=? clus else 0xFFF8 <=? clus.
Definition clus_to_lba (v : volume) (clus : Z) : Z := data_start v +w ((clus -w 2) *w sec_per_clus v).

(** ** Names *)

Definition lower (c : Z) : Z := if (65 <=? c) && (c <=? 90) then c + 32 else c.

Fixpoint ieq (a b : list Z) : bool :=
  match a, b with
  | [], [] => true
  | x :: a', y :: b' => if negb (lower x =? lower y) then false else ieq a' b'
  | _, _ => false
  end.

Definition lfn_pos : list Z := [1; 3; 5; 7; 9; 14; 16; 18; 20; 22; 24; 28; 30].

Definition lfn_chars (e : list Z) : list Z :=
  map (fun p => let c := byte e p .| Z.shiftl (byte e (p + 1)) 8 in if (c =? 0) || (c =? 0xffff) then 0 else c .& 0xff) lfn_pos.

(** the characters of [e] from [i] on, at most [n], before a space *)
Fixpoint unpadded (n : nat) (e : list Z) (i : Z) : list Z :=
  match n with O => [] | S n' => if byte e i =? 32 then [] else byte e i :: unpadded n' e (i + 1) end.

(** up to a NUL *)
Definition short_name (e : list Z) : list Z :=
  map lower (until_nul (unpadded 8 e 0 ++ (if negb (byte e 8 =? 32) then 46 :: unpadded 3 e 8 else []))).

(** ** The directory *)

(** the long name collected so far: [lfn] and [lfn_len] *)
Record collect := Collect { lfn : list Z; lfn_len : Z }.

Definition clear (st : collect) : collect := Collect (<[0%nat := 0]> (lfn st)) 0.

(** a part of a long name *)
Definition lfn_part (st : collect) (e : list Z) : collect :=
  let ord := byte e 0 .& 0x1F in
  let base := (ord - 1) * 13 in
  if (0 <=? base) && (base + 13 <? 260) then
    Collect (list_inserts (Z.to_nat base) (lfn_chars e) (lfn st)) (if lfn_len st <? base + 13 then base + 13 else lfn_len st)
  else st.

(** the name to compare; the end of a long one is marked in the array *)
Definition take_name (st : collect) (e : list Z) : list Z * collect :=
  if 0 <? lfn_len st then
    let n := Z.to_nat (if 260 <=? lfn_len st then 259 else lfn_len st) in
    (until_nul (take n (lfn st)), Collect (<[n := 0]> (lfn st)) (lfn_len st))
  else (short_name e, st).

(** what the entry [e] leads to: the next one, or a result *)
Inductive found := NotFound (rc : Z) | Found (first_clus size : Z).

Definition scan_entry (name : list Z) (st : collect) (e : list Z) : collect + found :=
  if byte e 0 =? 0x00 then inr (NotFound (-2))
  else if byte e 0 =? 0xE5 then inl (clear st)
  else if byte e 0x0B =? 0x0F then inl (lfn_part st e)
  else if negb (byte e 0x0B .& 0x08 =? 0) then inl (clear st)
  else
    let '(cand, st) := take_name st e in
    if ieq cand name then inr (Found (Z.shiftl (rd16 e 0x14) 16 .| rd16 e 0x1A) (rd32 e 0x1C))
    else inl (clear st).

(** the entries of a sector *)
Fixpoint scan_entries (n : nat) (name : list Z) (st : collect) (b : list Z) : collect + found :=
  match n with
  | O => inl st
  | S n' => match scan_entry name st (take 32 b) with inl st' => scan_entries n' name st' (drop 32 b) | r => r end
  end.

(** where the scan is: the cluster, the sector, the long name *)
Record cursor := Cursor { clus : Z; sec_in_region : Z; coll : collect }.

(** one sector *)
Definition scan_sector (name : list Z) (x : cursor * boot) : (cursor * boot) + (found * boot) :=
  let '(c, s) := x in
  let v := vol s in
  if negb (is_fat32 v) && (root_sectors v <=? sec_in_region c) then inr (NotFound (-3), s)
  else if is_fat32 v && ((clus c <? 2) || fat_is_eoc v (clus c)) then inr (NotFound (-3), s)
  else
    let lba := if negb (is_fat32 v) then root_start v +w sec_in_region c else clus_to_lba v (clus c) +w sec_in_region c mod sec_per_clus v in
    let '(r, s) := read_sec lba s in
    if negb (r =? 0) then inr (NotFound (-1), s)
    else
      match scan_entries 16 name (coll c) (secbuf s) with
      | inr f => inr (f, s)
      | inl st =>
          let sec := sec_in_region c +w 1 in
          if is_fat32 v && (sec mod sec_per_clus v =? 0) then let '(clus, s) := fat_next (clus c) s in inl (Cursor clus sec st, s)
          else inl (Cursor (clus c) sec st, s)
      end.

(** [NoFuel] after [2^36] sectors, more than a volume has: the chain of the
    directory is a circle.  [junk] is what the array [lfn] holds at first. *)
Definition dir_find (junk : list Z) (name : list Z) : C boot found := fun s =>
  match while_pos (2 ^ 36) (scan_sector name) (Cursor (root_cluster (vol s)) 0 (Collect (<[0%nat := 0]> junk) 0), s) with
  | inr (f, s) => Ok (f, s)
  | inl _ => NoFuel
  end.

(** ** Loading *)

(** one cluster: where to, how much is left, which *)
Definition load_cluster (x : (Z * Z * Z) * boot) : ((Z * Z * Z) * boot) + (Z * boot) :=
  let '((out, remaining, clus), s) := x in
  let v := vol s in
  if negb ((0 <? remaining) && (2 <=? clus) && negb (fat_is_eoc v clus)) then inr (if negb (remaining =? 0) then -4 else 0, s)
  else
    let clus_bytes := sec_per_clus v *w 512 in
    let want := if remaining <? clus_bytes then remaining else clus_bytes in
    let secs := (want +w 511) / 512 in
    let '(r, s) := sd_read_blocks (Z.to_nat secs) (clus_to_lba v clus) out s in
    if negb (r =? 0) then inr (-3, s)
    else let '(next, s) := fat_next clus s in inl ((out + want, remaining -w want, next), s).

(** [NoFuel] after [2^23 + 1] clusters, more than a file has: clusters of no
    sectors. *)
Definition fat_load (junk : list Z) (name : list Z) (buf max : Z) : C boot Z :=
  r ← dir_find junk name;
  match r with
  | NotFound _ => mret (-1)
  | Found first_clus size =>
      if max <? size then mret (-2)
      else fun s =>
        match while_pos (2 ^ 23 + 1) load_cluster ((buf, size, first_clus), s) with
        | inr (rc, s) => Ok (if rc =? 0 then s32 size else rc, s)
        | inl _ => NoFuel
        end
  end.
End fat.
