(* ===== verification/BootFatSpec.v ===== *)
(** What the FAT reader of the bootloader promises: a file of the root directory
    of a FAT16 or FAT32 volume, with a short or a long name, is loaded byte for
    byte. *)

From stdpp Require Import list.
From Stdlib Require Import ZArith Lia.
From S2P Require Import Prelude Checked Memory BootFat.

(** * Names in a directory *)

(** ** Slots *)

(** an entry of a file *)
Definition file_slot (e : list Z) : Prop :=
  byte e 0 <> 0 /\ byte e 0 <> 0xE5 /\ byte e 0x0B <> 0x0F /\ byte e 0x0B .& 0x08 = 0.

(** the part number [k] of the long name [nm] *)
Definition is_part (nm : list Z) (k : nat) (e : list Z) : Prop :=
  byte e 0 <> 0 /\ byte e 0 <> 0xE5 /\ byte e 0x0B = 0x0F /\ byte e 0 .& 0x1F = Z.of_nat k /\
  lfn_chars e = take 13 (drop (13 * (k - 1)) (nm ++ replicate 13 0)).

(** the parts [k], ..., 1 *)
Fixpoint parts (nm : list Z) (k : nat) (l : list (list Z)) : Prop :=
  match k, l with
  | O, [] => True
  | S k', e :: l' => is_part nm k e /\ parts nm k' l'
  | _, _ => False
  end.

(** a long name takes a part for every 13 characters *)
Definition long_name (nm : list Z) (l : list (list Z)) : Prop :=
  Forall (fun c => c <> 0) nm /\ (1 <= length nm <= 247)%nat /\ parts nm ((length nm + 12) / 13) l.

Record dirent := Dirent { d_name : list Z; d_clus : Z; d_size : Z }.

Definition dirent_of (nm e : list Z) : dirent := Dirent nm (Z.shiftl (rd16 e 0x14) 16 .| rd16 e 0x1A) (rd32 e 0x1C).

(** the files that the slots of a directory list *)
Inductive lists : list (list Z) -> list dirent -> Prop :=
| lists_nil : lists [] []
| lists_end e l : byte e 0 = 0 -> lists (e :: l) []
| lists_deleted e l fs : byte e 0 = 0xE5 -> lists l fs -> lists (e :: l) fs
| lists_label e l fs : byte e 0 <> 0 -> byte e 0x0B <> 0x0F -> byte e 0x0B .& 0x08 <> 0 -> lists l fs -> lists (e :: l) fs
| lists_short e l fs : file_slot e -> lists l fs -> lists (e :: l) (dirent_of (short_name e) e :: fs)
| lists_long nm ps e l fs : long_name nm ps -> file_slot e -> lists l fs -> lists (ps ++ e :: l) (dirent_of nm e :: fs).

(** the first file of that name *)
Fixpoint lookup_file (fs : list dirent) (name : list Z) : option dirent :=
  match fs with [] => None | f :: fs' => if ieq (d_name f) name then Some f else lookup_file fs' name end.

(** ** The scan *)

Fixpoint scan_slots (name : list Z) (st : collect) (l : list (list Z)) : collect + found :=
  match l with
  | [] => inl st
  | e :: l' => match scan_entry name st e with inl st' => scan_slots name st' l' | r => r end
  end.

Lemma scan_slots_app name st l l' :
  scan_slots name st (l ++ l') = match scan_slots name st l with inl st' => scan_slots name st' l' | r => r end.
Proof. revert st. induction l as [|e l IH]; intros st; [done|]. cbn [app scan_slots]. destruct (scan_entry name st e); [apply IH|done]. Qed.

(** no name is being collected *)
Definition idle (st : collect) : Prop := length (lfn st) = 260%nat /\ lfn_len st = 0.

Lemma clear_idle st : length (lfn st) = 260%nat -> idle (clear st).
Proof. intros H. split; [|done]. cbn [clear lfn]. by rewrite length_insert. Qed.

Lemma until_nul_plain l r : Forall (fun c => c <> 0) l -> until_nul (l ++ 0 :: r) = l.
Proof. induction 1 as [|c l Hc Hl IH]; [done|]. cbn [app until_nul]. rewrite (proj2 (Z.eqb_neq c 0)) by done. by rewrite IH. Qed.

Section long.
Context (nm : list Z) (n : nat) (Hnm : Forall (fun c => c <> 0) nm) (Hlen : (1 <= length nm <= 247)%nat) (Hn : n = ((length nm + 12) / 13)%nat).

Abbreviation text := (nm ++ replicate 13 0).

Lemma parts_count : (1 <= n <= 19)%nat /\ (length nm <= 13 * n < length nm + 13)%nat.
Proof.
  pose proof (Nat.div_mod_eq (length nm + 12) 13). pose proof (Nat.mod_upper_bound (length nm + 12) 13 ltac:(lia)). rewrite <- Hn in *. lia.
Qed.

(** the parts down to [k + 1] are in place *)
Record collected (k : nat) (st : collect) : Prop := {
  co_array : length (lfn st) = 260%nat;
  co_len : lfn_len st = if decide (k = n) then 0 else Z.of_nat (13 * n);
  co_text : take (13 * n - 13 * k) (drop (13 * k) (lfn st)) = take (13 * n - 13 * k) (drop (13 * k) text);
}.

Lemma lfn_chars_length e : length (lfn_chars e) = 13%nat.
Proof. done. Qed.

Lemma part_step name k e st : is_part nm (S k) e -> (S k <= n)%nat -> collected (S k) st ->
  exists st', scan_entry name st e = inl st' /\ collected k st'.
Proof.
  intros (H0 & HE5 & Hat & Hord & Hch) Hk [Ha Hl Ht]. pose proof parts_count as [Hn19 _]. unfold scan_entry.
  rewrite (proj2 (Z.eqb_neq _ _) H0), (proj2 (Z.eqb_neq _ _) HE5), (proj2 (Z.eqb_eq _ _) Hat). eexists. split; [done|].
  unfold lfn_part. rewrite Hord. replace ((Z.of_nat (S k) - 1) * 13) with (Z.of_nat (13 * k)) by lia.
  rewrite (proj2 (Z.leb_le 0 _)), (proj2 (Z.ltb_lt _ 260)) by lia. cbn [andb]. rewrite Nat2Z.id. split; cbn [lfn lfn_len].
  - by rewrite length_inserts.
  - rewrite (decide_False (P := k = n)) by lia. rewrite Hl. destruct (decide (S k = n)) as [Ek|Ek].
    + rewrite (proj2 (Z.ltb_lt 0 _)) by lia. lia.
    + rewrite (proj2 (Z.ltb_ge _ _)) by lia. done.
  - replace (13 * n - 13 * k)%nat with (13 + (13 * n - 13 * S k))%nat by lia.
    assert (Hd : drop (13 * k) (list_inserts (13 * k) (lfn_chars e) (lfn st)) = lfn_chars e ++ drop (13 * S k) (lfn st)).
    { apply list_eq. intros i. rewrite lookup_drop. destruct (decide (i < 13)%nat) as [Hi|Hi].
      - rewrite list_lookup_inserts by (rewrite ?lfn_chars_length; lia). replace (13 * k + i - 13 * k)%nat with i by lia.
        by rewrite lookup_app_l by (rewrite lfn_chars_length; lia).
      - rewrite list_lookup_inserts_ge by (rewrite lfn_chars_length; lia). rewrite lookup_app_r by (rewrite lfn_chars_length; lia).
        rewrite lookup_drop, lfn_chars_length. f_equal. lia. }
    rewrite Hd. rewrite <- (lfn_chars_length e) at 1. rewrite take_app_add. rewrite Ht, Hch.
    replace (S k - 1)%nat with k by lia. rewrite <- (take_take_drop (drop (13 * k) text)). by rewrite drop_drop; replace (13 * k + 13)%nat with (13 * S k)%nat by lia.
Qed.

Lemma parts_scan name k : forall l st, parts nm k l -> (k <= n)%nat -> collected k st -> exists st', scan_slots name st l = inl st' /\ collected 0 st'.
Proof.
  induction k as [|k IH]; intros l st Hp Hk Hc; destruct l as [|e l]; try done; [by exists st|]. destruct Hp as [He Hp].
  destruct (part_step name k e st He Hk Hc) as (st1 & E1 & H1). cbn [scan_slots]. rewrite E1. apply IH; [done|lia|done].
Qed.

Lemma collected_start st : idle st -> collected n st.
Proof. intros [Ha Hl]. split; [done|by rewrite decide_True|]. by rewrite Nat.sub_diag. Qed.

Lemma collected_name e st : collected 0 st -> exists st', take_name st e = (nm, st') /\ length (lfn st') = 260%nat.
Proof.
  intros [Ha Hl Ht]. pose proof parts_count as [Hn19 Hn13]. rewrite decide_False in Hl by lia. unfold take_name. rewrite Hl, (proj2 (Z.ltb_lt 0 _)), (proj2 (Z.leb_gt 260 _)) by lia.
  rewrite Nat2Z.id. rewrite Nat.mul_0_r, Nat.sub_0_r, !drop_0 in Ht. eexists. split; [f_equal|by cbn [lfn]; rewrite length_insert]. rewrite Ht, take_app_ge by lia.
  destruct (13 * n - length nm)%nat as [|r] eqn:Er; [rewrite take_0, app_nil_r|rewrite take_replicate; replace (S r `min` 13)%nat with (S r) by lia; cbn [replicate]; by apply until_nul_plain].
  clear -Hnm. induction Hnm as [|c l Hc Hl IH]; [done|]. cbn [until_nul]. rewrite (proj2 (Z.eqb_neq c 0)) by done. by rewrite IH.
Qed.
End long.

(** an entry of a file, with its name *)
Lemma file_step name st e nm st' : file_slot e -> take_name st e = (nm, st') -> length (lfn st') = 260%nat ->
  scan_entry name st e = if ieq nm name then inr (Found (d_clus (dirent_of nm e)) (d_size (dirent_of nm e))) else inl (clear st').
Proof.
  intros (H0 & HE5 & HF & H8) Et Hl. unfold scan_entry. rewrite (proj2 (Z.eqb_neq _ _) H0), (proj2 (Z.eqb_neq _ _) HE5), (proj2 (Z.eqb_neq _ _) HF), H8. cbn [Z.eqb negb].
  by rewrite Et.
Qed.

(** The scan of the slots finds the first file of that name. *)
Lemma scan_lists name l fs : lists l fs -> forall st, idle st ->
  match lookup_file fs name with
  | Some f => scan_slots name st l = inr (Found (d_clus f) (d_size f))
  | None => (exists st', scan_slots name st l = inl st') \/ scan_slots name st l = inr (NotFound (-2))
  end.
Proof.
  induction 1 as [|e l He|e l fs He Hl IH|e l fs H0 HF H8 Hl IH|e l fs Hf Hl IH|nm ps e l fs (Hnm & Hlen & Hps) Hf Hl IH]; intros st Hst; cbn [lookup_file scan_slots].
  - left. by exists st.
  - right. unfold scan_entry. by rewrite He.
  - unfold scan_entry. rewrite He. change (0xE5 =? 0) with false. change (0xE5 =? 0xE5) with true. cbn match. apply IH, clear_idle, Hst.
  - assert (E : scan_entry name st e = inl (clear st)).
    { unfold scan_entry. rewrite (proj2 (Z.eqb_neq _ _) H0). destruct (byte e 0 =? 0xE5); [done|]. by rewrite (proj2 (Z.eqb_neq _ _) HF), (proj2 (Z.eqb_neq _ _) H8). }
    rewrite E. apply IH, clear_idle, Hst.
  - assert (Et : take_name st e = (short_name e, st)) by (unfold take_name; destruct Hst as [_ ->]; done).
    rewrite (file_step name st e _ st Hf Et (proj1 Hst)). cbn [d_name dirent_of]. destruct (ieq (short_name e) name); [done|]. apply IH, clear_idle, Hst.
  - destruct (parts_scan nm _ Hlen eq_refl name _ ps st Hps ltac:(done) (collected_start nm _ st Hst)) as (st1 & E1 & H1).
    destruct (collected_name nm _ Hnm Hlen eq_refl e st1 H1) as (st2 & E2 & H2). rewrite scan_slots_app, E1. cbn [scan_slots]. rewrite (file_step name st1 e nm st2 Hf E2 H2). cbn [d_name dirent_of].
    destruct (ieq nm name); [done|]. apply IH, clear_idle, H2.
Qed.

(** * Sectors and clusters *)

(** the slots of a sector *)
Fixpoint slots (n : nat) (b : list Z) : list (list Z) := match n with O => [] | S n' => take 32 b :: slots n' (drop 32 b) end.

Lemma scan_entries_slots name n : forall st b, scan_entries n name st b = scan_slots name st (slots n b).
Proof. induction n as [|n IH]; intros st b; [done|]. cbn [scan_entries slots scan_slots]. destruct (scan_entry name st (take 32 b)); [apply IH|done]. Qed.

Section volume.
Context (card : Z -> option (list Z)) (v : volume).

Definition block (lba : Z) : list Z := default [] (card lba).
Definition readable (lba : Z) : Prop := is_Some (card lba).

(** the entry of a cluster in the table *)
Definition fat_entry (c : Z) : option Z :=
  let o := c * (if is_fat32 v then 4 else 2) in
  b ← card (fat_start v + o / 512);
  Some (if is_fat32 v then rd32 b (o mod 512) .& 0x0FFFFFFF else rd16 b (o mod 512)).

(** the sectors of a cluster *)
Definition cluster_lbas (c : Z) : list Z := seqZ (data_start v + (c - 2) * sec_per_clus v) (sec_per_clus v).

(** a cluster of the data area, whose numbers fit in 32 bits *)
Record cluster_ok (c : Z) : Prop := {
  cl_low : 2 <= c;
  cl_used : fat_is_eoc v c = false;
  cl_data : data_start v + (c - 1) * sec_per_clus v <= 2 ^ 32;
  cl_table : fat_start v + c < 2 ^ 32;
}.

(** the numbers of the volume *)
Record volume_ok : Prop := {
  vo_fat : 0 <= fat_start v;
  vo_root : 0 <= root_start v /\ 0 <= root_sectors v /\ root_start v + root_sectors v < 2 ^ 32;
  vo_data : 0 <= data_start v;
  vo_clus : 1 <= sec_per_clus v <= 255;
}.

Context (Hv : volume_ok).

Lemma cluster_small c : cluster_ok c -> c < 2 ^ 28.
Proof. intros [_ H _ _]. unfold fat_is_eoc in H. destruct (is_fat32 v); apply Z.leb_gt in H; lia. Qed.

Lemma clus_to_lba_eq c : cluster_ok c -> clus_to_lba v c = data_start v + (c - 2) * sec_per_clus v.
Proof.
  intros Hc. pose proof (cluster_small c Hc). destruct Hc as [H1 _ H3 _], Hv as [_ _ Hd Hs]. unfold clus_to_lba. rewrite (u32_small (c - 2)) by lia.
  rewrite (u32_small ((c - 2) * _)) by nia. rewrite u32_small by nia. done.
Qed.

(** ** The scratch sector *)

(** only the scratch sector differs *)
Definition same_mem (s s' : boot) : Prop := vol s' = vol s /\ dram s' = dram s.

Lemma read_sec_ok lba b s : card lba = Some b -> read_sec card lba s = (0, set_secbuf b s).
Proof. unfold read_sec. by intros ->. Qed.

Lemma fat_next_spec c s : vol s = v -> cluster_ok c -> exists n s', fat_next card c s = (n, s') /\ same_mem s s' /\ (forall m, fat_entry c = Some m -> n = m).
Proof.
  intros Hvs Hc. pose proof (cluster_small c Hc) as Hcs. destruct Hc as [H1 _ _ H4], Hv as [Hf _ _ _]. unfold fat_next, mbind, M_bind, gets. rewrite Hvs.
  assert (Eo : (if is_fat32 v then c *w 4 else c *w 2) = c * (if is_fat32 v then 4 else 2)) by (destruct (is_fat32 v); rewrite u32_small; lia). rewrite Eo.
  set (o := c * (if is_fat32 v then 4 else 2)) in *. assert (Ho : 0 <= o / 512 <= c) by (unfold o; split; [apply Z.div_pos; destruct (is_fat32 v); lia|apply Z.div_le_upper_bound; destruct (is_fat32 v); lia]).
  rewrite u32_small by lia. unfold fat_entry. cbv zeta. fold o. unfold read_sec. destruct (card (fat_start v + o / 512)) as [b|] eqn:E; cbn [negb Z.eqb mret M_ret].
  - eexists _, _. split; [done|]. split; [done|]. cbn [secbuf set_secbuf mbind option_bind]. by intros m [= <-].
  - eexists _, _. split; [done|]. split; [done|]. done.
Qed.

(** ** Reading blocks *)

Lemma poke_app m a l l' : poke m a (l ++ l') = poke (poke m a l) (a + Z.of_nat (length l)) l'.
Proof.
  revert m a. induction l as [|x l IH]; intros m a; cbn [app poke length]; [by rewrite Z.add_0_r|]. rewrite IH. f_equal. lia.
Qed.

Context (Hcard : forall lba b, card lba = Some b -> length b = 512%nat /\ Forall (fun x => 0 <= x < 256) b).

Lemma block_length lba : readable lba -> length (block lba) = 512%nat.
Proof. intros [b E]. unfold block. rewrite E. by apply (Hcard lba). Qed.

Lemma read_blocks_spec n : forall lba buf s, 0 <= lba -> lba + Z.of_nat n <= 2 ^ 32 -> Forall readable (seqZ lba (Z.of_nat n)) ->
  sd_read_blocks card n lba buf s = (0, set_dram (poke (dram s) buf (concat (map block (seqZ lba (Z.of_nat n))))) s).
Proof.
  induction n as [|n IH]; intros lba buf s Hl Hb Hr; [by destruct s|]. rewrite seqZ_cons in Hr by lia. rewrite seqZ_cons by lia. inversion Hr as [|? ? [b E] Hr']; subst.
  cbn [sd_read_blocks map concat]. rewrite E. assert (Eb : block lba = b) by (unfold block; by rewrite E). assert (Hlb : length b = 512%nat) by (by apply (Hcard lba)).
  replace (Z.pred (Z.of_nat (S n))) with (Z.of_nat n) in * by lia. rewrite Eb, poke_app, Hlb.
  destruct n as [|n].
  - cbn [sd_read_blocks]. by destruct s.
  - rewrite u32_small by lia. rewrite IH; [|lia|lia|by replace (lba + 1) with (Z.succ lba) by lia]. replace (lba + 1) with (Z.succ lba) by lia. done.
Qed.

(** ** Loading a chain *)

Definition lbas (cs : list Z) : list Z := concat (map cluster_lbas cs).

(** every cluster leads to the next *)
Fixpoint linked (cs : list Z) : Prop :=
  match cs with
  | c :: ((c' :: _) as cs') => fat_entry c = Some c' /\ linked cs'
  | _ => True
  end.

Definition secs (n : Z) : Z := (n + 511) / 512.
Abbreviation clus_bytes := (sec_per_clus v * 512).

(** the blocks of the first [n] bytes of a chain *)
Definition needed (cs : list Z) (n : Z) : list Z := take (Z.to_nat (secs n)) (lbas cs).

Lemma length_cluster_lbas c : length (cluster_lbas c) = Z.to_nat (sec_per_clus v).
Proof. unfold cluster_lbas. by rewrite length_seqZ. Qed.

Lemma take_seqZ m n k : 0 <= n -> (k <= Z.to_nat n)%nat -> take k (seqZ m n) = seqZ m (Z.of_nat k).
Proof.
  intros Hn Hk. replace n with (Z.of_nat k + (n - Z.of_nat k)) by lia. rewrite seqZ_app by lia. replace k with (length (seqZ m (Z.of_nat k))) at 1 by (rewrite length_seqZ; lia).
  by rewrite take_app_length.
Qed.

Lemma secs_range n : 0 <= n -> 512 * secs n - 511 <= n <= 512 * secs n.
Proof. intros Hn. unfold secs. pose proof (Z.div_mod (n + 511) 512). pose proof (Z.mod_pos_bound (n + 511) 512). lia. Qed.

(** the first cluster and the rest *)
Lemma needed_cons c cs n : 0 <= n -> (n <= clus_bytes \/ cs <> []) -> let want := Z.min n clus_bytes in
  needed (c :: cs) n = seqZ (data_start v + (c - 2) * sec_per_clus v) (secs want) ++ needed cs (n - want) /\ (n - want = 0 \/ 512 * secs want = want) /\ 0 <= secs want <= sec_per_clus v.
Proof.
  intros Hn Hor want. destruct Hv as [_ _ _ Hs]. pose proof (secs_range n Hn) as Hsn. pose proof (secs_range want ltac:(unfold want; lia)) as Hsw. pose proof (secs_range (n - want) ltac:(unfold want; lia)) as Hsr.
  unfold needed, lbas. cbn [map concat]. fold (lbas cs). assert (Hw : 0 <= secs want <= sec_per_clus v) by (unfold want in *; lia). split; [|split; [unfold want in *; lia|done]].
  rewrite take_app, length_cluster_lbas. f_equal.
  - unfold cluster_lbas. destruct (decide (n <= clus_bytes)) as [Hle|Hgt].
    + assert (want = n) as -> by (unfold want; lia). rewrite take_seqZ by lia. f_equal. lia.
    + rewrite take_ge by (rewrite length_seqZ; unfold want in *; lia). f_equal. unfold want in *. lia.
  - f_equal. unfold want in *. lia.
Qed.

Lemma load_chain cs : Forall cluster_ok cs -> linked cs -> forall out n c s, vol s = v -> 0 <= n < 2 ^ 31 ->
  (match cs with [] => n = 0 | x :: _ => c = x /\ (Z.of_nat (length cs) - 1) * clus_bytes < n <= Z.of_nat (length cs) * clus_bytes end) -> Forall readable (needed cs n) ->
  exists s', while_nat (S (length cs)) (load_cluster card) ((out, n, c), s) = inr (0, s') /\ vol s' = v /\ dram s' = poke (dram s) out (concat (map block (needed cs n))).
Proof.
  induction 1 as [|c cs Hc Hcs IH]; intros Hlk out n c0 s Hvs Hn Hhd Hr.
  { subst n. exists s. split; [done|]. split; [done|]. unfold needed, lbas. cbn [map concat]. by rewrite take_nil. }
  destruct Hhd as [-> Hb]. cbn [length] in Hb. pose proof Hv as [_ _ Hds Hs].
  assert (Hor : n <= clus_bytes \/ cs <> []) by (destruct cs; [left; cbn in Hb; lia|by right]).
  assert (Hpos : 0 < n) by (assert (0 <= (Z.of_nat (S (length cs)) - 1) * clus_bytes) by nia; lia).
  destruct (needed_cons c cs n ltac:(lia) Hor) as (En & Hwant & Hsw). set (want := Z.min n clus_bytes) in *. rewrite En in Hr |- *. apply Forall_app in Hr as [Hr1 Hr2].
  change (while_nat (S (length (c :: cs))) ?f ?x) with (match f x with inl y => while_nat (S (length cs)) f y | inr r => inr r end).
  assert (Estep : exists next s1, load_cluster card ((out, n, c), s) = inl ((out + want, n - want, next), s1) /\ vol s1 = v /\
    dram s1 = poke (dram s) out (concat (map block (seqZ (data_start v + (c - 2) * sec_per_clus v) (secs want)))) /\ (forall m, fat_entry c = Some m -> next = m)).
  { unfold load_cluster. rewrite Hvs. rewrite (proj2 (Z.ltb_lt 0 n)), (proj2 (Z.leb_le 2 c)), (cl_used _ Hc) by (apply Hc || lia). cbn [andb negb].
    rewrite (u32_small (sec_per_clus v * 512)) by lia. assert (Ew : (if n <? clus_bytes then n else clus_bytes) = want) by (unfold want; destruct (Z.ltb_spec n clus_bytes); lia). rewrite Ew.
    rewrite (u32_small (want + 511)) by (unfold want; lia). change ((want + 511) / 512) with (secs want). rewrite (clus_to_lba_eq c Hc).
    rewrite <- (Z2Nat.id (secs want)) in Hr1 by lia. pose proof (cl_low _ Hc). pose proof (cl_data _ Hc).
    rewrite (read_blocks_spec (Z.to_nat (secs want)) _ out s) by (done || nia). cbn [Z.eqb negb].
    rewrite Z2Nat.id by lia. set (s1 := set_dram _ s). destruct (fat_next_spec c s1 Hvs Hc) as (nx & s2 & -> & [Hm1 Hm2] & Hnx).
    exists nx, s2. rewrite u32_small by (unfold want; lia). split; [done|]. split; [by rewrite Hm1|]. split; [by rewrite Hm2|done]. }
  destruct Estep as (next & s1 & -> & Hv1 & Hd1 & Hnx).
  destruct (IH ltac:(destruct cs; [done|apply Hlk]) (out + want) (n - want) next s1 Hv1 ltac:(unfold want; lia)) as (s' & -> & Hv' & Hd').
  - destruct cs as [|c2 cs]; [unfold want; cbn in Hb; lia|]. split; [apply Hnx, Hlk|]. cbn [length] in *. assert (want = clus_bytes) as -> by (unfold want; nia). lia.
  - done.
  - exists s'. split; [done|]. split; [done|]. rewrite Hd', Hd1, map_app, concat_app, poke_app. destruct Hwant as [Hz|Hw].
    + rewrite Hz. unfold needed at 1 2. change (Z.to_nat (secs 0)) with 0%nat. by rewrite take_0.
    + f_equal. assert (Hl : forall l, Forall readable l -> length (concat (map block l)) = (512 * length l)%nat).
      { clear -Hcard. intros l. induction 1 as [|x l Hx Hl IHl]; [done|]. cbn [map concat length]. rewrite length_app, IHl, block_length by done. lia. }
      rewrite Hl, length_seqZ by done. lia.
Qed.

(** ** The sectors of the directory *)

(** a chain from [c] on that ends *)
Fixpoint closed (c : Z) (cs : list Z) : Prop :=
  match cs with
  | [] => c < 2 \/ fat_is_eoc v c = true
  | x :: cs' => x = c /\ exists n, fat_entry c = Some n /\ closed n cs'
  end.

Definition dir_sectors (l : list Z) : Prop :=
  Forall readable l /\ Z.of_nat (length l) < 2 ^ 32 /\
  if is_fat32 v then exists cs, closed (root_cluster v) cs /\ Forall cluster_ok cs /\ l = lbas cs
  else l = seqZ (root_start v) (root_sectors v).

Definition dir_slots (l : list Z) : list (list Z) := concat (map (fun lba => slots 16 (block lba)) l).

Abbreviation body name := (scan_sector card name).
Abbreviation finish r := (match r with inr f => f | inl _ => NotFound (-3) end).

Lemma same_mem_trans s1 s2 s3 : same_mem s1 s2 -> same_mem s2 s3 -> same_mem s1 s3.
Proof. intros [H1 H2] [H3 H4]. split; congruence. Qed.

Lemma while_S {T R} n (f : T -> T + R) x : while_nat (S n) f x = match f x with inl y => while_nat n f y | inr r => inr r end.
Proof. done. Qed.

(** the root region of FAT16 *)
Lemma scan_region name : is_fat32 v = false -> forall k c i st s, vol s = v -> 0 <= i -> i + Z.of_nat k = root_sectors v -> Forall readable (seqZ (root_start v + i) (Z.of_nat k)) ->
  exists s', while_nat (S k) (body name) (Cursor c i st, s) = inr (finish (scan_slots name st (dir_slots (seqZ (root_start v + i) (Z.of_nat k)))), s') /\ same_mem s s'.
Proof.
  intros H16 k. destruct Hv as [_ (Hr0 & Hr1 & Hr2) _ _]. induction k as [|k IH]; intros c i st s Hvs Hi Hk Hrd; rewrite while_S; unfold scan_sector at 1; cbn [sec_in_region clus coll]; rewrite Hvs, H16; cbn [negb andb].
  { rewrite (proj2 (Z.leb_le _ _)) by lia. by exists s. }
  rewrite (proj2 (Z.leb_gt _ _)) by lia. rewrite (u32_small (root_start v + i)) by lia. rewrite seqZ_cons in Hrd |- * by lia. inversion Hrd as [|? ? [b Eb] Hrd']; subst.
  rewrite (read_sec_ok _ b _ Eb). cbn [Z.eqb negb secbuf set_secbuf]. rewrite scan_entries_slots. unfold dir_slots. cbn [map concat]. rewrite scan_slots_app.
  assert (Ebl : block (root_start v + i) = b) by (unfold block; by rewrite Eb). rewrite Ebl. destruct (scan_slots name st (slots 16 b)) as [st'|f]; [|eexists; split; [done|done]].
  rewrite u32_small by lia. destruct (IH c (i + 1) st' (set_secbuf b s) Hvs ltac:(lia) ltac:(lia)) as (s' & E & Hs').
  - replace (root_start v + (i + 1)) with (Z.succ (root_start v + i)) by lia. by replace (Z.of_nat k) with (Z.pred (Z.of_nat (S k))) by lia.
  - exists s'. split; [|exact (same_mem_trans s _ _ (conj eq_refl eq_refl) Hs')]. rewrite E. unfold dir_slots. replace (root_start v + (i + 1)) with (Z.succ (root_start v + i)) by lia.
    by replace (Z.of_nat k) with (Z.pred (Z.of_nat (S k))) by lia.
Qed.

(** a cluster of the directory of FAT32, from its sector [j] on *)
Lemma scan_cluster name c m : is_fat32 v = true -> cluster_ok c -> forall k j t st s, vol s = v -> 0 <= j -> 0 < Z.of_nat k -> j + Z.of_nat k = sec_per_clus v -> 0 <= t -> t mod sec_per_clus v = j ->
  t + Z.of_nat k < 2 ^ 32 -> Forall readable (seqZ (data_start v + (c - 2) * sec_per_clus v + j) (Z.of_nat k)) ->
  exists s', same_mem s s' /\
    match scan_slots name st (dir_slots (seqZ (data_start v + (c - 2) * sec_per_clus v + j) (Z.of_nat k))) with
    | inr f => while_nat (k + m) (body name) (Cursor c t st, s) = inr (f, s')
    | inl st' => exists n, (forall n', fat_entry c = Some n' -> n = n') /\ while_nat (k + m) (body name) (Cursor c t st, s) = while_nat m (body name) (Cursor n (t + Z.of_nat k) st', s')
    end.
Proof.
  intros H32 Hc k. pose proof Hv as [_ _ Hds Hspc]. pose proof (cl_low _ Hc). pose proof (cl_data _ Hc).
  induction k as [|k IH]; intros j t st s Hvs Hj Hk Hjk Ht Hmod Ht32 Hrd; [lia|]. cbn [Nat.add]. rewrite while_S.
  rewrite seqZ_cons in Hrd |- * by lia. inversion Hrd as [|? ? [b Eb] Hrd']; subst j.
  assert (Ebl : block (data_start v + (c - 2) * sec_per_clus v + t mod sec_per_clus v) = b) by (unfold block; by rewrite Eb).
  assert (Estep : body name (Cursor c t st, s) = match scan_slots name st (slots 16 b) with
    | inr f => inr (f, set_secbuf b s)
    | inl st' => if (t + 1) mod sec_per_clus v =? 0 then let '(n, s') := fat_next card c (set_secbuf b s) in inl (Cursor n (t + 1) st', s') else inl (Cursor c (t + 1) st', set_secbuf b s)
    end).
  { unfold scan_sector. cbn [sec_in_region clus coll]. rewrite Hvs, H32. cbn [negb andb]. rewrite (proj2 (Z.ltb_ge c 2)), (cl_used _ Hc) by lia. cbn [orb].
    rewrite (clus_to_lba_eq c Hc). rewrite (u32_small (data_start v + _ + _)) by nia. rewrite (read_sec_ok _ b _ Eb). cbn [Z.eqb negb secbuf set_secbuf]. rewrite scan_entries_slots.
    destruct (scan_slots name st (slots 16 b)); [|done]. by rewrite u32_small by lia. }
  unfold body in Estep |- *. rewrite Estep. clear Estep. unfold dir_slots. cbn [map concat]. rewrite Ebl, scan_slots_app. destruct (scan_slots name st (slots 16 b)) as [st'|f]; [|by exists (set_secbuf b s)].
  replace (Z.pred (Z.of_nat (S k))) with (Z.of_nat k) in * by lia. destruct (decide (k = 0%nat)) as [->|Hk0].
  - assert (Hz : (t + 1) mod sec_per_clus v = 0).
    { replace (t + 1) with (t mod sec_per_clus v + 1 + t / sec_per_clus v * sec_per_clus v) by (pose proof (Z.div_mod t (sec_per_clus v)); lia). rewrite Z_mod_plus_full.
      replace (t mod sec_per_clus v + 1) with (sec_per_clus v) by lia. apply Z_mod_same_full. }
    rewrite Hz, Z.eqb_refl. destruct (fat_next_spec c (set_secbuf b s) Hvs Hc) as (n & s' & -> & Hs' & Hn). exists s'. split; [exact (same_mem_trans s _ _ (conj eq_refl eq_refl) Hs')|].
    cbn [seqZ map concat scan_slots Nat.add]. exists n. split; [done|]. done.
  - assert (Hz : (t + 1) mod sec_per_clus v = t mod sec_per_clus v + 1).
    { replace (t + 1) with (t mod sec_per_clus v + 1 + t / sec_per_clus v * sec_per_clus v) at 1 by (pose proof (Z.div_mod t (sec_per_clus v)); lia). rewrite Z_mod_plus_full. apply Z.mod_small. lia. }
    rewrite (proj2 (Z.eqb_neq _ 0)) by lia.
    replace (Z.succ (data_start v + (c - 2) * sec_per_clus v + t mod sec_per_clus v)) with (data_start v + (c - 2) * sec_per_clus v + (t mod sec_per_clus v + 1)) in * by lia.
    destruct (IH (t mod sec_per_clus v + 1) (t + 1) st' (set_secbuf b s) Hvs ltac:(lia) ltac:(lia) ltac:(lia) ltac:(lia) Hz ltac:(lia) Hrd') as (s' & Hs' & Hr).
    exists s'. split; [exact (same_mem_trans s _ _ (conj eq_refl eq_refl) Hs')|]. unfold dir_slots in Hr. replace (t + Z.of_nat (S k)) with (t + 1 + Z.of_nat k) by lia. exact Hr.
Qed.

Lemma dir_slots_app l l' : dir_slots (l ++ l') = dir_slots l ++ dir_slots l'.
Proof. unfold dir_slots. by rewrite map_app, concat_app. Qed.

(** the chain of the directory of FAT32 *)
Lemma scan_chain name cs : is_fat32 v = true -> Forall cluster_ok cs -> forall c t st s, vol s = v -> closed c cs -> 0 <= t -> t mod sec_per_clus v = 0 ->
  t + Z.of_nat (length (lbas cs)) < 2 ^ 32 -> Forall readable (lbas cs) ->
  exists s', while_nat (S (length (lbas cs))) (body name) (Cursor c t st, s) = inr (finish (scan_slots name st (dir_slots (lbas cs))), s') /\ same_mem s s'.
Proof.
  intros H32 Hcs. pose proof Hv as [_ _ _ Hspc]. induction Hcs as [|c cs Hc Hcs IH]; intros c0 t st s Hvs Hcl Ht Hmod Ht32 Hrd.
  { exists s. split; [|done]. unfold lbas. cbn [map concat length]. rewrite while_S. unfold scan_sector. cbn [clus sec_in_region]. rewrite Hvs, H32. cbn [negb andb].
    assert (Hst : (c0 <? 2) || fat_is_eoc v c0 = true) by (apply orb_true_iff; destruct Hcl as [?| ->]; [left; by apply Z.ltb_lt|by right]). by rewrite Hst. }
  destruct Hcl as [<- (n & Hn & Hcl)]. unfold lbas in *. cbn [map concat] in *. fold (lbas cs) in *. rewrite length_app, length_cluster_lbas in *. apply Forall_app in Hrd as [Hr1 Hr2].
  assert (Ec : cluster_lbas c = seqZ (data_start v + (c - 2) * sec_per_clus v + 0) (Z.of_nat (Z.to_nat (sec_per_clus v)))) by (unfold cluster_lbas; rewrite Z2Nat.id, Z.add_0_r by lia; done).
  rewrite Ec in Hr1. rewrite dir_slots_app, scan_slots_app, Ec. replace (S (Z.to_nat (sec_per_clus v) + length (lbas cs)))%nat with (Z.to_nat (sec_per_clus v) + S (length (lbas cs)))%nat by lia.
  destruct (scan_cluster name c (S (length (lbas cs))) H32 Hc (Z.to_nat (sec_per_clus v)) 0 t st s Hvs ltac:(lia) ltac:(lia) ltac:(lia) Ht Hmod ltac:(lia) Hr1) as (s1 & Hs1 & Hr).
  destruct (scan_slots name st (dir_slots (seqZ _ _))) as [st'|f]; [|by exists s1]. destruct Hr as (n' & Hn' & ->). rewrite (Hn' n Hn).
  destruct (IH n (t + Z.of_nat (Z.to_nat (sec_per_clus v))) st' s1) as (s2 & E2 & Hs2); [by rewrite (proj1 Hs1)|done|lia| |lia|done|].
  - rewrite Z2Nat.id by lia. rewrite <- (Z.mul_1_l (sec_per_clus v)) at 1. by rewrite Z_mod_plus_full.
  - exists s2. split; [done|]. by eapply same_mem_trans.
Qed.

(** The directory is scanned slot by slot. *)
Lemma dir_find_slots junk name l s : vol s = v -> dir_sectors l ->
  exists s', dir_find card junk name s = Ok (finish (scan_slots name (Collect (<[0%nat := 0]> junk) 0) (dir_slots l)), s') /\ same_mem s s'.
Proof.
  intros Hvs (Hrd & Hlen & Hl). unfold dir_find. rewrite Hvs.
  assert (H : exists s', while_nat (S (length l)) (body name) (Cursor (root_cluster v) 0 (Collect (<[0%nat := 0]> junk) 0), s) =
    inr (finish (scan_slots name (Collect (<[0%nat := 0]> junk) 0) (dir_slots l)), s') /\ same_mem s s').
  { destruct (is_fat32 v) eqn:E32.
    - destruct Hl as (cs & Hcl & Hok & ->). by apply scan_chain.
    - subst l. rewrite length_seqZ in *. pose proof Hv as [_ (_ & Hr & _) _ _].
      pose proof (scan_region name E32 (Z.to_nat (root_sectors v)) (root_cluster v) 0 (Collect (<[0%nat := 0]> junk) 0) s Hvs ltac:(lia) ltac:(lia)) as H.
      rewrite Z.add_0_r, Z2Nat.id in H by lia. by apply H. }
  destruct H as (s' & Ew & Hs'). exists s'. split; [|done]. by rewrite (while_pos_enough _ (2 ^ 36) _ _ _ Ew) by lia.
Qed.

(** ** Files *)

(** the file [f] holds [data] *)
Definition holds (f : dirent) (data : list Z) : Prop :=
  d_size f = Z.of_nat (length data) /\ d_size f < 2 ^ 31 /\
  exists cs, Forall cluster_ok cs /\ linked cs /\ Forall readable (needed cs (d_size f)) /\
    (match cs with [] => d_size f = 0 | x :: _ => d_clus f = x /\ (Z.of_nat (length cs) - 1) * clus_bytes < d_size f <= Z.of_nat (length cs) * clus_bytes end) /\
    data = take (length data) (concat (map block (needed cs (d_size f)))).

Lemma concat_bytes l : Forall readable l -> Forall (fun x => 0 <= x < 256) (concat (map block l)) /\ length (concat (map block l)) = (512 * length l)%nat.
Proof.
  induction 1 as [|x l [b Eb] Hl [IH1 IH2]]; [by split; [constructor|]|]. cbn [map concat length]. assert (Ebl : block x = b) by (unfold block; by rewrite Eb). destruct (Hcard x b Eb) as [Hb1 Hb2].
  rewrite Ebl. split; [by apply Forall_app|]. rewrite length_app, IH2, Hb1. lia.
Qed.

Lemma bytes_at_poke m a l n : Forall (fun x => 0 <= x < 256) l -> (n <= length l)%nat -> bytes_at (poke m a l) a n = take n l.
Proof.
  intros Hl Hn. apply list_eq. intros i. unfold bytes_at. rewrite list_lookup_fmap. destruct (decide (i < n)%nat) as [Hi|Hi].
  - rewrite lookup_seqZ_lt by lia. cbn [fmap option_fmap option_map]. rewrite lookup_take_lt by done. destruct (lookup_lt_is_Some_2 l i) as [x Hx]; [lia|].
    rewrite poke_lookup, decide_True by (unfold in_range; lia). replace (Z.to_nat (a + (0 + Z.of_nat i) - a)) with i by lia. rewrite Hx. cbn [default from_option id]. f_equal.
    apply u8_small. by apply (Forall_lookup_1 _ _ _ _ Hl Hx).
  - rewrite lookup_seqZ_ge by lia. rewrite lookup_take_ge by lia. done.
Qed.

(** a file loaded to memory at [buf]: its bytes, and at most the rest of its
    last sector, change *)
Definition loaded (buf : Z) (data : list Z) (m m' : mem) : Prop :=
  bytes_at m' buf (length data) = data /\ mem_frame (in_range buf (512 * secs (Z.of_nat (length data)))) m m'.

Lemma fat_load_spec junk name buf max l fs f data s : vol s = v -> length junk = 260%nat -> dir_sectors l -> lists (dir_slots l) fs -> lookup_file fs name = Some f -> holds f data ->
  d_size f <= max -> cok (fat_load card junk name buf max) s (fun r s' => r = d_size f /\ vol s' = v /\ loaded buf data (dram s) (dram s')).
Proof.
  intros Hvs Hj Hdir Hls Hfs (Hsz & H31 & cs & Hok & Hlk & Hrd & Hhd & Hdata) Hmax. unfold fat_load. apply cok_bind.
  destruct (dir_find_slots junk name l s Hvs Hdir) as (s1 & E1 & [Hv1 Hm1]). eapply cok_self; [exact E1|]. cbn beta.
  pose proof (scan_lists name _ fs Hls (Collect (<[0%nat := 0]> junk) 0)) as Hscan. rewrite Hfs in Hscan. rewrite Hscan by (split; [cbn [lfn]; by rewrite length_insert|done]).
  rewrite (proj2 (Z.ltb_ge max _)) by done. destruct (load_chain cs Hok Hlk buf (d_size f) (d_clus f) s1 ltac:(congruence) ltac:(lia) Hhd Hrd) as (s2 & E2 & Hv2 & Hm2).
  assert (Hn : Z.of_nat (S (length cs)) <= Z.pos (2 ^ 23 + 1)).
  { pose proof Hv as [_ _ _ Hs]. destruct cs as [|c cs']; [cbn; lia|]. destruct Hhd as [_ [Hb _]]. cbn [length] in *. nia. }
  unfold cok. rewrite (while_pos_enough _ _ _ _ _ E2 Hn). cbn [ok fst snd Z.eqb]. split; [rewrite s32_small by lia; lia|]. split; [done|].
  destruct (concat_bytes _ Hrd) as [Hb1 Hb2]. rewrite Hm2, Hm1.
  assert (Hlen : (length data <= length (concat (map block (needed cs (d_size f)))))%nat) by (rewrite Hdata at 1; rewrite length_take; lia).
  split; [rewrite bytes_at_poke by done; by symmetry|].
  intros a Ha. rewrite poke_lookup, decide_False; [done|]. intros Hin. apply Ha. unfold in_range in *. rewrite Hb2 in Hin. unfold needed in Hin. rewrite length_take in Hin.
  pose proof (secs_range (d_size f) ltac:(lia)). rewrite <- Hsz. lia.
Qed.
End volume.

(** * Mounting *)

Definition is_fat_type (t : Z) : Prop := t = 0x0B \/ t = 0x0C \/ t = 0x0E \/ t = 0x06 \/ t = 0x04.

(** the first FAT partition of the table starts at [p] *)
Definition first_partition (mbr : list Z) (p : Z) : Prop :=
  exists i : nat, (i < 4)%nat /\ is_fat_type (byte mbr (0x1BE + Z.of_nat i * 16 + 4)) /\ p = rd32 mbr (0x1BE + Z.of_nat i * 16 + 8) /\
    forall j : nat, (j < i)%nat -> ~ is_fat_type (byte mbr (0x1BE + Z.of_nat j * 16 + 4)).

Lemma is_fat_type_spec t : ((t =? 0x0B) || (t =? 0x0C) || (t =? 0x0E) || (t =? 0x06) || (t =? 0x04)) = true <-> is_fat_type t.
Proof. unfold is_fat_type. rewrite !orb_true_iff, !Z.eqb_eq. tauto. Qed.

Lemma find_partition_spec mbr p : first_partition mbr p -> find_partition 4 mbr 0 = p.
Proof.
  intros (i & Hi & Ht & -> & Hb). enough (H : forall n j, (j + n = 4)%nat -> (j <= i)%nat -> find_partition n mbr (Z.of_nat j) = rd32 mbr (0x1BE + Z.of_nat i * 16 + 8)) by (apply (H 4%nat 0%nat); lia).
  induction n as [|n IH]; intros j Hj Hji; [lia|]. cbn [find_partition]. destruct (decide (j = i)) as [->|Hne].
  - by rewrite (proj2 (is_fat_type_spec _) Ht).
  - match goal with |- context [if ?c then _ else _] => destruct c eqn:E end; [exfalso; apply is_fat_type_spec in E; apply (Hb j); [lia|done]|].
    replace (Z.of_nat j + 1) with (Z.of_nat (S j)) by lia. apply IH; lia.
Qed.

(** the layout a boot record describes *)
Definition fat_size (br : list Z) : Z := if negb (rd16 br 0x16 =? 0) then rd16 br 0x16 else rd32 br 0x24.
Definition sectors (br : list Z) : Z := if negb (rd16 br 0x13 =? 0) then rd16 br 0x13 else rd32 br 0x20.
Definition tables (br : list Z) : Z := byte br 0x10 * fat_size br.
Definition root_size (br : list Z) : Z := (rd16 br 0x11 * 32 + 511) / 512.

Definition geometry (p : Z) (br : list Z) : volume :=
  let system := rd16 br 0x0E + tables br + root_size br in
  Vol p (p + rd16 br 0x0E) (p + rd16 br 0x0E + tables br) (root_size br) (p + system) (byte br 0x0D) 512 (rd32 br 0x2C)
    (65525 <=? (sectors br - system) / byte br 0x0D).

(** a card with a volume *)
Record formatted (card : Z -> option (list Z)) (v : volume) : Prop := {
  fo_mbr : exists mbr br p, card 0 = Some mbr /\ rd16 mbr 0x1FE = 0xAA55 /\ first_partition mbr p /\ p <> 0 /\ card p = Some br /\
    rd16 br 0x0B = 512 /\ byte br 0x0D <> 0 /\ 0 <= p /\ p + sectors br < 2 ^ 32 /\ rd16 br 0x0E + tables br + root_size br <= sectors br /\ v = geometry p br;
  fo_blocks : forall lba b, card lba = Some b -> length b = 512%nat /\ Forall (fun x => 0 <= x < 256) b;
}.

Lemma byte_bounds b i : Forall (fun x => 0 <= x < 256) b -> 0 <= byte b i < 256.
Proof. intros Hb. unfold byte. destruct (b !! Z.to_nat i) as [x|] eqn:E; [|cbn; lia]. by apply (Forall_lookup_1 _ _ _ _ Hb E). Qed.

Lemma rd16_bounds b i : Forall (fun x => 0 <= x < 256) b -> 0 <= rd16 b i < 2 ^ 16.
Proof. intros Hb. unfold rd16. pose proof (byte_bounds b i Hb). pose proof (byte_bounds b (i + 1) Hb). rewrite (lor_shiftl _ _ 8) by lia. lia. Qed.

Lemma rd32_bounds b i : Forall (fun x => 0 <= x < 256) b -> 0 <= rd32 b i < 2 ^ 32.
Proof.
  intros Hb. unfold rd32. pose proof (byte_bounds b i Hb). pose proof (byte_bounds b (i + 1) Hb). pose proof (byte_bounds b (i + 2) Hb). pose proof (byte_bounds b (i + 3) Hb).
  rewrite (lor_shiftl _ _ 8), (lor_shiftl _ _ 16), (lor_shiftl _ _ 24) by lia. lia.
Qed.

Lemma fat_mount_spec card v s : formatted card v -> exists s', fat_mount card s = (0, s') /\ vol s' = v /\ dram s' = dram s.
Proof.
  intros [(mbr & br & p & Em & Hsig & Hp & Hp0 & Eb & Hbps & Hspc & Hp1 & Htot & Hsys & ->) Hblk]. destruct (Hblk p br Eb) as [_ Hbytes].
  unfold fat_mount, mbind, M_bind. rewrite (read_sec_ok _ 0 mbr s Em). cbn [Z.eqb negb gets secbuf set_secbuf]. rewrite Hsig. change (0xAA55 =? 0xAA55) with true. cbn [negb].
  rewrite (find_partition_spec mbr p Hp), (proj2 (Z.eqb_neq p 0)) by done. cbn [modify]. rewrite (read_sec_ok _ p br _ Eb). cbn [Z.eqb negb gets secbuf set_secbuf modify]. rewrite Hbps.
  change (512 =? 512) with true. cbn [negb modify mret M_ret]. eexists. split; [done|]. split; [|done]. cbn [vol set_vol set_secbuf].
  unfold set_geometry, set_sizes, set_part, geometry. cbn [part_lba bytes_per_sec sec_per_clus].
  pose proof (rd16_bounds br 0x0E Hbytes) as R1. pose proof (byte_bounds br 0x10 Hbytes) as R2. pose proof (rd16_bounds br 0x11 Hbytes) as R3.
  change (if negb (rd16 br 22 =? 0) then rd16 br 22 else rd32 br 36) with (fat_size br). change (if negb (rd16 br 19 =? 0) then rd16 br 19 else rd32 br 32) with (sectors br).
  assert (Hrs : 0 <= root_size br) by (unfold root_size; apply Z.div_pos; lia).
  assert (Ht : 0 <= tables br) by (unfold tables, fat_size; pose proof (rd16_bounds br 0x16 Hbytes); pose proof (rd32_bounds br 0x24 Hbytes); destruct (negb _); nia).
  rewrite (u32_small (rd16 br 0x11 * 32)) by lia. rewrite (u32_small (512 - 1)) by lia. rewrite (u32_small (rd16 br 0x11 * 32 + _)) by lia. change ((rd16 br 17 * 32 + (512 - 1)) / 512) with (root_size br).
  change (byte br 16 * fat_size br) with (tables br). rewrite (u32_small (tables br)) by lia. rewrite (u32_small (p + rd16 br 14)) by lia. rewrite (u32_small (p + rd16 br 14 + _)) by lia.
  rewrite (u32_small (p + rd16 br 14 + tables br + _)) by lia. rewrite (u32_small (rd16 br 14 + tables br)) by lia. rewrite (u32_small (rd16 br 14 + tables br + _)) by lia. rewrite (u32_small (sectors br - _)) by lia.
  rewrite (proj2 (Z.eqb_neq (byte br 13) 0)) by done. cbn [negb]. f_equal. lia.
Qed.
