(* ===== verification/BootMain.v ===== *)
(** The boot sequence of the bootloader, [main] of [bootloader/main.c], with the
    flash reader of [bootloader/spinor.c].

    What the hardware answers is a parameter: the size that DRAM training
    reports, the result of the card's initialisation, the blocks of the card,
    and the bytes a transfer on the flash bus clocks in.  The contents of
    uninitialised stack arrays are parameters too.  The window of the
    device-tree editor is the DRAM from the blob on; an access behind it is a
    [Fault].  The messages are left out. *)

From stdpp Require Import strings list.
From Stdlib Require Import ZArith Lia.
From S2P Require Import Prelude Checked Memory BootFdt BootCmd BootFat.

Definition DRAM_BASE : Z := 0x40000000.
Definition KERNEL_ADDR : Z := 0x45000000.
Definition DTB_ADDR : Z := 0x46800000.
Definition INITRD_ADDR : Z := 0x46000000.
Definition KERNEL_MAX : Z := 0x01000000.
Definition DTB_MAX : Z := 0x00100000.
Definition INITRD_MAX : Z := 0x00800000.
Definition KERNEL_NAME : list Z := asc "zImage".
Definition DTB_NAME : list Z := asc "sun8i-t113s-mangopi-mq-r-t113.dtb".
Definition INITRD_NAME : list Z := asc "initramfs.cpio.gz".

(** ** The memory test *)

Definition seed : Z := 0x12345678.
(** one word per MiB *)
Definition step : Z := 0x100000 / 4.
Definition word_addr (i : Z) : Z := DRAM_BASE +w (i *w 4).

(** 4096 rounds are enough for [2^30] words. *)
Fixpoint write_pass (n : nat) (i words : Z) (m : mem) : mem :=
  match n with
  | O => m
  | S n' => if i <? words then write_pass n' (i +w step) words (st32 m (word_addr i) (Z.lxor seed i)) else m
  end.

Fixpoint read_pass (n : nat) (i words errors : Z) (m : mem) : Z :=
  match n with
  | O => errors
  | S n' =>
      if i <? words then read_pass n' (i +w step) words (if negb (ld32 m (word_addr i) =? Z.lxor seed i) then errors + 1 else errors) m
      else errors
  end.

Definition dram_quicktest (size_bytes : Z) : M boot Z := fun s =>
  let words := size_bytes / 4 in
  let m := write_pass 4096 0 words (dram s) in
  (read_pass 4096 0 words 0 m, set_dram m s).

(** ** [spinor.c] *)

Definition CMD_READ_ID : Z := 0x9F.
Definition CMD_READ : Z := 0x03.
Definition SPI_FIFO_DEPTH : Z := 64.

Section nor.
(** [spi_burst]: the bytes clocked in while those are clocked out *)
Context (spi_burst : list Z -> list Z).

Definition spinor_init : Z :=
  let rx := spi_burst [CMD_READ_ID; 0; 0; 0] in
  if (byte rx 1 =? 0x00) || (byte rx 1 =? 0xff) then -1 else 0.

(** what a burst clocks out for [n] bytes at [addr] *)
Definition read_cmd (addr : Z) (n : nat) : list Z := [CMD_READ; u8 (addr .>> 16); u8 (addr .>> 8); u8 addr] ++ replicate n 0.

(** one burst: where, how much is left, what came *)
Definition read_burst (x : Z * Z * list Z) : (Z * Z * list Z) + list Z :=
  let '(addr, len, got) := x in
  if 0 <? len then
    let MAX_DATA := SPI_FIFO_DEPTH - 4 in
    let n := if len <? MAX_DATA then len else MAX_DATA in
    let rx := spi_burst (read_cmd addr (Z.to_nat n)) in
    inl (addr +w n, len -w n, got ++ take (Z.to_nat n) (drop 4 rx))
  else inr got.

(** the result, and what is stored from [buf] on; [2^27] bursts hold [2^32]
    bytes *)
Definition spinor_read (addr len : Z) : outcome (Z * list Z) :=
  match while_pos (2 ^ 27) read_burst (addr, len, []) with inr got => Ok (0, got) | inl _ => NoFuel end.
End nor.

(** the fields of [struct nor_table] *)
Definition NOR_TABLE_OFF : Z := 0.
Definition SIZEOF_NOR_TABLE : Z := 0x2C.
Definition kernel_off (t : list Z) : Z := rd32 t 0x10.
Definition kernel_size (t : list Z) : Z := rd32 t 0x14.
Definition dtb_off (t : list Z) : Z := rd32 t 0x18.
Definition dtb_size (t : list Z) : Z := rd32 t 0x1C.
Definition initrd_off (t : list Z) : Z := rd32 t 0x20.
Definition initrd_size (t : list Z) : Z := rd32 t 0x24.

(** the six characters of the magic that are compared *)
Definition magic_ok (t : list Z) : bool :=
  (byte t 0 =? 71) && (byte t 1 =? 86) && (byte t 2 =? 51) && (byte t 3 =? 78) && (byte t 4 =? 79) && (byte t 5 =? 82).

(** ** [main] *)

Inductive source := BOOT_SRC_SD | BOOT_SRC_NOR.

(** how it ends: a [return], or the branch to the kernel *)
Inductive halt := Returned | Boot_kernel (entry dtb : Z).

Record board := Board {
  dram_bytes : Z;                   (* sunxi_dram_init *)
  sd_init : Z;
  card : Z -> option (list Z);
  spi : list Z -> list Z;
  junk : nat -> list Z;             (* [lfn] of the three calls of [dir_find] *)
  cmdline : list Z;                 (* [cmdline] of [main] *)
}.

Section main.
Context (b : board).

(** the three sizes, if all went well *)
Definition load_sd : C boot (option (Z * Z * Z)) :=
  if negb (sd_init b =? 0) then mret None
  else
    r ← run (fat_mount (card b));
    if negb (r =? 0) then mret None
    else
      ksz ← fat_load (card b) (junk b 0) KERNEL_NAME KERNEL_ADDR KERNEL_MAX;
      dsz ← fat_load (card b) (junk b 1) DTB_NAME DTB_ADDR DTB_MAX;
      isz ← fat_load (card b) (junk b 2) INITRD_NAME INITRD_ADDR INITRD_MAX;
      if (ksz <? 0) || (dsz <? 0) || (isz <? 0) then mret None
      else mret (Some (ksz, dsz, isz)).

(** [spinor_read] to memory at [buf] *)
Definition nor_to (addr buf len : Z) : C boot Z :=
  r ← lift (spinor_read (spi b) addr len);
  change (fun s => set_dram (poke (dram s) buf r.2) s) ≫= fun _ =>
  mret r.1.

Definition load_nor : C boot (option (Z * Z * Z)) :=
  if negb (spinor_init (spi b) =? 0) then mret None
  else
    r ← lift (spinor_read (spi b) NOR_TABLE_OFF SIZEOF_NOR_TABLE);
    if negb (r.1 =? 0) then mret None
    else
      let tbl := r.2 in
      if negb (magic_ok tbl) then mret None
      else
        r ← nor_to (kernel_off tbl) KERNEL_ADDR (kernel_size tbl);
        if negb (r =? 0) then mret None
        else
          r ← nor_to (dtb_off tbl) DTB_ADDR (dtb_size tbl);
          if negb (r =? 0) then mret None
          else
            r ← nor_to (initrd_off tbl) INITRD_ADDR (initrd_size tbl);
            if negb (r =? 0) then mret None
            else mret (Some (kernel_size tbl, dtb_size tbl, initrd_size tbl)).

(** the DRAM from [a] on *)
Definition dram_from (a : Z) (s : boot) : list Z := bytes_at (dram s) a (Z.to_nat (DRAM_BASE + dram_bytes b - a)).

(** Stage 4 *)
Definition hand_over (isz : Z) : C boot halt :=
  d ← look (dram_from DTB_ADDR);
  r ← lift (fdt_check d);
  if negb (r =? 0) then mret Returned
  else
    text ← lift (build_cmdline (cmdline b) 224 INITRD_ADDR (u32 isz));
    r ← lift (fdt_set_bootargs d (until_nul text));
    change (fun s => set_dram (poke (dram s) DTB_ADDR r.2) s) ≫= fun _ =>
    if negb (r.1 =? 0) then mret Returned
    else mret (Boot_kernel KERNEL_ADDR DTB_ADDR).

Definition main (src : source) : C boot halt :=
  if dram_bytes b =? 0 then mret Returned
  else
    errs ← run (dram_quicktest (dram_bytes b));
    sizes ← (match src with BOOT_SRC_SD => load_sd | BOOT_SRC_NOR => load_nor end);
    match sizes with
    | None => mret Returned
    | Some (_, _, isz) => hand_over isz
    end.
End main.
