(* ===== verification/BootHandoff.v ===== *)
(** The handoff of the bootloader: whatever the source of the boot files, [main]
    branches to the kernel with the files in place, and what the kernel reads
    from the device tree ([read_handoff]) is where the bootloader put the
    archive and the memory the tree describes. *)

From stdpp Require Import strings list.
From Stdlib Require Import ZArith Lia.
From S2P Require Import Prelude Checked Memory Pmm KernMem Vm Kfdt KfdtTree Kern Boot BootFdt BootFdtTree BootCmd BootFat BootFatSpec BootMain.

Abbreviation is_byte := (fun x : Z => 0 <= x < 256).

(** * The editor stores bytes *)

(** [ends_in c Q]: the value of [c], if there is one, is in [Q]. *)
Definition ends_in {A} (c : outcome A) (Q : A -> Prop) : Prop := match c with Ok a => Q a | _ => True end.

Lemma ends_bind {A B} (c : outcome A) (k : A -> outcome B) P Q : ends_in c P -> (forall a, P a -> ends_in (k a) Q) -> ends_in (c ≫= k) Q.
Proof. destruct c; cbn; auto. Qed.

Lemma ends_skip {A B} (c : outcome A) (k : A -> outcome B) Q : (forall a, ends_in (k a) Q) -> ends_in (c ≫= k) Q.
Proof. intros H. by apply (ends_bind c k (fun _ => True)); [destruct c|]. Qed.

Abbreviation bytes := (Forall is_byte).

Section edit.
Context (n : nat).

(** a buffer of [n] bytes *)
Definition buffer (d : list Z) : Prop := length d = n /\ bytes d.

Lemma aset_bytes d i v : buffer d -> is_byte v -> ends_in (aset d i v) buffer.
Proof. intros [Hl Hd] Hv. unfold aset. destruct (_ || _); [done|]. split; [by rewrite length_insert|by apply Forall_insert]. Qed.

Lemma aref_bytes d i : buffer d -> ends_in (aref d i) is_byte.
Proof. intros [_ Hd]. unfold aref. destruct (i <? 0); [done|]. destruct (d !! Z.to_nat i) eqn:E; [|done]. by apply (Forall_lookup_1 _ _ _ _ Hd E). Qed.

Lemma u8_byte v : is_byte (u8 v).
Proof. unfold u8. change (2 ^ 8) with 256. apply Z.mod_pos_bound. lia. Qed.

Lemma wr32_bytes d p v : buffer d -> ends_in (wr32 d p v) buffer.
Proof.
  intros Hd. unfold wr32. eapply ends_bind; [apply aset_bytes; [done|apply u8_byte]|]. intros d1 H1. eapply ends_bind; [apply aset_bytes; [done|apply u8_byte]|]. intros d2 H2.
  eapply ends_bind; [apply aset_bytes; [done|apply u8_byte]|]. intros d3 H3. apply aset_bytes; [done|apply u8_byte].
Qed.

Lemma iter_bytes k (f : Z -> Z) (at_ : Z -> Z) : (forall i, is_byte (f i)) -> forall i d, buffer d -> ends_in (iter k i (fun i d => aset d (at_ i) (f i)) d) buffer.
Proof.
  intros Hf. induction k as [|k IH]; intros i d Hd; cbn [iter]; [done|]. eapply ends_bind; [by apply aset_bytes|]. intros d' Hd'. by apply IH.
Qed.

Lemma shift_bytes_bytes k d from delta : buffer d -> ends_in (shift_bytes k d from delta) buffer.
Proof.
  revert d. induction k as [|k IH]; intros d Hd; cbn [shift_bytes]; [done|]. eapply ends_bind; [by apply aref_bytes|]. intros x Hx.
  eapply ends_bind; [by apply aset_bytes|]. intros d' Hd'. by apply IH.
Qed.

Lemma default_byte l i : bytes l -> is_byte (default 0 (l !! i)).
Proof. intros Hl. destruct (l !! i) eqn:E; cbn; [by apply (Forall_lookup_1 _ _ _ _ Hl E)|lia]. Qed.

Lemma put_value_bytes k d pos cmd need : buffer d -> bytes cmd -> ends_in (put_value k d pos cmd need) buffer.
Proof. intros Hd Hc. apply (iter_bytes _ (fun i => if i <? need then _ else 0)); [|done]. intros i. destruct (i <? need); [by apply default_byte|lia]. Qed.

Lemma strings_append_bytes d name : buffer d -> bytes name -> ends_in (strings_append d name) (fun r => buffer r.2).
Proof.
  intros Hd Hn. unfold strings_append. do 3 (apply ends_skip; intros ?). eapply ends_bind; [apply (iter_bytes _ (fun i => default 0 (name !! Z.to_nat i))); [|done]; intros i; by apply default_byte|].
  intros d1 H1. eapply ends_bind; [by apply wr32_bytes|]. intros d2 H2. eapply ends_bind; [by apply wr32_bytes|]. by intros d3 H3.
Qed.

Lemma replace_bytes d tokpos len valpos cmd need : buffer d -> bytes cmd -> ends_in (fdt_replace_bootargs d tokpos len valpos cmd need) (fun r => buffer r.2).
Proof.
  intros Hd Hc. unfold fdt_replace_bootargs. destruct (_ <? _).
  - apply ends_skip; intros total. eapply ends_bind; [by apply shift_bytes_bytes|]. intros d1 H1. eapply ends_bind; [by apply wr32_bytes|]. intros d2 H2. apply ends_skip; intros os.
    eapply ends_bind; [by apply wr32_bytes|]. intros d3 H3. apply ends_skip; intros ss. eapply ends_bind; [by apply wr32_bytes|]. intros d4 H4. eapply ends_bind; [by apply wr32_bytes|]. intros d5 H5.
    eapply ends_bind; [by apply put_value_bytes|]. by intros d6 H6.
  - eapply ends_bind; [by apply put_value_bytes|]. by intros d1 H1.
Qed.

Lemma insert_bytes d ip cmd need noff : buffer d -> bytes cmd -> ends_in (insert_at d ip cmd need noff) (fun r => buffer r.2).
Proof.
  intros Hd Hc. unfold insert_at. apply ends_skip; intros total. eapply ends_bind; [by apply shift_bytes_bytes|]. intros d1 H1. eapply ends_bind; [by apply wr32_bytes|]. intros d2 H2.
  apply ends_skip; intros os. eapply ends_bind; [by apply wr32_bytes|]. intros d3 H3. apply ends_skip; intros ss. do 4 (eapply ends_bind; [by apply wr32_bytes|]; intros ? ?).
  eapply ends_bind; [by apply put_value_bytes|]. by intros d6 H6.
Qed.

Lemma set_bootargs_bytes d cmd : buffer d -> bytes cmd -> ends_in (fdt_set_bootargs d cmd) (fun r => buffer r.2).
Proof.
  intros Hd Hc. unfold fdt_set_bootargs. apply ends_skip; intros c. destruct (negb _); [done|]. do 4 (apply ends_skip; intros ?). destruct (negb _); [done|]. cbv zeta. apply ends_skip; intros e.
  destruct e as [[|] body|tokpos len valpos|]; [|done|by apply replace_bytes|done]. unfold fdt_insert_bootargs. apply ends_skip; intros noff.
  apply (ends_bind _ _ (fun r => buffer r.2)); [|intros r Hr; by apply insert_bytes]. destruct (noff <? 0); [|done]. apply strings_append_bytes; [done|]. repeat constructor; lia.
Qed.
End edit.

(** * What the kernel reads about the memory *)

Definition be_val (v : list Z) : Z := match v with a :: b :: c :: d :: _ => ((a * 256 + b) * 256 + c) * 256 + d | _ => 0 end.

(** a number of cells, 1 when the root does not say *)
Definition cells (n : node) (name : list Z) : Z :=
  match find_prop n [] name with Some v => if (4 <=? length v)%nat then be_val v else 1 | None => 1 end.

(** the first range of [/memory], the low words of its address and its size *)
Definition memory_range (n : node) : option (Z * Z) :=
  let ac := cells n s_address_cells in
  let sc := cells n s_size_cells in
  if (ac <? 1) || (2 <? ac) || (sc <? 1) || (2 <? sc) then None
  else
    match find_prop n [[109;101;109;111;114;121]] s_reg with
    | None => None
    | Some v =>
        if Z.of_nat (length v) <? (ac + sc) * 4 then None
        else Some (be_val (drop (Z.to_nat ((ac - 1) * 4)) v), be_val (drop (Z.to_nat (ac * 4 + (sc - 1) * 4)) v))
    end.

Lemma be_of_bytes a b c e r : is_byte a -> is_byte b -> is_byte c -> is_byte e ->
  be (be_val (a :: b :: c :: e :: r)) = [a; b; c; e] /\ 0 <= be_val (a :: b :: c :: e :: r) < 2 ^ 32.
Proof.
  cbv beta. intros Ha Hb Hc He. cbn [be_val]. split; [|lia]. unfold be.
  assert (E1 : (((a * 256 + b) * 256 + c) * 256 + e) / 2 ^ 8 = (a * 256 + b) * 256 + c) by (change (2 ^ 8) with 256; rewrite Z.div_add_l, (Z.div_small e) by lia; lia).
  assert (E2 : (((a * 256 + b) * 256 + c) * 256 + e) / 2 ^ 16 = a * 256 + b) by (change (2 ^ 16) with (2 ^ 8 * 256); rewrite <- Z.div_div, E1, Z.div_add_l, (Z.div_small c) by lia; lia).
  assert (E3 : (((a * 256 + b) * 256 + c) * 256 + e) / 2 ^ 24 = a) by (change (2 ^ 24) with (2 ^ 16 * 256); rewrite <- Z.div_div, E2, Z.div_add_l, (Z.div_small b) by lia; lia).
  rewrite E1, E2, E3. repeat f_equal; rewrite Z.add_comm, Z.mod_add by lia; apply Z.mod_small; lia.
Qed.

Lemma be32_val d p v r : bytes d -> drop p d = v ++ r -> (4 <= length v)%nat -> Kfdt.be32 d (Z.of_nat p) = Ok (be_val v).
Proof.
  intros Hd E Hv. destruct v as [|a [|b [|c [|e v]]]]; cbn [length] in Hv; try lia. assert (Hb : bytes (a :: b :: c :: e :: v ++ r)) by (change (a :: b :: c :: e :: v ++ r) with ((a :: b :: c :: e :: v) ++ r); rewrite <- E; by apply Forall_drop).
  rewrite !Forall_cons in Hb. destruct Hb as (Ha & Hb & Hc & He & _). destruct (be_of_bytes a b c e v Ha Hb Hc He) as [Hbe Hr]. apply (be32_be d p _ (v ++ r)); [|done].
  rewrite E, Hbe. done.
Qed.

Section reader.
Context (d : list Z) (root : node) (ost : nat) (os total : Z) (Hd : bytes d) (Hb : blob_ok d root ost os total).

Lemma root_u32_spec name : plain name -> root_u32 d name 1 = Ok (cells root name).
Proof.
  intros Hn. pose proof (kfdt_getprop_lookup d root ost os total [SLASH] [] name Hb (or_intror (conj eq_refl eq_refl)) (List.Forall_nil _) Hn) as H.
  unfold root_u32, cells. destruct (find_prop root [] name) as [v|]; [|by rewrite H]. destruct H as (o & Ho & -> & Hv). cbn [mbind outcome_bind].
  destruct (Nat.leb_spec 4 (length v)) as [Hl|Hl]; [|by rewrite (proj2 (Z.leb_gt 4 _)) by lia]. rewrite (proj2 (Z.leb_le 4 _)) by lia.
  rewrite <- (Z2Nat.id o Ho). apply (be32_val d _ v (drop (length v) (drop (Z.to_nat o) d))); [done| |done]. rewrite <- Hv at 1. by rewrite take_drop.
Qed.

(** The kernel reads the range of the memory node. *)
Lemma kfdt_memory_spec : kfdt_memory d = Ok (memory_range root).
Proof.
  unfold kfdt_memory, memory_range. rewrite root_u32_spec by (repeat constructor; discriminate). cbn [mbind outcome_bind]. rewrite root_u32_spec by (repeat constructor; discriminate). cbn [mbind outcome_bind].
  set (ac := cells root s_address_cells). set (sc := cells root s_size_cells). destruct ((ac <? 1) || _ || _ || _) eqn:E; [done|].
  rewrite !orb_false_iff, !Z.ltb_ge in E. destruct E as [[[E1 E2] E3] E4].
  pose proof (kfdt_getprop_lookup d root ost os total s_memory [[109;101;109;111;114;121]] s_reg Hb (or_introl eq_refl)
    ltac:(constructor; [split; [done|]; repeat constructor; discriminate|constructor]) ltac:(repeat constructor; discriminate)) as H.
  destruct (find_prop root _ s_reg) as [v|]; [|by rewrite H]. destruct H as (o & Ho & -> & Hv). cbn [mbind outcome_bind]. rewrite !u32_small by (rewrite ?u32_small; lia).
  destruct (Z.ltb_spec (Z.of_nat (length v)) ((ac + sc) * 4)) as [|Hl]; [done|].
  assert (Hsub : forall q, 0 <= q -> q + 4 <= Z.of_nat (length v) -> Kfdt.be32 d (o + q) = Ok (be_val (drop (Z.to_nat q) v))).
  { intros q Hq Hq4. rewrite <- (Z2Nat.id (o + q)) by lia. apply (be32_val d _ _ (drop (length v) (drop (Z.to_nat o) d))); [done| |rewrite length_drop; lia].
    rewrite Z2Nat.inj_add, <- drop_drop by lia. rewrite <- (take_drop (length v) (drop (Z.to_nat o) d)) at 1. rewrite Hv, drop_app_le by lia. done. }
  rewrite Hsub by lia. cbn [mbind outcome_bind]. rewrite <- Z.add_assoc, Hsub by lia. done.
Qed.
End reader.

(** * Stage 4 *)

Lemma bytes_at_bytes m a n : bytes (bytes_at m a n).
Proof. unfold bytes_at. apply Forall_fmap, Forall_forall. intros x _. apply u8_byte. Qed.

Lemma cmd_text_chars addr size : Forall (fun c => 0 < c < 256) (cmd_text addr size).
Proof.
  assert (Hnum : forall base v, 1 < base <= 16 -> Forall (fun c => 0 < c < 256) (num_text base v)).
  { intros base v Hb. rewrite num_text_digits. apply Forall_fmap. eapply Forall_impl; [apply num_digits_range; lia|]. intros x Hx. cbn in *. unfold digit_char. destruct (x <? 10); lia. }
  assert (Hlit : forall l, forallb (fun c => (0 <? c) && (c <? 256)) l = true -> Forall (fun c => 0 < c < 256) l).
  { intros l Hl. rewrite forallb_forall in Hl. apply List.Forall_forall. intros c Hc. specialize (Hl c Hc). lia. }
  unfold cmd_text. repeat apply Forall_app_2; first [apply Hnum; lia|by apply Hlit].
Qed.

Section stage4.
Context (b : board) (x : dtb) (ps : list fprop) (isz : Z).
Context (Hx : dtb_ok x) (Hsole : sole_chosen (root x) ps) (Hstart : find_prop (root x) [s_chosen] s_start = None).
Context (Hisz : 0 <= isz < 2 ^ 32) (Hbuf : length (cmdline b) = 224%nat).
Context (Hroom : DTB_ADDR + Z.of_nat (length (enc_dtb x)) + 256 <= DRAM_BASE + dram_bytes b) (Hdram : dram_bytes b <= 2 ^ 30).

Abbreviation cmd := (cmd_text INITRD_ADDR isz).
Abbreviation window := (DRAM_BASE + dram_bytes b - DTB_ADDR).

(** the kernel's view of a patched blob in memory *)
Lemma handoff_spec x' (k : kern pmm) : set_bootargs x cmd = Some x' -> dtb_ok x' -> Z.of_nat (length (enc_dtb x')) < 2 ^ 30 ->
  bytes_at (vm_pm (kvm k)) DTB_ADDR (length (enc_dtb x')) = enc_dtb x' ->
  read_handoff k DTB_ADDR = Ok (Handoff DTB_ADDR true (Z.of_nat (total_size x')) (ram_top_of (memory_range (root x))) (INITRD_ADDR, isz)).
Proof.
  intros Hset Hx' Hlen Hmem. pose proof (length_enc_dtb x' (db_rsv _ Hx')) as Hl. pose proof (dtb_blob x' [] Hx' ltac:(lia)) as Hblob. rewrite app_nil_r in Hblob.
  assert (Hby : bytes (enc_dtb x')) by (rewrite <- Hmem; apply bytes_at_bytes).
  assert (H40 : (40 <= length (enc_dtb x'))%nat) by (rewrite Hl; unfold total_size, off_strings, off_struct; lia).
  assert (Hpre : forall n, (n <= length (enc_dtb x'))%nat -> bytes_at (vm_pm (kvm k)) DTB_ADDR n = take n (enc_dtb x')).
  { intros n Hn. rewrite <- Hmem. replace (length (enc_dtb x')) with (n + (length (enc_dtb x') - n))%nat at 1 by lia. rewrite bytes_at_app, take_app_length'; [done|]. by rewrite length_bytes_at. }
  assert (Hword : forall p n, 0 <= p -> (Z.to_nat p + 4 <= n)%nat -> (n <= length (enc_dtb x'))%nat -> Kfdt.be32 (take n (enc_dtb x')) p = Kfdt.be32 (enc_dtb x') p).
  { intros p n Hp Hn Hn'. unfold Kfdt.be32, aref. rewrite !(proj2 (Z.ltb_ge _ 0)) by lia. by rewrite !lookup_take_lt by lia. }
  assert (Hvalid : valid_at k DTB_ADDR = Ok true).
  { unfold valid_at, bytes_of. change (DTB_ADDR =? 0) with false. cbn match. rewrite Hpre by lia. unfold kfdt_valid. rewrite Hword, (bl_magic _ _ _ _ _ Hblob) by lia. done. }
  unfold read_handoff. rewrite Hvalid. cbn [negb mbind outcome_bind]. rewrite Hvalid. cbn [mbind outcome_bind].
  unfold totalsize_at, bytes_of, kfdt_totalsize. rewrite Hpre, Hword, (bl_total _ _ _ _ _ Hblob) by lia. cbn [mbind outcome_bind]. rewrite Nat2Z.id, <- Hl, Hmem.
  rewrite (kfdt_memory_spec _ _ _ _ _ Hby Hblob). cbn [mbind outcome_bind].
  pose proof (cmdline_reaches_kernel x ps INITRD_ADDR isz x' [] Hx Hx' Hsole ltac:(unfold INITRD_ADDR; lia) Hisz Hstart Hset) as Hin. rewrite app_nil_r in Hin. rewrite Hin by lia. cbn [mbind outcome_bind default from_option id].
  destruct (set_bootargs_changed x _ x' Hset) as (nm & rp & ch & ch' & Er & Er' & Hone).
  assert (Hsame : forall comps name, comps <> [s_chosen] -> find_prop (root x') comps name = find_prop (root x) comps name).
  { intros comps name Hc. rewrite Er, Er'. apply one_changed_lookup; [done|by left]. }
  unfold memory_range, cells. rewrite !Hsame by discriminate. done.
Qed.

(** The blob in memory is patched, and the kernel finds what it needs. *)
Lemma hand_over_spec s : bytes_at (dram s) DTB_ADDR (length (enc_dtb x)) = enc_dtb x ->
  exists x', set_bootargs x cmd = Some x' /\
    cok (hand_over b isz) s (fun r s' => r = Boot_kernel KERNEL_ADDR DTB_ADDR /\ bytes_at (dram s') DTB_ADDR (length (enc_dtb x')) = enc_dtb x' /\
      mem_frame (in_range DTB_ADDR window) (dram s) (dram s') /\
      forall k : kern pmm, vm_pm (kvm k) = dram s' ->
        read_handoff k DTB_ADDR = Ok (Handoff DTB_ADDR true (Z.of_nat (total_size x')) (ram_top_of (memory_range (root x))) (INITRD_ADDR, isz))).
Proof.
  intros Hmem. destruct (set_bootargs_value x ps cmd Hsole) as (x' & Hset & _). exists x'. split; [done|].
  set (n := length (enc_dtb x)) in *. set (sl := bytes_at (dram s) (DTB_ADDR + Z.of_nat n) (Z.to_nat window - n)).
  assert (Hwin : bytes_at (dram s) DTB_ADDR (Z.to_nat window) = enc_dtb x ++ sl).
  { replace (Z.to_nat window) with (n + (Z.to_nat window - n))%nat by lia. rewrite bytes_at_app, Hmem. done. }
  assert (Hsl : length sl = (Z.to_nat window - n)%nat) by (unfold sl; by rewrite length_bytes_at).
  assert (Hcl : (length cmd <= 103)%nat) by (rewrite cmd_text_core, length_app; pose proof (cmd_core_length INITRD_ADDR isz); change (length (asc "=10")) with 3%nat; lia).
  pose proof (fdt_set_bootargs_spec x cmd sl Hx) as Hedit. rewrite Hset, length_app, Hsl in Hedit. fold n in Hedit. unfold DTB_ADDR, DRAM_BASE in *.
  destruct Hedit as [Hedit Hx']; [lia|lia|]. change 0x46800000 with DTB_ADDR in *. change 0x40000000 with DRAM_BASE in *.
  assert (Hch : forall r, until_nul (cmd ++ 0 :: r) = cmd) by (intros r; apply until_nul_plain; eapply Forall_impl; [apply cmd_text_chars|]; cbn; lia).
  assert (Hcheck : fdt_check (enc_dtb x ++ sl) = Ok 0).
  { unfold fdt_check. pose proof (dtb_blob x sl Hx) as Hb. rewrite <- (length_enc_dtb x (db_rsv _ Hx)) in Hb. fold n in Hb. unfold DTB_ADDR, DRAM_BASE in Hroom.
    by rewrite (bl_magic _ _ _ _ _ (Hb ltac:(lia)) : BootFdt.be32 _ 0 = Ok Kfdt.FDT_MAGIC). }
  unfold hand_over. apply cok_bind, cok_look. unfold dram_from. rewrite Hwin. apply cok_bind, cok_lift. rewrite Hcheck. cbn [ok Z.eqb negb].
  destruct (build_cmdline_spec (cmdline b) 224 INITRD_ADDR isz ltac:(unfold INITRD_ADDR; lia) Hisz Hbuf ltac:(lia)) as [r Hcmd].
  apply cok_bind, cok_lift. rewrite u32_small, Hcmd by lia. cbn [ok]. rewrite Hch. apply cok_bind, cok_lift. rewrite Hedit. cbn [ok]. apply cok_bind, cok_change. cbn [fst snd Z.eqb negb]. apply cok_ret. cbn [dram set_dram].
  set (d' := enc_dtb x' ++ _) in *. assert (Hd' : buffer (Z.to_nat window) d').
  { pose proof (set_bootargs_bytes (Z.to_nat window) (enc_dtb x ++ sl) cmd) as H. rewrite Hedit in H.
    apply H; [rewrite <- Hwin; split; [apply length_bytes_at|apply bytes_at_bytes]|]. eapply Forall_impl; [apply cmd_text_chars|]. cbn. lia. }
  destruct Hd' as [Hlen Hbytes].
  assert (Hblob : bytes_at (poke (dram s) DTB_ADDR d') DTB_ADDR (length (enc_dtb x')) = enc_dtb x') by (rewrite bytes_at_poke; [by unfold d'; rewrite take_app_length|done|unfold d'; rewrite length_app; lia]).
  split; [done|]. split; [done|]. split.
  - intros a Ha. rewrite poke_lookup, decide_False; [done|]. rewrite Hlen. intros Hin. apply Ha. unfold in_range in *. lia.
  - intros k Hk. apply handoff_spec; [done|done| |by rewrite Hk]. apply (f_equal length) in Hwin. unfold d' in Hlen. rewrite length_app in Hlen. unfold DTB_ADDR, DRAM_BASE in *. lia.
Qed.
End stage4.

(** the boot files of a machine *)
Record payload := Payload { zimage : list Z; tree : dtb; archive : list Z }.

(** files that fit their places, and a device tree that the editor takes *)
Record payload_ok (b : board) (p : payload) (ps : list fprop) : Prop := {
  pl_kernel : Z.of_nat (length (zimage p)) <= KERNEL_MAX;
  pl_archive : Z.of_nat (length (archive p)) <= INITRD_MAX;
  pl_tree : dtb_ok (tree p);
  pl_chosen : sole_chosen (root (tree p)) ps;
  pl_start : find_prop (root (tree p)) [s_chosen] s_start = None;
  pl_buf : length (cmdline b) = 224%nat;
  pl_room : DTB_ADDR + Z.of_nat (length (enc_dtb (tree p))) + 256 <= DRAM_BASE + dram_bytes b;
  pl_dram : dram_bytes b <= 2 ^ 30;
}.

(** the kernel is entered with the files in memory, the tree in [r2] has the
    command line, and the reader of the kernel finds the archive and the memory *)
Definition booted (p : payload) (r : halt) (s : boot) : Prop :=
  let size := Z.of_nat (length (archive p)) in
  r = Boot_kernel KERNEL_ADDR DTB_ADDR /\
  bytes_at (dram s) KERNEL_ADDR (length (zimage p)) = zimage p /\
  bytes_at (dram s) INITRD_ADDR (length (archive p)) = archive p /\
  exists x', set_bootargs (tree p) (cmd_text INITRD_ADDR size) = Some x' /\ bytes_at (dram s) DTB_ADDR (length (enc_dtb x')) = enc_dtb x' /\
    forall k : kern pmm, vm_pm (kvm k) = dram s ->
      read_handoff k DTB_ADDR = Ok (Handoff DTB_ADDR true (Z.of_nat (total_size x')) (ram_top_of (memory_range (root (tree p)))) (INITRD_ADDR, size)).

Lemma bytes_at_frame P m m' a n : mem_frame P m m' -> (forall y, in_range a (Z.of_nat n) y -> ~ P y) -> bytes_at m' a n = bytes_at m a n.
Proof.
  intros Hf Hn. unfold bytes_at. apply list_fmap_ext. intros i y Hy. apply lookup_seqZ in Hy as [-> Hy]. apply Hf, Hn. unfold in_range. lia.
Qed.

Lemma hand_over_booted b p ps s : payload_ok b p ps -> bytes_at (dram s) KERNEL_ADDR (length (zimage p)) = zimage p ->
  bytes_at (dram s) DTB_ADDR (length (enc_dtb (tree p))) = enc_dtb (tree p) -> bytes_at (dram s) INITRD_ADDR (length (archive p)) = archive p ->
  cok (hand_over b (Z.of_nat (length (archive p)))) s (booted p).
Proof.
  intros [Hk Ha Ht Hc Hs Hb Hr Hd] Mk Md Ma. unfold KERNEL_MAX, INITRD_MAX in *.
  destruct (hand_over_spec b (tree p) ps (Z.of_nat (length (archive p))) Ht Hc Hs ltac:(lia) Hb Hr Hd s Md) as (x' & Hset & H). eapply cok_mono; [exact H|].
  intros r s' (-> & Hblob & Hf & Hk'). split; [done|].
  split; [rewrite (bytes_at_frame _ _ _ _ _ Hf); [done|]; unfold in_range, KERNEL_ADDR, DTB_ADDR; lia|].
  split; [rewrite (bytes_at_frame _ _ _ _ _ Hf); [done|]; unfold in_range, INITRD_ADDR, DTB_ADDR; lia|]. by exists x'.
Qed.

(** * From the flash *)

(** the flash answers the identification and the read command *)
Record nor_device (spi : list Z -> list Z) (flash : Z -> Z) : Prop := {
  nd_id : byte (spi [CMD_READ_ID; 0; 0; 0]) 1 = 0xEF;
  nd_read : forall a (n : nat), 0 <= a -> (n <= 60)%nat -> a + Z.of_nat n <= 2 ^ 24 ->
    exists h, length h = 4%nat /\ spi (read_cmd a n) = h ++ (flash <$> seqZ a (Z.of_nat n));
  nd_bytes : forall a, is_byte (flash a);
}.

Section nor.
Context (spi : list Z -> list Z) (flash : Z -> Z) (Hdev : nor_device spi flash).

Lemma read_bursts k : forall a (len : nat) got, (len <= 60 * k)%nat -> 0 <= a -> a + Z.of_nat len <= 2 ^ 24 ->
  while_nat (S k) (read_burst spi) (a, Z.of_nat len, got) = inr (got ++ (flash <$> seqZ a (Z.of_nat len))).
Proof.
  induction k as [|k IH]; intros a len got Hk Ha H24; rewrite while_S; unfold read_burst.
  { replace len with 0%nat by lia. change (Z.of_nat 0) with 0. rewrite Z.ltb_irrefl. cbn. by rewrite app_nil_r. }
  destruct (Z.ltb_spec 0 (Z.of_nat len)) as [Hl|Hl]; [|replace len with 0%nat by lia; change (Z.of_nat 0) with 0; cbn; by rewrite app_nil_r].
  change (SPI_FIFO_DEPTH - 4) with 60. set (n := if Z.of_nat len <? 60 then Z.of_nat len else 60). assert (Hn : 0 < n <= 60 /\ n <= Z.of_nat len /\ (n = 60 \/ n = Z.of_nat len)) by (unfold n; destruct (Z.ltb_spec (Z.of_nat len) 60); lia). clearbody n.
  destruct (nd_read _ _ Hdev a (Z.to_nat n) Ha ltac:(lia) ltac:(lia)) as (h & Hh & ->). rewrite drop_app_length' by done. rewrite take_ge by (rewrite length_fmap, length_seqZ; lia).
  rewrite !u32_small by lia. replace (Z.of_nat len - n) with (Z.of_nat (len - Z.to_nat n)) by lia. rewrite IH by lia. rewrite <- app_assoc, <- fmap_app, Z2Nat.id by lia.
  rewrite <- seqZ_app by lia. do 4 f_equal. lia.
Qed.

Lemma spinor_read_spec a len : 0 <= a -> 0 <= len -> a + len <= 2 ^ 24 -> spinor_read spi a len = Ok (0, flash <$> seqZ a len).
Proof.
  intros Ha Hl H24. unfold spinor_read. pose proof (read_bursts (Z.to_nat len) a (Z.to_nat len) [] ltac:(lia) Ha ltac:(lia)) as H. rewrite Z2Nat.id in H by lia.
  rewrite (while_pos_enough _ _ _ _ _ H) by lia. done.
Qed.
End nor.

(** the component [data] at [off] *)
Definition component (flash : Z -> Z) (off size : Z) (data : list Z) : Prop :=
  size = Z.of_nat (length data) /\ off + size <= 2 ^ 24 /\ (flash <$> seqZ off size) = data.

(** a flash with the table and the three components *)
Definition flashed (flash : Z -> Z) (p : payload) : Prop :=
  let t := flash <$> seqZ NOR_TABLE_OFF SIZEOF_NOR_TABLE in
  magic_ok t = true /\ component flash (kernel_off t) (kernel_size t) (zimage p) /\ component flash (dtb_off t) (dtb_size t) (enc_dtb (tree p)) /\
  component flash (initrd_off t) (initrd_size t) (archive p).

Lemma nor_to_spec b flash off buf size data s : nor_device (spi b) flash -> 0 <= off -> component flash off size data ->
  cok (nor_to b off buf size) s (fun r s' => r = 0 /\ bytes_at (dram s') buf (length data) = data /\ mem_frame (in_range buf (Z.of_nat (length data))) (dram s) (dram s')).
Proof.
  intros Hdev Ho (Hs & Hend & Hdata). unfold nor_to. apply cok_bind, cok_lift. rewrite (spinor_read_spec _ _ Hdev) by lia. cbn [ok]. apply cok_bind, cok_change, cok_ret. cbn [fst snd dram set_dram]. rewrite Hdata.
  assert (Hb : bytes data) by (rewrite <- Hdata; apply Forall_fmap, Forall_forall; intros y _; apply (nd_bytes _ _ Hdev)).
  split; [done|]. split; [rewrite bytes_at_poke by done; by rewrite take_ge|]. intros a Ha. by rewrite poke_lookup, decide_False.
Qed.

Lemma nor_boot_spec b p ps flash s : payload_ok b p ps -> nor_device (spi b) flash -> flashed flash p -> cok (main b BOOT_SRC_NOR) s (booted p).
Proof.
  intros Hp Hdev (Hmagic & Hk & Hd & Ha). pose proof Hp as [Lk La _ _ _ _ Hroom _]. unfold KERNEL_MAX, INITRD_MAX in *. unfold main.
  rewrite (proj2 (Z.eqb_neq (dram_bytes b) 0)) by (unfold DTB_ADDR, DRAM_BASE in Hroom; lia). apply cok_bind, cok_run. unfold wp. cbn [dram_quicktest fst snd].
  set (s0 := set_dram _ s). clearbody s0. apply cok_bind. unfold load_nor, spinor_init. rewrite (nd_id _ _ Hdev). change ((0xEF =? 0x00) || (0xEF =? 0xff)) with false. cbn match. cbn [Z.eqb negb].
  apply cok_bind, cok_lift. rewrite (spinor_read_spec _ _ Hdev) by (unfold NOR_TABLE_OFF, SIZEOF_NOR_TABLE; lia). cbn [ok fst snd Z.eqb negb].
  set (t := flash <$> seqZ NOR_TABLE_OFF SIZEOF_NOR_TABLE) in *. assert (Ht : bytes t) by (apply Forall_fmap, Forall_forall; intros y _; apply (nd_bytes _ _ Hdev)). rewrite Hmagic. cbn [negb].
  apply cok_bind. eapply cok_mono; [apply (nor_to_spec b flash _ _ _ _ _ Hdev (proj1 (rd32_bounds t 0x10 Ht)) Hk)|]. intros r1 s1 (-> & B1 & F1). cbn [Z.eqb negb].
  apply cok_bind. eapply cok_mono; [apply (nor_to_spec b flash _ _ _ _ _ Hdev (proj1 (rd32_bounds t 0x18 Ht)) Hd)|]. intros r2 s2 (-> & B2 & F2). cbn [Z.eqb negb].
  apply cok_bind. eapply cok_mono; [apply (nor_to_spec b flash _ _ _ _ _ Hdev (proj1 (rd32_bounds t 0x20 Ht)) Ha)|]. intros r3 s3 (-> & B3 & F3). cbn [Z.eqb negb].
  apply cok_ret. destruct Ha as [-> _]. apply (hand_over_booted b p ps); [done| | |done].
  - rewrite (bytes_at_frame _ _ _ _ _ F3), (bytes_at_frame _ _ _ _ _ F2); [done|unfold in_range, KERNEL_ADDR, DTB_ADDR; lia|unfold in_range, KERNEL_ADDR, INITRD_ADDR; lia].
  - rewrite (bytes_at_frame _ _ _ _ _ F3); [done|unfold in_range, DTB_ADDR, INITRD_ADDR; lia].
Qed.

(** * From the card *)

(** the volume [v] of the card holds [data] under that name *)
Definition has_file (card : Z -> option (list Z)) (v : volume) (name data : list Z) : Prop :=
  exists l fs f, dir_sectors card v l /\ lists (dir_slots card l) fs /\ lookup_file fs name = Some f /\ holds card v f data.

(** a card with the three files *)
Definition carded (card : Z -> option (list Z)) (p : payload) : Prop :=
  exists v, formatted card v /\ has_file card v KERNEL_NAME (zimage p) /\ has_file card v DTB_NAME (enc_dtb (tree p)) /\ has_file card v INITRD_NAME (archive p).

Lemma formatted_volume card v : formatted card v -> volume_ok v.
Proof.
  intros [(mbr & br & p & _ & _ & _ & _ & Eb & _ & Hspc & Hp & Htot & Hsys & ->) Hblk]. destruct (Hblk p br Eb) as [_ Hb].
  pose proof (rd16_bounds br 0x0E Hb) as R1. pose proof (rd16_bounds br 0x11 Hb) as R2. pose proof (byte_bounds br 0x0D Hb) as R3. pose proof (byte_bounds br 0x10 Hb) as R4.
  assert (Hrs : 0 <= root_size br) by (unfold root_size; apply Z.div_pos; lia).
  assert (Ht : 0 <= tables br) by (unfold tables, fat_size; pose proof (rd16_bounds br 0x16 Hb); pose proof (rd32_bounds br 0x24 Hb); destruct (negb _); nia).
  unfold geometry. split; cbn [fat_start root_start root_sectors data_start sec_per_clus]; lia.
Qed.

Lemma fat_load_file card v junk name buf max data s : formatted card v -> vol s = v -> length junk = 260%nat -> has_file card v name data -> Z.of_nat (length data) <= max ->
  cok (fat_load card junk name buf max) s (fun r s' => r = Z.of_nat (length data) /\ vol s' = v /\ loaded buf data (dram s) (dram s')).
Proof.
  intros Hf Hv Hj (l & fs & f & Hdir & Hls & Hlk & Hh) Hmax. pose proof Hh as [Hsz _].
  eapply cok_mono; [apply (fat_load_spec card v (formatted_volume _ _ Hf) (fo_blocks _ _ Hf) junk name buf max l fs f data s Hv Hj Hdir Hls Hlk Hh); lia|]. cbn beta. by rewrite Hsz.
Qed.

Lemma sd_boot_spec b p ps s : payload_ok b p ps -> Z.of_nat (length (enc_dtb (tree p))) <= DTB_MAX -> sd_init b = 0 -> (forall i, length (junk b i) = 260%nat) -> carded (card b) p ->
  cok (main b BOOT_SRC_SD) s (booted p).
Proof.
  intros Hp Ld Hsd Hj (v & Hf & Hk & Hd & Ha). pose proof Hp as [Lk La _ _ _ _ Hroom _]. unfold main.
  rewrite (proj2 (Z.eqb_neq (dram_bytes b) 0)) by (unfold DTB_ADDR, DRAM_BASE in Hroom; lia). apply cok_bind, cok_run. unfold wp. cbn [dram_quicktest fst snd].
  set (s0 := set_dram _ s). clearbody s0. apply cok_bind. unfold load_sd. rewrite Hsd. cbn [Z.eqb negb]. apply cok_bind, cok_run. unfold wp.
  destruct (fat_mount_spec (card b) v s0 Hf) as (s1 & -> & Hv1 & _). cbn [fst snd Z.eqb negb].
  apply cok_bind. eapply cok_mono; [by apply (fat_load_file (card b) v _ _ _ _ _ _ Hf Hv1 (Hj _) Hk)|]. intros r2 s2 (-> & Hv2 & B2 & F2).
  apply cok_bind. eapply cok_mono; [by apply (fat_load_file (card b) v _ _ _ _ _ _ Hf Hv2 (Hj _) Hd)|]. intros r3 s3 (-> & Hv3 & B3 & F3).
  apply cok_bind. eapply cok_mono; [by apply (fat_load_file (card b) v _ _ _ _ _ _ Hf Hv3 (Hj _) Ha)|]. intros r4 s4 (-> & Hv4 & B4 & F4).
  rewrite !(proj2 (Z.ltb_ge _ 0)) by lia. cbn [orb]. apply cok_ret. unfold KERNEL_MAX, INITRD_MAX, DTB_MAX in *.
  pose proof (secs_range (Z.of_nat (length (archive p))) ltac:(lia)). pose proof (secs_range (Z.of_nat (length (enc_dtb (tree p)))) ltac:(lia)).
  apply (hand_over_booted b p ps); [done| | |done].
  - rewrite (bytes_at_frame _ _ _ _ _ F4), (bytes_at_frame _ _ _ _ _ F3); [done|unfold in_range, KERNEL_ADDR, DTB_ADDR; lia|unfold in_range, KERNEL_ADDR, INITRD_ADDR; lia].
  - rewrite (bytes_at_frame _ _ _ _ _ F4); [done|unfold in_range, DTB_ADDR, INITRD_ADDR; lia].
Qed.
