(* ===== verification/BootTheorems.v ===== *)
(** What the bootloader guarantees: the reader of the card's volume, and the boot
    from either source, with a small card and a small flash to run them on. *)

From stdpp Require Import strings list.
From Stdlib Require Import ZArith Lia.
From S2P Require Import Prelude Checked Memory Pmm KernMem Vm Kfdt KfdtTree Kern Boot BootFdt BootFdtTree BootCmd BootFat BootFatSpec BootMain BootHandoff.

(** ** A machine *)

Definition demo_tree : dtb :=
  Dtb (replicate 16 0) []
    (Node [] [] [Node (asc "memory") [Prop_ 0 s_reg (be 0x40000000 ++ be 0x08000000)] []; Node s_chosen [] []])
    [] [s_reg].
Definition demo_payload : payload := Payload [1; 2; 3; 4; 5] demo_tree [48; 55; 48; 55].

(** *** The flash *)

Definition demo_dtb : list Z := enc_dtb demo_tree.
Definition le (v : Z) : list Z := rev (be v).
Definition demo_table : list Z :=
  asc "GV3NOR1" ++ [0] ++ le 1 ++ le 0 ++ le 44 ++ le 5 ++ le 49 ++ le (Z.of_nat (length demo_dtb)) ++ le (49 + Z.of_nat (length demo_dtb)) ++ le 4 ++ le 0.
Definition demo_image : list Z := demo_table ++ zimage demo_payload ++ demo_dtb ++ archive demo_payload.
Definition demo_flash (a : Z) : Z := default 255 (demo_image !! Z.to_nat a).

Definition demo_spi (tx : list Z) : list Z :=
  match tx with
  | c :: a2 :: a1 :: a0 :: pad =>
      if c =? CMD_READ_ID then [255; 0xEF; 0x40; 0x18] else replicate 4 255 ++ (demo_flash <$> seqZ (a2 * 65536 + a1 * 256 + a0) (Z.of_nat (length pad)))
  | _ => []
  end.

(** *** The card: the partition table, the boot record, a table, a directory of
    one sector, a sector for each file *)

Definition sector (l : list Z) : list Z := l ++ replicate (512 - length l) 0.

Definition demo_mbr : list Z :=
  replicate 0x1BE 0 ++ [0; 0; 0; 0; 0x06; 0; 0; 0] ++ le 1 ++ le 6 ++ replicate 48 0 ++ [0x55; 0xAA].
Definition demo_record : list Z :=
  sector (replicate 0x0B 0 ++ [0; 2; 1; 1; 0; 1; 16; 0; 7; 0; 0; 1; 0]).
Definition demo_fat : list Z := sector [0xF8; 0xFF; 0xFF; 0xFF; 0xFF; 0xFF; 0xFF; 0xFF; 0xFF; 0xFF].

Definition file_entry (name : list Z) (clus size : Z) : list Z := name ++ [0x20] ++ replicate 14 0 ++ [clus; 0] ++ le size.
Definition long_entry (ord : Z) (cs : list Z) : list Z :=
  let ch i := [default 0 (cs !! i); 0] in
  [ord] ++ concat (map ch (seq 0 5)) ++ [0x0F; 0; 0] ++ concat (map ch (seq 5 6)) ++ [0; 0] ++ concat (map ch (seq 11 2)).

Definition demo_slots : list (list Z) :=
  [ file_entry (asc "ZIMAGE     ") 2 5;
    long_entry 0x43 (drop 26 DTB_NAME); long_entry 2 (take 13 (drop 13 DTB_NAME)); long_entry 1 (take 13 DTB_NAME);
    file_entry (asc "SUN8I-~1DTB") 3 (Z.of_nat (length demo_dtb));
    long_entry 0x42 (drop 13 INITRD_NAME); long_entry 1 (take 13 INITRD_NAME);
    file_entry (asc "INITRA~1GZ ") 4 4 ].

Definition demo_disk : list (list Z) :=
  [ demo_mbr; demo_record; demo_fat; sector (concat demo_slots); sector (zimage demo_payload); sector demo_dtb; sector (archive demo_payload) ].
Definition demo_card (lba : Z) : option (list Z) := if lba <? 0 then None else demo_disk !! Z.to_nat lba.

Definition demo_board : board := Board (2 ^ 27) 0 demo_card demo_spi (fun _ => replicate 260 255) (replicate 224 255).

(** ** It is one *)

Lemma demo_tree_ok : dtb_ok demo_tree.
Proof.
  split; [done| |].
  - constructor; [constructor|constructor|]. constructor; [|constructor; [|constructor]]; constructor.
    + repeat constructor; discriminate.
    + constructor; [|constructor]. split; [repeat constructor; discriminate|]. cbn [pr_noff pr_val pr_name demo_tree strs]. split; [vm_compute; split; [discriminate|done]|]. split; [lia|].
      split; [vm_compute; done|]. exists []. done.
    + constructor.
    + apply plain_chosen.
    + constructor.
    + constructor.
  - constructor; [|constructor]. repeat constructor; discriminate.
Qed.

Lemma demo_payload_ok : payload_ok demo_board demo_payload [].
Proof.
  split; [vm_compute; discriminate|vm_compute; discriminate|apply demo_tree_ok| |done|done|vm_compute; discriminate|vm_compute; discriminate].
  exists [Node (asc "memory") [Prop_ 0 s_reg (be 0x40000000 ++ be 0x08000000)] []], [], []. split; [done|]. constructor; [discriminate|constructor].
Qed.

Lemma demo_device : nor_device demo_spi demo_flash.
Proof.
  split; [done| |].
  - intros a n Ha Hn H24. exists (replicate 4 255). split; [done|]. unfold demo_spi, read_cmd. cbn [app]. change (CMD_READ =? CMD_READ_ID) with false. cbn match. rewrite length_replicate.
    destruct n as [|n]; [done|]. do 3 f_equal. unfold u8. rewrite !Z.shiftr_div_pow2 by lia. change (2 ^ 8) with 256. change (2 ^ 16) with (256 * 256). rewrite <- Z.div_div by lia.
    assert (a / 256 / 256 < 256) by (apply Z.div_lt_upper_bound; [lia|]; apply Z.div_lt_upper_bound; lia).
    assert (0 <= a / 256 / 256) by (apply Z.div_pos; [apply Z.div_pos|]; lia). rewrite (Z.mod_small (a / 256 / 256)) by lia. pose proof (Z.div_mod a 256). pose proof (Z.div_mod (a / 256) 256). lia.
  - intros a. unfold demo_flash. assert (H : Forall (fun x => 0 <= x < 256) demo_image).
    { assert (E : forallb (fun x => (0 <=? x) && (x <? 256)) demo_image = true) by (vm_compute; reflexivity). rewrite forallb_forall in E. apply List.Forall_forall. intros x Hx. specialize (E x Hx). lia. }
    destruct (demo_image !! Z.to_nat a) as [x|] eqn:E; cbn; [|lia]. exact (Forall_lookup_1 _ _ _ _ H E).
Qed.

Lemma demo_flashed : flashed demo_flash demo_payload.
Proof. unfold flashed. cbv zeta. split; [vm_compute; reflexivity|]. repeat split; vm_compute; try reflexivity; discriminate. Qed.

Lemma demo_blocks lba b : demo_card lba = Some b -> length b = 512%nat /\ Forall (fun x => 0 <= x < 256) b.
Proof.
  unfold demo_card. destruct (lba <? 0); [done|]. intros E. apply list_elem_of_lookup_2 in E.
  assert (H : forallb (fun b => (Nat.eqb (length b) 512) && forallb (fun x => (0 <=? x) && (x <? 256)) b) demo_disk = true) by (vm_compute; reflexivity).
  rewrite forallb_forall in H. specialize (H b (proj1 (list_elem_of_In _ _) E)). apply andb_prop in H as [H1 H2]. split; [by apply Nat.eqb_eq|].
  rewrite forallb_forall in H2. apply List.Forall_forall. intros x Hx. specialize (H2 x Hx). lia.
Qed.

Definition demo_volume : volume := Vol 1 2 3 1 4 1 512 0 false.

Lemma demo_formatted : formatted demo_card demo_volume.
Proof.
  split; [|exact demo_blocks]. exists demo_mbr, demo_record, 1. split; [done|]. split; [vm_compute; reflexivity|]. split.
  { exists 0%nat. split; [lia|]. split; [right; right; right; left; vm_compute; reflexivity|]. split; [vm_compute; reflexivity|]. lia. }
  split; [done|]. split; [done|]. split; [vm_compute; reflexivity|]. split; [vm_compute; discriminate|]. split; [lia|]. split; [vm_compute; reflexivity|]. split; [vm_compute; discriminate|].
  vm_compute. reflexivity.
Qed.

Lemma demo_dir : dir_sectors demo_card demo_volume [3].
Proof. split; [constructor; [by eexists|constructor]|]. split; [cbn; lia|done]. Qed.

Definition demo_files : list dirent :=
  [ Dirent (asc "zimage") 2 5; Dirent DTB_NAME 3 (Z.of_nat (length demo_dtb)); Dirent INITRD_NAME 4 4 ].

Lemma demo_lists : lists (dir_slots demo_card [3]) demo_files.
Proof.
  assert (E : dir_slots demo_card [3] = demo_slots ++ replicate 8 (replicate 32 0)) by (vm_compute; reflexivity). rewrite E. clear E.
  assert (Hs : forall e, (negb (byte e 0 =? 0) && negb (byte e 0 =? 0xE5) && negb (byte e 0x0B =? 0x0F) && (byte e 0x0B .& 0x08 =? 0)) = true -> file_slot e).
  { intros e He. unfold file_slot. lia. }
  assert (Hp : forall nm k e, (negb (byte e 0 =? 0) && negb (byte e 0 =? 0xE5) && (byte e 0x0B =? 0x0F) && (byte e 0 .& 0x1F =? Z.of_nat k)) = true ->
    lfn_chars e = take 13 (drop (13 * (k - 1)) (nm ++ replicate 13 0)) -> is_part nm k e).
  { intros nm k e He Hc. unfold is_part. split; [lia|]. split; [lia|]. split; [lia|]. split; [lia|done]. }
  assert (Hn : forall l, forallb (fun c => negb (c =? 0)) l = true -> Forall (fun c => c <> 0) l).
  { intros l Hl. rewrite forallb_forall in Hl. apply List.Forall_forall. intros c Hc. specialize (Hl c Hc). lia. }
  apply (lists_short (file_entry (asc "ZIMAGE     ") 2 5)); [apply Hs; vm_compute; reflexivity|].
  apply (lists_long DTB_NAME [long_entry 0x43 (drop 26 DTB_NAME); long_entry 2 (take 13 (drop 13 DTB_NAME)); long_entry 1 (take 13 DTB_NAME)] (file_entry (asc "SUN8I-~1DTB") 3 (Z.of_nat (length demo_dtb)))).
  { split; [apply Hn; vm_compute; reflexivity|]. split; [vm_compute; lia|]. change ((length DTB_NAME + 12) / 13)%nat with 3%nat. cbn [parts].
    split; [apply Hp; vm_compute; reflexivity|]. split; [apply Hp; vm_compute; reflexivity|]. split; [apply Hp; vm_compute; reflexivity|]. done. }
  { apply Hs; vm_compute; reflexivity. }
  apply (lists_long INITRD_NAME [long_entry 0x42 (drop 13 INITRD_NAME); long_entry 1 (take 13 INITRD_NAME)] (file_entry (asc "INITRA~1GZ ") 4 4)).
  { split; [apply Hn; vm_compute; reflexivity|]. split; [vm_compute; lia|]. change ((length INITRD_NAME + 12) / 13)%nat with 2%nat. cbn [parts]. split; [apply Hp; vm_compute; reflexivity|]. split; [apply Hp; vm_compute; reflexivity|]. done. }
  { apply Hs; vm_compute; reflexivity. }
  by apply lists_end.
Qed.

(** a file of one cluster *)
Lemma demo_holds f (c : nat) data : d_size f = Z.of_nat (length data) -> (1 <= length data <= 512)%nat -> d_clus f = Z.of_nat c -> (2 <= c <= 4)%nat ->
  demo_card (Z.of_nat (c + 2)) = Some (sector data) -> holds demo_card demo_volume f data.
Proof.
  intros Hsz Hlen Hc Hcl Hb. split; [done|]. split; [lia|]. exists [Z.of_nat c].
  assert (Hn : needed demo_volume [Z.of_nat c] (d_size f) = [Z.of_nat (c + 2)]).
  { unfold needed, lbas. cbn [map concat]. rewrite app_nil_r. unfold cluster_lbas. cbn [data_start sec_per_clus demo_volume]. replace (4 + (Z.of_nat c - 2) * 1) with (Z.of_nat (c + 2)) by lia.
    assert (secs (d_size f) = 1) as -> by (pose proof (secs_range (d_size f) ltac:(lia)); lia). cbn; f_equal; lia. }
  rewrite Hn. split; [|split; [done|]; split; [by constructor; [eexists|constructor]|]; split].
  - constructor; [|constructor]. split; cbn [fat_is_eoc is_fat32 data_start sec_per_clus fat_start demo_volume]; [lia|apply Z.leb_gt; lia|lia|lia].
  - split; [done|]. cbn [sec_per_clus demo_volume length]. lia.
  - cbn [map concat]. unfold block. rewrite Hb. cbn [default from_option id]. rewrite app_nil_r. unfold sector. by rewrite take_app_length.
Qed.

Lemma demo_carded : carded demo_card demo_payload.
Proof.
  exists demo_volume. split; [exact demo_formatted|]. split; [|split].
  - exists [3], demo_files, (Dirent (asc "zimage") 2 5). split; [exact demo_dir|]. split; [exact demo_lists|]. split; [vm_compute; reflexivity|]. apply (demo_holds _ 2); [done|cbn; lia|done|lia|done].
  - exists [3], demo_files, (Dirent DTB_NAME 3 (Z.of_nat (length demo_dtb))). split; [exact demo_dir|]. split; [exact demo_lists|]. split; [vm_compute; reflexivity|].
    apply (demo_holds _ 3); [done|vm_compute; lia|done|lia|done].
  - exists [3], demo_files, (Dirent INITRD_NAME 4 4). split; [exact demo_dir|]. split; [exact demo_lists|]. split; [vm_compute; reflexivity|]. apply (demo_holds _ 4); [done|cbn; lia|done|lia|done].
Qed.

(** * The volume *)

Lemma fat_load_absent card v junk name buf max l fs s : formatted card v -> vol s = v -> length junk = 260%nat -> dir_sectors card v l -> lists (dir_slots card l) fs ->
  match lookup_file fs name with
  | None => cok (fat_load card junk name buf max) s (fun r s' => r = -1 /\ dram s' = dram s)
  | Some f => max < d_size f -> cok (fat_load card junk name buf max) s (fun r s' => r = -2 /\ dram s' = dram s)
  end.
Proof.
  intros Hf Hv Hj Hdir Hls. destruct (dir_find_slots card v (formatted_volume _ _ Hf) junk name l s Hv Hdir) as (s1 & E1 & [_ Hm1]).
  pose proof (scan_lists name _ fs Hls (Collect (<[0%nat := 0]> junk) 0)) as Hscan. assert (Hid : idle (Collect (<[0%nat := 0]> junk) 0)) by (split; [cbn [lfn]; by rewrite length_insert|done]).
  unfold fat_load. destruct (lookup_file fs name) as [f|].
  - intros Hmax. apply cok_bind. eapply cok_self; [exact E1|]. cbn beta. rewrite Hscan by done. by rewrite (proj2 (Z.ltb_lt max _)).
  - apply cok_bind. eapply cok_self; [exact E1|]. cbn beta. by destruct (Hscan Hid) as [[st ->]| ->].
Qed.



(** * The boot *)

(** C17. The bootloader boots from a card: with a FAT volume that has the kernel,
    the device tree and the archive in its root directory, each within its
    limit, and a tree with one node [/chosen] that does not name an archive
    itself, in a DRAM of at most 1 GiB with 256 bytes to spare behind it, [main]
    branches to the kernel, whatever was in memory before; the
    kernel and the archive are in memory byte for byte, the blob in [r2] is the
    flattened form of the tree with the command line set, and there the kernel
    reads the address and the size of the archive and the memory of the tree. *)
Theorem sd_boot_correct b p ps s :
  payload_ok b p ps -> Z.of_nat (length (enc_dtb (tree p))) <= DTB_MAX -> sd_init b = 0 -> (forall i, length (junk b i) = 260%nat) -> carded (card b) p ->
  cok (main b BOOT_SRC_SD) s (booted p).
Proof. apply sd_boot_spec. Qed.

Lemma sd_boot_correct_witness : exists s', main demo_board BOOT_SRC_SD (BootFat.Boot demo_volume [] ∅) = Ok (Boot_kernel KERNEL_ADDR DTB_ADDR, s') /\
  booted demo_payload (Boot_kernel KERNEL_ADDR DTB_ADDR) s' /\ bytes_at (dram s') KERNEL_ADDR 5 = [1; 2; 3; 4; 5].
Proof.
  pose proof (sd_boot_correct demo_board demo_payload [] (BootFat.Boot demo_volume [] ∅) demo_payload_ok ltac:(vm_compute; discriminate) eq_refl ltac:(intros i; reflexivity) demo_carded) as H.
  apply cok_ex in H as (r & s' & E & H). pose proof H as (-> & Hk & _). exists s'. split; [exact E|]. split; [exact H|exact Hk].
Defined.

(** C18. The bootloader boots from the flash: with the table and the three
    components in a flash that answers the read command, the bursts of
    [spinor_read] put them in memory byte for byte, and the rest is as from a
    card. *)
Theorem nor_boot_correct b p ps flash s :
  payload_ok b p ps -> nor_device (spi b) flash -> flashed flash p -> cok (main b BOOT_SRC_NOR) s (booted p).
Proof. apply nor_boot_spec. Qed.

Lemma nor_boot_correct_witness : exists s', main demo_board BOOT_SRC_NOR (BootFat.Boot demo_volume [] ∅) = Ok (Boot_kernel KERNEL_ADDR DTB_ADDR, s') /\
  booted demo_payload (Boot_kernel KERNEL_ADDR DTB_ADDR) s' /\ bytes_at (dram s') INITRD_ADDR 4 = [48; 55; 48; 55].
Proof.
  pose proof (nor_boot_correct demo_board demo_payload [] demo_flash (BootFat.Boot demo_volume [] ∅) demo_payload_ok demo_device demo_flashed) as H.
  apply cok_ex in H as (r & s' & E & H). pose proof H as (-> & _ & Ha & _). exists s'. split; [exact E|]. split; [exact H|exact Ha].
Defined.

Lemma fdt_set_bootargs_correct_witness : exists x',
  fdt_set_bootargs (demo_dtb ++ replicate 64 0) (asc "quiet") = Ok (0, enc_dtb x' ++ drop (length (enc_dtb x') - length demo_dtb) (replicate 64 0)) /\
  exists z, find_prop (root x') [s_chosen] s_bootargs = Some (asc "quiet" ++ 0 :: replicate z 0).
Proof.
  destruct (fdt_set_bootargs_correct demo_tree (asc "quiet") (replicate 64 0) demo_tree_ok ltac:(vm_compute; reflexivity) ltac:(cbn; lia)) as [H _].
  destruct (H [] (pl_chosen _ _ _ demo_payload_ok) ltac:(by intros old)) as (x' & H1 & _ & H2 & _). exists x'. split; [exact H1|exact H2].
Defined.
